(* ===== verification/_CoqProject ===== *)
-Q . S2P
Prelude.v
Uint256.v
Types.v
OpCodes.v
SfvmStack.v
SfvmAnalysis.v
SfvmHashCache.v
SfvmContext.v
SfvmMemory.v
SfvmGas.v
SfvmInstructions.v
SfvmInterpreter.v
SfvmLogic.v
RefWorld.v
SfvmSafety.v
SfvmExecution.v
SfvmProperties.v
SfvmMachine.v
SfvmEffects.v
FloriaStateContract.v
FloriaContext.v
FloriaProcessor.v
FloriaFrame.v
FloriaSfvm.v
FloriaProperties.v
FloriaFees.v
FloriaContracts.v
CtSlices.v
LfvmOpCodes.v
LfvmConverter.v
LfvmLayout.v
LfvmContext.v
LfvmGas.v
LfvmInstructions.v
LfvmInterpreter.v
LfvmShared.v
LfvmPush.v
LfvmSimulation.v
LfvmDecode.v
LfvmEquivalence.v
LfvmStatistics.v
LfvmProperties.v
CtCommon.v
CtState.v
CtRules.v
CtEffects.v
CtSpec.v
CtAdapter.v
CtStateFacts.v
CtExec.v
CtSim.v
CtConform.v
CtConformArith.v
CtConformState.v
CtConformFlow.v
CtConformMemory.v
CtConformCreate.v
CtConformCall.v
CtConformance.v
CtRunTest.v
LfvmCt.v
LfvmPcMap.v
LfvmConform.v
CtProperties.v
CtRand.v
CtGenSolvers.v
CtGenStack.v
CtGenCode.v
CtGenStorage.v
CtGenContexts.v
CtGenAccounts.v
CtGenState.v
CtRestrict.v
CtRestrictSound.v
CtEnumerate.v
CtEnumerateFacts.v
CtForEachState.v
CtBasicRules.v
CtCovered.v
CtGenProperties.v
