(* ===== verification/Prelude.v ===== *)
(** * Tosca in Rocq

    A verification of the core of Tosca, the EVM tool kit of the Sonic chain
    (Go, under [src/go]): the stack interpreter [sfvm], the long-form
    interpreter [lfvm], the transaction processor [floria], the package [tosca]
    they share, and the conformance tests [ct] with their executable
    specification of the EVM, to which [sfvm] and [lfvm] are proved to conform.

    ** The program

    A transaction enters through [Processor.Run] of
    [go/processor/floria/processor.go]: it is checked, gas is bought from the
    sender, and the call or creation it describes is executed by the run
    context ([run_context.go]). The run context transfers value, takes and
    restores snapshots, and runs built-in contracts ([state_contract.go]),
    precompiled contracts ([precompiled.go]) or code, which it hands to an
    interpreter. The interpreter ([go/interpreter/sfvm]) executes the code on a
    stack, a memory and a program counter; instructions for calls and creations
    go back to the run context, up to a depth of 1024. Unused gas is returned
    when the transaction is done. A second interpreter ([go/interpreter/lfvm])
    first converts the code to a long form, instructions of 16 bits with 16 bits
    of data and, as an option, super instructions for frequent sequences, and
    executes that; a cache holds converted codes. The conformance tests
    ([go/ct]) have a state of an execution ([st]), conditions on such states and
    rules that pair a condition with an effect ([rlz]), and a list of rules for
    all instructions and revisions, the specification ([spc]); a test compares
    the effect of a rule that applies to a state with a step of an interpreter
    on that state, which an adapter converts ([utils], [interpreter/sfvm/ct.go]).
    The states to test come from generators ([gen]): the conditions of a rule
    restrict a generator of states, the enumeration of the rule does so for all
    combinations of test values, and [ForEachState] ([spc]) runs the tests of
    all rules in parallel.
    The interfaces between the parts
    ([WorldState], [TransactionContext], [RunContext], [Interpreter]) and the
    256-bit values are those of [go/tosca].

    ** The files

    - [Prelude]: Go's integers, bytes, arrays and slices; notations ([go_scope]),
      tactics ([zblia], [divlia], [b2p], [case_if]) and lemmas the rest shares.
    - [Uint256]: EVM words and the interface of the library
      [github.com/holiman/uint256] ([Uint256], [Uint256Laws]), with a reference
      instance that satisfies the laws.
    - [Types]: [go/tosca/*.go]. Data as records and inductive types, interfaces
      as type classes over a type of states [W] that the methods pass on,
      [Value] arithmetic on limbs, text format, [GetStorageStatus].
    - [OpCodes]: [go/tosca/vm/opcodes.go].
    - [SfvmStack], [SfvmAnalysis], [SfvmHashCache], [SfvmMemory], [SfvmGas]:
      [stack.go], [analysis.go], [hash_cache.go], [memory.go], and [gas.go] with
      [stack_usage.go]. A stack of the pool keeps the words of earlier runs;
      the LRU library behind the analysis cache is an interface ([LRU]); the
      hash cache has its entries, pointers and index as in the source.
    - [SfvmContext]: the struct [context] and the monad [M] of computations
      that change it and end with a value, an error or a panic.
    - [SfvmInstructions]: [instructions.go], one definition per function.
    - [SfvmInterpreter]: [interpreter.go] and [sfvm.go]; [dispatch] is the
      switch, [step] an iteration of the loop, [steps] the loop, [run], [Run].
    - [SfvmLogic], [SfvmSafety], [SfvmExecution]: weakest preconditions, the
      invariant [good] of an execution, and a proof that every instruction, the
      dispatch of all 256 op codes, a step and a run keep it. The interpreter
      is verified against the interface [HostFrame] of its environment.
    - [SfvmProperties], [SfvmMachine], [SfvmEffects]: the theorems about [sfvm].
    - [RefWorld]: an in-memory implementation of the interfaces, for concrete
      runs and witnesses.
    - [FloriaStateContract], [FloriaContext], [FloriaProcessor]:
      [state_contract.go]; [run_context.go], [precompiled.go] and
      [context_wrapper.go]; [processor.go].
    - [FloriaFrame], [FloriaSfvm]: the processor against the interfaces of its
      transaction context ([Snapshots], [CtxFrame]) and of an interpreter
      ([InterpreterLaws]); [sfvm] and the state contract implement theirs.
    - [FloriaProperties], [FloriaFees], [FloriaContracts]: the theorems about
      the processor.
    - [CtSlices]: [go/ct/common/slices.go], which the conversion uses.
    - [LfvmOpCodes], [LfvmConverter], [LfvmContext], [LfvmGas],
      [LfvmInstructions], [LfvmInterpreter]: [opcode.go] and [instruction.go];
      [converter.go]; the struct [context]; [gas.go] and [stack_usage.go];
      [instructions.go] and [super_instructions.go]; [interpreter.go], [lfvm.go],
      [instruction_logger.go] and [instruction_statistics.go]. Functions that
      are copies of those of [sfvm] are the definitions for [sfvm], lifted by
      [shared] to the context of [lfvm].
    - [LfvmLayout], [LfvmDecode]: what the conversion produces, as a relation
      between positions in the two forms, and a decoder.
    - [LfvmShared], [LfvmPush], [LfvmSimulation], [LfvmEquivalence]: the
      simulation of [sfvm] by [lfvm]: instructions that see only the shared part
      of the context, pushes, jumps, a step, the loops, the runs.
    - [LfvmStatistics]: the runner that counts instructions.
    - [LfvmProperties]: the theorems about [lfvm].
    - [CtCommon], [CtState], [CtRules], [CtEffects], [CtSpec], [CtAdapter]:
      [ct/common]; [ct/st]; [ct/rlz] (parameters, domains, expressions,
      conditions, rules); the effects and the rules of
      [ct/spc/specification.go]; [ct/utils/adapter.go], [sfvm/ct.go] and
      [runTest] of [ct/driver/run.go]. Effects are computations in a monad [E]
      of states that may panic.
    - [CtStateFacts], [CtExec]: equality of states, codes, and the effects as
      computations that return.
    - [CtSim], [CtConform]: the conversions of the adapter, and what it means that the interpreter conforms to a rule on every valid
      state ([valid], [conforms], [rule_conforms]).
    - [CtConformArith], [CtConformState], [CtConformFlow], [CtConformMemory],
      [CtConformCreate], [CtConformCall]: conformance per group of rules;
      [CtConformance]: to all rules.
    - [CtRunTest]: the test driver, and any number of steps.
    - [LfvmCt]: [lfvm/ct.go]; [LfvmPcMap]: its map of program counters is exact;
      [LfvmConform]: a step of [lfvm] under its adapter is one of [sfvm].
    - [CtProperties]: the theorems about the specification and the tests.
    - [CtRand]: the random source ([Rand], a parameter with the laws of Go's
      [math/rand]), the random values of [ct/common], and the monad [Gen] of the
      generators, which draw from the source, read and extend the assignment of
      variables, and fail or panic.
    - [CtGenSolvers], [CtGenStack], [CtGenCode], [CtGenStorage],
      [CtGenContexts], [CtGenAccounts], [CtGenState]: [ct/gen]. A module per
      generator with its constraints, [Generate], [Clone] and [Restore], and the
      meaning [sat] of its constraints. Where the code overlooks something,
      [generated] says what it does guarantee of the states it generates, which
      is what is proved about it first.
    - [CtRestrict], [CtRestrictSound]: [Restrict] and [BindTo] of expressions
      and conditions ([ct/rlz]). Constraints are [tractable] if nothing is
      overlooked among them; what is generated for them satisfies them, and the
      conditions that led to them.
    - [CtEnumerate], [CtEnumerateFacts]: test values and the enumeration of the
      test cases of a rule; what a consumer of it sees, and how often.
    - [CtForEachState]: [ct/spc/enumeration.go], the goroutines and channels
      of [ForEachState] as a step relation, with its invariant.
    - [CtBasicRules]: rules with basic conditions, for which the enumeration is
      verified up to the test of each state.
    - [CtCovered]: which rules lead to tractable constraints, and a check that
      decides it.
    - [CtGenProperties]: the theorems about generators and enumeration.

    ** State, errors, fuel

    The state behind the interfaces is a type parameter; every method that
    changes it returns the new state. Go errors are values of [error] or
    [vmError]; a run-time panic (index out of range, failed allocation) is the
    outcome [Panic], or [None] of an [option]. Integers are [Z] with the
    wrap-around written out: [x +u64 y] is Go's addition on [uint64].

    The loop of the interpreter has fuel. Every instruction that continues
    consumes at least one unit of gas, so that [gas + 1] steps suffice
    ([SfvmProperties.run_total]), and more fuel does not change a result
    ([run_fuel_mono]). The loop of [lfvm] needs at most two iterations for each
    iteration of [sfvm] ([LfvmEquivalence.sim_loop]). The recursion of calls is on the depth: at the depth
    [MaxRecursiveDepth + 1], where the levels of [callAt] end, the code refuses
    the call. Theorems about the processor assume at most [2^40] gas
    ([gasLimit]), which bounds every memory, and so every init code, below what
    the interpreter's 32-bit program counter addresses, and code of at most
    [2^31 - 64] bytes ([codeLimit]).

    Loops that draw until a value is new ([gen_until]) end after
    [Rand_patience] draws: the laws of the source say that within so many draws
    it escapes any finite set of values. The theorems about generators show
    that the outcome [gLoop], where it does not, never occurs. The order in which
    Go ranges over a map is any permutation, chosen by the source ([Map_order]).

    ** What the theorems show

    - [SfvmProperties]: a run terminates without panic, returns no more gas
      than it was given, and in static mode changes nothing but access lists;
      the invariant holds in every reachable context.
    - [SfvmMachine]: [sfvm] refines an abstract stack machine on integers, per
      step and for whole runs.
    - [SfvmEffects]: net gas metering of [SSTORE] telescopes, memory costs are
      exact, memory reads return what was written, the stack usage table is
      exact for all op codes, the jump analysis is exact, calls forward at most
      63/64 of the gas.
    - [SfvmHashCache]: the linked list refines a list of recently used keys, the
      invariant holds in all interleavings of concurrent calls, and one
      interleaving returns a wrong hash.
    - [FloriaProperties]: calls keep all properties of the context, failed calls
      restore it, static calls do not write, transfers and self destructs
      conserve balances.
    - [FloriaFees]: prices, set-up costs, payments and refunds as integer
      arithmetic, payments modulo [2^256] and the conditions under which they do
      not wrap around, the gas used, rejected transactions without effect, and a
      payment that wraps around.
    - [FloriaContracts]: the state contract refines a list of writes and is
      closed to everyone but the driver; deployment of code; precompiled
      contracts after Cancun.
    - [Types]: value arithmetic, storage statuses and text format.
    - [LfvmProperties]: [lfvm] without super instructions is equivalent to
      [sfvm] and terminates; the conversion is lossless and keeps the positions
      of jump destinations, with super instructions too; the statistics are
      exact; one super instruction jumps without a check of its destination.

    - [CtProperties]: a step of [sfvm], and of [lfvm] without super instructions,
      yields what any rule that applies yields, so that all tests pass on valid
      states and the specification does not contradict itself; the two
      interpreters agree on every valid state, except that the adapter of [lfvm]
      panics if the program counter is beyond the end of the code; any number of
      steps of [sfvm] is safe and well typed, rules or not; the comparison of states is an equivalence and the conversions are
      lossless. Valid states ([CtConform.valid]) are those the framework
      generates: known revisions, codes and gas within its limits, a program
      counter at an instruction, a stack with the capacity of the pool, memory
      of whole words, lengths below [2^63], and no account that delegates to
      itself, for which specification and interpreter differ, as a
      counterexample shows. The specification has no rule for [SSTORE] of an
      unchanged value to a cold slot.

    - [CtGenProperties]: the interval solver is exact; the generator of states
      is sound for tractable constraints, and the states generated for covered
      rules, 2029 of 2859, satisfy them; the enumeration passes the product of
      the test values to its consumer; for rules with basic conditions its tests
      pass on [sfvm]; the parallel run ends in every interleaving, tests every state
      once and never writes to a closed channel; a condition that a value is
      less than one cannot be generated for.

    ** What is not modelled

    Third-party code is a parameter with its documented laws: [uint256], the
    Keccak functions, geth's precompiled contracts, address derivation and ABI
    identifiers, the LRU library, and the implementation of [WorldState].
    [String] and JSON methods and registration in [init] functions are left
    out. The equivalence of [lfvm] and [sfvm] is proved without super
    instructions; with them the conversion is verified, the execution is
    modelled. Of the conformance tests, the JSON files of states, the
    description of differences ([Diff]) and the command line driver are left
    out. The generators and the enumeration are modelled for all conditions;
    that the tests of the enumerated states pass is proved for rules with basic
    conditions (revision, status, code and operation at the program counter,
    gas, size of the stack, read-only mode, new and self-destructed contracts;
    1447 of the 2859 rules), that a generated state satisfies its rule for all
    covered rules. Methods of the interfaces that neither interpreter nor
    processor calls ([IsNewContract] and the legacy methods of
    [TransactionContext]) are left out of the classes. A slice of the long form
    is bounded by its length, not its capacity; reading the hash of an entry in
    [getHash] is one step; the adapter's block hash is zero where the list of
    recent hashes panics, which valid states exclude. Not covered: the adapters to geth and evmc, and the other
    processors. *)
From Stdlib Require Import ZArith Lia Strings.Byte.
From stdpp Require Import base list numbers countable.
Set Default Goal Selector "!".
Local Open Scope Z_scope.

(** ** Machine integers *)

Definition wrapU (w z : Z) : Z := z mod 2 ^ w.

Definition wrapS (w z : Z) : Z := (z + 2 ^ (w - 1)) mod 2 ^ w - 2 ^ (w - 1).

Definition u64 (z : Z) : Z := wrapU 64 z.

Definition i64 (z : Z) : Z := wrapS 64 z.

Definition i32 (z : Z) : Z := wrapS 32 z.

Definition isU64 (z : Z) : Prop := 0 <= z < 2 ^ 64.

Definition isI64 (z : Z) : Prop := - 2 ^ 63 <= z < 2 ^ 63.

Definition MaxInt32 : Z := 2 ^ 31 - 1.

Definition MaxInt64 : Z := 2 ^ 63 - 1.

Definition MaxUint64 : Z := 2 ^ 64 - 1.

(** ** Bytes *)

Definition byte_val (b : byte) : Z := Z.of_N (Byte.to_N b).

Definition byte_of (z : Z) : byte :=
  match Byte.of_N (Z.to_N (z mod 256)) with Some b => b | None => x00 end.

(** Big-endian value of a byte string ([binary.BigEndian], [SetBytes]). *)
Definition be_val (l : list byte) : Z :=
  fold_left (fun acc b => acc * 256 + byte_val b) l 0.

(** The [n] low-order bytes of [z], most significant first. *)
Fixpoint be_bytes (n : nat) (z : Z) : list byte :=
  match n with
  | O => []
  | S m => byte_of (Z.shiftr z (8 * Z.of_nat m)) :: be_bytes m z
  end.

#[global] Instance byte_eqdec : EqDecision byte := Byte.byte_eq_dec.

#[global] Instance byte_countable : Countable byte.
Proof.
  refine (inj_countable Byte.to_N Byte.of_N _).
  apply Byte.of_to_N.
Defined.

Definition zlen {A} (l : list A) : Z := Z.of_nat (length l).

(** Fixed-size byte arrays: Go's [[n]byte]. The size test is a boolean, so
    its proofs are unique and arrays are equal when their bytes are. *)
Record array (n : nat) := mkArray {
  arr_bytes : list byte;
  arr_size : Is_true (length arr_bytes =? n)%nat
}.
Arguments mkArray {n} _ _.
Arguments arr_bytes {n} _.
Arguments arr_size {n} _.

(** [to_array n l] is [l] as an array of [n] bytes: cut off, or padded with
    zero bytes, on the right (what copying into a zeroed array gives). *)
Definition fit (n : nat) (l : list byte) : list byte :=
  take n l ++ replicate (n - length l) x00.

Lemma length_fit n l : length (fit n l) = n.
Proof. unfold fit. rewrite length_app, length_take, length_replicate. lia. Qed.

Lemma fit_size n l : Is_true (length (fit n l) =? n)%nat.
Proof. rewrite length_fit, Nat.eqb_refl. exact I. Qed.

(** The size proof of a closed array computes to [I]. *)
Definition with_size (n : nat) (l : list byte) (d : array n) : array n :=
  (if (length l =? n)%nat as b return (Is_true b -> array n) -> array n
   then fun k => k I else fun _ => d) (mkArray l).

Definition to_array (n : nat) (l : list byte) : array n :=
  with_size n (fit n l) (mkArray (fit n l) (fit_size n l)).

Definition zero_array (n : nat) : array n := to_array n [].

(** ** Go slices *)

(** [l[lo:hi]], for bounds the caller has checked. *)
Definition slice {A} (l : list A) (lo hi : Z) : list A :=
  take (Z.to_nat (hi - lo)) (drop (Z.to_nat lo) l).

(** What [copy(dst, src)] leaves in [dst]. *)
Definition go_copy {A} (dst src : list A) : list A :=
  take (length dst) src ++ drop (length src) dst.

(** [l] after [copy(l[lo:hi], src)]. *)
Definition copy_at {A} (l : list A) (lo hi : Z) (src : list A) : list A :=
  take (Z.to_nat lo) l ++ go_copy (slice l lo hi) src ++ drop (Z.to_nat hi) l.

(** [make([]byte, n)]. *)
Definition zeros (n : Z) : list byte := replicate (Z.to_nat n) x00.

(** ** Notations and automation *)

Declare Scope go_scope.
Delimit Scope go_scope with go.
Notation "x '+u64' y" := (u64 (x + y)) (at level 50, left associativity) : go_scope.
Notation "x '-u64' y" := (u64 (x - y)) (at level 50, left associativity) : go_scope.
Notation "x '*u64' y" := (u64 (x * y)) (at level 40, left associativity) : go_scope.
Notation "x '+i64' y" := (i64 (x + y)) (at level 50, left associativity) : go_scope.
Notation "x '-i64' y" := (i64 (x - y)) (at level 50, left associativity) : go_scope.
Notation "x '*i64' y" := (i64 (x * y)) (at level 40, left associativity) : go_scope.
Notation "x '+i32' y" := (i32 (x + y)) (at level 50, left associativity) : go_scope.
Notation "x '-i32' y" := (i32 (x - y)) (at level 50, left associativity) : go_scope.

Create HintDb go.
Create Rewrite HintDb gobytes.
Create Rewrite HintDb zlen.

(** Unfolds the width predicates and constants and calls [lia]. *)
Ltac zblia :=
  unfold isU64, isI64, MaxInt32, MaxInt64, MaxUint64, zlen in *; lia.

(** [lia] with the defining equations of the divisions in sight. *)
Ltac divlia :=
  unfold isU64, isI64, MaxInt32, MaxInt64, MaxUint64, zlen in *;
  Z.to_euclidean_division_equations; lia.

(** Turns boolean comparisons on integers into propositions. *)
Ltac b2p :=
  repeat match goal with
  | H : (_ && _)%bool = true |- _ => apply andb_prop in H; destruct H
  | H : (_ || _)%bool = false |- _ => apply orb_false_elim in H; destruct H
  | H : negb _ = true |- _ => apply negb_true_iff in H
  | H : negb _ = false |- _ => apply negb_false_iff in H
  | H : (_ <? _) = true |- _ => apply Z.ltb_lt in H
  | H : (_ <? _) = false |- _ => apply Z.ltb_ge in H
  | H : (_ <=? _) = true |- _ => apply Z.leb_le in H
  | H : (_ <=? _) = false |- _ => apply Z.leb_gt in H
  | H : (_ =? _) = true |- _ => apply Z.eqb_eq in H
  | H : (_ =? _) = false |- _ => apply Z.eqb_neq in H
  | H : (_ >? _) = _ |- _ => rewrite Z.gtb_ltb in H
  | H : (_ >=? _) = _ |- _ => rewrite Z.geb_leb in H
  end.

(** Case analysis on the innermost test of the goal, as propositions. *)
Ltac case_if :=
  match goal with
  | |- context [if ?b then _ else _] =>
      lazymatch b with
      | context [if _ then _ else _] => fail
      | _ => let E := fresh "E" in destruct b eqn:E; b2p
      end
  end.

(** ** Machine integers: facts *)

Lemma wrapU_id w z : 0 <= z < 2 ^ w -> wrapU w z = z.
Proof. apply Z.mod_small. Qed.

Lemma wrapU_range w z : 0 <= w -> 0 <= wrapU w z < 2 ^ w.
Proof. intros. apply Z.mod_pos_bound. lia. Qed.

Lemma wrapS_id w z : 0 < w -> - 2 ^ (w - 1) <= z < 2 ^ (w - 1) -> wrapS w z = z.
Proof.
  intros Hw H. unfold wrapS.
  assert (2 ^ w = 2 * 2 ^ (w - 1)) as Hp.
  { replace w with (1 + (w - 1)) at 1 by lia. rewrite Z.pow_add_r by lia. lia. }
  rewrite Z.mod_small by lia. lia.
Qed.

Lemma wrapS_range w z : 0 < w -> - 2 ^ (w - 1) <= wrapS w z < 2 ^ (w - 1).
Proof.
  intros Hw. unfold wrapS.
  assert (2 ^ w = 2 * 2 ^ (w - 1)) as Hp.
  { replace w with (1 + (w - 1)) at 1 by lia. rewrite Z.pow_add_r by lia. lia. }
  pose proof (Z.mod_pos_bound (z + 2 ^ (w - 1)) (2 ^ w) ltac:(lia)). lia.
Qed.

Lemma u64_id z : isU64 z -> u64 z = z.
Proof. apply wrapU_id. Qed.

Lemma u64_range z : isU64 (u64 z).
Proof. apply wrapU_range. lia. Qed.

Lemma i64_id z : isI64 z -> i64 z = z.
Proof. intros. apply wrapS_id; zblia. Qed.

Lemma i64_range z : isI64 (i64 z).
Proof. apply (wrapS_range 64 z). lia. Qed.

Lemma i32_id z : - 2 ^ 31 <= z < 2 ^ 31 -> i32 z = z.
Proof. intros. apply wrapS_id; lia. Qed.

#[export] Hint Resolve u64_range i64_range : go.

(** ** Bytes: facts *)

Lemma byte_val_range b : 0 <= byte_val b < 256.
Proof. unfold byte_val. pose proof (Byte.to_N_bounded b). lia. Qed.

Lemma byte_of_val b : byte_of (byte_val b) = b.
Proof.
  unfold byte_of. pose proof (byte_val_range b).
  rewrite Z.mod_small by lia. unfold byte_val.
  rewrite N2Z.id, Byte.of_to_N. done.
Qed.

Lemma byte_val_of z : byte_val (byte_of z) = z mod 256.
Proof.
  unfold byte_of, byte_val. pose proof (Z.mod_pos_bound z 256 ltac:(lia)).
  destruct (Byte.of_N (Z.to_N (z mod 256))) as [b|] eqn:E.
  - apply Byte.to_of_N in E. rewrite E. lia.
  - apply Byte.of_N_None_iff in E. lia.
Qed.

Lemma byte_val_inj b1 b2 : byte_val b1 = byte_val b2 -> b1 = b2.
Proof. intros H. rewrite <-(byte_of_val b1), H. apply byte_of_val. Qed.

Lemma be_val_acc l a :
  fold_left (fun acc b => acc * 256 + byte_val b) l a = a * 256 ^ zlen l + be_val l.
Proof.
  unfold be_val, zlen. revert a. induction l as [|b l IH]; intros a; simpl length; cbn [fold_left].
  - lia.
  - rewrite (IH (a * 256 + byte_val b)), (IH (0 * 256 + byte_val b)).
    rewrite Nat2Z.inj_succ, Z.pow_succ_r by lia. lia.
Qed.

Lemma be_val_cons b l : be_val (b :: l) = byte_val b * 256 ^ zlen l + be_val l.
Proof. unfold be_val at 1. cbn [fold_left]. rewrite be_val_acc. lia. Qed.

Lemma be_val_app l1 l2 : be_val (l1 ++ l2) = be_val l1 * 256 ^ zlen l2 + be_val l2.
Proof. unfold be_val at 1. rewrite fold_left_app. apply be_val_acc. Qed.

Lemma be_val_range l : 0 <= be_val l < 256 ^ zlen l.
Proof.
  induction l as [|b l IH]; [done|].
  rewrite be_val_cons. pose proof (byte_val_range b). unfold zlen in *. simpl length.
  rewrite Nat2Z.inj_succ, Z.pow_succ_r by lia. nia.
Qed.

Lemma be_val_zeros n : be_val (replicate n x00) = 0.
Proof. induction n as [|n IH]; [done|]. simpl. rewrite be_val_cons, IH. done. Qed.

Lemma length_be_bytes n z : length (be_bytes n z) = n.
Proof. induction n; simpl; auto. Qed.

Lemma pow256 n : 256 ^ Z.of_nat n = 2 ^ (8 * Z.of_nat n).
Proof. rewrite Z.pow_mul_r by lia. done. Qed.

Lemma be_val_be_bytes n z : be_val (be_bytes n z) = z mod 2 ^ (8 * Z.of_nat n).
Proof.
  induction n as [|n IH].
  - simpl. rewrite Z.mod_1_r. done.
  - cbn [be_bytes]. rewrite be_val_cons, byte_val_of, IH. unfold zlen.
    rewrite length_be_bytes, pow256, Z.shiftr_div_pow2 by lia.
    replace (8 * Z.of_nat (S n)) with (8 * Z.of_nat n + 8) by lia.
    rewrite (Z.pow_add_r 2 (8 * Z.of_nat n) 8) by lia.
    rewrite (Z.rem_mul_r z (2 ^ (8 * Z.of_nat n)) (2 ^ 8)) by lia.
    change (2 ^ 8) with 256. lia.
Qed.

Lemma be_val_inj l1 l2 : length l1 = length l2 -> be_val l1 = be_val l2 -> l1 = l2.
Proof.
  revert l2. induction l1 as [|b1 l1 IH]; intros [|b2 l2] Hl Hv; try discriminate; [done|].
  injection Hl as Hl. rewrite !be_val_cons in Hv. unfold zlen in Hv. rewrite Hl in Hv.
  pose proof (be_val_range l1). pose proof (be_val_range l2). unfold zlen in *. rewrite Hl in *.
  assert (byte_val b1 = byte_val b2) by nia.
  f_equal; [by apply byte_val_inj|]. apply IH; [done|nia].
Qed.

Lemma be_bytes_be_val l n : length l = n -> be_bytes n (be_val l) = l.
Proof.
  intros <-. apply be_val_inj; [apply length_be_bytes|].
  rewrite be_val_be_bytes, <-pow256. apply Z.mod_small, be_val_range.
Qed.

(** ** Arrays: facts *)

Lemma array_length {n} (a : array n) : length (arr_bytes a) = n.
Proof.
  destruct a as [l H]; simpl. destruct (Nat.eqb_spec (length l) n); [done|]. destruct H.
Qed.

Lemma Is_true_unique b (p q : Is_true b) : p = q.
Proof. destruct b; [|destruct p]. by destruct p, q. Qed.

Lemma array_eq {n} (a b : array n) : arr_bytes a = arr_bytes b -> a = b.
Proof.
  destruct a as [l p], b as [l' q]; simpl. intros ->. f_equal. apply Is_true_unique.
Qed.

Lemma with_size_bytes n l d : length l = n -> arr_bytes (with_size n l d) = l.
Proof.
  intros H. unfold with_size.
  assert (forall (k : Is_true (length l =? n)%nat -> array n), (forall p, arr_bytes (k p) = l) ->
    arr_bytes ((if (length l =? n)%nat as b return (Is_true b -> array n) -> array n
      then fun k => k I else fun _ => d) k) = l) as Hk.
  { rewrite H, Nat.eqb_refl. intros k Hk. apply Hk. }
  by apply Hk.
Qed.

Lemma to_array_bytes n l : length l = n -> arr_bytes (to_array n l) = l.
Proof.
  intros H. unfold to_array. rewrite with_size_bytes by apply length_fit.
  unfold fit. rewrite H, Nat.sub_diag, app_nil_r. apply firstn_all2. lia.
Qed.

Lemma to_array_arr n (a : array n) : to_array n (arr_bytes a) = a.
Proof. apply array_eq, to_array_bytes, array_length. Qed.

#[global] Instance array_eqdec n : EqDecision (array n).
Proof.
  intros a b. destruct (decide (arr_bytes a = arr_bytes b)) as [E|E].
  - left. by apply array_eq.
  - right. by intros ->.
Defined.

#[global] Instance array_countable n : Countable (array n).
Proof.
  refine (inj_countable arr_bytes (fun l => Some (to_array n l)) _).
  intros a. by rewrite to_array_arr.
Defined.

(** ** Slices: facts *)

Lemma zlen_nonneg {A} (l : list A) : 0 <= zlen l.
Proof. zblia. Qed.

Lemma zlen_app {A} (l1 l2 : list A) : zlen (l1 ++ l2) = zlen l1 + zlen l2.
Proof. unfold zlen. rewrite length_app. lia. Qed.

Lemma zlen_zeros n : 0 <= n -> zlen (zeros n) = n.
Proof. intros. unfold zlen, zeros. rewrite length_replicate. lia. Qed.

Lemma zlen_slice {A} (l : list A) lo hi :
  0 <= lo <= hi -> hi <= zlen l -> zlen (slice l lo hi) = hi - lo.
Proof. intros. unfold zlen, slice in *. rewrite length_take, length_drop. lia. Qed.

Lemma length_go_copy {A} (dst src : list A) : length (go_copy dst src) = length dst.
Proof. unfold go_copy. rewrite length_app, length_take, length_drop. lia. Qed.

Lemma zlen_copy_at {A} (l src : list A) lo hi :
  0 <= lo <= hi -> hi <= zlen l -> zlen (copy_at l lo hi src) = zlen l.
Proof.
  intros. unfold copy_at. rewrite !zlen_app.
  assert (zlen (go_copy (slice l lo hi) src) = hi - lo) as ->.
  { unfold zlen. rewrite length_go_copy. by apply zlen_slice. }
  unfold zlen in *. rewrite length_take, length_drop. lia.
Qed.

Lemma go_copy_same {A} (dst src : list A) : length dst = length src -> go_copy dst src = src.
Proof.
  intros H. unfold go_copy. rewrite H, firstn_all, drop_ge by lia. apply app_nil_r.
Qed.

Lemma slice_copy_at {A} (l src : list A) lo hi :
  0 <= lo <= hi -> hi <= zlen l -> zlen src = hi - lo ->
  slice (copy_at l lo hi src) lo hi = src.
Proof.
  intros Hlo Hhi Hs. unfold copy_at.
  assert (zlen (slice l lo hi) = hi - lo) by (by apply zlen_slice).
  rewrite go_copy_same by zblia. unfold slice.
  rewrite drop_app_length' by (unfold zlen in *; rewrite length_take; lia).
  apply take_app_length'. zblia.
Qed.

Lemma slice_copy_at_disjoint {A} (l src : list A) lo hi a b :
  0 <= lo <= hi -> hi <= zlen l -> 0 <= a <= b -> b <= zlen l -> b <= lo \/ hi <= a ->
  slice (copy_at l lo hi src) a b = slice l a b.
Proof.
  intros Hlo Hhi Ha Hb Hd. unfold copy_at.
  assert (zlen (slice l lo hi) = hi - lo) by (by apply zlen_slice).
  apply list_eq. intros i. unfold slice at 1 3.
  destruct (decide (i < Z.to_nat (b - a)))%nat as [Hi|Hi];
    [|rewrite !lookup_take_ge by lia; done].
  rewrite !lookup_take_lt, !lookup_drop by done.
  destruct Hd as [Hd|Hd].
  - rewrite lookup_app_l by (rewrite length_take; zblia). apply lookup_take_lt. lia.
  - rewrite app_assoc, lookup_app_r.
    + rewrite lookup_drop. f_equal.
      rewrite length_app, length_take, length_go_copy. zblia.
    + rewrite length_app, length_take, length_go_copy. zblia.
Qed.

Lemma zlen_cons {A} (x : A) l : zlen (x :: l) = zlen l + 1.
Proof. unfold zlen. cbn. lia. Qed.

Lemma zlen_map {A B} (f : A -> B) l : zlen (map f l) = zlen l.
Proof. unfold zlen. by rewrite length_map. Qed.

Lemma zlen_arr n (a : array n) : zlen (arr_bytes a) = Z.of_nat n.
Proof. unfold zlen. by rewrite array_length. Qed.

Lemma be_val_padded l n : 0 <= n -> be_val (l ++ zeros n) = be_val l * 2 ^ (8 * n).
Proof.
  intros Hn. rewrite be_val_app, zlen_zeros by done. unfold zeros. rewrite be_val_zeros.
  rewrite Z.pow_mul_r by lia. change (2 ^ 8) with 256. lia.
Qed.

Lemma slice_cons {A} (l : list A) (i j : Z) x : 0 <= i < j -> l !! Z.to_nat i = Some x ->
  slice l i j = x :: slice l (i + 1) j.
Proof.
  intros Hij Hx. unfold slice. rewrite (drop_S _ x) by done.
  replace (Z.to_nat (j - i)) with (S (Z.to_nat (j - (i + 1)))) by lia. cbn [take].
  by replace (Z.to_nat (i + 1)) with (S (Z.to_nat i)) by lia.
Qed.

Lemma slice_empty {A} (l : list A) i : slice l i i = [].
Proof. unfold slice. by rewrite Z.sub_diag. Qed.

Lemma slice_app_at {A} (l1 l2 l3 : list A) a b : zlen l1 = a -> zlen l1 + zlen l2 = b ->
  slice (l1 ++ l2 ++ l3) a b = l2.
Proof.
  unfold slice, zlen. intros <- <-. rewrite drop_app_length' by lia.
  rewrite take_app_length' by lia. done.
Qed.

#[export] Hint Rewrite @zlen_app @zlen_cons @zlen_map @zlen_arr : zlen.

(** ** Pairs: facts *)

Lemma pair_eta1 {A B} (x : A * B) b : snd x = b -> x = (fst x, b).
Proof. destruct x. cbn. by intros ->. Qed.

Lemma pair_eta2 {A B C} (x : A * (B * C)) c : snd (snd x) = c -> x = (fst x, (fst (snd x), c)).
Proof. destruct x as [? [? ?]]. cbn. by intros ->. Qed.
