(* ===== verification/Uint256.v ===== *)
(** * 256-bit integers

    The type of EVM words ([uint256.Int], represented by its value) and the
    interface of the package [github.com/holiman/uint256] the Go code calls:
    [Uint256] lists the methods, [Uint256Laws] their documented behaviour.
    Every definition of the development that uses the package takes an
    instance of [Uint256]; [uint256_ref] is a reference instance. *)
From Stdlib Require Import ZArith Lia Strings.Byte.
From stdpp Require Import base list numbers countable.
From S2P Require Import Prelude.
Set Default Goal Selector "!".
Local Open Scope Z_scope.

Definition M256 : Z := 2 ^ 256.

Definition in256 (z : Z) : bool := (0 <=? z) && (z <? M256).

(** The four limbs of a [uint256.Int] as one number below [2^256]. *)
Record u256 := mkU256 { uval : Z; uval_in : Is_true (in256 uval) }.

Lemma in256_spec z : Is_true (in256 z) <-> 0 <= z < M256.
Proof.
  unfold in256. rewrite Is_true_true, andb_true_iff, Z.leb_le, Z.ltb_lt. done.
Qed.

Lemma in256_mod z : Is_true (in256 (z mod M256)).
Proof. apply in256_spec, Z.mod_pos_bound. done. Qed.

(** The range proof of a closed word computes to [I]. *)
Definition checked256 (z : Z) (d : u256) : u256 :=
  (if in256 z as b return (Is_true b -> u256) -> u256
   then fun k => k I else fun _ => d) (mkU256 z).

Definition of_Z (z : Z) : u256 :=
  checked256 (z mod M256) (mkU256 (z mod M256) (in256_mod z)).

(** The two's complement reading of a word. *)
Definition sval (a : u256) : Z :=
  if uval a <? 2 ^ 255 then uval a else uval a - M256.

(** ** The package's interface *)

Class Uint256 := {
  Int_Add : u256 -> u256 -> u256;
  Int_Sub : u256 -> u256 -> u256;
  Int_Mul : u256 -> u256 -> u256;
  Int_Div : u256 -> u256 -> u256;
  Int_SDiv : u256 -> u256 -> u256;
  Int_Mod : u256 -> u256 -> u256;
  Int_SMod : u256 -> u256 -> u256;
  Int_AddMod : u256 -> u256 -> u256 -> u256;
  Int_MulMod : u256 -> u256 -> u256 -> u256;
  Int_Exp : u256 -> u256 -> u256;
  Int_ExtendSign : u256 -> u256 -> u256;
  Int_Byte : u256 -> u256 -> u256;
  Int_And : u256 -> u256 -> u256;
  Int_Or : u256 -> u256 -> u256;
  Int_Xor : u256 -> u256 -> u256;
  Int_Not : u256 -> u256;
  Int_Lsh : u256 -> Z -> u256;
  Int_Rsh : u256 -> Z -> u256;
  Int_SRsh : u256 -> Z -> u256;
  Int_Cmp : u256 -> u256 -> Z;
  Int_Lt : u256 -> u256 -> bool;
  Int_Gt : u256 -> u256 -> bool;
  Int_Slt : u256 -> u256 -> bool;
  Int_Sgt : u256 -> u256 -> bool;
  Int_Sign : u256 -> Z;
  Int_BitLen : u256 -> Z;
  Int_ByteLen : u256 -> Z;
  Int_IsZero : u256 -> bool;
  Int_IsUint64 : u256 -> bool;
  Int_Uint64 : u256 -> Z;
  Int_LtUint64 : u256 -> Z -> bool;
  Int_GtUint64 : u256 -> Z -> bool;
  Int_SetBytes : list byte -> u256;
  Int_SetBytes32 : list byte -> u256;
  Int_SetBytes20 : list byte -> u256;
  Int_SetUint64 : Z -> u256;
  Int_SetAllOne : u256;
  Int_FromBig : Z -> u256 * bool;
  Int_Bytes32 : u256 -> array 32;
  Int_Bytes20 : u256 -> array 20
}.

(** [uint256.NewInt], and the constants [Clear] and [SetOne] write. *)
Definition NewInt `{Uint256} (n : Z) : u256 := Int_SetUint64 n.

Definition Int_Clear `{Uint256} : u256 := NewInt 0.

Definition Int_SetOne `{Uint256} : u256 := NewInt 1.

(** Sign extension of the [k+1] low-order bytes of [x]. *)
Definition sign_extend (x k : Z) : Z :=
  if 30 <? k then x
  else let w := 8 * (k + 1) in
       let v := x mod 2 ^ w in
       if v <? 2 ^ (w - 1) then v else v - 2 ^ w.

Definition bit_length (z : Z) : Z := if z =? 0 then 0 else Z.log2 z + 1.

(** The documented behaviour of the methods. *)
Class Uint256Laws (U : Uint256) : Prop := {
  Add_law a b : uval (Int_Add a b) = (uval a + uval b) mod M256;
  Sub_law a b : uval (Int_Sub a b) = (uval a - uval b) mod M256;
  Mul_law a b : uval (Int_Mul a b) = (uval a * uval b) mod M256;
  Div_law a b : uval (Int_Div a b) = if uval b =? 0 then 0 else uval a / uval b;
  SDiv_law a b :
    uval (Int_SDiv a b) = if uval b =? 0 then 0 else Z.quot (sval a) (sval b) mod M256;
  Mod_law a b : uval (Int_Mod a b) = if uval b =? 0 then 0 else uval a mod uval b;
  SMod_law a b :
    uval (Int_SMod a b) = if uval b =? 0 then 0 else Z.rem (sval a) (sval b) mod M256;
  AddMod_law a b n :
    uval (Int_AddMod a b n) = if uval n =? 0 then 0 else (uval a + uval b) mod uval n;
  MulMod_law a b n :
    uval (Int_MulMod a b n) = if uval n =? 0 then 0 else (uval a * uval b) mod uval n;
  Exp_law a b : uval (Int_Exp a b) = uval a ^ uval b mod M256;
  ExtendSign_law x k : uval (Int_ExtendSign x k) = sign_extend (uval x) (uval k) mod M256;
  Byte_law x n :
    uval (Int_Byte x n) =
      if uval n <? 32 then Z.shiftr (uval x) (8 * (31 - uval n)) mod 256 else 0;
  And_law a b : uval (Int_And a b) = Z.land (uval a) (uval b);
  Or_law a b : uval (Int_Or a b) = Z.lor (uval a) (uval b);
  Xor_law a b : uval (Int_Xor a b) = Z.lxor (uval a) (uval b);
  Not_law a : uval (Int_Not a) = M256 - 1 - uval a;
  Lsh_law a n : 0 <= n -> uval (Int_Lsh a n) = Z.shiftl (uval a) n mod M256;
  Rsh_law a n : 0 <= n -> uval (Int_Rsh a n) = Z.shiftr (uval a) n;
  SRsh_law a n : 0 <= n -> uval (Int_SRsh a n) = Z.shiftr (sval a) n mod M256;
  Cmp_law a b :
    Int_Cmp a b = match uval a ?= uval b with Lt => -1 | Eq => 0 | Gt => 1 end;
  Lt_law a b : Int_Lt a b = (uval a <? uval b);
  Gt_law a b : Int_Gt a b = (uval a >? uval b);
  Slt_law a b : Int_Slt a b = (sval a <? sval b);
  Sgt_law a b : Int_Sgt a b = (sval a >? sval b);
  Sign_law a : Int_Sign a = Z.sgn (sval a);
  BitLen_law a : Int_BitLen a = bit_length (uval a);
  ByteLen_law a : Int_ByteLen a = (bit_length (uval a) + 7) / 8;
  IsZero_law a : Int_IsZero a = (uval a =? 0);
  IsUint64_law a : Int_IsUint64 a = (uval a <? 2 ^ 64);
  Uint64_law a : Int_Uint64 a = uval a mod 2 ^ 64;
  LtUint64_law a n : isU64 n -> Int_LtUint64 a n = (uval a <? n);
  GtUint64_law a n : isU64 n -> Int_GtUint64 a n = (uval a >? n);
  SetBytes_law l : uval (Int_SetBytes l) = be_val l mod M256;
  SetBytes32_law l : zlen l = 32 -> uval (Int_SetBytes32 l) = be_val l;
  SetBytes20_law l : zlen l = 20 -> uval (Int_SetBytes20 l) = be_val l;
  SetUint64_law n : isU64 n -> uval (Int_SetUint64 n) = n;
  SetAllOne_law : uval Int_SetAllOne = M256 - 1;
  (** [FromBig] of a non-negative integer, and whether it overflows. *)
  FromBig_law z : 0 <= z -> uval (fst (Int_FromBig z)) = z mod M256 /\ snd (Int_FromBig z) = (M256 <=? z);
  Bytes32_law a : be_val (arr_bytes (Int_Bytes32 a)) = uval a;
  Bytes20_law a : be_val (arr_bytes (Int_Bytes20 a)) = uval a mod 2 ^ 160
}.

(** ** Words: facts *)

Lemma uval_range a : 0 <= uval a < M256.
Proof. apply in256_spec, uval_in. Qed.

Lemma u256_eq a b : uval a = uval b -> a = b.
Proof.
  destruct a as [x p], b as [y q]; simpl. intros ->. f_equal. apply Is_true_unique.
Qed.

Lemma checked256_uval z d : 0 <= z < M256 -> uval (checked256 z d) = z.
Proof.
  intros H%in256_spec. unfold checked256.
  assert (forall k : Is_true (in256 z) -> u256, (forall p, uval (k p) = z) ->
    uval ((if in256 z as b return (Is_true b -> u256) -> u256
      then fun k => k I else fun _ => d) k) = z) as Hk.
  { destruct (in256 z); [|done]. intros k Hk. apply Hk. }
  by apply Hk.
Qed.

Lemma uval_of_Z z : uval (of_Z z) = z mod M256.
Proof. apply checked256_uval, Z.mod_pos_bound. done. Qed.

Lemma of_Z_uval a : of_Z (uval a) = a.
Proof. apply u256_eq. rewrite uval_of_Z. apply Z.mod_small, uval_range. Qed.

Lemma sval_range a : - 2 ^ 255 <= sval a < 2 ^ 255.
Proof.
  unfold sval. pose proof (uval_range a). unfold M256 in *. case_if; lia.
Qed.

Lemma bit_length_range a : 0 <= bit_length (uval a) <= 256.
Proof.
  pose proof (uval_range a). unfold bit_length, M256 in *. case_if; [lia|].
  pose proof (Z.log2_nonneg (uval a)). assert (Z.log2 (uval a) < 256) by (apply Z.log2_lt_pow2; lia). lia.
Qed.

#[global] Instance u256_eqdec : EqDecision u256.
Proof.
  intros a b. destruct (decide (uval a = uval b)) as [E|E].
  - left. by apply u256_eq.
  - right. by intros ->.
Defined.

Section Conversions.
Context `{UL : Uint256Laws}.

Lemma Uint64_range a : isU64 (Int_Uint64 a).
Proof. rewrite Uint64_law. apply Z.mod_pos_bound. done. Qed.

(** Within 64 bits the truncating conversion is exact. *)
Lemma Uint64_exact a : Int_IsUint64 a = true -> Int_Uint64 a = uval a.
Proof.
  rewrite IsUint64_law, Uint64_law. intros H%Z.ltb_lt.
  pose proof (uval_range a). apply Z.mod_small. lia.
Qed.

Lemma NewInt_uval n : isU64 n -> uval (NewInt n) = n.
Proof. apply SetUint64_law. Qed.

Lemma NewInt_IsUint64 n : isU64 n -> Int_IsUint64 (NewInt n) = true.
Proof. intros H. rewrite IsUint64_law, NewInt_uval by done. apply Z.ltb_lt. zblia. Qed.

Lemma NewInt_Uint64 n : isU64 n -> Int_Uint64 (NewInt n) = n.
Proof. intros H. rewrite Uint64_exact, NewInt_uval; auto using NewInt_IsUint64. Qed.

Lemma NewInt_IsZero n : isU64 n -> Int_IsZero (NewInt n) = (n =? 0).
Proof. intros H. by rewrite IsZero_law, NewInt_uval. Qed.

Lemma SetBytes32_Bytes32 a : Int_SetBytes32 (arr_bytes (Int_Bytes32 a)) = a.
Proof.
  apply u256_eq. rewrite SetBytes32_law, Bytes32_law; [done|].
  unfold zlen. by rewrite array_length.
Qed.

Lemma Bytes32_SetBytes32 (v : array 32) : Int_Bytes32 (Int_SetBytes32 (arr_bytes v)) = v.
Proof.
  apply array_eq, be_val_inj; [by rewrite !array_length|].
  rewrite Bytes32_law, SetBytes32_law; [done|]. unfold zlen. by rewrite array_length.
Qed.

End Conversions.

(** ** A reference instance *)

Fixpoint powmod_pos (a : Z) (p : positive) : Z :=
  match p with
  | xH => a mod M256
  | xO q => let r := powmod_pos a q in (r * r) mod M256
  | xI q => let r := powmod_pos a q in ((r * r) mod M256 * a) mod M256
  end.

Definition powmod (a e : Z) : Z :=
  match e with Z0 => 1 | Zpos p => powmod_pos a p | Zneg _ => 0 end.

Definition uint256_ref : Uint256 := {|
  Int_Add a b := of_Z (uval a + uval b);
  Int_Sub a b := of_Z (uval a - uval b);
  Int_Mul a b := of_Z (uval a * uval b);
  Int_Div a b := of_Z (if uval b =? 0 then 0 else uval a / uval b);
  Int_SDiv a b := of_Z (if uval b =? 0 then 0 else Z.quot (sval a) (sval b));
  Int_Mod a b := of_Z (if uval b =? 0 then 0 else uval a mod uval b);
  Int_SMod a b := of_Z (if uval b =? 0 then 0 else Z.rem (sval a) (sval b));
  Int_AddMod a b n := of_Z (if uval n =? 0 then 0 else (uval a + uval b) mod uval n);
  Int_MulMod a b n := of_Z (if uval n =? 0 then 0 else (uval a * uval b) mod uval n);
  Int_Exp a b := of_Z (powmod (uval a) (uval b));
  Int_ExtendSign x k := of_Z (sign_extend (uval x) (uval k));
  Int_Byte x n :=
    of_Z (if uval n <? 32 then Z.shiftr (uval x) (8 * (31 - uval n)) mod 256 else 0);
  Int_And a b := of_Z (Z.land (uval a) (uval b));
  Int_Or a b := of_Z (Z.lor (uval a) (uval b));
  Int_Xor a b := of_Z (Z.lxor (uval a) (uval b));
  Int_Not a := of_Z (M256 - 1 - uval a);
  Int_Lsh a n := of_Z (Z.shiftl (uval a) n);
  Int_Rsh a n := of_Z (Z.shiftr (uval a) n);
  Int_SRsh a n := of_Z (Z.shiftr (sval a) n);
  Int_Cmp a b := match uval a ?= uval b with Lt => -1 | Eq => 0 | Gt => 1 end;
  Int_Lt a b := uval a <? uval b;
  Int_Gt a b := uval a >? uval b;
  Int_Slt a b := sval a <? sval b;
  Int_Sgt a b := sval a >? sval b;
  Int_Sign a := Z.sgn (sval a);
  Int_BitLen a := bit_length (uval a);
  Int_ByteLen a := (bit_length (uval a) + 7) / 8;
  Int_IsZero a := uval a =? 0;
  Int_IsUint64 a := uval a <? 2 ^ 64;
  Int_Uint64 a := uval a mod 2 ^ 64;
  Int_LtUint64 a n := uval a <? n;
  Int_GtUint64 a n := uval a >? n;
  Int_SetBytes l := of_Z (be_val l);
  Int_SetBytes32 l := of_Z (be_val l);
  Int_SetBytes20 l := of_Z (be_val l);
  Int_SetUint64 n := of_Z n;
  Int_SetAllOne := of_Z (M256 - 1);
  Int_FromBig z := (of_Z z, M256 <=? Z.abs z);
  Int_Bytes32 a := to_array 32 (be_bytes 32 (uval a));
  Int_Bytes20 a := to_array 20 (be_bytes 20 (uval a))
|}.

Lemma powmod_pos_spec a p : powmod_pos a p = a ^ Zpos p mod M256.
Proof.
  induction p as [p IH|p IH|]; cbn [powmod_pos].
  - rewrite IH, Pos2Z.inj_xI, Z.pow_add_r, Z.pow_1_r, Z.mul_comm, (Z.mul_comm 2), Z.pow_mul_r by lia.
    rewrite Z.pow_2_r, <-Z.mul_mod, Z.mul_mod_idemp_r, (Z.mul_comm a) by done. done.
  - rewrite IH, Pos2Z.inj_xO, (Z.mul_comm 2), Z.pow_mul_r, Z.pow_2_r, <-Z.mul_mod by done. done.
  - by rewrite Z.pow_1_r.
Qed.

Lemma powmod_spec a e : 0 <= e -> powmod a e mod M256 = a ^ e mod M256.
Proof.
  destruct e; intros; simpl powmod; [done| |lia].
  by rewrite powmod_pos_spec, Z.mod_mod.
Qed.

Lemma bits256_bound z :
  0 <= z -> (forall i, 256 <= i -> Z.testbit z i = false) -> 0 <= z < M256.
Proof.
  intros Hz Hb. split; [done|]. unfold M256.
  destruct (Z.eq_dec z 0) as [->|Hn]; [done|].
  apply Z.log2_lt_pow2; [lia|].
  destruct (Z_lt_dec (Z.log2 z) 256) as [Hl|Hl]; [done|].
  specialize (Hb (Z.log2 z) ltac:(lia)). rewrite Z.bit_log2 in Hb by lia. done.
Qed.

Lemma testbit_high a i : 256 <= i -> Z.testbit (uval a) i = false.
Proof.
  intros. pose proof (uval_range a) as Ha. unfold M256 in Ha.
  destruct (Z.eq_dec (uval a) 0) as [->|]; [by rewrite Z.bits_0|].
  apply Z.bits_above_log2; [lia|]. apply Z.log2_lt_pow2; [lia|].
  eapply Z.lt_le_trans; [apply Ha|]. apply Z.pow_le_mono_r; lia.
Qed.

(** A bitwise operation that keeps clear bits clear stays in range. *)
Lemma bitop_mod (f : Z -> Z -> Z) (g : bool -> bool -> bool) a b :
  (forall x y i, Z.testbit (f x y) i = g (Z.testbit x i) (Z.testbit y i)) ->
  g false false = false -> 0 <= f (uval a) (uval b) ->
  f (uval a) (uval b) mod M256 = f (uval a) (uval b).
Proof.
  intros Hf Hg Hp. apply Z.mod_small, bits256_bound; [done|].
  intros i Hi. by rewrite Hf, !testbit_high.
Qed.

Lemma mod_in_range b z :
  (if uval b =? 0 then 0 else z mod uval b) mod M256 =
  (if uval b =? 0 then 0 else z mod uval b).
Proof.
  pose proof (uval_range b). case_if; [done|].
  apply Z.mod_small. pose proof (Z.mod_pos_bound z (uval b)). lia.
Qed.

Lemma uint256_ref_laws : Uint256Laws uint256_ref.
Proof.
  constructor; cbn -[to_array be_bytes of_Z]; intros; rewrite ?uval_of_Z; try done;
    repeat match goal with
    | a : u256 |- _ => let H := fresh "R" in pose proof (uval_range a) as H; revert a H
    end; intros; unfold isU64 in *.
  - case_if; [done|]. apply Z.mod_small.
    pose proof (Z.div_pos (uval a) (uval b)).
    pose proof (Z.div_le_upper_bound (uval a) (uval b) (uval a)). nia.
  - case_if; done.
  - apply mod_in_range.
  - case_if; done.
  - apply mod_in_range.
  - apply mod_in_range.
  - apply powmod_spec. lia.
  - apply Z.mod_small. case_if; [|done].
    pose proof (Z.mod_pos_bound (Z.shiftr (uval x) (8 * (31 - uval n))) 256). unfold M256. lia.
  - apply (bitop_mod Z.land andb); auto using Z.land_spec.
    apply Z.land_nonneg. lia.
  - apply (bitop_mod Z.lor orb); auto using Z.lor_spec.
    apply Z.lor_nonneg. lia.
  - apply (bitop_mod Z.lxor xorb); auto using Z.lxor_spec.
    apply Z.lxor_nonneg. lia.
  - apply Z.mod_small. lia.
  - apply Z.mod_small. rewrite Z.shiftr_div_pow2 by done.
    pose proof (Z.pow_pos_nonneg 2 n). pose proof (Z.div_pos (uval a) (2 ^ n)).
    pose proof (Z.div_le_upper_bound (uval a) (2 ^ n) (uval a)). nia.
  - pose proof (be_val_range l) as B. rewrite H in B. apply Z.mod_small, B.
  - pose proof (be_val_range l) as B. rewrite H in B. apply Z.mod_small.
    unfold M256. change (256 ^ 20) with (2 ^ 160) in B. lia.
  - apply Z.mod_small. unfold M256. lia.
  - split; [done|]. by rewrite Z.abs_eq.
  - rewrite to_array_bytes, be_val_be_bytes by apply length_be_bytes.
    apply Z.mod_small, R.
  - rewrite to_array_bytes, be_val_be_bytes by apply length_be_bytes. done.
Qed.
