(* ===== verification/Types.v ===== *)
(** * The data types and interfaces of the package [tosca]

    [go/tosca/world_state.go], [interpreter.go], [processor.go], [types.go]
    and [utils.go]: addresses, words and values, storage statuses, call and
    run parameters and results, the interfaces [WorldState],
    [TransactionContext] and [RunContext], value arithmetic on big-endian
    byte arrays, the hexadecimal text format, [GetStorageStatus] and
    [SizeInWords]. *)
From Stdlib Require Import ZArith Lia Strings.Byte String.
From stdpp Require Import base list numbers countable.
From S2P Require Import Prelude Uint256.
Set Default Goal Selector "!".
Local Open Scope Z_scope.
Local Open Scope go_scope.

(** ** Data *)

Abbreviation Address := (array 20).
Abbreviation Key := (array 32).
Abbreviation Word := (array 32).
Abbreviation Value := (array 32).
Abbreviation Hash := (array 32).
Abbreviation Code := (list byte).
Abbreviation Data := (list byte).
Abbreviation Gas := Z (only parsing).
Abbreviation Revision := Z (only parsing).

Definition R07_Istanbul : Revision := 0.
Definition R09_Berlin : Revision := 1.
Definition R10_London : Revision := 2.
Definition R11_Paris : Revision := 3.
Definition R12_Shanghai : Revision := 4.
Definition R13_Cancun : Revision := 5.
Definition R14_Prague : Revision := 6.
Definition R15_Osaka : Revision := 7.
Definition numRevisions : Z := 8.

Inductive StorageStatus :=
| StorageAssigned
| StorageAdded
| StorageDeleted
| StorageModified
| StorageDeletedAdded
| StorageModifiedDeleted
| StorageDeletedRestored
| StorageAddedDeleted
| StorageModifiedRestored.

Inductive AccessStatus := ColdAccess | WarmAccess.

Inductive CallKind := Call | DelegateCall | StaticCall | CallCode | Create | Create2.

(** Go errors that cross an interface: an unsupported revision, or a message. *)
Inductive error :=
| ErrUnsupportedRevision (r : Revision)
| ErrMsg (msg : string).

Record Log := mkLog { log_Address : Address; log_Topics : list Hash; log_Data : Data }.

Record BlockParameters := mkBlockParameters {
  bp_ChainID : Word;
  bp_BlockNumber : Z;
  bp_Timestamp : Z;
  bp_Coinbase : Address;
  bp_GasLimit : Gas;
  bp_PrevRandao : Hash;
  bp_BaseFee : Value;
  bp_BlobBaseFee : Value;
  bp_Revision : Revision
}.

Record TransactionParameters := mkTransactionParameters {
  tp_Origin : Address;
  tp_GasPrice : Value;
  tp_BlobHashes : list Hash
}.

(** The parameters of an interpreter run. The run context they carry is the
    world state the model threads through the run. *)
Record Parameters := mkParameters {
  p_Block : BlockParameters;
  p_Tx : TransactionParameters;
  p_Kind : CallKind;
  p_Static : bool;
  p_Depth : Z;
  p_Gas : Gas;
  p_Recipient : Address;
  p_Sender : Address;
  p_Input : Data;
  p_Value : Value;
  p_CodeHash : option Hash;
  p_Code : Code
}.

Record Result := mkResult {
  r_Success : bool;
  r_Output : Data;
  r_GasLeft : Gas;
  r_GasRefund : Gas
}.

Record CallParameters := mkCallParameters {
  cp_Sender : Address;
  cp_Recipient : Address;
  cp_Value : Value;
  cp_Input : Data;
  cp_Gas : Gas;
  cp_Salt : Hash;
  cp_CodeAddress : Address
}.

Record CallResult := mkCallResult {
  cr_Output : Data;
  cr_GasLeft : Gas;
  cr_GasRefund : Gas;
  cr_CreatedAddress : Address;
  cr_Success : bool
}.

Record AccessTuple := mkAccessTuple { at_Address : Address; at_Keys : list Key }.

(** [nil] and empty slices differ in the code, so [AccessList] and
    [BlobHashes] are optional lists. *)
Record Transaction := mkTransaction {
  t_Sender : Address;
  t_Recipient : option Address;
  t_Nonce : Z;
  t_Input : Data;
  t_Value : Value;
  t_GasLimit : Gas;
  t_GasFeeCap : Value;
  t_GasTipCap : Value;
  t_BlobGasFeeCap : Value;
  t_BlobHashes : option (list Hash);
  t_AccessList : option (list AccessTuple)
}.

Record Receipt := mkReceipt {
  rcpt_Success : bool;
  rcpt_Output : Data;
  rcpt_ContractAddress : option Address;
  rcpt_GasUsed : Gas;
  rcpt_BlobGasUsed : Gas;
  rcpt_Logs : list Log
}.

(** ** Interfaces

    A Go interface value hides state: here it is a type [W] of states with
    the interface's methods as operations on it. Readers return a value,
    writers the new state. *)

Class WorldState (W : Type) := {
  ws_AccountExists : W -> Address -> bool;
  ws_CreateContract : W -> Address -> W;
  ws_GetBalance : W -> Address -> Value;
  ws_SetBalance : W -> Address -> Value -> W;
  ws_GetNonce : W -> Address -> Z;
  ws_SetNonce : W -> Address -> Z -> W;
  ws_GetCode : W -> Address -> Code;
  ws_GetCodeHash : W -> Address -> Hash;
  ws_GetCodeSize : W -> Address -> Z;
  ws_SetCode : W -> Address -> Code -> W;
  ws_HasEmptyStorage : W -> Address -> bool;
  ws_GetStorage : W -> Address -> Key -> Word;
  ws_SetStorage : W -> Address -> Key -> Word -> W * StorageStatus;
  ws_SelfDestruct : W -> Address -> Address -> W * bool
}.

Class TransactionContext (W : Type) := {
  tc_world :: WorldState W;
  tc_CreateSnapshot : W -> W * Z;
  tc_RestoreSnapshot : W -> Z -> W;
  tc_GetTransientStorage : W -> Address -> Key -> Word;
  tc_SetTransientStorage : W -> Address -> Key -> Word -> W;
  tc_AccessAccount : W -> Address -> W * AccessStatus;
  tc_AccessStorage : W -> Address -> Key -> W * AccessStatus;
  tc_EmitLog : W -> Log -> W;
  tc_GetLogs : W -> list Log;
  tc_GetBlockHash : W -> Z -> Hash
}.

Class RunContext (W : Type) := {
  rc_context :: TransactionContext W;
  rc_Call : W -> CallKind -> CallParameters -> W * (CallResult * option error)
}.

(** An interpreter runs the code of its parameters in a context; it changes
    the context's state and returns a result or an error. The Go interface is
    used with any run context, so the operation takes one. *)
Class Interpreter (W : Type) := {
  interp_Run : RunContext W -> W -> Parameters -> W * (Result + error)
}.

(** ** Zero values *)

Definition zeroAddress : Address := zero_array 20.
Definition zeroWord : Word := zero_array 32.
Definition zeroCallResult : CallResult := mkCallResult [] 0 0 zeroAddress false.
Definition zeroResult : Result := mkResult false [] 0 0.

(** Go's [==] on arrays and addresses. *)
Definition arr_eqb {n} (a b : array n) : bool := bool_decide (a = b).

(** ** Storage statuses ([GetStorageStatus]) *)

Definition GetStorageStatus (original current new : Word) : StorageStatus :=
  let zero := zeroWord in
  let eqw := arr_eqb in
  let neqw a b := negb (arr_eqb a b) in
  if eqw current new then StorageAssigned else
  if eqw original zero && eqw current zero && neqw new zero then StorageAdded else
  if neqw original zero && eqw current original && eqw new zero then StorageDeleted else
  if neqw original zero && eqw current original && neqw new zero && neqw new original
  then StorageModified else
  if neqw original zero && eqw current zero && neqw new original && neqw new zero
  then StorageDeletedAdded else
  if neqw original zero && neqw current original && neqw current zero && eqw new zero
  then StorageModifiedDeleted else
  if neqw original zero && eqw current zero && eqw new original
  then StorageDeletedRestored else
  if eqw original zero && neqw current zero && eqw new zero then StorageAddedDeleted else
  if neqw original zero && neqw current original && neqw current zero && eqw new original
  then StorageModifiedRestored else
  StorageAssigned.

(** ** Sizes ([SizeInWords], on [uint64]) *)

Definition SizeInWords (size : Z) : Z :=
  if size >? MaxUint64 - 31 then MaxUint64 / 32 +u64 1
  else (size +u64 31) / 32.

(** ** Values *)

(** [binary.BigEndian.Uint64] of the 8 bytes from [24 - 8*index] on. *)
Definition getInternalUint64 (v : Value) (index : Z) : Z :=
  let start := 24 - index * 8 in
  let end_ := start + 8 in
  be_val (slice (arr_bytes v) start end_).

(** [binary.BigEndian.PutUint64(z[start:start+8], x)]. *)
Definition PutUint64 (z : Value) (start x : Z) : Value :=
  to_array 32 (copy_at (arr_bytes z) start (start + 8) (be_bytes 8 x)).

(** [bits.Add64] and [bits.Sub64]: the 64-bit result and the carry. *)
Definition Add64 (x y carry : Z) : Z * Z :=
  (u64 (x + y + carry), (x + y + carry) / 2 ^ 64).

Definition Sub64 (x y borrow : Z) : Z * Z :=
  (u64 (x - y - borrow), if x - y - borrow <? 0 then 1 else 0).

Definition Value_Add (a b : Value) : Value :=
  let z := zeroWord in
  let '(res, carry) := Add64 (getInternalUint64 a 0) (getInternalUint64 b 0) 0 in
  let z := PutUint64 z 24 res in
  let '(res, carry) := Add64 (getInternalUint64 a 1) (getInternalUint64 b 1) carry in
  let z := PutUint64 z 16 res in
  let '(res, carry) := Add64 (getInternalUint64 a 2) (getInternalUint64 b 2) carry in
  let z := PutUint64 z 8 res in
  let '(res, _) := Add64 (getInternalUint64 a 3) (getInternalUint64 b 3) carry in
  PutUint64 z 0 res.

Definition Value_Sub (a b : Value) : Value :=
  let z := zeroWord in
  let '(res, carry) := Sub64 (getInternalUint64 a 0) (getInternalUint64 b 0) 0 in
  let z := PutUint64 z 24 res in
  let '(res, carry) := Sub64 (getInternalUint64 a 1) (getInternalUint64 b 1) carry in
  let z := PutUint64 z 16 res in
  let '(res, carry) := Sub64 (getInternalUint64 a 2) (getInternalUint64 b 2) carry in
  let z := PutUint64 z 8 res in
  let '(res, _) := Sub64 (getInternalUint64 a 3) (getInternalUint64 b 3) carry in
  PutUint64 z 0 res.

(** [bytes.Compare]. *)
Fixpoint bytes_Compare (a b : list byte) : Z :=
  match a, b with
  | [], [] => 0
  | [], _ :: _ => -1
  | _ :: _, [] => 1
  | x :: a, y :: b =>
      if byte_val x <? byte_val y then -1
      else if byte_val y <? byte_val x then 1
      else bytes_Compare a b
  end.

Definition Value_Cmp (v o : Value) : Z := bytes_Compare (arr_bytes v) (arr_bytes o).

Definition Value_Min (a b : Value) : Value := if Value_Cmp a b <? 0 then a else b.

(** [NewValue]: at most four 64-bit arguments, most significant first; more
    arguments panic. *)
Fixpoint NewValue_loop (offset i : Z) (args : list Z) (result : Value) : Value :=
  match args with
  | [] => result
  | a :: args =>
      let start := offset * 8 + i * 8 in
      NewValue_loop offset (i + 1) args (PutUint64 result start a)
  end.

Definition NewValue (args : list Z) : option Value :=
  if 4 <? zlen args then None
  else Some (NewValue_loop (4 - zlen args) 0 args zeroWord).

(** [Value.ToBig]: a [big.Int] is an integer. *)
Definition Value_ToBig (v : Value) : Z := be_val (arr_bytes v).

Definition Value_ToUint256 `{Uint256} (v : Value) : u256 := Int_SetBytes (arr_bytes v).

(** A [nil] pointer gives the zero value. *)
Definition ValueFromUint256 `{Uint256} (value : option u256) : Value :=
  match value with None => zeroWord | Some x => Int_Bytes32 x end.

Definition Value_Scale `{Uint256} (v : Value) (s : Z) : Value :=
  let sU256 := Int_SetUint64 s in
  ValueFromUint256 (Some (Int_Mul (Value_ToUint256 v) sU256)).

(** ** Text format *)

Definition hexDigit (n : Z) : byte := byte_of (if n <? 10 then 48 + n else 87 + n).

(** [fmt.Appendf(nil, "0x%x", data)]. *)
Definition bytesToText (data : list byte) : list byte :=
  x30 :: x78 ::
  flat_map (fun b => [hexDigit (byte_val b / 16); hexDigit (byte_val b mod 16)]) data.

Definition fromHexChar (c : byte) : option Z :=
  let v := byte_val c in
  if (48 <=? v) && (v <=? 57) then Some (v - 48)
  else if (97 <=? v) && (v <=? 102) then Some (v - 87)
  else if (65 <=? v) && (v <=? 70) then Some (v - 55)
  else None.

(** [hex.DecodeString]: an odd length or another character is an error. *)
Fixpoint hexDecodeString (s : list byte) : option (list byte) :=
  match s with
  | [] => Some []
  | [_] => None
  | a :: b :: s =>
      match fromHexChar a, fromHexChar b, hexDecodeString s with
      | Some x, Some y, Some rest => Some (byte_of (x * 16 + y) :: rest)
      | _, _, _ => None
      end
  end.

(** [textToBytes(trg, data)] for a target of [n] bytes. *)
Definition textToBytes (n : nat) (data : list byte) : option (array n) :=
  match data with
  | a :: b :: rest =>
      if bool_decide (a = x30) && bool_decide (b = x78) then
        match hexDecodeString rest with
        | None => None
        | Some bytes => if (length bytes =? n)%nat then Some (to_array n bytes) else None
        end
      else None
  | _ => None
  end.

Definition Address_MarshalText (a : Address) : list byte := bytesToText (arr_bytes a).
Definition Address_UnmarshalText (data : list byte) : option Address := textToBytes 20 data.
Definition Value_MarshalText (v : Value) : list byte := bytesToText (arr_bytes v).
Definition Value_UnmarshalText (data : list byte) : option Value := textToBytes 32 data.

(** ** Sizes and storage statuses: facts *)

Lemma SizeInWords_spec size : isU64 size -> SizeInWords size = (size + 31) / 32.
Proof.
  intros H. unfold SizeInWords, MaxUint64, isU64 in *. rewrite Z.gtb_ltb.
  destruct (Z.ltb_spec (2 ^ 64 - 1 - 31) size) as [Hl|Hl].
  - change (u64 ((2 ^ 64 - 1) / 32 + 1)) with (2 ^ 59).
    apply Z.div_unique with (r := size + 31 - 2 ^ 64); lia.
  - rewrite u64_id by zblia. done.
Qed.

Lemma SizeInWords_bound size :
  isU64 size -> 0 <= SizeInWords size <= 2 ^ 59 /\ size <= 32 * SizeInWords size < size + 32.
Proof. intros H. rewrite SizeInWords_spec by done. divlia. Qed.

(** The transitions of a storage slot, as documented at [StorageStatus]: the
    original, current and new value, where [X], [Y], [Z] are non-zero and
    distinct. Every other change of a slot is an assignment. *)
Inductive storage_transition : Word -> Word -> Word -> StorageStatus -> Prop :=
| tr_same o c : storage_transition o c c StorageAssigned
| tr_added z : z <> zeroWord -> storage_transition zeroWord zeroWord z StorageAdded
| tr_deleted x : x <> zeroWord -> storage_transition x x zeroWord StorageDeleted
| tr_modified x z : x <> zeroWord -> z <> zeroWord -> x <> z ->
    storage_transition x x z StorageModified
| tr_deleted_added x z : x <> zeroWord -> z <> zeroWord -> x <> z ->
    storage_transition x zeroWord z StorageDeletedAdded
| tr_modified_deleted x y : x <> zeroWord -> y <> zeroWord -> x <> y ->
    storage_transition x y zeroWord StorageModifiedDeleted
| tr_deleted_restored x : x <> zeroWord ->
    storage_transition x zeroWord x StorageDeletedRestored
| tr_added_deleted y : y <> zeroWord ->
    storage_transition zeroWord y zeroWord StorageAddedDeleted
| tr_modified_restored x y : x <> zeroWord -> y <> zeroWord -> x <> y ->
    storage_transition x y x StorageModifiedRestored
| tr_dirty o y z : y <> zeroWord -> z <> zeroWord -> o <> y -> o <> z -> y <> z ->
    storage_transition o y z StorageAssigned.

Lemma arr_eqb_refl {n} (a : array n) : arr_eqb a a = true.
Proof. by apply bool_decide_eq_true. Qed.

Lemma arr_eqb_eq {n} (a b : array n) : arr_eqb a b = true <-> a = b.
Proof. apply bool_decide_eq_true. Qed.

Lemma arr_eqb_neq {n} (a b : array n) : a <> b -> arr_eqb a b = false.
Proof. apply bool_decide_eq_false_2. Qed.

(** Resolves the comparisons of arrays a goal is about. *)
Ltac arr_cases :=
  repeat match goal with
  | |- context [arr_eqb ?a ?a] => rewrite (arr_eqb_refl a)
  | H : ?a <> ?b |- context [arr_eqb ?a ?b] => rewrite (arr_eqb_neq a b) by exact H
  | H : ?b <> ?a |- context [arr_eqb ?a ?b] => rewrite (arr_eqb_neq a b) by (apply not_eq_sym; exact H)
  | |- context [arr_eqb ?a ?b] =>
      destruct (decide (a = b)); [subst; try done|]
  end; cbn [andb negb].

(** The status [GetStorageStatus] computes for a write is exactly the one
    of the documented transition: one transition applies to every combination
    of original, current and new value, and no other. *)
Theorem GetStorageStatus_iff o c n s : GetStorageStatus o c n = s <-> storage_transition o c n s.
Proof.
  split.
  - intros <-. unfold GetStorageStatus. arr_cases; by constructor.
  - intros H. unfold GetStorageStatus. destruct H; arr_cases; try done; congruence.
Qed.

(** ** Values: facts *)

(** The number a value stands for. *)
Definition value_Z (v : Value) : Z := be_val (arr_bytes v).

Lemma value_range v : 0 <= value_Z v < M256.
Proof.
  unfold value_Z. pose proof (be_val_range (arr_bytes v)) as H.
  unfold zlen in H. rewrite array_length in H. exact H.
Qed.

Lemma value_inj a b : value_Z a = value_Z b -> a = b.
Proof. intros H. apply array_eq, be_val_inj; [by rewrite !array_length|done]. Qed.

Lemma value_zero : value_Z zeroWord = 0.
Proof. done. Qed.

Lemma value_eqb_zero v : arr_eqb v zeroWord = (value_Z v =? 0).
Proof.
  apply eq_bool_prop_intro. rewrite !Is_true_true, arr_eqb_eq, Z.eqb_eq.
  split; [by intros ->|]. intros H. apply value_inj. by rewrite H, value_zero.
Qed.

Definition limbs (r0 r1 r2 r3 : Z) : Z :=
  r0 + r1 * 2 ^ 64 + r2 * 2 ^ 128 + r3 * 2 ^ 192.

Lemma array_quarters {A} (l : list A) : length l = 32%nat ->
  l = slice l 0 8 ++ slice l 8 16 ++ slice l 16 24 ++ slice l 24 32.
Proof.
  intros Hl. do 32 (destruct l as [|? l]; [discriminate|]). destruct l; [|discriminate].
  reflexivity.
Qed.

Lemma limb_range v i : 0 <= i < 4 -> isU64 (getInternalUint64 v i).
Proof.
  intros Hi. unfold getInternalUint64, isU64.
  pose proof (be_val_range (slice (arr_bytes v) (24 - i * 8) (24 - i * 8 + 8))) as H.
  rewrite zlen_slice in H; [|lia|unfold zlen; rewrite array_length; lia].
  replace (24 - i * 8 + 8 - (24 - i * 8)) with 8 in H by lia.
  change (256 ^ 8) with (2 ^ 64) in H. done.
Qed.

Lemma value_limbs v :
  value_Z v = limbs (getInternalUint64 v 0) (getInternalUint64 v 1)
                    (getInternalUint64 v 2) (getInternalUint64 v 3).
Proof.
  unfold value_Z, getInternalUint64, limbs. pose proof (array_length v) as Hl.
  generalize dependent (arr_bytes v). intros l Hl. rewrite (array_quarters l Hl) at 1.
  rewrite !be_val_app, !zlen_app, !zlen_slice by zblia.
  change (be_val (slice l 0 8) * 2 ^ 192 +
    (be_val (slice l 8 16) * 2 ^ 128 + (be_val (slice l 16 24) * 2 ^ 64 + be_val (slice l 24 32)))
    = be_val (slice l 24 32) + be_val (slice l 16 24) * 2 ^ 64
      + be_val (slice l 8 16) * 2 ^ 128 + be_val (slice l 0 8) * 2 ^ 192). lia.
Qed.

Lemma be_val_limb r : isU64 r -> be_val (be_bytes 8 r) = r.
Proof. intros. rewrite be_val_be_bytes. apply Z.mod_small. done. Qed.

Lemma PutUint64_bytes z start x : 0 <= start <= 24 ->
  arr_bytes (PutUint64 z start x) = copy_at (arr_bytes z) start (start + 8) (be_bytes 8 x).
Proof.
  intros. apply to_array_bytes, Nat2Z.inj. change (Z.of_nat (length ?l)) with (zlen l).
  rewrite zlen_copy_at; unfold zlen; rewrite ?array_length; lia.
Qed.

Lemma PutUint64_chain r0 r1 r2 r3 : isU64 r0 -> isU64 r1 -> isU64 r2 -> isU64 r3 ->
  value_Z (PutUint64 (PutUint64 (PutUint64 (PutUint64 zeroWord 24 r0) 16 r1) 8 r2) 0 r3)
  = limbs r0 r1 r2 r3.
Proof.
  intros H0 H1 H2 H3.
  assert (arr_bytes (PutUint64 (PutUint64 (PutUint64 (PutUint64 zeroWord 24 r0) 16 r1) 8 r2) 0 r3)
    = be_bytes 8 r3 ++ be_bytes 8 r2 ++ be_bytes 8 r1 ++ be_bytes 8 r0) as E.
  { rewrite !PutUint64_bytes by lia. unfold copy_at, go_copy, slice. reflexivity. }
  unfold value_Z. rewrite E, !be_val_app, !be_val_limb by done.
  unfold zlen. rewrite !length_app, !length_be_bytes. unfold limbs.
  change (Z.of_nat (8 + (8 + 8))) with 24. change (Z.of_nat (8 + 8)) with 16.
  change (Z.of_nat 8) with 8. lia.
Qed.

Lemma Add64_spec x y c : isU64 x -> isU64 y -> 0 <= c <= 1 ->
  let '(s, c') := Add64 x y c in
  isU64 s /\ 0 <= c' <= 1 /\ x + y + c = s + c' * 2 ^ 64.
Proof.
  intros. cbn. unfold isU64, u64, wrapU in *.
  divlia.
Qed.

Lemma Sub64_spec x y c : isU64 x -> isU64 y -> 0 <= c <= 1 ->
  let '(s, c') := Sub64 x y c in
  isU64 s /\ 0 <= c' <= 1 /\ x - y - c = s - c' * 2 ^ 64.
Proof.
  intros. cbn. split; [apply u64_range|]. unfold isU64, u64, wrapU in *.
  case_if; (split; [lia|]).
  - rewrite <-(Z.mod_unique (x - y - c) (2 ^ 64) (-1) (x - y - c + 2 ^ 64)); lia.
  - rewrite Z.mod_small; lia.
Qed.

Lemma Value_Add_Z a b : value_Z (Value_Add a b) = (value_Z a + value_Z b) mod M256.
Proof.
  rewrite (value_limbs a), (value_limbs b). unfold Value_Add.
  pose proof (limb_range a 0). pose proof (limb_range a 1). pose proof (limb_range a 2).
  pose proof (limb_range a 3). pose proof (limb_range b 0). pose proof (limb_range b 1).
  pose proof (limb_range b 2). pose proof (limb_range b 3).
  repeat match goal with
  | |- context [Add64 ?x ?y ?c] =>
      let H := fresh "A" in
      pose proof (Add64_spec x y c) as H; destruct (Add64 x y c);
      destruct H as (? & ? & ?); [lia || auto with zarith ..|]
  end.
  rewrite PutUint64_chain by done. unfold limbs, M256 in *.
  eapply Z.mod_unique_pos; [unfold isU64 in *; lia|]. instantiate (1 := z6). lia.
Qed.

Lemma Value_Sub_Z a b : value_Z (Value_Sub a b) = (value_Z a - value_Z b) mod M256.
Proof.
  rewrite (value_limbs a), (value_limbs b). unfold Value_Sub.
  pose proof (limb_range a 0). pose proof (limb_range a 1). pose proof (limb_range a 2).
  pose proof (limb_range a 3). pose proof (limb_range b 0). pose proof (limb_range b 1).
  pose proof (limb_range b 2). pose proof (limb_range b 3).
  repeat match goal with
  | |- context [Sub64 ?x ?y ?c] =>
      let H := fresh "A" in
      pose proof (Sub64_spec x y c) as H; destruct (Sub64 x y c);
      destruct H as (? & ? & ?); [lia || auto with zarith ..|]
  end.
  rewrite PutUint64_chain by done. unfold limbs, M256 in *.
  eapply Z.mod_unique_pos; [unfold isU64 in *; lia|]. instantiate (1 := - z6). lia.
Qed.

Lemma bytes_Compare_spec a b : length a = length b ->
  bytes_Compare a b = match be_val a ?= be_val b with Lt => -1 | Eq => 0 | Gt => 1 end.
Proof.
  revert b. induction a as [|x a IH]; intros [|y b] Hl; try discriminate; [done|].
  injection Hl as Hl. cbn [bytes_Compare]. rewrite !be_val_cons.
  pose proof (be_val_range a). pose proof (be_val_range b). unfold zlen in *. rewrite Hl in *.
  case_if; [by rewrite (proj2 (Z.compare_lt_iff _ _)) by nia|].
  case_if; [by rewrite (proj2 (Z.compare_gt_iff _ _)) by nia|].
  rewrite IH by done. assert (byte_val x = byte_val y) as -> by lia.
  by rewrite Z.add_compare_mono_l.
Qed.

Lemma Value_Cmp_Z a b :
  Value_Cmp a b = match value_Z a ?= value_Z b with Lt => -1 | Eq => 0 | Gt => 1 end.
Proof. apply bytes_Compare_spec. by rewrite !array_length. Qed.

Lemma Value_Cmp_lt a b : (Value_Cmp a b <? 0) = (value_Z a <? value_Z b).
Proof. rewrite Value_Cmp_Z. unfold Z.ltb. by destruct (value_Z a ?= value_Z b). Qed.

Lemma Value_Min_Z a b : value_Z (Value_Min a b) = Z.min (value_Z a) (value_Z b).
Proof. unfold Value_Min. rewrite Value_Cmp_lt. case_if; lia. Qed.

Section ScaleFacts.
Context `{UL : Uint256Laws}.

Lemma Value_Scale_Z v s : isU64 s -> value_Z (Value_Scale v s) = (value_Z v * s) mod M256.
Proof.
  intros Hs. unfold Value_Scale, ValueFromUint256, value_Z at 1.
  rewrite Bytes32_law, Mul_law, SetUint64_law by done. unfold Value_ToUint256.
  rewrite SetBytes_law, Z.mul_mod_idemp_l by done. done.
Qed.

Lemma Value_Uint256_Z v : uval (Value_ToUint256 v) = value_Z v.
Proof. unfold Value_ToUint256. rewrite SetBytes_law. apply Z.mod_small, value_range. Qed.

Lemma SetBytes32_value (v : Value) : uval (Int_SetBytes32 (arr_bytes v)) = value_Z v.
Proof. rewrite SetBytes32_law; [done|]. unfold zlen. by rewrite array_length. Qed.

Lemma Bytes32_value a : value_Z (Int_Bytes32 a) = uval a.
Proof. apply Bytes32_law. Qed.

(** The arithmetic on values, which works on limbs of 64 bits and on byte
    strings, is that of integers modulo 2^256, and the comparison is that of
    integers. *)
Theorem value_arithmetic a b s : isU64 s ->
  value_Z (Value_Add a b) = (value_Z a + value_Z b) mod M256
  /\ value_Z (Value_Sub a b) = (value_Z a - value_Z b) mod M256
  /\ value_Z (Value_Scale a s) = (value_Z a * s) mod M256
  /\ Value_Cmp a b = match value_Z a ?= value_Z b with Lt => -1 | Eq => 0 | Gt => 1 end.
Proof. intros Hs. split_and!; auto using Value_Add_Z, Value_Sub_Z, Value_Scale_Z, Value_Cmp_Z. Qed.

End ScaleFacts.

(** ** Text format: facts *)

Lemma fromHexChar_hexDigit n : 0 <= n < 16 -> fromHexChar (hexDigit n) = Some n.
Proof.
  intros Hn. assert (n ∈ seqZ 0 16) as Hi by (apply elem_of_seqZ; lia).
  revert n Hi Hn. cbn. intros n Hi _.
  repeat (apply elem_of_cons in Hi as [->|Hi]; [reflexivity|]). by apply not_elem_of_nil in Hi.
Qed.

Lemma hexDecode_encode data :
  hexDecodeString (flat_map (fun b => [hexDigit (byte_val b / 16); hexDigit (byte_val b mod 16)]) data)
  = Some data.
Proof.
  induction data as [|b data IH]; [done|]. cbn [flat_map app hexDecodeString].
  pose proof (byte_val_range b). pose proof (Z.mod_pos_bound (byte_val b) 16).
  rewrite !fromHexChar_hexDigit, IH by divlia. do 2 f_equal.
  rewrite <-(byte_of_val b) at 3. f_equal.
  rewrite Z.mul_comm. symmetry. by apply Z.div_mod.
Qed.

(** The hexadecimal text format of addresses, keys, words, values and
    hashes is read back to what was written. *)
Theorem textToBytes_bytesToText n (a : array n) :
  textToBytes n (bytesToText (arr_bytes a)) = Some a.
Proof.
  unfold textToBytes, bytesToText. rewrite !bool_decide_eq_true_2 by done.
  cbn [andb]. rewrite hexDecode_encode, array_length, Nat.eqb_refl. by rewrite to_array_arr.
Qed.

#[local] Existing Instance uint256_ref.
#[local] Existing Instance uint256_ref_laws.

Lemma value_arithmetic_witness :
  let one := to_array 32 (be_bytes 32 1) in
  value_Z (Value_Sub zeroWord one) = M256 - 1 /\ value_Z (Value_Scale one (2 ^ 63)) = 2 ^ 63.
Proof.
  destruct (value_arithmetic zeroWord (to_array 32 (be_bytes 32 1)) 0 ltac:(done)) as (_ & H1 & _).
  destruct (value_arithmetic (to_array 32 (be_bytes 32 1)) zeroWord (2 ^ 63) ltac:(unfold isU64; lia)) as (_ & _ & H2 & _).
  split; [rewrite H1; by vm_compute|rewrite H2; by vm_compute].
Defined.
