(* ===== verification/OpCodes.v ===== *)
(** * EVM op codes

    [go/tosca/vm/opcodes.go]. An op code is a byte; the constants are
    abbreviations, so that they can be matched on. *)
From Stdlib Require Import ZArith Lia Strings.Byte.
From stdpp Require Import base list numbers.
From S2P Require Import Prelude.
Set Default Goal Selector "!".
Local Open Scope Z_scope.

Abbreviation OpCode := byte.

Abbreviation STOP := x00.
Abbreviation ADD := x01.
Abbreviation MUL := x02.
Abbreviation SUB := x03.
Abbreviation DIV := x04.
Abbreviation SDIV := x05.
Abbreviation MOD := x06.
Abbreviation SMOD := x07.
Abbreviation ADDMOD := x08.
Abbreviation MULMOD := x09.
Abbreviation EXP := x0a.
Abbreviation SIGNEXTEND := x0b.
Abbreviation LT := x10.
Abbreviation GT := x11.
Abbreviation SLT := x12.
Abbreviation SGT := x13.
Abbreviation EQ := x14.
Abbreviation ISZERO := x15.
Abbreviation AND := x16.
Abbreviation OR := x17.
Abbreviation XOR := x18.
Abbreviation NOT := x19.
Abbreviation BYTE := x1a.
Abbreviation SHL := x1b.
Abbreviation SHR := x1c.
Abbreviation SAR := x1d.
Abbreviation CLZ := x1e.
Abbreviation SHA3 := x20.
Abbreviation ADDRESS := x30.
Abbreviation BALANCE := x31.
Abbreviation ORIGIN := x32.
Abbreviation CALLER := x33.
Abbreviation CALLVALUE := x34.
Abbreviation CALLDATALOAD := x35.
Abbreviation CALLDATASIZE := x36.
Abbreviation CALLDATACOPY := x37.
Abbreviation CODESIZE := x38.
Abbreviation CODECOPY := x39.
Abbreviation GASPRICE := x3a.
Abbreviation EXTCODESIZE := x3b.
Abbreviation EXTCODECOPY := x3c.
Abbreviation RETURNDATASIZE := x3d.
Abbreviation RETURNDATACOPY := x3e.
Abbreviation EXTCODEHASH := x3f.
Abbreviation BLOCKHASH := x40.
Abbreviation COINBASE := x41.
Abbreviation TIMESTAMP := x42.
Abbreviation NUMBER := x43.
Abbreviation PREVRANDAO := x44.
Abbreviation GASLIMIT := x45.
Abbreviation CHAINID := x46.
Abbreviation SELFBALANCE := x47.
Abbreviation BASEFEE := x48.
Abbreviation BLOBHASH := x49.
Abbreviation BLOBBASEFEE := x4a.
Abbreviation POP := x50.
Abbreviation MLOAD := x51.
Abbreviation MSTORE := x52.
Abbreviation MSTORE8 := x53.
Abbreviation SLOAD := x54.
Abbreviation SSTORE := x55.
Abbreviation JUMP := x56.
Abbreviation JUMPI := x57.
Abbreviation PC := x58.
Abbreviation MSIZE := x59.
Abbreviation GAS := x5a.
Abbreviation JUMPDEST := x5b.
Abbreviation TLOAD := x5c.
Abbreviation TSTORE := x5d.
Abbreviation PUSH0 := x5f.
Abbreviation MCOPY := x5e.
Abbreviation PUSH1 := x60.
Abbreviation PUSH2 := x61.
Abbreviation PUSH3 := x62.
Abbreviation PUSH4 := x63.
Abbreviation PUSH5 := x64.
Abbreviation PUSH6 := x65.
Abbreviation PUSH7 := x66.
Abbreviation PUSH8 := x67.
Abbreviation PUSH9 := x68.
Abbreviation PUSH10 := x69.
Abbreviation PUSH11 := x6a.
Abbreviation PUSH12 := x6b.
Abbreviation PUSH13 := x6c.
Abbreviation PUSH14 := x6d.
Abbreviation PUSH15 := x6e.
Abbreviation PUSH16 := x6f.
Abbreviation PUSH17 := x70.
Abbreviation PUSH18 := x71.
Abbreviation PUSH19 := x72.
Abbreviation PUSH20 := x73.
Abbreviation PUSH21 := x74.
Abbreviation PUSH22 := x75.
Abbreviation PUSH23 := x76.
Abbreviation PUSH24 := x77.
Abbreviation PUSH25 := x78.
Abbreviation PUSH26 := x79.
Abbreviation PUSH27 := x7a.
Abbreviation PUSH28 := x7b.
Abbreviation PUSH29 := x7c.
Abbreviation PUSH30 := x7d.
Abbreviation PUSH31 := x7e.
Abbreviation PUSH32 := x7f.
Abbreviation DUP1 := x80.
Abbreviation DUP2 := x81.
Abbreviation DUP3 := x82.
Abbreviation DUP4 := x83.
Abbreviation DUP5 := x84.
Abbreviation DUP6 := x85.
Abbreviation DUP7 := x86.
Abbreviation DUP8 := x87.
Abbreviation DUP9 := x88.
Abbreviation DUP10 := x89.
Abbreviation DUP11 := x8a.
Abbreviation DUP12 := x8b.
Abbreviation DUP13 := x8c.
Abbreviation DUP14 := x8d.
Abbreviation DUP15 := x8e.
Abbreviation DUP16 := x8f.
Abbreviation SWAP1 := x90.
Abbreviation SWAP2 := x91.
Abbreviation SWAP3 := x92.
Abbreviation SWAP4 := x93.
Abbreviation SWAP5 := x94.
Abbreviation SWAP6 := x95.
Abbreviation SWAP7 := x96.
Abbreviation SWAP8 := x97.
Abbreviation SWAP9 := x98.
Abbreviation SWAP10 := x99.
Abbreviation SWAP11 := x9a.
Abbreviation SWAP12 := x9b.
Abbreviation SWAP13 := x9c.
Abbreviation SWAP14 := x9d.
Abbreviation SWAP15 := x9e.
Abbreviation SWAP16 := x9f.
Abbreviation LOG0 := xa0.
Abbreviation LOG1 := xa1.
Abbreviation LOG2 := xa2.
Abbreviation LOG3 := xa3.
Abbreviation LOG4 := xa4.
Abbreviation CREATE := xf0.
Abbreviation CALL := xf1.
Abbreviation CALLCODE := xf2.
Abbreviation RETURN := xf3.
Abbreviation DELEGATECALL := xf4.
Abbreviation CREATE2 := xf5.
Abbreviation STATICCALL := xfa.
Abbreviation REVERT := xfd.
Abbreviation INVALID := xfe.
Abbreviation SELFDESTRUCT := xff.

(** Go compares op codes as bytes. *)
Definition op_le (a b : OpCode) : bool := byte_val a <=? byte_val b.

(** [lo <= op && op <= hi]. *)
Definition op_in (lo hi op : OpCode) : bool := op_le lo op && op_le op hi.

(** The number of bytes of an instruction, immediate data included. *)
Definition Width (op : OpCode) : Z :=
  if op_in PUSH1 PUSH32 op then (byte_val op - byte_val PUSH1) + 2 else 1.

(** The constants of the source, in its order. *)
Definition opCodeConstants : list OpCode :=
  [STOP; ADD; MUL; SUB; DIV; SDIV; MOD; SMOD; ADDMOD; MULMOD; EXP; SIGNEXTEND; LT; GT; SLT;
   SGT; EQ; ISZERO; AND; OR; XOR; NOT; BYTE; SHL; SHR; SAR; CLZ; SHA3; ADDRESS; BALANCE;
   ORIGIN; CALLER; CALLVALUE; CALLDATALOAD; CALLDATASIZE; CALLDATACOPY; CODESIZE; CODECOPY;
   GASPRICE; EXTCODESIZE; EXTCODECOPY; RETURNDATASIZE; RETURNDATACOPY; EXTCODEHASH; BLOCKHASH;
   COINBASE; TIMESTAMP; NUMBER; PREVRANDAO; GASLIMIT; CHAINID; SELFBALANCE; BASEFEE; BLOBHASH;
   BLOBBASEFEE; POP; MLOAD; MSTORE; MSTORE8; SLOAD; SSTORE; JUMP; JUMPI; PC; MSIZE; GAS;
   JUMPDEST; TLOAD; TSTORE; PUSH0; MCOPY; PUSH1; PUSH2; PUSH3; PUSH4; PUSH5; PUSH6; PUSH7;
   PUSH8; PUSH9; PUSH10; PUSH11; PUSH12; PUSH13; PUSH14; PUSH15; PUSH16; PUSH17; PUSH18;
   PUSH19; PUSH20; PUSH21; PUSH22; PUSH23; PUSH24; PUSH25; PUSH26; PUSH27; PUSH28; PUSH29;
   PUSH30; PUSH31; PUSH32; DUP1; DUP2; DUP3; DUP4; DUP5; DUP6; DUP7; DUP8; DUP9; DUP10; DUP11;
   DUP12; DUP13; DUP14; DUP15; DUP16; SWAP1; SWAP2; SWAP3; SWAP4; SWAP5; SWAP6; SWAP7; SWAP8;
   SWAP9; SWAP10; SWAP11; SWAP12; SWAP13; SWAP14; SWAP15; SWAP16; LOG0; LOG1; LOG2; LOG3; LOG4;
   CREATE; CALL; CALLCODE; RETURN; DELEGATECALL; CREATE2; STATICCALL; REVERT; INVALID;
   SELFDESTRUCT].

(** The table of valid op codes ([initValidOpCodes]), one entry per constant
    the source enables. *)
Definition validOpCodes : list OpCode :=
  [STOP; ADD; MUL; SUB; DIV; SDIV; MOD; SMOD;
   ADDMOD; MULMOD; EXP; SIGNEXTEND; LT; GT; SLT; SGT;
   EQ; ISZERO; AND; OR; XOR; NOT; BYTE; SHL;
   SHR; CLZ; SAR; CLZ; SHA3; ADDRESS; BALANCE; ORIGIN;
   CALLER; CALLVALUE; CALLDATALOAD; CALLDATASIZE; CALLDATACOPY; CODESIZE; CODECOPY; GASPRICE;
   EXTCODESIZE; EXTCODECOPY; RETURNDATASIZE; RETURNDATACOPY; EXTCODEHASH; BLOCKHASH; COINBASE; TIMESTAMP;
   NUMBER; PREVRANDAO; GASLIMIT; CHAINID; SELFBALANCE; BASEFEE; BLOBHASH; BLOBBASEFEE;
   POP; MLOAD; MSTORE; MSTORE8; SLOAD; SSTORE; JUMP; JUMPI;
   PC; MSIZE; GAS; JUMPDEST; TLOAD; TSTORE; PUSH0; MCOPY;
   PUSH1; PUSH2; PUSH3; PUSH4; PUSH5; PUSH6; PUSH7; PUSH8;
   PUSH9; PUSH10; PUSH11; PUSH12; PUSH13; PUSH14; PUSH15; PUSH16;
   PUSH17; PUSH18; PUSH19; PUSH20; PUSH21; PUSH22; PUSH23; PUSH24;
   PUSH25; PUSH26; PUSH27; PUSH28; PUSH29; PUSH30; PUSH31; PUSH32;
   DUP1; DUP2; DUP3; DUP4; DUP5; DUP6; DUP7; DUP8;
   DUP9; DUP10; DUP11; DUP12; DUP13; DUP14; DUP15; DUP16;
   SWAP1; SWAP2; SWAP3; SWAP4; SWAP5; SWAP6; SWAP7; SWAP8;
   SWAP9; SWAP10; SWAP11; SWAP12; SWAP13; SWAP14; SWAP15; SWAP16;
   LOG0; LOG1; LOG2; LOG3; LOG4; CREATE; CALL; CALLCODE;
   RETURN; DELEGATECALL; CREATE2; STATICCALL; REVERT; SELFDESTRUCT].

Definition IsValid (op : OpCode) : bool := existsb (Byte.eqb op) validOpCodes.

(** Every op code, in order. *)
Definition allOpCodes : list OpCode := map (fun n => byte_of (Z.of_nat n)) (seq 0 256).

Definition ValidOpCodesNoPush : list OpCode :=
  filter (fun op => Is_true (negb (op_in PUSH0 PUSH32 op) && IsValid op)) allOpCodes.

(** ** Facts *)

Lemma Width_range op : 1 <= Width op <= 33.
Proof. destruct op; vm_compute; split; discriminate. Qed.

Lemma allOpCodes_complete op : In op allOpCodes.
Proof.
  unfold allOpCodes. apply in_map_iff. exists (Z.to_nat (byte_val op)).
  pose proof (byte_val_range op). rewrite Z2Nat.id by lia. rewrite byte_of_val.
  split; [done|]. apply in_seq. lia.
Qed.

(** The valid op codes are the constants, but for [INVALID]. *)
Lemma IsValid_constants op : IsValid op = existsb (Byte.eqb op) opCodeConstants && negb (Byte.eqb op INVALID).
Proof. by destruct op. Qed.

Lemma opCodeConstants_distinct : NoDup opCodeConstants.
Proof. apply (bool_decide_unpack _). by vm_compute. Qed.
