(* ===== verification/SfvmStack.v ===== *)
(** * The operand stack of the interpreter

    [go/interpreter/sfvm/stack.go]: a fixed array of 1024 words and a stack
    pointer. The operations do not check bounds; an index outside the array
    is a run-time panic of Go, [None] here. A popped or pushed element is
    accessed through a pointer into the array, so an operation that the
    source performs through the pointer is a write at that index. *)
From Stdlib Require Import ZArith Lia Strings.Byte.
From stdpp Require Import base list numbers.
From S2P Require Import Prelude Uint256.
Set Default Goal Selector "!".
Local Open Scope Z_scope.

Definition maxStackSize : Z := 1024.

Record stack := mkStack { st_data : list u256; st_stackPointer : Z }.

(** Reading and writing [s.data[i]]. *)
Definition st_read (s : stack) (i : Z) : option u256 :=
  if 0 <=? i then st_data s !! Z.to_nat i else None.

Definition st_write (s : stack) (i : Z) (v : u256) : option stack :=
  if (0 <=? i) && (i <? zlen (st_data s))
  then Some (mkStack (<[Z.to_nat i := v]> (st_data s)) (st_stackPointer s)) else None.

Definition st_len (s : stack) : Z := st_stackPointer s.

Definition st_push (s : stack) (v : u256) : option stack :=
  match st_write s (st_stackPointer s) v with
  | None => None
  | Some s' => Some (mkStack (st_data s') (st_stackPointer s + 1))
  end.

(** [pushUndefined] returns a pointer to the new top element; what it points
    to is whatever the array holds there. *)
Definition st_pushUndefined (s : stack) : option stack :=
  match st_read s (st_stackPointer s) with
  | None => None
  | Some _ => Some (mkStack (st_data s) (st_stackPointer s + 1))
  end.

Definition st_pop (s : stack) : option (u256 * stack) :=
  match st_read s (st_stackPointer s - 1) with
  | None => None
  | Some v => Some (v, mkStack (st_data s) (st_stackPointer s - 1))
  end.

Definition st_peekN (s : stack) (n : Z) : option u256 := st_read s (st_len s - n - 1).

Definition st_peek (s : stack) : option u256 := st_read s (st_len s - 1).

(** A write through the pointer [peek] returns. *)
Definition st_setTop (s : stack) (v : u256) : option stack := st_write s (st_len s - 1) v.

Definition st_swap (s : stack) (n : Z) : option stack :=
  match st_read s (st_len s - 1), st_read s (st_len s - n - 1) with
  | Some a, Some b =>
      match st_write s (st_len s - n - 1) a with
      | None => None
      | Some s' => st_write s' (st_len s - 1) b
      end
  | _, _ => None
  end.

Definition st_dup (s : stack) (n : Z) : option stack :=
  match st_read s (st_stackPointer s - n - 1) with
  | None => None
  | Some v => st_push s v
  end.

Definition st_get (s : stack) (i : Z) : option u256 := st_read s i.

(** A stack of the pool: the array of an earlier run with its pointer reset
    by [ReturnStack]. *)
Definition NewStack (garbage : list u256) : stack := mkStack garbage 0.

Definition ReturnStack (s : stack) : stack := mkStack (st_data s) 0.

(** ** The invariant and the abstract view *)

Definition stack_wf (s : stack) : Prop :=
  zlen (st_data s) = maxStackSize /\ 0 <= st_stackPointer s <= maxStackSize.

(** The elements of the stack, top first. *)
Definition stack_view (s : stack) : list u256 :=
  reverse (take (Z.to_nat (st_stackPointer s)) (st_data s)).

(** ** Facts *)

Section Facts.
Implicit Types s : stack.

Lemma view_length s : stack_wf s -> zlen (stack_view s) = st_len s.
Proof.
  intros [Hd Hs]. unfold stack_view, zlen, st_len, maxStackSize in *.
  rewrite length_reverse, length_take. lia.
Qed.

Lemma st_read_wf s i : stack_wf s -> 0 <= i < maxStackSize -> is_Some (st_read s i).
Proof.
  intros [Hd _] Hi. unfold st_read. rewrite (proj2 (Z.leb_le 0 i)) by lia.
  apply lookup_lt_is_Some. unfold zlen in Hd. lia.
Qed.

(** The [i]-th element from the top is at index [len - 1 - i]. *)
Lemma view_lookup s (i : nat) : stack_wf s -> Z.of_nat i < st_len s ->
  stack_view s !! i = st_data s !! Z.to_nat (st_len s - Z.of_nat i - 1).
Proof.
  intros [Hd Hs] Hi. unfold stack_view, st_len, zlen, maxStackSize in *.
  rewrite reverse_lookup by (rewrite length_take; lia).
  rewrite length_take, lookup_take_lt by lia. f_equal. lia.
Qed.

Lemma st_peekN_view s (n : nat) x : stack_wf s -> stack_view s !! n = Some x ->
  st_peekN s (Z.of_nat n) = Some x.
Proof.
  intros Hw Hv. pose proof (lookup_lt_Some _ _ _ Hv) as Hl.
  pose proof (view_length s Hw). unfold st_peekN, st_read.
  rewrite (proj2 (Z.leb_le 0 _)) by zblia. rewrite <-view_lookup; [done|done|zblia].
Qed.

Lemma st_peek_view s x l : stack_wf s -> stack_view s = x :: l -> st_peek s = Some x.
Proof.
  intros Hw Hv. pose proof (st_peekN_view s 0 x Hw) as H. rewrite Hv in H.
  specialize (H eq_refl). unfold st_peekN in H. unfold st_peek. rewrite <-H. f_equal. lia.
Qed.

Lemma take_last_reverse {A} (l : list A) (n : nat) x r :
  reverse (take n l) = x :: r -> (0 < n <= length l)%nat ->
  l !! (n - 1)%nat = Some x /\ reverse (take (n - 1) l) = r.
Proof.
  intros H Hn. destruct n as [|n]; [lia|]. replace (S n - 1)%nat with n by lia.
  destruct (lookup_lt_is_Some_2 l n) as [y Hy]; [lia|].
  rewrite (take_S_r l n y Hy), reverse_snoc in H. by injection H as -> <-.
Qed.

Lemma st_pop_view s x l : stack_wf s -> stack_view s = x :: l ->
  exists s', st_pop s = Some (x, s') /\ stack_wf s' /\ stack_view s' = l
             /\ st_len s' = st_len s - 1.
Proof.
  intros Hw Hv. pose proof (view_length s Hw) as Hl. rewrite Hv in Hl.
  destruct Hw as [Hd Hs]. unfold st_len, zlen, maxStackSize in *. simpl in Hl.
  apply take_last_reverse in Hv as [Hx Hr]; [|lia].
  exists (mkStack (st_data s) (st_stackPointer s - 1)). unfold st_pop, st_read.
  rewrite (proj2 (Z.leb_le 0 _)) by lia.
  replace (Z.to_nat (st_stackPointer s - 1)) with (Z.to_nat (st_stackPointer s) - 1)%nat by lia.
  rewrite Hx. split; [done|]. unfold stack_wf, stack_view, st_len, zlen, maxStackSize. simpl.
  replace (Z.to_nat (st_stackPointer s - 1)) with (Z.to_nat (st_stackPointer s) - 1)%nat by lia.
  repeat split; (done || lia).
Qed.

Lemma st_push_view s v : stack_wf s -> st_len s < maxStackSize ->
  exists s', st_push s v = Some s' /\ stack_wf s' /\ stack_view s' = v :: stack_view s
             /\ st_len s' = st_len s + 1.
Proof.
  intros [Hd Hs] Hl. unfold st_push, st_write, st_len in *.
  rewrite (proj2 (Z.leb_le 0 _)), (proj2 (Z.ltb_lt _ _)) by lia. cbn [andb].
  eexists. split; [reflexivity|]. unfold stack_wf, stack_view, zlen, maxStackSize in *. simpl.
  rewrite length_insert. repeat split; [lia..|].
  rewrite Z2Nat.inj_add, Nat.add_1_r by lia.
  rewrite (take_S_r _ _ v) by (apply list_lookup_insert_eq; lia).
  rewrite reverse_snoc, take_insert_ge by lia. done.
Qed.

(** [pushUndefined] followed by a write through the pointer is a push. *)
Lemma st_pushUndefined_setTop s v : stack_wf s -> st_len s < maxStackSize ->
  exists s1, st_pushUndefined s = Some s1 /\ st_setTop s1 v = st_push s v.
Proof.
  intros Hw Hl. destruct (st_read_wf s (st_stackPointer s)) as [x Hx];
    [done|unfold st_len in *; destruct Hw; lia|].
  exists (mkStack (st_data s) (st_stackPointer s + 1)). unfold st_pushUndefined.
  rewrite Hx. split; [done|]. unfold st_setTop, st_push, st_write, st_len. simpl.
  replace (st_stackPointer s + 1 - 1) with (st_stackPointer s) by lia.
  by case_if.
Qed.

Lemma st_setTop_view s x l v : stack_wf s -> stack_view s = x :: l ->
  exists s', st_setTop s v = Some s' /\ stack_wf s' /\ stack_view s' = v :: l
             /\ st_len s' = st_len s.
Proof.
  intros Hw Hv. pose proof (view_length s Hw) as Hl. rewrite Hv in Hl.
  destruct Hw as [Hd Hs]. unfold st_setTop, st_write, st_len, zlen, maxStackSize in *.
  simpl in Hl. rewrite (proj2 (Z.leb_le 0 _)), (proj2 (Z.ltb_lt _ _)) by lia. cbn [andb].
  eexists. split; [reflexivity|]. unfold stack_wf, stack_view, zlen, maxStackSize. simpl.
  rewrite length_insert. repeat split; [lia..|].
  apply take_last_reverse in Hv as [Hx Hr]; [|lia].
  replace (Z.to_nat (st_stackPointer s)) with (S (Z.to_nat (st_stackPointer s) - 1)) at 1 by lia.
  replace (Z.to_nat (st_stackPointer s - 1)) with (Z.to_nat (st_stackPointer s) - 1)%nat by lia.
  rewrite (take_S_r _ _ v) by (apply list_lookup_insert_eq; lia).
  rewrite reverse_snoc, take_insert_ge by lia. by rewrite Hr.
Qed.

Lemma st_dup_view s (n : nat) x : stack_wf s -> st_len s < maxStackSize ->
  stack_view s !! n = Some x ->
  exists s', st_dup s (Z.of_nat n) = Some s' /\ stack_wf s' /\ stack_view s' = x :: stack_view s
             /\ st_len s' = st_len s + 1.
Proof.
  intros Hw Hl Hx. apply st_peekN_view in Hx; [|done].
  unfold st_dup. change (st_read s (st_stackPointer s - Z.of_nat n - 1)) with (st_peekN s (Z.of_nat n)).
  rewrite Hx. by apply st_push_view.
Qed.

Lemma take_reverse_insert {A} (l : list A) (n i : nat) (x : A) : (i < n <= length l)%nat ->
  reverse (take n (<[i:=x]> l)) = <[(n - 1 - i)%nat:=x]> (reverse (take n l)).
Proof.
  intros Hi. apply list_eq. intros j.
  destruct (decide (j < n)%nat) as [Hj|Hj].
  - rewrite reverse_lookup by (rewrite length_take, length_insert; lia).
    rewrite length_take, length_insert, Nat.min_l by lia. rewrite lookup_take_lt by lia.
    destruct (decide (j = n - 1 - i)%nat) as [->|Hne].
    + rewrite list_lookup_insert_eq by (rewrite length_reverse, length_take; lia).
      replace (n - S (n - 1 - i))%nat with i by lia. apply list_lookup_insert_eq. lia.
    + rewrite !list_lookup_insert_ne by lia.
      rewrite reverse_lookup by (rewrite length_take; lia).
      rewrite length_take, Nat.min_l, lookup_take_lt by lia. done.
  - rewrite !lookup_ge_None_2; [done| |].
    + rewrite length_insert, length_reverse, length_take. lia.
    + rewrite length_reverse, length_take. lia.
Qed.

Lemma st_write_view s (i : nat) v : stack_wf s -> Z.of_nat i < st_len s ->
  exists s', st_write s (st_len s - Z.of_nat i - 1) v = Some s' /\ stack_wf s'
             /\ stack_view s' = <[i := v]> (stack_view s) /\ st_len s' = st_len s.
Proof.
  intros [Hd Hs] Hi. unfold st_write, st_len, zlen, maxStackSize in *.
  rewrite (proj2 (Z.leb_le 0 _)), (proj2 (Z.ltb_lt _ _)) by lia. cbn [andb].
  eexists. split; [reflexivity|]. unfold stack_wf, stack_view, zlen, maxStackSize. simpl.
  rewrite length_insert. repeat split; [lia..|].
  rewrite take_reverse_insert by lia. f_equal. lia.
Qed.

(** [swap] exchanges the top element with the [n]-th below it. *)
Lemma st_swap_view s (n : nat) x y : stack_wf s ->
  stack_view s !! 0%nat = Some x -> stack_view s !! n = Some y ->
  exists s', st_swap s (Z.of_nat n) = Some s' /\ stack_wf s'
             /\ stack_view s' = <[0%nat := y]> (<[n := x]> (stack_view s))
             /\ st_len s' = st_len s.
Proof.
  intros Hw Hx Hy.
  pose proof (lookup_lt_Some _ _ _ Hy) as Hn. pose proof (view_length s Hw) as Hl.
  pose proof (st_peekN_view s 0 x Hw Hx) as Px. pose proof (st_peekN_view s n y Hw Hy) as Py.
  unfold st_peekN in Px, Py. replace (st_len s - Z.of_nat 0 - 1) with (st_len s - 1) in Px by lia.
  unfold st_swap. rewrite Px, Py.
  destruct (st_write_view s n x Hw) as (s1 & -> & Hw1 & Hv1 & Hl1); [zblia|].
  destruct (st_write_view s1 0 y Hw1) as (s2 & Hs2 & Hw2 & Hv2 & Hl2); [zblia|].
  exists s2. rewrite <-Hl1, <-Hv1, <-Hl2.
  replace (st_len s2 - 1) with (st_len s1 - Z.of_nat 0 - 1) by lia. done.
Qed.

Lemma NewStack_wf garbage : zlen garbage = maxStackSize ->
  stack_wf (NewStack garbage) /\ stack_view (NewStack garbage) = [].
Proof. intros H. split; [|done]. split; [done|]. simpl. unfold maxStackSize. lia. Qed.

End Facts.
