(* ===== verification/SfvmAnalysis.v ===== *)
(** * Jump destination analysis

    [go/interpreter/sfvm/analysis.go]: a bitmap with one bit per byte of
    code that marks the [JUMPDEST] instructions, computed by one pass over
    the code, and the cache of these bitmaps by code hash. The cache is
    [github.com/hashicorp/golang-lru], an interface here ([LRU], with its
    documented behaviour as [LRULaws]). *)
From Stdlib Require Import ZArith Lia Strings.Byte.
From stdpp Require Import base list numbers.
From S2P Require Import Prelude Uint256 Types OpCodes.
Set Default Goal Selector "!".
Local Open Scope Z_scope.
Local Open Scope go_scope.

(** ** The bitmap *)

Record jumpDestMap := mkJumpDestMap { jm_bitmap : list Z; jm_codeSize : Z }.

Definition newJumpDestMap (size : Z) : jumpDestMap :=
  let analysisSize := size / 64 in
  let analysisSize := if negb (size mod 64 =? 0) then analysisSize +u64 1 else analysisSize in
  mkJumpDestMap (replicate (Z.to_nat analysisSize) 0) size.

Definition idxToAnalysisIdxAndMask (idx : Z) : Z * Z :=
  (idx / 64, u64 (Z.shiftl 1 (idx mod 64))).

Definition markJumpDest (a : jumpDestMap) (idx : Z) : jumpDestMap :=
  if idx >=? jm_codeSize a then a
  else
    let '(uintIdx, mask) := idxToAnalysisIdxAndMask idx in
    if uintIdx >=? zlen (jm_bitmap a) then a
    else mkJumpDestMap (alter (fun w => Z.lor w mask) (Z.to_nat uintIdx) (jm_bitmap a))
                       (jm_codeSize a).

(** The receiver is a pointer; [nil] has no destinations. *)
Definition isJumpDest (a : option jumpDestMap) (idx : Z) : bool :=
  match a with
  | None => false
  | Some a =>
      let '(uintIdx, mask) := idxToAnalysisIdxAndMask idx in
      if uintIdx >=? zlen (jm_bitmap a) then false
      else match jm_bitmap a !! Z.to_nat uintIdx with
           | Some w => negb (Z.land w mask =? 0)
           | None => false
           end
  end.

(** The pass over the code from [idx] on. An iteration advances by at least
    one byte, so [length code] iterations reach the end. *)
Fixpoint findJumpDestinations_loop (fuel : nat) (code : Code) (idx : Z)
    (analysis : jumpDestMap) : jumpDestMap :=
  match fuel with
  | O => analysis
  | S fuel =>
      match code !! Z.to_nat idx with
      | None => analysis
      | Some op =>
          if op_in PUSH1 PUSH32 op then
            let dataSize := byte_val op - byte_val PUSH1 + 1 in
            findJumpDestinations_loop fuel code (idx + dataSize + 1) analysis
          else
            let analysis :=
              if Byte.eqb op JUMPDEST then markJumpDest analysis (u64 idx) else analysis in
            findJumpDestinations_loop fuel code (idx + 1) analysis
      end
  end.

Definition findJumpDestinations (code : Code) : jumpDestMap :=
  findJumpDestinations_loop (length code) code 0 (newJumpDestMap (zlen code)).

(** ** The cache *)

(** Caches of values [V] by hash. *)
Class LRU (V C : Type) := {
  lru_New : Z -> option C;
  lru_Get : C -> Hash -> C * option V;
  lru_Add : C -> Hash -> V -> C
}.

(** What the library documents: a cache of positive capacity can be created
    and is empty; it holds only what was added under the key. *)
Class LRULaws {V C} (L : LRU V C) := {
  lru_holds : C -> Hash -> V -> Prop;
  lru_New_some n : 0 < n -> is_Some (lru_New n);
  lru_New_empty n c k v : lru_New n = Some c -> ~ lru_holds c k v;
  lru_Get_holds c k c' v : lru_Get c k = (c', Some v) -> lru_holds c k v;
  lru_Get_frame c k k' v : lru_holds (fst (lru_Get c k)) k' v -> lru_holds c k' v;
  lru_Add_holds c k v k' v' :
    lru_holds (lru_Add c k v) k' v' -> (k' = k /\ v' = v) \/ lru_holds c k' v'
}.

Record analysis (C : Type) := mkAnalysis { an_cache : option C; an_maxCachedCodeSize : Z }.
Arguments mkAnalysis {C} _ _.
Arguments an_cache {C} _.
Arguments an_maxCachedCodeSize {C} _.

(** [None] is the panic for a cache that cannot be created. *)
Definition newAnalysis `{LRU jumpDestMap C} (sizeInByte maxCachedCodeSize : Z) : option (analysis C) :=
  let maxCachedCodeSize := Z.max 1 (Z.min maxCachedCodeSize sizeInByte) in
  let size := Z.quot sizeInByte maxCachedCodeSize * 8 in
  match lru_New size with
  | None => None
  | Some cache => Some (mkAnalysis (Some cache) maxCachedCodeSize)
  end.

Definition analyzeJumpDest `{LRU jumpDestMap C} (a : analysis C) (code : Code) (codehash : option Hash)
    : analysis C * jumpDestMap :=
  match an_cache a, codehash with
  | Some cache, Some h =>
      let '(cache, found) := lru_Get cache h in
      let a := mkAnalysis (Some cache) (an_maxCachedCodeSize a) in
      match found with
      | Some m => (a, m)
      | None =>
          if zlen code >? an_maxCachedCodeSize a then (a, findJumpDestinations code)
          else
            let jumpDests := findJumpDestinations code in
            (mkAnalysis (Some (lru_Add cache h jumpDests)) (an_maxCachedCodeSize a), jumpDests)
      end
  | _, _ => (a, findJumpDestinations code)
  end.

(** ** What the analysis computes *)

(** [steps_to code i j]: decoding from offset [i], instruction by
    instruction, reaches an instruction at [j]. *)
Inductive steps_to (code : Code) : Z -> Z -> Prop :=
| steps_here i : steps_to code i i
| steps_next i op j : code !! Z.to_nat i = Some op ->
    steps_to code (i + Width op) j -> steps_to code i j.

(** The instruction boundaries of a code. *)
Definition instr_start (code : Code) (i : Z) : Prop := steps_to code 0 i.

(** A valid jump destination: a [JUMPDEST] byte at an instruction boundary,
    not inside the data of a push. *)
Definition jump_dest (code : Code) (i : Z) : Prop :=
  instr_start code i /\ code !! Z.to_nat i = Some JUMPDEST.

(** ** Facts *)

Definition jm_wf (a : jumpDestMap) : Prop :=
  isU64 (jm_codeSize a) /\ zlen (jm_bitmap a) = (jm_codeSize a + 63) / 64.

Lemma newJumpDestMap_wf size : isU64 size -> jm_wf (newJumpDestMap size).
Proof.
  intros H. unfold newJumpDestMap, jm_wf, zlen. simpl. rewrite length_replicate.
  split; [done|]. case_if; [rewrite u64_id by divlia|]; divlia.
Qed.

Lemma newJumpDestMap_empty size j : isJumpDest (Some (newJumpDestMap size)) j = false.
Proof.
  unfold isJumpDest, newJumpDestMap. simpl.
  match goal with |- (if ?b then _ else _) = _ => destruct b; [done|] end.
  destruct (replicate _ _ !! _) as [w|] eqn:E; [|done].
  apply lookup_replicate in E as [-> _]. by rewrite Z.land_0_l.
Qed.

Lemma mask_testbit idx n : 0 <= idx -> 0 <= n ->
  Z.testbit (u64 (Z.shiftl 1 (idx mod 64))) n = (n =? idx mod 64).
Proof.
  intros Hi Hn. pose proof (Z.mod_pos_bound idx 64 ltac:(lia)).
  rewrite u64_id.
  - rewrite Z.shiftl_1_l, Z.pow2_bits_eqb by lia. apply Z.eqb_sym.
  - rewrite Z.shiftl_1_l. unfold isU64. split; [lia|].
    apply Z.pow_lt_mono_r; lia.
Qed.

Lemma land_mask_nonzero w idx : 0 <= idx ->
  negb (Z.land w (u64 (Z.shiftl 1 (idx mod 64))) =? 0) = Z.testbit w (idx mod 64).
Proof.
  intros Hi. pose proof (Z.mod_pos_bound idx 64 ltac:(lia)).
  destruct (Z.eqb_spec (Z.land w (u64 (Z.shiftl 1 (idx mod 64)))) 0) as [E|E].
  - apply (f_equal (fun z => Z.testbit z (idx mod 64))) in E.
    rewrite Z.land_spec, mask_testbit, Z.eqb_refl, andb_true_r, Z.bits_0 in E by lia. done.
  - simpl. destruct (Z.testbit w (idx mod 64)) eqn:T; [done|]. destruct E.
    apply Z.bits_inj'. intros n Hn. rewrite Z.land_spec, mask_testbit, Z.bits_0 by lia.
    destruct (Z.eqb_spec n (idx mod 64)) as [->|]; [by rewrite T|]. apply andb_false_r.
Qed.

Lemma markJumpDest_wf a idx : jm_wf a -> jm_wf (markJumpDest a idx).
Proof.
  intros [H1 H2]. unfold markJumpDest. case_if; [done|]. simpl. case_if; [done|].
  split; [done|]. unfold zlen in *. simpl. by rewrite length_alter.
Qed.

Lemma markJumpDest_codeSize a idx : jm_codeSize (markJumpDest a idx) = jm_codeSize a.
Proof. unfold markJumpDest. case_if; [done|]. simpl. by case_if. Qed.

(** A bit of the map, in terms of the word that holds it. *)
Lemma isJumpDest_bit a j : 0 <= j -> isJumpDest (Some a) j =
  match jm_bitmap a !! Z.to_nat (j / 64) with
  | Some w => Z.testbit w (j mod 64) | None => false end.
Proof.
  intros Hj. unfold isJumpDest. simpl. case_if.
  - rewrite lookup_ge_None_2 by divlia. done.
  - destruct (jm_bitmap a !! _) as [w|]; [|done]. by apply land_mask_nonzero.
Qed.

Lemma markJumpDest_spec a idx j : jm_wf a -> 0 <= idx < jm_codeSize a -> 0 <= j ->
  isJumpDest (Some (markJumpDest a idx)) j = (j =? idx) || isJumpDest (Some a) j.
Proof.
  intros [H1 H2] Hi Hj. rewrite !isJumpDest_bit by done. unfold markJumpDest.
  rewrite Z.geb_leb, (proj2 (Z.leb_gt _ _)) by lia. simpl.
  rewrite Z.geb_leb, (proj2 (Z.leb_gt _ _)) by divlia. simpl.
  destruct (decide (idx / 64 = j / 64)) as [E|E].
  - rewrite E, list_lookup_alter_eq.
    destruct (lookup_lt_is_Some_2 (jm_bitmap a) (Z.to_nat (j / 64))) as [w ->]; [divlia|].
    simpl. rewrite Z.lor_spec, mask_testbit by (pose proof (Z.mod_pos_bound j 64); lia).
    rewrite orb_comm. f_equal. apply eq_bool_prop_intro. rewrite !Is_true_true, !Z.eqb_eq. divlia.
  - rewrite list_lookup_alter_ne by divlia. rewrite (proj2 (Z.eqb_neq j idx)); [done|]. by intros ->.
Qed.

Lemma Width_push op : op_in PUSH1 PUSH32 op = true ->
  Width op = byte_val op - byte_val PUSH1 + 1 + 1 /\ op <> JUMPDEST.
Proof.
  intros H. unfold Width. rewrite H. split; [lia|]. by intros ->.
Qed.

Lemma steps_to_unfold code i op j : code !! Z.to_nat i = Some op ->
  steps_to code i j /\ code !! Z.to_nat j = Some JUMPDEST <->
  (j = i /\ op = JUMPDEST)
  \/ (steps_to code (i + Width op) j /\ code !! Z.to_nat j = Some JUMPDEST).
Proof.
  intros Ho. split.
  - intros [Hst Hd]. destruct Hst as [|i op' j Ho' Hst]; [left; split; congruence|].
    right. rewrite Ho in Ho'. injection Ho' as <-. done.
  - intros [[-> ->]|[Hst Hd]]; [split; [constructor|done]|].
    split; [by apply steps_next with op|done].
Qed.

Lemma findJumpDestinations_loop_spec fuel code idx a j :
  jm_wf a -> jm_codeSize a = zlen code -> 0 <= idx -> 0 <= j ->
  zlen code <= idx + Z.of_nat fuel ->
  isJumpDest (Some (findJumpDestinations_loop fuel code idx a)) j = true <->
  isJumpDest (Some a) j = true \/ (steps_to code idx j /\ code !! Z.to_nat j = Some JUMPDEST).
Proof.
  revert idx a. induction fuel as [|fuel IH]; intros idx a Hw Hs Hi Hj Hf; cbn [findJumpDestinations_loop].
  { split; [by left|]. intros [?|[Hst Hd]]; [done|]. apply lookup_lt_Some in Hd.
    destruct Hst as [|idx op j Ho Hst]; [zblia|]. apply lookup_lt_Some in Ho. zblia. }
  destruct (code !! Z.to_nat idx) as [op|] eqn:Ho.
  2: { split; [by left|]. intros [?|[Hst Hd]]; [done|].
       destruct Hst as [|idx op j Ho' Hst]; congruence. }
  rewrite (steps_to_unfold code idx op j) by done. pose proof (lookup_lt_Some _ _ _ Ho) as Hlt. unfold zlen in *.
  destruct (op_in PUSH1 PUSH32 op) eqn:Hp.
  - apply Width_push in Hp as [Hwd Hne].
    replace (idx + (byte_val op - byte_val PUSH1 + 1) + 1) with (idx + Width op) by lia.
    pose proof (Width_range op). rewrite IH by (unfold zlen; done || lia). clear IH. tauto.
  - assert (Width op = 1) as Hwd by (unfold Width; by rewrite Hp). rewrite Hwd in *.
    rewrite u64_id by (destruct Hw; unfold isU64 in *; lia).
    destruct (Byte.eqb op JUMPDEST) eqn:Hjd.
    + apply Byte.byte_dec_bl in Hjd as ->.
      rewrite IH; [|by apply markJumpDest_wf|by rewrite markJumpDest_codeSize|lia..].
      rewrite markJumpDest_spec by (done || lia).
      clear IH. destruct (Z.eqb_spec j idx); cbn [orb]; intuition congruence.
    + assert (op <> JUMPDEST) by (intros ->; by rewrite Byte.byte_dec_lb in Hjd).
      rewrite IH by (unfold zlen; done || lia). clear IH. tauto.
Qed.

Lemma findJumpDestinations_iff code j : zlen code < 2 ^ 64 -> 0 <= j ->
  isJumpDest (Some (findJumpDestinations code)) j = true <-> jump_dest code j.
Proof.
  intros Hl Hj. unfold findJumpDestinations.
  rewrite findJumpDestinations_loop_spec; [|apply newJumpDestMap_wf; zblia|done|done|done|zblia].
  rewrite newJumpDestMap_empty. unfold jump_dest, instr_start. intuition discriminate.
Qed.

(** ** The cache returns the analysis of the code it is asked for *)

Section Cache.
Context {C : Type} {L : LRU jumpDestMap C} {LL : LRULaws L}.
(** The code hash, and a set of codes on which it has no collisions. *)
Context (codeHash : Code -> Hash) (deployed : Code -> Prop).
Context (codeHash_inj : forall c1 c2, deployed c1 -> deployed c2 ->
  codeHash c1 = codeHash c2 -> c1 = c2).

(** Every cached bitmap is the analysis of the deployed code with that hash. *)
Definition cache_coherent (a : analysis C) : Prop :=
  forall cache h m, an_cache a = Some cache -> lru_holds cache h m ->
  forall code, deployed code -> codeHash code = h -> m = findJumpDestinations code.

Lemma newAnalysis_ok size maxSize : 0 < size ->
  exists a, newAnalysis (C := C) size maxSize = Some a /\ cache_coherent a.
Proof.
  intros Hs. unfold newAnalysis. set (m := Z.max 1 (Z.min maxSize size)).
  destruct (lru_New_some (Z.quot size m * 8)) as [c Hc].
  { enough (1 <= Z.quot size m) by lia. apply Z.quot_le_lower_bound; lia. }
  rewrite Hc. eexists. split; [done|]. intros cache h v [= <-] Hh.
  by apply (lru_New_empty _ _ h v Hc) in Hh.
Qed.

Lemma analyzeJumpDest_coherent a code h : cache_coherent a -> deployed code ->
  (h = None \/ h = Some (codeHash code)) ->
  snd (analyzeJumpDest a code h) = findJumpDestinations code
  /\ cache_coherent (fst (analyzeJumpDest a code h)).
Proof.
  intros Hc Hd Hh. unfold analyzeJumpDest.
  destruct (an_cache a) as [cache|] eqn:Ea; [|done].
  destruct Hh as [->| ->]; [done|].
  destruct (lru_Get cache (codeHash code)) as [cache' found] eqn:Eg.
  assert (cache_coherent (mkAnalysis (Some cache') (an_maxCachedCodeSize a))) as Hc'.
  { intros c h m [= <-] Hm. apply (Hc _ h m Ea). apply (lru_Get_frame _ (codeHash code)).
    by rewrite Eg. }
  destruct found as [m|]; simpl.
  - split; [|done]. apply (Hc _ _ _ Ea (lru_Get_holds _ _ _ _ Eg)); done.
  - case_if; [done|]. simpl. split; [done|].
    intros c h m [= <-] Hm code' Hd' Hh'. apply lru_Add_holds in Hm as [[-> ->]|Hm].
    + by rewrite (codeHash_inj code' code) by done.
    + by apply (Hc' _ _ _ eq_refl Hm).
Qed.

End Cache.
