(* ===== verification/SfvmHashCache.v ===== *)
(** * The cache of Keccak hashes

    [go/interpreter/sfvm/hash_cache.go]: a bounded map from 32- and 64-byte
    inputs to their hashes, with least-recently-used replacement. The LRU
    order is a doubly linked list through a fixed array of entries; a pointer
    to an entry is its index in that array. [None] is the panic of following
    a [nil] pointer. The hash function itself (C code behind [Keccak256]) is
    a parameter. *)
From Stdlib Require Import ZArith Lia Strings.Byte.
From stdpp Require Import base list numbers gmap option.
From S2P Require Import Prelude Uint256 Types.
From stdpp Require Import list.
Set Default Goal Selector "!".
Local Open Scope Z_scope.

(** ** The generic cache *)

Section Cache.
Context {K : Type} `{Countable K}.
(** Go's zero value of the key type, and the hash function for keys. *)
Context (zeroKey : K) (hash : K -> Hash).

Record hashCacheEntry := mkEntry {
  e_key : K;
  e_hash : Hash;
  e_pred : option nat;
  e_succ : option nat
}.

Record hashCache := mkHashCache {
  hc_entries : list hashCacheEntry;
  hc_index : gmap K nat;
  hc_head : option nat;
  hc_tail : option nat;
  hc_nextFree : nat
}.

Definition set_pred (p : option nat) (e : hashCacheEntry) : hashCacheEntry :=
  mkEntry (e_key e) (e_hash e) p (e_succ e).

Definition set_succ (s : option nat) (e : hashCacheEntry) : hashCacheEntry :=
  mkEntry (e_key e) (e_hash e) (e_pred e) s.

(** An assignment to a field of the entry [ptr] points to. *)
Definition update (ptr : option nat) (f : hashCacheEntry -> hashCacheEntry)
    (es : list hashCacheEntry) : option (list hashCacheEntry) :=
  i ← ptr; _ ← es !! i; Some (alter f i es).

Definition getFree (h : hashCache) : option (hashCache * nat) :=
  if (hc_nextFree h <? length (hc_entries h))%nat then
    Some (mkHashCache (hc_entries h) (hc_index h) (hc_head h) (hc_tail h) (S (hc_nextFree h)),
          hc_nextFree h)
  else
    res ← hc_tail h;
    e ← hc_entries h !! res;
    let tail := e_pred e in
    es ← update tail (set_succ None) (hc_entries h);
    Some (mkHashCache es (delete (e_key e) (hc_index h)) (hc_head h) tail (hc_nextFree h), res).

(** The entries of a new array are zero values. *)
Definition zeroEntry : hashCacheEntry := mkEntry zeroKey zeroWord None None.

Definition newHashCache (capacity : Z) : option hashCache :=
  let capacity := if capacity <? 2 then 2 else capacity in
  let res := mkHashCache (replicate (Z.to_nat capacity) zeroEntry) ∅ None None 0 in
  '(res, head) ← getFree res;
  let key := zeroKey in
  es ← update (Some head) (fun e => mkEntry (e_key e) (hash key) (e_pred e) (e_succ e))
         (hc_entries res);
  Some (mkHashCache es (<[key := head]> (hc_index res)) (Some head) (Some head) (hc_nextFree res)).

(** The first critical section of [getHash]: look the key up and, when it is
    present, move its entry to the front of the LRU order. *)
Definition getHash_lookup (h : hashCache) (key : K) : option (hashCache * option nat) :=
  match hc_index h !! key with
  | None => Some (h, None)
  | Some entry =>
      if decide (hc_head h = Some entry) then Some (h, Some entry)
      else
        e ← hc_entries h !! entry;
        es ← update (e_pred e) (set_succ (e_succ e)) (hc_entries h);
        '(es, tail) ←
          (match e_succ e with
           | Some _ => es ← update (e_succ e) (set_pred (e_pred e)) es; Some (es, hc_tail h)
           | None => Some (es, e_pred e)
           end);
        es ← update (Some entry) (fun e => set_succ (hc_head h) (set_pred None e)) es;
        es ← update (hc_head h) (set_pred (Some entry)) es;
        Some (mkHashCache es (hc_index h) (Some entry) tail (hc_nextFree h), Some entry)
  end.

(** [return entry.hash], after the lock has been released. *)
Definition getHash_read (h : hashCache) (entry : nat) : option Hash :=
  e ← hc_entries h !! entry; Some (e_hash e).

(** The second critical section: add the key with its hash, unless another
    thread has added it in the meantime. *)
Definition getHash_insert (h : hashCache) (key : K) (hsh : Hash) : option hashCache :=
  match hc_index h !! key with
  | Some _ => Some h
  | None =>
      '(h, entry) ← getFree h;
      es ← update (Some entry) (fun _ => mkEntry key hsh None (hc_head h)) (hc_entries h);
      es ← update (hc_head h) (set_pred (Some entry)) es;
      Some (mkHashCache es (<[key := entry]> (hc_index h)) (Some entry) (hc_tail h) (hc_nextFree h))
  end.

(** [getHash] run without interference. *)
Definition getHash (h : hashCache) (key : K) : option (hashCache * Hash) :=
  '(h, found) ← getHash_lookup h key;
  match found with
  | Some entry => r ← getHash_read h entry; Some (h, r)
  | None =>
      let r := hash key in
      h ← getHash_insert h key r;
      Some (h, r)
  end.

End Cache.
Arguments hashCacheEntry : clear implicits.
Arguments hashCache K {_ _}.
Arguments update : simpl never.

(** ** The cache of the interpreter *)

Record sha3HashCache := mkSha3HashCache {
  cache32 : hashCache (array 32);
  cache64 : hashCache (array 64)
}.

Section Sha3.
(** [Keccak256] and [Keccak256For32byte]. *)
Context (Keccak256 : list byte -> Hash) (Keccak256For32byte : array 32 -> Hash).

Definition hash64 (key : array 64) : Hash := Keccak256 (arr_bytes key).

Definition newSha3HashCache (capacity32 capacity64 : Z) : option sha3HashCache :=
  c32 ← newHashCache (zero_array 32) Keccak256For32byte capacity32;
  c64 ← newHashCache (zero_array 64) hash64 capacity64;
  Some (mkSha3HashCache c32 c64).

Definition sha3_hash (h : sha3HashCache) (data : list byte) : option (sha3HashCache * Hash) :=
  if (length data =? 32)%nat then
    let key := to_array 32 data in
    '(c, r) ← getHash Keccak256For32byte (cache32 h) key;
    Some (mkSha3HashCache c (cache64 h), r)
  else if (length data =? 64)%nat then
    let key := to_array 64 data in
    '(c, r) ← getHash hash64 (cache64 h) key;
    Some (mkSha3HashCache (cache32 h) c, r)
  else Some (h, Keccak256 data).

End Sha3.

(** ** The LRU list *)

(** Membership in concrete concatenations. *)
Ltac in_list :=
  repeat match goal with Hi : _ ∈ _ |- _ => revert Hi | Hi : _ ∉ _ |- _ => revert Hi end;
  repeat (rewrite elem_of_app || rewrite elem_of_cons); tauto.

Section Chain.
Context {K : Type}.
Implicit Types (es : list (hashCacheEntry K)) (l : list nat).

(** [dseg es p l n]: the entries [l] form a doubly linked segment whose first
    element has the predecessor [p] and whose last the successor [n]. *)
Fixpoint dseg es (p : option nat) l (n : option nat) : Prop :=
  match l with
  | [] => True
  | i :: l' => (exists e, es !! i = Some e /\ e_pred e = p
                 /\ e_succ e = match head l' with Some j => Some j | None => n end)
               /\ dseg es (Some i) l' n
  end.

Lemma dseg_app es l1 l2 : forall p n,
  dseg es p (l1 ++ l2) n <->
  dseg es p l1 (match head l2 with Some j => Some j | None => n end) /\
  dseg es (match last l1 with Some j => Some j | None => p end) l2 n.
Proof.
  induction l1 as [|i l1 IH]; intros p n; [cbn; tauto|].
  cbn [dseg app]. rewrite IH.
  assert (head (l1 ++ l2) = match head l1 with Some j => Some j | None => head l2 end) as ->
    by (destruct l1; done).
  assert (match last (i :: l1) with Some j => Some j | None => p end =
          match last l1 with Some j => Some j | None => Some i end) as ->.
  { rewrite last_cons. by destruct (last l1). }
  destruct (head l1); [tauto|]. destruct (head l2); tauto.
Qed.

(** Entries outside a segment do not matter. *)
Lemma dseg_frame es f i l : i ∉ l -> forall p n, dseg es p l n -> dseg (alter f i es) p l n.
Proof.
  induction l as [|j l IH]; intros Hi p n; [done|].
  apply not_elem_of_cons in Hi as [Hj Hi]. intros [(e & He & Hp & Hs) Hd].
  split; [|by apply IH]. exists e. by rewrite list_lookup_alter_ne by done.
Qed.

Lemma dseg_set_succ es p l i n n' : i ∉ l ->
  dseg es p (l ++ [i]) n -> dseg (alter (set_succ n') i es) p (l ++ [i]) n'.
Proof.
  intros Hi. rewrite !dseg_app. cbn. intros [Hl [(e & He & Hp & _) _]].
  split; [by apply dseg_frame|]. split; [|done].
  exists (set_succ n' e). by rewrite list_lookup_alter_eq, He.
Qed.

Lemma dseg_set_pred es p p' l i n : i ∉ l ->
  dseg es p (i :: l) n -> dseg (alter (set_pred p') i es) p' (i :: l) n.
Proof.
  intros Hi [(e & He & _ & Hs) Hl]. split; [|by apply dseg_frame].
  exists (set_pred p' e). by rewrite list_lookup_alter_eq, He.
Qed.

Lemma dseg_lookup es p l n i : dseg es p l n -> i ∈ l -> is_Some (es !! i).
Proof.
  revert p. induction l as [|j l IH]; intros p Hd Hi; [by apply elem_of_nil in Hi|].
  destruct Hd as [(e & He & _) Hd]. apply elem_of_cons in Hi as [->|Hi]; [by eexists|eauto].
Qed.

(** Taking the entry [e] out of the list. *)
Lemma dseg_unlink es l1 a e l2 : NoDup (l1 ++ a :: e :: l2) ->
  dseg es None (l1 ++ a :: e :: l2) None ->
  (exists e0, es !! e = Some e0 /\ e_pred e0 = Some a /\ e_succ e0 = head l2) /\
  dseg (match head l2 with
        | Some b => alter (set_pred (Some a)) b (alter (set_succ (head l2)) a es)
        | None => alter (set_succ (head l2)) a es
        end) None (l1 ++ a :: l2) None.
Proof.
  intros Hnd. change (l1 ++ a :: e :: l2) with (l1 ++ [a] ++ [e] ++ l2).
  rewrite (assoc_L app l1), (assoc_L app (l1 ++ [a])), dseg_app, dseg_app.
  intros [[H1 [(e0 & He & Hp & Hs) _]] H2].
  rewrite !last_app in *. cbn in *. split; [exists e0; by destruct (head l2)|].
  apply NoDup_app in Hnd as (_ & Ha & Hnd). apply NoDup_cons in Hnd as [Ha' Hnd].
  apply NoDup_cons in Hnd as [He' Hnd2].
  apply (dseg_set_succ _ _ l1 a _ (head l2)) in H1; [|intros Hx; destruct (Ha a Hx); constructor].
  change (l1 ++ a :: l2) with (l1 ++ [a] ++ l2). rewrite (assoc_L app l1), dseg_app, last_app. cbn.
  destruct l2 as [|b l2]; cbn [head]; [done|]. apply NoDup_cons in Hnd2 as [Hb Hnd2].
  cbn [head] in *. split.
  - apply dseg_frame; [|done]. intros Hx. apply elem_of_app in Hx as [Hx|Hx]; [|set_solver].
    destruct (Ha b Hx). set_solver.
  - apply (dseg_set_pred _ (Some e)); [done|]. apply dseg_frame; [set_solver|done].
Qed.

(** Adding the entry [e] in front of the list. *)
Lemma dseg_link es f e b l : e ∉ b :: l -> NoDup (b :: l) -> is_Some (es !! e) ->
  (forall x, e_pred (f x) = None /\ e_succ (f x) = Some b) ->
  dseg es None (b :: l) None ->
  dseg (alter (set_pred (Some e)) b (alter f e es)) None (e :: b :: l) None.
Proof.
  intros He Hnd [e0 He0] Hf Hd. apply NoDup_cons in Hnd as [Hb Hnd].
  destruct (Hf e0) as [Hp Hs]. split.
  - exists (f e0). rewrite list_lookup_alter_ne by set_solver.
    by rewrite list_lookup_alter_eq, He0.
  - apply (dseg_set_pred _ None); [done|]. by apply dseg_frame.
Qed.

(** Key and hash of the entries. *)
Definition entry_data (e : hashCacheEntry K) : K * Hash := (e_key e, e_hash e).

Lemma data_alter es f i : (forall e, entry_data (f e) = entry_data e) ->
  entry_data <$> alter f i es = entry_data <$> es.
Proof.
  intros Hf. apply list_eq. intros k. rewrite !list_lookup_fmap.
  destruct (decide (i = k)) as [->|Hk].
  - rewrite list_lookup_alter_eq. destruct (es !! k); [|done]. cbn. by rewrite Hf.
  - by rewrite list_lookup_alter_ne by done.
Qed.

Lemma update_lt es i f : (i < length es)%nat -> update (Some i) f es = Some (alter f i es).
Proof. intros [e He]%lookup_lt_is_Some. unfold update. cbn. by rewrite He. Qed.

End Chain.


(** ** The invariant of the cache *)

Section Lru.
Context {K : Type} `{Countable K} (zeroKey : K) (hash : K -> Hash).
Implicit Types (h : hashCache K) (k : K) (l : list nat).

Abbreviation data h := (fmap (M := list) entry_data (hc_entries h)).

(** [cache_wf h x l]: the entries [l] are linked in LRU order and indexed by
    their keys, with the hashes of their keys; the entries [x] are in use but
    not linked yet. *)
Record cache_wf h (x : list nat) l : Prop := {
  cw_nodup : NoDup (x ++ l);
  cw_seg : dseg (hc_entries h) None l None;
  cw_head : hc_head h = head l;
  cw_tail : hc_tail h = last l;
  cw_nonempty : l <> [];
  cw_len : length (x ++ l) = hc_nextFree h;
  cw_cap : (hc_nextFree h <= length (hc_entries h))%nat;
  cw_two : (2 <= length (hc_entries h))%nat;
  cw_bound i : i ∈ x ++ l -> (i < hc_nextFree h)%nat;
  cw_index k i : hc_index h !! k = Some i <-> i ∈ l /\ exists r, data h !! i = Some (k, r);
  cw_hash i k r : i ∈ l -> data h !! i = Some (k, r) -> r = hash k
}.

Lemma data_lookup h i : data h !! i = entry_data <$> (hc_entries h !! i).
Proof. apply list_lookup_fmap. Qed.

(** A present key whose entry is moved to the front. *)
Lemma move_front h l1 a e l2 k : cache_wf h [] (l1 ++ a :: e :: l2) ->
  hc_index h !! k = Some e ->
  exists h', getHash_lookup h k = Some (h', Some e)
    /\ cache_wf h' [] (e :: l1 ++ a :: l2) /\ data h' = data h.
Proof.
  intros [Hnd Hseg Hhd Htl _ Hlen Hcap Htwo Hbd Hix Hha] Hk. cbn [app] in Hnd, Hlen, Hbd.
  destruct (dseg_unlink _ _ _ _ _ Hnd Hseg) as [(e0 & He0 & Hp & Hs) Hd].
  assert (e :: l1 ++ a :: l2 ≡ₚ l1 ++ a :: e :: l2) as Hperm by solve_Permutation.
  assert (NoDup (e :: l1 ++ a :: l2)) as Hnd' by by rewrite Hperm.
  apply NoDup_cons in Hnd' as [He Hnd'].
  assert (exists b l3, l1 ++ a :: l2 = b :: l3 /\ hc_head h = Some b) as (b & l3 & Hb & Hhb).
  { rewrite Hhd. destruct l1; eexists _, _; done. }
  assert (is_Some (hc_entries h !! a)) as Ha.
  { eapply dseg_lookup; [exact Hseg|in_list]. }
  unfold getHash_lookup. rewrite Hk, Hhb, decide_False
    by (intros [= ->]; apply He; rewrite Hb; constructor). cbn. rewrite He0. cbn.
  rewrite Hp, Hs, update_lt by (apply lookup_lt_is_Some; done). cbn.
  set (es1 := alter (set_succ (head l2)) a (hc_entries h)) in *.
  set (es2 := match head l2 with Some b => alter (set_pred (Some a)) b es1 | None => es1 end) in *.
  assert (entry_data <$> es2 = data h) as Hd2.
  { unfold es2, es1. by destruct (head l2); rewrite !data_alter. }
  assert (length es2 = length (hc_entries h)) as Hl2.
  { unfold es2, es1. by destruct (head l2); rewrite !length_alter. }
  rewrite Hb in Hd, He, Hnd'.
  pose proof (dseg_link es2 (fun e => set_succ (Some b) (set_pred None e)) e b l3 He Hnd') as Hlink.
  assert (is_Some (es2 !! e)) as He2.
  { apply lookup_lt_is_Some. rewrite Hl2. by eapply lookup_lt_Some. }
  specialize (Hlink He2 (fun _ => conj eq_refl eq_refl) Hd).
  exists (mkHashCache (alter (set_pred (Some e)) b
      (alter (fun e => set_succ (Some b) (set_pred None e)) e es2))
    (hc_index h) (Some e) (last (e :: l1 ++ a :: l2)) (hc_nextFree h)).
  assert (forall i, i ∈ e :: l1 ++ a :: l2 -> (i < length (hc_entries h))%nat) as Hlt.
  { intros i Hi. rewrite Hperm in Hi. apply Hbd in Hi. lia. }
  split; [|split; [constructor; cbn; try done|]].
  - assert (match head l2 with
            | Some _ => es ← update (head l2) (set_pred (Some a)) es1; Some (es, hc_tail h)
            | None => Some (es1, Some a)
            end = Some (es2, last (e :: l1 ++ a :: l2))) as ->.
    { rewrite Htl. unfold es2. rewrite last_cons. destruct l2 as [|b2 l2]; cbn [head].
      - by rewrite last_snoc.
      - rewrite update_lt by (unfold es1; rewrite length_alter; apply Hlt; in_list). cbn.
        by rewrite !last_app, !last_cons; destruct (last l2). }
    cbn. rewrite update_lt by (rewrite Hl2; apply Hlt; in_list). cbn.
    rewrite update_lt; [done|]. rewrite length_alter, Hl2. apply Hlt. rewrite Hb. in_list.
  - by rewrite Hperm.
  - by rewrite Hb.
  - by rewrite <-Hlen, <-Hperm.
  - by rewrite !length_alter, Hl2.
  - by rewrite !length_alter, Hl2.
  - intros i. rewrite Hperm. apply Hbd.
  - intros k' i. rewrite !data_alter, Hd2, Hperm by done. apply Hix.
  - intros i k' r. rewrite !data_alter, Hd2, Hperm by done. apply Hha.
  - cbn. by rewrite !data_alter by done.
Qed.

Lemma cw_key_fun h x l i j k r r' : cache_wf h x l -> i ∈ l -> j ∈ l ->
  data h !! i = Some (k, r) -> data h !! j = Some (k, r') -> i = j.
Proof.
  intros Hw Hi Hj Hdi Hdj.
  assert (hc_index h !! k = Some i) as Hk by (apply (cw_index _ _ _ Hw); eauto).
  assert (hc_index h !! k = Some j) as Hk' by (apply (cw_index _ _ _ Hw); eauto). congruence.
Qed.

(** An entry for a new key: a fresh one or the least recently used one. *)
Lemma getFree_ok h l : cache_wf h [] l ->
  exists h1 e, getFree h = Some (h1, e)
    /\ cache_wf h1 [e] (take (length (hc_entries h) - 1) l)
    /\ data h1 = data h /\ hc_index h1 ⊆ hc_index h /\ hc_head h1 = hc_head h.
Proof.
  intros Hw. pose proof Hw as [Hnd Hseg Hhd Htl Hne Hlen Hcap Htwo Hbd Hix Hha].
  cbn [app] in Hnd, Hlen, Hbd. unfold getFree.
  destruct (Nat.ltb_spec (hc_nextFree h) (length (hc_entries h))).
  - eexists _, _. split; [done|]. rewrite take_ge by lia. split; [|done]. constructor; cbn; try done.
    + apply NoDup_cons. split; [|done]. intros Hi. specialize (Hbd _ Hi). lia.
    + lia.
    + intros i. rewrite elem_of_cons. intros [->|Hi]; [lia|]. specialize (Hbd _ Hi). lia.
  - destruct l as [|r l0 _] using rev_ind; [done|].
    destruct l0 as [|a l0 _] using rev_ind; [cbn in *; lia|].
    rewrite <-(assoc_L app) in *. rewrite !length_app in Hlen. cbn in Hlen.
    destruct (dseg_unlink _ _ _ _ _ Hnd Hseg) as [(e0 & He0 & Hp & Hs) Hd]. cbn in Hd.
    assert (forall i, i ∈ l0 ++ [a; r] -> (i < length (hc_entries h))%nat) as Hlt.
    { intros i Hi. specialize (Hbd _ Hi). lia. }
    rewrite Htl, last_app. cbn. rewrite He0. cbn. rewrite Hp. cbn.
    rewrite update_lt by (apply Hlt; in_list). cbn.
    eexists _, _. split; [done|].
    assert (take (length (hc_entries h) - 1) (l0 ++ [a; r]) = l0 ++ [a]) as ->.
    { rewrite take_app, take_ge by lia.
      by replace (length (hc_entries h) - 1 - length l0)%nat with 1%nat by lia. }
    assert (r ∉ l0 ++ [a]) as Hr.
    { apply NoDup_app in Hnd as (_ & H1 & H2). apply NoDup_cons in H2 as [H2 _].
      intros Hr. apply elem_of_app in Hr as [Hr|Hr]; [destruct (H1 _ Hr); in_list|]. apply list_elem_of_singleton in Hr as ->. apply H2. in_list. }
    split; [|split; [by cbn; rewrite data_alter|split; [apply delete_subseteq|done]]].
    assert (data h !! r = Some (e_key e0, e_hash e0)) as Hdr by (by rewrite data_lookup, He0).
    constructor; cbn; rewrite ?length_alter, ?data_alter by done; try done.
    + apply NoDup_cons. split; [done|]. change [a; r] with ([a] ++ [r]) in Hnd.
      rewrite (assoc_L app) in Hnd. by apply NoDup_app in Hnd as (? & _).
    + rewrite Hhd. by destruct l0.
    + by rewrite last_snoc.
    + by destruct l0.
    + rewrite length_app. cbn. lia.
    + intros i Hi. apply Hbd. revert Hi. in_list.
    + intros k i. rewrite lookup_delete_Some, Hix. split.
      * intros [Hk [Hi [r' Hd']]]. split; [|eauto]. destruct (decide (i = r)) as [->|].
        { rewrite Hdr in Hd'. congruence. }
        revert Hi. in_list.
      * intros [Hi [r' Hd']]. split; [|split; [revert Hi; in_list|eauto]]. intros <-.
        assert (r = i) as ->; [|done].
        eapply (cw_key_fun h [] (l0 ++ [a; r])); [exact Hw| | |exact Hdr|exact Hd'];
          [in_list|revert Hi; in_list].
    + intros i k r' Hi. apply Hha. revert Hi. in_list.
Qed.

Lemma data_length h h' : data h' = data h -> length (hc_entries h') = length (hc_entries h).
Proof. intros Hd. apply (f_equal length) in Hd. by rewrite !length_fmap in Hd. Qed.

(** An absent key is added in front. *)
Lemma insert_ok h l k : cache_wf h [] l -> hc_index h !! k = None ->
  let l' := take (length (hc_entries h) - 1) l in
  exists h' e, getHash_insert h k (hash k) = Some h' /\ cache_wf h' [] (e :: l')
    /\ length (hc_entries h') = length (hc_entries h)
    /\ data h' !! e = Some (k, hash k) /\ (forall i, i ∈ l' -> data h' !! i = data h !! i).
Proof.
  intros Hw Hk l'. destruct (getFree_ok h l Hw) as (h1 & e & Hf & Hw1 & Hd1 & Hi1 & _).
  fold l' in Hw1. pose proof (data_length _ _ Hd1) as Hl1.
  pose proof Hw1 as [Hnd Hseg Hhd Htl Hne Hlen Hcap Htwo Hbd Hix Hha]. cbn [app] in Hnd, Hlen, Hbd.
  unfold getHash_insert. rewrite Hk, Hf. cbn. apply NoDup_cons in Hnd as [He Hnd].
  destruct l' as [|b l2] eqn:El; [done|]. cbn [head] in Hhd. rewrite Hhd.
  assert (forall i, i ∈ e :: b :: l2 -> (i < length (hc_entries h1))%nat) as Hlt.
  { intros i Hi. specialize (Hbd _ Hi). lia. }
  rewrite update_lt by (apply Hlt; in_list). cbn.
  rewrite update_lt by (rewrite length_alter; apply Hlt; in_list). cbn.
  set (f := fun _ : hashCacheEntry K => mkEntry k (hash k) None (Some b)).
  assert (is_Some (hc_entries h1 !! e)) as He1 by (apply lookup_lt_is_Some, Hlt; in_list).
  assert (forall i, (entry_data <$> alter (set_pred (Some e)) b (alter f e (hc_entries h1))) !! i
    = if decide (i = e) then Some (k, hash k) else data h1 !! i) as Hdata.
  { intros i. rewrite data_alter by done. case_decide as Hie.
    - subst i. destruct He1 as [e1 He1]. by rewrite list_lookup_fmap, list_lookup_alter_eq, He1.
    - by rewrite !list_lookup_fmap, list_lookup_alter_ne by done. }
  eexists _, e. split; [done|]. cbn. split; [constructor; cbn|].
  - by apply NoDup_cons.
  - by apply dseg_link.
  - done.
  - rewrite Htl. by destruct l2.
  - done.
  - done.
  - by rewrite !length_alter.
  - by rewrite !length_alter.
  - done.
  - intros k' i. rewrite Hdata, lookup_insert_Some, Hix. case_decide as Hie.
    + subst i. split; [|intros [_ [r ?]]; left; split; congruence].
      intros [[-> _]|[? [? ?]]]; [|done]. split; [in_list|eauto].
    + split; [intros [[??]|[? [? ?]]]; [done|]; split; [in_list|done]|].
      intros [Hi [r Hd]]. right. split; [|split; [in_list|eauto]]. intros <-.
      assert (hc_index h1 !! k = Some i) as Hx by (apply Hix; split; [in_list|eauto]).
      apply (lookup_weaken _ (hc_index h)) in Hx; [congruence|done].
  - intros i k' r Hi. rewrite Hdata. case_decide; [congruence|]. apply Hha. in_list.
  - rewrite !length_alter. split; [done|]. split; [by rewrite Hdata, decide_True|].
    intros i Hi. rewrite Hdata, decide_False by (intros ->; done). by rewrite Hd1.
Qed.

(** ** Refinement of an LRU list of keys *)

(** The abstract cache: the keys, most recently used first. *)
Definition lru_touch (capacity : nat) (k : K) (s : list K) : list K :=
  k :: take (capacity - 1) (filter (fun y => y <> k) s).

Definition capacity h : nat := length (hc_entries h).

Definition has_key h (i : nat) k : Prop := exists r, data h !! i = Some (k, r).

Definition repr h (s : list K) : Prop :=
  exists l, cache_wf h [] l /\ Forall2 (has_key h) l s.

Lemma repr_NoDup h s : repr h s -> NoDup s.
Proof.
  intros (l & Hw & Hf). apply NoDup_alt. intros i j k Hi Hj.
  destruct (Forall2_lookup_r _ _ _ _ _ Hf Hi) as (x & Hx & r & Hr).
  destruct (Forall2_lookup_r _ _ _ _ _ Hf Hj) as (y & Hy & r' & Hr').
  assert (x = y) as -> by (eapply cw_key_fun; eauto using list_elem_of_lookup_2).
  eapply NoDup_lookup; [apply (cw_nodup _ _ _ Hw)|cbn..]; eauto.
Qed.

Lemma repr_length h s : repr h s -> (length s <= capacity h)%nat.
Proof.
  intros (l & Hw & Hf). rewrite <-(Forall2_length _ _ _ Hf).
  pose proof (cw_len _ _ _ Hw). pose proof (cw_cap _ _ _ Hw). cbn in *. unfold capacity. lia.
Qed.

Lemma repr_index h s k : repr h s -> is_Some (hc_index h !! k) <-> k ∈ s.
Proof.
  intros (l & Hw & Hf). split.
  - intros [i Hi]. apply (cw_index _ _ _ Hw) in Hi as [Hi [r Hr]].
    apply list_elem_of_lookup in Hi as [n Hn].
    destruct (Forall2_lookup_l _ _ _ _ _ Hf Hn) as (k' & Hk' & r' & Hr').
    rewrite Hr in Hr'. simplify_eq. by eapply list_elem_of_lookup_2.
  - intros Hk. apply list_elem_of_lookup in Hk as [n Hn].
    destruct (Forall2_lookup_r _ _ _ _ _ Hf Hn) as (i & Hi & r & Hr).
    exists i. apply (cw_index _ _ _ Hw). split; [by eapply list_elem_of_lookup_2|by eexists].
Qed.

Lemma filter_absent k (s : list K) : k ∉ s -> filter (fun y => y <> k) s = s.
Proof.
  induction s as [|y s IH]; intros Hk; [done|]. apply not_elem_of_cons in Hk as [Hy Hk].
  rewrite filter_cons_True by auto. by rewrite IH.
Qed.

Lemma lru_touch_present n k s1 s2 : NoDup (s1 ++ k :: s2) -> (length (s1 ++ k :: s2) <= n)%nat ->
  lru_touch n k (s1 ++ k :: s2) = k :: s1 ++ s2.
Proof.
  intros Hnd Hl. rewrite length_app in Hl. cbn in Hl.
  rewrite <-Permutation_middle in Hnd. apply NoDup_cons in Hnd as [Hk _].
  unfold lru_touch. rewrite filter_app, filter_cons_False by auto.
  rewrite !filter_absent by set_solver. rewrite take_ge by (rewrite length_app; lia). done.
Qed.

Lemma has_key_mono h h' l s : (forall i, i ∈ l -> data h' !! i = data h !! i) ->
  Forall2 (has_key h) l s -> Forall2 (has_key h') l s.
Proof.
  intros Hd Hf. induction Hf as [|i k l s [r Hr] Hf IH]; constructor.
  - exists r. rewrite Hd; [done|]. constructor.
  - apply IH. intros j Hj. apply Hd. by constructor.
Qed.

(** The first critical section, for a present and an absent key. *)
Lemma lookup_present h s k : repr h s -> k ∈ s ->
  exists h' e, getHash_lookup h k = Some (h', Some e) /\ repr h' (lru_touch (capacity h) k s)
    /\ capacity h' = capacity h /\ getHash_read h' e = Some (hash k)
    /\ (e < hc_nextFree h')%nat.
Proof.
  intros Hr Hk. pose proof (repr_NoDup _ _ Hr) as Hnd. pose proof (repr_length _ _ Hr) as Hlen.
  apply (repr_index _ _ _ Hr) in Hk as [e He]. destruct Hr as (l & Hw & Hf).
  pose proof He as [Hi [r Hr]]%(cw_index _ _ _ Hw).
  assert (r = hash k) as -> by by eapply (cw_hash _ _ _ Hw).
  apply list_elem_of_split in Hi as (l1 & l2 & ->).
  apply Forall2_app_inv_l in Hf as (s1 & s2 & Hf1 & Hf2 & ->).
  apply Forall2_cons_inv_l in Hf2 as (k' & s3 & [r' Hr'] & Hf2 & ->).
  rewrite Hr in Hr'. simplify_eq. rewrite lru_touch_present by done.
  destruct l1 as [|a l1 _] using rev_ind.
  - apply Forall2_nil_inv_l in Hf1 as ->. exists h, e. unfold getHash_lookup.
    rewrite He, (cw_head _ _ _ Hw). cbn [app head]. rewrite decide_True by done.
    split; [done|]. split; [|split; [done|split; [|apply (cw_bound _ _ _ Hw); in_list]]].
    + exists (e :: l2). split; [done|]. constructor; [by eexists|done].
    + unfold getHash_read. rewrite data_lookup in Hr. destruct (hc_entries h !! e); [|done].
      cbn in *. unfold entry_data in Hr. congruence.
  - rewrite <-(assoc_L app) in Hw. cbn [app] in Hw.
    destruct (move_front _ _ _ _ _ _ Hw He) as (h' & Hg & Hw' & Hd).
    exists h', e. split; [done|]. split; [|split; [by apply data_length|split; [|apply (cw_bound _ _ _ Hw'); in_list]]].
    + eexists. split; [exact Hw'|]. apply (has_key_mono h); [by rewrite Hd|].
      constructor; [by eexists|]. change (l1 ++ a :: l2) with (l1 ++ [a] ++ l2).
      rewrite (assoc_L app). by apply Forall2_app.
    + rewrite <-Hd in Hr. unfold getHash_read. rewrite data_lookup in Hr.
      destruct (hc_entries h' !! e); [|done]. cbn in *. unfold entry_data in Hr. congruence.
Qed.

Lemma lookup_absent h s k : repr h s -> k ∉ s -> getHash_lookup h k = Some (h, None).
Proof.
  intros Hr Hk. unfold getHash_lookup. destruct (hc_index h !! k) eqn:E; [|done].
  destruct Hk. apply (repr_index _ _ _ Hr). by eexists.
Qed.

(** The second critical section. *)
Lemma insert_refines h s k : repr h s ->
  exists h', getHash_insert h k (hash k) = Some h' /\ capacity h' = capacity h
    /\ repr h' (if decide (k ∈ s) then s else lru_touch (capacity h) k s).
Proof.
  intros Hr. pose proof (repr_index _ _ k Hr) as Hix. case_decide as Hk.
  - apply Hix in Hk as [e He]. exists h. unfold getHash_insert. by rewrite He.
  - assert (hc_index h !! k = None) as Hn.
    { apply eq_None_not_Some. by rewrite Hix. }
    destruct Hr as (l & Hw & Hf).
    destruct (insert_ok h l k Hw Hn) as (h' & e & Hg & Hw' & Hl & He & Hd).
    exists h'. split; [done|]. split; [done|]. unfold lru_touch.
    rewrite filter_absent by done. eexists. split; [exact Hw'|]. constructor; [by eexists|].
    apply (Forall2_take _ _ _ (capacity h - 1)) in Hf. by eapply has_key_mono.
Qed.

Lemma getHash_refines h s k : repr h s ->
  exists h', getHash hash h k = Some (h', hash k) /\ capacity h' = capacity h
    /\ repr h' (lru_touch (capacity h) k s).
Proof.
  intros Hr. unfold getHash. destruct (decide (k ∈ s)) as [Hk|Hk].
  - destruct (lookup_present _ _ _ Hr Hk) as (h' & e & -> & Hr' & Hc & Hrd & _). cbn.
    rewrite Hrd. cbn. eauto.
  - rewrite (lookup_absent _ _ _ Hr Hk). cbn.
    destruct (insert_refines _ _ k Hr) as (h' & -> & Hc & Hr'). cbn.
    rewrite decide_False in Hr' by done. eauto.
Qed.

(** A new cache holds the zero key. *)
Lemma newHashCache_ok n : exists h, newHashCache zeroKey hash n = Some h
  /\ capacity h = Z.to_nat (Z.max 2 n) /\ repr h [zeroKey].
Proof.
  unfold newHashCache, getFree, capacity. cbn [hc_nextFree hc_entries].
  set (m := Z.to_nat (if n <? 2 then 2 else n)).
  assert (Z.to_nat (Z.max 2 n) = m) as -> by (unfold m; case_if; lia).
  assert (2 <= m)%nat as Hm by (unfold m; case_if; lia).
  rewrite length_replicate. destruct m as [|[|m]]; [lia..|]. cbn.
  eexists. split; [done|]. cbn. rewrite length_replicate. split; [done|].
  exists [0%nat]. split.
  - constructor; cbn; rewrite ?length_replicate; try done; try lia.
    + apply NoDup_singleton.
    + split; [|done]. eexists. done.
    + intros i. rewrite list_elem_of_singleton. lia.
    + intros k i. rewrite list_elem_of_singleton, lookup_insert_Some. cbn. split.
      * intros [[<- <-]|[_ ?]]; [|by rewrite lookup_empty in *]. split; [done|]. by eexists.
      * intros [-> [r Hr]]. left. by injection Hr as ->.
    + intros i k r. rewrite list_elem_of_singleton. intros -> Hr. by injection Hr as -> <-.
  - constructor; [|done]. by eexists.
Qed.

(** ** Concurrent use *)

(** A thread in [getHash]: before the first critical section, after it with
    an entry or with the computed hash, and after its return. *)
Inductive thread :=
| TLookup (key : K)
| TRead (key : K) (entry : nat)
| TInsert (key : K) (r : Hash)
| TDone (key : K) (r : Hash).

(** The lock makes the critical sections atomic; what is done without the
    lock interleaves with the other threads. *)
Inductive cstep : hashCache K * list thread -> hashCache K * list thread -> Prop :=
| cs_found h h' ts i k e :
    ts !! i = Some (TLookup k) -> getHash_lookup h k = Some (h', Some e) ->
    cstep (h, ts) (h', <[i := TRead k e]> ts)
| cs_missing h h' ts i k :
    ts !! i = Some (TLookup k) -> getHash_lookup h k = Some (h', None) ->
    cstep (h, ts) (h', <[i := TInsert k (hash k)]> ts)
| cs_read h ts i k e r :
    ts !! i = Some (TRead k e) -> getHash_read h e = Some r ->
    cstep (h, ts) (h, <[i := TDone k r]> ts)
| cs_insert h h' ts i k r :
    ts !! i = Some (TInsert k r) -> getHash_insert h k r = Some h' ->
    cstep (h, ts) (h', <[i := TDone k r]> ts).

(** A thread computes its own hash; a thread that reads does so from an entry
    in use, which holds the hash of some key. *)
Definition thread_ok h (t : thread) : Prop :=
  match t with
  | TLookup _ => True
  | TRead _ e => (e < hc_nextFree h)%nat
  | TInsert k r => r = hash k
  | TDone _ r => exists k', r = hash k'
  end.

Definition config_ok (n : nat) (cfg : hashCache K * list thread) : Prop :=
  (exists s, repr (fst cfg) s) /\ capacity (fst cfg) = n /\ Forall (thread_ok (fst cfg)) (snd cfg).

Lemma repr_nextFree h s : repr h s -> hc_nextFree h = length s.
Proof. intros (l & Hw & Hf). rewrite <-(Forall2_length _ _ _ Hf). symmetry. apply (cw_len _ _ _ Hw). Qed.

Lemma lru_touch_length n k s : NoDup s -> (length s <= n)%nat -> (length s <= length (lru_touch n k s))%nat.
Proof.
  intros Hnd Hl. destruct (decide (k ∈ s)) as [Hk|Hk].
  - apply list_elem_of_split in Hk as (s1 & s2 & ->). rewrite lru_touch_present by done.
    cbn. rewrite !length_app. cbn. lia.
  - unfold lru_touch. rewrite filter_absent by done. cbn. rewrite length_take. lia.
Qed.

(** All entries below [nextFree] are linked. *)
Lemma cw_all h l i : cache_wf h [] l -> (i < hc_nextFree h)%nat -> i ∈ l.
Proof.
  intros Hw Hi. pose proof (cw_len _ _ _ Hw) as Hl. cbn in Hl.
  assert (l ≡ₚ seq 0 (hc_nextFree h)) as ->; [|by apply elem_of_seq; lia].
  apply submseteq_length_Permutation; [|rewrite length_seq; lia].
  apply NoDup_submseteq; [apply (cw_nodup _ _ _ Hw)|].
  intros j Hj. apply elem_of_seq. pose proof (cw_bound _ _ _ Hw j Hj). lia.
Qed.

Lemma read_some_hash h s e : repr h s -> (e < hc_nextFree h)%nat ->
  exists k, getHash_read h e = Some (hash k).
Proof.
  intros (l & Hw & Hf) He. pose proof (cw_all _ _ _ Hw He) as Hi.
  destruct (dseg_lookup _ _ _ _ _ (cw_seg _ _ _ Hw) Hi) as [en Hen].
  exists (e_key en). unfold getHash_read. rewrite Hen. cbn. f_equal.
  eapply (cw_hash _ _ _ Hw); [exact Hi|]. by rewrite data_lookup, Hen.
Qed.

Lemma thread_ok_mono h h' ts : (hc_nextFree h <= hc_nextFree h')%nat ->
  Forall (thread_ok h) ts -> Forall (thread_ok h') ts.
Proof.
  intros Hn Hf. eapply Forall_impl; [exact Hf|]. intros [k|k e|k r|k r]; cbn; (done || lia).
Qed.

(** The invariant of a configuration, by rule induction on the steps. *)
Lemma cstep_ok n cfg cfg' : cstep cfg cfg' -> config_ok n cfg -> config_ok n cfg'.
Proof.
  intros Hs [[s Hr] [Hc Ht]].
  pose proof (repr_NoDup _ _ Hr). pose proof (repr_length _ _ Hr).
  pose proof (repr_nextFree _ _ Hr) as Hn.
  destruct Hs as [h h' ts i k e Hi Hg|h h' ts i k Hi Hg|h ts i k e r Hi Hg|h h' ts i k r Hi Hg]; cbn in *.
  - destruct (decide (k ∈ s)) as [Hk|Hk]; [|by rewrite (lookup_absent _ _ _ Hr Hk) in Hg].
    destruct (lookup_present _ _ _ Hr Hk) as (h2 & e2 & Hg2 & Hr' & Hc' & _ & He).
    rewrite Hg in Hg2. simplify_eq. split; [by eexists|]. split; [cbn; lia|]. cbn.
    apply Forall_insert; [|done]. apply (thread_ok_mono h); [|done].
    rewrite Hn, (repr_nextFree _ _ Hr'). by apply lru_touch_length.
  - destruct (decide (k ∈ s)) as [Hk|Hk].
    { by destruct (lookup_present _ _ _ Hr Hk) as (h2 & e2 & Hg2 & _); simplify_eq. }
    rewrite (lookup_absent _ _ _ Hr Hk) in Hg. simplify_eq.
    split; [by eexists|]. split; [done|]. by apply Forall_insert.
  - split; [by eexists|]. split; [done|]. apply Forall_insert; [done|].
    pose proof (Forall_lookup_1 _ _ _ _ Ht Hi) as He.
    destruct (read_some_hash _ _ _ Hr He) as [k' Hk']. exists k'. cbn. congruence.
  - pose proof (Forall_lookup_1 _ _ _ _ Ht Hi) as ->.
    destruct (insert_refines _ _ k Hr) as (h2 & Hg2 & Hc' & Hr'). rewrite Hg in Hg2. simplify_eq.
    split; [by eexists|]. split; [cbn; lia|]. cbn. apply Forall_insert; [|by eexists].
    apply (thread_ok_mono h); [|done]. rewrite Hn, (repr_nextFree _ _ Hr').
    case_decide; [lia|]. by apply lru_touch_length.
Qed.

(** A thread that has not returned can go on. *)
Lemma cstep_progress n h ts i t : config_ok n (h, ts) -> ts !! i = Some t ->
  match t with TDone _ _ => True | _ => exists cfg', cstep (h, ts) cfg' end.
Proof.
  intros [[s Hr] [Hc Ht]] Hi. pose proof (Forall_lookup_1 _ _ _ _ Ht Hi) as Hok.
  cbn [fst snd] in *. destruct t as [k|k e|k r|k r]; [| | |done].
  - destruct (decide (k ∈ s)) as [Hk|Hk].
    + destruct (lookup_present _ _ _ Hr Hk) as (h2 & e2 & Hg & _). eexists. by eapply cs_found.
    + eexists. eapply cs_missing; [done|]. by eapply lookup_absent.
  - destruct (read_some_hash _ _ _ Hr Hok) as [k' Hk']. eexists. by eapply cs_read.
  - cbn in Hok. subst r. destruct (insert_refines _ _ k Hr) as (h2 & Hg & _).
    eexists. by eapply cs_insert.
Qed.

End Lru.

(** ** Calls from one thread *)

(** The calls [getHash(k)] for the keys [ks], one after the other. *)
Fixpoint getHashes {K} `{Countable K} (hash : K -> Hash) (h : hashCache K) (ks : list K)
    : option (hashCache K * list Hash) :=
  match ks with
  | [] => Some (h, [])
  | k :: ks =>
      '(h, r) ← getHash hash h k;
      '(h, rs) ← getHashes hash h ks;
      Some (h, r :: rs)
  end.

Lemma getHashes_refines {K} `{Countable K} (hash : K -> Hash) ks : forall h s, repr hash h s ->
  exists h', getHashes hash h ks = Some (h', hash <$> ks)
    /\ repr hash h' (foldl (fun s k => lru_touch (capacity h) k s) s ks).
Proof.
  induction ks as [|k ks IH]; intros h s Hr; [by exists h|].
  destruct (getHash_refines _ _ _ k Hr) as (h1 & Hg & Hc & Hr1).
  destruct (IH _ _ Hr1) as (h2 & Hg2 & Hr2). exists h2. cbn. rewrite Hg. cbn. rewrite Hg2.
  rewrite Hc in Hr2. done.
Qed.

(** ** The cache of the interpreter *)

Section Sha3Facts.
Context (Keccak256 : list byte -> Hash) (Keccak256For32byte : array 32 -> Hash).

Definition sha3_wf (h : sha3HashCache) : Prop :=
  (exists s, repr Keccak256For32byte (cache32 h) s) /\
  (exists s, repr (hash64 Keccak256) (cache64 h) s).

Lemma newSha3HashCache_ok n m : exists h,
  newSha3HashCache Keccak256 Keccak256For32byte n m = Some h /\ sha3_wf h.
Proof.
  unfold newSha3HashCache.
  destruct (newHashCache_ok (zero_array 32) Keccak256For32byte n) as (h1 & -> & _ & H1).
  cbn [mbind option_bind].
  destruct (newHashCache_ok (zero_array 64) (hash64 Keccak256) m) as (h2 & -> & _ & H2). cbn.
  eexists. split; [done|]. split; by eexists.
Qed.

(** The cached hash is that of [Keccak256], or of [Keccak256For32byte] for an
    input of 32 bytes. *)
Lemma sha3_hash_some h data : sha3_wf h -> exists h',
  sha3_hash Keccak256 Keccak256For32byte h data =
    Some (h', if (length data =? 32)%nat then Keccak256For32byte (to_array 32 data)
              else Keccak256 data)
  /\ sha3_wf h'.
Proof.
  intros [[s1 H1] [s2 H2]]. unfold sha3_hash.
  destruct (Nat.eqb_spec (length data) 32) as [E|E].
  - destruct (getHash_refines _ _ _ (to_array 32 data) H1) as (c & -> & _ & Hc). cbn.
    eexists. split; [done|]. split; by eexists.
  - destruct (Nat.eqb_spec (length data) 64) as [E2|E2].
    + destruct (getHash_refines _ _ _ (to_array 64 data) H2) as (c & -> & _ & Hc). cbn.
      eexists. unfold hash64. rewrite to_array_bytes by done. split; [done|]. split; by eexists.
    + exists h. split; [done|]. split; by eexists.
Qed.

End Sha3Facts.

(** ** Properties *)

(** C18. For any sequence of keys a new cache answers every call with the hash
    of its key, without a [nil] dereference, and its linked list holds the
    keys in the order of an LRU list of the given capacity (at least 2): the
    cache refines the list of keys [lru_touch]. *)
Theorem getHash_lru {K} `{Countable K} (zeroKey : K) (hash : K -> Hash) cap ks :
  exists h h', newHashCache zeroKey hash cap = Some h
    /\ getHashes hash h ks = Some (h', hash <$> ks)
    /\ repr hash h' (foldl (fun s k => lru_touch (Z.to_nat (Z.max 2 cap)) k s) [zeroKey] ks).
Proof.
  destruct (newHashCache_ok zeroKey hash cap) as (h & Hn & Hc & Hr).
  destruct (getHashes_refines hash ks h _ Hr) as (h' & Hg & Hr'). rewrite Hc in Hr'. eauto.
Qed.

(** C19. In every interleaving of concurrent calls of [getHash] the cache stays
    well formed with its capacity, a thread that computes a hash inserts that
    of its own key, a thread that reads an entry reads the hash of some key,
    and every thread that has not returned can take its next step. *)
Theorem getHash_interleaved {K} `{Countable K} (zeroKey : K) (hash : K -> Hash) cap ks h cfg :
  newHashCache zeroKey hash cap = Some h ->
  rtc (cstep hash) (h, TLookup <$> ks) cfg ->
  config_ok hash (Z.to_nat (Z.max 2 cap)) cfg /\
  forall i t, snd cfg !! i = Some t ->
    match t with TDone _ _ => True | _ => exists cfg', cstep hash cfg cfg' end.
Proof.
  intros Hn Hs. destruct (newHashCache_ok zeroKey hash cap) as (h' & Hn' & Hc & Hr).
  rewrite Hn in Hn'. injection Hn' as <-.
  assert (config_ok hash (Z.to_nat (Z.max 2 cap)) (h, TLookup <$> ks)) as Hok.
  { split; [by eexists|]. split; [done|]. apply Forall_fmap, Forall_true. done. }
  assert (config_ok hash (Z.to_nat (Z.max 2 cap)) cfg) as Hok'.
  { clear -Hs Hok. induction Hs as [|c1 c2 c3 Hs _ IH]; [done|]. by eapply IH, cstep_ok. }
  split; [done|]. intros i t Hi. destruct cfg as [h2 ts]. by eapply cstep_progress.
Qed.

(** Three threads on a cache of two entries, with an injective hash. *)
Definition raceHash (k : nat) : Hash := to_array 32 [byte_of (Z.of_nat k)].

Lemma getHash_interleaved_witness : exists h cfg,
  newHashCache 0%nat raceHash 2 = Some h /\ rtc (cstep raceHash) (h, TLookup <$> [0; 1]%nat) cfg
  /\ config_ok raceHash 2 cfg.
Proof.
  destruct (newHashCache 0%nat raceHash 2) as [h|] eqn:E; [|done].
  exists h, (h, TLookup <$> [0; 1]%nat). split; [done|]. split; [apply rtc_refl|].
  apply (getHash_interleaved 0%nat raceHash 2 [0; 1]%nat h _ E), rtc_refl.
Defined.

(** C35. [getHash] reads the hash of a found entry after it has released the
    lock. Another thread can evict and reuse the entry in between: there is an
    interleaving of three calls on a cache of two entries in which the call
    for one key returns the hash of another one. *)
Theorem getHash_race : exists h cfg r,
  newHashCache 0%nat raceHash 2 = Some h
  /\ rtc (cstep raceHash) (h, [TLookup 0; TLookup 1; TLookup 2])%nat cfg
  /\ snd cfg !! 0%nat = Some (TDone 0%nat r) /\ r <> raceHash 0.
Proof.
  eexists _, _, (raceHash 2). split; [vm_compute; reflexivity|]. split; [|split; [|done]].
  - eapply rtc_l; [eapply (cs_found _ _ _ _ 0); vm_compute; reflexivity|].
    eapply rtc_l; [eapply (cs_missing _ _ _ _ 1); vm_compute; reflexivity|].
    eapply rtc_l; [eapply (cs_insert _ _ _ _ 1); vm_compute; reflexivity|].
    eapply rtc_l; [eapply (cs_missing _ _ _ _ 2); vm_compute; reflexivity|].
    eapply rtc_l; [eapply (cs_insert _ _ _ _ 2); vm_compute; reflexivity|].
    eapply rtc_l; [eapply (cs_read _ _ _ 0); vm_compute; reflexivity|]. apply rtc_refl.
  - vm_compute. reflexivity.
Qed.

(** Hashing through a well-formed cache gives the Keccak hash of the data
    and keeps the cache well formed, provided the specialised hash function
    for 32 bytes agrees with the general one. *)
Theorem sha3_hash_cached Keccak256 Keccak256For32byte h data :
  (forall a : array 32, Keccak256For32byte a = Keccak256 (arr_bytes a)) ->
  sha3_wf Keccak256 Keccak256For32byte h ->
  exists h', sha3_hash Keccak256 Keccak256For32byte h data = Some (h', Keccak256 data)
    /\ sha3_wf Keccak256 Keccak256For32byte h'.
Proof.
  intros HK Hw. destruct (sha3_hash_some _ _ h data Hw) as (h' & Hs & Hw').
  exists h'. split; [|done]. rewrite Hs. destruct (Nat.eqb_spec (length data) 32) as [E|E]; [|done].
  by rewrite HK, to_array_bytes.
Qed.

Lemma sha3_hash_cached_witness : exists h h' data,
  newSha3HashCache (to_array 32) (fun a => to_array 32 (arr_bytes a)) 2 2 = Some h
  /\ length data = 64%nat
  /\ sha3_hash (to_array 32) (fun a => to_array 32 (arr_bytes a)) h data = Some (h', to_array 32 data).
Proof.
  destruct (newSha3HashCache_ok (to_array 32) (fun a => to_array 32 (arr_bytes a)) 2 2) as (h & Hn & Hw).
  destruct (sha3_hash_cached (to_array 32) (fun a => to_array 32 (arr_bytes a)) h (replicate 64 x07))
    as (h' & Hs & _); [done|done|].
  exists h, h', (replicate 64 x07). done.
Defined.
