(* ===== verification/SfvmContext.v ===== *)
(** * The execution context of the interpreter

    [context], [status], [useGas] and [isAtLeast] of
    [go/interpreter/sfvm/interpreter.go] and the errors of [errors.go].

    An instruction is a computation [M A]: it changes the context and ends
    with a value, an error, or a run-time panic. The context is kept when the
    computation fails, as in Go, where a failed instruction leaves what it
    has done so far. *)
From Stdlib Require Import ZArith Lia Strings.Byte.
From stdpp Require Import base list numbers gmap.
From S2P Require Import Prelude Uint256 Types OpCodes SfvmStack SfvmAnalysis SfvmHashCache.
Set Default Goal Selector "!".
Local Open Scope Z_scope.
Local Open Scope go_scope.

Inductive vmError :=
| errOverflow
| errInvalidOpCode
| errInvalidRevision
| errInvalidJump
| errOutOfGas
| errStaticContextViolation
| errStackLimitsViolation
| errInitCodeTooLarge
| errMaxMemoryExpansionSize
| errStackUnderflow
| errStackOverflow
| errCodeSizeExceeded.

Inductive status :=
| statusRunning
| statusStopped
| statusReverted
| statusReturned
| statusSelfDestructed
| statusFailed.

Record Memory := mkMemory { m_store : list byte; m_currentMemoryCost : Gas }.

Definition NewMemory : Memory := mkMemory [] 0.

Section Context.
Context {W : Type}.

(** [c_context] is the state behind the run context, which Go reaches
    through [c.context]. *)
Record context := mkContext {
  c_params : Parameters;
  c_context : W;
  c_code : Code;
  c_analysis : jumpDestMap;
  c_pc : Z;
  c_gas : Gas;
  c_refund : Gas;
  c_stack : stack;
  c_memory : Memory;
  c_returnData : Data;
  c_withShaCache : bool
}.

Definition set_context (w : W) (c : context) : context :=
  mkContext (c_params c) w (c_code c) (c_analysis c) (c_pc c) (c_gas c) (c_refund c)
    (c_stack c) (c_memory c) (c_returnData c) (c_withShaCache c).

Definition set_pc (pc : Z) (c : context) : context :=
  mkContext (c_params c) (c_context c) (c_code c) (c_analysis c) pc (c_gas c) (c_refund c)
    (c_stack c) (c_memory c) (c_returnData c) (c_withShaCache c).

Definition set_gas (g : Gas) (c : context) : context :=
  mkContext (c_params c) (c_context c) (c_code c) (c_analysis c) (c_pc c) g (c_refund c)
    (c_stack c) (c_memory c) (c_returnData c) (c_withShaCache c).

Definition set_refund (r : Gas) (c : context) : context :=
  mkContext (c_params c) (c_context c) (c_code c) (c_analysis c) (c_pc c) (c_gas c) r
    (c_stack c) (c_memory c) (c_returnData c) (c_withShaCache c).

Definition set_stack (s : stack) (c : context) : context :=
  mkContext (c_params c) (c_context c) (c_code c) (c_analysis c) (c_pc c) (c_gas c) (c_refund c)
    s (c_memory c) (c_returnData c) (c_withShaCache c).

Definition set_memory (m : Memory) (c : context) : context :=
  mkContext (c_params c) (c_context c) (c_code c) (c_analysis c) (c_pc c) (c_gas c) (c_refund c)
    (c_stack c) m (c_returnData c) (c_withShaCache c).

Definition set_returnData (d : Data) (c : context) : context :=
  mkContext (c_params c) (c_context c) (c_code c) (c_analysis c) (c_pc c) (c_gas c) (c_refund c)
    (c_stack c) (c_memory c) d (c_withShaCache c).

(** ** Computations *)

Inductive outcome (A : Type) :=
| Ok (a : A)
| Err (e : vmError)
| Panic.
Arguments Ok {A} _.
Arguments Err {A} _.
Arguments Panic {A}.

Definition M (A : Type) : Type := context -> outcome A * context.

#[global] Instance M_ret : MRet M := fun A a c => (Ok a, c).

#[global] Instance M_bind : MBind M := fun A B f m c =>
  match m c with
  | (Ok a, c) => f a c
  | (Err e, c) => (Err e, c)
  | (Panic, c) => (Panic, c)
  end.

Definition fail {A} (e : vmError) : M A := fun c => (Err e, c).

Definition panic {A} : M A := fun c => (Panic, c).

Definition gets {A} (f : context -> A) : M A := fun c => (Ok (f c), c).

Definition modify (f : context -> context) : M unit := fun c => (Ok tt, f c).

Definition lift_option {A} (o : option A) : M A :=
  match o with Some a => mret a | None => panic end.

(** [if b { return e }]. *)
Definition fail_if (b : bool) (e : vmError) : M unit := if b then fail e else mret tt.

Definition when (b : bool) (m : M unit) : M unit := if b then m else mret tt.

(** ** Gas and revisions *)

Definition useGas (amount : Gas) : M unit :=
  gas ← gets c_gas;
  if (gas <? 0) || (amount <? 0) || (gas <? amount) then fail errOutOfGas
  else modify (set_gas (gas -i64 amount)).

Definition revision (c : context) : Revision := bp_Revision (p_Block (c_params c)).

Definition isAtLeast (r : Revision) (c : context) : bool := revision c >=? r.

(** [c.gas += g] and [c.refund += g] on [int64]. *)
Definition addGas (g : Gas) : M unit :=
  gas ← gets c_gas; modify (set_gas (gas +i64 g)).

Definition addRefund (g : Gas) : M unit :=
  r ← gets c_refund; modify (set_refund (r +i64 g)).

(** ** The stack operations on the context *)

Definition pop : M u256 :=
  s ← gets c_stack;
  '(v, s) ← lift_option (st_pop s);
  modify (set_stack s);; mret v.

Definition peek : M u256 := s ← gets c_stack; lift_option (st_peek s).

Definition peekN (n : Z) : M u256 := s ← gets c_stack; lift_option (st_peekN s n).

Definition setTop (v : u256) : M unit :=
  s ← gets c_stack; s ← lift_option (st_setTop s v); modify (set_stack s).

Definition pushUndefined : M unit :=
  s ← gets c_stack; s ← lift_option (st_pushUndefined s); modify (set_stack s).

(** [c.stack.pushUndefined().Set...(v)]. *)
Definition pushValue (v : u256) : M unit := pushUndefined;; setTop v.

Definition push (v : u256) : M unit :=
  s ← gets c_stack; s ← lift_option (st_push s v); modify (set_stack s).

Definition dup (n : Z) : M unit :=
  s ← gets c_stack; s ← lift_option (st_dup s n); modify (set_stack s).

Definition swap (n : Z) : M unit :=
  s ← gets c_stack; s ← lift_option (st_swap s n); modify (set_stack s).

(** ** The run context *)

(** A method of the run context that returns the new state and a result. *)
Definition host {A} (f : W -> W * A) : M A :=
  w ← gets c_context; let '(w, a) := f w in modify (set_context w);; mret a.

Definition host_ (f : W -> W) : M unit :=
  w ← gets c_context; modify (set_context (f w)).

Definition host_read {A} (f : W -> A) : M A := gets (fun c => f (c_context c)).

End Context.
Arguments context : clear implicits.
Arguments outcome : clear implicits.
Arguments M : clear implicits.
Arguments Ok {A} _.
Arguments Err {A} _.
Arguments Panic {A}.

(** The process-wide variable [sha3Cache], part of the state outside the
    interpreter's context. *)
Class Globals (W : Type) := {
  g_sha3Cache : W -> sha3HashCache;
  g_setSha3Cache : W -> sha3HashCache -> W
}.
