(* ===== verification/SfvmMemory.v ===== *)
(** * The memory of the interpreter

    [go/interpreter/sfvm/memory.go]: a byte array that grows in words of 32
    bytes and charges gas for its growth.

    A slice [getSlice] returns is backed by the memory. It is a pair of
    bounds here; it is read and written at the time the source does so. The
    one slice the source keeps across an expansion (the arguments of a call,
    and the source of [MCOPY]) may then refer to the array before the
    expansion; expanding leaves the old bytes as they are, so that reading
    through the bounds gives the same bytes. *)
From Stdlib Require Import ZArith Lia Strings.Byte.
From stdpp Require Import base list numbers.
From S2P Require Import Prelude Uint256 Types SfvmStack SfvmAnalysis SfvmContext.
Set Default Goal Selector "!".
Local Open Scope Z_scope.
Local Open Scope go_scope.

Definition maxMemoryExpansionSize : Z := 0x1FFFFFFFE0.

Definition m_length (m : Memory) : Z := u64 (zlen (m_store m)).

(** The costs of a memory of [words] words, in [uint64] arithmetic. *)
Definition memoryCost (words : Z) : Z := (words *u64 words) / 512 +u64 (3 *u64 words).

Definition getExpansionCostsAndSize (m : Memory) (size : Z) : (Gas * Z) + vmError :=
  if m_length m >=? size then inl (0, m_length m)
  else
    let words := SizeInWords size in
    let validSize := words *u64 32 in
    if validSize <? size then inr errOverflow
    else if validSize >? maxMemoryExpansionSize then inr errMaxMemoryExpansionSize
    else
      let new_costs := i64 (memoryCost words) in
      let fee := new_costs -i64 m_currentMemoryCost m in
      inl (fee, validSize).

(** A slice of the memory; [nil] is the empty slice. *)
Record mslice := mkSlice { sl_lo : Z; sl_hi : Z }.

Definition nil_slice : mslice := mkSlice 0 0.

Section Memory.
Context {W : Type} {U : Uint256}.

Definition expandMemory (offset size : Z) : M W unit :=
  if size =? 0 then mret tt
  else
    let needed := offset +u64 size in
    if needed <? offset then fail errOverflow
    else
      m ← gets c_memory;
      if m_length m <? needed then
        match getExpansionCostsAndSize m needed with
        | inr e => fail e
        | inl (fee, expandedSize) =>
            useGas fee;;
            let currentSize := m_length m in
            modify (set_memory (mkMemory
              (m_store m ++ zeros (expandedSize -u64 currentSize))
              (m_currentMemoryCost m +i64 fee)))
        end
      else mret tt.

(** [m.store[lo:hi]] panics unless [lo <= hi] and [hi] is within the array. *)
Definition memory_slice (lo hi : Z) : M W mslice :=
  m ← gets c_memory;
  if (0 <=? lo) && (lo <=? hi) && (hi <=? zlen (m_store m)) then mret (mkSlice lo hi) else panic.

Definition getSlice (offset size : u256) : M W mslice :=
  if Int_IsZero size then mret nil_slice
  else if negb (Int_IsUint64 offset) || negb (Int_IsUint64 size) then fail errOverflow
  else
    let offset64 := Int_Uint64 offset in
    let size64 := Int_Uint64 size in
    expandMemory offset64 size64;;
    memory_slice offset64 (offset64 +u64 size64).

(** The bytes of a slice, and [copy(slice, data)]. *)
Definition slice_read (sl : mslice) : M W (list byte) :=
  gets (fun c => slice (m_store (c_memory c)) (sl_lo sl) (sl_hi sl)).

Definition slice_write (sl : mslice) (data : list byte) : M W unit :=
  modify (fun c => set_memory
    (mkMemory (copy_at (m_store (c_memory c)) (sl_lo sl) (sl_hi sl) data)
              (m_currentMemoryCost (c_memory c))) c).

(** [readWord] returns the word the source stores in its target. *)
Definition readWord (offset : u256) : M W u256 :=
  data ← getSlice offset (NewInt 32);
  bytes ← slice_read data;
  mret (Int_SetBytes32 bytes).

Definition mem_set (offset : u256) (value : list byte) : M W unit :=
  data ← getSlice offset (NewInt (u64 (zlen value)));
  slice_write data value.

End Memory.
