(* ===== verification/SfvmGas.v ===== *)
(** * Gas prices and stack limits of the instructions

    [go/interpreter/sfvm/gas.go], [stack_usage.go] and the stack limits of
    [interpreter.go]: the static prices by revision, the dynamic costs and
    refunds of [SSTORE], and the tables precomputed from them. *)
From Stdlib Require Import ZArith Lia Strings.Byte.
From stdpp Require Import base list numbers.
From S2P Require Import Prelude Uint256 Types OpCodes SfvmStack SfvmContext.
Set Default Goal Selector "!".
Local Open Scope Z_scope.

Definition CallNewAccountGas : Gas := 25000.
Definition CallValueTransferGas : Gas := 9000.
Definition CallStipend : Gas := 2300.
Definition UNKNOWN_GAS_PRICE : Gas := 999999.

(** ** Precomputed tables *)

Definition numOpCodes : nat := 256.

Definition opCodePropertyMap (T : Type) := list T.

Definition newOpCodePropertyMap {T} (property : OpCode -> T) : opCodePropertyMap T :=
  map (fun i => property (byte_of (Z.of_nat i))) (seq 0 numOpCodes).

(** The index of a lookup is checked; out of range is a panic. *)
Definition property_get {T} (p : opCodePropertyMap T) (op : OpCode) : option T :=
  p !! Z.to_nat (byte_val op).

(** ** Static gas prices *)

Definition getStaticGasPriceInternal (op : OpCode) : Gas :=
  if op_in PUSH1 PUSH32 op then 3
  else if op_in DUP1 DUP16 op then 3
  else if op_in SWAP1 SWAP16 op then 3
  else if op_in LT SAR op then 3
  else if op_in COINBASE CHAINID op then 2
  else
    match op with
    | CLZ => 5
    | POP => 2
    | PUSH0 => 2
    | ADD => 3
    | SUB => 3
    | MUL => 5
    | DIV => 5
    | SDIV => 5
    | MOD => 5
    | SMOD => 5
    | ADDMOD => 8
    | MULMOD => 8
    | EXP => 10
    | SIGNEXTEND => 5
    | SHA3 => 30
    | ADDRESS => 2
    | BALANCE => 700
    | ORIGIN => 2
    | CALLER => 2
    | CALLVALUE => 2
    | CALLDATALOAD => 3
    | CALLDATASIZE => 2
    | CALLDATACOPY => 3
    | CODESIZE => 2
    | CODECOPY => 3
    | GASPRICE => 2
    | EXTCODESIZE => 700
    | EXTCODECOPY => 700
    | RETURNDATASIZE => 2
    | RETURNDATACOPY => 3
    | EXTCODEHASH => 700
    | BLOCKHASH => 20
    | SELFBALANCE => 5
    | BASEFEE => 2
    | BLOBHASH => 3
    | BLOBBASEFEE => 2
    | MLOAD => 3
    | MSTORE => 3
    | MSTORE8 => 3
    | SLOAD => 800
    | SSTORE => 0
    | JUMP => 8
    | JUMPI => 10
    | JUMPDEST => 1
    | TLOAD => 100
    | TSTORE => 100
    | PC => 2
    | MSIZE => 2
    | MCOPY => 3
    | GAS => 2
    | LOG0 => 375
    | LOG1 => 750
    | LOG2 => 1125
    | LOG3 => 1500
    | LOG4 => 1875
    | CREATE => 32000
    | CREATE2 => 32000
    | CALL => 700
    | CALLCODE => 700
    | STATICCALL => 700
    | RETURN => 0
    | STOP => 0
    | REVERT => 0
    | INVALID => 0
    | DELEGATECALL => 700
    | SELFDESTRUCT => 5000
    | _ => UNKNOWN_GAS_PRICE
    end.

Definition getBerlinGasPriceInternal (op : OpCode) : Gas :=
  let gp := getStaticGasPriceInternal op in
  match op with
  | SLOAD | EXTCODECOPY | EXTCODESIZE | EXTCODEHASH | BALANCE
  | CALL | CALLCODE | STATICCALL | DELEGATECALL => 0
  | _ => gp
  end.

Definition static_gas_prices : opCodePropertyMap Gas :=
  newOpCodePropertyMap getStaticGasPriceInternal.

Definition static_gas_prices_berlin : opCodePropertyMap Gas :=
  newOpCodePropertyMap getBerlinGasPriceInternal.

Definition getStaticGasPrices (revision : Revision) : opCodePropertyMap Gas :=
  if revision >=? R09_Berlin then static_gas_prices_berlin else static_gas_prices.

(** ** Costs and refunds of [SSTORE] *)

Definition getDynamicCostsForSstore (revision : Revision) (storageStatus : StorageStatus) : Gas :=
  match storageStatus with
  | StorageAdded => 20000
  | StorageModified | StorageDeleted => if revision >=? R09_Berlin then 2900 else 5000
  | _ => if revision >=? R09_Berlin then 100 else 800
  end.

Definition getRefundForSstore (revision : Revision) (storageStatus : StorageStatus) : Gas :=
  match storageStatus with
  | StorageDeleted | StorageModifiedDeleted =>
      if revision >=? R10_London then 4800 else 15000
  | StorageDeletedAdded => if revision >=? R10_London then -4800 else -15000
  | StorageDeletedRestored =>
      if revision >=? R10_London then -4800 + 5000 - 2100 - 100
      else if revision >=? R09_Berlin then -15000 + 5000 - 2100 - 100
      else -15000 + 4200
  | StorageAddedDeleted => if revision >=? R09_Berlin then 19900 else 19200
  | StorageModifiedRestored =>
      if revision >=? R09_Berlin then 5000 - 2100 - 100 else 4200
  | _ => 0
  end.

(** ** Stack usage *)

Record stackUsage := mkStackUsage { su_from : Z; su_to : Z; su_delta : Z }.

Definition makeUsage (pops pushes : Z) : stackUsage :=
  let delta := pushes - pops in
  let to := Z.max delta 0 in
  mkStackUsage (- pops) to delta.

Definition computeStackUsage (op : OpCode) : stackUsage :=
  let v := byte_val op in
  if op_in PUSH1 PUSH32 op then makeUsage 0 1
  else if op_in DUP1 DUP16 op
  then makeUsage (v - byte_val DUP1 + 1) (v - byte_val DUP1 + 2)
  else if op_in SWAP1 SWAP16 op
  then makeUsage (v - byte_val SWAP1 + 2) (v - byte_val SWAP1 + 2)
  else if op_in LOG0 LOG4 op then makeUsage (v - byte_val LOG0 + 2) 0
  else
    match op with
    | JUMPDEST | STOP
        => makeUsage 0 0
    | PUSH0 | MSIZE | ADDRESS | ORIGIN | CALLER | CALLVALUE | CALLDATASIZE
    | CODESIZE | GASPRICE | COINBASE | TIMESTAMP | NUMBER | PREVRANDAO | GASLIMIT
    | PC | GAS | RETURNDATASIZE | SELFBALANCE | CHAINID | BASEFEE | BLOBBASEFEE
        => makeUsage 0 1
    | POP | JUMP | SELFDESTRUCT
        => makeUsage 1 0
    | ISZERO | NOT | BALANCE | CALLDATALOAD | EXTCODESIZE | BLOCKHASH | MLOAD
    | SLOAD | TLOAD | EXTCODEHASH | BLOBHASH | CLZ
        => makeUsage 1 1
    | MSTORE | MSTORE8 | SSTORE | TSTORE | JUMPI | RETURN | REVERT
        => makeUsage 2 0
    | ADD | SUB | MUL | DIV | SDIV | MOD | SMOD
    | EXP | SIGNEXTEND | SHA3 | LT | GT | SLT | SGT
    | EQ | AND | XOR | OR | BYTE | SHL | SHR
    | SAR
        => makeUsage 2 1
    | CALLDATACOPY | CODECOPY | RETURNDATACOPY | MCOPY
        => makeUsage 3 0
    | ADDMOD | MULMOD | CREATE
        => makeUsage 3 1
    | EXTCODECOPY
        => makeUsage 4 0
    | CREATE2
        => makeUsage 4 1
    | STATICCALL | DELEGATECALL
        => makeUsage 6 1
    | CALL | CALLCODE
        => makeUsage 7 1
    | _ => mkStackUsage 0 0 0
    end.

Record stackLimits := mkStackLimits { sl_min : Z; sl_max : Z }.

Definition opStackLimits (op : OpCode) : stackLimits :=
  let usage := computeStackUsage op in
  mkStackLimits (- su_from usage) (maxStackSize - su_to usage).

Definition _precomputedStackLimits : opCodePropertyMap stackLimits :=
  newOpCodePropertyMap opStackLimits.

Definition checkStackLimits {W} (stackLen : Z) (op : OpCode) : M W unit :=
  limits ← lift_option (property_get _precomputedStackLimits op);
  if stackLen <? sl_min limits then fail errStackUnderflow
  else if stackLen >? sl_max limits then fail errStackOverflow
  else mret tt.
