(* ===== verification/SfvmInstructions.v ===== *)
(** * The instructions of the interpreter

    [go/interpreter/sfvm/instructions.go], one definition per function, in
    the order of the source. A value the source reads through a stack
    pointer is read when the pointer is obtained; a method call through a
    pointer to the top of the stack is a [setTop]. *)
From Stdlib Require Import ZArith Lia Strings.Byte.
From stdpp Require Import base list numbers.
From S2P Require Import Prelude Uint256 Types OpCodes SfvmStack SfvmAnalysis SfvmHashCache.
From S2P Require Import SfvmContext SfvmMemory SfvmGas.
Set Default Goal Selector "!".
Local Open Scope Z_scope.
Local Open Scope go_scope.

(** ** Helpers on plain data *)

(** [None] is the panic of slicing [data[start:end]] with [end < start]. *)
Definition getData `{Uint256} (data : list byte) (offset : u256) (size : Z) : option (list byte) :=
  let dataSize := u64 (zlen data) in
  if size =? 0 then Some []
  else if negb (Int_IsUint64 offset) || (Int_Uint64 offset >=? dataSize) then Some (zeros size)
  else
    let start := Int_Uint64 offset in
    let end_ := start +u64 size in
    let res := zeros size in
    let end_ := if end_ >? dataSize then dataSize else end_ in
    if end_ <? start then None else Some (go_copy res (slice data start end_)).

Definition getAccessCost (accessStatus : AccessStatus) : Gas :=
  match accessStatus with ColdAccess => 2600 | WarmAccess => 100 end.

Definition selfDestructNewAccountCost (beneficiaryEmpty : bool) (balance : Value) : Gas :=
  if beneficiaryEmpty && negb (arr_eqb balance zeroWord) then 25000 else 0.

Definition selfDestructRefund (destructed : bool) (revision : Revision) : Gas :=
  if destructed && (revision <? R10_London) then 24000 else 0.

Definition maxInitCodeSize : Z := 2 * 24576.

Definition computeCodeSizeCost (size : Z) : Gas + vmError :=
  if size >? maxInitCodeSize then inr errInitCodeTooLarge
  else inl (i64 (2 *u64 SizeInWords size)).

Definition parseDelegationDesignation (code : Code) : Address * bool :=
  if (zlen code =? 23) && bool_decide (take 3 code = [xef; x01; x00])
  then (to_array 20 (slice code 3 23), true)
  else (zeroAddress, false).

(** [err != nil]. *)
Definition is_err (err : option error) : bool :=
  match err with Some _ => true | None => false end.

Section Instructions.
Context {W : Type} {U : Uint256} {RC : RunContext W} {G : Globals W}.
(** The hash functions of [keccak.go]. *)
Context (Keccak256 : list byte -> Hash) (Keccak256For32byte : array 32 -> Hash).

Definition isEmpty (w : W) (addr : Address) : bool :=
  (ws_GetNonce w addr =? 0) && arr_eqb (ws_GetBalance w addr) zeroWord
  && (ws_GetCodeSize w addr =? 0).

(** [m], with a change of the context when it fails. *)
Definition on_error {A} (m : M W A) (f : context W -> context W) : M W A :=
  fun c => match m c with (Err e, c) => (Err e, f c) | r => r end.

Definition opStop : M W status := mret statusStopped.

Definition opEndWithResult : M W unit :=
  offset ← pop;
  size ← pop;
  data ← on_error (getSlice offset size) (set_returnData []);
  bytes ← slice_read data;
  modify (set_returnData bytes).

Definition opPc : M W unit :=
  pc ← gets c_pc; pushValue (Int_SetUint64 (u64 pc)).

Definition checkJumpDest : M W unit :=
  c ← gets id;
  let next := c_pc c +i32 1 in
  fail_if ((next >=? zlen (c_code c)) || negb (isJumpDest (Some (c_analysis c)) (u64 next)))
    errInvalidJump.

Definition opJump : M W unit :=
  destination ← pop;
  if negb (Int_IsUint64 destination) || (Int_Uint64 destination >? MaxInt32)
  then fail errInvalidJump
  else
    modify (set_pc (i32 (Int_Uint64 destination) -i32 1));;
    checkJumpDest.

Definition opJumpi : M W unit :=
  destination ← pop;
  condition ← pop;
  if negb (Int_IsZero condition) then
    if negb (Int_IsUint64 destination) || (Int_Uint64 destination >? MaxInt32)
    then fail errInvalidJump
    else
      modify (set_pc (i32 (Int_Uint64 destination) -i32 1));;
      checkJumpDest
  else mret tt.

Definition opPop : M W unit := _ ← pop; mret tt.

(** [c.code[start:end]] panics for a negative [start]. *)
Definition opPush (n : Z) : M W unit :=
  c ← gets id;
  let codeLength := zlen (c_code c) in
  let start := Z.min codeLength (c_pc c +i32 1) in
  let end_ := Z.min codeLength (start + n) in
  (if start <? 0 then panic else pushValue (Int_SetBytes (slice (c_code c) start end_)));;
  let missing := n - (end_ - start) in
  when (missing >? 0) (top ← peek; setTop (Int_Lsh top (8 * missing)));;
  pc ← gets c_pc; modify (set_pc (pc +i32 n)).

(** [c.code[i]]. *)
Definition code_at (i : Z) : M W byte :=
  c ← gets id; if i <? 0 then panic else lift_option (c_code c !! Z.to_nat i).

(** Here and in [opPush2], [opPush0] and [opEq] the source writes the limbs of
    the word, all but the lowest with zero. *)
Definition opPush1 : M W unit :=
  pushUndefined;;
  c ← gets id;
  (if zlen (c_code c) <=? c_pc c + 1 then setTop (of_Z 0)
   else b ← code_at (c_pc c +i32 1); setTop (of_Z (byte_val b)));;
  modify (set_pc (c_pc c +i32 1)).

Definition opPush2 : M W unit :=
  pushUndefined;;
  c ← gets id;
  (if zlen (c_code c) <=? c_pc c + 1 then setTop (of_Z 0)
   else if zlen (c_code c) <=? c_pc c + 2 then
     b ← code_at (c_pc c +i32 1); setTop (of_Z (Z.shiftl (byte_val b) 8))
   else
     b1 ← code_at (c_pc c +i32 1); b2 ← code_at (c_pc c +i32 2);
     setTop (of_Z (Z.lor (Z.shiftl (byte_val b1) 8) (byte_val b2))));;
  modify (set_pc (c_pc c +i32 2)).

Definition opPush0 : M W unit :=
  ok ← gets (isAtLeast R12_Shanghai);
  fail_if (negb ok) errInvalidRevision;;
  pushValue (of_Z 0).

Definition opDup (pos : Z) : M W unit := dup (pos - 1).

Definition opSwap (pos : Z) : M W unit := swap pos.

Definition opMstore : M W unit :=
  addr ← pop;
  value ← pop;
  let v := Int_Bytes32 value in
  mem_set addr (arr_bytes v).

Definition opMstore8 : M W unit :=
  addr ← pop;
  value ← pop;
  mem_set addr [byte_of (Int_Uint64 value)].

Definition opMcopy : M W unit :=
  ok ← gets (isAtLeast R13_Cancun);
  fail_if (negb ok) errInvalidRevision;;
  destAddr ← pop;
  srcAddr ← pop;
  size ← pop;
  data ← getSlice srcAddr size;
  let price := i64 (3 *u64 SizeInWords (Int_Uint64 size)) in
  useGas price;;
  bytes ← slice_read data;
  mem_set destAddr bytes.

Definition opMload : M W unit :=
  addr ← peek;
  word ← readWord addr;
  setTop word.

Definition opMsize : M W unit :=
  m ← gets c_memory; pushValue (Int_SetUint64 (m_length m)).

Definition opSstore : M W unit :=
  params ← gets c_params;
  fail_if (p_Static params) errStaticContextViolation;;
  gas ← gets c_gas;
  fail_if (gas <=? 2300) errOutOfGas;;
  key ← pop; let key := Int_Bytes32 key in
  value ← pop; let value := Int_Bytes32 value in
  berlin ← gets (isAtLeast R09_Berlin);
  cost ← (if (berlin : bool) then
            access ← host (fun w => tc_AccessStorage w (p_Recipient params) key);
            mret (match access with ColdAccess => 2100 | WarmAccess => 0 end)
          else mret 0);
  storageStatus ← host (fun w => ws_SetStorage w (p_Recipient params) key value);
  rev ← gets revision;
  let cost := cost +i64 getDynamicCostsForSstore rev storageStatus in
  useGas cost;;
  addRefund (getRefundForSstore rev storageStatus).

Definition opSload : M W unit :=
  top ← peek;
  params ← gets c_params;
  let addr := p_Recipient params in
  let slot := Int_Bytes32 top in
  berlin ← gets (isAtLeast R09_Berlin);
  when berlin (
    access ← host (fun w => tc_AccessStorage w addr slot);
    let costs := match access with ColdAccess => 2100 | WarmAccess => 100 end in
    useGas costs);;
  value ← host_read (fun w => ws_GetStorage w addr slot);
  setTop (Int_SetBytes32 (arr_bytes value)).

Definition opTstore : M W unit :=
  ok ← gets (isAtLeast R13_Cancun);
  fail_if (negb ok) errInvalidRevision;;
  params ← gets c_params;
  fail_if (p_Static params) errStaticContextViolation;;
  key ← pop; let key := Int_Bytes32 key in
  value ← pop; let value := Int_Bytes32 value in
  host_ (fun w => tc_SetTransientStorage w (p_Recipient params) key value).

Definition opTload : M W unit :=
  ok ← gets (isAtLeast R13_Cancun);
  fail_if (negb ok) errInvalidRevision;;
  top ← peek;
  params ← gets c_params;
  let key := Int_Bytes32 top in
  value ← host_read (fun w => tc_GetTransientStorage w (p_Recipient params) key);
  setTop (Int_SetBytes32 (arr_bytes value)).

Definition opCaller : M W unit :=
  params ← gets c_params; pushValue (Int_SetBytes20 (arr_bytes (p_Sender params))).

Definition opCallvalue : M W unit :=
  params ← gets c_params; pushValue (Int_SetBytes32 (arr_bytes (p_Value params))).

Definition opCallDatasize : M W unit :=
  params ← gets c_params; pushValue (Int_SetUint64 (zlen (p_Input params))).

Definition opCallDataload : M W unit :=
  top ← peek;
  params ← gets c_params;
  value ← lift_option (getData (p_Input params) top 32);
  setTop (Int_SetBytes value).

Definition genericDataCopy (source : list byte) : M W unit :=
  memOffset ← pop;
  dataOffset ← pop;
  length ← pop;
  let words := SizeInWords (Int_Uint64 length) in
  useGas (i64 (3 *u64 words));;
  data ← getSlice memOffset length;
  dataCopy ← lift_option (getData source dataOffset (Int_Uint64 length));
  slice_write data dataCopy.

(** [a := pop(); b := peek(); b.f(a, b)]. *)
Definition binary (f : u256 -> u256 -> u256) : M W unit :=
  a ← pop; b ← peek; setTop (f a b).

(** [if test { b.SetOne() } else { b.Clear() }]. *)
Definition comparison (f : u256 -> u256 -> bool) : M W unit :=
  a ← pop; b ← peek; setTop (if f a b then Int_SetOne else Int_Clear).

Definition opAnd : M W unit := binary Int_And.
Definition opOr : M W unit := binary Int_Or.
Definition opNot : M W unit := a ← peek; setTop (Int_Not a).
Definition opXor : M W unit := binary Int_Xor.

Definition opIszero : M W unit :=
  top ← peek; setTop (if Int_IsZero top then Int_SetOne else Int_Clear).

Definition opEq : M W unit :=
  a ← pop; b ← peek;
  let res := Int_Cmp a b in
  setTop (if res =? 0 then of_Z 1 else of_Z 0).

Definition opLt : M W unit := comparison Int_Lt.
Definition opGt : M W unit := comparison Int_Gt.
Definition opSlt : M W unit := comparison Int_Slt.
Definition opSgt : M W unit := comparison Int_Sgt.

Definition opShr : M W unit :=
  a ← pop; b ← peek;
  setTop (if Int_LtUint64 a 256 then Int_Rsh b (Int_Uint64 a) else Int_Clear).

Definition opShl : M W unit :=
  a ← pop; b ← peek;
  setTop (if Int_LtUint64 a 256 then Int_Lsh b (Int_Uint64 a) else Int_Clear).

Definition opSar : M W unit :=
  a ← pop; b ← peek;
  if Int_GtUint64 a 256 then
    setTop (if Int_Sign b >=? 0 then Int_Clear else Int_SetAllOne)
  else setTop (Int_SRsh b (Int_Uint64 a)).

Definition opClz : M W unit :=
  ok ← gets (isAtLeast R15_Osaka);
  fail_if (negb ok) errInvalidRevision;;
  a ← peek;
  setTop (Int_SetUint64 (256 -u64 u64 (Int_BitLen a))).

Definition opSignExtend : M W unit :=
  back ← pop; num ← peek; setTop (Int_ExtendSign num back).

Definition opByte : M W unit :=
  th ← pop; val ← peek; setTop (Int_Byte val th).

Definition opAdd : M W unit := binary Int_Add.
Definition opSub : M W unit := binary Int_Sub.
Definition opMul : M W unit := binary Int_Mul.

Definition opMulMod : M W unit :=
  a ← pop; b ← pop; n ← peek; setTop (Int_MulMod a b n).

Definition opDiv : M W unit := binary Int_Div.
Definition opSDiv : M W unit := binary Int_SDiv.
Definition opMod : M W unit := binary Int_Mod.

Definition opAddMod : M W unit :=
  a ← pop; b ← pop; n ← peek; setTop (Int_AddMod a b n).

Definition opSMod : M W unit := binary Int_SMod.

Definition opExp : M W unit :=
  base ← pop; exponent ← peek;
  useGas (i64 (50 * Int_ByteLen exponent));;
  setTop (Int_Exp base exponent).

(** [sha3Cache.hash(data)] on the process-wide cache. *)
Definition sha3Cache_hash (data : list byte) : M W Hash :=
  cache ← host_read g_sha3Cache;
  '(cache, h) ← lift_option (sha3_hash Keccak256 Keccak256For32byte cache data);
  host_ (fun w => g_setSha3Cache w cache);; mret h.

Definition opSha3 : M W unit :=
  offset ← pop; size ← peek;
  data ← getSlice offset size;
  let words := SizeInWords (Int_Uint64 size) in
  let price := i64 (6 *u64 words) in
  useGas price;;
  bytes ← slice_read data;
  withShaCache ← gets c_withShaCache;
  hash ← (if (withShaCache : bool) then sha3Cache_hash bytes else mret (Keccak256 bytes));
  setTop (Int_SetBytes32 (arr_bytes hash)).

Definition opGas : M W unit :=
  gas ← gets c_gas; pushValue (Int_SetUint64 (u64 gas)).

(** The block parameters of the run. *)
Definition block : context W -> BlockParameters := fun c => p_Block (c_params c).

Definition opPrevRandao : M W unit :=
  b ← gets block; pushValue (Int_SetBytes32 (arr_bytes (bp_PrevRandao b))).

Definition opTimestamp : M W unit :=
  b ← gets block; pushValue (Int_SetUint64 (u64 (bp_Timestamp b))).

Definition opNumber : M W unit :=
  b ← gets block; pushValue (Int_SetUint64 (u64 (bp_BlockNumber b))).

Definition opCoinbase : M W unit :=
  b ← gets block; pushValue (Int_SetBytes20 (arr_bytes (bp_Coinbase b))).

Definition opGasLimit : M W unit :=
  b ← gets block; pushValue (Int_SetUint64 (u64 (bp_GasLimit b))).

Definition opGasPrice : M W unit :=
  params ← gets c_params; pushValue (Int_SetBytes32 (arr_bytes (tp_GasPrice (p_Tx params)))).

(** The access costs of an account, charged from Berlin on. *)
Definition chargeAccountAccess (address : Address) : M W unit :=
  berlin ← gets (isAtLeast R09_Berlin);
  when berlin (
    access ← host (fun w => tc_AccessAccount w address);
    useGas (getAccessCost access)).

Definition opBalance : M W unit :=
  slot ← peek;
  let address := Int_Bytes20 slot in
  chargeAccountAccess address;;
  balance ← host_read (fun w => ws_GetBalance w address);
  setTop (Int_SetBytes32 (arr_bytes balance)).

Definition opSelfbalance : M W unit :=
  params ← gets c_params;
  balance ← host_read (fun w => ws_GetBalance w (p_Recipient params));
  pushValue (Int_SetBytes32 (arr_bytes balance)).

Definition opBaseFee : M W unit :=
  ok ← gets (isAtLeast R10_London);
  fail_if (negb ok) errInvalidRevision;;
  b ← gets block; pushValue (Int_SetBytes32 (arr_bytes (bp_BaseFee b))).

Definition opBlobHash : M W unit :=
  ok ← gets (isAtLeast R13_Cancun);
  fail_if (negb ok) errInvalidRevision;;
  index ← pop;
  params ← gets c_params;
  let blobHashes := tp_BlobHashes (p_Tx params) in
  let blobHashesLength := u64 (zlen blobHashes) in
  if Int_IsUint64 index && (Int_Uint64 index <? blobHashesLength) then
    pushUndefined;;
    h ← lift_option (blobHashes !! Z.to_nat (Int_Uint64 index));
    setTop (Int_SetBytes32 (arr_bytes h))
  else push (NewInt 0).

Definition opBlobBaseFee : M W unit :=
  ok ← gets (isAtLeast R13_Cancun);
  fail_if (negb ok) errInvalidRevision;;
  b ← gets block; pushValue (Int_SetBytes32 (arr_bytes (bp_BlobBaseFee b))).

Definition opSelfdestruct : M W status :=
  params ← gets c_params;
  fail_if (p_Static params) errStaticContextViolation;;
  b ← pop; let beneficiary := Int_Bytes20 b in
  berlin ← gets (isAtLeast R09_Berlin);
  cost ← (if (berlin : bool) then
            accessStatus ← host (fun w => tc_AccessAccount w beneficiary);
            mret (match accessStatus with
                  | WarmAccess => 0 | ColdAccess => getAccessCost accessStatus end)
          else mret 0);
  empty ← host_read (fun w => isEmpty w beneficiary);
  balance ← host_read (fun w => ws_GetBalance w (p_Recipient params));
  let cost := cost +i64 selfDestructNewAccountCost empty balance in
  useGas cost;;
  destructed ← host (fun w => ws_SelfDestruct w (p_Recipient params) beneficiary);
  rev ← gets revision;
  addRefund (selfDestructRefund destructed rev);;
  mret statusSelfDestructed.

Definition opChainId : M W unit :=
  b ← gets block; pushValue (Int_SetBytes32 (arr_bytes (bp_ChainID b))).

Definition opBlockhash : M W unit :=
  top ← peek;
  b ← gets block;
  let requestedBlockNumber := Int_Uint64 top in
  let currentBlockNumber := u64 (bp_BlockNumber b) in
  if negb (Int_IsUint64 top) || (requestedBlockNumber >=? currentBlockNumber)
  then setTop Int_Clear
  else
    let oldestInHistory := if currentBlockNumber <? 256 then currentBlockNumber else 256 in
    let oldestInHistory := currentBlockNumber -u64 oldestInHistory in
    if requestedBlockNumber <? oldestInHistory then setTop Int_Clear
    else
      hash ← host_read (fun w => tc_GetBlockHash w (i64 requestedBlockNumber));
      setTop (Int_SetBytes (arr_bytes hash)).

Definition opAddress : M W unit :=
  params ← gets c_params; pushValue (Int_SetBytes20 (arr_bytes (p_Recipient params))).

Definition opOrigin : M W unit :=
  params ← gets c_params; pushValue (Int_SetBytes20 (arr_bytes (tp_Origin (p_Tx params)))).

Definition opCodeSize : M W unit :=
  params ← gets c_params; pushValue (Int_SetUint64 (zlen (p_Code params))).

Definition opExtcodesize : M W unit :=
  top ← peek;
  let address := Int_Bytes20 top in
  chargeAccountAccess address;;
  size ← host_read (fun w => ws_GetCodeSize w address);
  setTop (Int_SetUint64 (u64 size)).

Definition opExtcodehash : M W unit :=
  slot ← peek;
  let address := Int_Bytes20 slot in
  chargeAccountAccess address;;
  empty ← host_read (fun w => isEmpty w address);
  if (empty : bool) then setTop Int_Clear
  else
    hash ← host_read (fun w => ws_GetCodeHash w address);
    setTop (Int_SetBytes32 (arr_bytes hash)).

Definition isCreate2 (kind : CallKind) : bool :=
  match kind with Create2 => true | _ => false end.

(** The last part of [genericCreate]: run the init code with all but one 64th
    of the gas and take over the result. *)
Definition createCall (kind : CallKind) (value : u256) (input : mslice) (salt : Hash) : M W unit :=
  params ← gets c_params;
  gas ← gets c_gas;
  let nestedCallGas := gas -i64 Z.quot gas 64 in
  inputBytes ← slice_read input;
  '(res, err) ← host (fun w => rc_Call w kind
      (mkCallParameters (p_Recipient params) zeroAddress (Int_Bytes32 value) inputBytes
         nestedCallGas salt zeroAddress));
  let failed := negb (cr_Success res) || is_err err in
  pushUndefined;;
  setTop (if failed then Int_Clear else Int_SetBytes20 (arr_bytes (cr_CreatedAddress res)));;
  modify (set_returnData
    (if negb (cr_Success res) && negb (is_err err) then cr_Output res else []));;
  addGas (- nestedCallGas);;
  addGas (cr_GasLeft res);;
  addRefund (cr_GasRefund res).

Definition genericCreate (kind : CallKind) : M W unit :=
  params ← gets c_params;
  fail_if (p_Static params) errStaticContextViolation;;
  value ← pop;
  offset ← pop;
  size ← pop;
  salt ← (if isCreate2 kind then s ← pop; mret (Int_Bytes32 s) else mret zeroWord);
  input ← getSlice offset size;
  shanghai ← gets (isAtLeast R12_Shanghai);
  when shanghai (
    match computeCodeSizeCost (Int_Uint64 size) with
    | inr e => fail e
    | inl initCodeCost => useGas initCodeCost
    end);;
  when (isCreate2 kind) (
    let words := SizeInWords (Int_Uint64 size) in
    useGas (i64 (6 *u64 words)));;
  balance ← host_read (fun w => ws_GetBalance w (p_Recipient params));
  if negb (Int_IsZero value) && Int_Gt value (Int_SetBytes (arr_bytes balance)) then
    pushValue Int_Clear;;
    modify (set_returnData [])
  else
    createCall kind value input salt.

Definition opExtCodeCopy : M W unit :=
  a ← pop; let address := Int_Bytes20 a in
  chargeAccountAccess address;;
  code ← host_read (fun w => ws_GetCode w address);
  genericDataCopy code.

Definition hasValue (kind : CallKind) : bool :=
  match kind with Call | CallCode => true | _ => false end.

Definition isCall (kind : CallKind) : bool :=
  match kind with Call => true | _ => false end.

(** The costs [genericCall] charges before it forwards gas. *)
Definition callCosts (kind : CallKind) (toAddr : Address) (value : u256) : M W unit :=
  chargeAccountAccess toAddr;;
  prague ← gets (isAtLeast R14_Prague);
  when prague (
    code ← host_read (fun w => ws_GetCode w toAddr);
    let '(target, isDelegation) := parseDelegationDesignation code in
    when isDelegation (
      access ← host (fun w => tc_AccessAccount w target);
      useGas (getAccessCost access)));;
  when (negb (Int_IsZero value)) (useGas CallValueTransferGas);;
  empty ← host_read (fun w => isEmpty w toAddr);
  when (isCall kind && negb (Int_IsZero value) && empty) (useGas CallNewAccountGas).

(** The gas a call forwards: all but one 64th of the available gas, or the
    provided gas if that is less. *)
Definition callGas (gas : Gas) (provided_gas : u256) : Gas :=
  let nestedCallGas := gas -i64 Z.quot gas 64 in
  if Int_IsUint64 provided_gas && (Int_Uint64 provided_gas <=? MaxInt64)
     && (nestedCallGas >=? i64 (Int_Uint64 provided_gas))
  then i64 (Int_Uint64 provided_gas) else nestedCallGas.

(** The parameters of the nested call, by kind. *)
Definition callParams (params : Parameters) (kind : CallKind) (args : list byte) (gas : Gas)
    (value : u256) (toAddr : Address) : CallParameters :=
  match kind with
  | Call | StaticCall =>
      mkCallParameters (p_Recipient params) toAddr (Int_Bytes32 value) args gas zeroWord toAddr
  | CallCode =>
      mkCallParameters (p_Recipient params) (p_Recipient params) (Int_Bytes32 value) args gas
        zeroWord toAddr
  | DelegateCall =>
      mkCallParameters (p_Sender params) (p_Recipient params) (p_Value params) args gas
        zeroWord toAddr
  | Create | Create2 =>
      mkCallParameters zeroAddress zeroAddress (Int_Bytes32 value) args gas zeroWord toAddr
  end.

(** The last part of [genericCall]: the call, its output and its result. *)
Definition performCall (kind : CallKind) (args output : mslice) (nestedCallGas : Gas)
    (value : u256) (toAddr : Address) : M W unit :=
  params ← gets c_params;
  let kind := if p_Static params && isCall kind then StaticCall else kind in
  argBytes ← slice_read args;
  '(ret, err) ← host (fun w => rc_Call w kind
      (callParams params kind argBytes nestedCallGas value toAddr));
  when (negb (is_err err)) (slice_write output (cr_Output ret));;
  pushUndefined;;
  setTop (if is_err err || negb (cr_Success ret) then Int_Clear else Int_SetOne);;
  addGas (cr_GasLeft ret);;
  addRefund (cr_GasRefund ret);;
  modify (set_returnData (cr_Output ret)).

Definition genericCall (kind : CallKind) : M W unit :=
  provided_gas ← pop; addr ← pop;
  value ← (if hasValue kind then pop else mret (NewInt 0));
  inOffset ← pop; inSize ← pop; retOffset ← pop; retSize ← pop;
  let toAddr := Int_Bytes20 addr in
  args ← getSlice inOffset inSize;
  output ← getSlice retOffset retSize;
  callCosts kind toAddr value;;
  gas ← gets c_gas;
  let nestedCallGas := callGas gas provided_gas in
  addGas (- nestedCallGas);;
  let nestedCallGas :=
    if negb (Int_IsZero value) then nestedCallGas +i64 CallStipend else nestedCallGas in
  params ← gets c_params;
  balance ← host_read (fun w => ws_GetBalance w (p_Recipient params));
  if hasValue kind && negb (Int_IsZero value) && Int_Lt (Int_SetBytes32 (arr_bytes balance)) value
  then
    pushValue Int_Clear;;
    modify (set_returnData []);;
    addGas nestedCallGas
  else
    performCall kind args output nestedCallGas value toAddr.

Definition opCall : M W unit :=
  value ← peekN 2;
  params ← gets c_params;
  fail_if (p_Static params && negb (Int_IsZero value)) errStaticContextViolation;;
  genericCall Call.

Definition opCallCode : M W unit := genericCall CallCode.
Definition opStaticCall : M W unit := genericCall StaticCall.
Definition opDelegateCall : M W unit := genericCall DelegateCall.

Definition opReturnDataSize : M W unit :=
  d ← gets c_returnData; pushValue (Int_SetUint64 (zlen d)).

Definition opReturnDataCopy : M W unit :=
  memOffset ← pop;
  dataOffset ← pop;
  length ← pop;
  if negb (Int_IsUint64 dataOffset) || negb (Int_IsUint64 length) then fail errOverflow
  else
    let words := SizeInWords (Int_Uint64 length) in
    useGas (i64 (3 *u64 words));;
    let start := Int_Uint64 dataOffset in
    let end_ := start +u64 Int_Uint64 length in
    if end_ <? start then fail errOverflow
    else
      d ← gets c_returnData;
      if end_ >? u64 (zlen d) then fail errOverflow
      else mem_set memOffset (slice d start end_).

Fixpoint pop_topics (n : nat) : M W (list Hash) :=
  match n with
  | O => mret []
  | S n => addr ← pop; topics ← pop_topics n; mret (Int_Bytes32 addr :: topics)
  end.

Definition opLog (n : nat) : M W unit :=
  params ← gets c_params;
  fail_if (p_Static params) errStaticContextViolation;;
  offset ← pop;
  size ← pop;
  topics ← pop_topics n;
  data ← getSlice offset size;
  useGas (i64 (8 *u64 Int_Uint64 size));;
  log_data ← slice_read data;
  host_ (fun w => tc_EmitLog w (mkLog (p_Recipient params) topics log_data)).

End Instructions.
