(* ===== verification/SfvmInterpreter.v ===== *)
(** * The interpreter

    [go/interpreter/sfvm/interpreter.go] and [sfvm.go]: the dispatch of the
    instructions, the execution loop, and the run of a contract from its
    parameters to its result. *)
From Stdlib Require Import ZArith Lia Strings.Byte String.
From stdpp Require Import base list numbers.
From S2P Require Import Prelude Uint256 Types OpCodes SfvmStack SfvmAnalysis SfvmHashCache.
From S2P Require Import SfvmContext SfvmMemory SfvmGas SfvmInstructions.
Set Default Goal Selector "!".
Local Open Scope Z_scope.
Local Open Scope go_scope.

Record Config := mkConfig {
  WithShaCache : bool;
  WithAnalysisCache : bool;
  AnalysisCacheSize : Z;
  MaxCachedCodeSize : Z
}.

(** The interpreter object. *)
Record sfvm (C : Type) := mkSfvm { vm_config : Config; vm_analysis : analysis C }.
Arguments mkSfvm {C} _ _.
Arguments vm_config {C} _.
Arguments vm_analysis {C} _.

Definition newestSupportedRevision : Revision := R15_Osaka.

(** [None] is the panic of [newAnalysis]; [NewInterpreter] returns no error. *)
Definition NewInterpreter `{LRU jumpDestMap C} (config : Config) : option (sfvm C) :=
  if WithAnalysisCache config then
    let maxCachedCodeSize := 2 ^ 14 + 2 ^ 13 in
    let maxCachedCodeSize :=
      if MaxCachedCodeSize config >? 0 then MaxCachedCodeSize config else maxCachedCodeSize in
    let analysisCacheSize := 2 ^ 28 in
    let analysisCacheSize :=
      if AnalysisCacheSize config >? 0 then AnalysisCacheSize config else analysisCacheSize in
    a ← newAnalysis analysisCacheSize maxCachedCodeSize;
    Some (mkSfvm config a)
  else Some (mkSfvm config (mkAnalysis None 0)).

Section Interpreter.
Context {W : Type} {U : Uint256} {RC : RunContext W} {G : Globals W}.
Context (Keccak256 : list byte -> Hash) (Keccak256For32byte : array 32 -> Hash).

(** An instruction that leaves the status as it is. *)
Definition running (m : M W unit) : M W status := m;; mret statusRunning.

(** The switch of [steps]. *)
Definition dispatch (op : OpCode) : M W status :=
  match op with
  | POP => running opPop
  | PUSH0 => running opPush0
  | PUSH1 => running opPush1
  | PUSH2 => running opPush2
  | PUSH3 => running (opPush 3)
  | PUSH4 => running (opPush 4)
  | PUSH5 => running (opPush 5)
  | PUSH31 => running (opPush 31)
  | PUSH32 => running (opPush 32)
  | JUMP => running opJump
  | JUMPDEST => mret statusRunning
  | SWAP1 => running (opSwap 1)
  | SWAP2 => running (opSwap 2)
  | DUP3 => running (opDup 3)
  | AND => running opAnd
  | SWAP3 => running (opSwap 3)
  | JUMPI => running opJumpi
  | GT => running opGt
  | DUP4 => running (opDup 4)
  | DUP2 => running (opDup 2)
  | ISZERO => running opIszero
  | ADD => running opAdd
  | OR => running opOr
  | XOR => running opXor
  | NOT => running opNot
  | SUB => running opSub
  | MUL => running opMul
  | MULMOD => running opMulMod
  | DIV => running opDiv
  | SDIV => running opSDiv
  | MOD => running opMod
  | SMOD => running opSMod
  | ADDMOD => running opAddMod
  | EXP => running opExp
  | DUP5 => running (opDup 5)
  | DUP1 => running (opDup 1)
  | EQ => running opEq
  | PC => running opPc
  | CALLER => running opCaller
  | CALLDATALOAD => running opCallDataload
  | CALLDATASIZE => running opCallDatasize
  | CALLDATACOPY => c ← gets id; running (genericDataCopy (p_Input (c_params c)))
  | MLOAD => running opMload
  | MSTORE => running opMstore
  | MSTORE8 => running opMstore8
  | MSIZE => running opMsize
  | MCOPY => running opMcopy
  | LT => running opLt
  | SLT => running opSlt
  | SGT => running opSgt
  | SHR => running opShr
  | SHL => running opShl
  | SAR => running opSar
  | CLZ => running opClz
  | SIGNEXTEND => running opSignExtend
  | BYTE => running opByte
  | SHA3 => running (opSha3 Keccak256 Keccak256For32byte)
  | CALLVALUE => running opCallvalue
  | PUSH6 => running (opPush 6)
  | PUSH7 => running (opPush 7)
  | PUSH8 => running (opPush 8)
  | PUSH9 => running (opPush 9)
  | PUSH10 => running (opPush 10)
  | PUSH11 => running (opPush 11)
  | PUSH12 => running (opPush 12)
  | PUSH13 => running (opPush 13)
  | PUSH14 => running (opPush 14)
  | PUSH15 => running (opPush 15)
  | PUSH16 => running (opPush 16)
  | PUSH17 => running (opPush 17)
  | PUSH18 => running (opPush 18)
  | PUSH19 => running (opPush 19)
  | PUSH20 => running (opPush 20)
  | PUSH21 => running (opPush 21)
  | PUSH22 => running (opPush 22)
  | PUSH23 => running (opPush 23)
  | PUSH24 => running (opPush 24)
  | PUSH25 => running (opPush 25)
  | PUSH26 => running (opPush 26)
  | PUSH27 => running (opPush 27)
  | PUSH28 => running (opPush 28)
  | PUSH29 => running (opPush 29)
  | PUSH30 => running (opPush 30)
  | SWAP4 => running (opSwap 4)
  | SWAP5 => running (opSwap 5)
  | SWAP6 => running (opSwap 6)
  | SWAP7 => running (opSwap 7)
  | SWAP8 => running (opSwap 8)
  | SWAP9 => running (opSwap 9)
  | SWAP10 => running (opSwap 10)
  | SWAP11 => running (opSwap 11)
  | SWAP12 => running (opSwap 12)
  | SWAP13 => running (opSwap 13)
  | SWAP14 => running (opSwap 14)
  | SWAP15 => running (opSwap 15)
  | SWAP16 => running (opSwap 16)
  | DUP6 => running (opDup 6)
  | DUP7 => running (opDup 7)
  | DUP8 => running (opDup 8)
  | DUP9 => running (opDup 9)
  | DUP10 => running (opDup 10)
  | DUP11 => running (opDup 11)
  | DUP12 => running (opDup 12)
  | DUP13 => running (opDup 13)
  | DUP14 => running (opDup 14)
  | DUP15 => running (opDup 15)
  | DUP16 => running (opDup 16)
  | RETURN => opEndWithResult;; mret statusReturned
  | REVERT => opEndWithResult;; mret statusReverted
  | SLOAD => running opSload
  | SSTORE => running opSstore
  | TLOAD => running opTload
  | TSTORE => running opTstore
  | CODESIZE => running opCodeSize
  | CODECOPY => c ← gets id; running (genericDataCopy (p_Code (c_params c)))
  | EXTCODESIZE => running opExtcodesize
  | EXTCODEHASH => running opExtcodehash
  | EXTCODECOPY => running opExtCodeCopy
  | BALANCE => running opBalance
  | SELFBALANCE => running opSelfbalance
  | BASEFEE => running opBaseFee
  | BLOBHASH => running opBlobHash
  | BLOBBASEFEE => running opBlobBaseFee
  | SELFDESTRUCT => opSelfdestruct
  | CHAINID => running opChainId
  | GAS => running opGas
  | PREVRANDAO => running opPrevRandao
  | TIMESTAMP => running opTimestamp
  | NUMBER => running opNumber
  | GASLIMIT => running opGasLimit
  | GASPRICE => running opGasPrice
  | CALL => running opCall
  | CALLCODE => running opCallCode
  | STATICCALL => running opStaticCall
  | DELEGATECALL => running opDelegateCall
  | RETURNDATASIZE => running opReturnDataSize
  | RETURNDATACOPY => running opReturnDataCopy
  | BLOCKHASH => running opBlockhash
  | COINBASE => running opCoinbase
  | ORIGIN => running opOrigin
  | ADDRESS => running opAddress
  | STOP => opStop
  | CREATE => running (genericCreate Create)
  | CREATE2 => running (genericCreate Create2)
  | LOG0 => running (opLog 0)
  | LOG1 => running (opLog 1)
  | LOG2 => running (opLog 2)
  | LOG3 => running (opLog 3)
  | LOG4 => running (opLog 4)
  | _ => fail errInvalidOpCode
  end.

(** One iteration of the loop of [steps], for a program counter within the
    code: stack limits, static gas, the instruction, the next position. *)
Definition step : M W status :=
  c ← gets id;
  op ← code_at (c_pc c);
  checkStackLimits (st_len (c_stack c)) op;;
  price ← lift_option (property_get (getStaticGasPrices (revision c)) op);
  useGas price;;
  status ← dispatch op;
  pc ← gets c_pc;
  modify (set_pc (pc +i32 1));;
  mret status.

(** The loop, with at most [fuel] iterations; [None] when they do not suffice. *)
Fixpoint steps (fuel : nat) (oneStepOnly : bool) (c : context W)
    : option (outcome status * context W) :=
  match fuel with
  | O => None
  | S fuel =>
      if c_pc c >=? zlen (c_code c) then Some (Ok statusStopped, c)
      else
        match step c with
        | (Ok status, c) =>
            if oneStepOnly then Some (Ok status, c)
            else match status with
                 | statusRunning => steps fuel oneStepOnly c
                 | _ => Some (Ok status, c)
                 end
        | r => Some r
        end
  end.

(** [Panic] is the only outcome that is no status. *)
Definition execute (fuel : nat) (oneStepOnly : bool) (c : context W)
    : option (outcome status * context W) :=
  match steps fuel oneStepOnly c with
  | Some (Err _, c) => Some (Ok statusFailed, c)
  | r => r
  end.

Definition generateResult (st : status) (ctxt : context W) : Result + error :=
  match st with
  | statusStopped | statusSelfDestructed =>
      inl (mkResult true [] (c_gas ctxt) (c_refund ctxt))
  | statusReturned =>
      inl (mkResult true (c_returnData ctxt) (c_gas ctxt) (c_refund ctxt))
  | statusReverted =>
      inl (mkResult false (c_returnData ctxt) (c_gas ctxt) 0)
  | statusFailed => inl (mkResult false [] 0 0)
  | statusRunning => inr (ErrMsg "unexpected error in interpreter, unknown status")
  end.

(** The context of a run; [garbage] is what a stack of the pool holds. *)
Definition initContext (config : Config) (jumpDests : jumpDestMap) (params : Parameters) (w : W)
    (garbage : list u256) : context W :=
  mkContext params w (p_Code params) jumpDests 0 (p_Gas params) 0 (NewStack garbage) NewMemory []
    (WithShaCache config).

(** A run of at most [fuel] steps: the state of the world, the analysis cache
    and the result. [None] is a run that needs more fuel, or a panic. *)
Definition run `{LRU jumpDestMap C} (fuel : nat) (a : analysis C) (config : Config) (w : W)
    (params : Parameters) (garbage : list u256) : option (W * analysis C * (Result + error)) :=
  if zlen (p_Code params) =? 0 then
    Some (w, a, inl (mkResult true [] (p_Gas params) 0))
  else
    let '(a, jumpDests) := analyzeJumpDest a (p_Code params) (p_CodeHash params) in
    match execute fuel false (initContext config jumpDests params w garbage) with
    | Some (Ok st, ctxt) => Some (c_context ctxt, a, generateResult st ctxt)
    | _ => None
    end.

Definition Run `{LRU jumpDestMap C} (fuel : nat) (s : sfvm C) (w : W) (params : Parameters)
    (garbage : list u256) : option (W * sfvm C * (Result + error)) :=
  if bp_Revision (p_Block params) >? newestSupportedRevision then
    Some (w, s, inr (ErrUnsupportedRevision (bp_Revision (p_Block params))))
  else
    match run fuel (vm_analysis s) (vm_config s) w params garbage with
    | Some (w, a, r) => Some (w, mkSfvm (vm_config s) a, r)
    | None => None
    end.

End Interpreter.
