(* ===== verification/SfvmLogic.v ===== *)
(** * Reasoning about computations of the interpreter

    Weakest preconditions for the computations of [SfvmContext], the
    invariant [good] of an execution, and specifications of the primitives:
    gas, stack, memory and run context. A computation that meets a
    specification does not panic. *)
From Stdlib Require Import ZArith Lia Strings.Byte.
From stdpp Require Import base list numbers.
From S2P Require Import Prelude Uint256 Types OpCodes SfvmStack SfvmAnalysis SfvmHashCache.
From S2P Require Import SfvmContext SfvmMemory SfvmGas SfvmInstructions.
Set Default Goal Selector "!".
Local Open Scope Z_scope.
Local Open Scope go_scope.

(** ** Weakest preconditions *)

(** [m] does not panic in [c]; a value and the context it ends in satisfy
    [Q], the context of an error [E]. *)
Definition wp {W A} (m : M W A) (Q : A -> context W -> Prop) (E : context W -> Prop)
    (c : context W) : Prop :=
  match m c with
  | (Ok a, c) => Q a c
  | (Err _, c) => E c
  | (Panic, _) => False
  end.

Section Rules.
Context {W : Type}.
Implicit Types c : context W.

Lemma wp_ret {A} (a : A) Q E c : Q a c -> wp (mret a) Q E c.
Proof. done. Qed.

Lemma wp_bind {A B} (m : M W A) (f : A -> M W B) Q E c :
  wp m (fun a => wp (f a) Q E) E c -> wp (mbind f m) Q E c.
Proof. unfold wp, mbind, M_bind. by destruct (m c) as [[a|e|] c']. Qed.

Lemma wp_mono {A} (m : M W A) (Q Q' : A -> context W -> Prop) (E E' : context W -> Prop) c :
  wp m Q E c -> (forall a c', Q a c' -> Q' a c') -> (forall c', E c' -> E' c') -> wp m Q' E' c.
Proof. unfold wp. destruct (m c) as [[a|e|] c']; auto. Qed.

Lemma wp_fail {A} e (Q : A -> context W -> Prop) (E : context W -> Prop) c : E c -> wp (fail e) Q E c.
Proof. done. Qed.

Lemma wp_fail_if b e Q (E : context W -> Prop) c :
  (b = true -> E c) -> (b = false -> Q tt c) -> wp (fail_if b e) Q E c.
Proof. destruct b; unfold wp; cbn; auto. Qed.

Lemma wp_gets {A} (f : context W -> A) (Q : A -> context W -> Prop) E c :
  Q (f c) c -> wp (gets f) Q E c.
Proof. done. Qed.

Lemma wp_modify f (Q : unit -> context W -> Prop) E c : Q tt (f c) -> wp (modify f) Q E c.
Proof. done. Qed.

Lemma wp_lift_option {A} (o : option A) (a : A) (Q : A -> context W -> Prop) E c :
  o = Some a -> Q a c -> wp (lift_option o) Q E c.
Proof. by intros ->. Qed.

Lemma wp_when b (m : M W unit) Q E c :
  (b = true -> wp m Q E c) -> (b = false -> Q tt c) -> wp (when b m) Q E c.
Proof. destruct b; unfold when; intros; [auto|apply wp_ret; auto]. Qed.

Lemma wp_if {A} (b : bool) (m1 m2 : M W A) Q E c :
  (b = true -> wp m1 Q E c) -> (b = false -> wp m2 Q E c) -> wp (if b then m1 else m2) Q E c.
Proof. destruct b; auto. Qed.

Lemma wp_on_error {A} (m : M W A) f Q (E : context W -> Prop) c :
  wp m Q (fun c => E (f c)) c -> wp (on_error m f) Q E c.
Proof. unfold wp, on_error. by destruct (m c) as [[a|e|] c']. Qed.

Lemma wp_ok {A} (m : M W A) Q E c a c' : wp m Q E c -> m c = (Ok a, c') -> Q a c'.
Proof. unfold wp. intros H Hm. by rewrite Hm in H. Qed.

End Rules.

(** ** The memory invariant *)

(** The memory holds whole words, within the limit, and the costs paid so far
    are those of its size. *)
Definition mem_wf (m : Memory) : Prop :=
  exists words, zlen (m_store m) = 32 * words
  /\ 0 <= 32 * words <= maxMemoryExpansionSize
  /\ m_currentMemoryCost m = words * words / 512 + 3 * words.

(** No step of the cost computation overflows within the size limit. *)
Lemma memoryCost_exact words : 0 <= 32 * words <= maxMemoryExpansionSize ->
  memoryCost words = words * words / 512 + 3 * words
  /\ 0 <= words * words / 512 + 3 * words < 2 ^ 55 + 2 ^ 34.
Proof.
  unfold maxMemoryExpansionSize. intros H.
  assert (0 <= words * words < 2 ^ 64) by nia.
  assert (0 <= words * words / 512 < 2 ^ 55) by (divlia).
  unfold memoryCost. rewrite !u64_id; [lia|zblia..|].
  rewrite !u64_id; zblia.
Qed.

Lemma memory_cost_mono a b : 0 <= a <= b -> a * a / 512 + 3 * a <= b * b / 512 + 3 * b.
Proof. intros H. assert (a * a <= b * b) by nia. pose proof (Z.div_le_mono (a*a) (b*b) 512). lia. Qed.

Lemma m_length_exact m : mem_wf m -> m_length m = zlen (m_store m).
Proof.
  intros (w & Hw & Hb & _). unfold m_length, maxMemoryExpansionSize in *.
  apply u64_id. zblia.
Qed.

Lemma NewMemory_wf : mem_wf NewMemory.
Proof. exists 0. done. Qed.

(** Every branch of the expansion costs: nothing to do, too large, or the
    difference of the costs, which is a valid amount of gas. *)
Lemma getExpansionCostsAndSize_spec m size : mem_wf m -> isU64 size ->
  getExpansionCostsAndSize m size =
    if zlen (m_store m) >=? size then inl (0, zlen (m_store m))
    else
      let words := (size + 31) / 32 in
      if words =? 2 ^ 59 then inr errOverflow
      else if 32 * words >? maxMemoryExpansionSize then inr errMaxMemoryExpansionSize
      else inl (words * words / 512 + 3 * words - m_currentMemoryCost m, 32 * words).
Proof.
  intros Hm Hs. unfold getExpansionCostsAndSize. rewrite m_length_exact by done.
  case_if; [done|]. pose proof (SizeInWords_bound size Hs) as [Hw Hv].
  rewrite <-SizeInWords_spec by done. cbv zeta. set (words := SizeInWords size) in *.
  destruct (Z.eqb_spec words (2 ^ 59)) as [->|Hne].
  - change (u64 (2 ^ 59 * 32)) with 0. rewrite (proj2 (Z.ltb_lt 0 size)); [done|].
    pose proof (zlen_nonneg (m_store m)). lia.
  - rewrite (u64_id (words * 32)) by zblia.
    rewrite (proj2 (Z.ltb_ge (words * 32) size)) by lia.
    rewrite (Z.mul_comm words 32). case_if; [done|].
    destruct (memoryCost_exact words) as [-> Hc]; [lia|].
    destruct Hm as (w & Hw' & Hb & ->).
    destruct (memoryCost_exact w) as [_ Hc']; [lia|].
    rewrite !i64_id; [done|zblia|]. rewrite i64_id; zblia.
Qed.

(** The size of the memory that can be paid for with [gas]: within the limit,
    and for realistic amounts of gas below what a 32-bit program counter can
    address. *)
Definition max_memory (gas : Gas) : Z :=
  if gas <=? 2 ^ 40 then 2 ^ 30 else maxMemoryExpansionSize.

Lemma max_memory_mono gas gas' : gas <= gas' -> max_memory gas <= max_memory gas'.
Proof. unfold max_memory, maxMemoryExpansionSize. intros. repeat case_if; lia. Qed.

Lemma paid_memory m gas : mem_wf m -> m_currentMemoryCost m <= gas ->
  zlen (m_store m) <= max_memory gas.
Proof.
  intros (w & -> & Hb & Hc) Hg. unfold max_memory. case_if; [|lia].
  destruct (Z.le_gt_cases (32 * w) (2 ^ 30)) as [|Hw]; [done|].
  assert (2 ^ 25 <= w) by lia. pose proof (memory_cost_mono (2 ^ 25) w ltac:(lia)) as Hm.
  change (2 ^ 25 * 2 ^ 25 / 512 + 3 * 2 ^ 25) with (2 ^ 41 + 3 * 2 ^ 25) in Hm. lia.
Qed.

(** ** The invariant of an execution *)

(** What the interpreter relies on from the run context [w] it runs in, and
    what it does to it. [R] is any property of the state behind the context
    that the operations used by the interpreter preserve; the operations that
    change the world are only used outside static mode, and in static mode
    only calls that cannot transfer value to another account or create
    contracts. *)
Definition static_call (kind : CallKind) (p : CallParameters) : Prop :=
  match kind with
  | StaticCall | DelegateCall => True
  | CallCode => cp_Sender p = cp_Recipient p
  | _ => False
  end.

Class HostFrame {W} {RC : RunContext W} {G : Globals W}
    (Keccak256 : list byte -> Hash) (Keccak256For32byte : array 32 -> Hash)
    (static : bool) (maxGas : Gas) (R : W -> Prop) : Prop := {
  hf_AccessAccount w a : R w -> R (fst (tc_AccessAccount w a));
  hf_AccessStorage w a k : R w -> R (fst (tc_AccessStorage w a k));
  hf_SetStorage w a k v : static = false -> R w -> R (fst (ws_SetStorage w a k v));
  hf_SetTransientStorage w a k v : static = false -> R w -> R (tc_SetTransientStorage w a k v);
  hf_EmitLog w l : static = false -> R w -> R (tc_EmitLog w l);
  hf_SelfDestruct w a b : static = false -> R w -> R (fst (ws_SelfDestruct w a b));
  (** Calls that can be paid for with [maxGas] return at most the gas they
      were given. *)
  hf_Call w kind p : (static = true -> static_call kind p) -> R w ->
    0 <= cp_Gas p <= maxGas -> zlen (cp_Input p) <= max_memory maxGas ->
    R (fst (rc_Call w kind p)) /\
    0 <= cr_GasLeft (fst (snd (rc_Call w kind p))) <= cp_Gas p;
  (** A Go slice has fewer than [2^63] elements. *)
  hf_GetCode w a : R w -> zlen (ws_GetCode w a) < 2 ^ 63;
  hf_sha3Cache w data : R w -> exists cache h,
    sha3_hash Keccak256 Keccak256For32byte (g_sha3Cache w) data = Some (cache, h)
    /\ R (g_setSha3Cache w cache)
}.

(** [good R c0 n g pc c]: the context [c] of a run that started the
    instruction in [c0]: the inputs are those of [c0], stack and memory are
    well formed, the stack has [n] elements, [g] gas is left, the
    program counter is [pc], the memory has been paid for out of the initial
    gas, and the state of the world satisfies [R]. *)
Record good {W} (R : W -> Prop) (c0 : context W) (n g pc : Z) (c : context W) : Prop := {
  good_params : c_params c = c_params c0;
  good_code : c_code c = c_code c0;
  good_analysis : c_analysis c = c_analysis c0;
  good_sha : c_withShaCache c = c_withShaCache c0;
  good_stack : stack_wf (c_stack c);
  good_len : st_len (c_stack c) = n;
  good_mem : mem_wf (c_memory c);
  good_gas : c_gas c = g;
  good_max : 0 <= g <= MaxInt64;
  good_paid : m_currentMemoryCost (c_memory c) + g <= c_gas c0;
  good_pc : c_pc c = pc;
  good_world : R (c_context c)
}.

(** Failing computations leave a state of the world that satisfies [R], and a
    stack. *)
Definition failed {W} (R : W -> Prop) (c : context W) : Prop := R (c_context c) /\ stack_wf (c_stack c).

Section Specs.
Context {W : Type} {U : Uint256} {UL : Uint256Laws U} {RC : RunContext W} {G : Globals W}.
Context (R : W -> Prop) (c0 : context W).
Implicit Types (c : context W).

Abbreviation RE := (failed R).

(** The costs of the memory, as paid so far. *)
Abbreviation mcost c := (m_currentMemoryCost (c_memory c)).

Lemma good_RE n g pc c : good R c0 n g pc c -> RE c.
Proof. intros []. by split. Qed.

Lemma good_total n g pc c : good R c0 n g pc c -> 0 <= mcost c /\ g <= c_gas c0.
Proof.
  intros H. pose proof (good_paid _ _ _ _ _ _ H).
  destruct (good_mem _ _ _ _ _ _ H) as (w & _ & Hb & Hc).
  destruct (memoryCost_exact w) as [_ ?]; lia.
Qed.

Lemma good_bounds n g pc c : good R c0 n g pc c -> 0 <= n <= 1024.
Proof. intros []. destruct good_stack0. unfold st_len, maxStackSize in *. lia. Qed.

Lemma wp_useGas n g pc a c : good R c0 n g pc c ->
  wp (useGas a) (fun _ c' => good R c0 n (g - a) pc c' /\ 0 <= a <= g
    /\ c_memory c' = c_memory c) RE c.
Proof.
  intros H. unfold useGas. apply wp_bind, wp_gets. rewrite (good_gas _ _ _ _ _ _ H). case_if.
  - apply wp_fail, (good_RE _ _ _ _ H).
  - apply wp_modify. destruct H. split_and!; [|lia|lia|done].
    constructor; cbn; try done; [|lia|lia]. rewrite i64_id; zblia.
Qed.

Lemma wp_pop n g pc c : good R c0 n g pc c -> 1 <= n ->
  wp pop (fun _ => good R c0 (n - 1) g pc) RE c.
Proof.
  intros H Hn. unfold pop. apply wp_bind, wp_gets. destruct H.
  pose proof (view_length _ good_stack0) as Hv.
  destruct (stack_view (c_stack c)) as [|x l] eqn:E; [unfold zlen in Hv; simpl in Hv; lia|].
  destruct (st_pop_view _ _ _ good_stack0 E) as (s' & Hs & Hw & _ & Hl).
  apply wp_bind. eapply wp_lift_option; [exact Hs|]. apply wp_bind, wp_modify, wp_ret.
  constructor; cbn; (done || lia).
Qed.

Lemma wp_peekN n g pc (k : nat) c : good R c0 n g pc c -> Z.of_nat k < n ->
  wp (peekN (Z.of_nat k)) (fun _ => good R c0 n g pc) RE c.
Proof.
  intros H Hn. unfold peekN. apply wp_bind, wp_gets. destruct H as [????? Hl].
  pose proof (view_length _ good_stack0) as Hv.
  destruct (lookup_lt_is_Some_2 (stack_view (c_stack c)) k) as [x Hx]; [zblia|].
  eapply wp_lift_option; [by apply st_peekN_view|]. constructor; (done || lia).
Qed.

Lemma wp_peek n g pc c : good R c0 n g pc c -> 1 <= n ->
  wp peek (fun _ => good R c0 n g pc) RE c.
Proof.
  intros H Hn. unfold peek. apply wp_bind, wp_gets. pose proof H as [].
  pose proof (view_length _ good_stack0) as Hv.
  destruct (stack_view (c_stack c)) as [|x l] eqn:E; [unfold zlen in Hv; simpl in Hv; lia|].
  eapply wp_lift_option; [by eapply st_peek_view|]. done.
Qed.

Lemma wp_setTop n g pc v c : good R c0 n g pc c -> 1 <= n ->
  wp (setTop v) (fun _ c' => good R c0 n g pc c' /\ mcost c' = mcost c) RE c.
Proof.
  intros H Hn. unfold setTop. apply wp_bind, wp_gets. destruct H.
  pose proof (view_length _ good_stack0) as Hv.
  destruct (stack_view (c_stack c)) as [|x l] eqn:E; [unfold zlen in Hv; simpl in Hv; lia|].
  destruct (st_setTop_view _ _ _ v good_stack0 E) as (s' & Hs & Hw & _ & Hl).
  apply wp_bind. eapply wp_lift_option; [exact Hs|]. apply wp_modify.
  split; [constructor; cbn; (done || lia)|done].
Qed.

Lemma wp_push n g pc v c : good R c0 n g pc c -> n < 1024 ->
  wp (push v) (fun _ => good R c0 (n + 1) g pc) RE c.
Proof.
  intros H Hn. unfold push. apply wp_bind, wp_gets. destruct H.
  destruct (st_push_view _ v good_stack0) as (s' & Hs & Hw & _ & Hl); [unfold maxStackSize; lia|].
  apply wp_bind. eapply wp_lift_option; [exact Hs|]. apply wp_modify.
  constructor; cbn; (done || lia).
Qed.

Lemma wp_pushUndefined n g pc c : good R c0 n g pc c -> n < 1024 ->
  wp pushUndefined (fun _ c' => good R c0 (n + 1) g pc c' /\ mcost c' = mcost c) RE c.
Proof.
  intros H Hn. unfold pushUndefined. apply wp_bind, wp_gets. destruct H.
  destruct (st_read_wf (c_stack c) (st_len (c_stack c))) as [x Hx]; [done| |].
  { destruct good_stack0. unfold st_len, maxStackSize in *. lia. }
  unfold st_pushUndefined. unfold st_len in *. rewrite Hx.
  apply wp_bind. eapply wp_lift_option; [reflexivity|]. apply wp_modify.
  split; [|done].
  destruct good_stack0. constructor; cbn; try done; unfold maxStackSize in *; [split; cbn|]; 
    unfold maxStackSize; (done || lia).
Qed.

Lemma wp_pushValue n g pc v c : good R c0 n g pc c -> n < 1024 ->
  wp (pushValue v) (fun _ c' => good R c0 (n + 1) g pc c' /\ mcost c' = mcost c) RE c.
Proof.
  intros H Hn. unfold pushValue. apply wp_bind.
  pose proof (good_bounds _ _ _ _ H).
  eapply wp_mono; [by apply wp_pushUndefined|cbv beta; intros _ c' [H' Hm]|done].
  eapply wp_mono; [apply wp_setTop; [exact H'|lia]|cbv beta; intros _ c2 [H2 Hm2]|done].
  split; [done|congruence].
Qed.

Lemma wp_dup n g pc (k : nat) c : good R c0 n g pc c -> n < 1024 -> Z.of_nat k < n ->
  wp (dup (Z.of_nat k)) (fun _ => good R c0 (n + 1) g pc) RE c.
Proof.
  intros H Hn Hk. unfold dup. apply wp_bind, wp_gets. destruct H.
  pose proof (view_length _ good_stack0) as Hv.
  destruct (lookup_lt_is_Some_2 (stack_view (c_stack c)) k) as [x Hx]; [zblia|].
  destruct (st_dup_view _ k x good_stack0) as (s' & Hs & Hw & _ & Hl);
    [unfold maxStackSize; lia|done|].
  apply wp_bind. eapply wp_lift_option; [exact Hs|]. apply wp_modify.
  constructor; cbn; (done || lia).
Qed.

Lemma wp_swap n g pc (k : nat) c : good R c0 n g pc c -> Z.of_nat k < n ->
  wp (swap (Z.of_nat k)) (fun _ => good R c0 n g pc) RE c.
Proof.
  intros H Hk. unfold swap. apply wp_bind, wp_gets. destruct H.
  pose proof (view_length _ good_stack0) as Hv.
  destruct (lookup_lt_is_Some_2 (stack_view (c_stack c)) k) as [y Hy]; [zblia|].
  destruct (lookup_lt_is_Some_2 (stack_view (c_stack c)) 0) as [x Hx]; [zblia|].
  destruct (st_swap_view _ k x y good_stack0 Hx Hy) as (s' & Hs & Hw & _ & Hl).
  apply wp_bind. eapply wp_lift_option; [exact Hs|]. apply wp_modify.
  constructor; cbn; (done || lia).
Qed.

(** ** Memory *)

(** A slice within the memory. *)
Definition slice_ok (sl : mslice) (c : context W) : Prop :=
  0 <= sl_lo sl <= sl_hi sl /\ sl_hi sl <= zlen (m_store (c_memory c)).

Lemma slice_ok_mono sl c c' : slice_ok sl c ->
  zlen (m_store (c_memory c)) <= zlen (m_store (c_memory c')) -> slice_ok sl c'.
Proof. unfold slice_ok. lia. Qed.

(** Expanding charges the difference of the costs and appends zero bytes up
    to a whole number of words. *)
Lemma wp_expandMemory n g pc offset size c : good R c0 n g pc c ->
  isU64 offset -> isU64 size ->
  wp (expandMemory offset size) (fun _ c' => exists g', 0 <= g' <= g /\ good R c0 n g' pc c'
    /\ zlen (m_store (c_memory c)) <= zlen (m_store (c_memory c'))
    /\ (size = 0 \/ offset + size <= zlen (m_store (c_memory c')))) RE c.
Proof.
  intros H Ho Hs. pose proof H as []. unfold expandMemory. cbv zeta.
  apply wp_if; intros E; b2p; [apply wp_ret; exists g; split; [lia|split; [done|split; [lia|auto]]]|].
  apply wp_if; intros E1; b2p; [by apply wp_fail|].
  apply wp_bind, wp_gets.
  assert (offset + size < 2 ^ 64) as Hno.
  { destruct (Z.lt_ge_cases (offset + size) (2 ^ 64)) as [|Hge]; [done|].
    unfold u64, wrapU in E1.
    rewrite <-(Z.mod_unique (offset + size) (2 ^ 64) 1 (offset + size - 2 ^ 64)) in E1; zblia. }
  rewrite (u64_id (offset + size)) in * by zblia.
  rewrite m_length_exact by done.
  apply wp_if; intros E2; b2p; [|apply wp_ret; exists g; split; [lia|split; [done|split; [lia|right; zblia]]]].
  rewrite getExpansionCostsAndSize_spec by (done || zblia).
  rewrite Z.geb_leb, (proj2 (Z.leb_gt _ _)) by lia. cbv zeta.
  set (words := (offset + size + 31) / 32).
  assert (offset + size <= 32 * words < offset + size + 32) as Hw by (unfold words; divlia).
  case_if; [by apply wp_fail|]. case_if; [by apply wp_fail|].
  apply wp_bind. eapply wp_mono; [by eapply wp_useGas|cbv beta; intros _ c' (H' & Hf & _)|done].
  apply wp_modify. destruct good_mem0 as (w & Hl & Hb & Hc).
  assert (zlen (m_store (c_memory c) ++ zeros (u64 (32 * words - zlen (m_store (c_memory c)))))
    = 32 * words) as Hz.
  { rewrite u64_id by (unfold maxMemoryExpansionSize in *; zblia).
    rewrite zlen_app, zlen_zeros; lia. }
  eexists. destruct H'. split; [|split; [|split; [cbn; lia|right; cbn; lia]]]; [|].
  { instantiate (1 := g - (words * words / 512 + 3 * words - m_currentMemoryCost (c_memory c))). lia. }
  destruct (memoryCost_exact words) as [_ ?]; [lia|].
  constructor; cbn; try done; [|rewrite i64_id; zblia].
  exists words. cbn. split; [done|]. split; [lia|]. rewrite i64_id; zblia.
Qed.

Lemma wp_getSlice n g pc offset size c : good R c0 n g pc c ->
  wp (getSlice offset size) (fun sl c' => exists g', 0 <= g' <= g /\ good R c0 n g' pc c'
    /\ slice_ok sl c'
    /\ sl_hi sl - sl_lo sl = uval size
    /\ zlen (m_store (c_memory c)) <= zlen (m_store (c_memory c'))) RE c.
Proof.
  intros H. unfold getSlice. rewrite IsZero_law.
  apply wp_if; intros E; b2p.
  { pose proof (good_max _ _ _ _ _ _ H). apply wp_ret. exists g.
    split_and!; [lia|lia|done| |cbn; lia|done].
    unfold slice_ok. cbn. pose proof (zlen_nonneg (m_store (c_memory c))). lia. }
  apply wp_if; intros E1; [by apply wp_fail, (good_RE _ _ _ _ H)|]. b2p.
  pose proof (Uint64_range offset). pose proof (Uint64_range size) as Hr.
  rewrite !Uint64_exact in * by done. apply wp_bind.
  eapply wp_mono; [by apply wp_expandMemory|cbv beta; intros _ c' (g' & Hg & H' & Hl & Hs)|done].
  destruct Hs as [|Hs]; [done|].
  unfold memory_slice. apply wp_bind, wp_gets.
  pose proof (good_mem _ _ _ _ _ _ H') as (w & Hw & Hb & _). unfold maxMemoryExpansionSize in *.
  rewrite u64_id by zblia.
  rewrite (proj2 (Z.leb_le 0 _)), (proj2 (Z.leb_le (uval offset) _)), (proj2 (Z.leb_le _ _)) by zblia.
  apply wp_ret. exists g'. unfold slice_ok. cbn. split_and!; try done; zblia.
Qed.

Lemma wp_slice_read n g pc sl c : good R c0 n g pc c -> slice_ok sl c ->
  wp (slice_read sl) (fun d c' => good R c0 n g pc c' /\ c' = c
    /\ zlen d = sl_hi sl - sl_lo sl) RE c.
Proof.
  intros H [Hs1 Hs2]. apply wp_gets. split_and!; [done|done|]. by apply zlen_slice.
Qed.

Lemma wp_slice_write n g pc sl d c : good R c0 n g pc c -> slice_ok sl c ->
  wp (slice_write sl d) (fun _ c' => good R c0 n g pc c' /\ mcost c' = mcost c) RE c.
Proof.
  intros [] [Hs1 Hs2]. apply wp_modify. split; [|done]. constructor; cbn; try done.
  destruct good_mem0 as (w & Hl & Hb & Hc). exists w. cbn.
  by rewrite zlen_copy_at by lia.
Qed.

Lemma wp_mem_set n g pc offset value c : good R c0 n g pc c ->
  wp (mem_set offset value) (fun _ c' => exists g', 0 <= g' <= g /\ good R c0 n g' pc c') RE c.
Proof.
  intros H. unfold mem_set. apply wp_bind.
  eapply wp_mono; [by eapply wp_getSlice|cbv beta; intros sl c' (g' & Hg & H' & Hs & _)|done].
  eapply wp_mono; [by eapply wp_slice_write|cbv beta; intros _ c2 [H2 _]; eauto|done].
Qed.

Lemma wp_readWord n g pc offset c : good R c0 n g pc c ->
  wp (readWord offset) (fun _ c' => exists g', 0 <= g' <= g /\ good R c0 n g' pc c') RE c.
Proof.
  intros H. unfold readWord. apply wp_bind.
  eapply wp_mono; [by eapply wp_getSlice|cbv beta; intros sl c' (g' & Hg & H' & Hs & _)|done].
  apply wp_bind. eapply wp_mono; [by eapply wp_slice_read|cbv beta; intros d c'' (H'' & _ & _)|done].
  apply wp_ret. eauto.
Qed.

End Specs.
