(* ===== verification/RefWorld.v ===== *)
(** * A reference world

    An in-memory implementation of the interfaces [WorldState],
    [TransactionContext] and [RunContext] of [go/tosca], with snapshots. The
    real implementations are outside the repository; this one shows that what
    the theorems assume of them can hold, and is the environment of the
    concrete runs in this development. *)
From Stdlib Require Import ZArith Lia Strings.Byte.
From stdpp Require Import base list numbers gmap.
From S2P Require Import Prelude Uint256 Types OpCodes SfvmStack SfvmAnalysis SfvmHashCache.
From S2P Require Import SfvmContext SfvmLogic.
From stdpp Require Import list.
Set Default Goal Selector "!".
Local Open Scope Z_scope.

(** What a snapshot records. *)
Record core := mkCore {
  k_balance : gmap Address Value;
  k_nonce : gmap Address Z;
  k_code : gmap Address Code;
  k_original : gmap (Address * Key) Word;
  k_storage : gmap (Address * Key) Word;
  k_transient : gmap (Address * Key) Word;
  k_accounts : gset Address;
  k_slots : gset (Address * Key);
  k_destructed : gset Address;
  k_logs : list Log
}.

Definition emptyCore : core := mkCore ∅ ∅ ∅ ∅ ∅ ∅ ∅ ∅ ∅ [].

Record world := mkWorld { w_core : core; w_snapshots : list core; w_sha3 : sha3HashCache }.

Definition with_core (f : core -> core) (w : world) : world :=
  mkWorld (f (w_core w)) (w_snapshots w) (w_sha3 w).

Definition setBalance (a : Address) (v : Value) (k : core) : core :=
  mkCore (<[a := v]> (k_balance k)) (k_nonce k) (k_code k) (k_original k) (k_storage k)
    (k_transient k) (k_accounts k) (k_slots k) (k_destructed k) (k_logs k).

Definition setNonce (a : Address) (n : Z) (k : core) : core :=
  mkCore (k_balance k) (<[a := n]> (k_nonce k)) (k_code k) (k_original k) (k_storage k)
    (k_transient k) (k_accounts k) (k_slots k) (k_destructed k) (k_logs k).

Definition setCode (a : Address) (c : Code) (k : core) : core :=
  mkCore (k_balance k) (k_nonce k) (<[a := c]> (k_code k)) (k_original k) (k_storage k)
    (k_transient k) (k_accounts k) (k_slots k) (k_destructed k) (k_logs k).

Definition setStorage (a : Address) (key : Key) (v : Word) (k : core) : core :=
  mkCore (k_balance k) (k_nonce k) (k_code k) (k_original k) (<[(a, key) := v]> (k_storage k))
    (k_transient k) (k_accounts k) (k_slots k) (k_destructed k) (k_logs k).

Definition setTransient (a : Address) (key : Key) (v : Word) (k : core) : core :=
  mkCore (k_balance k) (k_nonce k) (k_code k) (k_original k) (k_storage k)
    (<[(a, key) := v]> (k_transient k)) (k_accounts k) (k_slots k) (k_destructed k) (k_logs k).

Definition addAccount (a : Address) (k : core) : core :=
  mkCore (k_balance k) (k_nonce k) (k_code k) (k_original k) (k_storage k)
    (k_transient k) ({[a]} ∪ k_accounts k) (k_slots k) (k_destructed k) (k_logs k).

Definition addSlot (a : Address) (key : Key) (k : core) : core :=
  mkCore (k_balance k) (k_nonce k) (k_code k) (k_original k) (k_storage k)
    (k_transient k) (k_accounts k) ({[(a, key)]} ∪ k_slots k) (k_destructed k) (k_logs k).

Definition addDestructed (a : Address) (k : core) : core :=
  mkCore (k_balance k) (k_nonce k) (k_code k) (k_original k) (k_storage k)
    (k_transient k) (k_accounts k) (k_slots k) ({[a]} ∪ k_destructed k) (k_logs k).

Definition addLog (l : Log) (k : core) : core :=
  mkCore (k_balance k) (k_nonce k) (k_code k) (k_original k) (k_storage k)
    (k_transient k) (k_accounts k) (k_slots k) (k_destructed k) (k_logs k ++ [l]).

Definition getWord (m : gmap (Address * Key) Word) (a : Address) (key : Key) : Word :=
  default zeroWord (m !! (a, key)).

(** A stand-in for the hash function: any function of the data serves. *)
Definition refHash (data : list byte) : Hash := to_array 32 data.
Definition refHash32 (a : array 32) : Hash := refHash (arr_bytes a).

#[global] Instance refWorldState : WorldState world := {|
  ws_AccountExists w a := bool_decide (is_Some (k_balance (w_core w) !! a));
  ws_CreateContract w a := with_core (setNonce a 1) w;
  ws_GetBalance w a := default zeroWord (k_balance (w_core w) !! a);
  ws_SetBalance w a v := with_core (setBalance a v) w;
  ws_GetNonce w a := default 0 (k_nonce (w_core w) !! a);
  ws_SetNonce w a n := with_core (setNonce a n) w;
  ws_GetCode w a := default [] (k_code (w_core w) !! a);
  ws_GetCodeHash w a := refHash (default [] (k_code (w_core w) !! a));
  ws_GetCodeSize w a := zlen (default [] (k_code (w_core w) !! a));
  ws_SetCode w a c := with_core (setCode a c) w;
  ws_HasEmptyStorage w a := true;
  ws_GetStorage w a key := getWord (k_storage (w_core w)) a key;
  ws_SetStorage w a key v :=
    (with_core (setStorage a key v) w,
     GetStorageStatus (getWord (k_original (w_core w)) a key) (getWord (k_storage (w_core w)) a key) v);
  ws_SelfDestruct w a b :=
    (with_core (addDestructed a) w, negb (bool_decide (a ∈ k_destructed (w_core w))))
|}.

#[global] Instance refTransactionContext : TransactionContext world := {|
  tc_CreateSnapshot w :=
    (mkWorld (w_core w) (w_snapshots w ++ [w_core w]) (w_sha3 w), zlen (w_snapshots w));
  tc_RestoreSnapshot w id :=
    match w_snapshots w !! Z.to_nat id with
    | Some k => mkWorld k (take (Z.to_nat id) (w_snapshots w)) (w_sha3 w)
    | None => w
    end;
  tc_GetTransientStorage w a key := getWord (k_transient (w_core w)) a key;
  tc_SetTransientStorage w a key v := with_core (setTransient a key v) w;
  tc_AccessAccount w a :=
    (with_core (addAccount a) w,
     if bool_decide (a ∈ k_accounts (w_core w)) then WarmAccess else ColdAccess);
  tc_AccessStorage w a key :=
    (with_core (addSlot a key) w,
     if bool_decide ((a, key) ∈ k_slots (w_core w)) then WarmAccess else ColdAccess);
  tc_EmitLog w l := with_core (addLog l) w;
  tc_GetLogs w := k_logs (w_core w);
  tc_GetBlockHash w n := refHash (be_bytes 8 n)
|}.

(** Calls to accounts without code: they succeed and use no gas. *)
Definition refRunContext : RunContext world := {|
  rc_Call w kind p := (w, (mkCallResult [] (cp_Gas p) 0 zeroAddress true, None))
|}.

#[global] Instance refGlobals : Globals world := {|
  g_sha3Cache := w_sha3;
  g_setSha3Cache w c := mkWorld (w_core w) (w_snapshots w) c
|}.

(** The hash cache is well formed, and code is shorter than [2^63] bytes. *)
Definition codes_fit (w : world) : Prop :=
  forall a, zlen (default [] (k_code (w_core w) !! a)) < 2 ^ 63.

Definition refOk (w : world) : Prop := sha3_wf refHash refHash32 (w_sha3 w) /\ codes_fit w.

Lemma refHostFrame static maxGas (P : core -> Prop) :
  (forall k a, P k -> P (addAccount a k)) -> (forall k a key, P k -> P (addSlot a key k)) ->
  (static = false -> (forall k a key v, P k -> P (setStorage a key v k))
    /\ (forall k a key v, P k -> P (setTransient a key v k))
    /\ (forall k l, P k -> P (addLog l k)) /\ (forall k a, P k -> P (addDestructed a k))) ->
  @HostFrame world refRunContext _ refHash refHash32 static maxGas (fun w => refOk w /\ P (w_core w)).
Proof.
  intros Ha Hs Hd. constructor; cbn; unfold refOk, codes_fit; intros; cbn;
    repeat match goal with H : _ /\ _ |- _ => destruct H end; auto;
    try (destruct Hd as (?&?&?&?); [done|]; auto); [split; [auto|lia]|].
  destruct (sha3_hash_some refHash refHash32 (w_sha3 w) data) as (c & Hc & Hw); [done|].
  eexists _, _. split; [exact Hc|]. auto.
Qed.

(** A world with accounts, and a new hash cache. *)
Definition newWorld (k : core) : world :=
  match newSha3HashCache refHash refHash32 2 2 with
  | Some c => mkWorld k [] c
  | None => mkWorld k [] (mkSha3HashCache (mkHashCache [] ∅ None None 0) (mkHashCache [] ∅ None None 0))
  end.

Lemma newWorld_ok k : (forall a, zlen (default [] (k_code k !! a)) < 2 ^ 63) -> refOk (newWorld k).
Proof.
  intros Hk. unfold newWorld.
  destruct (newSha3HashCache_ok refHash refHash32 2 2) as (c & Hc & Hw).
  rewrite Hc. split; [done|]. exact Hk.
Qed.

(** ** A reference cache *)

(** An association list that is never full. *)
Definition assocList (V : Type) := list (Hash * V).

Definition assocCache := assocList jumpDestMap.

Fixpoint assoc_get {V} (c : assocList V) (k : Hash) : option V :=
  match c with
  | [] => None
  | (k', v) :: c => if arr_eqb k k' then Some v else assoc_get c k
  end.

#[global] Instance refLRU {V} : LRU V (assocList V) := {|
  lru_New n := if 0 <? n then Some [] else None;
  lru_Get c k := (c, assoc_get c k);
  lru_Add c k v := (k, v) :: c
|}.

Lemma assoc_get_in {V} (c : assocList V) k v : assoc_get c k = Some v -> (k, v) ∈ c.
Proof.
  induction c as [|[k' v'] c IH]; cbn; [done|]. case_if.
  - apply arr_eqb_eq in E as ->. intros [= ->]. constructor.
  - intros Hg. constructor. auto.
Qed.

#[global] Instance refLRULaws {V} : LRULaws (refLRU (V := V)).
Proof.
  refine {| lru_holds c k v := (k, v) ∈ c |}; cbn.
  - intros n Hn. by rewrite (proj2 (Z.ltb_lt 0 n)).
  - intros n c k v. case_if; [|done]. intros [= <-]. apply not_elem_of_nil.
  - intros c k c' v [= <- Hv]. by apply assoc_get_in.
  - done.
  - intros c k v k' v' Hin. apply elem_of_cons in Hin as [[= -> ->]|Hin]; auto.
Qed.
