(* ===== verification/SfvmSafety.v ===== *)
(** * Safety of the instructions

    Every instruction, run within its stack limits, does not panic, keeps the
    invariant [good], does not increase the gas, consumes dynamic gas when
    its static price is zero, and in static mode changes the world only by
    accesses and non-transferring calls. *)
From Stdlib Require Import ZArith Lia Strings.Byte.
From stdpp Require Import base list numbers.
From S2P Require Import Prelude Uint256 Types OpCodes SfvmStack SfvmAnalysis SfvmHashCache.
From S2P Require Import SfvmContext SfvmMemory SfvmGas SfvmInstructions SfvmInterpreter SfvmLogic.
Set Default Goal Selector "!".
Local Open Scope Z_scope.
Local Open Scope go_scope.

(** Slices of the memory remain valid when the memory does not shrink. *)
Ltac carry_slices c c' :=
  repeat match goal with
  | Hs : slice_ok ?sl c |- _ =>
      apply (slice_ok_mono sl c c') in Hs;
      [|first [assumption | lazymatch goal with Hm : c_memory c' = c_memory c |- _ =>
                              rewrite Hm; reflexivity end]]
  end.

(** One step of symbolic execution. The hypothesis [good] of the current
    context is replaced by that of the next one. *)
Ltac wp_step :=
  lazymatch goal with
  | |- wp (mbind _ _) _ _ _ => apply wp_bind
  | |- wp (mret _) _ _ _ => apply wp_ret
  | |- wp (gets _) _ _ _ => apply wp_gets
  | |- wp (host_read _) _ _ _ => apply wp_gets
  | H : good _ _ _ _ _ ?c |- wp (fail _) _ _ ?c => apply wp_fail, (good_RE _ _ _ _ _ _ H)
  | H : good _ _ _ _ _ ?c |- wp (fail_if _ _) _ _ ?c =>
      apply wp_fail_if; intros; [exact (good_RE _ _ _ _ _ _ H)|]
  | |- wp (if _ then _ else _) _ _ _ => apply wp_if; intros
  | |- wp (when _ _) _ _ _ => apply wp_when; intros
  | |- wp (let _ := _ in _) _ _ _ => cbv zeta
  | H : good _ _ _ _ _ ?c |- wp pop _ _ ?c =>
      eapply wp_mono; [eapply wp_pop; [exact H|lia] | cbv beta; clear H; intros ? ? H | done]
  | H : good _ _ _ _ _ ?c |- wp peek _ _ ?c =>
      eapply wp_mono; [eapply wp_peek; [exact H|lia] | cbv beta; clear H; intros ? ? H | done]
  | H : good _ _ _ _ _ ?c |- wp (setTop _) _ _ ?c =>
      eapply wp_mono; [eapply wp_setTop; [exact H|lia] | cbv beta; clear H; intros ? ? [H ?] | done]
  | H : good _ _ _ _ _ ?c |- wp (pushValue _) _ _ ?c =>
      eapply wp_mono; [eapply wp_pushValue; [exact H|lia] | cbv beta; clear H; intros ? ? [H ?] | done]
  | H : good _ _ _ _ _ ?c |- wp pushUndefined _ _ ?c =>
      eapply wp_mono; [eapply wp_pushUndefined; [exact H|lia] | cbv beta; clear H; intros ? ? [H ?] | done]
  | H : good _ _ _ _ _ ?c |- wp (push _) _ _ ?c =>
      eapply wp_mono; [eapply wp_push; [exact H|lia] | cbv beta; clear H; intros ? ? H | done]
  | H : good _ _ _ _ _ ?c |- wp (useGas _) _ _ ?c =>
      let HM := fresh "HM" in
      pose proof (good_max _ _ _ _ _ _ H) as HM;
      eapply wp_mono; [eapply wp_useGas; exact H
                      | cbv beta; clear H; let c1 := fresh "c'" in intros ? c1 (H & ? & ?); carry_slices c c1 | done]
  | H : good _ _ _ _ _ ?c |- wp (mem_set _ _) _ _ ?c =>
      eapply wp_mono; [eapply wp_mem_set; exact H
                      | cbv beta; clear H; intros ? ? (? & ? & H) | done]
  | H : good _ _ _ _ _ ?c |- wp (readWord _) _ _ ?c =>
      eapply wp_mono; [eapply wp_readWord; exact H
                      | cbv beta; clear H; intros ? ? (? & ? & H) | done]
  | H : good _ _ _ _ _ ?c |- wp (getSlice _ _) _ _ ?c =>
      eapply wp_mono; [eapply wp_getSlice; exact H
                      | cbv beta; clear H; let c1 := fresh "c'" in intros ? c1 (? & ? & H & ? & ? & ?); carry_slices c c1 | done]
  | H : good _ _ _ _ _ ?c |- wp (slice_read _) _ _ ?c =>
      eapply wp_mono; [eapply wp_slice_read; [exact H|eassumption]
                      | cbv beta; clear H; intros ? ? (H & -> & ?) | done]
  | H : good _ _ _ _ _ ?c |- wp (slice_write _ _) _ _ ?c =>
      eapply wp_mono; [eapply wp_slice_write; [exact H|eassumption]
                      | cbv beta; clear H; intros ? ? [H ?] | done]
  end.

Ltac wps := repeat wp_step.

Section Host.
Context {W : Type} {U : Uint256} {UL : Uint256Laws U} {RC : RunContext W} {G : Globals W}.
Context (Keccak256 : list byte -> Hash) (Keccak256For32byte : array 32 -> Hash).
Context (R : W -> Prop) (c0 : context W).
Context (maxGas : Gas).
Context {HF : HostFrame Keccak256 Keccak256For32byte (p_Static (c_params c0)) maxGas R}.
Implicit Types (c : context W).

Abbreviation RE := (failed R).
Abbreviation mcost c := (m_currentMemoryCost (c_memory c)).

Lemma wp_host {A} n g pc (f : W -> W * A) c : good R c0 n g pc c ->
  R (fst (f (c_context c))) ->
  wp (host f) (fun a c' => good R c0 n g pc c' /\ a = snd (f (c_context c))
                           /\ c_gas c' = c_gas c /\ c_memory c' = c_memory c) RE c.
Proof.
  intros [] Hr. unfold host. apply wp_bind, wp_gets.
  destruct (f (c_context c)) as [w a]. cbn in *. split_and!; [by constructor|done..].
Qed.

Lemma wp_host_ n g pc (f : W -> W) c : good R c0 n g pc c -> R (f (c_context c)) ->
  wp (host_ f) (fun _ => good R c0 n g pc) RE c.
Proof. intros [] Hr. unfold host_. apply wp_bind, wp_gets, wp_modify. by constructor. Qed.

Lemma wp_addRefund n g pc r c : good R c0 n g pc c ->
  wp (addRefund r) (fun _ => good R c0 n g pc) RE c.
Proof. intros []. unfold addRefund. apply wp_bind, wp_gets, wp_modify. by constructor. Qed.

Lemma wp_set_returnData n g pc d c : good R c0 n g pc c ->
  wp (modify (set_returnData d)) (fun _ c' => good R c0 n g pc c' /\ mcost c' = mcost c) RE c.
Proof. intros []. apply wp_modify. split; [by constructor|done]. Qed.

(** The change of the gas level when gas is handed out or returned. *)
Lemma wp_addGas n g pc d c : good R c0 n g pc c -> 0 <= g + d <= MaxInt64 ->
  mcost c + (g + d) <= c_gas c0 ->
  wp (addGas d) (fun _ c' => good R c0 n (g + d) pc c' /\ c_memory c' = c_memory c) RE c.
Proof.
  intros [] Hd Hp. unfold addGas. apply wp_bind, wp_gets, wp_modify. unfold MaxInt64 in *. subst g.
  rewrite i64_id by zblia. split; [constructor|]; cbn; (done || lia).
Qed.

Definition isBerlin : bool := isAtLeast R09_Berlin c0.

Lemma good_isAtLeast n g pc c r : good R c0 n g pc c -> isAtLeast r c = isAtLeast r c0.
Proof. intros H. unfold isAtLeast, revision. by rewrite (good_params _ _ _ _ _ _ H). Qed.

Lemma getAccessCost_min a : 100 <= getAccessCost a.
Proof. destruct a; cbn; lia. Qed.

Lemma wp_chargeAccountAccess n g pc a c : good R c0 n g pc c ->
  wp (chargeAccountAccess a)
    (fun _ c' => exists g', 0 <= g' <= (if isBerlin then g - 100 else g)
                 /\ good R c0 n g' pc c' /\ c_memory c' = c_memory c) RE c.
Proof.
  intros H. pose proof (good_max _ _ _ _ _ _ H). unfold chargeAccountAccess, isBerlin.
  wp_step. wp_step. rewrite (good_isAtLeast _ _ _ _ _ H).
  wps; rename select (isAtLeast _ _ = _) into Eb; rewrite Eb; [|exists g; split; [lia|done]].
  eapply wp_mono; [eapply wp_host; [exact H|]|cbv beta; intros ac c' (H' & _ & _ & Hm)|done].
  { by apply hf_AccessAccount, (good_world _ _ _ _ _ _ H). }
  clear H. wps. pose proof (getAccessCost_min ac).
  eexists. split; [|split; [exact H'|congruence]]. lia.
Qed.

(** The instruction ends in a good context, with [n] elements on the stack
    and at most [g] gas. *)
Definition ends_in (n g pc : Z) (c : context W) : Prop :=
  exists g', 0 <= g' <= g /\ good R c0 n g' pc c.

Lemma ends_weaken n g n' g' pc c : ends_in n g pc c -> n = n' -> g <= g' -> ends_in n' g' pc c.
Proof. intros (g1 & Hg & H) -> Hle. exists g1. split; [lia|done]. Qed.

End Host.

(** Computations of the run context and the context's registers. *)
Ltac wp_more :=
  lazymatch goal with
  | H : good _ _ _ _ _ ?c |- wp (gets c_params) _ _ ?c =>
      apply wp_gets; rewrite (good_params _ _ _ _ _ _ H)
  | H : good _ _ _ _ _ ?c |- wp (gets (isAtLeast _)) _ _ ?c =>
      apply wp_gets; rewrite (good_isAtLeast _ _ _ _ _ _ _ H)
  | H : good _ _ _ _ _ ?c |- wp (chargeAccountAccess _) _ _ ?c =>
      let HM := fresh "HM" in pose proof (good_max _ _ _ _ _ _ H) as HM;
      eapply wp_mono; [eapply wp_chargeAccountAccess; [eassumption|exact H]
                      | cbv beta; clear H; let c1 := fresh "c'" in intros ? c1 (? & ? & H & ?); carry_slices c c1 | done]
  | H : good _ _ _ _ _ ?c |- wp (addRefund _) _ _ ?c =>
      eapply wp_mono; [eapply wp_addRefund; exact H | cbv beta; clear H; intros ? ? H | done]
  | H : good _ _ _ _ _ ?c |- wp (modify (set_returnData _)) _ _ ?c =>
      eapply wp_mono; [eapply wp_set_returnData; exact H | cbv beta; clear H; intros ? ? [H ?] | done]
  | H : good _ _ _ _ _ ?c |- wp (host _) _ _ ?c =>
      let HW := fresh "HW" in pose proof (good_world _ _ _ _ _ _ H) as HW;
      eapply wp_mono; [eapply wp_host; [exact H|]
                      | cbv beta; clear H; let c1 := fresh "c'" in intros ? c1 (H & ? & ? & ?); carry_slices c c1 | done];
      [cbv beta; first [eapply hf_AccessAccount | eapply hf_AccessStorage
                        | eapply hf_SetStorage | eapply hf_SelfDestruct]; eassumption|]
  | H : good _ _ _ _ _ ?c |- wp (host_ _) _ _ ?c =>
      let HW := fresh "HW" in pose proof (good_world _ _ _ _ _ _ H) as HW;
      eapply wp_mono; [eapply wp_host_; [exact H|] | cbv beta; clear H; intros ? ? H | done];
      [cbv beta; first [eapply hf_SetTransientStorage | eapply hf_EmitLog]; eassumption|]
  | _ => wp_step
  end.

Ltac wpm := repeat wp_more.

Ltac fin :=
  lazymatch goal with
  | H : good _ _ _ ?g _ ?c |- ends_in _ _ _ _ _ ?c =>
      let HM := fresh "HM" in pose proof (good_max _ _ _ _ _ _ H) as HM;
      eapply (ends_weaken _ _ _ g); [exists g; split; [lia|exact H]|lia|repeat case_match; lia]
  end.

Section Safety.
Context {W : Type} {U : Uint256} {UL : Uint256Laws U} {RC : RunContext W} {G : Globals W}.
Context (Keccak256 : list byte -> Hash) (Keccak256For32byte : array 32 -> Hash).
Context (R : W -> Prop) (c0 : context W).
Context (maxGas : Gas).
Context {HF : HostFrame Keccak256 Keccak256For32byte (p_Static (c_params c0)) maxGas R}.
Implicit Types (c : context W).

Abbreviation RE := (failed R).
Abbreviation mcost c := (m_currentMemoryCost (c_memory c)).
Abbreviation ends := (ends_in R c0).
Abbreviation berlin := (isBerlin c0).

Section Ops.
Context (n g pc : Z) (c : context W) (H : good R c0 n g pc c).

Lemma sstore_costs_min rev st : 100 <= getDynamicCostsForSstore rev st <= 20000.
Proof. destruct st; cbn; repeat case_match; lia. Qed.

Lemma safe_opSstore : 2 <= n -> wp opSstore (fun _ => ends (n - 2) (g - 100) pc) RE c.
Proof.
  intros Hn. unfold opSstore. wpm.
  - pose proof (sstore_costs_min (revision c'2) a2).
    rewrite i64_id in * by (unfold isI64; case_match; lia). fin.
  - pose proof (sstore_costs_min (revision c'1) a1).
    rewrite i64_id in * by (unfold isI64; lia). fin.
Qed.

Lemma safe_opSload : 1 <= n ->
  wp opSload (fun _ => ends n (if berlin then g - 100 else g) pc) RE c.
Proof.
  intros Hn. unfold opSload, isBerlin.
  wpm; rename select (isAtLeast _ _ = _) into Eb; rewrite Eb; fin.
Qed.

Lemma safe_opTstore : 2 <= n -> wp opTstore (fun _ => ends (n - 2) g pc) RE c.
Proof. intros Hn. unfold opTstore. wpm. fin. Qed.

Lemma safe_opTload : 1 <= n -> wp opTload (fun _ => ends n g pc) RE c.
Proof. intros Hn. unfold opTload. wpm. fin. Qed.

Lemma getData_some data offset size : zlen data < 2 ^ 63 -> 0 <= size < 2 ^ 63 ->
  is_Some (getData data offset size).
Proof.
  intros Hd Hs. unfold getData. pose proof (Uint64_range offset).
  pose proof (zlen_nonneg data). rewrite (u64_id (zlen data)) by zblia.
  case_if; [done|]. case_if; [done|]. cbv zeta. rewrite u64_id by zblia.
  repeat case_if; (done || zblia).
Qed.

Lemma safe_opCallDataload : 1 <= n -> zlen (p_Input (c_params c0)) < 2 ^ 63 ->
  wp opCallDataload (fun _ => ends n g pc) RE c.
Proof.
  intros Hn Hi. unfold opCallDataload. wpm.
  destruct (getData_some (p_Input (c_params c0)) a 32) as [d Hd]; [done|lia|].
  eapply wp_lift_option; [exact Hd|]. wpm. fin.
Qed.

Lemma safe_genericDataCopy source : 3 <= n -> zlen source < 2 ^ 63 ->
  wp (genericDataCopy source) (fun _ => ends (n - 3) g pc) RE c.
Proof.
  intros Hn Hs. unfold genericDataCopy. wpm.
  pose proof (good_mem _ _ _ _ _ _ H) as (w & Hw & Hb & _).
  match goal with Hok : slice_ok _ _ |- _ => pose proof Hok as [? ?] end.
  unfold maxMemoryExpansionSize in *. pose proof (uval_range a1).
  destruct (getData_some source a0 (Int_Uint64 a1)) as [d Hd]; [done| |].
  { rewrite Uint64_law. rewrite Z.mod_small; lia. }
  eapply wp_lift_option; [exact Hd|]. wpm. fin.
Qed.

Lemma safe_opMcopy : 3 <= n -> wp opMcopy (fun _ => ends (n - 3) g pc) RE c.
Proof. intros Hn. unfold opMcopy. wpm. fin. Qed.

Lemma safe_opReturnDataCopy : 3 <= n -> wp opReturnDataCopy (fun _ => ends (n - 3) g pc) RE c.
Proof. intros Hn. unfold opReturnDataCopy. wpm. fin. Qed.

Lemma safe_opBlobHash : 1 <= n -> wp opBlobHash (fun _ => ends n g pc) RE c.
Proof.
  intros Hn. pose proof (good_bounds _ _ _ _ _ _ H). unfold opBlobHash. wpm; [|fin].
  b2p. rename select (Int_Uint64 a < _) into Hl.
  assert (Int_Uint64 a < zlen (tp_BlobHashes (p_Tx (c_params c0)))) as Hl'.
  { unfold u64, wrapU in Hl. pose proof (Z.mod_le (zlen (tp_BlobHashes (p_Tx (c_params c0)))) (2 ^ 64)).
    zblia. }
  pose proof (Uint64_range a).
  destruct (lookup_lt_is_Some_2 (tp_BlobHashes (p_Tx (c_params c0))) (Z.to_nat (Int_Uint64 a)))
    as [h Hh]; [zblia|].
  eapply wp_lift_option; [exact Hh|]. wpm. fin.
Qed.

Lemma wp_sha3Cache_hash data :
  wp (sha3Cache_hash Keccak256 Keccak256For32byte data) (fun _ => good R c0 n g pc) RE c.
Proof.
  unfold sha3Cache_hash. wpm.
  destruct (hf_sha3Cache _ data (good_world _ _ _ _ _ _ H)) as (cache & h & Hc & Hr).
  eapply wp_lift_option; [exact Hc|]. cbv beta iota. apply wp_bind.
  eapply wp_mono; [eapply wp_host_; [exact H|exact Hr]|cbv beta; intros _ c' H'|done].
  by apply wp_ret.
Qed.

End Ops.

Section Ops2.
Context (n g pc : Z) (c : context W) (H : good R c0 n g pc c).

Lemma safe_opSha3 : 2 <= n ->
  wp (opSha3 Keccak256 Keccak256For32byte) (fun _ => ends (n - 1) g pc) RE c.
Proof.
  intros Hn. unfold opSha3. wpm; [|fin].
  eapply wp_mono; [by eapply wp_sha3Cache_hash|cbv beta; intros h c9 H'|done].
  clear H. wpm. fin.
Qed.

Lemma wp_pop_topics k n' c' : good R c0 n' g pc c' -> Z.of_nat k <= n' ->
  wp (pop_topics k) (fun _ => good R c0 (n' - Z.of_nat k) g pc) RE c'.
Proof.
  clear H. revert n' c'. induction k as [|k IH]; intros n' c' H Hk; cbn [pop_topics].
  - apply wp_ret. by rewrite Z.sub_0_r.
  - wpm. eapply wp_mono; [apply IH; [exact H|lia]|cbv beta; intros ts c'' H'|done].
    apply wp_ret. by replace (n' - Z.of_nat (S k)) with (n' - 1 - Z.of_nat k) by lia.
Qed.

Lemma safe_opLog k : 2 + Z.of_nat k <= n -> wp (opLog k) (fun _ => ends (n - 2 - Z.of_nat k) g pc) RE c.
Proof.
  intros Hn. unfold opLog. wpm.
  eapply wp_mono; [eapply wp_pop_topics; [exact H|lia]|cbv beta; intros ts c'' H'|done].
  clear H. wpm. fin.
Qed.

Lemma safe_opSelfdestruct : 1 <= n ->
  wp opSelfdestruct (fun st c' => st = statusSelfDestructed /\ ends (n - 1) g pc c') RE c.
Proof. intros Hn. unfold opSelfdestruct. wpm; (split; [done|fin]). Qed.

Lemma safe_opEndWithResult : 2 <= n -> wp opEndWithResult (fun _ => ends (n - 2) g pc) RE c.
Proof.
  intros Hn. unfold opEndWithResult. wpm. apply wp_on_error.
  eapply wp_mono; [eapply wp_getSlice; exact H
                  |cbv beta; clear H; intros sl c'' (g' & ? & H & ? & ? & ?)|done].
  wpm. fin.
Qed.

Lemma safe_opExtCodeCopy : 4 <= n ->
  wp opExtCodeCopy (fun _ => ends (n - 4) (if berlin then g - 100 else g) pc) RE c.
Proof.
  intros Hn. unfold opExtCodeCopy. wpm.
  pose proof (hf_GetCode (c_context c'0) (Int_Bytes20 a) (good_world _ _ _ _ _ _ H)).
  eapply wp_mono; [eapply safe_genericDataCopy; [exact H|lia|done]
                  |cbv beta; intros _ c2 Hend|done].
  eapply ends_weaken; [exact Hend|lia|lia].
Qed.

Lemma safe_opExtcodehash : 1 <= n ->
  wp opExtcodehash (fun _ => ends n (if berlin then g - 100 else g) pc) RE c.
Proof. intros Hn. unfold opExtcodehash. wpm; fin. Qed.

Lemma safe_opExtcodesize : 1 <= n ->
  wp opExtcodesize (fun _ => ends n (if berlin then g - 100 else g) pc) RE c.
Proof. intros Hn. unfold opExtcodesize. wpm; fin. Qed.

Lemma safe_opBalance : 1 <= n ->
  wp opBalance (fun _ => ends n (if berlin then g - 100 else g) pc) RE c.
Proof. intros Hn. unfold opBalance. wpm; fin. Qed.

(** ** Program counter *)

Lemma good_set_pc n' g' pc' pc'' c' : good R c0 n' g' pc' c' ->
  good R c0 n' g' pc'' (set_pc pc'' c').
Proof. intros []. by constructor. Qed.

Lemma checkJumpDest_ok n' g' pc' c' : good R c0 n' g' pc' c' -> - 1 <= pc' < MaxInt32 ->
  wp checkJumpDest (fun _ c'' => good R c0 n' g' pc' c'' /\ pc' + 1 < zlen (c_code c0)) RE c'.
Proof.
  intros H' Hp. unfold checkJumpDest. wpm. unfold id, MaxInt32 in *.
  rename select (_ = false) into Hc. rewrite (good_code _ _ _ _ _ _ H') in Hc.
  rewrite (good_pc _ _ _ _ _ _ H'), i32_id in Hc by lia. b2p. split; [done|]. lia.
Qed.

(** A taken jump ends one before a position of the code. *)
Lemma jump_ok n' dest c' : 0 <= g -> good R c0 n' g pc c' ->
  Int_IsUint64 dest = true -> Int_Uint64 dest <= MaxInt32 ->
  wp (modify (set_pc (i32 (Int_Uint64 dest) -i32 1));; checkJumpDest)
     (fun _ c'' => exists pc', ends n' g pc' c'' /\ - 1 <= pc' < zlen (c_code c0)) RE c'.
Proof.
  intros Hg0 H' Hd Hm. pose proof (Uint64_range dest). unfold MaxInt32, isU64 in *.
  rewrite (i32_id (Int_Uint64 dest)), i32_id by lia. apply wp_bind, wp_modify.
  eapply wp_mono; [eapply checkJumpDest_ok; [by apply good_set_pc with pc|unfold MaxInt32; lia]
                  |cbv beta; intros _ c'' [H'' Hl]|done].
  exists (Int_Uint64 dest - 1). split; [by exists g|lia].
Qed.

Lemma safe_opJump : 1 <= n ->
  wp opJump (fun _ c' => exists pc', ends (n - 1) g pc' c' /\ - 1 <= pc' < zlen (c_code c0)) RE c.
Proof.
  intros Hn. unfold opJump. wp_more. wp_more. wp_more; [wpm|]. b2p. pose proof (good_max _ _ _ _ _ _ H). by eapply jump_ok; [lia|..].
Qed.

Lemma safe_opJumpi : 2 <= n -> 0 <= pc < zlen (c_code c0) ->
  wp opJumpi (fun _ c' => exists pc', ends (n - 2) g pc' c' /\ - 1 <= pc' < zlen (c_code c0)) RE c.
Proof.
  intros Hn Hp. unfold opJumpi. replace (n - 2) with (n - 1 - 1) by lia. do 4 wp_more. wp_more.
  - wp_more; [wpm|]. b2p. pose proof (good_max _ _ _ _ _ _ H). by eapply jump_ok; [lia|..].
  - apply wp_ret. exists pc. split; [fin|lia].
Qed.

(** Code that is small enough for a 32-bit program counter. *)
Definition code_fits : Prop := zlen (c_code c0) <= 2 ^ 31 - 64.

Lemma safe_opPush k : code_fits -> 0 <= pc < zlen (c_code c0) -> n < 1024 -> 0 <= k <= 32 ->
  wp (opPush k) (fun _ => ends (n + 1) g (pc + k)) RE c.
Proof.
  intros Hc Hp Hn Hk. pose proof (good_bounds _ _ _ _ _ _ H). unfold code_fits in Hc.
  unfold opPush. wp_more. wp_more. cbv zeta. unfold id.
  rewrite (good_code _ _ _ _ _ _ H), (good_pc _ _ _ _ _ _ H), (i32_id (pc + 1)) by lia.
  wp_more. wp_more; [b2p; lia|]. wpm.
  - apply wp_modify. rewrite (good_pc _ _ _ _ _ _ H), i32_id by lia.
    apply (good_set_pc _ _ _ (pc + k)) in H. fin.
  - apply wp_modify. rewrite (good_pc _ _ _ _ _ _ H), i32_id by lia.
    apply (good_set_pc _ _ _ (pc + k)) in H. fin.
Qed.

Lemma wp_code_at i c' (Q : byte -> context W -> Prop) E : 0 <= i < zlen (c_code c') ->
  (forall b, Q b c') -> wp (code_at i) Q E c'.
Proof.
  intros Hi HQ. unfold code_at. apply wp_bind, wp_gets. unfold id.
  apply wp_if; intros; b2p; [lia|].
  destruct (lookup_lt_is_Some_2 (c_code c') (Z.to_nat i)) as [b Hb]; [zblia|].
  by eapply wp_lift_option.
Qed.

Lemma safe_opPush1 : code_fits -> 0 <= pc < zlen (c_code c0) -> n < 1024 ->
  wp opPush1 (fun _ => ends (n + 1) g (pc + 1)) RE c.
Proof.
  intros Hc Hp Hn. pose proof (good_bounds _ _ _ _ _ _ H). unfold code_fits in Hc.
  unfold opPush1. do 4 wp_more. unfold id.
  rewrite (good_code _ _ _ _ _ _ H), (good_pc _ _ _ _ _ _ H), !(i32_id (pc + 1)) by lia.
  wp_more. wp_more; b2p.
  - wpm. apply wp_modify. apply (good_set_pc _ _ _ (pc + 1)) in H. fin.
  - wp_more. apply wp_code_at; [rewrite (good_code _ _ _ _ _ _ H); lia|intros b].
    wpm. apply wp_modify. apply (good_set_pc _ _ _ (pc + 1)) in H. fin.
Qed.

Lemma safe_opPush2 : code_fits -> 0 <= pc < zlen (c_code c0) -> n < 1024 ->
  wp opPush2 (fun _ => ends (n + 1) g (pc + 2)) RE c.
Proof.
  intros Hc Hp Hn. pose proof (good_bounds _ _ _ _ _ _ H). unfold code_fits in Hc.
  unfold opPush2. do 4 wp_more. unfold id.
  rewrite (good_code _ _ _ _ _ _ H), (good_pc _ _ _ _ _ _ H), !(i32_id (pc + 1)),
    !(i32_id (pc + 2)) by lia.
  wp_more. wp_more; b2p; [|wp_more; b2p].
  - wpm. apply wp_modify. apply (good_set_pc _ _ _ (pc + 2)) in H. fin.
  - wp_more. apply wp_code_at; [rewrite (good_code _ _ _ _ _ _ H); lia|intros b].
    wpm. apply wp_modify. apply (good_set_pc _ _ _ (pc + 2)) in H. fin.
  - wp_more. apply wp_code_at; [rewrite (good_code _ _ _ _ _ _ H); lia|intros b].
    wp_more. apply wp_code_at; [rewrite (good_code _ _ _ _ _ _ H); lia|intros b2].
    wpm. apply wp_modify. apply (good_set_pc _ _ _ (pc + 2)) in H. fin.
Qed.

(** ** Calls *)

Definition isCreate (kind : CallKind) : bool :=
  match kind with Create | Create2 => true | _ => false end.

Lemma wp_Call kind p n' g' pc' c' : good R c0 n' g' pc' c' ->
  (p_Static (c_params c0) = true -> static_call kind p) ->
  0 <= cp_Gas p <= maxGas -> zlen (cp_Input p) <= max_memory maxGas ->
  wp (host (fun w => rc_Call w kind p)) (fun r c'' => good R c0 n' g' pc' c''
    /\ 0 <= cr_GasLeft (fst r) <= cp_Gas p /\ c_memory c'' = c_memory c') RE c'.
Proof.
  intros H' Hk Hg Hi.
  destruct (hf_Call (c_context c') kind p Hk (good_world _ _ _ _ _ _ H') Hg Hi) as [Hr Hl].
  eapply wp_mono; [by eapply wp_host|cbv beta; intros r c'' (H'' & -> & _ & Hm)|done]. done.
Qed.

Lemma all_but_64th gas : 0 <= gas <= MaxInt64 ->
  i64 (gas - Z.quot gas 64) = gas - gas / 64 /\ 0 <= gas - gas / 64 <= gas.
Proof.
  intros Hg. rewrite Z.quot_div_nonneg by lia. split; [apply i64_id|]; divlia.
Qed.

Lemma callGas_bound gas provided : 0 <= gas <= MaxInt64 ->
  0 <= callGas gas provided <= gas - gas / 64.
Proof.
  intros Hg. unfold callGas. destruct (all_but_64th gas Hg) as [-> Hb].
  pose proof (Uint64_range provided). case_if; [|lia].
  unfold MaxInt64, isU64 in *. rewrite (i64_id (Int_Uint64 provided)) in * by zblia. lia.
Qed.

Lemma wp_callCosts kind toAddr value n' g' c' : good R c0 n' g' pc c' ->
  wp (callCosts kind toAddr value) (fun _ c'' => exists g1,
    0 <= g1 <= (if berlin then g' - 100 else g') - (if Int_IsZero value then 0 else 9000)
    /\ good R c0 n' g1 pc c'' /\ c_memory c'' = c_memory c') RE c'.
Proof.
  clear H. intros H. unfold callCosts, CallValueTransferGas, CallNewAccountGas.
  wpm; try (destruct (parseDelegationDesignation _) as [target isDel]; wpm);
    pose proof (good_max _ _ _ _ _ _ H);
    (eexists; split; [|split; [exact H|congruence]]);
    destruct (Int_IsZero value); cbn [negb] in *; rewrite ?andb_false_r in *;
    try discriminate; lia.
Qed.

End Ops2.

Context (HmaxGas : c_gas c0 <= maxGas).

(** The data of a slice of the memory is a valid input of a call. *)
Lemma slice_input n g pc sl c : good R c0 n g pc c -> slice_ok sl c ->
  sl_hi sl - sl_lo sl <= max_memory maxGas.
Proof.
  intros H [Hs1 Hs2]. pose proof (good_paid _ _ _ _ _ _ H). pose proof (good_max _ _ _ _ _ _ H).
  pose proof (paid_memory _ (c_gas c0) (good_mem _ _ _ _ _ _ H)).
  pose proof (max_memory_mono _ _ HmaxGas). lia.
Qed.

Section Calls.
Context (n g pc : Z) (c : context W) (H : good R c0 n g pc c).

Lemma safe_createCall kind value input salt : p_Static (c_params c0) = false ->
  n < 1024 -> slice_ok input c -> wp (createCall kind value input salt) (fun _ => ends (n + 1) g pc) RE c.
Proof.
  intros Hst Hn Hs. pose proof (good_bounds _ _ _ _ _ _ H). pose proof (good_max _ _ _ _ _ _ H).
  pose proof (good_paid _ _ _ _ _ _ H). pose proof (slice_input _ _ _ _ _ H Hs).
  pose proof (good_total _ _ _ _ _ _ H).
  unfold createCall. wpm. rewrite (good_gas _ _ _ _ _ _ H).
  destruct (all_but_64th g) as [-> Hb]; [done|].
  eapply wp_mono; [eapply wp_Call; [exact H|congruence|cbn; lia|cbn; lia]
                  |cbv beta; clear H; intros [res err] c' (H & Hg & Hm)|done]. cbn in Hg.
  apply (f_equal m_currentMemoryCost) in Hm. wpm.
  eapply wp_mono; [eapply wp_addGas; [exact H|lia|lia]|cbv beta; clear H; intros _ c4 [H Hm4]|done].
  apply (f_equal m_currentMemoryCost) in Hm4. wpm.
  eapply wp_mono; [eapply wp_addGas; [exact H|lia|lia]|cbv beta; clear H; intros _ c5 [H _]|done]. wpm.
  fin.
Qed.

Lemma safe_performCall kind args output gas value toAddr : isCreate kind = false ->
  n < 1024 -> slice_ok args c -> slice_ok output c -> 0 <= gas <= MaxInt64 - g ->
  mcost c + (g + gas) <= c_gas c0 ->
  wp (performCall kind args output gas value toAddr) (fun _ => ends (n + 1) (g + gas) pc) RE c.
Proof.
  intros Hk Hn Ha Ho Hg Hpaid. pose proof (good_bounds _ _ _ _ _ _ H).
  pose proof (good_max _ _ _ _ _ _ H). pose proof (slice_input _ _ _ _ _ H Ha).
  pose proof (good_total _ _ _ _ _ _ H).
  unfold performCall. wpm.
  set (kind' := if (p_Static (c_params c0) && isCall kind)%bool then StaticCall else kind).
  eapply wp_mono; [eapply wp_Call; [exact H| | |]|cbv beta; intros [res err] c' (H' & Hl & Hm)|done].
  { unfold kind'. intros Hst. rewrite Hst. by destruct kind. }
  { unfold callParams. destruct kind'; cbn; lia. }
  { unfold callParams. destruct kind'; cbn; lia. }
  assert (0 <= cr_GasLeft res <= gas) as Hl' by (unfold callParams in Hl; by destruct kind'). clear Hl H.
  rename H' into H. carry_slices c c'. apply (f_equal m_currentMemoryCost) in Hm. wpm.
  - eapply wp_mono; [eapply wp_addGas; [exact H|lia|lia]|cbv beta; clear H; intros _ c5 [H _]|done]. wpm.
    fin.
  - eapply wp_mono; [eapply wp_addGas; [exact H|lia|lia]|cbv beta; clear H; intros _ c5 [H _]|done]. wpm.
    fin.
Qed.

End Calls.

Section Calls2.
Context (n g pc : Z) (c : context W) (H : good R c0 n g pc c).

Lemma safe_genericCreate kind :
  (kind = Create /\ 3 <= n) \/ (kind = Create2 /\ 4 <= n) ->
  wp (genericCreate kind) (fun _ => ends (if isCreate2 kind then n - 3 else n - 2) g pc) RE c.
Proof.
  intros Hk. pose proof (good_bounds _ _ _ _ _ _ H). unfold genericCreate, computeCodeSizeCost.
  destruct Hk as [[-> ?]|[-> ?]]; cbn [isCreate2 when]; wpm;
    repeat (case_match; [|by apply wp_fail, (good_RE _ _ _ _ _ _ H)] || case_match); wpm; try fin.
  all: eapply wp_mono; [eapply safe_createCall; [exact H|done|lia|done]
    |cbv beta; intros _ c9 Hend|done]; (eapply ends_weaken; [exact Hend|lia|lia]).
Qed.

(** The gas of the nested call with the stipend: covered by what the value
    transfer has cost. *)
Definition withStipend (value : u256) (gas : Gas) : Gas :=
  if negb (Int_IsZero value) then gas +i64 CallStipend else gas.

Lemma withStipend_bound value gas g1 g0 : 0 <= gas <= g1 -> g0 <= MaxInt64 ->
  g1 <= g0 - (if Int_IsZero value then 0 else 9000) ->
  0 <= withStipend value gas <= gas + (g0 - g1).
Proof.
  unfold withStipend, CallStipend, MaxInt64. intros ? ? ?.
  destruct (Int_IsZero value); cbn; [lia|]. rewrite i64_id; zblia.
Qed.

(** Forwarding gas to a nested call, in both branches. *)
Lemma safe_forward kind args output provided value toAddr (b : Value -> bool) g0 : isCreate kind = false ->
  n < 1024 -> slice_ok args c -> slice_ok output c -> g0 <= MaxInt64 ->
  g <= g0 - (if Int_IsZero value then 0 else 9000) -> mcost c + g0 <= c_gas c0 ->
  wp (addGas (- callGas g provided);;
      params ← gets c_params;
      balance ← host_read (fun w => ws_GetBalance w (p_Recipient params));
      if b balance then
        pushValue Int_Clear;;
        modify (set_returnData []);;
        addGas (withStipend value (callGas g provided))
      else performCall kind args output (withStipend value (callGas g provided)) value toAddr)
    (fun _ => ends (n + 1) g0 pc) RE c.
Proof.
  intros Hk Hn Ha Ho Hg0 Hg Hpaid. pose proof (good_bounds _ _ _ _ _ _ H).
  pose proof (good_max _ _ _ _ _ _ H) as Hm.
  pose proof (callGas_bound g provided Hm) as Hb. assert (0 <= g / 64) by divlia.
  assert (0 <= callGas g provided <= g) as Hcg by lia.
  pose proof (withStipend_bound value (callGas g provided) g g0 Hcg Hg0 Hg).
  pose proof (good_paid _ _ _ _ _ _ H).
  wp_more. eapply wp_mono; [eapply wp_addGas; [exact H|lia|lia]
    |cbv beta; intros _ c1 [Hc1 Hmem]|done]. carry_slices c c1. clear H; rename Hc1 into H.
  apply (f_equal m_currentMemoryCost) in Hmem. do 5 wp_more.
  - wpm. eapply wp_mono; [eapply wp_addGas; [exact H|lia|lia]
      |cbv beta; clear H; intros _ c2 [H _]|done]. fin.
  - eapply wp_mono; [eapply safe_performCall; [exact H|done|lia|done|done|lia|lia]
      |cbv beta; intros _ c2 Hend|done]. eapply ends_weaken; [exact Hend|lia|lia].
Qed.

End Calls2.

(** Applies [safe_forward] to the code of [genericCall]. *)
Ltac forward H g0 :=
  lazymatch goal with
  | |- wp (_ ≫= fun _ => _ ≫= fun _ => _ ≫= fun balance => if @?b balance then _ else
         performCall ?k ?args ?out (if negb (Int_IsZero ?v) then callGas _ ?p +i64 _ else _) _ ?to)
       _ _ _ =>
      eapply wp_mono; [apply (safe_forward _ _ _ _ H k args out p v to b g0)
        |cbv beta; intros ? ? Hend; eapply ends_weaken; [exact Hend|lia|repeat case_match; lia]|done]
  end.

Section Calls3.
Context (n g pc : Z) (c : context W) (H : good R c0 n g pc c).

Lemma safe_genericCall kind : isCreate kind = false ->
  (if hasValue kind then 7 else 6) <= n ->
  wp (genericCall kind) (fun _ => ends (if hasValue kind then n - 6 else n - 5) (if berlin then g - 100 else g) pc) RE c.
Proof.
  intros Hk Hn. pose proof (good_bounds _ _ _ _ _ _ H). pose proof (good_max _ _ _ _ _ _ H).
  unfold genericCall.
  destruct (hasValue kind) eqn:Hv; wpm.
  all: pose proof (good_paid _ _ _ _ _ _ H) as Hpaid; pose proof (good_max _ _ _ _ _ _ H).
  all: eapply wp_mono; [eapply wp_callCosts; exact H
    |cbv beta; clear H; let c1 := fresh "c'" in intros _ c1 (g1 & Hg1 & H & Hm)|done].
  all: match type of H with good _ _ _ _ _ ?c2 =>
         match type of Hm with _ = c_memory ?c1 => carry_slices c1 c2 end end.
  all: do 2 wp_more; rewrite (good_gas _ _ _ _ _ _ H); cbv zeta.
  all: apply (f_equal m_currentMemoryCost) in Hm.
  all: match type of Hg1 with _ <= _ <= ?g0 - _ => forward H g0 end.
  all: try done; repeat case_match; lia.
Qed.

End Calls3.

Section Calls4.
Context (n g pc : Z) (c : context W) (H : good R c0 n g pc c).

Lemma safe_opCall : 7 <= n -> wp opCall (fun _ => ends (n - 6) (if berlin then g - 100 else g) pc) RE c.
Proof.
  intros Hn. unfold opCall. wp_more.
  eapply wp_mono; [eapply (wp_peekN _ _ _ _ _ 2); [exact H|lia]|cbv beta; clear H; intros v c1 H|done].
  wpm. eapply wp_mono; [eapply (safe_genericCall n); [exact H|reflexivity|cbn; lia]|cbv beta|done].
  cbn [hasValue]. done.
Qed.

End Calls4.

End Safety.
