(* ===== verification/SfvmExecution.v ===== *)
(** * Execution of a contract

    The dispatch of the instructions, one step, the loop and the run of a
    contract: they do not panic, keep the invariant, terminate within as many
    steps as there is gas, never create gas, and in static mode change the
    world only as a static call may. *)
From Stdlib Require Import ZArith Lia Strings.Byte.
From stdpp Require Import base list numbers.
From S2P Require Import Prelude Uint256 Types OpCodes SfvmStack SfvmAnalysis SfvmHashCache.
From S2P Require Import SfvmContext SfvmMemory SfvmGas SfvmInstructions SfvmInterpreter SfvmLogic.
From S2P Require Import SfvmSafety.
Set Default Goal Selector "!".
Local Open Scope Z_scope.
Local Open Scope go_scope.

(** ** The precomputed tables *)

Lemma newOpCodePropertyMap_get {T} (f : OpCode -> T) op :
  property_get (newOpCodePropertyMap f) op = Some (f op).
Proof.
  unfold property_get, newOpCodePropertyMap, numOpCodes.
  pose proof (byte_val_range op). rewrite list_lookup_fmap, lookup_seq_lt by lia.
  cbn. by rewrite Z2Nat.id, byte_of_val by lia.
Qed.

(** The price of an instruction before its dynamic costs. *)
Definition staticPrice (berlin : bool) (op : OpCode) : Gas :=
  if berlin then getBerlinGasPriceInternal op else getStaticGasPriceInternal op.

Lemma getStaticGasPrices_get rev op :
  property_get (getStaticGasPrices rev) op = Some (staticPrice (rev >=? R09_Berlin) op).
Proof.
  unfold getStaticGasPrices, staticPrice. case_if; apply newOpCodePropertyMap_get.
Qed.

Lemma staticPrice_nonneg b op : 0 <= staticPrice b op.
Proof. by destruct b, op. Qed.

Section Execution.
Context {W : Type} {U : Uint256} {UL : Uint256Laws U} {RC : RunContext W} {G : Globals W}.
Context (Keccak256 : list byte -> Hash) (Keccak256For32byte : array 32 -> Hash).
Context (R : W -> Prop) (c0 : context W).
Context (maxGas : Gas) (HmaxGas : c_gas c0 <= maxGas).
Context {HF : HostFrame Keccak256 Keccak256For32byte (p_Static (c_params c0)) maxGas R}.
Implicit Types (c : context W).

Abbreviation RE := (failed R).

(** Inputs a 32-bit program counter and 64-bit lengths can address. *)
Definition inputs_fit : Prop :=
  zlen (c_code c0) <= 2 ^ 31 - 64 /\ p_Code (c_params c0) = c_code c0
  /\ zlen (p_Input (c_params c0)) < 2 ^ 63.

(** What an instruction with [g] gas ends with; [n] is the number of elements
    on the stack, [d] the gas it consumes at least if it continues. *)
Definition dispatched (n g d : Z) (st : status) (c : context W) : Prop :=
  exists pc', - 1 <= pc' < zlen (c_code c0) + 32
  /\ ends_in R c0 n (match st with statusRunning => g - d | _ => g end) pc' c.

Lemma wp_running n g d n1 g1 m c : n1 = n -> g1 <= g - d ->
  wp m (fun _ c' => exists pc', ends_in R c0 n1 g1 pc' c' /\ - 1 <= pc' < zlen (c_code c0) + 32) RE c ->
  wp (running m) (dispatched n g d) RE c.
Proof.
  intros Hn Hd H. apply wp_bind. eapply wp_mono; [exact H|cbv beta|done].
  intros _ c' (pc' & He & Hp). apply wp_ret. exists pc'. split; [done|]. by eapply ends_weaken.
Qed.

Lemma wp_running_next n g d n1 g1 k pc m c : 0 <= pc < zlen (c_code c0) -> 0 <= k <= 32 ->
  n1 = n -> g1 <= g - d ->
  wp m (fun _ => ends_in R c0 n1 g1 (pc + k)) RE c -> wp (running m) (dispatched n g d) RE c.
Proof.
  intros Hp Hk Hn Hd H. eapply wp_running; [exact Hn|exact Hd|].
  eapply wp_mono; [exact H|cbv beta|done]. intros _ c' He. exists (pc + k). split; [done|lia].
Qed.

Lemma wp_running_stay n g d n1 g1 pc m c : 0 <= pc < zlen (c_code c0) -> n1 = n -> g1 <= g - d ->
  wp m (fun _ => ends_in R c0 n1 g1 pc) RE c -> wp (running m) (dispatched n g d) RE c.
Proof. intros ? ? ? H. eapply wp_running_next with (k := 0); rewrite ?Z.add_0_r; (done || lia). Qed.

Lemma wp_running_jump n g d n1 g1 m c : n1 = n -> g1 <= g - d ->
  wp m (fun _ c' => exists pc', ends_in R c0 n1 g1 pc' c' /\ - 1 <= pc' < zlen (c_code c0)) RE c ->
  wp (running m) (dispatched n g d) RE c.
Proof.
  intros Hn Hd H. eapply wp_running; [exact Hn|exact Hd|].
  eapply wp_mono; [exact H|cbv beta|done]. intros _ c' (pc' & He & Hp). exists pc'. split; [done|lia].
Qed.

Lemma wp_end st n n' g d pc c : good R c0 n g pc c -> 0 <= pc < zlen (c_code c0) -> n = n' ->
  (match st with statusRunning => d | _ => 0 end) <= 0 ->
  wp (mret st) (dispatched n' g d) RE c.
Proof.
  intros H Hp <- Hd. apply wp_ret. exists pc. split; [lia|].
  pose proof (good_max _ _ _ _ _ _ H). exists g. split; [destruct st; lia|done].
Qed.

(** Stack usage and static price of a concrete instruction. *)
Ltac price :=
  try destruct (isBerlin _);
  repeat match goal with
  | |- context [staticPrice ?b ?op =? 0] =>
      let v := eval vm_compute in (staticPrice b op =? 0) in
      change (staticPrice b op =? 0) with v
  | |- context [su_delta (computeStackUsage ?op)] =>
      let v := eval vm_compute in (su_delta (computeStackUsage op)) in
      change (su_delta (computeStackUsage op)) with v
  end; cbn [isCreate2 hasValue]; cbv iota; lia.

Ltac price_goal :=
  match goal with
  | |- context [su_delta (computeStackUsage ?op)] =>
      let v := eval vm_compute in (su_delta (computeStackUsage op)) in
      change (su_delta (computeStackUsage op)) with v
  end.

(** The specification of an instruction, by its function. *)
Ltac by_spec H :=
  lazymatch goal with
  | |- wp ?m _ _ _ =>
    lazymatch m with
    | opSstore => eapply safe_opSstore; [eassumption|exact H|lia]
    | opSload => eapply safe_opSload; [eassumption|exact H|lia]
    | opTstore => eapply safe_opTstore; [eassumption|exact H|lia]
    | opTload => eapply safe_opTload; [exact H|lia]
    | opCallDataload => eapply safe_opCallDataload; [exact H|lia|done]
    | genericDataCopy _ => eapply safe_genericDataCopy; [exact H|lia|]
    | opMcopy => eapply safe_opMcopy; [exact H|lia]
    | opReturnDataCopy => eapply safe_opReturnDataCopy; [exact H|lia]
    | opBlobHash => eapply safe_opBlobHash; [exact H|lia]
    | opSha3 _ _ => eapply safe_opSha3; [eassumption|exact H|lia]
    | opLog _ => eapply safe_opLog; [eassumption|exact H|cbn; lia]
    | opExtCodeCopy => eapply safe_opExtCodeCopy; [eassumption|exact H|lia]
    | opExtcodehash => eapply safe_opExtcodehash; [eassumption|exact H|lia]
    | opExtcodesize => eapply safe_opExtcodesize; [eassumption|exact H|lia]
    | opBalance => eapply safe_opBalance; [eassumption|exact H|lia]
    | genericCreate _ => eapply safe_genericCreate; [eassumption|eassumption|exact H|auto with lia]
    | opCall => eapply safe_opCall; [eassumption|eassumption|exact H|lia]
    | opCallCode => eapply safe_genericCall; [eassumption|eassumption|exact H|done|cbn; lia]
    | opStaticCall => eapply safe_genericCall; [eassumption|eassumption|exact H|done|cbn; lia]
    | opDelegateCall => eapply safe_genericCall; [eassumption|eassumption|exact H|done|cbn; lia]
    end
  end.

(** The instructions that only use the stack, the memory and the inputs. *)
Ltac plain :=
  unfold opPop, opPush0, opMstore, opMstore8, opMload, opMsize, opCaller, opCallvalue,
    opCallDatasize, opAnd, opOr, opNot, opXor, opIszero, opEq, opLt, opGt, opSlt, opSgt,
    opShr, opShl, opSar, opClz, opSignExtend, opByte, opAdd, opSub, opMul, opMulMod, opDiv,
    opSDiv, opMod, opAddMod, opSMod, opExp, opGas, opPrevRandao, opTimestamp, opNumber,
    opCoinbase, opGasLimit, opGasPrice, opSelfbalance, opBaseFee, opBlobBaseFee, opChainId,
    opBlockhash, opAddress, opOrigin, opCodeSize, opReturnDataSize, opPc, binary,
    comparison; wpm; fin.

Lemma safe_opDup (k : nat) n g pc c : good R c0 n g pc c -> Z.of_nat k < n < 1024 ->
  wp (opDup (Z.of_nat (S k))) (fun _ => ends_in R c0 (n + 1) g pc) RE c.
Proof.
  intros H Hn. unfold opDup. replace (Z.of_nat (S k) - 1) with (Z.of_nat k) by lia.
  eapply wp_mono; [eapply wp_dup; [exact H|lia|lia]|cbv beta; clear H; intros ? ? H|done]. fin.
Qed.

Lemma safe_opSwap (k : nat) n g pc c : good R c0 n g pc c -> Z.of_nat k < n ->
  wp (opSwap (Z.of_nat k)) (fun _ => ends_in R c0 n g pc) RE c.
Proof.
  intros H Hn. eapply wp_mono; [eapply wp_swap; [exact H|lia]|cbv beta; clear H; intros ? ? H|done].
  fin.
Qed.

(** One case of the dispatch. *)
Ltac op_case H Hp :=
  lazymatch goal with
  | |- wp (fail _) _ _ _ => apply wp_fail, (good_RE _ _ _ _ _ _ H)
  | |- wp (running (opPush ?k)) _ _ _ =>
      eapply (wp_running_next _ _ _ _ _ k);
      [exact Hp|lia| | |eapply safe_opPush; [exact H|done|lia..]]; price
  | |- wp (running opPush1) _ _ _ =>
      eapply (wp_running_next _ _ _ _ _ 1);
      [exact Hp|lia| | |eapply safe_opPush1; [exact H|done|lia..]]; price
  | |- wp (running opPush2) _ _ _ =>
      eapply (wp_running_next _ _ _ _ _ 2);
      [exact Hp|lia| | |eapply safe_opPush2; [exact H|done|lia..]]; price
  | |- wp (running (opDup ?k)) _ _ _ =>
      eapply wp_running_stay; [exact Hp| | |eapply (safe_opDup (Z.to_nat (k - 1))); [exact H|lia]]; price
  | |- wp (running (opSwap ?k)) _ _ _ =>
      eapply wp_running_stay; [exact Hp| | |eapply (safe_opSwap (Z.to_nat k)); [exact H|lia]]; price
  | |- wp (running opJump) _ _ _ =>
      eapply wp_running_jump; [| |eapply safe_opJump; [exact H|lia]]; price
  | |- wp (running opJumpi) _ _ _ =>
      eapply wp_running_jump; [| |eapply safe_opJumpi; [exact H|lia|exact Hp]]; price
  | |- wp opStop _ _ _ => eapply wp_end; [exact H|exact Hp|price|cbv iota; lia]
  | |- wp (mret _) _ _ _ => eapply wp_end; [exact H|exact Hp|price|price]
  | |- wp opSelfdestruct _ _ _ =>
      eapply wp_mono; [eapply safe_opSelfdestruct; [eassumption|exact H|lia]|cbv beta|done];
      intros ? ? (-> & He); eexists; split; [|eapply ends_weaken; [exact He|price|cbv iota; lia]]; lia
  | |- wp (opEndWithResult ≫= _) _ _ _ =>
      apply wp_bind; eapply wp_mono; [eapply safe_opEndWithResult; [exact H|lia]|cbv beta|done];
      intros ? ? He; apply wp_ret; eexists;
      split; [|eapply ends_weaken; [exact He|price|cbv iota; lia]]; lia
  | |- wp (running _) _ _ _ =>
      first [ eapply wp_running_stay; [exact Hp| | |by_spec H]; price
            | lazymatch type of H with good _ _ _ ?g _ _ =>
                eapply (wp_running_stay _ _ _ _ g); [exact Hp|reflexivity|price|price_goal; plain] end ]
  | |- wp (gets id ≫= _) _ _ _ =>
      apply wp_bind, wp_gets; unfold id; rewrite (good_params _ _ _ _ _ _ H);
      eapply wp_running_stay; [exact Hp| | |by_spec H; lia]; price
  end.

(** Every instruction, within its stack limits. *)
Lemma wp_dispatch op n g pc c : inputs_fit -> good R c0 n g pc c -> 0 <= pc < zlen (c_code c0) ->
  sl_min (opStackLimits op) <= n <= sl_max (opStackLimits op) ->
  wp (dispatch Keccak256 Keccak256For32byte op)
    (dispatched (n + su_delta (computeStackUsage op)) g (if staticPrice (isBerlin c0) op =? 0 then 1 else 0)) RE c.
Proof.
  intros (Hcode & Hcc & Hin) H Hp Hn. assert (zlen (p_Code (c_params c0)) < 2 ^ 63) by (rewrite Hcc; lia). pose proof (good_bounds _ _ _ _ _ _ H).
  destruct op; vm_compute sl_min in Hn; vm_compute sl_max in Hn; unfold dispatch.
  all: op_case H Hp.
Qed.

(** ** One step *)

Lemma wp_checkStackLimits n op (Q : unit -> context W -> Prop) E c : E c ->
  (sl_min (opStackLimits op) <= n <= sl_max (opStackLimits op) -> Q tt c) ->
  wp (checkStackLimits n op) Q E c.
Proof.
  intros HE HQ. unfold checkStackLimits. apply wp_bind.
  eapply wp_lift_option; [apply newOpCodePropertyMap_get|].
  apply wp_if; intros; [by apply wp_fail|]. apply wp_if; intros; [by apply wp_fail|].
  apply wp_ret, HQ. b2p. lia.
Qed.

(** A step that continues consumes gas. *)
Lemma wp_step_ok n g pc c : inputs_fit -> good R c0 n g pc c -> 0 <= pc < zlen (c_code c0) ->
  wp (step Keccak256 Keccak256For32byte) (fun st c' => exists n' pc', 0 <= pc'
    /\ ends_in R c0 n' (match st with statusRunning => g - 1 | _ => g end) pc' c') RE c.
Proof.
  intros Hfit H Hp. pose proof (good_max _ _ _ _ _ _ H). unfold step.
  apply wp_bind, wp_gets. apply wp_bind, wp_code_at.
  { unfold id. by rewrite (good_code _ _ _ _ _ _ H), (good_pc _ _ _ _ _ _ H). }
  intros op. apply wp_bind, wp_checkStackLimits; [by apply (good_RE _ _ _ _ _ _ H)|].
  unfold id. rewrite (good_len _ _ _ _ _ _ H). intros Hn.
  apply wp_bind. eapply wp_lift_option; [apply getStaticGasPrices_get|].
  replace (revision c >=? R09_Berlin) with (isBerlin c0)
    by (unfold isBerlin, isAtLeast, revision; by rewrite (good_params _ _ _ _ _ _ H)).
  pose proof (staticPrice_nonneg (isBerlin c0) op). wps.
  eapply wp_mono; [by eapply wp_dispatch|cbv beta|done].
  intros st c2 (pc' & Hpc & g' & Hg' & H').
  apply wp_bind, wp_gets, wp_bind, wp_modify, wp_ret. destruct Hfit as (Hcode & _).
  rewrite (good_pc _ _ _ _ _ _ H'), i32_id by lia.
  eexists _, (pc' + 1). split; [lia|]. exists g'. split; [|by eapply good_set_pc].
  destruct (staticPrice (isBerlin c0) op =? 0) eqn:E; b2p; destruct st; lia.
Qed.

(** ** The loop *)

(** How a computation of the loop ends: not with a panic, and with a status
    other than running unless only one step is made. *)
Definition ended (g : Z) (o : outcome status) (c : context W) : Prop :=
  match o with
  | Ok st => st <> statusRunning /\ exists n pc, ends_in R c0 n g pc c
  | Err _ => failed R c
  | Panic => False
  end.

Lemma ended_mono g g' o c : g <= g' -> ended g o c -> ended g' o c.
Proof.
  intros Hg. destruct o; [|done..]. intros (? & n & pc & He). split; [done|].
  exists n, pc. by eapply ends_weaken.
Qed.

Lemma steps_ok fuel : forall n g pc c, inputs_fit -> good R c0 n g pc c -> 0 <= pc ->
  (Z.to_nat g < fuel)%nat ->
  exists o c', steps Keccak256 Keccak256For32byte fuel false c = Some (o, c') /\ ended g o c'.
Proof.
  induction fuel as [|fuel IH]; intros n g pc c Hfit H Hp Hf; [lia|].
  pose proof (good_max _ _ _ _ _ _ H). cbn [steps].
  case_if.
  - eexists _, _. split; [done|]. split; [done|]. exists n, pc, g. split; [lia|done].
  - b2p. rewrite (good_code _ _ _ _ _ _ H), (good_pc _ _ _ _ _ _ H) in *.
    pose proof (wp_step_ok n g pc c Hfit H ltac:(lia)) as Hs. unfold wp in Hs.
    destruct (step _ _ c) as [[st|e|] c1]; [|by eauto|done].
    destruct Hs as (n' & pc' & Hpc & g' & Hg' & H').
    destruct st; try (eexists _, _; split; [done|]; split; [done|]; exists n', pc', g'; done).
    destruct (IH n' g' pc' c1 Hfit H' Hpc ltac:(lia)) as (o & c2 & -> & He).
    exists o, c2. split; [done|]. eapply ended_mono; [|done]. lia.
Qed.

(** The contexts an execution goes through, with the number of steps made. *)
Inductive reach : nat -> context W -> Prop :=
| reach_start : reach 0 c0
| reach_next k c c' : reach k c -> c_pc c < zlen (c_code c) ->
    step Keccak256 Keccak256For32byte c = (Ok statusRunning, c') -> reach (S k) c'.

Lemma reach_good n0 g0 k c : inputs_fit -> good R c0 n0 g0 0 c0 -> reach k c ->
  exists n g pc, good R c0 n g pc c /\ 0 <= pc /\ g + Z.of_nat k <= g0.
Proof.
  intros Hfit H0 Hr. induction Hr as [|k c c' Hr (n & g & pc & H & Hp & Hg) Hpc Hs].
  - exists n0, g0, 0. split; [done|]. lia.
  - rewrite (good_code _ _ _ _ _ _ H), (good_pc _ _ _ _ _ _ H) in Hpc.
    pose proof (wp_step_ok n g pc c Hfit H (conj Hp Hpc)) as Hw.
    apply (wp_ok _ _ _ _ _ _ Hw) in Hs as (n' & pc' & Hpc' & g' & Hg' & H').
    exists n', g', pc'. split; [done|]. lia.
Qed.

End Execution.

(** ** A run *)

(** More fuel does not change the outcome. *)
Lemma steps_mono {W} `{Uint256} `{RunContext W} `{Globals W} K K32 fuel fuel' one (c : context W) r :
  steps K K32 fuel one c = Some r -> (fuel <= fuel')%nat -> steps K K32 fuel' one c = Some r.
Proof.
  revert fuel' c. induction fuel as [|fuel IH]; intros fuel' c Hs Hf; [done|].
  destruct fuel' as [|fuel']; [lia|]. cbn [steps] in *. case_if; [done|].
  destruct (step _ _ c) as [[st|e|] c']; [|done..]. destruct one; [done|].
  destruct st; try done. apply IH; [done|lia].
Qed.

Section Run.
Context {W : Type} {U : Uint256} {UL : Uint256Laws U} {RC : RunContext W} {G : Globals W}.
Context {C : Type} {L : LRU jumpDestMap C}.
Context (Keccak256 : list byte -> Hash) (Keccak256For32byte : array 32 -> Hash).

(** Parameters within the ranges of their Go types: the gas is a non-negative
    [int64], the code fits a 32-bit program counter, and lengths are below
    [2^63]; a pooled stack is an array of [maxStackSize] words. The
    environment serves calls with the gas of the run. *)
Definition run_pre (maxGas : Gas) (params : Parameters) (garbage : list u256) : Prop :=
  0 <= p_Gas params <= MaxInt64 /\ p_Gas params <= maxGas
  /\ zlen (p_Code params) <= 2 ^ 31 - 64
  /\ zlen (p_Input params) < 2 ^ 63 /\ zlen garbage = maxStackSize.

Lemma init_good (R : W -> Prop) maxGas config jd params w garbage : run_pre maxGas params garbage -> R w ->
  let c0 := initContext config jd params w garbage in
  inputs_fit c0 /\ good R c0 0 (p_Gas params) 0 c0.
Proof.
  intros (Hg & Hm & Hc & Hi & Hs) Hw c0. destruct (NewStack_wf garbage Hs) as [Hwf _].
  split; [done|]. constructor; try done. apply NewMemory_wf.
Qed.

(** The result of a run that had [gas]: success, or a revert, which keeps the
    unused gas and its output, or a failure, which consumes all gas; only
    successful runs have a refund. *)
Definition result_ok (gas : Gas) (res : Result) : Prop :=
  0 <= r_GasLeft res <= gas /\ (r_Success res = false -> r_GasRefund res = 0).

Lemma run_ok (R : W -> Prop) maxGas fuel (a : analysis C) config w params garbage :
  HostFrame Keccak256 Keccak256For32byte (p_Static params) maxGas R -> R w -> run_pre maxGas params garbage ->
  (Z.to_nat (p_Gas params) < fuel)%nat ->
  exists w' a' res, run Keccak256 Keccak256For32byte fuel a config w params garbage
      = Some (w', a', inl res) /\ R w' /\ result_ok (p_Gas params) res.
Proof.
  intros HF Hw Hpre Hf. pose proof Hpre as (Hg & Hmax & _). unfold run. case_if.
  { eexists _, _, _. split; [done|]. split; [done|]. split; [cbn; lia|done]. }
  destruct (analyzeJumpDest a (p_Code params) (p_CodeHash params)) as [a' jd].
  destruct (init_good R maxGas config jd params w garbage Hpre Hw) as [Hfit H0].
  set (c0 := initContext config jd params w garbage) in *.
  assert (HostFrame Keccak256 Keccak256For32byte (p_Static (c_params c0)) maxGas R) as HF' by exact HF.
  destruct (steps_ok _ _ R c0 maxGas Hmax fuel 0 (p_Gas params) 0 c0 Hfit H0 ltac:(lia) Hf) as (o & c' & Hs & He).
  unfold execute. rewrite Hs. destruct o as [st|e|]; [| |done].
  - destruct He as [Hst (n & pc & g & Hg' & H')]. pose proof (good_gas _ _ _ _ _ _ H').
    pose proof (good_world _ _ _ _ _ _ H').
    destruct st; try done; (eexists _, _, _; split; [done|]; split; [done|]; split; cbn; [lia|done]).
  - destruct He. eexists _, _, _. split; [done|]. split; [done|]. split; [cbn; lia|done].
Qed.

End Run.
