(* ===== verification/SfvmProperties.v ===== *)
(** * Properties of the interpreter

    The theorems about whole runs of [sfvm], each with a concrete run that
    meets its hypotheses. *)
From Stdlib Require Import ZArith Lia Strings.Byte.
From stdpp Require Import base list numbers gmap.
From S2P Require Import Prelude Uint256 Types OpCodes SfvmStack SfvmAnalysis SfvmHashCache.
From S2P Require Import SfvmContext SfvmMemory SfvmGas SfvmInstructions SfvmInterpreter SfvmLogic.
From S2P Require Import RefWorld SfvmSafety SfvmExecution.
Set Default Goal Selector "!".
Local Open Scope Z_scope.
Local Open Scope go_scope.

(** ** Concrete runs *)

#[local] Existing Instance uint256_ref.
#[local] Existing Instance uint256_ref_laws.
#[local] Existing Instance refRunContext.

Definition exampleBlock (rev : Revision) : BlockParameters :=
  mkBlockParameters zeroWord 1 1 zeroAddress 1000000 zeroWord zeroWord zeroWord rev.

Definition exampleParams (rev : Revision) (static : bool) (gas : Gas) (code : Code) : Parameters :=
  mkParameters (exampleBlock rev) (mkTransactionParameters zeroAddress zeroWord []) Call static 0 gas
    zeroAddress zeroAddress [] zeroWord None code.

Definition exampleConfig : Config := mkConfig true false 0 0.

Definition exampleStack : list u256 := replicate 1024 (of_Z 7).

(** [SSTORE(0, 1); MSTORE(0, SHA3(0, 32)); RETURN(0, 32)]. *)
Definition exampleCode : Code :=
  [PUSH1; x01; PUSH1; x00; SSTORE; PUSH1; x20; PUSH1; x00; SHA3; PUSH1; x00; MSTORE;
   PUSH1; x20; PUSH1; x00; RETURN].

Definition exampleWorld : world := newWorld emptyCore.

Lemma exampleWorld_ok : refOk exampleWorld.
Proof. apply newWorld_ok. intros a. cbn. rewrite lookup_empty. done. Qed.

Definition exampleRun (fuel : nat) (rev : Revision) (static : bool) (gas : Gas) (code : Code) :=
  run refHash refHash32 fuel (mkAnalysis (C := assocCache) None 0) exampleConfig exampleWorld
    (exampleParams rev static gas code) exampleStack.

Example example_run :
  match exampleRun 20 R13_Cancun false 50000 exampleCode with
  | Some (w, _, inl res) =>
      r_Success res = true /\ r_GasLeft res = 27837
      /\ ws_GetStorage w zeroAddress zeroWord = to_array 32 (be_bytes 32 1)
  | _ => False
  end.
Proof. vm_compute. done. Qed.

(** No property beyond a well-formed environment: the frame of a run outside
    static mode. *)
Lemma refFrame static maxGas : HostFrame refHash refHash32 static maxGas (fun w => refOk w /\ True).
Proof. by apply (refHostFrame static maxGas (fun _ => True)). Qed.

Lemma examplePre rev static gas code : 0 <= gas <= 2 ^ 40 -> zlen code <= 2 ^ 31 - 64 ->
  run_pre (2 ^ 40) (exampleParams rev static gas code) exampleStack.
Proof.
  intros Hg Hc. unfold run_pre, MaxInt64. cbn. repeat split; try done; lia.
Qed.

(** ** Runs *)

(** C7. A run with [gas] units of gas needs at most [gas + 1] iterations of the
    loop: with that fuel it returns. It never panics (no out-of-range access
    to stack, memory, code or tables, no [nil] dereference) and never ends
    with an interpreter error, it leaves between 0 and the given gas, a run
    that does not succeed has no refund, and the environment's invariant [R]
    is kept. *)
Theorem run_total {W} {U : Uint256} {UL : Uint256Laws U} {RC : RunContext W} {G : Globals W} {C} {L : LRU jumpDestMap C}
    Keccak256 Keccak256For32byte (R : W -> Prop) maxGas fuel (a : analysis C) config w params garbage :
  HostFrame Keccak256 Keccak256For32byte (p_Static params) maxGas R -> R w ->
  run_pre maxGas params garbage -> (Z.to_nat (p_Gas params) < fuel)%nat ->
  exists w' a' res,
    run Keccak256 Keccak256For32byte fuel a config w params garbage = Some (w', a', inl res)
    /\ R w' /\ result_ok (p_Gas params) res.
Proof. apply run_ok. Qed.

Lemma run_total_witness : exists w' a' res,
  exampleRun (S (Z.to_nat 50000)) R13_Cancun false 50000 exampleCode = Some (w', a', inl res)
  /\ (refOk w' /\ True) /\ result_ok 50000 res.
Proof.
  apply (run_total refHash refHash32 (fun w => refOk w /\ True) (2 ^ 40) _ _ _ _
    (exampleParams R13_Cancun false 50000 exampleCode) _ (refFrame false _)).
  - split; [apply exampleWorld_ok|done].
  - apply examplePre; done.
  - cbn. lia.
Defined.

(** The fuel is only a bound: a run that returns with some fuel returns the
    same with any more, so the model's result is that of the loop. *)
Theorem run_fuel_mono {W} {U : Uint256} {RC : RunContext W} {G : Globals W} {C} {L : LRU jumpDestMap C} K K32 fuel fuel'
    (a : analysis C) config (w : W) params garbage r :
  run K K32 fuel a config w params garbage = Some r -> (fuel <= fuel')%nat ->
  run K K32 fuel' a config w params garbage = Some r.
Proof.
  unfold run. case_if; [done|]. destruct (analyzeJumpDest _ _ _) as [a' jd]. unfold execute.
  intros Hr Hf. destruct (steps K K32 fuel false _) as [[o c']|] eqn:Es; [|done].
  by rewrite (steps_mono _ _ _ _ _ _ _ Es Hf).
Qed.

Lemma run_fuel_mono_witness : exists r,
  exampleRun 3 R13_Cancun false 5 [JUMPDEST; STOP] = Some r /\
  exampleRun 9 R13_Cancun false 5 [JUMPDEST; STOP] = Some r.
Proof.
  eexists. split; [vm_compute; reflexivity|].
  apply (run_fuel_mono refHash refHash32 3 9); [vm_compute; reflexivity|lia].
Defined.

(** C13. A run in static mode changes the world only as a static call may: every
    property of the world that is kept by account and storage accesses, by
    updates of the hash cache and by static, delegate and code calls holds
    after the run as well; storage, transient storage, logs and
    self-destructs are not touched, and no contract is created. *)
Theorem run_static {W} {U : Uint256} {UL : Uint256Laws U} {RC : RunContext W} {G : Globals W} {C} {L : LRU jumpDestMap C}
    Keccak256 Keccak256For32byte (R : W -> Prop) maxGas fuel (a : analysis C) config w params garbage
    w' a' r :
  HostFrame Keccak256 Keccak256For32byte true maxGas R -> p_Static params = true -> R w ->
  run_pre maxGas params garbage ->
  run Keccak256 Keccak256For32byte fuel a config w params garbage = Some (w', a', r) -> R w'.
Proof.
  intros HF Hst Hw Hpre Hr.
  assert (HostFrame Keccak256 Keccak256For32byte (p_Static params) maxGas R) as HF' by by rewrite Hst.
  set (more := (fuel + S (Z.to_nat (p_Gas params)))%nat).
  destruct (run_ok _ _ R maxGas more a config w params garbage HF' Hw Hpre) as (w2 & a2 & res & Hr2 & Hw2 & _).
  { unfold more. lia. }
  assert (run Keccak256 Keccak256For32byte more a config w params garbage = Some (w', a', r)) as Hr3.
  { revert Hr. unfold run. case_if; [done|]. destruct (analyzeJumpDest _ _ _) as [a3 jd]. unfold execute.
    destruct (steps _ _ fuel false _) as [[o c']|] eqn:E1; [|done].
    rewrite (steps_mono _ _ _ more _ _ _ E1); [done|]. unfold more. lia. }
  congruence.
Qed.

(** [SSTORE] fails in static mode and leaves the storage alone. *)
Lemma run_static_witness : exists w' a' r,
  exampleRun 20 R13_Cancun true 50000 exampleCode = Some (w', a', r)
  /\ refOk w' /\ k_storage (w_core w') = ∅ /\ k_logs (w_core w') = [].
Proof.
  eexists _, _, _. split; [vm_compute; reflexivity|].
  apply (run_static refHash refHash32
    (fun w => refOk w /\ k_storage (w_core w) = ∅ /\ k_logs (w_core w) = []) (2 ^ 40) 20
    (mkAnalysis (C := assocCache) None 0) exampleConfig exampleWorld
    (exampleParams R13_Cancun true 50000 exampleCode) exampleStack _ (mkAnalysis None 0)
    (inl (mkResult false [] 0 0))).
  - apply (refHostFrame true _ (fun k => k_storage k = ∅ /\ k_logs k = [])); done.
  - done.
  - split; [apply exampleWorld_ok|done].
  - by apply examplePre.
  - vm_compute. reflexivity.
Defined.

(** C14. In every context an execution reaches, after [k] steps, stack and
    memory are well formed (at most 1024 elements; whole words within the size
    limit, paid for exactly by [memoryCost]), the program counter is not
    negative, the inputs are unchanged, and the gas plus the number of steps
    does not exceed the initial gas. *)
Theorem reachable_invariant {W} {U : Uint256} {UL : Uint256Laws U} {RC : RunContext W} {G : Globals W}
    Keccak256 Keccak256For32byte (R : W -> Prop) maxGas config jd params w garbage k c :
  HostFrame Keccak256 Keccak256For32byte (p_Static params) maxGas R -> R w -> run_pre maxGas params garbage ->
  reach Keccak256 Keccak256For32byte (initContext config jd params w garbage) k c ->
  stack_wf (c_stack c) /\ mem_wf (c_memory c) /\ 0 <= c_pc c
  /\ 0 <= c_gas c /\ c_gas c + Z.of_nat k <= p_Gas params
  /\ c_params c = params /\ c_code c = p_Code params /\ R (c_context c).
Proof.
  intros HF Hw Hpre Hr. pose proof Hpre as (_ & Hmax & _).
  destruct (init_good R maxGas config jd params w garbage Hpre Hw) as [Hfit H0].
  destruct (reach_good _ _ R (initContext config jd params w garbage) maxGas Hmax _ _ _ _ Hfit H0 Hr) as (n & g & pc & H & Hp & Hg).
  pose proof (good_max _ _ _ _ _ _ H). rewrite (good_gas _ _ _ _ _ _ H), (good_pc _ _ _ _ _ _ H).
  split; [apply (good_stack _ _ _ _ _ _ H)|]. split; [apply (good_mem _ _ _ _ _ _ H)|].
  split; [done|]. split; [lia|]. split; [lia|].
  split; [apply (good_params _ _ _ _ _ _ H)|]. split; [apply (good_code _ _ _ _ _ _ H)|].
  apply (good_world _ _ _ _ _ _ H).
Qed.

Lemma reachable_invariant_witness :
  let c0 := initContext exampleConfig (findJumpDestinations exampleCode)
              (exampleParams R13_Cancun false 50000 exampleCode) exampleWorld exampleStack in
  let c1 := snd (step refHash refHash32 c0) in
  reach refHash refHash32 c0 1 c1 /\ stack_wf (c_stack c1) /\ st_len (c_stack c1) = 1.
Proof.
  intros c0 c1. assert (reach refHash refHash32 c0 1 c1) as Hr.
  { eapply reach_next; [apply reach_start|by vm_compute|].
    change c1 with (snd (step refHash refHash32 c0)).
    assert (fst (step refHash refHash32 c0) = Ok statusRunning) as E by by vm_compute.
    rewrite <-E. apply surjective_pairing. }
  split; [exact Hr|]. split; [|by vm_compute].
  apply (reachable_invariant refHash refHash32 (fun w => refOk w /\ True) (2 ^ 40) exampleConfig
    (findJumpDestinations exampleCode) (exampleParams R13_Cancun false 50000 exampleCode)
    exampleWorld exampleStack 1 c1 (refFrame false _)) in Hr.
  - apply Hr.
  - split; [apply exampleWorld_ok|done].
  - by apply examplePre.
Defined.
