(* ===== verification/SfvmMachine.v ===== *)
(** * The interpreter refines an abstract stack machine

    A stack machine on integers, written from the instruction set and not from
    the code: arithmetic, comparisons, bit operations, pushes, duplicates,
    swaps and jumps with their prices. [sfvm] simulates it step by step; the
    caches, the precomputed tables, the pooled stack and the 32-bit program
    counter are not visible. *)
From Stdlib Require Import ZArith Lia Strings.Byte.
From stdpp Require Import base list numbers.
From S2P Require Import Prelude Uint256 Types OpCodes SfvmStack SfvmAnalysis SfvmHashCache.
From S2P Require Import SfvmContext SfvmMemory SfvmGas SfvmInstructions SfvmInterpreter SfvmLogic.
From S2P Require Import SfvmExecution RefWorld SfvmProperties.
Set Default Goal Selector "!".
Local Open Scope Z_scope.
Local Open Scope go_scope.

(** ** The abstract machine *)

Definition signed (z : Z) : Z := if z <? 2 ^ 255 then z else z - M256.

Definition b2z (b : bool) : Z := if b then 1 else 0.

(** Operations with one operand: price and result. *)
Definition unaryOp (rev : Revision) (op : OpCode) : option (Z * (Z -> Z)) :=
  match op with
  | ISZERO => Some (3, fun a => b2z (a =? 0))
  | NOT => Some (3, fun a => M256 - 1 - a)
  | CLZ => if rev >=? R15_Osaka then Some (5, fun a => 256 - bit_length a) else None
  | _ => None
  end.

(** With two operands, the first on top of the stack. *)
Definition binaryOp (op : OpCode) : option (Z * (Z -> Z -> Z)) :=
  match op with
  | ADD => Some (3, fun a b => (a + b) mod M256)
  | SUB => Some (3, fun a b => (a - b) mod M256)
  | MUL => Some (5, fun a b => (a * b) mod M256)
  | DIV => Some (5, fun a b => if b =? 0 then 0 else a / b)
  | SDIV => Some (5, fun a b => if b =? 0 then 0 else Z.quot (signed a) (signed b) mod M256)
  | MOD => Some (5, fun a b => if b =? 0 then 0 else a mod b)
  | SMOD => Some (5, fun a b => if b =? 0 then 0 else Z.rem (signed a) (signed b) mod M256)
  | SIGNEXTEND => Some (5, fun a b => sign_extend b a mod M256)
  | LT => Some (3, fun a b => b2z (a <? b))
  | GT => Some (3, fun a b => b2z (b <? a))
  | SLT => Some (3, fun a b => b2z (signed a <? signed b))
  | SGT => Some (3, fun a b => b2z (signed b <? signed a))
  | EQ => Some (3, fun a b => b2z (a =? b))
  | AND => Some (3, Z.land)
  | OR => Some (3, Z.lor)
  | XOR => Some (3, Z.lxor)
  | BYTE => Some (3, fun a b => if a <? 32 then b / 2 ^ (8 * (31 - a)) mod 256 else 0)
  | SHL => Some (3, fun a b => if a <? 256 then (b * 2 ^ a) mod M256 else 0)
  | SHR => Some (3, fun a b => if a <? 256 then b / 2 ^ a else 0)
  | SAR => Some (3, fun a b =>
      if a <? 256 then (signed b / 2 ^ a) mod M256 else if b <? 2 ^ 255 then 0 else M256 - 1)
  | _ => None
  end.

(** A byte of the code as a jump destination: the number of bytes that are
    data of a push decides. *)
Fixpoint dest_at (skip : nat) (code : Code) (i : nat) : bool :=
  match code, i with
  | [], _ => false
  | b :: code, O => (skip =? 0)%nat && Byte.eqb b JUMPDEST
  | b :: code, S i => dest_at (match skip with O => Z.to_nat (Width b - 1) | S skip => skip end) code i
  end.

Definition valid_dest (code : Code) (d : Z) : bool := (d <? zlen code) && dest_at 0 code (Z.to_nat d).

(** The [n] bytes of code at [start], zeros beyond its end. *)
Definition pushed (code : Code) (start n : Z) : Z := be_val (slice (code ++ zeros (start + n)) start (start + n)).

(** Price, stack and next position of an instruction; [None] for an error and
    for instructions the machine does not have. *)
Definition effect (code : Code) (rev : Revision) (pc gas : Z) (st : list Z) (op : OpCode)
    : option (Z * list Z * Z) :=
  if op_in PUSH1 PUSH32 op then
    let n := byte_val op - 0x5f in Some (3, pushed code (pc + 1) n :: st, pc + n + 1)
  else if op_in DUP1 DUP16 op then
    x ← st !! Z.to_nat (byte_val op - 0x80); Some (3, x :: st, pc + 1)
  else if op_in SWAP1 SWAP16 op then
    x ← st !! 0%nat; y ← st !! Z.to_nat (byte_val op - 0x8f);
    Some (3, <[0%nat := y]> (<[Z.to_nat (byte_val op - 0x8f) := x]> st), pc + 1)
  else
    match op, st with
    | POP, _ :: st => Some (2, st, pc + 1)
    | PUSH0, st => if rev >=? R12_Shanghai then Some (2, 0 :: st, pc + 1) else None
    | PC, st => Some (2, pc :: st, pc + 1)
    | GAS, st => Some (2, gas - 2 :: st, pc + 1)
    | JUMPDEST, st => Some (1, st, pc + 1)
    | JUMP, d :: st => if valid_dest code d then Some (8, st, d) else None
    | JUMPI, d :: cond :: st =>
        if cond =? 0 then Some (10, st, pc + 1)
        else if valid_dest code d then Some (10, st, d) else None
    | ADDMOD, a :: b :: n :: st => Some (8, (if n =? 0 then 0 else (a + b) mod n) :: st, pc + 1)
    | MULMOD, a :: b :: n :: st => Some (8, (if n =? 0 then 0 else (a * b) mod n) :: st, pc + 1)
    | EXP, a :: b :: st => Some (10 + 50 * ((bit_length b + 7) / 8), a ^ b mod M256 :: st, pc + 1)
    | op, a :: st =>
        match unaryOp rev op, binaryOp op, st with
        | Some (p, f), _, _ => Some (p, f a :: st, pc + 1)
        | None, Some (p, f), b :: st => Some (p, f a b :: st, pc + 1)
        | _, _, _ => None
        end
    | _, _ => None
    end.

Record amach := mkMach { a_stack : list Z; a_gas : Z; a_pc : Z }.

Definition astep (code : Code) (rev : Revision) (s : amach) : option amach :=
  op ← code !! Z.to_nat (a_pc s);
  '(p, st, pc) ← effect code rev (a_pc s) (a_gas s) (a_stack s) op;
  if (length st <=? 1024)%nat && (p <=? a_gas s) then Some (mkMach st (a_gas s - p) pc) else None.

Fixpoint asteps (n : nat) (code : Code) (rev : Revision) (s : amach) : option amach :=
  match n with
  | O => Some s
  | S n => s ← astep code rev s; asteps n code rev s
  end.

(** ** Jump destinations *)

Lemma steps_to_ge code i j : steps_to code i j -> i <= j.
Proof. induction 1 as [|i op j _ _ IH]; [lia|]. pose proof (Width_range op). lia. Qed.

(** Decoding from offset [i]: the next instruction, or [i] itself. *)
Lemma steps_to_inv code i op j : code !! Z.to_nat i = Some op -> i <> j ->
  steps_to code i j <-> steps_to code (i + Width op) j.
Proof.
  intros Ho Hne. split.
  - intros Hs. destruct Hs as [|i op' j Ho' Hs]; [done|]. rewrite Ho in Ho'. by injection Ho' as <-.
  - intros Hs. by apply steps_next with op.
Qed.

Lemma dest_at_spec suf : forall pre skip i, let n := zlen pre in
  dest_at skip suf i = true <->
  steps_to (pre ++ suf) (n + Z.of_nat skip) (n + Z.of_nat i)
  /\ (pre ++ suf) !! Z.to_nat (n + Z.of_nat i) = Some JUMPDEST.
Proof.
  induction suf as [|b suf IH]; intros pre skip i n; pose proof (zlen_nonneg pre).
  { split; [done|]. intros [_ Hd]. apply lookup_lt_Some in Hd. rewrite app_nil_r in Hd. unfold n, zlen in *. lia. }
  assert ((pre ++ b :: suf) !! Z.to_nat (n + Z.of_nat 0) = Some b) as Hb.
  { replace (Z.to_nat (n + Z.of_nat 0)) with (length pre) by (unfold n, zlen; lia). by apply list_lookup_middle. }
  destruct i as [|i]; cbn [dest_at].
  - rewrite Hb. rewrite andb_true_iff, Nat.eqb_eq. split.
    + intros [-> E]. apply Byte.byte_dec_bl in E as ->. split; [constructor|done].
    + intros [Hs%steps_to_ge [= ->]]. split; [lia|]. by apply Byte.byte_dec_lb.
  - specialize (IH (pre ++ [b])). cbv zeta in IH. rewrite <-app_assoc in IH. cbn [app] in IH.
    assert (zlen (pre ++ [b]) = n + 1) as Hn by (by rewrite zlen_app).
    rewrite IH, Hn. replace (n + 1 + Z.of_nat i) with (n + Z.of_nat (S i)) by lia.
    destruct skip as [|skip].
    + pose proof (Width_range b).
      rewrite (steps_to_inv _ (n + Z.of_nat 0) b) by (done || lia).
      replace (n + 1 + Z.of_nat (Z.to_nat (Width b - 1))) with (n + Z.of_nat 0 + Width b) by lia. done.
    + replace (n + 1 + Z.of_nat skip) with (n + Z.of_nat (S skip)) by lia. done.
Qed.

Lemma valid_dest_spec code d : 0 <= d -> valid_dest code d = true <-> jump_dest code d.
Proof.
  intros Hd. unfold valid_dest, jump_dest, instr_start.
  pose proof (dest_at_spec code [] 0 (Z.to_nat d)) as H. cbn [app zlen length] in H.
  change (zlen []) with 0 in H. rewrite !Z.add_0_l, Z2Nat.id in H by lia.
  rewrite andb_true_iff, Z.ltb_lt, H. split; [tauto|]. intros [H1 H2]. split; [|done].
  apply lookup_lt_Some in H2. unfold zlen. lia.
Qed.

Lemma isJumpDest_valid code d : zlen code < 2 ^ 64 -> 0 <= d ->
  (d <? zlen code) && isJumpDest (Some (findJumpDestinations code)) d = valid_dest code d.
Proof.
  intros Hl Hd. apply eq_bool_prop_intro. rewrite !Is_true_true, andb_true_iff.
  rewrite findJumpDestinations_iff, valid_dest_spec by done. rewrite Z.ltb_lt.
  split; [tauto|]. intros H. split; [|done]. destruct H as [_ H2%lookup_lt_Some]. unfold zlen. lia.
Qed.

(** ** Pushed data *)

Lemma pushed_split code start k : 0 <= start <= zlen code -> 0 <= k ->
  let m := Z.min k (zlen code - start) in
  pushed code start k = be_val (slice code start (start + m)) * 2 ^ (8 * (k - m))
  /\ zlen (slice code start (start + m)) = m.
Proof.
  intros Hs Hk m. unfold pushed, slice, zlen in *.
  rewrite !(drop_app_le code) by lia.
  set (rest := drop (Z.to_nat start) code).
  assert (length rest = (length code - Z.to_nat start)%nat) as Hr by apply length_drop.
  replace (start + m - start) with m by lia. replace (start + k - start) with k by lia.
  split; [|rewrite length_take; lia].
  rewrite take_app. replace (take (Z.to_nat k) rest) with (take (Z.to_nat m) rest).
  - replace (take (Z.to_nat k - length rest) (zeros (start + k))) with (zeros (k - m)).
    + apply be_val_padded. lia.
    + unfold zeros. rewrite take_replicate. f_equal. lia.
  - destruct (Z.le_ge_cases k (Z.of_nat (length code) - start)).
    + f_equal. lia.
    + rewrite !take_ge by lia. done.
Qed.

Lemma pushed_range code start k : 0 <= start <= zlen code -> 0 <= k <= 32 -> 0 <= pushed code start k < M256.
Proof.
  intros Hs Hk. destruct (pushed_split code start k Hs ltac:(lia)) as [-> Hl].
  set (m := Z.min k (zlen code - start)) in *. pose proof (be_val_range (slice code start (start + m))) as Hb.
  rewrite Hl in Hb. assert (0 <= m <= k) by lia. change 256 with (2 ^ 8) in Hb. rewrite <-Z.pow_mul_r in Hb by lia.
  assert (0 < 2 ^ (8 * (k - m))) by (apply Z.pow_pos_nonneg; lia).
  assert (2 ^ (8 * m) * 2 ^ (8 * (k - m)) <= M256).
  { rewrite <-Z.pow_add_r by lia. apply Z.pow_le_mono_r; lia. }
  nia.
Qed.

(** ** Exact specifications of the operations on the stack *)

Section Simulation.
Context {W : Type} {U : Uint256} {UL : Uint256Laws U} {RC : RunContext W} {G : Globals W}.
Context (Keccak256 : list byte -> Hash) (Keccak256For32byte : array 32 -> Hash).
Implicit Types c : context W.

(** [like c0 g pc l c]: [c] differs from [c0] in gas, position and stack, which
    holds [l]. *)
Record like (c0 : context W) (g pc : Z) (l : list u256) (c : context W) : Prop := {
  like_params : c_params c = c_params c0;
  like_context : c_context c = c_context c0;
  like_code : c_code c = c_code c0;
  like_analysis : c_analysis c = c_analysis c0;
  like_refund : c_refund c = c_refund c0;
  like_memory : c_memory c = c_memory c0;
  like_returnData : c_returnData c = c_returnData c0;
  like_sha : c_withShaCache c = c_withShaCache c0;
  like_gas : c_gas c = g;
  like_max : 0 <= g <= MaxInt64;
  like_pc : c_pc c = pc;
  like_wf : stack_wf (c_stack c);
  like_view : stack_view (c_stack c) = l
}.

Abbreviation never := (fun _ : context W => False).

Lemma like_len c0 g pc l c : like c0 g pc l c -> st_len (c_stack c) = zlen l.
Proof. intros []. rewrite <-like_view0. symmetry. by apply view_length. Qed.

Lemma x_pop c0 g pc x l c : like c0 g pc (x :: l) c ->
  wp pop (fun v c' => v = x /\ like c0 g pc l c') never c.
Proof.
  intros []. unfold pop. apply wp_bind, wp_gets.
  destruct (st_pop_view _ _ _ like_wf0 like_view0) as (s' & Hs & Hw & Hv & _).
  apply wp_bind. eapply wp_lift_option; [exact Hs|]. apply wp_bind, wp_modify, wp_ret. by split.
Qed.

Lemma x_peek c0 g pc x l c : like c0 g pc (x :: l) c ->
  wp peek (fun v c' => v = x /\ like c0 g pc (x :: l) c') never c.
Proof.
  intros H. pose proof H as []. unfold peek. apply wp_bind, wp_gets.
  eapply wp_lift_option; [by eapply st_peek_view|]. done.
Qed.

Lemma x_setTop c0 g pc x l v c : like c0 g pc (x :: l) c ->
  wp (setTop v) (fun _ => like c0 g pc (v :: l)) never c.
Proof.
  intros []. unfold setTop. apply wp_bind, wp_gets.
  destruct (st_setTop_view _ _ _ v like_wf0 like_view0) as (s' & Hs & Hw & Hv & _).
  apply wp_bind. eapply wp_lift_option; [exact Hs|]. by apply wp_modify.
Qed.

Lemma x_pushUndefined c0 g pc l c : like c0 g pc l c -> zlen l < 1024 ->
  wp pushUndefined (fun _ c' => exists x, like c0 g pc (x :: l) c') never c.
Proof.
  intros H Hl. pose proof (like_len _ _ _ _ _ H) as Hlen. destruct H. unfold pushUndefined.
  apply wp_bind, wp_gets. destruct (st_read_wf (c_stack c) (st_len (c_stack c))) as [x Hx];
    [done|pose proof (zlen_nonneg l); unfold maxStackSize; lia|].
  unfold st_pushUndefined. unfold st_len in *. rewrite Hx.
  apply wp_bind. eapply wp_lift_option; [reflexivity|]. apply wp_modify. exists x.
  destruct like_wf0 as [Hd Hs]. constructor; cbn; try done.
  - split; cbn; [done|]. unfold maxStackSize. lia.
  - rewrite <-like_view0. unfold stack_view. cbn. rewrite Z2Nat.inj_add, Nat.add_1_r by lia.
    unfold st_read in Hx. rewrite (proj2 (Z.leb_le 0 _)) in Hx by lia.
    by rewrite (take_S_r _ _ x), reverse_snoc.
Qed.

Lemma x_pushValue c0 g pc l v c : like c0 g pc l c -> zlen l < 1024 ->
  wp (pushValue v) (fun _ => like c0 g pc (v :: l)) never c.
Proof.
  intros H Hl. unfold pushValue. apply wp_bind.
  eapply wp_mono; [by apply x_pushUndefined|cbv beta; intros _ c' [x H']|done].
  by eapply x_setTop.
Qed.

Lemma x_useGas c0 g pc l a c : like c0 g pc l c -> 0 <= a <= g ->
  wp (useGas a) (fun _ => like c0 (g - a) pc l) never c.
Proof.
  intros [] Ha. unfold useGas. apply wp_bind, wp_gets. unfold MaxInt64 in *.
  rewrite like_gas0, !(proj2 (Z.ltb_ge _ _)) by lia. cbn [orb]. apply wp_modify.
  rewrite i64_id by zblia. constructor; cbn; try done. unfold MaxInt64. lia.
Qed.

(** Symbolic execution with [like] for the current context. *)
Ltac x_step :=
  lazymatch goal with
  | |- wp (mbind _ _) _ _ _ => apply wp_bind
  | |- wp (mret _) _ _ _ => apply wp_ret
  | |- wp (gets _) _ _ _ => apply wp_gets
  | |- wp (let _ := _ in _) _ _ _ => cbv zeta
  | H : like _ _ _ _ ?c |- wp pop _ _ ?c =>
      eapply wp_mono; [eapply x_pop; exact H|cbv beta; clear H; intros ? ? [-> H]|done]
  | H : like _ _ _ _ ?c |- wp peek _ _ ?c =>
      eapply wp_mono; [eapply x_peek; exact H|cbv beta; clear H; intros ? ? [-> H]|done]
  | H : like _ _ _ _ ?c |- wp (setTop _) _ _ ?c =>
      eapply wp_mono; [eapply x_setTop; exact H|cbv beta; clear H; intros ? ? H|done]
  | H : like _ _ _ _ ?c |- wp (pushValue _) _ _ ?c =>
      eapply wp_mono; [eapply x_pushValue; [exact H|lia]|cbv beta; clear H; intros ? ? H|done]
  | H : like _ _ _ _ ?c |- wp (useGas _) _ _ ?c =>
      eapply wp_mono; [eapply x_useGas; [exact H|lia]|cbv beta; clear H; intros ? ? H|done]
  end.

Ltac xs := repeat x_step.

(** *** Arithmetic, comparisons and bit operations *)

Lemma bool_word (b : bool) : uval (if b then Int_SetOne else Int_Clear) = b2z b.
Proof. destruct b; by apply NewInt_uval. Qed.

Lemma word_bool (b : bool) : uval (if b then of_Z 1 else of_Z 0) = b2z b.
Proof. destruct b; by rewrite uval_of_Z. Qed.

Lemma sval_signed a : sval a = signed (uval a).
Proof. done. Qed.

Lemma like_revision c0 g pc l c r : like c0 g pc l c -> isAtLeast r c = (revision c0 >=? r).
Proof. intros H. unfold isAtLeast, revision. by rewrite (like_params _ _ _ _ _ H). Qed.

Definition gives (c0 : context W) (g pc : Z) (z : Z) (l : list u256) (st : status) (c : context W) : Prop :=
  st = statusRunning /\ exists v, uval v = z /\ like c0 g pc (v :: l) c.

Lemma x_unary op p f c0 g pc a l c : unaryOp (revision c0) op = Some (p, f) ->
  like c0 g pc (a :: l) c ->
  wp (dispatch Keccak256 Keccak256For32byte op) (gives c0 g pc (f (uval a)) l) never c.
Proof.
  intros Ho H. destruct op; try discriminate Ho; cbn [unaryOp] in Ho.
  - injection Ho as <- <-. cbn [dispatch]. unfold running, opIszero. xs. split; [done|].
    eexists. split; [|exact H]. by rewrite IsZero_law, bool_word.
  - injection Ho as <- <-. cbn [dispatch]. unfold running, opNot. xs. split; [done|].
    eexists. split; [|exact H]. apply Not_law.
  - destruct (revision c0 >=? R15_Osaka) eqn:Er; [|done]. injection Ho as <- <-. cbn [dispatch].
    unfold running, opClz. xs. rewrite (like_revision _ _ _ _ _ _ H), Er. cbn [negb fail_if]. xs.
    split; [done|]. eexists. split; [|exact H]. pose proof (bit_length_range a).
    rewrite BitLen_law, (u64_id (bit_length _)), u64_id by zblia. apply SetUint64_law. zblia.
Qed.

Lemma small_Uint64 a : uval a <= 256 -> Int_Uint64 a = uval a.
Proof. intros Ha. pose proof (uval_range a). rewrite Uint64_law. apply Z.mod_small. lia. Qed.

Lemma shl_word a b : uval (if Int_LtUint64 a 256 then Int_Lsh b (Int_Uint64 a) else Int_Clear)
  = if uval a <? 256 then (uval b * 2 ^ uval a) mod M256 else 0.
Proof.
  rewrite LtUint64_law by done. pose proof (uval_range a). destruct (Z.ltb_spec (uval a) 256).
  - rewrite small_Uint64, Lsh_law, Z.shiftl_mul_pow2 by lia. done.
  - by apply NewInt_uval.
Qed.

Lemma shr_word a b : uval (if Int_LtUint64 a 256 then Int_Rsh b (Int_Uint64 a) else Int_Clear)
  = if uval a <? 256 then uval b / 2 ^ uval a else 0.
Proof.
  rewrite LtUint64_law by done. pose proof (uval_range a). destruct (Z.ltb_spec (uval a) 256).
  - rewrite small_Uint64, Rsh_law, Z.shiftr_div_pow2 by lia. done.
  - by apply NewInt_uval.
Qed.

(** The sign decides for shifts by the whole width. *)
Lemma sar_sign b : (sval b / 2 ^ 256) mod M256 = if uval b <? 2 ^ 255 then 0 else M256 - 1.
Proof.
  pose proof (uval_range b). pose proof (sval_range b). unfold sval in *.
  destruct (Z.ltb_spec (uval b) (2 ^ 255)).
  - by rewrite Z.div_small by lia.
  - replace ((uval b - M256) / 2 ^ 256) with (- 1); [done|].
    apply (Z.div_unique _ _ _ (uval b)); unfold M256 in *; lia.
Qed.

Lemma sar_word a b :
  uval (if Int_GtUint64 a 256 then (if Int_Sign b >=? 0 then Int_Clear else Int_SetAllOne)
        else Int_SRsh b (Int_Uint64 a))
  = if uval a <? 256 then (signed (uval b) / 2 ^ uval a) mod M256
    else if uval b <? 2 ^ 255 then 0 else M256 - 1.
Proof.
  rewrite GtUint64_law, Z.gtb_ltb by done. pose proof (uval_range a). pose proof (uval_range b).
  rewrite Sign_law. destruct (Z.ltb_spec 256 (uval a)) as [Hgt|Hle].
  - rewrite (proj2 (Z.ltb_ge (uval a) 256)) by lia. unfold sval.
    destruct (Z.ltb_spec (uval b) (2 ^ 255)).
    + rewrite Z.geb_leb, (proj2 (Z.leb_le _ _)) by (apply Z.sgn_nonneg; lia). by apply NewInt_uval.
    + rewrite Z.geb_leb, (proj2 (Z.leb_gt _ _)) by (apply Z.sgn_neg_iff; lia). apply SetAllOne_law.
  - rewrite small_Uint64, SRsh_law, Z.shiftr_div_pow2 by lia. destruct (Z.ltb_spec (uval a) 256); [done|].
    replace (uval a) with 256 by lia. apply sar_sign.
Qed.

Lemma eq_word a b : (Int_Cmp a b =? 0) = (uval a =? uval b).
Proof. rewrite Cmp_law, (Z.eqb_compare (uval a)). by destruct (uval a ?= uval b). Qed.

Ltac word_law :=
  rewrite ?bool_word, ?Add_law, ?Sub_law, ?Mul_law, ?Div_law, ?SDiv_law, ?Mod_law, ?SMod_law,
    ?ExtendSign_law, ?Lt_law, ?Gt_law, ?Slt_law, ?Sgt_law, ?And_law, ?Or_law, ?Xor_law, ?Z.gtb_ltb;
  reflexivity.

Lemma x_binary op p f c0 g pc a b l c : binaryOp op = Some (p, f) ->
  like c0 g pc (a :: b :: l) c ->
  wp (dispatch Keccak256 Keccak256For32byte op) (gives c0 g pc (f (uval a) (uval b)) l) never c.
Proof.
  intros Ho H. destruct op; try discriminate Ho; injection Ho as <- <-; cbn [dispatch];
    unfold running, opAdd, opSub, opMul, opDiv, opSDiv, opMod, opSMod, opAnd, opOr, opXor, opLt, opGt,
      opSlt, opSgt, opEq, opShl, opShr, opSignExtend, opByte, binary, comparison; xs.
  all: try (split; [done|]; eexists; split; [|exact H];
    first [word_law | apply shl_word | apply shr_word | by rewrite eq_word, word_bool]).
  - split; [done|]. eexists. split; [|exact H]. rewrite Byte_law. pose proof (uval_range a).
    destruct (Z.ltb_spec (uval a) 32); [|done]. by rewrite Z.shiftr_div_pow2 by lia.
  - unfold opSar. xs. rewrite <-sar_word. apply wp_if; intros E; xs;
      (split; [done|]; eexists; split; [by rewrite ?E|exact H]).
Qed.

(** *** Pushes *)

Lemma like_set_pc c0 g pc pc' l c : like c0 g pc l c -> like c0 g pc' l (set_pc pc' c).
Proof. intros []. by constructor. Qed.

Lemma x_code_at c0 g pc l i b c (Q : byte -> context W -> Prop) : like c0 g pc l c -> 0 <= i ->
  c_code c0 !! Z.to_nat i = Some b -> Q b c -> wp (code_at i) Q never c.
Proof.
  intros H Hi Hb HQ. unfold code_at. apply wp_bind, wp_gets. unfold id.
  rewrite (proj2 (Z.ltb_ge i 0)), (like_code _ _ _ _ _ H) by lia. by eapply wp_lift_option.
Qed.

Definition fits (c0 : context W) : Prop := zlen (c_code c0) <= 2 ^ 31 - 64.

Lemma x_opPush c0 g pc k l c : fits c0 -> like c0 g pc l c -> 0 <= pc < zlen (c_code c0) ->
  zlen l < 1024 -> 0 <= k <= 32 ->
  wp (opPush k) (fun _ c' => exists v, uval v = pushed (c_code c0) (pc + 1) k /\
    like c0 g (pc + k) (v :: l) c') never c.
Proof.
  unfold fits. intros Hf H Hp Hl Hk. unfold opPush. x_step. x_step. cbv zeta. unfold id.
  rewrite (like_code _ _ _ _ _ H), (like_pc _ _ _ _ _ H), (i32_id (pc + 1)), (Z.min_r (zlen (c_code c0)) (pc + 1)) by lia.
  set (code := c_code c0) in *.
  destruct (pushed_split code (pc + 1) k ltac:(lia) ltac:(lia)) as [Hv Hz].
  pose proof (pushed_range code (pc + 1) k ltac:(lia) ltac:(lia)) as Hr.
  set (m := Z.min k (zlen code - (pc + 1))) in *. rewrite Hv in Hr |- *.
  replace (Z.min (zlen code) (pc + 1 + k)) with (pc + 1 + m) by lia.
  replace (pc + 1 + m - (pc + 1)) with m by lia. rewrite (proj2 (Z.ltb_ge (pc + 1) 0)) by lia.
  set (bytes := slice code (pc + 1) (pc + 1 + m)) in *. pose proof (be_val_range bytes).
  assert (0 < 2 ^ (8 * (k - m))) by (apply Z.pow_pos_nonneg; lia).
  assert (uval (Int_SetBytes bytes) = be_val bytes) as Hb by (rewrite SetBytes_law; apply Z.mod_small; nia).
  x_step. x_step. x_step.
  apply wp_when; intros E; b2p; xs; rewrite (like_pc _ _ _ _ _ H), i32_id by lia; apply wp_modify;
    eexists; (split; [|apply (like_set_pc _ _ _ _ _ _ H)]).
  - rewrite Lsh_law, Hb, Z.shiftl_mul_pow2 by lia. by apply Z.mod_small.
  - rewrite Hb. replace (8 * (k - m)) with 0 by lia. lia.
Qed.

Lemma pushed_none code start k : start = zlen code -> 0 <= k -> pushed code start k = 0.
Proof.
  intros -> Hk. pose proof (zlen_nonneg code).
  destruct (pushed_split code (zlen code) k ltac:(lia) Hk) as [-> Hl].
  replace (Z.min k (zlen code - zlen code)) with 0 in * by lia.
  destruct (slice _ _ _) as [|b l']; [done|]. unfold zlen in Hl. cbn [length] in Hl. lia.
Qed.

Lemma x_opPush1 c0 g pc l c : fits c0 -> like c0 g pc l c -> 0 <= pc < zlen (c_code c0) ->
  zlen l < 1024 ->
  wp opPush1 (fun _ c' => exists v, uval v = pushed (c_code c0) (pc + 1) 1 /\
    like c0 g (pc + 1) (v :: l) c') never c.
Proof.
  unfold fits. intros Hf H Hp Hl. unfold opPush1. x_step.
  eapply wp_mono; [by eapply x_pushUndefined|cbv beta; clear H; intros _ c1 [x H]|done].
  x_step. x_step. unfold id. rewrite (like_code _ _ _ _ _ H), (like_pc _ _ _ _ _ H), (i32_id (pc + 1)) by lia.
  x_step. apply wp_if; intros E; b2p.
  - xs. apply wp_modify. eexists. split; [|by eapply like_set_pc].
    rewrite uval_of_Z, pushed_none by lia. done.
  - destruct (lookup_lt_is_Some_2 (c_code c0) (Z.to_nat (pc + 1))) as [b Hb]; [zblia|].
    x_step. eapply x_code_at; [exact H|lia|exact Hb|]. xs. apply wp_modify.
    eexists. split; [|by eapply like_set_pc].
    destruct (pushed_split (c_code c0) (pc + 1) 1 ltac:(lia) ltac:(lia)) as [-> _].
    rewrite Z.min_l by lia. rewrite (slice_cons _ _ _ b) by (done || lia).
    rewrite slice_empty, be_val_cons, uval_of_Z. pose proof (byte_val_range b).
    change (zlen []) with 0. change (be_val []) with 0. rewrite Z.mod_small by (unfold M256; lia). lia.
Qed.

Lemma lor_bytes b1 b2 : Z.lor (Z.shiftl (byte_val b1) 8) (byte_val b2) = byte_val b1 * 256 + byte_val b2.
Proof.
  pose proof (byte_val_range b1). pose proof (byte_val_range b2).
  rewrite Z.shiftl_mul_pow2 by lia. change (2 ^ 8) with 256.
  rewrite <-Z.lxor_lor, <-Z.add_nocarry_lxor; [done| |]; apply Z.bits_inj'; intros n Hn;
    rewrite Z.land_spec, Z.bits_0; change 256 with (2 ^ 8);
    (destruct (Z.lt_ge_cases n 8); [by rewrite Z.mul_pow2_bits_low|]);
    rewrite andb_comm; (destruct (Z.eq_dec (byte_val b2) 0) as [->|]; [by rewrite Z.bits_0|]);
    (rewrite (Z.bits_above_log2 (byte_val b2)); [done|lia|]);
    (assert (Z.log2 (byte_val b2) < 8) by (apply Z.log2_lt_pow2; lia); lia).
Qed.

Lemma x_opPush2 c0 g pc l c : fits c0 -> like c0 g pc l c -> 0 <= pc < zlen (c_code c0) ->
  zlen l < 1024 ->
  wp opPush2 (fun _ c' => exists v, uval v = pushed (c_code c0) (pc + 1) 2 /\
    like c0 g (pc + 2) (v :: l) c') never c.
Proof.
  unfold fits. intros Hf H Hp Hl. unfold opPush2. x_step.
  eapply wp_mono; [by eapply x_pushUndefined|cbv beta; clear H; intros _ c1 [x H]|done].
  x_step. x_step. unfold id.
  rewrite (like_code _ _ _ _ _ H), (like_pc _ _ _ _ _ H), !(i32_id (pc + 1)), !(i32_id (pc + 2)) by lia.
  destruct (pushed_split (c_code c0) (pc + 1) 2 ltac:(lia) ltac:(lia)) as [Hv _].
  x_step. apply wp_if; intros E; b2p; [|apply wp_if; intros E2; b2p].
  - xs. apply wp_modify. eexists. split; [|by eapply like_set_pc].
    rewrite uval_of_Z, pushed_none by lia. done.
  - destruct (lookup_lt_is_Some_2 (c_code c0) (Z.to_nat (pc + 1))) as [b Hb]; [zblia|].
    x_step. eapply x_code_at; [exact H|lia|exact Hb|]. xs. apply wp_modify.
    eexists. split; [|by eapply like_set_pc]. rewrite Hv, Z.min_r by lia.
    rewrite (slice_cons _ _ _ b) by (done || lia).
    replace (pc + 1 + (zlen (c_code c0) - (pc + 1))) with (pc + 1 + 1) by lia.
    rewrite slice_empty, be_val_cons, uval_of_Z. pose proof (byte_val_range b).
    change (zlen []) with 0. change (be_val []) with 0. rewrite Z.shiftl_mul_pow2 by lia.
    replace (8 * (2 - (zlen (c_code c0) - (pc + 1)))) with 8 by lia.
    rewrite Z.mod_small by (unfold M256; lia). lia.
  - destruct (lookup_lt_is_Some_2 (c_code c0) (Z.to_nat (pc + 1))) as [b1 Hb1]; [zblia|].
    destruct (lookup_lt_is_Some_2 (c_code c0) (Z.to_nat (pc + 2))) as [b2 Hb2]; [zblia|].
    x_step. eapply x_code_at; [exact H|lia|exact Hb1|]. x_step.
    eapply x_code_at; [exact H|lia|exact Hb2|]. xs. apply wp_modify.
    eexists. split; [|by eapply like_set_pc]. rewrite Hv, Z.min_l by lia.
    rewrite (slice_cons _ _ _ b1) by (done || lia).
    replace (pc + 1 + 1) with (pc + 2) by lia. rewrite (slice_cons _ _ _ b2) by (done || lia).
    replace (pc + 2 + 1) with (pc + 1 + 2) by lia. rewrite slice_empty, !be_val_cons, uval_of_Z, lor_bytes.
    pose proof (byte_val_range b1). pose proof (byte_val_range b2).
    change (zlen [b2]) with 1. change (zlen []) with 0. change (be_val []) with 0.
    rewrite Z.mod_small by (unfold M256; lia). lia.
Qed.

(** *** Duplicates, swaps and jumps *)

Lemma x_opDup c0 g pc l c (k : nat) x : like c0 g pc l c -> zlen l < 1024 -> l !! k = Some x ->
  wp (opDup (Z.of_nat (S k))) (fun _ => like c0 g pc (x :: l)) never c.
Proof.
  intros H Hl Hx. pose proof (like_len _ _ _ _ _ H) as Hn. destruct H.
  unfold opDup, dup. apply wp_bind, wp_gets. replace (Z.of_nat (S k) - 1) with (Z.of_nat k) by lia.
  destruct (st_dup_view _ k x like_wf0) as (s' & Hs & Hw & Hv & _);
    [unfold maxStackSize; lia|by rewrite like_view0|].
  apply wp_bind. eapply wp_lift_option; [exact Hs|]. apply wp_modify. constructor; cbn; try done.
  by rewrite Hv, like_view0.
Qed.

Lemma x_opSwap c0 g pc l c (k : nat) x y : like c0 g pc l c -> l !! 0%nat = Some x -> l !! k = Some y ->
  wp (opSwap (Z.of_nat k)) (fun _ => like c0 g pc (<[0%nat := y]> (<[k := x]> l))) never c.
Proof.
  intros [] Hx Hy. unfold opSwap, swap. apply wp_bind, wp_gets.
  destruct (st_swap_view _ k x y like_wf0) as (s' & Hs & Hw & Hv & _); [by rewrite like_view0..|].
  apply wp_bind. eapply wp_lift_option; [exact Hs|]. apply wp_modify. constructor; cbn; try done.
  by rewrite Hv, like_view0.
Qed.

(** The jump to a valid destination, where the step will then go on. *)
Lemma x_jump c0 g pc l d c : fits c0 -> c_analysis c0 = findJumpDestinations (c_code c0) ->
  like c0 g pc l c -> valid_dest (c_code c0) (uval d) = true ->
  wp (if negb (Int_IsUint64 d) || (Int_Uint64 d >? MaxInt32) then fail errInvalidJump
      else modify (set_pc (i32 (Int_Uint64 d) -i32 1));; checkJumpDest)
    (fun _ => like c0 g (uval d - 1) l) never c.
Proof.
  unfold fits. intros Hf Ha H Hd. pose proof (uval_range d). pose proof Hd as Hlt.
  unfold valid_dest in Hlt. apply andb_true_iff in Hlt as [Hlt%Z.ltb_lt _].
  rewrite IsUint64_law, (proj2 (Z.ltb_lt _ _)) by lia. cbn [negb orb].
  rewrite Uint64_exact by (rewrite IsUint64_law; apply Z.ltb_lt; lia). unfold MaxInt32.
  rewrite Z.gtb_ltb, (proj2 (Z.ltb_ge _ _)) by lia. apply wp_bind, wp_modify.
  rewrite (i32_id (uval d)), (i32_id (uval d - 1)) by lia.
  apply (like_set_pc _ _ _ (uval d - 1)) in H. unfold checkJumpDest. x_step. x_step. cbv zeta.
  unfold id. rewrite (like_pc _ _ _ _ _ H), (like_code _ _ _ _ _ H), (like_analysis _ _ _ _ _ H), Ha.
  replace (uval d - 1 + 1) with (uval d) by lia. rewrite i32_id, u64_id by zblia.
  rewrite <-isJumpDest_valid, andb_true_iff in Hd by lia. destruct Hd as [_ ->].
  rewrite Z.geb_leb, (proj2 (Z.leb_gt _ _)) by lia. by apply wp_ret.
Qed.

(** ** Instructions *)

Definition goes (c0 : context W) (g pc : Z) (zs : list Z) (st : status) (c : context W) : Prop :=
  st = statusRunning /\ exists l, map uval l = zs /\ like c0 g pc l c.

Lemma goes_gives c0 g pc z l zs (m : M W status) c : zs = z :: map uval l ->
  wp m (gives c0 g pc z l) never c -> wp m (goes c0 g pc zs) never c.
Proof.
  intros -> Hm. eapply wp_mono; [exact Hm|cbv beta|done]. intros st c' (-> & v & Hv & Hl). split; [done|].
  exists (v :: l). split; [cbn; by rewrite Hv|done].
Qed.

(** The instruction [op] behaves as the machine says: static price, stack
    limits, and what its function does with the rest of the gas. *)
Definition simulates (c0 : context W) (g pc : Z) (l : list u256) (op : OpCode)
    (p : Z) (zs : list Z) (pc' : Z) : Prop :=
  let s := staticPrice (revision c0 >=? R09_Berlin) op in
  0 <= s <= p /\ sl_min (opStackLimits op) <= zlen l
  /\ (zlen l <= 1024 -> zlen zs <= 1024 -> zlen l <= sl_max (opStackLimits op))
  /\ forall c, p <= g -> zlen zs <= 1024 -> like c0 (g - s) pc l c ->
      wp (dispatch Keccak256 Keccak256For32byte op) (goes c0 (g - p) (pc' - 1) zs) never c.

Lemma push_facts op b : op_in PUSH1 PUSH32 op = true ->
  let n := byte_val op - 0x5f in
  1 <= n <= 32 /\ staticPrice b op = 3 /\ opStackLimits op = mkStackLimits 0 1023
  /\ dispatch (W := W) Keccak256 Keccak256For32byte op =
       running (if n =? 1 then opPush1 else if n =? 2 then opPush2 else opPush n).
Proof. destruct op; intros E; try discriminate E; destruct b; repeat split; done. Qed.

Lemma dup_facts op b : op_in DUP1 DUP16 op = true ->
  let k := Z.to_nat (byte_val op - 0x80) in
  staticPrice b op = 3 /\ opStackLimits op = mkStackLimits (Z.of_nat k + 1) 1023
  /\ dispatch (W := W) Keccak256 Keccak256For32byte op = running (opDup (Z.of_nat (S k))).
Proof. destruct op; intros E; try discriminate E; destruct b; repeat split; done. Qed.

Lemma swap_facts op b : op_in SWAP1 SWAP16 op = true ->
  let k := Z.to_nat (byte_val op - 0x8f) in
  staticPrice b op = 3 /\ opStackLimits op = mkStackLimits (Z.of_nat k + 1) 1024
  /\ dispatch (W := W) Keccak256 Keccak256For32byte op = running (opSwap (Z.of_nat k)).
Proof. destruct op; intros E; try discriminate E; destruct b; repeat split; done. Qed.

Lemma unary_facts rev op p f b : unaryOp rev op = Some (p, f) ->
  staticPrice b op = p /\ 0 <= p /\ opStackLimits op = mkStackLimits 1 1024.
Proof.
  destruct op; intros E; try discriminate E; cbn [unaryOp] in E;
    try (destruct (rev >=? R15_Osaka); [|done]); injection E as <- <-; by destruct b.
Qed.

Lemma binary_facts op p f b : binaryOp op = Some (p, f) ->
  staticPrice b op = p /\ 0 <= p /\ opStackLimits op = mkStackLimits 2 1024.
Proof. destruct op; intros E; try discriminate E; injection E as <- <-; by destruct b. Qed.

Lemma sim_push c0 g pc l op : fits c0 -> 0 <= pc < zlen (c_code c0) -> op_in PUSH1 PUSH32 op = true ->
  let n := byte_val op - 0x5f in
  simulates c0 g pc l op 3 (pushed (c_code c0) (pc + 1) n :: map uval l) (pc + n + 1).
Proof.
  intros Hf Hp Ho n. unfold simulates.
  destruct (push_facts op (revision c0 >=? R09_Berlin) Ho) as (Hn & -> & -> & ->). fold n in Hn |- *.
  pose proof (zlen_nonneg l). cbn [sl_min sl_max]. rewrite zlen_cons, zlen_map.
  split; [lia|]. split; [lia|]. split; [lia|]. intros c Hg Hl Hc. unfold running. apply wp_bind.
  assert (wp (if n =? 1 then opPush1 else if n =? 2 then opPush2 else opPush n)
    (fun _ c' => exists v, uval v = pushed (c_code c0) (pc + 1) n /\ like c0 (g - 3) (pc + n) (v :: l) c')
    never c) as Hw.
  { destruct (Z.eqb_spec n 1) as [->|]; [by apply x_opPush1; try lia|].
    destruct (Z.eqb_spec n 2) as [->|]; [by apply x_opPush2; try lia|]. by apply x_opPush; try lia. }
  eapply wp_mono; [exact Hw|cbv beta|done]. intros _ c' (v & Hv & H'). apply wp_ret.
  split; [done|]. exists (v :: l). split; [cbn; by rewrite Hv|].
  by replace (pc + n + 1 - 1) with (pc + n) by lia.
Qed.

Lemma sim_dup c0 g pc l op x : op_in DUP1 DUP16 op = true ->
  map uval l !! Z.to_nat (byte_val op - 0x80) = Some x ->
  simulates c0 g pc l op 3 (x :: map uval l) (pc + 1).
Proof.
  intros Ho Hx. unfold simulates.
  destruct (dup_facts op (revision c0 >=? R09_Berlin) Ho) as (-> & -> & ->).
  cbn [sl_min sl_max]. rewrite zlen_cons, zlen_map. rewrite list_lookup_fmap in Hx.
  apply fmap_Some in Hx as (v & Hv & ->). pose proof (lookup_lt_Some _ _ _ Hv).
  split; [lia|]. split; [unfold zlen; lia|]. split; [lia|]. intros c Hg Hl Hc. unfold running. apply wp_bind.
  eapply wp_mono; [eapply x_opDup; [exact Hc|lia|exact Hv]|cbv beta|done]. intros _ c' H'. apply wp_ret.
  split; [done|]. exists (v :: l). split; [done|]. by replace (pc + 1 - 1) with pc by lia.
Qed.

Lemma sim_swap c0 g pc l op x y : op_in SWAP1 SWAP16 op = true ->
  let k := Z.to_nat (byte_val op - 0x8f) in
  map uval l !! 0%nat = Some x -> map uval l !! k = Some y ->
  simulates c0 g pc l op 3 (<[0%nat := y]> (<[k := x]> (map uval l))) (pc + 1).
Proof.
  intros Ho k Hx Hy. unfold simulates.
  destruct (swap_facts op (revision c0 >=? R09_Berlin) Ho) as (-> & -> & ->). fold k.
  cbn [sl_min sl_max]. rewrite list_lookup_fmap in Hx, Hy.
  apply fmap_Some in Hx as (vx & Hvx & ->). apply fmap_Some in Hy as (vy & Hvy & ->).
  pose proof (lookup_lt_Some _ _ _ Hvy).
  assert (map uval (<[0%nat := vy]> (<[k := vx]> l)) = <[0%nat := uval vy]> (<[k := uval vx]> (map uval l))) as Hm
    by (by rewrite !(list_fmap_insert uval)).
  rewrite <-Hm, zlen_map. unfold zlen. rewrite !length_insert.
  split; [lia|]. split; [lia|]. split; [lia|]. intros c Hg Hl H'. unfold running. apply wp_bind.
  eapply wp_mono; [eapply x_opSwap; [exact H'|exact Hvx|exact Hvy]|cbv beta|done].
  intros _ c' H2. apply wp_ret. split; [done|]. eexists. split; [reflexivity|].
  by replace (pc + 1 - 1) with pc by lia.
Qed.

Lemma sim_unary c0 g pc a l op p f : unaryOp (revision c0) op = Some (p, f) ->
  simulates c0 g pc (a :: l) op p (f (uval a) :: map uval l) (pc + 1).
Proof.
  intros Ho. unfold simulates.
  destruct (unary_facts _ op p f (revision c0 >=? R09_Berlin) Ho) as (-> & Hp & ->).
  cbn [sl_min sl_max]. rewrite !zlen_cons, zlen_map. pose proof (zlen_nonneg l).
  split; [lia|]. split; [lia|]. split; [lia|]. intros c Hg Hl Hc.
  replace (pc + 1 - 1) with pc by lia. eapply goes_gives; [reflexivity|]. by eapply x_unary.
Qed.

Lemma sim_binary c0 g pc a b l op p f : binaryOp op = Some (p, f) ->
  simulates c0 g pc (a :: b :: l) op p (f (uval a) (uval b) :: map uval l) (pc + 1).
Proof.
  intros Ho. unfold simulates.
  destruct (binary_facts op p f (revision c0 >=? R09_Berlin) Ho) as (-> & Hp & ->).
  cbn [sl_min sl_max]. rewrite !zlen_cons, zlen_map. pose proof (zlen_nonneg l).
  split; [lia|]. split; [lia|]. split; [lia|]. intros c Hg Hl Hc.
  replace (pc + 1 - 1) with pc by lia. eapply goes_gives; [reflexivity|]. by eapply x_binary.
Qed.

(** A concrete instruction: its price and limits are computed. *)
Ltac sim_start :=
  unfold simulates; try match goal with |- context [staticPrice ?b ?op] => destruct b end;
  repeat match goal with |- context [staticPrice ?b ?op] =>
    let v := eval vm_compute in (staticPrice b op) in change (staticPrice b op) with v end;
  repeat match goal with |- context [opStackLimits ?op] =>
    let v := eval vm_compute in (opStackLimits op) in change (opStackLimits op) with v end;
  cbn [sl_min sl_max]; rewrite ?zlen_cons, ?zlen_map;
  repeat match goal with |- context [zlen ?l] => lazymatch goal with
    | _ : 0 <= zlen l |- _ => fail | _ => pose proof (zlen_nonneg l) end end;
  (split; [lia|]); (split; [lia|]); (split; [lia|]);
  let c := fresh "c" in let H := fresh "Hc" in intros c ? ? H; cbn [dispatch]; unfold running.

Ltac sim_end H :=
  split; [done|]; eexists; split; [|match goal with |- like _ _ (?x + 1 - 1) _ _ =>
    replace (x + 1 - 1) with x by lia end; exact H].

Lemma sim_stack c0 g pc a l : simulates c0 g pc (a :: l) POP 2 (map uval l) (pc + 1).
Proof. sim_start; unfold opPop; xs; sim_end Hc; done. Qed.

Lemma sim_push0 c0 g pc l : (revision c0 >=? R12_Shanghai) = true ->
  simulates c0 g pc l PUSH0 2 (0 :: map uval l) (pc + 1).
Proof.
  intros Hr. sim_start; unfold opPush0; x_step; x_step; x_step;
    rewrite (like_revision _ _ _ _ _ _ Hc), Hr; cbn [negb fail_if]; xs; sim_end Hc;
    cbn; by rewrite uval_of_Z.
Qed.

Lemma sim_pc c0 g pc l : fits c0 -> 0 <= pc < zlen (c_code c0) ->
  simulates c0 g pc l PC 2 (pc :: map uval l) (pc + 1).
Proof.
  unfold fits. intros Hf Hp. sim_start; unfold opPc; x_step; x_step; x_step;
    rewrite (like_pc _ _ _ _ _ Hc); xs; sim_end Hc;
    cbn; (rewrite (u64_id pc), SetUint64_law by zblia); done.
Qed.

Lemma sim_gas c0 g pc l : 0 <= g <= MaxInt64 -> simulates c0 g pc l GAS 2 (g - 2 :: map uval l) (pc + 1).
Proof.
  unfold MaxInt64. intros Hg. sim_start; unfold opGas; x_step; x_step; x_step;
    rewrite (like_gas _ _ _ _ _ Hc); xs; sim_end Hc;
    cbn; (rewrite (u64_id (g - 2)), SetUint64_law by zblia); done.
Qed.

Lemma sim_jumpdest c0 g pc l : simulates c0 g pc l JUMPDEST 1 (map uval l) (pc + 1).
Proof. sim_start; xs; sim_end Hc; done. Qed.

Lemma sim_jump c0 g pc d l : fits c0 -> c_analysis c0 = findJumpDestinations (c_code c0) ->
  valid_dest (c_code c0) (uval d) = true ->
  simulates c0 g pc (d :: l) JUMP 8 (map uval l) (uval d).
Proof.
  intros Hf Ha Hd. sim_start; unfold opJump; x_step; x_step; x_step;
    (eapply wp_mono; [by eapply x_jump|cbv beta|done]); intros _ c2 H2; apply wp_ret;
    (split; [done|]); by exists l.
Qed.

Lemma sim_jumpi_no c0 g pc d cond l : uval cond = 0 ->
  simulates c0 g pc (d :: cond :: l) JUMPI 10 (map uval l) (pc + 1).
Proof.
  intros Hz. sim_start; unfold opJumpi; x_step; x_step; x_step; x_step; x_step;
    (rewrite IsZero_law, Hz; cbn [Z.eqb negb]); xs; sim_end Hc; done.
Qed.

Lemma sim_jumpi c0 g pc d cond l : fits c0 -> c_analysis c0 = findJumpDestinations (c_code c0) ->
  valid_dest (c_code c0) (uval d) = true -> uval cond <> 0 ->
  simulates c0 g pc (d :: cond :: l) JUMPI 10 (map uval l) (uval d).
Proof.
  intros Hf Ha Hd Hz. sim_start; unfold opJumpi; x_step; x_step; x_step; x_step; x_step;
    (rewrite IsZero_law, (proj2 (Z.eqb_neq _ _) Hz); cbn [negb]);
    (eapply wp_mono; [by eapply x_jump|cbv beta|done]); intros _ c2 H2; apply wp_ret;
    (split; [done|]); by exists l.
Qed.

Lemma sim_addmod c0 g pc a b n l : simulates c0 g pc (a :: b :: n :: l) ADDMOD 8
  ((if uval n =? 0 then 0 else (uval a + uval b) mod uval n) :: map uval l) (pc + 1).
Proof. sim_start; unfold opAddMod; xs; sim_end Hc; cbn [map]; by rewrite AddMod_law. Qed.

Lemma sim_mulmod c0 g pc a b n l : simulates c0 g pc (a :: b :: n :: l) MULMOD 8
  ((if uval n =? 0 then 0 else (uval a * uval b) mod uval n) :: map uval l) (pc + 1).
Proof. sim_start; unfold opMulMod; xs; sim_end Hc; cbn [map]; by rewrite MulMod_law. Qed.

Lemma sim_exp c0 g pc a b l : simulates c0 g pc (a :: b :: l) EXP
  (10 + 50 * ((bit_length (uval b) + 7) / 8)) (uval a ^ uval b mod M256 :: map uval l) (pc + 1).
Proof.
  pose proof (bit_length_range b). assert (0 <= (bit_length (uval b) + 7) / 8 <= 32) by divlia.
  sim_start; unfold opExp; x_step; x_step; x_step; x_step; x_step; x_step;
    (rewrite ByteLen_law, i64_id by zblia); xs;
    (replace (g - 10 - 50 * ((bit_length (uval b) + 7) / 8))
      with (g - (10 + 50 * ((bit_length (uval b) + 7) / 8))) in Hc by lia);
    sim_end Hc; cbn [map]; by rewrite Exp_law.
Qed.

(** Operations on the top of the stack only. *)
Definition operation (rev : Revision) (pc : Z) (st : list Z) (op : OpCode) : option (Z * list Z * Z) :=
  match st with
  | [] => None
  | a :: st =>
      match unaryOp rev op, binaryOp op, st with
      | Some (p, f), _, _ => Some (p, f a :: st, pc + 1)
      | None, Some (p, f), b :: st => Some (p, f a b :: st, pc + 1)
      | _, _, _ => None
      end
  end.

Lemma sim_operation c0 g pc l op p zs pc' : operation (revision c0) pc (map uval l) op = Some (p, zs, pc') ->
  simulates c0 g pc l op p zs pc' /\ pc' = pc + 1.
Proof.
  destruct l as [|a l]; [done|]. cbn [map operation].
  destruct (unaryOp (revision c0) op) as [[p1 f1]|] eqn:E1.
  - intros [= <- <- <-]. split; [by apply sim_unary|done].
  - destruct (binaryOp op) as [[p2 f2]|] eqn:E2; [|done]. destruct l as [|b l]; [done|].
    intros [= <- <- <-]. split; [by apply sim_binary|done].
Qed.

Lemma sim_effect c0 g pc l op p zs pc' : fits c0 -> c_analysis c0 = findJumpDestinations (c_code c0) ->
  0 <= pc < zlen (c_code c0) -> 0 <= g <= MaxInt64 ->
  effect (c_code c0) (revision c0) pc g (map uval l) op = Some (p, zs, pc') ->
  simulates c0 g pc l op p zs pc' /\ 0 <= pc' <= zlen (c_code c0) + 32.
Proof.
  intros Hf Ha Hp Hg. unfold effect.
  destruct (op_in PUSH1 PUSH32 op) eqn:E1.
  { intros [= <- <- <-]. pose proof (push_facts op true E1) as [Hn _].
    split; [by apply sim_push|lia]. }
  destruct (op_in DUP1 DUP16 op) eqn:E2.
  { destruct (map uval l !! _) as [x|] eqn:Ex; [|done]. intros [= <- <- <-].
    split; [by apply sim_dup|lia]. }
  destruct (op_in SWAP1 SWAP16 op) eqn:E3.
  { destruct (map uval l !! 0%nat) as [x|] eqn:Ex; [|done].
    destruct (map uval l !! Z.to_nat (byte_val op - 0x8f)) as [y|] eqn:Ey; [|done]. intros [= <- <- <-].
    split; [by apply sim_swap|lia]. }
  assert (forall d, valid_dest (c_code c0) (uval d) = true ->
    0 <= uval d <= zlen (c_code c0) + 32) as Hd.
  { intros d Hd. pose proof (uval_range d). unfold valid_dest in Hd. b2p. lia. }
  assert (operation (revision c0) pc (map uval l) op = Some (p, zs, pc') ->
    simulates c0 g pc l op p zs pc' /\ 0 <= pc' <= zlen (c_code c0) + 32) as Hop.
  { intros Ho. apply (sim_operation _ g) in Ho as [Hs ->]. split; [done|lia]. }
  destruct op; try discriminate; try exact Hop; clear Hop.
  - destruct l as [|a [|b [|n l]]]; try done. intros [= <- <- <-]. split; [apply sim_addmod|lia].
  - destruct l as [|a [|b [|n l]]]; try done. intros [= <- <- <-]. split; [apply sim_mulmod|lia].
  - destruct l as [|a [|b l]]; try done. intros [= <- <- <-]. split; [apply sim_exp|lia].
  - destruct l as [|a l]; [done|]. intros [= <- <- <-]. split; [apply sim_stack|lia].
  - destruct l as [|d l]; [done|]. cbn [map]. destruct (valid_dest _ _) eqn:Ed; [|done].
    intros [= <- <- <-]. split; [by apply sim_jump|auto].
  - destruct l as [|d [|cond l]]; try done. cbn [map].
    destruct (Z.eqb_spec (uval cond) 0); [intros [= <- <- <-]; split; [by apply sim_jumpi_no|lia]|].
    destruct (valid_dest _ _) eqn:Ed; [|done]. intros [= <- <- <-]. split; [by apply sim_jumpi|auto].
  - intros [= <- <- <-]. split; [by apply sim_pc|lia].
  - intros [= <- <- <-]. split; [by apply sim_gas|lia].
  - intros [= <- <- <-]. split; [by apply sim_jumpdest|lia].
  - destruct (revision c0 >=? R12_Shanghai) eqn:Er; [|done]. intros [= <- <- <-].
    split; [by apply sim_push0|lia].
Qed.

(** ** Steps *)

(** [models c0 s c]: the context [c] represents the machine [s]; it differs
    from [c0] only in stack, gas and position. *)
Definition models (c0 : context W) (s : amach) (c : context W) : Prop :=
  exists l, map uval l = a_stack s /\ like c0 (a_gas s) (a_pc s) l c /\ 0 <= a_pc s.

Lemma like_zlen c0 g pc l c : like c0 g pc l c -> zlen l <= 1024.
Proof.
  intros H. pose proof (like_len _ _ _ _ _ H) as Hl. destruct H. destruct like_wf0 as [_ Hs].
  unfold st_len, maxStackSize in *. lia.
Qed.

Lemma sim_step c0 s c s' : fits c0 -> c_analysis c0 = findJumpDestinations (c_code c0) ->
  models c0 s c -> astep (c_code c0) (revision c0) s = Some s' ->
  exists c', step Keccak256 Keccak256For32byte c = (Ok statusRunning, c') /\ models c0 s' c'
    /\ c_pc c < zlen (c_code c).
Proof.
  intros Hf Ha (l & Hl & H & Hpc) Hs. unfold astep in Hs. pose proof (like_max _ _ _ _ _ H) as Hmax.
  destruct (c_code c0 !! Z.to_nat (a_pc s)) as [op|] eqn:Eop; [|done]. cbn [mbind option_bind] in Hs.
  pose proof (lookup_lt_Some _ _ _ Eop) as Hlt. rewrite <-Hl in Hs.
  destruct (effect _ _ _ _ _ op) as [[[p zs] pc']|] eqn:Ee; [|done]. cbn [mbind option_bind] in Hs.
  destruct ((length zs <=? 1024)%nat && (p <=? a_gas s))%bool eqn:Ec; [|done]. injection Hs as <-.
  apply andb_true_iff in Ec as [Hz%Nat.leb_le Hg%Z.leb_le].
  apply sim_effect in Ee as [(Hp & Hmin & Hlim & Hd) Hpc']; [|done|done|unfold zlen; lia|done].
  assert (zlen zs <= 1024) as Hz' by (unfold zlen; lia). pose proof (like_zlen _ _ _ _ _ H) as Hl1.
  assert (wp (step Keccak256 Keccak256For32byte)
    (fun st c' => st = statusRunning /\ models c0 (mkMach zs (a_gas s - p) pc') c') never c) as Hw.
  { unfold step. x_step. x_step. unfold id. x_step. rewrite (like_pc _ _ _ _ _ H).
    eapply x_code_at; [exact H|done|exact Eop|]. x_step.
    unfold checkStackLimits. x_step. eapply wp_lift_option; [apply newOpCodePropertyMap_get|].
    rewrite (like_len _ _ _ _ _ H), (proj2 (Z.ltb_ge _ _)), Z.gtb_ltb, (proj2 (Z.ltb_ge _ _)) by auto.
    x_step. x_step. eapply wp_lift_option; [apply getStaticGasPrices_get|].
    replace (revision c) with (revision c0) by (unfold revision; by rewrite (like_params _ _ _ _ _ H)).
    x_step. x_step. x_step. eapply wp_mono; [apply Hd; [done|done|exact H]|cbv beta|done].
    intros st c2 (-> & l' & Hl' & H'). x_step. x_step. x_step. apply wp_modify, wp_ret.
    unfold fits in Hf. rewrite (like_pc _ _ _ _ _ H'), i32_id by lia. split; [done|]. exists l'.
    split; [done|]. split; [|cbn; lia]. replace (pc' - 1 + 1) with pc' by lia. by eapply like_set_pc. }
  unfold wp in Hw. destruct (step _ _ c) as [[st|e|] c']; [|done..]. destruct Hw as [-> Hm].
  exists c'. split; [done|]. split; [done|]. rewrite (like_pc _ _ _ _ _ H), (like_code _ _ _ _ _ H).
  unfold zlen. lia.
Qed.

Lemma sim_steps n : forall c0 s c s', fits c0 -> c_analysis c0 = findJumpDestinations (c_code c0) ->
  models c0 s c -> asteps n (c_code c0) (revision c0) s = Some s' ->
  exists c', models c0 s' c' /\ forall fuel,
    steps Keccak256 Keccak256For32byte (n + fuel) false c = steps Keccak256 Keccak256For32byte fuel false c'.
Proof.
  induction n as [|n IH]; intros c0 s c s' Hf Ha Hm Hs.
  { injection Hs as <-. by exists c. }
  cbn [asteps] in Hs. destruct (astep _ _ s) as [s1|] eqn:E1; [|done].
  destruct (sim_step c0 s c s1 Hf Ha Hm E1) as (c1 & Hc1 & Hm1 & Hlt).
  destruct (IH c0 s1 c1 s' Hf Ha Hm1 Hs) as (c' & Hm' & Hfuel). exists c'. split; [done|].
  intros fuel. cbn [steps Nat.add]. rewrite Z.geb_leb, (proj2 (Z.leb_gt _ _)), Hc1 by done. apply Hfuel.
Qed.

Lemma models_init config jd params (w : W) garbage s : zlen garbage = maxStackSize ->
  0 <= p_Gas params <= MaxInt64 -> s = mkMach [] (p_Gas params) 0 ->
  models (initContext config jd params w garbage) s (initContext config jd params w garbage).
Proof.
  intros Hg Hm ->. destruct (NewStack_wf garbage Hg) as [Hw Hv]. exists []. split; [done|]. by split.
Qed.

End Simulation.

(** ** The refinement *)

(** [sfvm] refines the abstract stack machine: whenever the machine can
    make [n] steps, the loop of the interpreter makes the same steps, without
    errors, and arrives in a context that represents the machine's state and
    in which nothing but stack, gas and position has changed. *)
Theorem steps_refine {W} {U : Uint256} {UL : Uint256Laws U} {RC : RunContext W} {G : Globals W} K K32
    n (c0 : context W) s c s' :
  fits c0 -> c_analysis c0 = findJumpDestinations (c_code c0) ->
  models c0 s c -> asteps n (c_code c0) (revision c0) s = Some s' ->
  exists c', models c0 s' c' /\ c_context c' = c_context c0 /\ c_memory c' = c_memory c0
    /\ forall fuel, steps K K32 (n + fuel) false c = steps K K32 fuel false c'.
Proof.
  intros Hf Ha Hm Hs. destruct (sim_steps K K32 n c0 s c s' Hf Ha Hm Hs) as (c' & Hm' & Hfuel).
  exists c'. split; [done|]. destruct Hm' as (l & _ & [] & _). done.
Qed.

(** C9. Runs refine the machine: if the machine started with an empty stack
    and the gas of the run moves past the end of the code in [n] steps, the run
    succeeds with exactly the gas the machine has left, whatever the pooled
    stack contains and whatever a coherent analysis cache holds, and leaves the
    world as it is. *)
Theorem run_refines {W} {U : Uint256} {UL : Uint256Laws U} {RC : RunContext W} {G : Globals W}
    {C} {L : LRU jumpDestMap C} {LL : LRULaws L} K K32 (codeHash : Code -> Hash) (deployed : Code -> Prop)
    n config (a : analysis C) (w : W) params garbage s :
  (forall c1 c2, deployed c1 -> deployed c2 -> codeHash c1 = codeHash c2 -> c1 = c2) ->
  cache_coherent codeHash deployed a -> deployed (p_Code params) ->
  p_CodeHash params = None \/ p_CodeHash params = Some (codeHash (p_Code params)) ->
  zlen garbage = maxStackSize -> 0 <= p_Gas params <= MaxInt64 -> zlen (p_Code params) <= 2 ^ 31 - 64 ->
  asteps n (p_Code params) (bp_Revision (p_Block params)) (mkMach [] (p_Gas params) 0) = Some s ->
  zlen (p_Code params) <= a_pc s ->
  exists a', run K K32 (S n) a config w params garbage = Some (w, a', inl (mkResult true [] (a_gas s) 0)).
Proof.
  intros Hinj Hc Hd Hh Hg Hm Hz Hs Hend. unfold run. destruct (Z.eqb_spec (zlen (p_Code params)) 0) as [E0|E0].
  { destruct n as [|n]; [injection Hs as <-; by eexists|]. exfalso. cbn [asteps] in Hs. unfold astep in Hs.
    cbn [a_pc] in Hs. destruct (p_Code params); [done|]. unfold zlen in E0. cbn in E0. lia. }
  destruct (analyzeJumpDest_coherent codeHash deployed Hinj a (p_Code params) (p_CodeHash params))
    as [Hjd _]; [done|done|done|].
  destruct (analyzeJumpDest a (p_Code params) (p_CodeHash params)) as [a' jd]. cbn [snd] in Hjd. subst jd.
  set (c0 := initContext config _ params w garbage).
  destruct (sim_steps K K32 n c0 (mkMach [] (p_Gas params) 0) c0 s Hz eq_refl) as (c' & (l & _ & H & _) & Hfuel);
    [by apply models_init|done|].
  exists a'. unfold execute. replace (S n) with (n + 1)%nat by lia. rewrite Hfuel. cbn [steps].
  rewrite (like_pc _ _ _ _ _ H), (like_code _ _ _ _ _ H), Z.geb_leb, (proj2 (Z.leb_le _ _)) by done.
  cbn [generateResult]. by rewrite (like_gas _ _ _ _ _ H), (like_refund _ _ _ _ _ H), (like_context _ _ _ _ _ H).
Qed.

#[local] Existing Instance uint256_ref.
#[local] Existing Instance uint256_ref_laws.
#[local] Existing Instance refRunContext.

(** A loop that counts down from 5. *)
Definition loopCode : Code :=
  [PUSH1; x05; JUMPDEST; PUSH1; x01; SWAP1; SUB; DUP1; PUSH1; x02; JUMPI].

Definition loopParams : Parameters := exampleParams R13_Cancun false 1000 loopCode.

Example loop_machine :
  asteps 36 loopCode R13_Cancun (mkMach [] 1000 0) = Some (mkMach [0] (1000 - 3 - 5 * 26) 11).
Proof. vm_compute. reflexivity. Qed.

Lemma steps_refine_witness :
  let c0 := initContext exampleConfig (findJumpDestinations loopCode) loopParams exampleWorld exampleStack in
  exists c', models c0 (mkMach [0] 867 11) c'
    /\ steps refHash refHash32 37 false c0 = steps refHash refHash32 1 false c'.
Proof.
  intros c0. destruct (steps_refine refHash refHash32 36 c0 (mkMach [] 1000 0) c0 (mkMach [0] 867 11))
    as (c' & Hm & _ & _ & Hf).
  - done.
  - reflexivity.
  - by apply models_init.
  - vm_compute. reflexivity.
  - exists c'. split; [exact Hm|exact (Hf 1%nat)].
Defined.

Lemma run_refines_witness :
  exists a', run refHash refHash32 37 (mkAnalysis (C := assocCache) (Some []) 100) exampleConfig exampleWorld
    loopParams exampleStack = Some (exampleWorld, a', inl (mkResult true [] 867 0)).
Proof.
  apply (run_refines refHash refHash32 (fun _ => zeroWord) (fun c => c = loopCode) 36 exampleConfig
    (mkAnalysis (C := assocCache) (Some []) 100) exampleWorld loopParams exampleStack (mkMach [0] 867 11)).
  - by intros c1 c2 -> ->.
  - intros cache h m [= <-] Hm. 
    by destruct (lru_New_empty (L := refLRU) 1 [] h m ltac:(reflexivity) Hm).
  - reflexivity.
  - by left.
  - reflexivity.
  - done.
  - done.
  - vm_compute. reflexivity.
  - done.
Defined.
