(* ===== verification/SfvmEffects.v ===== *)
(** * Effects of single instructions

    Net gas of storage writes, costs and contents of the memory, stack usage,
    the gas of calls, and the jump analysis behind its cache. *)
From Stdlib Require Import ZArith Lia Strings.Byte.
From stdpp Require Import base list numbers gmap.
From S2P Require Import Prelude Uint256 Types OpCodes SfvmStack SfvmAnalysis SfvmHashCache.
From S2P Require Import SfvmContext SfvmMemory SfvmGas SfvmInstructions SfvmInterpreter SfvmLogic.
From S2P Require Import RefWorld SfvmSafety SfvmExecution SfvmProperties.
Set Default Goal Selector "!".
Local Open Scope Z_scope.
Local Open Scope go_scope.

#[local] Existing Instance uint256_ref.
#[local] Existing Instance uint256_ref_laws.
#[local] Existing Instance refRunContext.

(** ** Net gas of storage writes *)

(** The price of a write to a slot that is warm and dirty. *)
Definition sstoreBase (rev : Revision) : Gas := if rev >=? R09_Berlin then 100 else 800.

(** What a slot with original value [o] and current value [v] has cost, net of
    refunds and base prices: nothing if it is restored; the price of a new
    slot; or the price of a change, less the refund for clearing the slot. *)
Definition potential (rev : Revision) (o v : Word) : Gas :=
  if bool_decide (v = o) then 0
  else if bool_decide (o = zeroWord) then (if rev >=? R09_Berlin then 19900 else 19200)
  else (if rev >=? R09_Berlin then 2800 else 4200)
       - (if bool_decide (v = zeroWord) then (if rev >=? R10_London then 4800 else 15000) else 0).

(** The costs and the refunds of writing [ws], one after the other, to a slot
    with original value [o] and current value [c]. *)
Fixpoint writeCosts (rev : Revision) (o c : Word) (ws : list Word) : Gas :=
  match ws with
  | [] => 0
  | n :: ws => getDynamicCostsForSstore rev (GetStorageStatus o c n) + writeCosts rev o n ws
  end.

Fixpoint writeRefunds (rev : Revision) (o c : Word) (ws : list Word) : Gas :=
  match ws with
  | [] => 0
  | n :: ws => getRefundForSstore rev (GetStorageStatus o c n) + writeRefunds rev o n ws
  end.

Lemma write_net rev o c n : let st := GetStorageStatus o c n in
  getDynamicCostsForSstore rev st - getRefundForSstore rev st - sstoreBase rev
  = potential rev o n - potential rev o c.
Proof.
  assert ((rev >=? R09_Berlin) = true \/ (rev >=? R10_London) = false) as Hr.
  { unfold R09_Berlin, R10_London. rewrite !Z.geb_leb, Z.leb_le, Z.leb_gt. lia. }
  unfold GetStorageStatus, sstoreBase, potential.
  arr_cases; repeat (case_bool_decide; try congruence); cbn [getDynamicCostsForSstore getRefundForSstore];
    destruct (rev >=? R09_Berlin), (rev >=? R10_London); destruct Hr; (done || lia).
Qed.

(** C29. Net gas metering: however often a slot is written within a transaction,
    the costs less the refunds are the base price per write plus an amount that
    only depends on the original and the final value. In particular, writes
    that end at the original value cost the base price each, and no cycle of
    writes gains gas. *)
Theorem sstore_net_gas rev o ws :
  writeCosts rev o o ws - writeRefunds rev o o ws
  = zlen ws * sstoreBase rev + potential rev o (default o (last ws)).
Proof.
  assert (forall c, writeCosts rev o c ws - writeRefunds rev o c ws
    = zlen ws * sstoreBase rev + potential rev o (default c (last ws)) - potential rev o c) as H.
  { induction ws as [|n ws IH]; intros c; [unfold zlen; cbn; lia|].
    cbn [writeCosts writeRefunds]. specialize (IH n). pose proof (write_net rev o c n) as Hn. cbv zeta in Hn.
    assert (default c (last (n :: ws)) = default n (last ws)) as ->.
    { rewrite last_cons. by destruct (last ws). }
    replace (zlen (n :: ws)) with (zlen ws + 1) by (unfold zlen; cbn; lia). lia. }
  rewrite (H o). unfold potential at 2. rewrite bool_decide_true by done. lia.
Qed.

(** ** Memory *)

(** The price of a memory of [words] words. *)
Definition wordsCost (words : Z) : Gas := words * words / 512 + 3 * words.

(** The outcome of an expansion, without bounds on the integers. *)
Definition expansion {W} (offset size : Z) (c : context W) : outcome unit * context W :=
  let m := c_memory c in
  if (size =? 0) || (offset + size <=? zlen (m_store m)) then (Ok tt, c)
  else if 2 ^ 64 <=? offset + size then (Err errOverflow, c)
  else
    let words := (offset + size + 31) / 32 in
    if words =? 2 ^ 59 then (Err errOverflow, c)
    else if maxMemoryExpansionSize <? 32 * words then (Err errMaxMemoryExpansionSize, c)
    else
      let fee := wordsCost words - m_currentMemoryCost m in
      if c_gas c <? fee then (Err errOutOfGas, c)
      else (Ok tt, set_memory (mkMemory (m_store m ++ zeros (32 * words - zlen (m_store m))) (wordsCost words))
                     (set_gas (c_gas c - fee) c)).

Lemma expandMemory_eval {W} (c : context W) offset size : mem_wf (c_memory c) ->
  0 <= c_gas c <= MaxInt64 -> isU64 offset -> isU64 size ->
  expandMemory offset size c = expansion offset size c.
Proof.
  intros Hm Hg Ho Hs. unfold expandMemory, expansion, isU64, MaxInt64 in *.
  destruct (Z.eqb_spec size 0) as [|E0]; [done|]. cbn [orb].
  pose proof Hm as (w & Hw & Hb & Hc). unfold maxMemoryExpansionSize in Hb.
  destruct (Z.leb_spec (2 ^ 64) (offset + size)) as [Hov|Hov].
  { rewrite (proj2 (Z.leb_gt _ _)) by lia. unfold u64, wrapU.
    rewrite <-(Z.mod_unique (offset + size) (2 ^ 64) 1 (offset + size - 2 ^ 64)) by lia.
    by rewrite (proj2 (Z.ltb_lt _ _)) by lia. }
  rewrite u64_id by zblia. rewrite (proj2 (Z.ltb_ge (offset + size) offset)) by lia.
  unfold mbind, M_bind, gets. rewrite m_length_exact by done.
  destruct (Z.leb_spec (offset + size) (zlen (m_store (c_memory c)))) as [Hin|Hout].
  { by rewrite (proj2 (Z.ltb_ge _ _)) by lia. }
  rewrite (proj2 (Z.ltb_lt _ _)) by lia. rewrite getExpansionCostsAndSize_spec by (done || zblia).
  rewrite Z.geb_leb, (proj2 (Z.leb_gt _ _)) by lia. cbv zeta. unfold wordsCost.
  set (words := (offset + size + 31) / 32).
  assert (offset + size <= 32 * words < offset + size + 32) as Hwd by (unfold words; divlia).
  destruct (words =? 2 ^ 59); [done|]. rewrite Z.gtb_ltb.
  destruct (Z.ltb_spec maxMemoryExpansionSize (32 * words)) as [|Hmax]; [done|].
  unfold maxMemoryExpansionSize in Hmax. destruct (memoryCost_exact words) as [_ Hcw];
    [unfold maxMemoryExpansionSize; lia|].
  pose proof (memory_cost_mono w words ltac:(lia)).
  destruct (memoryCost_exact w) as [_ Hcw']; [unfold maxMemoryExpansionSize; lia|].
  unfold useGas, mbind, M_bind, gets. set (fee := words * words / 512 + 3 * words - _).
  rewrite (proj2 (Z.ltb_ge (c_gas c) 0)), (proj2 (Z.ltb_ge fee 0)) by lia. cbn [orb].
  destruct (c_gas c <? fee) eqn:Ef; [done|]. b2p. unfold modify. rewrite !i64_id, u64_id by zblia.
  do 3 f_equal. lia.
Qed.

Lemma expansion_ok {W} (c c' : context W) offset size : mem_wf (c_memory c) -> isU64 offset -> isU64 size ->
  0 <= c_gas c <= MaxInt64 -> expansion offset size c = (Ok tt, c') ->
  mem_wf (c_memory c') /\ 0 <= c_gas c' <= MaxInt64
  /\ (exists k, m_store (c_memory c') = m_store (c_memory c) ++ zeros k)
  /\ (size = 0 \/ offset + size <= zlen (m_store (c_memory c')))
  /\ c_gas c' + m_currentMemoryCost (c_memory c') = c_gas c + m_currentMemoryCost (c_memory c).
Proof.
  intros Hm Ho Hs Hg. unfold expansion, isU64 in *. cbv zeta.
  destruct ((size =? 0) || (offset + size <=? zlen (m_store (c_memory c))))%bool eqn:E.
  { intros [= <-]. split; [done|]. split; [done|]. split; [exists 0; by rewrite app_nil_r|].
    split; [|lia]. apply orb_true_iff in E as [E|E]; b2p; [by left|by right]. }
  apply orb_false_iff in E as [E1 E2]. b2p. set (words := (offset + size + 31) / 32).
  assert (offset + size <= 32 * words < offset + size + 32) as Hwd by (unfold words; divlia).
  destruct (2 ^ 64 <=? offset + size) eqn:E3; [done|]. destruct (words =? 2 ^ 59); [done|].
  destruct (maxMemoryExpansionSize <? 32 * words) eqn:E4; [done|].
  destruct (c_gas c <? _) eqn:E5; [done|]. b2p. intros [= <-]. cbn [c_memory c_gas set_memory set_gas].
  cbn [m_store m_currentMemoryCost].
  destruct Hm as (w & Hw & Hb & Hc). pose proof (memory_cost_mono w words ltac:(lia)).
  assert (zlen (m_store (c_memory c) ++ zeros (32 * words - zlen (m_store (c_memory c)))) = 32 * words) as Hz.
  { rewrite zlen_app, zlen_zeros; lia. }
  unfold wordsCost in *.
  split; [exists words; cbn; split; [done|]; split; [lia|done]|]. split; [lia|].
  split; [by eexists|]. split; [right; lia|lia].
Qed.

(** Growing the memory behaves as specified on every branch, with no step
    of the 64-bit computation overflowing: nothing happens for size 0 and
    within the memory, otherwise the memory grows with zero bytes to the
    smallest number of words that contains the range, for the difference of the
    quadratic prices; the errors are an overflowing range, the size limit and
    the lack of gas, and leave the context as it was. Gas and paid memory costs
    together do not change. *)
Theorem expandMemory_exact {W} (c : context W) offset size : mem_wf (c_memory c) ->
  0 <= c_gas c <= MaxInt64 -> isU64 offset -> isU64 size ->
  expandMemory offset size c = expansion offset size c
  /\ forall c', expandMemory offset size c = (Ok tt, c') -> mem_wf (c_memory c')
     /\ c_gas c' + m_currentMemoryCost (c_memory c') = c_gas c + m_currentMemoryCost (c_memory c).
Proof.
  intros Hm Hg Ho Hs. rewrite expandMemory_eval by done. split; [done|].
  intros c' Hc. apply expansion_ok in Hc as (H1 & _ & _ & _ & H2); done.
Qed.

Definition memoryContext : context world :=
  initContext exampleConfig (findJumpDestinations []) (exampleParams R13_Cancun false 1000 []) exampleWorld exampleStack.

Lemma memoryContext_wf : mem_wf (c_memory memoryContext).
Proof. apply NewMemory_wf. Qed.

Lemma expandMemory_exact_witness :
  m_store (c_memory (snd (expandMemory 10 40 memoryContext))) = zeros 64
  /\ c_gas (snd (expandMemory 10 40 memoryContext)) = 1000 - 6.
Proof.
  destruct (expandMemory_exact memoryContext 10 40) as [H _].
  - apply memoryContext_wf.
  - done.
  - done.
  - done.
  - rewrite H. split; by vm_compute.
Defined.

Lemma getSlice_ok {W} {U : Uint256} {UL : Uint256Laws U} (c c' : context W) offset size sl :
  mem_wf (c_memory c) -> 0 <= c_gas c <= MaxInt64 -> uval size <> 0 ->
  getSlice offset size c = (Ok sl, c') ->
  sl = mkSlice (uval offset) (uval offset + uval size) /\ mem_wf (c_memory c') /\ 0 <= c_gas c' <= MaxInt64
  /\ uval offset + uval size <= zlen (m_store (c_memory c'))
  /\ Int_IsUint64 offset = true /\ Int_IsUint64 size = true
  /\ exists k, m_store (c_memory c') = m_store (c_memory c) ++ zeros k.
Proof.
  intros Hm Hg Hz. unfold getSlice. rewrite IsZero_law, (proj2 (Z.eqb_neq _ _) Hz).
  destruct (negb (Int_IsUint64 offset) || negb (Int_IsUint64 size))%bool eqn:E; [done|].
  apply orb_false_iff in E as [E1%negb_false_iff E2%negb_false_iff].
  pose proof (Uint64_range offset). pose proof (Uint64_range size). rewrite !Uint64_exact in * by done.
  unfold mbind, M_bind. rewrite expandMemory_eval by done.
  destruct (expansion (uval offset) (uval size) c) as [[[]|e|] c1] eqn:Ee; [|done..].
  apply expansion_ok in Ee as (Hm1 & Hg1 & Hk & Hr & _); [|done..]. destruct Hr as [|Hr]; [done|].
  pose proof Hm1 as (w & Hw & Hb & _). unfold maxMemoryExpansionSize in Hb.
  unfold memory_slice, mbind, M_bind, gets. unfold isU64 in *.
  rewrite u64_id by zblia.
  rewrite (proj2 (Z.leb_le 0 _)), (proj2 (Z.leb_le (uval offset) _)), (proj2 (Z.leb_le _ _)) by lia.
  cbn [andb]. intros [= <- <-]. done.
Qed.

(** Within the memory no expansion happens. *)
Lemma getSlice_inside {W} {U : Uint256} {UL : Uint256Laws U} (c : context W) offset size :
  mem_wf (c_memory c) -> 0 <= c_gas c <= MaxInt64 -> uval size <> 0 ->
  Int_IsUint64 offset = true -> Int_IsUint64 size = true ->
  uval offset + uval size <= zlen (m_store (c_memory c)) ->
  getSlice offset size c = (Ok (mkSlice (uval offset) (uval offset + uval size)), c).
Proof.
  intros Hm Hg Hz E1 E2 Hr. unfold getSlice. rewrite IsZero_law, (proj2 (Z.eqb_neq _ _) Hz), E1, E2.
  cbn [negb orb]. pose proof (Uint64_range offset). pose proof (Uint64_range size).
  rewrite !Uint64_exact in * by done. unfold mbind, M_bind. rewrite expandMemory_eval by done.
  unfold expansion. cbv zeta. rewrite (proj2 (Z.leb_le _ _) Hr), orb_true_r.
  pose proof Hm as (w & Hw & Hb & _). unfold maxMemoryExpansionSize, isU64 in *.
  unfold memory_slice, mbind, M_bind, gets. rewrite u64_id by zblia.
  rewrite (proj2 (Z.leb_le 0 _)), (proj2 (Z.leb_le (uval offset) _)), (proj2 (Z.leb_le _ _)) by lia. done.
Qed.

(** What [set] writes to the memory, [readWord] reads back, at no further
    cost and with no further change of the context; and bytes outside of the
    written range keep their values. *)
Theorem memory_roundtrip {W} {U : Uint256} {UL : Uint256Laws U} (c c' : context W) offset (v : Word) :
  mem_wf (c_memory c) -> 0 <= c_gas c <= MaxInt64 ->
  mem_set offset (arr_bytes v) c = (Ok tt, c') ->
  readWord offset c' = (Ok (Int_SetBytes32 (arr_bytes v)), c')
  /\ forall lo hi, 0 <= lo <= hi -> hi <= zlen (m_store (c_memory c)) ->
     hi <= uval offset \/ uval offset + 32 <= lo ->
     slice (m_store (c_memory c')) lo hi = slice (m_store (c_memory c)) lo hi.
Proof.
  intros Hm Hg. unfold mem_set. assert (zlen (arr_bytes v) = 32) as Hv by (unfold zlen; by rewrite array_length).
  rewrite Hv. change (u64 32) with 32. assert (uval (NewInt 32) = 32) as H32 by (by apply NewInt_uval).
  unfold mbind at 1, M_bind at 1.
  destruct (getSlice offset (NewInt 32) c) as [[sl|e|] c1] eqn:Es; [|done..].
  apply getSlice_ok in Es as (-> & Hm1 & Hg1 & Hr & E1 & E2 & k & Hk); [|done|done|by rewrite H32].
  rewrite H32 in *. unfold slice_write, modify. cbn [sl_lo sl_hi]. intros [= <-].
  pose proof (uval_range offset). set (c2 := set_memory _ c1).
  assert (zlen (m_store (c_memory c2)) = zlen (m_store (c_memory c1))) as Hz.
  { cbn. apply zlen_copy_at; lia. }
  assert (mem_wf (c_memory c2)) as Hm2 by (destruct Hm1 as (w & Hw & Hb & Hc); exists w; by rewrite Hz).
  split.
  - unfold readWord, mbind, M_bind. rewrite getSlice_inside by (rewrite ?H32, ?Hz; done || lia).
    rewrite H32. unfold slice_read, gets, mret, M_ret. cbn [sl_lo sl_hi c2 c_memory set_memory m_store].
    rewrite slice_copy_at by lia. done.
  - intros lo hi Hlo Hhi Hd. cbn [c2 c_memory set_memory m_store].
    assert (hi <= zlen (m_store (c_memory c1))) by (rewrite Hk, zlen_app; pose proof (zlen_nonneg (zeros k)); lia).
    rewrite slice_copy_at_disjoint by lia. rewrite Hk. unfold slice, zlen in *.
    rewrite drop_app_le, take_app_le by (rewrite ?length_drop; lia). done.
Qed.

Lemma memory_roundtrip_witness :
  let '(_, c') := mem_set (of_Z 7) (arr_bytes (to_array 32 (be_bytes 32 12345))) memoryContext in
  fst (readWord (of_Z 7) c') = Ok (of_Z 12345).
Proof.
  pose proof (memory_roundtrip memoryContext
    (snd (mem_set (of_Z 7) (arr_bytes (to_array 32 (be_bytes 32 12345))) memoryContext)) (of_Z 7)
    (to_array 32 (be_bytes 32 12345)) memoryContext_wf) as H.
  destruct (mem_set (of_Z 7) _ memoryContext) as [o c'] eqn:E. destruct H as [H _].
  - done.
  - cbn [snd]. f_equal. apply (f_equal fst) in E. vm_compute in E. by rewrite <-E.
  - cbn [snd] in H. rewrite H. reflexivity.
Defined.

(** ** Stack usage *)

(** C27. The stack usage table is exact for all 256 instructions: with a stack
    height the precomputed limits allow, an instruction never reads or writes
    outside of the stack, and if it ends without an error the height has
    changed by exactly the table's difference, within the limits of the stack. *)
Theorem stackUsage_exact {W} {U : Uint256} {UL : Uint256Laws U} {RC : RunContext W} {G : Globals W} K K32
    (R : W -> Prop) maxGas (c0 c : context W) n g pc op :
  HostFrame K K32 (p_Static (c_params c0)) maxGas R -> c_gas c0 <= maxGas ->
  inputs_fit c0 -> good R c0 n g pc c -> 0 <= pc < zlen (c_code c0) ->
  sl_min (opStackLimits op) <= n <= sl_max (opStackLimits op) ->
  match dispatch K K32 op c with
  | (Ok _, c') => st_len (c_stack c') = n + su_delta (computeStackUsage op)
                  /\ 0 <= st_len (c_stack c') <= maxStackSize
  | (Err _, _) => True
  | (Panic, _) => False
  end.
Proof.
  intros HF Hmax Hfit H Hp Hn. pose proof (wp_dispatch K K32 R c0 maxGas Hmax op n g pc c Hfit H Hp Hn) as Hw.
  unfold wp in Hw. destruct (dispatch K K32 op c) as [[st|e|] c']; [|done..].
  destruct Hw as (pc' & _ & g' & _ & H'). pose proof (good_bounds _ _ _ _ _ _ H').
  rewrite (good_len _ _ _ _ _ _ H'). unfold maxStackSize. done.
Qed.

Lemma stackUsage_exact_witness :
  let c := initContext exampleConfig (findJumpDestinations exampleCode)
    (exampleParams R13_Cancun false 1000 exampleCode) exampleWorld exampleStack in
  match dispatch refHash refHash32 PUSH1 c with
  | (Ok _, c') => st_len (c_stack c') = 1 | _ => True end.
Proof.
  intros c. pose proof (examplePre R13_Cancun false 1000 exampleCode ltac:(done) ltac:(done)) as Hpre.
  destruct (init_good (fun w => refOk w /\ True) (2 ^ 40) exampleConfig (findJumpDestinations exampleCode)
    (exampleParams R13_Cancun false 1000 exampleCode) exampleWorld exampleStack Hpre
    (conj exampleWorld_ok Logic.I)) as [Hfit Hgood].
  pose proof (stackUsage_exact refHash refHash32 (fun w => refOk w /\ True) (2 ^ 40) c c 0 1000 0 PUSH1
    (refFrame false (2 ^ 40)) ltac:(done) Hfit Hgood ltac:(done) ltac:(done)) as H.
  destruct (dispatch refHash refHash32 PUSH1 c) as [[st|e|] c']; [apply H|exact Logic.I|exact Logic.I].
Defined.

(** ** Gas of calls *)

(** A call forwards the gas the caller asks for, but at most all but one
    64th of what is left (EIP-150), for every 256-bit amount asked for. *)
Theorem callGas_exact {U : Uint256} {UL : Uint256Laws U} gas provided : 0 <= gas <= MaxInt64 ->
  callGas gas provided = Z.min (uval provided) (gas - gas / 64).
Proof.
  intros Hg. unfold callGas, MaxInt64 in *. rewrite Z.quot_div_nonneg by lia.
  assert (0 <= gas / 64 <= gas) by divlia. rewrite (i64_id (gas - gas / 64)) by zblia.
  pose proof (uval_range provided). cbv zeta. rewrite IsUint64_law.
  destruct (Z.ltb_spec (uval provided) (2 ^ 64)) as [Hlt|Hge]; cbn [andb]; [|lia].
  rewrite Uint64_exact by (rewrite IsUint64_law; by apply Z.ltb_lt).
  destruct (Z.leb_spec (uval provided) (2 ^ 63 - 1)); cbn [andb]; [|lia].
  rewrite i64_id by zblia. rewrite Z.geb_leb. destruct (Z.leb_spec (uval provided) (gas - gas / 64)); lia.
Qed.

Lemma callGas_exact_witness :
  callGas 6400 (of_Z (2 ^ 255)) = 6300 /\ callGas 6400 (of_Z 50) = 50.
Proof. split; rewrite callGas_exact by (unfold MaxInt64; lia); by vm_compute. Defined.

(** ** Reading input data *)

(** [getData] reads beyond the end of the data as zeros, for every 256-bit
    offset: the result has the requested size and holds the data from the
    offset on, padded with zeros. *)
Theorem getData_padded {U : Uint256} {UL : Uint256Laws U} data offset size :
  zlen data < 2 ^ 63 -> 0 <= size < 2 ^ 63 ->
  getData data offset size = Some (take (Z.to_nat size) (drop (Z.to_nat (uval offset)) data ++ zeros size)).
Proof.
  intros Hd Hs. unfold getData. pose proof (zlen_nonneg data). pose proof (uval_range offset).
  rewrite (u64_id (zlen data)) by zblia. destruct (Z.eqb_spec size 0) as [->|Hz]; [done|].
  rewrite IsUint64_law. destruct (Z.lt_ge_cases (uval offset) (zlen data)) as [Hin|Hout].
  - rewrite (proj2 (Z.ltb_lt _ _)) by lia. cbn [negb orb].
    rewrite Uint64_exact by (rewrite IsUint64_law; apply Z.ltb_lt; lia).
    rewrite Z.geb_leb, (proj2 (Z.leb_gt _ _)) by lia. rewrite (u64_id (_ + _)) by zblia. cbv zeta.
    set (end_ := if uval offset + size >? zlen data then _ else _).
    assert (end_ = Z.min (zlen data) (uval offset + size)) as Hend.
    { unfold end_. rewrite Z.gtb_ltb. destruct (Z.ltb_spec (zlen data) (uval offset + size)); lia. }
    rewrite Hend, (proj2 (Z.ltb_ge _ _)) by lia. f_equal. unfold go_copy, slice, zeros.
    set (rest := drop (Z.to_nat (uval offset)) data).
    assert (length rest = (length data - Z.to_nat (uval offset))%nat) as Hr by apply length_drop.
    unfold zlen in *. rewrite length_replicate, length_take, Hr.
    destruct (Z.le_ge_cases (uval offset + size) (Z.of_nat (length data))) as [Hle|Hge].
    + rewrite Z.min_r by lia. rewrite take_app_le by lia. rewrite drop_ge by (rewrite length_replicate; lia).
      rewrite app_nil_r, take_take. f_equal. lia.
    + rewrite Z.min_l by lia. rewrite take_take, !take_ge by lia.
      rewrite take_app, take_ge, take_replicate, drop_replicate by lia. do 2 f_equal. lia.
  - rewrite drop_ge by (unfold zlen in *; lia). cbn [app]. unfold zeros.
    rewrite take_replicate, Nat.min_id.
    replace (negb (uval offset <? 2 ^ 64) || (Int_Uint64 offset >=? zlen data)) with true; [done|].
    destruct (Z.ltb_spec (uval offset) (2 ^ 64)); [|done]. cbn [negb orb].
    rewrite Uint64_exact by (rewrite IsUint64_law; apply Z.ltb_lt; lia).
    by rewrite Z.geb_leb, (proj2 (Z.leb_le _ _)) by lia.
Qed.

Lemma getData_padded_witness :
  getData [x01; x02; x03] (of_Z 1) 4 = Some [x02; x03; x00; x00]
  /\ getData [x01; x02; x03] (of_Z (2 ^ 200)) 2 = Some [x00; x00].
Proof.
  split.
  - rewrite getData_padded by (done || lia). reflexivity.
  - rewrite getData_padded by (done || lia). rewrite drop_ge; [reflexivity|].
    change (uval (of_Z (2 ^ 200))) with (2 ^ 200). cbn [length]. lia.
Defined.

(** ** Jump destinations *)

(** C28. The jump analysis, through its cache, is exact: with a cache that only
    holds what was added to it and code hashes without collisions, an offset is
    a jump destination exactly if it holds a [JUMPDEST] that is an instruction
    and not data of a push; and the cache stays coherent. *)
Theorem analysis_exact {C} {L : LRU jumpDestMap C} {LL : LRULaws L} (codeHash : Code -> Hash) (deployed : Code -> Prop)
    (a : analysis C) code h j :
  (forall c1 c2, deployed c1 -> deployed c2 -> codeHash c1 = codeHash c2 -> c1 = c2) ->
  cache_coherent codeHash deployed a -> deployed code -> h = None \/ h = Some (codeHash code) ->
  zlen code < 2 ^ 64 -> 0 <= j ->
  let '(a', jumpDests) := analyzeJumpDest a code h in
  (isJumpDest (Some jumpDests) j = true <-> jump_dest code j) /\ cache_coherent codeHash deployed a'.
Proof.
  intros Hinj Hc Hd Hh Hl Hj.
  destruct (analyzeJumpDest_coherent codeHash deployed Hinj a code h Hc Hd Hh) as [Hm Hc'].
  destruct (analyzeJumpDest a code h) as [a' m]. cbn [fst snd] in *. subst m.
  split; [by apply findJumpDestinations_iff|done].
Qed.

Lemma analysis_exact_witness :
  let code := [PUSH1; JUMPDEST; JUMPDEST] in
  let '(_, m) := analyzeJumpDest (mkAnalysis (C := assocCache) (Some []) 100) code (Some zeroWord) in
  isJumpDest (Some m) 2 = true <-> jump_dest code 2.
Proof.
  intros code. pose proof (analysis_exact (fun _ => zeroWord) (fun c => c = code)
    (mkAnalysis (C := assocCache) (Some []) 100) code (Some zeroWord) 2) as H.
  destruct (analyzeJumpDest _ code (Some zeroWord)) as [a' m]. apply H.
  - by intros c1 c2 -> ->.
  - intros cache h k [= <-] Hk. by destruct (lru_New_empty (L := refLRU) 1 [] h k ltac:(reflexivity) Hk).
  - reflexivity.
  - by right.
  - done.
  - done.
Defined.
