(* ===== verification/FloriaStateContract.v ===== *)
(** * The state contract of the Floria processor

    [go/processor/floria/state_contract.go]: the built-in contract that lets
    the node driver change balances, code, storage and nonces. Method
    identifiers are computed by the geth ABI package from the contract's ABI
    and are parameters here. *)
From Stdlib Require Import ZArith Lia Strings.Byte String.
From stdpp Require Import base list numbers.
From S2P Require Import Prelude Uint256 Types.
Set Default Goal Selector "!".
Local Open Scope Z_scope.
Local Open Scope go_scope.

Definition callValueTransferGas : Gas := 9000.
Definition createGas : Gas := 32000.
Definition createDataGas : Gas := 200.
Definition memoryGas : Gas := 3.
Definition sStoreSetGasEIP2200 : Gas := 20000.

Definition DriverAddress : Address := to_array 20 [xd1; x00; xa0; x1e].
Definition StateContractAddress : Address := to_array 20 [xd1; x00; xec].

Definition isStateContract (address : Address) : bool := arr_eqb address StateContractAddress.

Definition ErrExecutionReverted : error := ErrMsg "execution reverted".
Definition ErrOutOfGas : error := ErrMsg "out of gas".

(** The identifiers [init] looks up in the ABI. *)
Record MethodIDs := mkMethodIDs {
  setBalanceMethodID : list byte;
  copyCodeMethodID : list byte;
  swapCodeMethodID : list byte;
  setStorageMethodID : list byte;
  incNonceMethodID : list byte
}.

Section StateContract.
Context {W : Type} {WS : WorldState W} (ids : MethodIDs).

(** The new state, the gas left and the error. *)
Definition stateResult : Type := W * (Gas * option error).

Definition executeStateSetBalance (state : W) (sender : Address) (input : list byte) (gas : Gas)
    : stateResult :=
  if gas <? callValueTransferGas then (state, (0, Some ErrOutOfGas))
  else
    let gas := gas -i64 callValueTransferGas in
    if negb (zlen input =? 64) then (state, (0, Some ErrExecutionReverted))
    else
      let account := to_array 20 (slice input 12 32) in
      let value := to_array 32 (slice input 32 64) in
      if arr_eqb account sender then (state, (0, Some ErrExecutionReverted))
      else (ws_SetBalance state account value, (gas, None)).

Definition executeStateContractCopyCode (state : W) (input : list byte) (gas : Gas) : stateResult :=
  if gas <? createGas then (state, (0, Some ErrOutOfGas))
  else
    let gas := gas -i64 createGas in
    if negb (zlen input =? 64) then (state, (0, Some ErrExecutionReverted))
    else
      let accountTo := to_array 20 (slice input 12 32) in
      let accountFrom := to_array 20 (slice input (32 + 12) (32 + 32)) in
      let code := ws_GetCode state accountFrom in
      let cost := zlen code *i64 (createDataGas + memoryGas) in
      if gas <? cost then (state, (0, Some ErrOutOfGas))
      else
        let gas := gas -i64 cost in
        let state :=
          if negb (arr_eqb accountFrom accountTo) then ws_SetCode state accountTo code else state in
        (state, (gas, None)).

Definition executeStateContractSwapCode (state : W) (input : list byte) (gas : Gas) : stateResult :=
  let cost := 2 * createGas in
  if gas <? cost then (state, (0, Some ErrOutOfGas))
  else
    let gas := gas -i64 cost in
    if negb (zlen input =? 64) then (state, (0, Some ErrExecutionReverted))
    else
      let account0 := to_array 20 (slice input 12 32) in
      let account1 := to_array 20 (slice input (32 + 12) (32 + 32)) in
      let code0 := ws_GetCode state account0 in
      let code1 := ws_GetCode state account1 in
      let cost0 := zlen code0 *i64 (createDataGas + memoryGas) in
      let cost1 := zlen code1 *i64 (createDataGas + memoryGas) in
      let cost := Z.quot (cost0 +i64 cost1) 2 in
      if gas <? cost then (state, (0, Some ErrOutOfGas))
      else
        let gas := gas -i64 cost in
        let state :=
          if negb (arr_eqb account0 account1)
          then ws_SetCode (ws_SetCode state account0 code1) account1 code0 else state in
        (state, (gas, None)).

Definition executeStateContractSetStorage (state : W) (input : list byte) (gas : Gas) : stateResult :=
  if gas <? sStoreSetGasEIP2200 then (state, (0, Some ErrOutOfGas))
  else
    let gas := gas -i64 sStoreSetGasEIP2200 in
    if negb (zlen input =? 96) then (state, (0, Some ErrExecutionReverted))
    else
      let account := to_array 20 (slice input 12 32) in
      let key := to_array 32 (slice input 32 64) in
      let value := to_array 32 (slice input 64 96) in
      (fst (ws_SetStorage state account key value), (gas, None)).

(** [big.Int.Uint64] gives the low 64 bits. *)
Definition executeStateContractIncNonce (state : W) (sender : Address) (input : list byte) (gas : Gas)
    : stateResult :=
  if gas <? callValueTransferGas then (state, (0, Some ErrOutOfGas))
  else
    let gas := gas -i64 callValueTransferGas in
    if negb (zlen input =? 64) then (state, (0, Some ErrExecutionReverted))
    else
      let account := to_array 20 (slice input 12 32) in
      let value : Value := to_array 32 (slice input 32 64) in
      let valueUint := u64 (be_val (arr_bytes value)) in
      if arr_eqb account sender then (state, (0, Some ErrExecutionReverted))
      else if (valueUint <=? 0) || (256 <=? valueUint)
      then (state, (0, Some ErrExecutionReverted))
      else (ws_SetNonce state account (ws_GetNonce state account +u64 valueUint), (gas, None)).

Definition bytes_Equal (a b : list byte) : bool := bool_decide (a = b).

Definition runStateContract (state : W) (sender receiver : Address) (input : list byte) (gas : Gas)
    : W * CallResult :=
  if negb (arr_eqb receiver StateContractAddress) then (state, zeroCallResult)
  else if negb (arr_eqb sender DriverAddress) then (state, zeroCallResult)
  else if zlen input <? 4 then (state, zeroCallResult)
  else
    let selector := take 4 input in
    let input := drop 4 input in
    let '(state, (gasLeft, err)) :=
      if bytes_Equal selector (setBalanceMethodID ids)
      then executeStateSetBalance state sender input gas
      else if bytes_Equal selector (copyCodeMethodID ids)
      then executeStateContractCopyCode state input gas
      else if bytes_Equal selector (swapCodeMethodID ids)
      then executeStateContractSwapCode state input gas
      else if bytes_Equal selector (setStorageMethodID ids)
      then executeStateContractSetStorage state input gas
      else if bytes_Equal selector (incNonceMethodID ids)
      then executeStateContractIncNonce state sender input gas
      else (state, (0, Some (ErrMsg "invalid method ID"))) in
    (state, mkCallResult [] gasLeft 0 zeroAddress (match err with None => true | Some _ => false end)).

(** [StateContract.Run]. *)
Definition StateContract_Run := runStateContract.

End StateContract.
