(* ===== verification/FloriaContext.v ===== *)
(** * The run context of the Floria processor

    [go/processor/floria/run_context.go], [context_wrapper.go] and
    [precompiled.go]: calls and contract creations with value transfer,
    snapshots, call depth and static mode. The interpreter is the interface
    [Interpreter]; the hash and address functions and the precompiled
    contracts of geth are parameters. *)
From Stdlib Require Import ZArith Lia Strings.Byte String.
From stdpp Require Import base list numbers gmap.
From S2P Require Import Prelude Uint256 Types SfvmContext FloriaStateContract.
Set Default Goal Selector "!".
Local Open Scope Z_scope.
Local Open Scope go_scope.

Definition createGasCostPerByte : Z := 200.
Definition maxCodeSize : Z := 24576.
Definition maxInitCodeSize : Z := 2 * maxCodeSize.
Definition MaxRecursiveDepth : Z := 1024.

(** ** Precompiled contracts *)

(** A contract of geth: the gas it requires ([uint64]) and its result. *)
Record PrecompiledContract := mkPrecompiled {
  RequiredGas : Data -> Z;
  pc_Run : Data -> Data + error
}.

(** The tables of geth, by fork, and the functions of its [crypto] package. *)
Class Geth := {
  PrecompiledContractsCancun : gmap Address PrecompiledContract;
  PrecompiledContractsBerlin : gmap Address PrecompiledContract;
  PrecompiledContractsIstanbul : gmap Address PrecompiledContract;
  crypto_Keccak256 : list byte -> Hash;
  crypto_CreateAddress : Address -> Z -> Address;
  crypto_CreateAddress2 : Address -> Hash -> Hash -> Address
}.

Section Precompiled.
Context {GE : Geth}.

Definition getPrecompiledContracts (revision : Revision) : gmap Address PrecompiledContract :=
  if revision =? R13_Cancun then PrecompiledContractsCancun
  else if (revision =? R12_Shanghai) || (revision =? R11_Paris) || (revision =? R10_London)
          || (revision =? R09_Berlin) then PrecompiledContractsBerlin
  else PrecompiledContractsIstanbul.

Definition getPrecompiledContract (address : Address) (revision : Revision)
    : option PrecompiledContract :=
  getPrecompiledContracts revision !! address.

Definition isPrecompiled (address : Address) (revision : Revision) : bool :=
  match getPrecompiledContract address revision with Some _ => true | None => false end.

Definition runPrecompiledContract (revision : Revision) (input : Data) (address : Address) (gas : Gas)
    : CallResult * option error :=
  match getPrecompiledContract address revision with
  | None => (zeroCallResult, Some (ErrMsg "precompiled contract not found"))
  | Some contract =>
      let gasCost := RequiredGas contract input in
      if gasCost >? MaxInt64 then (zeroCallResult, Some (ErrMsg "gas cost exceeds maximum limit"))
      else if gas <? i64 gasCost then (zeroCallResult, Some (ErrMsg "insufficient gas"))
      else
        let gas := gas -i64 i64 gasCost in
        match pc_Run contract input with
        | inr _ => (zeroCallResult, Some (ErrMsg "error executing precompiled contract"))
        | inl output => (mkCallResult output gas 0 zeroAddress true, None)
        end
  end.

(** Go iterates over a map in any order; here in that of [map_to_list]. *)
Definition getPrecompiledAddresses (revision : Revision) : list Address :=
  (map_to_list (getPrecompiledContracts revision)).*1.

End Precompiled.

(** ** The state of a run context *)

(** The transaction context, the call depth and the static flag; the other
    fields of [runContext] do not change. *)
Record fworld (W : Type) := mkFworld { f_ctx : W; f_depth : Z; f_static : bool }.
Arguments mkFworld {W} _ _ _.
Arguments f_ctx {W} _.
Arguments f_depth {W} _.
Arguments f_static {W} _.

Definition set_ctx {W} (w : W) (r : fworld W) : fworld W := mkFworld w (f_depth r) (f_static r).
Definition set_depth {W} (d : Z) (r : fworld W) : fworld W := mkFworld (f_ctx r) d (f_static r).
Definition set_static {W} (b : bool) (r : fworld W) : fworld W := mkFworld (f_ctx r) (f_depth r) b.

(** [floriaContext.SelfDestruct]: moves the balance to the beneficiary. *)
Definition floriaContext_SelfDestruct `{WorldState W} (c : W) (address beneficiary : Address)
    : W * bool :=
  let balance := ws_GetBalance c address in
  let c := ws_SetBalance c address zeroWord in
  let c := ws_SetBalance c beneficiary (Value_Add (ws_GetBalance c beneficiary) balance) in
  ws_SelfDestruct c address beneficiary.

(** The methods [runContext] inherits from the transaction context, with the
    overridden [SelfDestruct]. *)
#[global] Instance floriaWorldState `{WorldState W} : WorldState (fworld W) := {|
  ws_AccountExists r a := ws_AccountExists (f_ctx r) a;
  ws_CreateContract r a := set_ctx (ws_CreateContract (f_ctx r) a) r;
  ws_GetBalance r a := ws_GetBalance (f_ctx r) a;
  ws_SetBalance r a v := set_ctx (ws_SetBalance (f_ctx r) a v) r;
  ws_GetNonce r a := ws_GetNonce (f_ctx r) a;
  ws_SetNonce r a n := set_ctx (ws_SetNonce (f_ctx r) a n) r;
  ws_GetCode r a := ws_GetCode (f_ctx r) a;
  ws_GetCodeHash r a := ws_GetCodeHash (f_ctx r) a;
  ws_GetCodeSize r a := ws_GetCodeSize (f_ctx r) a;
  ws_SetCode r a c := set_ctx (ws_SetCode (f_ctx r) a c) r;
  ws_HasEmptyStorage r a := ws_HasEmptyStorage (f_ctx r) a;
  ws_GetStorage r a k := ws_GetStorage (f_ctx r) a k;
  ws_SetStorage r a k v := let '(w, s) := ws_SetStorage (f_ctx r) a k v in (set_ctx w r, s);
  ws_SelfDestruct r a b := let '(w, d) := floriaContext_SelfDestruct (f_ctx r) a b in (set_ctx w r, d)
|}.

#[global] Instance floriaTransactionContext `{TransactionContext W} : TransactionContext (fworld W) := {|
  tc_CreateSnapshot r := let '(w, s) := tc_CreateSnapshot (f_ctx r) in (set_ctx w r, s);
  tc_RestoreSnapshot r s := set_ctx (tc_RestoreSnapshot (f_ctx r) s) r;
  tc_GetTransientStorage r a k := tc_GetTransientStorage (f_ctx r) a k;
  tc_SetTransientStorage r a k v := set_ctx (tc_SetTransientStorage (f_ctx r) a k v) r;
  tc_AccessAccount r a := let '(w, s) := tc_AccessAccount (f_ctx r) a in (set_ctx w r, s);
  tc_AccessStorage r a k := let '(w, s) := tc_AccessStorage (f_ctx r) a k in (set_ctx w r, s);
  tc_EmitLog r l := set_ctx (tc_EmitLog (f_ctx r) l) r;
  tc_GetLogs r := tc_GetLogs (f_ctx r);
  tc_GetBlockHash r n := tc_GetBlockHash (f_ctx r) n
|}.

#[global] Instance floriaGlobals `{Globals W} : Globals (fworld W) := {|
  g_sha3Cache r := g_sha3Cache (f_ctx r);
  g_setSha3Cache r c := set_ctx (g_setSha3Cache (f_ctx r) c) r
|}.

(** ** Transfers and nonces *)

Section Transfer.
Context {W : Type} {TC : TransactionContext W}.

Definition canTransferValue (context : W) (value : Value) (sender : Address)
    (recipient : option Address) : bool :=
  if arr_eqb value zeroWord then true
  else
    let senderBalance := ws_GetBalance context sender in
    if Value_Cmp senderBalance value <? 0 then false
    else
      match recipient with
      | None => true
      | Some recipient =>
          if arr_eqb sender recipient then true
          else
            let receiverBalance := ws_GetBalance context recipient in
            let updatedBalance := Value_Add receiverBalance value in
            if (Value_Cmp updatedBalance receiverBalance <? 0) || (Value_Cmp updatedBalance value <? 0)
            then false else true
      end.

Definition incrementNonce (context : W) (address : Address) : W * option error :=
  let nonce := ws_GetNonce context address in
  if (nonce +u64 1) <? nonce then (context, Some (ErrMsg "nonce overflow"))
  else (ws_SetNonce context address (nonce +u64 1), None).

Definition transferValue (context : W) (value : Value) (sender recipient : Address) : W :=
  if arr_eqb value zeroWord then context
  else if arr_eqb sender recipient then context
  else
    let senderBalance := ws_GetBalance context sender in
    let receiverBalance := ws_GetBalance context recipient in
    let updatedBalance := Value_Add receiverBalance value in
    let senderBalance := Value_Sub senderBalance value in
    let context := ws_SetBalance context sender senderBalance in
    ws_SetBalance context recipient updatedBalance.

Definition senderCreateSetUp (parameters : CallParameters) (context : W) : W * option error :=
  if negb (canTransferValue context (cp_Value parameters) (cp_Sender parameters)
             (Some (cp_Recipient parameters)))
  then (context, Some (ErrMsg "insufficient balance for value transfer"))
  else
    match incrementNonce context (cp_Sender parameters) with
    | (context, Some _) => (context, Some (ErrMsg "nonce increment failed"))
    | (context, None) => (context, None)
    end.

End Transfer.

(** ** Creation of contracts *)

Section Create.
Context {W : Type} {TC : TransactionContext W} {GE : Geth}.

Definition emptyCodeHash : Hash := crypto_Keccak256 [].

Definition isEmptyAccount (context : W) (address : Address) : bool :=
  (ws_GetNonce context address =? 0) && ws_HasEmptyStorage context address
  && (arr_eqb (ws_GetCodeHash context address) zeroWord
      || arr_eqb (ws_GetCodeHash context address) emptyCodeHash).

Definition createAddress (kind : CallKind) (parameters : CallParameters) (revision : Revision)
    (context : W) : W * (Address + error) :=
  let created : option Address :=
    match kind with
    | Create =>
        Some (crypto_CreateAddress (cp_Sender parameters)
                (ws_GetNonce context (cp_Sender parameters) -u64 1))
    | Create2 =>
        let initHash := crypto_Keccak256 (cp_Input parameters) in
        Some (crypto_CreateAddress2 (cp_Sender parameters) (cp_Salt parameters) initHash)
    | _ => None
    end in
  match created with
  | None => (context, inr (ErrMsg "invalid call kind for create"))
  | Some createdAddress =>
      let context :=
        if revision >=? R09_Berlin then fst (tc_AccessAccount context createdAddress) else context in
      if negb (isEmptyAccount context createdAddress)
      then (context, inr (ErrMsg "created address is not empty"))
      else (context, inl createdAddress)
  end.

Definition checkAndDeployCode (result : Result) (createdAddress : Address) (revision : Revision)
    (context : W) : W * Result :=
  let outCode := r_Output result in
  let success := r_Success result in
  let success := if zlen outCode >? maxCodeSize then false else success in
  let success :=
    if (revision >=? R10_London) && (zlen outCode >? 0)
       && bool_decide (outCode !! 0%nat = Some xef) then false else success in
  let deploymentCost := zlen outCode *i64 createGasCostPerByte in
  let success := if r_GasLeft result <? deploymentCost then false else success in
  let gasLeft := r_GasLeft result -i64 deploymentCost in
  if success then
    (ws_SetCode context createdAddress outCode,
     mkResult true outCode gasLeft (r_GasRefund result))
  else (context, mkResult false [] 0 (r_GasRefund result)).

End Create.

(** ** Calls *)

(** A contract implemented in Go. *)
Definition BuiltInContract (W : Type) : Type :=
  W -> Address -> Address -> Data -> Gas -> W * CallResult.

Record Config (W : Type) := mkFConfig {
  EthCompatible : bool;
  BuiltInContracts : option (gmap Address (BuiltInContract W));
  OffChainSimulation : bool
}.
Arguments mkFConfig {W} _ _ _.
Arguments EthCompatible {W} _.
Arguments BuiltInContracts {W} _.
Arguments OffChainSimulation {W} _.

Section Calls.
Context {W : Type} {TC : TransactionContext W} {GE : Geth} {I : Interpreter (fworld W)}.
Context (config : Config (fworld W)) (block : BlockParameters) (tx : TransactionParameters).

Definition CallFn : Type :=
  fworld W -> CallKind -> CallParameters -> fworld W * (CallResult * option error).

(** The run context handed to the interpreter: this one, with [call] for
    nested calls. *)
Definition runContextOf (call : CallFn) : RunContext (fworld W) := {| rc_Call := call |}.

(** A [nil] map has no entries. *)
Definition handleStateContracts (r : fworld W) (parameters : CallParameters)
    : fworld W * option CallResult :=
  match BuiltInContracts config with
  | None => (r, None)
  | Some contracts =>
      match contracts !! cp_CodeAddress parameters with
      | Some contract =>
          let '(r, result) := contract r (cp_Sender parameters) (cp_CodeAddress parameters)
                                (cp_Input parameters) (cp_Gas parameters) in
          (r, Some result)
      | None => (r, None)
      end
  end.

Definition incrementDepth (r : fworld W) : option (fworld W) :=
  if f_depth r >? MaxRecursiveDepth then None else Some (set_depth (f_depth r +i64 1) r).

(** [Kind] is not set by the code: it stays the zero value [Call]. *)
Definition runInterpreter (call : CallFn) (r : fworld W) (kind : CallKind)
    (parameters : CallParameters) : fworld W * (Result + error) :=
  let '(code, codeHash, input) :=
    match kind with
    | Call | StaticCall =>
        (ws_GetCode r (cp_Recipient parameters), ws_GetCodeHash r (cp_Recipient parameters),
         cp_Input parameters)
    | CallCode | DelegateCall =>
        (ws_GetCode r (cp_CodeAddress parameters), ws_GetCodeHash r (cp_CodeAddress parameters),
         cp_Input parameters)
    | Create | Create2 => (cp_Input parameters, crypto_Keccak256 (cp_Input parameters), [])
    end in
  interp_Run (runContextOf call) r
    (mkParameters block tx Call (f_static r) (f_depth r -i64 1) (cp_Gas parameters)
       (cp_Recipient parameters) (cp_Sender parameters) input (cp_Value parameters)
       (Some codeHash) code).

Definition isStaticCall (kind : CallKind) : bool :=
  match kind with StaticCall => true | _ => false end.

Definition errResult (parameters : CallParameters) : CallResult :=
  mkCallResult [] (cp_Gas parameters) 0 zeroAddress false.

Definition is_err (err : option error) : bool :=
  match err with Some _ => true | None => false end.

(** The part of [executeCall] between the snapshot and the deferred functions. *)
Definition callBody (call : CallFn) (r : fworld W) (kind : CallKind) (parameters : CallParameters)
    : fworld W * (CallResult * option error) :=
  let transfers := match kind with Call | CallCode => true | _ => false end in
  if transfers && negb (canTransferValue r (cp_Value parameters) (cp_Sender parameters)
                          (Some (cp_Recipient parameters)))
  then (r, (errResult parameters, None))
  else
    let r := if transfers
             then transferValue r (cp_Value parameters) (cp_Sender parameters) (cp_Recipient parameters)
             else r in
    let '(r, handled) :=
      match kind with Call => handleStateContracts r parameters | _ => (r, None) end in
    match handled with
    | Some result => (r, (result, None))
    | None =>
        if isPrecompiled (cp_CodeAddress parameters) (bp_Revision block) then
          let '(result, err) := runPrecompiledContract (bp_Revision block) (cp_Input parameters)
                                  (cp_CodeAddress parameters) (cp_Gas parameters) in
          let success := if is_err err then false else cr_Success result in
          (r, (mkCallResult (cr_Output result) (cr_GasLeft result) (cr_GasRefund result)
                 (cr_CreatedAddress result) success, None))
        else
          match runInterpreter call r kind parameters with
          | (r, inr err) => (r, (zeroCallResult, Some err))
          | (r, inl result) =>
              (r, (mkCallResult (r_Output result) (r_GasLeft result) (r_GasRefund result)
                     zeroAddress (r_Success result), None))
          end
    end.

(** The deferred restore of the snapshot. *)
Definition restoreOnFailure (snapshot : Z) (r : fworld W) (res : CallResult * option error) : fworld W :=
  let '(callResult, err) := res in
  if is_err err || negb (cr_Success callResult) then tc_RestoreSnapshot r snapshot else r.

Definition executeCall (call : CallFn) (r : fworld W) (kind : CallKind) (parameters : CallParameters)
    : fworld W * (CallResult * option error) :=
  match incrementDepth r with
  | None => (r, (errResult parameters, None))
  | Some r =>
      let setsStatic := negb (f_static r) && isStaticCall kind in
      let r := if setsStatic then set_static true r else r in
      let '(r, snapshot) := tc_CreateSnapshot r in
      let '(r, res) := callBody call r kind parameters in
      let r := restoreOnFailure snapshot r res in
      let r := if setsStatic then set_static false r else r in
      (set_depth (f_depth r -i64 1) r, res)
  end.

(** The part of [executeCreate] between the snapshot and the deferred functions. *)
Definition createBody (call : CallFn) (r : fworld W) (kind : CallKind) (parameters : CallParameters)
    (createdAddress : Address) : fworld W * (CallResult * option error) :=
  let r := ws_CreateContract r createdAddress in
  let r := ws_SetNonce r createdAddress 1 in
  let r := transferValue r (cp_Value parameters) (cp_Sender parameters) createdAddress in
  let parameters :=
    mkCallParameters (cp_Sender parameters) createdAddress (cp_Value parameters)
      (cp_Input parameters) (cp_Gas parameters) (cp_Salt parameters) (cp_CodeAddress parameters) in
  match runInterpreter call r kind parameters with
  | (r, inr err) => (r, (zeroCallResult, Some err))
  | (r, inl result) =>
      if negb (r_Success result) then
        (r, (mkCallResult (r_Output result) (r_GasLeft result) (r_GasRefund result)
               createdAddress false, None))
      else
        let '(r, result) := checkAndDeployCode result createdAddress (bp_Revision block) r in
        (r, (mkCallResult (r_Output result) (r_GasLeft result) (r_GasRefund result)
               createdAddress (r_Success result), None))
  end.

Definition executeCreate (call : CallFn) (r : fworld W) (kind : CallKind) (parameters : CallParameters)
    : fworld W * (CallResult * option error) :=
  match incrementDepth r with
  | None => (r, (errResult parameters, None))
  | Some r =>
      let '(r, res) :=
        match senderCreateSetUp parameters r with
        | (r, Some _) => (r, (errResult parameters, None))
        | (r, None) =>
            match createAddress kind parameters (bp_Revision block) r with
            | (r, inr _) => (r, (zeroCallResult, None))
            | (r, inl createdAddress) =>
                let '(r, snapshot) := tc_CreateSnapshot r in
                let '(r, res) := createBody call r kind parameters createdAddress in
                (restoreOnFailure snapshot r res, res)
            end
        end in
      (set_depth (f_depth r -i64 1) r, res)
  end.

(** [runContext.Call], with [call] for the calls of the code it runs. *)
Definition runContext_Call (call : CallFn) : CallFn := fun r kind parameters =>
  match kind with
  | Create | Create2 => executeCreate call r kind parameters
  | _ => executeCall call r kind parameters
  end.

(** The recursion through the interpreter, [levels] calls deep. At level 0 the
    call depth is exhausted (more than [MaxRecursiveDepth]), where
    [incrementDepth] fails. *)
Fixpoint callAt (levels : nat) : CallFn :=
  match levels with
  | O => fun r kind parameters => (r, (errResult parameters, None))
  | S levels => runContext_Call (callAt levels)
  end.

(** Enough levels for every depth [incrementDepth] accepts. *)
Definition floriaCall : CallFn := callAt (Z.to_nat (MaxRecursiveDepth + 1)).

End Calls.
