(* ===== verification/FloriaProcessor.v ===== *)
(** * The Floria transaction processor

    [go/processor/floria/processor.go]: the checks of a transaction, the
    purchase of gas, the execution and the refund. Error values carry the
    message without its formatted arguments. *)
From Stdlib Require Import ZArith Lia Strings.Byte String.
From stdpp Require Import base list numbers gmap.
From S2P Require Import Prelude Uint256 Types FloriaStateContract FloriaContext.
Set Default Goal Selector "!".
Local Open Scope Z_scope.
Local Open Scope go_scope.

Definition TxGas : Gas := 21000.
Definition TxGasContractCreation : Gas := 53000.
Definition TxDataNonZeroGasEIP2028 : Gas := 16.
Definition TxDataZeroGasEIP2028 : Gas := 4.
Definition TxAccessListAddressGas : Gas := 2400.
Definition TxAccessListStorageKeyGas : Gas := 1900.
Definition InitCodeWordGas : Z := 2.
Definition BlobTxBlobGasPerBlob : Z := 2 ^ 17.

(** The blob hashes of a transaction as a slice: [nil] is empty. *)
Definition blobHashes (t : Transaction) : list Hash := default [] (t_BlobHashes t).

(** [uint64(len(transaction.BlobHashes) * BlobTxBlobGasPerBlob)]. *)
Definition blobGas (t : Transaction) : Z := u64 (zlen (blobHashes t) *i64 BlobTxBlobGasPerBlob).

(** [recipient == nil]. *)
Definition isCreation (t : Transaction) : bool :=
  match t_Recipient t with None => true | Some _ => false end.

(** ** Checks *)

Definition nonceCheck (transactionNonce stateNonce : Z) : option error :=
  if negb (transactionNonce =? stateNonce) then Some (ErrMsg "nonce mismatch")
  else if (stateNonce +u64 1) <? stateNonce then Some (ErrMsg "nonce overflow")
  else None.

Definition eoaCheck `{Geth} (codeHash : Hash) : option error :=
  if negb (arr_eqb codeHash zeroWord) && negb (arr_eqb codeHash emptyCodeHash)
  then Some (ErrMsg "sender is not an EOA") else None.

Definition checkBlobs (transaction : Transaction) (block : BlockParameters) (isSimulation : bool)
    : option error :=
  let shape :=
    match t_BlobHashes transaction with
    | None => None
    | Some hashes =>
        if isCreation transaction then Some (ErrMsg "blob transaction without recipient")
        else if zlen hashes =? 0 then Some (ErrMsg "missing blob hashes")
        else if existsb (fun h => negb (bool_decide (arr_bytes h !! 0%nat = Some x01))) hashes
        then Some (ErrMsg "blob with invalid hash version")
        else None
    end in
  match shape with
  | Some e => Some e
  | None =>
      if (bp_Revision block >=? R13_Cancun) && (zlen (blobHashes transaction) >? 0)
         && (negb isSimulation || negb (arr_eqb (t_BlobGasFeeCap transaction) zeroWord))
         && (Value_Cmp (t_BlobGasFeeCap transaction) (bp_BlobBaseFee block) <? 0)
      then Some (ErrMsg "blobGasFeeCap is lower than blobBaseFee") else None
  end.

Definition initCodeSizeCheck (revision : Revision) (transaction : Transaction) : option error :=
  if (revision >=? R12_Shanghai) && isCreation transaction
     && (zlen (t_Input transaction) >? maxInitCodeSize)
  then Some (ErrMsg "init code too long") else None.

(** ** Gas *)

Definition calculateGasPrice (baseFee gasFeeCap gasTipCap : Value) (isSimulation : bool)
    : Value + error :=
  if isSimulation && arr_eqb gasFeeCap zeroWord && arr_eqb gasTipCap zeroWord
  then inl (default zeroWord (NewValue [0]))
  else if Value_Cmp gasFeeCap baseFee <? 0 then inr (ErrMsg "gasFeeCap is lower than baseFee")
  else if Value_Cmp gasFeeCap gasTipCap <? 0 then inr (ErrMsg "gasFeeCap is lower than tipCap")
  else inl (Value_Add baseFee (Value_Min gasTipCap (Value_Sub gasFeeCap baseFee))).

Definition balanceCheck `{Uint256} (gasPrice : Value) (transaction : Transaction) (balance : Value)
    (ethCompatible : bool) : option error :=
  let checkValue := Value_ToBig gasPrice * t_GasLimit transaction in
  let checkValue :=
    if ethCompatible && negb (arr_eqb (t_GasFeeCap transaction) zeroWord)
    then Value_ToBig (t_GasFeeCap transaction) * t_GasLimit transaction else checkValue in
  let checkValue :=
    if ethCompatible then checkValue + Value_ToBig (t_Value transaction) else checkValue in
  let checkValue :=
    if zlen (blobHashes transaction) >? 0
    then checkValue + Value_ToBig (Value_Scale (t_BlobGasFeeCap transaction) (blobGas transaction))
    else checkValue in
  let '(capGasU256, overflow) := Int_FromBig checkValue in
  if (overflow : bool) then Some (ErrMsg "capGas overflow")
  else
    let capGasValue := ValueFromUint256 (Some capGasU256) in
    if Value_Cmp balance capGasValue <? 0 then Some (ErrMsg "insufficient balance") else None.

(** The number of bytes that are not zero. *)
Definition nonZeroBytes (input : Data) : Z :=
  fold_left (fun n b => if negb (byte_val b =? 0) then n + 1 else n) input 0.

Definition calculateSetupGas (transaction : Transaction) (revision : Revision) : Gas :=
  let gas := if isCreation transaction then TxGasContractCreation else TxGas in
  let gas :=
    if zlen (t_Input transaction) >? 0 then
      let nonZero := nonZeroBytes (t_Input transaction) in
      let zeroBytes := zlen (t_Input transaction) -i64 nonZero in
      let gas := gas +i64 (zeroBytes *i64 TxDataZeroGasEIP2028) in
      let gas := gas +i64 (nonZero *i64 TxDataNonZeroGasEIP2028) in
      if isCreation transaction && (revision >=? R12_Shanghai) then
        let lenWords := SizeInWords (u64 (zlen (t_Input transaction))) in
        gas +i64 i64 (lenWords *u64 InitCodeWordGas)
      else gas
    else gas in
  match t_AccessList transaction with
  | None => gas
  | Some list =>
      let gas := gas +i64 (zlen list *i64 TxAccessListAddressGas) in
      fold_left (fun gas t => gas +i64 (zlen (at_Keys t) *i64 TxAccessListStorageKeyGas)) list gas
  end.

Definition calculateGasLeft (transaction : Transaction) (result : CallResult) (revision : Revision)
    (ethCompatible : bool) : Gas :=
  let gasLeft := cr_GasLeft result in
  let gasLeft :=
    if negb ethCompatible && negb (arr_eqb (t_Sender transaction) zeroAddress)
    then gasLeft -i64 Z.quot gasLeft 10 else gasLeft in
  if cr_Success result then
    let gasUsed := t_GasLimit transaction -i64 gasLeft in
    let refund := cr_GasRefund result in
    let maxRefund := if revision <? R10_London then Z.quot gasUsed 2 else Z.quot gasUsed 5 in
    let refund := if refund >? maxRefund then maxRefund else refund in
    gasLeft +i64 refund
  else gasLeft.

Definition callKind (transaction : Transaction) : CallKind :=
  if isCreation transaction then Create else Call.

Definition callParameters (transaction : Transaction) (gas : Gas) : CallParameters :=
  let recipient := default zeroAddress (t_Recipient transaction) in
  mkCallParameters (t_Sender transaction) recipient (t_Value transaction) (t_Input transaction) gas
    zeroWord recipient.

(** ** Transactions *)

Section Processor.
Context {W : Type} {TC : TransactionContext W} {GE : Geth} {U : Uint256} {I : Interpreter (fworld W)}.
Context (config : Config (fworld W)).

Definition checkTransaction (block : BlockParameters) (transaction : Transaction) (context : W)
    : option error :=
  let sim := OffChainSimulation config in
  let nonce := nonceCheck (t_Nonce transaction) (ws_GetNonce context (t_Sender transaction)) in
  let eoa := eoaCheck (ws_GetCodeHash context (t_Sender transaction)) in
  if negb sim && is_err nonce then Some (ErrMsg "failed nonce check")
  else if negb sim && is_err eoa then Some (ErrMsg "failed EOA check")
  else if is_err (checkBlobs transaction block sim) then Some (ErrMsg "failed blob check")
  else if is_err (initCodeSizeCheck (bp_Revision block) transaction)
  then Some (ErrMsg "failed init code size check")
  else None.

Definition buyGasInternal (transaction : Transaction) (gasPrice blobGasPrice : Value) (context : W) : W :=
  let gas := Value_Scale gasPrice (u64 (t_GasLimit transaction)) in
  let gas :=
    if zlen (blobHashes transaction) >? 0
    then Value_Add gas (Value_Scale blobGasPrice (blobGas transaction)) else gas in
  let senderBalance := ws_GetBalance context (t_Sender transaction) in
  ws_SetBalance context (t_Sender transaction) (Value_Sub senderBalance gas).

(** The gas price and the gas for the execution, with the gas bought. *)
Definition calculateAvailableGas (block : BlockParameters) (transaction : Transaction) (context : W)
    : W * ((Value * Gas) + error) :=
  match calculateGasPrice (bp_BaseFee block) (t_GasFeeCap transaction) (t_GasTipCap transaction)
          (OffChainSimulation config) with
  | inr _ => (context, inr (ErrMsg "failed to calculate gas price"))
  | inl gasPrice =>
      match balanceCheck gasPrice transaction (ws_GetBalance context (t_Sender transaction))
              (EthCompatible config) with
      | Some _ => (context, inr (ErrMsg "failed balance check"))
      | None =>
          let setupGas := calculateSetupGas transaction (bp_Revision block) in
          if t_GasLimit transaction <? setupGas
          then (context, inr (ErrMsg "insufficient gas for set up"))
          else
            let context := buyGasInternal transaction gasPrice (bp_BlobBaseFee block) context in
            (context, inl (gasPrice, t_GasLimit transaction -i64 setupGas))
      end
  end.

Definition accessAccount (context : W) (a : Address) : W := fst (tc_AccessAccount context a).

Definition accessTuple (context : W) (t : AccessTuple) : W :=
  fold_left (fun c k => fst (tc_AccessStorage c (at_Address t) k)) (at_Keys t)
    (accessAccount context (at_Address t)).

Definition setUpAccessList (transaction : Transaction) (context : W) (revision : Revision)
    (coinBase : Address) : W :=
  match t_AccessList transaction with
  | None => context
  | Some list =>
      let context := accessAccount context (t_Sender transaction) in
      let context := match t_Recipient transaction with
                     | Some recipient => accessAccount context recipient
                     | None => context
                     end in
      let context := fold_left accessAccount (getPrecompiledAddresses revision) context in
      let context := fold_left accessTuple list context in
      if revision >=? R12_Shanghai then accessAccount context coinBase else context
  end.

Definition runTransaction (block : BlockParameters) (transaction : Transaction) (context : W)
    (gasPrice : Value) (gas : Gas) : W * (CallResult * option error) :=
  let tx := mkTransactionParameters (t_Sender transaction) gasPrice (blobHashes transaction) in
  let context :=
    if bp_Revision block >=? R09_Berlin
    then setUpAccessList transaction context (bp_Revision block) (bp_Coinbase block) else context in
  let context :=
    match callKind transaction with
    | Call => ws_SetNonce context (t_Sender transaction)
                (ws_GetNonce context (t_Sender transaction) +u64 1)
    | _ => context
    end in
  let '(r, res) := floriaCall config block tx (mkFworld context 0 false) (callKind transaction)
                     (callParameters transaction gas) in
  (f_ctx r, res).

Definition refundGasInternal (context : W) (sender : Address) (gasPrice : Value) (gasLeft : Gas) : W :=
  let refundValue := Value_Scale gasPrice (u64 gasLeft) in
  let senderBalance := ws_GetBalance context sender in
  ws_SetBalance context sender (Value_Add senderBalance refundValue).

Definition paymentToCoinbase (gasPrice : Value) (gasUsed : Gas) (block : BlockParameters) (context : W)
    : W :=
  let effectiveTip :=
    if bp_Revision block >=? R10_London then Value_Sub gasPrice (bp_BaseFee block) else gasPrice in
  let fee := Value_Scale effectiveTip (u64 gasUsed) in
  ws_SetBalance context (bp_Coinbase block)
    (Value_Add (ws_GetBalance context (bp_Coinbase block)) fee).

Definition returnExcessGas (block : BlockParameters) (transaction : Transaction) (context : W)
    (gasPrice : Value) (result : CallResult) : W * Gas :=
  let gasLeft := calculateGasLeft transaction result (bp_Revision block) (EthCompatible config) in
  let context := refundGasInternal context (t_Sender transaction) gasPrice gasLeft in
  let gasUsed := t_GasLimit transaction -i64 gasLeft in
  let context :=
    if EthCompatible config then paymentToCoinbase gasPrice gasUsed block context else context in
  (context, gasUsed).

Definition zeroReceipt : Receipt := mkReceipt false [] None 0 0 [].

(** [Processor.Run]: the state, the receipt and the error. *)
Definition Processor_Run (block : BlockParameters) (transaction : Transaction) (context : W)
    : W * (Receipt * option error) :=
  match checkTransaction block transaction context with
  | Some err => (context, (zeroReceipt, Some err))
  | None =>
      match calculateAvailableGas block transaction context with
      | (context, inr err) => (context, (zeroReceipt, Some err))
      | (context, inl (gasPrice, gas)) =>
          match runTransaction block transaction context gasPrice gas with
          | (context, (_, Some err)) =>
              (context, (mkReceipt false [] None (t_GasLimit transaction) 0 [], Some err))
          | (context, (result, None)) =>
              let '(context, gasUsed) :=
                returnExcessGas block transaction context gasPrice result in
              let contractAddress :=
                if isCreation transaction then Some (cr_CreatedAddress result) else None in
              (context, (mkReceipt (cr_Success result) (cr_Output result) contractAddress gasUsed 0
                           (tc_GetLogs context), None))
          end
      end
  end.

(** [newFloriaProcessor]: the configuration of the registered processor. *)
Definition newFloriaProcessor (ids : MethodIDs) : Config (fworld W) :=
  mkFConfig false (Some {[ StateContractAddress := runStateContract ids ]}) false.

End Processor.
