(* ===== verification/FloriaFrame.v ===== *)
(** * Frames of the Floria run context

    What calls and creations do to the world behind the run context: the
    interfaces to the transaction context (snapshots) and to the interpreter,
    as classes with their laws, and the theorem that the run context, handed
    to an interpreter that obeys its law, obeys the law the interpreter
    expects of its environment ([HostFrame]): the recursion between processor
    and interpreter, by induction on the call depth. *)
From Stdlib Require Import ZArith Lia Strings.Byte String.
From stdpp Require Import base list numbers gmap.
From S2P Require Import Prelude Uint256 Types SfvmHashCache SfvmContext SfvmLogic.
From S2P Require Import FloriaStateContract FloriaContext.
Set Default Goal Selector "!".
Local Open Scope Z_scope.
Local Open Scope go_scope.

(** The largest code a 32-bit program counter can address. *)
Definition codeLimit : Z := 2 ^ 31 - 64.

(** The largest amount of gas for which every affordable memory, and so every
    init code, is below [codeLimit]. *)
Definition gasLimit : Gas := 2 ^ 40.

(** ** Snapshots *)

(** [snap w id s]: in the state [w], the snapshot [id] records the state [s].
    The operations on the state keep snapshots; restoring one invalidates only
    later ones. *)
Class Snapshots (W : Type) {TC : TransactionContext W} {G : Globals W} := {
  snap : W -> Z -> W -> Prop;
  sn_create w : snap (fst (tc_CreateSnapshot w)) (snd (tc_CreateSnapshot w)) w;
  sn_create_old w id s : snap w id s -> snap (fst (tc_CreateSnapshot w)) id s;
  sn_fresh w id s : snap w id s -> id < snd (tc_CreateSnapshot w);
  sn_restore_old w id s id' s' : snap w id s -> snap w id' s' -> id' < id ->
    snap (tc_RestoreSnapshot w id) id' s';
  sn_SetBalance w id s a v : snap w id s -> snap (ws_SetBalance w a v) id s;
  sn_SetNonce w id s a n : snap w id s -> snap (ws_SetNonce w a n) id s;
  sn_SetCode w id s a c : snap w id s -> snap (ws_SetCode w a c) id s;
  sn_CreateContract w id s a : snap w id s -> snap (ws_CreateContract w a) id s;
  sn_SetStorage w id s a k v : snap w id s -> snap (fst (ws_SetStorage w a k v)) id s;
  sn_SelfDestruct w id s a b : snap w id s -> snap (fst (ws_SelfDestruct w a b)) id s;
  sn_SetTransientStorage w id s a k v : snap w id s -> snap (tc_SetTransientStorage w a k v) id s;
  sn_AccessAccount w id s a : snap w id s -> snap (fst (tc_AccessAccount w a)) id s;
  sn_AccessStorage w id s a k : snap w id s -> snap (fst (tc_AccessStorage w a k)) id s;
  sn_EmitLog w id s l : snap w id s -> snap (tc_EmitLog w l) id s;
  sn_setSha3Cache w id s c : snap w id s -> snap (g_setSha3Cache w c) id s
}.

(** ** Properties of the transaction context *)

(** [CtxFrame static n R]: the property [R] is kept by the operations of the
    transaction context, in static mode only by those a static call uses, and
    by restoring snapshots from number [n] on that were taken in a state with
    the property. *)
Class CtxFrame {W} {TC : TransactionContext W} {G : Globals W} {SN : Snapshots W}
    (Keccak256 : list byte -> Hash) (Keccak256For32byte : array 32 -> Hash)
    (static : bool) (n : Z) (R : W -> Prop) : Prop := {
  cf_code w a : R w -> zlen (ws_GetCode w a) <= codeLimit;
  cf_sha3Cache w data : R w -> exists cache h,
    sha3_hash Keccak256 Keccak256For32byte (g_sha3Cache w) data = Some (cache, h)
    /\ R (g_setSha3Cache w cache);
  cf_AccessAccount w a : R w -> R (fst (tc_AccessAccount w a));
  cf_AccessStorage w a k : R w -> R (fst (tc_AccessStorage w a k));
  cf_create w : R w -> R (fst (tc_CreateSnapshot w)) /\ n <= snd (tc_CreateSnapshot w);
  cf_restore w id s : n <= id -> snap w id s -> R w -> R s -> R (tc_RestoreSnapshot w id);
  cf_SetBalance w a v : static = false -> R w -> R (ws_SetBalance w a v);
  cf_SetNonce w a v : static = false -> R w -> R (ws_SetNonce w a v);
  cf_SetCode w a c : static = false -> zlen c <= codeLimit -> R w -> R (ws_SetCode w a c);
  cf_CreateContract w a : static = false -> R w -> R (ws_CreateContract w a);
  cf_SetStorage w a k v : static = false -> R w -> R (fst (ws_SetStorage w a k v));
  cf_SelfDestruct w a b : static = false -> R w -> R (fst (ws_SelfDestruct w a b));
  cf_SetTransientStorage w a k v : static = false -> R w -> R (tc_SetTransientStorage w a k v);
  cf_EmitLog w l : static = false -> R w -> R (tc_EmitLog w l)
}.

Section Frames.
Context {W : Type} {TC : TransactionContext W} {G : Globals W} {SN : Snapshots W}.
Context (Keccak256 : list byte -> Hash) (Keccak256For32byte : array 32 -> Hash).

Abbreviation Frame := (CtxFrame Keccak256 Keccak256For32byte).

(** Static mode asks for less. *)
Lemma frame_static static n R : Frame static n R -> Frame true n R.
Proof. intros []. by constructor. Qed.

(** A snapshot taken in a frame adds the property that it is still there. *)
Lemma frame_snap static n R id s : Frame static n R -> n <= id ->
  Frame static (id + 1) (fun w => R w /\ snap w id s).
Proof.
  intros HF Hn. constructor.
  - intros w a [HR _]. by eapply cf_code.
  - intros w data [HR Hs]. destruct (cf_sha3Cache w data HR) as (c & h & Hh & HR').
    exists c, h. split; [done|]. split; [done|]. by apply sn_setSha3Cache.
  - intros w a [HR Hs]. split; [by eapply cf_AccessAccount|by apply sn_AccessAccount].
  - intros w a k [HR Hs]. split; [by eapply cf_AccessStorage|by apply sn_AccessStorage].
  - intros w [HR Hs]. split; [split; [exact (proj1 (cf_create w HR))|by apply sn_create_old]|].
    pose proof (sn_fresh _ _ _ Hs). lia.
  - intros w id' s' Hid Hs' [HR Hs] [HR' _]. split; [eapply cf_restore; [|done..]; lia|].
    eapply sn_restore_old; [done|done|lia].
  - intros w a v Hst [HR Hs]. split; [by eapply cf_SetBalance|by apply sn_SetBalance].
  - intros w a v Hst [HR Hs]. split; [by eapply cf_SetNonce|by apply sn_SetNonce].
  - intros w a c Hst Hc [HR Hs]. split; [by eapply cf_SetCode|by apply sn_SetCode].
  - intros w a Hst [HR Hs]. split; [by eapply cf_CreateContract|by apply sn_CreateContract].
  - intros w a k v Hst [HR Hs]. split; [by eapply cf_SetStorage|by apply sn_SetStorage].
  - intros w a b Hst [HR Hs]. split; [by eapply cf_SelfDestruct|by apply sn_SelfDestruct].
  - intros w a k v Hst [HR Hs].
    split; [by eapply cf_SetTransientStorage|by apply sn_SetTransientStorage].
  - intros w l Hst [HR Hs]. split; [by eapply cf_EmitLog|by apply sn_EmitLog].
Qed.

End Frames.

(** ** The law of an interpreter *)

(** A run in an environment that keeps [R] keeps [R], and returns at most its
    gas. *)
Class InterpreterLaws {W} {G : Globals W} (Keccak256 : list byte -> Hash)
    (Keccak256For32byte : array 32 -> Hash) (I : Interpreter W) : Prop := {
  il_Run (rc : RunContext W) maxGas (R : W -> Prop) w p :
    HostFrame Keccak256 Keccak256For32byte (p_Static p) maxGas R -> R w ->
    0 <= p_Gas p <= maxGas -> maxGas <= gasLimit -> zlen (p_Code p) <= codeLimit ->
    zlen (p_Input p) < 2 ^ 63 ->
    R (fst (interp_Run rc w p)) /\
    match snd (interp_Run rc w p) with
    | inl res => 0 <= r_GasLeft res <= p_Gas p
    | inr _ => True
    end
}.

(** The law of the built-in contracts: they change the world only through the
    setters of the world state, and return at most their gas. *)
Definition setters_keep {W} {WS : WorldState W} (P : W -> Prop) : Prop :=
  (forall w a, P w -> zlen (ws_GetCode w a) <= codeLimit)
  /\ (forall w a v, P w -> P (ws_SetBalance w a v))
  /\ (forall w a v, P w -> P (ws_SetNonce w a v))
  /\ (forall w a c, zlen c <= codeLimit -> P w -> P (ws_SetCode w a c))
  /\ (forall w a k v, P w -> P (fst (ws_SetStorage w a k v))).

Definition contract_ok {W} {WS : WorldState W} (contract : BuiltInContract W) : Prop :=
  forall (P : W -> Prop) w sender receiver input gas, setters_keep P -> P w ->
    0 <= gas <= gasLimit ->
    P (fst (contract w sender receiver input gas))
    /\ 0 <= cr_GasLeft (snd (contract w sender receiver input gas)) <= gas.

Definition contracts_ok {W} {WS : WorldState W} (config : Config W) : Prop :=
  forall contracts a contract, BuiltInContracts config = Some contracts ->
    contracts !! a = Some contract -> contract_ok contract.

(** ** The run context is an environment for the interpreter *)

(** The gas of a precompiled contract is a [uint64]. *)
Definition precompiles_ok {GE : Geth} : Prop :=
  forall rev a c input, getPrecompiledContract a rev = Some c -> isU64 (RequiredGas c input).

Section Calls.
Context {W : Type} {TC : TransactionContext W} {G : Globals W} {SN : Snapshots W} {GE : Geth}.
Context {I : Interpreter (fworld W)}.
Context (Keccak256 : list byte -> Hash) (Keccak256For32byte : array 32 -> Hash).
Context {IL : InterpreterLaws Keccak256 Keccak256For32byte I}.
Context (config : Config (fworld W)) (block : BlockParameters) (tx : TransactionParameters).
Context (Hcontracts : contracts_ok config) (Hprecompiles : precompiles_ok).

Abbreviation Frame := (CtxFrame Keccak256 Keccak256For32byte).

(** The property [R] behind the run context, at depth [d] in mode [st]. *)
Definition fgood (R : W -> Prop) (d : Z) (st : bool) (r : fworld W) : Prop :=
  R (f_ctx r) /\ f_depth r = d /\ f_static r = st.

(** A call keeps every frame, the depth and the mode, and returns at most the
    gas it was given. *)
Definition call_ok (call : CallFn) (d : Z) : Prop :=
  forall static n R r kind p, Frame static n R -> (static = true -> static_call kind p) ->
    fgood R d static r -> 0 <= cp_Gas p <= gasLimit -> zlen (cp_Input p) <= max_memory gasLimit ->
    fgood R d static (fst (call r kind p)) /\ 0 <= cr_GasLeft (fst (snd (call r kind p))) <= cp_Gas p.

Lemma call_frame call d static n R : call_ok call d -> Frame static n R ->
  @HostFrame _ (runContextOf call) _ Keccak256 Keccak256For32byte static gasLimit (fgood R d static).
Proof.
  intros Hcall HF. constructor; cbn; unfold fgood.
  - intros r a (HR & ? & ?). pose proof (cf_AccessAccount _ a HR).
    by destruct (tc_AccessAccount (f_ctx r) a).
  - intros r a k (HR & ? & ?). pose proof (cf_AccessStorage _ a k HR).
    by destruct (tc_AccessStorage (f_ctx r) a k).
  - intros r a k v Hst (HR & ? & ?). pose proof (cf_SetStorage _ a k v Hst HR).
    by destruct (ws_SetStorage (f_ctx r) a k v).
  - intros r a k v Hst (HR & ? & ?). split; [|done]. by apply cf_SetTransientStorage.
  - intros r l Hst (HR & ? & ?). split; [|done]. by apply cf_EmitLog.
  - intros r a b Hst (HR & ? & ?). unfold floriaContext_SelfDestruct.
    match goal with |- context [ws_SelfDestruct ?w a b] =>
      assert (R (fst (ws_SelfDestruct w a b))) as HR' by
        (apply cf_SelfDestruct; [done|]; do 2 (apply cf_SetBalance; [done|]); done);
      by destruct (ws_SelfDestruct w a b) end.
  - intros r kind p Hk Hg Hgas Hin. by eapply Hcall.
  - intros r a (HR & ? & ?). pose proof (cf_code _ a HR). unfold codeLimit in *. lia.
  - intros r data (HR & ? & ?). destruct (cf_sha3Cache _ data HR) as (c & h & Hh & HR').
    exists c, h. done.
Qed.

Lemma transferValue_frame static n R d r value sender recipient : Frame static n R ->
  (static = true -> sender = recipient) -> fgood R d static r ->
  fgood R d static (transferValue r value sender recipient).
Proof.
  intros HF Hst (HR & Hd & Hs). unfold transferValue.
  destruct (arr_eqb value zeroWord); [done|].
  destruct (arr_eqb sender recipient) eqn:E; [done|].
  assert (static = false) as Hf.
  { destruct static; [|done]. rewrite Hst, arr_eqb_refl in E by done. done. }
  split; [|done]. cbn. do 2 (apply cf_SetBalance; [done|]). done.
Qed.

Lemma runPrecompiled_gas rev input a gas : 0 <= gas <= gasLimit ->
  0 <= cr_GasLeft (fst (runPrecompiledContract rev input a gas)) <= gas.
Proof.
  intros Hg. unfold runPrecompiledContract.
  destruct (getPrecompiledContract a rev) as [c|] eqn:E; [|cbn; lia].
  pose proof (Hprecompiles _ _ _ input E) as Hu. unfold gasLimit, isU64 in *.
  destruct (RequiredGas c input >? MaxInt64) eqn:E1; [cbn; lia|]. b2p. unfold MaxInt64 in *.
  rewrite (i64_id (RequiredGas c input)) by zblia.
  case_if; [cbn; lia|]. destruct (pc_Run c input); cbn; [|lia]. rewrite i64_id; zblia.
Qed.

Lemma handleStateContracts_frame n R d r p : Frame false n R -> fgood R d false r ->
  0 <= cp_Gas p <= gasLimit ->
  let '(r', handled) := handleStateContracts config r p in
  fgood R d false r' /\ forall res, handled = Some res -> 0 <= cr_GasLeft res <= cp_Gas p.
Proof.
  intros HF Hr Hg. unfold handleStateContracts.
  destruct (BuiltInContracts config) as [cs|] eqn:E; [|done].
  destruct (cs !! cp_CodeAddress p) as [c|] eqn:E2; [|done].
  destruct (Hcontracts _ _ _ E E2 (fgood R d false) r (cp_Sender p) (cp_CodeAddress p)
    (cp_Input p) (cp_Gas p)) as [H1 H2]; [|done|done|].
  - unfold setters_keep, fgood. split_and!; cbn.
    + intros w a (HR & _). by apply cf_code.
    + intros w a v (HR & ? & ?). split; [|done]. by apply cf_SetBalance.
    + intros w a v (HR & ? & ?). split; [|done]. by apply cf_SetNonce.
    + intros w a c' Hc (HR & ? & ?). split; [|done]. by apply cf_SetCode.
    + intros w a k v (HR & ? & ?). pose proof (cf_SetStorage _ a k v eq_refl HR).
      by destruct (ws_SetStorage (f_ctx w) a k v).
  - destruct (c r (cp_Sender p) _ _ _) as [r' res]. split; [done|]. by intros ? [= <-].
Qed.

Lemma runInterpreter_frame call static n R d r kind p : call_ok call d -> Frame static n R ->
  fgood R d static r -> 0 <= cp_Gas p <= gasLimit -> zlen (cp_Input p) <= max_memory gasLimit ->
  let '(r', res) := runInterpreter block tx call r kind p in
  fgood R d static r' /\ match res with inl res => 0 <= r_GasLeft res <= cp_Gas p | inr _ => True end.
Proof.
  intros Hcall HF Hr Hg Hin. pose proof Hr as (HR & Hd & Hst). unfold runInterpreter.
  destruct (match kind with
            | Call | StaticCall => (ws_GetCode r (cp_Recipient p), ws_GetCodeHash r (cp_Recipient p), cp_Input p)
            | DelegateCall | CallCode => (ws_GetCode r (cp_CodeAddress p), ws_GetCodeHash r (cp_CodeAddress p), cp_Input p)
            | _ => (cp_Input p, crypto_Keccak256 (cp_Input p), [])
            end) as [[code codeHash] input] eqn:E.
  assert (zlen code <= codeLimit /\ zlen input < 2 ^ 63) as [Hc Hi].
  { change (max_memory gasLimit) with (2 ^ 30) in Hin. unfold codeLimit.
    destruct kind; injection E as <- <- <-; cbn; (split; [|try done; lia]);
      try (eapply cf_code; exact HR); lia. }
  match goal with |- context [interp_Run ?rc r ?q] =>
    pose proof (il_Run rc gasLimit (fgood R d static) r q) as Hrun;
    destruct (interp_Run rc r q) as [r' res] end.
  cbn in Hrun. rewrite Hst in Hrun.
  destruct Hrun as [H1 H2]; [by eapply call_frame|done|done|done|done|done|]. done.
Qed.

Lemma callBody_frame call static n R d r kind p : call_ok call d -> Frame static n R ->
  (static = true -> static_call kind p) -> fgood R d static r -> 0 <= cp_Gas p <= gasLimit ->
  zlen (cp_Input p) <= max_memory gasLimit ->
  let '(r', res) := callBody config block tx call r kind p in
  fgood R d static r' /\ 0 <= cr_GasLeft (fst res) <= cp_Gas p.
Proof.
  intros Hcall HF Hk Hr Hg Hin. unfold callBody.
  set (transfers := match kind with Call | CallCode => true | _ => false end).
  destruct (transfers && _)%bool eqn:Et; [split; [done|cbn; lia]|].
  set (r1 := if transfers then _ else r).
  assert (fgood R d static r1) as Hr1.
  { unfold r1, transfers. destruct kind; try done; (eapply transferValue_frame; [done| |done]);
      intros Hst; by destruct (Hk Hst). }
  clearbody r1. clear r Hr Et.
  destruct (match kind with Call => handleStateContracts config r1 p | _ => (r1, None) end)
    as [r2 handled] eqn:Eh.
  assert (fgood R d static r2 /\ forall res, handled = Some res -> 0 <= cr_GasLeft res <= cp_Gas p)
    as [Hr2 Hh].
  { destruct kind; try (injection Eh as <- <-; split; [done|]; by intros ? [=]).
    destruct static; [by destruct (Hk eq_refl)|].
    pose proof (handleStateContracts_frame n R d r1 p HF Hr1 Hg) as H2. by rewrite Eh in H2. }
  destruct handled as [res|]; [split; [done|]; by apply Hh|].
  destruct (isPrecompiled (cp_CodeAddress p) (bp_Revision block)).
  - pose proof (runPrecompiled_gas (bp_Revision block) (cp_Input p) (cp_CodeAddress p) _ Hg) as Hp.
    destruct (runPrecompiledContract _ _ _ _) as [result err]. done.
  - pose proof (runInterpreter_frame call static n R d r2 kind p Hcall HF Hr2 Hg Hin) as Hi.
    destruct (runInterpreter _ _ _ _ _ _) as [r3 [res|err]]; destruct Hi as [Hr3 Hgas];
      (split; [done|]); [done|cbn; lia].
Qed.

(** Restoring the snapshot that was taken at the start. *)
Lemma restoreOnFailure_frame static n R d id s r res : Frame static n R -> n <= id -> R s ->
  fgood (fun w => R w /\ snap w id s) d static r -> fgood R d static (restoreOnFailure id r res).
Proof.
  intros HF Hn Hs ((HR & Hsn) & Hd & Hst). unfold restoreOnFailure. destruct res as [cr err].
  case_if; [|done]. split; [|done]. cbn. by eapply cf_restore.
Qed.

Lemma depth_step d : 0 <= d <= MaxRecursiveDepth -> d +i64 1 = d + 1 /\ d + 1 -i64 1 = d.
Proof. unfold MaxRecursiveDepth. intros Hd. rewrite !i64_id; zblia. Qed.

(** A call; a static call needs a frame for static mode only. *)
Lemma executeCall_frame call d static n R r kind p : 0 <= d <= MaxRecursiveDepth ->
  call_ok call (d + 1) -> Frame (static || isStaticCall kind) n R ->
  (static = true -> static_call kind p) -> fgood R d static r -> 0 <= cp_Gas p <= gasLimit ->
  zlen (cp_Input p) <= max_memory gasLimit ->
  fgood R d static (fst (executeCall config block tx call r kind p))
  /\ 0 <= cr_GasLeft (fst (snd (executeCall config block tx call r kind p))) <= cp_Gas p.
Proof.
  intros Hd Hcall HF Hk (HR & Hdr & Hst) Hg Hin. unfold executeCall, incrementDepth.
  rewrite Hdr, Z.gtb_ltb, (proj2 (Z.ltb_ge _ _)) by lia. cbn [f_static set_depth]. rewrite Hst.
  destruct (depth_step d Hd) as [-> Hback].
  set (setsStatic := (negb static && isStaticCall kind)%bool).
  set (static' := (static || isStaticCall kind)%bool) in *.
  set (r1 := if setsStatic then _ else _).
  assert (fgood R (d + 1) static' r1) as (HR1 & Hd1 & Hst1).
  { unfold r1, setsStatic, static'. by destruct static, (isStaticCall kind). }
  cbn [tc_CreateSnapshot floriaTransactionContext].
  destruct (tc_CreateSnapshot (f_ctx r1)) as [w2 id] eqn:Ec.
  pose proof (cf_create _ HR1) as [HR2 Hid]. pose proof (sn_create (f_ctx r1)) as Hsn.
  rewrite Ec in HR2, Hid, Hsn. cbn [fst snd] in HR2, Hid, Hsn.
  pose proof (frame_snap _ _ _ _ _ id (f_ctx r1) HF Hid) as HF2.
  pose proof (callBody_frame call static' _ _ (d + 1) (set_ctx w2 r1) kind p Hcall HF2) as Hb.
  destruct (callBody _ _ _ _ _ _ _) as [r3 res]. destruct Hb as [Hr3 Hgas].
  { unfold static'. intros Hs'. destruct static; [by apply Hk|]. by destruct kind. }
  { by split. }
  { done. }
  { done. }
  apply (restoreOnFailure_frame static' n R _ _ _ _ res HF Hid HR1) in Hr3.
  destruct Hr3 as (HR3 & Hd3 & Hst3). cbn [fst snd]. split; [|done].
  unfold setsStatic, fgood. destruct static; cbn; rewrite ?Hd3; [done|].
  unfold static' in Hst3. destruct (isStaticCall kind); cbn in *; by rewrite ?Hd3.
Qed.

Lemma executeCall_ok call d : 0 <= d <= MaxRecursiveDepth -> call_ok call (d + 1) ->
  call_ok (executeCall config block tx call) d.
Proof.
  intros Hd Hcall static n R r kind p HF Hk Hr Hg Hin. eapply executeCall_frame; try done.
  destruct static; [done|]. destruct (isStaticCall kind); [by eapply frame_static|done].
Qed.

(** What a failed call leaves: everything a snapshot determines is as before. *)
Lemma executeCall_restores call d static n R r kind p (Q : W -> Prop) :
  0 <= d <= MaxRecursiveDepth ->
  call_ok call (d + 1) -> Frame (static || isStaticCall kind) n R ->
  (static = true -> static_call kind p) -> fgood R d static r -> 0 <= cp_Gas p <= gasLimit ->
  zlen (cp_Input p) <= max_memory gasLimit ->
  (forall w id s, snap w id s -> Q s -> Q (tc_RestoreSnapshot w id)) -> Q (f_ctx r) ->
  let '(r', (res, err)) := executeCall config block tx call r kind p in
  err <> None \/ cr_Success res = false -> Q (f_ctx r').
Proof.
  intros Hd Hcall HF Hk (HR & Hdr & Hst) Hg Hin HQ Hq. unfold executeCall, incrementDepth.
  rewrite Hdr, Z.gtb_ltb, (proj2 (Z.ltb_ge _ _)) by lia. cbn [f_static set_depth]. rewrite Hst.
  destruct (depth_step d Hd) as [-> Hback].
  set (static' := (static || isStaticCall kind)%bool) in *.
  set (r1 := if (negb static && isStaticCall kind)%bool then _ else _).
  assert (fgood R (d + 1) static' r1 /\ f_ctx r1 = f_ctx r) as ((HR1 & Hd1 & Hst1) & Hctx).
  { unfold r1, static'. by destruct static, (isStaticCall kind). }
  cbn [tc_CreateSnapshot floriaTransactionContext].
  destruct (tc_CreateSnapshot (f_ctx r1)) as [w2 id] eqn:Ec.
  pose proof (cf_create _ HR1) as [HR2 Hid]. pose proof (sn_create (f_ctx r1)) as Hsn.
  rewrite Ec in HR2, Hid, Hsn. cbn [fst snd] in HR2, Hid, Hsn.
  pose proof (frame_snap _ _ _ _ _ id (f_ctx r1) HF Hid) as HF2.
  pose proof (callBody_frame call static' _ _ (d + 1) (set_ctx w2 r1) kind p Hcall HF2) as Hb.
  destruct (callBody _ _ _ _ _ _ _) as [r3 [res err]]. destruct Hb as [((HR3 & Hs3) & _) _].
  { unfold static'. intros Hs'. destruct static; [by apply Hk|]. by destruct kind. }
  { by split. }
  { done. }
  { done. }
  intros Hfail. unfold restoreOnFailure. rewrite Hctx in Hs3.
  assert ((is_err err || negb (cr_Success res))%bool = true) as ->.
  { destruct err; [done|]. destruct Hfail as [|Hf]; [done|]. cbn. by rewrite Hf. }
  destruct (negb static && isStaticCall kind)%bool; cbn; by eapply HQ.
Qed.

Lemma createBody_frame call n R d r kind p a : call_ok call d -> Frame false n R ->
  fgood R d false r -> 0 <= cp_Gas p <= gasLimit -> zlen (cp_Input p) <= max_memory gasLimit ->
  let '(r', res) := createBody block tx call r kind p a in
  fgood R d false r' /\ 0 <= cr_GasLeft (fst res) <= cp_Gas p.
Proof.
  intros Hcall HF (HR & Hd & Hst) Hg Hin. unfold createBody.
  set (r1 := transferValue _ _ _ _).
  assert (fgood R d false r1) as Hr1.
  { unfold r1. eapply transferValue_frame; [done|done|]. split; [|done]. cbn.
    apply cf_SetNonce; [done|]. by apply cf_CreateContract. }
  clearbody r1.
  match goal with |- context [runInterpreter _ _ _ _ _ ?q] =>
    pose proof (runInterpreter_frame call false n R d r1 kind q Hcall HF Hr1 Hg Hin) as Hi end.
  destruct (runInterpreter _ _ _ _ _ _) as [r2 [res|err]]; destruct Hi as [Hr2 Hgas]; [|split; [done|cbn; lia]].
  destruct (negb (r_Success res)); [done|]. unfold checkAndDeployCode. cbn [cp_Gas] in Hgas.
  destruct (zlen (r_Output res) >? maxCodeSize) eqn:Es; cbv zeta.
  { destruct (_ && _ && _)%bool, (_ <? _); (split; [done|cbn; lia]). }
  b2p. destruct (_ && _ && _)%bool; [destruct (_ <? _); (split; [done|cbn; lia])|].
  unfold maxCodeSize, gasLimit, createGasCostPerByte in *. pose proof (zlen_nonneg (r_Output res)).
  rewrite (i64_id (zlen (r_Output res) * 200)) by zblia.
  destruct (r_GasLeft res <? _) eqn:Eg; [split; [done|cbn; lia]|]. b2p.
  destruct (r_Success res); cbn; [|split; [done|lia]].
  destruct Hr2 as (HR2 & Hd2 & Hst2). split.
  - split; [|done]. apply cf_SetCode; [done|unfold codeLimit; lia|done].
  - rewrite i64_id; zblia.
Qed.

Lemma createAddress_frame n R d r kind p : Frame false n R -> fgood R d false r ->
  fgood R d false (fst (createAddress kind p (bp_Revision block) r)).
Proof.
  intros HF (HR & Hd & Hst). unfold createAddress.
  destruct (match kind with Create => _ | Create2 => _ | _ => _ end) as [a|]; [|done].
  set (r1 := if bp_Revision block >=? R09_Berlin then fst (tc_AccessAccount r a) else r).
  assert (fgood R d false r1) as Hr1.
  { unfold r1. case_if; [|done]. cbn. pose proof (cf_AccessAccount _ a HR).
    by destruct (tc_AccessAccount (f_ctx r) a). }
  clearbody r1. by destruct (negb (isEmptyAccount r1 a)).
Qed.

Lemma senderCreateSetUp_frame n R d r p : Frame false n R -> fgood R d false r ->
  fgood R d false (fst (senderCreateSetUp p r)).
Proof.
  intros HF (HR & Hd & Hst). unfold senderCreateSetUp, incrementNonce.
  destruct (negb _); [done|]. case_if; [done|]. split; [|done]. cbn. by apply cf_SetNonce.
Qed.

Lemma executeCreate_ok call d kind p n R r : 0 <= d <= MaxRecursiveDepth -> call_ok call (d + 1) ->
  Frame false n R -> fgood R d false r -> 0 <= cp_Gas p <= gasLimit ->
  zlen (cp_Input p) <= max_memory gasLimit ->
  fgood R d false (fst (executeCreate block tx call r kind p))
  /\ 0 <= cr_GasLeft (fst (snd (executeCreate block tx call r kind p))) <= cp_Gas p.
Proof.
  intros Hd Hcall HF (HR & Hdr & Hst) Hg Hin. unfold executeCreate, incrementDepth.
  rewrite Hdr, Z.gtb_ltb, (proj2 (Z.ltb_ge _ _)) by lia.
  destruct (depth_step d Hd) as [-> Hback].
  set (inner := match senderCreateSetUp p _ with (_, _) => _ end).
  assert (fgood R (d + 1) false (fst inner) /\ 0 <= cr_GasLeft (fst (snd inner)) <= cp_Gas p) as Hin2.
  { unfold inner. assert (fgood R (d + 1) false (set_depth (d + 1) r)) as Hr1 by done.
    pose proof (senderCreateSetUp_frame n R _ _ p HF Hr1) as Hr2.
    destruct (senderCreateSetUp p _) as [r2 [e|]]; [split; [done|cbn; lia]|]. cbn in Hr2.
    pose proof (createAddress_frame n R _ _ kind p HF Hr2) as Hr3.
    destruct (createAddress _ _ _ r2) as [r3 [a|e]]; [|split; [done|cbn; lia]]. cbn in Hr3.
    destruct Hr3 as (HR3 & Hd3 & Hst3). cbn [tc_CreateSnapshot floriaTransactionContext].
    destruct (tc_CreateSnapshot (f_ctx r3)) as [w4 id] eqn:Ec.
    pose proof (cf_create _ HR3) as [HR4 Hid]. pose proof (sn_create (f_ctx r3)) as Hsn.
    rewrite Ec in HR4, Hid, Hsn. cbn [fst snd] in HR4, Hid, Hsn.
    pose proof (frame_snap _ _ _ _ _ id (f_ctx r3) HF Hid) as HF2.
    pose proof (createBody_frame call _ _ (d + 1) (set_ctx w4 r3) kind p a Hcall HF2) as Hb.
    destruct (createBody _ _ _ _ _ _ _) as [r5 res]. destruct Hb as [Hr5 Hgas]; [done|done|done|].
    split; [|done]. cbn [fst snd]. by apply (restoreOnFailure_frame false n R _ id (f_ctx r3)). }
  destruct inner as [r6 res]. destruct Hin2 as [(HR6 & Hd6 & Hst6) Hgas]. cbn in *.
  split; [|done]. split; [done|]. cbn. by rewrite Hd6.
Qed.

(** The depth is exhausted. *)
Lemma callAt_0 d : call_ok (callAt config block tx 0) d.
Proof.
  intros static n R r kind p HF Hk Hr Hg Hin. cbn. split; [done|lia].
Qed.

Lemma callAt_ok levels : forall d, 0 <= d -> d + Z.of_nat levels <= MaxRecursiveDepth + 1 ->
  call_ok (callAt config block tx levels) d.
Proof.
  induction levels as [|levels IH]; intros d Hd Hl; [apply callAt_0|].
  assert (call_ok (callAt config block tx levels) (d + 1)) as Hc by (apply IH; lia).
  intros static n R r kind p HF Hk Hr Hg Hin. cbn [callAt]. unfold runContext_Call.
  destruct kind; try (eapply executeCall_ok; (done || lia)).
  - destruct static; [by destruct (Hk eq_refl)|]. eapply executeCreate_ok; (done || lia).
  - destruct static; [by destruct (Hk eq_refl)|]. eapply executeCreate_ok; (done || lia).
Qed.

End Calls.
