(* ===== verification/FloriaSfvm.v ===== *)
(** * The interpreter and the built-in contract of the processor

    [sfvm] obeys the law of an interpreter, the state contract that of a
    built-in contract, and the reference world that of a transaction context:
    the interfaces of [FloriaFrame] discharged by their implementations. *)
From Stdlib Require Import ZArith Lia Strings.Byte String.
From stdpp Require Import base list numbers gmap.
From S2P Require Import Prelude Uint256 Types SfvmStack SfvmAnalysis SfvmHashCache SfvmContext.
From S2P Require Import SfvmInterpreter SfvmLogic RefWorld SfvmExecution.
From S2P Require Import FloriaStateContract FloriaContext FloriaFrame.
From stdpp Require Import list.
Set Default Goal Selector "!".
Local Open Scope Z_scope.
Local Open Scope go_scope.

(** ** The interpreter *)

Section Sfvm.
Context {W : Type} {U : Uint256} {UL : Uint256Laws U} {G : Globals W} {C : Type} {L : LRU jumpDestMap C}.
Context (Keccak256 : list byte -> Hash) (Keccak256For32byte : array 32 -> Hash).
Context (vm : sfvm C) (garbage : list u256) (Hgarbage : zlen garbage = maxStackSize).

(** [sfvm.Run] as an interpreter, with one step per unit of gas. The changed
    analysis cache is dropped: it does not influence results. *)
Definition sfvmInterpreter : Interpreter W := {|
  interp_Run rc w p :=
    match @Run W U rc G Keccak256 Keccak256For32byte C L (S (Z.to_nat (p_Gas p))) vm w p garbage with
    | Some (w, _, r) => (w, r)
    | None => (w, inr (ErrMsg "out of fuel"))
    end
|}.

Lemma sfvmInterpreter_laws : InterpreterLaws Keccak256 Keccak256For32byte sfvmInterpreter.
Proof.
  constructor. intros rc maxGas R w p HF HR Hg Hm Hc Hi. cbn. unfold Run.
  case_if; [done|].
  destruct (run_ok Keccak256 Keccak256For32byte R maxGas (S (Z.to_nat (p_Gas p))) (vm_analysis vm)
    (vm_config vm) w p garbage HF HR) as (w' & a' & res & -> & HR' & [Hres _]); [|lia|done].
  unfold run_pre, gasLimit, codeLimit, MaxInt64 in *. split_and!; (done || lia).
Qed.

End Sfvm.

(** ** The state contract *)

Section StateContract.
Context {W : Type} {WS : WorldState W} (P : W -> Prop) (HP : setters_keep P).

(** An operation keeps [P] and returns at most [gas]. *)
Definition op_ok (gas : Gas) (res : stateResult) : Prop :=
  P (fst res) /\ 0 <= fst (snd res) <= gas.

Lemma code_cost w a : P w ->
  zlen (ws_GetCode w a) *i64 (createDataGas + memoryGas) = 203 * zlen (ws_GetCode w a)
  /\ 0 <= 203 * zlen (ws_GetCode w a) <= 203 * codeLimit.
Proof.
  intros Hw. pose proof (zlen_nonneg (ws_GetCode w a)). destruct HP as (Hcode & _).
  pose proof (Hcode w a Hw). unfold createDataGas, memoryGas, codeLimit in *. rewrite i64_id; zblia.
Qed.

Ltac op_done := split; cbn; [by auto|first [lia|rewrite i64_id; zblia]].

Lemma setBalance_ok w sender input gas : P w -> 0 <= gas <= gasLimit ->
  op_ok gas (executeStateSetBalance w sender input gas).
Proof.
  intros Hw Hg. destruct HP as (_ & Hbal & _). unfold gasLimit in *.
  unfold executeStateSetBalance, callValueTransferGas. repeat case_if; op_done.
Qed.

Lemma copyCode_ok w input gas : P w -> 0 <= gas <= gasLimit ->
  op_ok gas (executeStateContractCopyCode w input gas).
Proof.
  intros Hw Hg. pose proof HP as (Hcode & _ & _ & Hset & _). unfold gasLimit in *.
  unfold executeStateContractCopyCode, createGas. case_if; [op_done|].
  case_if; [op_done|]. cbv zeta. set (from := to_array 20 (slice input (32 + 12) (32 + 32))).
  destruct (code_cost w from Hw) as [-> Hc]. unfold codeLimit in Hc.
  rewrite (i64_id (gas - 32000)) by zblia. case_if; [op_done|].
  rewrite i64_id by zblia. split; [|cbn; lia]. cbn. case_if; auto.
Qed.

Lemma swapCode_ok w input gas : P w -> 0 <= gas <= gasLimit ->
  op_ok gas (executeStateContractSwapCode w input gas).
Proof.
  intros Hw Hg. pose proof HP as (Hcode & _ & _ & Hset & _). unfold gasLimit in *.
  unfold executeStateContractSwapCode, createGas. case_if; [op_done|].
  case_if; [op_done|]. cbv zeta.
  set (a0 := to_array 20 (slice input 12 32)). set (a1 := to_array 20 (slice input (32 + 12) (32 + 32))).
  destruct (code_cost w a0 Hw) as [-> H0]. destruct (code_cost w a1 Hw) as [-> H1].
  unfold codeLimit in *. rewrite (i64_id (gas - 2 * 32000)), (i64_id (_ + _)) by zblia.
  rewrite Z.quot_div_nonneg by lia. set (cost := (_ + _) / 2).
  assert (0 <= cost <= 203 * 2 ^ 31) by (unfold cost; divlia).
  case_if; [op_done|]. rewrite i64_id by zblia. split; [|cbn; lia]. cbn. case_if; [|done].
  auto.
Qed.

Lemma setStorage_ok w input gas : P w -> 0 <= gas <= gasLimit ->
  op_ok gas (executeStateContractSetStorage w input gas).
Proof.
  intros Hw Hg. destruct HP as (_ & _ & _ & _ & Hsto). unfold gasLimit in *.
  unfold executeStateContractSetStorage, sStoreSetGasEIP2200. repeat case_if; op_done.
Qed.

Lemma incNonce_ok w sender input gas : P w -> 0 <= gas <= gasLimit ->
  op_ok gas (executeStateContractIncNonce w sender input gas).
Proof.
  intros Hw Hg. destruct HP as (_ & _ & Hnonce & _). unfold gasLimit in *.
  unfold executeStateContractIncNonce, callValueTransferGas. repeat case_if; op_done.
Qed.

End StateContract.

Lemma stateContract_ok {W} {WS : WorldState W} (ids : MethodIDs) : contract_ok (runStateContract ids).
Proof.
  intros P w sender receiver input gas HP Hw Hg.
  unfold runStateContract. do 3 (case_if; [split; [done|cbn; lia]|]).
  match goal with |- context [let '(_, _) := ?e in _] =>
    assert (op_ok P gas e) as [H1 H2]; [|destruct e as [w' [gl err]]; done] end.
  repeat case_if; auto using setBalance_ok, copyCode_ok, swapCode_ok, setStorage_ok, incNonce_ok.
  split; [done|cbn; lia].
Qed.

(** ** The reference world *)

(** A snapshot records the core of a state. *)
Definition refSnap (w : world) (id : Z) (s : world) : Prop :=
  0 <= id /\ w_snapshots w !! Z.to_nat id = Some (w_core s).

#[global] Instance refSnapshots : Snapshots world.
Proof.
  refine {| snap := refSnap |}; unfold refSnap; cbn; try done.
  - intros w. split; [apply zlen_nonneg|]. unfold zlen. rewrite Nat2Z.id.
    by rewrite lookup_app_r, Nat.sub_diag by lia.
  - intros w id s [Hid Hs]. split; [done|]. by apply lookup_app_l_Some.
  - intros w id s [Hid Hs]. apply lookup_lt_Some in Hs. unfold zlen. lia.
  - intros w id s id' s' [Hid Hs] [Hid' Hs'] Hlt. rewrite Hs. cbn. split; [done|].
    rewrite lookup_take_Some. split; [done|lia].
Defined.

(** Every property of the core that the core's operations keep is a frame. *)
Lemma refCtxFrame static (P : core -> Prop) :
  (forall k a, P k -> P (addAccount a k)) -> (forall k a key, P k -> P (addSlot a key k)) ->
  (static = false -> (forall k a v, P k -> P (setBalance a v k)) /\ (forall k a n, P k -> P (setNonce a n k))
    /\ (forall k a c, P k -> P (setCode a c k)) /\ (forall k a key v, P k -> P (setStorage a key v k))
    /\ (forall k a key v, P k -> P (setTransient a key v k))
    /\ (forall k l, P k -> P (addLog l k)) /\ (forall k a, P k -> P (addDestructed a k))) ->
  CtxFrame refHash refHash32 static 0
    (fun w => sha3_wf refHash refHash32 (w_sha3 w)
              /\ (forall a, zlen (default [] (k_code (w_core w) !! a)) <= codeLimit) /\ P (w_core w)).
Proof.
  intros Ha Hs Hd.
  assert (forall a b (c : Code) (m : gmap Address Code), zlen c <= codeLimit ->
    (forall a, zlen (default [] (m !! a)) <= codeLimit) ->
    zlen (default [] (<[a:=c]> m !! b)) <= codeLimit) as Hins.
  { intros a b c m Hc Hm. destruct (decide (a = b)) as [->|Hab].
    - by rewrite lookup_insert_eq.
    - by rewrite lookup_insert_ne. }
  constructor; cbn; intros; repeat match goal with H : _ /\ _ |- _ => destruct H end; cbn; auto;
    try (destruct Hd as (?&?&?&?&?&?&?); [done|]; by auto).
  - destruct (sha3_hash_some refHash refHash32 (w_sha3 w) data) as (c & Hc & Hw); [done|].
    eexists _, _. split; [exact Hc|]. auto.
  - split; [auto|apply zlen_nonneg].
  - rename select (refSnap _ _ _) into Hsn. destruct Hsn as [_ Hsn]. rewrite Hsn. cbn. auto.
Qed.
