(* ===== verification/FloriaProperties.v ===== *)
(** * Properties of the Floria processor

    Prices, payments and transfers as integers; calls and creations against
    the interfaces of [FloriaFrame]; the state contract; and the behaviour of
    a transaction on every branch. *)
From Stdlib Require Import ZArith Lia Strings.Byte String.
From stdpp Require Import base list numbers gmap.
From S2P Require Import Prelude Uint256 Types SfvmStack SfvmAnalysis SfvmHashCache SfvmContext.
From S2P Require Import SfvmInterpreter SfvmLogic RefWorld SfvmExecution.
From S2P Require Import FloriaStateContract FloriaContext FloriaProcessor FloriaFrame FloriaSfvm.
From stdpp Require Import list.
Set Default Goal Selector "!".
Local Open Scope Z_scope.
Local Open Scope go_scope.

(** ** Balances *)

Class BalanceLaws (W : Type) {WS : WorldState W} : Prop := {
  bl_set w a v b : ws_GetBalance (ws_SetBalance w a v) b = if arr_eqb a b then v else ws_GetBalance w b
}.

#[global] Instance refBalanceLaws : BalanceLaws world.
Proof.
  constructor. intros w a v b. cbn. unfold arr_eqb. case_bool_decide as E.
  - subst b. by rewrite lookup_insert_eq.
  - by rewrite lookup_insert_ne.
Qed.

#[global] Instance floriaBalanceLaws {W} {WS : WorldState W} {BL : BalanceLaws W} :
  BalanceLaws (fworld W).
Proof. constructor. intros r a v b. cbn. apply bl_set. Qed.

Section Balances.
Context {W : Type} {TC : TransactionContext W} {BL : BalanceLaws W}.

Definition balance (w : W) (a : Address) : Z := value_Z (ws_GetBalance w a).

(** The balances of the accounts [l] together. *)
Definition supply (w : W) (l : list Address) : Z := foldr (fun a n => balance w a + n) 0 l.

Lemma balance_set w a v b : balance (ws_SetBalance w a v) b = if arr_eqb a b then value_Z v else balance w b.
Proof. unfold balance. rewrite bl_set. by case_if. Qed.

Lemma supply_cons w a l : supply w (a :: l) = balance w a + supply w l.
Proof. done. Qed.

(** Changing one balance changes the supply by the difference. *)
Lemma supply_set w a v l : NoDup l -> a ∈ l ->
  supply (ws_SetBalance w a v) l = supply w l - balance w a + value_Z v.
Proof.
  assert (forall l, a ∉ l -> supply (ws_SetBalance w a v) l = supply w l) as Hout.
  { induction l0 as [|b l0 IH]; intros Ha; [done|]. apply not_elem_of_cons in Ha as [Hab Ha].
    rewrite !supply_cons, IH, balance_set, (arr_eqb_neq a b) by done. done. }
  induction l as [|b l IH]; intros Hnd Ha; [by apply elem_of_nil in Ha|].
  apply NoDup_cons in Hnd as [Hb Hnd]. rewrite !supply_cons, balance_set.
  apply elem_of_cons in Ha as [->|Ha].
  - rewrite arr_eqb_refl, Hout by done. lia.
  - rewrite arr_eqb_neq by (intros ->; done). rewrite IH by done. lia.
Qed.

Lemma supply_range w l : 0 <= supply w l.
Proof. induction l as [|b l IH]; [done|]. rewrite supply_cons. pose proof (value_range (ws_GetBalance w b)). unfold balance. lia. Qed.

Lemma supply_bound w l a : a ∈ l -> balance w a <= supply w l.
Proof.
  induction l as [|b l IH]; intros Ha; [by apply elem_of_nil in Ha|]. rewrite supply_cons.
  pose proof (supply_range w l). pose proof (value_range (ws_GetBalance w b)).
  apply elem_of_cons in Ha as [->|Ha]; [lia|]. specialize (IH Ha). unfold balance in *. lia.
Qed.

(** The checks of [canTransferValue], as inequalities of integers. *)
Lemma canTransferValue_spec w v s r : canTransferValue w v s (Some r) =
  (value_Z v =? 0) || ((value_Z v <=? balance w s)
    && (bool_decide (s = r) || (balance w r + value_Z v <? M256))).
Proof.
  unfold canTransferValue, balance. rewrite value_eqb_zero.
  destruct (value_Z v =? 0) eqn:E0; [done|]. b2p. cbn [orb]. rewrite Value_Cmp_lt.
  pose proof (value_range v). pose proof (value_range (ws_GetBalance w r)).
  destruct (Z.ltb_spec (value_Z (ws_GetBalance w s)) (value_Z v)) as [Hlt|Hge].
  { by rewrite (proj2 (Z.leb_gt _ _)) by lia. }
  rewrite (proj2 (Z.leb_le _ _)) by lia. cbn [andb]. unfold arr_eqb.
  case_bool_decide; [done|]. cbn [orb]. rewrite !Value_Cmp_lt, Value_Add_Z.
  destruct (Z.ltb_spec (value_Z (ws_GetBalance w r) + value_Z v) M256) as [Hs|Hs].
  - rewrite Z.mod_small by lia. rewrite !(proj2 (Z.ltb_ge _ _)) by lia. done.
  - rewrite <-(Z.mod_unique (value_Z (ws_GetBalance w r) + value_Z v) M256 1
      (value_Z (ws_GetBalance w r) + value_Z v - M256)) by lia.
    by rewrite (proj2 (Z.ltb_lt _ _)) by lia.
Qed.

(** Balances after a permitted transfer. *)
Lemma transferValue_balance w v s r a : canTransferValue w v s (Some r) = true ->
  balance (transferValue w v s r) a =
    balance w a - (if arr_eqb s a then value_Z v else 0) + (if arr_eqb r a then value_Z v else 0).
Proof.
  rewrite canTransferValue_spec. unfold transferValue. rewrite value_eqb_zero. intros Hc.
  pose proof (value_range v). destruct (value_Z v =? 0) eqn:E0; b2p.
  { rewrite E0. repeat case_if; lia. }
  cbn [orb] in Hc. b2p. rename select (_ || _ = true) into Hr. unfold balance in *.
  pose proof (value_range (ws_GetBalance w s)). pose proof (value_range (ws_GetBalance w r)).
  destruct (arr_eqb s r) eqn:Esr.
  { apply arr_eqb_eq in Esr as ->. repeat case_if; lia. }
  assert (s <> r) as Hne by (intros ->; by rewrite arr_eqb_refl in Esr).
  rewrite bool_decide_false in Hr by done. cbn in Hr. b2p. rewrite !bl_set.
  destruct (arr_eqb r a) eqn:Era, (arr_eqb s a) eqn:Esa;
    rewrite ?arr_eqb_eq in *; subst; try done; rewrite ?Value_Add_Z, ?Value_Sub_Z, ?Z.mod_small; lia.
Qed.

End Balances.

(** ** Concrete environments *)

#[local] Existing Instance uint256_ref.
#[local] Existing Instance uint256_ref_laws.

Definition addr (n : Z) : Address := to_array 20 (be_bytes 20 n).
Definition val (n : Z) : Value := to_array 32 (be_bytes 32 n).

(** No precompiled contracts, and stand-ins for the hash functions. *)
#[global] Instance refGeth : Geth := {|
  PrecompiledContractsCancun := ∅;
  PrecompiledContractsBerlin := ∅;
  PrecompiledContractsIstanbul := {[ addr 1 := mkPrecompiled (fun _ => 15) (fun d => inl d) ]};
  crypto_Keccak256 := refHash;
  crypto_CreateAddress a n := to_array 20 (be_bytes 20 (1000 + n));
  crypto_CreateAddress2 a s h := to_array 20 (arr_bytes h)
|}.

Lemma refGeth_ok : precompiles_ok.
Proof.
  intros rev a c input. unfold getPrecompiledContract, getPrecompiledContracts.
  cbn [refGeth PrecompiledContractsCancun PrecompiledContractsBerlin PrecompiledContractsIstanbul].
  repeat case_if; rewrite ?lookup_empty, ?lookup_singleton_Some; [done|done|].
  by intros [_ <-].
Qed.

(** [sfvm] as the interpreter, with the state contract. *)
#[global] Instance refInterpreter : Interpreter (fworld world) :=
  sfvmInterpreter (C := assocCache) refHash refHash32
    (mkSfvm (mkConfig true false 0 0) (mkAnalysis None 0)) (replicate 1024 (of_Z 7)).

Lemma refInterpreter_laws : InterpreterLaws refHash refHash32 refInterpreter.
Proof. by apply sfvmInterpreter_laws. Qed.

Definition refIDs : MethodIDs :=
  mkMethodIDs [x01; x00; x00; x00] [x02; x00; x00; x00] [x03; x00; x00; x00] [x04; x00; x00; x00]
    [x05; x00; x00; x00].

Definition refConfig : Config (fworld world) := newFloriaProcessor refIDs.

Lemma refConfig_ok : contracts_ok refConfig.
Proof.
  intros cs a c [= <-]. rewrite lookup_singleton_Some. intros [_ <-]. apply stateContract_ok.
Qed.

Definition refBlock (rev : Revision) : BlockParameters :=
  mkBlockParameters zeroWord 1 1 (addr 99) 1000000 zeroWord zeroWord zeroWord rev.

(** A contract at address 1 that stores, then reverts; one at 2 that stores;
    account 7 owns 100. *)
Definition refCore : core :=
  mkCore {[ addr 7 := val 100 ]} ∅
    (<[ addr 1 := [x60; x01; x60; x00; x55; x60; x00; x60; x00; xfd] ]>
     {[ addr 2 := [x60; x01; x60; x00; x55] ]})
    ∅ ∅ ∅ ∅ ∅ ∅ [].

Definition refState : fworld world := mkFworld (newWorld refCore) 0 false.

Definition refCall (to : Z) (v : Z) : CallParameters :=
  mkCallParameters (addr 7) (addr to) (val v) [] 100000 zeroWord (addr to).

Definition refTx : TransactionParameters := mkTransactionParameters (addr 7) zeroWord [].

(** The environment's invariant in the reference world. *)
Abbreviation refR P := (fun w : world => sha3_wf refHash refHash32 (w_sha3 w)
  /\ (forall a, zlen (default [] (k_code (w_core w) !! a)) <= codeLimit) /\ P (w_core w)).

Lemma refCore_code a : zlen (default [] (k_code refCore !! a)) <= codeLimit.
Proof.
  unfold refCore. cbn [k_code]. destruct (decide (addr 1 = a)) as [<-|H1].
  { by rewrite lookup_insert_eq. }
  rewrite lookup_insert_ne by done. destruct (decide (addr 2 = a)) as [<-|H2].
  - by rewrite lookup_singleton_eq.
  - by rewrite lookup_singleton_ne.
Qed.

Lemma refState_ok (P : core -> Prop) : P refCore -> fgood (refR P) 0 false refState.
Proof.
  intros HP. split; [|done]. unfold refState. cbn [f_ctx]. unfold newWorld.
  destruct (newSha3HashCache_ok refHash refHash32 2 2) as (c & -> & Hw). cbn [w_core w_sha3].
  split; [done|]. split; [apply refCore_code|done].
Qed.

Lemma refFrame_all : CtxFrame refHash refHash32 false 0 (refR (fun _ => True)).
Proof. by apply refCtxFrame. Qed.

(** ** Calls *)

Section CallTheorems.
Context {W : Type} {TC : TransactionContext W} {G : Globals W} {SN : Snapshots W} {GE : Geth}.
Context {I : Interpreter (fworld W)}.
Context (Keccak256 : list byte -> Hash) (Keccak256For32byte : array 32 -> Hash).
Context (config : Config (fworld W)) (block : BlockParameters) (tx : TransactionParameters).

(** [floriaCall] is [runContext.Call] with the levels that are left. *)
Lemma floriaCall_unfold :
  floriaCall config block tx = runContext_Call config block tx (callAt config block tx 1024).
Proof. done. Qed.

(** C10. Calls and creations of a transaction, with the interpreter, the
    built-in contracts and the precompiled contracts behind their interfaces
    and at any nesting up to the depth limit: they keep every property of the
    transaction context that its operations keep (the frame), leave call depth
    and static flag as they found them, and return between 0 and the gas they
    were given. *)
Theorem floriaCall_keeps : InterpreterLaws Keccak256 Keccak256For32byte I ->
  contracts_ok config -> precompiles_ok ->
  call_ok Keccak256 Keccak256For32byte (floriaCall config block tx) 0.
Proof.
  intros HI Hc Hp. apply (callAt_ok _ _ config block tx Hc Hp).
  - lia.
  - unfold MaxRecursiveDepth. lia.
Qed.

(** C12. A static call changes nothing that account and storage accesses do not
    change: properties of the transaction context only have to be kept by
    those and by snapshots. The code it runs, and everything that code calls,
    cannot write storage, emit logs, transfer value, create or destruct
    contracts. *)
Theorem staticCall_reads n (R : W -> Prop) r p : InterpreterLaws Keccak256 Keccak256For32byte I ->
  contracts_ok config -> precompiles_ok ->
  CtxFrame Keccak256 Keccak256For32byte true n R -> fgood R 0 false r ->
  0 <= cp_Gas p <= gasLimit -> zlen (cp_Input p) <= max_memory gasLimit ->
  fgood R 0 false (fst (floriaCall config block tx r StaticCall p)).
Proof.
  intros HI Hc Hp HF Hr Hg Hin. rewrite floriaCall_unfold. cbn [runContext_Call].
  eapply (executeCall_frame _ _ config block tx Hc Hp _ 0 false n); try done.
  apply (callAt_ok _ _ config block tx Hc Hp); [lia|]. unfold MaxRecursiveDepth. lia.
Qed.

(** C11. A call that fails, with an error or an unsuccessful result, leaves
    everything a snapshot determines as it was before the call: balances,
    nonces, code, storage, transient storage, logs. *)
Theorem failedCall_restores n (R Q : W -> Prop) r kind p :
  InterpreterLaws Keccak256 Keccak256For32byte I ->
  contracts_ok config -> precompiles_ok ->
  CtxFrame Keccak256 Keccak256For32byte false n R -> fgood R 0 false r ->
  0 <= cp_Gas p <= gasLimit -> zlen (cp_Input p) <= max_memory gasLimit ->
  (kind <> Create /\ kind <> Create2) ->
  (forall w id s, snap w id s -> Q s -> Q (tc_RestoreSnapshot w id)) -> Q (f_ctx r) ->
  let '(r', (res, err)) := floriaCall config block tx r kind p in
  err <> None \/ cr_Success res = false -> Q (f_ctx r').
Proof.
  intros HI Hc Hp HF Hr Hg Hin [Hk1 Hk2] HQ Hq. rewrite floriaCall_unfold.
  assert (call_ok Keccak256 Keccak256For32byte (callAt config block tx 1024) (0 + 1)) as Hcall.
  { apply (callAt_ok _ _ config block tx Hc Hp); [lia|]. unfold MaxRecursiveDepth. lia. }
  assert (CtxFrame Keccak256 Keccak256For32byte (false || isStaticCall kind) n R) as HF'.
  { cbn. destruct (isStaticCall kind); [by eapply frame_static|done]. }
  pose proof (executeCall_restores _ _ config block tx Hc Hp (callAt config block tx 1024) 0 false n R
    r kind p Q ltac:(unfold MaxRecursiveDepth; lia) Hcall HF' ltac:(done) Hr Hg Hin HQ Hq).
  by destruct kind.
Qed.

End CallTheorems.

Lemma floriaCall_keeps_witness :
  let r' := fst (floriaCall refConfig (refBlock R13_Cancun) refTx refState Call (refCall 2 10)) in
  fgood (refR (fun _ => True)) 0 false r' /\ f_depth r' = 0.
Proof.
  destruct (floriaCall_keeps (TC := refTransactionContext) refHash refHash32 refConfig (refBlock R13_Cancun) refTx
    refInterpreter_laws refConfig_ok refGeth_ok false 0 (refR (fun _ => True)) refState Call
    (refCall 2 10) refFrame_all) as [H _].
  - done.
  - exact (refState_ok (fun _ => True) Logic.I).
  - done.
  - done.
  - split; [exact H|apply H].
Defined.

Lemma staticCall_reads_witness :
  k_storage (w_core (f_ctx (fst (floriaCall refConfig (refBlock R13_Cancun) refTx refState StaticCall
    (refCall 2 10))))) = ∅.
Proof.
  apply (staticCall_reads (TC := refTransactionContext) refHash refHash32 refConfig (refBlock R13_Cancun) refTx 0
    (refR (fun k => k_storage k = ∅)) refState (refCall 2 10) refInterpreter_laws refConfig_ok refGeth_ok).
  - by apply (refCtxFrame true (fun k => k_storage k = ∅)).
  - by apply (refState_ok (fun k => k_storage k = ∅)).
  - done.
  - done.
Defined.

(** The contract at address 1 stores a word and reverts. *)
Lemma failedCall_restores_witness :
  let '(r', (res, err)) :=
    floriaCall refConfig (refBlock R13_Cancun) refTx refState Call (refCall 1 10) in
  err <> None \/ cr_Success res = false -> w_core (f_ctx r') = refCore.
Proof.
  apply (failedCall_restores (TC := refTransactionContext) refHash refHash32 refConfig (refBlock R13_Cancun) refTx 0
    (refR (fun _ => True)) (fun w => w_core w = refCore) refState Call (refCall 1 10)
    refInterpreter_laws refConfig_ok refGeth_ok refFrame_all).
  - exact (refState_ok (fun _ => True) Logic.I).
  - done.
  - done.
  - done.
  - intros w id s [_ Hs] <-. cbn. by rewrite Hs.
  - unfold refState, newWorld. cbn [f_ctx].
    by destruct (newSha3HashCache_ok refHash refHash32 2 2) as (c & -> & _).
Defined.

(** The storing contract at address 2 succeeds, that at 1 reverts; value is
    transferred only by the first. *)
Example refCalls :
  let run to := floriaCall refConfig (refBlock R13_Cancun) refTx refState Call (refCall to 10) in
  let '(r2, (res2, _)) := run 2 in
  let '(r1, (res1, _)) := run 1 in
  cr_Success res2 = true /\ cr_GasLeft res2 = 77894 /\ balance r2 (addr 2) = 10
  /\ ws_GetStorage r2 (addr 2) zeroWord = val 1
  /\ cr_Success res1 = false /\ balance r1 (addr 7) = 100 /\ ws_GetStorage r1 (addr 1) zeroWord = val 0.
Proof. vm_compute. repeat split; reflexivity. Qed.

(** ** Transfers *)

(** A permitted value transfer moves exactly the value from sender to
    recipient, with no wrap-around of either balance, leaves all other
    balances alone, and keeps the sum of the balances of any accounts that
    include both. *)
Theorem transferValue_conserves {W} {TC : TransactionContext W} {BL : BalanceLaws W} (w : W) v s r l :
  canTransferValue w v s (Some r) = true -> NoDup l -> s ∈ l -> r ∈ l ->
  supply (transferValue w v s r) l = supply w l
  /\ (s <> r -> balance (transferValue w v s r) s = balance w s - value_Z v
               /\ balance (transferValue w v s r) r = balance w r + value_Z v)
  /\ forall a, a <> s -> a <> r -> balance (transferValue w v s r) a = balance w a.
Proof.
  intros Hc Hnd Hs Hr. pose proof (transferValue_balance w v s r) as Hb. split_and!.
  - assert (forall l, NoDup l -> supply (transferValue w v s r) l = supply w l
      - (if bool_decide (s ∈ l) then value_Z v else 0) + (if bool_decide (r ∈ l) then value_Z v else 0)) as Hsup.
    { clear l Hnd Hs Hr. induction l as [|a l IH]; intros Hnd.
      - rewrite !bool_decide_false by apply not_elem_of_nil. cbn. lia.
      - apply NoDup_cons in Hnd as [Ha Hnd]. rewrite !supply_cons, (Hb _ Hc), IH by done.
        assert (forall x, (if bool_decide (x ∈ a :: l) then value_Z v else 0) =
          (if arr_eqb x a then value_Z v else 0) + (if bool_decide (x ∈ l) then value_Z v else 0)) as Hx.
        { intros x. unfold arr_eqb. destruct (decide (x = a)) as [->|Hxa].
          - rewrite !bool_decide_true by (try constructor; done).
            rewrite (bool_decide_false (a ∈ l)) by done. lia.
          - rewrite (bool_decide_false (x = a)) by done. rewrite (bool_decide_ext _ (x ∈ l)); [lia|].
            rewrite elem_of_cons. naive_solver. }
        rewrite !Hx. lia. }
    rewrite Hsup, !bool_decide_true by done. lia.
  - intros Hne. rewrite !(Hb _ Hc), !arr_eqb_refl, (arr_eqb_neq r s), (arr_eqb_neq s r) by auto. lia.
  - intros a Has Har. rewrite (Hb _ Hc), !arr_eqb_neq by auto. lia.
Qed.

Lemma transferValue_conserves_witness :
  supply (transferValue (newWorld refCore) (val 10) (addr 7) (addr 2)) [addr 7; addr 2] = 100.
Proof.
  destruct (transferValue_conserves (newWorld refCore) (val 10) (addr 7) (addr 2) [addr 7; addr 2])
    as [H _].
  - by vm_compute.
  - apply NoDup_cons. split; [|apply NoDup_singleton]. rewrite list_elem_of_singleton. by intros [=].
  - constructor.
  - do 2 constructor.
  - rewrite H. by vm_compute.
Defined.

(** Floria's [SelfDestruct] moves the whole balance to the beneficiary: if
    the balances together are below 2^256 and the underlying operation leaves
    balances alone, their sum does not change, and the destructed account ends
    with nothing unless it is its own beneficiary. *)
Theorem selfDestruct_conserves {W} {TC : TransactionContext W} {BL : BalanceLaws W} (w : W) a b l :
  (forall (w : W) x y z, ws_GetBalance (fst (ws_SelfDestruct w x y)) z = ws_GetBalance w z) ->
  NoDup l -> a ∈ l -> b ∈ l -> supply w l < M256 ->
  let w' := fst (floriaContext_SelfDestruct w a b) in
  supply w' l = supply w l /\ (a <> b -> balance w' a = 0).
Proof.
  intros Hsd Hnd Ha Hb Hsup. unfold floriaContext_SelfDestruct. cbv zeta.
  set (w1 := ws_SetBalance w a zeroWord).
  set (w2 := ws_SetBalance w1 b _).
  assert (forall l, supply (fst (ws_SelfDestruct w2 a b)) l = supply w2 l) as ->.
  { induction l0 as [|x l0 IH]; [done|]. rewrite !supply_cons, IH. unfold balance. by rewrite Hsd. }
  assert (supply w1 l = supply w l - balance w a) as H1.
  { unfold w1. rewrite supply_set, value_zero by done. lia. }
  pose proof (supply_bound w1 l b Hb). pose proof (supply_bound w l a Ha).
  pose proof (value_range (ws_GetBalance w1 b)). pose proof (value_range (ws_GetBalance w a)).
  split.
  - unfold w2. rewrite supply_set, Value_Add_Z, Z.mod_small by (done || unfold balance in *; lia).
    unfold balance in *. lia.
  - intros Hne. unfold balance. rewrite Hsd. unfold w2.
    rewrite bl_set, arr_eqb_neq by auto. unfold w1. by rewrite bl_set, arr_eqb_refl.
Qed.

Lemma selfDestruct_conserves_witness :
  supply (fst (floriaContext_SelfDestruct (newWorld refCore) (addr 7) (addr 2))) [addr 7; addr 2] = 100.
Proof.
  destruct (selfDestruct_conserves (newWorld refCore) (addr 7) (addr 2) [addr 7; addr 2]) as [H _].
  - done.
  - apply NoDup_cons. split; [|apply NoDup_singleton]. rewrite list_elem_of_singleton. by intros [=].
  - constructor.
  - do 2 constructor.
  - by vm_compute.
  - etransitivity; [exact H|by vm_compute].
Defined.
