(* ===== verification/FloriaFees.v ===== *)
(** * Fees of the Floria processor

    Gas prices, the purchase of gas, the costs before the execution and the
    gas that is returned, as integers. *)
From Stdlib Require Import ZArith Lia Strings.Byte String.
From stdpp Require Import base list numbers gmap.
From S2P Require Import Prelude Uint256 Types SfvmHashCache SfvmContext SfvmLogic RefWorld.
From S2P Require Import FloriaStateContract FloriaContext FloriaProcessor FloriaFrame FloriaSfvm.
From S2P Require Import FloriaProperties.
From stdpp Require Import list.
Set Default Goal Selector "!".
Local Open Scope Z_scope.
Local Open Scope go_scope.

#[local] Existing Instance uint256_ref.
#[local] Existing Instance uint256_ref_laws.

(** ** The gas price *)

Lemma calculateGasPrice_cases baseFee feeCap tipCap :
  match calculateGasPrice baseFee feeCap tipCap false with
  | inl price =>
      value_Z baseFee <= value_Z feeCap /\ value_Z tipCap <= value_Z feeCap
      /\ value_Z price = Z.min (value_Z feeCap) (value_Z baseFee + value_Z tipCap)
  | inr _ => value_Z feeCap < value_Z baseFee \/ value_Z feeCap < value_Z tipCap
  end.
Proof.
  unfold calculateGasPrice. cbn [andb]. rewrite !Value_Cmp_lt.
  pose proof (value_range baseFee). pose proof (value_range feeCap). pose proof (value_range tipCap).
  case_if; [lia|]. case_if; [lia|].
  rewrite Value_Add_Z, Value_Min_Z, Value_Sub_Z, (Z.mod_small (_ - _)) by lia.
  rewrite Z.mod_small by lia. lia.
Qed.

(** Outside simulations the gas price is the smaller of the fee cap and the
    base fee plus the tip; it is computed exactly if the fee cap covers base
    fee and tip cap, and lies between base fee and fee cap. Otherwise there is
    an error. *)
Theorem calculateGasPrice_spec baseFee feeCap tipCap :
  match calculateGasPrice baseFee feeCap tipCap false with
  | inl price =>
      value_Z baseFee <= value_Z feeCap /\ value_Z tipCap <= value_Z feeCap
      /\ value_Z price = Z.min (value_Z feeCap) (value_Z baseFee + value_Z tipCap)
      /\ value_Z baseFee <= value_Z price <= value_Z feeCap
  | inr _ => value_Z feeCap < value_Z baseFee \/ value_Z feeCap < value_Z tipCap
  end.
Proof.
  pose proof (calculateGasPrice_cases baseFee feeCap tipCap) as H.
  pose proof (value_range baseFee). pose proof (value_range tipCap).
  destruct (calculateGasPrice baseFee feeCap tipCap false); lia.
Qed.

(** ** Buying gas *)

Section Buy.
Context {W : Type} {TC : TransactionContext W} {BL : BalanceLaws W} {GE : Geth} {U : Uint256}
  {UL : Uint256Laws U}.

(** The costs of a transaction at the given prices. *)
Definition txCost (t : Transaction) (gasPrice blobPrice : Value) : Z :=
  value_Z gasPrice * t_GasLimit t + value_Z blobPrice * (zlen (blobHashes t) * BlobTxBlobGasPerBlob).

(** Ranges of the fields of a transaction that fits into memory. *)
Definition tx_ok (t : Transaction) : Prop := isI64 (t_GasLimit t) /\ zlen (blobHashes t) < 2 ^ 40.

(** A blob fee that does not overflow at the fee cap. *)
Definition blobFee_fits (t : Transaction) : Prop :=
  value_Z (t_BlobGasFeeCap t) * (zlen (blobHashes t) * BlobTxBlobGasPerBlob) < M256.

Lemma blobGas_exact t : tx_ok t -> blobGas t = zlen (blobHashes t) * BlobTxBlobGasPerBlob.
Proof.
  intros [_ Hb]. unfold blobGas, BlobTxBlobGasPerBlob. pose proof (zlen_nonneg (blobHashes t)).
  rewrite i64_id, u64_id; zblia.
Qed.

(** A passed balance check covers the gas at the price and the blobs at the
    fee cap. *)
Lemma balanceCheck_covers gasPrice t bal eth : tx_ok t -> 0 <= t_GasLimit t -> blobFee_fits t ->
  value_Z gasPrice <= value_Z (t_GasFeeCap t) \/ t_GasFeeCap t = zeroWord ->
  balanceCheck gasPrice t bal eth = None -> txCost t gasPrice (t_BlobGasFeeCap t) <= value_Z bal.
Proof.
  intros Ht Hpos Hf Hcap. pose proof Ht as (Hg & Hb). unfold blobFee_fits in Hf. unfold balanceCheck, txCost.
  change Value_ToBig with value_Z. pose proof (value_range gasPrice).
  pose proof (value_range (t_GasFeeCap t)). pose proof (value_range (t_Value t)).
  pose proof (value_range (t_BlobGasFeeCap t)). pose proof (zlen_nonneg (blobHashes t)).
  unfold BlobTxBlobGasPerBlob in *. rewrite Value_Scale_Z, blobGas_exact by
    (try rewrite blobGas_exact; try done; unfold BlobTxBlobGasPerBlob; zblia).
  unfold BlobTxBlobGasPerBlob. rewrite Z.mod_small by nia. rewrite value_eqb_zero.
  set (c1 := value_Z gasPrice * t_GasLimit t) in *.
  assert (0 <= c1) by (unfold c1; nia).
  set (c2 := if (eth && negb (value_Z (t_GasFeeCap t) =? 0))%bool then _ else c1).
  assert (c1 <= c2) as H12.
  { unfold c2. destruct (eth && negb (value_Z (t_GasFeeCap t) =? 0))%bool eqn:E; [|lia]. b2p.
    destruct Hcap as [Hcap|Hcap]; [unfold c1; nia|]. rewrite Hcap, value_zero in *. done. }
  set (c3 := if eth then _ else c2). assert (c1 <= c3) as H13 by (unfold c3; destruct eth; lia).
  set (blob := value_Z (t_BlobGasFeeCap t) * (zlen (blobHashes t) * 2 ^ 17)) in *.
  set (c4 := if zlen (blobHashes t) >? 0 then c3 + blob else c3).
  assert (c1 + blob <= c4) as H14.
  { unfold c4. destruct (zlen (blobHashes t) >? 0) eqn:E; b2p; [lia|].
    unfold blob. replace (zlen (blobHashes t)) with 0 by lia. lia. }
  assert (0 <= blob) by (unfold blob; nia).
  destruct (FromBig_law c4) as [Hv Ho]; [lia|]. destruct (Int_FromBig c4) as [cap overflow]. cbn in *.
  subst overflow. case_if; [done|]. rewrite Value_Cmp_lt. unfold value_Z at 2.
  rewrite Bytes32_law, Hv, Z.mod_small by lia. case_if; [done|]. intros _. lia.
Qed.

(** What the sender pays, modulo [2^256]. *)
Lemma buyGas_balance t gasPrice blobPrice (w : W) a : tx_ok t -> 0 <= t_GasLimit t ->
  balance (buyGasInternal t gasPrice blobPrice w) a =
    if arr_eqb (t_Sender t) a then (balance w a - txCost t gasPrice blobPrice) mod M256 else balance w a.
Proof.
  intros Ht Hpos. pose proof Ht as (Hg & Hb). unfold buyGasInternal, txCost, isI64 in *.
  pose proof (value_range (ws_GetBalance w (t_Sender t))). pose proof (zlen_nonneg (blobHashes t)).
  pose proof (value_range gasPrice). pose proof (value_range blobPrice). unfold balance in *.
  rewrite (u64_id (t_GasLimit t)) by zblia.
  set (paid := if zlen (blobHashes t) >? 0 then _ else _).
  unfold BlobTxBlobGasPerBlob in *.
  assert (value_Z paid = (value_Z gasPrice * t_GasLimit t
    + value_Z blobPrice * (zlen (blobHashes t) * 2 ^ 17)) mod M256) as Hp.
  { unfold paid. destruct (zlen (blobHashes t) >? 0) eqn:E; b2p.
    - rewrite Value_Add_Z, !Value_Scale_Z, blobGas_exact by
        (try rewrite blobGas_exact; try done; unfold BlobTxBlobGasPerBlob; zblia).
      unfold BlobTxBlobGasPerBlob. by rewrite <-Zplus_mod.
    - rewrite Value_Scale_Z by zblia. replace (zlen (blobHashes t)) with 0 in * by lia. f_equal. lia. }
  rewrite bl_set. destruct (arr_eqb (t_Sender t) a) eqn:Ea; [|done].
  apply arr_eqb_eq in Ea as <-. rewrite Value_Sub_Z, Hp. apply Zminus_mod_idemp_r.
Qed.

End Buy.

(** ** Costs before the execution *)

Definition keysOf (list : list AccessTuple) : Z := foldr (fun t n => zlen (at_Keys t) + n) 0 list.

(** The costs without bounds on the integers. *)
Definition setupGas (t : Transaction) (revision : Revision) : Z :=
  (if isCreation t then 53000 else 21000)
  + 4 * (zlen (t_Input t) - nonZeroBytes (t_Input t)) + 16 * nonZeroBytes (t_Input t)
  + (if isCreation t && (revision >=? R12_Shanghai) then 2 * ((zlen (t_Input t) + 31) / 32) else 0)
  + match t_AccessList t with
    | None => 0
    | Some list => 2400 * zlen list + 1900 * keysOf list
    end.

(** Sizes of a transaction that fits into memory. *)
Definition sizes_ok (t : Transaction) : Prop :=
  zlen (t_Input t) < 2 ^ 48 /\
  match t_AccessList t with Some list => zlen list < 2 ^ 48 /\ keysOf list < 2 ^ 48 | None => True end.

Lemma nonZeroBytes_range l : 0 <= nonZeroBytes l <= zlen l.
Proof.
  unfold nonZeroBytes. assert (forall l n, 0 <= n ->
    n <= fold_left (fun n b => if negb (byte_val b =? 0) then n + 1 else n) l n <= n + zlen l) as H.
  { induction l0 as [|b l0 IH]; intros n Hn; [cbn; unfold zlen; cbn; lia|].
    cbn [fold_left]. unfold zlen in *. cbn [length]. destruct (negb (byte_val b =? 0)).
    - specialize (IH (n + 1)). lia.
    - specialize (IH n). lia. }
  specialize (H l 0). lia.
Qed.

Lemma keysOf_nonneg l : 0 <= keysOf l.
Proof. induction l as [|t l IH]; [done|]. cbn. pose proof (zlen_nonneg (at_Keys t)). unfold keysOf in *. lia. Qed.

Lemma accessListGas_exact l : forall g, 0 <= g < 2 ^ 62 -> keysOf l < 2 ^ 48 ->
  fold_left (fun gas t => gas +i64 (zlen (at_Keys t) *i64 TxAccessListStorageKeyGas)) l g
  = g + 1900 * keysOf l \/ 2 ^ 62 <= g + 1900 * keysOf l.
Proof.
  induction l as [|t l IH]; intros g Hg Hk; [cbn; left; lia|]. cbn [fold_left].
  change (keysOf (t :: l)) with (zlen (at_Keys t) + keysOf l) in *.
  pose proof (keysOf_nonneg l). pose proof (zlen_nonneg (at_Keys t)). unfold TxAccessListStorageKeyGas in *.
  rewrite (i64_id (_ * _)) by zblia. rewrite i64_id by zblia.
  destruct (Z.lt_ge_cases (g + zlen (at_Keys t) * 1900) (2 ^ 62)) as [Hl|Hl]; [|right; lia].
  destruct (IH (g + zlen (at_Keys t) * 1900)) as [->|Hr]; [lia|lia|left; lia|right; lia].
Qed.

Lemma setupGas_pos t revision : 0 <= setupGas t revision.
Proof.
  unfold setupGas. pose proof (nonZeroBytes_range (t_Input t)). pose proof (zlen_nonneg (t_Input t)).
  assert (0 <= match t_AccessList t with None => 0 | Some list => 2400 * zlen list + 1900 * keysOf list end).
  { destruct (t_AccessList t) as [l|]; [|lia]. pose proof (keysOf_nonneg l). pose proof (zlen_nonneg l). lia. }
  repeat case_if; divlia.
Qed.

Lemma setupGas_exact t revision : sizes_ok t -> calculateSetupGas t revision = setupGas t revision.
Proof.
  intros [Hi Ha]. unfold calculateSetupGas, setupGas, TxGasContractCreation, TxGas,
    TxDataZeroGasEIP2028, TxDataNonZeroGasEIP2028, TxAccessListAddressGas, InitCodeWordGas.
  pose proof (nonZeroBytes_range (t_Input t)). pose proof (zlen_nonneg (t_Input t)).
  set (base := if isCreation t then 53000 else 21000).
  assert (21000 <= base <= 53000) by (unfold base; destruct (isCreation t); lia).
  set (words := if (isCreation t && (revision >=? R12_Shanghai))%bool then 2 * ((zlen (t_Input t) + 31) / 32) else 0).
  assert (0 <= words <= 2 ^ 45) by (unfold words; case_if; divlia).
  set (g1 := if zlen (t_Input t) >? 0 then _ else base).
  assert (g1 = base + 4 * (zlen (t_Input t) - nonZeroBytes (t_Input t)) + 16 * nonZeroBytes (t_Input t) + words) as Hg1.
  { unfold g1. destruct (zlen (t_Input t) >? 0) eqn:E; b2p.
    - rewrite (i64_id (zlen (t_Input t) - _)) by zblia.
      rewrite (i64_id (_ * 4)), (i64_id (_ * 16)) by zblia. rewrite (i64_id (base + _)) by zblia.
      rewrite (i64_id (_ + _ * 16)) by zblia. unfold words.
      destruct (isCreation t && (revision >=? R12_Shanghai))%bool; [|lia].
      rewrite (u64_id (zlen _)), SizeInWords_spec by zblia.
      assert (0 <= (zlen (t_Input t) + 31) / 32 <= 2 ^ 44) by divlia.
      rewrite u64_id, (i64_id (_ * 2)), i64_id by zblia. lia.
    - assert (zlen (t_Input t) = 0) as Hz by lia. unfold words. rewrite Hz in *.
      replace (nonZeroBytes (t_Input t)) with 0 by lia. change ((0 + 31) / 32) with 0. case_if; lia. }
  destruct (t_AccessList t) as [list|]; [|lia]. destruct Ha as [Hl Hk].
  pose proof (zlen_nonneg list). pose proof (keysOf_nonneg list).
  rewrite (i64_id (zlen list * 2400)), i64_id by zblia.
  destruct (accessListGas_exact list (g1 + zlen list * 2400)) as [->|Hr]; [lia|done|lia|lia].
Qed.

(** The costs charged before the execution are those of the specification:
    base costs for a call or a creation, 4 or 16 per byte of input, 2 per word
    of init code from Shanghai on, 2400 and 1900 per entry and key of the
    access list; no step of the computation overflows for transactions that
    fit into memory. *)
Theorem calculateSetupGas_exact t revision : sizes_ok t ->
  calculateSetupGas t revision = setupGas t revision.
Proof.
  apply setupGas_exact.
Qed.

Lemma calculateSetupGas_exact_witness :
  calculateSetupGas (mkTransaction (addr 7) None 0 [x00; x01; x02] zeroWord 100000 zeroWord zeroWord
    zeroWord None (Some [mkAccessTuple (addr 1) [zeroWord]])) R13_Cancun = 53000 + 4 + 32 + 2 + 2400 + 1900.
Proof. rewrite calculateSetupGas_exact; [done|]. repeat split; done. Defined.

(** ** The purchase *)

(** C31. When the gas for a transaction has been bought, outside simulations,
    the gas for the execution is the limit less the costs before it, not
    negative, and nobody's balance but the sender's has changed. The sender has
    paid the gas limit at the gas price and the blob gas at the blob base fee,
    modulo [2^256]; and without wrap-around, as the balance covers it, if the
    blob gas at the blob fee cap is below [2^256] and the fee cap is not below
    the blob base fee, which [checkBlobs] checks from Cancun on. *)
Theorem calculateAvailableGas_pays {W} {TC : TransactionContext W} {BL : BalanceLaws W}
    {U : Uint256} {UL : Uint256Laws U}
    (config : Config (fworld W)) block t (w w' : W) price gas :
  tx_ok t -> sizes_ok t -> OffChainSimulation config = false ->
  calculateAvailableGas config block t w = (w', inl (price, gas)) ->
  let cost := txCost t price (bp_BlobBaseFee block) in
  gas = t_GasLimit t - setupGas t (bp_Revision block) /\ 0 <= gas
  /\ (forall a, balance w' a = if arr_eqb (t_Sender t) a then (balance w a - cost) mod M256 else balance w a)
  /\ (blobFee_fits t -> (zlen (blobHashes t) > 0 -> value_Z (bp_BlobBaseFee block) <= value_Z (t_BlobGasFeeCap t)) ->
      cost <= balance w (t_Sender t) /\ balance w' (t_Sender t) = balance w (t_Sender t) - cost).
Proof.
  intros Ht Hs Hsim. unfold calculateAvailableGas. rewrite Hsim.
  pose proof (calculateGasPrice_cases (bp_BaseFee block) (t_GasFeeCap t) (t_GasTipCap t)) as Hp.
  destruct (calculateGasPrice _ _ _ false) as [p|e]; [|done].
  destruct (balanceCheck _ _ _ _) eqn:Eb; [done|]. rewrite setupGas_exact by done.
  pose proof (setupGas_pos t (bp_Revision block)). case_if; [done|]. intros [= <- <- <-]. set (cost := txCost t p (bp_BlobBaseFee block)).
  pose proof Ht as ([? ?] & _). rewrite i64_id by zblia.
  split; [done|]. split; [lia|]. split; [intros a; apply buyGas_balance; [done|lia]|]. intros Hfits Hblob.
  apply (balanceCheck_covers p t _ _ Ht ltac:(lia) Hfits) in Eb; [|left; lia].
  assert (cost <= balance w (t_Sender t)) as Hcost.
  { unfold balance. etransitivity; [|exact Eb].
    unfold cost, txCost, BlobTxBlobGasPerBlob. pose proof (zlen_nonneg (blobHashes t)).
    destruct (Z.eq_dec (zlen (blobHashes t)) 0) as [Hz|Hz]; [rewrite Hz; lia|].
    specialize (Hblob ltac:(lia)). nia. }
  split; [done|]. rewrite buyGas_balance, arr_eqb_refl by (done || lia). fold cost. apply Z.mod_small.
  assert (0 <= cost); [|pose proof (value_range (ws_GetBalance w (t_Sender t))); unfold balance in *; lia].
  unfold cost, txCost, BlobTxBlobGasPerBlob. pose proof (zlen_nonneg (blobHashes t)). pose proof (value_range p).
  pose proof (value_range (bp_BlobBaseFee block)). nia.
Qed.

Definition feeTx : Transaction :=
  mkTransaction (addr 7) (Some (addr 2)) 0 [] zeroWord 21000 (val 3) (val 1) (val 2)
    (Some [to_array 32 [x01]]) None.

Definition feeBlock : BlockParameters :=
  mkBlockParameters zeroWord 1 1 (addr 99) 1000000 zeroWord (val 1) (val 1) R13_Cancun.

Definition feeCore : core := mkCore {[ addr 7 := val 1000000 ]} ∅ ∅ ∅ ∅ ∅ ∅ ∅ ∅ [].

Lemma calculateAvailableGas_pays_witness :
  let res := calculateAvailableGas refConfig feeBlock feeTx (newWorld feeCore) in
  snd res = inl (val 2, 0) /\ balance (fst res) (addr 7) = balance (newWorld feeCore) (addr 7) - (42000 + 2 ^ 17).
Proof.
  intros res. assert (snd res = inl (val 2, 0)) as E by (vm_compute; reflexivity). split; [exact E|].
  destruct (calculateAvailableGas_pays refConfig feeBlock feeTx (newWorld feeCore) (fst res) (val 2) 0)
    as (_ & _ & _ & Hb).
  - repeat split; by vm_compute.
  - repeat split; by vm_compute.
  - reflexivity.
  - rewrite <-E. apply surjective_pairing.
  - change (txCost feeTx (val 2) (bp_BlobBaseFee feeBlock)) with (42000 + 2 ^ 17) in Hb.
    apply Hb; [by vm_compute|]. intros _. by vm_compute.
Defined.

(** ** A payment that wraps around *)

(** One blob, a blob fee cap of [2^239], no balance. *)
Definition wrapTx : Transaction :=
  mkTransaction (addr 7) (Some (addr 2)) 0 [] zeroWord 21000 zeroWord zeroWord (val (2 ^ 239))
    (Some [to_array 32 [x01]]) None.

Definition wrapBlock : BlockParameters :=
  mkBlockParameters zeroWord 1 1 (addr 99) 1000000 zeroWord zeroWord (val 1) R13_Cancun.

(** C36. The balance check computes the blob fee with [Value.Scale], which wraps
    around, while everything else is computed with big integers: with a blob
    fee cap of 2^239 per unit the required balance is 0. An account without
    any balance passes all checks, and paying the blob base fee then wraps its
    balance around to 2^256 - 2^17. *)
Theorem balanceCheck_blobFee_wraps :
  let w := newWorld emptyCore in
  let '(w', res) := calculateAvailableGas refConfig wrapBlock wrapTx w in
  checkTransaction refConfig wrapBlock wrapTx w = None
  /\ res = inl (zeroWord, 0)
  /\ balance w (t_Sender wrapTx) = 0
  /\ balance w' (t_Sender wrapTx) = M256 - 2 ^ 17.
Proof. vm_compute. repeat split; reflexivity. Qed.

(** ** Returned gas *)

(** The gas left after the charge of 10% for unused gas. *)
Definition chargedGasLeft (t : Transaction) (left : Gas) (eth : bool) : Gas :=
  if negb eth && negb (arr_eqb (t_Sender t) zeroAddress) then left - left / 10 else left.

Lemma gasLeft_exact t res revision eth :
  0 <= cr_GasLeft res <= t_GasLimit t -> t_GasLimit t <= MaxInt64 -> - 2 ^ 63 <= cr_GasRefund res ->
  let left := chargedGasLeft t (cr_GasLeft res) eth in
  let cap := (t_GasLimit t - left) / (if revision <? R10_London then 2 else 5) in
  0 <= left <= cr_GasLeft res /\ 0 <= cap <= t_GasLimit t - left /\
  calculateGasLeft t res revision eth =
    left + (if cr_Success res then Z.min (cr_GasRefund res) cap else 0).
Proof.
  intros Hl Hm Hr left cap. unfold MaxInt64 in *.
  assert (0 <= left <= cr_GasLeft res) as Hleft.
  { unfold left, chargedGasLeft. case_if; divlia. }
  assert (0 <= cap <= t_GasLimit t - left) as Hcap by (unfold cap; case_if; divlia).
  split; [done|]. split; [done|]. unfold calculateGasLeft.
  assert ((if (negb eth && negb (arr_eqb (t_Sender t) zeroAddress))%bool
           then cr_GasLeft res -i64 Z.quot (cr_GasLeft res) 10 else cr_GasLeft res) = left) as ->.
  { unfold left, chargedGasLeft in *. case_if; [|done].
    rewrite Z.quot_div_nonneg by lia. rewrite i64_id; [done|zblia]. }
  destruct (cr_Success res); [|lia]. rewrite (i64_id (_ - left)) by zblia.
  assert ((if revision <? R10_London then Z.quot (t_GasLimit t - left) 2
           else Z.quot (t_GasLimit t - left) 5) = cap) as ->.
  { unfold cap. case_if; by rewrite Z.quot_div_nonneg by lia. }
  rewrite Z.gtb_ltb. destruct (Z.ltb_spec cap (cr_GasRefund res)).
  - rewrite i64_id by zblia. lia.
  - rewrite i64_id by zblia. lia.
Qed.

(** The gas returned to the sender is what the execution left, less a tenth
    unless the processor is Ethereum compatible or the transaction internal,
    plus, for a successful transaction, the refund, capped at a half of the
    used gas before London and at a fifth from London on. It lies between 0
    and the gas limit, and no step overflows. *)
Theorem calculateGasLeft_spec t res revision eth :
  0 <= cr_GasLeft res <= t_GasLimit t -> t_GasLimit t <= MaxInt64 -> 0 <= cr_GasRefund res ->
  let left := chargedGasLeft t (cr_GasLeft res) eth in
  let cap := (t_GasLimit t - left) / (if revision <? R10_London then 2 else 5) in
  calculateGasLeft t res revision eth =
    left + (if cr_Success res then Z.min (cr_GasRefund res) cap else 0)
  /\ 0 <= calculateGasLeft t res revision eth <= t_GasLimit t.
Proof.
  intros Hl Hm Hr left cap. destruct (gasLeft_exact t res revision eth Hl Hm ltac:(lia)) as (H1 & H2 & ->).
  fold left in H1, H2 |- *. fold cap in H2 |- *. split; [done|]. destruct (cr_Success res); lia.
Qed.

Lemma calculateGasLeft_spec_witness :
  calculateGasLeft feeTx (mkCallResult [] 1000 400 zeroAddress true) R13_Cancun false = 900 + 400.
Proof.
  destruct (calculateGasLeft_spec feeTx (mkCallResult [] 1000 400 zeroAddress true) R13_Cancun false)
    as [H _].
  - by vm_compute.
  - by vm_compute.
  - done.
  - rewrite H. by vm_compute.
Defined.

(** ** Transactions *)

Section Transactions.
Context {W : Type} {TC : TransactionContext W} {GE : Geth} {U : Uint256} {I : Interpreter (fworld W)}.

(** C33. A transaction that is rejected, by its checks, its price, its balance
    or its gas limit, has no effect: the state is unchanged and the receipt is
    empty. *)
Theorem rejected_unchanged (config : Config (fworld W)) block t (w : W) :
  (checkTransaction config block t w <> None \/ exists e, snd (calculateAvailableGas config block t w) = inr e) ->
  exists e, Processor_Run config block t w = (w, (zeroReceipt, Some e)).
Proof.
  intros H. unfold Processor_Run. destruct (checkTransaction config block t w) as [e|] eqn:E; [by eexists|].
  destruct H as [|[e He]]; [done|]. unfold calculateAvailableGas in *.
  destruct (calculateGasPrice _ _ _ _) as [p|e1]; [|by eexists].
  destruct (balanceCheck _ _ _ _); [by eexists|]. case_if; [by eexists|]. done.
Qed.

(** Outside simulations a transaction passes its checks only if it carries
    the nonce of its sender, that nonce can be increased without wrapping around
    (EIP-2681), and the sender has no code (EIP-3607). *)
Theorem accepted_sender (config : Config (fworld W)) block t (w : W) :
  OffChainSimulation config = false -> isU64 (ws_GetNonce w (t_Sender t)) ->
  checkTransaction config block t w = None ->
  t_Nonce t = ws_GetNonce w (t_Sender t) /\ t_Nonce t + 1 < 2 ^ 64
  /\ (ws_GetCodeHash w (t_Sender t) = zeroWord \/ ws_GetCodeHash w (t_Sender t) = emptyCodeHash).
Proof.
  intros Hsim Hn. unfold checkTransaction. rewrite Hsim. cbn [negb andb].
  destruct (is_err (nonceCheck _ _)) eqn:E1; [done|].
  destruct (is_err (eoaCheck _)) eqn:E2; [done|]. intros _.
  unfold nonceCheck in E1. revert E1. case_if; [done|]. case_if; [done|]. intros _.
  unfold eoaCheck in E2. revert E2. case_if; [done|]. intros _.
  rename select (_ && _ = false) into Ec. apply andb_false_iff in Ec.
  unfold isU64 in Hn. split; [done|]. split.
  - destruct (Z.lt_ge_cases (ws_GetNonce w (t_Sender t) + 1) (2 ^ 64)) as [Hlt|Hge]; [lia|].
    assert (ws_GetNonce w (t_Sender t) = 2 ^ 64 - 1) as Hmax by lia. rewrite Hmax in *.
    rename select (_ <= _ +u64 1) into Hw. by vm_compute in Hw.
  - rewrite !negb_false_iff, !arr_eqb_eq in Ec. done.
Qed.

(** Frames across the steps of a transaction around its execution. *)
Lemma setUpAccessList_frame {G : Globals W} {SN : Snapshots W} K K32 static n R t w rev coinbase :
  CtxFrame K K32 static n R -> R w -> R (setUpAccessList t w rev coinbase).
Proof.
  intros HF HR. unfold setUpAccessList, accessAccount. destruct (t_AccessList t) as [list|]; [|done].
  assert (forall l w, R w -> R (fold_left (fun c a => fst (tc_AccessAccount c a)) l w)) as Hacc.
  { induction l as [|a l IH]; [done|]. intros w' Hw'. apply IH. by apply cf_AccessAccount. }
  assert (forall l w, R w -> R (fold_left accessTuple l w)) as Htup.
  { induction l as [|u l IH]; [done|]. intros w' Hw'. apply IH. unfold accessTuple.
    assert (forall ks c, R c -> R (fold_left (fun c k => fst (tc_AccessStorage c (at_Address u) k)) ks c)) as Hk.
    { induction ks as [|k ks IHk]; [done|]. intros c Hc. apply IHk. by apply cf_AccessStorage. }
    apply Hk. by apply cf_AccessAccount. }
  case_if; [apply cf_AccessAccount|]; apply Htup, Hacc; destruct (t_Recipient t);
    repeat apply cf_AccessAccount; done.
Qed.

Lemma runTransaction_frame {G : Globals W} {SN : Snapshots W} K K32 (config : Config (fworld W)) n R
    block t (w : W) price gas :
  InterpreterLaws K K32 I -> contracts_ok config -> precompiles_ok ->
  CtxFrame K K32 false n R -> R w -> 0 <= gas <= gasLimit -> zlen (t_Input t) <= max_memory gasLimit ->
  let '(w', (res, err)) := runTransaction config block t w price gas in
  R w' /\ 0 <= cr_GasLeft res <= gas.
Proof.
  intros HI Hc Hp HF HR Hg Hin. unfold runTransaction.
  set (w1 := if bp_Revision block >=? R09_Berlin then _ else _).
  assert (R w1) as HR1 by (unfold w1; case_if; [by eapply setUpAccessList_frame|done]).
  set (w2 := match callKind t with Call => _ | _ => w1 end).
  assert (R w2) as HR2 by (unfold w2; destruct (callKind t); try done; by apply cf_SetNonce).
  set (tx := mkTransactionParameters _ _ _). set (p := callParameters t gas).
  destruct (callAt_ok K K32 config block tx Hc Hp 1025 0 ltac:(lia) ltac:(unfold MaxRecursiveDepth; lia)
    false n R (mkFworld w2 0 false) (callKind t) p HF) as [(H1 & _) H2]; [done|done|done|done|].
  unfold floriaCall. change (Z.to_nat (MaxRecursiveDepth + 1)) with 1025%nat.
  destruct (callAt config block tx 1025 _ _ _) as [r' [res err]]. done.
Qed.

Lemma returnExcessGas_frame {G : Globals W} {SN : Snapshots W} K K32 (config : Config (fworld W)) n R
    block t (w : W) price res :
  CtxFrame K K32 false n R -> R w -> R (fst (returnExcessGas config block t w price res)).
Proof.
  intros HF HR. unfold returnExcessGas, paymentToCoinbase, refundGasInternal. cbn [fst].
  case_if; repeat (apply cf_SetBalance; [done|]); done.
Qed.

(** C30. A transaction that is executed, with a gas limit of at most [2^40] and
    with the interpreter and the contracts behind their interfaces, keeps every
    property its operations keep, and its receipt reports exactly the gas limit
    less the gas left after the charge for unused gas, less, on success, the
    refund capped at a half of that (before London) or a fifth (from London on).
    So neither unused gas nor refunds can pay back more than half, or a fifth, of
    the costs before the execution; and the gas used is at most the gas limit
    plus what the refund counter of the execution is below zero, if it is. That
    counter is above [- 2^62]. *)
Theorem transaction_gasUsed {G : Globals W} {SN : Snapshots W} K K32 (config : Config (fworld W)) n R
    block t (w w1 w2 : W) price gas res :
  InterpreterLaws K K32 I -> contracts_ok config -> precompiles_ok ->
  CtxFrame K K32 false n R -> R w -> sizes_ok t -> 0 <= t_GasLimit t <= gasLimit ->
  zlen (t_Input t) <= max_memory gasLimit ->
  checkTransaction config block t w = None ->
  calculateAvailableGas config block t w = (w1, inl (price, gas)) ->
  runTransaction config block t w1 price gas = (w2, (res, None)) -> - 2 ^ 62 <= cr_GasRefund res ->
  let k := if bp_Revision block <? R10_London then 2 else 5 in
  let used := t_GasLimit t - chargedGasLeft t (cr_GasLeft res) (EthCompatible config) in
  let '(w', (receipt, err)) := Processor_Run config block t w in
  err = None /\ R w'
  /\ rcpt_GasUsed receipt = used - (if cr_Success res then Z.min (cr_GasRefund res) (used / k) else 0)
  /\ rcpt_GasUsed receipt <= t_GasLimit t + Z.max 0 (- cr_GasRefund res)
  /\ (k - 1) * setupGas t (bp_Revision block) <= k * rcpt_GasUsed receipt.
Proof.
  intros HI Hc Hp HF HR Hs Hl Hin Hcheck Hav Hrun Href k used.
  unfold Processor_Run. rewrite Hcheck, Hav, Hrun.
  assert (R w1 /\ gas = t_GasLimit t - setupGas t (bp_Revision block) /\ 0 <= gas) as (HR1 & Hgas & Hpos).
  { revert Hav. unfold calculateAvailableGas. rewrite setupGas_exact by done.
    destruct (calculateGasPrice _ _ _ _); [|done]. destruct (balanceCheck _ _ _ _); [done|].
    pose proof (setupGas_pos t (bp_Revision block)). unfold gasLimit in *.
    case_if; [done|]. rewrite i64_id by zblia. intros [= <- <- <-]. split; [|lia].
    by apply cf_SetBalance. }
  pose proof (setupGas_pos t (bp_Revision block)).
  pose proof (runTransaction_frame K K32 config n R block t w1 price gas HI Hc Hp HF HR1 ltac:(lia) Hin) as Hf.
  rewrite Hrun in Hf. destruct Hf as [HR2 Hleft].
  pose proof (returnExcessGas_frame K K32 config n R block t w2 price res HF HR2) as HR3.
  unfold gasLimit in *.
  destruct (gasLeft_exact t res (bp_Revision block) (EthCompatible config)) as (H1 & H2 & H3);
    [lia|unfold MaxInt64; lia|lia|]. unfold used. clear used.
  fold k in H2, H3. destruct (returnExcessGas config block t w2 price res) as [w3 used] eqn:Er.
  cbn [fst] in HR3. assert (used = t_GasLimit t - calculateGasLeft t res (bp_Revision block) (EthCompatible config)) as Hu.
  { revert Er. unfold returnExcessGas. intros [= _ <-]. apply i64_id.
    destruct (cr_Success res); zblia. }
  split; [done|]. split; [done|]. cbn [rcpt_GasUsed]. rewrite Hu, H3.
  set (left := chargedGasLeft _ _ _) in *. split; [lia|].
  assert (k * ((t_GasLimit t - left) / k) <= t_GasLimit t - left).
  { apply Z.mul_div_le. unfold k. case_if; lia. }
  assert (2 <= k) by (unfold k; case_if; lia). split; [destruct (cr_Success res); lia|].
  destruct (cr_Success res); nia.
Qed.

End Transactions.

(** The sender has no balance. *)
Lemma rejected_unchanged_witness :
  exists e, Processor_Run refConfig wrapBlock feeTx (newWorld emptyCore) =
    (newWorld emptyCore, (zeroReceipt, Some e)).
Proof.
  apply (rejected_unchanged (TC := refTransactionContext)). right. eexists. by vm_compute.
Defined.

Lemma accepted_sender_witness :
  t_Nonce feeTx = ws_GetNonce (newWorld feeCore) (t_Sender feeTx) /\ t_Nonce feeTx + 1 < 2 ^ 64.
Proof.
  destruct (accepted_sender (TC := refTransactionContext) refConfig feeBlock feeTx (newWorld feeCore))
    as (H1 & H2 & _).
  - done.
  - by vm_compute.
  - by vm_compute.
  - by split.
Defined.

Lemma transaction_gasUsed_witness :
  let t := feeTx in let w := newWorld feeCore in
  rcpt_GasUsed (fst (snd (Processor_Run refConfig feeBlock t w))) <= 21000
  /\ 4 * 21000 <= 5 * rcpt_GasUsed (fst (snd (Processor_Run refConfig feeBlock t w))).
Proof.
  cbv zeta. set (w := newWorld feeCore). set (av := calculateAvailableGas refConfig feeBlock feeTx w).
  set (run := runTransaction refConfig feeBlock feeTx (fst av) (val 2) 0).
  assert (snd av = inl (val 2, 0)) as Eav by (vm_compute; reflexivity).
  assert (snd (snd run) = None) as Erun by (vm_compute; reflexivity).
  pose proof (transaction_gasUsed (TC := refTransactionContext) refHash refHash32 refConfig 0
    (refR (fun _ => True)) feeBlock feeTx w (fst av) (fst run) (val 2) 0 (fst (snd run))
    refInterpreter_laws refConfig_ok refGeth_ok refFrame_all) as H.
  rewrite (surjective_pairing (Processor_Run refConfig feeBlock feeTx w)),
    (surjective_pairing (snd (Processor_Run refConfig feeBlock feeTx w))) in H.
  destruct H as (_ & _ & _ & H1 & H2).
  - clear Eav Erun. unfold w, newWorld. destruct (newSha3HashCache_ok refHash refHash32 2 2) as (c & -> & Hw). done.
  - clear Eav Erun. by vm_compute.
  - clear Eav Erun. by vm_compute.
  - clear Eav Erun. by vm_compute.
  - clear Eav Erun. by vm_compute.
  - exact (pair_eta1 av _ Eav).
  - exact (pair_eta2 run None Erun).
  - clear Eav Erun. by vm_compute.
  - split; [|exact H2]. assert (Z.max 0 (- cr_GasRefund (fst (snd run))) = 0) as Hz by (by vm_compute). rewrite Hz in H1. exact H1.
Defined.
