(* ===== verification/FloriaContracts.v ===== *)
(** * Built-in contracts and deployments of the Floria processor

    The state contract against an abstract list of writes and their ABI
    encoding, the deployment of code, and the choice of precompiled contracts. *)
From Stdlib Require Import ZArith Lia Strings.Byte String.
From stdpp Require Import base list numbers gmap.
From S2P Require Import Prelude Uint256 Types SfvmHashCache SfvmContext SfvmLogic RefWorld.
From S2P Require Import FloriaStateContract FloriaContext FloriaProcessor FloriaFrame FloriaSfvm.
From S2P Require Import FloriaProperties.
From stdpp Require Import list.
Set Default Goal Selector "!".
Local Open Scope Z_scope.
Local Open Scope go_scope.

#[local] Existing Instance uint256_ref.

(** ** The writes of the state contract *)

Inductive write :=
| SetBalance (account : Address) (value : Value)
| CopyCode (to from : Address)
| SwapCode (account0 account1 : Address)
| SetStorageAt (account : Address) (key value : Word)
| IncNonce (account : Address) (diff : Value).

#[global] Instance write_dec : EqDecision write.
Proof. solve_decision. Defined.

(** The ABI encoding of a call: the selector, addresses padded on the left. *)
Definition padded (a : Address) : list byte := replicate 12 x00 ++ arr_bytes a.

Definition abiEncode (ids : MethodIDs) (w : write) : list byte :=
  match w with
  | SetBalance a v => setBalanceMethodID ids ++ padded a ++ arr_bytes v
  | CopyCode a b => copyCodeMethodID ids ++ padded a ++ padded b
  | SwapCode a b => swapCodeMethodID ids ++ padded a ++ padded b
  | SetStorageAt a k v => setStorageMethodID ids ++ padded a ++ arr_bytes k ++ arr_bytes v
  | IncNonce a v => incNonceMethodID ids ++ padded a ++ arr_bytes v
  end.

(** Selectors are four bytes and differ. *)
Definition ids_ok (ids : MethodIDs) : Prop :=
  let l := [setBalanceMethodID ids; copyCodeMethodID ids; swapCodeMethodID ids;
            setStorageMethodID ids; incNonceMethodID ids] in
  NoDup l /\ Forall (fun id => length id = 4%nat) l.

Section Writes.
Context {W : Type} {WS : WorldState W}.

(** What a write does, on all branches of the code that succeed. *)
Definition applyWrite (w : W) (x : write) : W :=
  match x with
  | SetBalance a v => ws_SetBalance w a v
  | CopyCode to from =>
      if bool_decide (from = to) then w else ws_SetCode w to (ws_GetCode w from)
  | SwapCode a b =>
      if bool_decide (a = b) then w
      else ws_SetCode (ws_SetCode w a (ws_GetCode w b)) b (ws_GetCode w a)
  | SetStorageAt a k v => fst (ws_SetStorage w a k v)
  | IncNonce a v => ws_SetNonce w a (u64 (ws_GetNonce w a + value_Z v mod 2 ^ 64))
  end.

(** Its price. *)
Definition writeGas (w : W) (x : write) : Z :=
  match x with
  | SetBalance _ _ | IncNonce _ _ => 9000
  | CopyCode _ from => 32000 + 203 * zlen (ws_GetCode w from)
  | SwapCode a b => 64000 + 203 * (zlen (ws_GetCode w a) + zlen (ws_GetCode w b)) / 2
  | SetStorageAt _ _ _ => 20000
  end.

(** Neither balance nor nonce of the driver itself can be written, and a nonce
    grows by 1 to 255 (the low 64 bits of the argument count). *)
Definition writeAllowed (x : write) : bool :=
  match x with
  | SetBalance a _ => negb (bool_decide (a = DriverAddress))
  | IncNonce a v => negb (bool_decide (a = DriverAddress)) && (0 <? value_Z v mod 2 ^ 64)
                    && (value_Z v mod 2 ^ 64 <? 256)
  | _ => true
  end.

Definition stateOutcome (w : W) (x : write) (gas : Gas) : W * CallResult :=
  if writeAllowed x && (writeGas w x <=? gas)
  then (applyWrite w x, mkCallResult [] (gas - writeGas w x) 0 zeroAddress true)
  else (w, zeroCallResult).

End Writes.

(** *** Decoding the arguments *)

Lemma zlen_padded a : zlen (padded a) = 32.
Proof. unfold padded. by rewrite zlen_app, zlen_arr. Qed.

Lemma arg0_address a r : to_array 20 (slice (padded a ++ r) 12 32) = a.
Proof.
  unfold padded. rewrite <-app_assoc, slice_app_at by (rewrite ?zlen_arr; done). apply to_array_arr.
Qed.

Lemma arg1_word (a : Address) (v : Word) r : to_array 32 (slice (padded a ++ arr_bytes v ++ r) 32 64) = v.
Proof. rewrite slice_app_at by (rewrite ?zlen_arr, ?zlen_padded; done). apply to_array_arr. Qed.

Lemma arg1_address a b : to_array 20 (slice (padded a ++ padded b) 44 64) = b.
Proof.
  unfold padded at 2. rewrite <-(app_nil_r (arr_bytes b)), app_assoc.
  rewrite slice_app_at by (rewrite ?zlen_app, ?zlen_padded, ?zlen_arr; done). apply to_array_arr.
Qed.

Lemma arg2_word (a : Address) (k v : Word) :
  to_array 32 (slice (padded a ++ arr_bytes k ++ arr_bytes v) 64 96) = v.
Proof.
  rewrite <-(app_nil_r (arr_bytes v)), app_assoc.
  rewrite slice_app_at by (rewrite ?zlen_app, ?zlen_padded, ?zlen_arr; done). apply to_array_arr.
Qed.

Lemma arg1_word_end (a : Address) (v : Word) : to_array 32 (slice (padded a ++ arr_bytes v) 32 64) = v.
Proof. rewrite <-(app_nil_r (arr_bytes v)). apply arg1_word. Qed.

(** *** The handlers *)

Section Handlers.
Context {W : Type} {WS : WorldState W} (w : W) (gas : Gas).
Context (Hgas : 0 <= gas <= gasLimit) (Hcode : forall a, zlen (ws_GetCode w a) <= codeLimit).

(** The result of a handler as that of the contract. *)
Definition asResult (res : stateResult (W := W)) : W * CallResult :=
  (fst res, mkCallResult [] (fst (snd res)) 0 zeroAddress (negb (is_err (snd (snd res))))).

Ltac handler :=
  unfold asResult, stateOutcome, zeroCallResult; cbn [writeAllowed writeGas applyWrite andb fst snd];
  repeat case_if; b2p; cbn [is_err negb fst snd];
  try done; try lia; try (rewrite i64_id; [done|unfold gasLimit in *; zblia]).

Lemma codeCost_exact a : zlen (ws_GetCode w a) *i64 (createDataGas + memoryGas) = 203 * zlen (ws_GetCode w a).
Proof.
  pose proof (Hcode a). pose proof (zlen_nonneg (ws_GetCode w a)).
  unfold createDataGas, memoryGas, codeLimit in *. rewrite i64_id; zblia.
Qed.

Lemma setBalance_outcome a v :
  asResult (executeStateSetBalance w DriverAddress (padded a ++ arr_bytes v) gas)
  = stateOutcome w (SetBalance a v) gas.
Proof.
  unfold executeStateSetBalance, callValueTransferGas. rewrite zlen_app, zlen_padded, zlen_arr.
  change (32 + Z.of_nat 32 =? 64) with true. cbn [negb]. rewrite arg0_address, arg1_word_end.
  unfold arr_eqb. handler.
Qed.

Lemma copyCode_outcome a b :
  asResult (executeStateContractCopyCode w (padded a ++ padded b) gas) = stateOutcome w (CopyCode a b) gas.
Proof.
  unfold executeStateContractCopyCode, createGas. rewrite zlen_app, !zlen_padded.
  change (32 + 32 =? 64) with true. cbn [negb]. change (32 + 12) with 44. change (32 + 32) with 64.
  rewrite arg0_address, arg1_address, codeCost_exact. unfold arr_eqb.
  pose proof (zlen_nonneg (ws_GetCode w b)). unfold gasLimit in *.
  destruct (Z.ltb_spec gas 32000); [handler|]. rewrite (i64_id (gas - 32000)) by zblia.
  cbv zeta. destruct (Z.ltb_spec (gas - 32000) (203 * zlen (ws_GetCode w b))); [handler|].
  rewrite i64_id by zblia. handler; f_equal; f_equal; lia.
Qed.

Lemma swapCode_outcome a b :
  asResult (executeStateContractSwapCode w (padded a ++ padded b) gas) = stateOutcome w (SwapCode a b) gas.
Proof.
  unfold executeStateContractSwapCode, createGas. rewrite zlen_app, !zlen_padded.
  change (32 + 32 =? 64) with true. cbn [negb]. change (32 + 12) with 44. change (32 + 32) with 64.
  rewrite arg0_address, arg1_address, !codeCost_exact. unfold arr_eqb. cbv zeta.
  pose proof (zlen_nonneg (ws_GetCode w a)). pose proof (zlen_nonneg (ws_GetCode w b)).
  pose proof (Hcode a). pose proof (Hcode b). unfold gasLimit, codeLimit in *.
  change (2 * 32000) with 64000. rewrite (i64_id (_ + _)) by zblia.
  rewrite Z.quot_div_nonneg, <-Z.mul_add_distr_l by lia. set (cost := _ / 2).
  assert (0 <= cost <= 203 * 2 ^ 31) by (unfold cost; divlia).
  destruct (Z.ltb_spec gas 64000); [handler|]. rewrite (i64_id (gas - 64000)) by zblia.
  destruct (Z.ltb_spec (gas - 64000) cost); [handler|]. rewrite i64_id by zblia.
  handler; f_equal; f_equal; fold cost; lia.
Qed.

Lemma setStorage_outcome a k v :
  asResult (executeStateContractSetStorage w (padded a ++ arr_bytes k ++ arr_bytes v) gas)
  = stateOutcome w (SetStorageAt a k v) gas.
Proof.
  unfold executeStateContractSetStorage, sStoreSetGasEIP2200.
  rewrite !zlen_app, zlen_padded, !zlen_arr. change (32 + (Z.of_nat 32 + Z.of_nat 32) =? 96) with true.
  cbn [negb]. rewrite arg0_address, arg1_word, arg2_word. handler.
Qed.

Lemma incNonce_outcome a v :
  asResult (executeStateContractIncNonce w DriverAddress (padded a ++ arr_bytes v) gas)
  = stateOutcome w (IncNonce a v) gas.
Proof.
  unfold executeStateContractIncNonce, callValueTransferGas. rewrite zlen_app, zlen_padded, zlen_arr.
  change (32 + Z.of_nat 32 =? 64) with true. cbn [negb]. rewrite arg0_address, arg1_word_end.
  change (be_val (arr_bytes v)) with (value_Z v). change (u64 (value_Z v)) with (value_Z v mod 2 ^ 64).
  unfold arr_eqb. rewrite (Z.leb_antisym 0), (Z.leb_antisym _ 256). set (n := value_Z v mod 2 ^ 64).
  destruct (Z.ltb_spec gas 9000); [handler|]. cbv zeta. cbn [writeAllowed].
  unfold stateOutcome. cbn [writeAllowed writeGas applyWrite]. fold n.
  case_bool_decide; [done|]. rewrite (proj2 (Z.leb_le 9000 gas)) by lia. unfold asResult, gasLimit in *.
  destruct (Z.ltb_spec 0 n), (Z.ltb_spec n 256); cbn; (done || rewrite i64_id by zblia; done).
Qed.

End Handlers.

Lemma bytes_Equal_refl l : bytes_Equal l l = true.
Proof. by apply bool_decide_true. Qed.

Lemma bytes_Equal_neq l l' : l <> l' -> bytes_Equal l l' = false.
Proof. intros. by apply bool_decide_false. Qed.

(** Selection of a handler by the first four bytes. *)
Lemma select4 (id rest : list byte) : length id = 4%nat ->
  take 4 (id ++ rest) = id /\ drop 4 (id ++ rest) = rest /\ (zlen (id ++ rest) <? 4) = false.
Proof.
  intros H. split_and!.
  - by apply take_app_length'.
  - by apply drop_app_length'.
  - apply Z.ltb_ge. rewrite zlen_app. unfold zlen. lia.
Qed.

(** C32. The state contract refines the list of writes: called by the driver
    with the ABI encoding of a write, it performs exactly that write for
    exactly its price, if the write is allowed and the gas suffices, and
    otherwise changes nothing and consumes all gas. *)
Theorem stateContract_writes {W} {WS : WorldState W} ids (w : W) x gas :
  ids_ok ids -> 0 <= gas <= gasLimit -> (forall a, zlen (ws_GetCode w a) <= codeLimit) ->
  runStateContract ids w DriverAddress StateContractAddress (abiEncode ids x) gas = stateOutcome w x gas.
Proof.
  intros [Hnd Hlen] Hg Hc. unfold runStateContract. rewrite !arr_eqb_refl. cbn [negb].
  rewrite !Forall_cons in Hlen. destruct Hlen as (L1 & L2 & L3 & L4 & L5 & _).
  rewrite !NoDup_cons, !not_elem_of_cons in Hnd. destruct_and!. destruct x; cbn [abiEncode];
    match goal with |- context [take 4 (?id ++ ?rest)] =>
      destruct (select4 id rest) as (-> & -> & ->); [done|] end;
    rewrite ?bytes_Equal_refl; repeat (rewrite bytes_Equal_neq by congruence).
  - rewrite <-setBalance_outcome by done. by destruct (executeStateSetBalance _ _ _ _) as [? [? []]].
  - rewrite <-copyCode_outcome by done. by destruct (executeStateContractCopyCode _ _ _) as [? [? []]].
  - rewrite <-swapCode_outcome by done. by destruct (executeStateContractSwapCode _ _ _) as [? [? []]].
  - rewrite <-setStorage_outcome by done. by destruct (executeStateContractSetStorage _ _ _) as [? [? []]].
  - rewrite <-incNonce_outcome by done. by destruct (executeStateContractIncNonce _ _ _ _) as [? [? []]].
Qed.

(** Two accounts swap their code. *)
Definition codeCore : core :=
  mkCore ∅ ∅ (<[ addr 1 := [x01] ]> {[ addr 2 := [x02; x03] ]}) ∅ ∅ ∅ ∅ ∅ ∅ [].

Lemma codeCore_limit a : zlen (ws_GetCode (newWorld codeCore) a) <= codeLimit.
Proof.
  change (zlen (default [] ((<[ addr 1 := [x01] ]> {[ addr 2 := [x02; x03] ]} : gmap Address Code) !! a)) <= codeLimit).
  destruct (decide (addr 1 = a)) as [<-|H1]; [by rewrite lookup_insert_eq|].
  rewrite lookup_insert_ne by done. destruct (decide (addr 2 = a)) as [<-|H2].
  - by rewrite lookup_singleton_eq.
  - by rewrite lookup_singleton_ne.
Qed.

Lemma refIDs_ok : ids_ok refIDs.
Proof.
  split; [|repeat constructor]. apply (bool_decide_unpack _). by vm_compute.
Qed.

Lemma stateContract_writes_witness :
  let '(w, res) := runStateContract refIDs (newWorld codeCore) DriverAddress StateContractAddress
    (abiEncode refIDs (SwapCode (addr 1) (addr 2))) 100000 in
  ws_GetCode w (addr 1) = [x02; x03] /\ ws_GetCode w (addr 2) = [x01]
  /\ cr_GasLeft res = 100000 - 64000 - 304 /\ cr_Success res = true.
Proof.
  rewrite (stateContract_writes refIDs (newWorld codeCore) (SwapCode (addr 1) (addr 2)) 100000 refIDs_ok).
  - by vm_compute.
  - by vm_compute.
  - apply codeCore_limit.
Defined.

(** What a handler may do: nothing and no gas left on an error, one allowed
    write otherwise. *)
Definition handled {W} {WS : WorldState W} (w : W) (res : stateResult (W := W)) : Prop :=
  if is_err (snd (snd res)) then fst res = w /\ fst (snd res) = 0
  else exists x, writeAllowed x = true /\ fst res = applyWrite w x.

Section Gate.
Context {W : Type} {WS : WorldState W} (w : W) (input : list byte) (gas : Gas).

Lemma setBalance_handled : handled w (executeStateSetBalance w DriverAddress input gas).
Proof.
  unfold executeStateSetBalance. do 2 (case_if; [done|]). destruct (arr_eqb _ _) eqn:Eq; [done|].
  eexists (SetBalance _ _). split; [|reflexivity]. cbn [writeAllowed]. unfold arr_eqb in Eq. by rewrite Eq.
Qed.

Lemma copyCode_handled : handled w (executeStateContractCopyCode w input gas).
Proof.
  unfold executeStateContractCopyCode. do 2 (case_if; [done|]). cbv zeta. case_if; [done|].
  exists (CopyCode (to_array 20 (slice input 12 32)) (to_array 20 (slice input (32 + 12) (32 + 32)))).
  split; [done|]. cbn [fst applyWrite]. unfold arr_eqb. by case_bool_decide.
Qed.

Lemma swapCode_handled : handled w (executeStateContractSwapCode w input gas).
Proof.
  unfold executeStateContractSwapCode. cbv zeta. do 2 (case_if; [done|]). case_if; [done|].
  exists (SwapCode (to_array 20 (slice input 12 32)) (to_array 20 (slice input (32 + 12) (32 + 32)))).
  split; [done|]. cbn [fst applyWrite]. unfold arr_eqb. by case_bool_decide.
Qed.

Lemma setStorage_handled : handled w (executeStateContractSetStorage w input gas).
Proof.
  unfold executeStateContractSetStorage. do 2 (case_if; [done|]). by eexists (SetStorageAt _ _ _).
Qed.

Lemma incNonce_handled : handled w (executeStateContractIncNonce w DriverAddress input gas).
Proof.
  unfold executeStateContractIncNonce. do 2 (case_if; [done|]). cbv zeta.
  destruct (arr_eqb _ _) eqn:Eq; [done|]. destruct (_ || _)%bool eqn:Ev; [done|].
  eexists (IncNonce _ _). split; [|reflexivity]. cbn [writeAllowed]. unfold arr_eqb in Eq. rewrite Eq.
  apply orb_false_iff in Ev as [Ev1 Ev2]. rewrite Z.leb_gt in Ev1, Ev2.
  apply andb_true_iff. split; apply Z.ltb_lt; [exact Ev1|exact Ev2].
Qed.

End Gate.

(** C38. Whatever the state contract is called with, it changes the state only
    if the driver called it at its own address, and then by one allowed write;
    a call that does not succeed leaves the state as it was and no gas. *)
Theorem stateContract_gate {W} {WS : WorldState W} ids (w : W) sender receiver input gas :
  let '(w', res) := runStateContract ids w sender receiver input gas in
  if cr_Success res
  then sender = DriverAddress /\ receiver = StateContractAddress
       /\ exists x, writeAllowed x = true /\ w' = applyWrite w x
  else w' = w /\ cr_GasLeft res = 0.
Proof.
  unfold runStateContract. destruct (arr_eqb receiver _) eqn:Er; [|done].
  destruct (arr_eqb sender _) eqn:Es; [|done]. apply arr_eqb_eq in Er as ->, Es as ->.
  cbn [negb]. case_if; [done|].
  match goal with |- context [let '(_, _) := ?e in _] =>
    assert (handled w e) as H; [|destruct e as [w' [left err]]] end.
  - repeat case_if; auto using setBalance_handled, copyCode_handled, swapCode_handled,
      setStorage_handled, incNonce_handled. done.
  - unfold handled in H. by destruct err.
Qed.

(** ** Deployment *)

(** Code that may be deployed with the gas that is left. *)
Definition deployable (code : Code) (revision : Revision) (left : Gas) : bool :=
  (zlen code <=? 24576) && negb ((revision >=? R10_London) && bool_decide (head code = Some xef))
  && (200 * zlen code <=? left).

(** A creation deploys its output exactly if that has at most 24576 bytes,
    does not start with [0xEF] from London on (EIP-3541), and the gas left
    pays 200 per byte; it is then charged that price. Otherwise the creation
    fails, with all gas consumed, and no code is set. *)
Theorem checkAndDeployCode_spec {W} {TC : TransactionContext W} result a revision (w : W) :
  r_Success result = true -> 0 <= r_GasLeft result <= MaxInt64 -> zlen (r_Output result) < 2 ^ 48 ->
  checkAndDeployCode result a revision w =
    if deployable (r_Output result) revision (r_GasLeft result)
    then (ws_SetCode w a (r_Output result),
          mkResult true (r_Output result) (r_GasLeft result - 200 * zlen (r_Output result)) (r_GasRefund result))
    else (w, mkResult false [] 0 (r_GasRefund result)).
Proof.
  intros Hs Hg Hl. unfold checkAndDeployCode, deployable, maxCodeSize, createGasCostPerByte, MaxInt64 in *.
  pose proof (zlen_nonneg (r_Output result)). rewrite Hs, (Z.mul_comm 200), (i64_id (_ * 200)) by zblia.
  assert (forall c : Code, (zlen c >? 0) && bool_decide (c !! 0%nat = Some xef)
    = bool_decide (head c = Some xef))%bool as Hh by (by intros [|b c]).
  rewrite <-andb_assoc, Hh, Z.gtb_ltb, (Z.ltb_antisym _ 24576). cbv zeta.
  replace (zlen (r_Output result) * 200 <=? r_GasLeft result)
    with (negb (r_GasLeft result <? zlen (r_Output result) * 200)) by (symmetry; apply Z.leb_antisym).
  destruct (zlen (r_Output result) <=? 24576), ((revision >=? R10_London) && _)%bool,
    (Z.ltb_spec (r_GasLeft result) (zlen (r_Output result) * 200)); cbn [negb andb]; try done.
  rewrite i64_id by zblia. done.
Qed.

Lemma checkAndDeployCode_spec_witness :
  ws_GetCode (fst (checkAndDeployCode (mkResult true [x60; x00] 1000 0) (addr 5) R10_London (newWorld emptyCore)))
    (addr 5) = [x60; x00].
Proof.
  rewrite checkAndDeployCode_spec; [by vm_compute|done|by vm_compute|by vm_compute].
Defined.

(** ** Precompiled contracts *)

(** From Prague on the precompiled contracts are those of Istanbul, the
    default of the choice by revision: a contract that Cancun has and Istanbul
    does not have, like the point evaluation, disappears. *)
Theorem precompiles_after_cancun {GE : Geth} a c revision :
  PrecompiledContractsCancun !! a = Some c -> PrecompiledContractsIstanbul !! a = None ->
  R13_Cancun < revision ->
  isPrecompiled a R13_Cancun = true /\ isPrecompiled a revision = false.
Proof.
  intros Hc Hi Hr. unfold isPrecompiled, getPrecompiledContract, getPrecompiledContracts.
  rewrite Z.eqb_refl, Hc. unfold R13_Cancun, R12_Shanghai, R11_Paris, R10_London, R09_Berlin in *.
  rewrite !(proj2 (Z.eqb_neq revision _)) by lia. cbn [orb]. by rewrite Hi.
Qed.

Definition pointEvaluation : Geth := {|
  PrecompiledContractsCancun := {[ addr 10 := mkPrecompiled (fun _ => 50000) (fun d => inl d) ]};
  PrecompiledContractsBerlin := ∅;
  PrecompiledContractsIstanbul := ∅;
  crypto_Keccak256 := refHash;
  crypto_CreateAddress a n := a;
  crypto_CreateAddress2 a s h := a
|}.

Lemma precompiles_after_cancun_witness :
  isPrecompiled (GE := pointEvaluation) (addr 10) R13_Cancun = true
  /\ isPrecompiled (GE := pointEvaluation) (addr 10) R14_Prague = false.
Proof.
  eapply (precompiles_after_cancun (GE := pointEvaluation) (addr 10)).
  - apply lookup_singleton_eq.
  - apply lookup_empty.
  - done.
Defined.
