(* ===== verification/CtSlices.v ===== *)
(** * Padded slices

    [go/ct/common/slices.go], the helpers on slices that the code conversion
    of [lfvm] shares with the conformance tests. *)
From Stdlib Require Import ZArith Lia.
From stdpp Require Import base list numbers.
From S2P Require Import Prelude.
Set Default Goal Selector "!".

Section Slices.
(** [zero] is the zero value of the element type, which fills a new slice. *)
Context {T : Type} (zero : T).

Definition RightPadSlice (source : list T) (size : nat) : list T :=
  go_copy (replicate size zero) source.

Definition LeftPadSlice (source : list T) (size : nat) : list T :=
  let res := replicate size zero in
  if (size <? length source)%nat then go_copy res source
  else take (size - length source) res ++ go_copy (drop (size - length source) res) source.

Lemma RightPadSlice_short source size : (length source <= size)%nat ->
  RightPadSlice source size = source ++ replicate (size - length source) zero.
Proof.
  intros H. unfold RightPadSlice, go_copy. rewrite length_replicate, firstn_all2 by lia.
  by rewrite drop_replicate.
Qed.

Lemma LeftPadSlice_short source size : (length source <= size)%nat ->
  LeftPadSlice source size = replicate (size - length source) zero ++ source.
Proof.
  intros H. unfold LeftPadSlice. rewrite (proj2 (Nat.ltb_ge _ _)) by lia.
  rewrite take_replicate, Nat.min_l by lia. rewrite drop_replicate. f_equal.
  apply go_copy_same. rewrite length_replicate. lia.
Qed.

End Slices.
