(* ===== verification/LfvmOpCodes.v ===== *)
(** * Op codes and instructions of the long-form EVM

    [go/interpreter/lfvm/opcode.go] and [instruction.go]. An [OpCode] of
    [lfvm] is a 16-bit number: the EVM op codes keep their values ([Base]),
    the op codes beyond [0xff] are those of the long form and the super
    instructions. *)
From Stdlib Require Import ZArith Lia Strings.Byte.
From stdpp Require Import base list numbers.
From S2P Require Import Prelude OpCodes.
Set Default Goal Selector "!".
Local Open Scope Z_scope.

Inductive LOpCode :=
| Base (op : OpCode)
| JUMP_TO
| NOOP
| DATA
| SWAP2_SWAP1_POP_JUMP
| SWAP1_POP_SWAP2_SWAP1
| POP_SWAP2_SWAP1_POP
| POP_POP
| PUSH1_SHL
| PUSH1_ADD
| PUSH1_DUP1
| PUSH2_JUMP
| PUSH2_JUMPI
| PUSH1_PUSH1
| SWAP1_POP
| POP_JUMP
| SWAP2_SWAP1
| SWAP2_POP
| DUP2_MSTORE
| DUP2_LT
| ISZERO_PUSH2_JUMPI
| PUSH1_PUSH4_DUP3
| AND_SWAP1_POP_SWAP2_SWAP1
| PUSH1_PUSH1_PUSH1_SHL_SUB
| Undefined (n : Z).

#[global] Instance LOpCode_eqdec : EqDecision LOpCode.
Proof. solve_decision. Defined.

(** The op codes beyond the EVM's, in the order of the constants, from
    [0x100] on. *)
Definition extendedOpCodes : list LOpCode :=
  [JUMP_TO; NOOP; DATA; SWAP2_SWAP1_POP_JUMP; SWAP1_POP_SWAP2_SWAP1; POP_SWAP2_SWAP1_POP;
   POP_POP; PUSH1_SHL; PUSH1_ADD; PUSH1_DUP1; PUSH2_JUMP; PUSH2_JUMPI; PUSH1_PUSH1; SWAP1_POP;
   POP_JUMP; SWAP2_SWAP1; SWAP2_POP; DUP2_MSTORE; DUP2_LT; ISZERO_PUSH2_JUMPI;
   PUSH1_PUSH4_DUP3; AND_SWAP1_POP_SWAP2_SWAP1; PUSH1_PUSH1_PUSH1_SHL_SUB].

Definition _highestOpCode : LOpCode := PUSH1_PUSH1_PUSH1_SHL_SUB.

(** The op code with a number, and the number of an op code. *)
Definition toOpCode (z : Z) : LOpCode :=
  if z <? 0x100 then Base (byte_of z)
  else match extendedOpCodes !! Z.to_nat (z - 0x100) with
       | Some op => op
       | None => Undefined z
       end.

Definition opcode_val (op : LOpCode) : Z :=
  match op with
  | Base op => byte_val op
  | JUMP_TO => 0x100
  | NOOP => 0x101
  | DATA => 0x102
  | SWAP2_SWAP1_POP_JUMP => 0x103
  | SWAP1_POP_SWAP2_SWAP1 => 0x104
  | POP_SWAP2_SWAP1_POP => 0x105
  | POP_POP => 0x106
  | PUSH1_SHL => 0x107
  | PUSH1_ADD => 0x108
  | PUSH1_DUP1 => 0x109
  | PUSH2_JUMP => 0x10a
  | PUSH2_JUMPI => 0x10b
  | PUSH1_PUSH1 => 0x10c
  | SWAP1_POP => 0x10d
  | POP_JUMP => 0x10e
  | SWAP2_SWAP1 => 0x10f
  | SWAP2_POP => 0x110
  | DUP2_MSTORE => 0x111
  | DUP2_LT => 0x112
  | ISZERO_PUSH2_JUMPI => 0x113
  | PUSH1_PUSH4_DUP3 => 0x114
  | AND_SWAP1_POP_SWAP2_SWAP1 => 0x115
  | PUSH1_PUSH1_PUSH1_SHL_SUB => 0x116
  | Undefined n => n
  end.

(** [lo <= op && op <= hi] for EVM op codes [lo] and [hi]. *)
Definition lop_in (lo hi : OpCode) (op : LOpCode) : bool :=
  (byte_val lo <=? opcode_val op) && (opcode_val op <=? byte_val hi).

Definition opCodeMask : Z := 0x1ff.

Definition numOpCodes : Z := opCodeMask + 1.

Definition isBaseInstruction (o : LOpCode) : bool := opcode_val o <? 0x100.

(** [nil] is the empty list. *)
Definition decompose (o : LOpCode) : list LOpCode :=
  map Base
  match o with
  | SWAP2_SWAP1_POP_JUMP => [SWAP2; SWAP1; POP; JUMP]
  | SWAP1_POP_SWAP2_SWAP1 => [SWAP1; POP; SWAP2; SWAP1]
  | POP_SWAP2_SWAP1_POP => [POP; SWAP2; SWAP1; POP]
  | POP_POP => [POP; POP]
  | PUSH1_SHL => [PUSH1; SHL]
  | PUSH1_ADD => [PUSH1; ADD]
  | PUSH1_DUP1 => [PUSH1; DUP1]
  | PUSH2_JUMP => [PUSH2; JUMP]
  | PUSH2_JUMPI => [PUSH2; JUMPI]
  | PUSH1_PUSH1 => [PUSH1; PUSH1]
  | SWAP1_POP => [SWAP1; POP]
  | POP_JUMP => [POP; JUMP]
  | SWAP2_SWAP1 => [SWAP2; SWAP1]
  | SWAP2_POP => [SWAP2; POP]
  | DUP2_MSTORE => [DUP2; MSTORE]
  | DUP2_LT => [DUP2; LT]
  | ISZERO_PUSH2_JUMPI => [ISZERO; PUSH2; JUMPI]
  | PUSH1_PUSH4_DUP3 => [PUSH1; PUSH4; DUP3]
  | AND_SWAP1_POP_SWAP2_SWAP1 => [AND; SWAP1; POP; SWAP2; SWAP1]
  | PUSH1_PUSH1_PUSH1_SHL_SUB => [PUSH1; PUSH1; PUSH1; SHL; SUB]
  | _ => []
  end.

Definition isSuperInstruction (o : LOpCode) : bool :=
  negb (bool_decide (decompose o = [])).

(** The source recurses into the parts of a super instruction, which are EVM
    op codes; a depth of two suffices ([hasArgument_depth]). *)
Fixpoint hasArgument (depth : nat) (o : LOpCode) : bool :=
  if lop_in PUSH1 PUSH32 o then true
  else
    match o with
    | DATA | JUMP_TO => true
    | _ =>
        match depth with
        | O => false
        | S depth => isSuperInstruction o && existsb (hasArgument depth) (decompose o)
        end
    end.

Definition HasArgument : LOpCode -> bool := hasArgument 2.

Record Instruction := mkInstruction { opcode : LOpCode; arg : Z }.

#[global] Instance Instruction_eqdec : EqDecision Instruction.
Proof. solve_decision. Defined.

Abbreviation LCode := (list Instruction).

(** What [make([]Instruction, n)] holds: [STOP] without argument. *)
Definition zeroInstruction : Instruction := mkInstruction (Base STOP) 0.

(** ** Tables by op code *)

Definition opCodePropertyMap (T : Type) := list T.

Definition newOpCodePropertyMap {T} (property : LOpCode -> T) : opCodePropertyMap T :=
  map (fun i => property (toOpCode (Z.of_nat i))) (seq 0 (Z.to_nat numOpCodes)).

Definition property_get {T} (p : opCodePropertyMap T) (op : LOpCode) : option T :=
  p !! Z.to_nat (Z.land (opcode_val op) opCodeMask).

(** ** Facts *)

(** An op code the code can contain. *)
Definition lop_wf (op : LOpCode) : Prop :=
  match op with Undefined n => opcode_val _highestOpCode < n < 2 ^ 16 | _ => True end.

Lemma toOpCode_val op : lop_wf op -> toOpCode (opcode_val op) = op.
Proof.
  intros H. destruct op; try done.
  - cbn. unfold toOpCode. pose proof (byte_val_range op).
    rewrite (proj2 (Z.ltb_lt _ _)) by lia. by rewrite byte_of_val.
  - cbn in *. unfold toOpCode. rewrite (proj2 (Z.ltb_ge _ _)) by lia.
    rewrite lookup_ge_None_2; [done|]. cbn. lia.
Qed.

Lemma opcode_val_toOpCode z : 0 <= z < 2 ^ 16 -> opcode_val (toOpCode z) = z.
Proof.
  intros Hz. unfold toOpCode. case_if.
  - cbn. rewrite byte_val_of. apply Z.mod_small. lia.
  - destruct (extendedOpCodes !! Z.to_nat (z - 0x100)) as [op|] eqn:E0; [|done].
    assert (op = toOpCode z) as ->.
    { unfold toOpCode. rewrite (proj2 (Z.ltb_ge _ _)) by lia. by rewrite E0. }
    pose proof (lookup_lt_Some _ _ _ E0) as Hl. change (length extendedOpCodes) with 23%nat in Hl.
    assert (exists k, (k < 23)%nat /\ z = 0x100 + Z.of_nat k) as (k & Hk & ->).
    { exists (Z.to_nat (z - 256)). lia. }
    do 23 (destruct k as [|k]; [by vm_compute|]). lia.
Qed.

Lemma toOpCode_wf z : 0 <= z < 2 ^ 16 -> lop_wf (toOpCode z).
Proof.
  intros Hz. pose proof (opcode_val_toOpCode z Hz) as Hv.
  unfold toOpCode in *. case_if; [done|].
  destruct (extendedOpCodes !! _) as [op|] eqn:Ho.
  - apply list_elem_of_lookup_2 in Ho. unfold extendedOpCodes in Ho.
    by repeat (apply elem_of_cons in Ho as [->|Ho]; [exact I|]); apply elem_of_nil in Ho.
  - apply lookup_ge_None_1 in Ho. cbn in *. lia.
Qed.

(** All op codes the package defines are told apart by the mask. *)
Lemma longPropertyMap_get {T} (f : LOpCode -> T) op : lop_wf op -> opcode_val op < numOpCodes ->
  property_get (newOpCodePropertyMap f) op = Some (f op).
Proof.
  intros Hw Hv. assert (0 <= opcode_val op) as H0.
  { destruct op; cbn in *; try lia. pose proof (byte_val_range op). lia. }
  unfold property_get, newOpCodePropertyMap, opCodeMask.
  change 0x1ff with (Z.ones 9). rewrite Z.land_ones by lia.
  change (2 ^ 9) with numOpCodes. rewrite Z.mod_small by lia.
  rewrite list_lookup_fmap, lookup_seq_lt by lia. cbn.
  by rewrite Z2Nat.id, toOpCode_val.
Qed.

Lemma hasArgument_depth d o : (2 <= d)%nat -> hasArgument d o = HasArgument o.
Proof.
  intros Hd. do 2 (destruct d as [|d]; [lia|]). clear Hd. unfold HasArgument.
  destruct o; try reflexivity.
Qed.
