(* ===== verification/LfvmConverter.v ===== *)
(** * Conversion of EVM code to the long form

    [go/interpreter/lfvm/converter.go]. The builder writes into a
    preallocated slice; an access beyond its end is a panic of Go, [None]
    here. Positions are Go [int]s that are never negative. *)
From Stdlib Require Import ZArith Lia Strings.Byte String.
From stdpp Require Import base list numbers.
From S2P Require Import Prelude Uint256 Types OpCodes SfvmAnalysis CtSlices LfvmOpCodes.
Set Default Goal Selector "!".
Local Open Scope Z_scope.

Definition u16 (z : Z) : Z := wrapU 16 z.

Definition MaxUint16 : Z := 2 ^ 16 - 1.

Record ConversionConfig := mkConversionConfig {
  CacheSize : Z;
  WithSuperInstructions : bool
}.

Definition maxCachedCodeLength : Z := 2 ^ 14 + 2 ^ 13.

(** [unsafe.Sizeof(Instruction{})]: two 16-bit fields. *)
Definition instructionSize : Z := 4.

(** ** The code builder *)

Record codeBuilder := mkBuilder { b_code : list Instruction; b_nextPos : nat }.

Definition newCodeBuilder (codelength : nat) : codeBuilder :=
  mkBuilder (replicate codelength zeroInstruction) 0.

Definition b_length (b : codeBuilder) : nat := b_nextPos b.

(** An update of [b.code[i]]. *)
Definition b_update (b : codeBuilder) (i : nat) (f : Instruction -> Instruction)
    : option codeBuilder :=
  if (i <? length (b_code b))%nat
  then Some (mkBuilder (alter f i (b_code b)) (b_nextPos b)) else None.

Definition b_advance (b : codeBuilder) : codeBuilder := mkBuilder (b_code b) (S (b_nextPos b)).

Definition appendOp (b : codeBuilder) (op : LOpCode) (a : Z) : option codeBuilder :=
  b ← b_update b (b_nextPos b) (fun _ => mkInstruction op a); Some (b_advance b).

(** The argument of the instruction is left as it is. *)
Definition appendCode (b : codeBuilder) (op : LOpCode) : option codeBuilder :=
  b ← b_update b (b_nextPos b) (fun i => mkInstruction op (arg i)); Some (b_advance b).

Definition appendData (b : codeBuilder) (data : Z) : option codeBuilder := appendOp b DATA data.

(** The loop of [padNoOpsUntil]: [n] no-ops from [i] on. *)
Fixpoint pad_loop (n : nat) (i : nat) (b : codeBuilder) : option codeBuilder :=
  match n with
  | O => Some b
  | S n => b ← b_update b i (fun x => mkInstruction NOOP (arg x)); pad_loop n (S i) b
  end.

Definition padNoOpsUntil (b : codeBuilder) (pos : nat) : option codeBuilder :=
  b ← pad_loop (pos - b_nextPos b) (b_nextPos b) b; Some (mkBuilder (b_code b) pos).

Definition toCode (b : codeBuilder) : option LCode :=
  if (b_nextPos b <=? length (b_code b))%nat then Some (take (b_nextPos b) (b_code b)) else None.

(** ** Super instructions *)

(** [uint16(hi)<<8 | uint16(lo)]. *)
Definition pack (hi lo : byte) : Z := Z.lor (u16 (Z.shiftl (byte_val hi) 8)) (byte_val lo).

(** [uint16(b)<<8]. *)
Definition high (b : byte) : Z := u16 (Z.shiftl (byte_val b) 8).

Local Notation "a === b" := (Byte.eqb a b) (at level 70, only parsing).

(** The result of a block of [appendSuperInstructions]: the extended builder
    (or a panic) and the number of further bytes, if a pattern matches. [rest]
    is [code[pos:]]; the block for [len(code) > pos+k] sees its first [k+1]
    bytes. *)
Definition superResult := option (option codeBuilder * nat).

Definition super8 (res : codeBuilder) (rest : Code) : superResult :=
  match rest with
  | op0 :: op1 :: op2 :: op3 :: op4 :: op5 :: op6 :: op7 :: _ =>
      if (op0 === PUSH1) && (op2 === PUSH4) && (op7 === DUP3) then
        Some (res ← appendOp res PUSH1_PUSH4_DUP3 (high op1);
              res ← appendData res (pack op3 op4);
              appendData res (pack op5 op6), 7%nat)
      else if (op0 === PUSH1) && (op2 === PUSH1) && (op4 === PUSH1) && (op6 === SHL)
              && (op7 === SUB) then
        Some (res ← appendOp res PUSH1_PUSH1_PUSH1_SHL_SUB (pack op1 op3);
              appendData res (byte_val op5), 7%nat)
      else None
  | _ => None
  end.

Definition super5 (res : codeBuilder) (rest : Code) : superResult :=
  match rest with
  | op0 :: op1 :: op2 :: op3 :: op4 :: _ =>
      if (op0 === AND) && (op1 === SWAP1) && (op2 === POP) && (op3 === SWAP2) && (op4 === SWAP1)
      then Some (appendCode res AND_SWAP1_POP_SWAP2_SWAP1, 4%nat)
      else if (op0 === ISZERO) && (op1 === PUSH2) && (op4 === JUMPI)
      then Some (appendOp res ISZERO_PUSH2_JUMPI (pack op2 op3), 4%nat)
      else None
  | _ => None
  end.

Definition super4 (res : codeBuilder) (rest : Code) : superResult :=
  match rest with
  | op0 :: op1 :: op2 :: op3 :: _ =>
      if (op0 === SWAP2) && (op1 === SWAP1) && (op2 === POP) && (op3 === JUMP)
      then Some (appendCode res SWAP2_SWAP1_POP_JUMP, 3%nat)
      else if (op0 === SWAP1) && (op1 === POP) && (op2 === SWAP2) && (op3 === SWAP1)
      then Some (appendCode res SWAP1_POP_SWAP2_SWAP1, 3%nat)
      else if (op0 === POP) && (op1 === SWAP2) && (op2 === SWAP1) && (op3 === POP)
      then Some (appendCode res POP_SWAP2_SWAP1_POP, 3%nat)
      else if (op0 === PUSH2) && (op3 === JUMP)
      then Some (appendOp res PUSH2_JUMP (pack op1 op2), 3%nat)
      else if (op0 === PUSH2) && (op3 === JUMPI)
      then Some (appendOp res PUSH2_JUMPI (pack op1 op2), 3%nat)
      else if (op0 === PUSH1) && (op2 === PUSH1)
      then Some (appendOp res PUSH1_PUSH1 (pack op1 op3), 3%nat)
      else None
  | _ => None
  end.

Definition super3 (res : codeBuilder) (rest : Code) : superResult :=
  match rest with
  | op0 :: op1 :: op2 :: _ =>
      if (op0 === PUSH1) && (op2 === ADD) then Some (appendOp res PUSH1_ADD (byte_val op1), 2%nat)
      else if (op0 === PUSH1) && (op2 === SHL)
      then Some (appendOp res PUSH1_SHL (byte_val op1), 2%nat)
      else if (op0 === PUSH1) && (op2 === DUP1)
      then Some (appendOp res PUSH1_DUP1 (byte_val op1), 2%nat)
      else None
  | _ => None
  end.

Definition super2 (res : codeBuilder) (rest : Code) : superResult :=
  match rest with
  | op0 :: op1 :: _ =>
      if (op0 === SWAP1) && (op1 === POP) then Some (appendCode res SWAP1_POP, 1%nat)
      else if (op0 === POP) && (op1 === JUMP) then Some (appendCode res POP_JUMP, 1%nat)
      else if (op0 === POP) && (op1 === POP) then Some (appendCode res POP_POP, 1%nat)
      else if (op0 === SWAP2) && (op1 === SWAP1) then Some (appendCode res SWAP2_SWAP1, 1%nat)
      else if (op0 === SWAP2) && (op1 === POP) then Some (appendCode res SWAP2_POP, 1%nat)
      else if (op0 === DUP2) && (op1 === MSTORE) then Some (appendCode res DUP2_MSTORE, 1%nat)
      else if (op0 === DUP2) && (op1 === LT) then Some (appendCode res DUP2_LT, 1%nat)
      else None
  | _ => None
  end.

(** The blocks in the order of the source; 0 bytes when none matches. *)
Definition appendSuperInstructions (res : codeBuilder) (pos : nat) (code : Code)
    : option (codeBuilder * nat) :=
  let rest := drop pos code in
  match super8 res rest with
  | Some (r, n) => b ← r; Some (b, n)
  | None =>
  match super5 res rest with
  | Some (r, n) => b ← r; Some (b, n)
  | None =>
  match super4 res rest with
  | Some (r, n) => b ← r; Some (b, n)
  | None =>
  match super3 res rest with
  | Some (r, n) => b ← r; Some (b, n)
  | None =>
  match super2 res rest with
  | Some (r, n) => b ← r; Some (b, n)
  | None => Some (res, 0%nat)
  end end end end end.

(** ** Single instructions *)

(** The loop that packs the bytes of a push from [i] on in pairs. *)
Fixpoint appendPairs (fuel : nat) (numBytes : nat) (data : list byte) (i : nat)
    (res : codeBuilder) : option codeBuilder :=
  match fuel with
  | O => Some res
  | S fuel =>
      if (i <? numBytes - 1)%nat then
        d0 ← data !! i; d1 ← data !! (i + 1)%nat;
        res ← appendData res (pack d0 d1);
        appendPairs fuel numBytes data (i + 2) res
      else Some res
  end.

(** The bytes of a push and the builder, enlarged at the end of the code. *)
Definition pushData (res : codeBuilder) (pos : nat) (code : Code) (numBytes : nat)
    : codeBuilder * list byte :=
  if (length code <? pos + numBytes + 2)%nat then
    let missing := (pos + numBytes + 2 - length code)%nat in
    let extension := (missing / 2 + (if 0 <? missing mod 2 then 1 else 0))%nat in
    let res :=
      if (0 <? extension)%nat
      then mkBuilder (RightPadSlice zeroInstruction (b_code res) (length (b_code res) + extension))
             (b_nextPos res)
      else res in
    (res, RightPadSlice x00 (drop (pos + 1) code) (numBytes + 1))
  else (res, take numBytes (drop (pos + 1) code)).

Definition appendPush (res : codeBuilder) (pos : nat) (code : Code) (numBytes : nat)
    : option codeBuilder :=
  let '(res, data) := pushData res pos code numBytes in
  res ← (if (numBytes =? 1)%nat then
           d0 ← data !! 0%nat; appendOp res (Base PUSH1) (high d0)
         else
           d0 ← data !! 0%nat; d1 ← data !! 1%nat;
           appendOp res (toOpCode (byte_val PUSH1 + Z.of_nat (numBytes - 1))) (pack d0 d1));
  res ← appendPairs numBytes numBytes data 2 res;
  if (1 <? numBytes)%nat && (numBytes mod 2 =? 1)%nat then
    d ← data !! (numBytes - 1)%nat; appendData res (high d)
  else Some res.

(** The number of bytes after [pos] that the instruction takes. *)
Definition appendInstructions (res : codeBuilder) (pos : nat) (code : Code)
    (withSuperInstructions : bool) : option (codeBuilder * nat) :=
  '(res, n) ← (if withSuperInstructions then appendSuperInstructions res pos code
               else Some (res, 0%nat));
  if (0 <? n)%nat then Some (res, n)
  else
    op ← code !! pos;
    if op === PC then
      if Z.of_nat pos >? MaxUint16 then
        res ← appendCode res (Base INVALID); Some (res, 1%nat)
      else
        res ← appendOp res (Base PC) (u16 (Z.of_nat pos)); Some (res, 0%nat)
    else if op_in PUSH1 PUSH32 op then
      let numBytes := Z.to_nat (byte_val op - byte_val PUSH1 + 1) in
      res ← appendPush res pos code numBytes; Some (res, numBytes)
    else
      res ← appendCode res (Base op); Some (res, 0%nat).

(** ** The conversion *)

(** The loop from position [i] on. The observer's calls are returned as the
    list of its arguments. An iteration advances by at least one byte, so that
    [length code] iterations reach the end. *)
Fixpoint convert_loop (fuel : nat) (code : Code) (si : bool) (i : nat) (res : codeBuilder)
    : option (codeBuilder * list (nat * nat)) :=
  if (i <? length code)%nat then
    match fuel with
    | O => None
    | S fuel =>
        op ← code !! i;
        if op === JUMPDEST then
          res ← (if (b_length res <? i)%nat then appendOp res JUMP_TO (u16 (Z.of_nat i)) else Some res);
          res ← padNoOpsUntil res i;
          res ← appendCode res (Base JUMPDEST);
          '(res, obs) ← convert_loop fuel code si (i + 1) res;
          Some (res, (i, i) :: obs)
        else
          let at_ := (i, b_nextPos res) in
          '(res, inc) ← appendInstructions res i code si;
          '(res, obs) ← convert_loop fuel code si (i + inc + 1) res;
          Some (res, at_ :: obs)
    end
  else Some (res, []).

Definition convertWithObserver (code : Code) (options : ConversionConfig)
    : option (LCode * list (nat * nat)) :=
  let res := newCodeBuilder (length code) in
  '(res, obs) ← convert_loop (length code) code (WithSuperInstructions options) 0 res;
  c ← toCode res; Some (c, obs).

Definition convert (code : Code) (options : ConversionConfig) : option LCode :=
  '(c, _) ← convertWithObserver code options; Some c.

(** ** The converter and its cache *)

Record Converter (C : Type) := mkConverter { cv_config : ConversionConfig; cv_cache : option C }.
Arguments mkConverter {C} _ _.
Arguments cv_config {C} _.
Arguments cv_cache {C} _.

Definition errCodeSizeExceeded : error := ErrMsg "max code size exceeded".

Section Converter.
Context {C : Type} {L : LRU LCode C}.

Definition NewConverter (config : ConversionConfig) : Converter C + error :=
  let config :=
    if CacheSize config =? 0
    then mkConversionConfig (2 ^ 30) (WithSuperInstructions config) else config in
  if CacheSize config >? 0 then
    let capacity := Z.quot (Z.quot (CacheSize config) maxCachedCodeLength) instructionSize in
    match lru_New capacity with
    | Some cache => inl (mkConverter config (Some cache))
    | None => inr (ErrMsg "must provide a positive size")
    end
  else inl (mkConverter config None).

(** The outer [None] is a panic. *)
Definition Convert (c : Converter C) (code : Code) (codeHash : option Hash)
    : option (Converter C * (LCode + error)) :=
  if zlen code >? MaxUint16 then Some (c, inr errCodeSizeExceeded)
  else
    match cv_cache c, codeHash with
    | Some cache, Some h =>
        let '(cache, found) := lru_Get cache h in
        let c := mkConverter (cv_config c) (Some cache) in
        match found with
        | Some res => Some (c, inl res)
        | None =>
            res ← convert code (cv_config c);
            if zlen res >? maxCachedCodeLength then Some (c, inl res)
            else Some (mkConverter (cv_config c) (Some (lru_Add cache h res)), inl res)
        end
    | _, _ => res ← convert code (cv_config c); Some (c, inl res)
    end.

End Converter.
