(* ===== verification/LfvmLayout.v ===== *)
(** * What the conversion produces

    The long form of a code as a function of the code ([translate], per
    instruction or super instruction) and as a layout of the whole code: which
    instructions stand at which position, with the jump destinations at the
    positions they have in the EVM code. The conversion never panics and
    produces this layout. *)
From Stdlib Require Import ZArith Lia Strings.Byte.
From stdpp Require Import base list numbers.
From S2P Require Import Prelude Uint256 Types OpCodes SfvmAnalysis CtSlices LfvmOpCodes LfvmConverter.
Set Default Goal Selector "!".
Local Open Scope Z_scope.

(** ** The translation of an instruction *)

Fixpoint packs (l : list byte) : list Z :=
  match l with
  | a :: b :: l => pack a b :: packs l
  | [a] => [high a]
  | [] => []
  end.

(** The [n] bytes after position [pos], zeros beyond the end of the code. *)
Definition immediate (code : Code) (pos n : nat) : list byte :=
  take n (drop (pos + 1) code ++ replicate n x00).

Definition translatePush (op : OpCode) (data : list byte) : list Instruction :=
  match packs data with
  | a :: l => mkInstruction (Base op) a :: map (mkInstruction DATA) l
  | [] => []
  end.

Definition translateOp (code : Code) (pos : nat) (op : OpCode) : list Instruction * nat :=
  if Byte.eqb op PC then ([mkInstruction (Base PC) (Z.of_nat pos)], 0%nat)
  else if op_in PUSH1 PUSH32 op then
    let n := Z.to_nat (byte_val op - byte_val PUSH1 + 1) in
    (translatePush op (immediate code pos n), n)
  else ([mkInstruction (Base op) 0], 0%nat).

(** A super instruction, by the op codes it replaces. *)
Inductive super : Code -> list Instruction -> nat -> Prop :=
| super_push1_push4_dup3 a b c d e r :
    super (PUSH1 :: a :: PUSH4 :: b :: c :: d :: e :: DUP3 :: r)
      [mkInstruction PUSH1_PUSH4_DUP3 (high a); mkInstruction DATA (pack b c);
       mkInstruction DATA (pack d e)] 7
| super_push1_push1_push1_shl_sub a b c r :
    super (PUSH1 :: a :: PUSH1 :: b :: PUSH1 :: c :: SHL :: SUB :: r)
      [mkInstruction PUSH1_PUSH1_PUSH1_SHL_SUB (pack a b); mkInstruction DATA (byte_val c)] 7
| super_and_swap1_pop_swap2_swap1 r :
    super (AND :: SWAP1 :: POP :: SWAP2 :: SWAP1 :: r)
      [mkInstruction AND_SWAP1_POP_SWAP2_SWAP1 0] 4
| super_iszero_push2_jumpi a b r :
    super (ISZERO :: PUSH2 :: a :: b :: JUMPI :: r)
      [mkInstruction ISZERO_PUSH2_JUMPI (pack a b)] 4
| super_swap2_swap1_pop_jump r :
    super (SWAP2 :: SWAP1 :: POP :: JUMP :: r) [mkInstruction SWAP2_SWAP1_POP_JUMP 0] 3
| super_swap1_pop_swap2_swap1 r :
    super (SWAP1 :: POP :: SWAP2 :: SWAP1 :: r) [mkInstruction SWAP1_POP_SWAP2_SWAP1 0] 3
| super_pop_swap2_swap1_pop r :
    super (POP :: SWAP2 :: SWAP1 :: POP :: r) [mkInstruction POP_SWAP2_SWAP1_POP 0] 3
| super_push2_jump a b r :
    super (PUSH2 :: a :: b :: JUMP :: r) [mkInstruction PUSH2_JUMP (pack a b)] 3
| super_push2_jumpi a b r :
    super (PUSH2 :: a :: b :: JUMPI :: r) [mkInstruction PUSH2_JUMPI (pack a b)] 3
| super_push1_push1 a b r :
    super (PUSH1 :: a :: PUSH1 :: b :: r) [mkInstruction PUSH1_PUSH1 (pack a b)] 3
| super_push1_add a r :
    super (PUSH1 :: a :: ADD :: r) [mkInstruction PUSH1_ADD (byte_val a)] 2
| super_push1_shl a r :
    super (PUSH1 :: a :: SHL :: r) [mkInstruction PUSH1_SHL (byte_val a)] 2
| super_push1_dup1 a r :
    super (PUSH1 :: a :: DUP1 :: r) [mkInstruction PUSH1_DUP1 (byte_val a)] 2
| super_swap1_pop r : super (SWAP1 :: POP :: r) [mkInstruction SWAP1_POP 0] 1
| super_pop_jump r : super (POP :: JUMP :: r) [mkInstruction POP_JUMP 0] 1
| super_pop_pop r : super (POP :: POP :: r) [mkInstruction POP_POP 0] 1
| super_swap2_swap1 r : super (SWAP2 :: SWAP1 :: r) [mkInstruction SWAP2_SWAP1 0] 1
| super_swap2_pop r : super (SWAP2 :: POP :: r) [mkInstruction SWAP2_POP 0] 1
| super_dup2_mstore r : super (DUP2 :: MSTORE :: r) [mkInstruction DUP2_MSTORE 0] 1
| super_dup2_lt r : super (DUP2 :: LT :: r) [mkInstruction DUP2_LT 0] 1.

(** What stands for the code at [pos]: the instructions, and the number of
    further bytes they stand for. *)
Inductive translate (code : Code) (si : bool) (pos : nat) : list Instruction -> nat -> Prop :=
| translate_op op l n : code !! pos = Some op -> translateOp code pos op = (l, n) ->
    translate code si pos l n
| translate_super l n : si = true -> super (drop pos code) l n -> translate code si pos l n.

(** The instructions between the long-form position [j] and the next jump
    destination [i]. *)
Definition gap (j i : nat) : list Instruction :=
  if (j <? i)%nat
  then mkInstruction JUMP_TO (Z.of_nat i) :: replicate (i - j - 1) (mkInstruction NOOP 0) else [].

(** [layout code si i j l tr]: the code from position [i] on is [l] from
    position [j] on; [tr] are the pairs of positions of the instructions. *)
Inductive layout (code : Code) (si : bool) : nat -> nat -> LCode -> list (nat * nat) -> Prop :=
| layout_end i j : (length code <= i)%nat -> layout code si i j [] []
| layout_dest i j l tr : code !! i = Some JUMPDEST -> (j <= i)%nat ->
    layout code si (i + 1) (i + 1) l tr ->
    layout code si i j (gap j i ++ mkInstruction (Base JUMPDEST) 0 :: l) ((i, i) :: tr)
| layout_op i j op x n l tr : code !! i = Some op -> op <> JUMPDEST -> (j <= i)%nat ->
    translate code si i x n ->
    layout code si (i + n + 1) (j + length x) l tr ->
    layout code si i j (x ++ l) ((i, j) :: tr).

(** ** The builder *)

(** The builder has emitted [e] and has room for [k] instructions. *)
Definition builds (b : codeBuilder) (e : LCode) (k : nat) : Prop :=
  b_code b = e ++ replicate k zeroInstruction /\ b_nextPos b = length e.

Lemma builds_update b e k i f : builds b e (S k) -> i = length e ->
  exists b', b_update b i f = Some b'
    /\ b_code b' = (e ++ [f zeroInstruction]) ++ replicate k zeroInstruction /\ b_nextPos b' = length e.
Proof.
  intros [Hc Hn] ->. unfold b_update. rewrite Hc, length_app, length_replicate.
  rewrite (proj2 (Nat.ltb_lt _ _)) by lia. eexists. split; [done|]. cbn.
  rewrite <-(Nat.add_0_r (length e)) at 1. rewrite alter_app_r. cbn. split; [|done].
  by rewrite <-(assoc_L (++)).
Qed.

Lemma appendOp_builds b e k op a : builds b e (S k) ->
  exists b', appendOp b op a = Some b' /\ builds b' (e ++ [mkInstruction op a]) k.
Proof.
  intros H. unfold appendOp. pose proof H as [_ Hn].
  destruct (builds_update b e k (b_nextPos b) (fun _ => mkInstruction op a) H Hn) as (b' & -> & Hc & Hn').
  eexists. split; [done|]. split; [done|]. cbn. rewrite length_app, Hn'. cbn. lia.
Qed.

Lemma appendCode_builds b e k op : builds b e (S k) ->
  exists b', appendCode b op = Some b' /\ builds b' (e ++ [mkInstruction op 0]) k.
Proof.
  intros H. unfold appendCode. pose proof H as [_ Hn].
  destruct (builds_update b e k (b_nextPos b) (fun i => mkInstruction op (arg i)) H Hn) as (b' & -> & Hc & Hn').
  eexists. split; [done|]. split; [done|]. cbn. rewrite length_app, Hn'. cbn. lia.
Qed.

Lemma pad_loop_builds n : forall b e k, builds b e (n + k) ->
  exists b', pad_loop n (length e) b = Some b'
    /\ b_code b' = (e ++ replicate n (mkInstruction NOOP 0)) ++ replicate k zeroInstruction.
Proof.
  induction n as [|n IH]; intros b e k H; cbn [pad_loop].
  { exists b. split; [done|]. cbn. rewrite app_nil_r. apply H. }
  destruct (builds_update b e (n + k) (length e) (fun x => mkInstruction NOOP (arg x)) H eq_refl)
    as (b' & -> & Hc & Hn). cbn [mbind option_bind].
  destruct (IH (mkBuilder (b_code b') (length (e ++ [mkInstruction NOOP 0]))) (e ++ [mkInstruction NOOP 0]) k)
    as (b2 & Hp & Hc2).
  { by split. }
  assert (forall n i c p q, pad_loop n i (mkBuilder c p)
    = (b ← pad_loop n i (mkBuilder c q); Some (mkBuilder (b_code b) p))) as Hpos.
  { clear. induction n as [|n IH]; intros i c p q; cbn; [done|]. unfold b_update. cbn.
    case_if; [|done]. cbn. apply IH. }
  rewrite length_app in Hp. cbn in Hp. rewrite Nat.add_1_r in Hp.
  destruct b' as [c p]. cbn in Hc, Hp. rewrite (Hpos _ _ c p (S (length e))), Hp.
  eexists. split; [done|]. cbn. rewrite Hc2. f_equal. rewrite <-(assoc_L (++)). done.
Qed.

Lemma padNoOpsUntil_builds b e n k : builds b e (n + k) ->
  exists b', padNoOpsUntil b (length e + n) = Some b'
    /\ builds b' (e ++ replicate n (mkInstruction NOOP 0)) k.
Proof.
  intros H. pose proof H as [_ Hn]. unfold padNoOpsUntil. rewrite Hn.
  replace (length e + n - length e)%nat with n by lia.
  destruct (pad_loop_builds n b e k H) as (b' & -> & Hc). eexists. split; [done|].
  split; [done|]. cbn. by rewrite length_app, length_replicate.
Qed.

(** Instructions appended one after the other. *)
Fixpoint emit (b : codeBuilder) (l : LCode) : option codeBuilder :=
  match l with
  | [] => Some b
  | i :: l => b ← appendOp b (opcode i) (arg i); emit b l
  end.

Lemma emit_builds l : forall b e k, builds b e (length l + k) ->
  exists b', emit b l = Some b' /\ builds b' (e ++ l) k.
Proof.
  induction l as [|i l IH]; intros b e k H; cbn in *.
  { exists b. by rewrite app_nil_r. }
  destruct (appendOp_builds b e (length l + k) (opcode i) (arg i) H) as (b' & -> & H').
  destruct (IH b' _ k H') as (b2 & E & H2). exists b2. split; [done|].
  rewrite <-(assoc_L (++)) in H2. destruct i. done.
Qed.

Lemma emit_app b l1 l2 : emit b (l1 ++ l2) = (b ← emit b l1; emit b l2).
Proof.
  revert b. induction l1 as [|i l1 IH]; intros b; cbn; [done|].
  destruct (appendOp b (opcode i) (arg i)); cbn; auto.
Qed.

Lemma appendCode_emit b e k op : builds b e (S k) ->
  appendCode b op = emit b [mkInstruction op 0].
Proof.
  intros H. cbn. unfold appendCode, appendOp, b_update. destruct H as [Hc Hn]. rewrite Hn.
  case_if; [|done]. cbn. do 3 f_equal. rewrite Hc.
  rewrite <-(Nat.add_0_r (length e)). by rewrite !alter_app_r.
Qed.

(** ** Super instructions *)

(** A block of [appendSuperInstructions] emits a super instruction that
    matches, or nothing. *)
Definition block_ok (b : codeBuilder) (rest : Code) (r : superResult) : Prop :=
  r = None \/ exists l n, super rest l n /\ r = Some (emit b l, n).

Ltac byte_eqs :=
  repeat match goal with
  | H : (_ && _)%bool = true |- _ => apply andb_prop in H; destruct H
  | H : Byte.eqb _ _ = true |- _ => apply Byte.byte_dec_bl in H; subst
  end.

(** Each branch of a block is a constructor of [super]. *)
Ltac solve_block :=
  intros; repeat match goal with
  | |- block_ok _ ?rest (_ _ ?rest) => is_var rest; destruct rest; [by left|]
  | |- block_ok _ (_ :: ?rest) (_ _ (_ :: _)) =>
      progress cbn beta iota delta [super8 super5 super4 super3 super2]
  | |- block_ok _ _ (match ?rest with [] => _ | _ :: _ => _ end) =>
      is_var rest; destruct rest; [by left|]
  | |- block_ok _ _ (if ?c then _ else _) => destruct c eqn:?
  | |- block_ok _ _ None => by left
  end;
  byte_eqs; right; eexists _, _; (split; [once econstructor|]); f_equal; f_equal.

Ltac solve_emit :=
  cbn; unfold appendData;
  repeat match goal with |- context [appendOp ?b ?op ?a] => destruct (appendOp b op a); cbn; [|done] end;
  done.

Lemma super8_ok b rest : block_ok b rest (super8 b rest).
Proof. solve_block; solve_emit. Qed.

Section Blocks.
Context (b : codeBuilder) (e : LCode) (k : nat) (Hb : builds b e (S k)).

Lemma super5_ok rest : block_ok b rest (super5 b rest).
Proof. solve_block; [by eapply appendCode_emit|solve_emit]. Qed.

Lemma super4_ok rest : block_ok b rest (super4 b rest).
Proof. solve_block; (by eapply appendCode_emit) || solve_emit. Qed.

Lemma super3_ok rest : block_ok b rest (super3 b rest).
Proof. solve_block; solve_emit. Qed.

Lemma super2_ok rest : block_ok b rest (super2 b rest).
Proof. solve_block; by eapply appendCode_emit. Qed.

(** The whole function. *)
Lemma appendSuperInstructions_ok pos code :
  appendSuperInstructions b pos code = Some (b, 0%nat)
  \/ exists l n, super (drop pos code) l n
     /\ appendSuperInstructions b pos code = (b' ← emit b l; Some (b', n)).
Proof.
  unfold appendSuperInstructions. set (rest := drop pos code).
  destruct (super8_ok b rest) as [->|(l & n & Hs & ->)]; [|right; by exists l, n].
  destruct (super5_ok rest) as [->|(l & n & Hs & ->)]; [|right; by exists l, n].
  destruct (super4_ok rest) as [->|(l & n & Hs & ->)]; [|right; by exists l, n].
  destruct (super3_ok rest) as [->|(l & n & Hs & ->)]; [|right; by exists l, n].
  destruct (super2_ok rest) as [->|(l & n & Hs & ->)]; [|right; by exists l, n].
  by left.
Qed.
End Blocks.

(** A super instruction is no longer than the code it stands for, and stands
    for at least two bytes. *)
Lemma super_size rest l n : super rest l n ->
  (1 <= length l <= n)%nat /\ (1 <= n < length rest)%nat.
Proof. destruct 1; cbn; lia. Qed.

(** ** Pushes *)

Lemma immediate_length code pos n : length (immediate code pos n) = n.
Proof. unfold immediate. rewrite length_take, length_app, length_replicate. lia. Qed.

Lemma pushData_ok b e k code pos n : builds b e k -> (length e <= pos < length code)%nat ->
  (length code <= length e + k)%nat -> (1 <= n)%nat ->
  exists b' k' rest, pushData b pos code n = (b', immediate code pos n ++ rest)
    /\ builds b' e k' /\ (n <= 2 * (k' + length e - pos))%nat /\ (k <= k')%nat
    /\ (pos + n + 1 <= length code -> n + 1 <= k')%nat.
Proof.
  intros Hb He Hk Hn. unfold pushData. case_if.
  - apply Nat.ltb_lt in E. set (missing := (pos + n + 2 - length code)%nat).
    set (ext := (missing / 2 + (if 0 <? missing mod 2 then 1 else 0))%nat).
    assert (missing <= 2 * ext)%nat as Hext.
    { unfold ext. pose proof (Nat.div_mod_eq missing 2). pose proof (Nat.mod_upper_bound missing 2).
      case_if; [|apply Nat.ltb_ge in E0]; lia. }
    assert (1 <= ext)%nat as Hext1 by lia. rewrite (proj2 (Nat.ltb_lt 0 ext)) by lia.
    exists (mkBuilder (RightPadSlice zeroInstruction (b_code b) (length (b_code b) + ext)) (b_nextPos b)),
      (k + ext)%nat, (drop n (RightPadSlice x00 (drop (pos + 1) code) (n + 1))).
    split_and!.
    + f_equal. rewrite <-(firstn_skipn n (RightPadSlice _ _ _)) at 1. f_equal.
      rewrite RightPadSlice_short by (rewrite length_drop; lia). unfold immediate.
      rewrite length_drop, !take_app, !take_replicate, length_drop. f_equal. f_equal. lia.
    + destruct Hb as [Hc Hp]. split; [|done]. cbn.
      rewrite RightPadSlice_short, Hc by lia. rewrite <-(assoc_L (++)). f_equal.
      rewrite replicate_add. f_equal. f_equal. lia.
    + lia.
    + lia.
    + lia.
  - apply Nat.ltb_ge in E. exists b, k, []. split_and!; [|done|lia|lia|lia].
    rewrite app_nil_r. f_equal. unfold immediate. rewrite take_app_le; [done|]. rewrite length_drop. lia.
Qed.

Lemma packs_length : forall l, (length l <= 2 * length (packs l) <= length l + 1)%nat.
Proof. fix IH 1. intros [|a [|b l]]; cbn; [lia..|]. specialize (IH l). lia. Qed.

Lemma mod2_even n : (n mod 2 =? 1)%nat = negb (Nat.even n).
Proof.
  rewrite Nat.negb_even, <-Nat.bit0_odd, Nat.testbit_eqb. cbn [Nat.pow]. by rewrite Nat.div_1_r.
Qed.

(** The loop over the pairs and the last byte of an odd number, from an even
    offset on. *)
Lemma appendPairs_emit fuel : forall n d rest i res, length d = n -> (2 <= n)%nat ->
  Nat.even i = true -> (i <= n <= i + 2 * fuel)%nat ->
  (res ← appendPairs fuel n (d ++ rest) i res;
   if (1 <? n)%nat && (n mod 2 =? 1)%nat then
     x ← (d ++ rest) !! (n - 1)%nat; appendData res (high x) else Some res)
  = emit res (map (mkInstruction DATA) (packs (drop i d))).
Proof.
  induction fuel as [|fuel IH]; intros n d rest i res Hd Hn Hi Hf.
  - assert (i = n) as -> by lia. rewrite drop_ge, mod2_even, Hi by lia. cbn. by rewrite andb_false_r.
  - cbn [appendPairs]. destruct (i <? n - 1)%nat eqn:E.
    + apply Nat.ltb_lt in E.
      destruct (lookup_lt_is_Some_2 d i) as [x Hx]; [lia|].
      destruct (lookup_lt_is_Some_2 d (i + 1)) as [y Hy]; [lia|].
      rewrite (lookup_app_l d rest i), (lookup_app_l d rest (i + 1)), Hx, Hy by lia. cbn [mbind option_bind].
      rewrite (drop_S d x i Hx), (drop_S d y (S i)) by (by rewrite <-Nat.add_1_r). cbn [packs map emit].
      change (appendData res (pack x y)) with (appendOp res DATA (pack x y)). cbn [opcode arg]. destruct (appendOp res DATA (pack x y)) as [res'|]; [|done].
      cbn [mbind option_bind]. replace (S (S i)) with (i + 2)%nat by lia.
      apply IH; [done|done| |lia]. rewrite Nat.even_add, Hi. done.
    + apply Nat.ltb_ge in E. cbn [mbind option_bind].
      assert (i = n \/ i + 1 = n)%nat as [->|<-] by lia.
      * rewrite drop_ge, mod2_even, Hi by lia. cbn. by rewrite andb_false_r.
      * rewrite (proj2 (Nat.ltb_lt 1 _)) by lia.
        rewrite mod2_even, Nat.even_add, Hi.
        destruct (lookup_lt_is_Some_2 d i) as [x Hx]; [lia|].
        replace (i + 1 - 1)%nat with i by lia. rewrite lookup_app_l, Hx by lia. cbn [andb mbind option_bind].
        rewrite (drop_S d x i Hx), drop_ge by lia. cbn. unfold appendData. by destruct (appendOp res DATA (high x)).
Qed.

Lemma appendPush_emit b e k code pos op n : builds b e k ->
  op_in PUSH1 PUSH32 op = true -> n = Z.to_nat (byte_val op - byte_val PUSH1 + 1) ->
  (length e <= pos < length code)%nat -> (length code <= length e + k)%nat ->
  exists b' k', builds b' e k' /\ (n <= 2 * (k' + length e - pos))%nat /\ (k <= k')%nat
    /\ (pos + n + 1 <= length code -> n + 1 <= k')%nat
    /\ appendPush b pos code n = emit b' (translatePush op (immediate code pos n)).
Proof.
  intros Hb Hop Hn He Hk. unfold op_in, op_le in Hop. b2p. change (byte_val PUSH1) with 96 in *.
  change (byte_val PUSH32) with 127 in *.
  destruct (pushData_ok b e k code pos n Hb He Hk) as (b' & k' & rest & Hp & Hb' & Hs); [lia|].
  exists b', k'. split; [done|]. destruct Hs as (? & ? & ?). split_and!; [done..|].
  unfold appendPush. rewrite Hp. pose proof (immediate_length code pos n) as Hl.
  clear Hp. revert Hl. generalize (immediate code pos n). intros d Hl. destruct (n =? 1)%nat eqn:E.
  - apply Nat.eqb_eq in E. destruct d as [|d0 [|d1 d]]; cbn in Hl; try lia. cbn [app lookup list_lookup mbind option_bind].
    assert (op = PUSH1) as ->. { apply byte_val_inj. change (byte_val PUSH1) with 96. lia. }
    unfold translatePush. cbn [packs map emit opcode arg].
    destruct (appendOp b' (Base PUSH1) (high d0)) as [b2|]; [|done]. rewrite E. done.
  - apply Nat.eqb_neq in E. destruct d as [|d0 [|d1 d]]; cbn in Hl; try lia.
    cbn [app lookup list_lookup mbind option_bind].
    replace (toOpCode (byte_val PUSH1 + Z.of_nat (n - 1))) with (Base op).
    2: { rewrite <-(toOpCode_val (Base op)) by done. f_equal. change (byte_val PUSH1) with 96. cbn. lia. }
    unfold translatePush. cbn [packs map emit opcode arg].
    destruct (appendOp b' (Base op) (pack d0 d1)) as [b2|]; [|done]. cbn [mbind option_bind].
    change (packs d) with (packs (drop 2 (d0 :: d1 :: d))).
    apply (appendPairs_emit n n (d0 :: d1 :: d) rest 2 b2); cbn; lia.
Qed.

(** ** The conversion *)

Lemma translatePush_length op d : length (translatePush op d) = length (packs d).
Proof. unfold translatePush. destruct (packs d); cbn; [done|]. by rewrite length_map. Qed.

Lemma translateOp_size code pos op l n : translateOp code pos op = (l, n) ->
  (1 <= length l <= n + 1)%nat.
Proof.
  unfold translateOp. case_if; [intros [= <- <-]; cbn; lia|].
  destruct (op_in PUSH1 PUSH32 op) eqn:Hp; intros [= <- <-]; [|cbn; lia].
  rewrite translatePush_length. set (m := Z.to_nat _).
  assert (1 <= m)%nat. { unfold op_in, op_le in Hp. b2p. unfold m. lia. }
  pose proof (packs_length (immediate code pos m)). rewrite immediate_length in *. lia.
Qed.

Lemma translate_size code si pos l n : translate code si pos l n -> (1 <= length l <= n + 1)%nat.
Proof.
  destruct 1 as [op l n _ H|l n _ H]; [by eapply translateOp_size|].
  apply super_size in H. lia.
Qed.

Section Convert.
Context (code : Code) (si : bool) (Hsize : zlen code <= MaxUint16).

Lemma emit_room b e k l : builds b e k -> (length l <= k)%nat ->
  exists b', emit b l = Some b' /\ builds b' (e ++ l) (k - length l).
Proof.
  intros Hb Hl. apply (emit_builds l b e (k - length l)). by replace (length l + _)%nat with k by lia.
Qed.

(** An instruction other than [JUMPDEST]. *)
Lemma appendInstructions_ok b e k pos op : builds b e k -> code !! pos = Some op ->
  (length e <= pos)%nat -> (length code <= length e + k)%nat ->
  exists l n b' k', translate code si pos l n /\ appendInstructions b pos code si = Some (b', n)
    /\ builds b' (e ++ l) k' /\ (length code <= length (e ++ l) + k')%nat.
Proof.
  intros Hb Hop He Hk. pose proof (lookup_lt_Some _ _ _ Hop) as Hlt.
  unfold appendInstructions.
  assert ((if si then appendSuperInstructions b pos code else Some (b, 0%nat)) = Some (b, 0%nat)
    \/ exists l n, si = true /\ super (drop pos code) l n
       /\ (if si then appendSuperInstructions b pos code else Some (b, 0%nat))
          = (b' ← emit b l; Some (b', n))) as [->|(l & n & Hsi & Hs & ->)].
  { destruct si; [|by left]. replace k with (S (k - 1)) in Hb by lia.
    destruct (appendSuperInstructions_ok b e (k - 1) Hb pos code) as [->|(l & n & Hs & ->)]; [by left|].
    right. by exists l, n. }
  - cbn [mbind option_bind]. rewrite Hop. cbn [mbind option_bind]. change (0 <? 0)%nat with false. cbv iota.
    destruct (translateOp code pos op) as [l n] eqn:Et. pose proof (translateOp_size _ _ _ _ _ Et) as Hs.
    exists l, n. unfold translateOp in Et.
    assert (translate code si pos l n) as Ht by (by apply translate_op with op).
    destruct (Byte.eqb op PC) eqn:Hpc.
    + injection Et as <- <-. assert (Z.of_nat pos >? MaxUint16 = false) as ->.
      { rewrite Z.gtb_ltb. apply Z.ltb_ge. zblia. }
      unfold u16. rewrite wrapU_id by (unfold MaxUint16 in *; zblia).
      destruct (emit_room b e k [mkInstruction (Base PC) (Z.of_nat pos)] Hb) as (b' & Hem & Hb'); [cbn in *; lia|].
      cbn in Hem. destruct (appendOp b (Base PC) (Z.of_nat pos)) as [b2|]; [|done]. injection Hem as ->.
      exists b', (k - 1)%nat. split_and!; [done..|]. rewrite length_app. cbn in *. lia.
    + destruct (op_in PUSH1 PUSH32 op) eqn:Hp; injection Et as <- <-.
      * destruct (appendPush_emit b e k code pos op _ Hb Hp eq_refl) as (b' & k' & Hb' & H1 & H2 & H3 & ->); [lia..|].
        set (m := Z.to_nat _) in *.
        pose proof (packs_length (immediate code pos m)) as Hpl. rewrite immediate_length in Hpl.
        destruct (emit_room b' e k' (translatePush op (immediate code pos m)) Hb') as (b2 & -> & Hb2).
        { rewrite translatePush_length. clear -Hpl H1 He. lia. }
        eexists _, _. split_and!; [done..|exact Hb2|]. rewrite length_app, translatePush_length.
        clear -Hpl H1 H2 Hk He. lia.
      * replace k with (S (k - 1)) in Hb by lia. rewrite (appendCode_emit b e (k - 1) _ Hb).
        destruct (emit_room b e _ [mkInstruction (Base op) 0] Hb) as (b' & -> & Hb'); [cbn in *; lia|].
        eexists _, _. split_and!; [done..|exact Hb'|]. rewrite length_app. cbn in *. lia.
  - pose proof (super_size _ _ _ Hs) as [Hl Hn]. rewrite length_drop in Hn.
    destruct (emit_room b e k l Hb) as (b' & -> & Hb'); [lia|]. cbn [mbind option_bind].
    rewrite (proj2 (Nat.ltb_lt 0 n)) by lia.
    exists l, n, b', (k - length l)%nat. split; [by apply translate_super|]. split_and!; [done..|].
    rewrite length_app. lia.
Qed.

Lemma convert_loop_ok fuel : forall i b e k, builds b e k -> (length e <= i)%nat ->
  (length code <= length e + k)%nat -> (length code <= i + fuel)%nat ->
  exists b' l tr k', convert_loop fuel code si i b = Some (b', tr)
    /\ layout code si i (length e) l tr /\ builds b' (e ++ l) k'.
Proof.
  induction fuel as [|fuel IH]; intros i b e k Hb He Hk Hf; cbn [convert_loop];
    destruct (Nat.ltb_spec i (length code)) as [Hi|Hi]; try lia.
  1, 3: exists b, [], [], k; rewrite app_nil_r; split_and!; [done|by constructor|done].
  destruct (lookup_lt_is_Some_2 code i Hi) as [op Hop]. rewrite Hop. cbn [mbind option_bind].
  destruct (Byte.eqb op JUMPDEST) eqn:Hjd.
  - apply Byte.byte_dec_bl in Hjd as ->.
    assert (exists b1 k1, (b1 ← (if (b_length b <? i)%nat then appendOp b JUMP_TO (u16 (Z.of_nat i)) else Some b);
        padNoOpsUntil b1 i) = Some b1 /\ builds b1 (e ++ gap (length e) i) (S k1)
        /\ length (e ++ gap (length e) i) = i /\ (length code <= i + S k1)%nat) as (b1 & k1 & Hp & Hb1 & Hl1 & Hk1).
    { unfold b_length. pose proof Hb as [_ Hn]. rewrite Hn. unfold gap.
      unfold u16. rewrite wrapU_id by (unfold MaxUint16 in *; zblia).
      destruct (Nat.ltb_spec (length e) i) as [Hj|Hj].
      - set (jt := mkInstruction JUMP_TO (Z.of_nat i)). set (m := (i - length e - 1)%nat).
        destruct (emit_room b e k [jt] Hb) as (b1 & Hem & Hb1); [cbn; lia|]. cbn in Hem.
        destruct (appendOp b JUMP_TO (Z.of_nat i)) as [b2|]; [|done]. injection Hem as ->. cbn [mbind option_bind].
        replace (k - length [jt])%nat with (m + S (k - m - 2))%nat in Hb1 by (cbn; lia).
        destruct (padNoOpsUntil_builds b1 _ _ _ Hb1) as (b2 & Hpad & Hb2).
        rewrite length_app in Hpad. cbn in Hpad. replace (length e + 1 + m)%nat with i in Hpad by lia.
        exists b2, (k - m - 2)%nat. rewrite <-(assoc_L (++)) in Hb2. cbn in Hb2. split_and!; [done..| |lia].
        rewrite length_app. cbn. rewrite length_replicate. lia.
      - assert (i = length e) as -> by lia. cbn [mbind option_bind].
        destruct (padNoOpsUntil_builds b e 0 k Hb) as (b2 & Hpad & Hb2). rewrite Nat.add_0_r in Hpad.
        exists b2, (k - 1)%nat. replace (S (k - 1)) with k by lia. split_and!; [done..| |lia].
        by rewrite app_nil_r. }
    assert ((res ← (if (b_length b <? i)%nat then appendOp b JUMP_TO (u16 (Z.of_nat i)) else Some b);
      res ← padNoOpsUntil res i; res ← appendCode res (Base JUMPDEST);
      '(res, obs) ← convert_loop fuel code si (i + 1) res; Some (res, (i, i) :: obs))
      = (res ← appendCode b1 (Base JUMPDEST);
         '(res, obs) ← convert_loop fuel code si (i + 1) res; Some (res, (i, i) :: obs))) as ->.
    { destruct (if (b_length b <? i)%nat then _ else _) as [b0|]; [|done]. cbn [mbind option_bind] in *.
      by rewrite Hp. }
    destruct (appendCode_builds b1 _ k1 (Base JUMPDEST) Hb1) as (b2 & -> & Hb2). cbn [mbind option_bind].
    destruct (IH (i + 1)%nat b2 _ k1 Hb2) as (b3 & l & tr & k3 & -> & Hlay & Hb3).
    { rewrite length_app, Hl1. cbn. lia. }
    { rewrite length_app, Hl1. cbn. lia. }
    { lia. }
    rewrite length_app, Hl1 in Hlay. cbn [length] in Hlay.
    eexists _, _, _, k3. split_and!; [done|by apply layout_dest|].
    by rewrite <-!(assoc_L (++)) in Hb3.
  - assert (op <> JUMPDEST) as Hne by (intros ->; by rewrite Byte.byte_dec_lb in Hjd).
    destruct (appendInstructions_ok b e k i op Hb Hop He Hk) as (x & n & b1 & k1 & Ht & -> & Hb1 & Hk1).
    cbn [mbind option_bind]. pose proof (translate_size _ _ _ _ _ Ht) as Hs.
    destruct (IH (i + n + 1)%nat b1 _ k1 Hb1) as (b3 & l & tr & k3 & -> & Hlay & Hb3);
      [rewrite length_app; lia|done|lia|]. rewrite length_app in Hlay.
    pose proof Hb as [_ ->]. eexists _, _, _, k3. split_and!; [done|by eapply layout_op|].
    by rewrite <-(assoc_L (++)) in Hb3.
Qed.

(** The conversion does not panic and gives the layout. *)
Lemma convert_ok options : WithSuperInstructions options = si ->
  exists res tr, convertWithObserver code options = Some (res, tr)
    /\ convert code options = Some res /\ layout code si 0 0 res tr.
Proof.
  intros Ho. unfold convert, convertWithObserver. rewrite Ho.
  destruct (convert_loop_ok (length code) 0 (newCodeBuilder (length code)) [] (length code))
    as (b' & l & tr & k & -> & Hlay & [Hc Hn]); [by split|cbn; lia..|]. cbn [mbind option_bind app] in *.
  unfold toCode. rewrite Hn, Hc, (proj2 (Nat.leb_le _ _)) by (rewrite length_app; lia).
  rewrite take_app_length. cbn [mbind option_bind]. by exists l, tr.
Qed.

End Convert.

(** ** Jump destinations *)

(** Decoding from [i] on meets a [JUMPDEST] at [d]. *)
Definition dest_from (code : Code) (i d : nat) : Prop :=
  steps_to code (Z.of_nat i) (Z.of_nat d) /\ code !! d = Some JUMPDEST.

Definition width (op : OpCode) : nat := Z.to_nat (Width op).

Lemma dest_from_unfold code i op d : code !! i = Some op ->
  dest_from code i d <-> (d = i /\ op = JUMPDEST) \/ dest_from code (i + width op) d.
Proof.
  intros Hop. pose proof (steps_to_unfold code (Z.of_nat i) op (Z.of_nat d)) as H.
  rewrite !Nat2Z.id in H. specialize (H Hop). unfold dest_from, width. pose proof (Width_range op).
  rewrite Nat2Z.inj_add, Z2Nat.id by lia. rewrite H. by rewrite (inj_iff Z.of_nat).
Qed.

Lemma dest_from_skip code i op d : code !! i = Some op -> op <> JUMPDEST ->
  dest_from code i d <-> dest_from code (i + width op) d.
Proof. intros Hop Hne. rewrite (dest_from_unfold code i op) by done. tauto. Qed.

Lemma dest_from_end code i d : (length code <= i)%nat -> ~ dest_from code i d.
Proof.
  intros Hi [Hs Hd]. pose proof (lookup_lt_Some _ _ _ Hd).
  inversion Hs as [i' E1 E2|i' op j Hop _ E1 E2]; subst; [lia|].
  apply lookup_lt_Some in Hop. lia.
Qed.

Lemma dest_from_ge code i d : dest_from code i d -> (i <= d)%nat.
Proof.
  intros [Hs _]. apply Nat2Z.inj_le. revert Hs. generalize (Z.of_nat i) (Z.of_nat d). intros a b Hs.
  induction Hs as [|a op b _ _ IH]; [lia|]. pose proof (Width_range op). lia.
Qed.

(** The op codes a super instruction stands for, one after the other from
    [i] on: none is a [JUMPDEST]. *)
Lemma super_skip code i l n d : super (drop i code) l n ->
  dest_from code i d <-> dest_from code (i + n + 1) d.
Proof.
  intros Hs. assert (forall k, code !! (i + k)%nat = drop i code !! k) as Hat by (intros; by rewrite lookup_drop).
  inversion Hs as
    [a0 a1 a2 a3 a4 r E E1 E2|a0 a1 a2 r E E1 E2|r E E1 E2|a0 a1 r E E1 E2|r E E1 E2|r E E1 E2|r E E1 E2
    |a0 a1 r E E1 E2|a0 a1 r E E1 E2|a0 a1 r E E1 E2|a0 r E E1 E2|a0 r E E1 E2|a0 r E E1 E2|r E E1 E2|r E E1 E2
    |r E E1 E2|r E E1 E2|r E E1 E2|r E E1 E2|r E E1 E2]; rewrite <-E in Hat; clear Hs E E1 E2;
  rewrite <-(Nat.add_0_r i) at 1;
  repeat match goal with
  | |- dest_from _ (i + ?k) _ <-> dest_from _ (i + ?m + 1) _ =>
      tryif (unify k (m + 1)%nat) then (rewrite <-Nat.add_assoc; done)
      else (rewrite (dest_from_skip code (i + k) _ d (Hat k)) by done; rewrite <-(Nat.add_assoc i k);
            match goal with |- dest_from _ (i + ?e) _ <-> _ => let e' := eval vm_compute in e in change e with e' end)
  end.
Qed.

Lemma translateOp_width code i op l n : translateOp code i op = (l, n) -> width op = (n + 1)%nat.
Proof.
  intros Ht. unfold translateOp in Ht. unfold width, Width. destruct (Byte.eqb op PC) eqn:Hpc.
  { apply Byte.byte_dec_bl in Hpc as ->. injection Ht as <- <-. cbn. lia. }
  destruct (op_in PUSH1 PUSH32 op) eqn:Hp; injection Ht as <- <-; [|lia].
  unfold op_in, op_le in Hp. b2p. change (byte_val PUSH1) with 96 in *. lia.
Qed.

Lemma translate_skip code si i op l n d : code !! i = Some op -> op <> JUMPDEST -> translate code si i l n ->
  dest_from code i d <-> dest_from code (i + n + 1) d.
Proof.
  intros Hop Hne Ht. destruct Ht as [op' l n Hop' Ht|l n _ Ht]; [|by apply (super_skip _ _ l)].
  rewrite Hop in Hop'. injection Hop' as <-. rewrite (dest_from_skip code i op d) by done.
  by rewrite (translateOp_width _ _ _ _ _ Ht), Nat.add_assoc.
Qed.

(** ** Positions *)

(** The long-form code [res] continues at [j] as the code does at [i], with the
    pairs [tr] of positions the conversion still reports. *)
Definition continues (code : Code) (si : bool) (res : LCode) (i j : nat) (tr : list (nat * nat)) : Prop :=
  exists pre l tr0, res = pre ++ l /\ length pre = j /\ layout code si i j l tr
    /\ layout code si 0 0 res (tr0 ++ tr).

Definition at_pos (code : Code) (si : bool) (res : LCode) (i j : nat) : Prop :=
  exists tr, continues code si res i j tr.

Definition no_dest (l : LCode) : Prop := Forall (fun x => opcode x <> Base JUMPDEST) l.

Lemma translate_no_dest code si i op l n : code !! i = Some op -> op <> JUMPDEST ->
  translate code si i l n -> no_dest l.
Proof.
  intros Hop Hne [op' l' n' Hop' Ht|l' n' _ Ht].
  - rewrite Hop in Hop'. injection Hop' as <-. unfold translateOp in Ht.
    destruct (Byte.eqb op PC); [injection Ht as <- <-; by repeat constructor|].
    destruct (op_in PUSH1 PUSH32 op); injection Ht as <- <-.
    + unfold translatePush. destruct (packs _) as [|a p]; [constructor|].
      constructor; cbn; [congruence|]. apply Forall_map, Forall_forall. done.
    + repeat constructor. cbn. congruence.
  - destruct Ht; repeat constructor; cbn; done.
Qed.

Lemma gap_no_dest j i : no_dest (gap j i).
Proof.
  unfold gap. destruct (j <? i)%nat; [|constructor]. constructor; [done|]. by apply Forall_replicate.
Qed.

Lemma gap_length j i : (j <= i)%nat -> length (gap j i) = (i - j)%nat.
Proof.
  intros Hj. unfold gap. destruct (Nat.ltb_spec j i); [|cbn; lia]. cbn. rewrite length_replicate. lia.
Qed.

Lemma no_dest_app x l k i : no_dest x -> (x ++ l) !! k = Some i -> opcode i = Base JUMPDEST ->
  (length x <= k)%nat /\ l !! (k - length x)%nat = Some i.
Proof.
  intros Hx Hk Hi. apply lookup_app_Some in Hk as [Hk|]; [|done].
  by apply (Forall_lookup_1 _ _ _ _ Hx Hk) in Hi.
Qed.

(** The jump destinations of the long form are those of the code. *)
Lemma layout_dest_iff code si i j l tr : layout code si i j l tr -> forall d, (j <= d)%nat ->
  dest_from code i d <-> exists x, l !! (d - j)%nat = Some x /\ opcode x = Base JUMPDEST.
Proof.
  induction 1 as [i j Hi|i j l tr Hop Hj Hlay IH|i j op x n l tr Hop Hne Hj Ht Hlay IH]; intros d Hd.
  - split; [intros H; by apply dest_from_end in H|]. intros (x & Hx & _). done.
  - rewrite (dest_from_unfold code i _ d Hop). change (width JUMPDEST) with 1%nat. split.
    + intros [[-> _]|Hdf].
      * exists (mkInstruction (Base JUMPDEST) 0). split; [|done].
        rewrite lookup_app_r; rewrite gap_length by done; [|lia]. by rewrite Nat.sub_diag.
      * assert (i + 1 <= d)%nat as Hid by by apply dest_from_ge in Hdf.
        apply (IH d Hid) in Hdf as (x & Hx & Hox). exists x. split; [|done].
        rewrite lookup_app_r; rewrite gap_length by done; [|lia].
        replace (d - j - (i - j))%nat with (S (d - (i + 1))) by lia. done.
    + intros (x & Hx & Hox). apply (no_dest_app _ _ _ _ (gap_no_dest j i)) in Hx as [Hge Hx]; [|done].
      rewrite gap_length in Hge, Hx by done.
      destruct (decide (d = i)) as [->|Hn]; [by left|right]. apply IH; [lia|]. exists x. split; [|done].
      by replace (d - j - (i - j))%nat with (S (d - (i + 1))) in Hx by lia.
  - rewrite (translate_skip code si i op x n d Hop Hne Ht). split.
    + intros Hdf. assert (j + length x <= d)%nat as Hid.
      { pose proof (translate_size _ _ _ _ _ Ht). apply dest_from_ge in Hdf. lia. }
      apply (IH d Hid) in Hdf as (y & Hy & Hoy). exists y. split; [|done].
      rewrite lookup_app_r by lia. by replace (d - j - length x)%nat with (d - (j + length x))%nat by lia.
    + intros (y & Hy & Hoy).
      apply (no_dest_app _ _ _ _ (translate_no_dest _ _ _ _ _ _ Hop Hne Ht)) in Hy as [Hge Hy]; [|done].
      apply IH; [lia|]. exists y. split; [|done].
      by replace (d - (j + length x))%nat with (d - j - length x)%nat by lia.
Qed.

(** The cases of a position: the end of both codes, a jump destination (where
    the long form may still have to skip to), or an instruction. *)
Inductive pos_case (code : Code) (si : bool) (res : LCode) (i j : nat) : Prop :=
| pos_end : (length code <= i)%nat -> j = length res -> pos_case code si res i j
| pos_skip x : code !! i = Some JUMPDEST -> (j < i)%nat -> res !! j = Some x ->
    x = mkInstruction JUMP_TO (Z.of_nat i) -> at_pos code si res i i -> pos_case code si res i j
| pos_dest : code !! i = Some JUMPDEST -> j = i ->
    res !! i = Some (mkInstruction (Base JUMPDEST) 0) ->
    at_pos code si res (i + 1) (i + 1) -> pos_case code si res i j
| pos_op op x n rest : code !! i = Some op -> op <> JUMPDEST -> translate code si i x n ->
    drop j res = x ++ rest -> at_pos code si res (i + n + 1) (j + length x) -> pos_case code si res i j.

(** After a jump destination, and after an instruction. *)
Lemma continues_dest code si pre i j l tr0 tr : code !! i = Some JUMPDEST -> (j <= i)%nat -> length pre = j ->
  layout code si (i + 1) (i + 1) l tr ->
  layout code si 0 0 (pre ++ gap j i ++ mkInstruction (Base JUMPDEST) 0 :: l) (tr0 ++ (i, i) :: tr) ->
  let res := pre ++ gap j i ++ mkInstruction (Base JUMPDEST) 0 :: l in
  continues code si res i i ((i, i) :: tr) /\ continues code si res (i + 1) (i + 1) tr.
Proof.
  intros Hop Hj Hl Hlay Hall res. split.
  - exists (pre ++ gap j i), (mkInstruction (Base JUMPDEST) 0 :: l), tr0.
    split_and!; [by rewrite <-(assoc_L (++))|rewrite length_app, gap_length; lia| |done].
    assert (gap i i = []) as Hg by (unfold gap; by rewrite Nat.ltb_irrefl).
    pose proof (layout_dest code si i i l tr Hop (le_n i) Hlay) as H. by rewrite Hg in H.
  - exists (pre ++ gap j i ++ [mkInstruction (Base JUMPDEST) 0]), l, (tr0 ++ [(i, i)]).
    split_and!; [unfold res; by rewrite <-!(assoc_L (++))|rewrite !length_app, gap_length by done; cbn; lia|done|].
    by rewrite <-(assoc_L (++)).
Qed.

Lemma continues_op code si pre i j x n l tr0 tr : length pre = j ->
  layout code si (i + n + 1) (j + length x) l tr ->
  layout code si 0 0 (pre ++ x ++ l) (tr0 ++ (i, j) :: tr) ->
  continues code si (pre ++ x ++ l) (i + n + 1) (j + length x) tr.
Proof.
  intros Hl Hlay Hall. exists (pre ++ x), l, (tr0 ++ [(i, j)]).
  split_and!; [by rewrite <-(assoc_L (++))|rewrite length_app; lia|done|by rewrite <-(assoc_L (++))].
Qed.

Lemma at_pos_cases code si res i j : at_pos code si res i j -> pos_case code si res i j.
Proof.
  intros (tr & pre & l & tr0 & -> & Hl & Hlay & Hall).
  destruct Hlay as [i j Hi|i j l tr Hop Hj Hlay|i j op x n l tr Hop Hne Hj Ht Hlay].
  - apply pos_end; [done|]. by rewrite app_nil_r.
  - destruct (continues_dest code si pre i j l tr0 tr) as [H1 H2]; [done..|].
    destruct (Nat.ltb_spec j i) as [Hlt|Hge].
    + eapply pos_skip; [done|done| |done|by exists ((i, i) :: tr)].
      unfold gap. rewrite lookup_app_r, Hl, Nat.sub_diag, (proj2 (Nat.ltb_lt j i)) by lia. done.
    + assert (j = i) as -> by lia. apply pos_dest; [done|done| |by exists tr].
      unfold gap. rewrite lookup_app_r, Hl, Nat.sub_diag, Nat.ltb_irrefl by lia. done.
  - apply pos_op with op x n l; [done..| |].
    + rewrite drop_app_length' by done. done.
    + exists tr. by eapply continues_op.
Qed.

Lemma at_pos_start code si res tr : layout code si 0 0 res tr -> at_pos code si res 0 0.
Proof. intros H. by exists tr, [], res, []. Qed.

(** A jump arrives at the same position in both codes. *)
Lemma at_pos_dest code si res i j d : at_pos code si res i j -> dest_from code i d -> at_pos code si res d d.
Proof.
  intros (tr & pre & l & tr0 & -> & Hl & Hlay & Hall). revert pre tr0 Hl Hall.
  induction Hlay as [i j Hi|i j l tr Hop Hj Hlay IH|i j op x n l tr Hop Hne Hj Ht Hlay IH];
    intros pre tr0 Hl Hall Hd.
  - by apply dest_from_end in Hd.
  - destruct (continues_dest code si pre i j l tr0 tr) as [H1 _]; [done..|].
    apply (dest_from_unfold code i _ d Hop) in Hd as [[-> _]|Hd]; [by eexists|].
    specialize (IH (pre ++ gap j i ++ [mkInstruction (Base JUMPDEST) 0]) (tr0 ++ [(i, i)])).
    rewrite <-!(assoc_L (++)) in IH. apply IH; [|done..]. rewrite !length_app, gap_length by done. cbn. lia.
  - apply (translate_skip code si i op x n d Hop Hne Ht) in Hd.
    specialize (IH (pre ++ x) (tr0 ++ [(i, j)])). rewrite <-!(assoc_L (++)) in IH.
    apply IH; [rewrite length_app; lia|done..].
Qed.

(** ** Pairs of positions *)

(** Where a position continues, the next pair is this position, or that of the
    jump destination the long form skips to. *)
Lemma at_pos_pair code si res i j : at_pos code si res i j -> (i < length code)%nat ->
  exists tr, layout code si 0 0 res tr /\
    ((i, j) ∈ tr \/ (res !! j = Some (mkInstruction JUMP_TO (Z.of_nat i)))).
Proof.
  intros (tr & pre & l & tr0 & -> & Hl & Hlay & Hall) Hi. exists (tr0 ++ tr). split; [done|].
  destruct Hlay as [i j Hge|i j l tr Hop Hj Hlay|i j op x n l tr Hop Hne Hj Ht Hlay]; [lia| |].
  - destruct (Nat.ltb_spec j i) as [Hlt|Hge].
    + right. unfold gap. rewrite lookup_app_r, Hl, Nat.sub_diag, (proj2 (Nat.ltb_lt j i)) by lia. done.
    + assert (j = i) as -> by lia. left. apply elem_of_app. right. by left.
  - left. apply elem_of_app. right. by left.
Qed.

(** The positions of the observer are positions of instructions, and agree
    with the layout: none is that of a skip. They increase. *)
Lemma layout_pairs code si i j l tr : layout code si i j l tr -> forall pre tr0 p q, length pre = j ->
  layout code si 0 0 (pre ++ l) (tr0 ++ tr) -> (p, q) ∈ tr ->
  at_pos code si (pre ++ l) p q /\ (i <= p < length code)%nat /\ (j <= q < j + length l)%nat
  /\ (code !! p = Some JUMPDEST -> q = p).
Proof.
  induction 1 as [i j Hi|i j l tr Hop Hj Hlay IH|i j op x n l tr Hop Hne Hj Ht Hlay IH];
    intros pre tr0 p q Hl Hall Hin.
  - by apply not_elem_of_nil in Hin.
  - pose proof (lookup_lt_Some _ _ _ Hop). rewrite length_app, gap_length by done. cbn [length].
    destruct (continues_dest code si pre i j l tr0 tr) as [H1 _]; [done..|].
    apply elem_of_cons in Hin as [[= -> ->]|Hin]; [split; [by eexists|]; split_and!; done || lia|].
    destruct (IH (pre ++ gap j i ++ [mkInstruction (Base JUMPDEST) 0]) (tr0 ++ [(i, i)]) p q) as (Hat & ? & ? & ?).
    { rewrite !length_app, gap_length by done. cbn. lia. } { by rewrite <-!(assoc_L (++)). } { done. }
    rewrite <-!(assoc_L (++)) in Hat. split_and!; done || lia.
  - pose proof (lookup_lt_Some _ _ _ Hop). rewrite length_app. pose proof (translate_size _ _ _ _ _ Ht).
    apply elem_of_cons in Hin as [[= -> ->]|Hin].
    + split; [|split_and!; try lia; congruence]. eexists ((i, j) :: tr), pre, (x ++ l), tr0.
      split_and!; [done..|by eapply layout_op|done].
    + destruct (IH (pre ++ x) (tr0 ++ [(i, j)]) p q) as (Hat & ? & ? & ?).
      { rewrite length_app; lia. } { by rewrite <-!(assoc_L (++)). } { done. }
      rewrite <-(assoc_L (++)) in Hat. split_and!; done || lia.
Qed.
