(* ===== verification/LfvmContext.v ===== *)
(** * The execution context of the long-form interpreter

    [context], [useGas] and [isAtLeast] of
    [go/interpreter/lfvm/interpreter.go]. The context differs from that of
    [sfvm] in its code, which is in long form, and has no jump analysis.

    [stack.go], [memory.go], [hash_cache.go], [errors.go] and most of
    [instructions.go] of [lfvm] are copies of the files of [sfvm], equal up to
    the package name. Such an operation is the one of [sfvm] on the fields the
    two contexts share ([shared]). *)
From Stdlib Require Import ZArith Lia Strings.Byte.
From stdpp Require Import base list numbers.
From S2P Require Import Prelude Uint256 Types OpCodes SfvmStack SfvmAnalysis SfvmHashCache.
From S2P Require Import SfvmContext SfvmMemory LfvmOpCodes LfvmConverter.
Set Default Goal Selector "!".
Local Open Scope Z_scope.
Local Open Scope go_scope.

Section LContext.
Context {W : Type} {U : Uint256}.

Record lcontext := mkLContext {
  l_params : Parameters;
  l_context : W;
  l_code : LCode;
  l_pc : Z;
  l_gas : Gas;
  l_refund : Gas;
  l_stack : stack;
  l_memory : Memory;
  l_returnData : Data;
  l_withShaCache : bool
}.

Definition l_set_pc (pc : Z) (c : lcontext) : lcontext :=
  mkLContext (l_params c) (l_context c) (l_code c) pc (l_gas c) (l_refund c) (l_stack c)
    (l_memory c) (l_returnData c) (l_withShaCache c).

Definition l_set_gas (g : Gas) (c : lcontext) : lcontext :=
  mkLContext (l_params c) (l_context c) (l_code c) (l_pc c) g (l_refund c) (l_stack c)
    (l_memory c) (l_returnData c) (l_withShaCache c).

Definition l_set_stack (s : stack) (c : lcontext) : lcontext :=
  mkLContext (l_params c) (l_context c) (l_code c) (l_pc c) (l_gas c) (l_refund c) s
    (l_memory c) (l_returnData c) (l_withShaCache c).

(** ** Computations *)

Definition LM (A : Type) : Type := lcontext -> outcome A * lcontext.

#[global] Instance LM_ret : MRet LM := fun A a c => (Ok a, c).

#[global] Instance LM_bind : MBind LM := fun A B f m c =>
  match m c with
  | (Ok a, c) => f a c
  | (Err e, c) => (Err e, c)
  | (Panic, c) => (Panic, c)
  end.

Definition l_fail {A} (e : vmError) : LM A := fun c => (Err e, c).

Definition l_panic {A} : LM A := fun c => (Panic, c).

Definition l_gets {A} (f : lcontext -> A) : LM A := fun c => (Ok (f c), c).

Definition l_modify (f : lcontext -> lcontext) : LM unit := fun c => (Ok tt, f c).

Definition l_lift_option {A} (o : option A) : LM A :=
  match o with Some a => mret a | None => l_panic end.

(** ** The part shared with [sfvm] *)

Definition noJumpDests : jumpDestMap := mkJumpDestMap [] 0.

Definition toSfvm (c : lcontext) : context W :=
  mkContext (l_params c) (l_context c) [] noJumpDests (l_pc c) (l_gas c) (l_refund c)
    (l_stack c) (l_memory c) (l_returnData c) (l_withShaCache c).

Definition fromSfvm (code : LCode) (c : context W) : lcontext :=
  mkLContext (c_params c) (c_context c) code (c_pc c) (c_gas c) (c_refund c)
    (c_stack c) (c_memory c) (c_returnData c) (c_withShaCache c).

Definition shared {A} (m : M W A) : LM A := fun c =>
  let '(r, s) := m (toSfvm c) in (r, fromSfvm (l_code c) s).

(** ** Gas and revisions *)

Definition l_useGas (amount : Gas) : LM unit :=
  gas ← l_gets l_gas;
  if (gas <? 0) || (amount <? 0) || (gas <? amount) then l_fail errOutOfGas
  else l_modify (l_set_gas (gas -i64 amount)).

Definition l_revision (c : lcontext) : Revision := bp_Revision (p_Block (l_params c)).

Definition l_isAtLeast (r : Revision) (c : lcontext) : bool := l_revision c >=? r.

(** ** Stack and memory *)

Definition l_pop : LM u256 := shared pop.

Definition l_peek : LM u256 := shared peek.

Definition l_peekN (n : Z) : LM u256 := shared (peekN n).

Definition l_pushUndefined : LM unit := shared pushUndefined.

(** A write through the pointer [peek] or [pushUndefined] returns. *)
Definition l_setTop (v : u256) : LM unit := shared (setTop v).

(** A write through the pointer [peekN(n)] returns. *)
Definition l_setN (n : Z) (v : u256) : LM unit :=
  s ← l_gets l_stack;
  s ← l_lift_option (st_write s (st_len s - n - 1) v);
  l_modify (l_set_stack s).

(** [c.stack.stackPointer += d]. *)
Definition l_movePointer (d : Z) : LM unit :=
  s ← l_gets l_stack; l_modify (l_set_stack (mkStack (st_data s) (st_stackPointer s + d))).

Definition l_mem_set (offset : u256) (value : list byte) : LM unit := shared (mem_set offset value).

(** ** The code *)

(** [c.code[i]]. *)
Definition l_code_at (i : Z) : LM Instruction :=
  c ← l_gets id; if i <? 0 then l_panic else l_lift_option (l_code c !! Z.to_nat i).

(** [c.code[c.pc : c.pc+n]]. The bound Go checks is the capacity of the slice,
    which may exceed its length; the conversion never leaves an instruction
    without its data, so that the two bounds do not differ in a run. *)
Definition l_code_slice (n : Z) : LM (list Instruction) :=
  c ← l_gets id;
  let hi := l_pc c +i32 n in
  if (l_pc c <? 0) || (hi <? l_pc c) || (zlen (l_code c) <? hi) then l_panic
  else mret (slice (l_code c) (l_pc c) hi).

End LContext.
Arguments lcontext : clear implicits.
Arguments LM : clear implicits.
