(* ===== verification/LfvmGas.v ===== *)
(** * Gas prices and stack limits of the long-form op codes

    [go/interpreter/lfvm/gas.go], [stack_usage.go] and the stack limits of
    [interpreter.go]. For EVM op codes the functions are copies of those of
    [sfvm]; a super instruction costs the sum of its parts and uses the stack
    as its parts do one after the other. *)
From Stdlib Require Import ZArith Lia Strings.Byte.
From stdpp Require Import base list numbers.
From S2P Require Import Prelude Uint256 Types OpCodes SfvmStack SfvmContext SfvmGas.
From S2P Require Import LfvmOpCodes LfvmContext.
Set Default Goal Selector "!".
Local Open Scope Z_scope.

(** [nat] arguments [depth] bound the recursion into the parts of a super
    instruction, which are EVM op codes. *)
Fixpoint staticGasPrice (depth : nat) (op : LOpCode) : Gas :=
  match op with
  | Base op => SfvmGas.getStaticGasPriceInternal op
  | JUMP_TO => 0
  | op =>
      match depth with
      | O => UNKNOWN_GAS_PRICE
      | S depth =>
          if isSuperInstruction op
          then fold_left (fun sum subOp => sum + staticGasPrice depth subOp) (decompose op) 0
          else UNKNOWN_GAS_PRICE
      end
  end.

Definition getStaticGasPriceInternal : LOpCode -> Gas := staticGasPrice 2.

Definition getBerlinGasPriceInternal (op : LOpCode) : Gas :=
  let gp := getStaticGasPriceInternal op in
  match op with
  | Base SLOAD | Base EXTCODECOPY | Base EXTCODESIZE | Base EXTCODEHASH | Base BALANCE
  | Base CALL | Base CALLCODE | Base STATICCALL | Base DELEGATECALL => 0
  | _ => gp
  end.

Definition static_gas_prices : opCodePropertyMap Gas :=
  newOpCodePropertyMap getStaticGasPriceInternal.

Definition static_gas_prices_berlin : opCodePropertyMap Gas :=
  newOpCodePropertyMap getBerlinGasPriceInternal.

Definition getStaticGasPrices (revision : Revision) : opCodePropertyMap Gas :=
  if revision >=? R09_Berlin then static_gas_prices_berlin else static_gas_prices.

(** ** Stack usage *)

Definition combineStackUsage (usages : list stackUsage) : stackUsage :=
  fold_left (fun res usage =>
    let from := su_from usage + su_delta res in
    let to := su_to usage + su_delta res in
    mkStackUsage
      (if from <? su_from res then from else su_from res)
      (if to >? su_to res then to else su_to res)
      (su_delta res + su_delta usage))
    usages (mkStackUsage 0 0 0).

Fixpoint stackUsageOf (depth : nat) (op : LOpCode) : stackUsage :=
  match op with
  | Base op => SfvmGas.computeStackUsage op
  | JUMP_TO => makeUsage 0 0
  | op =>
      match depth with
      | O => mkStackUsage 0 0 0
      | S depth =>
          if isSuperInstruction op
          then combineStackUsage (map (stackUsageOf depth) (decompose op))
          else mkStackUsage 0 0 0
      end
  end.

Definition computeStackUsage : LOpCode -> stackUsage := stackUsageOf 2.

Definition opStackLimits (op : LOpCode) : stackLimits :=
  let usage := computeStackUsage op in
  mkStackLimits (- su_from usage) (maxStackSize - su_to usage).

Definition _precomputedStackLimits : opCodePropertyMap stackLimits :=
  newOpCodePropertyMap opStackLimits.

Definition checkStackLimits {W} (stackLen : Z) (op : LOpCode) : LM W unit :=
  limits ← l_lift_option (property_get _precomputedStackLimits op);
  if stackLen <? sl_min limits then l_fail errStackUnderflow
  else if stackLen >? sl_max limits then l_fail errStackOverflow
  else mret tt.
