(* ===== verification/LfvmInstructions.v ===== *)
(** * The instructions of the long-form interpreter

    [go/interpreter/lfvm/instructions.go] and [super_instructions.go], one
    definition per function, in the order of the source. The functions that
    are copies of those of [sfvm] are these, on the shared part of the context;
    those that read the code or write the program counter are translated. *)
From Stdlib Require Import ZArith Lia Strings.Byte.
From stdpp Require Import base list numbers.
From S2P Require Import Prelude Uint256 Types OpCodes SfvmStack SfvmAnalysis SfvmHashCache.
From S2P Require Import SfvmContext SfvmMemory SfvmGas SfvmInstructions.
From S2P Require Import LfvmOpCodes LfvmConverter LfvmContext LfvmGas.
Set Default Goal Selector "!".
Local Open Scope Z_scope.
Local Open Scope go_scope.

(** The word with the given limbs, the most significant first, and a limb. *)
Definition of_limbs (z3 z2 z1 z0 : Z) : u256 :=
  of_Z (z3 * 2 ^ 192 + z2 * 2 ^ 128 + z1 * 2 ^ 64 + z0).

Definition limb (x : u256) (i : Z) : Z := Z.shiftr (uval x) (64 * i) mod 2 ^ 64.

Definition u8 (z : Z) : Z := wrapU 8 z.

Section LInstructions.
Context {W : Type} {U : Uint256} {RC : RunContext W} {G : Globals W}.
Context (Keccak256 : list byte -> Hash) (Keccak256For32byte : array 32 -> Hash).

Definition opStop : LM W status := shared SfvmInstructions.opStop.

Definition opEndWithResult : LM W unit := shared SfvmInstructions.opEndWithResult.

(** The argument of the instruction at the program counter. *)
Definition currentArg : LM W Z :=
  c ← l_gets id; i ← l_code_at (l_pc c); mret (arg i).

Definition opPc : LM W unit :=
  l_pushUndefined;; a ← currentArg; l_setTop (Int_SetUint64 a).

Definition checkJumpDest : LM W unit :=
  c ← l_gets id;
  let next := l_pc c +i32 1 in
  if next >=? zlen (l_code c) then l_fail errInvalidJump
  else
    i ← l_code_at next;
    if bool_decide (opcode i = Base JUMPDEST) then mret tt else l_fail errInvalidJump.

(** [c.pc = pc]. *)
Definition l_jump (pc : Z) : LM W unit := l_modify (l_set_pc pc).

Definition opJump : LM W unit :=
  destination ← l_pop;
  if negb (Int_IsUint64 destination) || (Int_Uint64 destination >? MaxInt32)
  then l_fail errInvalidJump
  else
    l_jump (i32 (Int_Uint64 destination) -i32 1);;
    checkJumpDest.

Definition opJumpi : LM W unit :=
  destination ← l_pop;
  condition ← l_pop;
  if negb (Int_IsZero condition) then
    if negb (Int_IsUint64 destination) || (Int_Uint64 destination >? MaxInt32)
    then l_fail errInvalidJump
    else
      l_jump (i32 (Int_Uint64 destination) -i32 1);;
      checkJumpDest
  else mret tt.

Definition opJumpTo : LM W unit :=
  a ← currentArg; l_jump (i32 a -i32 1).

Definition opPop : LM W unit := shared SfvmInstructions.opPop.

(** [c.pc += d]. *)
Definition l_skip (d : Z) : LM W unit :=
  c ← l_gets id; l_jump (l_pc c +i32 d).

(** The first [n] bytes packed in the arguments of [data]. *)
Fixpoint unpack (n : nat) (data : list Instruction) : list byte :=
  match n, data with
  | S (S n), i :: data => byte_of (Z.shiftr (arg i) 8) :: byte_of (arg i) :: unpack n data
  | S O, i :: _ => [byte_of (Z.shiftr (arg i) 8)]
  | _, _ => []
  end.

Definition opPush (n : nat) : LM W unit :=
  l_pushUndefined;;
  let num_instructions := Z.of_nat (n / 2 + n mod 2) in
  data ← l_code_slice num_instructions;
  l_setTop (Int_SetBytes (unpack n data));;
  l_skip (num_instructions - 1).

Definition opPush0 : LM W unit := shared SfvmInstructions.opPush0.

Definition opPush1 : LM W unit :=
  l_pushUndefined;;
  a ← currentArg;
  l_setTop (of_limbs 0 0 0 (Z.shiftr a 8)).

Definition opPush2 : LM W unit :=
  l_pushUndefined;;
  a ← currentArg;
  l_setTop (of_limbs 0 0 0 a).

(** [uint64(data[i].arg)]; an index out of range is a panic. *)
Definition arg_at (data : list Instruction) (i : nat) : LM W Z :=
  x ← l_lift_option (data !! i); mret (arg x).

Definition opPush3 : LM W unit :=
  l_pushUndefined;;
  data ← l_code_slice 2;
  a0 ← arg_at data 0; a1 ← arg_at data 1;
  l_setTop (of_limbs 0 0 0 (Z.lor (u64 (Z.shiftl a0 8)) (Z.shiftr a1 8)));;
  l_skip 1.

Definition opPush4 : LM W unit :=
  l_pushUndefined;;
  data ← l_code_slice 2;
  a0 ← arg_at data 0; a1 ← arg_at data 1;
  l_setTop (of_limbs 0 0 0 (Z.lor (u64 (Z.shiftl a0 16)) a1));;
  l_skip 1.

(** Four arguments from [i] on as a limb. *)
Definition limb_at (data : list Instruction) (i : nat) : LM W Z :=
  a0 ← arg_at data i; a1 ← arg_at data (i + 1); a2 ← arg_at data (i + 2); a3 ← arg_at data (i + 3);
  mret (Z.lor (Z.lor (Z.lor (u64 (Z.shiftl a0 48)) (u64 (Z.shiftl a1 32)))
                     (u64 (Z.shiftl a2 16))) a3).

Definition opPush32 : LM W unit :=
  l_pushUndefined;;
  data ← l_code_slice 16;
  z3 ← limb_at data 0; z2 ← limb_at data 4; z1 ← limb_at data 8; z0 ← limb_at data 12;
  l_setTop (of_limbs z3 z2 z1 z0);;
  l_skip 15.

Definition opDup (pos : Z) : LM W unit := shared (SfvmInstructions.opDup pos).
Definition opSwap (pos : Z) : LM W unit := shared (SfvmInstructions.opSwap pos).
Definition opMstore : LM W unit := shared SfvmInstructions.opMstore.
Definition opMstore8 : LM W unit := shared SfvmInstructions.opMstore8.
Definition opMcopy : LM W unit := shared SfvmInstructions.opMcopy.
Definition opMload : LM W unit := shared SfvmInstructions.opMload.
Definition opMsize : LM W unit := shared SfvmInstructions.opMsize.
Definition opSstore : LM W unit := shared SfvmInstructions.opSstore.
Definition opSload : LM W unit := shared SfvmInstructions.opSload.
Definition opTstore : LM W unit := shared SfvmInstructions.opTstore.
Definition opTload : LM W unit := shared SfvmInstructions.opTload.
Definition opCaller : LM W unit := shared SfvmInstructions.opCaller.
Definition opCallvalue : LM W unit := shared SfvmInstructions.opCallvalue.
Definition opCallDatasize : LM W unit := shared SfvmInstructions.opCallDatasize.
Definition opCallDataload : LM W unit := shared SfvmInstructions.opCallDataload.
Definition genericDataCopy (source : list byte) : LM W unit := shared (SfvmInstructions.genericDataCopy source).
Definition opAnd : LM W unit := shared SfvmInstructions.opAnd.
Definition opOr : LM W unit := shared SfvmInstructions.opOr.
Definition opNot : LM W unit := shared SfvmInstructions.opNot.
Definition opXor : LM W unit := shared SfvmInstructions.opXor.
Definition opIszero : LM W unit := shared SfvmInstructions.opIszero.
Definition opEq : LM W unit := shared SfvmInstructions.opEq.
Definition opLt : LM W unit := shared SfvmInstructions.opLt.
Definition opGt : LM W unit := shared SfvmInstructions.opGt.
Definition opSlt : LM W unit := shared SfvmInstructions.opSlt.
Definition opSgt : LM W unit := shared SfvmInstructions.opSgt.
Definition opShr : LM W unit := shared SfvmInstructions.opShr.
Definition opShl : LM W unit := shared SfvmInstructions.opShl.
Definition opSar : LM W unit := shared SfvmInstructions.opSar.
Definition opClz : LM W unit := shared SfvmInstructions.opClz.
Definition opSignExtend : LM W unit := shared SfvmInstructions.opSignExtend.
Definition opByte : LM W unit := shared SfvmInstructions.opByte.
Definition opAdd : LM W unit := shared SfvmInstructions.opAdd.
Definition opSub : LM W unit := shared SfvmInstructions.opSub.
Definition opMul : LM W unit := shared SfvmInstructions.opMul.
Definition opMulMod : LM W unit := shared SfvmInstructions.opMulMod.
Definition opDiv : LM W unit := shared SfvmInstructions.opDiv.
Definition opSDiv : LM W unit := shared SfvmInstructions.opSDiv.
Definition opMod : LM W unit := shared SfvmInstructions.opMod.
Definition opAddMod : LM W unit := shared SfvmInstructions.opAddMod.
Definition opSMod : LM W unit := shared SfvmInstructions.opSMod.
Definition opExp : LM W unit := shared SfvmInstructions.opExp.
Definition opSha3 : LM W unit := shared (SfvmInstructions.opSha3 Keccak256 Keccak256For32byte).
Definition opGas : LM W unit := shared SfvmInstructions.opGas.
Definition opPrevRandao : LM W unit := shared SfvmInstructions.opPrevRandao.
Definition opTimestamp : LM W unit := shared SfvmInstructions.opTimestamp.
Definition opNumber : LM W unit := shared SfvmInstructions.opNumber.
Definition opCoinbase : LM W unit := shared SfvmInstructions.opCoinbase.
Definition opGasLimit : LM W unit := shared SfvmInstructions.opGasLimit.
Definition opGasPrice : LM W unit := shared SfvmInstructions.opGasPrice.
Definition opBalance : LM W unit := shared SfvmInstructions.opBalance.
Definition opSelfbalance : LM W unit := shared SfvmInstructions.opSelfbalance.
Definition opBaseFee : LM W unit := shared SfvmInstructions.opBaseFee.
Definition opBlobHash : LM W unit := shared SfvmInstructions.opBlobHash.
Definition opBlobBaseFee : LM W unit := shared SfvmInstructions.opBlobBaseFee.
Definition opSelfdestruct : LM W status := shared SfvmInstructions.opSelfdestruct.
Definition opChainId : LM W unit := shared SfvmInstructions.opChainId.
Definition opBlockhash : LM W unit := shared SfvmInstructions.opBlockhash.
Definition opAddress : LM W unit := shared SfvmInstructions.opAddress.
Definition opOrigin : LM W unit := shared SfvmInstructions.opOrigin.
Definition opCodeSize : LM W unit := shared SfvmInstructions.opCodeSize.
Definition opExtcodesize : LM W unit := shared SfvmInstructions.opExtcodesize.
Definition opExtcodehash : LM W unit := shared SfvmInstructions.opExtcodehash.
Definition genericCreate (kind : CallKind) : LM W unit := shared (SfvmInstructions.genericCreate kind).
Definition opExtCodeCopy : LM W unit := shared SfvmInstructions.opExtCodeCopy.
Definition genericCall (kind : CallKind) : LM W unit := shared (SfvmInstructions.genericCall kind).
Definition opCall : LM W unit := shared SfvmInstructions.opCall.
Definition opCallCode : LM W unit := shared SfvmInstructions.opCallCode.
Definition opStaticCall : LM W unit := shared SfvmInstructions.opStaticCall.
Definition opDelegateCall : LM W unit := shared SfvmInstructions.opDelegateCall.
Definition opReturnDataSize : LM W unit := shared SfvmInstructions.opReturnDataSize.
Definition opReturnDataCopy : LM W unit := shared SfvmInstructions.opReturnDataCopy.
Definition opLog (n : nat) : LM W unit := shared (SfvmInstructions.opLog n).

(** ** Super instructions *)

Definition opSwap1_Pop : LM W unit :=
  a1 ← l_pop; l_setTop a1.

Definition opSwap2_Pop : LM W unit :=
  a1 ← l_pop; l_setN 1 a1.

Definition opPush1_Push1 : LM W unit :=
  a ← currentArg;
  l_movePointer 2;;
  l_setN 0 (Int_SetUint64 (Z.land a 0xFF));;
  l_setN 1 (Int_SetUint64 (Z.shiftr a 8)).

Definition opPush1_Add : LM W unit :=
  a ← currentArg;
  trg ← l_peek;
  let '(t0, carry) := Add64 (limb trg 0) a 0 in
  let '(t1, carry) := Add64 (limb trg 1) 0 carry in
  let '(t2, carry) := Add64 (limb trg 2) 0 carry in
  let '(t3, _) := Add64 (limb trg 3) 0 carry in
  l_setTop (of_limbs t3 t2 t1 t0).

Definition opPush1_Shl : LM W unit :=
  a ← currentArg;
  trg ← l_peek;
  l_setTop (Int_Lsh trg a).

Definition opPush1_Dup1 : LM W unit :=
  a ← currentArg;
  l_movePointer 2;;
  l_setN 0 (Int_SetUint64 a);;
  l_setN 1 (Int_SetUint64 a).

Definition opPush2_Jump : LM W unit :=
  a ← currentArg;
  l_jump (i32 a -i32 1);;
  checkJumpDest.

Definition opPush2_Jumpi : LM W unit :=
  condition ← l_pop;
  if negb (Int_IsZero condition) then
    a ← currentArg;
    l_jump (i32 a -i32 1);;
    checkJumpDest
  else mret tt.

Definition opSwap2_Swap1 : LM W unit :=
  a1 ← l_peekN 0; a2 ← l_peekN 1; a3 ← l_peekN 2;
  l_setN 0 a2;; l_setN 1 a3;; l_setN 2 a1.

Definition opDup2_Mstore : LM W unit :=
  value ← l_pop;
  offset ← l_peek;
  l_mem_set offset (arr_bytes (Int_Bytes32 value)).

Definition opDup2_Lt : LM W unit :=
  b ← l_peekN 0; a ← l_peekN 1;
  l_setN 0 (if Int_Lt a b then Int_SetOne else Int_Clear).

Definition opPopPop : LM W unit := l_movePointer (-2).

Definition opPop_Jump : LM W unit := opPop;; opJump.

Definition opIsZero_Push2_Jumpi : LM W unit :=
  condition ← l_pop;
  if Int_IsZero condition then
    a ← currentArg;
    l_jump (i32 a -i32 1);;
    checkJumpDest
  else mret tt.

(** The destination is converted without a check of its range. *)
Definition opSwap2_Swap1_Pop_Jump : LM W unit :=
  top ← l_pop;
  _ ← l_pop;
  trg ← l_peek;
  l_jump (i32 (Int_Uint64 trg) -i32 1);;
  l_setTop top;;
  checkJumpDest.

Definition opSwap1_Pop_Swap2_Swap1 : LM W unit :=
  a1 ← l_pop;
  a3 ← l_peekN 1; a4 ← l_peekN 2;
  l_setN 0 a3;; l_setN 1 a4;; l_setN 2 a1.

Definition opPop_Swap2_Swap1_Pop : LM W unit :=
  _ ← l_pop;
  a2 ← l_pop;
  a4 ← l_peekN 1;
  l_setN 0 a4;; l_setN 1 a2.

Definition opPush1_Push4_Dup3 : LM W unit :=
  opPush1;; l_skip 1;; opPush4;; opDup 3.

Definition opAnd_Swap1_Pop_Swap2_Swap1 : LM W unit :=
  opAnd;; opSwap1_Pop_Swap2_Swap1.

Definition opPush1_Push1_Push1_Shl_Sub : LM W unit :=
  arg1 ← currentArg;
  c ← l_gets id;
  i2 ← l_code_at (l_pc c +i32 1);
  let shift := u8 (arg i2) in
  let value := u8 (Z.land arg1 0xFF) in
  let delta := u8 (Z.shiftr arg1 8) in
  l_pushUndefined;;
  l_setTop (Int_Sub (Int_Lsh (Int_SetUint64 value) shift) (NewInt delta));;
  l_skip 1.

End LInstructions.
