(* ===== verification/LfvmInterpreter.v ===== *)
(** * The long-form interpreter

    [go/interpreter/lfvm/interpreter.go], [lfvm.go], [instruction_logger.go]
    and [instruction_statistics.go]: the dispatch of the instructions, the
    loop, the runners, and the run of a contract. *)
From Stdlib Require Import ZArith Lia Strings.Byte String.
From stdpp Require Import base list numbers gmap.
From S2P Require Import Prelude Uint256 Types OpCodes SfvmStack SfvmAnalysis SfvmHashCache.
From S2P Require Import SfvmContext SfvmMemory LfvmOpCodes LfvmConverter LfvmContext LfvmGas.
From S2P Require Import LfvmInstructions.
Set Default Goal Selector "!".
Local Open Scope Z_scope.
Local Open Scope go_scope.

(** ** Statistics of executed instructions *)

Record statistics := mkStatistics {
  count : Z;
  singleCount : gmap Z Z;
  pairCount : gmap Z Z;
  tripleCount : gmap Z Z;
  quadCount : gmap Z Z
}.

Definition newStatistics : statistics := mkStatistics 0 ∅ ∅ ∅ ∅.

(** [m[k] += v] on a map of [uint64]; a missing key counts as 0. *)
Definition count_add (k v : Z) (m : gmap Z Z) : gmap Z Z :=
  <[k := default 0 (m !! k) +u64 v]> m.

(** [for k, v := range src { dst[k] += v }]. *)
Definition count_merge (src dst : gmap Z Z) : gmap Z Z :=
  map_fold count_add dst src.

Definition insert (s src : statistics) : statistics :=
  mkStatistics (count s +u64 count src)
    (count_merge (singleCount src) (singleCount s)) (count_merge (pairCount src) (pairCount s))
    (count_merge (tripleCount src) (tripleCount s)) (count_merge (quadCount src) (quadCount s)).

Record statsCollector := mkCollector {
  sc_stats : statistics;
  sc_last : Z;
  sc_secondLast : Z;
  sc_thirdLast : Z
}.

Definition newCollector : statsCollector := mkCollector newStatistics 0 0 0.

Definition nextOp (s : statsCollector) (op : LOpCode) : statsCollector :=
  let cur := opcode_val op in
  let st := sc_stats s in
  let last := sc_last s in
  let secondLast := sc_secondLast s in
  let thirdLast := sc_thirdLast s in
  let n := count st +u64 1 in
  let singles := count_add cur 1 (singleCount st) in
  let next st := mkCollector st cur last secondLast in
  if n =? 1 then next (mkStatistics n singles (pairCount st) (tripleCount st) (quadCount st))
  else
    let pairs := count_add (Z.lor (u64 (Z.shiftl last 16)) cur) 1 (pairCount st) in
    if n =? 2 then next (mkStatistics n singles pairs (tripleCount st) (quadCount st))
    else
      let triples := count_add (Z.lor (Z.lor (u64 (Z.shiftl secondLast 32))
                       (u64 (Z.shiftl last 16))) cur) 1 (tripleCount st) in
      if n =? 3 then next (mkStatistics n singles pairs triples (quadCount st))
      else
        let quads := count_add (Z.lor (Z.lor (Z.lor (u64 (Z.shiftl thirdLast 48))
                       (u64 (Z.shiftl secondLast 32))) (u64 (Z.shiftl last 16))) cur) 1
                       (quadCount st) in
        next (mkStatistics n singles pairs triples quads).

(** ** The interpreter *)

(** An entry of the log: op code, gas, and the top of the stack if there is
    one. The writer decides whether a write succeeds. *)
Record logEntry := mkLogEntry { le_opcode : LOpCode; le_gas : Gas; le_top : option u256 }.

Class Writer (Log : Type) := { log_write : Log -> logEntry -> Log * option error }.

(** The implementations of the interface [runner], each with its state. *)
Inductive runner (Log : Type) :=
| vanillaRunner
| statisticRunner (stats : option statistics)
| loggingRunner (log : option Log).
Arguments vanillaRunner {Log}.
Arguments statisticRunner {Log} _.
Arguments loggingRunner {Log} _.

Record config (Log : Type) := mkLConfig {
  lc_ConversionConfig : ConversionConfig;
  lc_WithShaCache : bool;
  lc_runner : option (runner Log)
}.
Arguments mkLConfig {Log} _ _ _.
Arguments lc_ConversionConfig {Log} _.
Arguments lc_WithShaCache {Log} _.
Arguments lc_runner {Log} _.

Record lfvm (C Log : Type) := mkLfvm { lv_config : config Log; lv_converter : Converter C }.
Arguments mkLfvm {C Log} _ _.
Arguments lv_config {C Log} _.
Arguments lv_converter {C Log} _.

Definition newestSupportedRevision : Revision := R15_Osaka.

(** [fmt.Errorf] with the message of the wrapped error appended. *)
Definition wrapError (prefix : string) (e : error) : error :=
  match e with ErrMsg m => ErrMsg (prefix ++ m) | e => e end.

Definition newVm {C Log} `{LRU LCode C} (cfg : config Log) : lfvm C Log + error :=
  match NewConverter (lc_ConversionConfig cfg) with
  | inr e => inr (wrapError "failed to create converter: " e)
  | inl converter => inl (mkLfvm cfg converter)
  end.

Definition NewInterpreter {C Log} `{LRU LCode C} : lfvm C Log + error :=
  newVm (mkLConfig (mkConversionConfig 0 false) true None).

Definition ResetProfile {C Log} (e : lfvm C Log) : lfvm C Log :=
  match lc_runner (lv_config e) with
  | Some (statisticRunner _) =>
      mkLfvm (mkLConfig (lc_ConversionConfig (lv_config e)) (lc_WithShaCache (lv_config e))
                (Some (statisticRunner (Some newStatistics)))) (lv_converter e)
  | _ => e
  end.

Section Interpreter.
Context {W : Type} {U : Uint256} {RC : RunContext W} {G : Globals W}.
Context (Keccak256 : list byte -> Hash) (Keccak256For32byte : array 32 -> Hash).

(** An instruction that leaves the status as it is. *)
Definition running (m : LM W unit) : LM W status := m;; mret statusRunning.

(** The switch of [steps]. *)
Definition dispatch (op : LOpCode) : LM W status :=
  match op with
  | Base POP => running opPop
  | Base PUSH0 => running opPush0
  | Base PUSH1 => running opPush1
  | Base PUSH2 => running opPush2
  | Base PUSH3 => running opPush3
  | Base PUSH4 => running opPush4
  | Base PUSH5 => running (opPush 5)
  | Base PUSH31 => running (opPush 31)
  | Base PUSH32 => running opPush32
  | Base JUMP => running opJump
  | Base JUMPDEST => mret statusRunning
  | Base SWAP1 => running (opSwap 1)
  | Base SWAP2 => running (opSwap 2)
  | Base DUP3 => running (opDup 3)
  | Base AND => running opAnd
  | Base SWAP3 => running (opSwap 3)
  | Base JUMPI => running opJumpi
  | Base GT => running opGt
  | Base DUP4 => running (opDup 4)
  | Base DUP2 => running (opDup 2)
  | Base ISZERO => running opIszero
  | Base ADD => running opAdd
  | Base OR => running opOr
  | Base XOR => running opXor
  | Base NOT => running opNot
  | Base SUB => running opSub
  | Base MUL => running opMul
  | Base MULMOD => running opMulMod
  | Base DIV => running opDiv
  | Base SDIV => running opSDiv
  | Base MOD => running opMod
  | Base SMOD => running opSMod
  | Base ADDMOD => running opAddMod
  | Base EXP => running opExp
  | Base DUP5 => running (opDup 5)
  | Base DUP1 => running (opDup 1)
  | Base EQ => running opEq
  | Base PC => running opPc
  | Base CALLER => running opCaller
  | Base CALLDATALOAD => running opCallDataload
  | Base CALLDATASIZE => running opCallDatasize
  | Base CALLDATACOPY => c ← l_gets id; running (genericDataCopy (p_Input (l_params c)))
  | Base MLOAD => running opMload
  | Base MSTORE => running opMstore
  | Base MSTORE8 => running opMstore8
  | Base MSIZE => running opMsize
  | Base MCOPY => running opMcopy
  | Base LT => running opLt
  | Base SLT => running opSlt
  | Base SGT => running opSgt
  | Base SHR => running opShr
  | Base SHL => running opShl
  | Base SAR => running opSar
  | Base CLZ => running opClz
  | Base SIGNEXTEND => running opSignExtend
  | Base BYTE => running opByte
  | Base SHA3 => running (opSha3 Keccak256 Keccak256For32byte)
  | Base CALLVALUE => running opCallvalue
  | Base PUSH6 => running (opPush 6)
  | Base PUSH7 => running (opPush 7)
  | Base PUSH8 => running (opPush 8)
  | Base PUSH9 => running (opPush 9)
  | Base PUSH10 => running (opPush 10)
  | Base PUSH11 => running (opPush 11)
  | Base PUSH12 => running (opPush 12)
  | Base PUSH13 => running (opPush 13)
  | Base PUSH14 => running (opPush 14)
  | Base PUSH15 => running (opPush 15)
  | Base PUSH16 => running (opPush 16)
  | Base PUSH17 => running (opPush 17)
  | Base PUSH18 => running (opPush 18)
  | Base PUSH19 => running (opPush 19)
  | Base PUSH20 => running (opPush 20)
  | Base PUSH21 => running (opPush 21)
  | Base PUSH22 => running (opPush 22)
  | Base PUSH23 => running (opPush 23)
  | Base PUSH24 => running (opPush 24)
  | Base PUSH25 => running (opPush 25)
  | Base PUSH26 => running (opPush 26)
  | Base PUSH27 => running (opPush 27)
  | Base PUSH28 => running (opPush 28)
  | Base PUSH29 => running (opPush 29)
  | Base PUSH30 => running (opPush 30)
  | Base SWAP4 => running (opSwap 4)
  | Base SWAP5 => running (opSwap 5)
  | Base SWAP6 => running (opSwap 6)
  | Base SWAP7 => running (opSwap 7)
  | Base SWAP8 => running (opSwap 8)
  | Base SWAP9 => running (opSwap 9)
  | Base SWAP10 => running (opSwap 10)
  | Base SWAP11 => running (opSwap 11)
  | Base SWAP12 => running (opSwap 12)
  | Base SWAP13 => running (opSwap 13)
  | Base SWAP14 => running (opSwap 14)
  | Base SWAP15 => running (opSwap 15)
  | Base SWAP16 => running (opSwap 16)
  | Base DUP6 => running (opDup 6)
  | Base DUP7 => running (opDup 7)
  | Base DUP8 => running (opDup 8)
  | Base DUP9 => running (opDup 9)
  | Base DUP10 => running (opDup 10)
  | Base DUP11 => running (opDup 11)
  | Base DUP12 => running (opDup 12)
  | Base DUP13 => running (opDup 13)
  | Base DUP14 => running (opDup 14)
  | Base DUP15 => running (opDup 15)
  | Base DUP16 => running (opDup 16)
  | Base RETURN => opEndWithResult;; mret statusReturned
  | Base REVERT => opEndWithResult;; mret statusReverted
  | JUMP_TO => running opJumpTo
  | Base SLOAD => running opSload
  | Base SSTORE => running opSstore
  | Base TLOAD => running opTload
  | Base TSTORE => running opTstore
  | Base CODESIZE => running opCodeSize
  | Base CODECOPY => c ← l_gets id; running (genericDataCopy (p_Code (l_params c)))
  | Base EXTCODESIZE => running opExtcodesize
  | Base EXTCODEHASH => running opExtcodehash
  | Base EXTCODECOPY => running opExtCodeCopy
  | Base BALANCE => running opBalance
  | Base SELFBALANCE => running opSelfbalance
  | Base BASEFEE => running opBaseFee
  | Base BLOBHASH => running opBlobHash
  | Base BLOBBASEFEE => running opBlobBaseFee
  | Base SELFDESTRUCT => opSelfdestruct
  | Base CHAINID => running opChainId
  | Base GAS => running opGas
  | Base PREVRANDAO => running opPrevRandao
  | Base TIMESTAMP => running opTimestamp
  | Base NUMBER => running opNumber
  | Base GASLIMIT => running opGasLimit
  | Base GASPRICE => running opGasPrice
  | Base CALL => running opCall
  | Base CALLCODE => running opCallCode
  | Base STATICCALL => running opStaticCall
  | Base DELEGATECALL => running opDelegateCall
  | Base RETURNDATASIZE => running opReturnDataSize
  | Base RETURNDATACOPY => running opReturnDataCopy
  | Base BLOCKHASH => running opBlockhash
  | Base COINBASE => running opCoinbase
  | Base ORIGIN => running opOrigin
  | Base ADDRESS => running opAddress
  | Base STOP => opStop
  | Base CREATE => running (genericCreate Create)
  | Base CREATE2 => running (genericCreate Create2)
  | Base LOG0 => running (opLog 0)
  | Base LOG1 => running (opLog 1)
  | Base LOG2 => running (opLog 2)
  | Base LOG3 => running (opLog 3)
  | Base LOG4 => running (opLog 4)
  | SWAP2_SWAP1_POP_JUMP => running opSwap2_Swap1_Pop_Jump
  | SWAP1_POP_SWAP2_SWAP1 => running opSwap1_Pop_Swap2_Swap1
  | POP_SWAP2_SWAP1_POP => running opPop_Swap2_Swap1_Pop
  | POP_POP => running opPopPop
  | PUSH1_SHL => running opPush1_Shl
  | PUSH1_ADD => running opPush1_Add
  | PUSH1_DUP1 => running opPush1_Dup1
  | PUSH2_JUMP => running opPush2_Jump
  | PUSH2_JUMPI => running opPush2_Jumpi
  | PUSH1_PUSH1 => running opPush1_Push1
  | SWAP1_POP => running opSwap1_Pop
  | POP_JUMP => running opPop_Jump
  | SWAP2_SWAP1 => running opSwap2_Swap1
  | SWAP2_POP => running opSwap2_Pop
  | DUP2_MSTORE => running opDup2_Mstore
  | DUP2_LT => running opDup2_Lt
  | ISZERO_PUSH2_JUMPI => running opIsZero_Push2_Jumpi
  | PUSH1_PUSH4_DUP3 => running opPush1_Push4_Dup3
  | AND_SWAP1_POP_SWAP2_SWAP1 => running opAnd_Swap1_Pop_Swap2_Swap1
  | PUSH1_PUSH1_PUSH1_SHL_SUB => running opPush1_Push1_Push1_Shl_Sub
  | _ => l_fail errInvalidOpCode
  end.

(** One iteration of the loop of [steps], for a program counter within the
    code. *)
Definition step : LM W status :=
  c ← l_gets id;
  i ← l_code_at (l_pc c);
  let op := opcode i in
  checkStackLimits (st_len (l_stack c)) op;;
  price ← l_lift_option (property_get (getStaticGasPrices (l_revision c)) op);
  l_useGas price;;
  status ← dispatch op;
  c ← l_gets id;
  l_modify (l_set_pc (l_pc c +i32 1));;
  mret status.

(** The loop, with at most [fuel] iterations; [None] when they do not suffice. *)
Fixpoint steps (fuel : nat) (oneStepOnly : bool) (c : lcontext W)
    : option (outcome status * lcontext W) :=
  match fuel with
  | O => None
  | S fuel =>
      if l_pc c >=? zlen (l_code c) then Some (Ok statusStopped, c)
      else
        match step c with
        | (Ok status, c) =>
            if oneStepOnly then Some (Ok status, c)
            else match status with
                 | statusRunning => steps fuel oneStepOnly c
                 | _ => Some (Ok status, c)
                 end
        | r => Some r
        end
  end.

(** [Panic] is the only outcome that is no status. *)
Definition execute (fuel : nat) (oneStepOnly : bool) (c : lcontext W)
    : option (outcome status * lcontext W) :=
  match steps fuel oneStepOnly c with
  | Some (Err _, c) => Some (Ok statusFailed, c)
  | r => r
  end.

(** ** Runners *)

(** The op code at the program counter, if it is within the code. *)
Definition currentOp (c : lcontext W) : outcome (option LOpCode) :=
  if l_pc c <? zlen (l_code c) then
    match fst (l_code_at (l_pc c) c) with
    | Ok i => Ok (Some (opcode i))
    | _ => Panic
    end
  else Ok None.

Fixpoint statistic_loop (fuel : nat) (stats : statsCollector) (c : lcontext W)
    : option (outcome status * lcontext W * statsCollector) :=
  match fuel with
  | O => None
  | S fuel =>
      match currentOp c with
      | Ok op =>
          let stats := match op with Some op => nextOp stats op | None => stats end in
          match execute 1 true c with
          | Some (Ok statusRunning, c) => statistic_loop fuel stats c
          | Some (r, c) => Some (r, c, stats)
          | None => None
          end
      | _ => Some (Panic, c, stats)
      end
  end.

Context {Log : Type} {WR : Writer Log}.

(** The top of the stack, if there is one. *)
Definition log_top (c : lcontext W) : outcome (option u256) :=
  if st_len (l_stack c) >? 0 then
    match st_peek (l_stack c) with
    | Some top => Ok (Some top)
    | None => Panic
    end
  else Ok None.

Fixpoint logging_loop (fuel : nat) (log : option Log) (c : lcontext W)
    : option (outcome status * lcontext W * option Log * option error) :=
  match fuel with
  | O => None
  | S fuel =>
      let logged : outcome (option Log * option error) :=
        match currentOp c with
        | Ok (Some op) =>
            match log_top c with
            | Ok top =>
                match log with
                | Some lg =>
                    let '(lg, e) := log_write lg (mkLogEntry op (l_gas c) top) in Ok (Some lg, e)
                | None => Ok (None, None)
                end
            | _ => Panic
            end
        | Ok None => Ok (log, None)
        | _ => Panic
        end in
      match logged with
      | Ok (log, None) =>
          match execute 1 true c with
          | Some (Ok statusRunning, c) => logging_loop fuel log c
          | Some (r, c) => Some (r, c, log, None)
          | None => None
          end
      | Ok (log, Some e) => Some (Ok statusRunning, c, log, Some e)
      | _ => Some (Panic, c, log, None)
      end
  end.

(** [runner.run]: the outcome, the context, the runner afterwards and the
    error. *)
Definition runner_run (fuel : nat) (r : runner Log) (c : lcontext W)
    : option (outcome status * lcontext W * runner Log * option error) :=
  match r with
  | vanillaRunner =>
      '(o, c) ← execute fuel false c; Some (o, c, vanillaRunner, None)
  | statisticRunner stats =>
      '(o, c, col) ← statistic_loop fuel newCollector c;
      Some (o, c, statisticRunner (Some (insert (default newStatistics stats) (sc_stats col))), None)
  | loggingRunner log =>
      '(o, c, log, e) ← logging_loop fuel log c; Some (o, c, loggingRunner log, e)
  end.

(** ** The run of a contract *)

Definition generateResult (st : status) (ctxt : lcontext W) : Result + error :=
  match st with
  | statusStopped | statusSelfDestructed =>
      inl (mkResult true [] (l_gas ctxt) (l_refund ctxt))
  | statusReturned =>
      inl (mkResult true (l_returnData ctxt) (l_gas ctxt) (l_refund ctxt))
  | statusReverted =>
      inl (mkResult false (l_returnData ctxt) (l_gas ctxt) 0)
  | statusFailed => inl (mkResult false [] 0 0)
  | statusRunning => inr (ErrMsg "unexpected error in interpreter, unknown status")
  end.

Definition initContext (cfg : config Log) (code : LCode) (params : Parameters) (w : W)
    (garbage : list u256) : lcontext W :=
  mkLContext params w code 0 (p_Gas params) 0 (NewStack garbage) NewMemory []
    (lc_WithShaCache cfg).

(** The runner that is used, and its place in the configuration: a [nil] is
    replaced in a copy of the configuration. *)
Definition run (fuel : nat) (cfg : config Log) (w : W) (params : Parameters) (code : LCode)
    (garbage : list u256) : option (W * config Log * (Result + error)) :=
  if zlen code =? 0 then
    Some (w, cfg, inl (mkResult true [] (p_Gas params) 0))
  else
    match runner_run fuel (default vanillaRunner (lc_runner cfg))
            (initContext cfg code params w garbage) with
    | Some (Ok st, ctxt, r, e) =>
        let cfg := mkLConfig (lc_ConversionConfig cfg) (lc_WithShaCache cfg)
                     (match lc_runner cfg with Some _ => Some r | None => None end) in
        Some (l_context ctxt, cfg,
              match e with Some e => inr e | None => generateResult st ctxt end)
    | _ => None
    end.

Definition Run {C} `{LRU LCode C} (fuel : nat) (e : lfvm C Log) (w : W) (params : Parameters)
    (garbage : list u256) : option (W * lfvm C Log * (Result + error)) :=
  if bp_Revision (p_Block params) >? newestSupportedRevision then
    Some (w, e, inr (ErrUnsupportedRevision (bp_Revision (p_Block params))))
  else
    match Convert (lv_converter e) (p_Code params) (p_CodeHash params) with
    | Some (cv, inr err) =>
        Some (w, mkLfvm (lv_config e) cv, inr (wrapError "failed to convert code: " err))
    | Some (cv, inl converted) =>
        match run fuel (lv_config e) w params converted garbage with
        | Some (w, cfg, r) => Some (w, mkLfvm cfg cv, r)
        | None => None
        end
    | None => None
    end.

End Interpreter.
