(* ===== verification/LfvmShared.v ===== *)
(** * Instructions that see only the shared part of the context

    Two contexts are alike when they agree on everything but the code, its
    analysis, the program counter and the words above the top of the stack. The
    instructions of [sfvm] that do not push immediate data, jump or read the
    program counter behave in the same way on contexts that are alike: they end
    with the same outcome, in contexts that are alike, and do not move the
    program counter. *)
From Stdlib Require Import ZArith Lia Strings.Byte.
From stdpp Require Import base list numbers.
From S2P Require Import Prelude Uint256 Types OpCodes SfvmStack SfvmAnalysis SfvmHashCache.
From S2P Require Import SfvmContext SfvmMemory SfvmGas SfvmInstructions SfvmInterpreter.
Set Default Goal Selector "!".
Local Open Scope Z_scope.
Local Open Scope go_scope.

(** ** Stacks *)

(** The elements of the stack, at the bottom of the array. *)
Definition stack_live (s : stack) : list u256 := take (Z.to_nat (st_stackPointer s)) (st_data s).

Record stack_like (s1 s2 : stack) : Prop := {
  like_pointer : st_stackPointer s1 = st_stackPointer s2;
  like_size : length (st_data s1) = length (st_data s2);
  like_live : stack_live s1 = stack_live s2
}.

#[global] Instance stack_like_equiv : Equivalence stack_like.
Proof.
  split; [by constructor|intros s1 s2 []; by constructor|].
  intros s1 s2 s3 [] []; constructor; congruence.
Qed.

Lemma stack_like_len s1 s2 : stack_like s1 s2 -> st_len s1 = st_len s2.
Proof. intros []. done. Qed.

Lemma like_read s1 s2 i : stack_like s1 s2 -> i < st_stackPointer s1 -> st_read s1 i = st_read s2 i.
Proof.
  intros [Hp Hs Hl] Hi. unfold st_read. case_if; [|done]. unfold stack_live in Hl. rewrite <-Hp in Hl.
  apply (f_equal (fun l => l !! Z.to_nat i)) in Hl. by rewrite !lookup_take_lt in Hl by lia.
Qed.

(** Writing the same value below the pointer, or at it and moving it up. *)
Lemma like_write s1 s2 i v : stack_like s1 s2 ->
  match st_write s1 i v, st_write s2 i v with
  | Some s1', Some s2' =>
      stack_like s1' s2'
      /\ (i = st_stackPointer s1 -> 0 <= i ->
          stack_like (mkStack (st_data s1') (st_stackPointer s1 + 1))
                     (mkStack (st_data s2') (st_stackPointer s2 + 1)))
  | None, None => True
  | _, _ => False
  end.
Proof.
  intros [Hp Hs Hl]. unfold st_write, zlen. rewrite <-Hs. case_if; [|done].
  unfold stack_live in *. split.
  - constructor; cbn; [done|by rewrite !length_insert|]. unfold stack_live; cbn.
    rewrite <-Hp in *. destruct (decide (Z.to_nat i < Z.to_nat (st_stackPointer s1))%nat).
    + rewrite !take_insert_lt by done. by rewrite Hl.
    + rewrite !take_insert_ge by lia. done.
  - intros -> Hpos. constructor; cbn; [lia|by rewrite !length_insert|]. unfold stack_live; cbn.
    rewrite <-Hp in *. replace (Z.to_nat (st_stackPointer s1 + 1)) with (S (Z.to_nat (st_stackPointer s1))) by lia.
    b2p. rewrite !(take_S_r _ _ v) by (apply list_lookup_insert_eq; lia).
    rewrite !take_insert_ge by lia. by rewrite Hl.
Qed.

Lemma like_shrink s1 s2 n : stack_like s1 s2 -> n <= st_stackPointer s1 ->
  stack_like (mkStack (st_data s1) n) (mkStack (st_data s2) n).
Proof.
  intros [Hp Hs Hl] Hn. constructor; cbn; [done|done|]. unfold stack_live in *; cbn.
  rewrite <-Hp in Hl. apply (f_equal (take (Z.to_nat n))) in Hl. by rewrite !take_take, !Nat.min_l in Hl by lia.
Qed.

(** The operations on the stack keep it well formed. *)

Lemma st_write_wf s i v s' : st_write s i v = Some s' ->
  zlen (st_data s') = zlen (st_data s) /\ st_stackPointer s' = st_stackPointer s
  /\ 0 <= i < zlen (st_data s).
Proof.
  unfold st_write. destruct (_ && _) eqn:E; [|done]. intros [= <-]. cbn. unfold zlen in *. rewrite length_insert. b2p. lia.
Qed.

Lemma st_push_wf s v s' : stack_wf s -> st_push s v = Some s' -> stack_wf s'.
Proof.
  intros [Hd Hs]. unfold st_push. destruct (st_write s _ v) as [s1|] eqn:E; [|done]. intros [= <-].
  apply st_write_wf in E as (H1 & H2 & H3). split; cbn; lia.
Qed.

Lemma st_pop_wf s v s' : stack_wf s -> st_pop s = Some (v, s') -> stack_wf s'.
Proof.
  intros [Hd Hs]. unfold st_pop, st_read. destruct (Z.leb_spec 0 (st_stackPointer s - 1)); [|done].
  destruct (st_data s !! _); [|done]. intros [= <- <-]. split; cbn; lia.
Qed.

Lemma st_setTop_wf v s s' : stack_wf s -> st_setTop s v = Some s' -> stack_wf s'.
Proof.
  intros [Hd Hs]. unfold st_setTop. intros E. apply st_write_wf in E as (H1 & H2 & _). split; lia.
Qed.

Lemma st_dup_wf n s s' : stack_wf s -> st_dup s n = Some s' -> stack_wf s'.
Proof. unfold st_dup. destruct (st_read s _); [|done]. by apply st_push_wf. Qed.

Lemma st_swap_wf n s s' : stack_wf s -> st_swap s n = Some s' -> stack_wf s'.
Proof.
  intros [Hd Hs]. unfold st_swap. do 2 (destruct (st_read s _); [|done]).
  destruct (st_write s _ _) as [s1|] eqn:E; [|done]. intros E2.
  apply st_write_wf in E as (H1 & H2 & _). apply st_write_wf in E2 as (H3 & H4 & _). split; lia.
Qed.

(** ** Contexts *)

Section Shared.
Context {W : Type} {U : Uint256} {RC : RunContext W} {G : Globals W}.
Context (Keccak256 : list byte -> Hash) (Keccak256For32byte : array 32 -> Hash).
Implicit Types c : context W.

Record alike c1 c2 : Prop := {
  alike_params : c_params c1 = c_params c2;
  alike_context : c_context c1 = c_context c2;
  alike_gas : c_gas c1 = c_gas c2;
  alike_refund : c_refund c1 = c_refund c2;
  alike_stack : stack_like (c_stack c1) (c_stack c2);
  alike_memory : c_memory c1 = c_memory c2;
  alike_returnData : c_returnData c1 = c_returnData c2;
  alike_sha : c_withShaCache c1 = c_withShaCache c2
}.

#[global] Instance alike_equiv : Equivalence alike.
Proof.
  split.
  - intros c. constructor; done.
  - intros c1 c2 []. constructor; done.
  - intros c1 c2 c3 [] []. constructor; congruence || (etransitivity; done).
Qed.

(** Contexts with a stack of the right size and gas in the range of its type. *)
Definition sane c : Prop := stack_wf (c_stack c) /\ isI64 (c_gas c).

(** The part of the context an instruction leaves alone, and what it keeps. *)
Definition kept c c' : Prop :=
  c_code c' = c_code c /\ c_analysis c' = c_analysis c /\ c_pc c' = c_pc c /\ (sane c -> sane c').

Lemma kept_refl c : kept c c.
Proof. done. Qed.

Lemma kept_trans c1 c2 c3 : kept c1 c2 -> kept c2 c3 -> kept c1 c3.
Proof. unfold kept. intuition congruence. Qed.

(** Outcomes of a computation in two contexts. *)
Definition agree {A} c1 c2 (r1 r2 : outcome A * context W) : Prop :=
  match r1, r2 with
  | (Ok a1, c1'), (Ok a2, c2') => a1 = a2 /\ alike c1' c2' /\ kept c1 c1' /\ kept c2 c2'
  | (Err e1, c1'), (Err e2, c2') => e1 = e2 /\ alike c1' c2'
  | (Panic, _), (Panic, _) => True
  | _, _ => False
  end.

Definition respects {A} (m : M W A) : Prop := forall c1 c2, alike c1 c2 -> agree c1 c2 (m c1) (m c2).

Lemma respects_ret {A} (a : A) : respects (mret a).
Proof. intros c1 c2 H. cbn. split_and!; done. Qed.

Lemma respects_bind {A B} (m : M W A) (f : A -> M W B) :
  respects m -> (forall a, respects (f a)) -> respects (mbind f m).
Proof.
  intros Hm Hf c1 c2 H. specialize (Hm c1 c2 H). unfold mbind, M_bind.
  destruct (m c1) as [[a1|e1|] c1'], (m c2) as [[a2|e2|] c2']; cbn in Hm; try done.
  destruct Hm as (-> & H' & Hk1 & Hk2). specialize (Hf a2 c1' c2' H').
  unfold agree in *. destruct (f a2 c1') as [[b1|e1|] d1], (f a2 c2') as [[b2|e2|] d2]; try done.
  destruct Hf as (-> & H2 & Hk3 & Hk4). split_and!; [done|done|by eapply kept_trans..].
Qed.

Lemma respects_fail {A} e : respects (fail (A := A) e).
Proof. intros c1 c2 H. done. Qed.

Lemma respects_panic {A} : respects (panic (A := A)).
Proof. done. Qed.

Lemma respects_lift_option {A} (o : option A) : respects (lift_option o).
Proof. destruct o; [apply respects_ret|apply respects_panic]. Qed.

Lemma respects_gets {A} (f : context W -> A) :
  (forall c1 c2, alike c1 c2 -> f c1 = f c2) -> respects (gets f).
Proof. intros Hf c1 c2 H. cbn. split_and!; (done || auto). Qed.

Lemma respects_modify f :
  (forall c1 c2, alike c1 c2 -> alike (f c1) (f c2)) -> (forall c, kept c (f c)) -> respects (modify f).
Proof. intros Hf Hk c1 c2 H. cbn. split_and!; [done|auto|apply Hk..]. Qed.

Lemma respects_if {A} (b : bool) (m1 m2 : M W A) :
  respects m1 -> respects m2 -> respects (if b then m1 else m2).
Proof. by destruct b. Qed.

Lemma respects_when b (m : M W unit) : respects m -> respects (when b m).
Proof. intros. apply respects_if; [done|apply respects_ret]. Qed.

Lemma respects_fail_if b e : respects (fail_if b e).
Proof. apply respects_if; [apply respects_fail|apply respects_ret]. Qed.

Lemma respects_on_error {A} (m : M W A) f : respects m ->
  (forall c1 c2, alike c1 c2 -> alike (f c1) (f c2)) -> respects (on_error m f).
Proof.
  intros Hm Hf c1 c2 H. specialize (Hm c1 c2 H). unfold on_error, agree in *.
  destruct (m c1) as [[a1|e1|] c1'], (m c2) as [[a2|e2|] c2']; try done. destruct Hm. auto.
Qed.

(** ** Primitives *)

Lemma alike_set_stack c1 c2 s1 s2 : alike c1 c2 -> stack_like s1 s2 ->
  alike (set_stack s1 c1) (set_stack s2 c2).
Proof. intros [] Hs. by constructor. Qed.

Lemma kept_set_stack s c : (stack_wf (c_stack c) -> stack_wf s) -> kept c (set_stack s c).
Proof. intros Hs. split_and!; [done..|]. intros [? ?]. split; auto. Qed.

Lemma kept_set_gas g c : kept c (set_gas (i64 g) c).
Proof. split_and!; [done..|]. intros [? ?]. split; [done|]. apply i64_range. Qed.

(** A change of the stack that gives stacks that are alike. *)
Lemma respects_stack {A} (f : stack -> option (A * stack)) :
  (forall s a s', stack_wf s -> f s = Some (a, s') -> stack_wf s') ->
  (forall s1 s2, stack_like s1 s2 ->
     match f s1, f s2 with
     | Some (a1, s1'), Some (a2, s2') => a1 = a2 /\ stack_like s1' s2'
     | None, None => True
     | _, _ => False
     end) ->
  respects (s ← gets c_stack; '(a, s) ← lift_option (f s); modify (set_stack s);; mret a).
Proof.
  intros Hw Hf c1 c2 H. pose proof (Hf _ _ (alike_stack _ _ H)) as Hs.
  unfold mbind, M_bind, gets, agree.
  destruct (f (c_stack c1)) as [[a1 s1]|] eqn:E1, (f (c_stack c2)) as [[a2 s2]|] eqn:E2; try done.
  destruct Hs as [-> Hs]. cbn [lift_option mret M_ret modify].
  split_and!; [done|by apply alike_set_stack|apply kept_set_stack; eauto..].

Qed.

Lemma respects_stack_ (f : stack -> option stack) :
  (forall s s', stack_wf s -> f s = Some s' -> stack_wf s') ->
  (forall s1 s2, stack_like s1 s2 ->
     match f s1, f s2 with
     | Some s1', Some s2' => stack_like s1' s2'
     | None, None => True
     | _, _ => False
     end) ->
  respects (s ← gets c_stack; s ← lift_option (f s); modify (set_stack s)).
Proof.
  intros Hw Hf c1 c2 H. pose proof (Hf _ _ (alike_stack _ _ H)) as Hs.
  unfold mbind, M_bind, gets, agree.
  destruct (f (c_stack c1)) as [s1|] eqn:E1, (f (c_stack c2)) as [s2|] eqn:E2; try done.
  cbn [lift_option mret M_ret modify]. split_and!; [done|by apply alike_set_stack|apply kept_set_stack; eauto..].
Qed.

Lemma respects_pop : respects pop.
Proof.
  apply (respects_stack st_pop); [apply st_pop_wf|]. intros s1 s2 H. unfold st_pop. pose proof H as [Hp _ _].
  rewrite (like_read s1 s2) by (done || lia). rewrite Hp.
  destruct (st_read s2 _); [|done]. split; [done|]. apply like_shrink; [done|lia].
Qed.

(** Reading an element of the stack. *)
Lemma respects_read (f : stack -> Z) :
  (forall s1 s2, stack_like s1 s2 -> f s1 = f s2 /\ f s1 < st_stackPointer s1) ->
  respects (s ← gets c_stack; lift_option (st_read s (f s))).
Proof.
  intros Hf c1 c2 H. destruct (Hf _ _ (alike_stack _ _ H)) as [He Hl].
  unfold mbind, M_bind, gets, agree. rewrite <-He, (like_read (c_stack c1) (c_stack c2)) by (done || apply H).
  destruct (st_read _ _); cbn; [by split_and!|done].
Qed.

Lemma respects_peek : respects peek.
Proof.
  apply (respects_read (fun s => st_len s - 1)). intros s1 s2 H. rewrite (stack_like_len _ _ H).
  split; [done|]. destruct H. unfold st_len. lia.
Qed.

Lemma respects_peekN n : 0 <= n -> respects (peekN n).
Proof.
  intros Hn. apply (respects_read (fun s => st_len s - n - 1)). intros s1 s2 H. rewrite (stack_like_len _ _ H).
  split; [done|]. destruct H. unfold st_len. lia.
Qed.

Lemma respects_setTop v : respects (setTop v).
Proof.
  apply (respects_stack_ (fun s => st_setTop s v)); [apply st_setTop_wf|]. intros s1 s2 H. unfold st_setTop.
  rewrite (stack_like_len _ _ H). pose proof (like_write s1 s2 (st_len s2 - 1) v H).
  destruct (st_write s1 _ v), (st_write s2 _ v); tauto.
Qed.

(** Pushing exposes a word above the stack, until it is set. *)
Lemma pushUndefined_setTop v : forall s,
  (s1 ← st_pushUndefined s; st_setTop s1 v)
  = if (0 <=? st_stackPointer s) then st_push s v else None.
Proof.
  intros s. unfold st_pushUndefined, st_read, st_push, st_setTop, st_write, st_len. cbn.
  destruct (Z.leb_spec 0 (st_stackPointer s)); [|done]. cbn.
  destruct (st_data s !! Z.to_nat (st_stackPointer s)) as [x|] eqn:E; cbn.
  - apply lookup_lt_Some in E. rewrite Z.add_simpl_r.
    rewrite (proj2 (Z.leb_le 0 _)), (proj2 (Z.ltb_lt _ _)) by zblia. done.
  - apply lookup_ge_None in E. rewrite (proj2 (Z.ltb_ge _ _)) by zblia. done.
Qed.

Lemma like_push v s1 s2 : stack_like s1 s2 ->
  match st_push s1 v, st_push s2 v with
  | Some s1', Some s2' => stack_like s1' s2'
  | None, None => True
  | _, _ => False
  end.
Proof.
  intros H. unfold st_push. pose proof H as [Hp _ _]. pose proof (like_write s1 s2 (st_stackPointer s1) v H) as Hw.
  rewrite <-Hp. destruct (st_write s1 _ v) as [s1'|] eqn:E1, (st_write s2 _ v) as [s2'|]; try done.
  rewrite <-Hp in Hw. apply Hw; [done|]. unfold st_write in E1.
  destruct (0 <=? st_stackPointer s1) eqn:Hb; [b2p; lia|done].
Qed.

Lemma respects_push v : respects (push v).
Proof. apply (respects_stack_ (fun s => st_push s v)); [intros s s'; apply st_push_wf|apply like_push]. Qed.

(** Pushing a value changes the stack, or panics when the array is full. *)
Lemma pushValue_cases v c :
  (exists s, st_push (c_stack c) v = Some s /\ 0 <= st_stackPointer (c_stack c)
     /\ pushValue v c = (Ok tt, set_stack s c))
  \/ ((st_push (c_stack c) v = None \/ st_stackPointer (c_stack c) < 0)
      /\ exists c', pushValue v c = (Panic, c')).
Proof.
  pose proof (pushUndefined_setTop v (c_stack c)) as Hp.
  destruct (Z.leb_spec 0 (st_stackPointer (c_stack c))) as [Hs|Hs].
  all: unfold pushValue, pushUndefined, setTop, mbind, M_bind, gets, modify; cbn.
  all: destruct (st_pushUndefined (c_stack c)) as [s|]; cbn in *.
  all: try (destruct (st_setTop s v) as [s'|]; cbn).
  all: try done.
  all: first [by right; split; [by left|by eexists]|by right; split; [by right|by eexists]|left; by exists s'].
Qed.

Lemma respects_pushValue v : respects (pushValue v).
Proof.
  intros c1 c2 H. pose proof (alike_stack _ _ H) as Hs. pose proof (like_push v _ _ Hs) as Hl.
  pose proof (like_pointer _ _ Hs).
  destruct (pushValue_cases v c1) as [(s1 & E1 & ? & ->)|([E1|?] & c1' & ->)],
    (pushValue_cases v c2) as [(s2 & E2 & ? & ->)|([E2|?] & c2' & ->)];
    rewrite ?E1, ?E2 in Hl; done || lia || idtac.
  cbn [agree].
  split_and!; [done|by apply alike_set_stack|apply kept_set_stack; intros; by eapply st_push_wf..].
Qed.

Lemma respects_dup n : 0 <= n -> respects (dup n).
Proof.
  intros Hn. apply (respects_stack_ (fun s => st_dup s n)); [apply st_dup_wf|]. intros s1 s2 H. unfold st_dup. pose proof H as [Hp _ _].
  rewrite (like_read s1 s2) by (done || lia). rewrite Hp. destruct (st_read s2 _); [|done]. by apply like_push.
Qed.

Lemma respects_swap n : 0 <= n -> respects (swap n).
Proof.
  intros Hn. apply (respects_stack_ (fun s => st_swap s n)); [apply st_swap_wf|]. intros s1 s2 H. unfold st_swap.
  rewrite (stack_like_len _ _ H). pose proof H as [Hp _ _]. unfold st_len.
  rewrite !(like_read s1 s2) by (done || lia).
  destruct (st_read s2 (st_stackPointer s2 - 1)) as [a|]; [|done]. destruct (st_read s2 _) as [b|]; [|done].
  pose proof (like_write s1 s2 (st_stackPointer s2 - n - 1) a H).
  destruct (st_write s1 _ a) as [s1'|], (st_write s2 _ a) as [s2'|]; try done.
  pose proof (like_write s1' s2' (st_stackPointer s2 - 1) b ltac:(tauto)).
  destruct (st_write s1' _ b), (st_write s2' _ b); tauto.
Qed.

(** A function of the shared part, or a change of it. *)
Ltac alike_tac :=
  first [ intros ?c1 ?c2 [];
          unfold isAtLeast, revision, block, set_context, set_gas, set_refund, set_memory, set_returnData;
          first [congruence | constructor; cbn; congruence]
        | intros; apply kept_set_gas
        | intros; done ].

Lemma respects_useGas a : respects (useGas a).
Proof.
  apply respects_bind; [apply respects_gets; alike_tac|intros g].
  apply respects_if; [apply respects_fail|apply respects_modify; alike_tac].
Qed.

Lemma respects_addGas a : respects (addGas a).
Proof.
  apply respects_bind; [apply respects_gets; alike_tac|intros g]. apply respects_modify; alike_tac.
Qed.

Lemma respects_addRefund a : respects (addRefund a).
Proof.
  apply respects_bind; [apply respects_gets; alike_tac|intros g]. apply respects_modify; alike_tac.
Qed.

Lemma respects_host {A} (f : W -> W * A) : respects (host f).
Proof.
  apply respects_bind; [apply respects_gets; alike_tac|intros w]. destruct (f w) as [w' a].
  apply respects_bind; [apply respects_modify; alike_tac|intros _; apply respects_ret].
Qed.

Lemma respects_host_ (f : W -> W) : respects (host_ f).
Proof.
  apply respects_bind; [apply respects_gets; alike_tac|intros w]. apply respects_modify; alike_tac.
Qed.

Lemma respects_host_read {A} (f : W -> A) : respects (host_read f).
Proof. apply respects_gets. intros c1 c2 []. congruence. Qed.

Create HintDb respects.
#[local] Hint Resolve respects_ret respects_fail respects_panic respects_lift_option respects_fail_if
  respects_pop respects_peek respects_setTop respects_push respects_pushValue
  respects_useGas respects_addGas respects_addRefund respects_host respects_host_ respects_host_read : respects.

(** Follows the structure of a computation. *)
Ltac respects_step :=
  match goal with
  | |- respects _ => solve [auto with respects nocore]
  | |- respects (gets _) => apply respects_gets; alike_tac
  | |- respects (modify _) => apply respects_modify; alike_tac
  | |- respects (peekN _) => apply respects_peekN; lia
  | |- respects (dup _) => apply respects_dup; lia
  | |- respects (swap _) => apply respects_swap; lia
  | |- respects (when _ _) => apply respects_when
  | |- respects (on_error _ _) => apply respects_on_error; [|alike_tac]
  | |- respects (mbind _ _) => apply respects_bind; [|intros ?]
  | |- respects (if ?b then _ else _) => destruct b
  | |- respects (match ?x with _ => _ end) => destruct x
  | |- respects (let '(_, _) := ?x in _) => destruct x
  end.

Ltac solve_respects := intros; repeat respects_step.

Lemma respects_expandMemory o s : respects (expandMemory o s).
Proof. unfold expandMemory. cbv zeta. solve_respects. Qed.

#[local] Hint Resolve respects_expandMemory : respects.

Lemma respects_getSlice o s : respects (getSlice o s).
Proof. unfold getSlice, memory_slice. cbv zeta. solve_respects. Qed.

Lemma respects_slice_read sl : respects (slice_read sl).
Proof. unfold slice_read. solve_respects. Qed.

Lemma respects_slice_write sl d : respects (slice_write sl d).
Proof.
  apply respects_modify; [|done]. intros c1 c2 []. constructor; cbn; congruence.
Qed.

#[local] Hint Resolve respects_getSlice respects_slice_read respects_slice_write : respects.

Lemma respects_readWord o : respects (readWord o).
Proof. unfold readWord. solve_respects. Qed.

Lemma respects_mem_set o v : respects (mem_set o v).
Proof. unfold mem_set. solve_respects. Qed.

Lemma respects_chargeAccountAccess a : respects (chargeAccountAccess a).
Proof. unfold chargeAccountAccess. solve_respects. Qed.

Lemma respects_genericDataCopy d : respects (genericDataCopy d).
Proof. unfold genericDataCopy. cbv zeta. solve_respects. Qed.

Lemma respects_pop_topics n : respects (pop_topics n).
Proof. induction n; cbn [pop_topics]; solve_respects. Qed.

#[local] Hint Resolve respects_readWord respects_mem_set respects_chargeAccountAccess
  respects_genericDataCopy respects_pop_topics : respects.


(** ** Instructions *)

Lemma respects_ext {A} (m m' : M W A) : (forall c, m c = m' c) -> respects m -> respects m'.
Proof. intros He Hm c1 c2 H. rewrite <-!He. by apply Hm. Qed.

(** A pushed word that is set at once. *)
Lemma respects_pushUndefined v (m : M W unit) : respects m -> respects (pushUndefined;; setTop v;; m).
Proof.
  intros Hm. apply (respects_ext (pushValue v;; m)); [|solve_respects].
  intros c. unfold pushValue, mbind, M_bind. by destruct (pushUndefined c) as [[[]|e|] c'].
Qed.

(** A pushed word that is set to a value that may not exist. *)
Lemma respects_pushUndefined_option {A} (o : option A) f :
  respects (pushUndefined;; x ← lift_option o; setTop (f x)).
Proof.
  destruct o as [x|]; [apply (respects_pushValue (f x))|].
  intros c1 c2 H. pose proof (like_pointer _ _ (alike_stack _ _ H)) as Hp.
  unfold mbind, M_bind, pushUndefined, gets, modify. cbn.
  unfold mbind, M_bind. cbn. by destruct (st_pushUndefined (c_stack c1)), (st_pushUndefined (c_stack c2)).
Qed.

#[local] Hint Resolve respects_pushUndefined_option : respects.

Lemma respects_opBlobHash : respects opBlobHash.
Proof. unfold opBlobHash. cbv zeta. solve_respects. Qed.

Lemma respects_sha3 : respects (opSha3 Keccak256 Keccak256For32byte).
Proof. unfold opSha3, sha3Cache_hash. cbv zeta. solve_respects. Qed.

Lemma respects_createCall kind value input salt : respects (createCall kind value input salt).
Proof.
  unfold createCall. cbv zeta. repeat first [apply respects_pushUndefined|respects_step].
Qed.

Lemma respects_performCall kind args output g value a : respects (performCall kind args output g value a).
Proof.
  unfold performCall. cbv zeta. repeat first [apply respects_pushUndefined|respects_step].
Qed.

#[local] Hint Resolve respects_createCall respects_performCall respects_opBlobHash respects_sha3 : respects.

Lemma respects_genericCreate kind : respects (genericCreate kind).
Proof. unfold genericCreate. cbv zeta. solve_respects. Qed.

Lemma respects_callCosts kind a v : respects (callCosts kind a v).
Proof. unfold callCosts. solve_respects. Qed.

#[local] Hint Resolve respects_genericCreate respects_callCosts : respects.

Lemma respects_genericCall kind : respects (genericCall kind).
Proof. unfold genericCall. cbv zeta. solve_respects. Qed.

Lemma respects_opLog n : respects (opLog n).
Proof. unfold opLog. cbv zeta. solve_respects. Qed.

Lemma respects_opSelfdestruct : respects opSelfdestruct.
Proof. unfold opSelfdestruct. cbv zeta. solve_respects. Qed.

Lemma respects_opReturnDataCopy : respects opReturnDataCopy.
Proof. unfold opReturnDataCopy. cbv zeta. solve_respects. Qed.

Lemma respects_opSstore : respects opSstore.
Proof. unfold opSstore. cbv zeta. solve_respects. Qed.

Lemma respects_opBlockhash : respects opBlockhash.
Proof. unfold opBlockhash. cbv zeta. solve_respects. Qed.

Lemma respects_opEndWithResult : respects opEndWithResult.
Proof. unfold opEndWithResult. solve_respects. Qed.

#[local] Hint Resolve respects_genericCall respects_opLog respects_opSelfdestruct
  respects_opReturnDataCopy respects_opSstore respects_opBlockhash respects_opEndWithResult : respects.

(** The instructions that see more than the shared part. *)
Definition positional (op : OpCode) : bool :=
  op_in PUSH1 PUSH32 op || Byte.eqb op PC || Byte.eqb op JUMP || Byte.eqb op JUMPI.

Lemma respects_params {A} (f : Parameters -> M W A) : (forall p, respects (f p)) ->
  respects (c ← gets id; f (c_params c)).
Proof.
  intros Hf. apply (respects_ext (p ← gets c_params; f p)); [done|]. solve_respects.
Qed.

(** The constant an application starts with. *)
Ltac head_of t := match t with ?f _ => head_of f | _ => t end.

Lemma respects_dispatch op : positional op = false ->
  respects (dispatch Keccak256 Keccak256For32byte op).
Proof.
  intros Hp. destruct op; try discriminate Hp; clear Hp; unfold dispatch, running, opStop;
  first [ solve [auto with respects nocore]
        | match goal with |- context [p_Input] =>
            apply (respects_params (fun p => genericDataCopy (p_Input p);; mret statusRunning)) end;
          solve [solve_respects]
        | match goal with |- context [p_Code] =>
            apply (respects_params (fun p => genericDataCopy (p_Code p);; mret statusRunning)) end;
          solve [solve_respects]
        | apply respects_bind; [|intros ?; apply respects_ret];
          first [ solve [auto with respects nocore]
                | match goal with |- respects ?m => let h := head_of m in unfold h end;
                  unfold binary, comparison; cbv zeta; solve [solve_respects] ] ].
Qed.

End Shared.
