(* ===== verification/LfvmPush.v ===== *)
(** * Pushes in the two forms of the code

    The push instructions of [sfvm] read their data from the EVM code, those of
    the long form from the arguments of the instruction and of the [DATA]
    instructions after it. Both push the number the immediate data stands for. *)
From Stdlib Require Import ZArith Lia Strings.Byte.
From stdpp Require Import base list numbers.
From S2P Require Import Prelude Uint256 Types OpCodes SfvmStack SfvmAnalysis SfvmHashCache.
From S2P Require Import SfvmContext SfvmMemory SfvmInstructions SfvmInterpreter.
From S2P Require Import LfvmOpCodes LfvmConverter LfvmLayout LfvmContext LfvmInstructions.
From S2P Require Import LfvmInterpreter LfvmShared.
Set Default Goal Selector "!".
Local Open Scope Z_scope.
Local Open Scope go_scope.

(** ** Packed bytes *)

(** Bits that do not overlap. *)
Lemma lor_shifted a b k : 0 <= k -> 0 <= b < 2 ^ k -> Z.lor (a * 2 ^ k) b = a * 2 ^ k + b.
Proof.
  intros Hk Hb. rewrite <-Z.shiftl_mul_pow2 by done.
  rewrite <-Z.lxor_lor, <-Z.add_nocarry_lxor; [done| |];
  (apply Z.bits_inj'; intros n Hn; rewrite Z.land_spec, Z.bits_0;
   destruct (Z.lt_ge_cases n k); [by rewrite Z.shiftl_spec_low|];
   rewrite <-(Z.mod_small b (2 ^ k)), (Z.mod_pow2_bits_high b k n) by lia; apply andb_false_r).
Qed.

(** A limb from four arguments. *)
Lemma limb_val a0 a1 a2 a3 : 0 <= a0 < 2 ^ 16 -> 0 <= a1 < 2 ^ 16 -> 0 <= a2 < 2 ^ 16 -> 0 <= a3 < 2 ^ 16 ->
  Z.lor (Z.lor (Z.lor (u64 (Z.shiftl a0 48)) (u64 (Z.shiftl a1 32))) (u64 (Z.shiftl a2 16))) a3
  = a0 * 2 ^ 48 + a1 * 2 ^ 32 + a2 * 2 ^ 16 + a3.
Proof.
  intros. rewrite !Z.shiftl_mul_pow2, !u64_id by zblia.
  rewrite (lor_shifted a0 (a1 * 2 ^ 32) 48) by lia.
  replace (a0 * 2 ^ 48 + a1 * 2 ^ 32) with ((a0 * 2 ^ 16 + a1) * 2 ^ 32) by lia.
  rewrite (lor_shifted _ (a2 * 2 ^ 16) 32) by lia.
  replace ((a0 * 2 ^ 16 + a1) * 2 ^ 32 + a2 * 2 ^ 16) with (((a0 * 2 ^ 16 + a1) * 2 ^ 16 + a2) * 2 ^ 16) by lia.
  rewrite (lor_shifted _ a3 16) by lia. lia.
Qed.

Lemma high_val a : high a = byte_val a * 256.
Proof.
  pose proof (byte_val_range a). unfold high, u16. rewrite Z.shiftl_mul_pow2 by done.
  rewrite wrapU_id; [done|lia].
Qed.

Lemma pack_val a b : pack a b = byte_val a * 256 + byte_val b.
Proof.
  pose proof (byte_val_range b). unfold pack. fold (high a). rewrite high_val.
  by apply (lor_shifted _ _ 8).
Qed.

Lemma pack_range a b : 0 <= pack a b < 2 ^ 16.
Proof. rewrite pack_val. pose proof (byte_val_range a). pose proof (byte_val_range b). lia. Qed.

Lemma high_shift a : Z.shiftr (high a) 8 = byte_val a.
Proof. rewrite high_val, Z.shiftr_div_pow2 by done. apply (Z.div_mul (byte_val a) 256). done. Qed.

Lemma pack_shift a b : Z.shiftr (pack a b) 8 = byte_val a.
Proof.
  rewrite pack_val, Z.shiftr_div_pow2 by done. pose proof (byte_val_range b).
  change (2 ^ 8) with 256. rewrite Z.div_add_l, Z.div_small by lia. lia.
Qed.

Lemma byte_of_pack a b : byte_of (pack a b) = b.
Proof.
  apply byte_val_inj. rewrite byte_val_of, pack_val, Z.add_comm, Z_mod_plus_full.
  apply Z.mod_small, byte_val_range.
Qed.

(** Unpacking is the inverse of packing. *)
Lemma unpack_packs op : forall d, (0 < length d)%nat -> unpack (length d) (translatePush op d) = d.
Proof.
  assert (forall x : LOpCode, forall d, unpack (length d) (map (mkInstruction x) (packs d)) = d) as H.
  { intros x. fix IH 1. intros [|a [|b d]]; cbn [packs length unpack map arg]; [done| |].
    - by rewrite high_shift, byte_of_val.
    - by rewrite pack_shift, byte_of_pack, byte_of_val, IH. }
  intros [|a [|b d]] Hd; cbn [length] in Hd; [lia| |]; unfold translatePush; cbn [packs length unpack map arg].
  - by rewrite high_shift, byte_of_val.
  - by rewrite pack_shift, byte_of_pack, byte_of_val, H.
Qed.

(** Two bytes at a time. *)
Lemma be_val_pack a b d : be_val (a :: b :: d) = pack a b * 256 ^ zlen d + be_val d.
Proof.
  rewrite !be_val_cons, pack_val. unfold zlen. cbn [length].
  rewrite Nat2Z.inj_succ, Z.pow_succ_r by lia. lia.
Qed.

Lemma immediate_val code i n b d : immediate code i n = b :: d -> 0 <= be_val (b :: d) < 256 ^ Z.of_nat n.
Proof.
  intros H. pose proof (be_val_range (b :: d)) as Hr. rewrite <-H in *. unfold zlen in Hr.
  by rewrite immediate_length in Hr.
Qed.

Lemma packs_half d : zlen (packs d) = Z.of_nat (length d / 2 + length d mod 2).
Proof.
  unfold zlen. f_equal. pose proof (packs_length d). pose proof (Nat.div_mod_eq (length d) 2).
  pose proof (Nat.mod_upper_bound (length d) 2). lia.
Qed.

(** ** Normal forms *)

Section Push.
Context {W : Type} {U : Uint256} {UL : Uint256Laws U} {RC : RunContext W} {G : Globals W}.
Context (Keccak256 : list byte -> Hash) (Keccak256For32byte : array 32 -> Hash).
Implicit Types (s : context W) (l : lcontext W).

(** The word the data of a push at [i] stands for. *)
Definition pushed (code : Code) (i n : nat) : u256 := of_Z (be_val (immediate code i n)).

Definition s_push (v : u256) (d : Z) : M W status :=
  pushUndefined;; setTop v;; c ← gets id; modify (set_pc (c_pc c +i32 d));; mret statusRunning.

Definition l_push (v : u256) (d : Z) : LM W status :=
  l_pushUndefined;; l_setTop v;; l_skip d;; mret statusRunning.

Lemma l_assoc {A B D} (m : LM W A) (f : A -> LM W B) (g : B -> LM W D) l :
  mbind g (mbind f m) l = mbind (fun a => mbind g (f a)) m l.
Proof. unfold mbind, LM_bind. by destruct (m l) as [[a|e|] l']. Qed.

Lemma l_bind_cong {A B} (m : LM W A) (f g : A -> LM W B) l :
  (forall a l', m l = (Ok a, l') -> f a l' = g a l') -> mbind f m l = mbind g m l.
Proof. intros H. unfold mbind, LM_bind. destruct (m l) as [[a|e|] l'] eqn:E; [|done..]. by apply H. Qed.

Lemma s_assoc {A B D} (m : M W A) (f : A -> M W B) (g : B -> M W D) s :
  mbind g (mbind f m) s = mbind (fun a => mbind g (f a)) m s.
Proof. unfold mbind, M_bind. by destruct (m s) as [[a|e|] s']. Qed.

Lemma s_bind_cong {A B} (m : M W A) (f g : A -> M W B) s :
  (forall a s', m s = (Ok a, s') -> f a s' = g a s') -> mbind f m s = mbind g m s.
Proof. intros H. unfold mbind, M_bind. destruct (m s) as [[a|e|] s'] eqn:E; [|done..]. by apply H. Qed.

(** Pushing leaves the code and the program counter alone. *)
Lemma pushUndefined_frame s s' a : pushUndefined s = (Ok a, s') ->
  c_code s' = c_code s /\ c_pc s' = c_pc s.
Proof.
  unfold pushUndefined, mbind, M_bind, gets. destruct (st_pushUndefined (c_stack s)); cbn; [|done].
  by intros [= <- <-].
Qed.

Lemma l_pushUndefined_frame l l' a : l_pushUndefined l = (Ok a, l') ->
  l_code l' = l_code l /\ l_pc l' = l_pc l.
Proof.
  unfold l_pushUndefined, shared. destruct (pushUndefined (toSfvm l)) as [r s] eqn:E. intros [= -> <-].
  apply pushUndefined_frame in E as [_ Hp]. by split.
Qed.

Lemma setTop_frame v s s' a : setTop v s = (Ok a, s') -> c_pc s' = c_pc s.
Proof.
  unfold setTop, mbind, M_bind, gets. destruct (st_setTop (c_stack s) v); cbn; [|done].
  by intros [= <- <-].
Qed.

Lemma immediate_cons code i n :
  immediate code i (S n) = default x00 (code !! (i + 1)%nat) :: immediate code (i + 1) n.
Proof.
  unfold immediate. destruct (code !! (i + 1)%nat) as [b|] eqn:E; cbn [default].
  - rewrite (drop_S code b (i + 1) E), <-(Nat.add_1_r (i + 1)). cbn [app take]. unfold id. f_equal.
    rewrite !take_app, !take_replicate. by rewrite !Nat.min_l by lia.
  - apply lookup_ge_None in E. rewrite !drop_ge by lia. cbn. by rewrite take_replicate, Nat.min_id.
Qed.

(** ** The pushes of [sfvm] *)

Section Small.
Context (code : Code) (i : nat) (s : context W).
Context (Hcode : c_code s = code) (Hpc : c_pc s = Z.of_nat i).
Context (Hi : (i < length code)%nat) (Hlen : zlen code < 2 ^ 31 - 64).

(** A push whose data is read once the stack has grown. *)
Lemma s_push_form (m : context W -> M W unit) v d :
  (forall c : context W, c_code c = code -> c_pc c = Z.of_nat i -> m c c = setTop v c) ->
  SfvmInterpreter.running (pushUndefined;; c ← gets id; m c;; modify (set_pc (c_pc c +i32 d))) s
  = s_push v d s.
Proof.
  intros Hm. unfold SfvmInterpreter.running, s_push, mbind, M_bind.
  destruct (pushUndefined s) as [[[]|e|] s'] eqn:E; [|done..].
  apply pushUndefined_frame in E as [Hc Hp]. cbn [gets id]. unfold id. rewrite (Hm s') by congruence.
  destruct (setTop v s') as [[[]|e|] s''] eqn:E; [|done..]. apply setTop_frame in E. cbn. by rewrite E.
Qed.

(** Reading a byte of the code. *)
Lemma s_code_at k (c : context W) : c_code c = code -> c_pc c = Z.of_nat i -> (k <= 2)%nat -> (i + k < length code)%nat ->
  SfvmInstructions.code_at (c_pc c +i32 Z.of_nat k) c = (Ok (default x00 (code !! (i + k)%nat)), c).
Proof.
  intros Hc Hp Hk Hl. unfold SfvmInstructions.code_at, mbind, M_bind, gets, id.
  rewrite Hp, i32_id, Hc by zblia. rewrite (proj2 (Z.ltb_ge _ _)) by lia.
  replace (Z.to_nat (Z.of_nat i + Z.of_nat k)) with (i + k)%nat by lia.
  destruct (lookup_lt_is_Some_2 code (i + k)) as [b ->]; done.
Qed.

Lemma s_push1 : SfvmInterpreter.running SfvmInstructions.opPush1 s = s_push (pushed code i 1) 1 s.
Proof.
  apply (s_push_form (fun c : context W => if zlen (c_code c) <=? c_pc c + 1 then setTop (of_Z 0)
    else b ← SfvmInstructions.code_at (c_pc c +i32 1); setTop (of_Z (byte_val b)))).
  intros c Hc Hp. unfold pushed. rewrite immediate_cons. destruct (Z.leb_spec (zlen (c_code c)) (c_pc c + 1)) as [Hl|Hl];
    rewrite Hc, Hp in Hl.
  - by rewrite lookup_ge_None_2 by zblia.
  - unfold mbind, M_bind. rewrite (s_code_at 1) by (done || zblia || lia). done.
Qed.

Lemma s_push2 : SfvmInterpreter.running SfvmInstructions.opPush2 s = s_push (pushed code i 2) 2 s.
Proof.
  apply (s_push_form (fun c : context W => if zlen (c_code c) <=? c_pc c + 1 then setTop (of_Z 0)
    else if zlen (c_code c) <=? c_pc c + 2 then
      b ← SfvmInstructions.code_at (c_pc c +i32 1); setTop (of_Z (Z.shiftl (byte_val b) 8))
    else b1 ← SfvmInstructions.code_at (c_pc c +i32 1); b2 ← SfvmInstructions.code_at (c_pc c +i32 2);
      setTop (of_Z (Z.lor (Z.shiftl (byte_val b1) 8) (byte_val b2))))).
  intros c Hc Hp. unfold pushed. rewrite !immediate_cons. rewrite <-Nat.add_assoc. change (1 + 1)%nat with 2%nat.
  change (immediate _ _ 0) with (@nil byte). rewrite be_val_pack, pack_val.
  change (256 ^ zlen []) with 1. change (be_val []) with 0. rewrite Z.mul_1_r, Z.add_0_r.
  destruct (Z.leb_spec (zlen (c_code c)) (c_pc c + 1)) as [Hl|Hl]; rewrite Hc, Hp in Hl.
  { by rewrite !lookup_ge_None_2 by zblia. }
  unfold mbind, M_bind. pose proof (s_code_at 1 c Hc Hp) as H1. pose proof (s_code_at 2 c Hc Hp) as H2.
  change (Z.of_nat 1) with 1 in H1. change (Z.of_nat 2) with 2 in H2.
  destruct (Z.leb_spec (zlen (c_code c)) (c_pc c + 2)) as [Hl2|Hl2]; rewrite Hc, Hp in Hl2.
  all: rewrite H1 by zblia. all: rewrite ?H2 by zblia.
  all: rewrite Z.shiftl_mul_pow2 by done.
  - rewrite (lookup_ge_None_2 code (i + 2)) by zblia. cbn [default]. change (byte_val x00) with 0. by rewrite Z.add_0_r.
  - by rewrite (lor_shifted _ _ 8) by (done || apply byte_val_range).
Qed.

(** Changing the word that was pushed. *)
Lemma push_change v f (c : context W) :
  (pushValue v;; top ← peek; setTop (f top)) c = pushValue (f v) c.
Proof.
  unfold pushValue, peek, setTop, pushUndefined, mbind, M_bind, gets. cbn.
  destruct (st_pushUndefined (c_stack c)) as [st|]; cbn; [|done].
  unfold st_setTop at 1 3, st_write. destruct (_ && _) eqn:E; cbn; [|done]. b2p.
  unfold st_peek, st_read, st_len. cbn. unfold st_len in *.
  rewrite (proj2 (Z.leb_le _ _)), list_lookup_insert_eq by zblia. cbn.
  unfold st_setTop, st_write. cbn. unfold st_len, zlen in *. cbn. rewrite length_insert.
  rewrite (proj2 (Z.leb_le _ _)), (proj2 (Z.ltb_lt _ _)) by lia. cbn. by rewrite list_insert_insert_eq.
Qed.

Lemma immediate_slice n : let start := Z.of_nat i + 1 in let end_ := Z.min (zlen code) (start + Z.of_nat n) in
  immediate code i n = slice code start end_ ++ zeros (Z.of_nat n - (end_ - start)).
Proof.
  intros start end_. unfold immediate, slice, zeros. rewrite take_app, take_replicate, length_drop.
  replace (Z.to_nat start) with (i + 1)%nat by lia. f_equal.
  - unfold end_, start, zlen. destruct (Z.min_spec (Z.of_nat (length code)) (Z.of_nat i + 1 + Z.of_nat n)) as [[? ->]|[? ->]].
    + rewrite !take_ge; [done|rewrite length_drop; lia..].
    + f_equal. lia.
  - f_equal. unfold end_, start, zlen. lia.
Qed.

Lemma s_pushN (n : nat) : (1 <= n <= 32)%nat ->
  SfvmInterpreter.running (SfvmInstructions.opPush (Z.of_nat n)) s = s_push (pushed code i n) (Z.of_nat n) s.
Proof.
  intros Hn. set (missing := Z.of_nat n - (Z.min (zlen code) (Z.of_nat i + 1 + Z.of_nat n) - (Z.of_nat i + 1))).
  set (d := slice code (Z.of_nat i + 1) (Z.min (zlen code) (Z.of_nat i + 1 + Z.of_nat n))).
  assert (immediate code i n = d ++ zeros missing) as Him by apply immediate_slice.
  assert (0 <= missing) as Hmis by (unfold missing; zblia).
  transitivity ((pushValue (pushed code i n);; c ← gets id;
    modify (set_pc (c_pc c +i32 Z.of_nat n));; mret statusRunning) s).
  - assert ((pushValue (pushed code i n)) s
      = (pushValue (Int_SetBytes d);; when (missing >? 0) (top ← peek; setTop (Int_Lsh top (8 * missing)))) s) as Hv.
    + assert (be_val (d ++ zeros missing) < M256) as Hlt.
      { rewrite <-Him. pose proof (be_val_range (immediate code i n)) as Hr. unfold zlen in Hr. rewrite immediate_length in Hr.
        eapply Z.lt_le_trans; [apply Hr|]. change M256 with (256 ^ 32). apply Z.pow_le_mono_r; lia. }
      pose proof (be_val_range d) as Hd. rewrite be_val_padded in Hlt by done.
      destruct (Z.gtb_spec missing 0) as [Hm|Hm]; cbn [when].
      * rewrite push_change. f_equal. apply u256_eq. unfold pushed.
        rewrite uval_of_Z, Him, be_val_padded, Lsh_law, SetBytes_law, Z.shiftl_mul_pow2 by lia.
        by rewrite Zmult_mod_idemp_l.
      * assert (pushed code i n = Int_SetBytes d) as ->.
        { apply u256_eq. unfold pushed. rewrite uval_of_Z, SetBytes_law, Him.
          assert (missing = 0) as -> by lia. unfold zeros. cbn. by rewrite app_nil_r. }
        unfold mbind, M_bind. by destruct (pushValue _ s) as [[[]|e|] s'].
    + unfold SfvmInterpreter.running, SfvmInstructions.opPush, mbind, M_bind in *. cbn [gets id] in *. unfold id in *.
      rewrite Hcode, Hpc, i32_id by zblia. rewrite (Z.min_r (zlen code)) by zblia.
      rewrite (proj2 (Z.ltb_ge _ _)) by lia. fold d missing.
      rewrite Hv. destruct (pushValue (Int_SetBytes d) s) as [[[]|e|] s'] eqn:E1; [|done..].
      destruct (when _ _ s') as [[[]|e|] s''] eqn:E2; done.
  - unfold s_push, pushValue, mbind, M_bind. by destruct (pushUndefined s) as [[[]|e|] s'].
Qed.

End Small.

(** ** The pushes of the long form *)

Section Long.
Context (code : Code) (i j : nat) (res rest : LCode) (op : OpCode) (l : lcontext W).
Context (Hcode : l_code l = res) (Hpc : l_pc l = Z.of_nat j) (Hlen : zlen res < 2 ^ 31).

Abbreviation x n := (translatePush op (immediate code i n)).

(** A push that reads its data once the stack has grown. *)
Lemma l_push_form (m : LM W unit) v d :
  (forall c, l_code c = res -> l_pc c = Z.of_nat j -> m c = (l_setTop v;; l_skip d) c) ->
  running (l_pushUndefined;; m) l = l_push v d l.
Proof.
  intros Hm. unfold running, l_push. rewrite l_assoc. apply l_bind_cong. intros [] l' E.
  apply l_pushUndefined_frame in E as [Hc Hp].
  assert ((m;; mret statusRunning) l' = ((l_setTop v;; l_skip d);; mret statusRunning) l') as ->.
  { unfold mbind at 1 2, LM_bind at 1 2. by rewrite Hm by congruence. }
  by rewrite l_assoc.
Qed.

Lemma l_arg (y : Instruction) r (c : lcontext W) : drop j res = y :: r ->
  l_code c = res -> l_pc c = Z.of_nat j -> currentArg c = (Ok (arg y), c).
Proof.
  intros Hd Hc Hp. unfold currentArg, l_code_at, mbind, LM_bind, l_gets, id.
  rewrite Hp, Hc, (proj2 (Z.ltb_ge _ _)), Nat2Z.id by lia.
  rewrite <-(Nat.add_0_r j), <-lookup_drop, Hd. done.
Qed.

Lemma l_data (y r : LCode) (c : lcontext W) : drop j res = y ++ r -> (0 < length y)%nat ->
  l_code c = res -> l_pc c = Z.of_nat j ->
  l_code_slice (zlen y) c = (Ok y, c).
Proof.
  intros Hd Hy Hc Hp. unfold l_code_slice, mbind, LM_bind, l_gets, id. rewrite Hp, Hc.
  assert (j + length y <= length res)%nat as Hl.
  { pose proof (f_equal length Hd) as E. rewrite length_drop, length_app in E. lia. }
  rewrite i32_id by zblia.
  rewrite (proj2 (Z.ltb_ge (Z.of_nat j) 0)), !(proj2 (Z.ltb_ge _ _)) by zblia. cbn [orb].
  unfold slice, zlen. rewrite Nat2Z.id, Hd, take_app_length' by lia. done.
Qed.

Lemma l_skip_0 v (c : lcontext W) : l_pc c = Z.of_nat j -> (j < length res)%nat ->
  l_setTop v c = (l_setTop v;; l_skip 0) c.
Proof.
  intros Hp Hj. unfold mbind, LM_bind.
  assert (forall r c', l_setTop v c = (Ok r, c') -> l_pc c' = l_pc c) as Hf.
  { intros r c'. unfold l_setTop, shared. destruct (setTop v (toSfvm c)) as [o t] eqn:E.
    intros [= -> <-]. by apply setTop_frame in E. }
  destruct (l_setTop v c) as [[[]|e|] c'] eqn:E; [|done..]. specialize (Hf _ _ eq_refl).
  unfold l_skip, l_jump, mbind, LM_bind, l_gets, l_modify, id. rewrite Z.add_0_r, i32_id by zblia.
  by destruct c'.
Qed.

Lemma l_push1 : drop j res = x 1 ++ rest -> running opPush1 l = l_push (pushed code i 1) 0 l.
Proof.
  intros Hd. unfold opPush1. apply l_push_form. intros c Hc Hp. unfold pushed in *.
  rewrite immediate_cons in *. change (immediate _ _ 0) with (@nil byte) in *.
  assert (j < length res)%nat as Hj.
  { apply (f_equal length) in Hd. rewrite length_drop in Hd. cbn in Hd. lia. }
  cbn in Hd. unfold mbind at 1, LM_bind at 1.
  rewrite (l_arg _ _ c Hd Hc Hp). cbn [arg]. rewrite high_shift. by apply l_skip_0.
Qed.

Lemma l_push2 : drop j res = x 2 ++ rest -> running opPush2 l = l_push (pushed code i 2) 0 l.
Proof.
  intros Hd. unfold opPush2. apply l_push_form. intros c Hc Hp. unfold pushed in *.
  rewrite !immediate_cons in *. change (immediate _ _ 0) with (@nil byte) in *.
  assert (j < length res)%nat as Hj.
  { apply (f_equal length) in Hd. rewrite length_drop in Hd. cbn in Hd. lia. }
  cbn in Hd. unfold mbind at 1, LM_bind at 1. rewrite (l_arg _ _ c Hd Hc Hp). cbn [arg].
  rewrite be_val_pack. change (256 ^ zlen []) with 1. change (be_val []) with 0.
  rewrite Z.mul_1_r, Z.add_0_r. by apply l_skip_0.
Qed.

(** Two instructions. *)
Lemma l_two (f : Z -> Z -> Z) y0 y1 r v : drop j res = y0 :: y1 :: r ->
  of_limbs 0 0 0 (f (arg y0) (arg y1)) = v ->
  running (l_pushUndefined;; data ← l_code_slice 2; a0 ← arg_at data 0; a1 ← arg_at data 1;
    l_setTop (of_limbs 0 0 0 (f a0 a1));; l_skip 1) l = l_push v 1 l.
Proof.
  intros Hd <-. apply l_push_form. intros c Hc Hp. unfold mbind at 1, LM_bind at 1.
  change 2 with (zlen [y0; y1]). rewrite (l_data [y0; y1] r c); [done|done|cbn; lia|done..].
Qed.

Lemma l_push3 : drop j res = x 3 ++ rest -> running opPush3 l = l_push (pushed code i 3) 1 l.
Proof.
  unfold pushed. rewrite !immediate_cons. change (immediate _ _ 0) with (@nil byte). cbn [translatePush packs map app].
  intros Hd. unfold opPush3. apply (l_two (fun a0 a1 => Z.lor (u64 (Z.shiftl a0 8)) (Z.shiftr a1 8)) _ _ _ _ Hd).
  cbn [arg]. unfold of_limbs. f_equal. rewrite high_shift, be_val_pack.
  set (p := pack _ _). set (b := default _ _). pose proof (pack_range _ _ : 0 <= p < _). pose proof (byte_val_range b).
  rewrite Z.shiftl_mul_pow2, u64_id by zblia. rewrite lor_shifted by lia. rewrite be_val_cons.
  change (zlen [b]) with 1. change (zlen []) with 0. change (be_val []) with 0. lia.
Qed.

Lemma l_push4 : drop j res = x 4 ++ rest -> running opPush4 l = l_push (pushed code i 4) 1 l.
Proof.
  unfold pushed. rewrite !immediate_cons. change (immediate _ _ 0) with (@nil byte). cbn [translatePush packs map app].
  intros Hd. unfold opPush4. apply (l_two (fun a0 a1 => Z.lor (u64 (Z.shiftl a0 16)) a1) _ _ _ _ Hd).
  cbn [arg]. unfold of_limbs. f_equal. rewrite !be_val_pack. change (zlen [_; _]) with 2. change (zlen []) with 0.
  change (be_val []) with 0. set (p := pack _ _). set (q := pack _ _).
  pose proof (pack_range _ _ : 0 <= p < _). pose proof (pack_range _ _ : 0 <= q < _).
  rewrite Z.shiftl_mul_pow2, u64_id by zblia. rewrite lor_shifted by lia. lia.
Qed.

Lemma l_pushN n : (1 <= n <= 32)%nat -> drop j res = x n ++ rest ->
  running (opPush n) l = l_push (pushed code i n) (zlen (x n) - 1) l.
Proof.
  intros Hn Hd. unfold opPush. apply l_push_form. intros c Hc Hp.
  pose proof (immediate_length code i n) as Hl.
  assert (Z.of_nat (n / 2 + n mod 2) = zlen (x n)) as Hz.
  { unfold zlen. rewrite translatePush_length. rewrite <-Hl at 1 2. symmetry. apply packs_half. }
  unfold mbind at 1, LM_bind at 1. rewrite Hz, (l_data (x n) rest c) by
    (done || (rewrite translatePush_length; pose proof (packs_length (immediate code i n)); lia)).
  rewrite <-Hl at 1. rewrite unpack_packs by lia.
  assert (Int_SetBytes (immediate code i n) = pushed code i n) as ->; [|done].
  apply u256_eq. unfold pushed. by rewrite uval_of_Z, SetBytes_law.
Qed.

Lemma limb_at_val (data : LCode) k a0 b0 a1 b1 a2 b2 a3 b3 (c : lcontext W) :
  take 4 (map arg (drop k data)) = [pack a0 b0; pack a1 b1; pack a2 b2; pack a3 b3] ->
  limb_at data k c
  = (Ok (pack a0 b0 * 2 ^ 48 + pack a1 b1 * 2 ^ 32 + pack a2 b2 * 2 ^ 16 + pack a3 b3), c).
Proof.
  intros Ht. unfold limb_at, arg_at. rewrite <-(Nat.add_0_r k) at 1. rewrite <-!(lookup_drop data k).
  destruct (drop k data) as [|y0 [|y1 [|y2 [|y3 r]]]]; try discriminate Ht.
  cbn in Ht. injection Ht as H0 H1 H2 H3. rewrite <-limb_val by apply pack_range.
  unfold mbind, LM_bind. cbn. by rewrite H0, H1, H2, H3.
Qed.

Lemma l_push32 : drop j res = x 32 ++ rest -> running opPush32 l = l_push (pushed code i 32) 15 l.
Proof.
  intros Hd. unfold opPush32. apply l_push_form. intros c Hc Hp. unfold pushed.
  pose proof (immediate_length code i 32) as Hl. revert Hl Hd. generalize (immediate code i 32). intros d Hl Hd.
  do 32 (destruct d as [|? d]; [done|]). destruct d; [|done]. clear Hl.
  unfold mbind at 1, LM_bind at 1. unfold translatePush in Hd. cbn [packs map] in Hd.
  match type of Hd with _ = ?y ++ _ => change 16 with (zlen y); rewrite (l_data y rest c Hd) by (done || (cbn; lia)) end.
  do 4 (unfold mbind at 1, LM_bind at 1; erewrite limb_at_val by (cbn; reflexivity)).
  do 3 f_equal. unfold of_limbs. f_equal. rewrite !be_val_pack.
  repeat match goal with |- context [zlen ?y] => let n := eval vm_compute in (zlen y) in change (zlen y) with n end.
  change (be_val []) with 0. lia.
Qed.

End Long.

(** ** All push instructions *)

Definition pushSize (op : OpCode) : nat := Z.to_nat (byte_val op - byte_val PUSH1 + 1).

Lemma s_pushes code i op s : c_code s = code -> c_pc s = Z.of_nat i -> (i < length code)%nat ->
  zlen code < 2 ^ 31 - 64 -> op_in PUSH1 PUSH32 op = true ->
  SfvmInterpreter.dispatch Keccak256 Keccak256For32byte op s
  = s_push (pushed code i (pushSize op)) (Z.of_nat (pushSize op)) s.
Proof.
  intros Hc Hp Hi Hl Hop.
  destruct op; try discriminate Hop; first [by apply s_push1|by apply s_push2|idtac].
  all: match goal with |- _ = s_push (pushed _ _ ?n) _ _ =>
         apply (s_pushN code i s Hc Hp Hi Hl n); vm_compute; lia end.
Qed.

Lemma l_pushes code i j res rest op l : l_code l = res -> l_pc l = Z.of_nat j -> zlen res < 2 ^ 31 ->
  op_in PUSH1 PUSH32 op = true ->
  drop j res = translatePush op (immediate code i (pushSize op)) ++ rest ->
  dispatch Keccak256 Keccak256For32byte (Base op) l
  = l_push (pushed code i (pushSize op)) (zlen (translatePush op (immediate code i (pushSize op))) - 1) l.
Proof.
  intros Hc Hp Hl Hop Hd.
  assert (zlen (translatePush op (immediate code i (pushSize op))) - 1
    = Z.of_nat (pushSize op / 2 + pushSize op mod 2) - 1) as Hz.
  { unfold zlen. rewrite translatePush_length. fold (zlen (packs (immediate code i (pushSize op)))).
    by rewrite packs_half, immediate_length. }
  destruct op; try discriminate Hop;
  first [ rewrite Hz; first [by eapply l_push1|by eapply l_push2|by eapply l_push3|by eapply l_push4|by eapply l_push32]
        | clear Hz ].
  all: match goal with |- _ = l_push (pushed _ _ ?n) _ _ =>
         eapply (l_pushN code i j res rest _ l Hc Hp Hl n); [vm_compute; lia|exact Hd] end.
Qed.

End Push.
