(* ===== verification/LfvmSimulation.v ===== *)
(** * The long-form interpreter simulates [sfvm]

    A relation between the contexts of the two interpreters, rules for
    computations that keep it, and the simulation of each EVM instruction and of
    the instructions the conversion adds. *)
From Stdlib Require Import ZArith Lia Strings.Byte.
From stdpp Require Import base list numbers.
From S2P Require Import Prelude Uint256 Types OpCodes SfvmStack SfvmAnalysis SfvmHashCache.
From S2P Require Import SfvmContext SfvmMemory SfvmGas SfvmInstructions SfvmInterpreter SfvmExecution.
From S2P Require Import LfvmOpCodes LfvmConverter LfvmLayout LfvmContext LfvmGas LfvmInstructions.
From S2P Require Import LfvmInterpreter LfvmShared LfvmPush.
Set Default Goal Selector "!".
Local Open Scope Z_scope.
Local Open Scope go_scope.

(** The price of a long-form op code before its dynamic costs. *)
Definition lfvmPrice (berlin : bool) (op : LOpCode) : Gas :=
  if berlin then LfvmGas.getBerlinGasPriceInternal op else LfvmGas.getStaticGasPriceInternal op.

(** The op codes the conversion produces. *)
Definition defined (op : LOpCode) : Prop := match op with Undefined _ => False | _ => True end.

Lemma defined_table {T} (f : LOpCode -> T) op : defined op ->
  LfvmOpCodes.property_get (LfvmOpCodes.newOpCodePropertyMap f) op = Some (f op).
Proof.
  intros Hd. apply longPropertyMap_get; [by destruct op|].
  destruct op; try done. unfold LfvmOpCodes.numOpCodes, opCodeMask. cbn. pose proof (byte_val_range op). lia.
Qed.

Lemma lfvmPrice_base b op : lfvmPrice b (Base op) = staticPrice b op.
Proof. destruct b; [|done]. unfold lfvmPrice, staticPrice. by destruct op. Qed.

Section Simulation.
Context {W : Type} {U : Uint256} {UL : Uint256Laws U} {RC : RunContext W} {G : Globals W}.
Context (Keccak256 : list byte -> Hash) (Keccak256For32byte : array 32 -> Hash).
Implicit Types (s : context W) (l : lcontext W).

Abbreviation s_step := (SfvmInterpreter.step Keccak256 Keccak256For32byte).
Abbreviation l_step := (LfvmInterpreter.step Keccak256 Keccak256For32byte).
Abbreviation s_dispatch := (SfvmInterpreter.dispatch Keccak256 Keccak256For32byte).
Abbreviation l_dispatch := (LfvmInterpreter.dispatch Keccak256 Keccak256For32byte).

(** ** Two computations side by side *)

(** Outcomes of the same kind; values satisfy [Q], and errors leave contexts
    that are alike. *)
Definition rsim {A} (Q : A -> context W -> lcontext W -> Prop)
    (r1 : outcome A * context W) (r2 : outcome A * lcontext W) : Prop :=
  match r1, r2 with
  | (Ok a1, s), (Ok a2, l) => a1 = a2 /\ Q a1 s l
  | (Err _, s), (Err _, l) => alike s (toSfvm l)
  | (Panic, _), (Panic, _) => True
  | _, _ => False
  end.

Definition rwp {A} (m : M W A) (ml : LM W A) (Q : A -> context W -> lcontext W -> Prop) s l : Prop :=
  rsim Q (m s) (ml l).

Lemma rwp_bind {A B} (m : M W A) ml (f : A -> M W B) fl Q s l :
  rwp m ml (fun a => rwp (f a) (fl a) Q) s l -> rwp (mbind f m) (mbind fl ml) Q s l.
Proof.
  unfold rwp, rsim, mbind, M_bind, LM_bind.
  destruct (m s) as [[a1|e1|] s'], (ml l) as [[a2|e2|] l']; try done. by intros [-> H].
Qed.

Lemma rwp_mono {A} (m : M W A) ml (Q Q' : A -> context W -> lcontext W -> Prop) s l :
  rwp m ml Q s l -> (forall a s' l', Q a s' l' -> Q' a s' l') -> rwp m ml Q' s l.
Proof.
  unfold rwp, rsim. destruct (m s) as [[a1|e1|] s'], (ml l) as [[a2|e2|] l']; try done.
  intros [-> H] HQ. auto.
Qed.

Lemma rwp_ret {A} (a : A) (Q : A -> context W -> lcontext W -> Prop) s l :
  Q a s l -> rwp (mret a) (mret a) Q s l.
Proof. done. Qed.

(** The long form may be replaced by an equal computation. *)
Lemma rwp_eq {A} (m m' : M W A) ml ml' Q s l : m s = m' s -> ml l = ml' l ->
  rwp m' ml' Q s l -> rwp m ml Q s l.
Proof. unfold rwp. by intros -> ->. Qed.

(** ** Related contexts *)

Context (code : Code) (jd : jumpDestMap) (si : bool) (res : LCode).
Context (Hsize : zlen code <= MaxUint16) (Hlay : exists tr, layout code si 0 0 res tr).
Context (Hjd : jd = findJumpDestinations code).

(** The interpreters are at [i] in the code and at [j] in its long form. *)
Record rel (i j : Z) s l : Prop := {
  rel_alike : alike s (toSfvm l);
  rel_sane : sane s;
  rel_code : c_code s = code;
  rel_analysis : c_analysis s = jd;
  rel_pc : c_pc s = i;
  rel_lcode : l_code l = res;
  rel_lpc : l_pc l = j
}.

Lemma rel_world i j s l : rel i j s l -> c_context s = l_context l.
Proof. intros []. by destruct rel_alike0. Qed.

Lemma rel_set_pc i j i' j' s l : rel i j s l -> rel i' j' (set_pc i' s) (l_set_pc j' l).
Proof. intros []. constructor; try done. by destruct rel_alike0. Qed.

(** Instructions the two interpreters share. *)
Lemma rwp_shared {A} (m : M W A) i j s l : respects m -> rel i j s l ->
  rwp m (shared m) (fun _ => rel i j) s l.
Proof.
  intros Hm H. pose proof H as [Ha]. specialize (Hm s (toSfvm l) Ha). unfold rwp, shared.
  destruct (m s) as [[a1|e1|] s'], (m (toSfvm l)) as [[a2|e2|] t]; cbn in *; try done.
  - destruct Hm as (-> & Ha' & (Hc & Han & Hp & Hsn) & (_ & _ & Hp2 & _)). split; [done|].
    change (c_pc (toSfvm l)) with (l_pc l) in Hp2.
    constructor; cbn; try congruence; [|auto]. by destruct Ha'.
  - destruct Hm as [_ Ha']. by destruct Ha'.
Qed.

(** ** A step *)

(** What a step does before the instruction: stack limits and static gas. *)
Definition enter (limits : stackLimits) (price : Gas) : M W unit :=
  s ← gets c_stack;
  (if st_len s <? sl_min limits then fail errStackUnderflow
   else if st_len s >? sl_max limits then fail errStackOverflow
   else mret tt);;
  useGas price.

Lemma respects_enter limits price : respects (enter limits price).
Proof.
  apply (respects_ext (n ← gets (fun c => st_len (c_stack c));
    (if n <? sl_min limits then fail errStackUnderflow
     else if n >? sl_max limits then fail errStackOverflow else mret tt);; useGas price)); [done|].
  apply respects_bind; [|intros n; apply respects_bind; [|intros _; apply respects_useGas]].
  - apply respects_gets. intros c1 c2 []. by apply stack_like_len.
  - repeat apply respects_if; apply respects_fail || apply respects_ret.
Qed.

(** What it does after it. *)
Definition s_finish (st : status) : M W status :=
  pc ← gets c_pc; modify (set_pc (pc +i32 1));; mret st.

Definition l_finish (st : status) : LM W status :=
  c ← l_gets id; l_modify (l_set_pc (l_pc c +i32 1));; mret st.

Definition berlin s : bool := revision s >=? R09_Berlin.

Lemma s_bind_ok {A B} (m : M W A) (f : A -> M W B) s a s' :
  m s = (Ok a, s') -> mbind f m s = f a s'.
Proof. unfold mbind, M_bind. by intros ->. Qed.

Lemma l_bind_ok {A B} (m : LM W A) (f : A -> LM W B) l a l' :
  m l = (Ok a, l') -> mbind f m l = f a l'.
Proof. unfold mbind, LM_bind. by intros ->. Qed.

Lemma s_step_eq s op : 0 <= c_pc s -> c_code s !! Z.to_nat (c_pc s) = Some op ->
  s_step s = (enter (SfvmGas.opStackLimits op) (staticPrice (berlin s) op);;
              st ← s_dispatch op; s_finish st) s.
Proof.
  intros Hp Ho.
  assert (code_at (c_pc s) s = (Ok op, s)) as Hc.
  { unfold code_at. rewrite (s_bind_ok (gets id) _ s s s eq_refl), (proj2 (Z.ltb_ge _ _)), Ho by lia. done. }
  unfold SfvmInterpreter.step. rewrite (s_bind_ok (gets id) _ s s s eq_refl). unfold id. rewrite (s_bind_ok _ _ s op s Hc).
  unfold SfvmGas.checkStackLimits, SfvmGas._precomputedStackLimits.
  rewrite SfvmExecution.newOpCodePropertyMap_get, getStaticGasPrices_get. fold (berlin s).
  unfold enter, mbind, M_bind. cbn [lift_option mret M_ret gets].
  destruct (st_len (c_stack s) <? _); [done|]. destruct (st_len (c_stack s) >? _); done.
Qed.

Lemma l_step_eq l x : 0 <= l_pc l -> l_code l !! Z.to_nat (l_pc l) = Some x -> defined (opcode x) ->
  l_step l = (shared (enter (LfvmGas.opStackLimits (opcode x)) (lfvmPrice (berlin (toSfvm l)) (opcode x)));;
              st ← l_dispatch (opcode x); l_finish st) l.
Proof.
  intros Hp Hx Hd.
  assert (l_code_at (l_pc l) l = (Ok x, l)) as Hc.
  { unfold l_code_at. rewrite (l_bind_ok (l_gets id) _ l l l eq_refl), (proj2 (Z.ltb_ge _ _)), Hx by lia. done. }
  unfold LfvmInterpreter.step. rewrite (l_bind_ok (l_gets id) _ l l l eq_refl). unfold id. rewrite (l_bind_ok _ _ l x l Hc).
  cbv zeta. unfold LfvmGas.checkStackLimits, LfvmGas._precomputedStackLimits.
  rewrite (defined_table LfvmGas.opStackLimits) by done.
  assert (LfvmOpCodes.property_get (LfvmGas.getStaticGasPrices (l_revision l)) (opcode x)
    = Some (lfvmPrice (berlin (toSfvm l)) (opcode x))) as ->.
  { unfold LfvmGas.getStaticGasPrices, lfvmPrice, berlin, revision, l_revision.
    change (c_params (toSfvm l)) with (l_params l). case_if; by apply defined_table. }
  unfold shared, enter, mbind, LM_bind, M_bind. cbn [l_lift_option mret LM_ret M_ret gets].
  change (c_stack (toSfvm l)) with (l_stack l).
  destruct (st_len (l_stack l) <? _); [by destruct l|]. destruct (st_len (l_stack l) >? _); [by destruct l|].
  cbn [mret LM_ret M_ret]. unfold l_useGas, useGas, mbind, LM_bind, M_bind, gets, l_gets.
  change (c_gas (toSfvm l)) with (l_gas l). destruct (_ || _ || _); by destruct l.
Qed.

(** ** Positions *)

(** The positions of the next instruction, in a context between two steps and
    in a context before the program counter is moved. *)
Definition at_next (d : Z) s l : Prop := exists i j : nat,
  rel (Z.of_nat i + d) (Z.of_nat j + d) s l /\ at_pos code si res i j /\ (i <= length code + 32)%nat.

Abbreviation ready := (at_next 0).
Abbreviation before := (at_next (-1)).

Lemma layout_length i j (r : LCode) tr : layout code si i j r tr -> (j <= i <= length code + 32)%nat ->
  (j + length r <= length code + 32)%nat.
Proof.
  induction 1 as [i j Hi|i j r tr Hop Hj _ IH|i j op x n r tr Hop Hne Hj Ht _ IH]; intros Hb.
  - cbn. lia.
  - rewrite length_app, gap_length by done. cbn. apply lookup_lt_Some in Hop. lia.
  - rewrite length_app. apply lookup_lt_Some in Hop as Hlt. pose proof (translate_size _ _ _ _ _ Ht).
    assert (n <= 32)%nat as Hn; [|lia].
    destruct Ht as [op' x n Hop' Ht|x n _ Ht]; [|destruct Ht; lia].
    unfold translateOp in Ht. destruct (Byte.eqb op' PC); [injection Ht as <- <-; lia|].
    destruct (op_in PUSH1 PUSH32 op') eqn:Hp; injection Ht as <- <-; [|lia].
    unfold op_in, op_le in Hp. b2p. change (byte_val PUSH1) with 96 in *. change (byte_val PUSH32) with 127 in *. lia.
Qed.

Lemma res_length : (length res <= length code + 32)%nat.
Proof. destruct Hlay as [tr Hl]. apply layout_length in Hl; lia. Qed.

Lemma at_pos_bound i j : at_pos code si res i j -> (j <= length res)%nat.
Proof. intros (tr & pre & r & tr0 & -> & <- & _). rewrite length_app. lia. Qed.

Lemma rwp_finish st s l : before s l -> rwp (s_finish st) (l_finish st) (fun _ => ready) s l.
Proof.
  intros (i & j & H & Hat & Hi). pose proof (at_pos_bound _ _ Hat). pose proof res_length.
  unfold MaxUint16 in Hsize.
  unfold rwp, s_finish, l_finish, rsim, mbind, M_bind, LM_bind, gets, l_gets, id. cbn.
  split; [done|]. exists i, j. split_and!; [|done..].
  rewrite (rel_pc _ _ _ _ H), (rel_lpc _ _ _ _ H), !i32_id by zblia.
  replace (Z.of_nat i + -1 + 1) with (Z.of_nat i + 0) by lia.
  replace (Z.of_nat j + -1 + 1) with (Z.of_nat j + 0) by lia. by eapply rel_set_pc.
Qed.

Lemma rel_berlin i j s l : rel i j s l -> berlin s = berlin (toSfvm l).
Proof. intros H. unfold berlin, revision. by rewrite (alike_params _ _ (rel_alike _ _ _ _ H)). Qed.

(** A step of both interpreters at an EVM instruction. *)
Lemma step_base (i j : nat) op x s l : rel (Z.of_nat i) (Z.of_nat j) s l ->
  code !! i = Some op -> res !! j = Some x -> opcode x = Base op ->
  (forall s' l', rel (Z.of_nat i) (Z.of_nat j) s' l' ->
     rwp (s_dispatch op) (l_dispatch (Base op)) (fun _ => before) s' l') ->
  rwp s_step l_step (fun _ => ready) s l.
Proof.
  intros H Ho Hx Hop Hd. pose proof H as [Ha _ Hc _ Hp Hlc Hlp].
  eapply rwp_eq.
  - apply (s_step_eq s op); rewrite Hp; [lia|]. by rewrite Hc, Nat2Z.id.
  - apply (l_step_eq l x); rewrite ?Hlp; [lia|by rewrite Hlc, Nat2Z.id|by rewrite Hop].
  - rewrite Hop, lfvmPrice_base, <-(rel_berlin _ _ _ _ H).
    change (LfvmGas.opStackLimits (Base op)) with (SfvmGas.opStackLimits op).
    apply rwp_bind. eapply rwp_mono; [apply rwp_shared; [apply respects_enter|exact H]|].
    cbv beta. intros _ s' l' H'. apply rwp_bind. eapply rwp_mono; [by apply Hd|]. cbv beta.
    intros st s2 l2 Hb. by apply rwp_finish.
Qed.

(** Arriving at the next instruction. *)
Lemma before_intro (i j : nat) (p q : Z) s l : rel p q s l -> at_pos code si res i j ->
  p = Z.of_nat i - 1 -> q = Z.of_nat j - 1 -> (i <= length code + 32)%nat -> before s l.
Proof. intros H Hat -> -> Hi. by exists i, j. Qed.

(** ** Shared instructions *)

Lemma running_shared (m : M W unit) (st : status) l :
  (shared m;; mret st : LM W status) l = shared (m;; mret st : M W status) l.
Proof. unfold shared, mbind, LM_bind, M_bind. by destruct (m (toSfvm l)) as [[a|e|] s]. Qed.

Lemma dispatch_shared op l : positional op = false -> l_dispatch (Base op) l = shared (s_dispatch op) l.
Proof.
  intros Hp. destruct op; try discriminate Hp;
    first [reflexivity | apply running_shared | destruct l; reflexivity].
Qed.

Lemma sim_shared (i j : nat) op s l : rel (Z.of_nat i) (Z.of_nat j) s l -> positional op = false ->
  at_pos code si res (i + 1) (j + 1) -> (i < length code)%nat ->
  rwp (s_dispatch op) (l_dispatch (Base op)) (fun _ => before) s l.
Proof.
  intros H Hp Hat Hi. eapply rwp_eq; [done|by apply dispatch_shared|].
  eapply rwp_mono; [apply rwp_shared; [by apply respects_dispatch|exact H]|].
  cbv beta. intros _ s' l' H'. eapply before_intro; [done..|lia|lia|lia].
Qed.

(** ** Pushes *)

Lemma rwp_push v d1 d2 p q s l : rel p q s l -> - 2 ^ 31 <= p + d1 < 2 ^ 31 -> - 2 ^ 31 <= q + d2 < 2 ^ 31 ->
  rwp (s_push v d1) (l_push v d2) (fun _ => rel (p + d1) (q + d2)) s l.
Proof.
  intros H Hp Hq.
  apply (rwp_eq _ ((pushUndefined;; setTop v;; mret tt);; c ← gets id;
                   modify (set_pc (c_pc c +i32 d1));; mret statusRunning)
                _ (shared (pushUndefined;; setTop v;; mret tt);; l_skip d2;; mret statusRunning)).
  - unfold s_push, mbind, M_bind. destruct (pushUndefined s) as [[[]|e|] s']; [|done..].
    by destruct (setTop v s') as [[[]|e|] s''].
  - unfold l_push, l_pushUndefined, l_setTop, shared, pushUndefined, setTop, mbind, LM_bind, M_bind, gets, modify. cbn.
    destruct (st_pushUndefined (l_stack l)) as [st|]; [|done]. cbn. by destruct (st_setTop st v) as [st'|].
  - apply rwp_bind. eapply rwp_mono; [apply rwp_shared; [apply respects_pushUndefined, respects_ret|exact H]|].
    cbv beta. intros _ s' l' H'. unfold rwp, rsim, l_skip, l_jump, mbind, M_bind, LM_bind, gets, l_gets, id. cbn.
    split; [done|]. rewrite (rel_pc _ _ _ _ H'), (rel_lpc _ _ _ _ H'), !i32_id by done. by eapply rel_set_pc.
Qed.

Lemma res_small : zlen res < 2 ^ 31.
Proof. pose proof res_length. unfold MaxUint16 in Hsize. zblia. Qed.

Lemma rwp_opPush (i j : nat) op x rest s l : rel (Z.of_nat i) (Z.of_nat j) s l -> op_in PUSH1 PUSH32 op = true ->
  (i < length code)%nat -> x = translatePush op (immediate code i (pushSize op)) -> drop j res = x ++ rest ->
  at_pos code si res (i + pushSize op + 1) (j + length x) ->
  rwp (s_dispatch op) (l_dispatch (Base op)) (fun _ => before) s l.
Proof.
  intros H Hop Hi -> Hd Hat. pose proof H as [_ _ Hc _ Hp Hlc Hlp]. pose proof res_small as Hr.
  eapply rwp_eq; [apply (s_pushes _ _ code i); try done; unfold MaxUint16 in Hsize; lia
                 |by apply (l_pushes _ _ code i j res rest op)|].
  assert (1 <= pushSize op <= 32)%nat as Hn.
  { unfold pushSize. unfold op_in, op_le in Hop. b2p. change (byte_val PUSH1) with 96 in *.
    change (byte_val PUSH32) with 127 in *. lia. }
  pose proof (at_pos_bound _ _ Hat) as Hb. set (x := translatePush _ _) in *.
  eapply rwp_mono; [apply rwp_push; [exact H|unfold MaxUint16 in Hsize; zblia..]|].
  cbv beta. intros _ s' l' H'. eapply before_intro; [exact H'|exact Hat|lia|zblia|lia].
Qed.

(** ** The program counter *)

Lemma rwp_opPc (i j : nat) rest s l : rel (Z.of_nat i) (Z.of_nat j) s l -> (i < length code)%nat ->
  drop j res = mkInstruction (Base PC) (Z.of_nat i) :: rest -> at_pos code si res (i + 1) (j + 1) ->
  rwp (s_dispatch PC) (l_dispatch (Base PC)) (fun _ => before) s l.
Proof.
  intros H Hi Hd Hat. pose proof H as [_ _ Hc _ Hp Hlc Hlp]. pose proof res_small as Hr.
  pose proof (at_pos_bound _ _ Hat) as Hb. set (v := Int_SetUint64 (Z.of_nat i)).
  apply (rwp_eq _ (s_push v 0) _ (l_push v 0)).
  - unfold SfvmInterpreter.dispatch, SfvmInterpreter.running, SfvmInstructions.opPc, s_push, pushValue, mbind, M_bind.
    cbn [gets]. rewrite Hp, u64_id by (unfold MaxUint16 in Hsize; zblia). fold v.
    destruct (pushUndefined s) as [[[]|e|] s'] eqn:E; [|done..]. apply pushUndefined_frame in E as [_ E].
    destruct (setTop v s') as [[[]|e|] s''] eqn:E'; [|done..]. apply setTop_frame in E'.
    cbn. rewrite Z.add_0_r, i32_id by (rewrite E', E, Hp; unfold MaxUint16 in Hsize; zblia). by destruct s''.
  - apply (l_push_form j res l Hlc Hlp). intros c Hcc Hcp. unfold mbind at 1, LM_bind at 1.
    rewrite (l_arg j res _ rest c Hd Hcc Hcp). by apply (l_skip_0 j res Hr); [|lia].
  - eapply rwp_mono; [apply rwp_push; [exact H|unfold MaxUint16 in Hsize; zblia..]|].
    cbv beta. intros _ s' l' H'. eapply before_intro; [exact H'|exact Hat|lia..].
Qed.

(** ** Jumps *)

(** The two checks of a destination agree. *)
Lemma jumpDest_iff (d : nat) :
  (d < length code)%nat /\ isJumpDest (Some jd) (Z.of_nat d) = true
  <-> exists x, res !! d = Some x /\ opcode x = Base JUMPDEST.
Proof.
  destruct Hlay as [tr Hl]. pose proof (layout_dest_iff _ _ _ _ _ _ Hl d (le_0_n d)) as Hi.
  rewrite Nat.sub_0_r in Hi. rewrite <-Hi. rewrite Hjd, findJumpDestinations_iff; [|unfold MaxUint16 in Hsize; lia|lia].
  unfold jump_dest, instr_start, dest_from. rewrite Nat2Z.id. split; [intuition|].
  intros [Hs Hd]. by apply lookup_lt_Some in Hd as Hlt.
Qed.

Lemma rwp_jump (d p q : Z) s l : rel p q s l -> 0 <= d <= MaxInt32 ->
  rwp (modify (set_pc (i32 d -i32 1));; SfvmInstructions.checkJumpDest)
      (l_jump (i32 d -i32 1);; checkJumpDest) (fun _ => before) s l.
Proof.
  intros H Hd. pose proof H as [_ _ Hc Ha _ Hlc _].
  assert (alike (set_pc (d - 1) s) (toSfvm (l_set_pc (d - 1) l))) as Hal by (destruct H as [[]]; by constructor).
  unfold rwp, SfvmInstructions.checkJumpDest, checkJumpDest, l_jump, l_modify, modify, mbind, M_bind, LM_bind, gets, l_gets, id, fail_if.
  cbn -[i32 Z.geb isJumpDest]. rewrite Hc, Ha, Hlc, !(i32_id d), !(i32_id (d - 1)), !i32_id by zblia.
  replace (d - 1 + 1) with d by lia. rewrite u64_id by zblia.
  pose proof (jumpDest_iff (Z.to_nat d)) as Hiff. rewrite Z2Nat.id in Hiff by lia.
  assert (forall x, res !! Z.to_nat d = Some x -> ~ (d >= zlen res)) as Hlt.
  { intros x Hx. apply lookup_lt_Some in Hx. zblia. }
  unfold l_code_at, mbind, LM_bind, l_gets, id. cbn -[Z.geb isJumpDest]. rewrite (proj2 (Z.ltb_ge d 0)) by lia.
  destruct ((d >=? zlen code) || negb (isJumpDest (Some jd) d)) eqn:E.
  - assert (~ exists x, res !! Z.to_nat d = Some x /\ opcode x = Base JUMPDEST) as Hno.
    { rewrite <-Hiff. intros [Hl Hj]. rewrite Hj in E. cbn in E. rewrite orb_false_r in E. b2p. zblia. }
    destruct (Z.geb_spec d (zlen res)); [done|].
    destruct (lookup_lt_is_Some_2 res (Z.to_nat d)) as [x Hx]; [zblia|]. cbn. rewrite Hlc, Hx. cbn.
    rewrite bool_decide_eq_false_2 by (intros ?; apply Hno; eauto). done.
  - apply orb_false_iff in E as [E1 E2]. apply negb_false_iff in E2.
    assert (Z.to_nat d < length code)%nat as Hl by (rewrite Z.geb_leb in E1; b2p; zblia).
    destruct (proj1 Hiff (conj Hl E2)) as (x & Hx & Hox).
    destruct (Z.geb_spec d (zlen res)) as [Hge|_]; [by apply Hlt in Hx; lia|]. cbn. rewrite Hlc, Hx. cbn.
    rewrite bool_decide_eq_true_2 by done. cbn. split; [done|].
    destruct Hlay as [tr Hlt0]. eapply (before_intro (Z.to_nat d) (Z.to_nat d)); [by eapply rel_set_pc| |lia..].
    eapply at_pos_dest; [by eapply at_pos_start|].
    apply (layout_dest_iff _ _ _ _ _ _ Hlt0); [lia|]. rewrite Nat.sub_0_r. eauto.
Qed.

Lemma rwp_pop p q s l : rel p q s l -> rwp pop l_pop (fun _ => rel p q) s l.
Proof. apply rwp_shared, respects_pop. Qed.

Lemma rwp_fail {A} e (Q : A -> context W -> lcontext W -> Prop) p q s l : rel p q s l ->
  rwp (fail e) (l_fail e) Q s l.
Proof. apply rel_alike. Qed.

(** The destination of a jump comes from the stack. *)
Lemma rwp_jump_to dest p q s l : rel p q s l ->
  rwp (if negb (Int_IsUint64 dest) || (Int_Uint64 dest >? MaxInt32) then fail errInvalidJump
       else modify (set_pc (i32 (Int_Uint64 dest) -i32 1));; SfvmInstructions.checkJumpDest)
      (if negb (Int_IsUint64 dest) || (Int_Uint64 dest >? MaxInt32) then l_fail errInvalidJump
       else l_jump (i32 (Int_Uint64 dest) -i32 1);; checkJumpDest)
      (fun _ => before) s l.
Proof.
  intros H. destruct (_ || _) eqn:E; [by eapply rwp_fail|]. eapply rwp_jump; [exact H|].
  apply orb_false_iff in E as [_ E]. rewrite Z.gtb_ltb in E. b2p. rewrite Uint64_law in *.
  pose proof (Z.mod_pos_bound (uval dest) (2 ^ 64)). lia.
Qed.

Lemma rwp_opJump (i j : nat) s l : rel (Z.of_nat i) (Z.of_nat j) s l ->
  rwp (s_dispatch JUMP) (l_dispatch (Base JUMP)) (fun _ => before) s l.
Proof.
  intros H. apply rwp_bind, rwp_bind. eapply rwp_mono; [by eapply rwp_pop|]. cbv beta. intros d s1 l1 H1.
  eapply rwp_mono; [by eapply rwp_jump_to|]. done.
Qed.

Lemma rwp_opJumpi (i j : nat) s l : rel (Z.of_nat i) (Z.of_nat j) s l -> (i < length code)%nat ->
  at_pos code si res (i + 1) (j + 1) ->
  rwp (s_dispatch JUMPI) (l_dispatch (Base JUMPI)) (fun _ => before) s l.
Proof.
  intros H Hi Hat. apply rwp_bind, rwp_bind. eapply rwp_mono; [by eapply rwp_pop|]. cbv beta. intros d s1 l1 H1.
  apply rwp_bind. eapply rwp_mono; [by eapply rwp_pop|]. cbv beta. intros c s2 l2 H2.
  destruct (negb (Int_IsZero c)).
  - eapply rwp_mono; [by eapply rwp_jump_to|]. done.
  - apply rwp_ret. apply rwp_ret. eapply before_intro; [exact H2|exact Hat|lia..].
Qed.

(** ** An instruction *)

(** A step of both interpreters at an instruction that is no super
    instruction. *)
Lemma sim_op (i j : nat) op x n rest s l : rel (Z.of_nat i) (Z.of_nat j) s l ->
  code !! i = Some op -> translateOp code i op = (x, n) -> drop j res = x ++ rest ->
  at_pos code si res (i + n + 1) (j + length x) ->
  rwp s_step l_step (fun _ => ready) s l.
Proof.
  intros H Ho Ht Hd Hat. pose proof (lookup_lt_Some _ _ _ Ho) as Hi.
  assert (exists y r, x = y :: r /\ opcode y = Base op) as (y & r & Hx & Hy).
  { unfold translateOp, translatePush in Ht. destruct (Byte.eqb op PC) eqn:Epc.
    { apply Byte.byte_dec_bl in Epc as ->. injection Ht as <- <-. eauto. }
    destruct (op_in PUSH1 PUSH32 op) eqn:Ep; injection Ht as <- <-; [|eauto].
    pose proof (packs_length (immediate code i (pushSize op))) as Hl. rewrite immediate_length in Hl.
    unfold pushSize in Hl. unfold op_in, op_le in Ep. b2p.
    destruct (packs _) as [|a p]; [cbn [length] in Hl; lia|]. eauto. }
  assert (res !! j = Some y) as Hj.
  { rewrite <-(Nat.add_0_r j), <-lookup_drop, Hd, Hx. done. }
  apply (step_base i j op y s l H Ho Hj Hy). intros s' l' H'.
  unfold translateOp in Ht. destruct (Byte.eqb op PC) eqn:Epc.
  { apply Byte.byte_dec_bl in Epc as ->. injection Ht as <- <-. cbn in Hd, Hat.
    rewrite Nat.add_0_r in Hat. by eapply rwp_opPc. }
  destruct (op_in PUSH1 PUSH32 op) eqn:Ep; injection Ht as <- <-;
    [by apply (rwp_opPush i j op _ rest s' l' H' Ep Hi eq_refl Hd Hat)|].
  rewrite Nat.add_0_r in Hat. cbn in Hat.
  destruct (Byte.eqb op JUMP) eqn:Ej; [apply Byte.byte_dec_bl in Ej as ->; by eapply rwp_opJump|].
  destruct (Byte.eqb op JUMPI) eqn:Eji; [apply Byte.byte_dec_bl in Eji as ->; by eapply rwp_opJumpi|].
  apply sim_shared with i j; try done. unfold positional. by rewrite Ep, Epc, Ej, Eji.
Qed.

(** The long form skips to a jump destination, which costs nothing. With
    negative gas it fails, and so does the other interpreter. *)
Lemma sim_skip (i j : nat) s l : rel (Z.of_nat i) (Z.of_nat j) s l -> (i < length code)%nat ->
  code !! i = Some JUMPDEST -> res !! j = Some (mkInstruction JUMP_TO (Z.of_nat i)) ->
  (exists l', l_step l = (Ok statusRunning, l') /\ rel (Z.of_nat i) (Z.of_nat i) s l')
  \/ rsim (fun (_ : status) (_ : context W) (_ : lcontext W) => False) (s_step s) (l_step l).
Proof.
  intros H Hi Ho Hj. pose proof H as [Ha [Hw Hg] Hc _ Hp Hlc Hlp].
  rewrite (l_step_eq l (mkInstruction JUMP_TO (Z.of_nat i))) by (rewrite ?Hlp, ?Hlc, ?Nat2Z.id; done || lia).
  rewrite (s_step_eq s JUMPDEST) by (rewrite ?Hp, ?Hc, ?Nat2Z.id; done || lia).
  pose proof (like_pointer _ _ (alike_stack _ _ Ha)) as Hsp. pose proof (alike_gas _ _ Ha) as Hga.
  cbn in Hsp, Hga. destruct Hw as [Hd Hs]. unfold maxStackSize in Hs.
  unfold enter, shared, mbind, M_bind, LM_bind, gets. cbn [c_stack toSfvm opcode].
  change (LfvmGas.opStackLimits JUMP_TO) with (mkStackLimits 0 1024).
  change (SfvmGas.opStackLimits JUMPDEST) with (mkStackLimits 0 1024). cbn [sl_min sl_max].
  unfold st_len. rewrite <-Hsp. rewrite (proj2 (Z.ltb_ge _ 0)), Z.gtb_ltb, (proj2 (Z.ltb_ge _ _)) by lia.
  change (lfvmPrice (berlin (toSfvm l)) JUMP_TO) with (if berlin (toSfvm l) then 0 else 0).
  replace (if berlin (toSfvm l) then 0 else 0) with 0 by (by destruct (berlin (toSfvm l))).
  cbn [mret M_ret]. unfold useGas, mbind, M_bind, gets. cbn [c_gas toSfvm]. rewrite <-Hga.
  destruct (Z.ltb_spec (c_gas s) 0) as [Hneg|Hpos].
  - right. cbn. destruct Ha. by constructor.
  - left. cbn -[i32]. rewrite Z.sub_0_r, i64_id by done.
    unfold dispatch, running, opJumpTo, l_jump, mbind, LM_bind. cbn [fromSfvm].
    erewrite (l_arg j res (mkInstruction JUMP_TO (Z.of_nat i)) (drop (S j) res));
      [|by apply drop_S|exact Hlc|exact Hlp]. cbn -[i32].
    unfold MaxUint16 in Hsize. eexists. split; [done|]. cbn -[i32].
    rewrite (i32_id (Z.of_nat i)), (i32_id (Z.of_nat i - 1)), i32_id by zblia.
    constructor; cbn; try done; [by destruct Ha|apply H|lia].
Qed.

End Simulation.
