(* ===== verification/LfvmDecode.v ===== *)
(** * The conversion loses nothing

    A decoder for the long form, and the proof that it gives back the EVM code
    that was converted, with zeros for the missing data of a last push. *)
From Stdlib Require Import ZArith Lia Strings.Byte.
From stdpp Require Import base list numbers.
From S2P Require Import Prelude Uint256 Types OpCodes SfvmAnalysis CtSlices LfvmOpCodes LfvmConverter.
From S2P Require Import LfvmContext LfvmLayout LfvmInstructions LfvmPush.
Set Default Goal Selector "!".
Local Open Scope Z_scope.

(** The two bytes of an argument. *)
Definition hi (z : Z) : byte := byte_of (Z.shiftr z 8).

Definition lo (z : Z) : byte := byte_of z.

(** The bytes an instruction stands for; [r] are the instructions after it,
    from which it may take its data. *)
Definition decodeInstruction (i : Instruction) (r : LCode) : Code :=
  let a := arg i in
  match opcode i with
  | Base op => if op_in PUSH1 PUSH32 op then op :: unpack (pushSize op) (i :: r) else [op]
  | SWAP2_SWAP1_POP_JUMP => [SWAP2; SWAP1; POP; JUMP]
  | SWAP1_POP_SWAP2_SWAP1 => [SWAP1; POP; SWAP2; SWAP1]
  | POP_SWAP2_SWAP1_POP => [POP; SWAP2; SWAP1; POP]
  | POP_POP => [POP; POP]
  | PUSH1_SHL => [PUSH1; lo a; SHL]
  | PUSH1_ADD => [PUSH1; lo a; ADD]
  | PUSH1_DUP1 => [PUSH1; lo a; DUP1]
  | PUSH2_JUMP => [PUSH2; hi a; lo a; JUMP]
  | PUSH2_JUMPI => [PUSH2; hi a; lo a; JUMPI]
  | PUSH1_PUSH1 => [PUSH1; hi a; PUSH1; lo a]
  | SWAP1_POP => [SWAP1; POP]
  | POP_JUMP => [POP; JUMP]
  | SWAP2_SWAP1 => [SWAP2; SWAP1]
  | SWAP2_POP => [SWAP2; POP]
  | DUP2_MSTORE => [DUP2; MSTORE]
  | DUP2_LT => [DUP2; LT]
  | ISZERO_PUSH2_JUMPI => [ISZERO; PUSH2; hi a; lo a; JUMPI]
  | PUSH1_PUSH4_DUP3 =>
      match r with
      | d1 :: d2 :: _ =>
          [PUSH1; hi a; PUSH4; hi (arg d1); lo (arg d1); hi (arg d2); lo (arg d2); DUP3]
      | _ => []
      end
  | AND_SWAP1_POP_SWAP2_SWAP1 => [AND; SWAP1; POP; SWAP2; SWAP1]
  | PUSH1_PUSH1_PUSH1_SHL_SUB =>
      match r with
      | d1 :: _ => [PUSH1; hi a; PUSH1; lo a; PUSH1; lo (arg d1); SHL; SUB]
      | _ => []
      end
  | JUMP_TO | NOOP | DATA | Undefined _ => []
  end.

Fixpoint decode (l : LCode) : Code :=
  match l with
  | [] => []
  | i :: r => decodeInstruction i r ++ decode r
  end.

(** [DATA] stands for nothing of its own. *)
Lemma decode_data l r : decode (map (mkInstruction DATA) l ++ r) = decode r.
Proof. induction l as [|a l IH]; cbn; [done|]. exact IH. Qed.

Lemma decode_gap j i r : decode (gap j i ++ r) = decode r.
Proof.
  unfold gap. destruct (j <? i)%nat; [|done]. cbn [app decode decodeInstruction opcode].
  induction (i - j - 1)%nat as [|n IH]; cbn; [done|]. exact IH.
Qed.

Lemma unpack_app n : forall x r, (n <= 2 * length x)%nat -> unpack n (x ++ r) = unpack n x.
Proof.
  induction n as [n IH] using lt_wf_ind. intros [|i x] r Hn.
  { assert (n = 0)%nat as -> by (cbn in Hn; lia). by destruct r. }
  destruct n as [|[|n]]; [done..|]. cbn. do 2 f_equal. apply IH; cbn in Hn; lia.
Qed.

(** The data of a push. *)
Lemma decode_push op d r : op_in PUSH1 PUSH32 op = true -> length d = pushSize op ->
  decode (translatePush op d ++ r) = op :: d ++ decode r.
Proof.
  intros Hop Hd. pose proof (packs_length d) as Hl.
  assert (0 < length d)%nat as Hpos.
  { rewrite Hd. unfold pushSize. unfold op_in, op_le in Hop. b2p. lia. }
  pose proof (unpack_packs op d Hpos) as Hu.
  pose proof (unpack_app (length d) (translatePush op d) r) as Ha.
  rewrite translatePush_length in Ha. specialize (Ha ltac:(lia)). rewrite Hu in Ha. clear Hu.
  unfold translatePush in *. destruct (packs d) as [|a p]; [cbn in Hl; lia|].
  cbn [app decode decodeInstruction opcode] in *. rewrite Hop, <-Hd, Ha.
  cbn [app]. by rewrite decode_data.
Qed.

Lemma hi_pack a b : hi (pack a b) = a.
Proof. unfold hi. by rewrite pack_shift, byte_of_val. Qed.

Lemma lo_pack a b : lo (pack a b) = b.
Proof. apply byte_of_pack. Qed.

Lemma hi_high a : hi (high a) = a.
Proof. unfold hi. by rewrite high_shift, byte_of_val. Qed.

Lemma lo_byte a : lo (byte_val a) = a.
Proof. apply byte_of_val. Qed.

Create Rewrite HintDb bytes.
#[local] Hint Rewrite hi_pack lo_pack hi_high lo_byte : bytes.

(** A super instruction stands for the bytes it was matched with. *)
Lemma decode_super rest x n r : super rest x n -> decode (x ++ r) = take (n + 1) rest ++ decode r.
Proof.
  destruct 1; cbn -[pack high hi lo]; autorewrite with bytes; done.
Qed.

Lemma translate_bytes code si i op x n r : code !! i = Some op -> translate code si i x n ->
  decode (x ++ r) = take (n + 1) (drop i code ++ replicate n x00) ++ decode r.
Proof.
  intros Hop [op' x' n' Hop' Ht|x' n' _ Ht].
  - rewrite Hop in Hop'. injection Hop' as <-. unfold translateOp in Ht.
    rewrite (drop_S code op i Hop). cbn [app]. rewrite Nat.add_1_r. cbn [take].
    destruct (Byte.eqb op PC) eqn:Epc; [by apply Byte.byte_dec_bl in Epc as ->; injection Ht as <- <-|].
    destruct (op_in PUSH1 PUSH32 op) eqn:Ep; injection Ht as <- <-.
    + rewrite decode_push by (done || apply immediate_length). unfold immediate. by rewrite Nat.add_1_r.
    + cbn. by rewrite Ep.
  - rewrite (decode_super _ _ _ r Ht). pose proof (super_size _ _ _ Ht) as [_ Hn].
    by rewrite take_app_le by lia.
Qed.

Lemma layout_decode code si i j l tr : layout code si i j l tr ->
  exists k, decode l = drop i code ++ replicate k x00 /\ (k <= 32)%nat.
Proof.
  induction 1 as [i j Hi|i j l tr Hop Hj _ IH|i j op x n l tr Hop Hne Hj Ht Hlay IH].
  - exists 0%nat. rewrite drop_ge by done. split; [done|lia].
  - destruct IH as (k & Hk & Hle). exists k. split; [|done]. rewrite decode_gap. cbn. rewrite Hk.
    rewrite (drop_S code _ i Hop), Nat.add_1_r. done.
  - destruct IH as (k & Hk & Hle). rewrite (translate_bytes _ _ _ _ _ _ l Hop Ht).
    destruct (Nat.le_gt_cases (i + n + 1) (length code)) as [Hin|Hout].
    + exists k. split; [|done]. rewrite take_app_le by (rewrite length_drop; lia).
      rewrite Hk, (assoc_L (++)). f_equal. rewrite <-(take_drop (n + 1) (drop i code)) at 2.
      by rewrite drop_drop, (Nat.add_assoc i).
    + assert (decode l = []) as ->.
      { inversion Hlay as [? ? Hi'|? ? ? ? Ho|? ? ? ? ? ? ? Ho]; subst; [done|..];
          apply lookup_lt_Some in Ho; lia. }
      rewrite app_nil_r, take_app, take_replicate.
      rewrite take_ge by (rewrite length_drop; lia).
      eexists. split; [done|].
      destruct Ht as [op' x n Hop' Ht|x n _ Ht].
      * unfold translateOp in Ht. destruct (Byte.eqb op' PC); [injection Ht as <- <-; lia|].
        destruct (op_in PUSH1 PUSH32 op') eqn:Hp; injection Ht as <- <-; [|lia].
        unfold op_in, op_le in Hp. b2p. change (byte_val PUSH1) with 96 in *. change (byte_val PUSH32) with 127 in *. lia.
      * pose proof (super_size _ _ _ Ht) as [_ Hn]. rewrite length_drop in Hn. lia.
Qed.
