(* ===== verification/LfvmEquivalence.v ===== *)
(** * The two interpreters are equivalent

    The loop of the long-form interpreter follows that of [sfvm] with at most
    two iterations for each of its iterations; runs of the two interpreters on
    the same code end with the same result in the same world. *)
From Stdlib Require Import ZArith Lia Strings.Byte String.
From stdpp Require Import base list numbers.
From S2P Require Import Prelude Uint256 Types OpCodes SfvmStack SfvmAnalysis SfvmHashCache.
From S2P Require Import SfvmContext SfvmMemory SfvmGas SfvmInstructions SfvmInterpreter SfvmExecution.
From S2P Require Import RefWorld SfvmSafety SfvmProperties.
From S2P Require Import LfvmOpCodes LfvmConverter LfvmLayout LfvmContext LfvmGas LfvmInstructions.
From S2P Require Import LfvmInterpreter LfvmShared LfvmPush LfvmSimulation.
Set Default Goal Selector "!".
Local Open Scope Z_scope.
Local Open Scope go_scope.

(** ** The loops *)

Section Loop.
Context {W : Type} {U : Uint256} {UL : Uint256Laws U} {RC : RunContext W} {G : Globals W}.
Context (Keccak256 : list byte -> Hash) (Keccak256For32byte : array 32 -> Hash).
Implicit Types (s : context W) (l : lcontext W).

Abbreviation s_steps := (SfvmInterpreter.steps Keccak256 Keccak256For32byte).
Abbreviation l_steps := (LfvmInterpreter.steps Keccak256 Keccak256For32byte).

(** More fuel does not change the result of the loop. *)
Lemma l_steps_mono fuel fuel' l r : l_steps fuel false l = Some r -> (fuel <= fuel')%nat ->
  l_steps fuel' false l = Some r.
Proof.
  revert fuel' l. induction fuel as [|fuel IH]; intros [|fuel'] l Hr Hf; try (done || lia).
  cbn [LfvmInterpreter.steps] in *. destruct (_ >=? _); [done|].
  destruct (LfvmInterpreter.step _ _ l) as [[[]|e|] l']; try done. apply IH; [done|lia].
Qed.

(** Ends of the two loops: the same status, and contexts that are alike. *)
Definition same_end : outcome status * context W -> outcome status * lcontext W -> Prop :=
  rsim (fun _ s l => alike s (toSfvm l)).

Context (code : Code) (res : LCode).
Context (Hsize : zlen code <= MaxUint16) (Hlay : exists tr, layout code false 0 0 res tr).

Abbreviation related := (rel code (findJumpDestinations code) res).
Abbreviation ready := (at_next code (findJumpDestinations code) false res 0).

Lemma ready_cases s l : ready s l -> exists i j : nat,
  related (Z.of_nat i) (Z.of_nat j) s l /\ pos_case code false res i j /\ (i <= length code + 32)%nat.
Proof.
  intros (i & j & H & Hat & Hi). rewrite !Z.add_0_r in H. exists i, j. split; [done|]. split; [|done].
  by apply at_pos_cases.
Qed.

(** The long form is at the instruction, and not before the jump destination
    it has to skip to: an iteration of [sfvm] is one of the long form. *)
Lemma sim_direct (i j : nat) s l : related (Z.of_nat i) (Z.of_nat j) s l -> at_pos code false res i j ->
  (i < length code)%nat -> (code !! i = Some JUMPDEST -> j = i) ->
  rsim (fun _ => ready) (SfvmInterpreter.step Keccak256 Keccak256For32byte s)
    (LfvmInterpreter.step Keccak256 Keccak256For32byte l) /\ (j < length res)%nat.
Proof.
  intros H Hcase%at_pos_cases Hlt Hd. destruct Hcase as [Hge|x Ho Hj|Ho -> Hx Hat|op x n rest Ho Hne Ht Hdr Hat].
  - lia.
  - specialize (Hd Ho). lia.
  - split; [|by eapply lookup_lt_Some]. eapply step_base; try done. intros s' l' H'. eapply sim_shared; try done.
  - destruct Ht as [op' x n Hop' Ht|x n Hf Ht]; [|done]. assert (op' = op) as -> by congruence.
    split; [by eapply sim_op|]. pose proof (translateOp_size _ _ _ _ _ Ht).
    apply (f_equal length) in Hdr. rewrite length_drop, length_app in Hdr. lia.
Qed.

(** One iteration of [sfvm] and one or two of the long form. *)
Lemma sim_iteration s l : ready s l -> c_pc s < zlen code ->
  (exists l', LfvmInterpreter.step Keccak256 Keccak256For32byte l = (Ok statusRunning, l')
     /\ l_pc l < zlen res /\ ready s l'
     /\ rsim (fun _ => ready) (SfvmInterpreter.step Keccak256 Keccak256For32byte s)
          (LfvmInterpreter.step Keccak256 Keccak256For32byte l') /\ l_pc l' < zlen res)
  \/ rsim (fun _ => ready) (SfvmInterpreter.step Keccak256 Keccak256For32byte s)
       (LfvmInterpreter.step Keccak256 Keccak256For32byte l) /\ l_pc l < zlen res.
Proof.
  intros (i & j & H & Hat0 & Hi) Hpc. rewrite !Z.add_0_r in H.
  pose proof (rel_pc _ _ _ _ _ _ _ H) as Hp. pose proof (rel_lpc _ _ _ _ _ _ _ H) as Hlp.
  assert (i < length code)%nat as Hlt by zblia.
  assert ((code !! i = Some JUMPDEST -> j = i) -> rsim (fun _ => ready) (SfvmInterpreter.step Keccak256 Keccak256For32byte s)
       (LfvmInterpreter.step Keccak256 Keccak256For32byte l) /\ l_pc l < zlen res) as Hdirect.
  { intros Hd. destruct (sim_direct i j s l H Hat0 Hlt Hd). split; [done|]. zblia. }
  destruct (at_pos_cases _ _ _ _ _ Hat0) as [Hge|x Ho Hj Hx -> Hat|Ho -> Hx Hat|op x n rest Ho Hne Ht Hd Hat].
  - lia.
  - pose proof (lookup_lt_Some _ _ _ Hx).
    destruct (sim_skip Keccak256 Keccak256For32byte code _ res Hsize i j s l H Hlt Ho Hx) as [(l' & Hs & H')|Hs].
    + left. exists l'. split; [done|]. split; [zblia|].
      split; [exists i, i; rewrite !Z.add_0_r; split_and!; [done..|lia]|].
      destruct (sim_direct i i s l' H' Hat Hlt (fun _ => eq_refl)). split; [done|].
      rewrite (rel_lpc _ _ _ _ _ _ _ H'). zblia.
    + right. split; [|zblia]. unfold rsim in *.
      destruct (SfvmInterpreter.step _ _ s) as [[]], (LfvmInterpreter.step _ _ l) as [[]]; try done. tauto.
  - right. by apply Hdirect.
  - right. apply Hdirect. congruence.
Qed.

Lemma ready_alike s l : ready s l -> alike s (toSfvm l).
Proof. intros (i & j & H & _). apply H. Qed.

Lemma sim_loop fuel : forall s l r, ready s l -> s_steps fuel false s = Some r ->
  exists r', l_steps (2 * fuel) false l = Some r' /\ same_end r r'.
Proof.
  induction fuel as [|fuel IH]; intros s l r Hr Hs; [done|]. cbn [SfvmInterpreter.steps] in Hs.
  replace (2 * S fuel)%nat with (S (S (2 * fuel))) by lia.
  assert (c_code s = code) as Hc by (destruct Hr as (i & j & H & _); apply H).
  assert (l_code l = res) as Hlc by (destruct Hr as (i & j & H & _); apply H).
  rewrite Hc in Hs. destruct (Z.geb_spec (c_pc s) (zlen code)) as [Hge|Hlt].
  { injection Hs as <-. destruct (ready_cases s l Hr) as (i & j & H & Hcase & _).
    pose proof (rel_pc _ _ _ _ _ _ _ H) as Hp. pose proof (rel_lpc _ _ _ _ _ _ _ H) as Hlp.
    destruct Hcase as [_ ->|x Ho|Ho|op x n rest Ho]; try (apply lookup_lt_Some in Ho; zblia).
    cbn [LfvmInterpreter.steps]. rewrite Hlc, Hlp, Z.geb_leb, (proj2 (Z.leb_le _ _)) by zblia.
    eexists. split; [done|]. split; [done|]. by apply ready_alike. }
  (* what the loops do after a step of both *)
  assert (forall l2 f, (2 * fuel <= f)%nat -> l_pc l2 < zlen res -> l_code l2 = res ->
    rsim (fun _ => ready) (SfvmInterpreter.step Keccak256 Keccak256For32byte s)
      (LfvmInterpreter.step Keccak256 Keccak256For32byte l2) ->
    exists r', l_steps (S f) false l2 = Some r' /\ same_end r r') as Hgo.
  { intros l2 f Hf Hl2 Hc2 Hsim. cbn [LfvmInterpreter.steps]. rewrite Hc2, Z.geb_leb, (proj2 (Z.leb_gt _ _)) by done.
    unfold rsim in Hsim.
    destruct (SfvmInterpreter.step _ _ s) as [[st|e|] s'], (LfvmInterpreter.step _ _ l2) as [[st'|e'|] l']; try done.
    - destruct Hsim as [<- Hready]. pose proof (ready_alike _ _ Hready) as Ha.
      destruct st; try (injection Hs as <-; eexists; split; [done|]; by split).
      destruct (IH s' l' r Hready Hs) as (r' & Hl & He). exists r'. split; [|done]. by eapply l_steps_mono.
    - injection Hs as <-. by eexists.
    - injection Hs as <-. by eexists. }
  destruct (sim_iteration s l Hr Hlt) as [(l' & Hst & Hl & Hr' & Hsim & Hl')|[Hsim Hl]].
  - destruct (Hgo l' (2 * fuel)%nat) as (r' & Hl2 & He); try done.
    { destruct Hr' as (i & j & H & _). apply H. }
    exists r'. split; [|done]. remember (S (2 * fuel)) as f. cbn [LfvmInterpreter.steps].
    by rewrite Hlc, Z.geb_leb, (proj2 (Z.leb_gt _ _)), Hst by done.
  - by apply Hgo; [lia|..].
Qed.

(** Runs from the initial contexts. *)
Lemma sim_execute fuel cfg params (w : W) garbage (Log : Type) (lcfg : LfvmInterpreter.config Log) r :
  WithShaCache cfg = lc_WithShaCache lcfg -> p_Code params = code ->
  isI64 (p_Gas params) -> zlen garbage = maxStackSize ->
  s_steps fuel false (SfvmInterpreter.initContext cfg (findJumpDestinations code) params w garbage) = Some r ->
  exists r', l_steps (2 * fuel) false (LfvmInterpreter.initContext lcfg res params w garbage) = Some r'
    /\ same_end r r'.
Proof.
  intros Hsha Hc Hg Hgb. apply sim_loop. destruct Hlay as [tr Hl].
  exists 0%nat, 0%nat. split_and!; [|by eapply at_pos_start|lia].
  destruct (NewStack_wf garbage Hgb) as [Hw _]. constructor; cbn; try done.
Qed.

End Loop.

(** ** The cache of converted code *)

Section Cache.
Context {C : Type} {L : LRU LCode C} {LL : LRULaws L}.
(** The code hash, and a set of codes on which it has no collisions. *)
Context (codeHash : Code -> Hash) (deployed : Code -> Prop).
Context (codeHash_inj : forall c1 c2, deployed c1 -> deployed c2 ->
  codeHash c1 = codeHash c2 -> c1 = c2).

(** Every cached code is the long form of the deployed code with that hash. *)
Definition converter_coherent (c : Converter C) : Prop :=
  forall cache h res, cv_cache c = Some cache -> lru_holds cache h res ->
  forall code, deployed code -> codeHash code = h -> convert code (cv_config c) = Some res.

Lemma NewConverter_coherent config : 0 <= CacheSize config ->
  CacheSize config = 0 \/ maxCachedCodeLength * instructionSize <= CacheSize config ->
  exists c, NewConverter config = inl c /\ converter_coherent c
    /\ WithSuperInstructions (cv_config c) = WithSuperInstructions config.
Proof.
  intros Hs Hc. unfold NewConverter.
  assert (forall cfg, maxCachedCodeLength * instructionSize <= CacheSize cfg ->
    exists c, match lru_New (Z.quot (Z.quot (CacheSize cfg) maxCachedCodeLength) instructionSize) with
      | Some cache => inl (mkConverter cfg (Some cache))
      | None => inr (ErrMsg "must provide a positive size"%string)
      end = inl c /\ converter_coherent c /\ cv_config c = cfg) as Hnew.
  { intros cfg Hcfg.
    destruct (lru_New_some (Z.quot (Z.quot (CacheSize cfg) maxCachedCodeLength) instructionSize)) as [c Hn].
    { change maxCachedCodeLength with 24576 in *. change instructionSize with 4 in *.
      enough (1 <= Z.quot (Z.quot (CacheSize cfg) 24576) 4) by lia.
      apply Z.quot_le_lower_bound; [lia|]. apply Z.quot_le_lower_bound; lia. }
    rewrite Hn. eexists. split; [done|]. split; [|done]. intros cache h res [= <-] Hh.
    by apply (lru_New_empty _ _ h res Hn) in Hh. }
  destruct (Z.eqb_spec (CacheSize config) 0) as [E|E].
  - cbn [CacheSize]. destruct (Hnew (mkConversionConfig (2 ^ 30) (WithSuperInstructions config))) as (c & Hn & Hco & Hcfg).
    { done. }
    exists c. split; [exact Hn|]. split; [done|]. by rewrite Hcfg.
  - rewrite Z.gtb_ltb, (proj2 (Z.ltb_lt _ _)) by lia.
    destruct (Hnew config) as (c & Hn & Hco & Hcfg); [lia|]. exists c. split; [exact Hn|]. split; [done|]. by rewrite Hcfg.
Qed.

(** A conversion through the cache gives the long form of the code it is asked
    for. *)
Lemma Convert_coherent c code h : converter_coherent c -> deployed code -> zlen code <= MaxUint16 ->
  h = None \/ h = Some (codeHash code) ->
  exists c' res, Convert c code h = Some (c', inl res) /\ convert code (cv_config c) = Some res
    /\ converter_coherent c' /\ cv_config c' = cv_config c.
Proof.
  intros Hc Hd Hsize Hh. unfold Convert. rewrite Z.gtb_ltb, (proj2 (Z.ltb_ge _ _)) by done.
  destruct (convert_ok code _ Hsize (cv_config c) eq_refl) as (res & tr & _ & Hconv & _).
  destruct (cv_cache c) as [cache|] eqn:Ec; [|rewrite Hconv; by exists c, res].
  destruct Hh as [->| ->]; [rewrite Hconv; by exists c, res|].
  destruct (lru_Get cache (codeHash code)) as [cache' found] eqn:Eg. cbn [cv_config].
  assert (converter_coherent (mkConverter (cv_config c) (Some cache'))) as Hc'.
  { intros c' h r [= <-] Hm. apply (Hc _ h r Ec). apply (lru_Get_frame _ (codeHash code)). by rewrite Eg. }
  destruct found as [r|].
  - exists (mkConverter (cv_config c) (Some cache')), r. split; [done|].
    apply lru_Get_holds in Eg. split; [|done]. by apply (Hc _ _ _ Ec Eg).
  - rewrite Hconv. cbn [mbind option_bind]. destruct (zlen res >? maxCachedCodeLength); eexists _, res; (split; [done|]); [done|].
    split; [done|]. split; [|done].
    intros c' h r [= <-] Hm code' Hd' Hh'. cbn [cv_config]. apply lru_Add_holds in Hm as [[-> ->]|Hm].
    + by rewrite (codeHash_inj code' code) by done.
    + by apply (Hc' _ _ _ eq_refl Hm).
Qed.

End Cache.

(** ** Runs *)

Section Runs.
Context {W : Type} {U : Uint256} {UL : Uint256Laws U} {RC : RunContext W} {G : Globals W}.
Context (Keccak256 : list byte -> Hash) (Keccak256For32byte : array 32 -> Hash).
Context {CS : Type} {LS : LRU jumpDestMap CS} {LLS : LRULaws LS}.
Context {CL : Type} {LL : LRU LCode CL} {LLL : LRULaws LL}.
Context {Log : Type} {WR : Writer Log}.
Context (codeHash : Code -> Hash) (deployed : Code -> Prop).
Context (codeHash_inj : forall c1 c2, deployed c1 -> deployed c2 ->
  codeHash c1 = codeHash c2 -> c1 = c2).

(** The results of contexts that are alike. *)
Lemma generateResult_alike st (s : context W) l : alike s (toSfvm l) ->
  SfvmInterpreter.generateResult st s = LfvmInterpreter.generateResult st l /\ c_context s = l_context l.
Proof. intros []. cbn in *. split; [|done]. destruct st; cbn; congruence. Qed.

Lemma layout_empty code si res tr : layout code si 0 0 res tr -> zlen res = 0 <-> zlen code = 0.
Proof.
  intros Hl. pose proof (at_pos_cases _ _ _ _ _ (at_pos_start _ _ _ _ Hl)) as Hc. unfold zlen.
  destruct Hc as [Hc Hr|x Ho Hj|Ho _ Hx|op x n rest Ho _ Ht Hd _]; [lia|lia|..].
  - apply lookup_lt_Some in Ho, Hx. lia.
  - apply lookup_lt_Some in Ho. pose proof (translate_size _ _ _ _ _ Ht). change (drop 0 res) with res in Hd. subst res.
    rewrite length_app. lia.
Qed.

(** The runners that run the loop without observing it. *)
Definition plain (cfg : LfvmInterpreter.config Log) : Prop :=
  lc_runner cfg = None \/ lc_runner cfg = Some vanillaRunner.

Lemma run_same fuel (a : analysis CS) cfg (lcfg : LfvmInterpreter.config Log) (w : W) params garbage res r w' a' :
  WithSuperInstructions (lc_ConversionConfig lcfg) = false -> plain lcfg ->
  WithShaCache cfg = lc_WithShaCache lcfg ->
  cache_coherent codeHash deployed a -> deployed (p_Code params) ->
  p_CodeHash params = None \/ p_CodeHash params = Some (codeHash (p_Code params)) ->
  isI64 (p_Gas params) -> zlen garbage = maxStackSize -> zlen (p_Code params) <= MaxUint16 ->
  convert (p_Code params) (lc_ConversionConfig lcfg) = Some res ->
  SfvmInterpreter.run Keccak256 Keccak256For32byte fuel a cfg w params garbage = Some (w', a', r) ->
  LfvmInterpreter.run Keccak256 Keccak256For32byte (2 * fuel) lcfg w params res garbage = Some (w', lcfg, r).
Proof.
  intros Hsi Hp Hsha Hc Hd Hh Hg Hgb Hsize Hconv. unfold SfvmInterpreter.run, LfvmInterpreter.run.
  destruct (convert_ok (p_Code params) false Hsize (lc_ConversionConfig lcfg) Hsi) as (res' & tr & _ & Hconv' & Hl).
  assert (res' = res) as -> by congruence. pose proof (layout_empty _ _ _ _ Hl) as He.
  destruct (Z.eqb_spec (zlen (p_Code params)) 0) as [E|E].
  { intros [= <- <- <-]. by rewrite (proj2 (Z.eqb_eq _ _)) by tauto. }
  rewrite (proj2 (Z.eqb_neq (zlen res) 0)) by tauto.
  destruct (analyzeJumpDest_coherent codeHash deployed codeHash_inj a (p_Code params) (p_CodeHash params))
    as [Hjd _]; [done..|].
  destruct (analyzeJumpDest a (p_Code params) (p_CodeHash params)) as [a2 jd]. cbn [snd] in Hjd. subst jd.
  unfold SfvmInterpreter.execute.
  destruct (SfvmInterpreter.steps _ _ fuel false _) as [[o s]|] eqn:Es; [|done].
  destruct (sim_execute Keccak256 Keccak256For32byte (p_Code params) res Hsize (ex_intro _ _ Hl)
    fuel cfg params w garbage Log lcfg (o, s)) as ([o' l] & Hsteps & Hend); [done..|].
  assert (runner_run Keccak256 Keccak256For32byte (2 * fuel) (default vanillaRunner (lc_runner lcfg))
    (LfvmInterpreter.initContext lcfg res params w garbage)
    = ('(o, c) ← execute Keccak256 Keccak256For32byte (2 * fuel) false (LfvmInterpreter.initContext lcfg res params w garbage);
       Some (o, c, vanillaRunner, None))) as -> by (by destruct Hp as [->| ->]).
  unfold execute. rewrite Hsteps.
  assert (mkLConfig (lc_ConversionConfig lcfg) (lc_WithShaCache lcfg)
    (match lc_runner lcfg with Some _ => Some vanillaRunner | None => None end) = lcfg) as Hcfg.
  { destruct lcfg, Hp as [Hr|Hr]; cbn in *; by rewrite Hr. }
  unfold same_end, rsim in Hend. destruct o as [st|e|], o' as [st'|e'|]; try done.
  - destruct Hend as [<- Ha]. apply (generateResult_alike st) in Ha as [Hres Hw].
    intros [= <- <- <-]. cbn [mbind option_bind]. by rewrite Hcfg, Hres, Hw.
  - intros [= <- <- <-]. cbn [mbind option_bind]. rewrite Hcfg.
    by rewrite (alike_context _ _ Hend).
Qed.

(** Runs of the interpreters, with their caches. *)
Lemma Run_same fuel (vm : sfvm CS) (e : lfvm CL Log) (w : W) params garbage r w' vm' :
  cv_config (lv_converter e) = lc_ConversionConfig (lv_config e) ->
  WithSuperInstructions (lc_ConversionConfig (lv_config e)) = false -> plain (lv_config e) ->
  WithShaCache (vm_config vm) = lc_WithShaCache (lv_config e) ->
  cache_coherent codeHash deployed (vm_analysis vm) -> converter_coherent codeHash deployed (lv_converter e) ->
  deployed (p_Code params) ->
  p_CodeHash params = None \/ p_CodeHash params = Some (codeHash (p_Code params)) ->
  isI64 (p_Gas params) -> zlen garbage = maxStackSize -> zlen (p_Code params) <= MaxUint16 ->
  SfvmInterpreter.Run Keccak256 Keccak256For32byte fuel vm w params garbage = Some (w', vm', r) ->
  exists e', LfvmInterpreter.Run Keccak256 Keccak256For32byte (2 * fuel) e w params garbage = Some (w', e', r)
    /\ converter_coherent codeHash deployed (lv_converter e')
    /\ lv_config e' = lv_config e /\ cv_config (lv_converter e') = cv_config (lv_converter e).
Proof.
  intros Hcc Hsi Hp Hsha Hc Hcv Hd Hh Hg Hgb Hsize. unfold SfvmInterpreter.Run, LfvmInterpreter.Run.
  change LfvmInterpreter.newestSupportedRevision with SfvmInterpreter.newestSupportedRevision.
  destruct (bp_Revision (p_Block params) >? SfvmInterpreter.newestSupportedRevision).
  { intros [= <- <- <-]. by exists e. }
  destruct (SfvmInterpreter.run _ _ fuel _ _ w params garbage) as [[[w1 a1] r1]|] eqn:Er; [|done].
  intros [= <- <- <-].
  destruct (Convert_coherent codeHash deployed codeHash_inj (lv_converter e) (p_Code params) (p_CodeHash params))
    as (cv & res & -> & Hconv & Hcv' & Hcfg); [done..|].
  rewrite Hcc in Hconv.
  erewrite run_same; [|done..|exact Er]. eexists. split; [done|]. by split.
Qed.

End Runs.
