(* ===== verification/LfvmStatistics.v ===== *)
(** * Runners observe, and do not change, a run

    The runner that collects statistics ends like the plain loop, and what it
    collects are the numbers of occurrences of single instructions, pairs,
    triples and quadruples in the sequence of executed instructions. *)
From Stdlib Require Import ZArith Lia Strings.Byte.
From stdpp Require Import base list numbers gmap.
From S2P Require Import Prelude Uint256 Types OpCodes SfvmStack SfvmAnalysis SfvmHashCache.
From S2P Require Import SfvmContext SfvmMemory LfvmOpCodes LfvmConverter LfvmContext.
From S2P Require Import LfvmInstructions LfvmInterpreter LfvmPush.
Set Default Goal Selector "!".
Local Open Scope Z_scope.
Local Open Scope go_scope.

(** ** Counting *)

(** The history of a run has the latest op code first. Its windows are the
    sequences of [n] consecutive op codes. *)
Fixpoint windows (n : nat) (h : list Z) : list (list Z) :=
  match h with
  | [] => []
  | x :: h' => if (n <=? length h)%nat then take n h :: windows n h' else []
  end.

(** The key of a window: its op codes in 16 bits each, the latest lowest. *)
Fixpoint window_key (w : list Z) : Z :=
  match w with
  | [] => 0
  | x :: w => x + 2 ^ 16 * window_key w
  end.

Definition occurrences (n : nat) (h : list Z) (k : Z) : Z :=
  zlen (filter (fun w => window_key w = k) (windows n h)).

(** A table holds the numbers of occurrences. *)
Definition tallies (m : gmap Z Z) (n : nat) (h : list Z) : Prop :=
  forall k, default 0 (m !! k) = occurrences n h k.

Definition isU16 (z : Z) : Prop := 0 <= z < 2 ^ 16.

Lemma count_add_lookup k v m k' :
  default 0 (count_add k v m !! k')
  = if decide (k = k') then default 0 (m !! k) +u64 v else default 0 (m !! k').
Proof.
  unfold count_add. case_decide as E; [subst k'; by rewrite lookup_insert_eq|by rewrite lookup_insert_ne].
Qed.

Lemma windows_short n h : (length h < n)%nat -> windows n h = [].
Proof. destruct h as [|x h]; intros Hl; [done|]. cbn. by rewrite (proj2 (Nat.leb_gt _ _)). Qed.

Lemma windows_length n h : (length (windows n h) <= length h)%nat.
Proof. induction h as [|x h IH]; cbn; [lia|]. destruct (_ <=? _)%nat; cbn; lia. Qed.

Lemma occurrences_bound n h k : 0 <= occurrences n h k <= zlen h.
Proof.
  unfold occurrences, zlen. pose proof (length_filter (fun w => window_key w = k) (windows n h)).
  pose proof (windows_length n h). lia.
Qed.

(** A further op code adds one window, if there are enough op codes. *)
Lemma occurrences_cons n x h k : occurrences n (x :: h) k
  = (if (n <=? S (length h))%nat && (window_key (take n (x :: h)) =? k) then 1 else 0) + occurrences n h k.
Proof.
  unfold occurrences. cbn [windows length]. destruct (Nat.leb_spec n (S (length h))) as [Hn|Hn]; cbn [andb].
  - rewrite filter_cons. destruct (Z.eqb_spec (window_key (take n (x :: h))) k) as [E|E].
    + rewrite decide_True by done. rewrite zlen_cons. lia.
    + by rewrite decide_False by done.
  - rewrite (windows_short n h) by lia. done.
Qed.

Lemma tallies_skip m n x h : (S (length h) < n)%nat -> tallies m n h -> tallies m n (x :: h).
Proof.
  intros Hn Ht k. rewrite Ht, occurrences_cons, (proj2 (Nat.leb_gt _ _)) by lia. done.
Qed.

Lemma tallies_add m n x h key : (n <= S (length h))%nat -> zlen h + 1 < 2 ^ 64 ->
  window_key (take n (x :: h)) = key -> tallies m n h -> tallies (count_add key 1 m) n (x :: h).
Proof.
  intros Hn Hl <- Ht k. rewrite count_add_lookup, occurrences_cons, (proj2 (Nat.leb_le _ _)), !Ht by lia.
  cbn [andb]. set (key := window_key _). case_decide as E.
  - subst k. rewrite Z.eqb_refl. pose proof (occurrences_bound n h key). rewrite u64_id by zblia. lia.
  - by rewrite (proj2 (Z.eqb_neq _ _)).
Qed.

(** ** The collector *)

Record collects (h : list Z) (s : statsCollector) : Prop := {
  col_count : count (sc_stats s) = zlen h;
  col_single : tallies (singleCount (sc_stats s)) 1 h;
  col_pair : tallies (pairCount (sc_stats s)) 2 h;
  col_triple : tallies (tripleCount (sc_stats s)) 3 h;
  col_quad : tallies (quadCount (sc_stats s)) 4 h;
  col_last : forall x, h !! 0%nat = Some x -> sc_last s = x;
  col_second : forall x, h !! 1%nat = Some x -> sc_secondLast s = x;
  col_third : forall x, h !! 2%nat = Some x -> sc_thirdLast s = x
}.

Lemma collects_new : collects [] newCollector.
Proof. by constructor. Qed.

(** The keys of the source are those of the windows. *)
Lemma key_pair a b : isU16 a -> isU16 b -> Z.lor (u64 (Z.shiftl b 16)) a = window_key [a; b].
Proof.
  unfold isU16. intros Ha Hb. cbn [window_key]. rewrite Z.shiftl_mul_pow2, u64_id by zblia.
  rewrite lor_shifted by lia. lia.
Qed.

Lemma key_triple a b c : isU16 a -> isU16 b -> isU16 c ->
  Z.lor (Z.lor (u64 (Z.shiftl c 32)) (u64 (Z.shiftl b 16))) a = window_key [a; b; c].
Proof.
  unfold isU16. intros Ha Hb Hc. cbn [window_key]. rewrite !Z.shiftl_mul_pow2, !u64_id by zblia.
  rewrite (lor_shifted c (b * 2 ^ 16) 32) by lia.
  replace (c * 2 ^ 32 + b * 2 ^ 16) with ((c * 2 ^ 16 + b) * 2 ^ 16) by lia.
  rewrite lor_shifted by lia. lia.
Qed.

Lemma key_quad a b c d : isU16 a -> isU16 b -> isU16 c -> isU16 d ->
  Z.lor (Z.lor (Z.lor (u64 (Z.shiftl d 48)) (u64 (Z.shiftl c 32))) (u64 (Z.shiftl b 16))) a
  = window_key [a; b; c; d].
Proof. unfold isU16. intros. rewrite limb_val by lia. cbn [window_key]. lia. Qed.

Lemma nextOp_collects h s op : collects h s -> Forall isU16 h -> isU16 (opcode_val op) ->
  zlen h + 1 < 2 ^ 64 -> collects (opcode_val op :: h) (nextOp s op).
Proof.
  intros [] Hh Hx Hl. set (x := opcode_val op) in *. unfold nextOp. fold x.
  rewrite col_count0, u64_id by zblia.
  assert (forall c s', Forall isU16 h -> c = zlen h + 1 ->
    tallies (singleCount s') 1 (x :: h) -> tallies (pairCount s') 2 (x :: h) ->
    tallies (tripleCount s') 3 (x :: h) -> tallies (quadCount s') 4 (x :: h) ->
    collects (x :: h) (mkCollector (mkStatistics c (singleCount s') (pairCount s') (tripleCount s') (quadCount s'))
      x (sc_last s) (sc_secondLast s))) as Hmk.
  { intros c s' _ -> H1 H2 H3 H4. constructor; cbn; try done; [by rewrite zlen_cons|by intros y [= ->]|auto..]. }
  pose proof (fun n m => tallies_skip m n x h) as Hskip.
  pose proof (fun n m key Hn => tallies_add m n x h key Hn Hl) as Hadd.
  assert (forall k y, h !! k = Some y -> isU16 y) as Hu by (intros k y Hy; by eapply Forall_lookup_1 in Hh).
  assert (tallies (count_add x 1 (singleCount (sc_stats s))) 1 (x :: h)) as HS.
  { apply Hadd; [lia| |done]. change (x + 2 ^ 16 * 0 = x). lia. }
  destruct h as [|b [|c [|d h]]]; cbv zeta; rewrite ?zlen_cons; change (zlen []) with 0.
  - apply (Hmk _ (mkStatistics 0 _ _ _ _)); cbn; try done; apply Hskip; cbn; lia || done.
  - assert (tallies (count_add (Z.lor (u64 (Z.shiftl (sc_last s) 16)) x) 1 (pairCount (sc_stats s))) 2 [x; b]) as HP.
    { apply Hadd; [cbn; lia| |done]. rewrite (col_last0 b eq_refl), key_pair; [done|done|by apply (Hu 0%nat)]. }
    apply (Hmk _ (mkStatistics 0 _ _ _ _)); cbn; try done; apply Hskip; cbn; lia || done.
  - assert (tallies (count_add (Z.lor (u64 (Z.shiftl (sc_last s) 16)) x) 1 (pairCount (sc_stats s))) 2 [x; b; c]) as HP.
    { apply Hadd; [cbn; lia| |done]. rewrite (col_last0 b eq_refl), key_pair; [done|done|by apply (Hu 0%nat)]. }
    apply (Hmk _ (mkStatistics 0 _ _ _ _)); cbn; try done.
    apply Hadd; [cbn; lia| |done]. rewrite (col_last0 b eq_refl), (col_second0 c eq_refl).
    rewrite key_triple; [done|done|by apply (Hu 0%nat)|by apply (Hu 1%nat)].
  - assert (0 <= zlen h) as Hz by apply zlen_nonneg.
    rewrite !(proj2 (Z.eqb_neq _ _)) by lia.
    apply (Hmk _ (mkStatistics 0 _ _ _ _)); cbn; try done; [unfold zlen; cbn; lia|..]; (apply Hadd; [cbn; lia| |done]);
      rewrite ?(col_last0 b eq_refl), ?(col_second0 c eq_refl), ?(col_third0 d eq_refl);
      rewrite ?key_pair, ?key_triple, ?key_quad; try done;
      match goal with |- isU16 ?y => first [by apply (Hu 0%nat y)|by apply (Hu 1%nat y)|by apply (Hu 2%nat y)] end.
Qed.

(** ** Runs with statistics *)

Section Runner.
Context {W : Type} {U : Uint256} {RC : RunContext W} {G : Globals W}.
Context (Keccak256 : list byte -> Hash) (Keccak256For32byte : array 32 -> Hash).
Implicit Types c : lcontext W.

Abbreviation l_step := (LfvmInterpreter.step Keccak256 Keccak256For32byte).

(** No instruction changes the code. *)
Definition keeps_code {A} (m : LM W A) : Prop := forall c, l_code (snd (m c)) = l_code c.

Lemma keeps_bind {A B} (m : LM W A) (f : A -> LM W B) :
  keeps_code m -> (forall a, keeps_code (f a)) -> keeps_code (mbind f m).
Proof.
  intros Hm Hf c. unfold mbind, LM_bind. specialize (Hm c). destruct (m c) as [[a|e|] c']; cbn in *; try done.
  by rewrite Hf.
Qed.

Lemma keeps_shared {A} (m : M W A) : keeps_code (shared m).
Proof. intros c. unfold shared. by destruct (m (toSfvm c)). Qed.

Lemma keeps_ret {A} (a : A) : keeps_code (mret a).
Proof. done. Qed.

Lemma keeps_fail {A} e : keeps_code (l_fail (A := A) e).
Proof. done. Qed.

Lemma keeps_panic {A} : keeps_code (l_panic (A := A)).
Proof. done. Qed.

Lemma keeps_gets {A} (f : lcontext W -> A) : keeps_code (l_gets f).
Proof. done. Qed.

Lemma keeps_lift_option {A} (o : option A) : keeps_code (l_lift_option o).
Proof. by destruct o. Qed.

Lemma keeps_set_pc pc : keeps_code (l_modify (l_set_pc pc)).
Proof. done. Qed.

Lemma keeps_set_gas g : keeps_code (l_modify (l_set_gas g)).
Proof. done. Qed.

Lemma keeps_set_stack st : keeps_code (l_modify (l_set_stack st)).
Proof. done. Qed.

Create HintDb keeps.
#[local] Hint Resolve keeps_ret keeps_fail keeps_panic keeps_gets keeps_lift_option keeps_shared
  keeps_set_pc keeps_set_gas keeps_set_stack : keeps.

Ltac head_constant t := match t with ?f _ => head_constant f | _ => t end.

Ltac keeps_step :=
  match goal with
  | |- keeps_code (mbind _ _) => apply keeps_bind; [|intros ?]
  | |- keeps_code (if ?b then _ else _) => destruct b
  | |- keeps_code (let '(_, _) := ?x in _) => destruct x
  | |- keeps_code _ => solve [auto with keeps nocore]
  | |- keeps_code ?m => let h := head_constant m in unfold h; cbv zeta
  end.

Lemma keeps_step_code : keeps_code l_step.
Proof.
  unfold LfvmInterpreter.step. cbv zeta. repeat match goal with
  | |- keeps_code (dispatch _ _ _) => fail 1
  | _ => keeps_step
  end.
  unfold dispatch. destruct (opcode a0) as [op| | | | | | | | | | | | | | | | | | | | | | | |n]; [destruct op|..]; repeat keeps_step.
Qed.

(** The op codes a run executes, in order. *)
Fixpoint executed (fuel : nat) c : list LOpCode :=
  match fuel with
  | O => []
  | S fuel =>
      if l_pc c >=? zlen (l_code c) then []
      else
        match l_code_at (l_pc c) c with
        | (Ok i, _) =>
            opcode i :: match l_step c with (Ok statusRunning, c) => executed fuel c | _ => [] end
        | _ => []
        end
  end.

Lemma l_code_at_cases c :
  (exists i, l_code_at (l_pc c) c = (Ok i, c) /\ i ∈ l_code c)
  \/ (l_code_at (l_pc c) c = (Panic, c) /\ l_step c = (Panic, c)).
Proof.
  unfold LfvmInterpreter.step, l_code_at, mbind, LM_bind, l_gets, id.
  destruct (l_pc c <? 0); [by right|].
  destruct (l_code c !! Z.to_nat (l_pc c)) as [i|] eqn:E; [|by right].
  left. exists i. split; [done|]. by eapply list_elem_of_lookup_2.
Qed.

(** The loop with statistics ends like the plain one, with the statistics of
    the executed op codes. *)
Lemma statistic_loop_executed fuel : forall c o c' col,
  execute Keccak256 Keccak256For32byte fuel false c = Some (o, c') ->
  statistic_loop Keccak256 Keccak256For32byte fuel col c
  = Some (o, c', fold_left nextOp (executed fuel c) col).
Proof.
  induction fuel as [|fuel IH]; intros c o c' col He; [done|].
  unfold execute in He. cbn [steps statistic_loop executed] in *. unfold currentOp, execute. cbn [steps].
  rewrite Z.geb_leb in *. destruct (Z.leb_spec (zlen (l_code c)) (l_pc c)) as [Hl|Hl].
  { rewrite (proj2 (Z.ltb_ge _ _)) by done. by injection He as <- <-. }
  rewrite (proj2 (Z.ltb_lt _ _)) by done.
  destruct (l_code_at_cases c) as [(i & Hi & _)|[Hi Hs]]; rewrite Hi; cbn [fst].
  2: { rewrite Hs in He. by injection He as <- <-. }
  cbn [fold_left].
  destruct (l_step c) as [[[]|e|] c2] eqn:E; try by injection He as <- <-.
  apply IH. exact He.
Qed.

Lemma executed_wf fuel : forall c, Forall (fun i => lop_wf (opcode i)) (l_code c) ->
  Forall lop_wf (executed fuel c).
Proof.
  induction fuel as [|fuel IH]; intros c Hc; cbn [executed]; [constructor|].
  destruct (_ >=? _); [constructor|]. destruct (l_code_at_cases c) as [(i & -> & Hi)|[-> _]]; [|constructor].
  constructor; [by rewrite Forall_forall in Hc; apply Hc|].
  pose proof (keeps_step_code c) as Hk. destruct (l_step c) as [[[]|e|] c2]; try constructor.
  apply IH. cbn in Hk. by rewrite Hk.
Qed.

Lemma opcode_val_u16 op : lop_wf op -> isU16 (opcode_val op).
Proof.
  unfold isU16. destruct op; cbn; try lia. intros _. pose proof (byte_val_range op). lia.
Qed.

Lemma collects_all ops : forall h col, collects h col -> Forall isU16 h -> Forall lop_wf ops ->
  zlen h + zlen ops < 2 ^ 64 ->
  collects (reverse (map opcode_val ops) ++ h) (fold_left nextOp ops col).
Proof.
  induction ops as [|op ops IH]; intros h col Hc Hh Ho Hl; [done|].
  inversion Ho as [|? ? Hw Ho']; subst. rewrite zlen_cons in Hl. cbn [map fold_left].
  rewrite reverse_cons, <-(assoc_L (++)). cbn [app]. apply opcode_val_u16 in Hw. pose proof (zlen_nonneg ops).
  apply IH; [by apply nextOp_collects; [..|lia]|by constructor|done|rewrite zlen_cons; lia].
Qed.

End Runner.

(** ** Merging *)

(** The statistics of a run are added to those of the runner. *)
Lemma count_merge_lookup src dst k : (forall k v, dst !! k = Some v -> isU64 v) ->
  default 0 (count_merge src dst !! k) = default 0 (dst !! k) +u64 default 0 (src !! k).
Proof.
  intros Hd. unfold count_merge. revert k.
  apply (map_fold_weak_ind (fun r m => forall k, default 0 (r !! k) = default 0 (dst !! k) +u64 default 0 (m !! k))).
  - intros k. rewrite lookup_empty, Z.add_0_r. destruct (dst !! k) as [v|] eqn:E; cbn; [|done].
    symmetry. apply u64_id. by apply (Hd k).
  - intros i x m r Hi IH k. rewrite count_add_lookup. case_decide as E.
    + subst k. rewrite IH, Hi, lookup_insert_eq. cbn. rewrite Z.add_0_r.
      destruct (dst !! i) as [v|] eqn:Ed; cbn; [|done]. by rewrite (u64_id v) by (by apply (Hd i)).
    + by rewrite IH, lookup_insert_ne.
Qed.
