(* ===== verification/LfvmProperties.v ===== *)
(** * Properties of the long-form interpreter

    The theorems about the conversion, the equivalence of the two interpreters
    and the runners, each with a concrete run that meets its hypotheses. *)
From Stdlib Require Import ZArith Lia Strings.Byte String.
From stdpp Require Import base list numbers gmap.
From S2P Require Import Prelude Uint256 Types OpCodes SfvmStack SfvmAnalysis SfvmHashCache.
From S2P Require Import SfvmContext SfvmMemory SfvmGas SfvmInstructions SfvmInterpreter SfvmLogic SfvmExecution.
From S2P Require Import RefWorld SfvmSafety SfvmProperties.
From S2P Require Import LfvmOpCodes LfvmConverter LfvmLayout LfvmContext LfvmGas LfvmInstructions.
From S2P Require Import LfvmInterpreter LfvmShared LfvmPush LfvmSimulation LfvmDecode LfvmEquivalence LfvmStatistics.
Set Default Goal Selector "!".
Local Open Scope Z_scope.
Local Open Scope go_scope.

#[local] Existing Instance uint256_ref.
#[local] Existing Instance uint256_ref_laws.
#[local] Existing Instance refRunContext.

(** ** Concrete interpreters *)

(** A log that accepts every entry. *)
#[local] Instance listWriter : Writer (list logEntry) := {| log_write l e := (l ++ [e], None) |}.

Definition exampleSfvm : sfvm assocCache := mkSfvm exampleConfig (mkAnalysis (Some []) 100).

(** What [NewInterpreter] returns, with an association list for the cache. *)
Definition exampleLfvm : lfvm (assocList LCode) (list logEntry) :=
  mkLfvm (mkLConfig (mkConversionConfig (2 ^ 30) false) true None)
    (mkConverter (mkConversionConfig (2 ^ 30) false) (Some [])).

Definition refCodeHash : Code -> Hash := refHash.

Lemma exampleAnalysis_coherent codeHash deployed :
  cache_coherent codeHash deployed (vm_analysis exampleSfvm).
Proof.
  intros cache h m [= <-] Hm. by destruct (lru_New_empty (L := refLRU) 1 [] h m ltac:(reflexivity) Hm).
Qed.

Lemma exampleConverter_coherent codeHash deployed :
  converter_coherent codeHash deployed (lv_converter exampleLfvm).
Proof.
  intros cache h m [= <-] Hm. by destruct (lru_New_empty (L := refLRU) 1 [] h m ltac:(reflexivity) Hm).
Qed.

Lemma exampleSfvm_run : exists w' vm' r,
  SfvmInterpreter.Run refHash refHash32 20 exampleSfvm exampleWorld
    (exampleParams R13_Cancun false 50000 exampleCode) exampleStack = Some (w', vm', inl r)
  /\ r_GasLeft r = 27837.
Proof.
  assert (match SfvmInterpreter.Run refHash refHash32 20 exampleSfvm exampleWorld
    (exampleParams R13_Cancun false 50000 exampleCode) exampleStack with
    | Some (_, _, inl r) => r_GasLeft r =? 27837 | _ => false end = true) as H by (vm_compute; reflexivity).
  destruct (SfvmInterpreter.Run _ _ _ _ _ _ _) as [[[w' vm'] [r|e]]|]; [|done..].
  exists w', vm', r. split; [done|]. by apply Z.eqb_eq.
Qed.

(** ** Equivalence *)

(** C8. The two interpreters are equivalent: whatever [sfvm] returns for a
    code of at most 65535 bytes (result or error, with its gas, refund and
    output), [lfvm] without super instructions returns too, and leaves the
    world in the same state. Both caches may hold anything that is coherent
    with the deployed codes. [lfvm] needs at most two iterations for each
    iteration of [sfvm], for it may have to skip to a jump destination. *)
Theorem lfvm_equivalent {W} {U : Uint256} {UL : Uint256Laws U} {RC : RunContext W} {G : Globals W}
    {CS} {LS : LRU jumpDestMap CS} {LLS : LRULaws LS} {CL} {LL : LRU LCode CL} {LLL : LRULaws LL}
    {Log} {WR : Writer Log} K K32 (codeHash : Code -> Hash) (deployed : Code -> Prop)
    fuel (vm : sfvm CS) (e : lfvm CL Log) (w : W) params garbage r w' vm' :
  (forall c1 c2, deployed c1 -> deployed c2 -> codeHash c1 = codeHash c2 -> c1 = c2) ->
  cv_config (lv_converter e) = lc_ConversionConfig (lv_config e) ->
  WithSuperInstructions (lc_ConversionConfig (lv_config e)) = false -> plain (lv_config e) ->
  WithShaCache (vm_config vm) = lc_WithShaCache (lv_config e) ->
  cache_coherent codeHash deployed (vm_analysis vm) -> converter_coherent codeHash deployed (lv_converter e) ->
  deployed (p_Code params) ->
  p_CodeHash params = None \/ p_CodeHash params = Some (codeHash (p_Code params)) ->
  isI64 (p_Gas params) -> zlen garbage = maxStackSize -> zlen (p_Code params) <= MaxUint16 ->
  SfvmInterpreter.Run K K32 fuel vm w params garbage = Some (w', vm', r) ->
  exists e', LfvmInterpreter.Run K K32 (2 * fuel) e w params garbage = Some (w', e', r)
    /\ converter_coherent codeHash deployed (lv_converter e').
Proof.
  intros Hinj H1 H2 H3 H4 H5 H6 H7 H8 H9 H10 H11 Hr.
  destruct (Run_same K K32 codeHash deployed Hinj fuel vm e w params garbage r w' vm') as (e' & Hl & Hc & _);
    [done..|]. by exists e'.
Qed.

Lemma lfvm_equivalent_witness : exists w' vm' r e',
  let params := exampleParams R13_Cancun false 50000 exampleCode in
  SfvmInterpreter.Run refHash refHash32 20 exampleSfvm exampleWorld params exampleStack = Some (w', vm', inl r)
  /\ r_GasLeft r = 27837
  /\ LfvmInterpreter.Run refHash refHash32 40 exampleLfvm exampleWorld params exampleStack = Some (w', e', inl r).
Proof.
  set (params := exampleParams R13_Cancun false 50000 exampleCode).
  destruct exampleSfvm_run as (w' & vm' & r & Hr & Hg).
  destruct (lfvm_equivalent refHash refHash32 refCodeHash (fun c => c = exampleCode) 20 exampleSfvm exampleLfvm
    exampleWorld params exampleStack (inl r) w' vm') as (e' & Hl & _).
  - by intros c1 c2 -> ->.
  - reflexivity.
  - reflexivity.
  - by left.
  - reflexivity.
  - apply exampleAnalysis_coherent.
  - apply exampleConverter_coherent.
  - reflexivity.
  - by left.
  - clear. cbn. zblia.
  - reflexivity.
  - clear. by apply Z.leb_le.
  - exact Hr.
  - change (2 * 20)%nat with 40%nat in Hl. exists w', vm', r, e'. exact (conj Hr (conj Hg Hl)).
Defined.



(** ** The conversion *)

(** C16. The conversion of a code of at most 65535 bytes, with or without
    super instructions, never panics and loses nothing: decoding the long form
    gives the code back, with zeros for the missing data of a last push. *)
Theorem convert_decode code config : zlen code <= MaxUint16 ->
  exists res k, convert code config = Some res
    /\ decode res = code ++ replicate k x00 /\ (k <= 32)%nat.
Proof.
  intros Hsize. destruct (convert_ok code _ Hsize config eq_refl) as (res & tr & _ & Hc & Hl).
  destruct (layout_decode _ _ _ _ _ _ Hl) as (k & Hk & Hle). by exists res, k.
Qed.

(** [PUSH1 3; JUMP; JUMPDEST; PUSH2 1] without the last byte of its data. *)
Definition shortCode : Code := [PUSH1; x03; JUMP; JUMPDEST; PUSH2; x01].

Lemma convert_decode_witness : exists res k, convert shortCode (mkConversionConfig 0 true) = Some res
  /\ decode res = shortCode ++ replicate k x00.
Proof.
  destruct (convert_decode shortCode (mkConversionConfig 0 true)) as (res & k & Hc & Hd & _).
  - by apply Z.leb_le.
  - exists res, k. exact (conj Hc Hd).
Defined.

(** C17. Jumps need no translation: the long form has a [JUMPDEST] exactly at
    the positions that are jump destinations of the EVM code. *)
Theorem convert_jump_dests code config res d : zlen code <= MaxUint16 ->
  convert code config = Some res ->
  (exists x, res !! d = Some x /\ opcode x = Base JUMPDEST) <-> jump_dest code (Z.of_nat d).
Proof.
  intros Hsize Hc. destruct (convert_ok code _ Hsize config eq_refl) as (res' & tr & _ & Hc' & Hl).
  assert (res' = res) as -> by congruence.
  pose proof (layout_dest_iff _ _ _ _ _ _ Hl d (le_0_n d)) as Hi. rewrite Nat.sub_0_r in Hi. rewrite <-Hi.
  unfold dest_from, jump_dest, instr_start. by rewrite Nat2Z.id.
Qed.

Lemma convert_jump_dests_witness : jump_dest shortCode 3.
Proof.
  apply (convert_jump_dests shortCode (mkConversionConfig 0 false)
    (default [] (convert shortCode (mkConversionConfig 0 false))) 3%nat).
  - by apply Z.leb_le.
  - vm_compute. reflexivity.
  - eexists. split; [vm_compute; reflexivity|reflexivity].
Defined.

(** ** Runners *)

(** The runner that collects statistics does not change a run, and counts
    it correctly: it ends with the outcome and in the context of the plain
    loop, and its tables hold the numbers of occurrences of single op codes,
    pairs, triples and quadruples in the sequence of executed op codes. *)
Theorem statistics_exact {W} {U : Uint256} {RC : RunContext W} {G : Globals W} K K32 fuel (c c' : lcontext W) o :
  Forall (fun i => lop_wf (opcode i)) (l_code c) -> zlen (executed K K32 fuel c) < 2 ^ 64 ->
  LfvmInterpreter.execute K K32 fuel false c = Some (o, c') ->
  exists col, statistic_loop K K32 fuel newCollector c = Some (o, c', col)
    /\ collects (reverse (map opcode_val (executed K K32 fuel c))) col.
Proof.
  intros Hc Hn He. rewrite (statistic_loop_executed K K32 fuel c o c' newCollector He). eexists. split; [done|].
  rewrite <-(app_nil_r (reverse _)). apply collects_all; [apply collects_new|constructor|by apply executed_wf|done].
Qed.

Definition exampleLongContext (code : Code) : lcontext world :=
  LfvmInterpreter.initContext (lv_config exampleLfvm)
    (default [] (convert code (lc_ConversionConfig (lv_config exampleLfvm))))
    (exampleParams R13_Cancun false 50000 code) exampleWorld exampleStack.

Lemma statistics_exact_witness : exists c' col,
  statistic_loop refHash refHash32 8 newCollector (exampleLongContext shortCode) = Some (Ok statusStopped, c', col)
  /\ collects (reverse (map opcode_val [Base PUSH1; Base JUMP; Base JUMPDEST; Base PUSH2])) col.
Proof.
  destruct (LfvmInterpreter.execute refHash refHash32 8 false (exampleLongContext shortCode)) as [[o c']|] eqn:E.
  - assert (o = Ok statusStopped) as ->.
    { apply (f_equal (option_map fst)) in E. cbn [option_map fst] in E. vm_compute in E. by injection E. }
    destruct (statistics_exact refHash refHash32 8 (exampleLongContext shortCode) c' (Ok statusStopped))
      as (col & Hl & Hc).
    + vm_compute. repeat constructor.
    + vm_compute. reflexivity.
    + exact E.
    + exists c', col. split; [exact Hl|]. vm_compute executed in Hc. exact Hc.
  - apply (f_equal (option_map fst)) in E. vm_compute in E. discriminate E.
Defined.

(** ** Super instructions *)

(** [PUSH5 d; PUSH1 1; PUSH1 2; SWAP2; SWAP1; POP; JUMP; JUMPDEST], where the
    [JUMPDEST] is at position 14. *)
Definition swapJump (d4 d3 d2 d1 d0 : byte) : Code :=
  [PUSH5; d4; d3; d2; d1; d0; PUSH1; x01; PUSH1; x02; SWAP2; SWAP1; POP; JUMP; JUMPDEST].

Definition superConfig : LfvmInterpreter.config (list logEntry) :=
  mkLConfig (mkConversionConfig 0 true) true None.

Definition superOutcome (code : Code) : option (outcome status) :=
  fst <$> LfvmInterpreter.execute refHash refHash32 20 false
    (LfvmInterpreter.initContext superConfig (default [] (convert code (mkConversionConfig 0 true)))
       (exampleParams R13_Cancun false 50000 code) exampleWorld exampleStack).

Definition sfvmOutcome (code : Code) : option (outcome status) :=
  fst <$> SfvmInterpreter.execute refHash refHash32 20 false
    (SfvmInterpreter.initContext exampleConfig (findJumpDestinations code)
       (exampleParams R13_Cancun false 50000 code) exampleWorld exampleStack).

(** C34. [SWAP2_SWAP1_POP_JUMP] does not check the range of its destination
    but truncates it: with super instructions a jump to [2^32 + 14] arrives at
    the destination at 14, and a jump to [2^31] is a panic, where [sfvm] fails
    for an invalid destination both times. *)
Theorem superJump_unchecked :
  superOutcome (swapJump x01 x00 x00 x00 x0e) = Some (Ok statusStopped)
  /\ sfvmOutcome (swapJump x01 x00 x00 x00 x0e) = Some (Ok statusFailed)
  /\ superOutcome (swapJump x00 x80 x00 x00 x00) = Some Panic
  /\ sfvmOutcome (swapJump x00 x80 x00 x00 x00) = Some (Ok statusFailed).
Proof. split_and!; vm_compute; reflexivity. Qed.
