(* ===== verification/CtCommon.v ===== *)
(** * Values of the conformance tests

    [go/ct/common]: the value type [U256] over the library [uint256], byte
    strings, addresses, delegation designators, arrays of block hashes and the
    revisions the tests cover. A function that can panic returns an [option]. *)
From Stdlib Require Import ZArith Lia Strings.Byte.
From stdpp Require Import base list numbers countable.
From S2P Require Import Prelude Uint256 Types.
Set Default Goal Selector "!".
Local Open Scope Z_scope.
Local Open Scope go_scope.

(** ** [U256] *)

(** The struct has one field, the library's integer. *)
Abbreviation U256 := u256.

(** The value of four limbs, the least significant first. *)
Definition of_limbs (l : list Z) : U256 :=
  of_Z (fold_right (fun limb acc => u64 limb + 2 ^ 64 * acc) 0 l).

(** The loop writes [args[i]] to limb [3 - i - offset]. *)
Fixpoint NewU256_loop (args : list Z) (i offset : nat) (internal : list Z) : list Z :=
  match args with
  | [] => internal
  | a :: args => NewU256_loop args (S i) offset (<[(3 - i - offset)%nat := a]> internal)
  end.

Definition NewU256s (args : list Z) : option U256 :=
  if (4 <? length args)%nat then None
  else Some (of_limbs (NewU256_loop args 0 (4 - length args) [0; 0; 0; 0])).

(** The call with one argument. *)
Definition NewU256 (arg : Z) : U256 := of_Z (u64 arg).

(** [Bytes] wraps an immutable string of bytes. *)
Abbreviation Bytes := (list byte).

Section U256.
Context {U : Uint256}.
Implicit Types a b m : U256.

Definition NewU256FromBytes (bytes : list byte) : option U256 :=
  if 32 <? zlen bytes then None else Some (Int_SetBytes bytes).

(** A [big.Int] is an integer. *)
Definition NewU256FromBigInt (b : Z) : option U256 :=
  if b <? 0 then None
  else let '(result, overflow) := Int_FromBig b in if overflow then None else Some result.

Definition MaxU256 : U256 := Int_SetAllOne.

Definition U256_IsZero a : bool := Int_IsZero a.
Definition U256_IsUint64 a : bool := Int_IsUint64 a.
Definition U256_Uint64 a : Z := Int_Uint64 a.
Definition U256_Bytes32be a : array 32 := Int_Bytes32 a.
Definition U256_Bytes20be a : array 20 := Int_Bytes20 a.

(** [uint256.Int.Eq] compares the limbs. *)
Definition U256_Eq a b : bool := bool_decide (a = b).
Definition U256_Ne a b : bool := negb (bool_decide (a = b)).
Definition U256_Lt a b : bool := Int_Lt a b.
Definition U256_Slt a b : bool := Int_Slt a b.
Definition U256_Gt a b : bool := Int_Gt a b.
Definition U256_Sgt a b : bool := Int_Sgt a b.
Definition U256_Add a b : U256 := Int_Add a b.
Definition U256_AddMod a b m : U256 := Int_AddMod a b m.
Definition U256_Sub a b : U256 := Int_Sub a b.
Definition U256_Mul a b : U256 := Int_Mul a b.
Definition U256_MulMod a b m : U256 := Int_MulMod a b m.
Definition U256_Div a b : U256 := Int_Div a b.
Definition U256_SDiv a b : U256 := Int_SDiv a b.
Definition U256_Mod a b : U256 := Int_Mod a b.
Definition U256_SMod a b : U256 := Int_SMod a b.
Definition U256_Exp a b : U256 := Int_Exp a b.
Definition U256_SignExtend a b : U256 := Int_ExtendSign a b.
Definition U256_And a b : U256 := Int_And a b.
Definition U256_Or a b : U256 := Int_Or a b.
Definition U256_Xor a b : U256 := Int_Xor a b.
Definition U256_Not a : U256 := Int_Not a.
Definition U256_BitLen a : Z := Int_BitLen a.

(** The named result of a method is zero until it is assigned. *)
Definition U256_Shl a b : U256 :=
  if Int_LtUint64 b 256 then Int_Lsh a (Int_Uint64 b) else NewU256 0.

Definition U256_Shr a b : U256 :=
  if Int_LtUint64 b 256 then Int_Rsh a (Int_Uint64 b) else NewU256 0.

Definition U256_Srsh a b : U256 :=
  if Int_GtUint64 b 256 then
    if Int_IsZero a || (Int_Sign a >=? 0) then NewU256 0 else MaxU256
  else Int_SRsh a (Int_Uint64 b).

(** ** Byte strings and addresses *)

Definition Bytes_Length (b : Bytes) : Z := zlen b.

(** [[]byte(b.data)[start:end]]. *)
Definition Bytes_Get (b : Bytes) (start end_ : Z) : option (list byte) :=
  if (start <=? end_) && (end_ <=? zlen b) then Some (slice b start end_) else None.

Definition NewAddress (in_ : U256) : Address := U256_Bytes20be in_.

Definition NewAddressFromInt (in_ : Z) : Address := NewAddress (NewU256 in_).

Definition AddressToU256 (a : Address) : option U256 := NewU256FromBytes (arr_bytes a).

End U256.

(** ** Delegation designators (EIP-7702) *)

Definition ParseDelegationDesignator (code : Bytes) : Address * bool :=
  if negb (zlen code =? 23) then (zeroAddress, false)
  else if bool_decide (take 3 code = [xef; x01; x00]) then
    (to_array 20 (slice code 3 23), true)
  else (zeroAddress, false).

Definition NewDelegationDesignator (address : Address) : Bytes :=
  [xef; x01; x00] ++ arr_bytes address.

(** ** Block hashes *)

(** A pointer to an array of 256 hashes; [nil] stands for zero hashes. *)
Record ImmutableHashArray := mkHashArray { ha_data : option (list Hash) }.

#[global] Instance ImmutableHashArray_eqdec : EqDecision ImmutableHashArray.
Proof. solve_decision. Defined.

Definition zeroHashes : list Hash := replicate 256 zeroWord.

Definition NewImmutableHashArray (hashes : list Hash) : ImmutableHashArray :=
  mkHashArray (Some (go_copy zeroHashes hashes)).

(** Equal pointers point to equal arrays. *)
Definition HashArray_Equal (b other : ImmutableHashArray) : bool :=
  match ha_data b, ha_data other with
  | None, None => true
  | None, Some o => bool_decide (o = zeroHashes)
  | Some d, None => bool_decide (d = zeroHashes)
  | Some d, Some o => bool_decide (d = o)
  end.

Definition HashArray_Get (b : ImmutableHashArray) (index : Z) : option Hash :=
  match ha_data b with
  | None => if index <? 256 then Some zeroWord else None
  | Some d => if index >=? 256 then None else d !! Z.to_nat index
  end.

(** ** Revisions *)

Definition NewestSupportedRevision : Revision := R15_Osaka.
Definition NewestFullySupportedRevision : Revision := R15_Osaka.
Definition R99_UnknownNextRevision : Revision := 99.
Definition MinRevision : Revision := R07_Istanbul.

Definition GetForkBlock (revision : Revision) : Z :=
  if revision =? R07_Istanbul then 0
  else if revision =? R09_Berlin then 1000
  else if revision =? R10_London then 2000
  else if revision =? R11_Paris then 3000
  else if revision =? R12_Shanghai then 4000
  else if revision =? R13_Cancun then 5000
  else if revision =? R14_Prague then 6000
  else if revision =? R15_Osaka then 7000
  else 8000.

Definition GetForkTime (revision : Revision) : Z :=
  if revision =? R07_Istanbul then 0
  else if revision =? R09_Berlin then 1000
  else if revision =? R10_London then 2000
  else if revision =? R11_Paris then 3000
  else if revision =? R12_Shanghai then 4000
  else if revision =? R13_Cancun then 5000
  else if revision =? R14_Prague then 6000
  else if revision =? R15_Osaka then 7000
  else 8000.

(** [for rev := MinRevision; rev <= NewestSupportedRevision+1; rev++]. *)
Definition GetRevisionForBlock (block : Z) : Revision :=
  let fix loop (revs : list Revision) :=
    match revs with
    | [] => R99_UnknownNextRevision
    | rev :: revs => if block <? GetForkBlock rev then rev - 1 else loop revs
    end in
  loop (seqZ MinRevision (NewestSupportedRevision + 2)).

Definition GetBlockRangeLengthFor (revision : Revision) : Z :=
  let revisionNumber := GetForkBlock revision in
  if revision <=? NewestSupportedRevision
  then GetForkBlock (revision + 1) -u64 revisionNumber
  else MaxUint64.

Definition AllSupportedRevisions : list Revision :=
  seqZ R07_Istanbul (NewestFullySupportedRevision + 1).

(** ** Facts *)

#[global] Instance u256_countable : Countable u256.
Proof.
  refine (inj_countable' uval of_Z of_Z_uval).
Defined.

Lemma NewU256_uval x : isU64 x -> uval (NewU256 x) = x.
Proof.
  intros H. unfold NewU256. rewrite uval_of_Z, u64_id by done.
  apply Z.mod_small. unfold isU64, M256 in *. lia.
Qed.

(** Up to four arguments, most significant first. *)
Lemma NewU256s_one x : NewU256s [x] = Some (NewU256 x).
Proof.
  unfold NewU256s, NewU256, of_limbs. cbn [length Nat.ltb Nat.leb Nat.sub NewU256_loop].
  do 2 f_equal. cbn [insert list_insert fold_right]. change (u64 0) with 0. lia.
Qed.

Lemma NewU256_NewInt `{Uint256Laws} x : isU64 x -> NewU256 x = NewInt x.
Proof. intros. apply u256_eq. by rewrite NewU256_uval, NewInt_uval. Qed.

Lemma ParseDelegationDesignator_New a :
  ParseDelegationDesignator (NewDelegationDesignator a) = (a, true).
Proof.
  unfold ParseDelegationDesignator, NewDelegationDesignator.
  assert (zlen ([xef; x01; x00] ++ arr_bytes a) = 23) as -> by (by rewrite zlen_app, zlen_arr).
  cbn [Z.eqb Pos.eqb negb]. rewrite bool_decide_eq_true_2 by done. f_equal.
  rewrite <-(app_nil_r (arr_bytes a)), (slice_app_at [xef; x01; x00] (arr_bytes a) []).
  - apply to_array_arr.
  - done.
  - by rewrite zlen_arr.
Qed.
