(* ===== verification/CtState.v ===== *)
(** * The states of the conformance tests

    [go/ct/st]: code, stack, memory, storage, accounts, logs, calls and block
    parameters, the state of an execution made of them, and the equality the
    tests decide by. The module carries the name of the Go package.

    Objects behind pointers are values: an operation returns the new object.
    A nil map and an empty map are both the empty map. A function that can
    panic returns an [option]. *)
From Stdlib Require Import ZArith Lia Strings.Byte.
From stdpp Require Import base list numbers gmap.
From S2P Require Import Prelude Uint256 Types OpCodes CtCommon.
Set Default Goal Selector "!".
Local Open Scope Z_scope.
Local Open Scope go_scope.

Module st.

(** ** Code *)

Definition MaxCodeSize : Z := 2 ^ 14 + 2 ^ 13.

(** The cached hash and its mutex are left out: [Hash] is a function of the
    code. *)
Record Code := mkCode { code : list byte; isCode : list bool }.

Inductive ConstErr := ErrInvalidPosition | ErrStackOutOfBoundsAccess.

(** The loop of [NewCode] from position [i] on, [isCode] built so far. Every
    iteration advances, so [length code] iterations suffice. *)
Fixpoint NewCode_loop (fuel : nat) (code : list byte) (i : Z) (isCode : list bool) : list bool :=
  match fuel with
  | O => isCode
  | S fuel =>
      match code !! Z.to_nat i with
      | None => isCode
      | Some op =>
          let isCode := isCode ++ [true] in
          if op_in PUSH1 PUSH32 op then
            let width := byte_val op - byte_val PUSH1 + 1 in
            NewCode_loop fuel code (i + width + 1) (isCode ++ replicate (Z.to_nat width) false)
          else NewCode_loop fuel code (i + 1) isCode
      end
  end.

Definition NewCode (code : list byte) : Code :=
  mkCode code (NewCode_loop (length code) code 0 []).

Definition Code_Length (c : Code) : Z := zlen (code c).

Definition Code_IsCode (c : Code) (pos : Z) : bool :=
  if (pos <? 0) || (pos >=? zlen (isCode c)) then true
  else default false (isCode c !! Z.to_nat pos).

Definition Code_IsData (c : Code) (pos : Z) : bool := negb (Code_IsCode c pos).

(** The op code and the error; an index out of range panics. *)
Definition Code_GetOperation (c : Code) (pos : Z) : option (OpCode * option ConstErr) :=
  if (pos <? 0) || (pos >=? zlen (isCode c)) then Some (STOP, None)
  else if negb (Code_IsCode c pos) then Some (INVALID, Some ErrInvalidPosition)
  else match code c !! Z.to_nat pos with Some op => Some (op, None) | None => None end.

Definition Code_GetData (c : Code) (pos : Z) : option (byte * option ConstErr) :=
  if negb (Code_IsData c pos) then Some (x00, Some ErrInvalidPosition)
  else if pos >=? zlen (code c) then Some (x00, None)
  else match code c !! Z.to_nat pos with Some b => Some (b, None) | None => None end.

(** [c.code[start:end]] copied to [dst]. *)
Definition Code_CopyCodeSlice (c : Code) (start end_ : Z) (dst : list byte) : option (list byte) :=
  if (0 <=? start) && (start <=? end_) && (end_ <=? zlen (code c))
  then Some (go_copy dst (slice (code c) start end_)) else None.

Definition Code_Copy (c : Code) : list byte := code c.

(** ** Stack *)

Definition MaxStackSize : Z := 1024.

(** The slice, top last, and the words of its array beyond the slice. *)
Record Stack := mkStack { stack : list U256; spare : list U256 }.

Definition Stack_Size (s : Stack) : Z := zlen (stack s).

(** [s.stack[:size]]. *)
Definition Stack_reslice (s : Stack) (size : Z) : option Stack :=
  let all := stack s ++ spare s in
  if (0 <=? size) && (size <=? zlen all)
  then Some (mkStack (take (Z.to_nat size) all) (drop (Z.to_nat size) all)) else None.

(** [pooled] is the stack the pool returns. *)
Definition NewStackWithSize (pooled : Stack) (size : Z) : option Stack :=
  if MaxStackSize <? size then None else Stack_reslice pooled size.

Definition NewStack (pooled : Stack) (values : list U256) : option Stack :=
  s ← NewStackWithSize pooled (zlen values);
  Stack_reslice (mkStack (go_copy (stack s) values) (spare s)) (Z.min (Stack_Size s) (zlen values)).

Definition Stack_Clone (pooled s : Stack) : option Stack :=
  clone ← (if zlen (stack pooled ++ spare pooled) <? Stack_Size s
           then Some (mkStack (replicate (length (stack s)) (NewU256 0)) [])
           else Stack_reslice pooled (Stack_Size s));
  Some (mkStack (go_copy (stack clone) (stack s)) (spare clone)).

Definition Stack_Resize (s : Stack) (size : Z) : option Stack :=
  if MaxStackSize <? size then None else Stack_reslice s size.

Definition Stack_Get (s : Stack) (index : Z) : option U256 :=
  let i := Stack_Size s - index - 1 in
  if 0 <=? i then stack s !! Z.to_nat i else None.

Definition Stack_Set (s : Stack) (index : Z) (value : U256) : option Stack :=
  let i := Stack_Size s - index - 1 in
  if (0 <=? i) && (i <? Stack_Size s)
  then Some (mkStack (<[Z.to_nat i := value]> (stack s)) (spare s)) else None.

(** [append] writes to the next word of the array; a full array is copied to
    a larger one, whose further words are not counted here. *)
Definition Stack_Push (s : Stack) (value : U256) : Stack :=
  mkStack (stack s ++ [value]) (tail (spare s)).

Definition Stack_Pop (s : Stack) : option (U256 * Stack) :=
  value ← Stack_Get s 0;
  s ← Stack_reslice s (Stack_Size s - 1);
  Some (value, s).

Definition Stack_Eq (s other : Stack) : bool := bool_decide (stack s = stack other).

(** ** Memory *)

Definition Memory := list byte.

Definition Memory_Size (m : Memory) : Z := zlen m.

Definition Memory_Set (_ : Memory) (data : list byte) : Memory := data.

Definition Memory_Append (m : Memory) (data : list byte) : Memory := m ++ data.

Definition Memory_Grow (m : Memory) (offset size : Z) : Memory :=
  if size =? 0 then m
  else
    let newSize := offset +u64 size in
    if newSize >? u64 (Memory_Size m) then
      let newSize := SizeInWords newSize *u64 32 in
      m ++ zeros (newSize -u64 u64 (Memory_Size m))
    else m.

(** [m.mem[offset : offset+size]] of the grown memory; the memory grows. *)
Definition Memory_Read (m : Memory) (offset size : Z) : option (list byte * Memory) :=
  if size =? 0 then Some ([], m)
  else
    let m := Memory_Grow m offset size in
    let end_ := offset +u64 size in
    if (offset <=? end_) && (end_ <=? zlen m) then Some (slice m offset end_, m) else None.

(** [copy(m.mem[offset:], data)]. *)
Definition Memory_Write (m : Memory) (data : list byte) (offset : Z) : option Memory :=
  if zlen data =? 0 then Some m
  else
    let m := Memory_Grow m offset (u64 (zlen data)) in
    if offset <=? zlen m then Some (copy_at m offset (zlen m) data) else None.

Definition MaxMemoryExpansionSize : Z := 0x1FFFFFFFE0.

Definition calcMemoryCost (size : Z) : Z :=
  let memorySizeWord := size / 32 in
  let memorySizeWord := if negb (size mod 32 =? 0) then memorySizeWord +u64 1 else memorySizeWord in
  i64 ((memorySizeWord *u64 memorySizeWord) / 512 +u64 (3 *u64 memorySizeWord)).

Definition Memory_ExpansionCosts `{Uint256} (m : Memory) (offset_u256 size_u256 : U256) : Z * Z * Z :=
  if negb (U256_IsUint64 size_u256) then (MaxInt64, 0, 0)
  else if negb (U256_IsUint64 offset_u256) then
    if U256_IsZero size_u256 then (0, 0, 0) else (MaxInt64, 0, 0)
  else
    let offset := U256_Uint64 offset_u256 in
    let size := U256_Uint64 size_u256 in
    if size =? 0 then (0, offset, size)
    else if (offset >? MaxUint64 -u64 size) || (size >? MaxUint64 -u64 offset)
    then (MaxInt64, offset, size)
    else
      let newSize := offset +u64 size in
      if newSize <=? u64 (Memory_Size m) then (0, offset, size)
      else if newSize >? MaxMemoryExpansionSize then (MaxInt64, offset, size)
      else (calcMemoryCost newSize -i64 calcMemoryCost (u64 (Memory_Size m)), offset, size).

(** The hash is that of [golang.org/x/crypto/sha3], a parameter. *)
Definition Memory_Hash (Keccak256 : list byte -> Hash) (m : Memory) (offset size : Z)
    : option (Hash * Memory) :=
  let m := Memory_Grow m offset size in
  if size >? 0 then
    let end_ := offset +u64 size in
    if (offset <=? end_) && (end_ <=? zlen m) then Some (Keccak256 (slice m offset end_), m) else None
  else Some (Keccak256 [], m).

Definition Memory_Eq (m other : Memory) : bool := bool_decide (m = other).

(** ** Storage *)

Record Storage := mkStorage {
  current : gmap U256 U256;
  original : gmap U256 U256;
  warm : gmap U256 bool
}.

(** A missing entry of a Go map reads as the zero value. *)
Definition map_get `{Countable K} (m : gmap K U256) (k : K) : U256 := default (NewU256 0) (m !! k).

Definition Storage_SetCurrent (s : Storage) (key value : U256) : Storage :=
  mkStorage (<[key := value]> (current s)) (original s) (warm s).

Definition Storage_GetCurrent (s : Storage) (key : U256) : U256 := map_get (current s) key.

Definition Storage_RemoveCurrent (s : Storage) (key : U256) : Storage :=
  mkStorage (delete key (current s)) (original s) (warm s).

Definition Storage_SetOriginal (s : Storage) (key value : U256) : Storage :=
  mkStorage (current s) (<[key := value]> (original s)) (warm s).

Definition Storage_GetOriginal (s : Storage) (key : U256) : U256 := map_get (original s) key.

Definition Storage_RemoveOriginal (s : Storage) (key : U256) : Storage :=
  mkStorage (current s) (delete key (original s)) (warm s).

Definition Storage_IsWarm (s : Storage) (key : U256) : bool := default false (warm s !! key).

Definition Storage_MarkWarm (s : Storage) (key : U256) : Storage :=
  mkStorage (current s) (original s) (<[key := true]> (warm s)).

Definition Storage_MarkCold (s : Storage) (key : U256) : Storage :=
  mkStorage (current s) (original s) (delete key (warm s)).

(** The loops over the entries of [a], then of [b]; both end with [false] at
    the first entry that differs. *)
Definition mapEqualIgnoringZeroValues `{Uint256, Countable K} (a b : gmap K U256) : bool :=
  forallb (fun '(key, valueA) =>
    let valueB := map_get b key in
    let contained := bool_decide (is_Some (b !! key)) in
    if negb contained && negb (U256_IsZero valueA) then false
    else bool_decide (valueA = valueB)) (map_to_list a)
  && forallb (fun '(key, valueB) =>
    let contained := bool_decide (is_Some (a !! key)) in
    negb (negb contained && negb (U256_IsZero valueB))) (map_to_list b).

Definition Storage_Eq `{Uint256} (s other : Storage) : bool :=
  mapEqualIgnoringZeroValues (current s) (current other)
  && bool_decide (original s = original other)
  && bool_decide (warm s = warm other).

(** ** Transient storage *)

Record TransientStorage := mkTransientStorage { ts_storage : gmap U256 U256 }.

Definition TransientStorage_Set `{Uint256} (t : TransientStorage) (key value : U256)
    : TransientStorage :=
  if U256_IsZero value then mkTransientStorage (delete key (ts_storage t))
  else mkTransientStorage (<[key := value]> (ts_storage t)).

Definition TransientStorage_Get (t : TransientStorage) (key : U256) : U256 := map_get (ts_storage t) key.

Definition TransientStorage_IsZero `{Uint256} (t : TransientStorage) (key : U256) : bool :=
  U256_IsZero (map_get (ts_storage t) key).

Definition TransientStorage_Eq `{Uint256} (t other : TransientStorage) : bool :=
  mapEqualIgnoringZeroValues (ts_storage t) (ts_storage other).

(** ** Accounts *)

Record Account := mkAccount { acc_Balance : U256; acc_Code : Bytes }.

#[global] Instance Account_eqdec : EqDecision Account.
Proof. solve_decision. Defined.

Definition zeroAccount : Account := mkAccount (NewU256 0) [].

Record Accounts := mkAccounts { accounts : gmap Address Account; warmAccounts : gset Address }.

Definition NewAccounts : Accounts := mkAccounts ∅ ∅.

Definition Accounts_Exists (a : Accounts) (address : Address) : bool :=
  bool_decide (is_Some (accounts a !! address)).

Definition Accounts_GetAccount (a : Accounts) (address : Address) : Account :=
  default zeroAccount (accounts a !! address).

Definition Accounts_IsEmpty (a : Accounts) (address : Address) : bool :=
  bool_decide (Accounts_GetAccount a address = zeroAccount).

Definition Accounts_GetBalance (a : Accounts) (address : Address) : U256 :=
  acc_Balance (default zeroAccount (accounts a !! address)).

Definition Accounts_modifyAccount (a : Accounts) (address : Address) (f : Account -> Account)
    : Accounts :=
  let account := default zeroAccount (accounts a !! address) in
  mkAccounts (<[address := f account]> (accounts a)) (warmAccounts a).

Definition Accounts_SetBalance (a : Accounts) (address : Address) (val : U256) : Accounts :=
  Accounts_modifyAccount a address (fun account => mkAccount val (acc_Code account)).

Definition Accounts_GetCode (a : Accounts) (address : Address) : Bytes :=
  acc_Code (default zeroAccount (accounts a !! address)).

(** [hasher.Sum(hash[:])] returns [hash] with the digest appended; the result
    is dropped and [hash] keeps its zeros. *)
Definition Accounts_GetCodeHash (Keccak256 : list byte -> Hash) (a : Accounts) (address : Address)
    : Hash :=
  let hash := zeroWord in
  let _sum := arr_bytes hash ++ arr_bytes (Keccak256 (Accounts_GetCode a address)) in
  hash.

Definition Accounts_IsWarm (a : Accounts) (key : Address) : bool :=
  bool_decide (key ∈ warmAccounts a).

Definition Accounts_MarkWarm (a : Accounts) (address : Address) : Accounts :=
  mkAccounts (accounts a) ({[ address ]} ∪ warmAccounts a).

Definition Accounts_Eq (a b : Accounts) : bool :=
  bool_decide (accounts a = accounts b) && bool_decide (warmAccounts a = warmAccounts b).

(** ** Logs *)

Record LogEntry := mkLogEntry { le_Topics : list U256; le_Data : list byte }.

Definition Logs := list LogEntry.

Definition Logs_AddLog (l : Logs) (data : list byte) (topics : list U256) : Logs :=
  l ++ [mkLogEntry topics data].

Fixpoint Logs_Clone_loop (entries : list LogEntry) (clone : Logs) : Logs :=
  match entries with
  | [] => clone
  | e :: entries => Logs_Clone_loop entries (Logs_AddLog clone (le_Data e) (le_Topics e))
  end.

Definition Logs_Clone (l : Logs) : Logs := Logs_Clone_loop l [].

Fixpoint Logs_Eq_loop (a b : list LogEntry) : bool :=
  match a, b with
  | aEntry :: a, bEntry :: b =>
      if negb (bool_decide (le_Topics aEntry = le_Topics bEntry)) then false
      else if negb (bool_decide (le_Data aEntry = le_Data bEntry)) then false
      else Logs_Eq_loop a b
  | _, _ => true
  end.

Definition Logs_Eq (l other : Logs) : bool :=
  if negb (zlen l =? zlen other) then false else Logs_Eq_loop l other.

(** ** Contexts *)

Record CallContext := mkCallContext {
  cc_AccountAddress : Address;
  cc_CallerAddress : Address;
  cc_Value : U256
}.

#[global] Instance CallContext_eqdec : EqDecision CallContext.
Proof. solve_decision. Defined.

Record BlockContext := mkBlockContext {
  bc_BaseFee : U256;
  bc_BlobBaseFee : U256;
  bc_BlockNumber : Z;
  bc_ChainID : U256;
  bc_CoinBase : Address;
  bc_GasLimit : Z;
  bc_GasPrice : U256;
  bc_PrevRandao : U256;
  bc_TimeStamp : Z
}.

#[global] Instance BlockContext_eqdec : EqDecision BlockContext.
Proof. solve_decision. Defined.

Record TransactionContext := mkTransactionContext {
  tx_OriginAddress : Address;
  tx_BlobHashes : list Hash
}.

Definition NewTransactionContext : TransactionContext := mkTransactionContext zeroAddress [].

Definition TransactionContext_Eq (t other : TransactionContext) : bool :=
  let isEqual := true in
  let isEqual := isEqual && arr_eqb (tx_OriginAddress t) (tx_OriginAddress other) in
  isEqual && bool_decide (tx_BlobHashes t = tx_BlobHashes other).

(** ** Calls *)

Record PastCall := mkPastCall {
  pc_Kind : CallKind;
  pc_Recipient : Address;
  pc_Sender : Address;
  pc_Input : Bytes;
  pc_Value : Value;
  pc_Gas : Z;
  pc_CodeAddress : Address
}.

Record FutureCall := mkFutureCall {
  fc_Success : bool;
  fc_Output : Bytes;
  fc_GasCosts : Z;
  fc_GasRefund : Z;
  fc_CreatedAccount : Address
}.

#[global] Instance CallKind_eqdec : EqDecision CallKind.
Proof. solve_decision. Defined.

#[global] Instance PastCall_eqdec : EqDecision PastCall.
Proof. solve_decision. Defined.

#[global] Instance FutureCall_eqdec : EqDecision FutureCall.
Proof. solve_decision. Defined.

Definition zeroFutureCall : FutureCall := mkFutureCall false [] 0 0 zeroAddress.

Record CallJournal := mkCallJournal { Past : list PastCall; Future : list FutureCall }.

Definition NewCallJournal : CallJournal := mkCallJournal [] [].

Definition CallJournal_Call (j : CallJournal) (kind : CallKind) (parameter : CallParameters)
    : CallJournal * CallResult :=
  let past := Past j ++ [mkPastCall kind (cp_Recipient parameter) (cp_Sender parameter)
    (cp_Input parameter) (cp_Value parameter) (cp_Gas parameter) (cp_CodeAddress parameter)] in
  let '(result, future) := match Future j with
                           | r :: future => (r, future)
                           | [] => (zeroFutureCall, [])
                           end in
  let gasLeft := cp_Gas parameter in
  let gasLeft := if gasLeft <? fc_GasCosts result then 0 else gasLeft -i64 fc_GasCosts result in
  (mkCallJournal past future,
   mkCallResult (fc_Output result) gasLeft (fc_GasRefund result) (fc_CreatedAccount result)
     (fc_Success result)).

(** [slices.EqualFunc] with [Equal] of the entries, which compares the
    structs. *)
Definition CallJournal_Equal (j other : CallJournal) : bool :=
  bool_decide (Past j = Past other) && bool_decide (Future j = Future other).

(** ** States *)

Definition MaxGasUsedByCt : Z := 500000000000.
Definition MaxDataSize : Z := 1024.

Inductive StatusCode := Running | Stopped | Reverted | Failed.

#[global] Instance StatusCode_eqdec : EqDecision StatusCode.
Proof. solve_decision. Defined.

Record SelfDestructEntry := NewSelfDestructEntry { sd_account : Address; sd_beneficiary : Address }.

#[global] Instance SelfDestructEntry_eqdec : EqDecision SelfDestructEntry.
Proof. solve_decision. Defined.

Record State := mkState {
  s_Status : StatusCode;
  s_Revision : Z;
  s_ReadOnly : bool;
  s_Pc : Z;
  s_Gas : Z;
  s_GasRefund : Z;
  s_Code : Code;
  s_Stack : Stack;
  s_Memory : Memory;
  s_Storage : Storage;
  s_TransientStorage : TransientStorage;
  s_Accounts : Accounts;
  s_Logs : Logs;
  s_CallContext : CallContext;
  s_CallJournal : CallJournal;
  s_BlockContext : BlockContext;
  s_CallData : Bytes;
  s_LastCallReturnData : Bytes;
  s_ReturnData : Bytes;
  s_IsNewContract : bool;
  s_HasSelfDestructed : bool;
  s_SelfDestructedJournal : list SelfDestructEntry;
  s_RecentBlockHashes : ImmutableHashArray;
  s_TransactionContext : TransactionContext
}.

Definition zeroBlockContext : BlockContext :=
  mkBlockContext (NewU256 0) (NewU256 0) 0 (NewU256 0) zeroAddress 0 (NewU256 0) (NewU256 0) 0.

Definition zeroCallContext : CallContext := mkCallContext zeroAddress zeroAddress (NewU256 0).

Definition NewState (code : Code) : State :=
  mkState Running R07_Istanbul false 0 0 0 code (mkStack [] []) [] (mkStorage ∅ ∅ ∅)
    (mkTransientStorage ∅) NewAccounts [] zeroCallContext NewCallJournal zeroBlockContext [] [] []
    false false [] (mkHashArray None) NewTransactionContext.

(** [pooled] is the stack the pool returns. *)
Definition State_Clone (pooled : Stack) (s : State) : option State :=
  stack ← Stack_Clone pooled (s_Stack s);
  Some (mkState (s_Status s) (s_Revision s) (s_ReadOnly s) (s_Pc s) (s_Gas s) (s_GasRefund s)
    (s_Code s) stack (s_Memory s) (s_Storage s) (s_TransientStorage s) (s_Accounts s)
    (Logs_Clone (s_Logs s)) (s_CallContext s) (s_CallJournal s) (s_BlockContext s) (s_CallData s)
    (s_LastCallReturnData s) (s_ReturnData s) (s_IsNewContract s) (s_HasSelfDestructed s)
    (s_SelfDestructedJournal s) (s_RecentBlockHashes s) (s_TransactionContext s)).

(** Assignments to the fields of a state. *)
Definition set_Status (v : StatusCode) (s : State) : State :=
  mkState v (s_Revision s) (s_ReadOnly s) (s_Pc s) (s_Gas s) (s_GasRefund s) (s_Code s)
    (s_Stack s) (s_Memory s) (s_Storage s) (s_TransientStorage s) (s_Accounts s) (s_Logs s)
    (s_CallContext s) (s_CallJournal s) (s_BlockContext s) (s_CallData s)
    (s_LastCallReturnData s) (s_ReturnData s) (s_IsNewContract s) (s_HasSelfDestructed s)
    (s_SelfDestructedJournal s) (s_RecentBlockHashes s) (s_TransactionContext s).

Definition set_Pc (v : Z) (s : State) : State :=
  mkState (s_Status s) (s_Revision s) (s_ReadOnly s) v (s_Gas s) (s_GasRefund s) (s_Code s)
    (s_Stack s) (s_Memory s) (s_Storage s) (s_TransientStorage s) (s_Accounts s) (s_Logs s)
    (s_CallContext s) (s_CallJournal s) (s_BlockContext s) (s_CallData s)
    (s_LastCallReturnData s) (s_ReturnData s) (s_IsNewContract s) (s_HasSelfDestructed s)
    (s_SelfDestructedJournal s) (s_RecentBlockHashes s) (s_TransactionContext s).

Definition set_Gas (v : Z) (s : State) : State :=
  mkState (s_Status s) (s_Revision s) (s_ReadOnly s) (s_Pc s) v (s_GasRefund s) (s_Code s)
    (s_Stack s) (s_Memory s) (s_Storage s) (s_TransientStorage s) (s_Accounts s) (s_Logs s)
    (s_CallContext s) (s_CallJournal s) (s_BlockContext s) (s_CallData s)
    (s_LastCallReturnData s) (s_ReturnData s) (s_IsNewContract s) (s_HasSelfDestructed s)
    (s_SelfDestructedJournal s) (s_RecentBlockHashes s) (s_TransactionContext s).

Definition set_GasRefund (v : Z) (s : State) : State :=
  mkState (s_Status s) (s_Revision s) (s_ReadOnly s) (s_Pc s) (s_Gas s) v (s_Code s) (s_Stack s)
    (s_Memory s) (s_Storage s) (s_TransientStorage s) (s_Accounts s) (s_Logs s)
    (s_CallContext s) (s_CallJournal s) (s_BlockContext s) (s_CallData s)
    (s_LastCallReturnData s) (s_ReturnData s) (s_IsNewContract s) (s_HasSelfDestructed s)
    (s_SelfDestructedJournal s) (s_RecentBlockHashes s) (s_TransactionContext s).

Definition set_Stack (v : Stack) (s : State) : State :=
  mkState (s_Status s) (s_Revision s) (s_ReadOnly s) (s_Pc s) (s_Gas s) (s_GasRefund s) (s_Code s)
    v (s_Memory s) (s_Storage s) (s_TransientStorage s) (s_Accounts s) (s_Logs s)
    (s_CallContext s) (s_CallJournal s) (s_BlockContext s) (s_CallData s)
    (s_LastCallReturnData s) (s_ReturnData s) (s_IsNewContract s) (s_HasSelfDestructed s)
    (s_SelfDestructedJournal s) (s_RecentBlockHashes s) (s_TransactionContext s).

Definition set_Memory (v : Memory) (s : State) : State :=
  mkState (s_Status s) (s_Revision s) (s_ReadOnly s) (s_Pc s) (s_Gas s) (s_GasRefund s) (s_Code s)
    (s_Stack s) v (s_Storage s) (s_TransientStorage s) (s_Accounts s) (s_Logs s)
    (s_CallContext s) (s_CallJournal s) (s_BlockContext s) (s_CallData s)
    (s_LastCallReturnData s) (s_ReturnData s) (s_IsNewContract s) (s_HasSelfDestructed s)
    (s_SelfDestructedJournal s) (s_RecentBlockHashes s) (s_TransactionContext s).

Definition set_Storage (v : Storage) (s : State) : State :=
  mkState (s_Status s) (s_Revision s) (s_ReadOnly s) (s_Pc s) (s_Gas s) (s_GasRefund s) (s_Code s)
    (s_Stack s) (s_Memory s) v (s_TransientStorage s) (s_Accounts s) (s_Logs s)
    (s_CallContext s) (s_CallJournal s) (s_BlockContext s) (s_CallData s)
    (s_LastCallReturnData s) (s_ReturnData s) (s_IsNewContract s) (s_HasSelfDestructed s)
    (s_SelfDestructedJournal s) (s_RecentBlockHashes s) (s_TransactionContext s).

Definition set_TransientStorage (v : TransientStorage) (s : State) : State :=
  mkState (s_Status s) (s_Revision s) (s_ReadOnly s) (s_Pc s) (s_Gas s) (s_GasRefund s) (s_Code s)
    (s_Stack s) (s_Memory s) (s_Storage s) v (s_Accounts s) (s_Logs s) (s_CallContext s)
    (s_CallJournal s) (s_BlockContext s) (s_CallData s) (s_LastCallReturnData s)
    (s_ReturnData s) (s_IsNewContract s) (s_HasSelfDestructed s) (s_SelfDestructedJournal s)
    (s_RecentBlockHashes s) (s_TransactionContext s).

Definition set_Accounts (v : Accounts) (s : State) : State :=
  mkState (s_Status s) (s_Revision s) (s_ReadOnly s) (s_Pc s) (s_Gas s) (s_GasRefund s) (s_Code s)
    (s_Stack s) (s_Memory s) (s_Storage s) (s_TransientStorage s) v (s_Logs s)
    (s_CallContext s) (s_CallJournal s) (s_BlockContext s) (s_CallData s)
    (s_LastCallReturnData s) (s_ReturnData s) (s_IsNewContract s) (s_HasSelfDestructed s)
    (s_SelfDestructedJournal s) (s_RecentBlockHashes s) (s_TransactionContext s).

Definition set_Logs (v : Logs) (s : State) : State :=
  mkState (s_Status s) (s_Revision s) (s_ReadOnly s) (s_Pc s) (s_Gas s) (s_GasRefund s) (s_Code s)
    (s_Stack s) (s_Memory s) (s_Storage s) (s_TransientStorage s) (s_Accounts s) v
    (s_CallContext s) (s_CallJournal s) (s_BlockContext s) (s_CallData s)
    (s_LastCallReturnData s) (s_ReturnData s) (s_IsNewContract s) (s_HasSelfDestructed s)
    (s_SelfDestructedJournal s) (s_RecentBlockHashes s) (s_TransactionContext s).

Definition set_CallJournal (v : CallJournal) (s : State) : State :=
  mkState (s_Status s) (s_Revision s) (s_ReadOnly s) (s_Pc s) (s_Gas s) (s_GasRefund s) (s_Code s)
    (s_Stack s) (s_Memory s) (s_Storage s) (s_TransientStorage s) (s_Accounts s) (s_Logs s)
    (s_CallContext s) v (s_BlockContext s) (s_CallData s) (s_LastCallReturnData s)
    (s_ReturnData s) (s_IsNewContract s) (s_HasSelfDestructed s) (s_SelfDestructedJournal s)
    (s_RecentBlockHashes s) (s_TransactionContext s).

Definition set_LastCallReturnData (v : Bytes) (s : State) : State :=
  mkState (s_Status s) (s_Revision s) (s_ReadOnly s) (s_Pc s) (s_Gas s) (s_GasRefund s) (s_Code s)
    (s_Stack s) (s_Memory s) (s_Storage s) (s_TransientStorage s) (s_Accounts s) (s_Logs s)
    (s_CallContext s) (s_CallJournal s) (s_BlockContext s) (s_CallData s) v (s_ReturnData s)
    (s_IsNewContract s) (s_HasSelfDestructed s) (s_SelfDestructedJournal s)
    (s_RecentBlockHashes s) (s_TransactionContext s).

Definition set_ReturnData (v : Bytes) (s : State) : State :=
  mkState (s_Status s) (s_Revision s) (s_ReadOnly s) (s_Pc s) (s_Gas s) (s_GasRefund s) (s_Code s)
    (s_Stack s) (s_Memory s) (s_Storage s) (s_TransientStorage s) (s_Accounts s) (s_Logs s)
    (s_CallContext s) (s_CallJournal s) (s_BlockContext s) (s_CallData s)
    (s_LastCallReturnData s) v (s_IsNewContract s) (s_HasSelfDestructed s)
    (s_SelfDestructedJournal s) (s_RecentBlockHashes s) (s_TransactionContext s).

Definition set_HasSelfDestructed (v : bool) (s : State) : State :=
  mkState (s_Status s) (s_Revision s) (s_ReadOnly s) (s_Pc s) (s_Gas s) (s_GasRefund s) (s_Code s)
    (s_Stack s) (s_Memory s) (s_Storage s) (s_TransientStorage s) (s_Accounts s) (s_Logs s)
    (s_CallContext s) (s_CallJournal s) (s_BlockContext s) (s_CallData s)
    (s_LastCallReturnData s) (s_ReturnData s) (s_IsNewContract s) v
    (s_SelfDestructedJournal s) (s_RecentBlockHashes s) (s_TransactionContext s).

Definition set_SelfDestructedJournal (v : list SelfDestructEntry) (s : State) : State :=
  mkState (s_Status s) (s_Revision s) (s_ReadOnly s) (s_Pc s) (s_Gas s) (s_GasRefund s) (s_Code s)
    (s_Stack s) (s_Memory s) (s_Storage s) (s_TransientStorage s) (s_Accounts s) (s_Logs s)
    (s_CallContext s) (s_CallJournal s) (s_BlockContext s) (s_CallData s)
    (s_LastCallReturnData s) (s_ReturnData s) (s_IsNewContract s) (s_HasSelfDestructed s) v
    (s_RecentBlockHashes s) (s_TransactionContext s).

(** ** Equality *)

Section Eq.
Context {U : Uint256} (Keccak256 : list byte -> Hash).

Definition Code_Hash (c : Code) : Hash := Keccak256 (code c).

Definition Code_Eq (c other : Code) : bool :=
  arr_eqb (Code_Hash c) (Code_Hash other) && bool_decide (code c = code other).

(** The components that matter in every state that has not failed. *)
Definition State_equivalent (s other : State) : bool :=
  Code_Eq (s_Code s) (s_Code other)
  && (s_Revision s =? s_Revision other)
  && Bool.eqb (s_ReadOnly s) (s_ReadOnly other)
  && (s_Gas s =? s_Gas other)
  && (s_GasRefund s =? s_GasRefund other)
  && bool_decide (s_CallContext s = s_CallContext other)
  && CallJournal_Equal (s_CallJournal s) (s_CallJournal other)
  && bool_decide (s_BlockContext s = s_BlockContext other)
  && bool_decide (s_CallData s = s_CallData other)
  && Storage_Eq (s_Storage s) (s_Storage other)
  && TransientStorage_Eq (s_TransientStorage s) (s_TransientStorage other)
  && Accounts_Eq (s_Accounts s) (s_Accounts other)
  && Logs_Eq (s_Logs s) (s_Logs other)
  && Bool.eqb (s_IsNewContract s) (s_IsNewContract other)
  && Bool.eqb (s_HasSelfDestructed s) (s_HasSelfDestructed other)
  && bool_decide (s_SelfDestructedJournal s = s_SelfDestructedJournal other)
  && HashArray_Equal (s_RecentBlockHashes s) (s_RecentBlockHashes other)
  && TransactionContext_Eq (s_TransactionContext s) (s_TransactionContext other).

(** The shortcut for identical pointers is left out: it returns what the
    comparison returns ([State_Eq_refl]). *)
Definition State_Eq (s other : State) : bool :=
  if negb (bool_decide (s_Status s = s_Status other)) then false
  else if bool_decide (s_Status s = Failed) && bool_decide (s_Status other = Failed) then true
  else
    let equivalent := State_equivalent s other in
    if negb (bool_decide (s_Status s = Running)) then
      equivalent && bool_decide (s_ReturnData s = s_ReturnData other)
    else
      let size := Code_Length (s_Code s) mod 2 ^ 16 in
      let equivalentPc := (s_Pc s =? s_Pc other) || ((s_Pc s >=? size) && (s_Pc other >=? size)) in
      equivalent && equivalentPc
      && Stack_Eq (s_Stack s) (s_Stack other)
      && Memory_Eq (s_Memory s) (s_Memory other)
      && bool_decide (s_LastCallReturnData s = s_LastCallReturnData other).

End Eq.

End st.
