(* ===== verification/CtRules.v ===== *)
(** * The language of the specification

    [go/ct/rlz]: domains of values, expressions over states, conditions with
    their evaluation, parameters with their samples, effects and rules. An
    evaluation returns a value and an error, as in Go; [None] is a panic. *)
From Stdlib Require Import ZArith Lia Strings.Byte.
From stdpp Require Import base list numbers gmap.
From S2P Require Import Prelude Uint256 Types OpCodes CtCommon CtState.
Set Default Goal Selector "!".
Local Open Scope Z_scope.
Local Open Scope go_scope.

(** ** Parameters *)

Inductive ParameterKind :=
| NumericParameter
| JumpTargetParameter
| MemoryOffsetParameter
| DataOffsetParameter
| SizeParameter
| InitCodeSizeParameter
| TopicParameter
| AddressParameter
| GasParameter
| ValueParameter.

Abbreviation StorageAccessKeyParameter := NumericParameter.

Section Parameters.
Context {U : Uint256}.

(** [NewU256(a, b)]. *)
Definition NewU256_2 (a b : Z) : U256 := of_limbs [b; a; 0; 0].

Definition numericParameterSamples : list U256 :=
  [NewU256 0; NewU256 1; NewU256 30; NewU256 31; NewU256 32; NewU256 255; NewU256 (2 ^ 8);
   NewU256 (2 ^ 32); U256_Shl (NewU256 1) (NewU256 64); U256_Shl (NewU256 1) (NewU256 128);
   U256_Shl (NewU256 1) (NewU256 192); U256_Shr MaxU256 (NewU256 1);
   U256_Shl (NewU256 1) (NewU256 255); U256_Not (NewU256 0); NewU256_2 1 1].

Definition jumpTargetParameterSamples : list U256 :=
  [NewU256 0; NewU256 1; NewU256 (2 ^ 8); NewU256 (MaxInt32 + 1); NewU256_2 1 1].

Definition memoryOffsetParameterSamples : list U256 :=
  [NewU256 0; NewU256 31; NewU256 32; NewU256 st.MaxMemoryExpansionSize;
   NewU256 (st.MaxMemoryExpansionSize + 1); NewU256_2 1 0].

Definition dataOffsetParameterSamples : list U256 :=
  [NewU256 0; NewU256 1; NewU256 32; NewU256 MaxUint64; MaxU256].

Definition sizeParameterSamples : list U256 :=
  [NewU256 0; NewU256 31; NewU256 32; NewU256 33; NewU256_2 1 0;
   NewU256 st.MaxMemoryExpansionSize; NewU256 (st.MaxMemoryExpansionSize + 1)].

Definition initCodeSizeParameterSamples : list U256 :=
  sizeParameterSamples ++
  [NewU256 (2 * 24576 - 1); NewU256 (2 * 24576); NewU256 (2 * 24576 + 1)].

Definition topicParameterSamples : list U256 := [NewU256 101; NewU256 102].

Definition addressParameterSamples : list U256 :=
  [NewU256 0; U256_Shl (NewU256 1) (NewU256 (20 * 8 - 1));
   U256_Shl (NewU256 3) (NewU256 (20 * 8 - 1)); U256_Not (NewU256 0)].

Definition gasParameterSamples : list U256 :=
  [NewU256 0; NewU256 1; NewU256 MaxInt64; NewU256 (MaxInt64 + 1)].

Definition valueParameterSamples : list U256 := [NewU256 0; NewU256 1; MaxU256].

Definition Parameter_Samples (p : ParameterKind) : list U256 :=
  match p with
  | NumericParameter => numericParameterSamples
  | JumpTargetParameter => jumpTargetParameterSamples
  | MemoryOffsetParameter => memoryOffsetParameterSamples
  | DataOffsetParameter => dataOffsetParameterSamples
  | SizeParameter => sizeParameterSamples
  | InitCodeSizeParameter => initCodeSizeParameterSamples
  | TopicParameter => topicParameterSamples
  | AddressParameter => addressParameterSamples
  | GasParameter => gasParameterSamples
  | ValueParameter => valueParameterSamples
  end.

End Parameters.

(** ** Domains *)

(** The interface [Domain[T]]; the operations some domains do not support
    panic there. *)
Record Domain (T : Type) := mkDomain {
  Equal : T -> T -> bool;
  Less : T -> T -> option bool;
  Predecessor : T -> option T;
  Successor : T -> option T;
  SomethingNotEqual : T -> T;
  SamplesForAll : list T -> option (list T);
  Samples : T -> option (list T)
}.
Arguments mkDomain {T}.
Arguments Equal {T} _.
Arguments Less {T} _.
Arguments Predecessor {T} _.
Arguments Successor {T} _.
Arguments SomethingNotEqual {T} _.
Arguments SamplesForAll {T} _.
Arguments Samples {T} _.

(** First occurrences only; [seen] holds the keys of the map. *)
Fixpoint removeDuplicates_loop {T} `{EqDecision T} (seen slice : list T) : list T :=
  match slice with
  | [] => []
  | value :: slice =>
      if bool_decide (value ∈ seen) then removeDuplicates_loop seen slice
      else value :: removeDuplicates_loop (value :: seen) slice
  end.

Definition removeDuplicatesGeneric {T} `{EqDecision T} (slice : list T) : list T :=
  removeDuplicates_loop [] slice.

Definition boolDomain : Domain bool :=
  mkDomain (fun a b => Bool.eqb a b) (fun a b => Some (negb a && b)) (fun _ => None) (fun _ => None)
    negb (fun _ => Some [false; true]) (fun _ => Some [false; true]).

Definition readOnlyDomain : Domain bool :=
  mkDomain (Equal boolDomain) (Less boolDomain) (Predecessor boolDomain) (Successor boolDomain)
    (SomethingNotEqual boolDomain) (fun values => Some values) (fun value => Some [value]).

Definition u16 (z : Z) : Z := wrapU 16 z.

Definition uint16_samples (as_ : list Z) : list Z :=
  removeDuplicatesGeneric ([0; 2 ^ 16 - 1]
    ++ flat_map (fun a => [u16 (a - 1); a; u16 (a + 1)]) as_
    ++ map (fun i => u16 (2 ^ Z.of_nat i)) (seq 0 16)).

Definition uint16Domain : Domain Z :=
  mkDomain Z.eqb (fun a b => Some (a <? b)) (fun a => Some (u16 (a - 1))) (fun a => Some (u16 (a + 1)))
    (fun a => u16 (a + 1)) (fun as_ => Some (uint16_samples as_)) (fun a => Some (uint16_samples [a])).

Section Domains.
Context {U : Uint256}.

Definition u256_pred (a : U256) : U256 := U256_Sub a (NewU256 1).
Definition u256_succ (a : U256) : U256 := U256_Add a (NewU256 1).

Definition u256_samples (as_ : list U256) : list U256 :=
  removeDuplicatesGeneric (flat_map (fun a => [u256_pred a; a; u256_succ a]) as_
    ++ Parameter_Samples NumericParameter).

Definition u256Domain : Domain U256 :=
  mkDomain U256_Eq (fun a b => Some (U256_Lt a b)) (fun a => Some (u256_pred a))
    (fun a => Some (u256_succ a)) u256_succ
    (fun as_ => Some (u256_samples as_)) (fun a => Some (u256_samples [a])).

(** [a[0]++] on the array of an address. *)
Definition address_other (a : Address) : Address :=
  match arr_bytes a with
  | b :: l => to_array 20 (byte_of (byte_val b + 1) :: l)
  | [] => a
  end.

Definition addressDomain : Domain Address :=
  mkDomain arr_eqb (fun _ _ => None) (fun _ => None) (fun _ => None) address_other
    (fun _ => None) (fun _ => None).

Definition value_samples (as_ : list U256) : list U256 :=
  flat_map (fun a => [u256_pred a; a; u256_succ a]) as_.

Definition valueDomain : Domain U256 :=
  mkDomain (Equal u256Domain) (Less u256Domain) (Predecessor u256Domain) (Successor u256Domain)
    (SomethingNotEqual u256Domain)
    (fun as_ => Some (value_samples as_)) (fun a => Some (value_samples [a])).

Definition revision_pred (a : Revision) : Revision :=
  if a =? R07_Istanbul then R99_UnknownNextRevision
  else if a =? R99_UnknownNextRevision then NewestSupportedRevision
  else a - 1.

Definition revision_succ (a : Revision) : Revision :=
  if a =? R99_UnknownNextRevision then R07_Istanbul
  else if a =? NewestSupportedRevision then R99_UnknownNextRevision
  else a + 1.

Definition revision_samples : list Revision :=
  R99_UnknownNextRevision :: seqZ R07_Istanbul (NewestSupportedRevision + 1).

Definition revisionDomain : Domain Z :=
  mkDomain Z.eqb (fun a b => Some (a <? b)) (fun a => Some (revision_pred a))
    (fun a => Some (revision_succ a)) revision_succ
    (fun _ => Some revision_samples) (fun _ => Some revision_samples).

(** The numbers of the constants. *)
Definition status_num (a : st.StatusCode) : Z :=
  match a with st.Running => 0 | st.Stopped => 1 | st.Reverted => 2 | st.Failed => 3 end.

Definition statusCodeDomain : Domain st.StatusCode :=
  mkDomain (fun a b => bool_decide (a = b)) (fun a b => Some (status_num a <? status_num b))
    (fun _ => None) (fun _ => None)
    (fun a => if bool_decide (a = st.Running) then st.Stopped else st.Running)
    (fun a => Some a) (fun a => Some [a]).

Definition pc_samples (as_ : list U256) : list U256 :=
  let pcs := flat_map (fun a =>
    if U256_IsUint64 a && (U256_Uint64 a <=? 2 ^ 16 - 1) then [u16 (U256_Uint64 a)] else []) as_ in
  map NewU256 (uint16_samples pcs).

Definition pcDomain : Domain U256 :=
  mkDomain U256_Eq (fun a b => Some (U256_Lt a b)) (fun a => Some (u256_pred a))
    (fun a => Some (u256_succ a)) u256_succ
    (fun as_ => Some (pc_samples as_)) (fun a => Some (pc_samples [a])).

(** The next op code, modulo 256. *)
Definition op_succ (a : OpCode) : OpCode := byte_of (byte_val a + 1).

Definition opCodeDomain : Domain OpCode :=
  mkDomain (fun a b => bool_decide (a = b)) (fun a b => Some (byte_val a <? byte_val b))
    (fun _ => None) (fun _ => None) op_succ
    (fun _ => Some allOpCodes) (fun a => Some [a; op_succ a]).

Definition stackSize_samples (as_ : list Z) : list Z :=
  removeDuplicatesGeneric ([0; st.MaxStackSize]
    ++ flat_map (fun a =>
         if (0 <=? a) && (a <=? st.MaxStackSize) then
           (if negb (a =? 0) then [a - 1] else []) ++ [a]
           ++ (if negb (a =? st.MaxStackSize) then [a + 1] else [])
         else []) as_).

Definition stackSizeDomain : Domain Z :=
  mkDomain Z.eqb (fun a b => Some (a <? b)) (fun a => Some (a -i64 1)) (fun a => Some (a +i64 1))
    (fun a => Z.rem (a +i64 1) st.MaxStackSize)
    (fun as_ => Some (stackSize_samples as_)) (fun a => Some (stackSize_samples [a])).

Definition gas_samples (as_ : list Z) : list Z :=
  removeDuplicatesGeneric (map (fun a => if a >? st.MaxGasUsedByCt then st.MaxGasUsedByCt else a)
    ([0; 200; st.MaxGasUsedByCt] ++ flat_map (fun a => [a -i64 1; a; a +i64 1]) as_)).

Definition gasDomain : Domain Z :=
  mkDomain Z.eqb (fun a b => Some (a <? b)) (fun a => Some (a -i64 1)) (fun a => Some (a +i64 1))
    (fun a => a +i64 1) (fun as_ => Some (gas_samples as_)) (fun a => Some (gas_samples [a])).

Definition MinInt64 : Z := - 2 ^ 63.

Definition offset_samples (as_ : list Z) : list Z :=
  removeDuplicatesGeneric ([MinInt64; -1; 0; 1; 255; 256; 257; MaxInt64]
    ++ flat_map (fun a => [a -i64 1; a; a +i64 1]) as_).

Definition BlockNumberOffsetDomain : Domain Z :=
  mkDomain Z.eqb (fun a b => Some (a <? b)) (fun a => Some (a -i64 1)) (fun a => Some (a +i64 1))
    (fun a => a +i64 2) (fun as_ => Some (offset_samples as_)) (fun a => Some (offset_samples [a])).

End Domains.

Inductive DelegationDesignatorState :=
| NoDelegationDesignation
| WarmDelegationDesignation
| ColdDelegationDesignation.

#[global] Instance DelegationDesignatorState_eqdec : EqDecision DelegationDesignatorState.
Proof. solve_decision. Defined.

Definition delegation_num (a : DelegationDesignatorState) : Z :=
  match a with
  | NoDelegationDesignation => 0 | WarmDelegationDesignation => 1 | ColdDelegationDesignation => 2
  end.

Definition delegation_samples : list DelegationDesignatorState :=
  [NoDelegationDesignation; WarmDelegationDesignation; ColdDelegationDesignation].

Definition DelegationDesignatorDomain : Domain DelegationDesignatorState :=
  mkDomain (fun a b => bool_decide (a = b)) (fun a b => Some (delegation_num a <? delegation_num b))
    (fun _ => None) (fun _ => None)
    (fun a => match a with
              | NoDelegationDesignation => WarmDelegationDesignation
              | WarmDelegationDesignation => ColdDelegationDesignation
              | ColdDelegationDesignation => NoDelegationDesignation
              end)
    (fun _ => Some delegation_samples) (fun _ => Some delegation_samples).

(** ** Expressions *)

(** The expressions by their type; [param] carries its domain. *)
Inductive Expression : Type -> Type :=
| eStatus : Expression st.StatusCode
| ePc : Expression U256
| eGas : Expression Z
| eSelfAddress : Expression Address
| eReadOnly : Expression bool
| eBalance (account : Expression Address) : Expression U256
| eOp (position : Expression U256) : Expression OpCode
| eStackSize : Expression Z
| eParam (position : Z) (domain : Domain U256) : Expression U256
| eConstant (value : U256) : Expression U256
| eToAddress (expr : Expression U256) : Expression Address.

Section Expressions.
Context {U : Uint256}.

Definition Param (pos : Z) : Expression U256 := eParam pos u256Domain.

Definition ValueParam (pos : Z) : Expression U256 := eParam pos valueDomain.

Definition domainOf {T} (e : Expression T) : Domain T :=
  match e with
  | eStatus => statusCodeDomain
  | ePc => pcDomain
  | eGas => gasDomain
  | eSelfAddress => addressDomain
  | eReadOnly => readOnlyDomain
  | eBalance _ => u256Domain
  | eOp _ => opCodeDomain
  | eStackSize => stackSizeDomain
  | eParam _ domain => domain
  | eConstant _ => u256Domain
  | eToAddress _ => addressDomain
  end.

(** The value and the error. *)
Abbreviation evaluation T := (option (T * option st.ConstErr)).

(** [v, err := m; if err != nil { return zero, err }; return f(v)]. *)
Definition eval_bind {A B} (m : evaluation A) (zero : B) (f : A -> evaluation B) : evaluation B :=
  match m with
  | None => None
  | Some (_, Some err) => Some (zero, Some err)
  | Some (v, None) => f v
  end.

Definition MaxInt : Z := MaxInt64.

Definition status_Eval (s : st.State) : evaluation st.StatusCode := Some (st.s_Status s, None).

Definition pc_Eval (s : st.State) : evaluation U256 := Some (NewU256 (st.s_Pc s), None).

Definition gas_Eval (s : st.State) : evaluation Z := Some (st.s_Gas s, None).

Definition selfAddress_Eval (s : st.State) : evaluation Address :=
  Some (st.cc_AccountAddress (st.s_CallContext s), None).

Definition readOnly_Eval (s : st.State) : evaluation bool := Some (st.s_ReadOnly s, None).

(** The evaluation of the account comes first. *)
Definition balance_Eval (account : evaluation Address) (s : st.State) : evaluation U256 :=
  eval_bind account (NewU256 0) (fun address =>
    Some (st.Accounts_GetBalance (st.s_Accounts s) address, None)).

Definition op_Eval (position : evaluation U256) (s : st.State) : evaluation OpCode :=
  eval_bind position INVALID (fun pos =>
    if negb (U256_IsUint64 pos) || (U256_Uint64 pos >? MaxInt) then Some (STOP, None)
    else eval_bind (st.Code_GetOperation (st.s_Code s) (U256_Uint64 pos)) INVALID
           (fun op => Some (op, None))).

Definition stackSize_Eval (s : st.State) : evaluation Z := Some (st.Stack_Size (st.s_Stack s), None).

Definition param_Eval (position : Z) (s : st.State) : evaluation U256 :=
  if position >=? st.Stack_Size (st.s_Stack s)
  then Some (NewU256 0, Some st.ErrStackOutOfBoundsAccess)
  else match st.Stack_Get (st.s_Stack s) position with
       | Some v => Some (v, None)
       | None => None
       end.

Definition constant_Eval (value : U256) (_ : st.State) : evaluation U256 := Some (value, None).

Definition toAddress_Eval (expr : evaluation U256) (_ : st.State) : evaluation Address :=
  eval_bind expr zeroAddress (fun value => Some (NewAddress value, None)).

Fixpoint Eval {T} (e : Expression T) (s : st.State) : evaluation T :=
  match e in Expression T return evaluation T with
  | eStatus => status_Eval s
  | ePc => pc_Eval s
  | eGas => gas_Eval s
  | eSelfAddress => selfAddress_Eval s
  | eReadOnly => readOnly_Eval s
  | eBalance account => balance_Eval (Eval account s) s
  | eOp position => op_Eval (Eval position s) s
  | eStackSize => stackSize_Eval s
  | eParam position _ => param_Eval position s
  | eConstant value => constant_Eval value s
  | eToAddress expr => toAddress_Eval (Eval expr s) s
  end.

End Expressions.
Abbreviation evaluation T := (option (T * option st.ConstErr)).

(** ** Conditions *)

Inductive Condition :=
| cConjunction (conditions : list Condition)
| cEq {T} (lhs : Expression T) (rhs : T)
| cNe {T} (lhs : Expression T) (rhs : T)
| cLt {T} (lhs : Expression T) (rhs : T)
| cLe {T} (lhs : Expression T) (rhs : T)
| cGt {T} (lhs : Expression T) (rhs : T)
| cGe {T} (lhs : Expression T) (rhs : T)
| cRevisionBounds (min max : Revision)
| cIsCode (position : Expression U256)
| cIsData (position : Expression U256)
| cIsStorageWarm (key : Expression U256)
| cIsStorageCold (key : Expression U256)
| cStorageConfiguration (config : StorageStatus) (key newValue : Expression U256)
| cBindTransientStorageToNonZero (key : Expression U256)
| cBindTransientStorageToZero (key : Expression U256)
| cAccountIsEmpty (address : Expression U256)
| cAccountIsNotEmpty (address : Expression U256)
| cIsAddressWarm (key : Expression U256)
| cIsAddressCold (key : Expression U256)
| cIsNewContract
| cIsNotNewContract
| cHasSelfDestructed
| cHasNotSelfDestructed
| cInRange256FromCurrentBlock (blockNumber : Expression U256)
| cOutOfRange256FromCurrentBlock (blockNumber : Expression U256)
| cHasBlobHash (index : Expression U256)
| cHasNoBlobHash (index : Expression U256)
| cContainsDelegationDesignation (address : Expression U256) (state : DelegationDesignatorState).

(** Nested conjunctions are merged. *)
Definition And (conditions : list Condition) : Condition :=
  match conditions with
  | [c] => c
  | _ => cConjunction (flat_map (fun cur =>
           match cur with cConjunction cs => cs | _ => [cur] end) conditions)
  end.

(** [RevisionBounds] panics for [min > max]. *)
Definition RevisionBounds (min max : Revision) : option Condition :=
  if min >? max then None else Some (cRevisionBounds min max).

Definition IsRevision (revision : Revision) : Condition := cRevisionBounds revision revision.

Definition IsRevisionCondition (condition : Condition) : bool :=
  match condition with cRevisionBounds _ _ => true | _ => false end.

Definition AnyKnownRevision : Condition := cRevisionBounds MinRevision NewestSupportedRevision.

#[global] Instance StorageStatus_eqdec : EqDecision StorageStatus.
Proof. solve_decision. Defined.

Section Checks.
Context {U : Uint256}.

(** [go/ct/gen/storage.go]. *)
Definition CheckStorageStatusConfig (config : StorageStatus) (org cur new : U256) : bool :=
  bool_decide (config = GetStorageStatus (U256_Bytes32be org) (U256_Bytes32be cur) (U256_Bytes32be new)).

(** [res, err := m; return !res, err]. *)
Definition negated (m : evaluation bool) : evaluation bool :=
  match m with Some (res, err) => Some (negb res, err) | None => None end.

Definition eval_option {A} (o : option A) : evaluation A :=
  match o with Some a => Some (a, None) | None => None end.

(** Whether a block is one of the last 256 before the current one. *)
Definition inRange256 (current number : Z) : bool :=
  let bottom := if current >? 256 then current -u64 256 else 0 in
  (bottom <=? number) && (number <? current).

(** The checks of the conditions, one for each type. *)

Definition eq_Check {T} (lhs : Expression T) (rhs : T) (s : st.State) : evaluation bool :=
  eval_bind (Eval lhs s) false (fun v => Some (Equal (domainOf lhs) v rhs, None)).

Definition ne_Check {T} (lhs : Expression T) (rhs : T) (s : st.State) : evaluation bool :=
  eval_bind (Eval lhs s) false (fun v => Some (negb (Equal (domainOf lhs) v rhs), None)).

Definition lt_Check {T} (lhs : Expression T) (rhs : T) (s : st.State) : evaluation bool :=
  eval_bind (Eval lhs s) false (fun v => eval_option (Less (domainOf lhs) v rhs)).

Definition le_Check {T} (lhs : Expression T) (rhs : T) (s : st.State) : evaluation bool :=
  eval_bind (Eval lhs s) false (fun v =>
    match Less (domainOf lhs) v rhs with
    | Some less => Some (less || Equal (domainOf lhs) v rhs, None)
    | None => None
    end).

Definition gt_Check {T} (lhs : Expression T) (rhs : T) (s : st.State) : evaluation bool :=
  eval_bind (Eval lhs s) false (fun v =>
    match Less (domainOf lhs) v rhs with
    | Some less => Some (negb less && negb (Equal (domainOf lhs) v rhs), None)
    | None => None
    end).

Definition ge_Check {T} (lhs : Expression T) (rhs : T) (s : st.State) : evaluation bool :=
  eval_bind (Eval lhs s) false (fun v =>
    match Less (domainOf lhs) v rhs with
    | Some less => Some (negb less, None)
    | None => None
    end).

Definition revisionBounds_Check (min max : Revision) (s : st.State) : evaluation bool :=
  Some ((min <=? st.s_Revision s) && (st.s_Revision s <=? max), None).

Definition isCode_Check (position : Expression U256) (s : st.State) : evaluation bool :=
  eval_bind (Eval position s) false (fun pos =>
    if negb (U256_IsUint64 pos) || (U256_Uint64 pos >? MaxInt) then Some (true, None)
    else Some (st.Code_IsCode (st.s_Code s) (U256_Uint64 pos), None)).

Definition isData_Check (position : Expression U256) (s : st.State) : evaluation bool :=
  eval_bind (Eval position s) false (fun pos =>
    if negb (U256_IsUint64 pos) || (U256_Uint64 pos >? MaxInt) then Some (false, None)
    else Some (st.Code_IsData (st.s_Code s) (U256_Uint64 pos), None)).

Definition isStorageWarm_Check (key : Expression U256) (s : st.State) : evaluation bool :=
  eval_bind (Eval key s) false (fun key => Some (st.Storage_IsWarm (st.s_Storage s) key, None)).

Definition isStorageCold_Check (key : Expression U256) (s : st.State) : evaluation bool :=
  eval_bind (Eval key s) false (fun key =>
    Some (negb (st.Storage_IsWarm (st.s_Storage s) key), None)).

Definition storageConfiguration_Check (config : StorageStatus) (key newValue : Expression U256) (s : st.State)
    : evaluation bool :=
  eval_bind (Eval key s) false (fun key =>
    eval_bind (Eval newValue s) false (fun newValue =>
      Some (CheckStorageStatusConfig config (st.Storage_GetOriginal (st.s_Storage s) key)
              (st.Storage_GetCurrent (st.s_Storage s) key) newValue, None))).

Definition bindTransientStorageToNonZero_Check (key : Expression U256) (s : st.State) : evaluation bool :=
  eval_bind (Eval key s) false (fun key =>
    Some (negb (st.TransientStorage_IsZero (st.s_TransientStorage s) key), None)).

Definition bindTransientStorageToZero_Check (key : Expression U256) (s : st.State) : evaluation bool :=
  negated (bindTransientStorageToNonZero_Check key s).

Definition accountIsEmpty_Check (address : Expression U256) (s : st.State) : evaluation bool :=
  eval_bind (Eval address s) false (fun address =>
    Some (st.Accounts_IsEmpty (st.s_Accounts s) (NewAddress address), None)).

Definition accountIsNotEmpty_Check (address : Expression U256) (s : st.State) : evaluation bool :=
  negated (accountIsEmpty_Check address s).

Definition isAddressWarm_Check (key : Expression U256) (s : st.State) : evaluation bool :=
  eval_bind (Eval key s) false (fun key =>
    Some (st.Accounts_IsWarm (st.s_Accounts s) (NewAddress key), None)).

Definition isAddressCold_Check (key : Expression U256) (s : st.State) : evaluation bool :=
  negated (isAddressWarm_Check key s).

Definition isNewContract_Check (s : st.State) : evaluation bool := Some (st.s_IsNewContract s, None).

Definition isNotNewContract_Check (s : st.State) : evaluation bool := negated (isNewContract_Check s).

Definition hasSelfDestructed_Check (s : st.State) : evaluation bool := Some (st.s_HasSelfDestructed s, None).

Definition hasNotSelfDestructed_Check (s : st.State) : evaluation bool :=
  Some (negb (st.s_HasSelfDestructed s), None).

Definition inRange256FromCurrentBlock_Check (blockNumber : Expression U256) (s : st.State) : evaluation bool :=
  eval_bind (Eval blockNumber s) false (fun number =>
    if negb (U256_IsUint64 number) then Some (false, None)
    else Some (inRange256 (st.bc_BlockNumber (st.s_BlockContext s)) (U256_Uint64 number), None)).

Definition outOfRange256FromCurrentBlock_Check (blockNumber : Expression U256) (s : st.State)
    : evaluation bool :=
  negated (inRange256FromCurrentBlock_Check blockNumber s).

Definition hasBlobHash_Check (index : Expression U256) (s : st.State) : evaluation bool :=
  eval_bind (Eval index s) false (fun index =>
    if negb (U256_IsUint64 index) then Some (false, None)
    else Some (U256_Uint64 index <? zlen (st.tx_BlobHashes (st.s_TransactionContext s)), None)).

Definition hasNoBlobHash_Check (index : Expression U256) (s : st.State) : evaluation bool :=
  negated (hasBlobHash_Check index s).

Definition containsDelegationDesignation_Check (address : Expression U256)
    (state : DelegationDesignatorState) (s : st.State) : evaluation bool :=
  eval_bind (Eval address s) false (fun key =>
    let account := st.Accounts_GetAccount (st.s_Accounts s) (NewAddress key) in
    let '(delegateAddress, isDelegated) := ParseDelegationDesignator (st.acc_Code account) in
    Some (match state with
          | NoDelegationDesignation => negb isDelegated
          | WarmDelegationDesignation =>
              isDelegated && st.Accounts_IsWarm (st.s_Accounts s) delegateAddress
          | ColdDelegationDesignation =>
              isDelegated && negb (st.Accounts_IsWarm (st.s_Accounts s) delegateAddress)
          end, None)).

(** The loop of [conjunction.Check], with [check] for the check of a
    condition. *)
Definition conjunction_Check (check : Condition -> evaluation bool) : list Condition -> evaluation bool :=
  fix loop conditions :=
    match conditions with
    | [] => Some (true, None)
    | cur :: conditions =>
        match check cur with
        | Some (true, None) => loop conditions
        | Some (_, err) => Some (false, err)
        | None => None
        end
    end.

Fixpoint Condition_Check (c : Condition) (s : st.State) {struct c} : evaluation bool :=
  match c with
  | cConjunction conditions => conjunction_Check (fun c => Condition_Check c s) conditions
  | cEq lhs rhs => eq_Check lhs rhs s
  | cNe lhs rhs => ne_Check lhs rhs s
  | cLt lhs rhs => lt_Check lhs rhs s
  | cLe lhs rhs => le_Check lhs rhs s
  | cGt lhs rhs => gt_Check lhs rhs s
  | cGe lhs rhs => ge_Check lhs rhs s
  | cRevisionBounds min max => revisionBounds_Check min max s
  | cIsCode position => isCode_Check position s
  | cIsData position => isData_Check position s
  | cIsStorageWarm key => isStorageWarm_Check key s
  | cIsStorageCold key => isStorageCold_Check key s
  | cStorageConfiguration config key newValue => storageConfiguration_Check config key newValue s
  | cBindTransientStorageToNonZero key => bindTransientStorageToNonZero_Check key s
  | cBindTransientStorageToZero key => bindTransientStorageToZero_Check key s
  | cAccountIsEmpty address => accountIsEmpty_Check address s
  | cAccountIsNotEmpty address => accountIsNotEmpty_Check address s
  | cIsAddressWarm key => isAddressWarm_Check key s
  | cIsAddressCold key => isAddressCold_Check key s
  | cIsNewContract => isNewContract_Check s
  | cIsNotNewContract => isNotNewContract_Check s
  | cHasSelfDestructed => hasSelfDestructed_Check s
  | cHasNotSelfDestructed => hasNotSelfDestructed_Check s
  | cInRange256FromCurrentBlock blockNumber => inRange256FromCurrentBlock_Check blockNumber s
  | cOutOfRange256FromCurrentBlock blockNumber => outOfRange256FromCurrentBlock_Check blockNumber s
  | cHasBlobHash index => hasBlobHash_Check index s
  | cHasNoBlobHash index => hasNoBlobHash_Check index s
  | cContainsDelegationDesignation address state => containsDelegationDesignation_Check address state s
  end.

End Checks.

(** ** Effects and rules *)

Definition Effect := st.State -> option st.State.

Definition NoEffect : Effect := fun s => Some s.

Definition FailEffect : Effect := fun s => Some (st.set_Gas 0 (st.set_Status st.Failed s)).

(** The name of a rule is for reports and is left out. *)
Record Rule := mkRule {
  r_Condition : Condition;
  r_Parameter : list ParameterKind;
  r_Effect : Effect
}.

(** Whether a rule applies: [valid, err := Check(state); valid && err == nil]. *)
Definition applies `{Uint256} (c : Condition) (s : st.State) : bool :=
  match Condition_Check c s with Some (true, None) => true | _ => false end.

(** The elementary conditions of a condition. *)
Fixpoint getConditions (condition : Condition) : list Condition :=
  match condition with
  | cConjunction conditions => flat_map getConditions conditions
  | c => [c]
  end.
