(* ===== verification/CtEffects.v ===== *)
(** * The effects of the specification's rules

    The effect functions of [go/ct/spc/specification.go]: what an instruction
    does to a state once its static gas has been charged and the program
    counter has been advanced. An effect is a computation [E] on states; a
    panic is [None]. An effect that runs out of gas sets the status to
    [Failed] and returns. *)
From Stdlib Require Import ZArith Lia Strings.Byte.
From stdpp Require Import base list numbers gmap.
From S2P Require Import Prelude Uint256 Types OpCodes CtSlices CtCommon CtState CtRules.
Set Default Goal Selector "!".
Local Open Scope Z_scope.
Local Open Scope go_scope.

(** ** Computations on states *)

Definition E (A : Type) : Type := st.State -> option (A * st.State).

#[global] Instance E_ret : MRet E := fun A a s => Some (a, s).

#[global] Instance E_bind : MBind E := fun A B f m s =>
  match m s with Some (a, s) => f a s | None => None end.

Definition getS {A} (f : st.State -> A) : E A := fun s => Some (f s, s).

Definition setS (f : st.State -> st.State) : E unit := fun s => Some (tt, f s).

Definition liftE {A} (o : option A) : E A := fun s => match o with Some a => Some (a, s) | None => None end.

(** The effect of a computation. *)
Definition effect_of (m : E unit) : Effect := fun s => match m s with Some (_, s) => Some s | None => None end.

(** ** Access to the components *)

Definition s_pop : E U256 :=
  stack ← getS st.s_Stack;
  '(value, stack) ← liftE (st.Stack_Pop stack);
  setS (st.set_Stack stack);; mret value.

Definition s_push (value : U256) : E unit :=
  stack ← getS st.s_Stack; setS (st.set_Stack (st.Stack_Push stack value)).

Definition s_get (index : Z) : E U256 :=
  stack ← getS st.s_Stack; liftE (st.Stack_Get stack index).

Definition s_set (index : Z) (value : U256) : E unit :=
  stack ← getS st.s_Stack; stack ← liftE (st.Stack_Set stack index value); setS (st.set_Stack stack).

(** [s.Status = st.Failed]. *)
Definition s_fail : E unit := setS (st.set_Status st.Failed).

(** [s.Gas -= amount] and [s.Gas += amount]. *)
Definition s_useGas (amount : Z) : E unit := gas ← getS st.s_Gas; setS (st.set_Gas (gas -i64 amount)).

Definition s_addGas (amount : Z) : E unit := gas ← getS st.s_Gas; setS (st.set_Gas (gas +i64 amount)).

Definition s_addRefund (amount : Z) : E unit :=
  refund ← getS st.s_GasRefund; setS (st.set_GasRefund (refund +i64 amount)).

(** [if s.Gas < cost { s.Status = st.Failed; return }; s.Gas -= cost], and
    the rest of the effect. *)
Definition s_charge (cost : Z) (rest : E unit) : E unit :=
  gas ← getS st.s_Gas;
  if gas <? cost then s_fail else s_useGas cost;; rest.

Definition s_memRead (offset size : Z) : E (list byte) :=
  m ← getS st.s_Memory;
  '(data, m) ← liftE (st.Memory_Read m offset size);
  setS (st.set_Memory m);; mret data.

Definition s_memWrite (data : list byte) (offset : Z) : E unit :=
  m ← getS st.s_Memory;
  m ← liftE (st.Memory_Write m data offset);
  setS (st.set_Memory m).

Definition s_memGrow (offset size : Z) : E unit :=
  m ← getS st.s_Memory; setS (st.set_Memory (st.Memory_Grow m offset size)).

Definition s_markWarm (address : Address) : E unit :=
  accounts ← getS st.s_Accounts; setS (st.set_Accounts (st.Accounts_MarkWarm accounts address)).

(** ** Helpers *)

Definition boolToU256 (value : bool) : U256 := if value then NewU256 1 else NewU256 0.

(** [sumWithOverflow] on [int64] and on [uint64]; [wrap] is the conversion to
    the type. *)
Fixpoint sumWithOverflow_loop (wrap : Z -> Z) (res : Z) (values : list Z) : Z * bool :=
  match values with
  | [] => (res, false)
  | cur :: values =>
      let next := wrap (res + cur) in
      if next <? res then (0, true) else sumWithOverflow_loop wrap next values
  end.

Definition sumWithOverflow (values : list Z) : Z * bool := sumWithOverflow_loop i64 0 values.

Definition sumWithOverflowU (values : list Z) : Z * bool := sumWithOverflow_loop u64 0 values.

Section Effects.
Context {U : Uint256} (Keccak256 : list byte -> Hash).

Definition s_expansionCosts (offset size : U256) : E (Z * Z * Z) :=
  m ← getS st.s_Memory; mret (st.Memory_ExpansionCosts m offset size).

(** ** Arithmetic *)

Definition unaryEffect (effect : U256 -> U256) : E unit :=
  a ← s_pop; s_push (effect a).

Definition binaryEffect (effect : U256 -> U256 -> U256) (dynamicCost : U256 -> U256 -> Z) : E unit :=
  a ← s_pop; b ← s_pop;
  s_charge (dynamicCost a b) (s_push (effect a b)).

Definition trinaryEffect (effect : U256 -> U256 -> U256 -> U256) : E unit :=
  a ← s_pop; b ← s_pop; c ← s_pop; s_push (effect a b c).

(** [gasFactor * (32 - i)] for the first byte [i] that is not zero. *)
Fixpoint expCost_loop (i : Z) (expBytes : list byte) : Z :=
  match expBytes with
  | [] => 0
  | b :: expBytes =>
      if negb (byte_val b =? 0) then 50 *i64 (32 - i) else expCost_loop (i + 1) expBytes
  end.

Definition expCost (e : U256) : Z := expCost_loop 0 (arr_bytes (U256_Bytes32be e)).

(** The [i]-th byte of [x], most significant first. *)
Definition byteOf (i x : U256) : U256 :=
  if U256_Gt i (NewU256 31) then NewU256 0
  else NewU256 (byte_val (default x00 (arr_bytes (U256_Bytes32be x) !! Z.to_nat (U256_Uint64 i)))).

Definition clzEffect : E unit :=
  x ← s_pop; s_push (NewU256 (256 -u64 u64 (U256_BitLen x))).

(** ** Hash and memory *)

Definition sha3Effect : E unit :=
  offsetU256 ← s_pop; sizeU256 ← s_pop;
  '(memExpCost, offset, size) ← s_expansionCosts offsetU256 sizeU256;
  s_charge memExpCost (
    let wordCost := i64 (6 *u64 SizeInWords size) in
    s_charge wordCost (
      m ← getS st.s_Memory;
      '(hash, m) ← liftE (st.Memory_Hash Keccak256 m offset size);
      setS (st.set_Memory m);;
      value ← liftE (NewU256FromBytes (arr_bytes hash));
      s_push value)).

Definition mloadEffect : E unit :=
  offsetU256 ← s_pop;
  '(cost, offset, _) ← s_expansionCosts offsetU256 (NewU256 32);
  s_charge cost (
    data ← s_memRead offset 32;
    value ← liftE (NewU256FromBytes data);
    s_push value).

Definition mstoreEffect : E unit :=
  offsetU256 ← s_pop; value ← s_pop;
  '(cost, offset, _) ← s_expansionCosts offsetU256 (NewU256 32);
  s_charge cost (s_memWrite (arr_bytes (U256_Bytes32be value)) offset).

Definition mstore8Effect : E unit :=
  offsetU256 ← s_pop; value ← s_pop;
  '(cost, offset, _) ← s_expansionCosts offsetU256 (NewU256 1);
  s_charge cost (
    b ← liftE (arr_bytes (U256_Bytes32be value) !! 31%nat);
    s_memWrite [b] offset).

Definition mcopyEffect : E unit :=
  destOffsetU256 ← s_pop; offsetU256 ← s_pop; sizeU256 ← s_pop;
  '(srcCost, srcOffset, size) ← s_expansionCosts offsetU256 sizeU256;
  '(destCost, destOffset, _) ← s_expansionCosts destOffsetU256 sizeU256;
  let wordCountCost := i64 (3 *u64 SizeInWords size) in
  let expansionCost := Z.max srcCost destCost in
  let '(dynamicGas, overflow) := sumWithOverflow [expansionCost; wordCountCost] in
  gas ← getS st.s_Gas;
  if (gas <? dynamicGas) || overflow then s_fail
  else
    s_useGas dynamicGas;;
    value ← s_memRead srcOffset size;
    s_memWrite value destOffset.

(** [expansionCost, overflow := sumWithOverflow(cost, 3*words)] and the charge
    of the copy instructions. *)
Definition chargeCopy (cost size : Z) (rest : E unit) : E unit :=
  let '(cost, overflow) := sumWithOverflow [cost; i64 (3 *u64 SizeInWords size)] in
  gas ← getS st.s_Gas;
  if (gas <? cost) || overflow then s_fail else s_useGas cost;; rest.

Definition codeCopyEffect : E unit :=
  destOffsetU256 ← s_pop; offsetU256 ← s_pop; sizeU256 ← s_pop;
  '(cost, destOffset, size) ← s_expansionCosts destOffsetU256 sizeU256;
  chargeCopy cost size (
    code ← getS st.s_Code;
    let len := u64 (st.Code_Length code) in
    let start := if U256_Gt offsetU256 (NewU256 len) then len else U256_Uint64 offsetU256 in
    let end_ := Z.min (start +u64 size) len in
    codeCopy ← liftE (st.Code_CopyCodeSlice code (i64 start) (i64 end_) (zeros size));
    s_memWrite codeCopy destOffset).

Definition callDataLoadEffect : E unit :=
  offsetU256 ← s_pop;
  callData ← getS st.s_CallData;
  let len := u64 (Bytes_Length callData) in
  pushData ← (if U256_IsUint64 offsetU256 then
                let start := Z.min (U256_Uint64 offsetU256) len in
                let end_ := Z.min (start +u64 32) len in
                data ← liftE (Bytes_Get callData start end_);
                liftE (NewU256FromBytes (RightPadSlice x00 data 32))
              else mret (NewU256 0));
  s_push pushData.

Definition callDataCopyEffect : E unit :=
  destOffsetU256 ← s_pop; offsetU256 ← s_pop; sizeU256 ← s_pop;
  '(cost, destOffset, size) ← s_expansionCosts destOffsetU256 sizeU256;
  chargeCopy cost size (
    callData ← getS st.s_CallData;
    let len := u64 (Bytes_Length callData) in
    let start := if U256_Gt offsetU256 (NewU256 len) then len else U256_Uint64 offsetU256 in
    let end_ := Z.min (start +u64 size) len in
    data ← liftE (Bytes_Get callData start end_);
    s_memWrite (RightPadSlice x00 data (Z.to_nat size)) destOffset).

Definition extCodeCopyEffect (markWarm : bool) : E unit :=
  a ← s_pop; let address := NewAddress a in
  destOffsetU256 ← s_pop; offsetU256 ← s_pop; sizeU256 ← s_pop;
  '(cost, destOffset, size) ← s_expansionCosts destOffsetU256 sizeU256;
  chargeCopy cost size (
    accounts ← getS st.s_Accounts;
    let code := st.Accounts_GetCode accounts address in
    let codeSize := u64 (Bytes_Length code) in
    let start := if U256_Gt offsetU256 (NewU256 codeSize) then codeSize else U256_Uint64 offsetU256 in
    let end_ := Z.min (start +u64 size) codeSize in
    data ← liftE (Bytes_Get code start end_);
    s_memWrite (RightPadSlice x00 data (Z.to_nat size)) destOffset;;
    if markWarm then s_markWarm address else mret tt).

Definition returnDataCopyEffect : E unit :=
  memOffsetU256 ← s_pop; dataOffsetU256 ← s_pop; sizeU256 ← s_pop;
  returnData ← getS st.s_LastCallReturnData;
  let dataOffset := U256_Uint64 dataOffsetU256 in
  let '(readUntil, overflow) := sumWithOverflowU [dataOffset; U256_Uint64 sizeU256] in
  if negb (U256_IsUint64 dataOffsetU256) || negb (U256_IsUint64 sizeU256) || overflow
     || (readUntil >? u64 (Bytes_Length returnData))
  then s_fail
  else
    '(cost, memOffset, size) ← s_expansionCosts memOffsetU256 sizeU256;
    chargeCopy cost size (
      data ← liftE (Bytes_Get returnData dataOffset readUntil);
      s_memWrite data memOffset).

(** [RETURN] and [REVERT]. *)
Definition endEffect (status : st.StatusCode) : E unit :=
  offsetU256 ← s_pop; sizeU256 ← s_pop;
  '(expansionCost, offset, size) ← s_expansionCosts offsetU256 sizeU256;
  s_charge expansionCost (
    data ← s_memRead offset size;
    setS (st.set_ReturnData data);;
    setS (st.set_Status status)).

(** ** Storage *)

Definition sloadEffect (markWarm : bool) : E unit :=
  key ← s_pop;
  storage ← getS st.s_Storage;
  s_push (st.Storage_GetCurrent storage key);;
  if markWarm then setS (st.set_Storage (st.Storage_MarkWarm storage key)) else mret tt.

Definition sstoreEffect (priceDiff gasRefund : Z) : E unit :=
  s_addGas priceDiff;;
  s_addRefund gasRefund;;
  key ← s_pop; value ← s_pop;
  storage ← getS st.s_Storage;
  setS (st.set_Storage (st.Storage_SetCurrent storage key value));;
  revision ← getS st.s_Revision;
  if revision >=? R09_Berlin then
    storage ← getS st.s_Storage; setS (st.set_Storage (st.Storage_MarkWarm storage key))
  else mret tt.

Definition tloadEffect : E unit :=
  key ← s_pop;
  transient ← getS st.s_TransientStorage;
  s_push (st.TransientStorage_Get transient key).

Definition tstoreEffect : E unit :=
  key ← s_pop; value ← s_pop;
  transient ← getS st.s_TransientStorage;
  setS (st.set_TransientStorage (st.TransientStorage_Set transient key value)).

(** ** Control flow, stack and logs *)

Definition jumpEffect : E unit :=
  target ← s_pop; setS (st.set_Pc (u16 (U256_Uint64 target))).

Definition jumpiEffect : E unit :=
  target ← s_pop; _ ← s_pop; setS (st.set_Pc (u16 (U256_Uint64 target))).

(** The bytes from [pos] on; an error of [GetData] is a panic. *)
Fixpoint push_data (code : st.Code) (pos : Z) (n : nat) : option (list byte) :=
  match n with
  | O => Some []
  | S n =>
      match st.Code_GetData code pos with
      | Some (b, None) => data ← push_data code (pos + 1) n; Some (b :: data)
      | _ => None
      end
  end.

Definition pushEffect (n : nat) : E unit :=
  code ← getS st.s_Code; pc ← getS st.s_Pc;
  data ← liftE (push_data code pc n);
  value ← liftE (NewU256FromBytes data);
  s_push value;;
  pc ← getS st.s_Pc; setS (st.set_Pc (u16 (pc + Z.of_nat n))).

Definition dupEffect (n : Z) : E unit := v ← s_get (n - 1); s_push v.

Definition swapEffect (n : Z) : E unit :=
  a ← s_get 0; b ← s_get n; s_set 0 b;; s_set n a.

Fixpoint s_popN (n : nat) : E (list U256) :=
  match n with
  | O => mret []
  | S n => t ← s_pop; topics ← s_popN n; mret (t :: topics)
  end.

Definition logEffect (n : nat) : E unit :=
  offsetU256 ← s_pop; sizeU256 ← s_pop;
  topics ← s_popN n;
  '(memExpCost, offset, size) ← s_expansionCosts offsetU256 sizeU256;
  s_charge memExpCost (
    s_charge (i64 (8 *u64 size)) (
      data ← s_memRead offset size;
      logs ← getS st.s_Logs;
      setS (st.set_Logs (st.Logs_AddLog logs data topics)))).

(** ** Accounts and blocks *)

(** A value read from the state and pushed. *)
Definition pushRead (f : st.State -> U256) : E unit := v ← getS f; s_push v.

(** [s.Stack.Push(NewU256FromBytes(bytes...))]. *)
Definition pushBytes (f : st.State -> list byte) : E unit :=
  bytes ← getS f; v ← liftE (NewU256FromBytes bytes); s_push v.

Definition balanceEffect (markWarm : bool) : E unit :=
  a ← s_pop; let address := NewAddress a in
  accounts ← getS st.s_Accounts;
  s_push (st.Accounts_GetBalance accounts address);;
  if markWarm then s_markWarm address else mret tt.

Definition extCodeSizeEffect (markWarm : bool) : E unit :=
  a ← s_pop; let address := NewAddress a in
  accounts ← getS st.s_Accounts;
  let size := Bytes_Length (st.Accounts_GetCode accounts address) in
  s_push (NewU256 (u64 size));;
  if markWarm then s_markWarm address else mret tt.

Definition extCodeHashEffect (revision : Revision) (warm : bool) : E unit :=
  a ← s_pop; let address := NewAddress a in
  accounts ← getS st.s_Accounts;
  (if st.Accounts_IsEmpty accounts address then s_push (NewU256 0)
   else
     let hash := st.Accounts_GetCodeHash Keccak256 accounts address in
     v ← liftE (NewU256FromBytes (arr_bytes hash)); s_push v);;
  if (revision >=? R09_Berlin) && negb warm then s_markWarm address else mret tt.

Definition blockHashEffect : E unit :=
  targetBlockNumber ← s_pop;
  block ← getS st.s_BlockContext;
  hashes ← getS st.s_RecentBlockHashes;
  let index := st.bc_BlockNumber block -u64 U256_Uint64 targetBlockNumber in
  hash ← liftE (HashArray_Get hashes (index -u64 1));
  v ← liftE (NewU256FromBytes (arr_bytes hash));
  s_push v.

(** The operand is replaced by zero. *)
Definition zeroEffect : E unit := _ ← s_pop; s_push (NewU256 0).

Definition blobHashEffect : E unit :=
  indexU256 ← s_pop;
  tx ← getS st.s_TransactionContext;
  hash ← liftE (st.tx_BlobHashes tx !! Z.to_nat (U256_Uint64 indexU256));
  v ← liftE (NewU256FromBytes (arr_bytes hash));
  s_push v.

Definition selfDestructEffect : E unit :=
  b ← s_pop; let beneficiaryAccount := U256_Bytes20be b in
  callContext ← getS st.s_CallContext;
  let originatorAccount := st.cc_AccountAddress callContext in
  accounts ← getS st.s_Accounts;
  revision ← getS st.s_Revision;
  let originatorBalance := st.Accounts_GetBalance accounts originatorAccount in
  warmUp ← (if (revision >? R07_Istanbul) && negb (st.Accounts_IsWarm accounts beneficiaryAccount)
            then s_markWarm beneficiaryAccount;; mret 2600 else mret 0);
  accounts ← getS st.s_Accounts;
  let dynamicCost := if negb (U256_IsZero originatorBalance)
                        && st.Accounts_IsEmpty accounts beneficiaryAccount
                     then warmUp +i64 25000 else warmUp in
  s_charge dynamicCost (
    hasSelfDestructed ← getS st.s_HasSelfDestructed;
    s_addRefund (if (revision <? R10_London) && negb hasSelfDestructed then 24000 else 0);;
    isNewContract ← getS st.s_IsNewContract;
    (if (revision <? R13_Cancun) || isNewContract then
       setS (st.set_HasSelfDestructed true);;
       journal ← getS st.s_SelfDestructedJournal;
       setS (st.set_SelfDestructedJournal
         (journal ++ [st.NewSelfDestructEntry originatorAccount beneficiaryAccount]))
     else mret tt);;
    setS (st.set_Status st.Stopped)).

(** ** Creation *)

(** [res := s.CallJournal.Call(kind, parameter)]. *)
Definition s_call (kind : CallKind) (parameter : CallParameters) : E CallResult :=
  journal ← getS st.s_CallJournal;
  let '(journal, res) := st.CallJournal_Call journal kind parameter in
  setS (st.set_CallJournal journal);; mret res.

Definition specMaxInitCodeSize : Z := 2 * 24576.

Definition isCreate2Kind (kind : CallKind) : bool := match kind with Create2 => true | _ => false end.

(** The part of [createEffect] after the gas has been charged. *)
Definition createBody (callKind : CallKind) (valueU256 saltU256 : U256) (offset size : Z) : E unit :=
  input ← s_memRead offset size;
  callContext ← getS st.s_CallContext;
  accounts ← getS st.s_Accounts;
  let balance := st.Accounts_GetBalance accounts (st.cc_AccountAddress callContext) in
  if negb (U256_IsZero valueU256) && U256_Lt balance valueU256 then
    zero ← liftE (AddressToU256 zeroAddress);
    s_push zero;;
    setS (st.set_LastCallReturnData [])
  else
    gas ← getS st.s_Gas;
    let limit := gas -i64 Z.quot gas 64 in
    res ← s_call callKind (mkCallParameters (st.cc_AccountAddress callContext) zeroAddress
            (U256_Bytes32be valueU256) input limit (U256_Bytes32be saltU256) zeroAddress);
    s_useGas (limit -i64 cr_GasLeft res);;
    s_addRefund (cr_GasRefund res);;
    if negb (cr_Success res) then
      zero ← liftE (AddressToU256 zeroAddress);
      s_push zero;;
      setS (st.set_LastCallReturnData (cr_Output res))
    else
      setS (st.set_LastCallReturnData []);;
      created ← liftE (AddressToU256 (cr_CreatedAddress res));
      s_push created.

Definition createEffect (callKind : CallKind) : E unit :=
  valueU256 ← s_pop; offsetU256 ← s_pop; sizeU256 ← s_pop;
  '(memExpCost, offset, size) ← s_expansionCosts offsetU256 sizeU256;
  revision ← getS st.s_Revision;
  let shanghai := revision >=? R12_Shanghai in
  if shanghai && (negb (U256_IsUint64 sizeU256) || (size >? specMaxInitCodeSize)) then s_fail
  else
    let '(dynamicGas, overflow) :=
      if shanghai then sumWithOverflow [memExpCost; i64 (2 *u64 SizeInWords size)]
      else (memExpCost, false) in
    if overflow then s_fail
    else
      '(saltU256, (dynamicGas, overflow)) ←
        (if isCreate2Kind callKind then
           salt ← s_pop;
           mret (salt, sumWithOverflow [dynamicGas; i64 (6 *u64 SizeInWords size)])
         else mret (NewU256 0, (dynamicGas, false)));
      if (overflow : bool) then s_fail
      else s_charge dynamicGas (createBody callKind valueU256 saltU256 offset size).

(** ** Calls *)

Definition opHasValue (op : OpCode) : bool := Byte.eqb op CALL || Byte.eqb op CALLCODE.

(** The costs of accessing a delegate, which become part of the state. *)
Definition delegationCost (target : U256) : E Z :=
  revision ← getS st.s_Revision;
  if revision >=? R14_Prague then
    accounts ← getS st.s_Accounts;
    let targetCode := st.Accounts_GetCode accounts (U256_Bytes20be target) in
    let '(delegateAddress, isDelegate) := ParseDelegationDesignator targetCode in
    if isDelegate then
      if st.Accounts_IsWarm accounts delegateAddress then mret 100
      else s_markWarm delegateAddress;; mret 2600
    else mret 0
  else mret 0.

(** The kind, sender, recipient and value of the nested call. *)
Definition callTarget (op : OpCode) (readOnly : bool) (callContext : st.CallContext) (target value : U256)
    : CallKind * Address * Address * U256 :=
  let self := st.cc_AccountAddress callContext in
  let '(kind, sender, recipient, value) :=
    if Byte.eqb op DELEGATECALL
    then (DelegateCall, st.cc_CallerAddress callContext, self, st.cc_Value callContext)
    else (Call, self, U256_Bytes20be target, value) in
  let '(kind, sender, recipient) :=
    if Byte.eqb op CALLCODE then (CallCode, self, self) else (kind, sender, recipient) in
  let kind := if (readOnly && Byte.eqb op CALL) || Byte.eqb op STATICCALL then StaticCall else kind in
  (kind, sender, recipient, value).

(** The call and the processing of its result. *)
Definition callPerform (op : OpCode) (target value : U256) (input : list byte) (endowment stipend : Z)
    (retOffset64 retSize64 : Z) : E unit :=
  callContext ← getS st.s_CallContext;
  readOnly ← getS st.s_ReadOnly;
  let '(kind, sender, recipient, value) := callTarget op readOnly callContext target value in
  res ← s_call kind (mkCallParameters sender recipient (U256_Bytes32be value) input
          (endowment +i64 stipend) zeroWord (U256_Bytes20be target));
  (if retSize64 >? 0 then
     let output := cr_Output res in
     let output := if zlen output >? i64 retSize64 then slice output 0 retSize64 else output in
     s_memWrite output retOffset64
   else mret tt);;
  s_useGas (endowment +i64 stipend -i64 cr_GasLeft res);;
  s_addRefund (cr_GasRefund res);;
  setS (st.set_LastCallReturnData (cr_Output res));;
  if cr_Success res then s_push (NewU256 1) else s_push (NewU256 0).

(** The part of [callEffect] after the costs have been charged. *)
Definition callBody (op : OpCode) (gas target value : U256)
    (argsOffset64 argsSize64 retOffset64 retSize64 : Z) : E unit :=
  revision ← getS st.s_Revision;
  (if revision >=? R09_Berlin then s_markWarm (U256_Bytes20be target) else mret tt);;
  s_memGrow argsOffset64 argsSize64;;
  s_memGrow retOffset64 retSize64;;
  available ← getS st.s_Gas;
  let limit := available -i64 Z.quot available 64 in
  let endowment :=
    if U256_IsUint64 gas && (U256_Uint64 gas <? u64 limit) then i64 (U256_Uint64 gas) else limit in
  let stipend := if negb (U256_IsZero value) then 2300 else 0 in
  s_addGas stipend;;
  input ← s_memRead argsOffset64 argsSize64;
  callContext ← getS st.s_CallContext;
  accounts ← getS st.s_Accounts;
  let balance := st.Accounts_GetBalance accounts (st.cc_AccountAddress callContext) in
  if negb (U256_IsZero value) && U256_Lt balance value then
    s_push (NewU256 0);;
    setS (st.set_LastCallReturnData [])
  else callPerform op target value input endowment stipend retOffset64 retSize64.

Definition callEffect (addrAccessCost : Z) (op : OpCode) : E unit :=
  gas ← s_pop; target ← s_pop;
  value ← (if opHasValue op then s_pop else mret (NewU256 0));
  argsOffset ← s_pop; argsSize ← s_pop; retOffset ← s_pop; retSize ← s_pop;
  '(inputMemoryExpansionCost, argsOffset64, argsSize64) ← s_expansionCosts argsOffset argsSize;
  '(outputMemoryExpansionCost, retOffset64, retSize64) ← s_expansionCosts retOffset retSize;
  let memoryExpansionCost := Z.max inputMemoryExpansionCost outputMemoryExpansionCost in
  let isValueZero := U256_IsZero value in
  let positiveValueCost := if negb isValueZero then 9000 else 0 in
  accounts ← getS st.s_Accounts;
  let valueToEmptyAccountCost :=
    if negb isValueZero && st.Accounts_IsEmpty accounts (U256_Bytes20be target)
       && negb (Byte.eqb op CALLCODE)
    then 25000 else 0 in
  delegationDesignatorAccessCost ← delegationCost target;
  let '(dynamicGas, overflow) := sumWithOverflow
    [memoryExpansionCost; positiveValueCost; valueToEmptyAccountCost; addrAccessCost;
     delegationDesignatorAccessCost] in
  available ← getS st.s_Gas;
  if (available <? dynamicGas) || overflow then s_fail
  else
    s_useGas dynamicGas;;
    callBody op gas target value argsOffset64 argsSize64 retOffset64 retSize64.

End Effects.
