(* ===== verification/CtSpec.v ===== *)
(** * The specification of the EVM

    The rules of [go/ct/spc/specification.go], one definition per group of
    rules in the order of the source, and the index of the rules by op code of
    [specification_map.go]. *)
From Stdlib Require Import ZArith Lia Strings.Byte.
From stdpp Require Import base list numbers gmap.
From S2P Require Import Prelude Uint256 Types OpCodes CtSlices CtCommon CtState CtRules CtEffects.
Set Default Goal Selector "!".
Local Open Scope Z_scope.
Local Open Scope go_scope.

(** ** Instructions *)

Record instruction := mkInstruction {
  i_op : OpCode;
  i_staticGas : Z;
  i_pops : Z;
  i_pushes : Z;
  i_conditions : list Condition;
  i_parameters : list ParameterKind;
  i_effect : Effect
}.

Section Spec.
Context {U : Uint256} (Keccak256 : list byte -> Hash).

Definition tooLittleGas (i : instruction) : list Rule :=
  let localConditions := i_conditions i ++
    [AnyKnownRevision; cEq eStatus st.Running; cEq (eOp ePc) (i_op i); cIsCode ePc;
     cLt eGas (i_staticGas i)] in
  [mkRule (And localConditions) [] FailEffect].

Definition notEnoughSpace (i : instruction) : list Rule :=
  let localConditions := i_conditions i ++
    [AnyKnownRevision; cEq eStatus st.Running; cEq (eOp ePc) (i_op i); cIsCode ePc;
     cGe eStackSize st.MaxStackSize] in
  [mkRule (And localConditions) [] FailEffect].

Definition tooFewElements (i : instruction) : list Rule :=
  let localConditions :=
    [AnyKnownRevision; cEq eStatus st.Running; cEq (eOp ePc) (i_op i); cIsCode ePc;
     cLt eStackSize (i_pops i)] in
  [mkRule (And localConditions) [] FailEffect].

(** The conditions of the regular case. *)
Definition regularConditions (i : instruction) : list Condition :=
  i_conditions i ++
    [cEq eStatus st.Running; cEq (eOp ePc) (i_op i); cGe eGas (i_staticGas i);
     cGe eStackSize (i_pops i);
     cLe eStackSize (st.MaxStackSize - Z.max (i_pushes i - i_pops i) 0)]
  ++ (if negb (existsb IsRevisionCondition (i_conditions i)) then [AnyKnownRevision] else []).

(** [s.Gas -= i.staticGas; s.Pc++; i.effect(s)]. *)
Definition regularEffect (i : instruction) : Effect := fun s =>
  let s := st.set_Gas (st.s_Gas s -i64 i_staticGas i) s in
  let s := st.set_Pc (u16 (st.s_Pc s + 1)) s in
  i_effect i s.

Definition rulesFor (i : instruction) : list Rule :=
  (if i_staticGas i >? 0 then tooLittleGas i else [])
  ++ (if i_pops i >? 0 then tooFewElements i else [])
  ++ (if i_pushes i >? i_pops i then notEnoughSpace i else [])
  ++ [mkRule (And (regularConditions i)) (i_parameters i) (regularEffect i)].

(** ** Terminal and error states, invalid instructions *)

Definition terminalRules : list Rule :=
  [mkRule (And [AnyKnownRevision; cEq eStatus st.Stopped]) [] NoEffect;
   mkRule (And [AnyKnownRevision; cEq eStatus st.Reverted]) [] NoEffect;
   mkRule (And [AnyKnownRevision; cEq eStatus st.Failed]) [] NoEffect;
   mkRule (cIsData ePc) [] NoEffect].

Definition invalidRules : list Rule :=
  flat_map (fun op => if negb (IsValid op)
    then [mkRule (And [cEq eStatus st.Running; cEq (eOp ePc) op; cIsCode ePc; AnyKnownRevision]) []
            FailEffect] else []) allOpCodes.

Definition errorRules : list Rule := [mkRule (IsRevision R99_UnknownNextRevision) [] FailEffect].

Definition stopRules : list Rule :=
  [mkRule (And [AnyKnownRevision; cEq eStatus st.Running; cEq (eOp ePc) STOP]) []
     (effect_of (
        setS (st.set_Status st.Stopped);;
        setS (st.set_ReturnData []);;
        pc ← getS st.s_Pc; setS (st.set_Pc (u16 (pc + 1)))))].

(** A rule that fails for an instruction the revision does not have. *)
Definition invalidRevisionRule (op : OpCode) (min max : Revision) : Rule :=
  mkRule (And [cRevisionBounds min max; cEq eStatus st.Running; cEq (eOp ePc) op; cIsCode ePc]) []
    FailEffect.

(** ** Arithmetic *)

Definition binaryOpWithDynamicCost (op : OpCode) (costs : Z) (effect : U256 -> U256 -> U256)
    (dynamicCost : U256 -> U256 -> Z) : list Rule :=
  rulesFor (mkInstruction op costs 2 1 [] [NumericParameter; NumericParameter]
    (effect_of (binaryEffect effect dynamicCost))).

Definition binaryOp (op : OpCode) (costs : Z) (effect : U256 -> U256 -> U256) : list Rule :=
  binaryOpWithDynamicCost op costs effect (fun _ _ => 0).

Definition trinaryOp (op : OpCode) (costs : Z) (effect : U256 -> U256 -> U256 -> U256) : list Rule :=
  rulesFor (mkInstruction op costs 3 1 [] [NumericParameter; NumericParameter; NumericParameter]
    (effect_of (trinaryEffect effect))).

Definition unaryOp (op : OpCode) (costs : Z) (effect : U256 -> U256) : list Rule :=
  rulesFor (mkInstruction op costs 1 1 [] [NumericParameter] (effect_of (unaryEffect effect))).

Definition arithmeticRules : list Rule :=
  binaryOp ADD 3 U256_Add
  ++ binaryOp MUL 5 U256_Mul
  ++ binaryOp SUB 3 U256_Sub
  ++ binaryOp DIV 5 U256_Div
  ++ binaryOp SDIV 5 U256_SDiv
  ++ binaryOp MOD 5 U256_Mod
  ++ binaryOp SMOD 5 U256_SMod
  ++ trinaryOp ADDMOD 8 U256_AddMod
  ++ trinaryOp MULMOD 8 U256_MulMod
  ++ binaryOpWithDynamicCost EXP 10 U256_Exp (fun _ e => expCost e)
  ++ binaryOp SIGNEXTEND 5 (fun b x => U256_SignExtend x b).

Definition comparisonRules : list Rule :=
  binaryOp LT 3 (fun a b => boolToU256 (U256_Lt a b))
  ++ binaryOp GT 3 (fun a b => boolToU256 (U256_Gt a b))
  ++ binaryOp SLT 3 (fun a b => boolToU256 (U256_Slt a b))
  ++ binaryOp SGT 3 (fun a b => boolToU256 (U256_Sgt a b))
  ++ binaryOp EQ 3 (fun a b => boolToU256 (U256_Eq a b))
  ++ unaryOp ISZERO 3 (fun a => boolToU256 (U256_IsZero a))
  ++ binaryOp AND 3 U256_And
  ++ binaryOp OR 3 U256_Or
  ++ binaryOp XOR 3 U256_Xor
  ++ unaryOp NOT 3 U256_Not
  ++ binaryOp BYTE 3 byteOf
  ++ binaryOp SHL 3 (fun shift value => U256_Shl value shift)
  ++ binaryOp SHR 3 (fun shift value => U256_Shr value shift)
  ++ binaryOp SAR 3 (fun shift value => U256_Srsh value shift).

Definition clzRules : list Rule :=
  rulesFor (mkInstruction CLZ 5 1 1 [cRevisionBounds R15_Osaka NewestSupportedRevision]
    [NumericParameter] (effect_of clzEffect))
  ++ [invalidRevisionRule CLZ R07_Istanbul R14_Prague].

(** ** Hashes, balances and memory *)

Definition sha3Rules : list Rule :=
  rulesFor (mkInstruction SHA3 30 2 1 [] [MemoryOffsetParameter; SizeParameter]
    (effect_of (sha3Effect Keccak256))).

Definition sinceBerlin : Condition := cRevisionBounds R09_Berlin NewestSupportedRevision.

Definition balanceRules : list Rule :=
  rulesFor (mkInstruction BALANCE 2600 1 1 [sinceBerlin; cIsAddressCold (Param 0)] [AddressParameter]
    (effect_of (balanceEffect true)))
  ++ rulesFor (mkInstruction BALANCE 100 1 1 [sinceBerlin; cIsAddressWarm (Param 0)] [AddressParameter]
    (effect_of (balanceEffect false)))
  ++ rulesFor (mkInstruction BALANCE 700 1 1 [IsRevision R07_Istanbul] [AddressParameter]
    (effect_of (balanceEffect false))).

Definition mloadRules : list Rule :=
  rulesFor (mkInstruction MLOAD 3 1 1 [] [MemoryOffsetParameter] (effect_of mloadEffect)).

Definition mstoreRules : list Rule :=
  rulesFor (mkInstruction MSTORE 3 2 0 [] [MemoryOffsetParameter; NumericParameter]
    (effect_of mstoreEffect)).

Definition mstore8Rules : list Rule :=
  rulesFor (mkInstruction MSTORE8 3 2 0 [] [MemoryOffsetParameter; NumericParameter]
    (effect_of mstore8Effect)).

(** ** Storage *)

Definition sloadRules : list Rule :=
  rulesFor (mkInstruction SLOAD (100 + 2000) 1 1 [sinceBerlin; cIsStorageCold (Param 0)]
    [NumericParameter] (effect_of (sloadEffect true)))
  ++ rulesFor (mkInstruction SLOAD 100 1 1 [sinceBerlin; cIsStorageWarm (Param 0)]
    [NumericParameter] (effect_of (sloadEffect false)))
  ++ rulesFor (mkInstruction SLOAD 800 1 1 [IsRevision R07_Istanbul]
    [NumericParameter] (effect_of (sloadEffect false))).

Record sstoreOpParams := mkSstoreOpParams {
  ss_revision : Revision;
  ss_warm : bool;
  ss_config : StorageStatus;
  ss_gasCost : Z;
  ss_gasRefund : Z
}.

Definition sstoreOpRegular (params : sstoreOpParams) : list Rule :=
  let conditions :=
    if ss_revision params >=? R09_Berlin then
      if ss_warm params then [cIsStorageWarm (Param 0)] else [cIsStorageCold (Param 0)]
    else [] in
  let '(gasLimit, priceDiff) :=
    if ss_gasCost params >? 2301 then (ss_gasCost params, 0) else (2301, 2301 - ss_gasCost params) in
  rulesFor (mkInstruction SSTORE gasLimit 2 0
    (conditions ++ [IsRevision (ss_revision params); cEq eReadOnly false;
                    cStorageConfiguration (ss_config params) (Param 0) (Param 1)])
    [NumericParameter; NumericParameter]
    (effect_of (sstoreEffect priceDiff (ss_gasRefund params)))).

Definition sstoreOpReadOnlyMode (params : sstoreOpParams) : list Rule :=
  let gasLimit := Z.max (ss_gasCost params) 2301 in
  rulesFor (mkInstruction SSTORE gasLimit 2 0
    [IsRevision (ss_revision params); cEq eReadOnly true;
     cStorageConfiguration (ss_config params) (Param 0) (Param 1)]
    [NumericParameter; NumericParameter] FailEffect).

Definition sstoreIstanbul : list sstoreOpParams :=
  let p := mkSstoreOpParams R07_Istanbul false in
  [p StorageAssigned 800 0;
   p StorageAdded 20000 0;
   p StorageAddedDeleted 800 19200;
   p StorageDeletedRestored 800 (-10800);
   p StorageDeletedAdded 800 (-15000);
   p StorageDeleted 5000 15000;
   p StorageModified 5000 0;
   p StorageModifiedDeleted 800 15000;
   p StorageModifiedRestored 800 4200].

Definition sstoreBerlin : list sstoreOpParams :=
  let p := mkSstoreOpParams R09_Berlin in
  [p false StorageAdded 22100 0;
   p false StorageDeleted 5000 15000;
   p false StorageModified 5000 0;
   p true StorageAssigned 100 0;
   p true StorageAdded 20000 0;
   p true StorageAddedDeleted 100 19900;
   p true StorageDeletedRestored 100 (-12200);
   p true StorageDeletedAdded 100 (-15000);
   p true StorageDeleted 2900 15000;
   p true StorageModified 2900 0;
   p true StorageModifiedDeleted 100 15000;
   p true StorageModifiedRestored 100 2800].

Definition sstoreSinceLondon (rev : Revision) : list sstoreOpParams :=
  let p := mkSstoreOpParams rev in
  [p false StorageAdded 22100 0;
   p false StorageDeleted 5000 4800;
   p false StorageModified 5000 0;
   p true StorageAssigned 100 0;
   p true StorageAdded 20000 0;
   p true StorageAddedDeleted 100 19900;
   p true StorageDeletedRestored 100 (-2000);
   p true StorageDeletedAdded 100 (-4800);
   p true StorageDeleted 2900 4800;
   p true StorageModified 2900 0;
   p true StorageModifiedDeleted 100 4800;
   p true StorageModifiedRestored 100 2800].

Definition sstoreParams : list sstoreOpParams :=
  sstoreIstanbul ++ sstoreBerlin
  ++ flat_map sstoreSinceLondon (seqZ R10_London (NewestSupportedRevision + 1 - R10_London)).

Definition sstoreRules : list Rule :=
  flat_map (fun params => sstoreOpRegular params ++ sstoreOpReadOnlyMode params) sstoreParams
  ++ tooLittleGas (mkInstruction SSTORE 2300 0 0 [] [] NoEffect)
  ++ tooFewElements (mkInstruction SSTORE 2 2 0 [] [] NoEffect).

(** ** Jumps *)

Definition jumpRules : list Rule :=
  rulesFor (mkInstruction JUMP 8 1 0 [cIsCode (Param 0); cEq (eOp (Param 0)) JUMPDEST]
    [JumpTargetParameter] (effect_of jumpEffect))
  ++ rulesFor (mkInstruction JUMP 8 1 0
    [AnyKnownRevision; cEq eStatus st.Running; cEq (eOp ePc) JUMP; cIsData (Param 0)]
    [JumpTargetParameter] FailEffect)
  ++ rulesFor (mkInstruction JUMP 8 1 0
    [AnyKnownRevision; cEq eStatus st.Running; cEq (eOp ePc) JUMP; cIsCode (Param 0);
     cNe (eOp (Param 0)) JUMPDEST]
    [JumpTargetParameter] FailEffect).

Definition jumpiRules : list Rule :=
  rulesFor (mkInstruction JUMPI 10 2 0
    [cIsCode (Param 0); cEq (eOp (Param 0)) JUMPDEST; cNe (Param 1) (NewU256 0)]
    [JumpTargetParameter; NumericParameter] (effect_of jumpiEffect))
  ++ rulesFor (mkInstruction JUMPI 10 2 0 [cEq (Param 1) (NewU256 0)]
    [JumpTargetParameter; NumericParameter] (effect_of (_ ← s_pop; _ ← s_pop; mret tt)))
  ++ rulesFor (mkInstruction JUMPI 10 2 0 [cIsData (Param 0); cNe (Param 1) (NewU256 0)]
    [JumpTargetParameter; NumericParameter] FailEffect)
  ++ rulesFor (mkInstruction JUMPI 10 2 0
    [cNe (Param 1) (NewU256 0); cIsCode (Param 0); cNe (eOp (Param 0)) JUMPDEST]
    [JumpTargetParameter; NumericParameter] FailEffect).

Definition flowRules : list Rule :=
  rulesFor (mkInstruction PC 2 0 1 [] [] (effect_of (pushRead (fun s => NewU256 (st.s_Pc s -u64 1)))))
  ++ rulesFor (mkInstruction MSIZE 2 0 1 [] []
       (effect_of (pushRead (fun s => NewU256 (u64 (st.Memory_Size (st.s_Memory s)))))))
  ++ rulesFor (mkInstruction GAS 2 0 1 [] [] (effect_of (pushRead (fun s => NewU256 (u64 (st.s_Gas s))))))
  ++ rulesFor (mkInstruction JUMPDEST 1 0 0 [] [] NoEffect).

(** ** Transient storage *)

Definition sinceCancun : Condition := cRevisionBounds R13_Cancun NewestSupportedRevision.

Definition tloadRules : list Rule :=
  rulesFor (mkInstruction TLOAD 100 1 1 [sinceCancun; cBindTransientStorageToNonZero (Param 0)]
    [StorageAccessKeyParameter] (effect_of tloadEffect))
  ++ rulesFor (mkInstruction TLOAD 100 1 1 [sinceCancun; cBindTransientStorageToZero (Param 0)]
    [StorageAccessKeyParameter] (effect_of zeroEffect))
  ++ [invalidRevisionRule TLOAD R07_Istanbul R12_Shanghai].

Definition tstoreRules : list Rule :=
  rulesFor (mkInstruction TSTORE 100 2 0
    [sinceCancun; cEq eReadOnly false; cBindTransientStorageToNonZero (Param 0)]
    [StorageAccessKeyParameter; NumericParameter] (effect_of tstoreEffect))
  ++ rulesFor (mkInstruction TSTORE 100 2 0
    [sinceCancun; cEq eReadOnly false; cBindTransientStorageToZero (Param 0)]
    [StorageAccessKeyParameter; NumericParameter] (effect_of tstoreEffect))
  ++ [invalidRevisionRule TSTORE R07_Istanbul R12_Shanghai]
  ++ [mkRule (And [AnyKnownRevision; cEq eStatus st.Running; cEq (eOp ePc) TSTORE; cEq eReadOnly true])
        [] FailEffect].

(** ** Stack *)

Definition push0Rules : list Rule :=
  rulesFor (mkInstruction PUSH0 2 0 1 [cRevisionBounds R12_Shanghai NewestSupportedRevision] []
    (effect_of (pushRead (fun _ => NewU256 0))))
  ++ rulesFor (mkInstruction PUSH0 2 0 1 [cRevisionBounds R07_Istanbul R11_Paris] [] FailEffect).

Definition mcopyRules : list Rule :=
  rulesFor (mkInstruction MCOPY 3 3 0 [sinceCancun]
    [MemoryOffsetParameter; MemoryOffsetParameter; SizeParameter] (effect_of mcopyEffect))
  ++ [invalidRevisionRule MCOPY R07_Istanbul R12_Shanghai].

(** [vm.OpCode(int(base) + k)]. *)
Definition op_plus (base : OpCode) (k : Z) : OpCode := byte_of (byte_val base + k).

Definition pushOp (n : nat) : list Rule :=
  let op := op_plus PUSH1 (Z.of_nat n - 1) in
  rulesFor (mkInstruction op 3 0 1 [] [] (effect_of (pushEffect n))).

Definition dupOp (n : Z) : list Rule :=
  let op := op_plus DUP1 (n - 1) in
  rulesFor (mkInstruction op 3 n (n + 1) [] [] (effect_of (dupEffect n))).

Definition swapOp (n : Z) : list Rule :=
  let op := op_plus SWAP1 (n - 1) in
  rulesFor (mkInstruction op 3 (n + 1) (n + 1) [] [] (effect_of (swapEffect n))).

Definition logOp (n : nat) : list Rule :=
  let op := op_plus LOG0 (Z.of_nat n) in
  let minGas := 375 + 375 * Z.of_nat n in
  let parameter := [MemoryOffsetParameter; SizeParameter] ++ replicate n TopicParameter in
  rulesFor (mkInstruction op minGas (2 + Z.of_nat n) 0 [cEq eReadOnly false] parameter
    (effect_of (logEffect n)))
  ++ rulesFor (mkInstruction op minGas (2 + Z.of_nat n) 0 [cEq eReadOnly true] parameter FailEffect).

Definition stackRules : list Rule :=
  flat_map pushOp (seq 1 32)
  ++ rulesFor (mkInstruction POP 2 1 0 [] [] (effect_of (_ ← s_pop; mret tt)))
  ++ flat_map dupOp (seqZ 1 16)
  ++ flat_map swapOp (seqZ 1 16)
  ++ flat_map logOp (seq 0 5).

(** ** The environment *)

(** An instruction that pushes a value of the state. *)
Definition readRules (op : OpCode) (gas : Z) (f : st.State -> U256) : list Rule :=
  rulesFor (mkInstruction op gas 0 1 [] [] (effect_of (pushRead f))).

Definition readBytesRules (op : OpCode) (f : st.State -> list byte) : list Rule :=
  rulesFor (mkInstruction op 2 0 1 [] [] (effect_of (pushBytes f))).

Definition callerRules : list Rule :=
  readBytesRules ADDRESS (fun s => arr_bytes (st.cc_AccountAddress (st.s_CallContext s)))
  ++ readBytesRules ORIGIN (fun s => arr_bytes (st.tx_OriginAddress (st.s_TransactionContext s)))
  ++ readBytesRules CALLER (fun s => arr_bytes (st.cc_CallerAddress (st.s_CallContext s)))
  ++ readRules CALLVALUE 2 (fun s => st.cc_Value (st.s_CallContext s))
  ++ readRules NUMBER 2 (fun s => NewU256 (st.bc_BlockNumber (st.s_BlockContext s))).

Definition blockHashRules : list Rule :=
  rulesFor (mkInstruction BLOCKHASH 20 1 1 [cInRange256FromCurrentBlock (Param 0)] [NumericParameter]
    (effect_of blockHashEffect))
  ++ rulesFor (mkInstruction BLOCKHASH 20 1 1 [cOutOfRange256FromCurrentBlock (Param 0)]
    [NumericParameter] (effect_of zeroEffect)).

Definition blockRules : list Rule :=
  readBytesRules COINBASE (fun s => arr_bytes (st.bc_CoinBase (st.s_BlockContext s)))
  ++ readRules GASLIMIT 2 (fun s => NewU256 (st.bc_GasLimit (st.s_BlockContext s)))
  ++ readRules PREVRANDAO 2 (fun s => st.bc_PrevRandao (st.s_BlockContext s))
  ++ readRules GASPRICE 2 (fun s => st.bc_GasPrice (st.s_BlockContext s)).

Definition extCodeSizeRules : list Rule :=
  rulesFor (mkInstruction EXTCODESIZE 2600 1 1 [sinceBerlin; cIsAddressCold (Param 0)]
    [AddressParameter] (effect_of (extCodeSizeEffect true)))
  ++ rulesFor (mkInstruction EXTCODESIZE 100 1 1 [sinceBerlin; cIsAddressWarm (Param 0)]
    [AddressParameter] (effect_of (extCodeSizeEffect false)))
  ++ rulesFor (mkInstruction EXTCODESIZE 700 1 1 [IsRevision R07_Istanbul]
    [AddressParameter] (effect_of (extCodeSizeEffect false))).

Definition extCodeCopyParameters : list ParameterKind :=
  [AddressParameter; MemoryOffsetParameter; DataOffsetParameter; SizeParameter].

Definition extCodeCopyRules : list Rule :=
  rulesFor (mkInstruction EXTCODECOPY 2600 4 0 [sinceBerlin; cIsAddressCold (Param 0)]
    extCodeCopyParameters (effect_of (extCodeCopyEffect true)))
  ++ rulesFor (mkInstruction EXTCODECOPY 100 4 0 [sinceBerlin; cIsAddressWarm (Param 0)]
    extCodeCopyParameters (effect_of (extCodeCopyEffect false)))
  ++ rulesFor (mkInstruction EXTCODECOPY 700 4 0 [IsRevision R07_Istanbul]
    extCodeCopyParameters (effect_of (extCodeCopyEffect false))).

Definition feeRules : list Rule :=
  readRules TIMESTAMP 2 (fun s => NewU256 (st.bc_TimeStamp (st.s_BlockContext s)))
  ++ rulesFor (mkInstruction BASEFEE 2 0 1 [cRevisionBounds R10_London NewestSupportedRevision] []
       (effect_of (pushRead (fun s => st.bc_BaseFee (st.s_BlockContext s)))))
  ++ [invalidRevisionRule BASEFEE R07_Istanbul R09_Berlin].

Definition blobRules : list Rule :=
  rulesFor (mkInstruction BLOBHASH 3 1 1 [sinceCancun; cHasBlobHash (Param 0)] [NumericParameter]
    (effect_of blobHashEffect))
  ++ rulesFor (mkInstruction BLOBHASH 3 1 1 [sinceCancun; cHasNoBlobHash (Param 0)] [NumericParameter]
    (effect_of zeroEffect))
  ++ [invalidRevisionRule BLOBHASH R07_Istanbul R12_Shanghai]
  ++ rulesFor (mkInstruction BLOBBASEFEE 2 0 1 [sinceCancun] []
       (effect_of (pushRead (fun s => st.bc_BlobBaseFee (st.s_BlockContext s)))))
  ++ [invalidRevisionRule BLOBBASEFEE R07_Istanbul R12_Shanghai].

(** [tosca.GetAllKnownRevisions()]. *)
Definition GetAllKnownRevisions : list Revision := seqZ 0 numRevisions.

Definition extCodeHashOp (revision : Revision) (warm isEmpty : bool) : list Rule :=
  let staticGas := if warm then 100 else 2600 in
  let staticGas := if revision <? R09_Berlin then 700 else staticGas in
  let conditions :=
    [IsRevision revision;
     if warm then cIsAddressWarm (Param 0) else cIsAddressCold (Param 0);
     if isEmpty then cAccountIsEmpty (Param 0) else cAccountIsNotEmpty (Param 0)] in
  rulesFor (mkInstruction EXTCODEHASH staticGas 1 1 conditions [AddressParameter]
    (effect_of (extCodeHashEffect Keccak256 revision warm))).

Definition extCodeHashRules : list Rule :=
  flat_map (fun revision =>
    flat_map (fun warm =>
      flat_map (fun isEmpty => extCodeHashOp revision warm isEmpty) [true; false])
      [true; false]) GetAllKnownRevisions.

Definition codeRules : list Rule :=
  readRules CHAINID 2 (fun s => st.bc_ChainID (st.s_BlockContext s))
  ++ readRules CODESIZE 2 (fun s => NewU256 (u64 (st.Code_Length (st.s_Code s))))
  ++ rulesFor (mkInstruction CODECOPY 3 3 0 []
       [MemoryOffsetParameter; DataOffsetParameter; SizeParameter] (effect_of codeCopyEffect)).

Definition callDataRules : list Rule :=
  readRules CALLDATASIZE 2 (fun s => NewU256 (u64 (Bytes_Length (st.s_CallData s))))
  ++ rulesFor (mkInstruction CALLDATALOAD 3 1 1 [] [MemoryOffsetParameter] (effect_of callDataLoadEffect))
  ++ rulesFor (mkInstruction CALLDATACOPY 3 3 0 []
       [MemoryOffsetParameter; DataOffsetParameter; SizeParameter] (effect_of callDataCopyEffect)).

Definition selfBalanceRules : list Rule :=
  readRules SELFBALANCE 5 (fun s =>
    st.Accounts_GetBalance (st.s_Accounts s) (st.cc_AccountAddress (st.s_CallContext s))).

Definition returnDataRules : list Rule :=
  readRules RETURNDATASIZE 2 (fun s => NewU256 (u64 (Bytes_Length (st.s_LastCallReturnData s))))
  ++ rulesFor (mkInstruction RETURNDATACOPY 3 3 0 []
       [MemoryOffsetParameter; DataOffsetParameter; SizeParameter] (effect_of returnDataCopyEffect)).

Definition returnRules : list Rule :=
  rulesFor (mkInstruction RETURN 0 2 0 [] [MemoryOffsetParameter; SizeParameter]
    (effect_of (endEffect st.Stopped)))
  ++ rulesFor (mkInstruction REVERT 0 2 0 [] [MemoryOffsetParameter; SizeParameter]
    (effect_of (endEffect st.Reverted))).

(** ** Calls *)

(** The conditions of a call; [delegationDesignator] is a pointer. *)
Definition callConditions (op : OpCode) (revision : Revision) (warm zeroValue : bool)
    (delegationDesignator : option DelegationDesignatorState) (static : bool) : list Condition :=
  [IsRevision revision;
   if warm then cIsAddressWarm (Param 1) else cIsAddressCold (Param 1);
   if static then cEq eReadOnly true else cEq eReadOnly false]
  ++ match delegationDesignator with
     | Some d => [cContainsDelegationDesignation (Param 1) d]
     | None => []
     end
  ++ (if opHasValue op then
        [if zeroValue then cEq (ValueParam 2) (NewU256 0) else cNe (ValueParam 2) (NewU256 0)]
      else []).

Definition getRulesForCall (op : OpCode) (revision : Revision) (warm zeroValue : bool)
    (delegationDesignator : option DelegationDesignatorState) (opEffect : Z -> OpCode -> Effect)
    (static : bool) : list Rule :=
  let '(staticGas, addressAccessCost) :=
    if revision =? R07_Istanbul then (700, 0)
    else if revision >=? R09_Berlin then (0, if warm then 100 else 2600)
    else (0, 0) in
  let pops := if opHasValue op then 7 else 6 in
  let parameters := [GasParameter; AddressParameter]
    ++ (if opHasValue op then [ValueParameter] else [])
    ++ [MemoryOffsetParameter; SizeParameter; MemoryOffsetParameter; SizeParameter] in
  rulesFor (mkInstruction op staticGas pops 1
    (callConditions op revision warm zeroValue delegationDesignator static) parameters
    (opEffect addressAccessCost op)).

Definition callFailEffect (_ : Z) (_ : OpCode) : Effect := FailEffect.

Definition callRulesAt (op : OpCode) (rev : Revision) (warm static zeroValue : bool) : list Rule :=
  let effect := if Byte.eqb op CALL && static && negb zeroValue then callFailEffect
                else fun cost op => effect_of (callEffect cost op) in
  if rev <? R14_Prague then getRulesForCall op rev warm zeroValue None effect static
  else flat_map (fun d => getRulesForCall op rev warm zeroValue (Some d) effect static)
         [NoDelegationDesignation; WarmDelegationDesignation; ColdDelegationDesignation].

Definition getRulesForAllCallTypes : list Rule :=
  flat_map (fun op =>
    flat_map (fun rev =>
      flat_map (fun warm =>
        flat_map (fun static =>
          flat_map (fun zeroValue => callRulesAt op rev warm static zeroValue) [true; false])
          [true; false]) [true; false])
      (seqZ R07_Istanbul (NewestSupportedRevision + 1)))
    [CALL; CALLCODE; STATICCALL; DELEGATECALL].

(** ** Self destructs and creations *)

Definition makeSelfDestructRules (revision : Revision) (originatorHasFunds
    originatorHasSelfDestructedBefore beneficiaryAccountIsEmpty beneficiaryAccountIsWarm
    isNewContract : bool) : list Rule :=
  let conditions :=
    [cEq eReadOnly false;
     IsRevision revision;
     if originatorHasFunds then cGt (eBalance eSelfAddress) (NewU256 0)
     else cEq (eBalance eSelfAddress) (NewU256 0);
     if originatorHasSelfDestructedBefore then cHasSelfDestructed else cHasNotSelfDestructed;
     if beneficiaryAccountIsEmpty then cAccountIsEmpty (Param 0) else cAccountIsNotEmpty (Param 0);
     if beneficiaryAccountIsWarm then cIsAddressWarm (Param 0) else cIsAddressCold (Param 0);
     if isNewContract then cIsNewContract else cIsNotNewContract] in
  rulesFor (mkInstruction SELFDESTRUCT 5000 1 0 conditions [AddressParameter]
    (effect_of selfDestructEffect)).

Definition selfDestructRules : list Rule :=
  flat_map (fun revision =>
    flat_map (fun originatorHasFunds =>
      flat_map (fun beneficiaryAccountEmpty =>
        flat_map (fun beneficiaryAccountIsWarm =>
          flat_map (fun hasSelfDestructed =>
            flat_map (fun isNewContract =>
              makeSelfDestructRules revision originatorHasFunds hasSelfDestructed
                beneficiaryAccountEmpty beneficiaryAccountIsWarm isNewContract)
              [true; false]) [true; false]) [true; false]) [true; false]) [true; false])
    (seqZ R07_Istanbul (NewestSupportedRevision + 1))
  ++ rulesFor (mkInstruction SELFDESTRUCT 5000 1 0 [cEq eReadOnly true; AnyKnownRevision] [] FailEffect).

Definition createRules : list Rule :=
  rulesFor (mkInstruction CREATE 32000 3 1 [cEq eReadOnly true]
    [ValueParameter; MemoryOffsetParameter; InitCodeSizeParameter] FailEffect)
  ++ rulesFor (mkInstruction CREATE 32000 3 1 [cEq eReadOnly false]
    [ValueParameter; MemoryOffsetParameter; InitCodeSizeParameter] (effect_of (createEffect Create))).

Definition create2Rules : list Rule :=
  rulesFor (mkInstruction CREATE2 32000 3 1 [cEq eReadOnly true]
    [ValueParameter; MemoryOffsetParameter; InitCodeSizeParameter; NumericParameter] FailEffect)
  ++ rulesFor (mkInstruction CREATE2 32000 4 1 [cEq eReadOnly false]
    [ValueParameter; MemoryOffsetParameter; InitCodeSizeParameter; NumericParameter]
    (effect_of (createEffect Create2))).

(** ** All rules *)

Definition getAllRules : list Rule :=
  terminalRules ++ invalidRules ++ errorRules ++ stopRules ++ arithmeticRules ++ comparisonRules
  ++ clzRules ++ sha3Rules ++ balanceRules ++ mloadRules ++ mstoreRules ++ mstore8Rules ++ sloadRules
  ++ sstoreRules ++ jumpRules ++ jumpiRules ++ flowRules ++ tloadRules ++ tstoreRules ++ push0Rules
  ++ mcopyRules ++ stackRules ++ callerRules ++ blockHashRules ++ blockRules ++ extCodeSizeRules
  ++ extCodeCopyRules ++ feeRules ++ blobRules ++ extCodeHashRules ++ codeRules ++ callDataRules
  ++ selfBalanceRules ++ returnDataRules ++ returnRules ++ getRulesForAllCallTypes
  ++ selfDestructRules ++ createRules ++ create2Rules.

(** ** The index of the rules *)

(** The first condition [code[PC] = op] in the text of a condition; the key
    of the map is the op code instead of its name, and ["noOp"] is [None]. *)
Fixpoint find_op (conditions : list Condition) : option OpCode :=
  match conditions with
  | [] => None
  | cEq (eOp ePc) op :: _ => Some op
  | _ :: conditions => find_op conditions
  end.

Definition ruleToOpString (rule : Rule) : option OpCode := find_op (getConditions (r_Condition rule)).

(** The entry of a key: its rules in the order of the specification. *)
Definition rules_of (rules : list Rule) (opString : option OpCode) : list Rule :=
  List.filter (fun rule => bool_decide (ruleToOpString rule = opString)) rules.

Definition GetRulesFor (rules : list Rule) (state : st.State) : option (list Rule) :=
  match st.Code_GetOperation (st.s_Code state) (st.s_Pc state) with
  | None => None
  | Some (op, err) =>
      let opString :=
        match err with
        | Some _ => None
        | None =>
            if (st.s_Revision state =? R99_UnknownNextRevision)
               || negb (bool_decide (st.s_Status state = st.Running))
            then None else Some op
        end in
      Some (List.filter (fun rule => applies (r_Condition rule) state) (rules_of rules opString))
  end.

End Spec.
