(* ===== verification/CtAdapter.v ===== *)
(** * Running the interpreter on states of the conformance tests

    [go/ct/utils/adapter.go], which presents a state as the parameters and the
    run context of an interpreter, [go/interpreter/sfvm/ct.go], which runs
    [sfvm] on a state, and [runTest] of [go/ct/driver/run.go], which compares
    the result with the effect of a rule. *)
From Stdlib Require Import ZArith Lia Strings.Byte.
From stdpp Require Import base list numbers gmap.
From S2P Require Import Prelude Uint256 Types OpCodes SfvmStack SfvmAnalysis SfvmHashCache.
From S2P Require Import SfvmContext SfvmMemory SfvmGas SfvmInstructions SfvmInterpreter.
From S2P Require Import CtCommon CtState CtRules CtSpec.
Set Default Goal Selector "!".
Local Open Scope Z_scope.
Local Open Scope go_scope.

(** The run context: the state it adapts, whether a method that is not
    supported has panicked, and the process-wide hash cache. The readers
    [HasEmptyStorage] and [GetLogs], which panic, return a default instead; an
    interpreter does not call them. *)
Record ctRunContext := mkCtRunContext {
  w_state : st.State;
  w_panicked : bool;
  w_sha3Cache : sha3HashCache
}.

Definition w_set (s : st.State) (c : ctRunContext) : ctRunContext :=
  mkCtRunContext s (w_panicked c) (w_sha3Cache c).

(** [panic("should not be needed")]. *)
Definition w_panic (c : ctRunContext) : ctRunContext :=
  mkCtRunContext (w_state c) true (w_sha3Cache c).

Section Adapter.
Context {U : Uint256} (Keccak256 : list byte -> Hash) (Keccak256For32byte : array 32 -> Hash).

(** [cc.NewU256FromBytes(key[:]...)] of 32 bytes, which does not panic. *)
Definition word_of (key : array 32) : U256 := default (NewU256 0) (NewU256FromBytes (arr_bytes key)).

Definition ctx_SetStorage (c : ctRunContext) (_ : Address) (key : Key) (value : Word)
    : ctRunContext * StorageStatus :=
  let s := w_state c in
  let k := word_of key in
  let v := word_of value in
  let original := U256_Bytes32be (st.Storage_GetOriginal (st.s_Storage s) k) in
  let current := U256_Bytes32be (st.Storage_GetCurrent (st.s_Storage s) k) in
  (w_set (st.set_Storage (st.Storage_SetCurrent (st.s_Storage s) k v) s) c,
   GetStorageStatus original current value).

Definition ctx_SelfDestruct (c : ctRunContext) (address beneficiary : Address) : ctRunContext * bool :=
  let s := w_state c in
  if (st.s_Revision s <? R13_Cancun) || st.s_IsNewContract s then
    let s := st.set_SelfDestructedJournal
      (st.s_SelfDestructedJournal s ++ [st.NewSelfDestructEntry address beneficiary]) s in
    if st.s_HasSelfDestructed s then (w_set s c, false)
    else (w_set (st.set_HasSelfDestructed true s) c, true)
  else (c, false).

Definition ctx_AccessAccount (c : ctRunContext) (addr : Address) : ctRunContext * AccessStatus :=
  let s := w_state c in
  let warm := st.Accounts_IsWarm (st.s_Accounts s) addr in
  (w_set (st.set_Accounts (st.Accounts_MarkWarm (st.s_Accounts s) addr) s) c,
   if warm then WarmAccess else ColdAccess).

Definition ctx_AccessStorage (c : ctRunContext) (_ : Address) (key : Key) : ctRunContext * AccessStatus :=
  let s := w_state c in
  let k := word_of key in
  let isWarm := st.Storage_IsWarm (st.s_Storage s) k in
  (w_set (st.set_Storage (st.Storage_MarkWarm (st.s_Storage s) k) s) c,
   if isWarm then WarmAccess else ColdAccess).

Definition ctx_GetBlockHash (c : ctRunContext) (number : Z) : Hash :=
  let s := w_state c in
  let max := i64 (st.bc_BlockNumber (st.s_BlockContext s)) in
  let min := if max >? 256 then max -i64 256 else 0 in
  if (min >? number) || (number >=? max) then zeroWord
  else default zeroWord (HashArray_Get (st.s_RecentBlockHashes s) (u64 (max - number - 1))).

Definition ctx_EmitLog (c : ctRunContext) (log : Log) : ctRunContext :=
  let s := w_state c in
  let ctTopics := map word_of (log_Topics log) in
  w_set (st.set_Logs (st.Logs_AddLog (st.s_Logs s) (log_Data log) ctTopics) s) c.

#[local] Instance ctWorldState : WorldState ctRunContext := {|
  ws_AccountExists c addr := st.Accounts_Exists (st.s_Accounts (w_state c)) addr;
  ws_CreateContract c _ := w_panic c;
  ws_GetBalance c addr := U256_Bytes32be (st.Accounts_GetBalance (st.s_Accounts (w_state c)) addr);
  ws_SetBalance c _ _ := c;
  ws_GetNonce _ _ := 0;
  ws_SetNonce c _ _ := w_panic c;
  ws_GetCode c addr := st.Accounts_GetCode (st.s_Accounts (w_state c)) addr;
  ws_GetCodeHash c addr := st.Accounts_GetCodeHash Keccak256 (st.s_Accounts (w_state c)) addr;
  ws_GetCodeSize c addr := Bytes_Length (st.Accounts_GetCode (st.s_Accounts (w_state c)) addr);
  ws_SetCode c _ _ := w_panic c;
  ws_HasEmptyStorage _ _ := false;
  ws_GetStorage c _ key :=
    U256_Bytes32be (st.Storage_GetCurrent (st.s_Storage (w_state c)) (word_of key));
  ws_SetStorage := ctx_SetStorage;
  ws_SelfDestruct := ctx_SelfDestruct
|}.

#[local] Instance ctTransactionContext : TransactionContext ctRunContext := {|
  tc_CreateSnapshot c := (w_panic c, 0);
  tc_RestoreSnapshot c _ := w_panic c;
  tc_GetTransientStorage c _ key :=
    U256_Bytes32be (st.TransientStorage_Get (st.s_TransientStorage (w_state c)) (word_of key));
  tc_SetTransientStorage c _ key value :=
    w_set (st.set_TransientStorage (st.TransientStorage_Set (st.s_TransientStorage (w_state c))
             (word_of key) (word_of value)) (w_state c)) c;
  tc_AccessAccount := ctx_AccessAccount;
  tc_AccessStorage := ctx_AccessStorage;
  tc_EmitLog := ctx_EmitLog;
  tc_GetLogs _ := [];
  tc_GetBlockHash := ctx_GetBlockHash
|}.

Definition ctx_Call (c : ctRunContext) (kind : CallKind) (parameter : CallParameters)
    : ctRunContext * (CallResult * option error) :=
  let s := w_state c in
  let '(journal, res) := st.CallJournal_Call (st.s_CallJournal s) kind parameter in
  (w_set (st.set_CallJournal journal s) c, (res, None)).

#[local] Instance ctRunContext_instance : RunContext ctRunContext := {| rc_Call := ctx_Call |}.

#[local] Instance ctGlobals : Globals ctRunContext := {|
  g_sha3Cache := w_sha3Cache;
  g_setSha3Cache c cache := mkCtRunContext (w_state c) (w_panicked c) cache
|}.

Definition ToVmParameters (state : st.State) : Parameters :=
  let block := st.s_BlockContext state in
  let tx := st.s_TransactionContext state in
  mkParameters
    (mkBlockParameters (U256_Bytes32be (st.bc_ChainID block)) (i64 (st.bc_BlockNumber block))
      (i64 (st.bc_TimeStamp block)) (st.bc_CoinBase block) (i64 (st.bc_GasLimit block))
      (U256_Bytes32be (st.bc_PrevRandao block)) (U256_Bytes32be (st.bc_BaseFee block))
      (U256_Bytes32be (st.bc_BlobBaseFee block)) (st.s_Revision state))
    (mkTransactionParameters (st.tx_OriginAddress tx) (U256_Bytes32be (st.bc_GasPrice block))
      (st.tx_BlobHashes tx))
    Call (st.s_ReadOnly state) 0 (st.s_Gas state)
    (st.cc_AccountAddress (st.s_CallContext state)) (st.cc_CallerAddress (st.s_CallContext state))
    (st.s_CallData state) (U256_Bytes32be (st.cc_Value (st.s_CallContext state)))
    (Some (st.Code_Hash Keccak256 (st.s_Code state))) (st.Code_Copy (st.s_Code state)).

(** ** The adapter of [sfvm] *)

Definition convertSfvmStatusToCtStatus (status : status) : st.StatusCode :=
  match status with
  | statusRunning => st.Running
  | statusReturned | statusStopped => st.Stopped
  | statusReverted => st.Reverted
  | statusSelfDestructed => st.Stopped
  | statusFailed => st.Failed
  end.

(** [for i := stack.Size() - 1; i >= 0; i--], pushing [stack.Get(i)]. *)
Fixpoint convertCtStack_loop (s : st.Stack) (i : nat) (result : stack) : option stack :=
  match i with
  | O => Some result
  | S i =>
      val ← st.Stack_Get s (Z.of_nat i);
      result ← st_push result val;
      convertCtStack_loop s i result
  end.

Definition convertCtStackToSfvmStack (garbage : list u256) (s : st.Stack) : option stack :=
  convertCtStack_loop s (length (st.stack s)) (NewStack garbage).

(** [for i := range len { result.Set(len-i-1, stack.get(i)) }]; [k] elements
    are left. *)
Fixpoint convertSfvmStack_loop (s : stack) (len : Z) (k : nat) (i : Z) (result : st.Stack)
    : option st.Stack :=
  match k with
  | O => Some result
  | S k =>
      v ← st_get s i;
      result ← st.Stack_Set result (len - i - 1) v;
      convertSfvmStack_loop s len k (i + 1) result
  end.

Definition convertSfvmStackToCtStack (s : stack) (result : st.Stack) : option st.Stack :=
  let len := st_len s in
  result ← st.Stack_Resize result len;
  convertSfvmStack_loop s len (Z.to_nat len) 0 result.

Definition convertCtMemoryToSfvmMemory (memory : st.Memory) : option Memory :=
  '(data, _) ← st.Memory_Read memory 0 (u64 (st.Memory_Size memory));
  let words := SizeInWords (u64 (zlen data)) in
  let store := go_copy (zeros (words *u64 32)) data in
  Some (mkMemory store (i64 ((words *u64 words) / 512 +u64 (3 *u64 words)))).

Definition convertSfvmMemoryToCtMemory (memory : Memory) : st.Memory := st.Memory_Set [] (m_store memory).

(** The loop of [StepN]. One iteration of the interpreter's loop is enough
    for a single step. *)
Fixpoint StepN_loop (numSteps : nat) (status : status) (ctxt : context ctRunContext)
    : option (SfvmContext.status * context ctRunContext) :=
  match numSteps, status with
  | S numSteps, statusRunning =>
      match execute Keccak256 Keccak256For32byte 1 true ctxt with
      | Some (Ok status, ctxt) => StepN_loop numSteps status ctxt
      | _ => None
      end
  | _, _ => Some (status, ctxt)
  end.

(** The update of the state after the run. *)
Definition updateState (status : status) (ctxt : context ctRunContext) : option st.State :=
  let state := w_state (c_context ctxt) in
  let state := st.set_Status (convertSfvmStatusToCtStatus status) state in
  let state := match status with
               | statusRunning => st.set_Pc (u16 (c_pc ctxt)) state
               | _ => state
               end in
  let state := st.set_Gas (c_gas ctxt) state in
  let state := st.set_GasRefund (c_refund ctxt) state in
  stack ← convertSfvmStackToCtStack (c_stack ctxt) (st.s_Stack state);
  let state := st.set_Stack stack state in
  let state := st.set_Memory (convertSfvmMemoryToCtMemory (c_memory ctxt)) state in
  let state := st.set_LastCallReturnData (c_returnData ctxt) state in
  let state := match status with
               | statusReturned | statusReverted => st.set_ReturnData (c_returnData ctxt) state
               | _ => state
               end in
  if w_panicked (c_context ctxt) then None else Some state.

(** The context of a run on a state; [garbage] is what the stack of the pool
    holds. *)
Definition ctContext (config : Config) (jumpDests : jumpDestMap) (state : st.State)
    (cache : sha3HashCache) (stack : stack) (memory : Memory) : context ctRunContext :=
  let params := ToVmParameters state in
  mkContext params (mkCtRunContext state false cache) (p_Code params) jumpDests (st.s_Pc state)
    (p_Gas params) (st.s_GasRefund state) stack memory (st.s_LastCallReturnData state)
    (WithShaCache config).

Definition StepN `{LRU jumpDestMap C} (vm : sfvm C) (cache : sha3HashCache) (garbage : list u256)
    (state : st.State) (numSteps : nat) : option (st.State * option error) :=
  let params := ToVmParameters state in
  if bp_Revision (p_Block params) >? newestSupportedRevision
  then Some (state, Some (ErrUnsupportedRevision (bp_Revision (p_Block params))))
  else if negb (bool_decide (st.s_Status state = st.Running)) then Some (state, None)
  else
    memory ← convertCtMemoryToSfvmMemory (st.s_Memory state);
    stack ← convertCtStackToSfvmStack garbage (st.s_Stack state);
    let '(_, jumpDests) := analyzeJumpDest (vm_analysis vm) (p_Code params) (p_CodeHash params) in
    let ctxt := ctContext (vm_config vm) jumpDests state cache stack memory in
    '(status, ctxt) ← StepN_loop numSteps statusRunning ctxt;
    state ← updateState status ctxt;
    Some (state, None).

(** ** A test *)

(** The outcome of a test on an implementation. *)
Inductive TestResult := TestPassed | TestNoRule | TestError (err : error) | TestFailed (got expected : st.State).

(** [runTest] without a filter; [step] is [evm.StepN(state, 1)], [pool1] and
    [pool2] are the stacks the pool returns for the two clones. *)
Definition runTest (rules : list Rule) (step : st.State -> option (st.State * option error))
    (pool1 pool2 : st.Stack) (input : st.State) : option TestResult :=
  rules ← GetRulesFor rules input;
  match rules with
  | [] => Some TestNoRule
  | rule :: _ =>
      expected ← st.State_Clone pool1 input;
      expected ← r_Effect rule expected;
      clone ← st.State_Clone pool2 input;
      '(result, err) ← step clone;
      match err with
      | Some err => Some (TestError err)
      | None => Some (if st.State_Eq Keccak256 result expected then TestPassed
                      else TestFailed result expected)
      end
  end.

End Adapter.
