(* ===== verification/CtStateFacts.v ===== *)
(** * Facts about the states of the conformance tests

    The stack as a list with the top first, the instruction boundaries that
    [NewCode] computes, and the equality of states, which is an equivalence
    relation that ignores what an execution cannot observe. *)
From Stdlib Require Import ZArith Lia Strings.Byte.
From stdpp Require Import base list numbers gmap.
From S2P Require Import Prelude Uint256 Types OpCodes SfvmAnalysis CtCommon CtState.
Set Default Goal Selector "!".
Local Open Scope Z_scope.
Local Open Scope go_scope.

(** ** Stacks, top first *)

Definition mkS (l sp : list U256) : st.Stack := st.mkStack (reverse l) sp.

Lemma mkS_eta s : s = mkS (reverse (st.stack s)) (st.spare s).
Proof. unfold mkS. rewrite reverse_involutive. by destruct s. Qed.

Lemma Stack_Size_mkS l sp : st.Stack_Size (mkS l sp) = zlen l.
Proof. unfold st.Stack_Size, zlen. cbn. by rewrite length_reverse. Qed.

Lemma Stack_Get_mkS l sp (i : nat) x : l !! i = Some x -> st.Stack_Get (mkS l sp) (Z.of_nat i) = Some x.
Proof.
  intros H. pose proof (lookup_lt_Some _ _ _ H). unfold st.Stack_Get. rewrite Stack_Size_mkS.
  rewrite (proj2 (Z.leb_le 0 _)) by zblia. cbn. unfold zlen.
  rewrite reverse_lookup by lia. rewrite <-H. f_equal. lia.
Qed.

Lemma Stack_Pop_mkS x l sp : st.Stack_Pop (mkS (x :: l) sp) = Some (x, mkS l (x :: sp)).
Proof.
  unfold st.Stack_Pop. pose proof (Stack_Get_mkS (x :: l) sp 0 x eq_refl) as Hg.
  change (Z.of_nat 0) with 0 in Hg. rewrite Hg. cbn [mbind option_bind].
  rewrite Stack_Size_mkS. unfold st.Stack_reslice. cbn [st.stack st.spare mkS].
  rewrite reverse_cons. unfold zlen. rewrite !length_app, length_reverse. cbn [length].
  rewrite (proj2 (Z.leb_le 0 _)), (proj2 (Z.leb_le _ (Z.of_nat _))) by lia. cbn [andb mbind option_bind].
  rewrite <-app_assoc. unfold mkS. do 3 f_equal.
  - apply take_app_length'. rewrite length_reverse. lia.
  - apply drop_app_length'. rewrite length_reverse. lia.
Qed.

Lemma Stack_Push_mkS v l sp : st.Stack_Push (mkS l sp) v = mkS (v :: l) (tail sp).
Proof. unfold st.Stack_Push, mkS. cbn [st.stack st.spare]. by rewrite reverse_cons. Qed.

Lemma Stack_Set_mkS l sp (i : nat) v : (i < length l)%nat ->
  st.Stack_Set (mkS l sp) (Z.of_nat i) v = Some (mkS (<[i := v]> l) sp).
Proof.
  intros H. unfold st.Stack_Set. rewrite Stack_Size_mkS. unfold zlen.
  rewrite (proj2 (Z.leb_le 0 _)), (proj2 (Z.ltb_lt _ _)) by lia. cbn. unfold mkS. do 2 f_equal.
  apply list_eq. intros j. destruct (decide (j < length l)%nat) as [Hj|Hj].
  2: { rewrite !lookup_ge_None_2; [done|..]; rewrite ?length_insert, ?length_reverse, ?length_insert; lia. }
  rewrite reverse_lookup by (rewrite length_insert; lia). rewrite length_insert.
  destruct (decide (j = Z.to_nat (Z.of_nat (length l) - Z.of_nat i - 1))) as [->|Hne].
  - rewrite list_lookup_insert_eq by (rewrite length_reverse; lia).
    replace (_ - S _)%nat with i by lia. by rewrite list_lookup_insert_eq.
  - rewrite list_lookup_insert_ne by done. rewrite list_lookup_insert_ne by lia.
    by rewrite reverse_lookup by lia.
Qed.

Lemma set_Stack_twice a b s : st.set_Stack a (st.set_Stack b s) = st.set_Stack a s.
Proof. done. Qed.

(** ** Instruction boundaries *)

Lemma steps_to_le code i j : steps_to code i j -> i <= j.
Proof. induction 1 as [|i op j _ _ IH]; [done|]. pose proof (Width_range op). lia. Qed.

(** Between an instruction and the next there is no boundary. *)
Lemma steps_to_gap code i pc op j : steps_to code i pc -> code !! Z.to_nat pc = Some op ->
  pc < j < pc + Width op -> steps_to code i j -> False.
Proof.
  intros Hp Ho Hj. induction Hp as [pc|i op' pc Ho' Hp IH]; intros Hs; inversion Hs as [|? op2 ? Ho2 Hs2]; subst.
  - lia.
  - rewrite Ho in Ho2. injection Ho2 as <-. apply steps_to_le in Hs2. lia.
  - apply steps_to_le in Hp. pose proof (Width_range op'). lia.
  - rewrite Ho' in Ho2. injection Ho2 as <-. by apply IH.
Qed.

Lemma NewCode_loop_spec fuel code i acc : zlen acc = i -> zlen code <= i + Z.of_nat fuel ->
  let r := st.NewCode_loop fuel code i acc in
  (exists t, r = acc ++ t)
  /\ zlen code <= zlen r
  /\ (forall j, i <= j < zlen r -> r !! Z.to_nat j = Some true <-> steps_to code i j)
  /\ (forall j op, steps_to code i j -> code !! Z.to_nat j = Some op -> j + Width op <= zlen r).
Proof.
  revert i acc. induction fuel as [|fuel IH]; intros i acc Hi Hf; cbn [st.NewCode_loop].
  all: assert (code !! Z.to_nat i = None -> (exists t, acc = acc ++ t) /\ zlen code <= zlen acc
    /\ (forall j, i <= j < zlen acc -> acc !! Z.to_nat j = Some true <-> steps_to code i j)
    /\ (forall j op, steps_to code i j -> code !! Z.to_nat j = Some op -> j + Width op <= zlen acc)) as Hend.
  1,3: intros Hn; pose proof Hn as Hn'; apply lookup_ge_None_1 in Hn; split_and!;
    [exists []; by rewrite app_nil_r|zblia|intros; lia|];
    intros j op Hs Ho; destruct Hs as [|i op' j Ho' _]; congruence.
  { apply Hend, lookup_ge_None_2. pose proof (zlen_nonneg acc). zblia. }
  destruct (code !! Z.to_nat i) as [op|] eqn:Ho; [|by apply Hend]. clear Hend.
  pose proof (zlen_nonneg acc). pose proof (Width_range op) as HW.
  assert (exists k, Width op = 1 + Z.of_nat k /\
    (if op_in PUSH1 PUSH32 op
     then st.NewCode_loop fuel code (i + (byte_val op - byte_val PUSH1 + 1) + 1)
       ((acc ++ [true]) ++ replicate (Z.to_nat (byte_val op - byte_val PUSH1 + 1)) false)
     else st.NewCode_loop fuel code (i + 1) (acc ++ [true]))
    = st.NewCode_loop fuel code (i + Width op) (acc ++ true :: replicate k false)) as (k & Hk & ->).
  { destruct (op_in PUSH1 PUSH32 op) eqn:Hp.
    - destruct (Width_push op Hp) as [Hw _].
      exists (Z.to_nat (byte_val op - byte_val PUSH1 + 1)). split; [lia|]. rewrite <-app_assoc. f_equal. lia.
    - assert (Width op = 1) as Hw by (unfold Width; by rewrite Hp). exists 0%nat. by rewrite Hw. }
  destruct (IH (i + Width op) (acc ++ true :: replicate k false)) as ((t & Ht) & Hc & Hb & He).
  { rewrite zlen_app, zlen_cons. unfold zlen in *. rewrite length_replicate. lia. }
  { lia. }
  set (r := st.NewCode_loop _ _ _ _) in *. split_and!; [|done|..].
  - exists ((true :: replicate k false) ++ t). by rewrite Ht, <-app_assoc.
  - intros j Hj. destruct (Z.lt_ge_cases j (i + Width op)) as [Hlt|Hge].
    + rewrite Ht, <-app_assoc, lookup_app_r by zblia. unfold zlen in Hi.
      destruct (Z.eq_dec j i) as [->|Hne].
      * replace (Z.to_nat i - length acc)%nat with 0%nat by lia. split; [constructor|done].
      * replace (Z.to_nat j - length acc)%nat with (S (Z.to_nat (j - i - 1))) by lia.
        rewrite lookup_app_l by (cbn [length]; rewrite length_replicate; lia).
        change (replicate k false !! Z.to_nat (j - i - 1) = Some true <-> steps_to code i j).
        rewrite lookup_replicate_2 by lia. split; [done|]. intros Hs. exfalso.
        apply (steps_to_gap code i i op j); [constructor|done|lia|done].
    + rewrite Hb by lia. split; [by apply steps_next|]. intros Hs.
      destruct Hs as [|i op' j Ho' Hs]; [lia|]. congruence.
  - intros j op' Hs Ho'. destruct Hs as [|i op2 j Ho2 Hs]; [|rewrite Ho in Ho2; injection Ho2 as <-; by apply He].
    rewrite Ho in Ho'. injection Ho' as <-. rewrite Ht, !zlen_app, zlen_cons.
    pose proof (zlen_nonneg t). unfold zlen in *. rewrite length_replicate. lia.
Qed.

(** What [NewCode] records. *)
Lemma NewCode_isCode code : let c := st.NewCode code in
  zlen code <= zlen (st.isCode c)
  /\ (forall pos, 0 <= pos < zlen (st.isCode c) -> st.Code_IsCode c pos = true <-> instr_start code pos)
  /\ (forall pos op, instr_start code pos -> code !! Z.to_nat pos = Some op ->
        pos + Width op <= zlen (st.isCode c)).
Proof.
  destruct (NewCode_loop_spec (length code) code 0 []) as (_ & Hc & Hb & He); [done|zblia|].
  cbv zeta in *. unfold st.NewCode. cbn. split_and!; [done| |done].
  intros pos Hp. unfold st.Code_IsCode. cbn.
  rewrite (proj2 (Z.ltb_ge _ _)), Z.geb_leb, (proj2 (Z.leb_gt _ _)) by lia. cbn.
  unfold instr_start. rewrite <-Hb by lia. set (r := st.NewCode_loop _ _ _ _) in *.
  destruct (lookup_lt_is_Some_2 r (Z.to_nat pos)) as [b Hl]; [zblia|]. rewrite Hl. cbn. split; congruence.
Qed.

Lemma NewCode_code code : st.code (st.NewCode code) = code.
Proof. done. Qed.

(** The operation at a position of the code. *)
Lemma GetOperation_NewCode code pos op : 0 <= pos ->
  st.Code_GetOperation (st.NewCode code) pos = Some (op, None) ->
  (op = STOP /\ zlen code <= pos) \/ (code !! Z.to_nat pos = Some op /\ instr_start code pos).
Proof.
  intros Hp. destruct (NewCode_isCode code) as (Hl & Hb & _). unfold st.Code_GetOperation.
  rewrite (proj2 (Z.ltb_ge pos 0)), Z.geb_leb by lia. cbn [orb].
  destruct (Z.leb_spec (zlen (st.isCode (st.NewCode code))) pos); [intros [= <-]; left; split; [done|lia]|].
  destruct (st.Code_IsCode _ pos) eqn:E; cbn [negb]; [|done]. rewrite NewCode_code.
  destruct (code !! Z.to_nat pos); [|done]. intros [= ->]. right. split; [done|]. apply Hb; [lia|done].
Qed.

(** The bytes after a push are data. *)
Lemma GetData_NewCode code pc op j : instr_start code pc -> code !! Z.to_nat pc = Some op ->
  0 <= pc -> pc < j < pc + Width op ->
  st.Code_GetData (st.NewCode code) j = Some (default x00 (code !! Z.to_nat j), None).
Proof.
  intros Hs Ho Hp Hj. destruct (NewCode_isCode code) as (Hl & Hb & He).
  pose proof (He _ _ Hs Ho). unfold st.Code_GetData, st.Code_IsData.
  destruct (st.Code_IsCode (st.NewCode code) j) eqn:E.
  { exfalso. apply Hb in E; [|lia]. by apply (steps_to_gap code 0 pc op j). }
  cbn [negb]. rewrite NewCode_code, Z.geb_leb. destruct (Z.leb_spec (zlen code) j).
  - by rewrite lookup_ge_None_2 by zblia.
  - destruct (lookup_lt_is_Some_2 code (Z.to_nat j)) as [b ->]; [zblia|]. done.
Qed.

(** ** The equality of states *)

Section StateEq.
Context {U : Uint256} {UL : Uint256Laws U} (Keccak256 : list byte -> Hash).

Lemma U256_IsZero_spec a : U256_IsZero a = bool_decide (a = NewU256 0).
Proof.
  unfold U256_IsZero. rewrite IsZero_law. destruct (Z.eqb_spec (uval a) 0) as [E|E].
  - rewrite bool_decide_eq_true_2; [done|]. apply u256_eq. by rewrite NewU256_uval.
  - rewrite bool_decide_eq_false_2; [done|]. intros ->. by rewrite NewU256_uval in E.
Qed.

(** Missing entries and zeros are not distinguished. *)
Lemma mapEqualIgnoringZeroValues_spec `{Countable K} (a b : gmap K U256) :
  st.mapEqualIgnoringZeroValues a b = true <-> forall k, st.map_get a k = st.map_get b k.
Proof.
  unfold st.mapEqualIgnoringZeroValues. rewrite andb_true_iff, !forallb_forall. split.
  - intros [Ha Hb] k. destruct (a !! k) as [v|] eqn:Ea.
    + specialize (Ha (k, v)). rewrite <-list_elem_of_In, elem_of_map_to_list in Ha. specialize (Ha Ea).
      cbn in Ha. destruct (_ && _); [done|]. apply bool_decide_eq_true in Ha.
      unfold st.map_get at 1. by rewrite Ea.
    + unfold st.map_get. rewrite Ea. cbn. destruct (b !! k) as [v|] eqn:Eb; [|done].
      specialize (Hb (k, v)). rewrite <-list_elem_of_In, elem_of_map_to_list in Hb. specialize (Hb Eb).
      cbn in Hb. rewrite Ea, (bool_decide_eq_false_2 (is_Some None)) in Hb by (by intros []).
      cbn in Hb. rewrite negb_involutive, U256_IsZero_spec in Hb. by apply bool_decide_eq_true in Hb.
  - intros Hk. split; intros [k v]; rewrite <-list_elem_of_In, elem_of_map_to_list; intros E;
      specialize (Hk k); unfold st.map_get in *; rewrite E in Hk; cbn in *.
    + rewrite <-Hk, (bool_decide_eq_true_2 (v = v)) by done. destruct (b !! k) as [w|]; cbn in *.
      * done.
      * subst v. by rewrite U256_IsZero_spec, (bool_decide_eq_true_2 (_ = _)).
    + destruct (a !! k) as [w|]; cbn in *; [done|].
      subst v. by rewrite U256_IsZero_spec, (bool_decide_eq_true_2 (_ = _)).
Qed.

Lemma Logs_Eq_spec l other : st.Logs_Eq l other = true <-> l = other.
Proof.
  unfold st.Logs_Eq. destruct (Z.eqb_spec (zlen l) (zlen other)) as [E|E]; cbn [negb].
  2: { split; [done|]. by intros ->. }
  revert other E. induction l as [|[t d] l IH]; intros [|[t' d'] other] E; cbn; try (by unfold zlen in E).
  rewrite !zlen_cons in E. destruct (decide (t = t')) as [->|Ht].
  - rewrite bool_decide_eq_true_2 by done. cbn. destruct (decide (d = d')) as [->|Hd].
    + rewrite bool_decide_eq_true_2 by done. cbn. rewrite IH by lia. split; [by intros ->|by intros [= ->]].
    + rewrite bool_decide_eq_false_2 by done. split; [done|]. by intros [= ? ?].
  - rewrite bool_decide_eq_false_2 by done. split; [done|]. by intros [= ? ?].
Qed.

Definition hashes_of (h : ImmutableHashArray) : list Hash := default zeroHashes (ha_data h).

Lemma HashArray_Equal_spec a b : HashArray_Equal a b = true <-> hashes_of a = hashes_of b.
Proof.
  unfold HashArray_Equal, hashes_of. destruct (ha_data a), (ha_data b); cbn [from_option];
    rewrite ?bool_decide_eq_true; done.
Qed.

(** What all states that have not failed must agree on. *)
Record equivalent (s t : st.State) : Prop := {
  eq_code : st.code (st.s_Code s) = st.code (st.s_Code t);
  eq_revision : st.s_Revision s = st.s_Revision t;
  eq_readOnly : st.s_ReadOnly s = st.s_ReadOnly t;
  eq_gas : st.s_Gas s = st.s_Gas t;
  eq_refund : st.s_GasRefund s = st.s_GasRefund t;
  eq_callContext : st.s_CallContext s = st.s_CallContext t;
  eq_past : st.Past (st.s_CallJournal s) = st.Past (st.s_CallJournal t);
  eq_future : st.Future (st.s_CallJournal s) = st.Future (st.s_CallJournal t);
  eq_block : st.s_BlockContext s = st.s_BlockContext t;
  eq_callData : st.s_CallData s = st.s_CallData t;
  eq_current k : st.Storage_GetCurrent (st.s_Storage s) k = st.Storage_GetCurrent (st.s_Storage t) k;
  eq_original : st.original (st.s_Storage s) = st.original (st.s_Storage t);
  eq_warm : st.warm (st.s_Storage s) = st.warm (st.s_Storage t);
  eq_transient k :
    st.TransientStorage_Get (st.s_TransientStorage s) k = st.TransientStorage_Get (st.s_TransientStorage t) k;
  eq_accounts : st.accounts (st.s_Accounts s) = st.accounts (st.s_Accounts t);
  eq_warmAccounts : st.warmAccounts (st.s_Accounts s) = st.warmAccounts (st.s_Accounts t);
  eq_logs : st.s_Logs s = st.s_Logs t;
  eq_isNew : st.s_IsNewContract s = st.s_IsNewContract t;
  eq_destructed : st.s_HasSelfDestructed s = st.s_HasSelfDestructed t;
  eq_destructions : st.s_SelfDestructedJournal s = st.s_SelfDestructedJournal t;
  eq_hashes : hashes_of (st.s_RecentBlockHashes s) = hashes_of (st.s_RecentBlockHashes t);
  eq_origin : st.tx_OriginAddress (st.s_TransactionContext s) = st.tx_OriginAddress (st.s_TransactionContext t);
  eq_blobs : st.tx_BlobHashes (st.s_TransactionContext s) = st.tx_BlobHashes (st.s_TransactionContext t)
}.

Lemma State_equivalent_spec s t : st.State_equivalent Keccak256 s t = true <-> equivalent s t.
Proof.
  unfold st.State_equivalent, st.Code_Eq, st.CallJournal_Equal, st.Storage_Eq, st.TransientStorage_Eq,
    st.Accounts_Eq, st.TransactionContext_Eq, st.Code_Hash. cbv zeta.
  rewrite !andb_true_iff, !bool_decide_eq_true, !Z.eqb_eq, !Bool.eqb_true_iff, Logs_Eq_spec,
    HashArray_Equal_spec, !arr_eqb_eq, !mapEqualIgnoringZeroValues_spec.
  split.
  - intros H. repeat match goal with H : _ /\ _ |- _ => destruct H end. by constructor.
  - intros []. split_and!; try done. by rewrite eq_code0.
Qed.

(** Program counters beyond the code are not distinguished. *)
Definition same_pc (size a b : Z) : Prop := a = b \/ (size <= a /\ size <= b).

Definition state_equiv (s t : st.State) : Prop :=
  st.s_Status s = st.s_Status t /\
  match st.s_Status s with
  | st.Failed => True
  | st.Running =>
      equivalent s t
      /\ same_pc (zlen (st.code (st.s_Code s)) mod 2 ^ 16) (st.s_Pc s) (st.s_Pc t)
      /\ st.stack (st.s_Stack s) = st.stack (st.s_Stack t)
      /\ st.s_Memory s = st.s_Memory t
      /\ st.s_LastCallReturnData s = st.s_LastCallReturnData t
  | _ => equivalent s t /\ st.s_ReturnData s = st.s_ReturnData t
  end.

Lemma State_Eq_spec s t : st.State_Eq Keccak256 s t = true <-> state_equiv s t.
Proof.
  unfold st.State_Eq, state_equiv, st.Stack_Eq, st.Memory_Eq, same_pc, st.Code_Length.
  destruct (decide (st.s_Status s = st.s_Status t)) as [E|E].
  2: { rewrite bool_decide_eq_false_2 by done. split; [done|]. by intros []. }
  rewrite (bool_decide_eq_true_2 (st.s_Status s = st.s_Status t)) by done. rewrite <-E. cbn [negb].
  destruct (st.s_Status s).
  - rewrite !(bool_decide_eq_false_2 (st.Running = st.Failed)) by done.
    rewrite bool_decide_eq_true_2 by done. cbn [andb negb].
    rewrite !andb_true_iff, orb_true_iff, andb_true_iff, !bool_decide_eq_true, State_equivalent_spec,
      Z.eqb_eq, !Z.geb_leb, !Z.leb_le. tauto.
  - rewrite !bool_decide_eq_false_2 by done. cbn [andb negb].
    rewrite andb_true_iff, bool_decide_eq_true, State_equivalent_spec. tauto.
  - rewrite !bool_decide_eq_false_2 by done. cbn [andb negb].
    rewrite andb_true_iff, bool_decide_eq_true, State_equivalent_spec. tauto.
  - rewrite !bool_decide_eq_true_2 by done. cbn [andb]. tauto.
Qed.

#[local] Instance equivalent_equivalence : Equivalence equivalent.
Proof.
  split.
  - by intros s.
  - intros s t []. by constructor.
  - intros s t u [] []. constructor; try congruence; intros k; etransitivity; eauto.
Qed.

Lemma state_equiv_equivalence : Equivalence state_equiv.
Proof.
  split.
  - intros s. split; [done|]. unfold same_pc. destruct (st.s_Status s); split_and?; auto; reflexivity.
  - intros s t [E H]. split; [done|]. rewrite <-E. destruct (st.s_Status s); [|by destruct H..|done].
    destruct H as (He & Hp & ?). split_and!; try (symmetry; tauto).
    rewrite <-(eq_code _ _ He). unfold same_pc in *. destruct Hp as [->|[]]; auto.
  - intros s t u [E H] [E' H']. rewrite <-E in *. split; [congruence|].
    destruct (st.s_Status s); [..|done].
    + destruct H as (He & Hp & ? & ? & ?), H' as (He' & Hp' & ? & ? & ?).
      rewrite <-(eq_code _ _ He) in Hp'. unfold same_pc in *.
      split_and!; [by etransitivity| |congruence..]. lia.
    + destruct H, H'. split; [by etransitivity|congruence].
    + destruct H, H'. split; [by etransitivity|congruence].
Qed.

End StateEq.
