(* ===== verification/CtExec.v ===== *)
(** * Exact execution of the interpreter

    Rules that execute the computations of [sfvm] symbolically: the context is
    described completely ([exact]), and a computation that fails must do so
    for a reason [F] the caller states. The memory operations are described in
    terms of the memory of the conformance tests, whose costs are shown to be
    those of the interpreter. *)
From Stdlib Require Import ZArith Lia Strings.Byte.
From stdpp Require Import base list numbers.
From S2P Require Import Prelude Uint256 Types OpCodes SfvmStack SfvmAnalysis SfvmHashCache.
From S2P Require Import SfvmContext SfvmMemory SfvmGas SfvmInstructions SfvmInterpreter SfvmLogic.
From S2P Require Import CtCommon CtState.
Set Default Goal Selector "!".
Local Open Scope Z_scope.
Local Open Scope go_scope.

(** ** The two memories *)

Section Memories.
Context {U : Uint256} {UL : Uint256Laws U}.

(** A memory of the tests that an execution can have produced. *)
Definition ct_mem (m : st.Memory) : Prop :=
  exists words, zlen m = 32 * words /\ 0 <= 32 * words <= maxMemoryExpansionSize.

Lemma calcMemoryCost_exact size : 0 <= size <= maxMemoryExpansionSize ->
  st.calcMemoryCost size = let w := (size + 31) / 32 in w * w / 512 + 3 * w.
Proof.
  intros H. cbv zeta. unfold st.calcMemoryCost. set (w := (size + 31) / 32).
  assert ((if negb (size mod 32 =? 0) then size / 32 +u64 1 else size / 32) = w) as ->.
  { unfold maxMemoryExpansionSize in H. case_if.
    - rewrite u64_id by (unfold isU64; divlia). unfold w. divlia.
    - unfold w. divlia. }
  assert (0 <= 32 * w <= maxMemoryExpansionSize) as Hw by (unfold w, maxMemoryExpansionSize in *; divlia).
  destruct (memoryCost_exact w Hw) as [Hc Hr]. unfold memoryCost in Hc. rewrite Hc.
  apply i64_id. unfold isI64. lia.
Qed.

(** The result of [ExpansionCosts] by cases. *)
Lemma ExpansionCosts_spec m offset size : ct_mem m ->
  st.Memory_ExpansionCosts m offset size =
    if negb (Int_IsUint64 size) then (MaxInt64, 0, 0)
    else if negb (Int_IsUint64 offset) then (if uval size =? 0 then 0 else MaxInt64, 0, 0)
    else
      (if uval size =? 0 then 0
       else if uval offset + uval size <=? zlen m then 0
       else if uval offset + uval size >? maxMemoryExpansionSize then MaxInt64
       else let w := (uval offset + uval size + 31) / 32 in
            let w0 := zlen m / 32 in
            w * w / 512 + 3 * w - (w0 * w0 / 512 + 3 * w0), uval offset, uval size).
Proof.
  intros (w0 & Hl & Hb). unfold st.Memory_ExpansionCosts, U256_IsUint64, U256_IsZero, U256_Uint64.
  rewrite IsZero_law. case_if; [done|]. case_if; [by case_if|].
  rewrite !Uint64_exact by (by destruct (Int_IsUint64 _)).
  case_if; [done|]. pose proof (Uint64_range offset) as Ho. pose proof (Uint64_range size) as Hs.
  rewrite Uint64_exact in Ho, Hs by (by destruct (Int_IsUint64 _)).
  unfold MaxUint64, st.Memory_Size, maxMemoryExpansionSize, st.MaxMemoryExpansionSize in *.
  rewrite !(u64_id (_ - _)) by zblia.
  destruct (Z.le_gt_cases (2 ^ 64) (uval offset + uval size)) as [Hov|Hov].
  { rewrite (proj2 (orb_true_iff _ _)) by (left; apply Z.gtb_lt; zblia).
    rewrite (proj2 (Z.leb_gt _ _)), (proj2 (Z.gtb_lt _ _)) by zblia. done. }
  rewrite (proj2 (orb_false_iff _ _)) by (split; rewrite Z.gtb_ltb; apply Z.ltb_ge; zblia).
  rewrite (u64_id (_ + _)), (u64_id (zlen m)) by zblia.
  case_if; [done|]. case_if; [done|]. b2p.
  rewrite !calcMemoryCost_exact by (unfold maxMemoryExpansionSize; zblia). cbv zeta.
  replace ((zlen m + 31) / 32) with w0 by divlia. replace (zlen m / 32) with w0 by divlia.
  destruct (memoryCost_exact ((uval offset + uval size + 31) / 32)) as [_ H1];
    [unfold maxMemoryExpansionSize; divlia|].
  destruct (memoryCost_exact w0) as [_ H2]; [unfold maxMemoryExpansionSize; lia|].
  rewrite i64_id; [done|]. unfold isI64. lia.
Qed.

Lemma Memory_Grow_ok m offset size : ct_mem m -> 0 <= offset -> 0 < size ->
  offset + size <= maxMemoryExpansionSize ->
  ct_mem (st.Memory_Grow m offset size)
  /\ offset + size <= zlen (st.Memory_Grow m offset size)
  /\ st.Memory_Grow m offset size =
       m ++ zeros (32 * ((offset + size + 31) / 32) - zlen m).
Proof.
  intros (w & Hl & Hb) Ho Hs Hm. unfold st.Memory_Grow, st.Memory_Size, maxMemoryExpansionSize in *.
  rewrite (proj2 (Z.eqb_neq size 0)), (u64_id (offset + size)), (u64_id (zlen m)) by zblia.
  rewrite Z.gtb_ltb. destruct (Z.ltb_spec (zlen m) (offset + size)) as [Hlt|Hge].
  - rewrite SizeInWords_spec by zblia. set (words := (offset + size + 31) / 32).
    assert (offset + size <= 32 * words < offset + size + 32) as Hw by (unfold words; divlia).
    assert (32 * words <= 0x1FFFFFFFE0) by (unfold words; divlia).
    rewrite (u64_id (words * 32)), u64_id by zblia. rewrite (Z.mul_comm words 32). split_and!; [|..|done].
    + exists words. rewrite zlen_app, zlen_zeros by lia. unfold maxMemoryExpansionSize. lia.
    + rewrite zlen_app, zlen_zeros by lia. lia.
  - split_and!; [exists w; unfold maxMemoryExpansionSize; lia|lia|].
    replace (zeros _) with (@nil byte); [by rewrite app_nil_r|]. unfold zeros.
    replace (Z.to_nat _) with O; [done|]. divlia.
Qed.

Lemma Memory_Grow_zero m offset : st.Memory_Grow m offset 0 = m.
Proof. done. Qed.

End Memories.

(** ** The description of a context *)

Section Exec.
Context {W : Type} {U : Uint256} {UL : Uint256Laws U} {RC : RunContext W} {G : Globals W}.
Implicit Types (c : context W) (F : Prop).

(** [exact c0 w pc g r l m d c]: the inputs are those of [c0], the rest is as
    given. *)
Record exact (c0 : context W) (w : W) (pc g r : Z) (l : list u256) (m : list byte) (d : Data)
    (c : context W) : Prop := {
  ex_params : c_params c = c_params c0;
  ex_code : c_code c = c_code c0;
  ex_analysis : c_analysis c = c_analysis c0;
  ex_sha : c_withShaCache c = c_withShaCache c0;
  ex_context : c_context c = w;
  ex_pc : c_pc c = pc;
  ex_gas : c_gas c = g;
  ex_max : 0 <= g < MaxInt64;
  ex_refund : c_refund c = r;
  ex_stack : stack_wf (c_stack c);
  ex_view : stack_view (c_stack c) = l;
  ex_mem : mem_wf (c_memory c);
  ex_store : m_store (c_memory c) = m;
  ex_data : c_returnData c = d
}.

Lemma exact_len c0 w pc g r l m d c : exact c0 w pc g r l m d c -> st_len (c_stack c) = zlen l.
Proof. intros []. rewrite <-ex_view0. symmetry. by apply view_length. Qed.

Lemma exact_zlen c0 w pc g r l m d c : exact c0 w pc g r l m d c -> zlen l <= 1024.
Proof.
  intros H. pose proof (exact_len _ _ _ _ _ _ _ _ _ H) as Hl. destruct H. destruct ex_stack0.
  unfold st_len, maxStackSize in *. lia.
Qed.

Lemma exact_revision c0 w pc g r l m d c rev : exact c0 w pc g r l m d c ->
  isAtLeast rev c = (revision c0 >=? rev).
Proof. intros []. unfold isAtLeast, revision. by rewrite ex_params0. Qed.

Lemma exact_ct_mem c0 w pc g r l m d c : exact c0 w pc g r l m d c -> ct_mem m.
Proof. intros []. destruct ex_mem0 as (words & Hl & Hb & _). exists words. by rewrite <-ex_store0. Qed.

(** *** Stack *)

Section Primitives.
Context (F : Prop) (c0 : context W) (w : W) (pc g r : Z) (m : list byte) (d : Data) (c : context W).
Abbreviation at_ l := (exact c0 w pc g r l m d).
Abbreviation EF := (fun _ : context W => F).

Lemma e_pop x l Q : at_ (x :: l) c -> (forall c', at_ l c' -> Q x c') -> wp pop Q EF c.
Proof.
  intros [] HQ. unfold pop. apply wp_bind, wp_gets.
  destruct (st_pop_view _ _ _ ex_stack0 ex_view0) as (s' & Hs & Hw & Hv & _).
  apply wp_bind. eapply wp_lift_option; [exact Hs|]. apply wp_bind, wp_modify, wp_ret. apply HQ. by constructor.
Qed.

Lemma e_peek x l Q : at_ (x :: l) c -> Q x c -> wp peek Q EF c.
Proof.
  intros [] HQ. unfold peek. apply wp_bind, wp_gets. eapply wp_lift_option; [by eapply st_peek_view|]. done.
Qed.

Lemma e_peekN l (n : nat) x Q : at_ l c -> l !! n = Some x -> Q x c -> wp (peekN (Z.of_nat n)) Q EF c.
Proof.
  intros [] Hx HQ. unfold peekN. apply wp_bind, wp_gets. subst l.
  eapply wp_lift_option; [by apply st_peekN_view|]. done.
Qed.

Lemma e_setTop x v l Q : at_ (x :: l) c -> (forall c', at_ (v :: l) c' -> Q tt c') -> wp (setTop v) Q EF c.
Proof.
  intros [] HQ. unfold setTop. apply wp_bind, wp_gets.
  destruct (st_setTop_view _ _ _ v ex_stack0 ex_view0) as (s' & Hs & Hw & Hv & _).
  apply wp_bind. eapply wp_lift_option; [exact Hs|]. apply wp_modify. apply HQ. by constructor.
Qed.

Lemma e_push v l Q : at_ l c -> zlen l < 1024 -> (forall c', at_ (v :: l) c' -> Q tt c') ->
  wp (push v) Q EF c.
Proof.
  intros H Hl HQ. pose proof (exact_len _ _ _ _ _ _ _ _ _ H). destruct H. unfold push.
  apply wp_bind, wp_gets.
  destruct (st_push_view _ v ex_stack0) as (s' & Hs & Hw & Hv & _); [unfold maxStackSize; lia|].
  apply wp_bind. eapply wp_lift_option; [exact Hs|]. apply wp_modify. apply HQ.
  constructor; cbn; try done. by rewrite Hv, ex_view0.
Qed.

Lemma e_pushUndefined l Q : at_ l c -> zlen l < 1024 -> (forall x c', at_ (x :: l) c' -> Q tt c') ->
  wp pushUndefined Q EF c.
Proof.
  intros H Hl HQ. pose proof (exact_len _ _ _ _ _ _ _ _ _ H) as Hlen. destruct H. unfold pushUndefined.
  apply wp_bind, wp_gets. destruct (st_read_wf (c_stack c) (st_len (c_stack c))) as [x Hx];
    [done|pose proof (zlen_nonneg l); unfold maxStackSize; lia|].
  unfold st_pushUndefined. unfold st_len in *. rewrite Hx.
  apply wp_bind. eapply wp_lift_option; [reflexivity|]. apply wp_modify. apply (HQ x).
  destruct ex_stack0 as [Hd Hs]. constructor; cbn; try done.
  - split; cbn; [done|]. unfold maxStackSize. lia.
  - rewrite <-ex_view0. unfold stack_view. cbn. rewrite Z2Nat.inj_add, Nat.add_1_r by lia.
    unfold st_read in Hx. rewrite (proj2 (Z.leb_le 0 _)) in Hx by lia.
    by rewrite (take_S_r _ _ x), reverse_snoc.
Qed.

End Primitives.

Lemma e_pushValue F c0 w pc g r l m d c v Q : exact c0 w pc g r l m d c -> zlen l < 1024 ->
  (forall c', exact c0 w pc g r (v :: l) m d c' -> Q tt c') -> wp (pushValue v) Q (fun _ => F) c.
Proof.
  intros H Hl HQ. unfold pushValue. apply wp_bind. eapply e_pushUndefined; [exact H|done|].
  intros x c' H'. by eapply e_setTop.
Qed.

Lemma e_dup F c0 w pc g r l m d c (n : nat) x Q : exact c0 w pc g r l m d c -> zlen l < 1024 ->
  l !! n = Some x -> (forall c', exact c0 w pc g r (x :: l) m d c' -> Q tt c') ->
  wp (dup (Z.of_nat n)) Q (fun _ => F) c.
Proof.
  intros H Hl Hx HQ. pose proof (exact_len _ _ _ _ _ _ _ _ _ H). destruct H. unfold dup.
  apply wp_bind, wp_gets. subst l.
  destruct (st_dup_view _ n x ex_stack0) as (s' & Hs & Hw & Hv & _); [unfold maxStackSize; lia|done|].
  apply wp_bind. eapply wp_lift_option; [exact Hs|]. apply wp_modify. apply HQ. by constructor.
Qed.

Lemma e_swap F c0 w pc g r l m d c (n : nat) x y Q : exact c0 w pc g r l m d c ->
  l !! 0%nat = Some x -> l !! n = Some y ->
  (forall c', exact c0 w pc g r (<[0%nat := y]> (<[n := x]> l)) m d c' -> Q tt c') ->
  wp (swap (Z.of_nat n)) Q (fun _ => F) c.
Proof.
  intros [] Hx Hy HQ. unfold swap. apply wp_bind, wp_gets. subst l.
  destruct (st_swap_view _ n x y ex_stack0 Hx Hy) as (s' & Hs & Hw & Hv & _).
  apply wp_bind. eapply wp_lift_option; [exact Hs|]. apply wp_modify. apply HQ. by constructor.
Qed.

(** *** Gas, refunds, return data, program counter and run context *)

Lemma e_useGas F c0 w pc g r l m d c a Q : exact c0 w pc g r l m d c ->
  (a < 0 \/ g < a -> F) ->
  (0 <= a <= g -> forall c', exact c0 w pc (g - a) r l m d c' -> Q tt c') ->
  wp (useGas a) Q (fun _ => F) c.
Proof.
  intros H HF HQ. pose proof H as []. unfold useGas. apply wp_bind, wp_gets. rewrite ex_gas0.
  apply wp_if; intros E; [apply wp_fail; apply HF; zblia|].
  apply wp_modify. unfold MaxInt64 in *. rewrite i64_id by zblia. b2p. apply HQ; [lia|].
  constructor; cbn; try done. unfold MaxInt64. lia.
Qed.

(** A charge under a condition. *)
Lemma e_when_useGas F c0 w pc g r l m d c (b : bool) a Q : exact c0 w pc g r l m d c -> 0 <= a ->
  (g < (if b then a else 0) -> F) ->
  ((if b then a else 0) <= g -> forall c', exact c0 w pc (g - (if b then a else 0)) r l m d c' -> Q tt c') ->
  wp (when b (useGas a)) Q (fun _ => F) c.
Proof.
  intros H Ha HF HQ. destruct b; unfold when.
  - eapply e_useGas; [exact H|intros [?|?]; [lia|auto]|]. intros. apply HQ; [lia|done].
  - apply wp_ret, HQ; [apply H|by rewrite Z.sub_0_r].
Qed.

Lemma e_addGas F c0 w pc g r l m d c a Q : exact c0 w pc g r l m d c -> 0 <= g + a < MaxInt64 ->
  (forall c', exact c0 w pc (g + a) r l m d c' -> Q tt c') -> wp (addGas a) Q (fun _ => F) c.
Proof.
  intros [] Ha HQ. unfold addGas. apply wp_bind, wp_gets, wp_modify. rewrite ex_gas0.
  unfold MaxInt64 in *. rewrite i64_id by zblia. apply HQ. constructor; cbn; try done.
Qed.

Lemma e_addRefund F c0 w pc g r l m d c a Q : exact c0 w pc g r l m d c ->
  (forall c', exact c0 w pc g (r +i64 a) l m d c' -> Q tt c') -> wp (addRefund a) Q (fun _ => F) c.
Proof.
  intros [] HQ. unfold addRefund. apply wp_bind, wp_gets, wp_modify. rewrite ex_refund0.
  apply HQ. by constructor.
Qed.

Lemma e_set_returnData F c0 w pc g r l m d c d' Q : exact c0 w pc g r l m d c ->
  (forall c', exact c0 w pc g r l m d' c' -> Q tt c') ->
  wp (modify (set_returnData d')) Q (fun _ => F) c.
Proof. intros [] HQ. apply wp_modify. apply HQ. by constructor. Qed.

Lemma e_set_pc F c0 w pc g r l m d c pc' Q : exact c0 w pc g r l m d c ->
  (forall c', exact c0 w pc' g r l m d c' -> Q tt c') ->
  wp (modify (set_pc pc')) Q (fun _ => F) c.
Proof. intros [] HQ. apply wp_modify. apply HQ. by constructor. Qed.

Lemma e_host {A} F c0 w pc g r l m d c (f : W -> W * A) Q : exact c0 w pc g r l m d c ->
  (forall c', exact c0 (fst (f w)) pc g r l m d c' -> Q (snd (f w)) c') ->
  wp (host f) Q (fun _ => F) c.
Proof.
  intros [] HQ. unfold host. apply wp_bind, wp_gets. rewrite ex_context0.
  destruct (f w) as [w' a]. apply wp_bind, wp_modify, wp_ret. apply HQ. by constructor.
Qed.

Lemma e_host_ F c0 w pc g r l m d c (f : W -> W) Q : exact c0 w pc g r l m d c ->
  (forall c', exact c0 (f w) pc g r l m d c' -> Q tt c') -> wp (host_ f) Q (fun _ => F) c.
Proof.
  intros [] HQ. unfold host_. apply wp_bind, wp_gets, wp_modify. rewrite ex_context0. apply HQ. by constructor.
Qed.

Lemma e_host_read {A} F c0 w pc g r l m d c (f : W -> A) Q : exact c0 w pc g r l m d c ->
  Q (f w) c -> wp (host_read f) Q (fun _ => F) c.
Proof. intros [] HQ. unfold host_read. apply wp_gets. by rewrite ex_context0. Qed.

(** *** Memory *)

Lemma mem_wf_cost mm : mem_wf mm -> let w0 := zlen (m_store mm) / 32 in
  m_currentMemoryCost mm = w0 * w0 / 512 + 3 * w0.
Proof. intros (w & Hl & _ & ->). cbv zeta. by replace (zlen (m_store mm) / 32) with w by divlia. Qed.

(** Expanding the memory and taking a slice of it: the costs and the grown
    memory are those of the tests' memory. *)
Lemma e_getSlice F c0 w pc g r l m d c offset size Q : exact c0 w pc g r l m d c ->
  let '(cost, off, sz) := st.Memory_ExpansionCosts m offset size in
  (g < cost -> F) ->
  (0 <= cost <= g ->
   uval size = sz -> (sz = 0 \/ uval offset = off /\ 0 < sz /\ off + sz <= maxMemoryExpansionSize) ->
   forall c', exact c0 w pc (g - cost) r l (st.Memory_Grow m off sz) d c' ->
     Q (if sz =? 0 then nil_slice else mkSlice off (off + sz)) c') ->
  wp (getSlice offset size) Q (fun _ => F) c.
Proof.
  intros H. pose proof (exact_ct_mem _ _ _ _ _ _ _ _ _ H) as Hm.
  rewrite ExpansionCosts_spec by done. pose proof H as []. unfold getSlice. rewrite IsZero_law.
  destruct (Z.eqb_spec (uval size) 0) as [E0|E0].
  { assert (Int_IsUint64 size = true) as -> by (rewrite IsUint64_law, E0; done). cbn [negb].
    assert ((if negb (Int_IsUint64 offset) then (0, 0, 0) else (0, uval offset, uval size))
      = (0, if Int_IsUint64 offset then uval offset else 0, 0)) as ->.
    { destruct (Int_IsUint64 offset); cbn; [by rewrite E0|done]. }
    intros _ HQ. apply wp_ret. rewrite Z.eqb_refl, Z.sub_0_r in HQ. apply HQ; [lia|done|by left|done]. }
  destruct (Int_IsUint64 size) eqn:Es; cbn [negb].
  2: { intros HF _. rewrite orb_true_r. apply wp_fail, HF. lia. }
  destruct (Int_IsUint64 offset) eqn:Eo; cbn [negb orb].
  2: { intros HF _. apply wp_fail, HF. lia. }
  intros HF HQ. pose proof (Uint64_range offset) as Ho. pose proof (Uint64_range size) as Hs.
  rewrite !Uint64_exact in * by done. pose proof Hm as (w0 & Hl & Hb).
  apply wp_bind. unfold expandMemory. rewrite (proj2 (Z.eqb_neq _ _)) by done.
  cbv zeta. unfold maxMemoryExpansionSize in *.
  destruct (Z.le_gt_cases (2 ^ 64) (uval offset + uval size)) as [Hov|Hov].
  { rewrite (proj2 (Z.leb_gt _ _)), (proj2 (Z.gtb_lt _ _)) in HF by zblia.
    assert (u64 (uval offset + uval size) <? uval offset = true) as ->.
    { apply Z.ltb_lt. unfold u64, wrapU.
      rewrite <-(Z.mod_unique (uval offset + uval size) (2 ^ 64) 1 (uval offset + uval size - 2 ^ 64)); zblia. }
    apply wp_fail, HF. lia. }
  rewrite (u64_id (uval offset + uval size)) by zblia.
  rewrite (proj2 (Z.ltb_ge _ _)) by zblia. apply wp_bind, wp_gets.
  rewrite m_length_exact, ex_store0 by done.
  assert (memory_slice_ok : forall mm c', c_memory c' = mm -> uval offset + uval size <= zlen (m_store mm) ->
    Q (mkSlice (uval offset) (uval offset + uval size)) c' ->
    wp (memory_slice (uval offset) (uval offset + uval size)) Q (fun _ => F) c').
  { intros mm c' Em Hle HQ'. unfold memory_slice. apply wp_bind, wp_gets. rewrite Em.
    rewrite (proj2 (Z.leb_le 0 _)), (proj2 (Z.leb_le _ (uval offset + _))), (proj2 (Z.leb_le _ (zlen _))) by zblia.
    by apply wp_ret. }
  assert (uval size =? 0 = false) as Ez by (by apply Z.eqb_neq). rewrite Ez in HQ.
  destruct (Z.leb_spec (uval offset + uval size) (zlen m)) as [Hle|Hgt].
  - rewrite (proj2 (Z.ltb_ge _ _)) by lia. apply wp_ret.
    eapply memory_slice_ok; [reflexivity|by rewrite ex_store0|].
    apply HQ; [lia|done|right; unfold isU64 in *; lia|]. rewrite Z.sub_0_r.
    destruct (Memory_Grow_ok m (uval offset) (uval size) Hm) as (_ & _ & ->);
      [unfold isU64 in *; lia..|unfold maxMemoryExpansionSize; lia|].
    replace (zeros _) with (@nil byte); [by rewrite app_nil_r|]. unfold zeros.
    replace (Z.to_nat _) with O; [done|]. divlia.
  - rewrite (proj2 (Z.ltb_lt _ _)) by lia.
    rewrite getExpansionCostsAndSize_spec by (done || zblia). rewrite ex_store0.
    rewrite Z.geb_leb, (proj2 (Z.leb_gt _ _)) by lia. cbv zeta in *.
    rewrite mem_wf_cost, ex_store0 in * by done. cbv zeta in *.
    set (words := (uval offset + uval size + 31) / 32) in *. set (c1 := words * words / 512 + 3 * words) in *.
    set (c2 := zlen m / 32 * (zlen m / 32) / 512 + 3 * (zlen m / 32)) in *.
    assert (uval offset + uval size <= 32 * words < uval offset + uval size + 32) as Hw by (unfold words; divlia).
    destruct (Z.gtb_spec (uval offset + uval size) 0x1FFFFFFFE0) as [Hbig|Hsmall].
    { case_if; [apply wp_fail, HF; lia|]. rewrite (proj2 (Z.gtb_lt _ _)) by (unfold maxMemoryExpansionSize; lia).
      apply wp_fail, HF. lia. }
    assert (32 * words <= 0x1FFFFFFFE0) as Hw2 by (unfold words; divlia).
    rewrite (proj2 (Z.eqb_neq _ _)), Z.gtb_ltb, (proj2 (Z.ltb_ge _ _)) by (unfold maxMemoryExpansionSize; lia).
    assert (0 <= c1 - c2) as Hpos.
    { unfold c1, c2. pose proof (memory_cost_mono (zlen m / 32) words). divlia. }
    apply wp_bind. eapply e_useGas; [exact H|intros [?|?]; [lia|auto]|].
    intros Hc c' H'. apply wp_modify.
    destruct (Memory_Grow_ok m (uval offset) (uval size) Hm) as (Hg1 & Hg2 & Hg3);
      [unfold isU64 in *; lia..|unfold maxMemoryExpansionSize; lia|].
    fold words in Hg3. rewrite u64_id, <-Hg3 by zblia.
    eapply memory_slice_ok; [reflexivity|exact Hg2|].
    apply HQ; [done|done|right; unfold isU64 in *; lia|].
    destruct (memoryCost_exact words) as [_ Hmc]; [unfold maxMemoryExpansionSize; lia|].
    destruct H'. constructor; cbn; try done. exists words. cbn.
    rewrite Hg3, zlen_app, zlen_zeros by lia. split; [lia|]. split; [unfold maxMemoryExpansionSize; lia|].
    rewrite i64_id; [unfold c1; lia|]. unfold isI64. fold c1 in Hmc. lia.
Qed.
End Exec.
