(* ===== verification/CtSim.v ===== *)
(** * Effects and instructions side by side

    States in the form [mk], which separates what an instruction of the
    interpreter keeps in its context from the rest of the state; rules that
    execute an effect of the specification on such a state; and the relation
    [agrees] between the state an effect ends in and the context an
    instruction ends in. *)
From Stdlib Require Import ZArith Lia Strings.Byte.
From stdpp Require Import base list numbers gmap.
From S2P Require Import Prelude Uint256 Types OpCodes SfvmStack SfvmAnalysis SfvmHashCache.
From S2P Require Import SfvmContext SfvmMemory SfvmGas SfvmInstructions SfvmInterpreter SfvmLogic.
From S2P Require Import SfvmSafety SfvmExecution CtSlices CtCommon CtState CtRules CtEffects CtSpec.
From S2P Require Import CtAdapter CtStateFacts CtExec.
Set Default Goal Selector "!".
Local Open Scope Z_scope.
Local Open Scope go_scope.

(** ** States *)

(** [ws] with the given local part. *)
Definition mk (ws : st.State) (status : st.StatusCode) (pc g r : Z) (stk : st.Stack) (m : st.Memory)
    (d rd : Bytes) : st.State :=
  st.mkState status (st.s_Revision ws) (st.s_ReadOnly ws) pc g r (st.s_Code ws) stk m
    (st.s_Storage ws) (st.s_TransientStorage ws) (st.s_Accounts ws) (st.s_Logs ws)
    (st.s_CallContext ws) (st.s_CallJournal ws) (st.s_BlockContext ws) (st.s_CallData ws) d rd
    (st.s_IsNewContract ws) (st.s_HasSelfDestructed ws) (st.s_SelfDestructedJournal ws)
    (st.s_RecentBlockHashes ws) (st.s_TransactionContext ws).

Lemma mk_eta s : s = mk s (st.s_Status s) (st.s_Pc s) (st.s_Gas s) (st.s_GasRefund s) (st.s_Stack s)
  (st.s_Memory s) (st.s_LastCallReturnData s) (st.s_ReturnData s).
Proof. by destruct s. Qed.

(** ** Execution of effects *)

(** The effect does not panic, and its result satisfies [Q]. *)
Definition wpE {A} (m : E A) (Q : A -> st.State -> Prop) (s : st.State) : Prop :=
  match m s with Some (a, s) => Q a s | None => False end.

Lemma wpE_bind {A B} (m : E A) (f : A -> E B) Q s :
  wpE m (fun a => wpE (f a) Q) s -> wpE (mbind f m) Q s.
Proof. unfold wpE, mbind, E_bind. by destruct (m s) as [[a s']|]. Qed.

Lemma wpE_mono {A} (m : E A) (Q Q' : A -> st.State -> Prop) s :
  wpE m Q s -> (forall a s', Q a s' -> Q' a s') -> wpE m Q' s.
Proof. unfold wpE. destruct (m s) as [[a s']|]; eauto. Qed.

Lemma wpE_ret {A} (a : A) (Q : A -> st.State -> Prop) s : Q a s -> wpE (mret a) Q s.
Proof. done. Qed.

Lemma wpE_getS {A} (f : st.State -> A) (Q : A -> st.State -> Prop) s : Q (f s) s -> wpE (getS f) Q s.
Proof. done. Qed.

Lemma wpE_setS f (Q : unit -> st.State -> Prop) s : Q tt (f s) -> wpE (setS f) Q s.
Proof. done. Qed.

Lemma wpE_liftE {A} (o : option A) a (Q : A -> st.State -> Prop) s :
  o = Some a -> Q a s -> wpE (liftE o) Q s.
Proof. by intros ->. Qed.

Lemma wpE_effect_of (m : E unit) (Q : st.State -> Prop) s : wpE m (fun _ => Q) s ->
  exists s', effect_of m s = Some s' /\ Q s'.
Proof. unfold wpE, effect_of. destruct (m s) as [[[] s']|]; [eauto|done]. Qed.

(** A copy ends where its source ends. *)
Lemma copy_at_exact {A} (l src : list A) lo hi : 0 <= lo -> lo + zlen src <= hi -> hi <= zlen l ->
  copy_at l lo hi src = take (Z.to_nat lo) l ++ src ++ drop (Z.to_nat (lo + zlen src)) l.
Proof.
  intros Hlo Hs Hl. unfold copy_at, go_copy, slice, zlen in *. set (x := drop (Z.to_nat lo) l).
  set (k := Z.to_nat (hi - lo)). assert (length (take k x) = k) as Hk.
  { unfold x, k. rewrite length_take, length_drop. lia. }
  rewrite Hk, (firstn_all2 src) by (unfold k; lia). f_equal. rewrite <-app_assoc. f_equal.
  replace (drop (Z.to_nat hi) l) with (drop k x) by (unfold x, k; rewrite drop_drop; f_equal; lia).
  rewrite <-drop_app_le by (unfold k in *; lia). rewrite take_drop. unfold x. rewrite drop_drop. f_equal. lia.
Qed.

Lemma copy_at_prefix {A} (l src : list A) lo : 0 <= lo -> lo + zlen src <= zlen l ->
  copy_at l lo (zlen l) src = copy_at l lo (lo + zlen src) src.
Proof. intros. by rewrite !copy_at_exact by lia. Qed.

Section Effects.
Context {U : Uint256} {UL : Uint256Laws U}.
Context (ws : st.State) (status : st.StatusCode) (pc g r : Z) (m : st.Memory) (d rd : Bytes).
Abbreviation mk_ l sp := (mk ws status pc g r (mkS l sp) m d rd).

Lemma p_pop x l sp (Q : U256 -> st.State -> Prop) : Q x (mk_ l (x :: sp)) -> wpE s_pop Q (mk_ (x :: l) sp).
Proof.
  intros HQ. unfold s_pop. apply wpE_bind, wpE_getS, wpE_bind. cbn [st.s_Stack mk].
  eapply wpE_liftE; [apply Stack_Pop_mkS|]. by apply wpE_bind, wpE_setS, wpE_ret.
Qed.

Lemma p_push v l sp (Q : unit -> st.State -> Prop) :
  Q tt (mk_ (v :: l) (tail sp)) -> wpE (s_push v) Q (mk_ l sp).
Proof.
  intros HQ. unfold s_push. apply wpE_bind, wpE_getS, wpE_setS. cbn [st.s_Stack mk].
  by rewrite Stack_Push_mkS.
Qed.

Lemma p_get (i : nat) x l sp (Q : U256 -> st.State -> Prop) : l !! i = Some x ->
  Q x (mk_ l sp) -> wpE (s_get (Z.of_nat i)) Q (mk_ l sp).
Proof.
  intros Hx HQ. unfold s_get. apply wpE_bind, wpE_getS. cbn [st.s_Stack mk].
  eapply wpE_liftE; [by apply Stack_Get_mkS|]. done.
Qed.

Lemma p_set (i : nat) v l sp (Q : unit -> st.State -> Prop) : (i < length l)%nat ->
  Q tt (mk_ (<[i := v]> l) sp) -> wpE (s_set (Z.of_nat i) v) Q (mk_ l sp).
Proof.
  intros Hx HQ. unfold s_set. apply wpE_bind, wpE_getS, wpE_bind. cbn [st.s_Stack mk].
  eapply wpE_liftE; [by apply Stack_Set_mkS|]. by apply wpE_setS.
Qed.

(** A charge fails, or the rest goes on with less gas. *)
Lemma p_charge cost rest stk (Q : unit -> st.State -> Prop) : 0 <= g < MaxInt64 -> 0 <= cost ->
  (g < cost -> Q tt (mk ws st.Failed pc g r stk m d rd)) ->
  (cost <= g -> wpE rest Q (mk ws status pc (g - cost) r stk m d rd)) ->
  wpE (s_charge cost rest) Q (mk ws status pc g r stk m d rd).
Proof.
  intros Hg Hc HF HQ. unfold s_charge. apply wpE_bind, wpE_getS. cbn [st.s_Gas mk].
  destruct (Z.ltb_spec g cost) as [Hlt|Hge]; [by apply HF|].
  apply wpE_bind. unfold s_useGas. apply wpE_bind, wpE_getS, wpE_setS. cbn [st.s_Gas mk].
  unfold MaxInt64 in *. rewrite i64_id by (unfold isI64; lia). by apply HQ.
Qed.

(** Reading and writing memory after its costs have been paid. *)
Lemma p_memRead stk offset size (Q : list byte -> st.State -> Prop) : ct_mem m ->
  (size = 0 \/ 0 <= offset /\ 0 < size /\ offset + size <= maxMemoryExpansionSize) ->
  (let m' := st.Memory_Grow m offset size in
   Q (if size =? 0 then [] else slice m' offset (offset + size)) (mk ws status pc g r stk m' d rd)) ->
  wpE (s_memRead offset size) Q (mk ws status pc g r stk m d rd).
Proof.
  intros Hm Hs HQ. unfold s_memRead. apply wpE_bind, wpE_getS, wpE_bind. cbn [st.s_Memory mk].
  unfold st.Memory_Read. destruct (Z.eqb_spec size 0) as [->|Hne].
  { eapply wpE_liftE; [done|]. by apply wpE_bind, wpE_setS, wpE_ret. }
  destruct Hs as [|(Ho & Hs & Hb)]; [done|].
  destruct (Memory_Grow_ok m offset size Hm Ho Hs Hb) as (_ & Hl & _).
  cbv zeta in *. unfold maxMemoryExpansionSize in Hb. rewrite u64_id by zblia.
  rewrite (proj2 (Z.leb_le _ _)), (proj2 (Z.leb_le _ (zlen _))) by lia.
  eapply wpE_liftE; [done|]. by apply wpE_bind, wpE_setS, wpE_ret.
Qed.

Lemma p_memWrite stk data offset (Q : unit -> st.State -> Prop) : ct_mem m ->
  (zlen data = 0 \/ 0 <= offset /\ offset + zlen data <= maxMemoryExpansionSize) ->
  (let m' := st.Memory_Grow m offset (zlen data) in
   Q tt (mk ws status pc g r stk
     (if zlen data =? 0 then m' else copy_at m' offset (offset + zlen data) data) d rd)) ->
  wpE (s_memWrite data offset) Q (mk ws status pc g r stk m d rd).
Proof.
  intros Hm Hs HQ. unfold s_memWrite. apply wpE_bind, wpE_getS, wpE_bind. cbn [st.s_Memory mk].
  unfold st.Memory_Write. destruct (Z.eqb_spec (zlen data) 0) as [E|Hne].
  { eapply wpE_liftE; [done|]. apply wpE_setS. rewrite E, Memory_Grow_zero in HQ. done. }
  destruct Hs as [|(Ho & Hb)]; [done|]. pose proof (zlen_nonneg data).
  destruct (Memory_Grow_ok m offset (zlen data) Hm Ho ltac:(lia) Hb) as (_ & Hl & _).
  unfold maxMemoryExpansionSize in Hb. rewrite u64_id by zblia. cbv zeta in *.
  rewrite (proj2 (Z.leb_le _ _)) by lia. eapply wpE_liftE; [done|]. apply wpE_setS.
  by rewrite copy_at_prefix.
Qed.

End Effects.

(** ** The conversions of the adapter *)

Lemma convertCtStack_loop_ok l sp i s : stack_wf s -> (i <= length l)%nat -> zlen l <= maxStackSize ->
  stack_view s = drop i l ->
  exists s', convertCtStack_loop (mkS l sp) i s = Some s' /\ stack_wf s' /\ stack_view s' = l.
Proof.
  revert s. induction i as [|i IH]; intros s Hs Hi Hl Hv; cbn [convertCtStack_loop].
  { exists s. by rewrite drop_0 in Hv. }
  destruct (lookup_lt_is_Some_2 l i) as [x Hx]; [lia|].
  rewrite (Stack_Get_mkS l sp i x Hx). cbn [mbind option_bind].
  pose proof (view_length _ Hs) as Hlen. rewrite Hv in Hlen. unfold zlen in Hlen, Hl. rewrite length_drop in Hlen.
  destruct (st_push_view s x Hs) as (s1 & Hp & Hs1 & Hv1 & _); [lia|]. rewrite Hp. cbn [mbind option_bind].
  apply IH; [done|lia|done|]. by rewrite Hv1, Hv, <-(drop_S _ x).
Qed.

Lemma convertCtStack_ok garbage s : zlen garbage = maxStackSize -> st.Stack_Size s <= maxStackSize ->
  exists s', convertCtStackToSfvmStack garbage s = Some s' /\ stack_wf s'
    /\ stack_view s' = reverse (st.stack s).
Proof.
  intros Hg Hs. unfold convertCtStackToSfvmStack. pose proof (mkS_eta s) as E.
  set (l := reverse (st.stack s)) in *. replace (length (st.stack s)) with (length l) by apply length_reverse.
  rewrite E. unfold st.Stack_Size in Hs.
  destruct (NewStack_wf garbage Hg) as [Hw Hv].
  apply convertCtStack_loop_ok; [done|done|unfold l, zlen; by rewrite length_reverse|].
  by rewrite Hv, drop_ge by lia.
Qed.

Lemma convertSfvmStack_loop_ok s len k i result : stack_wf s -> len <= maxStackSize ->
  zlen (st.stack result) = len -> 0 <= i -> i + Z.of_nat k = len ->
  exists r, convertSfvmStack_loop s len k i result = Some r
    /\ zlen (st.stack r) = len
    /\ forall j, (j < Z.to_nat len)%nat -> st.stack r !! j =
         if (Z.to_nat i <=? j)%nat then st_data s !! j else st.stack result !! j.
Proof.
  revert i result. induction k as [|k IH]; intros i result Hs Hm Hlen Hi Hk; cbn [convertSfvmStack_loop].
  { exists result. split_and!; [done..|]. intros j Hj. by rewrite (proj2 (Nat.leb_gt _ _)) by lia. }
  unfold st_get. destruct (st_read_wf s i Hs) as [v Hv]; [lia|]. rewrite Hv. cbn [mbind option_bind].
  unfold st.Stack_Set, st.Stack_Size. rewrite Hlen.
  rewrite (proj2 (Z.leb_le 0 _)), (proj2 (Z.ltb_lt _ len)) by lia. cbn [andb mbind option_bind].
  replace (len - (len - i - 1) - 1) with i by lia.
  destruct (IH (i + 1) (st.mkStack (<[Z.to_nat i := v]> (st.stack result)) (st.spare result))) as (r & Hr & Hl & Hj).
  { done. } { done. } { unfold zlen in *. cbn. by rewrite length_insert. } { lia. } { lia. }
  exists r. split_and!; [done..|]. intros j Hj'. rewrite Hj by done. cbn [st.stack].
  unfold st_read in Hv. rewrite (proj2 (Z.leb_le 0 i)) in Hv by lia.
  destruct (decide (j = Z.to_nat i)) as [->|Hne].
  - rewrite (proj2 (Nat.leb_gt _ _)), (proj2 (Nat.leb_le _ _)) by lia.
    rewrite list_lookup_insert_eq by zblia. done.
  - rewrite list_lookup_insert_ne by done.
    destruct (Nat.leb_spec (Z.to_nat i) j), (Nat.leb_spec (Z.to_nat (i + 1)) j); (done || lia).
Qed.

Lemma convertSfvmStack_ok s result : stack_wf s -> maxStackSize <= zlen (st.stack result ++ st.spare result) ->
  exists r, convertSfvmStackToCtStack s result = Some r /\ st.stack r = reverse (stack_view s).
Proof.
  intros Hs Hc. pose proof Hs as [Hd Hp]. unfold convertSfvmStackToCtStack, st.Stack_Resize, st.Stack_reslice, st_len.
  unfold st.MaxStackSize, maxStackSize in *. rewrite (proj2 (Z.ltb_ge _ _)) by lia.
  rewrite (proj2 (Z.leb_le 0 _)), (proj2 (Z.leb_le _ (zlen _))) by lia. cbn [andb mbind option_bind].
  destruct (convertSfvmStack_loop_ok s (st_stackPointer s) (Z.to_nat (st_stackPointer s)) 0
    (st.mkStack (take (Z.to_nat (st_stackPointer s)) (st.stack result ++ st.spare result))
       (drop (Z.to_nat (st_stackPointer s)) (st.stack result ++ st.spare result)))) as (r & Hr & Hl & Hj).
  { done. } { unfold maxStackSize; lia. } { unfold zlen in *. cbn. rewrite length_take. lia. } { lia. } { lia. }
  exists r. split; [done|]. unfold stack_view. rewrite reverse_involutive. unfold zlen in *.
  apply list_eq. intros j. destruct (decide (j < Z.to_nat (st_stackPointer s))%nat).
  - rewrite Hj, lookup_take_lt by lia. done.
  - rewrite !lookup_ge_None_2; [done|rewrite length_take; lia|lia].
Qed.

Lemma Memory_Read_all m : zlen m < 2 ^ 64 -> st.Memory_Read m 0 (zlen m) = Some (m, m).
Proof.
  intros H. pose proof (zlen_nonneg m). unfold st.Memory_Read, st.Memory_Grow, st.Memory_Size.
  destruct (Z.eqb_spec (zlen m) 0) as [E|E].
  - do 2 f_equal. unfold zlen in E. by destruct m.
  - rewrite Z.add_0_l, !(u64_id (zlen m)), Z.gtb_ltb, Z.ltb_irrefl by zblia.
    cbv zeta. rewrite (proj2 (Z.leb_le 0 _)), Z.leb_refl by lia. cbn [andb]. do 2 f_equal.
    unfold slice. rewrite drop_0. apply firstn_all2. zblia.
Qed.

Lemma convertCtMemory_ok m : ct_mem m ->
  exists mm, convertCtMemoryToSfvmMemory m = Some mm /\ mem_wf mm /\ m_store mm = m.
Proof.
  intros (w & Hl & Hb). unfold convertCtMemoryToSfvmMemory, st.Memory_Size.
  unfold maxMemoryExpansionSize in Hb. rewrite (u64_id (zlen m)), Memory_Read_all by zblia.
  cbn [mbind option_bind]. rewrite (u64_id (zlen m)), SizeInWords_spec by zblia.
  replace ((zlen m + 31) / 32) with w by divlia.
  eexists. split; [reflexivity|]. unfold mem_wf. cbn [m_store m_currentMemoryCost].
  rewrite (u64_id (w * 32)) by zblia. rewrite go_copy_same.
  2: { unfold zeros. rewrite length_replicate. zblia. }
  split; [|done]. exists w. unfold maxMemoryExpansionSize. split; [done|]. split; [lia|].
  destruct (memoryCost_exact w) as [Hc Hr]; [unfold maxMemoryExpansionSize; lia|].
  unfold memoryCost in Hc. rewrite Hc. apply i64_id. unfold isI64. lia.
Qed.
