(* ===== verification/CtConform.v ===== *)
(** * Conformance of an interpreter step to a rule

    States the tests run on ([valid]); what it means that a step of the
    interpreter conforms to the effect of a rule ([conforms]); the conditions
    of rules by their meaning; and conformance to the four rules that
    [rulesFor] makes from an instruction, given that its regular case
    conforms. *)
From Stdlib Require Import ZArith Lia Strings.Byte.
From stdpp Require Import base list numbers gmap.
From S2P Require Import Prelude Uint256 Types OpCodes SfvmStack SfvmAnalysis SfvmHashCache.
From S2P Require Import SfvmContext SfvmMemory SfvmGas SfvmInstructions SfvmInterpreter SfvmLogic.
From S2P Require Import SfvmSafety SfvmExecution CtSlices CtCommon CtState CtRules CtEffects CtSpec.
From S2P Require Import CtAdapter CtStateFacts CtExec CtSim.
Set Default Goal Selector "!".
Local Open Scope Z_scope.
Local Open Scope go_scope.

(** ** Valid states *)

Definition ct_code (s : st.State) : list byte := st.code (st.s_Code s).

(** The stack, top first. *)
Definition ct_stack (s : st.State) : list U256 := reverse (st.stack (st.s_Stack s)).

(** What the generator of the tests guarantees of a state: its parts are
    within the limits of the EVM and of Go's integers, the program counter is
    not on data, and, while it is running, it has returned nothing. An account
    does not delegate to itself. *)
Record valid (s : st.State) : Prop := {
  valid_revision : R07_Istanbul <= st.s_Revision s <= NewestSupportedRevision;
  valid_code : st.s_Code s = st.NewCode (ct_code s);
  valid_codeSize : zlen (ct_code s) <= st.MaxCodeSize;
  valid_pc : 0 <= st.s_Pc s < 2 ^ 16;
  valid_isCode : st.s_Status s = st.Running -> st.Code_IsCode (st.s_Code s) (st.s_Pc s) = true;
  valid_gas : 0 <= st.s_Gas s <= st.MaxGasUsedByCt;
  valid_stack : st.Stack_Size (st.s_Stack s) <= st.MaxStackSize;
  valid_capacity : st.MaxStackSize <= zlen (st.stack (st.s_Stack s) ++ st.spare (st.s_Stack s));
  valid_memory : ct_mem (st.s_Memory s);
  valid_callData : zlen (st.s_CallData s) < 2 ^ 63;
  valid_lastData : zlen (st.s_LastCallReturnData s) < 2 ^ 63;
  valid_accounts a : zlen (st.Accounts_GetCode (st.s_Accounts s) a) < 2 ^ 63;
  valid_delegation a d : ParseDelegationDesignator (st.Accounts_GetCode (st.s_Accounts s) a) = (d, true) -> d <> a;
  valid_number : 0 <= st.bc_BlockNumber (st.s_BlockContext s) < 2 ^ 63;
  valid_time : isU64 (st.bc_TimeStamp (st.s_BlockContext s));
  valid_limit : isU64 (st.bc_GasLimit (st.s_BlockContext s));
  valid_hashes : zlen (hashes_of (st.s_RecentBlockHashes s)) = 256;
  valid_blobs : zlen (st.tx_BlobHashes (st.s_TransactionContext s)) < 2 ^ 63;
  valid_calls f : In f (st.Future (st.s_CallJournal s)) ->
    0 <= st.fc_GasCosts f /\ zlen (st.fc_Output f) < 2 ^ 63;
  valid_returnData : st.s_Status s = st.Running -> st.s_ReturnData s = []
}.

Lemma ct_stack_mkS s : st.s_Stack s = mkS (ct_stack s) (st.spare (st.s_Stack s)).
Proof. apply mkS_eta. Qed.

Lemma ct_stack_size s : st.Stack_Size (st.s_Stack s) = zlen (ct_stack s).
Proof. unfold st.Stack_Size, ct_stack, zlen. by rewrite length_reverse. Qed.

Section Conform.
Context {U : Uint256} {UL : Uint256Laws U}.
Context (Keccak256 : list byte -> Hash) (Keccak256For32byte : array 32 -> Hash).
Abbreviation ctxt := (context ctRunContext).
Abbreviation dispatch_ := (dispatch (RC := ctRunContext_instance Keccak256) (G := ctGlobals)
  Keccak256 Keccak256For32byte).
Abbreviation step_ := (step (RC := ctRunContext_instance Keccak256) (G := ctGlobals)
  Keccak256 Keccak256For32byte).

(** ** Agreement of a context and a state *)

(** The interpreter of the tests, [NewInterpreter(Config{})]. *)
Definition ctConfig : Config := mkConfig false false 0 0.

(** Hashing through a cache gives the hashes of [Keccak256]: the cache is well
    formed, and the variant for 32 bytes computes the same function. *)
Definition sha_ok (withShaCache : bool) (cache : sha3HashCache) : Prop :=
  withShaCache = true -> sha3_wf Keccak256 Keccak256For32byte cache
  /\ forall a, Keccak256For32byte a = Keccak256 (arr_bytes a).

(** The context [StepN] starts with. *)
Definition started (s : st.State) (c : ctxt) : Prop :=
  exists config cache stk mm,
    c = ctContext Keccak256 config (findJumpDestinations (ct_code s)) s cache stk mm
    /\ sha_ok (WithShaCache config) cache /\ stack_wf stk /\ stack_view stk = ct_stack s
    /\ mem_wf mm /\ m_store mm = st.s_Memory s.

(** The context [c] in which a step of [s0] has ended with a status stands for
    the state [s']. *)
Definition agrees (s0 s' : st.State) (status : status) (c : ctxt) : Prop :=
  exists ws cache stk,
    c_context c = mkCtRunContext ws false cache
    /\ st.s_Stack ws = st.s_Stack s0 /\ st.s_ReturnData ws = st.s_ReturnData s0
    /\ stack_wf (c_stack c)
    /\ match status with
       | statusRunning =>
           0 <= c_pc c < 2 ^ 16
           /\ st.stack stk = reverse (stack_view (c_stack c))
           /\ s' = mk ws st.Running (c_pc c) (c_gas c) (c_refund c) stk (m_store (c_memory c))
                     (c_returnData c) (st.s_ReturnData s0)
       | statusStopped | statusSelfDestructed => exists pc m d,
           s' = mk ws st.Stopped pc (c_gas c) (c_refund c) stk m d (st.s_ReturnData s0)
       | statusReturned => exists pc m d,
           s' = mk ws st.Stopped pc (c_gas c) (c_refund c) stk m d (c_returnData c)
       | statusReverted => exists pc m d,
           s' = mk ws st.Reverted pc (c_gas c) (c_refund c) stk m d (c_returnData c)
       | statusFailed => False
       end.

(** A step of the interpreter conforms to an effect. *)
Definition conforms (s : st.State) (effect : Effect) : Prop :=
  forall c, started s c -> exists s', effect s = Some s' /\
    if st.s_Pc s >=? zlen (ct_code s) then agrees s s' statusStopped c
    else wp step_ (agrees s s') (fun _ => st.s_Status s' = st.Failed) c.

(** A step fails. *)
Definition step_fails (s : st.State) : Prop :=
  st.s_Pc s < zlen (ct_code s) /\ forall c, started s c -> wp step_ (fun _ _ => False) (fun _ => True) c.

Lemma step_fails_conforms s effect s' : step_fails s -> effect s = Some s' ->
  st.s_Status s' = st.Failed -> conforms s effect.
Proof.
  intros [Hp Hf] He Hs c Hc. exists s'. split; [done|].
  rewrite Z.geb_leb, (proj2 (Z.leb_gt _ _)) by lia.
  eapply wp_mono; [by apply Hf|done|done].
Qed.

Lemma fails_FailEffect s : step_fails s -> conforms s FailEffect.
Proof. intros H. by eapply step_fails_conforms. Qed.

(** ** One step *)

(** The instruction at the program counter. *)
Definition op_at (s : st.State) (op : OpCode) : Prop :=
  ct_code s !! Z.to_nat (st.s_Pc s) = Some op /\ instr_start (ct_code s) (st.s_Pc s).

Definition price (s : st.State) (op : OpCode) : Z := staticPrice (st.s_Revision s >=? R09_Berlin) op.

(** The fixed part of the contexts of an execution. *)
Record base (s : st.State) (c0 : ctxt) : Prop := {
  base_params : c_params c0 = ToVmParameters Keccak256 s;
  base_code : c_code c0 = ct_code s;
  base_analysis : c_analysis c0 = findJumpDestinations (ct_code s)
}.

Lemma started_exact s c : valid s -> started s c -> exists cache, base s c /\
  sha_ok (c_withShaCache c) cache /\ exact c (mkCtRunContext s false cache) (st.s_Pc s) (st.s_Gas s) (st.s_GasRefund s) (ct_stack s)
    (st.s_Memory s) (st.s_LastCallReturnData s) c.
Proof.
  intros [] (cfg & cache & stk & mm & -> & Hsha & Hs & Hsv & Hm & Hmm). exists cache. split; [by constructor|].
  split; [done|].   constructor; try done. unfold st.MaxGasUsedByCt, MaxInt64 in *. lia.
Qed.

Lemma wp_step s c op (Q : status -> ctxt -> Prop) (F : Prop) : valid s -> started s c -> op_at s op ->
  let limits := opStackLimits op in
  (zlen (ct_stack s) < sl_min limits \/ sl_max limits < zlen (ct_stack s) -> F) ->
  (st.s_Gas s < price s op -> F) ->
  (sl_min limits <= zlen (ct_stack s) <= sl_max limits -> price s op <= st.s_Gas s ->
   forall c0 cache c, base s c0 -> sha_ok (c_withShaCache c0) cache ->
     exact c0 (mkCtRunContext s false cache) (st.s_Pc s) (st.s_Gas s - price s op) (st.s_GasRefund s)
       (ct_stack s) (st.s_Memory s) (st.s_LastCallReturnData s) c ->
     wp (dispatch_ op) (fun status c => Q status (set_pc (c_pc c +i32 1) c)) (fun _ => F) c) ->
  wp step_ Q (fun _ => F) c.
Proof.
  intros Hv Hc [Ho Hi] limits HL HG HD. destruct (started_exact s c Hv Hc) as (cache & Hb & Hsha & H).
  pose proof Hb as []. pose proof H as []. pose proof Hv as []. pose proof (lookup_lt_Some _ _ _ Ho) as Hlt.
  unfold step. apply wp_bind, wp_gets. apply wp_bind. unfold code_at. apply wp_bind, wp_gets. unfold id.
  rewrite ex_pc, (proj2 (Z.ltb_ge _ 0)), base_code0 by lia. eapply wp_lift_option; [exact Ho|].
  apply wp_bind. unfold checkStackLimits. apply wp_bind.
  eapply wp_lift_option; [apply newOpCodePropertyMap_get|]. rewrite (exact_len _ _ _ _ _ _ _ _ _ H).
  apply wp_if; intros E1; [apply wp_fail, HL; b2p; by left|].
  apply wp_if; intros E2; [apply wp_fail, HL; b2p; by right|]. apply wp_ret. b2p.
  apply wp_bind. eapply wp_lift_option; [apply getStaticGasPrices_get|].
  assert (revision c = st.s_Revision s) as -> by (unfold revision; by rewrite base_params0).
  fold (price s op). apply wp_bind. eapply e_useGas; [exact H|intros [Hn|Hn]|].
  - pose proof (staticPrice_nonneg (st.s_Revision s >=? R09_Berlin) op). unfold price in Hn. lia.
  - by apply HG.
  - intros Hg c' H'. apply wp_bind. eapply wp_mono; [eapply HD; [done|lia|exact Hb|exact Hsha|exact H']|cbv beta|done].
    intros status c2 HQ. apply wp_bind, wp_gets, wp_bind, wp_modify, wp_ret. done.
Qed.

Lemma op_at_pc s op : valid s -> op_at s op -> 0 <= st.s_Pc s < zlen (ct_code s).
Proof.
  intros [] [Ho _]. apply lookup_lt_Some in Ho. unfold zlen. lia.
Qed.

(** A step of an instruction outside its stack limits or its gas, and of an
    instruction that fails. *)
Lemma fails_by_dispatch s op : valid s -> op_at s op ->
  (sl_min (opStackLimits op) <= zlen (ct_stack s) <= sl_max (opStackLimits op) -> price s op <= st.s_Gas s ->
   forall c0 cache c, base s c0 -> sha_ok (c_withShaCache c0) cache ->
     exact c0 (mkCtRunContext s false cache) (st.s_Pc s) (st.s_Gas s - price s op) (st.s_GasRefund s)
       (ct_stack s) (st.s_Memory s) (st.s_LastCallReturnData s) c ->
     wp (dispatch_ op) (fun _ _ => False) (fun _ => True) c) ->
  step_fails s.
Proof.
  intros Hv Ho HD. split; [by apply (op_at_pc s op)|]. intros c Hc.
  by eapply (wp_step s c op); [..|exact HD].
Qed.

Lemma fails_by_limits s op : valid s -> op_at s op ->
  zlen (ct_stack s) < sl_min (opStackLimits op) \/ sl_max (opStackLimits op) < zlen (ct_stack s) ->
  step_fails s.
Proof. intros Hv Ho Hl. apply (fails_by_dispatch s op); [done..|]. intros. lia. Qed.

Lemma fails_by_gas s op : valid s -> op_at s op -> st.s_Gas s < price s op -> step_fails s.
Proof. intros Hv Ho Hl. apply (fails_by_dispatch s op); [done..|]. intros. lia. Qed.

(** ** Conditions *)

Lemma applies_cons c cs s :
  applies (cConjunction (c :: cs)) s = applies c s && applies (cConjunction cs) s.
Proof.
  unfold applies. cbn. destruct (Condition_Check c s) as [[[] [e|]]|]; try done.
Qed.

Lemma applies_conjunction cs s : applies (cConjunction cs) s = forallb (fun c => applies c s) cs.
Proof. induction cs as [|c cs IH]; [done|]. by rewrite applies_cons, IH. Qed.

(** A conjunction applies when all its conditions do. *)
Lemma applies_And cs s : applies (And cs) s = forallb (fun c => applies c s) cs.
Proof.
  assert (forall cs, applies (cConjunction (flat_map (fun cur =>
    match cur with cConjunction cs => cs | _ => [cur] end) cs)) s = forallb (fun c => applies c s) cs) as H.
  { clear cs. intros cs. rewrite applies_conjunction.
    induction cs as [|c cs IH]; [done|]. cbn [flat_map forallb]. rewrite forallb_app, IH. f_equal.
    destruct c; cbn [forallb]; rewrite ?andb_true_r; [|done..]. symmetry. apply applies_conjunction. }
  unfold And. destruct cs as [|c [|c' cs]]; [done| |apply H]. cbn. by rewrite andb_true_r.
Qed.

(** All conditions of a list apply. *)
Definition all_apply (cs : list Condition) (s : st.State) : Prop :=
  Forall (fun c => applies c s = true) cs.

Lemma applies_And_Forall cs s : applies (And cs) s = true <-> all_apply cs s.
Proof. rewrite applies_And, forallb_forall. unfold all_apply. by rewrite List.Forall_forall. Qed.

Lemma pc_word s : valid s ->
  U256_IsUint64 (NewU256 (st.s_Pc s)) = true /\ U256_Uint64 (NewU256 (st.s_Pc s)) = st.s_Pc s
  /\ (st.s_Pc s >? MaxInt) = false.
Proof.
  intros []. assert (isU64 (st.s_Pc s)) by (unfold isU64; lia). rewrite NewU256_NewInt by done.
  unfold U256_IsUint64, U256_Uint64. rewrite NewInt_IsUint64, NewInt_Uint64 by done. split_and!; [done..|].
  unfold MaxInt, MaxInt64. rewrite Z.gtb_ltb. apply Z.ltb_ge. lia.
Qed.

Lemma applies_op s op : valid s -> applies (cEq (eOp ePc) op) s = true -> 
  st.Code_GetOperation (st.s_Code s) (st.s_Pc s) = Some (op, None).
Proof.
  intros Hv. destruct (pc_word s Hv) as (H1 & H2 & H3).
  unfold applies. cbn [Condition_Check]. unfold eq_Check. cbn [Eval]. unfold op_Eval, pc_Eval.
  cbn [eval_bind]. rewrite H1, H2, H3. cbn -[st.Code_GetOperation].
  destruct (st.Code_GetOperation _ _) as [[o [e|]]|]; [done| |done]. cbn.
  destruct (bool_decide (o = op)) eqn:E; [|done]. apply bool_decide_eq_true in E as ->. done.
Qed.

Lemma applies_op_at s op : valid s -> op <> STOP -> applies (cEq (eOp ePc) op) s = true -> op_at s op.
Proof.
  intros Hv Hne Ha. apply applies_op in Ha; [|done]. rewrite (valid_code _ Hv) in Ha.
  destruct (GetOperation_NewCode _ _ _ (proj1 (valid_pc _ Hv)) Ha) as [[-> _]|[Ho Hs]]; [done|by split].
Qed.

Lemma applies_status s status : applies (cEq eStatus status) s = bool_decide (st.s_Status s = status).
Proof. unfold applies. cbn. by destruct (bool_decide _). Qed.

Lemma applies_bool (b : bool) : (match Some (b, @None st.ConstErr) with Some (true, None) => true | _ => false end) = b.
Proof. by destruct b. Qed.

Lemma applies_gas_lt s g : applies (cLt eGas g) s = (st.s_Gas s <? g).
Proof. apply applies_bool. Qed.

Lemma applies_gas_ge s g : applies (cGe eGas g) s = negb (st.s_Gas s <? g).
Proof. apply applies_bool. Qed.

Lemma applies_size_lt s n : applies (cLt eStackSize n) s = (zlen (ct_stack s) <? n).
Proof. rewrite <-ct_stack_size. apply applies_bool. Qed.

Lemma applies_size_ge s n : applies (cGe eStackSize n) s = negb (zlen (ct_stack s) <? n).
Proof. rewrite <-ct_stack_size. apply applies_bool. Qed.

Lemma applies_size_le s n : applies (cLe eStackSize n) s = (zlen (ct_stack s) <=? n).
Proof.
  rewrite <-ct_stack_size. unfold applies. cbn -[st.Stack_Size]. rewrite applies_bool.
  apply eq_bool_prop_intro. rewrite !Is_true_true, orb_true_iff, Z.ltb_lt, Z.eqb_eq, Z.leb_le. lia.
Qed.

Lemma applies_readOnly s b : applies (cEq eReadOnly b) s = Bool.eqb (st.s_ReadOnly s) b.
Proof. apply applies_bool. Qed.

Lemma applies_revision s min max :
  applies (cRevisionBounds min max) s = (min <=? st.s_Revision s) && (st.s_Revision s <=? max).
Proof. apply applies_bool. Qed.

(** A parameter of the instruction. *)
Lemma Eval_eParam s (i : nat) domain : Eval (eParam (Z.of_nat i) domain) s =
  match ct_stack s !! i with
  | Some v => Some (v, None)
  | None => Some (NewU256 0, Some st.ErrStackOutOfBoundsAccess)
  end.
Proof.
  cbn [Eval]. unfold param_Eval. rewrite (ct_stack_mkS s), Stack_Size_mkS. set (l := ct_stack s).
  destruct (l !! i) as [v|] eqn:E.
  - pose proof (lookup_lt_Some _ _ _ E). rewrite Z.geb_leb, (proj2 (Z.leb_gt _ _)) by zblia.
    by rewrite (Stack_Get_mkS l _ i v).
  - apply lookup_ge_None_1 in E. by rewrite Z.geb_leb, (proj2 (Z.leb_le _ _)) by zblia.
Qed.

Lemma Eval_param0 s domain a l : ct_stack s = a :: l -> Eval (eParam 0 domain) s = Some (a, None).
Proof. intros H. pose proof (Eval_eParam s 0 domain) as E. by rewrite H in E. Qed.

Lemma Eval_param1 s domain a b l : ct_stack s = a :: b :: l -> Eval (eParam 1 domain) s = Some (b, None).
Proof. intros H. pose proof (Eval_eParam s 1 domain) as E. by rewrite H in E. Qed.

Lemma Eval_param2 s domain a b d l : ct_stack s = a :: b :: d :: l -> Eval (eParam 2 domain) s = Some (d, None).
Proof. intros H. pose proof (Eval_eParam s 2 domain) as E. by rewrite H in E. Qed.

(** ** The rules of an instruction *)

(** A rule for running states the interpreter conforms to. *)
Definition rule_conforms (r : Rule) : Prop :=
  forall s, valid s -> st.s_Status s = st.Running -> applies (r_Condition r) s = true ->
    conforms s (r_Effect r).

Lemma all_apply_app cs1 cs2 s : all_apply (cs1 ++ cs2) s <-> all_apply cs1 s /\ all_apply cs2 s.
Proof. apply List.Forall_app. Qed.

Lemma all_apply_cons c cs s : all_apply (c :: cs) s <-> applies c s = true /\ all_apply cs s.
Proof. apply Forall_cons_iff. Qed.

Definition within (i : instruction) (s : st.State) : Prop :=
  i_pops i <= zlen (ct_stack s) <= st.MaxStackSize - Z.max (i_pushes i - i_pops i) 0.

(** Conformance to the rules made from an instruction. *)
Lemma rulesFor_conforms i : i_op i <> STOP ->
  i_pops i <= sl_min (opStackLimits (i_op i)) ->
  (i_pushes i > i_pops i -> sl_max (opStackLimits (i_op i)) < st.MaxStackSize) ->
  (forall s, valid s -> st.s_Status s = st.Running -> op_at s (i_op i) -> all_apply (i_conditions i) s ->
     st.s_Gas s < i_staticGas i -> step_fails s) ->
  (forall s, valid s -> st.s_Status s = st.Running -> op_at s (i_op i) -> all_apply (i_conditions i) s ->
     i_staticGas i <= st.s_Gas s -> within i s -> conforms s (regularEffect i)) ->
  Forall rule_conforms (rulesFor i).
Proof.
  intros Hop Hpops Hpush Hgas Hreg. unfold rulesFor. rewrite !List.Forall_app. split_and!.
  - case_if; [|constructor]. constructor; [|constructor]. intros s Hv Hr Ha.
    cbn [r_Condition r_Effect] in *. rewrite applies_And_Forall, all_apply_app, !all_apply_cons in Ha.
    destruct Ha as (Hc & _ & _ & Ho & _ & Hg & _). rewrite applies_gas_lt in Hg. b2p.
    apply fails_FailEffect, Hgas; auto using applies_op_at.
  - case_if; [|constructor]. constructor; [|constructor]. intros s Hv Hr Ha.
    cbn [r_Condition r_Effect] in *. rewrite applies_And_Forall, !all_apply_cons in Ha.
    destruct Ha as (_ & _ & Ho & _ & Hs & _). rewrite applies_size_lt in Hs. b2p.
    apply fails_FailEffect, (fails_by_limits s (i_op i)); [done|auto using applies_op_at|left; lia].
  - case_if; [|constructor]. b2p. constructor; [|constructor]. intros s Hv Hr Ha.
    cbn [r_Condition r_Effect] in *. rewrite applies_And_Forall, all_apply_app, !all_apply_cons in Ha.
    destruct Ha as (_ & _ & _ & Ho & _ & Hs & _). rewrite applies_size_ge in Hs. b2p.
    apply fails_FailEffect, (fails_by_limits s (i_op i)); [done|auto using applies_op_at|right; lia].
  - constructor; [|constructor]. intros s Hv Hr Ha. cbn [r_Condition r_Effect] in *.
    rewrite applies_And_Forall in Ha. unfold regularConditions in Ha.
    rewrite !all_apply_app, !all_apply_cons in Ha.
    destruct Ha as (Hc & (_ & Ho & Hg & Hs1 & Hs2 & _) & _).
    rewrite applies_gas_ge in Hg. rewrite applies_size_ge in Hs1. rewrite applies_size_le in Hs2. b2p.
    apply Hreg; auto using applies_op_at. split; lia.
Qed.

(** ** The regular case *)

(** After the instruction has changed the context, the program counter is
    advanced. *)
Definition agreesD (s s' : st.State) (status : status) (c : ctxt) : Prop :=
  agrees s s' status (set_pc (c_pc c +i32 1) c).

(** The context in which an instruction of [s] is dispatched, with [g] gas. *)
Record ready (s : st.State) (op : OpCode) (g : Z) (c0 : ctxt) (cache : sha3HashCache) (c : ctxt) : Prop := {
  rd_valid : valid s;
  rd_running : st.s_Status s = st.Running;
  rd_op : op_at s op;
  rd_base : base s c0;
  rd_exact : exact c0 (mkCtRunContext s false cache) (st.s_Pc s) g (st.s_GasRefund s) (ct_stack s)
    (st.s_Memory s) (st.s_LastCallReturnData s) c;
  rd_sha : sha_ok (c_withShaCache c0) cache
}.

Lemma ready_pc s op g c0 cache c : ready s op g c0 cache c ->
  0 <= st.s_Pc s < zlen (ct_code s) /\ zlen (ct_code s) <= 24576.
Proof.
  intros [Hv _ Ho _ _ _]. pose proof (op_at_pc _ _ Hv Ho). destruct Hv. unfold st.MaxCodeSize in *. lia.
Qed.

Lemma ready_gas s op g c0 cache c : ready s op g c0 cache c -> 0 <= g < MaxInt64.
Proof. intros [_ _ _ _ [] _]. done. Qed.

Lemma ready_revision s op g c0 cache c : ready s op g c0 cache c ->
  revision c0 = st.s_Revision s.
Proof. intros [_ _ _ [] _ _]. unfold revision. by rewrite base_params0. Qed.

(** The state in which the effect of an instruction starts. *)
Definition regular_state (s : st.State) (g : Z) : st.State :=
  mk s st.Running (st.s_Pc s + 1) g (st.s_GasRefund s) (mkS (ct_stack s) (st.spare (st.s_Stack s)))
    (st.s_Memory s) (st.s_LastCallReturnData s) (st.s_ReturnData s).

Lemma regularEffect_state i s op : valid s -> st.s_Status s = st.Running -> op_at s op ->
  0 <= i_staticGas i <= st.s_Gas s ->
  regularEffect i s = i_effect i (regular_state s (st.s_Gas s - i_staticGas i)).
Proof.
  intros Hv Hr Ho Hg. pose proof (op_at_pc _ _ Hv Ho). destruct Hv. unfold st.MaxCodeSize, st.MaxGasUsedByCt in *.
  unfold regularEffect, regular_state. f_equal. cbn [st.s_Pc st.set_Gas]. rewrite i64_id by (unfold isI64; lia).
  unfold u16. rewrite wrapU_id by lia. rewrite <-ct_stack_mkS. unfold mk. rewrite <-Hr. done.
Qed.

(** The instruction and the effect side by side. *)
Definition effect_ok (s : st.State) (op : OpCode) (m : E unit) (g : Z) (c : ctxt) : Prop :=
  wpE m (fun _ s' => wp (dispatch_ op) (agreesD s s') (fun _ => st.s_Status s' = st.Failed) c)
    (regular_state s g).

Lemma regular_conforms i m s : valid s -> st.s_Status s = st.Running -> op_at s (i_op i) ->
  i_effect i = effect_of m ->
  sl_min (opStackLimits (i_op i)) <= zlen (ct_stack s) <= sl_max (opStackLimits (i_op i)) ->
  0 <= i_staticGas i <= st.s_Gas s -> price s (i_op i) <= st.s_Gas s ->
  (forall c0 cache c, ready s (i_op i) (st.s_Gas s - price s (i_op i)) c0 cache c ->
     effect_ok s (i_op i) m (st.s_Gas s - i_staticGas i) c) ->
  conforms s (regularEffect i).
Proof.
  intros Hv Hr Ho He Hl Hg Hp HE c Hc. pose proof (op_at_pc _ _ Hv Ho) as Hpc.
  rewrite (regularEffect_state i s (i_op i)), He by done.
  rewrite Z.geb_leb, (proj2 (Z.leb_gt _ _)) by lia.
  (* the state the effect ends in does not depend on the context *)
  destruct (effect_of m (regular_state s (st.s_Gas s - i_staticGas i))) as [s'|] eqn:Es.
  - exists s'. split; [done|]. eapply (wp_step s c (i_op i)); [done|done|done|intros; exfalso; lia..|].
    intros _ _ c0 cache c' Hb Hsha Hx.
    destruct (wpE_effect_of _ _ _ (HE c0 cache c' (Build_ready _ _ _ _ _ _ Hv Hr Ho Hb Hx Hsha))) as (s2 & Hs2 & HQ).
    rewrite Es in Hs2. injection Hs2 as <-. exact HQ.
  - exfalso. destruct (started_exact s c Hv Hc) as (cache & Hb & Hsha & Hx).
    set (c' := set_gas (st.s_Gas s - price s (i_op i)) c).
    destruct (wpE_effect_of m (fun _ => True) (regular_state s (st.s_Gas s - i_staticGas i))) as (s2 & Hs2 & _);
      [|congruence].
    assert (ready s (i_op i) (st.s_Gas s - price s (i_op i)) c cache c') as Hrd.
    { constructor; try done. destruct Hx. constructor; try done.
      pose proof (staticPrice_nonneg (st.s_Revision s >=? R09_Berlin) (i_op i)). unfold price in *. lia. }
    pose proof (HE c cache c' Hrd) as HE'. unfold effect_ok, wpE in *. destruct (m _) as [[]|]; done.
Qed.

(** An instruction that continues. *)
Lemma agree_running s c0 ws cache pc g r l m d c pc' g' r' l' sp m' d' rd' :
  exact c0 (mkCtRunContext ws false cache) pc g r l m d c ->
  0 <= pc' < 2 ^ 16 -> pc' = pc + 1 -> g' = g -> r' = r -> l' = l -> m' = m -> d' = d ->
  rd' = st.s_ReturnData s -> st.s_Stack ws = st.s_Stack s -> st.s_ReturnData ws = st.s_ReturnData s ->
  agreesD s (mk ws st.Running pc' g' r' (mkS l' sp) m' d' rd') statusRunning c.
Proof.
  intros [] Hpc -> -> -> -> -> -> -> Hs Hr. exists ws, cache, (mkS l sp). cbn.
  rewrite ex_pc, i32_id by lia. split_and!; [done..|lia|lia|by rewrite ex_view|].
  by rewrite ex_gas, ex_refund, ex_store, ex_data.
Qed.

(** An instruction with the static price and the stack limits of the
    interpreter. *)
Definition matches (op : OpCode) (gas pops pushes : Z) : Prop :=
  op <> STOP /\ 0 <= gas /\ (forall b, staticPrice b op = gas)
  /\ opStackLimits op = mkStackLimits pops (st.MaxStackSize - Z.max (pushes - pops) 0).

Lemma ordinary_conforms op gas pops pushes conds params m : matches op gas pops pushes ->
  (forall s c0 cache c, all_apply conds s ->
     pops <= zlen (ct_stack s) <= st.MaxStackSize - Z.max (pushes - pops) 0 ->
     ready s op (st.s_Gas s - gas) c0 cache c ->
     effect_ok s op m (st.s_Gas s - gas) c) ->
  Forall rule_conforms (rulesFor (mkInstruction op gas pops pushes conds params (effect_of m))).
Proof.
  intros (Hop & Hg0 & Hprice & Hlim) HE. apply rulesFor_conforms; cbn [i_op i_pops i_pushes i_staticGas i_conditions];
    rewrite ?Hlim; cbn [sl_min sl_max]; [done|lia|lia|..].
  - intros s Hv Hr Ho Hc Hg. apply (fails_by_gas s op); [done..|]. unfold price. by rewrite Hprice.
  - intros s Hv Hr Ho Hc Hg Hw. unfold within in Hw. cbn in Hw.
    apply (regular_conforms _ m); cbn [i_op i_staticGas i_effect]; rewrite ?Hlim; cbn [sl_min sl_max]; try done.
    + unfold price. by rewrite Hprice.
    + unfold price. rewrite Hprice. intros c0 cache c Hrd. by eapply HE.
Qed.

(** An instruction that charges a part of the static price of its rule on its
    own. *)
Lemma priced_conforms op gas pops pushes conds params m : op <> STOP -> 0 <= gas ->
  opStackLimits op = mkStackLimits pops (st.MaxStackSize - Z.max (pushes - pops) 0) ->
  (forall s, valid s -> all_apply conds s -> price s op <= gas) ->
  (forall s c0 cache c, all_apply conds s ->
     pops <= zlen (ct_stack s) <= st.MaxStackSize - Z.max (pushes - pops) 0 ->
     ready s op (st.s_Gas s - price s op) c0 cache c ->
     (st.s_Gas s < gas -> wp (dispatch_ op) (fun _ _ => False) (fun _ => True) c)
     /\ (gas <= st.s_Gas s -> effect_ok s op m (st.s_Gas s - gas) c)) ->
  Forall rule_conforms (rulesFor (mkInstruction op gas pops pushes conds params (effect_of m))).
Proof.
  intros Hop Hg0 Hlim Hp HE. apply rulesFor_conforms; cbn [i_op i_pops i_pushes i_staticGas i_conditions];
    rewrite ?Hlim; cbn [sl_min sl_max]; [done|lia|lia|..].
  - intros s Hv Hr Ho Hc Hg. apply (fails_by_dispatch s op); [done..|]. rewrite Hlim. cbn [sl_min sl_max].
    intros Hl _ c0 cache c Hb Hsha Hx. apply (HE s c0 cache c); [done|lia|by constructor|done].
  - intros s Hv Hr Ho Hc Hg Hw. unfold within in Hw. cbn in Hw. specialize (Hp s Hv Hc).
    apply (regular_conforms _ m); cbn [i_op i_staticGas i_effect]; rewrite ?Hlim; cbn [sl_min sl_max]; try done.
    + lia.
    + intros c0 cache c Hrd. by apply (HE s c0 cache c).
Qed.

(** An instruction that fails in its regular case. *)
Lemma failing_conforms op gas pops pushes conds params : op <> STOP -> 0 <= gas ->
  pops <= sl_min (opStackLimits op) -> (pushes > pops -> sl_max (opStackLimits op) < st.MaxStackSize) ->
  (forall s c0 cache c, all_apply conds s -> sl_min (opStackLimits op) <= zlen (ct_stack s) ->
     ready s op (st.s_Gas s - price s op) c0 cache c ->
     wp (dispatch_ op) (fun _ _ => False) (fun _ => True) c) ->
  Forall rule_conforms (rulesFor (mkInstruction op gas pops pushes conds params FailEffect)).
Proof.
  intros Hop Hg0 Hl1 Hl2 HD.
  assert (forall s, valid s -> st.s_Status s = st.Running -> op_at s op -> all_apply conds s -> step_fails s) as Hf.
  { intros s Hv Hr Ho Hc. apply (fails_by_dispatch s op); [done..|]. intros Hl _ c0 cache c Hb Hsha Hx.
    apply (HD s c0 cache c); [done|lia|by constructor]. }
  apply rulesFor_conforms; cbn [i_op i_pops i_pushes i_staticGas i_conditions]; [done..| |].
  - intros. by apply Hf.
  - intros s Hv Hr Ho Hc Hg _. eapply step_fails_conforms; [by apply Hf|reflexivity|done].
Qed.

(** A rule on its own whose instruction fails. *)
Lemma failing_rule_conforms op conds params : op <> STOP -> In (cEq (eOp ePc) op) conds ->
  (forall s c0 cache c, all_apply conds s -> sl_min (opStackLimits op) <= zlen (ct_stack s) ->
     ready s op (st.s_Gas s - price s op) c0 cache c ->
     wp (dispatch_ op) (fun _ _ => False) (fun _ => True) c) ->
  rule_conforms (mkRule (And conds) params FailEffect).
Proof.
  intros Hop Hin HD s Hv Hr Ha. cbn [r_Condition r_Effect] in *. rewrite applies_And_Forall in Ha.
  apply fails_FailEffect. assert (op_at s op) as Ho.
  { apply applies_op_at; [done..|]. unfold all_apply in Ha. rewrite List.Forall_forall in Ha. by apply Ha. }
  apply (fails_by_dispatch s op); [done..|]. intros Hl _ c0 cache c Hb Hsha Hx.
  apply (HD s c0 cache c); [done|lia|by constructor].
Qed.

(** An instruction that the revisions [min] to [max] do not have. *)
Lemma invalidRevision_conforms op min max : op <> STOP ->
  (forall s c0 cache c, min <= st.s_Revision s <= max -> sl_min (opStackLimits op) <= zlen (ct_stack s) ->
     ready s op (st.s_Gas s - price s op) c0 cache c ->
     wp (dispatch_ op) (fun _ _ => False) (fun _ => True) c) ->
  Forall rule_conforms [invalidRevisionRule op min max].
Proof.
  intros Hop HD. constructor; [|constructor]. apply (failing_rule_conforms op); [done|cbn; auto|].
  intros s c0 cache c Ha Hl Hrd. rewrite !all_apply_cons, applies_revision in Ha.
  destruct Ha as (Hrev & _). b2p. eapply HD; [|done..]. lia.
Qed.

End Conform.

(** ** Symbolic execution *)

Section Fields.
Context (ws : st.State) (status : st.StatusCode) (pc g r : Z) (stk : st.Stack) (m : st.Memory) (d rd : Bytes).
Abbreviation mk_ := (mk ws status pc g r stk m d rd).

(** Assignments to a state in the form [mk]. *)
Lemma set_Status_mk v : st.set_Status v mk_ = mk ws v pc g r stk m d rd. Proof. done. Qed.
Lemma set_Pc_mk v : st.set_Pc v mk_ = mk ws status v g r stk m d rd. Proof. done. Qed.
Lemma set_Gas_mk v : st.set_Gas v mk_ = mk ws status pc v r stk m d rd. Proof. done. Qed.
Lemma set_GasRefund_mk v : st.set_GasRefund v mk_ = mk ws status pc g v stk m d rd. Proof. done. Qed.
Lemma set_Memory_mk v : st.set_Memory v mk_ = mk ws status pc g r stk v d rd. Proof. done. Qed.
Lemma set_LastCallReturnData_mk v : st.set_LastCallReturnData v mk_ = mk ws status pc g r stk m v rd.
Proof. done. Qed.
Lemma set_ReturnData_mk v : st.set_ReturnData v mk_ = mk ws status pc g r stk m d v. Proof. done. Qed.
Lemma set_Storage_mk v : st.set_Storage v mk_ = mk (st.set_Storage v ws) status pc g r stk m d rd.
Proof. done. Qed.
Lemma set_TransientStorage_mk v :
  st.set_TransientStorage v mk_ = mk (st.set_TransientStorage v ws) status pc g r stk m d rd.
Proof. done. Qed.
Lemma set_Accounts_mk v : st.set_Accounts v mk_ = mk (st.set_Accounts v ws) status pc g r stk m d rd.
Proof. done. Qed.
Lemma set_Logs_mk v : st.set_Logs v mk_ = mk (st.set_Logs v ws) status pc g r stk m d rd.
Proof. done. Qed.
Lemma set_CallJournal_mk v : st.set_CallJournal v mk_ = mk (st.set_CallJournal v ws) status pc g r stk m d rd.
Proof. done. Qed.
Lemma set_HasSelfDestructed_mk v :
  st.set_HasSelfDestructed v mk_ = mk (st.set_HasSelfDestructed v ws) status pc g r stk m d rd.
Proof. done. Qed.
Lemma set_SelfDestructedJournal_mk v :
  st.set_SelfDestructedJournal v mk_ = mk (st.set_SelfDestructedJournal v ws) status pc g r stk m d rd.
Proof. done. Qed.
End Fields.

Create Rewrite HintDb mk.
#[export] Hint Rewrite set_Status_mk set_Pc_mk set_Gas_mk set_GasRefund_mk set_Memory_mk
  set_LastCallReturnData_mk set_ReturnData_mk set_Storage_mk set_TransientStorage_mk set_Accounts_mk
  set_Logs_mk set_CallJournal_mk set_HasSelfDestructed_mk set_SelfDestructedJournal_mk : mk.

(** Reads the fields of a state in the form [mk]. *)
Ltac fields := cbn [mk st.s_Status st.s_Revision st.s_ReadOnly st.s_Pc st.s_Gas st.s_GasRefund st.s_Code
  st.s_Stack st.s_Memory st.s_Storage st.s_TransientStorage st.s_Accounts st.s_Logs st.s_CallContext
  st.s_CallJournal st.s_BlockContext st.s_CallData st.s_LastCallReturnData st.s_ReturnData
  st.s_IsNewContract st.s_HasSelfDestructed st.s_SelfDestructedJournal st.s_RecentBlockHashes
  st.s_TransactionContext st.set_Storage st.set_TransientStorage st.set_Accounts st.set_Logs
  st.set_CallJournal st.set_HasSelfDestructed st.set_SelfDestructedJournal].

(** A step of the effect. *)
Ltac p_step :=
  lazymatch goal with
  | |- wpE (mbind _ _) _ _ => apply wpE_bind
  | |- wpE (mret _) _ _ => apply wpE_ret
  | |- wpE s_pop _ _ => apply p_pop
  | |- wpE (s_push _) _ _ => apply p_push
  | |- wpE (getS ?f) ?Q ?s =>
      let v := eval cbv beta in (f s) in
      let v := eval cbn [mk st.s_Status st.s_Revision st.s_ReadOnly st.s_Pc st.s_Gas st.s_GasRefund st.s_Code
        st.s_Stack st.s_Memory st.s_Storage st.s_TransientStorage st.s_Accounts st.s_Logs st.s_CallContext
        st.s_CallJournal st.s_BlockContext st.s_CallData st.s_LastCallReturnData st.s_ReturnData
        st.s_IsNewContract st.s_HasSelfDestructed st.s_SelfDestructedJournal st.s_RecentBlockHashes
        st.s_TransactionContext st.set_Storage st.set_TransientStorage st.set_Accounts st.set_Logs
        st.set_CallJournal st.set_HasSelfDestructed st.set_SelfDestructedJournal] in v in
      change (Q v s); cbv beta
  | |- wpE (setS _) _ _ => apply wpE_setS; autorewrite with mk
  | |- wpE (let _ := _ in _) _ _ => cbv zeta
  end.

Ltac ps := repeat p_step.

(** A step of the interpreter; [H] describes its context. *)
Ltac m_step H :=
  lazymatch goal with
  | |- wp (running _) _ _ _ => unfold running
  | |- wp (mbind _ _) _ _ _ => apply wp_bind
  | |- wp (mret _) _ _ _ => apply wp_ret
  | |- wp pop _ _ _ => eapply e_pop; [exact H|clear H; intros ? H]
  | |- wp peek _ _ _ => eapply e_peek; [exact H|]
  | |- wp (setTop _) _ _ _ => eapply e_setTop; [exact H|clear H; intros ? H]
  | |- wp (push _) _ _ _ => eapply e_push; [exact H|lia|clear H; intros ? H]
  | |- wp pushUndefined _ _ _ => eapply e_pushUndefined; [exact H|lia|clear H; intros ? ? H]
  | |- wp (pushValue _) _ _ _ => eapply e_pushValue; [exact H|lia|clear H; intros ? H]
  | |- wp (host_read _) _ _ _ => eapply e_host_read; [exact H|]
  | |- wp (host _) _ _ _ => eapply e_host; [exact H|clear H; intros ? H]
  | |- wp (host_ _) _ _ _ => eapply e_host_; [exact H|clear H; intros ? H]
  | |- wp (addRefund _) _ _ _ => eapply e_addRefund; [exact H|clear H; intros ? H]
  | |- wp (gets c_params) _ _ _ => apply wp_gets; rewrite (ex_params _ _ _ _ _ _ _ _ _ H)
  | |- wp (gets c_gas) _ _ _ => apply wp_gets; rewrite (ex_gas _ _ _ _ _ _ _ _ _ H)
  | |- wp (gets c_pc) _ _ _ => apply wp_gets; rewrite (ex_pc _ _ _ _ _ _ _ _ _ H)
  | |- wp (gets c_returnData) _ _ _ => apply wp_gets; rewrite (ex_data _ _ _ _ _ _ _ _ _ H)
  | |- wp (gets c_withShaCache) _ _ _ => apply wp_gets; rewrite (ex_sha _ _ _ _ _ _ _ _ _ H)
  | |- wp (gets revision) _ _ _ => apply wp_gets; unfold revision; rewrite (ex_params _ _ _ _ _ _ _ _ _ H)
  | |- wp (gets block) _ _ _ => apply wp_gets; unfold block; rewrite (ex_params _ _ _ _ _ _ _ _ _ H)
  | |- wp (gets (isAtLeast _)) _ _ _ => apply wp_gets; rewrite (exact_revision _ _ _ _ _ _ _ _ _ _ H)
  | |- wp (fail _) _ _ _ => apply wp_fail
  | |- wp (fail_if true _) _ _ _ => apply wp_fail
  | |- wp (fail_if false _) _ _ _ => apply wp_ret
  | |- wp (let _ := _ in _) _ _ _ => cbv zeta
  end.

Ltac ms H := repeat m_step H.

(** The facts of a context ready for an instruction. *)
Ltac opened Hrd :=
  pose proof (ready_revision _ _ _ _ _ _ _ _ Hrd) as Hrev; pose proof (ready_pc _ _ _ _ _ _ _ _ Hrd) as Hpc;
  pose proof (ready_gas _ _ _ _ _ _ _ _ Hrd) as Hg; destruct Hrd as [Hv _ Hop Hb Hx Hshac].

(** The bounds [Hl] of the stack once it has been taken apart; there are
    enough operands. *)
Ltac sized Hl :=
  rewrite ?zlen_cons in Hl; unfold st.MaxStackSize in Hl; try (unfold zlen in Hl; cbn in Hl; lia).

(** The revision is at least, or below, the one that is asked for. *)
Ltac since Hrev :=
  rewrite Hrev, Z.geb_leb, (proj2 (Z.leb_le _ _))
    by (unfold R07_Istanbul, R09_Berlin, R10_London, R11_Paris, R12_Shanghai, R13_Cancun, R14_Prague, R15_Osaka in *; lia);
  cbn [negb].
Ltac before Hrev :=
  rewrite Hrev, Z.geb_leb, (proj2 (Z.leb_gt _ _))
    by (unfold R07_Istanbul, R09_Berlin, R10_London, R11_Paris, R12_Shanghai, R13_Cancun, R14_Prague, R15_Osaka in *; lia);
  cbn [negb].

(** The end of an instruction that continues. *)
Ltac agreed H := eapply agree_running; [exact H|..]; try (done || lia).

(** The price and the stack limits of a concrete instruction. *)
Ltac matched := split; [discriminate|split; [lia|split; [by intros []|reflexivity]]].

(** Takes [a]pplicability of revision conditions and the static mode apart. *)
Ltac conditions H :=
  unfold sinceBerlin, sinceCancun, IsRevision, AnyKnownRevision in H;
  rewrite ?all_apply_app, ?all_apply_cons, ?applies_revision, ?applies_readOnly in H; 
  repeat match type of H with _ /\ _ => let H' := fresh H in destruct H as [H' H] end; b2p.

(** The parameters of the run, in the goal and in [H]. *)
Ltac vmparams Hb :=
  rewrite ?(base_params _ _ _ Hb); cbn [ToVmParameters p_Block p_Tx p_Kind p_Static p_Recipient p_Sender
    p_Input p_Value p_Code bp_ChainID bp_BlockNumber bp_Timestamp bp_Coinbase bp_GasLimit bp_PrevRandao
    bp_BaseFee bp_BlobBaseFee bp_Revision tp_Origin tp_GasPrice tp_BlobHashes].

Ltac vmparams_in Hb H :=
  rewrite ?(base_params _ _ _ Hb) in H; cbn [ToVmParameters p_Block p_Tx p_Kind p_Static p_Recipient p_Sender
    p_Input p_Value p_Code bp_ChainID bp_BlockNumber bp_Timestamp bp_Coinbase bp_GasLimit bp_PrevRandao
    bp_BaseFee bp_BlobBaseFee bp_Revision tp_Origin tp_GasPrice tp_BlobHashes] in H.

(** The methods of the run context. *)
Ltac vmhost := cbn [ws_GetBalance ws_GetNonce ws_GetCode ws_GetCodeHash ws_GetCodeSize ws_GetStorage ws_SetStorage
  ws_SelfDestruct tc_GetTransientStorage tc_SetTransientStorage tc_AccessAccount tc_AccessStorage tc_EmitLog
  tc_GetBlockHash rc_Call tc_world rc_context ctWorldState ctTransactionContext ctRunContext_instance
  w_state w_panicked w_sha3Cache fst snd]; unfold U256_Bytes32be.

Ltac vmhost_in H := cbn [ws_GetBalance ws_GetNonce ws_GetCode ws_GetCodeHash ws_GetCodeSize ws_GetStorage
  ws_SetStorage ws_SelfDestruct tc_GetTransientStorage tc_SetTransientStorage tc_AccessAccount tc_AccessStorage
  tc_EmitLog tc_GetBlockHash rc_Call tc_world rc_context ctWorldState ctTransactionContext ctRunContext_instance
  w_state w_panicked w_sha3Cache fst snd] in H; unfold U256_Bytes32be in H.

(** Evaluates the parameters in the condition [H]. *)
Ltac param H Hst :=
  unfold applies, Param, ValueParam in H; cbn [Condition_Check] in H;
  cbv beta delta [eq_Check ne_Check lt_Check le_Check
    gt_Check ge_Check revisionBounds_Check isCode_Check
    isData_Check isStorageWarm_Check isStorageCold_Check storageConfiguration_Check
    bindTransientStorageToNonZero_Check bindTransientStorageToZero_Check accountIsEmpty_Check accountIsNotEmpty_Check
    isAddressWarm_Check isAddressCold_Check isNewContract_Check isNotNewContract_Check
    hasSelfDestructed_Check hasNotSelfDestructed_Check inRange256FromCurrentBlock_Check outOfRange256FromCurrentBlock_Check
    hasBlobHash_Check hasNoBlobHash_Check containsDelegationDesignation_Check conjunction_Check] in H;
  rewrite ?(Eval_param0 _ _ _ _ Hst) in H;
  try rewrite (Eval_param1 _ _ _ _ _ Hst) in H;
  try rewrite (Eval_param2 _ _ _ _ _ _ Hst) in H;
  cbn [eval_bind negated] in H; rewrite ?applies_bool in H.
