(* ===== verification/CtConformArith.v ===== *)
(** * Conformance: arithmetic and the environment *)
From Stdlib Require Import ZArith Lia Strings.Byte.
From stdpp Require Import base list numbers gmap.
From S2P Require Import Prelude Uint256 Types OpCodes SfvmStack SfvmAnalysis SfvmHashCache SfvmContext SfvmMemory.
From S2P Require Import SfvmGas SfvmInstructions SfvmInterpreter SfvmLogic SfvmSafety SfvmExecution CtSlices CtCommon CtState.
From S2P Require Import CtRules CtEffects CtSpec CtAdapter CtStateFacts CtExec CtSim CtConform.
Set Default Goal Selector "!".
Local Open Scope Z_scope.
Local Open Scope go_scope.

(** ** Words *)

Section Words.
Context {U : Uint256} {UL : Uint256Laws U}.

Lemma boolToU256_word b : boolToU256 b = if b then Int_SetOne else Int_Clear.
Proof. unfold boolToU256. destruct b; by apply NewU256_NewInt. Qed.

Lemma NewU256_zero : NewU256 0 = Int_Clear.
Proof. by apply NewU256_NewInt. Qed.

Lemma eq_flag a b : boolToU256 (U256_Eq a b) = if Int_Cmp a b =? 0 then of_Z 1 else of_Z 0.
Proof.
  unfold U256_Eq, boolToU256, NewU256. rewrite Cmp_law.
  destruct (Z.compare_spec (uval a) (uval b)) as [E|E|E]; cbn.
  - by rewrite bool_decide_eq_true_2 by (by apply u256_eq).
  - rewrite bool_decide_eq_false_2; [done|]. intros ->. lia.
  - rewrite bool_decide_eq_false_2; [done|]. intros ->. lia.
Qed.

(** The byte with the given number of bytes after it. *)
Lemma be_byte l (i : nat) b : l !! i = Some b ->
  byte_val b = be_val l / 256 ^ (zlen l - Z.of_nat i - 1) mod 256.
Proof.
  intros H. pose proof (lookup_lt_Some _ _ _ H) as Hl. rewrite <-(take_drop_middle l i b H) at 1.
  rewrite be_val_app, be_val_cons. set (t := drop (S i) l).
  assert (zlen (b :: t) = zlen t + 1) as -> by (by rewrite zlen_cons).
  replace (zlen l - Z.of_nat i - 1) with (zlen t) by (unfold t, zlen; rewrite length_drop; lia).
  pose proof (be_val_range t) as Ht. pose proof (byte_val_range b). pose proof (zlen_nonneg t).
  assert (0 < 256 ^ zlen t) by (apply Z.pow_pos_nonneg; lia).
  rewrite Z.pow_add_r, Z.pow_1_r by lia.
  replace (be_val (take i l) * (256 ^ zlen t * 256) + (byte_val b * 256 ^ zlen t + be_val t))
    with (be_val t + (be_val (take i l) * 256 + byte_val b) * 256 ^ zlen t) by ring.
  rewrite Z.div_add, (Z.div_small (be_val t)), Z.add_0_l by lia.
  rewrite Z.add_comm, Z.mod_add, Z.mod_small by lia. done.
Qed.

Lemma byteOf_word i x : byteOf i x = Int_Byte x i.
Proof.
  apply u256_eq. rewrite Byte_law. unfold byteOf, U256_Gt. rewrite Gt_law, NewU256_uval, Z.gtb_ltb by done.
  pose proof (uval_range i). destruct (Z.ltb_spec 31 (uval i)) as [Hi|Hi].
  - rewrite (proj2 (Z.ltb_ge _ _)), NewU256_uval by (done || lia). done.
  - rewrite (proj2 (Z.ltb_lt _ _)) by lia. unfold U256_Uint64, U256_Bytes32be.
    rewrite Uint64_law, Z.mod_small by lia.
    destruct (lookup_lt_is_Some_2 (arr_bytes (Int_Bytes32 x)) (Z.to_nat (uval i))) as [b Hb].
    { rewrite array_length. lia. }
    rewrite Hb. cbn [from_option id]. pose proof (byte_val_range b).
    rewrite NewU256_uval by (unfold isU64; lia). rewrite (be_byte _ _ _ Hb), Bytes32_law, zlen_arr.
    rewrite Z.shiftr_div_pow2 by lia. do 2 f_equal. rewrite (Z.pow_mul_r 2 8) by lia. change (2 ^ 8) with 256. f_equal. lia.
Qed.

Lemma srsh_word a b : U256_Srsh b a =
  if Int_GtUint64 a 256 then (if Int_Sign b >=? 0 then Int_Clear else Int_SetAllOne) else Int_SRsh b (Int_Uint64 a).
Proof.
  unfold U256_Srsh. case_if; [|done]. rewrite NewU256_zero, IsZero_law, Sign_law.
  destruct (Z.eqb_spec (uval b) 0) as [Hz|]; [|done]. cbn [orb]. unfold sval. rewrite Hz. done.
Qed.

(** The costs of an exponent: 50 for each of its bytes. *)
Lemma expCost_loop_spec l : zlen l <= 32 ->
  expCost_loop (32 - zlen l) l = 50 * ((bit_length (be_val l) + 7) / 8).
Proof.
  induction l as [|b l IH]; intros Hl; [done|]. cbn [expCost_loop]. rewrite zlen_cons, be_val_cons in *.
  pose proof (byte_val_range b). pose proof (be_val_range l) as Hr. pose proof (zlen_nonneg l).
  destruct (Z.eqb_spec (byte_val b) 0) as [Hz|Hz]; cbn [negb].
  { rewrite Hz, Z.mul_0_l, Z.add_0_l. rewrite <-IH by lia. f_equal. lia. }
  rewrite i64_id by (unfold isI64; lia).
  assert (0 < 256 ^ zlen l) by (apply Z.pow_pos_nonneg; lia).
  set (v := byte_val b * 256 ^ zlen l + be_val l).
  assert (2 ^ (8 * zlen l) <= v < 2 ^ (8 * zlen l + 8)) as Hv.
  { rewrite Z.pow_add_r, (Z.pow_mul_r 2 8) by lia. change (2 ^ 8) with 256. unfold v. nia. }
  assert (0 < 2 ^ (8 * zlen l)) by (apply Z.pow_pos_nonneg; lia).
  assert (8 * zlen l <= Z.log2 v < 8 * zlen l + 8) as Hlog.
  { split; [apply Z.log2_le_pow2|apply Z.log2_lt_pow2]; lia. }
  unfold bit_length. rewrite (proj2 (Z.eqb_neq v 0)) by lia. divlia.
Qed.

Lemma expCost_word e : expCost e = 50 * Int_ByteLen e /\ 0 <= expCost e <= 1600.
Proof.
  unfold expCost, U256_Bytes32be. pose proof (expCost_loop_spec (arr_bytes (Int_Bytes32 e))) as H.
  rewrite zlen_arr, Bytes32_law in H. change (32 - Z.of_nat 32) with 0 in H. rewrite H, ByteLen_law by lia.
  split; [done|]. pose proof (bit_length_range e). divlia.
Qed.

End Words.

(** ** Rules *)

Section Arith.
Context {U : Uint256} {UL : Uint256Laws U}.
Context (Keccak256 : list byte -> Hash) (Keccak256For32byte : array 32 -> Hash).
Abbreviation conform := (Forall (rule_conforms Keccak256 Keccak256For32byte)).
Abbreviation dispatch_ := (dispatch (RC := ctRunContext_instance Keccak256) (G := ctGlobals)
  Keccak256 Keccak256For32byte).


(** An instruction that replaces its operands by a value. *)
Definition replaces (op : OpCode) (s : st.State) (g : Z) (c0 : context ctRunContext)
    (cache : sha3HashCache) (l : list U256) (c : context ctRunContext) : Prop :=
  wp (dispatch_ op) (fun status c' => status = statusRunning
    /\ exact c0 (mkCtRunContext s false cache) (st.s_Pc s) g (st.s_GasRefund s) l
         (st.s_Memory s) (st.s_LastCallReturnData s) c') (fun _ => False) c.

Lemma replaces_agrees op s g c0 cache c l sp : ready Keccak256 Keccak256For32byte s op g c0 cache c ->
  replaces op s g c0 cache l c ->
  let s' := mk s st.Running (st.s_Pc s + 1) g (st.s_GasRefund s) (mkS l sp) (st.s_Memory s)
              (st.s_LastCallReturnData s) (st.s_ReturnData s) in
  wp (dispatch_ op) (agreesD s s') (fun _ => st.s_Status s' = st.Failed) c.
Proof.
  intros [Hv Hr Ho Hb _] HD. eapply wp_mono; [exact HD|cbv beta|done]. intros status c' [-> H].
  pose proof (op_at_pc _ _ Hv Ho). destruct Hv. unfold st.MaxCodeSize in *. agreed H.
Qed.

Lemma unary_conforms op gas conds params f : matches op gas 1 1 ->
  (forall s g c0 cache a l c, all_apply conds s -> ready Keccak256 Keccak256For32byte s op g c0 cache c -> ct_stack s = a :: l ->
     replaces op s g c0 cache (f a :: l) c) ->
  conform (rulesFor (mkInstruction op gas 1 1 conds params (effect_of (unaryEffect f)))).
Proof.
  intros Hm HD. apply ordinary_conforms; [done|]. intros s c0 cache c Hc Hl Hrd. unfold effect_ok, regular_state.
  destruct (ct_stack s) as [|a l] eqn:Hst; [unfold zlen in Hl; cbn in Hl; lia|].
  unfold unaryEffect. ps. by eapply replaces_agrees, HD.
Qed.

Lemma binaryOp_conforms op gas f : matches op gas 2 1 ->
  (forall s g c0 cache a b l c, ready Keccak256 Keccak256For32byte s op g c0 cache c -> ct_stack s = a :: b :: l ->
     replaces op s g c0 cache (f a b :: l) c) ->
  conform (binaryOp op gas f).
Proof.
  intros Hm HD. apply ordinary_conforms; [done|]. intros s c0 cache c _ Hl Hrd. unfold effect_ok, regular_state.
  destruct (ct_stack s) as [|a [|b l]] eqn:Hst; try (unfold zlen in Hl; cbn in Hl; lia).
  pose proof (ex_max _ _ _ _ _ _ _ _ _ (rd_exact _ _ _ _ _ _ _ _ Hrd)).
  unfold binaryEffect. ps. apply p_charge; [done|done|lia|].
  intros _. rewrite Z.sub_0_r. ps. by eapply replaces_agrees, HD.
Qed.

Lemma trinaryOp_conforms op gas f : matches op gas 3 1 ->
  (forall s g c0 cache a b d l c, ready Keccak256 Keccak256For32byte s op g c0 cache c -> ct_stack s = a :: b :: d :: l ->
     replaces op s g c0 cache (f a b d :: l) c) ->
  conform (trinaryOp op gas f).
Proof.
  intros Hm HD. apply ordinary_conforms; [done|]. intros s c0 cache c _ Hl Hrd. unfold effect_ok, regular_state.
  destruct (ct_stack s) as [|a [|b [|d l]]] eqn:Hst; try (unfold zlen in Hl; cbn in Hl; lia).
  unfold trinaryEffect. ps. by eapply replaces_agrees, HD.
Qed.

(** The instruction of an arithmetic operation. *)
Ltac arith :=
  let s := fresh "s" in let Hst := fresh "Hst" in let H := fresh "H" in
  intros s;
  repeat lazymatch goal with |- forall _, _ => let x := fresh in intro x end;
  match goal with Hs : ct_stack s = _, Hrd : ready _ _ _ _ _ _ _ _ |- _ =>
    destruct Hrd as [_ _ _ _ H _]; rewrite Hs in H end;
  unfold replaces, dispatch;
  unfold opAdd, opSub, opMul, opDiv, opSDiv, opMod, opSMod, opAddMod, opMulMod, opSignExtend, opLt, opGt,
    opSlt, opSgt, opEq, opIszero, opAnd, opOr, opXor, opNot, opByte, opShl, opShr, binary, comparison;
  ms H; split; [done|];
  rewrite ?eq_flag, ?boolToU256_word, ?byteOf_word; unfold U256_Shl, U256_Shr; rewrite ?NewU256_zero; exact H.

Lemma comparisonRules_conform : conform comparisonRules.
Proof.
  unfold comparisonRules. rewrite !List.Forall_app. split_and!;
    lazymatch goal with
    | |- conform (binaryOp SAR _ _) => idtac
    | |- conform (binaryOp _ _ _) => apply binaryOp_conforms; [matched|arith]
    | |- conform (unaryOp _ _ _) => apply unary_conforms; [matched|arith]
    end.
  apply binaryOp_conforms; [matched|]. intros s g c0 cache a b l c [_ _ _ _ H] Hst. rewrite Hst in H.
  unfold replaces, dispatch, opSar. ms H. rewrite srsh_word. apply wp_if; intros ->; ms H; by split.
Qed.

Lemma exp_conforms : conform (binaryOpWithDynamicCost EXP 10 U256_Exp (fun _ e => expCost e)).
Proof.
  apply ordinary_conforms; [matched|]. intros s c0 cache c _ Hl Hrd. unfold effect_ok, regular_state.
  pose proof (ready_pc _ _ _ _ _ _ _ _ Hrd) as Hpc. pose proof (ready_gas _ _ _ _ _ _ _ _ Hrd) as Hg.
  destruct Hrd as [_ _ _ Hb H _].
  destruct (ct_stack s) as [|a [|b l]] eqn:Hst; try (unfold zlen in Hl; cbn in Hl; lia).
  destruct (expCost_word b) as [Hc Hc'].
  assert (i64 (50 * Int_ByteLen b) = expCost b) as Hi by (rewrite Hc; apply i64_id; unfold isI64; lia).
  unfold binaryEffect, dispatch, opExp. ps.
  apply p_charge; [done|lia|intros Hlt|intros Hge; ps]; ms H; rewrite Hi.
  - eapply e_useGas; [exact H|done|]. lia.
  - eapply e_useGas; [exact H|lia|]. clear H. intros _ ? H. ms H. agreed H.
Qed.

Lemma arithmeticRules_conform : conform arithmeticRules.
Proof.
  unfold arithmeticRules. rewrite !List.Forall_app. split_and!;
    lazymatch goal with
    | |- conform (binaryOp _ _ _) => apply binaryOp_conforms; [matched|arith]
    | |- conform (trinaryOp _ _ _) => apply trinaryOp_conforms; [matched|arith]
    | |- _ => apply exp_conforms
    end.
Qed.

Lemma clzRules_conform : conform clzRules.
Proof.
  unfold clzRules. apply List.Forall_app. split.
  - apply (unary_conforms _ _ _ _ (fun x => NewU256 (256 -u64 u64 (U256_BitLen x)))); [matched|].
    intros s g c0 cache a l c Ha Hrd Hst. conditions Ha. pose proof (ready_revision _ _ _ _ _ _ _ _ Hrd) as Hrev.
    destruct Hrd as [_ _ _ _ Hx _]. rewrite Hst in Hx. unfold replaces, dispatch, opClz. ms Hx.
    rewrite Hrev, Z.geb_leb, (proj2 (Z.leb_le _ _)) by lia. cbn [negb]. ms Hx. split; [done|].
    rewrite NewU256_NewInt by apply u64_range. exact Hx.
  - apply invalidRevision_conforms; [done|]. intros s c0 cache c Hr Hl Hrd.
    pose proof (ready_revision _ _ _ _ _ _ _ _ Hrd) as Hrev. destruct Hrd as [_ _ _ _ Hx _].
    unfold dispatch, opClz. ms Hx. rewrite Hrev, Z.geb_leb, (proj2 (Z.leb_gt _ _)); [by ms Hx|].
    unfold R14_Prague, R15_Osaka in *. lia.
Qed.

End Arith.

(** ** Conformance: the environment, the stack and the control flow *)

(** ** Words *)

Section Words.
Context {U : Uint256} {UL : Uint256Laws U}.

Lemma u64_u64 x : u64 (u64 x) = u64 x.
Proof. apply u64_id, u64_range. Qed.

Lemma u64_i64 x : u64 (i64 x) = u64 x.
Proof.
  unfold u64, i64, wrapU, wrapS. rewrite Zminus_mod_idemp_l. f_equal. lia.
Qed.

Lemma NewU256_word x : NewU256 x = Int_SetUint64 (u64 x).
Proof.
  rewrite <-(NewU256_NewInt (u64 x)) by apply u64_range. unfold NewU256. by rewrite u64_u64.
Qed.

Lemma FromBytes_short l : zlen l <= 32 -> NewU256FromBytes l = Some (Int_SetBytes l).
Proof. intros H. unfold NewU256FromBytes. by rewrite (proj2 (Z.ltb_ge _ _)) by lia. Qed.

Lemma SetBytes_20 (a : array 20) : Int_SetBytes (arr_bytes a) = Int_SetBytes20 (arr_bytes a).
Proof.
  apply u256_eq. rewrite SetBytes_law, SetBytes20_law by apply zlen_arr.
  pose proof (be_val_range (arr_bytes a)) as H. rewrite zlen_arr in H. apply Z.mod_small. unfold M256. lia.
Qed.

Lemma SetBytes_32 (a : array 32) : Int_SetBytes (arr_bytes a) = Int_SetBytes32 (arr_bytes a).
Proof.
  apply u256_eq. rewrite SetBytes_law, SetBytes32_law by apply zlen_arr.
  pose proof (be_val_range (arr_bytes a)) as H. rewrite zlen_arr in H. apply Z.mod_small. unfold M256. lia.
Qed.

Lemma FromBytes_20 (a : array 20) : NewU256FromBytes (arr_bytes a) = Some (Int_SetBytes20 (arr_bytes a)).
Proof. rewrite FromBytes_short by (rewrite zlen_arr; lia). by rewrite SetBytes_20. Qed.

Lemma FromBytes_32 (a : array 32) : NewU256FromBytes (arr_bytes a) = Some (Int_SetBytes32 (arr_bytes a)).
Proof. rewrite FromBytes_short by (rewrite zlen_arr; lia). by rewrite SetBytes_32. Qed.

(** A word written by one side is read by the other. *)
Lemma word_of_Bytes32 a : word_of (Int_Bytes32 a) = a.
Proof. unfold word_of. rewrite FromBytes_32. apply SetBytes32_Bytes32. Qed.

End Words.

Section Env.
Context {U : Uint256} {UL : Uint256Laws U}.
Context (Keccak256 : list byte -> Hash) (Keccak256For32byte : array 32 -> Hash).
Abbreviation conform := (Forall (rule_conforms Keccak256 Keccak256For32byte)).
Abbreviation dispatch_ := (dispatch (RC := ctRunContext_instance Keccak256) (G := ctGlobals)
  Keccak256 Keccak256For32byte).
Abbreviation replaces_ := (replaces Keccak256 Keccak256For32byte).

(** ** Values of the environment *)

Lemma read_conforms op gas conds f : matches op gas 0 1 ->
  (forall s g c0 cache c, all_apply conds s -> ready Keccak256 Keccak256For32byte s op g c0 cache c -> zlen (ct_stack s) < 1024 ->
     replaces_ op s g c0 cache (f (regular_state s g) :: ct_stack s) c) ->
  conform (rulesFor (mkInstruction op gas 0 1 conds [] (effect_of (pushRead f)))).
Proof.
  intros Hm HD. apply ordinary_conforms; [done|]. intros s c0 cache c Hc Hl Hrd. unfold effect_ok.
  unfold pushRead. apply wpE_bind, wpE_getS. unfold regular_state at 2. ps.
  eapply replaces_agrees; [done|]. apply HD; [done..|]. cbn in Hl. unfold st.MaxStackSize in Hl. lia.
Qed.

Lemma readBytes_conforms op (f : st.State -> array 20) : matches op 2 0 1 ->
  (forall s g c0 cache c, ready Keccak256 Keccak256For32byte s op g c0 cache c -> zlen (ct_stack s) < 1024 ->
     replaces_ op s g c0 cache (Int_SetBytes20 (arr_bytes (f (regular_state s g))) :: ct_stack s) c) ->
  conform (readBytesRules op (fun s => arr_bytes (f s))).
Proof.
  intros Hm HD. apply ordinary_conforms; [done|]. intros s c0 cache c Hc Hl Hrd. unfold effect_ok.
  unfold pushBytes. apply wpE_bind, wpE_getS. apply wpE_bind.
  eapply wpE_liftE; [apply FromBytes_20|]. unfold regular_state at 2. ps. eapply replaces_agrees; [done|].
  apply HD; [done|]. cbn in Hl. unfold st.MaxStackSize in Hl. lia.
Qed.

(** The instruction pushes a value that only depends on its inputs. *)
Ltac pushes Hx :=
  intros s g c0 cache c; intros;
  let Hb := fresh "Hb" in
  match goal with Hrd : ready _ _ _ _ _ _ _ _ |- _ =>
    pose proof (ready_pc _ _ _ _ _ _ _ _ Hrd) as Hpc; destruct Hrd as [Hv _ _ Hb Hx _] end;
  unfold replaces, dispatch;
  unfold opCallvalue, opNumber, opGasLimit, opPrevRandao, opGasPrice, opTimestamp, opChainId, opCodeSize,
    opCallDatasize, opSelfbalance, opReturnDataSize, opAddress, opOrigin, opCaller, opCoinbase, opPc, opGas;
  ms Hx; split; [done|]; vmparams_in Hb Hx; unfold U256_Bytes32be in Hx;
  rewrite ?NewU256_word, ?u64_u64.

(** A word, a number, an address of the parameters. *)
Ltac read_word := apply read_conforms; [matched|];
  let Hx := fresh "Hx" in pushes Hx; rewrite SetBytes32_Bytes32 in Hx; exact Hx.
Ltac read_number := apply read_conforms; [matched|];
  let Hx := fresh "Hx" in pushes Hx; rewrite ?u64_i64 in Hx; exact Hx.
Ltac read_address f := apply (readBytes_conforms _ f); [matched|];
  let Hx := fresh "Hx" in pushes Hx; exact Hx.

Lemma callerRules_conform : conform callerRules.
Proof.
  unfold callerRules. rewrite !List.Forall_app. split_and!.
  - read_address (fun s => st.cc_AccountAddress (st.s_CallContext s)).
  - read_address (fun s => st.tx_OriginAddress (st.s_TransactionContext s)).
  - read_address (fun s => st.cc_CallerAddress (st.s_CallContext s)).
  - read_word.
  - read_number.
Qed.

Lemma blockRules_conform : conform blockRules.
Proof.
  unfold blockRules. rewrite !List.Forall_app. split_and!.
  - read_address (fun s => st.bc_CoinBase (st.s_BlockContext s)).
  - read_number.
  - read_word.
  - read_word.
Qed.

Lemma flowRules_conform : conform flowRules.
Proof.
  unfold flowRules. rewrite !List.Forall_app. split_and!.
  - apply read_conforms; [matched|]. pushes Hx. unfold regular_state. fields.
    by replace (st.s_Pc s + 1 - 1) with (st.s_Pc s) by lia.
  - apply read_conforms; [matched|]. intros s g c0 cache c _ [_ _ _ Hb Hx] Hl. unfold replaces, dispatch, opMsize.
    apply wp_bind, wp_bind, wp_gets. unfold m_length. rewrite (ex_store _ _ _ _ _ _ _ _ _ Hx). ms Hx.
    split; [done|]. by rewrite NewU256_word, u64_u64.
  - apply read_conforms; [matched|]. pushes Hx. exact Hx.
  - change NoEffect with (effect_of (mret tt)). apply ordinary_conforms; [matched|]. intros s c0 cache c _ Hl Hrd.
    unfold effect_ok. ps. pose proof (ready_pc _ _ _ _ _ _ _ _ Hrd). destruct Hrd as [_ _ _ _ Hx _].
    unfold dispatch. ms Hx. agreed Hx.
Qed.

Lemma selfBalanceRules_conform : conform selfBalanceRules.
Proof.
  apply read_conforms; [matched|]. pushes Hx. vmhost_in Hx. by rewrite SetBytes32_Bytes32 in Hx.
Qed.

Lemma chainCode_conforms : conform (readRules CHAINID 2 (fun s => st.bc_ChainID (st.s_BlockContext s))
  ++ readRules CODESIZE 2 (fun s => NewU256 (u64 (st.Code_Length (st.s_Code s))))).
Proof.
  apply List.Forall_app. split; [read_word|]. apply read_conforms; [matched|]. pushes Hx.
  unfold regular_state, st.Code_Length. fields. fold (ct_code s). rewrite u64_id by (unfold isU64; lia).
  exact Hx.
Qed.

Lemma callDataSize_conforms :
  conform (readRules CALLDATASIZE 2 (fun s => NewU256 (u64 (Bytes_Length (st.s_CallData s))))).
Proof.
  apply read_conforms; [matched|]. pushes Hx. destruct Hv. pose proof (zlen_nonneg (st.s_CallData s)).
  unfold regular_state, Bytes_Length. fields. rewrite u64_id by (unfold isU64; lia). exact Hx.
Qed.

Lemma returnDataSize_conforms :
  conform (readRules RETURNDATASIZE 2 (fun s => NewU256 (u64 (Bytes_Length (st.s_LastCallReturnData s))))).
Proof.
  apply read_conforms; [matched|]. pushes Hx. destruct Hv. pose proof (zlen_nonneg (st.s_LastCallReturnData s)).
  unfold regular_state, Bytes_Length. fields. rewrite u64_id by (unfold isU64; lia). exact Hx.
Qed.

(** Instructions that came with a later revision. *)
Ltac fails_before Hl Hrd :=
  let Hrev := fresh in let Hx := fresh in
  intros s c0 cache c Hr Hl Hrd; pose proof (ready_revision _ _ _ _ _ _ _ _ Hrd) as Hrev;
  destruct Hrd as [_ _ _ _ Hx _];
  unfold dispatch, opBaseFee, opBlobHash, opBlobBaseFee, opTload, opTstore, opMcopy, opPush0; ms Hx;
  rewrite Hrev, Z.geb_leb, (proj2 (Z.leb_gt _ _));
  [by ms Hx|unfold R09_Berlin, R10_London, R11_Paris, R12_Shanghai, R13_Cancun in *; lia].

Lemma feeRules_conform : conform feeRules.
Proof.
  unfold feeRules. rewrite !List.Forall_app. split_and!.
  - read_number.
  - apply read_conforms; [matched|]. intros s g c0 cache c Ha Hrd Hl. conditions Ha.
    pose proof (ready_revision _ _ _ _ _ _ _ _ Hrd) as Hrev. destruct Hrd as [_ _ _ Hb Hx _].
    unfold replaces, dispatch, opBaseFee. ms Hx.
    rewrite Hrev, Z.geb_leb, (proj2 (Z.leb_le _ _)) by lia. cbn [negb]. ms Hx. split; [done|].
    vmparams_in Hb Hx. unfold U256_Bytes32be in Hx. by rewrite SetBytes32_Bytes32 in Hx.
  - apply invalidRevision_conforms; [done|]. fails_before Hl Hrd.
Qed.

Lemma Uint64_lt a n : Int_IsUint64 a && (Int_Uint64 a <? n) = (0 <? n) && (uval a <? Z.min n (2 ^ 64)).
Proof.
  pose proof (uval_range a). rewrite IsUint64_law. destruct (Z.ltb_spec (uval a) (2 ^ 64)); cbn [andb].
  - rewrite Uint64_law, Z.mod_small by lia. apply eq_bool_prop_intro.
    rewrite !Is_true_true, andb_true_iff, !Z.ltb_lt. lia.
  - symmetry. apply andb_false_iff. right. apply Z.ltb_ge. lia.
Qed.

(** An instruction with one operand that conditions give a value for. *)
Lemma blobRules_conform : conform blobRules.
Proof.
  unfold blobRules. rewrite !List.Forall_app. split_and!.
  - apply ordinary_conforms; [matched|]. intros s c0 cache c Ha Hl Hrd.
    unfold effect_ok, regular_state. conditions Ha. opened Hrd.
    destruct (ct_stack s) as [|a l] eqn:Hst; sized Hl.
    param Ha1 Hst. unfold blobHashEffect. unfold U256_IsUint64, U256_Uint64 in *.
    destruct (Int_IsUint64 a) eqn:Hu; [|done]. cbn [negb] in Ha1. rewrite applies_bool in Ha1. b2p.
    destruct (lookup_lt_is_Some_2 (st.tx_BlobHashes (st.s_TransactionContext s)) (Z.to_nat (Int_Uint64 a))) as [h Hh].
    { pose proof (Uint64_range a). unfold zlen, isU64 in *. lia. }
    ps. eapply wpE_liftE; [exact Hh|]. ps. eapply wpE_liftE; [apply FromBytes_32|]. ps.
    unfold dispatch, opBlobHash. ms Hx. since Hrev. ms Hx.
    vmparams Hb. rewrite Hu, u64_id by (destruct Hv; zblia). rewrite (proj2 (Z.ltb_lt _ _)) by lia. cbn [andb].
    ms Hx. eapply wp_lift_option; [exact Hh|]. ms Hx. agreed Hx.
  - apply (unary_conforms _ _ _ _ _ _ (fun _ => NewU256 0)); [matched|]. intros s g c0 cache a l c Ha Hrd Hst.
    conditions Ha. opened Hrd. rewrite Hst in Hx. param Ha1 Hst. unfold U256_IsUint64, U256_Uint64 in *.
    unfold replaces, dispatch, opBlobHash. pose proof (exact_zlen _ _ _ _ _ _ _ _ _ Hx) as Hl. rewrite zlen_cons in Hl.
    ms Hx. since Hrev. ms Hx. vmparams Hb. rewrite u64_id by (destruct Hv; zblia).
    assert (Int_IsUint64 a && (Int_Uint64 a <? zlen (st.tx_BlobHashes (st.s_TransactionContext s))) = false) as ->.
    { destruct (Int_IsUint64 a); cbn in *; [|done]. by destruct (_ <? _). }
    ms Hx. split; [done|]. by rewrite NewU256_NewInt.
  - apply invalidRevision_conforms; [done|]. fails_before Hl Hrd.
  - apply read_conforms; [matched|]. intros s g c0 cache c Ha Hrd Hl. conditions Ha. opened Hrd.
    unfold replaces, dispatch, opBlobBaseFee. ms Hx. since Hrev. ms Hx. split; [done|].
    vmparams_in Hb Hx. unfold U256_Bytes32be in Hx. by rewrite SetBytes32_Bytes32 in Hx.
  - apply invalidRevision_conforms; [done|]. fails_before Hl Hrd.
Qed.

Lemma push0Rules_conform : conform push0Rules.
Proof.
  unfold push0Rules. rewrite !List.Forall_app. split_and!.
  - apply read_conforms; [matched|]. intros s g c0 cache c Ha Hrd Hl. conditions Ha. opened Hrd.
    unfold replaces, dispatch, opPush0. ms Hx. since Hrev. ms Hx. split; [done|]. exact Hx.
  - apply failing_conforms; [done|lia|done|done|]. intros s c0 cache c Ha Hl Hrd. conditions Ha. opened Hrd.
    unfold dispatch, opPush0. ms Hx. before Hrev. by ms Hx.
Qed.

End Env.
