(* ===== verification/CtConformState.v ===== *)
(** * Conformance: storage, transient storage, accounts and block hashes *)
From Stdlib Require Import ZArith Lia Strings.Byte.
From stdpp Require Import base list numbers gmap.
From S2P Require Import Prelude Uint256 Types OpCodes SfvmStack SfvmAnalysis SfvmHashCache.
From S2P Require Import SfvmContext SfvmMemory SfvmGas SfvmInstructions SfvmInterpreter SfvmLogic.
From S2P Require Import SfvmSafety SfvmExecution CtSlices CtCommon CtState CtRules CtEffects CtSpec.
From S2P Require Import CtAdapter CtStateFacts CtExec CtSim CtConform CtConformArith.
Set Default Goal Selector "!".
Local Open Scope Z_scope.
Local Open Scope go_scope.

Section ConformState.
Context {U : Uint256} {UL : Uint256Laws U}.
Context (Keccak256 : list byte -> Hash) (Keccak256For32byte : array 32 -> Hash).
Abbreviation conform := (Forall (rule_conforms Keccak256 Keccak256For32byte)).
Abbreviation dispatch_ := (dispatch (RC := ctRunContext_instance Keccak256) (G := ctGlobals)
  Keccak256 Keccak256For32byte).

(** ** Transient storage *)

Lemma tload_replaces s g c0 cache a l c : R13_Cancun <= st.s_Revision s ->
  ready Keccak256 Keccak256For32byte s TLOAD g c0 cache c -> ct_stack s = a :: l ->
  replaces Keccak256 Keccak256For32byte TLOAD s g c0 cache
    (st.TransientStorage_Get (st.s_TransientStorage s) a :: l) c.
Proof.
  intros Hr Hrd Hst. opened Hrd. rewrite Hst in Hx. unfold replaces, dispatch, opTload. ms Hx. since Hrev. ms Hx.
  split; [done|]. vmhost_in Hx. by rewrite SetBytes32_Bytes32, word_of_Bytes32 in Hx.
Qed.

Lemma tloadRules_conform : conform tloadRules.
Proof.
  unfold tloadRules. rewrite !List.Forall_app. split_and!.
  - apply ordinary_conforms; [matched|]. intros s c0 cache c Ha Hl Hrd. conditions Ha.
    unfold effect_ok, regular_state. destruct (ct_stack s) as [|a l] eqn:Hst; sized Hl.
    unfold tloadEffect. ps. eapply replaces_agrees; [exact Hrd|]. by apply tload_replaces.
  - apply (unary_conforms _ _ _ _ _ _ (fun _ => NewU256 0)); [matched|]. intros s g c0 cache a l c Ha Hrd Hst.
    conditions Ha. param Ha1 Hst. rewrite negb_involutive in Ha1.
    unfold st.TransientStorage_IsZero, U256_IsZero in Ha1. rewrite IsZero_law in Ha1. b2p.
    replace (NewU256 0) with (st.TransientStorage_Get (st.s_TransientStorage s) a); [by apply tload_replaces|].
    apply u256_eq. by rewrite NewU256_uval.
  - apply invalidRevision_conforms; [done|]. intros s c0 cache c Hr Hl Hrd. opened Hrd.
    unfold dispatch, opTload. ms Hx. before Hrev. by ms Hx.
Qed.

Lemma tstore_conforms conds params :
  (forall s, all_apply conds s -> R13_Cancun <= st.s_Revision s /\ st.s_ReadOnly s = false) ->
  conform (rulesFor (mkInstruction TSTORE 100 2 0 conds params (effect_of tstoreEffect))).
Proof.
  intros Hc. apply ordinary_conforms; [matched|]. intros s c0 cache c Ha Hl Hrd. destruct (Hc s Ha) as [H1 H2].
  unfold effect_ok, regular_state. opened Hrd. destruct (ct_stack s) as [|k [|v l]] eqn:Hst; sized Hl.
  unfold tstoreEffect. ps. unfold dispatch, opTstore. ms Hx. since Hrev. ms Hx. vmparams Hb. rewrite H2. ms Hx.
  vmhost_in Hx. rewrite !word_of_Bytes32 in Hx. agreed Hx.
Qed.

Lemma tstoreRules_conform : conform tstoreRules.
Proof.
  unfold tstoreRules. rewrite !List.Forall_app. split_and!.
  - apply tstore_conforms. intros s Ha. conditions Ha. by destruct (st.s_ReadOnly s).
  - apply tstore_conforms. intros s Ha. conditions Ha. by destruct (st.s_ReadOnly s).
  - apply invalidRevision_conforms; [done|]. intros s c0 cache c Hr Hl Hrd. opened Hrd.
    unfold dispatch, opTstore. ms Hx. before Hrev. by ms Hx.
  - constructor; [|constructor]. apply (failing_rule_conforms _ _ TSTORE); [done|cbn; auto|].
    intros s c0 cache c Ha Hl Hrd. conditions Ha. opened Hrd. unfold dispatch, opTstore. ms Hx.
    rewrite Hrev. destruct (_ >=? _); cbn [negb]; ms Hx; [|done]. vmparams Hb.
    destruct (st.s_ReadOnly s); [|done]. by ms Hx.
Qed.

(** ** Account accesses *)

Lemma MarkWarm_warm accounts a : st.Accounts_IsWarm accounts a = true -> st.Accounts_MarkWarm accounts a = accounts.
Proof.
  unfold st.Accounts_IsWarm, st.Accounts_MarkWarm. intros H%bool_decide_eq_true. destruct accounts as [m w].
  cbn in *. f_equal. set_solver.
Qed.

(** The price of an access of [a] from Berlin on, the part of it that the
    interpreter charges, and whether the rule marks the account as warm. *)
Definition accessed (s : st.State) (a : Address) (gas : Z) (markWarm : bool) : Prop :=
  if st.s_Revision s >=? R09_Berlin then
    if st.Accounts_IsWarm (st.s_Accounts s) a then gas = 100 /\ markWarm = false
    else gas = 2600 /\ markWarm = true
  else gas = 700 /\ markWarm = false.

(** The instruction is free from Berlin on, and costs 700 before. *)
Definition access_priced (op : OpCode) : Prop := staticPrice true op = 0 /\ staticPrice false op = 700.

Lemma access_price op s a gas markWarm : access_priced op -> accessed s a gas markWarm ->
  0 <= price s op <= gas.
Proof.
  unfold accessed, price. intros [H1 H2] H. destruct (_ >=? _); [rewrite H1|rewrite H2; lia].
  destruct (st.Accounts_IsWarm _ _); lia.
Qed.

(** The state after an access. *)
Definition warmed (markWarm : bool) (a : Address) (s : st.State) : st.State :=
  if markWarm then st.set_Accounts (st.Accounts_MarkWarm (st.s_Accounts s) a) s else s.

Lemma p_markWarm markWarm a ws status pc g r stk m d rd (Q : unit -> st.State -> Prop) :
  Q tt (mk (warmed markWarm a ws) status pc g r stk m d rd) ->
  wpE (if markWarm then s_markWarm a else mret tt) Q (mk ws status pc g r stk m d rd).
Proof. by destruct markWarm. Qed.

Lemma warmed_GetAccount markWarm a s b :
  st.Accounts_GetAccount (st.s_Accounts (warmed markWarm a s)) b = st.Accounts_GetAccount (st.s_Accounts s) b.
Proof. by destruct markWarm. Qed.

Lemma warmed_local markWarm a s :
  st.s_Stack (warmed markWarm a s) = st.s_Stack s /\ st.s_ReturnData (warmed markWarm a s) = st.s_ReturnData s.
Proof. by destruct markWarm. Qed.

Lemma e_chargeAccountAccess F op c0 s cache pc g r l m d c a gas markWarm Q : base Keccak256 s c0 ->
  access_priced op -> accessed s a gas markWarm ->
  exact c0 (mkCtRunContext s false cache) pc (g - price s op) r l m d c ->
  (g < gas -> F) ->
  (gas <= g -> forall c',
     exact c0 (mkCtRunContext (warmed markWarm a s) false cache) pc (g - gas) r l m d c' -> Q tt c') ->
  wp (chargeAccountAccess (RC := ctRunContext_instance Keccak256) a) Q (fun _ => F) c.
Proof.
  intros Hb [Hp1 Hp2] Ha Hx HF HQ. unfold chargeAccountAccess, accessed, price in *. ms Hx.
  assert (revision c0 = st.s_Revision s) as Hrev by (unfold revision; by rewrite (base_params _ _ _ Hb)).
  rewrite Hrev. apply wp_when; destruct (_ >=? _); intros E; try done.
  - rewrite Hp1, Z.sub_0_r in Hx. ms Hx. vmhost_in Hx. vmhost. unfold ctx_AccessAccount in *. cbn in Hx |- *.
    destruct (st.Accounts_IsWarm _ _) eqn:Hw; destruct Ha as [-> ->].
    + eapply e_useGas; [exact Hx|intros; apply HF; cbn in *; lia|]. cbn. intros Hle c2 Hx2. apply HQ; [lia|].
      rewrite MarkWarm_warm in Hx2 by done. by destruct s.
    + eapply e_useGas; [exact Hx|intros; apply HF; cbn in *; lia|]. cbn. intros Hle c2 Hx2. by apply HQ; [lia|].
  - rewrite Hp2 in Hx. destruct Ha as [-> ->]. apply HQ; [|done]. destruct Hx. lia.
Qed.

(** The conditions of the three rules of an instruction that accesses the
    account its first operand names. *)
Lemma cold_accessed s a l : ct_stack s = a :: l -> all_apply [sinceBerlin; cIsAddressCold (Param 0)] s ->
  accessed s (NewAddress a) 2600 true.
Proof.
  intros Hst Ha. conditions Ha. param Ha1 Hst. unfold accessed. rewrite Z.geb_leb, (proj2 (Z.leb_le _ _)) by lia.
  by destruct (st.Accounts_IsWarm _ _).
Qed.

Lemma warm_accessed s a l : ct_stack s = a :: l -> all_apply [sinceBerlin; cIsAddressWarm (Param 0)] s ->
  accessed s (NewAddress a) 100 false.
Proof.
  intros Hst Ha. conditions Ha. param Ha1 Hst. unfold accessed. rewrite Z.geb_leb, (proj2 (Z.leb_le _ _)) by lia.
  by rewrite Ha1.
Qed.

Lemma old_accessed s a : all_apply [IsRevision R07_Istanbul] s -> accessed s a 700 false.
Proof.
  intros Ha. conditions Ha. unfold accessed. by rewrite Z.geb_leb, (proj2 (Z.leb_gt _ _)) by (unfold R07_Istanbul, R09_Berlin in *; lia).
Qed.

(** An instruction that accesses the account its first operand names. *)
Definition access_ok (op : OpCode) (pops pushes : Z) (conds : list Condition) (m : bool -> E unit) : Prop :=
  forall s a l gas markWarm c0 cache c, all_apply conds s -> ct_stack s = a :: l ->
    pops <= zlen (a :: l) <= st.MaxStackSize - Z.max (pushes - pops) 0 ->
    accessed s (NewAddress a) gas markWarm ->
    ready Keccak256 Keccak256For32byte s op (st.s_Gas s - price s op) c0 cache c ->
    (st.s_Gas s < gas -> wp (dispatch_ op) (fun _ _ => False) (fun _ => True) c)
    /\ (gas <= st.s_Gas s -> effect_ok Keccak256 Keccak256For32byte s op (m markWarm) (st.s_Gas s - gas) c).

Lemma access_conforms op conds params gas markWarm pops pushes m : op <> STOP -> access_priced op ->
  0 < pops -> gas = 100 \/ gas = 2600 \/ gas = 700 ->
  opStackLimits op = mkStackLimits pops (st.MaxStackSize - Z.max (pushes - pops) 0) ->
  (forall s, valid s -> all_apply conds s -> price s op <= gas) ->
  (forall s a l, ct_stack s = a :: l -> all_apply conds s -> accessed s (NewAddress a) gas markWarm) ->
  access_ok op pops pushes conds m ->
  conform (rulesFor (mkInstruction op gas pops pushes conds params (effect_of (m markWarm)))).
Proof.
  intros Hop Hp Hpops Hg Hlim Hprice Hacc HE. apply priced_conforms; [done|lia|done|done|].
  intros s c0 cache c Ha Hl Hrd. destruct (ct_stack s) as [|a l] eqn:Hst; [unfold zlen in Hl; cbn in Hl; lia|].
  eapply HE; [done|done|done| |done]. by eapply Hacc.
Qed.

(** Its three rules. *)
Lemma accountRules_conform op params pops pushes m : op <> STOP -> access_priced op -> 0 < pops ->
  opStackLimits op = mkStackLimits pops (st.MaxStackSize - Z.max (pushes - pops) 0) ->
  access_ok op pops pushes [] m ->
  conform (rulesFor (mkInstruction op 2600 pops pushes [sinceBerlin; cIsAddressCold (Param 0)] params
             (effect_of (m true)))
    ++ rulesFor (mkInstruction op 100 pops pushes [sinceBerlin; cIsAddressWarm (Param 0)] params
         (effect_of (m false)))
    ++ rulesFor (mkInstruction op 700 pops pushes [IsRevision R07_Istanbul] params (effect_of (m false)))).
Proof.
  intros Hop Hp Hpops Hlim HE.
  assert (forall conds, access_ok op pops pushes conds m) as HE'.
  { intros conds s a l gas markWarm c0 cache c _. apply HE. constructor. }
  rewrite !List.Forall_app. split_and!; eapply access_conforms; try done; try lia;
    eauto using cold_accessed, warm_accessed, old_accessed.
  all: intros s Hv Ha; conditions Ha; unfold price; destruct Hp as [Hp1 Hp2].
  1,2: rewrite Z.geb_leb, (proj2 (Z.leb_le _ _)), Hp1 by lia; lia.
  rewrite Z.geb_leb, (proj2 (Z.leb_gt _ _)), Hp2 by (unfold R07_Istanbul, R09_Berlin in *; lia). lia.
Qed.

Lemma balanceRules_conform : conform balanceRules.
Proof.
  apply (accountRules_conform BALANCE _ 1 1 balanceEffect); [done..|].
  intros s a l gas markWarm c0 cache c _ Hst Hl Hacc Hrd. sized Hl. split; intros Hlt.
  - opened Hrd. rewrite Hst in Hx. unfold dispatch, opBalance. unfold running. apply wp_bind. ms Hx.
    eapply e_chargeAccountAccess; [exact Hb| |exact Hacc|exact Hx|done|lia]. done.
  - unfold effect_ok, regular_state. rewrite Hst. opened Hrd. rewrite Hst in Hx. unfold balanceEffect. ps.
    apply p_markWarm. unfold dispatch, opBalance. ms Hx.
    eapply e_chargeAccountAccess; [exact Hb| |exact Hacc|exact Hx|lia|]; [done|]. clear Hx. intros _ c2 Hx.
    ms Hx. vmhost_in Hx. rewrite SetBytes32_Bytes32 in Hx. unfold st.Accounts_GetBalance in *.
    fold (st.Accounts_GetAccount (st.s_Accounts (warmed markWarm (Int_Bytes20 a) s)) (Int_Bytes20 a)) in Hx.
    rewrite warmed_GetAccount in Hx. destruct (warmed_local markWarm (NewAddress a) s). agreed Hx.
Qed.

Lemma extCodeSizeRules_conform : conform extCodeSizeRules.
Proof.
  apply (accountRules_conform EXTCODESIZE _ 1 1 extCodeSizeEffect); [done..|].
  intros s a l gas markWarm c0 cache c _ Hst Hl Hacc Hrd. sized Hl. split; intros Hlt.
  - opened Hrd. rewrite Hst in Hx. unfold dispatch, opExtcodesize. ms Hx.
    eapply e_chargeAccountAccess; [exact Hb| |exact Hacc|exact Hx|done|lia]. done.
  - unfold effect_ok, regular_state. rewrite Hst. opened Hrd. rewrite Hst in Hx. unfold extCodeSizeEffect. ps.
    apply p_markWarm. unfold dispatch, opExtcodesize. ms Hx.
    eapply e_chargeAccountAccess; [exact Hb| |exact Hacc|exact Hx|lia|]; [done|]. clear Hx. intros _ c2 Hx.
    ms Hx. vmhost_in Hx. rewrite NewU256_word, u64_u64. unfold st.Accounts_GetCode in *.
    fold (st.Accounts_GetAccount (st.s_Accounts (warmed markWarm (Int_Bytes20 a) s)) (Int_Bytes20 a)) in Hx.
    rewrite warmed_GetAccount in Hx. destruct (warmed_local markWarm (NewAddress a) s). agreed Hx.
Qed.

Lemma Bytes32_zero a : arr_eqb (Int_Bytes32 a) zeroWord = Int_IsZero a.
Proof.
  rewrite IsZero_law. unfold arr_eqb. apply eq_bool_prop_intro. rewrite !Is_true_true, bool_decide_eq_true, Z.eqb_eq.
  rewrite <-(Bytes32_law a). split; [by intros ->|]. intros H.
  apply array_eq, be_val_inj; [by rewrite !array_length|]. rewrite H. done.
Qed.

(** An account is empty for the interpreter exactly if it is for the tests. *)
Lemma isEmpty_ct ws p cache a :
  isEmpty (RC := ctRunContext_instance Keccak256) (mkCtRunContext ws p cache) a
  = st.Accounts_IsEmpty (st.s_Accounts ws) a.
Proof.
  unfold isEmpty, st.Accounts_IsEmpty. vmhost. unfold st.Accounts_GetBalance, st.Accounts_GetCode.
  fold (st.Accounts_GetAccount (st.s_Accounts ws) a). destruct (st.Accounts_GetAccount _ _) as [b code]. cbn [st.acc_Balance st.acc_Code].
  rewrite Bytes32_zero, IsZero_law. unfold Bytes_Length, st.zeroAccount. cbn [Z.eqb andb]. apply eq_bool_prop_intro.
  rewrite !Is_true_true, andb_true_iff, !bool_decide_eq_true, !Z.eqb_eq. unfold zlen. split.
  - intros [Hb Hc]. f_equal; [|destruct code; [done|cbn in Hc; lia]]. apply u256_eq. by rewrite Hb, NewU256_uval.
  - intros [= -> ->]. by rewrite NewU256_uval.
Qed.

Lemma extCodeHash_ok revision (warm isEmpty_ : bool) : access_ok EXTCODEHASH 1 1
  [IsRevision revision; if warm then cIsAddressWarm (Param 0) else cIsAddressCold (Param 0);
   if isEmpty_ then cAccountIsEmpty (Param 0) else cAccountIsNotEmpty (Param 0)]
  (fun _ => extCodeHashEffect Keccak256 revision warm).
Proof.
  intros s a l gas markWarm c0 cache c Ha Hst Hl Hacc Hrd. sized Hl. split; intros Hlt.
  - opened Hrd. rewrite Hst in Hx. unfold dispatch, opExtcodehash. ms Hx.
    eapply e_chargeAccountAccess; [exact Hb| |exact Hacc|exact Hx|done|lia]. done.
  - unfold effect_ok, regular_state. rewrite Hst. opened Hrd. rewrite Hst in Hx. unfold extCodeHashEffect. ps.
    assert ((revision >=? R09_Berlin) && negb warm = markWarm) as ->.
    { conditions Ha. assert (revision = st.s_Revision s) as -> by lia. unfold accessed in Hacc.
      destruct (_ >=? _); [|by destruct Hacc]. cbn [andb]. destruct warm; param Ha1 Hst;
        destruct (st.Accounts_IsWarm _ _); try done; by destruct Hacc. }
    unfold NewAddress, U256_Bytes20be in *. destruct (st.Accounts_IsEmpty _ _) eqn:He.
    + ps. apply p_markWarm. unfold dispatch, opExtcodehash. ms Hx.
      eapply e_chargeAccountAccess; [exact Hb| |exact Hacc|exact Hx|lia|]; [done|]. clear Hx. intros _ c2 Hx.
      ms Hx. rewrite isEmpty_ct. unfold st.Accounts_IsEmpty in *. rewrite warmed_GetAccount, He. ms Hx.
      rewrite NewU256_zero. destruct (warmed_local markWarm (Int_Bytes20 a) s). agreed Hx.
    + ps. eapply wpE_liftE; [apply FromBytes_32|]. ps. apply p_markWarm. unfold dispatch, opExtcodehash. ms Hx.
      eapply e_chargeAccountAccess; [exact Hb| |exact Hacc|exact Hx|lia|]; [done|]. clear Hx. intros _ c2 Hx.
      ms Hx. rewrite isEmpty_ct. unfold st.Accounts_IsEmpty in *. rewrite warmed_GetAccount, He. ms Hx.
      destruct (warmed_local markWarm (Int_Bytes20 a) s). agreed Hx.
Qed.

Lemma extCodeHashRules_conform : conform (extCodeHashRules Keccak256).
Proof.
  unfold extCodeHashRules. apply List.Forall_flat_map, List.Forall_forall. intros revision _.
  apply List.Forall_flat_map, List.Forall_forall. intros warm _.
  apply List.Forall_flat_map, List.Forall_forall. intros empty _. unfold extCodeHashOp.
  set (gas := if revision <? R09_Berlin then 700 else if warm then 100 else 2600).
  eapply (access_conforms EXTCODEHASH _ _ gas ((revision >=? R09_Berlin) && negb warm) 1 1
    (fun _ => extCodeHashEffect Keccak256 revision warm)); [done|done|done| |done|..|apply extCodeHash_ok].
  - unfold gas. case_if; [|case_if]; lia.
  - intros s Hv Ha. conditions Ha. unfold price, gas. assert (revision = st.s_Revision s) as -> by lia.
    rewrite Z.geb_leb. destruct (Z.leb_spec R09_Berlin (st.s_Revision s)), (Z.ltb_spec (st.s_Revision s) R09_Berlin);
      try lia; by destruct warm.
  - intros s a l Hst Ha. conditions Ha. assert (revision = st.s_Revision s) as Hr by lia. unfold accessed, gas.
    rewrite Hr, Z.geb_leb. destruct (Z.leb_spec R09_Berlin (st.s_Revision s)), (Z.ltb_spec (st.s_Revision s) R09_Berlin);
      try lia; try done. destruct warm; param Ha1 Hst; by destruct (st.Accounts_IsWarm _ _).
Qed.

(** ** Storage *)

Lemma Storage_MarkWarm_warm storage k : st.Storage_IsWarm storage k = true ->
  st.Storage_MarkWarm storage k = storage.
Proof.
  unfold st.Storage_IsWarm, st.Storage_MarkWarm. destruct storage as [cur org w]. cbn. intros H. f_equal.
  destruct (w !! k) as [b|] eqn:E; cbn in H; [subst; by apply insert_id|done].
Qed.

(** The state after an access. *)
Definition warmedSlot (markWarm : bool) (k : U256) (s : st.State) : st.State :=
  if markWarm then st.set_Storage (st.Storage_MarkWarm (st.s_Storage s) k) s else s.

(** The price of [SLOAD], and whether its rule marks the slot as warm. *)
Definition loaded (s : st.State) (k : U256) (gas : Z) (markWarm : bool) : Prop :=
  if st.s_Revision s >=? R09_Berlin then
    if st.Storage_IsWarm (st.s_Storage s) k then gas = 100 /\ markWarm = false else gas = 2100 /\ markWarm = true
  else gas = 800 /\ markWarm = false.

Lemma e_opSload F s k l gas markWarm pc r m d c0 cache c Q : base Keccak256 s c0 ->
  loaded s k gas markWarm ->
  exact c0 (mkCtRunContext s false cache) pc (st.s_Gas s - price s SLOAD) r (k :: l) m d c ->
  (st.s_Gas s < gas -> F) ->
  (gas <= st.s_Gas s -> forall c',
     exact c0 (mkCtRunContext (warmedSlot markWarm k s) false cache) pc (st.s_Gas s - gas) r
       (st.Storage_GetCurrent (st.s_Storage s) k :: l) m d c' -> Q tt c') ->
  wp (opSload (RC := ctRunContext_instance Keccak256)) Q (fun _ => F) c.
Proof.
  intros Hb Hacc Hx HF HQ. unfold opSload, loaded, price in *. ms Hx.
  assert (revision c0 = st.s_Revision s) as Hrev by (unfold revision; by rewrite (base_params _ _ _ Hb)).
  rewrite Hrev. apply wp_when; destruct (_ >=? _); intros E; try done.
  - change (staticPrice true SLOAD) with 0 in Hx. rewrite Z.sub_0_r in Hx. ms Hx. vmhost_in Hx. vmhost.
    unfold ctx_AccessStorage in *. cbn [fst snd w_state w_set w_sha3Cache w_panicked] in *. rewrite !word_of_Bytes32 in *.
    destruct (st.Storage_IsWarm _ _) eqn:Hw; destruct Hacc as [-> ->];
      (eapply e_useGas; [exact Hx|intros; apply HF; lia|]; clear Hx; intros Hle c2 Hx; ms Hx;
       vmhost_in Hx; rewrite SetBytes32_Bytes32 in Hx; apply HQ; [lia|]).
    + cbn [st.s_Storage st.set_Storage] in Hx. rewrite Storage_MarkWarm_warm in Hx by done. by destruct s.
    + exact Hx.
  - change (staticPrice false SLOAD) with 800 in Hx. destruct Hacc as [-> ->]. ms Hx. vmhost_in Hx.
    rewrite SetBytes32_Bytes32, word_of_Bytes32 in Hx. apply HQ; [|done]. destruct Hx. lia.
Qed.

Lemma sload_conforms conds gas markWarm : gas = 100 \/ gas = 2100 \/ gas = 800 ->
  (forall s k l, ct_stack s = k :: l -> all_apply conds s -> loaded s k gas markWarm) ->
  (forall s, valid s -> all_apply conds s -> price s SLOAD <= gas) ->
  conform (rulesFor (mkInstruction SLOAD gas 1 1 conds [NumericParameter] (effect_of (sloadEffect markWarm)))).
Proof.
  intros Hgas Hacc Hprice. apply priced_conforms; [done|lia|done|done|]. intros s c0 cache c Ha Hl Hrd.
  destruct (ct_stack s) as [|k l] eqn:Hst; sized Hl. specialize (Hacc s k l Hst Ha).
  split; intros Hlt; opened Hrd; rewrite Hst in Hx; unfold dispatch.
  - apply wp_bind. eapply e_opSload; [exact Hb|exact Hacc|exact Hx|done|lia].
  - unfold effect_ok, regular_state. rewrite Hst. unfold sloadEffect. ps.
    destruct markWarm; ps; unfold dispatch; (apply wp_bind;
      eapply e_opSload; [exact Hb|exact Hacc|exact Hx|lia|]; clear Hx; intros _ c2 Hx; ms Hx; agreed Hx).
Qed.

Lemma sloadRules_conform : conform sloadRules.
Proof.
  unfold sloadRules. rewrite !List.Forall_app. split_and!; apply sload_conforms; try lia;
    (intros s k l Hst Ha; conditions Ha; unfold loaded) || (intros s Hv Ha; conditions Ha; unfold price).
  all: rewrite Z.geb_leb.
  1,2,3,4: rewrite (proj2 (Z.leb_le _ _)) by lia.
  5,6: rewrite (proj2 (Z.leb_gt _ _)) by (unfold R07_Istanbul, R09_Berlin in *; lia).
  all: try done; param Ha1 Hst; by destruct (st.Storage_IsWarm _ _).
Qed.

(** *** SSTORE *)

(** The price of [SSTORE]. *)
Definition sstoreCost (revision : Revision) (warm : bool) (status : StorageStatus) : Z :=
  (if (revision >=? R09_Berlin) && negb warm then 2100 else 0) + getDynamicCostsForSstore revision status.

Lemma getDynamicCostsForSstore_range rev status : 100 <= getDynamicCostsForSstore rev status <= 20000.
Proof. unfold getDynamicCostsForSstore. destruct status; repeat case_if; lia. Qed.

Lemma e_opSstore F s k v l pc r m d c0 cache c Q : base Keccak256 s c0 ->
  let storage := st.s_Storage s in
  let status := GetStorageStatus (Int_Bytes32 (st.Storage_GetOriginal storage k))
                  (Int_Bytes32 (st.Storage_GetCurrent storage k)) (Int_Bytes32 v) in
  let cost := sstoreCost (st.s_Revision s) (st.Storage_IsWarm storage k) status in
  let storage' := st.Storage_SetCurrent storage k v in
  let storage' := if st.s_Revision s >=? R09_Berlin then st.Storage_MarkWarm storage' k else storage' in
  exact c0 (mkCtRunContext s false cache) pc (st.s_Gas s) r (k :: v :: l) m d c ->
  (st.s_ReadOnly s = true \/ st.s_Gas s <= 2300 \/ st.s_Gas s < cost -> F) ->
  (st.s_ReadOnly s = false -> 2300 < st.s_Gas s -> cost <= st.s_Gas s -> forall c',
     exact c0 (mkCtRunContext (st.set_Storage storage' s) false cache) pc (st.s_Gas s - cost)
       (r +i64 getRefundForSstore (st.s_Revision s) status) l m d c' -> Q tt c') ->
  wp (opSstore (RC := ctRunContext_instance Keccak256)) Q (fun _ => F) c.
Proof.
  intros Hb storage status cost storage1 storage' Hx HF HQ. unfold opSstore.
  assert (revision c0 = st.s_Revision s) as Hrev by (unfold revision; by rewrite (base_params _ _ _ Hb)).
  ms Hx. vmparams Hb. destruct (st.s_ReadOnly s); ms Hx; [auto|].
  destruct (Z.leb_spec (st.s_Gas s) 2300); ms Hx; [auto|]. rewrite Hrev.
  pose proof (getDynamicCostsForSstore_range (st.s_Revision s) status) as Hc.
  unfold cost, storage', sstoreCost in *. destruct (st.s_Revision s >=? R09_Berlin) eqn:Hr; cbn [andb] in *; ms Hx.
  - vmhost. vmhost_in Hx. unfold ctx_AccessStorage, ctx_SetStorage in *.
    cbn [fst snd w_state w_set w_sha3Cache w_panicked st.s_Storage st.set_Storage] in *. rewrite !word_of_Bytes32 in *.
    fold storage. fold (revision c0). rewrite Hrev.
    change (GetStorageStatus _ _ _) with status.
    match goal with |- wp (useGas ?a) _ _ _ => assert (a =
      (if negb (st.Storage_IsWarm storage k) then 2100 else 0) + getDynamicCostsForSstore (st.s_Revision s) status) as -> end.
    { destruct (st.Storage_IsWarm storage k); cbn [negb]; apply i64_id; unfold isI64; lia. }
    eapply e_useGas; [exact Hx|intros; apply HF; case_if; lia|]. clear Hx. intros Hle ? Hx. ms Hx.
    apply HQ; [done|lia|lia|]. exact Hx.
  - vmhost. vmhost_in Hx. unfold ctx_SetStorage in *.
    cbn [fst snd w_state w_set w_sha3Cache w_panicked st.s_Storage st.set_Storage] in *. rewrite !word_of_Bytes32 in *.
    fold storage. fold (revision c0). rewrite Hrev. change (GetStorageStatus _ _ _) with status.
    rewrite !Z.add_0_l, i64_id in * by (unfold isI64; lia).
    eapply e_useGas; [exact Hx|intros; apply HF; lia|]. clear Hx. intros Hle ? Hx. ms Hx.
    apply HQ; [done|lia|lia|]. exact Hx.
Qed.

(** The parameters of a rule agree with the prices of the interpreter. *)
Definition sstore_agrees (params : sstoreOpParams) : bool :=
  (ss_gasCost params =? sstoreCost (ss_revision params) (ss_warm params) (ss_config params))
  && (ss_gasRefund params =? getRefundForSstore (ss_revision params) (ss_config params)).

Lemma sstoreParams_agree : forallb sstore_agrees sstoreParams = true.
Proof. by vm_compute. Qed.

(** The status of the write that a condition has asked for. *)
Lemma configured s config k v l : ct_stack s = k :: v :: l ->
  applies (cStorageConfiguration config (Param 0) (Param 1)) s = true ->
  GetStorageStatus (Int_Bytes32 (st.Storage_GetOriginal (st.s_Storage s) k))
    (Int_Bytes32 (st.Storage_GetCurrent (st.s_Storage s) k)) (Int_Bytes32 v) = config.
Proof. intros Hst Ha. param Ha Hst. by apply bool_decide_eq_true in Ha. Qed.

Lemma sstoreOpReadOnlyMode_conform params : conform (sstoreOpReadOnlyMode params).
Proof.
  apply failing_conforms; [done|lia|done|done|]. intros s c0 cache c Ha Hl Hrd. conditions Ha. opened Hrd.
  destruct (st.s_ReadOnly s) eqn:Hro; [|done]. unfold dispatch, opSstore. ms Hx. vmparams Hb. rewrite Hro. by ms Hx.
Qed.

Lemma sstore_price s : price s SSTORE = 0.
Proof. unfold price. by destruct (_ >=? _). Qed.

(** The write of a rule and that of the interpreter. *)
Lemma sstore_conforms rev warm config conds params :
  let cost := sstoreCost rev warm config in
  let gasLimit := Z.max cost 2301 in
  (forall s k v l, ct_stack s = k :: v :: l -> all_apply conds s ->
     st.s_Revision s = rev /\ st.s_ReadOnly s = false
     /\ sstoreCost rev (st.Storage_IsWarm (st.s_Storage s) k) config = cost
     /\ GetStorageStatus (Int_Bytes32 (st.Storage_GetOriginal (st.s_Storage s) k))
          (Int_Bytes32 (st.Storage_GetCurrent (st.s_Storage s) k)) (Int_Bytes32 v) = config) ->
  conform (rulesFor (mkInstruction SSTORE gasLimit 2 0 conds params
    (effect_of (sstoreEffect (gasLimit - cost) (getRefundForSstore rev config))))).
Proof.
  intros cost gasLimit Hc. apply priced_conforms; [done|lia|done|intros s _ _; rewrite sstore_price; lia|].
  intros s c0 cache c Ha Hl Hrd. destruct (ct_stack s) as [|k [|v l]] eqn:Hst; sized Hl.
  destruct (Hc s k v l Hst Ha) as (Hrev' & Hro & Hcost & Hstatus). opened Hrd.
  rewrite sstore_price, Z.sub_0_r, Hst in *. split; intros Hlt.
  - unfold dispatch. apply wp_bind. eapply e_opSstore; [exact Hb|exact Hx|done|]. 
    rewrite Hstatus, Hrev', Hcost. lia.
  - pose proof (getDynamicCostsForSstore_range rev config) as Hd.
    assert (0 <= cost <= 22100) by (unfold cost, sstoreCost; case_if; lia).
    destruct Hv. unfold st.MaxGasUsedByCt in *.
    unfold effect_ok, regular_state. rewrite Hst. unfold sstoreEffect, s_addGas, s_addRefund. ps.
    rewrite i64_id by (unfold isI64; lia). rewrite <-Hrev'.
    destruct (st.s_Revision s >=? R09_Berlin) eqn:Hr; ps; unfold dispatch; apply wp_bind;
      (eapply e_opSstore; [exact Hb|exact Hx|rewrite Hstatus, Hrev', Hcost, Hro; intuition (done || lia)|];
       rewrite Hstatus, Hrev', Hcost; rewrite <-Hrev', Hr;
       clear Hx; intros _ _ _ c2 Hx; ms Hx; agreed Hx).
Qed.

Lemma sstoreOpRegular_conform params : sstore_agrees params = true -> conform (sstoreOpRegular params).
Proof.
  unfold sstore_agrees. intros Hp. b2p. unfold sstoreOpRegular. set (cs := _ ++ _).
  pose proof (sstore_conforms (ss_revision params) (ss_warm params) (ss_config params) cs
    [NumericParameter; NumericParameter]) as Hs. cbv zeta in Hs. rewrite H, H0.
  set (cost := sstoreCost _ _ _) in *.
  destruct (Z.gtb_spec cost 2301); [replace (Z.max cost 2301) with cost in Hs by lia
    |replace (Z.max cost 2301) with 2301 in Hs by lia]; rewrite ?Z.sub_diag in Hs; apply Hs.
  all: unfold cs; intros s k v l Hst Ha; rewrite all_apply_app in Ha; destruct Ha as [Hw Ha]; conditions Ha.
  all: split_and!; [lia|by destruct (st.s_ReadOnly s)|unfold cost, sstoreCost|by eapply configured].
  all: destruct (ss_revision params >=? R09_Berlin); [|done].
  all: destruct (ss_warm params); rewrite all_apply_cons in Hw; destruct Hw as [Hw _]; param Hw Hst;
    by destruct (st.Storage_IsWarm _ _).
Qed.

Lemma sstoreRules_conform : conform sstoreRules.
Proof.
  unfold sstoreRules. rewrite !List.Forall_app. split_and!.
  - apply List.Forall_flat_map, List.Forall_forall. intros params Hin. apply List.Forall_app.
    split; [|apply sstoreOpReadOnlyMode_conform]. apply sstoreOpRegular_conform.
    pose proof sstoreParams_agree as H. rewrite forallb_forall in H. by apply H.
  - constructor; [|constructor]. apply (failing_rule_conforms _ _ SSTORE); [done|cbn; auto|].
    intros s c0 cache c Ha Hl Hrd.
    cbn [i_conditions i_op i_staticGas app] in Ha. conditions Ha. rewrite applies_gas_lt in Ha4. b2p.
    opened Hrd. rewrite sstore_price, Z.sub_0_r in Hx.
    unfold dispatch, opSstore. ms Hx. vmparams Hb. destruct (st.s_ReadOnly s); ms Hx; [done|].
    rewrite (proj2 (Z.leb_le _ _)) by lia. by ms Hx.
  - constructor; [|constructor]. intros s Hv Hr Ha. cbn [r_Condition r_Effect tooFewElements i_op i_pops] in *.
    rewrite applies_And_Forall, !all_apply_cons in Ha. destruct Ha as (_ & _ & Ho & _ & Hs & _).
    rewrite applies_size_lt in Hs. b2p.
    apply fails_FailEffect, (fails_by_limits _ _ s SSTORE); [done|by apply applies_op_at|]. left. cbn. lia.
Qed.

(** ** Block hashes *)

Lemma HashArray_Get_ok hashes i : zlen (hashes_of hashes) = 256 -> 0 <= i < 256 ->
  exists h, HashArray_Get hashes i = Some h.
Proof.
  unfold HashArray_Get, hashes_of, zlen. intros H Hi. destruct (ha_data hashes) as [l|]; cbn [from_option id] in H.
  - rewrite Z.geb_leb, (proj2 (Z.leb_gt _ _)) by lia. apply lookup_lt_is_Some_2. lia.
  - rewrite (proj2 (Z.ltb_lt _ _)) by lia. eauto.
Qed.

Lemma blockHash_in s a : valid s -> Int_IsUint64 a = true ->
  let current := st.bc_BlockNumber (st.s_BlockContext s) in
  inRange256 current (Int_Uint64 a) =
    negb ((Int_Uint64 a >=? current) || (Int_Uint64 a <? current - Z.min current 256)).
Proof.
  intros [] Hu current. unfold inRange256. fold current in valid_number. pose proof (Uint64_range a).
  assert ((if current >? 256 then current -u64 256 else 0) = current - Z.min current 256) as ->.
  { destruct (Z.gtb_spec current 256); [rewrite u64_id by (unfold isU64; lia)|]; lia. }
  apply eq_bool_prop_intro. rewrite !Is_true_true, andb_true_iff, negb_true_iff, orb_false_iff.
  rewrite Z.leb_le, Z.ltb_lt, Z.geb_leb, Z.leb_gt, Z.ltb_ge. lia.
Qed.

Lemma blockhash_replaces s g c0 cache a l c : ready Keccak256 Keccak256For32byte s BLOCKHASH g c0 cache c -> ct_stack s = a :: l ->
  replaces Keccak256 Keccak256For32byte BLOCKHASH s g c0 cache
    ((if Int_IsUint64 a && inRange256 (st.bc_BlockNumber (st.s_BlockContext s)) (Int_Uint64 a)
      then Int_SetBytes32 (arr_bytes (ctx_GetBlockHash (mkCtRunContext s false cache) (i64 (Int_Uint64 a))))
      else NewU256 0) :: l) c.
Proof.
  intros Hrd Hst. opened Hrd. rewrite Hst in Hx. unfold replaces, dispatch, opBlockhash. ms Hx. vmparams Hb.
  pose proof (blockHash_in s a Hv) as Hin. set (current := st.bc_BlockNumber (st.s_BlockContext s)) in *.
  assert (0 <= current < 2 ^ 63) by apply Hv.
  rewrite u64_i64, u64_id by (unfold isU64; lia). rewrite NewU256_zero.
  destruct (Int_IsUint64 a); cbn [negb orb andb]; [|ms Hx; by split]. rewrite Hin by done. cbv zeta.
  destruct (_ >=? _); cbn [orb negb]; [ms Hx; by split|].
  assert (current -u64 (if current <? 256 then current else 256) = current - Z.min current 256) as ->.
  { destruct (Z.ltb_spec current 256); rewrite u64_id by (unfold isU64; lia); lia. }
  destruct (_ <? _); cbn [negb]; ms Hx; [by split|]. split; [done|]. vmhost_in Hx. by rewrite SetBytes_32 in Hx.
Qed.

Lemma blockHashRules_conform : conform blockHashRules.
Proof.
  unfold blockHashRules. rewrite !List.Forall_app. split_and!.
  - apply ordinary_conforms; [matched|]. intros s c0 cache c Ha Hl Hrd. conditions Ha.
    unfold effect_ok, regular_state. destruct (ct_stack s) as [|a l] eqn:Hst; sized Hl.
    param Ha0 Hst. unfold U256_IsUint64, U256_Uint64 in *. destruct (Int_IsUint64 a) eqn:Hu; [|done].
    cbn [negb] in Ha0. rewrite applies_bool in Ha0. pose proof (rd_valid _ _ _ _ _ _ _ _ Hrd) as Hv.
    pose proof (blockhash_replaces _ _ _ _ _ _ _ Hrd Hst) as HR. rewrite Hu, Ha0 in HR. cbn [andb] in HR.
    rewrite blockHash_in in Ha0 by done. cbv zeta in Ha0. unfold ctx_GetBlockHash in HR. cbn [w_state] in HR.
    set (current := st.bc_BlockNumber (st.s_BlockContext s)) in *. assert (0 <= current < 2 ^ 63) by apply Hv.
    pose proof (Uint64_range a) as Hr. rewrite negb_true_iff, orb_false_iff, Z.geb_leb in Ha0. destruct Ha0 as [Ha1 Ha2]. b2p.
    rewrite !(i64_id current), (i64_id (Int_Uint64 a)) in HR by (unfold isI64, isU64 in *; lia).
    assert ((if current >? 256 then current -i64 256 else 0) = current - Z.min current 256) as Hm.
    { destruct (Z.gtb_spec current 256); [rewrite i64_id by (unfold isI64; lia)|]; lia. }
    rewrite Hm, Z.gtb_ltb, Z.geb_leb, (proj2 (Z.ltb_ge _ _)), (proj2 (Z.leb_gt _ _)), u64_id in HR by (unfold isU64; lia).
    cbn [orb] in HR. destruct (HashArray_Get_ok (st.s_RecentBlockHashes s) (current - Int_Uint64 a - 1)) as [h Hh];
      [apply Hv|lia|]. rewrite Hh in HR. unfold blockHashEffect. ps. unfold U256_Uint64. fold current.
    eapply wpE_liftE; [rewrite !(u64_id (_ - _)) by (rewrite ?u64_id; unfold isU64; lia); exact Hh|].
    ps. eapply wpE_liftE; [apply FromBytes_32|]. ps. by eapply replaces_agrees.
  - apply (unary_conforms _ _ _ _ _ _ (fun _ => NewU256 0)); [matched|]. intros s g c0 cache a l c Ha Hrd Hst.
    conditions Ha. param Ha0 Hst. pose proof (blockhash_replaces _ _ _ _ _ _ _ Hrd Hst) as HR.
    unfold U256_IsUint64, U256_Uint64 in *. destruct (Int_IsUint64 a); [|done]. cbn [negb andb] in *.
    by destruct (inRange256 _ _).
Qed.

End ConformState.
