(* ===== verification/CtConformFlow.v ===== *)
(** * Conformance: control flow, the stack, pushes, invalid instructions and STOP *)
From Stdlib Require Import ZArith Lia Strings.Byte.
From stdpp Require Import base list numbers gmap.
From S2P Require Import Prelude Uint256 Types OpCodes SfvmStack SfvmAnalysis SfvmHashCache SfvmContext SfvmMemory.
From S2P Require Import SfvmGas SfvmInstructions SfvmInterpreter SfvmLogic SfvmSafety SfvmExecution CtSlices LfvmLayout LfvmPush.
From S2P Require Import CtCommon CtState CtRules CtEffects CtSpec CtAdapter CtStateFacts CtExec CtSim.
From S2P Require Import CtConform CtConformArith.
Set Default Goal Selector "!".
Local Open Scope Z_scope.
Local Open Scope go_scope.

Section ConformFlow.
Context {U : Uint256} {UL : Uint256Laws U}.
Context (Keccak256 : list byte -> Hash) (Keccak256For32byte : array 32 -> Hash).
Abbreviation conform := (Forall (rule_conforms Keccak256 Keccak256For32byte)).
Abbreviation dispatch_ := (dispatch (RC := ctRunContext_instance Keccak256) (G := ctGlobals)
  Keccak256 Keccak256For32byte).

(** ** Invalid instructions *)

Lemma invalid_dispatch op : IsValid op = false -> op <> STOP /\ dispatch_ op = fail errInvalidOpCode.
Proof. destruct op; try discriminate; by split. Qed.

Lemma invalidRules_conform : conform invalidRules.
Proof.
  apply List.Forall_flat_map, List.Forall_forall. intros op _. case_if; [|constructor].
  destruct (invalid_dispatch op) as [Hop Hd]; [by destruct (IsValid op)|].
  constructor; [|constructor]. apply (failing_rule_conforms _ _ op); [done|cbn; auto|].
  intros s c0 cache c _ _ _. rewrite Hd. by apply wp_fail.
Qed.

(** ** STOP *)

(** The program counter is behind the code, or on a [STOP]. *)
Lemma stopRules_conform : conform stopRules.
Proof.
  constructor; [|constructor]. intros s Hv Hr Ha. cbn [r_Condition r_Effect] in *.
  rewrite applies_And_Forall, !all_apply_cons in Ha. destruct Ha as (_ & _ & Ho & _).
  apply applies_op in Ho; [|done]. rewrite (valid_code _ Hv) in Ho. pose proof (valid_pc _ Hv) as Hpc.
  intros c Hc. eexists. split; [reflexivity|].
  assert (forall c' cache, c_context c' = mkCtRunContext s false cache ->
    c_gas c' = st.s_Gas s -> c_refund c' = st.s_GasRefund s -> stack_wf (c_stack c') ->
    agrees s (st.set_Pc (u16 (st.s_Pc s + 1)) (st.set_ReturnData [] (st.set_Status st.Stopped s)))
      statusStopped c') as Hagr.
  { clear c Hc. intros c cache E1 E2 E3 E4. exists s, cache, (st.s_Stack s). split_and!; [done..|].
    eexists _, _, _. rewrite E2, E3, (valid_returnData _ Hv Hr). by destruct s. }
  destruct (GetOperation_NewCode _ _ _ (proj1 Hpc) Ho) as [[_ Hlen]|Hat].
  - rewrite Z.geb_leb, (proj2 (Z.leb_le _ _)) by lia. destruct (started_exact _ _ _ _ Hv Hc) as (cache & _ & _ & []).
    by eapply Hagr.
  - pose proof (op_at_pc s STOP Hv Hat). rewrite Z.geb_leb, (proj2 (Z.leb_gt _ _)) by lia.
    assert (price s STOP = 0) as Hp by (unfold price; by destruct (_ >=? _)).
    eapply (wp_step _ _ s c STOP); [done..| | |].
    + pose proof (valid_stack _ Hv) as Hs. rewrite ct_stack_size in Hs. unfold st.MaxStackSize in Hs.
      change (opStackLimits STOP) with (mkStackLimits 0 1024). cbn [sl_min sl_max].
      pose proof (zlen_nonneg (ct_stack s)). lia.
    + pose proof (valid_gas _ Hv). lia.
    + rewrite Hp, Z.sub_0_r. intros _ _ c0 cache c' Hb _ []. unfold dispatch, opStop. apply wp_ret.
      by eapply Hagr.
Qed.

(** ** Jumps *)

(** The jump to the destination [a] is allowed. *)
Definition allowed (s : st.State) (a : U256) : Prop :=
  Int_IsUint64 a = true /\ jump_dest (ct_code s) (Int_Uint64 a).

Lemma allowed_small s a : valid s -> allowed s a -> 0 <= Int_Uint64 a < 24576.
Proof.
  intros Hv [_ [_ Ho]]. apply lookup_lt_Some in Ho. pose proof (valid_codeSize _ Hv) as Hl.
  pose proof (Uint64_range a). unfold zlen, st.MaxCodeSize, isU64 in *. lia.
Qed.

(** The end of both jump instructions. *)
Lemma e_jump F s a w pc g r l m d c0 c Q : valid s -> base Keccak256 s c0 -> exact c0 w pc g r l m d c ->
  (~ allowed s a -> F) ->
  (allowed s a -> forall c', exact c0 w (Int_Uint64 a - 1) g r l m d c' -> Q tt c') ->
  wp (if negb (Int_IsUint64 a) || (Int_Uint64 a >? MaxInt32) then fail errInvalidJump
      else modify (set_pc (i32 (Int_Uint64 a) -i32 1));; checkJumpDest) Q (fun _ => F) c.
Proof.
  intros Hv Hb Hx HF HQ. pose proof (valid_codeSize _ Hv) as Hl. unfold st.MaxCodeSize in Hl.
  pose proof (Uint64_range a) as Ha. unfold isU64 in Ha.
  apply wp_if; intros E.
  - apply wp_fail, HF. intros H. pose proof (allowed_small _ _ Hv H). destruct H as [H _]. rewrite H in E.
    unfold MaxInt32 in E. cbn [negb orb] in E. b2p. lia.
  - apply orb_false_iff in E as [E1 E2]. rewrite negb_false_iff in E1. b2p. unfold MaxInt32 in E2.
    apply wp_bind. eapply e_set_pc; [exact Hx|]. clear Hx. intros c' Hx.
    rewrite (i32_id (Int_Uint64 a)) in Hx by lia. rewrite i32_id in Hx by lia.
    unfold checkJumpDest. apply wp_bind, wp_gets. unfold id. cbv zeta. pose proof Hx as [].
    rewrite ex_pc, ex_code, ex_analysis, (base_code _ _ _ Hb), (base_analysis _ _ _ Hb).
    replace (Int_Uint64 a - 1 +i32 1) with (Int_Uint64 a) by (rewrite i32_id by lia; lia).
    rewrite u64_id by (unfold isU64; lia).
    pose proof (findJumpDestinations_iff (ct_code s) (Int_Uint64 a) ltac:(zblia) (proj1 Ha)) as Hj.
    destruct (isJumpDest _ _); cbn [negb].
    + assert (allowed s a) as Hal by (split; [done|by apply Hj]). pose proof Hal as [_ [_ Ho]].
      apply lookup_lt_Some in Ho. rewrite Z.geb_leb, (proj2 (Z.leb_gt _ _)) by (unfold zlen; lia).
      by apply wp_ret, HQ.
    + rewrite orb_true_r. apply wp_fail, HF. intros [_ H]. apply Hj in H. done.
Qed.

(** The conditions of the rules. *)
Lemma Eval_target s a l : ct_stack s = a :: l -> Eval (eOp (Param 0)) s =
  if negb (Int_IsUint64 a) || (Int_Uint64 a >? MaxInt) then Some (STOP, None)
  else eval_bind (st.Code_GetOperation (st.s_Code s) (Int_Uint64 a)) INVALID (fun op => Some (op, None)).
Proof.
  intros Hst. cbn [Eval Param]. fold (Eval (eParam 0 u256Domain) s). by rewrite (Eval_param0 _ _ _ _ Hst).
Qed.

Lemma GetOperation_allowed s a : valid s -> allowed s a ->
  st.Code_GetOperation (st.s_Code s) (Int_Uint64 a) = Some (JUMPDEST, None)
  /\ st.Code_IsCode (st.s_Code s) (Int_Uint64 a) = true /\ (Int_Uint64 a >? MaxInt) = false.
Proof.
  intros Hv Hal. pose proof (allowed_small _ _ Hv Hal) as Hs. destruct Hal as [_ [Hi Ho]]. rewrite (valid_code _ Hv).
  destruct (NewCode_isCode (ct_code s)) as (Hl & Hb & _). pose proof (lookup_lt_Some _ _ _ Ho).
  assert (st.Code_IsCode (st.NewCode (ct_code s)) (Int_Uint64 a) = true) as Hc by (apply Hb; [zblia|done]).
  split_and!; [|done|unfold MaxInt, MaxInt64; rewrite Z.gtb_ltb; apply Z.ltb_ge; lia].
  unfold st.Code_GetOperation. rewrite Hc, NewCode_code, Ho, (proj2 (Z.ltb_ge _ 0)), Z.geb_leb by lia.
  by rewrite (proj2 (Z.leb_gt _ _)) by zblia.
Qed.

Lemma allowed_by s a l : valid s -> ct_stack s = a :: l -> applies (cEq (eOp (Param 0)) JUMPDEST) s = true ->
  allowed s a.
Proof.
  intros Hv Hst Ha. unfold applies in Ha. cbn [Condition_Check] in Ha. unfold eq_Check in Ha.
  rewrite (Eval_target _ _ _ Hst) in Ha. destruct (Int_IsUint64 a) eqn:Hu; [|done]. cbn [negb orb] in Ha.
  destruct (_ >? _); [done|]. destruct (st.Code_GetOperation _ _) as [[op [e|]]|] eqn:Ho; [done| |done].
  cbn in Ha. destruct (bool_decide (op = JUMPDEST)) eqn:E; [|done]. apply bool_decide_eq_true in E as ->.
  rewrite (valid_code _ Hv) in Ho. pose proof (Uint64_range a) as Hr. unfold isU64 in Hr.
  destruct (GetOperation_NewCode _ _ _ (proj1 Hr) Ho) as [[? _]|[? ?]]; [done|by split].
Qed.

Lemma data_not_allowed s a l : valid s -> ct_stack s = a :: l -> applies (cIsData (Param 0)) s = true ->
  ~ allowed s a.
Proof.
  intros Hv Hst Ha Hal. destruct (GetOperation_allowed s a Hv Hal) as (_ & Hc & Hm). param Ha Hst.
  unfold U256_IsUint64, U256_Uint64 in Ha. rewrite (proj1 Hal), Hm in Ha. cbn [negb orb] in Ha.
  rewrite applies_bool in Ha. unfold st.Code_IsData in Ha. by rewrite Hc in Ha.
Qed.

Lemma op_not_allowed s a l : valid s -> ct_stack s = a :: l -> applies (cNe (eOp (Param 0)) JUMPDEST) s = true ->
  ~ allowed s a.
Proof.
  intros Hv Hst Ha Hal. destruct (GetOperation_allowed s a Hv Hal) as (Ho & _ & Hm).
  unfold applies in Ha. cbn [Condition_Check] in Ha. unfold ne_Check in Ha.
  by rewrite (Eval_target _ _ _ Hst), (proj1 Hal), Hm, Ho in Ha.
Qed.

Lemma u16_small z : 0 <= z < 2 ^ 16 -> u16 z = z.
Proof. intros H. unfold u16. by apply wrapU_id. Qed.

Lemma jump_fails conds : (forall s a l, valid s -> ct_stack s = a :: l -> all_apply conds s -> ~ allowed s a) ->
  conform (rulesFor (mkInstruction JUMP 8 1 0 conds [JumpTargetParameter] FailEffect)).
Proof.
  intros Hc. apply failing_conforms; [done|lia|done|done|]. intros s c0 cache c Ha Hl Hrd.
  change (sl_min (opStackLimits JUMP)) with 1 in Hl.
  destruct (ct_stack s) as [|a l] eqn:Hst; [unfold zlen in Hl; cbn in Hl; lia|]. opened Hrd. rewrite Hst in Hx.
  unfold dispatch, opJump. ms Hx. eapply e_jump; [exact Hv|exact Hb|exact Hx|done|]. intros Hal. by destruct (Hc s a l).
Qed.

Lemma jumpRules_conform : conform jumpRules.
Proof.
  unfold jumpRules. rewrite !List.Forall_app. split_and!.
  - apply ordinary_conforms; [matched|]. intros s c0 cache c Ha Hl Hrd. unfold effect_ok, regular_state.
    destruct (ct_stack s) as [|a l] eqn:Hst; sized Hl. conditions Ha. opened Hrd.
    rewrite Hst in Hx. pose proof (allowed_by _ _ _ Hv Hst Ha1) as Hal. pose proof (allowed_small _ _ Hv Hal).
    unfold jumpEffect, U256_Uint64. ps. rewrite u16_small by lia.
    unfold dispatch, opJump. ms Hx. eapply e_jump; [exact Hv|exact Hb|exact Hx|done|]. clear Hx. intros _ ? Hx. ms Hx.
    agreed Hx.
  - apply jump_fails. intros s a l Hv Hst Ha. conditions Ha. by eapply data_not_allowed.
  - apply jump_fails. intros s a l Hv Hst Ha. conditions Ha. by eapply op_not_allowed.
Qed.

Lemma IsZero_Eq b : U256_Eq b (NewU256 0) = Int_IsZero b.
Proof. symmetry. apply U256_IsZero_spec. Qed.

Lemma nonzero_by s a b l : ct_stack s = a :: b :: l -> applies (cNe (Param 1) (NewU256 0)) s = true ->
  Int_IsZero b = false.
Proof.
  intros Hst Ha. param Ha Hst. cbn in Ha. rewrite IsZero_Eq in Ha. by destruct (Int_IsZero b).
Qed.

Lemma jumpi_fails conds :
  (forall s a b l, valid s -> ct_stack s = a :: b :: l -> all_apply conds s -> ~ allowed s a /\ Int_IsZero b = false) ->
  conform (rulesFor (mkInstruction JUMPI 10 2 0 conds [JumpTargetParameter; NumericParameter] FailEffect)).
Proof.
  intros Hc. apply failing_conforms; [done|lia|done|done|]. intros s c0 cache c Ha Hl Hrd.
  change (sl_min (opStackLimits JUMPI)) with 2 in Hl.
  destruct (ct_stack s) as [|a [|b l]] eqn:Hst; try (unfold zlen in Hl; cbn in Hl; lia). opened Hrd. rewrite Hst in Hx.
  destruct (Hc s a b l Hv Hst Ha) as [Hn Hz].
  unfold dispatch, opJumpi. ms Hx. rewrite Hz. cbn [negb].
  eapply e_jump; [exact Hv|exact Hb|exact Hx|done|]. done.
Qed.

Lemma jumpiRules_conform : conform jumpiRules.
Proof.
  unfold jumpiRules. rewrite !List.Forall_app. split_and!.
  - apply ordinary_conforms; [matched|]. intros s c0 cache c Ha Hl Hrd. unfold effect_ok, regular_state.
    destruct (ct_stack s) as [|a [|b l]] eqn:Hst; sized Hl. conditions Ha. opened Hrd.
    rewrite Hst in Hx. pose proof (allowed_by _ _ _ Hv Hst Ha1) as Hal. pose proof (allowed_small _ _ Hv Hal).
    unfold jumpiEffect, U256_Uint64. ps. rewrite u16_small by lia.
    unfold dispatch, opJumpi. ms Hx. rewrite (nonzero_by _ _ _ _ Hst Ha2). cbn [negb].
    eapply e_jump; [exact Hv|exact Hb|exact Hx|done|]. clear Hx. intros _ ? Hx. ms Hx. agreed Hx.
  - apply ordinary_conforms; [matched|]. intros s c0 cache c Ha Hl Hrd. unfold effect_ok, regular_state.
    destruct (ct_stack s) as [|a [|b l]] eqn:Hst; sized Hl. conditions Ha. opened Hrd. param Ha0 Hst.
    cbn in Ha0. rewrite IsZero_Eq in Ha0.
    rewrite Hst in Hx. ps. unfold dispatch, opJumpi. ms Hx. rewrite Ha0. ms Hx. agreed Hx.
  - apply jumpi_fails. intros s a b l Hv Hst Ha. conditions Ha. eauto using data_not_allowed, nonzero_by.
  - apply jumpi_fails. intros s a b l Hv Hst Ha. conditions Ha. eauto using op_not_allowed, nonzero_by.
Qed.

(** ** Stack *)

Lemma pop_conforms : conform (rulesFor (mkInstruction POP 2 1 0 [] [] (effect_of (_ ← s_pop; mret tt)))).
Proof.
  apply ordinary_conforms; [matched|]. intros s c0 cache c Ha Hl Hrd. unfold effect_ok, regular_state.
  destruct (ct_stack s) as [|a l] eqn:Hst; sized Hl. opened Hrd. rewrite Hst in Hx.
  ps. unfold dispatch, opPop. ms Hx. agreed Hx.
Qed.

(** The instructions of [DUP] and [SWAP] by their number. *)
Lemma dup_matches n : In n (seqZ 1 16) ->
  matches (op_plus DUP1 (n - 1)) 3 n (n + 1) /\ dispatch_ (op_plus DUP1 (n - 1)) = running (opDup n).
Proof.
  intros H. vm_compute in H. repeat destruct H as [<-|H]; try done; split; (matched || reflexivity).
Qed.

Lemma swap_matches n : In n (seqZ 1 16) ->
  matches (op_plus SWAP1 (n - 1)) 3 (n + 1) (n + 1) /\ dispatch_ (op_plus SWAP1 (n - 1)) = running (opSwap n).
Proof.
  intros H. vm_compute in H. repeat destruct H as [<-|H]; try done; split; (matched || reflexivity).
Qed.

Lemma dupOp_conforms n : In n (seqZ 1 16) -> conform (dupOp n).
Proof.
  intros Hin. destruct (dup_matches n Hin) as [Hm Hd]. apply list_elem_of_In, elem_of_seqZ in Hin.
  apply ordinary_conforms; [done|]. intros s c0 cache c Ha Hl Hrd. unfold effect_ok, regular_state. opened Hrd.
  destruct (lookup_lt_is_Some_2 (ct_stack s) (Z.to_nat (n - 1))) as [x Hn]; [unfold zlen in Hl; lia|].
  unfold dupEffect. ps. replace (n - 1) with (Z.of_nat (Z.to_nat (n - 1))) by lia. eapply p_get; [exact Hn|].
  ps. rewrite Z2Nat.id, Hd by lia. unfold opDup. ms Hx. replace (n - 1) with (Z.of_nat (Z.to_nat (n - 1))) by lia.
  eapply e_dup; [exact Hx|unfold st.MaxStackSize in Hl; lia|exact Hn|]. clear Hx. intros c2 Hx. ms Hx. agreed Hx.
Qed.

Lemma swapOp_conforms n : In n (seqZ 1 16) -> conform (swapOp n).
Proof.
  intros Hin. destruct (swap_matches n Hin) as [Hm Hd]. apply list_elem_of_In, elem_of_seqZ in Hin.
  apply ordinary_conforms; [done|]. intros s c0 cache c Ha Hl Hrd. unfold effect_ok, regular_state. opened Hrd.
  destruct (lookup_lt_is_Some_2 (ct_stack s) 0%nat) as [x Hx0]; [unfold zlen in Hl; lia|].
  destruct (lookup_lt_is_Some_2 (ct_stack s) (Z.to_nat n)) as [y Hn]; [unfold zlen in Hl; lia|].
  unfold swapEffect. ps. eapply (p_get _ _ _ _ _ _ _ _ 0); [exact Hx0|]. ps.
  replace n with (Z.of_nat (Z.to_nat n)) by lia. eapply p_get; [exact Hn|]. ps.
  eapply (p_set _ _ _ _ _ _ _ _ 0); [by eapply lookup_lt_Some|]. eapply p_set.
  { rewrite length_insert. by eapply lookup_lt_Some. }
  rewrite Z2Nat.id, Hd by lia. unfold opSwap. ms Hx. replace n with (Z.of_nat (Z.to_nat n)) by lia.
  eapply e_swap; [exact Hx|exact Hx0|exact Hn|]. clear Hx. intros c2 Hx. ms Hx. agreed Hx.
  rewrite Nat2Z.id. apply list_insert_insert_ne. lia.
Qed.

End ConformFlow.

(** ** Conformance: push instructions

    The bytes the specification reads one by one are the immediate data of the
    push, whose word all push instructions of the interpreter push. *)

(** The data read by the specification. *)
Lemma push_data_spec code pc op n : instr_start code pc -> code !! Z.to_nat pc = Some op -> 0 <= pc ->
  forall k start pad, (k <= pad)%nat -> pc < Z.of_nat start -> Z.of_nat (start + k) <= pc + Width op ->
  n = k ->
  push_data (st.NewCode code) (Z.of_nat start) n = Some (take k (drop start code ++ replicate pad x00)).
Proof.
  intros Hs Ho Hp k start pad. revert n start pad. induction k as [|k IH]; intros n start pad Hk Hl Hw ->; [done|].
  cbn [push_data]. rewrite (GetData_NewCode _ pc op) by (done || lia). rewrite Nat2Z.id.
  replace (Z.of_nat start + 1) with (Z.of_nat (S start)) by lia.
  destruct (code !! start) as [b|] eqn:E.
  - rewrite (IH k (S start) pad) by (done || lia). cbn [mbind option_bind from_option id].
    by rewrite (drop_S code b start E).
  - apply lookup_ge_None_1 in E. destruct pad as [|pad]; [lia|].
    rewrite (IH k (S start) pad) by (done || lia). cbn [mbind option_bind from_option id].
    rewrite !drop_ge by lia. done.
Qed.

Section ConformPush.
Context {U : Uint256} {UL : Uint256Laws U}.
Context (Keccak256 : list byte -> Hash) (Keccak256For32byte : array 32 -> Hash).
Abbreviation conform := (Forall (rule_conforms Keccak256 Keccak256For32byte)).

Lemma push_matches n : In n (seq 1 32) ->
  let op := op_plus PUSH1 (Z.of_nat n - 1) in
  matches op 3 0 1 /\ op_in PUSH1 PUSH32 op = true /\ pushSize op = n /\ Width op = Z.of_nat n + 1.
Proof.
  intros H. vm_compute in H. repeat destruct H as [<-|H]; try done; (split; [matched|by vm_compute]).
Qed.

Lemma pushOp_conforms n : In n (seq 1 32) -> conform (pushOp n).
Proof.
  intros Hin. destruct (push_matches n Hin) as (Hm & Hop' & Hsize & Hwidth).
  apply list_elem_of_In, elem_of_seq in Hin. unfold pushOp. set (op := op_plus _ _) in *.
  apply ordinary_conforms; [done|]. intros s c0 cache c Ha Hl Hrd. unfold effect_ok, regular_state. opened Hrd.
  destruct Hop as [Ho Hi]. unfold pushEffect. ps. set (i := Z.to_nat (st.s_Pc s)) in *.
  assert (length (immediate (ct_code s) i n) = n) as Hlen.
  { unfold immediate. rewrite length_take, length_app, length_replicate. lia. }
  eapply wpE_liftE.
  { rewrite (valid_code _ Hv). replace (st.s_Pc s + 1) with (Z.of_nat (i + 1)) by (unfold i; lia).
    apply (push_data_spec _ (st.s_Pc s) op n Hi Ho (proj1 (proj1 Hpc)) n (i + 1) n); [lia|unfold i; lia|unfold i; lia|done]. }
  fold (immediate (ct_code s) i n). ps. eapply wpE_liftE; [apply FromBytes_short; unfold zlen; rewrite Hlen; lia|].
  ps. rewrite u16_small by lia. unfold wp.
  pose proof Hx as []. rewrite (s_pushes _ _ (ct_code s) i); [|rewrite ex_code; apply Hb|rewrite ex_pc; unfold i; lia
    |by eapply lookup_lt_Some|lia|done].
  rewrite Hsize. clear ex_params ex_code ex_analysis ex_sha ex_context ex_pc ex_gas ex_max ex_refund ex_stack ex_view ex_mem ex_store ex_data.
  unfold st.MaxStackSize in Hl.
  change (wp (LfvmPush.s_push (pushed (ct_code s) i n) (Z.of_nat n))
    (agreesD s (mk s st.Running (st.s_Pc s + 1 + Z.of_nat n) (st.s_Gas s - 3) (st.s_GasRefund s)
      (mkS (Int_SetBytes (immediate (ct_code s) i n) :: ct_stack s) (tail (st.spare (st.s_Stack s))))
      (st.s_Memory s) (st.s_LastCallReturnData s) (st.s_ReturnData s)))
    (fun _ => st.Running = st.Failed) c).
  unfold LfvmPush.s_push. ms Hx. apply wp_gets, wp_bind. unfold id. eapply e_set_pc; [exact Hx|].
  rewrite (ex_pc _ _ _ _ _ _ _ _ _ Hx). clear Hx. intros c2 Hx. ms Hx. rewrite i32_id in Hx by lia. agreed Hx.
  f_equal. apply u256_eq. unfold pushed. rewrite SetBytes_law, uval_of_Z. done.
Qed.

Lemma stackRules_conform : Forall (rule_conforms Keccak256 Keccak256For32byte) (flat_map logOp (seq 0 5)) ->
  conform stackRules.
Proof.
  intros Hlog. unfold stackRules. rewrite !List.Forall_app. split_and!; [|apply pop_conforms| | |done];
    apply List.Forall_flat_map, List.Forall_forall; auto using pushOp_conforms, dupOp_conforms, swapOp_conforms.
Qed.

End ConformPush.
