(* ===== verification/CtConformMemory.v ===== *)
(** * Conformance: instructions with memory

    A region of the memory by its offset and its size, as the specification
    has it after [ExpansionCosts]; the interpreter's slices are these regions.
    Rules that charge for, read and write regions on both sides, and the
    instructions that use them. *)
From Stdlib Require Import ZArith Lia Strings.Byte.
From stdpp Require Import base list numbers gmap.
From S2P Require Import Prelude Uint256 Types OpCodes SfvmStack SfvmAnalysis SfvmHashCache SfvmContext SfvmMemory.
From S2P Require Import SfvmGas SfvmInstructions SfvmInterpreter SfvmLogic SfvmSafety SfvmExecution CtSlices CtCommon CtState.
From S2P Require Import CtRules CtEffects CtSpec CtAdapter CtStateFacts CtExec CtSim CtConform CtConformArith.
From S2P Require Import CtConformState.
Set Default Goal Selector "!".
Local Open Scope Z_scope.
Local Open Scope go_scope.

(** ** Regions *)

Definition region (off sz : Z) : mslice := if sz =? 0 then nil_slice else mkSlice off (off + sz).

Definition bytes_at (m : list byte) (off sz : Z) : list byte :=
  if sz =? 0 then [] else slice m off (off + sz).

(** [copy(m[off:off+sz], data)]. *)
Definition write_at (m : list byte) (off sz : Z) (data : list byte) : list byte :=
  if sz =? 0 then m else copy_at m off (off + sz) data.

(** The region is empty or can be made part of a memory. *)
Definition fits (off sz : Z) : Prop :=
  sz = 0 \/ 0 <= off /\ 0 < sz /\ off + sz <= maxMemoryExpansionSize.

(** The region is empty or part of [m]. *)
Definition inside (m : list byte) (off sz : Z) : Prop := sz = 0 \/ 0 <= off /\ 0 < sz /\ off + sz <= zlen m.

Lemma bytes_at_length m off sz : inside m off sz -> zlen (bytes_at m off sz) = sz.
Proof.
  intros H. unfold bytes_at. destruct (Z.eqb_spec sz 0) as [->|Hne]; [done|]. destruct H as [|(? & ? & ?)]; [done|].
  unfold slice, zlen in *. rewrite length_take, length_drop. lia.
Qed.

Lemma copy_at_length {A} (l src : list A) lo hi : 0 <= lo -> lo <= hi -> hi <= zlen l ->
  zlen (copy_at l lo hi src) = zlen l.
Proof.
  intros. unfold copy_at, go_copy, slice, zlen in *.
  rewrite !length_app, !length_take, !length_drop, !length_take, !length_drop. lia.
Qed.

Lemma write_at_length m off sz data : inside m off sz -> zlen (write_at m off sz data) = zlen m.
Proof.
  intros H. unfold write_at. destruct (Z.eqb_spec sz 0) as [->|Hne]; [done|]. destruct H as [|(? & ? & ?)]; [done|].
  apply copy_at_length; lia.
Qed.

Lemma write_at_mem m off sz data : ct_mem m -> inside m off sz -> ct_mem (write_at m off sz data).
Proof. intros (w & Hl & Hb) H. exists w. by rewrite write_at_length. Qed.

Section Regions.
Context {U : Uint256} {UL : Uint256Laws U}.

Lemma Grow_inside m off sz : ct_mem m -> fits off sz ->
  ct_mem (st.Memory_Grow m off sz) /\ inside (st.Memory_Grow m off sz) off sz.
Proof.
  intros Hm [->|(Ho & Hs & Hb)]; [split; [done|by left]|].
  destruct (Memory_Grow_ok m off sz Hm Ho Hs Hb) as (H1 & H2 & _). split; [done|]. right. lia.
Qed.

Lemma Grow_id m off sz : zlen m < 2 ^ 64 -> inside m off sz -> st.Memory_Grow m off sz = m.
Proof.
  intros Hm [->|(Ho & Hs & Hb)]; [done|]. unfold st.Memory_Grow, st.Memory_Size.
  rewrite (proj2 (Z.eqb_neq _ _)), !u64_id, Z.gtb_ltb, (proj2 (Z.ltb_ge _ _)) by zblia. done.
Qed.

Lemma ct_mem_size m : ct_mem m -> zlen m < 2 ^ 64.
Proof. intros (w & Hl & Hb). unfold maxMemoryExpansionSize in Hb. lia. Qed.

(** The costs are within the range of gas; if they can be paid, the region
    fits and is the one that was asked for. *)
Lemma ExpansionCosts_facts m offset size cost off sz : ct_mem m ->
  st.Memory_ExpansionCosts m offset size = (cost, off, sz) ->
  0 <= cost <= MaxInt64 /\ isU64 off /\ isU64 sz
  /\ (cost < MaxInt64 -> uval size = sz /\ Int_IsUint64 size = true /\ Int_Uint64 size = sz
      /\ fits off sz /\ (sz <> 0 -> uval offset = off /\ Int_IsUint64 offset = true)).
Proof.
  intros Hm. pose proof Hm as (w0 & Hl & Hb). rewrite ExpansionCosts_spec by done. unfold fits.
  pose proof (uval_range size). pose proof (uval_range offset).
  destruct (Int_IsUint64 size) eqn:Hu; cbn [negb].
  2: { intros [= <- <- <-]. unfold MaxInt64, isU64. lia. }
  rewrite IsUint64_law in Hu. assert (Int_Uint64 size = uval size) as Hi by (rewrite Uint64_law, Z.mod_small; [done|]; b2p; lia).
  destruct (Int_IsUint64 offset) eqn:Ho; cbn [negb]; rewrite IsUint64_law in Ho; b2p.
  2: { intros [= <- <- <-]. unfold MaxInt64, isU64. destruct (Z.eqb_spec (uval size) 0); lia. }
  intros [= <- <- <-]. unfold maxMemoryExpansionSize, MaxInt64, isU64 in *.
  destruct (Z.eqb_spec (uval size) 0); [lia|]. destruct (Z.leb_spec (uval offset + uval size) (zlen m)); [lia|].
  destruct (Z.gtb_spec (uval offset + uval size) 0x1FFFFFFFE0); [lia|].
  set (w := (uval offset + uval size + 31) / 32). set (w1 := zlen m / 32).
  destruct (memoryCost_exact w) as [_ Hc1]; [unfold w, maxMemoryExpansionSize; divlia|].
  destruct (memoryCost_exact w1) as [_ Hc2]; [unfold w1, maxMemoryExpansionSize; divlia|].
  pose proof (memory_cost_mono w1 w) as Hmono. assert (0 <= w1 <= w) as Hw by (unfold w, w1; divlia).
  specialize (Hmono Hw). lia.
Qed.

(** *** Two expansions one after the other *)

(** The words of the smallest memory with the region. *)
Definition needed (off sz : Z) : Z := if sz =? 0 then 0 else (off + sz + 31) / 32.

Definition wordsCost (w : Z) : Z := w * w / 512 + 3 * w.

Lemma needed_spec off sz w0 : 0 <= w0 -> fits off sz -> 0 <= needed off sz
  /\ 32 * needed off sz <= maxMemoryExpansionSize
  /\ (needed off sz <= w0 <-> sz = 0 \/ off + sz <= 32 * w0).
Proof.
  intros Hw Hf. unfold needed, maxMemoryExpansionSize. destruct (Z.eqb_spec sz 0) as [->|Hne]; [lia|].
  destruct Hf as [|(? & ? & Hb)]; [done|]. unfold maxMemoryExpansionSize in Hb. divlia.
Qed.

Lemma zlen_Grow m off sz w0 : ct_mem m -> fits off sz -> zlen m = 32 * w0 ->
  zlen (st.Memory_Grow m off sz) = 32 * Z.max w0 (needed off sz).
Proof.
  intros Hm Hf Hl. pose proof (zlen_nonneg m). destruct (needed_spec off sz w0 ltac:(lia) Hf) as (Hn0 & _ & Hn).
  destruct Hf as [->|(? & ? & ?)]; [rewrite Memory_Grow_zero; unfold needed; cbn; lia|].
  destruct (Memory_Grow_ok m off sz Hm) as (_ & _ & ->); [lia..|].
  assert (needed off sz = (off + sz + 31) / 32) as Hd by (unfold needed; by rewrite (proj2 (Z.eqb_neq _ _)) by lia).
  rewrite zlen_app, <-Hd. unfold zeros, zlen in *. rewrite length_replicate. lia.
Qed.

Lemma cost_words m offset size cost off sz w0 : ct_mem m -> zlen m = 32 * w0 ->
  st.Memory_ExpansionCosts m offset size = (cost, off, sz) -> cost < MaxInt64 ->
  cost = wordsCost (Z.max w0 (needed off sz)) - wordsCost w0.
Proof.
  intros Hm Hl HE Hc. destruct (ExpansionCosts_facts _ _ _ _ _ _ Hm HE) as (_ & Ho & Hs & Hf).
  destruct (Hf Hc) as (Hsz & Hu & _ & Hfit & Hoff). pose proof (zlen_nonneg m).
  destruct (needed_spec off sz w0 ltac:(lia) Hfit) as (_ & _ & Hn).
  rewrite ExpansionCosts_spec, Hu, Hsz in HE by done. cbn [negb] in HE.
  destruct (Z.eqb_spec sz 0) as [->|Hne].
  { rewrite Z.max_l by tauto. destruct (negb _); injection HE; lia. }
  destruct (Hoff Hne) as [Hoff' Huo]. rewrite Huo, Hoff' in HE. cbn [negb] in HE. injection HE as HE.
  destruct (Z.leb_spec (off + sz) (zlen m)); [rewrite Z.max_l by (apply Hn; lia); lia|].
  destruct Hfit as [|(? & ? & ?)]; [done|]. rewrite Z.gtb_ltb, (proj2 (Z.ltb_ge _ _)) in HE by lia.
  rewrite Z.max_r by lia. unfold wordsCost, needed. rewrite (proj2 (Z.eqb_neq _ _)) by done.
  replace (zlen m / 32) with w0 in HE by divlia. lia.
Qed.

(** Whether the region fits, and where it is, does not depend on the memory. *)
Definition payable (offset size : U256) : bool :=
  Int_IsUint64 size && ((uval size =? 0)
    || Int_IsUint64 offset && (uval offset + uval size <=? maxMemoryExpansionSize)).

Definition place (offset size : U256) : Z * Z :=
  if Int_IsUint64 size && Int_IsUint64 offset then (uval offset, uval size) else (0, 0).

Lemma cost_payable m offset size cost off sz : ct_mem m ->
  st.Memory_ExpansionCosts m offset size = (cost, off, sz) ->
  (off, sz) = place offset size /\ (cost = MaxInt64 <-> payable offset size = false).
Proof.
  intros Hm. pose proof Hm as (w0 & Hl & Hb). rewrite ExpansionCosts_spec by done. unfold payable, place.
  pose proof (uval_range size). pose proof (uval_range offset).
  destruct (Int_IsUint64 size); cbn [negb andb]; [|intros [= <- <- <-]; done].
  destruct (Int_IsUint64 offset); cbn [negb andb]; intros [= <- <- <-]; (split; [done|]).
  2: { by destruct (uval size =? 0). }
  destruct (uval size =? 0); cbn [orb]; [done|]. unfold MaxInt64, maxMemoryExpansionSize in *.
  destruct (Z.leb_spec (uval offset + uval size) (zlen m)), (Z.leb_spec (uval offset + uval size) 0x1FFFFFFFE0),
    (Z.gtb_spec (uval offset + uval size) 0x1FFFFFFFE0); try lia; try done.
  destruct (memoryCost_exact ((uval offset + uval size + 31) / 32)) as [_ Hk]; [unfold maxMemoryExpansionSize; divlia|].
  destruct (memoryCost_exact (zlen m / 32)) as [_ Hk2]; [unfold maxMemoryExpansionSize; divlia|]. lia.
Qed.

(** Expanding for a first and then for a second region costs the maximum of
    the two costs. *)
Lemma expand_twice m offset1 size1 cost1 off1 sz1 offset2 size2 cost2 off2 sz2 : ct_mem m ->
  st.Memory_ExpansionCosts m offset1 size1 = (cost1, off1, sz1) -> cost1 < MaxInt64 ->
  st.Memory_ExpansionCosts m offset2 size2 = (cost2, off2, sz2) ->
  exists cost2', st.Memory_ExpansionCosts (st.Memory_Grow m off1 sz1) offset2 size2 = (cost2', off2, sz2)
    /\ (cost2 < MaxInt64 -> cost1 + cost2' = Z.max cost1 cost2) /\ (cost2 = MaxInt64 -> cost2' = MaxInt64).
Proof.
  intros Hm HE1 Hc1 HE2. pose proof Hm as (w0 & Hl & Hb). pose proof (zlen_nonneg m).
  destruct (ExpansionCosts_facts _ _ _ _ _ _ Hm HE1) as (_ & _ & _ & Hf1). destruct (Hf1 Hc1) as (_ & _ & _ & Hfit1 & _).
  destruct (Grow_inside _ _ _ Hm Hfit1) as [Hm1 _]. pose proof (zlen_Grow _ _ _ _ Hm Hfit1 Hl) as Hl1.
  set (m1 := st.Memory_Grow m off1 sz1) in *.
  destruct (ExpansionCosts_facts _ _ _ _ _ _ Hm HE2) as (Hr2 & _ & _ & Hf2).
  destruct (st.Memory_ExpansionCosts m1 offset2 size2) as [[cost2' off2'] sz2'] eqn:HE2'.
  destruct (ExpansionCosts_facts _ _ _ _ _ _ Hm1 HE2') as (Hr2' & _ & _ & Hf2').
  destruct (cost_payable _ _ _ _ _ _ Hm HE2) as [Hp Hiff]. destruct (cost_payable _ _ _ _ _ _ Hm1 HE2') as [Hp' Hiff'].
  rewrite <-Hp in Hp'. injection Hp' as -> ->.
  exists cost2'. split; [done|]. split; [|tauto]. intros Hc2.
  assert (cost2' <> MaxInt64) by (intros E%Hiff'%Hiff; lia).
  destruct (Hf2 Hc2) as (_ & _ & _ & Hfit2 & _).
  destruct (needed_spec off1 sz1 w0 ltac:(lia) Hfit1) as (Hn1 & _ & _). destruct (needed_spec off2 sz2 w0 ltac:(lia) Hfit2) as (Hn2 & _ & _).
  rewrite (cost_words _ _ _ _ _ _ w0 Hm Hl HE1 Hc1), (cost_words _ _ _ _ _ _ w0 Hm Hl HE2 Hc2).
  rewrite (cost_words _ _ _ _ _ _ _ Hm1 Hl1 HE2') by lia.
  pose proof (memory_cost_mono (Z.max w0 (needed off1 sz1)) (Z.max w0 (needed off2 sz2))) as Hmono1.
  pose proof (memory_cost_mono (Z.max w0 (needed off2 sz2)) (Z.max w0 (needed off1 sz1))) as Hmono2.
  fold (wordsCost (Z.max w0 (needed off1 sz1))) (wordsCost (Z.max w0 (needed off2 sz2))) in Hmono1, Hmono2.
  destruct (Z.le_ge_cases (Z.max w0 (needed off1 sz1)) (Z.max w0 (needed off2 sz2))).
  - replace (Z.max (Z.max w0 (needed off1 sz1)) (needed off2 sz2)) with (Z.max w0 (needed off2 sz2)) by lia. lia.
  - replace (Z.max (Z.max w0 (needed off1 sz1)) (needed off2 sz2)) with (Z.max w0 (needed off1 sz1)) by lia. lia.
Qed.

(** ** The interpreter *)

Context {W : Type} {RC : RunContext W} {G : Globals W}.
Implicit Types (c : context W).

Lemma e_slice F c0 w pc g r l m d c offset size cost off sz Q : exact c0 w pc g r l m d c ->
  st.Memory_ExpansionCosts m offset size = (cost, off, sz) ->
  (g < cost -> F) ->
  (cost <= g -> forall c', exact c0 w pc (g - cost) r l (st.Memory_Grow m off sz) d c' -> Q (region off sz) c') ->
  wp (getSlice offset size) Q (fun _ => F) c.
Proof.
  intros Hx HE HF HQ. pose proof (e_getSlice F c0 w pc g r l m d c offset size Q Hx) as H. rewrite HE in H.
  apply H; [done|]. intros Hc _ _ c' Hx'. apply HQ; [lia|done].
Qed.

Lemma e_slice_read F c0 w pc g r l m d c off sz Q : exact c0 w pc g r l m d c ->
  Q (bytes_at m off sz) c -> wp (slice_read (region off sz)) Q (fun _ => F) c.
Proof.
  intros [] HQ. unfold slice_read. apply wp_gets. rewrite ex_store. unfold region, bytes_at in *.
  destruct (sz =? 0); done.
Qed.

Lemma e_slice_write F c0 w pc g r l m d c off sz data Q : exact c0 w pc g r l m d c -> inside m off sz ->
  (forall c', exact c0 w pc g r l (write_at m off sz data) d c' -> Q tt c') ->
  wp (slice_write (region off sz) data) Q (fun _ => F) c.
Proof.
  intros [] Hi HQ. unfold slice_write. apply wp_modify. apply HQ.
  assert (copy_at (m_store (c_memory c)) (sl_lo (region off sz)) (sl_hi (region off sz)) data = write_at m off sz data) as E.
  { rewrite ex_store. unfold region, write_at. destruct (Z.eqb_spec sz 0); [|done].
    unfold copy_at, go_copy, slice. cbn. by destruct data. }
  constructor; try done; cbn; rewrite ?E; try done.
  destruct ex_mem as (wo & Hl & Hb & Hc). exists wo. cbn. rewrite write_at_length by done. by rewrite <-ex_store.
Qed.

(** ** The specification *)

Lemma p_expansionCosts ws status pc g r stk m d rd offset size (Q : Z * Z * Z -> st.State -> Prop) :
  Q (st.Memory_ExpansionCosts m offset size) (mk ws status pc g r stk m d rd) ->
  wpE (s_expansionCosts offset size) Q (mk ws status pc g r stk m d rd).
Proof. done. Qed.

Lemma p_read ws status pc g r stk m d rd off sz (Q : list byte -> st.State -> Prop) : ct_mem m -> fits off sz ->
  (let m' := st.Memory_Grow m off sz in Q (bytes_at m' off sz) (mk ws status pc g r stk m' d rd)) ->
  wpE (s_memRead off sz) Q (mk ws status pc g r stk m d rd).
Proof. intros Hm Hf HQ. by apply p_memRead. Qed.

Lemma p_write ws status pc g r stk m d rd off data (Q : unit -> st.State -> Prop) : ct_mem m -> fits off (zlen data) ->
  Q tt (mk ws status pc g r stk (write_at (st.Memory_Grow m off (zlen data)) off (zlen data) data) d rd) ->
  wpE (s_memWrite data off) Q (mk ws status pc g r stk m d rd).
Proof.
  intros Hm Hf HQ. apply p_memWrite; [done|destruct Hf as [|]; [by left|right; lia]|]. done.
Qed.

End Regions.

(** ** Conformance: memory, hashes, copies, logs and results *)

(** Computes the costs of a region of the memory in the state of the effect. *)
Ltac costs HE :=
  apply p_expansionCosts;
  match goal with |- context [st.Memory_ExpansionCosts ?m ?offset ?size] =>
    destruct (st.Memory_ExpansionCosts m offset size) as [[?cost ?off] ?sz] eqn:HE end; cbv beta iota zeta.

Section ConformMemory.
Context {U : Uint256} {UL : Uint256Laws U}.
Context (Keccak256 : list byte -> Hash) (Keccak256For32byte : array 32 -> Hash).
Abbreviation conform := (Forall (rule_conforms Keccak256 Keccak256For32byte)).
Abbreviation dispatch_ := (dispatch (RC := ctRunContext_instance Keccak256) (G := ctGlobals)
  Keccak256 Keccak256For32byte).

(** ** Words *)

Lemma SetBytes32_SetBytes l : zlen l = 32 -> Int_SetBytes l = Int_SetBytes32 l.
Proof.
  intros H. apply u256_eq. rewrite SetBytes_law, SetBytes32_law by done.
  pose proof (be_val_range l) as Hr. rewrite H in Hr. apply Z.mod_small. unfold M256. lia.
Qed.

Lemma mloadRules_conform : conform mloadRules.
Proof.
  apply ordinary_conforms; [matched|]. intros s c0 cache c _ Hl Hrd. unfold effect_ok, regular_state. opened Hrd.
  destruct (ct_stack s) as [|a l] eqn:Hst; sized Hl. pose proof (exact_ct_mem _ _ _ _ _ _ _ _ _ Hx) as Hm.
  unfold mloadEffect, dispatch, opMload, readWord. ps. costs HE.
  destruct (ExpansionCosts_facts _ _ _ _ _ _ Hm HE) as (Hc & Ho & Hs & Hf). rewrite NewU256_NewInt in HE by done.
  apply p_charge; [done|lia|intros Hlt|intros Hge].
  - ms Hx. eapply e_slice; [exact Hx|exact HE|done|lia].
  - destruct Hf as (Hsz & _ & _ & Hfit & _); [lia|]. rewrite NewU256_uval in Hsz by done. subst sz.
    ps. apply p_read; [done|done|]. destruct (Grow_inside _ _ _ Hm Hfit) as [Hm' Hin]. cbv zeta.
    pose proof (bytes_at_length _ _ _ Hin) as Hlen.
    ps. eapply wpE_liftE; [by apply FromBytes_short; lia|]. ps. ms Hx.
    eapply e_slice; [exact Hx|exact HE|lia|]. clear Hx. intros _ c2 Hx. ms Hx.
    eapply e_slice_read; [exact Hx|]. ms Hx. rewrite SetBytes32_SetBytes by done. agreed Hx.
Qed.

(** Writing a word or a byte. *)
Lemma mem_set_conforms s op data n rest a v l g c0 cache c : ready Keccak256 Keccak256For32byte s op g c0 cache c ->
  ct_stack s = a :: v :: l -> dispatch_ op = running (addr ← pop; value ← pop; mem_set addr (data value)) ->
  zlen (data v) = n -> 0 < n <= 32 -> (forall off, rest off = s_memWrite (data v) off) ->
  wpE (s_expansionCosts a (NewU256 n)) (fun r => wpE (let '(cost, off, _) := r in s_charge cost (rest off))
    (fun _ s' => wp (dispatch_ op) (agreesD s s') (fun _ => st.s_Status s' = st.Failed) c))
    (mk s st.Running (st.s_Pc s + 1) g (st.s_GasRefund s) (mkS l (v :: a :: st.spare (st.s_Stack s)))
       (st.s_Memory s) (st.s_LastCallReturnData s) (st.s_ReturnData s)).
Proof.
  intros Hrd Hst Hd <- Hlen Hrest. opened Hrd. rewrite Hst in Hx. pose proof (exact_ct_mem _ _ _ _ _ _ _ _ _ Hx) as Hm.
  ps. costs HE. destruct (ExpansionCosts_facts _ _ _ _ _ _ Hm HE) as (Hc & Ho & Hs & Hf).
  assert (isU64 (zlen (data v))) by (unfold isU64; lia).
  rewrite NewU256_NewInt in HE by done. rewrite Hd, Hrest.
  apply p_charge; [done|lia|intros Hlt|intros Hge].
  - ms Hx. unfold mem_set. ms Hx. rewrite u64_id by done. eapply e_slice; [exact Hx|exact HE|done|lia].
  - destruct Hf as (Hsz & _ & _ & Hfit & _); [lia|]. rewrite NewU256_uval in Hsz by done. subst sz.
    apply p_write; [done|done|]. destruct (Grow_inside _ _ _ Hm Hfit) as [Hm' Hin].
    ms Hx. unfold mem_set. ms Hx. rewrite u64_id by done.
    eapply e_slice; [exact Hx|exact HE|lia|]. clear Hx. intros _ c2 Hx.
    eapply e_slice_write; [exact Hx|done|]. clear Hx. intros c3 Hx. ms Hx. agreed Hx.
Qed.

Lemma mstoreRules_conform : conform mstoreRules.
Proof.
  apply ordinary_conforms; [matched|]. intros s c0 cache c _ Hl Hrd. unfold effect_ok, regular_state.
  destruct (ct_stack s) as [|a [|v l]] eqn:Hst; sized Hl. unfold mstoreEffect, U256_Bytes32be. ps.
  apply (mem_set_conforms s MSTORE (fun v => arr_bytes (Int_Bytes32 v)) 32 (fun off => s_memWrite (arr_bytes (Int_Bytes32 v)) off)
    a v l _ _ _ _ Hrd Hst); [done|apply zlen_arr|done|done].
Qed.

(** The last byte of a word is the one [MSTORE8] writes. *)
Lemma last_byte v : arr_bytes (Int_Bytes32 v) !! 31%nat = Some (byte_of (Int_Uint64 v)).
Proof.
  destruct (lookup_lt_is_Some_2 (arr_bytes (Int_Bytes32 v)) 31) as [b Hb]; [rewrite array_length; lia|].
  rewrite Hb. f_equal. pose proof (be_byte _ _ _ Hb) as H. rewrite zlen_arr, Bytes32_law in H.
  change (Z.of_nat 32 - Z.of_nat 31 - 1) with 0 in H. rewrite Z.div_1_r in H.
  apply byte_val_inj. rewrite H, byte_val_of, Uint64_law. symmetry. apply Z.mod_mod_divide. by exists (2 ^ 56).
Qed.

Lemma mstore8Rules_conform : conform mstore8Rules.
Proof.
  apply ordinary_conforms; [matched|]. intros s c0 cache c _ Hl Hrd. unfold effect_ok, regular_state.
  destruct (ct_stack s) as [|a [|v l]] eqn:Hst; sized Hl. unfold mstore8Effect, U256_Bytes32be. ps.
  apply (mem_set_conforms s MSTORE8 (fun v => [byte_of (Int_Uint64 v)]) 1
    (fun off => b ← liftE (arr_bytes (Int_Bytes32 v) !! 31%nat); s_memWrite [b] off) a v l _ _ _ _ Hrd Hst); [done|done|done|].
  intros off. by rewrite last_byte.
Qed.

(** ** Hashes *)

(** The price of the words of a region. *)
Lemma words_price k size : 0 <= k <= 6 -> isU64 size -> 0 <= i64 (k *u64 SizeInWords size) < 2 ^ 62.
Proof.
  intros Hk Hs. assert (0 <= SizeInWords size <= 2 ^ 59) as Hw.
  { unfold SizeInWords. case_if; [vm_compute; split; discriminate|]. unfold isU64, MaxUint64 in *. b2p.
    rewrite u64_id by (unfold isU64; lia). divlia. }
  rewrite u64_id, i64_id; unfold isU64, isI64; nia.
Qed.

Lemma Memory_Hash_ok m off sz : ct_mem m -> fits off sz ->
  let m' := st.Memory_Grow m off sz in
  st.Memory_Hash Keccak256 m off sz = Some (Keccak256 (bytes_at m' off sz), m').
Proof.
  intros Hm Hf m'. destruct (Grow_inside _ _ _ Hm Hf) as [Hm' Hin]. fold m' in Hm', Hin.
  unfold st.Memory_Hash. fold m'. unfold bytes_at. pose proof (ct_mem_size _ Hm').
  destruct Hin as [->|(? & ? & ?)]; [done|].
  rewrite Z.gtb_ltb, (proj2 (Z.ltb_lt _ _)), (proj2 (Z.eqb_neq _ _)), u64_id by (unfold isU64; lia).
  by rewrite (proj2 (Z.leb_le _ _)), (proj2 (Z.leb_le _ (zlen _))) by lia.
Qed.

(** Hashing, with or without the cache. *)
Lemma e_hash F s data cache (withCache : bool) c0 pc g r l m d c Q : sha_ok Keccak256 Keccak256For32byte withCache cache ->
  exact c0 (mkCtRunContext s false cache) pc g r l m d c ->
  (forall cache' c', exact c0 (mkCtRunContext s false cache') pc g r l m d c' -> Q (Keccak256 data) c') ->
  wp (if withCache then sha3Cache_hash (G := ctGlobals) Keccak256 Keccak256For32byte data else mret (Keccak256 data))
    Q (fun _ => F) c.
Proof.
  intros Hs Hx HQ. destruct withCache; [|by apply wp_ret, (HQ cache)]. destruct (Hs eq_refl) as [Hw Hlaw].
  destruct (sha3_hash_some Keccak256 Keccak256For32byte cache data Hw) as (cache' & Hh & _).
  unfold sha3Cache_hash. ms Hx. cbn [g_sha3Cache ctGlobals w_sha3Cache].
  eapply wp_lift_option; [exact Hh|]. cbv beta iota. ms Hx. 
  assert ((if (length data =? 32)%nat then Keccak256For32byte (to_array 32 data) else Keccak256 data) = Keccak256 data) as ->.
  { destruct (Nat.eqb_spec (length data) 32); [|done]. by rewrite Hlaw, to_array_bytes. }
  by apply (HQ cache').
Qed.

Lemma sha3Rules_conform : conform (sha3Rules Keccak256).
Proof.
  apply ordinary_conforms; [matched|]. intros s c0 cache c _ Hl Hrd. unfold effect_ok, regular_state. opened Hrd.
  destruct (ct_stack s) as [|a [|b l]] eqn:Hst; sized Hl. pose proof (exact_ct_mem _ _ _ _ _ _ _ _ _ Hx) as Hm.
  unfold sha3Effect, dispatch, opSha3. ps. costs HE.
  destruct (ExpansionCosts_facts _ _ _ _ _ _ Hm HE) as (Hc & Ho & Hs & Hf).
  pose proof (words_price 6 sz ltac:(lia) Hs) as Hw. set (price_ := i64 (6 *u64 SizeInWords sz)) in *.
  apply p_charge; [done|lia|intros Hlt|intros Hge].
  { ms Hx. eapply e_slice; [exact Hx|exact HE|done|lia]. }
  destruct Hf as (_ & _ & Hsz & Hfit & _); [lia|]. destruct (Grow_inside _ _ _ Hm Hfit) as [Hm' Hin].
  apply p_charge; [lia|lia|intros Hlt|intros Hge2].
  - ms Hx. eapply e_slice; [exact Hx|exact HE|lia|]. clear Hx. intros _ c2 Hx. ms Hx. rewrite Hsz. fold price_.
    eapply e_useGas; [exact Hx|done|lia].
  - ps. eapply wpE_liftE; [by apply Memory_Hash_ok|]. cbv beta iota. ps. eapply wpE_liftE; [apply FromBytes_32|]. ps. ms Hx.
    eapply e_slice; [exact Hx|exact HE|lia|]. clear Hx. intros _ c2 Hx. ms Hx. rewrite Hsz. fold price_.
    eapply e_useGas; [exact Hx|lia|]. clear Hx. intros _ c3 Hx. ms Hx.
    eapply e_slice_read; [exact Hx|]. ms Hx. eapply e_hash; [exact Hshac|exact Hx|].
    clear Hx. intros cache' c4 Hx. ms Hx. agreed Hx.
Qed.

(** ** Results *)

Lemma end_conforms op status status' : op = RETURN /\ status = st.Stopped /\ status' = statusReturned
    \/ op = REVERT /\ status = st.Reverted /\ status' = statusReverted ->
  conform (rulesFor (mkInstruction op 0 2 0 [] [MemoryOffsetParameter; SizeParameter] (effect_of (endEffect status)))).
Proof.
  intros Hop'. assert (matches op 0 2 0 /\ dispatch_ op = (opEndWithResult;; mret status')) as [Hmatch Hd].
  { destruct Hop' as [(-> & -> & ->)|(-> & -> & ->)]; (split; [matched|done]). }
  apply ordinary_conforms; [done|]. intros s c0 cache c _ Hl Hrd. unfold effect_ok, regular_state. opened Hrd.
  destruct (ct_stack s) as [|a [|b l]] eqn:Hst; sized Hl. pose proof (exact_ct_mem _ _ _ _ _ _ _ _ _ Hx) as Hm.
  unfold endEffect. ps. costs HE. rewrite Hd. unfold opEndWithResult.
  destruct (ExpansionCosts_facts _ _ _ _ _ _ Hm HE) as (Hc & Ho & Hs & Hf).
  apply p_charge; [done|lia|intros Hlt|intros Hge].
  - ms Hx. apply wp_on_error. eapply e_slice; [exact Hx|exact HE|done|lia].
  - destruct Hf as (_ & _ & Hsz & Hfit & _); [lia|]. ps. apply p_read; [done|done|]. cbv zeta. ps. ms Hx.
    apply wp_on_error. eapply e_slice; [exact Hx|exact HE|lia|]. clear Hx. intros _ c2 Hx. ms Hx.
    eapply e_slice_read; [exact Hx|]. eapply e_set_returnData; [exact Hx|]. clear Hx. intros c3 Hx. ms Hx.
    destruct Hx. eexists s, cache, _. cbn [c_context c_stack set_pc]. split_and!; [done..|].
    destruct Hop' as [(-> & -> & ->)|(-> & -> & ->)]; eexists _, _, _; cbn; rewrite ex_gas, ex_refund, ex_data; reflexivity.
Qed.

Lemma returnRules_conform : conform returnRules.
Proof.
  unfold returnRules. apply List.Forall_app. split; eapply end_conforms; [left|right]; done.
Qed.

(** ** Logs *)

Lemma p_popN ws status pc g r m d rd n : forall l sp (Q : list U256 -> st.State -> Prop), (n <= length l)%nat ->
  Q (take n l) (mk ws status pc g r (mkS (drop n l) (reverse (take n l) ++ sp)) m d rd) ->
  wpE (s_popN n) Q (mk ws status pc g r (mkS l sp) m d rd).
Proof.
  induction n as [|n IH]; intros l sp Q Hn HQ; cbn [s_popN]; [by ps|].
  destruct l as [|x l]; cbn in Hn; [lia|]. ps. apply IH; [lia|]. ps. cbn [take drop] in HQ.
  by rewrite reverse_cons, <-app_assoc in HQ.
Qed.

Lemma e_pop_topics F c0 w pc g r m d n : forall l c Q, (n <= length l)%nat -> exact c0 w pc g r l m d c ->
  (forall c', exact c0 w pc g r (drop n l) m d c' -> Q (map Int_Bytes32 (take n l)) c') ->
  wp (pop_topics (W := ctRunContext) n) Q (fun _ => F) c.
Proof.
  induction n as [|n IH]; intros l c Q Hn Hx HQ; cbn [pop_topics]; [ms Hx; by apply HQ|].
  destruct l as [|x l]; cbn in Hn; [lia|]. ms Hx. eapply IH; [|exact Hx|]; [lia|]. intros c2 Hx2. ms Hx2. by apply HQ.
Qed.

Lemma log_matches n : In n (seq 0 5) -> let op := op_plus LOG0 (Z.of_nat n) in
  matches op (375 + 375 * Z.of_nat n) (2 + Z.of_nat n) 0 /\ dispatch_ op = running (opLog (RC := ctRunContext_instance Keccak256) n).
Proof.
  intros H. vm_compute in H. repeat destruct H as [<-|H]; try done; (split; [matched|done]).
Qed.

Lemma log_topics l : map word_of (map Int_Bytes32 l) = l.
Proof. induction l as [|x l IH]; [done|]. cbn. by rewrite word_of_Bytes32, IH. Qed.

Lemma logOp_conforms n : In n (seq 0 5) -> conform (logOp n).
Proof.
  intros Hin. destruct (log_matches n Hin) as [Hmatch Hd]. unfold logOp. set (op := op_plus _ _) in *.
  apply List.Forall_app. split.
  - apply ordinary_conforms; [done|]. intros s c0 cache c Ha Hl Hrd. conditions Ha. unfold effect_ok, regular_state.
    opened Hrd. unfold st.MaxStackSize in Hl.
    destruct (ct_stack s) as [|a [|b l]] eqn:Hst; try (unfold zlen in Hl; cbn in Hl; lia). rewrite !zlen_cons in Hl.
    pose proof (exact_ct_mem _ _ _ _ _ _ _ _ _ Hx) as Hm. unfold logEffect. rewrite Hd. unfold opLog. ps.
    assert (n <= length l)%nat as Hn by (unfold zlen in Hl; lia).
    apply p_popN; [done|]. ps. costs HE.
    destruct (ExpansionCosts_facts _ _ _ _ _ _ Hm HE) as (Hc & Ho & Hs & Hf).
    assert (p_Static (c_params c0) = false) as Hro.
    { vmparams Hb. by destruct (st.s_ReadOnly s). }
    apply p_charge; [done|lia|intros Hlt|intros Hge].
    { ms Hx. rewrite Hro. ms Hx. eapply e_pop_topics; [done|exact Hx|]. clear Hx. intros c2 Hx. ms Hx.
      eapply e_slice; [exact Hx|exact HE|done|lia]. }
    destruct Hf as (_ & _ & Hsz & Hfit & _); [lia|]. destruct (Grow_inside _ _ _ Hm Hfit) as [Hm' Hin'].
    assert (i64 (8 *u64 sz) = 8 * sz /\ 0 <= sz) as [Hprice Hsz0].
    { unfold fits, maxMemoryExpansionSize, isU64 in *. rewrite u64_id, i64_id by (unfold isU64, isI64; lia). lia. }
    rewrite Hprice. apply p_charge; [lia|lia|intros Hlt|intros Hge2].
    + ms Hx. rewrite Hro. ms Hx. eapply e_pop_topics; [done|exact Hx|]. clear Hx. intros c2 Hx. ms Hx.
      eapply e_slice; [exact Hx|exact HE|lia|]. clear Hx. intros _ c3 Hx. ms Hx. rewrite Hsz, Hprice.
      eapply e_useGas; [exact Hx|done|lia].
    + ps. apply p_read; [done|done|]. cbv zeta. ps.
      ms Hx. rewrite Hro. ms Hx. eapply e_pop_topics; [done|exact Hx|]. clear Hx. intros c2 Hx. ms Hx.
      eapply e_slice; [exact Hx|exact HE|lia|]. clear Hx. intros _ c3 Hx. ms Hx. rewrite Hsz, Hprice.
      eapply e_useGas; [exact Hx|lia|]. clear Hx. intros _ c4 Hx. ms Hx.
      eapply e_slice_read; [exact Hx|]. ms Hx. vmhost_in Hx. unfold ctx_EmitLog in Hx. cbn [log_Topics log_Data w_state w_set w_panicked w_sha3Cache] in Hx.
      rewrite log_topics in Hx. agreed Hx.
  - destruct Hmatch as (Hne & Hg0 & _ & Hlim). apply failing_conforms; rewrite ?Hlim; cbn [sl_min sl_max]; [done|lia|lia|lia|].
    intros s c0 cache c Ha Hl Hrd. conditions Ha. opened Hrd. rewrite Hd. unfold opLog. ms Hx.
    vmparams Hb. destruct (st.s_ReadOnly s); [|done]. by ms Hx.
Qed.

(** ** Copies *)

(** A sum of two costs: it fails exactly if the gas does not suffice. *)
Lemma sumWithOverflow_two a b : 0 <= a <= MaxInt64 -> 0 <= b < 2 ^ 62 ->
  sumWithOverflow [a; b] = if a + b <=? MaxInt64 then (a + b, false) else (0, true).
Proof.
  intros Ha Hb. unfold sumWithOverflow, MaxInt64 in *. cbn [sumWithOverflow_loop].
  rewrite Z.add_0_l, (i64_id a), (proj2 (Z.ltb_ge a 0)) by (unfold isI64; lia).
  destruct (Z.leb_spec (a + b) (2 ^ 63 - 1)).
  - rewrite i64_id, (proj2 (Z.ltb_ge _ _)) by (unfold isI64; lia). done.
  - rewrite (proj2 (Z.ltb_lt _ _)); [done|]. unfold i64, wrapS. 
    replace (a + b + 2 ^ (64 - 1)) with (a + b - 2 ^ 63 + 1 * 2 ^ 64) by lia. rewrite Z_mod_plus_full, Z.mod_small by lia. lia.
Qed.

Lemma p_chargeCopy ws status pc g r stk m d rd cost size rest (Q : unit -> st.State -> Prop) :
  0 <= g < MaxInt64 -> 0 <= cost <= MaxInt64 -> isU64 size ->
  let words := i64 (3 *u64 SizeInWords size) in
  (g < cost + words -> Q tt (mk ws st.Failed pc g r stk m d rd)) ->
  (cost + words <= g -> wpE rest Q (mk ws status pc (g - (cost + words)) r stk m d rd)) ->
  wpE (chargeCopy cost size rest) Q (mk ws status pc g r stk m d rd).
Proof.
  intros Hg Hc Hs words HF HQ. pose proof (words_price 3 size ltac:(lia) Hs) as Hw. fold words in Hw.
  unfold chargeCopy. fold words. rewrite sumWithOverflow_two by lia.
  destruct (Z.leb_spec (cost + words) MaxInt64); unfold MaxInt64 in *; ps.
  - rewrite orb_false_r. destruct (Z.ltb_spec g (cost + words)); [by apply HF|].
    unfold s_useGas. ps. rewrite i64_id by (unfold isI64; lia). by apply HQ.
  - rewrite orb_true_r. apply HF. lia.
Qed.

Lemma go_copy_nil n : RightPadSlice x00 [] (Z.to_nat n) = zeros n.
Proof. unfold RightPadSlice, go_copy. by rewrite take_nil. Qed.

(** The part of [src] a copy reads, as both sides compute it. *)
Definition window (src : list byte) (offset : U256) (size : Z) : Z * Z :=
  let len := u64 (zlen src) in
  let start := if U256_Gt offset (NewU256 len) then len else U256_Uint64 offset in
  (start, Z.min (start +u64 size) len).

Definition window_bytes (src : list byte) (offset : U256) (size : Z) : list byte :=
  let '(start, end_) := window src offset size in RightPadSlice x00 (slice src start end_) (Z.to_nat size).

Lemma window_ok src offset size : zlen src < 2 ^ 63 -> 0 <= size < 2 ^ 63 ->
  let '(start, end_) := window src offset size in
  0 <= start <= end_ /\ end_ <= zlen src /\ getData src offset size = Some (window_bytes src offset size)
  /\ zlen (window_bytes src offset size) = size.
Proof.
  intros Hl Hs. destruct (window src offset size) as [start end_] eqn:Ew. unfold window_bytes. rewrite Ew.
  unfold window in Ew. pose proof (zlen_nonneg src). rewrite u64_id in Ew by (unfold isU64; lia).
  unfold U256_Gt, U256_Uint64 in Ew. rewrite Gt_law, NewU256_uval, Z.gtb_ltb in Ew by (unfold isU64; lia).
  assert (zlen (RightPadSlice x00 (slice src start end_) (Z.to_nat size)) = size) as Hlen.
  { unfold RightPadSlice, go_copy, zlen. rewrite length_app, length_take, length_drop, length_replicate. lia. }
  rewrite Hlen. unfold getData. rewrite u64_id by (unfold isU64; lia). pose proof (uval_range offset).
  assert (forall k, k = zlen src -> RightPadSlice x00 (slice src k k) (Z.to_nat size) = zeros size) as Hz.
  { intros k _. unfold slice. rewrite Z.sub_diag. apply go_copy_nil. }
  assert (size = 0 -> RightPadSlice x00 (slice src start end_) (Z.to_nat size) = []) as Hz0.
  { intros E. apply nil_length_inv. unfold zlen in Hlen. lia. }
  rewrite IsUint64_law. destruct (Z.ltb_spec (zlen src) (uval offset)) as [Hgt|Hle].
  - injection Ew as <- <-. rewrite u64_id, Z.min_r by (unfold isU64; lia). split_and!; [lia..| |done].
    destruct (Z.eqb_spec size 0); [rewrite <-Hz0 by done; by rewrite u64_id, Z.min_r by (unfold isU64; lia)|].
    rewrite Hz by done. destruct (Z.ltb_spec (uval offset) (2 ^ 64)); cbn [negb orb]; [|done].
    rewrite Uint64_law, Z.mod_small by lia. by rewrite Z.geb_leb, (proj2 (Z.leb_le _ _)) by lia.
  - rewrite Uint64_law, Z.mod_small in Ew |- * by lia. injection Ew as <- <-.
    rewrite u64_id in * by (unfold isU64; lia). split_and!; [lia..| |done].
    destruct (Z.eqb_spec size 0); [by rewrite <-Hz0|].
    rewrite (proj2 (Z.ltb_lt _ _)), Z.geb_leb by lia. cbn [negb orb].
    destruct (Z.leb_spec (zlen src) (uval offset)).
    + replace (Z.min (uval offset + size) (zlen src)) with (uval offset) by lia. by rewrite Hz by lia.
    + rewrite Z.gtb_ltb. assert ((if zlen src <? uval offset + size then zlen src else uval offset + size)
        = Z.min (uval offset + size) (zlen src)) as -> by (case_if; b2p; lia).
      by rewrite (proj2 (Z.ltb_ge _ _)) by lia.
Qed.

Lemma e_genericDataCopy F c0 (w : ctRunContext) pc g r a b n l m d c source cost off sz Q :
  exact c0 w pc g r (a :: b :: n :: l) m d c -> ct_mem m -> zlen source < 2 ^ 63 ->
  st.Memory_ExpansionCosts m a n = (cost, off, sz) ->
  let words := i64 (3 *u64 SizeInWords sz) in
  (g < cost + words -> F) ->
  (cost + words <= g -> forall c', exact c0 w pc (g - (cost + words)) r l
     (write_at (st.Memory_Grow m off sz) off sz (window_bytes source b sz)) d c' -> Q tt c') ->
  wp (genericDataCopy source) Q (fun _ => F) c.
Proof.
  intros Hx Hm Hl HE words HF HQ. destruct (ExpansionCosts_facts _ _ _ _ _ _ Hm HE) as (Hc & Ho & Hs & Hf).
  pose proof (words_price 3 sz ltac:(lia) Hs) as Hw. fold words in Hw. pose proof (ex_max _ _ _ _ _ _ _ _ _ Hx) as Hg.
  pose proof (words_price 3 (Int_Uint64 n) ltac:(lia) (Uint64_range n)) as Hw'.
  unfold genericDataCopy. ms Hx. eapply e_useGas; [exact Hx| |].
  - intros [?|Hlt]; [lia|]. apply HF. destruct (Z.lt_ge_cases cost MaxInt64) as [Hlt'|]; [|lia].
    destruct (Hf Hlt') as (_ & _ & Hsz & _). rewrite Hsz in Hlt. fold words in Hlt. lia.
  - clear Hx. intros Hle c2 Hx. ms Hx. eapply e_slice; [exact Hx|exact HE| |].
    + intros Hlt. apply HF. destruct (Z.lt_ge_cases cost MaxInt64) as [Hlt'|]; [|lia].
      destruct (Hf Hlt') as (_ & _ & Hsz & _). rewrite Hsz in *. fold words in Hlt. lia.
    + clear Hx. intros Hle2 c3 Hx. destruct Hf as (_ & _ & Hsz & Hfit & _); [lia|]. rewrite Hsz in *. fold words in Hle, Hle2, Hx.
      destruct (Grow_inside _ _ _ Hm Hfit) as [Hm' Hin].
      assert (0 <= sz < 2 ^ 63) as Hsz' by (unfold fits, maxMemoryExpansionSize in Hfit; lia).
      pose proof (window_ok source b sz Hl Hsz') as Hwin. destruct (window source b sz). destruct Hwin as (_ & _ & Hget & _).
      ms Hx. eapply wp_lift_option; [exact Hget|]. eapply e_slice_write; [exact Hx|done|]. clear Hx. intros c4 Hx.
      apply HQ; [lia|]. by replace (g - (cost + words)) with (g - words - cost) by lia.
Qed.

(** A copy by the specification of the bytes the window selects. *)
Lemma wpE_copy ws status pc g r stk m d rd source b off sz (Q : unit -> st.State -> Prop)
    (P : list byte -> st.State -> Prop) : ct_mem m -> fits off sz -> zlen source < 2 ^ 63 ->
  (forall data s, wpE (s_memWrite (RightPadSlice x00 data (Z.to_nat sz)) off) Q s -> P data s) ->
  Q tt (mk ws status pc g r stk (write_at (st.Memory_Grow m off sz) off sz (window_bytes source b sz)) d rd) ->
  let len := u64 (Bytes_Length source) in
  let start := if U256_Gt b (NewU256 len) then len else U256_Uint64 b in
  wpE (liftE (Bytes_Get source start ((start +u64 sz) `min` len))) P (mk ws status pc g r stk m d rd).
Proof.
  intros Hm Hfit Hl HP HQ len start.
  assert (0 <= sz < 2 ^ 63) as Hsz' by (unfold fits, maxMemoryExpansionSize in Hfit; lia).
  pose proof (window_ok source b sz Hl Hsz') as Hwin. unfold window_bytes in *.
  change (window source b sz) with (start, (start +u64 sz) `min` len) in *. destruct Hwin as (H1 & H2 & _ & Hlen).
  eapply wpE_liftE; [unfold Bytes_Get; rewrite (proj2 (Z.leb_le _ _)), (proj2 (Z.leb_le _ (zlen _))) by lia; done|].
  apply HP, p_write; [done|by rewrite Hlen|]. by rewrite Hlen.
Qed.

Lemma codeCopy_conforms : conform (rulesFor (mkInstruction CODECOPY 3 3 0 []
  [MemoryOffsetParameter; DataOffsetParameter; SizeParameter] (effect_of codeCopyEffect))).
Proof.
  apply ordinary_conforms; [matched|]. intros s c0 cache c _ Hl Hrd. unfold effect_ok, regular_state. opened Hrd.
  destruct (ct_stack s) as [|a [|b [|n l]]] eqn:Hst; sized Hl. pose proof (exact_ct_mem _ _ _ _ _ _ _ _ _ Hx) as Hm.
  unfold codeCopyEffect, dispatch. ps. costs HE.
  destruct (ExpansionCosts_facts _ _ _ _ _ _ Hm HE) as (Hc & Ho & Hs & Hf).
  assert (p_Code (c_params c0) = ct_code s) as Hcode by (by vmparams Hb).
  apply p_chargeCopy; [done|done|done|intros Hlt|intros Hge].
  - apply wp_bind, wp_gets. unfold id. rewrite (ex_params _ _ _ _ _ _ _ _ _ Hx), Hcode. ms Hx.
    eapply e_genericDataCopy; [exact Hx|done|lia|exact HE|done|lia].
  - pose proof (words_price 3 sz ltac:(lia) Hs). destruct Hf as (_ & _ & _ & Hfit & _); [lia|].
    ps. unfold st.Code_Length. fold (ct_code s).
    change (if U256_Gt b (NewU256 (u64 (zlen (ct_code s)))) then u64 (zlen (ct_code s)) else U256_Uint64 b)
      with (window (ct_code s) b sz).1.
    change (((window (ct_code s) b sz).1 +u64 sz) `min` u64 (zlen (ct_code s))) with (window (ct_code s) b sz).2.
    assert (0 <= sz < 2 ^ 63) as Hsz' by (unfold fits, maxMemoryExpansionSize in Hfit; lia).
    pose proof (window_ok (ct_code s) b sz ltac:(lia) Hsz') as Hwin.
    assert (window_bytes (ct_code s) b sz = go_copy (zeros sz) (slice (ct_code s) (window (ct_code s) b sz).1
      (window (ct_code s) b sz).2)) as Hwb by (unfold window_bytes; by destruct (window _ _ _)).
    destruct (window (ct_code s) b sz) as [start end_]. destruct Hwin as (H1 & H2 & _ & Hlen). cbn [fst snd] in *.
    eapply wpE_liftE.
    { unfold st.Code_CopyCodeSlice. fold (ct_code s). rewrite !i64_id by (unfold isI64; lia).
      rewrite (proj2 (Z.leb_le 0 _)), (proj2 (Z.leb_le start _)), (proj2 (Z.leb_le _ (zlen _))) by lia.
      cbn [andb]. rewrite <-Hwb. done. }
    apply p_write; [done|by rewrite Hlen|]. rewrite Hlen.
    apply wp_bind, wp_gets. unfold id. rewrite (ex_params _ _ _ _ _ _ _ _ _ Hx), Hcode. ms Hx.
    eapply e_genericDataCopy; [exact Hx|done|lia|exact HE|lia|]. clear Hx. intros _ c2 Hx. ms Hx. agreed Hx.
Qed.

Lemma callDataCopy_conforms : conform (rulesFor (mkInstruction CALLDATACOPY 3 3 0 []
  [MemoryOffsetParameter; DataOffsetParameter; SizeParameter] (effect_of callDataCopyEffect))).
Proof.
  apply ordinary_conforms; [matched|]. intros s c0 cache c _ Hl Hrd. unfold effect_ok, regular_state. opened Hrd.
  destruct (ct_stack s) as [|a [|b [|n l]]] eqn:Hst; sized Hl. pose proof (exact_ct_mem _ _ _ _ _ _ _ _ _ Hx) as Hm.
  unfold callDataCopyEffect, dispatch. ps. costs HE.
  destruct (ExpansionCosts_facts _ _ _ _ _ _ Hm HE) as (Hc & Ho & Hs & Hf).
  assert (p_Input (c_params c0) = st.s_CallData s) as Hin by (by vmparams Hb). pose proof (valid_callData _ Hv) as Hcl.
  apply p_chargeCopy; [done|done|done|intros Hlt|intros Hge].
  - apply wp_bind, wp_gets. unfold id. rewrite (ex_params _ _ _ _ _ _ _ _ _ Hx), Hin. ms Hx.
    eapply e_genericDataCopy; [exact Hx|done|lia|exact HE|done|lia].
  - pose proof (words_price 3 sz ltac:(lia) Hs). destruct Hf as (_ & _ & _ & Hfit & _); [lia|]. ps.
    eapply wpE_copy; [done|done|done|intros ? ? HP; exact HP|].
    apply wp_bind, wp_gets. unfold id. rewrite (ex_params _ _ _ _ _ _ _ _ _ Hx), Hin. ms Hx.
    eapply e_genericDataCopy; [exact Hx|done|lia|exact HE|lia|]. clear Hx. intros _ c2 Hx. ms Hx. agreed Hx.
Qed.

Lemma extCodeCopyRules_conform : conform extCodeCopyRules.
Proof.
  apply (accountRules_conform Keccak256 Keccak256For32byte EXTCODECOPY _ 4 0 extCodeCopyEffect); [done..|].
  intros s x l0 gas markWarm c0 cache c _ Hst Hl Hacc Hrd. split; intros Hlt.
  { opened Hrd. rewrite Hst in Hx. unfold dispatch, opExtCodeCopy. ms Hx.
    eapply (e_chargeAccountAccess Keccak256); [exact Hb| |exact Hacc|exact Hx|done|lia]. done. }
  unfold effect_ok, regular_state. rewrite Hst. opened Hrd. rewrite Hst in Hx. unfold extCodeCopyEffect.
  destruct l0 as [|a [|b [|n l]]]; sized Hl. pose proof (exact_ct_mem _ _ _ _ _ _ _ _ _ Hx) as Hm. ps. costs HE.
  destruct (ExpansionCosts_facts _ _ _ _ _ _ Hm HE) as (Hc & Ho & Hs & Hf).
  unfold NewAddress, U256_Bytes20be in *. set (address := Int_Bytes20 x) in *.
  set (source := st.Accounts_GetCode (st.s_Accounts s) address) in *.
  assert (zlen source < 2 ^ 63) as Hcl by apply Hv.
  assert (0 <= st.s_Gas s - gas < MaxInt64) as Hgas.
  { pose proof (valid_gas _ Hv). unfold accessed, MaxInt64, st.MaxGasUsedByCt in *.
    destruct (_ >=? _); [destruct (st.Accounts_IsWarm _ _)|]; lia. }
  assert (st.Accounts_GetCode (st.s_Accounts (warmed markWarm address s)) address = source) as Hsrc by (by destruct markWarm).
  apply p_chargeCopy; [done|done|done|intros Hlt2|intros Hge].
  - unfold dispatch, opExtCodeCopy. ms Hx.
    eapply (e_chargeAccountAccess Keccak256); [exact Hb| |exact Hacc|exact Hx|lia|]; [done|]. clear Hx. intros _ c2 Hx.
    ms Hx. vmhost. fold address. rewrite Hsrc. eapply e_genericDataCopy; [exact Hx|done|done|exact HE|done|lia].
  - pose proof (words_price 3 sz ltac:(lia) Hs). destruct Hf as (_ & _ & _ & Hfit & _); [lia|]. ps.
    eapply wpE_copy; [done|done|done|intros ? ? HP; apply wpE_bind, HP|]. cbv beta. apply p_markWarm. unfold dispatch, opExtCodeCopy. ms Hx.
    eapply (e_chargeAccountAccess Keccak256); [exact Hb| |exact Hacc|exact Hx|lia|]; [done|]. clear Hx. intros _ c2 Hx.
    ms Hx. vmhost. fold address. rewrite Hsrc.
    eapply e_genericDataCopy; [exact Hx|done|done|exact HE|lia|]. clear Hx. intros _ c3 Hx. ms Hx.
    destruct (warmed_local markWarm address s). agreed Hx.
Qed.

Lemma callDataLoad_conforms : conform (rulesFor (mkInstruction CALLDATALOAD 3 1 1 [] [MemoryOffsetParameter]
  (effect_of callDataLoadEffect))).
Proof.
  apply ordinary_conforms; [matched|]. intros s c0 cache c _ Hl Hrd. unfold effect_ok, regular_state. opened Hrd.
  destruct (ct_stack s) as [|a l] eqn:Hst; sized Hl. unfold callDataLoadEffect, dispatch, opCallDataload. ps.
  assert (p_Input (c_params c0) = st.s_CallData s) as Hin by (by vmparams Hb). pose proof (valid_callData _ Hv) as Hcl.
  set (input := st.s_CallData s) in *. pose proof (zlen_nonneg input). pose proof (uval_range a).
  pose proof (window_ok input a 32 Hcl ltac:(lia)) as Hwin. unfold U256_IsUint64, U256_Uint64, Bytes_Length.
  assert (forall v, getData input a 32 = Some v -> 
    wp (dispatch_ CALLDATALOAD) (fun status c' => status = statusRunning /\
      exact c0 (mkCtRunContext s false cache) (st.s_Pc s) (st.s_Gas s - 3) (st.s_GasRefund s) (Int_SetBytes v :: l)
        (st.s_Memory s) (st.s_LastCallReturnData s) c') (fun _ => False) c) as HD.
  { intros v Hv'. unfold dispatch, opCallDataload. ms Hx. rewrite Hin. eapply wp_lift_option; [exact Hv'|]. by ms Hx. }
  destruct (window input a 32) as [start end_] eqn:Ew. destruct Hwin as (H1 & H2 & Hget & Hlen).
  specialize (HD _ Hget). unfold window_bytes in *. rewrite Ew in *. unfold window, U256_Gt, U256_Uint64 in Ew.
  rewrite u64_id in * by (unfold isU64; lia). rewrite Gt_law, NewU256_uval, Z.gtb_ltb in Ew by (unfold isU64; lia).
  rewrite IsUint64_law. destruct (Z.ltb_spec (uval a) (2 ^ 64)).
  - rewrite Uint64_law, Z.mod_small in * by lia. ps.
    assert (Z.min (uval a) (zlen input) = start) as -> by (injection Ew; case_if; b2p; lia).
    injection Ew as Es Ee. rewrite Es in Ee. rewrite Ee.
    eapply wpE_liftE; [unfold Bytes_Get; rewrite (proj2 (Z.leb_le _ _)), (proj2 (Z.leb_le _ (zlen _))) by lia; done|].
    eapply wpE_liftE; [apply FromBytes_short; change 32%nat with (Z.to_nat 32); lia|]. ps.
    eapply wp_mono; [exact HD| |done]. cbv beta. intros status c2 [-> Hx2]. agreed Hx2.
  - rewrite (proj2 (Z.ltb_lt _ _)) in Ew by lia. injection Ew as <- <-. ps.
    eapply wp_mono; [exact HD| |done]. cbv beta. intros status c2 [-> Hx2]. agreed Hx2. f_equal.
    rewrite u64_id, Z.min_r by (unfold isU64; lia). unfold slice. rewrite Z.sub_diag.
    apply u256_eq. rewrite SetBytes_law, NewU256_uval by done. change (take (Z.to_nat 0) _) with (@nil byte). rewrite (go_copy_nil 32). done.
Qed.

(** Writing a value of known size with [mem_set]. *)
Lemma e_mem_set F c0 (w : ctRunContext) pc g r l m d c offset size data cost off sz Q : exact c0 w pc g r l m d c ->
  ct_mem m -> zlen data = uval size -> uval size < 2 ^ 63 ->
  st.Memory_ExpansionCosts m offset size = (cost, off, sz) ->
  (g < cost -> F) ->
  (cost <= g -> forall c', exact c0 w pc (g - cost) r l (write_at (st.Memory_Grow m off sz) off sz data) d c' -> Q tt c') ->
  wp (mem_set offset data) Q (fun _ => F) c.
Proof.
  intros Hx Hm Hl Hs HE HF HQ. unfold mem_set. pose proof (uval_range size). pose proof (ex_max _ _ _ _ _ _ _ _ _ Hx).
  assert (NewInt (u64 (zlen data)) = size) as ->.
  { rewrite u64_id by (unfold isU64; lia). apply u256_eq. rewrite NewInt_uval by (unfold isU64; lia). done. }
  ms Hx. eapply e_slice; [exact Hx|exact HE|done|]. clear Hx. intros Hle c2 Hx.
  destruct (ExpansionCosts_facts _ _ _ _ _ _ Hm HE) as (Hc & _ & _ & Hf). destruct Hf as (_ & _ & _ & Hfit & _); [lia|].
  destruct (Grow_inside _ _ _ Hm Hfit) as [_ Hin]. eapply e_slice_write; [exact Hx|done|]. intros c3 Hx3. by apply HQ.
Qed.

Lemma sumWithOverflowU_two a b : isU64 a -> isU64 b ->
  sumWithOverflowU [a; b] = if a + b <? 2 ^ 64 then (a + b, false) else (0, true).
Proof.
  intros Ha Hb. unfold sumWithOverflowU. cbn [sumWithOverflow_loop]. unfold isU64 in *.
  rewrite Z.add_0_l, (u64_id a), (proj2 (Z.ltb_ge a 0)) by (unfold isU64; lia).
  destruct (Z.ltb_spec (a + b) (2 ^ 64)).
  - rewrite u64_id, (proj2 (Z.ltb_ge _ _)) by (unfold isU64; lia). done.
  - rewrite (proj2 (Z.ltb_lt _ _)); [done|]. unfold u64, wrapU.
    replace (a + b) with (a + b - 2 ^ 64 + 1 * 2 ^ 64) by lia. rewrite Z_mod_plus_full, Z.mod_small by lia. lia.
Qed.

(** The region of the return data exists. *)
Definition readable (data : list byte) (b n : U256) : Prop :=
  Int_IsUint64 b = true /\ Int_IsUint64 n = true /\ uval b + uval n <= zlen data.

Lemma e_opReturnDataCopy F c0 (w : ctRunContext) pc g r a b n l m d c cost off sz Q :
  exact c0 w pc g r (a :: b :: n :: l) m d c -> ct_mem m -> zlen d < 2 ^ 63 ->
  st.Memory_ExpansionCosts m a n = (cost, off, sz) ->
  let words := i64 (3 *u64 SizeInWords sz) in
  (~ readable d b n -> F) -> (g < cost + words -> F) ->
  (readable d b n -> cost + words <= g -> forall c', exact c0 w pc (g - (cost + words)) r l
     (write_at (st.Memory_Grow m off sz) off sz (slice d (uval b) (uval b + uval n))) d c' -> Q tt c') ->
  wp opReturnDataCopy Q (fun _ => F) c.
Proof.
  intros Hx Hm Hl HE words HR HF HQ. destruct (ExpansionCosts_facts _ _ _ _ _ _ Hm HE) as (Hc & Ho & Hs & Hf).
  pose proof (words_price 3 sz ltac:(lia) Hs) as Hw. fold words in Hw. pose proof (ex_max _ _ _ _ _ _ _ _ _ Hx) as Hg.
  pose proof (words_price 3 (Int_Uint64 n) ltac:(lia) (Uint64_range n)) as Hw'. pose proof (zlen_nonneg d).
  pose proof (uval_range b). pose proof (uval_range n). unfold opReturnDataCopy, readable in *. ms Hx.
  destruct (Int_IsUint64 b) eqn:Hub, (Int_IsUint64 n) eqn:Hun; cbn [negb orb]; try (apply wp_fail, HR; intuition done).
  rewrite IsUint64_law in Hub, Hun. b2p. rewrite Uint64_law, (Z.mod_small (uval b)) in * by lia.
  rewrite !(Uint64_law n), (Z.mod_small (uval n)) in * by lia.
  assert (cost < MaxInt64 -> uval n = sz) as Hsz by (intros; apply Hf; lia).
  ms Hx. eapply e_useGas; [exact Hx| |].
  { intros [?|Hlt]; [lia|]. apply HF. destruct (Z.lt_ge_cases cost MaxInt64) as [Hlt'|]; [|lia].
    rewrite (Hsz Hlt') in Hlt. fold words in Hlt. lia. }
  clear Hx. intros Hle c2 Hx. destruct (Z.ltb_spec (uval b + uval n) (2 ^ 64)) as [Hov|Hov].
  2: { rewrite (proj2 (Z.ltb_lt _ _)); [apply wp_fail, HR; lia|]. unfold u64, wrapU.
       replace (uval b + uval n) with (uval b + uval n - 2 ^ 64 + 1 * 2 ^ 64) by lia. rewrite Z_mod_plus_full, Z.mod_small by lia. lia. }
  rewrite (u64_id (_ + _)), (proj2 (Z.ltb_ge _ _)) by (unfold isU64; lia). ms Hx. rewrite u64_id by (unfold isU64; lia).
  destruct (Z.gtb_spec (uval b + uval n) (zlen d)) as [Hgt|Hle']; [apply wp_fail, HR; lia|].
  eapply (e_mem_set _ _ _ _ _ _ _ _ _ _ _ n); [exact Hx|done| |lia|exact HE| |].
  - unfold slice, zlen in *. rewrite length_take, length_drop. lia.
  - intros Hlt. apply HF. destruct (Z.lt_ge_cases cost MaxInt64) as [Hlt'|]; [|lia].
    rewrite (Hsz Hlt') in *. fold words in Hlt. lia.
  - clear Hx. intros Hle2 c3 Hx. rewrite Hsz in * by lia. fold words in Hle, Hle2, Hx. apply HQ; [done|lia|].
    by replace (g - (cost + words)) with (g - words - cost) by lia.
Qed.

Lemma returnDataCopy_conforms : conform (rulesFor (mkInstruction RETURNDATACOPY 3 3 0 []
  [MemoryOffsetParameter; DataOffsetParameter; SizeParameter] (effect_of returnDataCopyEffect))).
Proof.
  apply ordinary_conforms; [matched|]. intros s c0 cache c _ Hl Hrd. unfold effect_ok, regular_state. opened Hrd.
  destruct (ct_stack s) as [|a [|b [|n l]]] eqn:Hst; sized Hl. pose proof (exact_ct_mem _ _ _ _ _ _ _ _ _ Hx) as Hm.
  unfold returnDataCopyEffect, dispatch, U256_IsUint64, U256_Uint64, Bytes_Length. ps.
  set (data := st.s_LastCallReturnData s) in *. assert (zlen data < 2 ^ 63) as Hdl by apply Hv.
  pose proof (zlen_nonneg data). rewrite !u64_id by (unfold isU64; lia).
  destruct (st.Memory_ExpansionCosts (st.s_Memory s) a n) as [[cost off] sz] eqn:HE.
  destruct (ExpansionCosts_facts _ _ _ _ _ _ Hm HE) as (Hc & Ho & Hs & Hf).
  rewrite sumWithOverflowU_two by apply Uint64_range.
  assert (readable data b n \/ ~ readable data b n) as [Hok|Hbad] by (unfold readable;
    destruct (Int_IsUint64 b), (Int_IsUint64 n), (Z.le_gt_cases (uval b + uval n) (zlen data)); intuition (done || lia)).
  - pose proof Hok as (Hub & Hun & Hle). pose proof (uval_range b). pose proof (uval_range n).
    rewrite !Uint64_exact, Hub, Hun by done. rewrite (proj2 (Z.ltb_lt _ _)), Z.gtb_ltb, (proj2 (Z.ltb_ge _ _)) by lia.
    cbn [negb orb]. ps. apply p_expansionCosts. rewrite HE. cbv beta iota.
    apply p_chargeCopy; [done|done|done|intros Hlt|intros Hge].
    + ms Hx. eapply e_opReturnDataCopy; [exact Hx|done|done|exact HE|done|done|lia].
    + pose proof (words_price 3 sz ltac:(lia) Hs). destruct Hf as (Hsz & _ & _ & Hfit & _); [lia|].
      assert (zlen (slice data (uval b) (uval b + uval n)) = sz) as Hlen.
      { rewrite <-Hsz. unfold slice, zlen in *. rewrite length_take, length_drop. lia. }
      ps. eapply wpE_liftE; [unfold Bytes_Get; rewrite (proj2 (Z.leb_le _ _)), (proj2 (Z.leb_le _ (zlen _))) by lia; done|].
      apply p_write; [done|by rewrite Hlen|]. rewrite Hlen. ms Hx.
      eapply e_opReturnDataCopy; [exact Hx|done|done|exact HE|done|lia|]. clear Hx. intros _ _ c2 Hx. ms Hx. agreed Hx.
  - match goal with |- wpE (let '(x, y) := ?p in if @?t x y then _ else _) _ _ => assert (t p.1 p.2 = true) as Ht end.
    { destruct (Int_IsUint64 b) eqn:Hub; [|done]. destruct (Int_IsUint64 n) eqn:Hun; [|done]. cbn [negb orb].
      rewrite !Uint64_exact by done. destruct (Z.ltb_spec (uval b + uval n) (2 ^ 64)); [|done]. cbn [fst snd orb].
      apply Z.gtb_lt. unfold readable in Hbad. rewrite Hub, Hun in Hbad. lia. }
    destruct (if _ <? _ then _ else _) as [readUntil overflow]. cbn [fst snd] in Ht. rewrite Ht. unfold s_fail. ps. ms Hx.
    eapply e_opReturnDataCopy; [exact Hx|done|done|exact HE|done|done|done].
Qed.

Lemma e_opMcopy F c0 (w : ctRunContext) pc g r a b n l m d c cost1 off1 sz1 cost2 off2 sz2 Q :
  exact c0 w pc g r (a :: b :: n :: l) m d c -> revision c0 >= R13_Cancun -> ct_mem m ->
  st.Memory_ExpansionCosts m b n = (cost1, off1, sz1) -> st.Memory_ExpansionCosts m a n = (cost2, off2, sz2) ->
  let total := Z.max cost1 cost2 + i64 (3 *u64 SizeInWords sz1) in
  let m1 := st.Memory_Grow m off1 sz1 in
  (g < total -> F) ->
  (total <= g -> forall c', exact c0 w pc (g - total) r l
     (write_at (st.Memory_Grow m1 off2 sz2) off2 sz2 (bytes_at m1 off1 sz1)) d c' -> Q tt c') ->
  wp opMcopy Q (fun _ => F) c.
Proof.
  intros Hx Hrev Hm HE1 HE2 total m1 HF HQ. pose proof (ex_max _ _ _ _ _ _ _ _ _ Hx) as Hg.
  destruct (ExpansionCosts_facts _ _ _ _ _ _ Hm HE1) as (Hc1 & Ho1 & Hs1 & Hf1).
  destruct (ExpansionCosts_facts _ _ _ _ _ _ Hm HE2) as (Hc2 & Ho2 & Hs2 & Hf2).
  pose proof (words_price 3 sz1 ltac:(lia) Hs1) as Hw. set (words := i64 (3 *u64 SizeInWords sz1)) in *.
  unfold opMcopy. ms Hx. rewrite Z.geb_leb, (proj2 (Z.leb_le _ _)) by lia. cbn [negb]. ms Hx.
  eapply e_slice; [exact Hx|exact HE1|intros; apply HF; lia|].
  clear Hx. intros Hle1 c1 Hx. destruct Hf1 as (Hn1 & _ & Hsz & Hfit & _); [lia|].
  destruct (Grow_inside _ _ _ Hm Hfit) as [Hm1 Hin1].
  destruct (expand_twice _ _ _ _ _ _ _ _ _ _ _ Hm HE1 ltac:(lia) HE2) as (cost3 & HE3 & Hmax1 & Hmax2).
  destruct (ExpansionCosts_facts _ _ _ _ _ _ Hm1 HE3) as (Hc3 & _ & _ & _).
  assert (cost2 = MaxInt64 \/ cost2 < MaxInt64) as Hcases by lia.
  ms Hx. rewrite Hsz. fold words. eapply e_useGas; [exact Hx|intros; apply HF; lia|]. clear Hx. intros Hle2 c2 Hx. ms Hx.
  eapply e_slice_read; [exact Hx|].
  eapply (e_mem_set _ _ _ _ _ _ _ _ _ _ _ n); [exact Hx|done|by rewrite bytes_at_length| |exact HE3|intros; apply HF; lia|].
  { unfold fits, maxMemoryExpansionSize in Hfit. lia. }
  clear Hx. intros Hle3 c3 Hx. apply HQ; [lia|]. by replace (g - total) with (g - cost1 - words - cost3) by lia.
Qed.

Lemma mcopyRules_conform : conform mcopyRules.
Proof.
  unfold mcopyRules. apply List.Forall_app. split.
  2: { apply invalidRevision_conforms; [done|]. intros s c0 cache c Hr Hl Hrd. opened Hrd.
       unfold dispatch, opMcopy. ms Hx. before Hrev. by ms Hx. }
  apply ordinary_conforms; [matched|]. intros s c0 cache c Ha Hl Hrd. conditions Ha. unfold effect_ok, regular_state.
  opened Hrd. destruct (ct_stack s) as [|a [|b [|n l]]] eqn:Hst; sized Hl.
  pose proof (exact_ct_mem _ _ _ _ _ _ _ _ _ Hx) as Hm. unfold mcopyEffect, dispatch. ps. costs HE1. ps. costs HE2.
  destruct (ExpansionCosts_facts _ _ _ _ _ _ Hm HE1) as (Hc1 & Ho1 & Hs1 & Hf1).
  destruct (ExpansionCosts_facts _ _ _ _ _ _ Hm HE2) as (Hc2 & Ho2 & Hs2 & Hf2).
  pose proof (words_price 3 sz ltac:(lia) Hs1) as Hw. assert (revision c0 >= R13_Cancun) as Hr by (rewrite Hrev; lia).
  match goal with |- wpE _ ?Q ?st => change (wpE (chargeCopy (Z.max cost cost0) sz
    (value ← s_memRead off sz; s_memWrite value off0)) Q st) end.
  apply p_chargeCopy; [done|lia|done|intros Hlt|intros Hge].
  - ms Hx. eapply e_opMcopy; [exact Hx|done|done|exact HE1|exact HE2|done|lia].
  - destruct Hf1 as (Hn1 & _ & Hsz & Hfit & _); [lia|]. destruct (Grow_inside _ _ _ Hm Hfit) as [Hm1 Hin1].
    destruct Hf2 as (Hn2 & _ & _ & Hfit2 & _); [lia|]. assert (sz0 = sz) as -> by lia.
    ps. apply p_read; [done|done|]. cbv zeta. apply p_write; [done|by rewrite bytes_at_length|].
    rewrite bytes_at_length by done. ms Hx. eapply e_opMcopy; [exact Hx|done|done|exact HE1|exact HE2|lia|].
    clear Hx. intros _ c2 Hx. ms Hx. agreed Hx.
Qed.

Lemma codeRules_conform : conform codeRules.
Proof.
  unfold codeRules. rewrite app_assoc. apply List.Forall_app. split; [apply chainCode_conforms|apply codeCopy_conforms].
Qed.

Lemma callDataRules_conform : conform callDataRules.
Proof.
  unfold callDataRules. rewrite !List.Forall_app. split_and!;
    [apply callDataSize_conforms|apply callDataLoad_conforms|apply callDataCopy_conforms].
Qed.

Lemma returnDataRules_conform : conform returnDataRules.
Proof.
  unfold returnDataRules. apply List.Forall_app. split; [apply returnDataSize_conforms|apply returnDataCopy_conforms].
Qed.

End ConformMemory.
