(* ===== verification/CtConformCreate.v ===== *)
(** * Conformance: self destructs and creations *)
From Stdlib Require Import ZArith Lia Strings.Byte.
From stdpp Require Import base list numbers gmap.
From S2P Require Import Prelude Uint256 Types OpCodes SfvmStack SfvmAnalysis SfvmHashCache.
From S2P Require Import SfvmContext SfvmMemory SfvmGas SfvmInstructions SfvmInterpreter SfvmLogic.
From S2P Require Import SfvmSafety SfvmExecution CtSlices CtCommon CtState CtRules CtEffects CtSpec.
From S2P Require Import CtAdapter CtStateFacts CtExec CtSim CtConform CtConformMemory CtConformArith.
From S2P Require Import CtConformState.
Set Default Goal Selector "!".
Local Open Scope Z_scope.
Local Open Scope go_scope.

Section ConformCreate.
Context {U : Uint256} {UL : Uint256Laws U}.
Context (Keccak256 : list byte -> Hash) (Keccak256For32byte : array 32 -> Hash).
Abbreviation conform := (Forall (rule_conforms Keccak256 Keccak256For32byte)).
Abbreviation dispatch_ := (dispatch (RC := ctRunContext_instance Keccak256) (G := ctGlobals)
  Keccak256 Keccak256For32byte).

(** ** Self destructs *)

(** The part of the price of a self destruct beyond the static price, and
    whether the beneficiary becomes warm. *)
Definition beneficiaryWarms (s : st.State) (beneficiary : Address) : bool :=
  (st.s_Revision s >? R07_Istanbul) && negb (st.Accounts_IsWarm (st.s_Accounts s) beneficiary).

Definition selfDestructCost (s : st.State) (beneficiary : Address) : Z :=
  (if beneficiaryWarms s beneficiary then 2600 else 0)
  + (if negb (U256_IsZero (st.Accounts_GetBalance (st.s_Accounts s) (st.cc_AccountAddress (st.s_CallContext s))))
        && st.Accounts_IsEmpty (st.s_Accounts s) beneficiary then 25000 else 0).

(** The state after a self destruct. *)
Definition destructed (address beneficiary : Address) (s : st.State) : st.State :=
  if (st.s_Revision s <? R13_Cancun) || st.s_IsNewContract s
  then st.set_SelfDestructedJournal (st.s_SelfDestructedJournal s ++ [st.NewSelfDestructEntry address beneficiary])
         (st.set_HasSelfDestructed true s)
  else s.

Lemma ctx_SelfDestruct_spec s p cache address beneficiary :
  ctx_SelfDestruct (mkCtRunContext s p cache) address beneficiary
  = (mkCtRunContext (destructed address beneficiary s) p cache,
     ((st.s_Revision s <? R13_Cancun) || st.s_IsNewContract s) && negb (st.s_HasSelfDestructed s)).
Proof.
  unfold ctx_SelfDestruct, destructed. cbn [w_state]. destruct (_ || _); [|done]. cbn [andb].
  destruct s; cbn. by match goal with |- context [if ?b then _ else _] => destruct b end.
Qed.

Lemma destructed_local address beneficiary s :
  st.s_Stack (destructed address beneficiary s) = st.s_Stack s
  /\ st.s_ReturnData (destructed address beneficiary s) = st.s_ReturnData s.
Proof. unfold destructed. by destruct (_ || _). Qed.

Lemma e_opSelfdestruct F s b l pc g r m d c0 cache c Q : base Keccak256 s c0 -> R07_Istanbul <= st.s_Revision s ->
  let beneficiary := Int_Bytes20 b in
  let cost := selfDestructCost s beneficiary in
  let ws := warmed (beneficiaryWarms s beneficiary) beneficiary s in
  exact c0 (mkCtRunContext s false cache) pc g r (b :: l) m d c -> st.s_ReadOnly s = false ->
  (g < cost -> F) ->
  (cost <= g -> forall c',
     exact c0 (mkCtRunContext (destructed (st.cc_AccountAddress (st.s_CallContext s)) beneficiary ws) false cache) pc
       (g - cost) (r +i64 (if (st.s_Revision s <? R10_London) && negb (st.s_HasSelfDestructed s) then 24000 else 0))
       l m d c' -> Q statusSelfDestructed c') ->
  wp (opSelfdestruct (RC := ctRunContext_instance Keccak256)) Q (fun _ => F) c.
Proof.
  intros Hb Hr beneficiary cost ws Hx Hro HF HQ. unfold opSelfdestruct.
  assert (revision c0 = st.s_Revision s) as Hrev by (unfold revision; by rewrite (base_params _ _ _ Hb)).
  ms Hx. vmparams Hb. rewrite Hro. ms Hx. rewrite Hrev. fold beneficiary.
  match goal with |- wp (if _ then _ else _) ?K _ _ =>
    assert (forall c, exact c0 (mkCtRunContext ws false cache) pc g r l m d c ->
      K (if beneficiaryWarms s beneficiary then 2600 else 0) c) as HK end.
  - clear Hx. intros c2 Hx. ms Hx. rewrite isEmpty_ct. vmhost. unfold selfDestructNewAccountCost.
    rewrite Bytes32_zero. replace (st.Accounts_GetBalance (st.s_Accounts ws) _) with
      (st.Accounts_GetBalance (st.s_Accounts s) (st.cc_AccountAddress (st.s_CallContext s)))
      by (unfold ws, warmed; by destruct (beneficiaryWarms s beneficiary)).
    replace (st.Accounts_IsEmpty (st.s_Accounts ws) beneficiary) with (st.Accounts_IsEmpty (st.s_Accounts s) beneficiary)
      by (unfold ws, warmed; by destruct (beneficiaryWarms s beneficiary)).
    match goal with |- wp (useGas ?a) _ _ _ => assert (a = cost) as -> end.
    { unfold cost, selfDestructCost, U256_IsZero. rewrite andb_comm. apply i64_id. unfold isI64. repeat case_if; lia. }
    eapply e_useGas; [exact Hx|intros; apply HF; unfold cost, selfDestructCost in *; repeat case_if; lia|].
    clear Hx. intros Hle c3 Hx. ms Hx. vmhost_in Hx. vmhost. rewrite ctx_SelfDestruct_spec in *. cbn [fst snd] in *.
    fold (revision c0) in *. rewrite Hrev in *. apply HQ; [lia|]. unfold selfDestructRefund in Hx.
    replace ((st.s_Revision s <? R10_London) && negb (st.s_HasSelfDestructed s)) with
      (((st.s_Revision ws <? R13_Cancun) || st.s_IsNewContract ws) && negb (st.s_HasSelfDestructed ws)
       && (st.s_Revision s <? R10_London)); [done|].
    replace (st.s_Revision ws) with (st.s_Revision s) by (unfold ws, warmed; by destruct (beneficiaryWarms s beneficiary)).
    replace (st.s_HasSelfDestructed ws) with (st.s_HasSelfDestructed s) by (unfold ws, warmed; by destruct (beneficiaryWarms s beneficiary)).
    destruct (st.s_HasSelfDestructed s); [by rewrite !andb_false_r|]. rewrite !andb_true_r.
    destruct (Z.ltb_spec (st.s_Revision s) R10_London); [|by rewrite andb_false_r].
    rewrite (proj2 (Z.ltb_lt _ R13_Cancun)) by (unfold R10_London, R13_Cancun in *; lia). done.
  - unfold ws, beneficiaryWarms in *. rewrite Z.geb_leb. unfold R07_Istanbul, R09_Berlin in *.
    destruct (Z.leb_spec 1 (st.s_Revision s)), (Z.gtb_spec (st.s_Revision s) 0); try lia; cbn [andb] in *; [|by apply wp_ret, HK].
    apply wp_bind. m_step Hx. apply wp_ret. vmhost_in Hx. vmhost. unfold ctx_AccessAccount in *. cbn [fst snd w_state w_set w_panicked w_sha3Cache] in *.
    destruct (st.Accounts_IsWarm _ _) eqn:Hw; cbn [negb] in *; apply HK; [|done].
    rewrite MarkWarm_warm in Hx by done. cbn [warmed]. by destruct s.
Qed.

Lemma selfDestruct_conforms conds params :
  (forall s, all_apply conds s -> st.s_ReadOnly s = false) ->
  conform (rulesFor (mkInstruction SELFDESTRUCT 5000 1 0 conds params (effect_of selfDestructEffect))).
Proof.
  intros Hc. apply ordinary_conforms; [matched|]. intros s c0 cache c Ha Hl Hrd. specialize (Hc s Ha).
  unfold effect_ok, regular_state. opened Hrd. destruct (ct_stack s) as [|b l] eqn:Hst; sized Hl.
  unfold selfDestructEffect, dispatch, U256_Bytes20be. ps. set (beneficiary := Int_Bytes20 b).
  fold (beneficiaryWarms s beneficiary).
  match goal with |- wpE (if _ then _ else _) ?K ?S =>
    enough (K (if beneficiaryWarms s beneficiary then 2600 else 0) (mk (warmed (beneficiaryWarms s beneficiary) beneficiary s)
      st.Running (st.s_Pc s + 1) (st.s_Gas s - 5000) (st.s_GasRefund s) (mkS l (b :: st.spare (st.s_Stack s)))
      (st.s_Memory s) (st.s_LastCallReturnData s) (st.s_ReturnData s))) as HK end.
  { destruct (beneficiaryWarms s beneficiary); exact HK. }
  ps. match goal with |- wpE (s_charge ?a _) _ _ => assert (a = selfDestructCost s beneficiary) as -> end.
  { unfold selfDestructCost. replace (st.Accounts_IsEmpty (st.s_Accounts (warmed _ _ s)) beneficiary)
      with (st.Accounts_IsEmpty (st.s_Accounts s) beneficiary) by (by destruct (beneficiaryWarms s beneficiary)).
    destruct (_ && _); [|lia]. apply i64_id. unfold isI64. case_if; lia. }
  assert (0 <= selfDestructCost s beneficiary) as Hc0 by (unfold selfDestructCost; repeat case_if; lia).
  assert (R07_Istanbul <= st.s_Revision s) as Hr0 by apply Hv.
  apply p_charge; [done|done|intros Hlt|intros Hge].
  - eapply e_opSelfdestruct; [exact Hb|done|exact Hx|done|done|]. fold beneficiary. lia.
  - unfold s_addRefund. ps. set (ws := warmed _ _ s). set (self := st.cc_AccountAddress _).
    replace (st.s_HasSelfDestructed ws) with (st.s_HasSelfDestructed s) by (unfold ws, warmed; by case_if).
    match goal with |- wpE (if _ then _ else _) ?K (mk ?ws ?a1 ?a2 ?a3 ?a4 ?a5 ?a6 ?a7 ?a8) =>
      enough (K tt (mk (destructed self beneficiary ws) a1 a2 a3 a4 a5 a6 a7 a8)) as HK end.
    { unfold destructed in HK. replace (st.s_Revision ws) with (st.s_Revision s) in HK by (unfold ws, warmed; by case_if).
      destruct (_ || _); exact HK. }
    ps. eapply e_opSelfdestruct; [exact Hb|done|exact Hx|done|fold beneficiary; lia|]. fold beneficiary. fold ws self.
    clear Hx. intros _ c2 []. eexists (destructed self beneficiary ws), cache, _. cbn [c_context c_stack set_pc].
    destruct (destructed_local self beneficiary ws) as [-> ->]. destruct (warmed_local (beneficiaryWarms s beneficiary) beneficiary s) as [HS HR].
    fold ws in HS, HR. split_and!; [done..|]. eexists _, _, _. cbn [c_gas c_refund set_pc]. rewrite ex_gas, ex_refund. reflexivity.
Qed.

Lemma selfDestructRules_conform : conform selfDestructRules.
Proof.
  unfold selfDestructRules. apply List.Forall_app. split.
  - repeat (apply List.Forall_flat_map, List.Forall_forall; intros ? _). apply selfDestruct_conforms.
    intros s Ha. conditions Ha. by destruct (st.s_ReadOnly s).
  - apply failing_conforms; [done|lia|done|done|]. intros s c0 cache c Ha Hl Hrd. conditions Ha. opened Hrd.
    unfold dispatch, opSelfdestruct. ms Hx. vmparams Hb. destruct (st.s_ReadOnly s); [|done]. by ms Hx.
Qed.

(** ** Creations *)

Lemma Bytes32_NewU256_zero : U256_Bytes32be (NewU256 0) = zeroWord.
Proof.
  pose proof (Bytes32_zero (NewU256 0)) as H. rewrite IsZero_law, NewU256_uval in H by done.
  by apply bool_decide_eq_true in H.
Qed.

(** A call of the journal leaves a part of the gas it got. *)
Lemma CallJournal_Call_gas s kind p : valid s -> 0 <= cp_Gas p < 2 ^ 63 ->
  0 <= cr_GasLeft (st.CallJournal_Call (st.s_CallJournal s) kind p).2 <= cp_Gas p.
Proof.
  intros Hv Hp. unfold st.CallJournal_Call. pose proof (valid_calls _ Hv) as Hf.
  assert (forall f, 0 <= st.fc_GasCosts f -> 0 <= (if cp_Gas p <? st.fc_GasCosts f then 0
    else cp_Gas p -i64 st.fc_GasCosts f) <= cp_Gas p) as HH.
  { intros f H. case_if; [lia|]. rewrite i64_id by (unfold isI64; lia). lia. }
  destruct (st.Future _) as [|f fs]; cbn [snd cr_GasLeft]; apply HH; [done|]. apply Hf. by left.
Qed.

(** The price of a creation beyond the static price, and whether its init
    code is too large. *)
Definition createCost (rev : Revision) (kind : CallKind) (cost sz : Z) : Z :=
  cost + (if rev >=? R12_Shanghai then i64 (2 *u64 SizeInWords sz) else 0)
  + (if isCreate2 kind then i64 (6 *u64 SizeInWords sz) else 0).

Definition tooLarge (rev : Revision) (size : U256) (sz : Z) : bool :=
  (rev >=? R12_Shanghai) && (negb (Int_IsUint64 size) || (sz >? maxInitCodeSize)).

(** What [genericCreate] does after it has charged for the creation. *)
Definition createPaid (self : Address) (kind : CallKind) (value : u256) (input : mslice) (salt : Hash)
    : M ctRunContext unit :=
  balance ← host_read (fun w => ws_GetBalance
    (WorldState := @tc_world _ (@rc_context _ (ctRunContext_instance Keccak256))) w self);
  if negb (Int_IsZero value) && Int_Gt value (Int_SetBytes (arr_bytes balance)) then
    pushValue Int_Clear;; modify (set_returnData [])
  else createCall (RC := ctRunContext_instance Keccak256) kind value input salt.

Lemma e_genericCreate F s kind value offset size salt l pc g r m d c0 cache c cost off sz Q : base Keccak256 s c0 ->
  exact c0 (mkCtRunContext s false cache) pc g r
    (value :: offset :: size :: (if isCreate2 kind then salt :: l else l)) m d c -> st.s_ReadOnly s = false ->
  st.Memory_ExpansionCosts m offset size = (cost, off, sz) ->
  let total := createCost (st.s_Revision s) kind cost sz in
  (tooLarge (st.s_Revision s) size sz = true -> F) -> (g < total -> F) ->
  (tooLarge (st.s_Revision s) size sz = false -> total <= g -> forall c',
     exact c0 (mkCtRunContext s false cache) pc (g - total) r l (st.Memory_Grow m off sz) d c' ->
     wp (createPaid (st.cc_AccountAddress (st.s_CallContext s)) kind value (region off sz) (if isCreate2 kind then Int_Bytes32 salt else zeroWord)) Q (fun _ => F) c') ->
  wp (genericCreate (RC := ctRunContext_instance Keccak256) kind) Q (fun _ => F) c.
Proof.
  intros Hb Hx Hro HE total HT HF HQ. pose proof (exact_ct_mem _ _ _ _ _ _ _ _ _ Hx) as Hm.
  destruct (ExpansionCosts_facts _ _ _ _ _ _ Hm HE) as (Hc & Ho & Hs & Hf). pose proof (ex_max _ _ _ _ _ _ _ _ _ Hx) as Hg.
  pose proof (words_price 2 sz ltac:(lia) Hs) as Hw2. pose proof (words_price 6 sz ltac:(lia) Hs) as Hw6.
  assert (revision c0 = st.s_Revision s) as Hrev by (unfold revision; by rewrite (base_params _ _ _ Hb)).
  unfold genericCreate. m_step Hx. ms Hx. vmparams Hb. rewrite Hro. ms Hx.
  match goal with |- wp (if _ then _ else _) ?K _ _ => 
    enough (forall c, exact c0 (mkCtRunContext s false cache) pc g r l m d c -> 
      K (if isCreate2 kind then Int_Bytes32 salt else zeroWord) c) as HK end.
  { destruct (isCreate2 kind); [apply wp_bind; m_step Hx|]; by apply wp_ret, HK. }
  clear Hx. intros c2 Hx. ms Hx. unfold total, createCost in *.
  eapply e_slice; [exact Hx|exact HE|intros; apply HF; repeat case_if; lia|]. clear Hx. intros Hle c3 Hx. ms Hx.
  destruct Hf as (_ & Hu & Hsz & _); [lia|]. unfold tooLarge in *. rewrite Hrev, Hu, Hsz in *. cbn [negb orb] in *.
  unfold computeCodeSizeCost. destruct (st.s_Revision s >=? R12_Shanghai) eqn:Er; cbn [andb] in *; ms Hx.
  - destruct (sz >? maxInitCodeSize) eqn:Et; [by apply wp_fail, HT|].
    eapply e_useGas; [exact Hx|intros; apply HF; case_if; lia|]. clear Hx. intros Hle2 c4 Hx. ms Hx.
    eapply e_when_useGas; [exact Hx|lia|intros; apply HF; lia|]. clear Hx. intros Hle3 c5 Hx.
    apply HQ; [done|lia|]. match type of Hx with exact _ _ _ ?a _ _ _ _ _ => by replace (g - _) with a by lia end.
  - apply wp_ret. ms Hx. eapply e_when_useGas; [exact Hx|lia|intros; apply HF; lia|]. clear Hx. intros Hle3 c5 Hx.
    apply HQ; [done|lia|]. match type of Hx with exact _ _ _ ?a _ _ _ _ _ => by replace (g - _) with a by lia end.
Qed.

Lemma AddressToU256_ok a : AddressToU256 a = Some (Int_SetBytes20 (arr_bytes a)).
Proof. apply FromBytes_20. Qed.

Lemma Bytes20_zero : Int_SetBytes20 (arr_bytes zeroAddress) = Int_Clear.
Proof. apply u256_eq. rewrite SetBytes20_law by done. change Int_Clear with (NewInt 0). by rewrite NewInt_uval. Qed.

Lemma Gt_Lt a b : Int_Gt a b = Int_Lt b a.
Proof. rewrite Gt_law, Lt_law. apply Z.gtb_ltb. Qed.

Lemma p_call ws status pc g r stk m d rd kind p (Q : CallResult -> st.State -> Prop) :
  (forall journal res, st.CallJournal_Call (st.s_CallJournal ws) kind p = (journal, res) ->
     Q res (mk (st.set_CallJournal journal ws) status pc g r stk m d rd)) ->
  wpE (s_call kind p) Q (mk ws status pc g r stk m d rd).
Proof.
  intros HQ. unfold s_call. ps. destruct (st.CallJournal_Call _ _ _) as [journal res] eqn:E. ps. by apply HQ.
Qed.

Lemma e_call F c0 s cache pc g r l m d c kind p journal res Q :
  exact c0 (mkCtRunContext s false cache) pc g r l m d c ->
  st.CallJournal_Call (st.s_CallJournal s) kind p = (journal, res) ->
  (forall c', exact c0 (mkCtRunContext (st.set_CallJournal journal s) false cache) pc g r l m d c' -> Q (res, None) c') ->
  wp (host (fun w => rc_Call (RunContext := ctRunContext_instance Keccak256) w kind p)) Q (fun _ => F) c.
Proof.
  intros Hx E HQ. eapply e_host; [exact Hx|]. vmhost. unfold ctx_Call. cbn [w_state]. rewrite E. cbn [fst snd].
  intros c2 Hx2. by apply HQ.
Qed.

(** The creation itself. *)
Lemma createPaid_agrees s kind value salt l pc g r m d c0 cache off sz sp : base Keccak256 s c0 -> valid s ->
  0 <= g < MaxInt64 -> ct_mem m -> fits off sz -> zlen l < 1024 -> 0 <= pc + 1 < 2 ^ 16 ->
  wpE (createBody kind value (if isCreate2 kind then salt else NewU256 0) off sz)
    (fun _ s' => forall c,
       exact c0 (mkCtRunContext s false cache) pc g r l (st.Memory_Grow m off sz) d c ->
       wp (createPaid (st.cc_AccountAddress (st.s_CallContext s)) kind value (region off sz)
         (if isCreate2 kind then Int_Bytes32 salt else zeroWord))
         (fun _ => agreesD s s' statusRunning) (fun _ => st.s_Status s' = st.Failed) c)
    (mk s st.Running (pc + 1) g r (mkS l sp) m d (st.s_ReturnData s)).
Proof.
  intros Hb Hv Hg Hm Hfit Hl Hpc. unfold createBody, createPaid.
  apply wpE_bind, p_read; [done|done|]. cbv zeta. ps. unfold U256_IsZero, U256_Lt.
  set (self := st.cc_AccountAddress _). set (balance := st.Accounts_GetBalance _ _).
  destruct (negb (Int_IsZero value) && Int_Lt balance value) eqn:Eb.
  { ps. eapply wpE_liftE; [apply AddressToU256_ok|]. ps. intros c Hx. ms Hx. vmhost. fold balance.
    rewrite SetBytes_32, SetBytes32_Bytes32, Gt_Lt, Eb. ms Hx. eapply e_set_returnData; [exact Hx|]. clear Hx. intros c2 Hx.
    rewrite Bytes20_zero. agreed Hx. }
  ps. rewrite Z.quot_div_nonneg by lia. assert (g -i64 g / 64 = g - g / 64 /\ 0 <= g - g / 64 <= g) as [-> Hlim].
  { unfold MaxInt64 in Hg. rewrite i64_id by (unfold isI64; divlia). divlia. }
  set (limit := g - g / 64) in *. apply p_call. intros journal res Ecall. 
  assert (0 <= cr_GasLeft res <= limit) as Hleft.
  { match type of Ecall with st.CallJournal_Call _ _ ?p = _ =>
      pose proof (CallJournal_Call_gas s kind p Hv ltac:(cbn; unfold MaxInt64 in *; lia)) as H end.
    by rewrite Ecall in H. }
  replace (U256_Bytes32be (if isCreate2 kind then salt else NewU256 0)) with
    (if isCreate2 kind then Int_Bytes32 salt else zeroWord) in Ecall
    by (destruct (isCreate2 kind); [done|symmetry; apply Bytes32_NewU256_zero]).
  unfold s_useGas, s_addRefund, MaxInt64 in *. ps. rewrite (i64_id (limit - _)), (i64_id (g - _)) by (unfold isI64; lia).
  match goal with |- wpE _ ?K (mk ?ws ?a1 ?a2 ?a3 ?a4 (mkS ?l ?sp) ?a6 ?a7 ?a8) =>
    enough (K tt (mk ws a1 a2 a3 a4 (mkS ((if cr_Success res then Int_SetBytes20 (arr_bytes (cr_CreatedAddress res)) else Int_Clear) :: l) (tail sp)) a6
      (if cr_Success res then [] else cr_Output res) a8)) as HK end.
  { destruct (cr_Success res); cbn [negb]; ps; (eapply wpE_liftE; [apply AddressToU256_ok|]); ps; rewrite ?Bytes20_zero; exact HK. }
  intros c Hx. ms Hx. vmhost. fold balance. rewrite SetBytes_32, SetBytes32_Bytes32, Gt_Lt, Eb. unfold createCall. ms Hx.
  rewrite Z.quot_div_nonneg, (i64_id (g - _)) by (unfold isI64; lia). fold limit. eapply e_slice_read; [exact Hx|].
  apply wp_bind. vmparams Hb. eapply e_call; [exact Hx|exact Ecall|]. clear Hx. intros c2 Hx. cbv beta iota. ms Hx.
  eapply e_set_returnData; [exact Hx|]. clear Hx. intros c3 Hx. ms Hx.
  eapply e_addGas; [exact Hx|unfold MaxInt64; lia|]. clear Hx. intros c4 Hx. ms Hx.
  eapply e_addGas; [exact Hx|unfold MaxInt64; lia|]. clear Hx. intros c5 Hx. ms Hx.
  agreed Hx; by destruct (cr_Success res).
Qed.

(** The charge of a creation. *)
Lemma p_createEffect kind value offset size salt l sp s pc g r m d rd cost off sz (Q : unit -> st.State -> Prop) :
  ct_mem m -> 0 <= g < MaxInt64 -> st.Memory_ExpansionCosts m offset size = (cost, off, sz) ->
  let total := createCost (st.s_Revision s) kind cost sz in
  (tooLarge (st.s_Revision s) size sz = true \/ g < total ->
    forall sp' l', Q tt (mk s st.Failed pc g r (mkS l' sp') m d rd)) ->
  (tooLarge (st.s_Revision s) size sz = false -> total <= g ->
    forall sp', wpE (createBody kind value (if isCreate2 kind then salt else NewU256 0) off sz) Q
      (mk s st.Running pc (g - total) r (mkS l sp') m d rd)) ->
  wpE (createEffect kind) Q (mk s st.Running pc g r
    (mkS (value :: offset :: size :: (if isCreate2 kind then salt :: l else l)) sp) m d rd).
Proof.
  intros Hm Hg HE total HF HQ. destruct (ExpansionCosts_facts _ _ _ _ _ _ Hm HE) as (Hc & Ho & Hs & Hf).
  pose proof (words_price 2 sz ltac:(lia) Hs) as Hw2. pose proof (words_price 6 sz ltac:(lia) Hs) as Hw6.
  unfold createEffect. ps. apply p_expansionCosts. rewrite HE. cbv beta iota. ps. unfold U256_IsUint64.
  change specMaxInitCodeSize with maxInitCodeSize. fold (tooLarge (st.s_Revision s) size sz).
  destruct (tooLarge _ _ _) eqn:Et; [unfold s_fail; ps; auto|].
  unfold total, createCost in *. set (x := if st.s_Revision s >=? R12_Shanghai then i64 (2 *u64 SizeInWords sz) else 0) in *.
  assert (0 <= x < 2 ^ 62) as Hx by (unfold x; case_if; lia).
  replace (if st.s_Revision s >=? R12_Shanghai then sumWithOverflow [cost; i64 (2 *u64 SizeInWords sz)] else (cost, false))
    with (if cost + x <=? MaxInt64 then (cost + x, false) else (0, true)).
  2: { unfold x. destruct (_ >=? _); [by rewrite sumWithOverflow_two by lia|]. by rewrite Z.add_0_r, (proj2 (Z.leb_le _ _)) by lia. }
  destruct (Z.leb_spec (cost + x) MaxInt64); [|unfold s_fail; ps; apply HF; right; case_if; lia]. ps.
  change (isCreate2Kind kind) with (isCreate2 kind). destruct (isCreate2 kind); ps; cbv beta iota.
  - rewrite sumWithOverflow_two by lia. destruct (Z.leb_spec (cost + x + i64 (6 *u64 SizeInWords sz)) MaxInt64).
    + apply p_charge; [done|lia|auto|]. intros Hle. by apply HQ.
    + unfold s_fail. ps. apply HF. lia.
  - apply p_charge; [done|lia|intros; apply HF; lia|]. intros Hle. rewrite Z.add_0_r in HQ. by apply HQ.
Qed.

Lemma createEffect_ok kind op s c0 cache c value offset size salt l :
  dispatch_ op = running (genericCreate (RC := ctRunContext_instance Keccak256) kind) ->
  ready Keccak256 Keccak256For32byte s op (st.s_Gas s - 32000) c0 cache c -> st.s_ReadOnly s = false ->
  ct_stack s = value :: offset :: size :: (if isCreate2 kind then salt :: l else l) ->
  effect_ok Keccak256 Keccak256For32byte s op (createEffect kind) (st.s_Gas s - 32000) c.
Proof.
  intros Hd Hrd Hro Hst. opened Hrd. unfold effect_ok, regular_state. rewrite Hd, Hst in *.
  pose proof (exact_ct_mem _ _ _ _ _ _ _ _ _ Hx) as Hm. pose proof (exact_zlen _ _ _ _ _ _ _ _ _ Hx) as Hl.
  assert (zlen l < 1024) by (destruct (isCreate2 kind); rewrite !zlen_cons in Hl; lia).
  destruct (st.Memory_ExpansionCosts (st.s_Memory s) offset size) as [[cost off] sz] eqn:HE.
  destruct (ExpansionCosts_facts _ _ _ _ _ _ Hm HE) as (Hc & Ho & Hs & Hf).
  eapply p_createEffect; [done|done|exact HE|intros HF sp l'|intros Ht Hle sp].
  - unfold running. apply wp_bind. eapply e_genericCreate; [exact Hb|exact Hx|done|exact HE|done|done|].
    intros. exfalso. destruct HF; [congruence|lia].
  - set (total := createCost _ _ _ _) in *.
    assert (cost <= total) as Hct.
    { pose proof (words_price 2 sz ltac:(lia) Hs). pose proof (words_price 6 sz ltac:(lia) Hs).
      unfold total, createCost. repeat case_if; lia. }
    destruct Hf as (_ & _ & _ & Hfit & _); [lia|].
    eapply wpE_mono; [apply (createPaid_agrees s kind value salt l (st.s_Pc s) _ _ _ _ c0 cache off sz sp);
      try done; lia|]. cbv beta. intros _ s' Hs'.
    unfold running. apply wp_bind. eapply e_genericCreate; [exact Hb|exact Hx|done|exact HE|congruence|lia|].
    clear Hx. intros _ _ c2 Hx. eapply wp_mono; [by apply Hs'|cbv beta|done]. intros _ c3 HA. by apply wp_ret.
Qed.

(** The two rules of a creation; those for static calls need not ask for all
    operands. *)
Lemma create_conforms kind op pops params : op = CREATE /\ kind = Create /\ pops = 3
    \/ op = CREATE2 /\ kind = Create2 /\ pops = 4 ->
  conform (rulesFor (mkInstruction op 32000 3 1 [cEq eReadOnly true] params FailEffect)
    ++ rulesFor (mkInstruction op 32000 pops 1 [cEq eReadOnly false] params (effect_of (createEffect kind)))).
Proof.
  intros Hk. assert (dispatch_ op = running (genericCreate (RC := ctRunContext_instance Keccak256) kind)
    /\ matches op 32000 pops 1 /\ 3 <= sl_min (opStackLimits op)) as (Hd & Hmatch & Hmin).
  { destruct Hk as [(-> & -> & ->)|(-> & -> & ->)]; (split; [done|split; [matched|done]]). }
  apply List.Forall_app. split.
  - apply failing_conforms; [apply Hmatch|lia|done|lia|]. intros s c0 cache c Ha Hl Hrd. conditions Ha. opened Hrd.
    rewrite Hd. unfold genericCreate. ms Hx. vmparams Hb. destruct (st.s_ReadOnly s); [|done]. by ms Hx.
  - apply ordinary_conforms; [done|]. intros s c0 cache c Ha Hl Hrd. conditions Ha.
    assert (st.s_ReadOnly s = false) as Hro by (by destruct (st.s_ReadOnly s)).
    destruct (ct_stack s) as [|value [|offset [|size l]]] eqn:Hst; try (unfold zlen in Hl; cbn in Hl; lia).
    destruct (isCreate2 kind) eqn:Ek.
    + destruct l as [|salt l]; [unfold zlen in Hl; cbn in Hl; destruct Hk as [(_ & -> & _)|]; [done|lia]|].
      eapply (createEffect_ok kind _ _ _ _ _ value offset size salt l); [done..|]. by rewrite Ek.
    + eapply (createEffect_ok kind _ _ _ _ _ value offset size (NewU256 0) l); [done..|]. by rewrite Ek.
Qed.

Lemma createRules_conform : conform createRules.
Proof. apply (create_conforms Create CREATE 3). by left. Qed.

Lemma create2Rules_conform : conform create2Rules.
Proof. apply (create_conforms Create2 CREATE2 4). by right. Qed.


End ConformCreate.
