(* ===== verification/CtConformCall.v ===== *)
(** * Conformance: calls *)
From Stdlib Require Import ZArith Lia Strings.Byte.
From stdpp Require Import base list numbers gmap.
From S2P Require Import Prelude Uint256 Types OpCodes SfvmStack SfvmAnalysis SfvmHashCache.
From S2P Require Import SfvmContext SfvmMemory SfvmGas SfvmInstructions SfvmInterpreter SfvmLogic.
From S2P Require Import SfvmSafety SfvmExecution CtSlices CtCommon CtState CtRules CtEffects CtSpec.
From S2P Require Import CtAdapter CtStateFacts CtExec CtSim CtConform CtConformMemory CtConformArith.
From S2P Require Import CtConformState CtConformCreate.
Set Default Goal Selector "!".
Local Open Scope Z_scope.
Local Open Scope go_scope.

(** A sum of costs of which only the first can be large. *)
Lemma sumWithOverflow_loop_spec values : forall res, 0 <= res <= MaxInt64 ->
  Forall (fun v => 0 <= v < 2 ^ 62) values ->
  sumWithOverflow_loop i64 res values =
    if res + foldr Z.add 0 values <=? MaxInt64 then (res + foldr Z.add 0 values, false) else (0, true).
Proof.
  induction values as [|v values IH]; intros res Hr Hv; cbn [sumWithOverflow_loop foldr].
  { by rewrite Z.add_0_r, (proj2 (Z.leb_le _ _)) by lia. }
  apply Forall_cons_iff in Hv as [Hv Hvs].
  assert (0 <= foldr Z.add 0 values) as Hs.
  { clear IH. induction Hvs; cbn; lia. }
  unfold MaxInt64 in *. destruct (Z.lt_ge_cases (res + v) (2 ^ 63)).
  - rewrite i64_id, (proj2 (Z.ltb_ge _ _)), IH by (unfold isI64; (done || lia)). by rewrite Z.add_assoc.
  - rewrite (proj2 (Z.ltb_lt _ _)), (proj2 (Z.leb_gt _ _)); [done|lia|]. unfold i64, wrapS.
    replace (res + v + 2 ^ (64 - 1)) with (res + v - 2 ^ 63 + 1 * 2 ^ 64) by lia. rewrite Z_mod_plus_full, Z.mod_small by lia. lia.
Qed.

Lemma sumWithOverflow_spec x values : 0 <= x <= MaxInt64 -> Forall (fun v => 0 <= v < 2 ^ 62) values ->
  sumWithOverflow (x :: values) =
    if x + foldr Z.add 0 values <=? MaxInt64 then (x + foldr Z.add 0 values, false) else (0, true).
Proof.
  intros Hx Hv. rewrite <-sumWithOverflow_loop_spec by done. unfold sumWithOverflow. cbn [sumWithOverflow_loop].
  by rewrite Z.add_0_l, (i64_id x), (proj2 (Z.ltb_ge _ 0)) by (unfold isI64, MaxInt64 in *; lia).
Qed.

Section ConformCall.
Context {U : Uint256} {UL : Uint256Laws U}.
Context (Keccak256 : list byte -> Hash) (Keccak256For32byte : array 32 -> Hash).
Abbreviation conform := (Forall (rule_conforms Keccak256 Keccak256For32byte)).
Abbreviation dispatch_ := (dispatch (RC := ctRunContext_instance Keccak256) (G := ctGlobals)
  Keccak256 Keccak256For32byte).

(** ** Accounts and costs *)

(** The account the code of [a] delegates to. *)
Definition delegate (s : st.State) (a : Address) : option Address :=
  if st.s_Revision s >=? R14_Prague then
    let '(d, isDelegate) := ParseDelegationDesignator (st.Accounts_GetCode (st.s_Accounts s) a) in
    if isDelegate then Some d else None
  else None.

Definition delegateCost (s : st.State) (a : Address) : Z :=
  match delegate s a with
  | Some d => if st.Accounts_IsWarm (st.s_Accounts s) d then 100 else 2600
  | None => 0
  end.

(** The state after the accesses of a call of [a]. *)
Definition called (s : st.State) (a : Address) : st.State :=
  let ws := warmed (st.s_Revision s >=? R09_Berlin) a s in
  match delegate s a with Some d => warmed true d ws | None => ws end.

Lemma called_accounts s a b : st.Accounts_GetAccount (st.s_Accounts (called s a)) b
  = st.Accounts_GetAccount (st.s_Accounts s) b.
Proof. unfold called. destruct (delegate s a); by rewrite !warmed_GetAccount. Qed.

(** The state apart from its accounts. *)
Lemma called_spec s a : exists accounts, called s a = st.set_Accounts accounts s.
Proof.
  unfold called, warmed. destruct (_ >=? _), (delegate s a); eexists; try reflexivity.
  instantiate (1 := st.s_Accounts s). by destruct s.
Qed.

Lemma parse_delegation code : parseDelegationDesignation code = ParseDelegationDesignator code.
Proof.
  unfold parseDelegationDesignation, ParseDelegationDesignator. destruct (zlen code =? 23); [|done]. cbn [andb negb].
  by destruct (bool_decide _).
Qed.

(** The price of the value. *)
Definition valueCost (s : st.State) (kind : CallKind) (a : Address) (value : U256) : Z :=
  (if negb (Int_IsZero value) then 9000 else 0)
  + (if isCall kind && negb (Int_IsZero value) && st.Accounts_IsEmpty (st.s_Accounts s) a then 25000 else 0).

Lemma warmed_accessed s a gas markWarm : accessed s a gas markWarm ->
  warmed markWarm a s = warmed (st.s_Revision s >=? R09_Berlin) a s.
Proof.
  unfold accessed. destruct (_ >=? _); [|by intros [_ ->]].
  destruct (st.Accounts_IsWarm _ _) eqn:Hw; intros [_ ->]; [|done]. cbn [warmed].
  rewrite MarkWarm_warm by done. by destruct s.
Qed.

Lemma IsWarm_MarkWarm accounts a b : b <> a ->
  st.Accounts_IsWarm (st.Accounts_MarkWarm accounts a) b = st.Accounts_IsWarm accounts b.
Proof.
  intros Hne. unfold st.Accounts_IsWarm, st.Accounts_MarkWarm. cbn. apply bool_decide_ext. set_solver.
Qed.

Lemma delegate_ne s a d : valid s -> delegate s a = Some d -> d <> a.
Proof.
  intros Hv. unfold delegate. destruct (_ >=? _); [|done].
  destruct (ParseDelegationDesignator _) as [d' []] eqn:E; [|done]. intros [= ->]. by eapply valid_delegation.
Qed.

(** The access of the delegate, after that of the account. *)
Lemma e_delegation F c0 s cache pc g r l m d c a Q : valid s -> revision c0 = st.s_Revision s ->
  exact c0 (mkCtRunContext (warmed (st.s_Revision s >=? R09_Berlin) a s) false cache) pc g r l m d c ->
  (g < delegateCost s a -> F) ->
  (delegateCost s a <= g -> forall c',
     exact c0 (mkCtRunContext (called s a) false cache) pc (g - delegateCost s a) r l m d c' -> Q tt c') ->
  wp (when (st.s_Revision s >=? R14_Prague) (
    code ← host_read (fun w => ws_GetCode (WorldState := @tc_world _ (@rc_context _ (ctRunContext_instance Keccak256))) w a);
    let '(target, isDelegation) := parseDelegationDesignation code in
    when isDelegation (
      access ← host (fun w => tc_AccessAccount (TransactionContext := @rc_context _ (ctRunContext_instance Keccak256)) w target);
      useGas (getAccessCost access)))) Q (fun _ => F) c.
Proof.
  intros Hv Hrev Hx HF HQ. pose proof (delegate_ne s a) as Hne. set (ws := warmed _ a s) in *.
  unfold delegateCost, called, delegate in *. fold ws in HQ. destruct (st.s_Revision s >=? R14_Prague) eqn:Hp.
  2: { apply wp_ret. rewrite Z.sub_0_r in HQ. apply HQ; [|done]. pose proof (ex_max _ _ _ _ _ _ _ _ _ Hx). lia. }
  unfold when at 1. ms Hx. vmhost. rewrite parse_delegation.
  replace (st.Accounts_GetCode (st.s_Accounts ws) a) with (st.Accounts_GetCode (st.s_Accounts s) a)
    by (unfold ws, warmed; by destruct (_ >=? R09_Berlin)).
  destruct (ParseDelegationDesignator _) as [t []]; cbv beta iota.
  2: { apply wp_ret. rewrite Z.sub_0_r in HQ. apply HQ; [|done]. pose proof (ex_max _ _ _ _ _ _ _ _ _ Hx). lia. }
  unfold when. specialize (Hne t Hv eq_refl). ms Hx. vmhost_in Hx. vmhost. unfold ctx_AccessAccount in *.
  cbn [fst snd w_state w_set w_panicked w_sha3Cache] in *.
  replace (st.Accounts_IsWarm (st.s_Accounts ws) t) with (st.Accounts_IsWarm (st.s_Accounts s) t)
    by (unfold ws, warmed; destruct (_ >=? R09_Berlin); [symmetry; by apply IsWarm_MarkWarm|done]).
  change (st.set_Accounts (st.Accounts_MarkWarm (st.s_Accounts ws) t) ws) with (warmed true t ws) in Hx.
  destruct (st.Accounts_IsWarm _ _); unfold getAccessCost;
    (eapply e_useGas; [exact Hx|intros; apply HF; lia|]; clear Hx; intros Hle c2 Hx; apply HQ; [lia|done]).
Qed.

Lemma e_callCosts F op c0 s cache pc g r l m d c kind a value gas markWarm Q : base Keccak256 s c0 -> valid s ->
  access_priced op -> accessed s a gas markWarm ->
  let total := gas + delegateCost s a + valueCost s kind a value in
  exact c0 (mkCtRunContext s false cache) pc (g - price s op) r l m d c ->
  (g < total -> F) ->
  (total <= g -> forall c', exact c0 (mkCtRunContext (called s a) false cache) pc (g - total) r l m d c' -> Q tt c') ->
  wp (callCosts (RC := ctRunContext_instance Keccak256) kind a value) Q (fun _ => F) c.
Proof.
  intros Hb Hv Hp Hacc total Hx HF HQ. unfold callCosts.
  assert (revision c0 = st.s_Revision s) as Hrev by (unfold revision; by rewrite (base_params _ _ _ Hb)).
  assert (0 <= gas) by (unfold accessed in Hacc; destruct (_ >=? _); [destruct (st.Accounts_IsWarm _ _)|]; lia).
  assert (0 <= delegateCost s a) by (unfold delegateCost; destruct (delegate s a); [case_if|]; lia).
  assert (0 <= valueCost s kind a value) by (unfold valueCost; repeat case_if; lia).
  apply wp_bind. eapply e_chargeAccountAccess; [exact Hb|done|exact Hacc|exact Hx|intros; apply HF; lia|].
  clear Hx. intros Hle c1 Hx. rewrite (warmed_accessed _ _ _ _ Hacc) in Hx. ms Hx. rewrite Hrev.
  eapply e_delegation; [done|done|exact Hx|intros; apply HF; lia|]. clear Hx. intros Hle2 c2 Hx.
  ms Hx. eapply e_when_useGas; [exact Hx|done|intros; apply HF; unfold total, valueCost, CallValueTransferGas in *; repeat case_if; lia|].
  clear Hx. intros Hle3 c3 Hx. ms Hx. rewrite isEmpty_ct. unfold st.Accounts_IsEmpty. rewrite called_accounts.
  fold (st.Accounts_IsEmpty (st.s_Accounts s) a).
  change CallValueTransferGas with 9000 in *. unfold total, valueCost in *.
  eapply e_when_useGas; [exact Hx|done|intros; apply HF; change CallNewAccountGas with 25000 in *; lia|].
  change CallNewAccountGas with 25000 in *. clear Hx. intros Hle4 c4 Hx. apply HQ; [lia|].
  match type of Hx with exact _ _ _ ?a _ _ _ _ _ => by replace (g - _) with a by lia end.
Qed.
(** What [genericCall] does after it has charged for the call. *)
Definition callPaid (kind : CallKind) (provided_gas value : u256) (args output : mslice) (toAddr : Address)
    : M ctRunContext unit :=
  gas ← gets c_gas;
  let nestedCallGas := callGas gas provided_gas in
  addGas (- nestedCallGas);;
  let nestedCallGas :=
    if negb (Int_IsZero value) then nestedCallGas +i64 CallStipend else nestedCallGas in
  params ← gets c_params;
  balance ← host_read (fun w => ws_GetBalance
    (WorldState := @tc_world _ (@rc_context _ (ctRunContext_instance Keccak256))) w (p_Recipient params));
  if hasValue kind && negb (Int_IsZero value) && Int_Lt (Int_SetBytes32 (arr_bytes balance)) value
  then pushValue Int_Clear;; modify (set_returnData []);; addGas nestedCallGas
  else performCall (RC := ctRunContext_instance Keccak256) kind args output nestedCallGas value toAddr.

(** The operands of a call; without a value it is zero. *)
Definition operands (kind : CallKind) (gas target value argsOffset argsSize retOffset retSize : U256)
    (l : list U256) : list U256 :=
  gas :: target :: (if hasValue kind then [value] else []) ++ argsOffset :: argsSize :: retOffset :: retSize :: l.

Lemma e_genericCall F op c0 s cache pc g r m d c kind provided target value argsOffset argsSize retOffset retSize
    l gas markWarm cost1 off1 sz1 cost2 off2 sz2 Q : base Keccak256 s c0 -> valid s ->
  access_priced op -> accessed s (Int_Bytes20 target) gas markWarm ->
  (hasValue kind = false -> value = NewU256 0) ->
  exact c0 (mkCtRunContext s false cache) pc (g - price s op) r
    (operands kind provided target value argsOffset argsSize retOffset retSize l) m d c ->
  st.Memory_ExpansionCosts m argsOffset argsSize = (cost1, off1, sz1) ->
  st.Memory_ExpansionCosts m retOffset retSize = (cost2, off2, sz2) ->
  let a := Int_Bytes20 target in
  let total := Z.max cost1 cost2 + gas + delegateCost s a + valueCost s kind a value in
  (g < total -> F) ->
  (total <= g -> forall c',
     exact c0 (mkCtRunContext (called s a) false cache) pc (g - total) r l
       (st.Memory_Grow (st.Memory_Grow m off1 sz1) off2 sz2) d c' ->
     wp (callPaid kind provided value (region off1 sz1) (region off2 sz2) a) Q (fun _ => F) c') ->
  wp (genericCall (RC := ctRunContext_instance Keccak256) kind) Q (fun _ => F) c.
Proof.
  intros Hb Hv Hp Hacc Hval Hx HE1 HE2 a total HF HQ. pose proof (exact_ct_mem _ _ _ _ _ _ _ _ _ Hx) as Hm.
  destruct (ExpansionCosts_facts _ _ _ _ _ _ Hm HE1) as (Hc1 & _ & _ & _).
  destruct (ExpansionCosts_facts _ _ _ _ _ _ Hm HE2) as (Hc2 & _ & _ & _).
  pose proof (access_price _ _ _ _ _ Hp Hacc) as Hprice. pose proof (ex_max _ _ _ _ _ _ _ _ _ Hx) as Hg.
  assert (0 <= delegateCost s a) by (unfold delegateCost; destruct (delegate s a); [case_if|]; lia).
  assert (0 <= valueCost s kind a value) by (unfold valueCost; repeat case_if; lia).
  unfold genericCall, operands in *. ms Hx.
  match goal with |- wp (if _ then _ else _) ?K _ _ => enough (forall c,
    exact c0 (mkCtRunContext s false cache) pc (g - price s op) r (argsOffset :: argsSize :: retOffset :: retSize :: l) m d c ->
    K value c) as HK end.
  { destruct (hasValue kind); [m_step Hx; by apply HK|]. apply wp_ret. rewrite <-NewU256_NewInt, <-Hval by done. by apply HK. }
  clear Hx. intros c2 Hx. ms Hx. eapply e_slice; [exact Hx|exact HE1|intros; apply HF; lia|]. clear Hx. intros Hle1 c3 Hx. ms Hx.
  destruct (expand_twice _ _ _ _ _ _ _ _ _ _ _ Hm HE1 ltac:(lia) HE2) as (cost3 & HE3 & Hmax1 & Hmax2).
  destruct (ExpansionCosts_facts _ _ _ _ _ _ (exact_ct_mem _ _ _ _ _ _ _ _ _ Hx) HE3) as (Hc3 & _ & _ & _).
  assert (cost2 = MaxInt64 \/ cost2 < MaxInt64) as Hcases by lia.
  eapply e_slice; [exact Hx|exact HE3|intros; apply HF; lia|]. clear Hx. intros Hle2 c4 Hx.
  apply wp_bind. fold a. replace (g - price s op - cost1 - cost3) with (g - cost1 - cost3 - price s op) in Hx by lia.
  eapply e_callCosts; [exact Hb|done|exact Hp|exact Hacc|exact Hx|fold a; intros; apply HF; lia|]. fold a.
  clear Hx. intros Hle3 c5 Hx. apply HQ; [lia|].
  match type of Hx with exact _ _ _ ?a _ _ _ _ _ => by replace (g - _) with a by lia end.
Qed.

(** ** The specification *)

(** The instructions and the kinds of their calls. *)
Definition callOps : list (OpCode * CallKind) :=
  [(CALL, Call); (CALLCODE, CallCode); (STATICCALL, StaticCall); (DELEGATECALL, DelegateCall)].

(** One of the four instructions. *)
Ltac call_cases H := unfold callOps in H; cbn [In] in H; repeat destruct H as [[= <- <-]|H]; [..|done].

Lemma newAccount_agree op kind value empty : In (op, kind) callOps -> (hasValue kind = false -> value = NewU256 0) ->
  negb (Int_IsZero value) && empty && negb (Byte.eqb op CALLCODE) = isCall kind && negb (Int_IsZero value) && empty.
Proof.
  intros Hop Hval. assert (Int_IsZero (NewU256 0) = true) as Hz by (by rewrite IsZero_law, NewU256_uval).
  call_cases Hop; cbn [isCall andb].
  - by rewrite andb_true_r.
  - by rewrite andb_false_r.
  - by rewrite Hval, Hz by done.
  - by rewrite Hval, Hz by done.
Qed.

(** The delegate is marked before the account, if it is cold. *)
Lemma delegation_order s a :
  warmed (st.s_Revision s >=? R09_Berlin) a
    (match delegate s a with Some d => warmed (negb (st.Accounts_IsWarm (st.s_Accounts s) d)) d s | None => s end)
  = called s a.
Proof.
  unfold called. destruct (delegate s a) as [d|]; [|done]. destruct s as [].
  unfold warmed, st.Accounts_IsWarm, st.Accounts_MarkWarm, st.set_Accounts. cbn [st.s_Accounts st.s_Revision].
  destruct (_ >=? _), (bool_decide _) eqn:Hw; cbn [negb st.s_Accounts]; f_equal; cbn;
    destruct s_Accounts as [acc warm]; cbn in *; f_equal; try apply bool_decide_eq_true in Hw; set_solver.
Qed.

Lemma p_delegationCost s status pc g r stk m d rd target (Q : Z -> st.State -> Prop) :
  let a := Int_Bytes20 target in
  Q (delegateCost s a) (mk (match delegate s a with
                            | Some d => warmed (negb (st.Accounts_IsWarm (st.s_Accounts s) d)) d s
                            | None => s end) status pc g r stk m d rd) ->
  wpE (delegationCost target) Q (mk s status pc g r stk m d rd).
Proof.
  intros a HQ. unfold delegationCost, delegateCost, delegate, U256_Bytes20be in *. fold a. ps.
  destruct (_ >=? _); ps; [|done]. destruct (ParseDelegationDesignator _) as [t []]; ps; [|done].
  destruct (st.Accounts_IsWarm _ _); exact HQ.
Qed.

(** What [callBody] does after it has marked the account and grown the memory. *)
Definition callRest (op : OpCode) (gas target value : U256) (argsOffset64 argsSize64 retOffset64 retSize64 : Z) : E unit :=
  available ← getS st.s_Gas;
  let limit := available -i64 Z.quot available 64 in
  let endowment :=
    if U256_IsUint64 gas && (U256_Uint64 gas <? u64 limit) then i64 (U256_Uint64 gas) else limit in
  let stipend := if negb (U256_IsZero value) then 2300 else 0 in
  s_addGas stipend;;
  input ← s_memRead argsOffset64 argsSize64;
  callContext ← getS st.s_CallContext;
  accounts ← getS st.s_Accounts;
  let balance := st.Accounts_GetBalance accounts (st.cc_AccountAddress callContext) in
  if negb (U256_IsZero value) && U256_Lt balance value then
    s_push (NewU256 0);;
    setS (st.set_LastCallReturnData [])
  else callPerform op target value input endowment stipend retOffset64 retSize64.

Lemma p_callEffect op kind gas target value argsOffset argsSize retOffset retSize l sp s pc g r m d rd addrCost
    cost1 off1 sz1 cost2 off2 sz2 (Q : unit -> st.State -> Prop) : In (op, kind) callOps ->
  ct_mem m -> 0 <= g < MaxInt64 -> 0 <= addrCost <= 2600 -> (hasValue kind = false -> value = NewU256 0) ->
  st.Memory_ExpansionCosts m argsOffset argsSize = (cost1, off1, sz1) ->
  st.Memory_ExpansionCosts m retOffset retSize = (cost2, off2, sz2) ->
  let a := Int_Bytes20 target in
  let total := Z.max cost1 cost2 + addrCost + delegateCost s a + valueCost s kind a value in
  (g < total -> forall ws sp' l', Q tt (mk ws st.Failed pc g r (mkS l' sp') m d rd)) ->
  (total <= g -> forall sp', wpE (callRest op gas target value off1 sz1 off2 sz2) Q
      (mk (called s a) st.Running pc (g - total) r (mkS l sp') (st.Memory_Grow (st.Memory_Grow m off1 sz1) off2 sz2) d rd)) ->
  wpE (callEffect addrCost op) Q (mk s st.Running pc g r
    (mkS (operands kind gas target value argsOffset argsSize retOffset retSize l) sp) m d rd).
Proof.
  intros Hop Hm Hg Haddr Hval HE1 HE2 a total HF HQ.
  destruct (ExpansionCosts_facts _ _ _ _ _ _ Hm HE1) as (Hc1 & _ & _ & _).
  destruct (ExpansionCosts_facts _ _ _ _ _ _ Hm HE2) as (Hc2 & _ & _ & _).
  assert (0 <= delegateCost s a <= 2600) by (unfold delegateCost; destruct (delegate s a); [case_if|]; lia).
  unfold callEffect, operands. ps. assert (opHasValue op = hasValue kind) as ->.
  { by call_cases Hop. }
  match goal with |- wpE (if _ then _ else _) ?K _ => enough (forall sp',
    K value (mk s st.Running pc g r (mkS (argsOffset :: argsSize :: retOffset :: retSize :: l) sp') m d rd)) as HK end.
  { destruct (hasValue kind); cbn [app]; [apply p_pop, HK|]. apply wpE_ret. rewrite <-Hval by done. apply HK. }
  clear sp. intros sp. ps. apply p_expansionCosts. rewrite HE1. cbv beta iota. ps.
  apply p_expansionCosts. rewrite HE2. cbv beta iota. ps. apply p_delegationCost. fold a. cbv beta.
  match goal with |- context [sumWithOverflow ?values] => assert (sumWithOverflow values =
    if total <=? MaxInt64 then (total, false) else (0, true)) as -> end.
  { unfold U256_IsZero, U256_Bytes20be. fold a. rewrite (newAccount_agree _ kind) by done.
    rewrite sumWithOverflow_spec; [|lia|repeat constructor; repeat case_if; lia].
    replace (_ + foldr Z.add 0 _) with total; [done|]. unfold total, valueCost. cbn [foldr]. lia. }
  ps. set (ws := match delegate s a with Some _ => _ | None => _ end). assert (st.s_Revision ws = st.s_Revision s) as Hrev.
  { unfold ws. destruct (delegate s a); [|done]. by destruct (st.Accounts_IsWarm _ _). }
  destruct (Z.leb_spec total MaxInt64); ps; [|rewrite orb_true_r; unfold s_fail; ps; apply HF; lia].
  rewrite orb_false_r. destruct (Z.ltb_spec g total); unfold s_fail, s_useGas; ps; [by apply HF|].
  assert (0 <= valueCost s kind a value) by (unfold valueCost; repeat case_if; lia).
  unfold callBody, s_memGrow. ps. rewrite Hrev. apply p_markWarm. unfold U256_Bytes20be. fold a. unfold ws.
  rewrite delegation_order, (i64_id (g - total)) by (unfold isI64, MaxInt64, total in *; lia). apply wpE_bind, wpE_bind, wpE_getS, wpE_setS.
  apply wpE_bind, wpE_bind, wpE_getS, wpE_setS. by apply HQ.
Qed.

(** ** The call itself *)

(** The gas for the call. *)
Lemma callGas_agrees g provided : 0 <= g < MaxInt64 ->
  let limit := g -i64 Z.quot g 64 in
  let endowment :=
    if U256_IsUint64 provided && (U256_Uint64 provided <? u64 limit) then i64 (U256_Uint64 provided) else limit in
  callGas g provided = endowment /\ 0 <= endowment <= g.
Proof.
  intros Hg limit endowment. unfold endowment, callGas, U256_IsUint64, U256_Uint64. fold limit.
  assert (limit = g - g / 64 /\ 0 <= g - g / 64 <= g) as [Hlim Hr].
  { unfold limit. rewrite Z.quot_div_nonneg by lia. unfold MaxInt64 in *. rewrite i64_id by (unfold isI64; divlia). divlia. }
  pose proof (Uint64_range provided) as Hp. unfold isU64, MaxInt64 in *. rewrite (u64_id limit) by (unfold isU64; lia).
  destruct (Int_IsUint64 provided); cbn [andb]; [|lia].
  destruct (Z.leb_spec (Int_Uint64 provided) (2 ^ 63 - 1)); cbn [andb].
  - rewrite i64_id by (unfold isI64; lia). rewrite Z.geb_leb.
    destruct (Z.leb_spec (Int_Uint64 provided) limit), (Z.ltb_spec (Int_Uint64 provided) limit); lia.
  - rewrite (proj2 (Z.ltb_ge _ _)) by lia. lia.
Qed.

Lemma go_copy_take {A} (dst src : list A) : go_copy dst (take (length dst) src) = go_copy dst src.
Proof.
  unfold go_copy. rewrite take_take, Nat.min_id, length_take. f_equal.
  destruct (Nat.le_ge_cases (length dst) (length src)).
  - by rewrite !drop_ge by lia.
  - by rewrite Nat.min_r by lia.
Qed.

(** The output, written to the region of its size or as far as it fits. *)
Lemma write_truncated m off sz (output : list byte) : ct_mem m -> inside m off sz -> sz <> 0 ->
  let output' := if zlen output >? sz then slice output 0 sz else output in
  zlen output' <= sz /\ inside m off (zlen output')
  /\ write_at m off (zlen output') output' = write_at m off sz output.
Proof.
  intros Hm [->|(Ho & Hs & Hb)] Hne output'; [done|]. pose proof (zlen_nonneg output').
  assert (zlen output' <= sz /\ output' = take (Z.to_nat sz) output) as [Hl Ht].
  { unfold output'. destruct (Z.gtb_spec (zlen output) sz).
    - unfold slice, zlen in *. rewrite Z.sub_0_r, drop_0, length_take. split; [lia|done].
    - split; [lia|]. rewrite take_ge; [done|]. unfold zlen in *. lia. }
  split_and!; [done|unfold inside; lia|]. unfold write_at. rewrite (proj2 (Z.eqb_neq sz 0)) by done.
  assert (copy_at m off (off + sz) output = copy_at m off (off + sz) output') as ->.
  { rewrite Ht. unfold copy_at. do 2 f_equal. unfold slice. rewrite <-(go_copy_take _ output). do 2 f_equal.
    rewrite length_take, length_drop. unfold zlen in *. lia. }
  rewrite !copy_at_exact by lia. destruct (Z.eqb_spec (zlen output') 0) as [E|]; [|done].
  rewrite E, Z.add_0_r. destruct output'; [|rewrite zlen_cons in E; pose proof (zlen_nonneg output'); lia].
  cbn [app]. by rewrite take_drop.
Qed.

Lemma callTarget_agrees op kind s target value input gas : In (op, kind) callOps ->
  let '(k, sender, recipient, v) := callTarget op (st.s_ReadOnly s) (st.s_CallContext s) target value in
  k = (if st.s_ReadOnly s && isCall kind then StaticCall else kind)
  /\ mkCallParameters sender recipient (U256_Bytes32be v) input gas zeroWord (U256_Bytes20be target)
     = callParams (ToVmParameters Keccak256 s) k input gas value (Int_Bytes20 target).
Proof. intros Hop. call_cases Hop; unfold callTarget; cbn; by destruct (st.s_ReadOnly s). Qed.

Lemma inside_fits m off sz : ct_mem m -> inside m off sz -> fits off sz.
Proof. intros (w & Hl & Hb) [->|H]; [by left|]. right. lia. Qed.

Definition stipend (value : U256) : Z := if negb (Int_IsZero value) then 2300 else 0.

(** The value cannot be paid. *)
Definition poor (ws : st.State) (value : U256) : bool :=
  negb (Int_IsZero value)
  && Int_Lt (st.Accounts_GetBalance (st.s_Accounts ws) (st.cc_AccountAddress (st.s_CallContext ws))) value.

Lemma e_callPaid F c0 s accounts cache pc g r l m d c kind provided value args output a Q : base Keccak256 s c0 ->
  let ws := st.set_Accounts accounts s in
  exact c0 (mkCtRunContext ws false cache) pc g r l m d c ->
  0 <= callGas g provided <= g -> g <= st.MaxGasUsedByCt -> (hasValue kind = false -> value = NewU256 0) ->
  let nested := callGas g provided + stipend value in
  (forall c', exact c0 (mkCtRunContext ws false cache) pc (g - callGas g provided) r l m d c' ->
     if poor ws value
     then wp (pushValue Int_Clear;; modify (set_returnData []);; addGas nested) Q (fun _ => F) c'
     else wp (performCall (RC := ctRunContext_instance Keccak256) kind args output nested value a) Q (fun _ => F) c') ->
  wp (callPaid kind provided value args output a) Q (fun _ => F) c.
Proof.
  intros Hb ws Hx Hn Hg Hval nested HQ. unfold st.MaxGasUsedByCt in Hg. unfold callPaid. ms Hx.
  assert ((if negb (Int_IsZero value) then callGas g provided +i64 CallStipend else callGas g provided) = nested) as ->.
  { unfold nested, stipend. case_if; [|lia]. apply i64_id. unfold isI64, CallStipend. lia. }
  eapply e_addGas; [exact Hx|unfold MaxInt64; lia|]. clear Hx. intros c2 Hx.
  replace (g + - callGas g provided) with (g - callGas g provided) in Hx by lia. specialize (HQ c2 Hx).
  ms Hx. vmparams Hb. vmhost. rewrite SetBytes32_Bytes32. unfold poor in HQ.
  replace (hasValue kind && negb (Int_IsZero value)) with (negb (Int_IsZero value)).
  - change (st.s_CallContext ws) with (st.s_CallContext s) in HQ. by destruct (negb (Int_IsZero value) && Int_Lt _ value).
  - destruct (hasValue kind); [done|]. by rewrite Hval, IsZero_law, NewU256_uval.
Qed.

Lemma inside_Grow m off sz off' sz' : ct_mem m -> inside m off sz -> fits off' sz' ->
  inside (st.Memory_Grow m off' sz') off sz.
Proof.
  intros Hm [->|H] Hf; [by left|]. right. pose proof Hm as (w & Hl & _). rewrite (zlen_Grow _ _ _ w) by done. lia.
Qed.

Lemma p_writeOutput ws status pc g r stk m d rd off sz output (Q : unit -> st.State -> Prop) :
  ct_mem m -> inside m off sz -> Q tt (mk ws status pc g r stk (write_at m off sz output) d rd) ->
  wpE (if sz >? 0 then s_memWrite (if zlen output >? i64 sz then slice output 0 sz else output) off else mret tt) Q
    (mk ws status pc g r stk m d rd).
Proof.
  intros Hm Hin HQ. destruct (Z.gtb_spec sz 0) as [Hs|Hs].
  - pose proof (ct_mem_size m Hm). pose proof Hm as (w & Hl & Hb). unfold maxMemoryExpansionSize in Hb.
    rewrite i64_id by (unfold isI64, inside in *; lia).
    destruct (write_truncated m off sz output Hm Hin ltac:(lia)) as (_ & Hin' & Heq).
    apply p_write; [done|by apply (inside_fits m)|]. rewrite Grow_id by done. by rewrite Heq.
  - apply wpE_ret. unfold write_at in HQ. destruct Hin as [->|]; [done|lia].
Qed.

Lemma callPaid_agrees s op kind provided target value l pc g r m d c0 cache off1 sz1 off2 sz2 sp :
  In (op, kind) callOps -> base Keccak256 s c0 -> valid s -> 0 <= g <= st.MaxGasUsedByCt -> ct_mem m ->
  inside m off1 sz1 -> inside m off2 sz2 -> zlen l < 1024 -> 0 <= pc + 1 < 2 ^ 16 ->
  (hasValue kind = false -> value = NewU256 0) ->
  let a := Int_Bytes20 target in
  let ws := called s a in
  wpE (callRest op provided target value off1 sz1 off2 sz2)
    (fun _ s' => forall c, exact c0 (mkCtRunContext ws false cache) pc g r l m d c ->
       wp (callPaid kind provided value (region off1 sz1) (region off2 sz2) a)
         (fun _ => agreesD s s' statusRunning) (fun _ => st.s_Status s' = st.Failed) c)
    (mk ws st.Running (pc + 1) g r (mkS l sp) m d (st.s_ReturnData s)).
Proof.
  intros Hop Hb Hv Hg Hm Hin1 Hin2 Hl Hpc Hval a ws. destruct (called_spec s a) as [accounts Hws]. fold ws in Hws.
  clearbody ws. subst ws. unfold st.MaxGasUsedByCt in Hg.
  destruct (callGas_agrees g provided ltac:(unfold MaxInt64; lia)) as [Hcg Hend]. cbv zeta in *.
  unfold callRest. ps. rewrite <-Hcg in *. fold (stipend value). set (endowment := callGas g provided) in *.
  assert (0 <= stipend value <= 2300) as Hst by (unfold stipend; case_if; lia).
  unfold s_addGas. ps. change (if negb (U256_IsZero value) then 2300 else 0) with (stipend value).
  rewrite (i64_id (g + stipend value)) by (unfold isI64; lia).
  apply p_read; [done|by apply (inside_fits m)|]. cbv zeta. rewrite Grow_id by (try apply ct_mem_size; done). ps.
  match goal with |- wpE (if ?b then _ else _) _ _ => change b with (poor (st.set_Accounts accounts s) value) end.
  destruct (poor _ value) eqn:Ep.
  { ps. intros c Hx. eapply e_callPaid; [exact Hb|exact Hx|done|unfold st.MaxGasUsedByCt; lia|done|]. rewrite Ep. clear Hx. intros c2 Hx. ms Hx.
    eapply e_set_returnData; [exact Hx|]. clear Hx. intros c3 Hx. fold endowment in Hx |- *.
    eapply e_addGas; [exact Hx|unfold MaxInt64; lia|]. clear Hx. intros c4 Hx. rewrite NewU256_zero. agreed Hx. }
  unfold callPerform. ps. match goal with |- context [callTarget ?o ?ro ?cc ?tg ?v] =>
    pose proof (callTarget_agrees op kind s target value (bytes_at m off1 sz1) (endowment + stipend value) Hop) as Hpar;
    destruct (callTarget o ro cc tg v) as [[[k sender] recipient] v'] end.
  destruct Hpar as [Hk Hpar]. cbv beta iota. ps. change (if negb (U256_IsZero value) then 2300 else 0) with (stipend value).
  rewrite (i64_id (endowment + stipend value)), Hpar by (unfold isI64; lia). set (nested := endowment + stipend value) in *.
  apply p_call. intros journal res Ecall. cbn [st.s_CallJournal st.set_Accounts] in Ecall.
  assert (0 <= cr_GasLeft res <= nested) as Hleft.
  { match type of Ecall with st.CallJournal_Call _ _ ?p = _ =>
      pose proof (CallJournal_Call_gas s k p Hv) as H; assert (cp_Gas p = nested) as Hp by (by destruct k) end.
    rewrite Hp, Ecall in H. apply H. lia. }
  apply wpE_bind, p_writeOutput; [done|done|]. cbv beta. unfold s_useGas, s_addRefund. ps.
  rewrite (i64_id (nested - _)), (i64_id (_ - (_ - _))) by (unfold isI64; lia).
  match goal with |- wpE _ ?K (mk ?ws ?a1 ?a2 ?a3 ?a4 (mkS ?l ?sp) ?a6 ?a7 ?a8) =>
    enough (K tt (mk ws a1 a2 a3 a4 (mkS ((if cr_Success res then Int_SetOne else Int_Clear) :: l) (tail sp)) a6 a7 a8)) as HK end.
  { destruct (cr_Success res); ps; [rewrite NewU256_NewInt by done|rewrite NewU256_zero]; exact HK. }
  intros c Hx. eapply e_callPaid; [exact Hb|exact Hx|done|unfold st.MaxGasUsedByCt; lia|done|]. rewrite Ep. clear Hx.
  intros c2 Hx. fold endowment in Hx |- *. fold nested. unfold performCall. ms Hx. rewrite (base_params _ _ _ Hb).
  change (p_Static (ToVmParameters Keccak256 s)) with (st.s_ReadOnly s). rewrite <-Hk.
  eapply e_slice_read; [exact Hx|]. apply wp_bind. eapply e_call; [exact Hx|exact Ecall|]. clear Hx. intros c3 Hx. cbv beta iota.
  cbn [is_err negb orb]. apply wp_bind. unfold when. eapply e_slice_write; [exact Hx|done|]. clear Hx. intros c4 Hx. ms Hx.
  eapply e_addGas; [exact Hx|unfold MaxInt64; lia|]. clear Hx. intros c5 Hx. ms Hx.
  eapply e_set_returnData; [exact Hx|]. clear Hx. intros c6 Hx. agreed Hx. by destruct (cr_Success res).
Qed.

(** ** The rules *)

(** A call in a static context transfers no value. *)
Definition permitted (s : st.State) (kind : CallKind) (value : U256) : Prop :=
  isCall kind && st.s_ReadOnly s && negb (Int_IsZero value) = false.

Lemma e_dispatch_call F op kind s c0 w pc g r m d c gas target value argsOffset argsSize retOffset retSize l Q :
  In (op, kind) callOps -> base Keccak256 s c0 -> permitted s kind value ->
  exact c0 w pc g r (operands kind gas target value argsOffset argsSize retOffset retSize l) m d c ->
  wp (genericCall (RC := ctRunContext_instance Keccak256) kind) (fun _ => Q statusRunning) (fun _ => F) c ->
  wp (dispatch_ op) Q (fun _ => F) c.
Proof.
  intros Hop Hb Hal Hx HQ.
  assert (wp (running (genericCall (RC := ctRunContext_instance Keccak256) kind)) Q (fun _ => F) c) as HR.
  { unfold running. apply wp_bind. eapply wp_mono; [exact HQ|cbv beta|done]. intros _ c2 H2. by apply wp_ret. }
  call_cases Hop; try exact HR. unfold dispatch, running in *. apply wp_bind. unfold opCall. apply wp_bind.
  eapply (e_peekN _ _ _ _ _ _ _ _ _ _ 2%nat); [exact Hx|done|]. ms Hx. vmparams Hb. unfold permitted in Hal. cbn [isCall andb] in Hal.
  rewrite Hal. apply wp_ret. eapply wp_mono; [exact HQ|cbv beta|done]. intros _ c2 H2. by apply wp_ret.
Qed.

Lemma callEffect_ok op kind s c0 cache c addrCost markWarm gas target value argsOffset argsSize retOffset retSize l :
  In (op, kind) callOps -> ready Keccak256 Keccak256For32byte s op (st.s_Gas s - price s op) c0 cache c ->
  accessed s (Int_Bytes20 target) (price s op + addrCost) markWarm -> permitted s kind value ->
  (hasValue kind = false -> value = NewU256 0) ->
  ct_stack s = operands kind gas target value argsOffset argsSize retOffset retSize l ->
  effect_ok Keccak256 Keccak256For32byte s op (callEffect addrCost op) (st.s_Gas s - price s op) c.
Proof.
  intros Hop' Hrd Hacc Hal Hval Hst. opened Hrd. unfold effect_ok, regular_state. rewrite Hst in *.
  pose proof (exact_ct_mem _ _ _ _ _ _ _ _ _ Hx) as Hm. pose proof (exact_zlen _ _ _ _ _ _ _ _ _ Hx) as Hl.
  assert (zlen l < 1024) as Hl'.
  { unfold operands in Hl. rewrite !zlen_cons, zlen_app, !zlen_cons in Hl. pose proof (zlen_nonneg (if hasValue kind then [value] else [])). lia. }
  assert (access_priced op) as Hp by (by call_cases Hop').
  pose proof (access_price _ _ _ _ _ Hp Hacc) as Hprice.
  assert (0 <= addrCost <= 2600) as Haddr by (unfold accessed in Hacc; destruct (_ >=? _); [destruct (st.Accounts_IsWarm _ _)|]; lia).
  destruct (st.Memory_ExpansionCosts (st.s_Memory s) argsOffset argsSize) as [[cost1 off1] sz1] eqn:HE1.
  destruct (st.Memory_ExpansionCosts (st.s_Memory s) retOffset retSize) as [[cost2 off2] sz2] eqn:HE2.
  destruct (ExpansionCosts_facts _ _ _ _ _ _ Hm HE1) as (Hc1 & _ & _ & Hf1).
  destruct (ExpansionCosts_facts _ _ _ _ _ _ Hm HE2) as (Hc2 & _ & _ & Hf2).
  eapply p_callEffect; [exact Hop'|done|done|done|done|exact HE1|exact HE2|intros Hlt ws sp l'|intros Hle sp].
  - eapply e_dispatch_call; [exact Hop'|exact Hb|exact Hal|exact Hx|].
    eapply e_genericCall; [exact Hb|done|exact Hp|exact Hacc|exact Hval|exact Hx|exact HE1|exact HE2|done|]. lia.
  - set (total := Z.max cost1 cost2 + addrCost + _ + _) in *.
    assert (0 <= delegateCost s (Int_Bytes20 target)) by (unfold delegateCost; destruct (delegate s _); [case_if|]; lia).
    assert (0 <= valueCost s kind (Int_Bytes20 target) value) by (unfold valueCost; repeat case_if; lia).
    destruct Hf1 as (_ & _ & _ & Hfit1 & _); [lia|]. destruct Hf2 as (_ & _ & _ & Hfit2 & _); [lia|].
    destruct (Grow_inside _ _ _ Hm Hfit1) as [Hm1 Hin1]. destruct (Grow_inside _ _ _ Hm1 Hfit2) as [Hm2 Hin2].
    pose proof (inside_Grow _ _ _ _ _ Hm1 Hin1 Hfit2) as Hin1'.
    eapply wpE_mono; [apply (callPaid_agrees s op kind gas target value l (st.s_Pc s) _ _ _ _ c0 cache off1 sz1 off2 sz2 sp);
      try done; [destruct Hv; lia|lia]|].
    cbv beta. intros _ s' Hs'. eapply e_dispatch_call; [exact Hop'|exact Hb|exact Hal|exact Hx|].
    eapply e_genericCall; [exact Hb|done|exact Hp|exact Hacc|exact Hval|exact Hx|exact HE1|exact HE2|lia|].
    clear Hx. intros Hle2 c2 Hx. apply Hs'.
    match type of Hx with exact _ _ _ ?a _ _ _ _ _ => by replace (st.s_Gas s - price s op - total) with a by lia end.
Qed.

Definition callPops (op : OpCode) : Z := if opHasValue op then 7 else 6.

Lemma call_limits op kind : In (op, kind) callOps -> op <> STOP /\ access_priced op /\ opHasValue op = hasValue kind
  /\ opStackLimits op = mkStackLimits (callPops op) (st.MaxStackSize - Z.max (1 - callPops op) 0).
Proof. intros Hop. call_cases Hop; (split; [discriminate|done]). Qed.

(** The operands of a call. *)
Lemma call_operands op kind s : In (op, kind) callOps -> callPops op <= zlen (ct_stack s) ->
  exists gas target value argsOffset argsSize retOffset retSize l,
    ct_stack s = operands kind gas target value argsOffset argsSize retOffset retSize l
    /\ (hasValue kind = false -> value = NewU256 0).
Proof.
  intros Hop. destruct (call_limits _ _ Hop) as (_ & _ & Hv & _). unfold callPops, operands. rewrite Hv. clear.
  destruct (ct_stack s) as [|a [|b [|x1 [|x2 [|x3 [|x4 l]]]]]]; try (case_if; unfold zlen; cbn; lia).
  destruct (hasValue kind); [|intros _; exists a, b, (NewU256 0), x1, x2, x3, x4, l; done].
  destruct l as [|x5 l]; [unfold zlen; cbn; lia|]. intros _. exists a, b, x1, x2, x3, x4, x5, l. done.
Qed.

Lemma call_conforms op kind conds params staticGas addrCost : In (op, kind) callOps -> 0 <= staticGas ->
  (forall s, valid s -> all_apply conds s -> price s op = staticGas) ->
  (forall s gas target value argsOffset argsSize retOffset retSize l, valid s -> all_apply conds s ->
     ct_stack s = operands kind gas target value argsOffset argsSize retOffset retSize l ->
     (exists markWarm, accessed s (Int_Bytes20 target) (staticGas + addrCost) markWarm) /\ permitted s kind value) ->
  conform (rulesFor (mkInstruction op staticGas (callPops op) 1 conds params (effect_of (callEffect addrCost op)))).
Proof.
  intros Hop Hg Hprice Hacc. destruct (call_limits _ _ Hop) as (Hne & _ & _ & Hlim).
  apply priced_conforms; [done|done|done|intros s Hv Ha; by rewrite (Hprice s Hv Ha)|].
  intros s c0 cache c Ha Hl Hrd. pose proof (rd_valid _ _ _ _ _ _ _ _ Hrd) as Hv. specialize (Hprice s Hv Ha).
  pose proof (ready_gas _ _ _ _ _ _ _ _ Hrd). split; [lia|]. intros _.
  destruct (call_operands op kind s Hop) as (gas & target & value & ao & asz & ro & rs & l & Hst & Hval); [lia|].
  destruct (Hacc s gas target value ao asz ro rs l Hv Ha Hst) as [[markWarm Hac] Hal]. rewrite <-Hprice in Hac |- *.
  by eapply callEffect_ok.
Qed.

(** A call that would transfer a value in a static context. *)
Lemma call_fails conds params staticGas pops : 0 <= staticGas -> pops <= 7 -> 1 <= pops ->
  (forall s gas target value argsOffset argsSize retOffset retSize l, all_apply conds s ->
     ct_stack s = operands Call gas target value argsOffset argsSize retOffset retSize l ->
     st.s_ReadOnly s = true /\ Int_IsZero value = false) ->
  conform (rulesFor (mkInstruction CALL staticGas pops 1 conds params FailEffect)).
Proof.
  intros Hgas Hp1 Hp2 Hc. apply failing_conforms; [done|done|done|lia|]. intros s c0 cache c Ha Hl Hrd.
  destruct (call_operands CALL Call s ltac:(by left) Hl) as (gas & target & value & ao & asz & ro & rs & l & Hst & _).
  destruct (Hc _ _ _ _ _ _ _ _ _ Ha Hst) as [Hro Hz]. opened Hrd. rewrite Hst in Hx. unfold dispatch, running, opCall.
  apply wp_bind, wp_bind. eapply (e_peekN _ _ _ _ _ _ _ _ _ _ 2%nat); [exact Hx|done|]. ms Hx. vmparams Hb.
  rewrite Hro, Hz. by ms Hx.
Qed.

(** The conditions of the rules. *)
Lemma callConditions_spec op kind rev warm zeroValue designator static s gas target value argsOffset argsSize
    retOffset retSize l : In (op, kind) callOps ->
  all_apply (callConditions op rev warm zeroValue designator static) s ->
  ct_stack s = operands kind gas target value argsOffset argsSize retOffset retSize l ->
  st.s_Revision s = rev /\ st.s_ReadOnly s = static
  /\ st.Accounts_IsWarm (st.s_Accounts s) (Int_Bytes20 target) = warm
  /\ (hasValue kind = true -> Int_IsZero value = zeroValue).
Proof.
  intros Hop Ha Hst. destruct (call_limits _ _ Hop) as (_ & _ & Hhas & _). unfold callConditions in Ha.
  rewrite Hhas in Ha. unfold operands in Hst. rewrite !all_apply_app in Ha. destruct Ha as (Ha & _ & Hval). conditions Ha.
  split_and!; [lia|destruct static; rewrite applies_readOnly in Ha2; by destruct (st.s_ReadOnly s)
    |destruct warm; param Ha1 Hst; by destruct (st.Accounts_IsWarm _ _)|].
  intros Hk. rewrite Hk in *. cbn [app] in Hst. rewrite all_apply_cons in Hval. destruct Hval as [Hval _].
  destruct zeroValue; param Hval Hst; cbn [Equal domainOf] in Hval;
    change (Equal valueDomain value (NewU256 0)) with (bool_decide (value = NewU256 0)) in Hval;
    rewrite <-U256_IsZero_spec in Hval; unfold U256_IsZero in Hval; by destruct (Int_IsZero value).
Qed.

Lemma getRulesForCall_conform op kind rev warm zeroValue designator static : In (op, kind) callOps ->
  isCall kind && static && negb zeroValue = false ->
  conform (getRulesForCall op rev warm zeroValue designator (fun cost op => effect_of (callEffect cost op)) static).
Proof.
  intros Hop Hal. unfold getRulesForCall. fold (callPops op). destruct (call_limits _ _ Hop) as (_ & [Hp1 Hp2] & _ & _).
  match goal with |- context [if rev =? R07_Istanbul then ?x else ?y] =>
    destruct (if rev =? R07_Istanbul then x else y) as [staticGas addrCost] eqn:Egas end.
  assert (forall s, valid s -> st.s_Revision s = rev -> price s op = staticGas /\
    (staticGas, addrCost) = (if rev >=? R09_Berlin then (0, if warm then 100 else 2600) else (700, 0))) as HP.
  { intros s [Hr _ _ _ _ _ _ _ _ _ _ _ _ _ _ _ _ _ _ _] <-. unfold price. unfold R07_Istanbul, R09_Berlin in *. rewrite Z.geb_leb in *.
    destruct (Z.eqb_spec (st.s_Revision s) 0), (Z.leb_spec 1 (st.s_Revision s)); try lia; rewrite ?Hp1, ?Hp2; by injection Egas as <- <-. }
  apply (call_conforms op kind); [done| | |].
  - revert Egas. repeat case_if; intros [= <- <-]; lia.
  - intros s Hv Ha. apply HP; [done|]. unfold callConditions in Ha. rewrite all_apply_app in Ha. destruct Ha as [Ha _]. conditions Ha. lia.
  - intros s gas target value ao asz ro rs l Hv Ha Hst.
    destruct (callConditions_spec _ _ _ _ _ _ _ _ _ _ _ _ _ _ _ _ Hop Ha Hst) as (Hr & Hro & Hw & Hz).
    destruct (HP s Hv Hr) as [_ HG]. unfold accessed, permitted. rewrite Hr, Hw, Hro. split.
    + destruct (rev >=? R09_Berlin); [destruct warm|]; injection HG as -> ->; eauto.
    + destruct kind; try done. by rewrite Hz.
Qed.

Lemma callRulesAt_conform op kind rev warm static zeroValue : In (op, kind) callOps ->
  conform (callRulesAt op rev warm static zeroValue).
Proof.
  intros Hop. unfold callRulesAt. assert (Byte.eqb op CALL = isCall kind) as -> by (by call_cases Hop).
  destruct (isCall kind && static && negb zeroValue) eqn:Hal.
  - apply andb_true_iff in Hal as [[Hk Hs]%andb_true_iff Hz]. apply negb_true_iff in Hz. subst static zeroValue.
    assert (op = CALL /\ kind = Call) as [-> ->] by (by call_cases Hop).
    assert (forall designator, conform (getRulesForCall CALL rev warm false designator callFailEffect true)) as H.
    { intros designator. unfold getRulesForCall. 
      match goal with |- context [if rev =? R07_Istanbul then ?x else ?y] =>
        destruct (if rev =? R07_Istanbul then x else y) as [staticGas addrCost] eqn:Egas end.
      apply call_fails; [|done|done|].
      - revert Egas. repeat case_if; intros [= <- <-]; lia.
      - intros s gas target value ao asz ro rs l Ha Hst.
        destruct (callConditions_spec _ _ _ _ _ _ _ _ _ _ _ _ _ _ _ _ Hop Ha Hst) as (_ & Hro & _ & Hz). auto. }
    case_if; [apply H|]. apply List.Forall_flat_map, List.Forall_forall. intros; apply H.
  - case_if; [by eapply getRulesForCall_conform|]. apply List.Forall_flat_map, List.Forall_forall.
    intros. by eapply getRulesForCall_conform.
Qed.

Lemma getRulesForAllCallTypes_conform : conform getRulesForAllCallTypes.
Proof.
  unfold getRulesForAllCallTypes. apply List.Forall_flat_map, List.Forall_forall. intros op Hin.
  assert (exists kind, In (op, kind) callOps) as [kind Hop].
  { cbn in Hin. repeat destruct Hin as [<-|Hin]; [eexists; cbn; eauto 6..|done]. }
  repeat (apply List.Forall_flat_map, List.Forall_forall; intros ? _). by eapply callRulesAt_conform.
Qed.

End ConformCall.
