(* ===== verification/CtConformance.v ===== *)
(** * Conformance of [sfvm] to the specification

    The interpreter conforms to every rule of the specification, and so a run
    of the adapter [StepN] on a state that satisfies the condition of a rule
    ends in a state that equals, for the comparison of the tests, the one the
    effect of the rule ends in. *)
From Stdlib Require Import ZArith Lia Strings.Byte.
From stdpp Require Import base list numbers gmap.
From S2P Require Import Prelude Uint256 Types OpCodes SfvmStack SfvmAnalysis SfvmHashCache.
From S2P Require Import SfvmContext SfvmMemory SfvmGas SfvmInstructions SfvmInterpreter SfvmLogic.
From S2P Require Import SfvmSafety SfvmExecution CtSlices CtCommon CtState CtRules CtEffects CtSpec.
From S2P Require Import CtAdapter CtStateFacts CtExec CtSim CtConform CtConformMemory CtConformArith.
From S2P Require Import CtConformState CtConformFlow CtConformCreate CtConformCall.
Set Default Goal Selector "!".
Local Open Scope Z_scope.
Local Open Scope go_scope.

Section Conformance.
Context {U : Uint256} {UL : Uint256Laws U}.
Context (Keccak256 : list byte -> Hash) (Keccak256For32byte : array 32 -> Hash).
Abbreviation conform := (Forall (rule_conforms Keccak256 Keccak256For32byte)).
Abbreviation step_ := (step (RC := ctRunContext_instance Keccak256) (G := ctGlobals)
  Keccak256 Keccak256For32byte).

(** ** All rules *)

(** The rules for states that are not running, and for unknown revisions. *)
Lemma terminalRules_conform : conform terminalRules.
Proof.
  unfold terminalRules. repeat constructor; intros s Hv Hr Ha; cbn [r_Condition r_Effect] in *.
  1,2,3: rewrite applies_And_Forall, !all_apply_cons, applies_status, Hr in Ha; by destruct Ha as (_ & ? & _).
  destruct (pc_word s Hv) as (H1 & H2 & H3). pose proof (valid_isCode s Hv Hr) as Hc.
  unfold applies in Ha. cbn [Condition_Check] in Ha. unfold isData_Check in Ha. cbn [Eval] in Ha. unfold pc_Eval in Ha. cbn [eval_bind] in Ha.
  rewrite H1, H2, H3 in Ha. cbn [negb orb] in Ha. unfold st.Code_IsData in Ha. by rewrite Hc in Ha.
Qed.

Lemma errorRules_conform : conform errorRules.
Proof.
  constructor; [|constructor]. intros s Hv Hr Ha. cbn [r_Condition r_Effect] in *.
  unfold IsRevision in Ha. rewrite applies_revision in Ha. b2p. pose proof (valid_revision s Hv).
  unfold R99_UnknownNextRevision, NewestSupportedRevision, R15_Osaka in *. lia.
Qed.

Lemma getAllRules_conform : conform (getAllRules Keccak256).
Proof.
  assert (conform (flat_map logOp (seq 0 5))) as Hlog.
  { apply List.Forall_flat_map, List.Forall_forall. intros n Hn. by apply logOp_conforms. }
  unfold getAllRules. rewrite !List.Forall_app.
  split_and!; auto using terminalRules_conform, invalidRules_conform, errorRules_conform, stopRules_conform,
    arithmeticRules_conform, comparisonRules_conform, clzRules_conform, sha3Rules_conform, balanceRules_conform,
    mloadRules_conform, mstoreRules_conform, mstore8Rules_conform, sloadRules_conform, sstoreRules_conform,
    jumpRules_conform, jumpiRules_conform, flowRules_conform, tloadRules_conform, tstoreRules_conform,
    push0Rules_conform, mcopyRules_conform, stackRules_conform, callerRules_conform, blockHashRules_conform,
    blockRules_conform, extCodeSizeRules_conform, extCodeCopyRules_conform, feeRules_conform, blobRules_conform,
    extCodeHashRules_conform, codeRules_conform, callDataRules_conform, selfBalanceRules_conform,
    returnDataRules_conform, returnRules_conform, getRulesForAllCallTypes_conform, selfDestructRules_conform,
    createRules_conform, create2Rules_conform.
Qed.

(** ** What a failing step leaves *)

(** The run context of a test on [s]. *)
Record frame (s : st.State) (w : ctRunContext) : Prop := {
  fr_panicked : w_panicked w = false;
  fr_stack : st.s_Stack (w_state w) = st.s_Stack s;
  fr_codes a : zlen (st.Accounts_GetCode (st.s_Accounts (w_state w)) a) < 2 ^ 63;
  fr_calls f : In f (st.Future (st.s_CallJournal (w_state w))) -> 0 <= st.fc_GasCosts f;
  fr_cache : sha3_wf Keccak256 Keccak256For32byte (w_sha3Cache w)
}.

#[local] Instance frame_host s static :
  HostFrame (RC := ctRunContext_instance Keccak256) (G := ctGlobals) Keccak256 Keccak256For32byte
    static MaxInt64 (frame s).
Proof.
  split.
  - intros w a []. by constructor.
  - intros w a k []. by constructor.
  - intros w a k v _ []. by constructor.
  - intros w a k v _ []. by constructor.
  - intros w l _ []. by constructor.
  - intros w a b _ []. cbn. unfold ctx_SelfDestruct. destruct (_ || _); [destruct (st.s_HasSelfDestructed _)|]; by constructor.
  - intros w kind p _ [] Hg _. cbn -[st.CallJournal_Call]. unfold ctx_Call, st.CallJournal_Call.
    assert (forall f, 0 <= st.fc_GasCosts f -> 0 <= (if cp_Gas p <? st.fc_GasCosts f then 0
      else cp_Gas p -i64 st.fc_GasCosts f) <= cp_Gas p) as HH.
    { intros f H. case_if; [lia|]. unfold MaxInt64 in *. rewrite i64_id by (unfold isI64; lia). lia. }
    destruct (st.Future _) as [|f fs] eqn:Ef; split; cbn [fst snd cr_GasLeft].
    + by constructor.
    + by apply HH.
    + constructor; cbn; try done. intros g Hin. apply fr_calls0. by right.
    + apply HH, fr_calls0. by left.
  - intros w a []. apply fr_codes0.
  - intros w data []. destruct (sha3_hash_some Keccak256 Keccak256For32byte _ data fr_cache0) as (cache & Hc & Hw).
    eexists _, _. split; [exact Hc|]. by constructor.
Qed.

Lemma step_failed s c config cache stk mm : valid s -> sha3_wf Keccak256 Keccak256For32byte cache ->
  st.s_Pc s < zlen (ct_code s) ->
  c = ctContext Keccak256 config (findJumpDestinations (ct_code s)) s cache stk mm ->
  stack_wf stk -> stack_view stk = ct_stack s -> mem_wf mm -> m_store mm = st.s_Memory s ->
  wp step_ (fun _ _ => True) (failed (frame s)) c.
Proof.
  intros Hv Hcache Hpc Hc Hs Hsv Hm Hmm. pose proof Hv as [].
  pose proof Hm as (w & Hw & Hb & Hcost). destruct (memoryCost_exact w Hb) as [_ Hmc]. rewrite <-Hcost in Hmc.
  set (c0 := set_gas (st.s_Gas s + m_currentMemoryCost mm) c).
  unfold st.MaxGasUsedByCt, st.MaxCodeSize in *.
  eapply wp_mono; [eapply (wp_step_ok _ _ (frame s) c0 MaxInt64)|done|done].
  - subst c. cbn. unfold MaxInt64. lia.
  - apply frame_host.
  - subst c. split_and!; cbn; [|done|done]. change (st.Code_Copy (st.s_Code s)) with (ct_code s). lia.
  - subst c. constructor; cbn; try done; [unfold MaxInt64; lia..|lia|]. constructor; cbn; try done. intros f Hf. by apply valid_calls.
  - subst c. cbn. change (st.Code_Copy (st.s_Code s)) with (ct_code s). lia.
Qed.

(** ** The result of a step *)

Lemma wp_and {W A} (m : M W A) Q1 Q2 E1 E2 c : wp m Q1 E1 c -> wp m Q2 E2 c ->
  wp m (fun a c => Q1 a c /\ Q2 a c) (fun c => E1 c /\ E2 c) c.
Proof. unfold wp. by destruct (m c) as [[] c']. Qed.

Lemma updateState_agrees s s' status c : valid s -> agrees s s' status c ->
  exists result, updateState status c = Some result /\ st.State_Eq Keccak256 result s' = true.
Proof.
  intros Hv (ws & cache & stk & Hc & Hws & Hrd & Hwf & H). unfold updateState. rewrite Hc. cbn [w_state w_panicked].
  destruct (convertSfvmStack_ok (c_stack c) (st.s_Stack s) Hwf (valid_capacity s Hv)) as (r & Hr & Hst).
  assert (forall X (f : st.Stack -> X), (stack ← convertSfvmStackToCtStack (c_stack c) (st.s_Stack ws); Some (f stack)) = Some (f r)) as HS
    by (intros; by rewrite Hws, Hr).
  destruct status; try done; cbn [st.s_Stack st.set_Status st.set_Pc st.set_Gas st.set_GasRefund];
    rewrite HS; eexists; (split; [reflexivity|]); apply State_Eq_spec.
  - destruct H as (Hpc & Hs & ->). split; [done|]. cbn. unfold u16. rewrite wrapU_id by lia.
    split; [by constructor|]. split; [by left|]. split_and!; [congruence|done..].
  - destruct H as (pc & m & d & ->). split; [done|]. split; [by constructor|done].
  - destruct H as (pc & m & d & ->). split; [done|]. split; [by constructor|done].
  - destruct H as (pc & m & d & ->). split; [done|]. split; [by constructor|done].
  - destruct H as (pc & m & d & ->). split; [done|]. split; [by constructor|done].
Qed.

Lemma execute_conforms s c config cache stk mm effect : valid s -> sha3_wf Keccak256 Keccak256For32byte cache ->
  sha_ok Keccak256 Keccak256For32byte (WithShaCache config) cache ->
  c = ctContext Keccak256 config (findJumpDestinations (ct_code s)) s cache stk mm ->
  stack_wf stk -> stack_view stk = ct_stack s -> mem_wf mm -> m_store mm = st.s_Memory s ->
  conforms Keccak256 Keccak256For32byte s effect ->
  exists status c' result expected,
    execute (RC := ctRunContext_instance Keccak256) (G := ctGlobals) Keccak256 Keccak256For32byte 1 true c = Some (Ok status, c')
    /\ updateState status c' = Some result /\ effect s = Some expected
    /\ st.State_Eq Keccak256 result expected = true.
Proof.
  intros Hv Hcache Hsha Hc Hs Hsv Hm Hmm Hconf. destruct (Hconf c) as (s' & He & HA); [by exists config, cache, stk, mm|].
  unfold execute. cbn [steps]. replace (c_pc c) with (st.s_Pc s) by (by subst c).
  replace (c_code c) with (ct_code s) by (by subst c).
  destruct (Z.geb_spec (st.s_Pc s) (zlen (ct_code s))) as [Hpc|Hpc].
  { destruct (updateState_agrees _ _ _ _ Hv HA) as (result & Hu & Heq). eexists _, _, _, _. done. }
  pose proof (wp_and _ _ _ _ _ _ HA (step_failed s c config cache stk mm Hv Hcache Hpc Hc Hs Hsv Hm Hmm)) as HW.
  unfold wp in HW. destruct (step_ c) as [[status|e|] c']; [| |done].
  - destruct HW as [HA' _]. destruct (updateState_agrees _ _ _ _ Hv HA') as (result & Hu & Heq). eexists _, _, _, _. done.
  - destruct HW as [Hfail [[] Hwf]]. exists statusFailed, c'.
    destruct (convertSfvmStack_ok (c_stack c') (st.s_Stack s) Hwf (valid_capacity s Hv)) as (r & Hr & _).
    eexists _, s'. split; [done|]. split; [|split; [done|]].
    + unfold updateState. cbn [st.s_Stack st.set_Status st.set_Gas st.set_GasRefund]. rewrite fr_stack0, Hr, fr_panicked0. reflexivity.
    + apply State_Eq_spec. split; [by rewrite Hfail|done].
Qed.

(** ** States that are not running *)

(** A condition that asks for a running state. *)
Definition asksRunning (c : Condition) : bool :=
  match c with
  | cEq eStatus st.Running => true
  | _ => false
  end.

Definition onlyRunning (r : Rule) : bool :=
  match r_Condition r with cConjunction cs => existsb asksRunning cs | c => asksRunning c end.

Lemma asksRunning_spec c s : asksRunning c = true -> applies c s = true -> st.s_Status s = st.Running.
Proof.
  destruct c; try done. destruct lhs; try done. cbn [asksRunning]. destruct rhs; try done.
  rewrite applies_status. intros _. by apply bool_decide_eq_true.
Qed.

Lemma onlyRunning_spec r s : onlyRunning r = true -> applies (r_Condition r) s = true -> st.s_Status s = st.Running.
Proof.
  unfold onlyRunning. destruct (r_Condition r); intros Hr Ha; try by eapply asksRunning_spec.
  apply existsb_exists in Hr as (c & Hin & Hc). rewrite applies_conjunction, forallb_forall in Ha.
  eapply asksRunning_spec; [exact Hc|]. by apply Ha.
Qed.

Lemma rules_onlyRunning r : In r (getAllRules Keccak256) -> onlyRunning r = true \/ In r terminalRules \/ In r errorRules.
Proof.
  unfold getAllRules. rewrite (in_app_iff terminalRules), (in_app_iff invalidRules), (in_app_iff errorRules).
  intros [?|[Hr|[?|Hr]]]; [auto| |auto|]; left; revert r Hr; apply forallb_forall; vm_compute; reflexivity.
Qed.

Lemma terminal_NoEffect r : In r terminalRules -> r_Effect r = NoEffect.
Proof. unfold terminalRules. cbn [In]. intros H. repeat destruct H as [<-|H]; done. Qed.

(** Rules for states that are not running have no effect. *)
Lemma not_running r s : valid s -> In r (getAllRules Keccak256) -> applies (r_Condition r) s = true ->
  st.s_Status s <> st.Running -> r_Effect r s = Some s.
Proof.
  intros Hv Hin Ha Hs. destruct (rules_onlyRunning r Hin) as [H|[H|H]].
  - by apply onlyRunning_spec in Ha.
  - by rewrite terminal_NoEffect.
  - destruct H as [<-|[]]. cbn [r_Condition] in Ha. unfold IsRevision in Ha. rewrite applies_revision in Ha. b2p.
    pose proof (valid_revision s Hv). unfold R99_UnknownNextRevision, NewestSupportedRevision, R15_Osaka in *. lia.
Qed.

(** ** The adapter *)

Section Adapter.
Context {C : Type} {L : LRU jumpDestMap C} {LL : LRULaws L}.
Context (deployed : Code -> Prop).
Context (collision_free : forall c1 c2, deployed c1 -> deployed c2 -> Keccak256 c1 = Keccak256 c2 -> c1 = c2).

(** An interpreter, in any configuration and any state of its caches that a
    process can have brought about. With a cache of hashes the variant of the
    hash for 32 bytes has to be the same function. *)
Record test_vm (vm : sfvm C) (cache : sha3HashCache) : Prop := {
  tv_analysis : cache_coherent Keccak256 deployed (vm_analysis vm);
  tv_sha3 : sha3_wf Keccak256 Keccak256For32byte cache;
  tv_hash : WithShaCache (vm_config vm) = true -> forall a, Keccak256For32byte a = Keccak256 (arr_bytes a)
}.

Lemma StepN_conforms vm cache garbage s r : test_vm vm cache -> zlen garbage = maxStackSize ->
  valid s -> deployed (ct_code s) -> In r (getAllRules Keccak256) -> applies (r_Condition r) s = true ->
  exists result expected,
    StepN Keccak256 Keccak256For32byte vm cache garbage s 1 = Some (result, None)
    /\ r_Effect r s = Some expected /\ st.State_Eq Keccak256 result expected = true.
Proof.
  intros [Han Hsha Hlaw] Hg Hv Hd Hin Ha. unfold StepN. cbn [p_Block bp_Revision ToVmParameters].
  rewrite Z.gtb_ltb, (proj2 (Z.ltb_ge _ _)) by (destruct Hv; unfold NewestSupportedRevision, newestSupportedRevision in *; lia).
  destruct (decide (st.s_Status s = st.Running)) as [Hr|Hr].
  2: { rewrite bool_decide_eq_false_2 by done. exists s, s. split; [done|]. split; [by apply (not_running r)|].
       apply State_Eq_spec, state_equiv_equivalence. }
  rewrite bool_decide_eq_true_2 by done. cbn [negb].
  destruct (convertCtMemory_ok (st.s_Memory s) (valid_memory s Hv)) as (mm & -> & Hm & Hmm). cbn [mbind option_bind].
  destruct (convertCtStack_ok garbage (st.s_Stack s) Hg) as (stk & -> & Hs & Hsv);
    [destruct Hv; unfold st.MaxStackSize, maxStackSize in *; lia|]. cbn [mbind option_bind p_Code p_CodeHash].
  change (st.Code_Copy (st.s_Code s)) with (ct_code s).
  destruct (analyzeJumpDest_coherent Keccak256 deployed collision_free (vm_analysis vm) (ct_code s)
    (Some (Keccak256 (ct_code s))) Han Hd ltac:(by right)) as [Hj _].
  change (st.Code_Hash Keccak256 (st.s_Code s)) with (Keccak256 (ct_code s)).
  destruct (analyzeJumpDest _ _ _) as [a jd]. cbn [snd] in Hj. subst jd.
  pose proof getAllRules_conform as HR. rewrite List.Forall_forall in HR.
  destruct (execute_conforms s _ (vm_config vm) cache stk mm (r_Effect r) Hv Hsha (fun E => conj Hsha (Hlaw E)) eq_refl Hs Hsv Hm Hmm (HR r Hin s Hv Hr Ha))
    as (status & c' & result & expected & Hex & Hu & He & Heq).
  exists result, expected. split; [|done]. cbn [StepN_loop]. rewrite Hex.
  cbn [mbind option_bind]. destruct status; cbn [mbind option_bind]; by rewrite Hu.
Qed.

End Adapter.
End Conformance.
