(* ===== verification/CtRunTest.v ===== *)
(** * The tests pass

    [runTest] runs an effect and the interpreter on two clones of a state,
    whose stacks come from a pool and hold different words beyond their tops.
    The effects and conditions of the rules do not depend on these words, and
    so every test of [sfvm] on a valid state passes. *)
From Stdlib Require Import ZArith Lia Strings.Byte Eqdep.
From stdpp Require Import base list numbers gmap.
From S2P Require Import Prelude Uint256 Types OpCodes SfvmStack SfvmAnalysis SfvmHashCache SfvmContext SfvmMemory.
From S2P Require Import SfvmGas SfvmInstructions SfvmInterpreter SfvmLogic SfvmSafety SfvmExecution CtSlices CtCommon CtState.
From S2P Require Import CtRules CtEffects CtSpec CtAdapter CtStateFacts CtExec CtSim CtConform CtConformance.
Set Default Goal Selector "!".
Local Open Scope Z_scope.
Local Open Scope go_scope.

(** ** States that differ beyond the top of the stack *)

Definition like (s t : st.State) : Prop :=
  exists stk, st.stack stk = st.stack (st.s_Stack s) /\ t = st.set_Stack stk s.

(** A computation that does not see, and does not produce, such a difference. *)
Definition oblivious {A} (m : E A) : Prop := forall s t, like s t ->
  match m s, m t with
  | Some (a, s'), Some (b, t') => a = b /\ like s' t'
  | None, None => True
  | _, _ => False
  end.

Lemma obl_ret {A} (a : A) : oblivious (mret a).
Proof. by intros s t H. Qed.

Lemma obl_bind {A B} (m : E A) (f : A -> E B) : oblivious m -> (forall a, oblivious (f a)) ->
  oblivious (mbind f m).
Proof.
  intros Hm Hf s t H. specialize (Hm s t H). unfold mbind, E_bind.
  destruct (m s) as [[a s']|], (m t) as [[b t']|]; try done. destruct Hm as [-> H']. by apply Hf.
Qed.

Lemma obl_getS {A} (f : st.State -> A) : (forall s stk, f (st.set_Stack stk s) = f s) -> oblivious (getS f).
Proof. intros Hf s t (stk & Hs & ->). split; [by rewrite Hf|by exists stk]. Qed.

Lemma obl_setS f : (forall s stk, f (st.set_Stack stk s) = st.set_Stack stk (f s)) ->
  (forall s, st.s_Stack (f s) = st.s_Stack s) -> oblivious (setS f).
Proof.
  intros Hf Hs s t (stk & Hk & ->). split; [done|]. exists stk. by rewrite Hs, Hf.
Qed.

Lemma obl_liftE {A} (o : option A) : oblivious (liftE o).
Proof. intros s t H. unfold liftE. by destruct o. Qed.

Lemma obl_if {A} (b : bool) (m1 m2 : E A) : oblivious m1 -> oblivious m2 -> oblivious (if b then m1 else m2).
Proof. by destruct b. Qed.

(** The access to the stack. *)
Lemma obl_pop : oblivious s_pop.
Proof.
  intros s t (stk & Hk & ->). unfold s_pop, mbind, E_bind, getS, liftE, setS, mret, E_ret, st.Stack_Pop, st.Stack_Get,
    st.Stack_reslice, st.Stack_Size. cbn [st.s_Stack st.set_Stack]. rewrite Hk. set (l := st.stack (st.s_Stack s)).
  destruct (if 0 <=? _ then _ else _) as [v|] eqn:Ev; cbn [mbind option_bind]; [|done].
  assert (0 < zlen l) as Hl.
  { destruct (Z.leb_spec 0 (zlen l - 0 - 1)); [lia|done]. }
  rewrite !(proj2 (Z.leb_le 0 _)) by lia. cbn [andb].
  rewrite !(proj2 (Z.leb_le (zlen l - 1) _)) by (rewrite zlen_app; pose proof (zlen_nonneg (st.spare stk)); pose proof (zlen_nonneg (st.spare (st.s_Stack s))); lia).
  cbn [mbind option_bind]. split; [done|]. eexists. split; [|rewrite !set_Stack_twice; reflexivity].
  cbn [st.stack st.s_Stack st.set_Stack]. rewrite !take_app_le by (unfold zlen in *; lia). done.
Qed.

Lemma obl_push v : oblivious (s_push v).
Proof.
  intros s t (stk & Hk & ->). unfold s_push, mbind, E_bind, getS, setS. split; [done|].
  eexists. split; [|rewrite !set_Stack_twice; reflexivity]. cbn. by rewrite Hk.
Qed.

Lemma obl_get i : oblivious (s_get i).
Proof.
  intros s t (stk & Hk & ->). unfold s_get, mbind, E_bind, getS, liftE, st.Stack_Get, st.Stack_Size. cbn [st.s_Stack st.set_Stack].
  rewrite Hk. destruct (0 <=? _); [|done]. destruct (_ !! _); [|done]. split; [done|]. by exists stk.
Qed.

Lemma obl_set i v : oblivious (s_set i v).
Proof.
  intros s t (stk & Hk & ->). unfold s_set, mbind, E_bind, getS, liftE, setS, st.Stack_Set, st.Stack_Size.
  cbn [st.s_Stack st.set_Stack]. rewrite Hk. destruct (_ && _); [|done]. split; [done|].
  eexists. split; [|rewrite !set_Stack_twice; reflexivity]. done.
Qed.

Lemma obl_popN n : oblivious (s_popN n).
Proof.
  induction n as [|n IH]; cbn [s_popN]; [apply obl_ret|].
  apply obl_bind; [apply obl_pop|intros x]. apply obl_bind; [done|intros xs]. apply obl_ret.
Qed.

(** Proves that a computation is oblivious, unfolding it as needed. *)
Ltac head_of t := lazymatch t with ?f _ => head_of f | _ => t end.

Ltac obl :=
  repeat lazymatch goal with
  | |- oblivious (mbind _ _) => apply obl_bind; [|intros ?]
  | |- oblivious (mret _) => apply obl_ret
  | |- oblivious (getS _) => apply obl_getS; reflexivity
  | |- oblivious (setS _) => apply obl_setS; reflexivity
  | |- oblivious (liftE _) => apply obl_liftE
  | |- oblivious s_pop => apply obl_pop
  | |- oblivious (s_push _) => apply obl_push
  | |- oblivious (s_get _) => apply obl_get
  | |- oblivious (s_set _ _) => apply obl_set
  | |- oblivious (s_popN _) => apply obl_popN
  | |- oblivious (if _ then _ else _) => apply obl_if
  | |- oblivious (let _ := _ in _) => cbv zeta
  | |- oblivious (match ?p with pair _ _ => _ end) => destruct p
  | |- oblivious ?m => first [assumption | let h := head_of m in progress unfold h]
  end.

Definition oblivious_effect (e : Effect) : Prop := forall s t, like s t ->
  match e s, e t with
  | Some s', Some t' => like s' t'
  | None, None => True
  | _, _ => False
  end.

Lemma obl_effect_of m : oblivious m -> oblivious_effect (effect_of m).
Proof.
  intros Hm s t H. specialize (Hm s t H). unfold effect_of.
  destruct (m s) as [[a s']|], (m t) as [[b t']|]; try done. by destruct Hm.
Qed.

Lemma obl_NoEffect : oblivious_effect NoEffect.
Proof. by intros s t H. Qed.

Lemma obl_FailEffect : oblivious_effect FailEffect.
Proof. intros s t (stk & Hk & ->). by exists stk. Qed.

Section Rules.
Context {U : Uint256} (Keccak256 : list byte -> Hash).

Lemma rulesFor_oblivious i : oblivious_effect (i_effect i) ->
  Forall (fun r => oblivious_effect (r_Effect r)) (rulesFor i).
Proof.
  intros Hi. unfold rulesFor. rewrite !List.Forall_app.
  split_and!; try (case_if; [|constructor]); (constructor; [|constructor]); try apply obl_FailEffect.
  intros s t (stk & Hk & ->). cbn [r_Effect]. apply (Hi _ _). by exists stk.
Qed.

(** Takes a list of rules apart. *)
Ltac obl_effect :=
  lazymatch goal with
  | |- oblivious_effect NoEffect => apply obl_NoEffect
  | |- oblivious_effect FailEffect => apply obl_FailEffect
  | |- oblivious_effect (effect_of _) => apply obl_effect_of; obl
  | |- oblivious_effect (if _ then _ else _) => case_if; obl_effect
  | |- oblivious_effect ((if ?b then _ else _) _ _) => destruct b; obl_effect
  | |- oblivious_effect (r_Effect (invalidRevisionRule _ _ _)) => apply obl_FailEffect
  | |- oblivious_effect ?e => let h := head_of e in progress unfold h; cbv beta; obl_effect
  end.

Ltac obl_rules :=
  repeat lazymatch goal with
  | |- Forall _ (_ ++ _) => apply List.Forall_app; split
  | |- Forall _ (flat_map _ _) => apply List.Forall_flat_map, List.Forall_forall; intros ? _
  | |- Forall _ [] => constructor
  | |- Forall _ (_ :: _) => constructor
  | |- Forall _ (rulesFor _) => apply rulesFor_oblivious; cbn [i_effect]
  | |- Forall _ (if _ then _ else _) => case_if
  | |- Forall _ (let _ := _ in _) => cbv zeta
  | |- Forall _ (match ?p with pair _ _ => _ end) => destruct p
  | |- Forall _ ?l => let h := head_of l in progress unfold h
  | |- oblivious_effect _ => obl_effect
  | |- _ => progress (cbn [r_Effect]; cbv beta)
  end.

Lemma getAllRules_oblivious : Forall (fun r => oblivious_effect (r_Effect r)) (getAllRules Keccak256).
Proof.
  unfold getAllRules. rewrite !List.Forall_app. split_and!; obl_rules.
Qed.

(** ** Conditions *)

Lemma Eval_like {T} (e : Expression T) s t : like s t -> Eval e s = Eval e t.
Proof.
  intros (stk & Hk & ->). induction e; cbn [Eval]; try done.
  - by rewrite IHe.
  - by rewrite IHe.
  - unfold stackSize_Eval, st.Stack_Size. cbn. by rewrite Hk.
  - unfold param_Eval, st.Stack_Get, st.Stack_Size. cbn [st.s_Stack st.set_Stack]. by rewrite Hk.
  - by rewrite IHe.
Qed.

Lemma Condition_Check_like s t : like s t -> forall c, Condition_Check c s = Condition_Check c t.
Proof.
  intros H. pose proof (fun T (e : Expression T) => Eval_like e s t H) as HE. destruct H as (stk & Hk & ->).
  fix IH 1. intros [cs|T e v|T e v|T e v|T e v|T e v|T e v|min max|e|e|e|e|cfg e e'|e|e|e|e|e|e| | | | |e|e|e|e|e d].
  1: { cbn [Condition_Check]. unfold conjunction_Check. induction cs as [|c cs IHcs]; [reflexivity|]. rewrite (IH c), IHcs. reflexivity. }
  all: cbn [Condition_Check]; unfold bindTransientStorageToZero_Check, accountIsNotEmpty_Check, isAddressCold_Check,
    isNotNewContract_Check, outOfRange256FromCurrentBlock_Check, hasNoBlobHash_Check; unfold eq_Check, ne_Check,
    lt_Check, le_Check, gt_Check, ge_Check, isCode_Check, isData_Check, isStorageWarm_Check, isStorageCold_Check,
    storageConfiguration_Check, bindTransientStorageToNonZero_Check, accountIsEmpty_Check, isAddressWarm_Check,
    inRange256FromCurrentBlock_Check, hasBlobHash_Check, containsDelegationDesignation_Check; rewrite ?HE; reflexivity.
Qed.

Lemma applies_like c s t : like s t -> applies c s = applies c t.
Proof. intros H. unfold applies. by rewrite (Condition_Check_like _ _ H). Qed.

(** ** Clones *)

Lemma Logs_Clone_id l : st.Logs_Clone l = l.
Proof.
  unfold st.Logs_Clone. assert (forall acc, st.Logs_Clone_loop l acc = acc ++ l) as H; [|apply (H [])].
  induction l as [|[a b] l IH]; intros acc; cbn; [by rewrite app_nil_r|]. rewrite IH. unfold st.Logs_AddLog.
  by rewrite <-app_assoc.
Qed.

(** A pooled stack can hold any stack. *)
Definition pooled (p : st.Stack) : Prop := st.MaxStackSize <= zlen (st.stack p ++ st.spare p).

Lemma State_Clone_ok p s : pooled p -> valid s -> exists t, st.State_Clone p s = Some t /\ like s t /\ valid t.
Proof.
  intros Hp Hv. pose proof (valid_stack s Hv) as Hs. unfold pooled in Hp. unfold st.State_Clone, st.Stack_Clone, st.Stack_reslice.
  rewrite (proj2 (Z.ltb_ge _ _)) by lia. pose proof (zlen_nonneg (st.stack (st.s_Stack s))) as Hn. unfold st.Stack_Size in *.
  rewrite (proj2 (Z.leb_le 0 _)), (proj2 (Z.leb_le _ (zlen _))) by lia. cbn [andb mbind option_bind st.stack st.spare].
  rewrite Logs_Clone_id. set (l := st.stack p ++ st.spare p) in *. set (n := zlen (st.stack (st.s_Stack s))) in *.
  assert (go_copy (take (Z.to_nat n) l) (st.stack (st.s_Stack s)) = st.stack (st.s_Stack s)) as Hcopy.
  { apply go_copy_same. rewrite length_take. unfold n, zlen in *. lia. }
  rewrite Hcopy. eexists. split; [reflexivity|]. split.
  - eexists. split; [|by instantiate (1 := st.mkStack (st.stack (st.s_Stack s)) (drop (Z.to_nat n) l))]. done.
  - destruct Hv. constructor; try done. cbn. rewrite zlen_app. unfold zlen in *. rewrite length_drop. lia.
Qed.

Lemma like_trans s t1 t2 : like s t1 -> like s t2 -> like t1 t2.
Proof. intros (k1 & H1 & ->) (k2 & H2 & ->). exists k2. cbn. split; [congruence|done]. Qed.

Lemma like_Eq s t : like s t -> state_equiv s t.
Proof.
  intros (stk & Hk & ->). split; [done|]. cbn. destruct (st.s_Status s); try done.
  split; [by constructor|]. split; [by left|]. split_and!; done.
Qed.

(** Positions marked as code are within the code. *)
Lemma NewCode_loop_inside code fuel : forall i acc, zlen acc = i ->
  (forall j, acc !! j = Some true -> (j < length code)%nat) ->
  forall j, st.NewCode_loop fuel code i acc !! j = Some true -> (j < length code)%nat.
Proof.
  induction fuel as [|fuel IH]; intros i acc Hi Hacc; cbn [st.NewCode_loop]; [done|].
  destruct (code !! Z.to_nat i) as [op|] eqn:Ho; [|done]. apply lookup_lt_Some in Ho.
  assert (forall k j, ((acc ++ [true]) ++ replicate k false) !! j = Some true -> (j < length code)%nat) as Hk.
  { intros k j. rewrite <-app_assoc. intros H. apply lookup_app_Some in H as [H|[Hj H]]; [by apply Hacc|].
    apply lookup_app_Some in H as [H|[Hj' H]].
    - apply lookup_lt_Some in H. cbn in H. unfold zlen in Hi. lia.
    - by apply lookup_replicate in H as [H _]. }
  destruct (op_in PUSH1 PUSH32 op) eqn:Hp.
  - apply IH; [|apply Hk]. destruct (Width_push op Hp) as [? ?]; pose proof (Width_range op). rewrite !zlen_app, (zlen_cons true []).
    unfold zlen in *. rewrite length_replicate. cbn [length]. lia.
  - apply IH; [rewrite zlen_app; unfold zlen in *; cbn; lia|]. intros j. specialize (Hk 0%nat j). by rewrite app_nil_r in Hk.
Qed.

Lemma GetOperation_some code pos : 0 <= pos ->
  exists op err, st.Code_GetOperation (st.NewCode code) pos = Some (op, err).
Proof.
  intros Hp. unfold st.Code_GetOperation. destruct (_ || _) eqn:E; [eauto|]. destruct (st.Code_IsCode _ pos) eqn:Ec; [|eauto].
  cbn [negb]. unfold st.Code_IsCode in Ec. rewrite E in Ec. cbn [st.code st.NewCode st.isCode] in *.
  destruct (st.NewCode_loop _ _ _ _ !! _) as [b|] eqn:Eb; cbn in Ec; [|done]. subst b.
  apply NewCode_loop_inside in Eb; [|done|done]. destruct (lookup_lt_is_Some_2 code (Z.to_nat pos) Eb) as [x ->]. eauto.
Qed.

Lemma GetRulesFor_some rules s : valid s -> exists rs, GetRulesFor rules s = Some rs
  /\ forall r, In r rs -> In r rules /\ applies (r_Condition r) s = true.
Proof.
  intros Hv. unfold GetRulesFor.
  assert (exists op err, st.Code_GetOperation (st.s_Code s) (st.s_Pc s) = Some (op, err)) as (op & err & ->).
  { rewrite (valid_code _ Hv). apply GetOperation_some, Hv. }
  eexists. split; [done|]. intros r [Hr Ha]%List.filter_In. split; [|done]. unfold rules_of in Hr. by apply List.filter_In in Hr as [? _].
Qed.

End Rules.

Section Tests.
Context {U : Uint256} {UL : Uint256Laws U}.
Context (Keccak256 : list byte -> Hash).

(** An interpreter that conforms to the rules on the clones of a state passes
    the test of the state. *)
Lemma runTest_conforming (step : st.State -> option (st.State * option error)) pool1 pool2 s :
  pooled pool1 -> pooled pool2 -> valid s ->
  (forall t r, like s t -> valid t -> In r (getAllRules Keccak256) -> applies (r_Condition r) t = true ->
     exists result expected, step t = Some (result, None) /\ r_Effect r t = Some expected
       /\ st.State_Eq Keccak256 result expected = true) ->
  exists applicable, GetRulesFor (getAllRules Keccak256) s = Some applicable /\
    runTest Keccak256 (getAllRules Keccak256) step pool1 pool2 s
    = Some (match applicable with [] => TestNoRule | _ :: _ => TestPassed end).
Proof.
  intros Hp1 Hp2 Hv Hconf. destruct (GetRulesFor_some (getAllRules Keccak256) s Hv) as (rs & Hrs & Hin).
  exists rs. split; [done|]. unfold runTest. rewrite Hrs. cbn [mbind option_bind]. destruct rs as [|r rs]; [done|].
  destruct (Hin r ltac:(by left)) as [Hr Ha].
  destruct (State_Clone_ok pool1 s Hp1 Hv) as (t1 & -> & Hl1 & Hv1).
  destruct (State_Clone_ok pool2 s Hp2 Hv) as (t2 & Ht2 & Hl2 & Hv2). cbn [mbind option_bind].
  pose proof (getAllRules_oblivious Keccak256) as HO. rewrite List.Forall_forall in HO.
  pose proof (HO r Hr t2 t1 (like_trans _ _ _ Hl2 Hl1)) as Hlike.
  destruct (Hconf t2 r Hl2 Hv2 Hr) as (result & expected & Hstep & He & Heq); [by rewrite <-(applies_like _ s)|].
  rewrite He in Hlike. destruct (r_Effect r t1) as [e1|]; [|done]. cbn [mbind option_bind]. rewrite Ht2. cbn [mbind option_bind].
  rewrite Hstep. cbn [mbind option_bind].
  assert (st.State_Eq Keccak256 result e1 = true) as ->; [|done]. rewrite State_Eq_spec in *.
  destruct state_equiv_equivalence as [_ _ Htr]. eapply Htr; [exact Heq|by apply like_Eq].
Qed.

Lemma runTest_ok {C} {L : LRU jumpDestMap C} {LL : LRULaws L} (Keccak256For32byte : array 32 -> Hash)
    (deployed : Code -> Prop) (vm : sfvm C) cache garbage pool1 pool2 s :
  (forall c1 c2, deployed c1 -> deployed c2 -> Keccak256 c1 = Keccak256 c2 -> c1 = c2) ->
  test_vm Keccak256 Keccak256For32byte deployed vm cache -> zlen garbage = maxStackSize ->
  pooled pool1 -> pooled pool2 -> valid s -> deployed (ct_code s) ->
  let rules := getAllRules Keccak256 in
  let step t := StepN Keccak256 Keccak256For32byte vm cache garbage t 1 in
  exists applicable, GetRulesFor rules s = Some applicable /\
    runTest Keccak256 rules step pool1 pool2 s
    = Some (match applicable with [] => TestNoRule | _ :: _ => TestPassed end).
Proof.
  intros Hinj Hvm Hg Hp1 Hp2 Hv Hd rules step. apply runTest_conforming; [done..|].
  intros t r (stk & _ & ->) Hvt Hr Ha. by apply (StepN_conforms Keccak256 Keccak256For32byte deployed).
Qed.

End Tests.

(** ** Any number of steps under the adapter

    Whether or not a rule of the specification applies: any number of steps of
    [sfvm] under the adapter of the tests ends, without a panic of the
    interpreter, of the conversions or of the run context, in a well-formed
    state in which nothing has changed but what a contract can change. *)

(** What a read-only execution does not change. *)
Record unwritten (s t : st.State) : Prop := {
  uw_current : st.current (st.s_Storage t) = st.current (st.s_Storage s);
  uw_transient : st.s_TransientStorage t = st.s_TransientStorage s;
  uw_logs : st.s_Logs t = st.s_Logs s;
  uw_destructed : st.s_HasSelfDestructed t = st.s_HasSelfDestructed s;
  uw_journal : st.s_SelfDestructedJournal t = st.s_SelfDestructedJournal s
}.

(** What no execution changes, and what executions only add to. *)
Record stable (s t : st.State) : Prop := {
  sb_revision : st.s_Revision t = st.s_Revision s;
  sb_readOnly : st.s_ReadOnly t = st.s_ReadOnly s;
  sb_code : st.s_Code t = st.s_Code s;
  sb_call : st.s_CallContext t = st.s_CallContext s;
  sb_block : st.s_BlockContext t = st.s_BlockContext s;
  sb_input : st.s_CallData t = st.s_CallData s;
  sb_new : st.s_IsNewContract t = st.s_IsNewContract s;
  sb_hashes : st.s_RecentBlockHashes t = st.s_RecentBlockHashes s;
  sb_transaction : st.s_TransactionContext t = st.s_TransactionContext s;
  sb_accounts : st.accounts (st.s_Accounts t) = st.accounts (st.s_Accounts s);
  sb_original : st.original (st.s_Storage t) = st.original (st.s_Storage s);
  sb_warm a : st.Accounts_IsWarm (st.s_Accounts s) a = true -> st.Accounts_IsWarm (st.s_Accounts t) a = true;
  sb_warmKey k : st.Storage_IsWarm (st.s_Storage s) k = true -> st.Storage_IsWarm (st.s_Storage t) k = true;
  sb_logs : st.s_Logs s `prefix_of` st.s_Logs t;
  sb_past : st.Past (st.s_CallJournal s) `prefix_of` st.Past (st.s_CallJournal t);
  sb_future : st.Future (st.s_CallJournal t) `suffix_of` st.Future (st.s_CallJournal s);
  sb_static : st.s_ReadOnly s = true -> unwritten s t
}.

Lemma stable_refl s : stable s s.
Proof. by constructor. Qed.

Section Steps.
Context {U : Uint256} {UL : Uint256Laws U}.
Context (Keccak256 : list byte -> Hash) (Keccak256For32byte : array 32 -> Hash).
Abbreviation step_ := (step (RC := ctRunContext_instance Keccak256) (G := ctGlobals)
  Keccak256 Keccak256For32byte).

Definition framed (s : st.State) (w : ctRunContext) : Prop :=
  frame Keccak256 Keccak256For32byte s w /\ stable s (w_state w) /\ st.s_Pc (w_state w) = st.s_Pc s.

(** A write, which read-only executions do not make. *)
Ltac by_write := intros []; constructor; cbn; first [done|congruence|idtac].

#[local] Instance framed_host s :
  HostFrame (RC := ctRunContext_instance Keccak256) (G := ctGlobals) Keccak256 Keccak256For32byte
    (st.s_ReadOnly s) MaxInt64 (framed s).
Proof.
  pose proof (frame_host Keccak256 Keccak256For32byte s (st.s_ReadOnly s)) as [].
  split.
  - intros w a [HF [HS Hpc]]. split; [by apply hf_AccessAccount|split; [|done]]. destruct HS. constructor; cbn; try done.
    + intros b Hb. specialize (sb_warm0 b Hb). unfold st.Accounts_IsWarm in *. cbn. rewrite bool_decide_eq_true in *.
      by apply elem_of_union_r.
    + intros Hr. by destruct (sb_static0 Hr).
  - intros w a k [HF [HS Hpc]]. split; [by apply hf_AccessStorage|split; [|done]]. destruct HS. constructor; cbn; try done.
    + intros b Hb. specialize (sb_warmKey0 b Hb). unfold st.Storage_IsWarm, st.Storage_MarkWarm in *. cbn.
      destruct (decide (word_of k = b)) as [<-|]; [by rewrite lookup_insert_eq|by rewrite lookup_insert_ne].
    + intros Hr. by destruct (sb_static0 Hr).
  - intros w a k v Hro [HF [HS Hpc]]. split; [by apply hf_SetStorage|split; [|done]]. revert HS. by_write.
  - intros w a k v Hro [HF [HS Hpc]]. split; [by apply hf_SetTransientStorage|split; [|done]]. revert HS. by_write.
  - intros w l Hro [HF [HS Hpc]]. split; [by apply hf_EmitLog|split; [|done]]. revert HS. by_write. by apply prefix_app_r.
  - intros w a b Hro [HF [HS Hpc]]. split; [by apply hf_SelfDestruct|]. revert HS. cbn. unfold ctx_SelfDestruct.
    destruct (_ || _); [destruct (st.s_HasSelfDestructed _)|]; intros HS; (split; [|done]); revert HS; by_write.
  - intros w kind p Hk [HF [HS Hpc]] Hg Hi. destruct (hf_Call w kind p Hk HF Hg Hi) as [HF' Hgas]. split; [|done]. split; [done|].
    cbn. unfold ctx_Call, st.CallJournal_Call. destruct HS.
    destruct (st.Future _) as [|f fs] eqn:Ef; (split; [|done]); constructor; cbn; try done; try (by apply prefix_app_r).
    + intros Hr. by destruct (sb_static0 Hr).
    + by eapply suffix_cons_l.
    + intros Hr. by destruct (sb_static0 Hr).
  - intros w a [HF _]. by apply hf_GetCode.
  - intros w data [HF [HS Hpc]]. destruct (hf_sha3Cache w data HF) as (cache & h & Hh & Hw). exists cache, h. done.
Qed.

(** How the loop of [StepN] ends. *)
Definition left_in (s : st.State) (c0 : context ctRunContext) (g : Z) (status : status) (c : context ctRunContext) : Prop :=
  match status with
  | statusFailed => failed (framed s) c
  | _ => exists n pc, ends_in (framed s) c0 n g pc c
  end.

Section Loop.
Context (s : st.State) (c0 : context ctRunContext) (Hstatic : p_Static (c_params c0) = st.s_ReadOnly s)
  (Hmax : c_gas c0 <= MaxInt64) (Hfit : inputs_fit c0).

Lemma execute_left n g pc c : good (framed s) c0 n g pc c -> 0 <= pc -> exists status c',
  execute (RC := ctRunContext_instance Keccak256) (G := ctGlobals) Keccak256 Keccak256For32byte 1 true c
    = Some (Ok status, c')
  /\ match status with
     | statusFailed => failed (framed s) c'
     | _ => exists n' pc', 0 <= pc' /\ ends_in (framed s) c0 n' g pc' c'
     end.
Proof.
  intros H Hp. pose proof (good_max _ _ _ _ _ _ H). unfold execute. cbn [steps].
  rewrite (good_code _ _ _ _ _ _ H), (good_pc _ _ _ _ _ _ H). destruct (Z.geb_spec pc (zlen (c_code c0))).
  { exists statusStopped, c. split; [done|]. exists n, pc. split; [done|]. exists g. split; [lia|done]. }
  assert (HostFrame (RC := ctRunContext_instance Keccak256) (G := ctGlobals) Keccak256 Keccak256For32byte
    (p_Static (c_params c0)) MaxInt64 (framed s)) as HF by (rewrite Hstatic; apply framed_host).
  pose proof (wp_step_ok (HF := HF) Keccak256 Keccak256For32byte (framed s) c0 MaxInt64 Hmax n g pc c Hfit H ltac:(lia)) as Hw.
  unfold wp in Hw. destruct (step_ c) as [[status|e|] c']; [| |done].
  - destruct Hw as (n' & pc' & Hp' & He). exists status, c'. split; [done|].
    assert (ends_in (framed s) c0 n' g pc' c') as He' by (eapply ends_weaken; [exact He|done|destruct status; lia]).
    destruct status; try by eexists _, _. destruct He as (g' & _ & HG).
    split; [apply (good_world _ _ _ _ _ _ HG)|apply (good_stack _ _ _ _ _ _ HG)].
  - by exists statusFailed, c'.
Qed.

Lemma StepN_loop_left k : forall n g pc c, good (framed s) c0 n g pc c -> 0 <= pc -> exists status c',
  StepN_loop Keccak256 Keccak256For32byte k statusRunning c = Some (status, c') /\ left_in s c0 g status c'.
Proof.
  induction k as [|k IH]; intros n g pc c H Hp; cbn [StepN_loop].
  { exists statusRunning, c. split; [done|]. exists n, pc, g. split; [|done]. pose proof (good_max _ _ _ _ _ _ H). lia. }
  destruct (execute_left n g pc c H Hp) as (status & c' & -> & He).
  assert (status = statusRunning \/ status <> statusRunning) as [->|Hs] by (destruct status; auto).
  - destruct He as (n' & pc' & Hp' & g' & Hg' & H'). destruct (IH n' g' pc' c' H' Hp') as (status & c2 & -> & Hl).
    exists status, c2. split; [done|]. destruct status; try done; destruct Hl as (n2 & pc2 & Hl);
      exists n2, pc2; (eapply ends_weaken; [exact Hl|done|lia]).
  - exists status, c'. split; [by destruct k, status|].
    destruct status; try done; destruct He as (n' & pc' & _ & He); by exists n', pc'.
Qed.

End Loop.

(** The state a test on [s] ends in. The words of a failed state's memory, and
    its gas, are of no interest. *)
Record well_formed (s t : st.State) : Prop := {
  wf_stable : stable s t;
  wf_stack : 0 <= st.Stack_Size (st.s_Stack t) <= st.MaxStackSize;
  wf_pc : 0 <= st.s_Pc t < 2 ^ 16;
  wf_gas : st.s_Status t <> st.Failed -> 0 <= st.s_Gas t <= st.s_Gas s;
  wf_memory : st.s_Status t <> st.Failed -> ct_mem (st.s_Memory t)
}.

Lemma updateState_left s c0 g status c : valid s -> g <= st.s_Gas s -> left_in s c0 g status c ->
  exists t, updateState status c = Some t /\ well_formed s t.
Proof.
  intros Hv Hg Hl.
  assert (failed (framed s) c) as [(HF & HS & Hpc) Hwf].
  { destruct status; try done; destruct Hl as (n & pc & g' & _ & HG);
      (split; [apply (good_world _ _ _ _ _ _ HG)|apply (good_stack _ _ _ _ _ _ HG)]). }
  destruct HF as [Hp Hst _ _ _]. pose proof (valid_pc s Hv) as Hpcs.
  destruct (convertSfvmStack_ok (c_stack c) (st.s_Stack s) Hwf (valid_capacity s Hv)) as (r & Hr & Hview).
  assert (0 <= st.Stack_Size r <= st.MaxStackSize) as Hsize.
  { unfold st.Stack_Size. rewrite Hview. unfold zlen. rewrite length_reverse. pose proof (view_length _ Hwf) as Hlen.
    destruct Hwf as [_ ?]. unfold zlen, st_len, st.MaxStackSize, maxStackSize in *. lia. }
  assert (status <> statusFailed -> 0 <= c_gas c <= st.s_Gas s /\ ct_mem (m_store (c_memory c))) as Hgm.
  { intros Hs. assert (exists n pc, ends_in (framed s) c0 n g pc c) as (n & pc & g' & Hg' & HG) by (by destruct status).
    rewrite (good_gas _ _ _ _ _ _ HG). split; [lia|]. destruct (good_mem _ _ _ _ _ _ HG) as (w & ? & ? & _). by exists w. }
  unfold updateState. rewrite Hp.
  destruct status; cbn [st.s_Stack st.set_Status st.set_Pc st.set_Gas st.set_GasRefund]; rewrite Hst, Hr;
    cbn [mbind option_bind]; eexists; (split; [reflexivity|]); constructor; cbn;
    try (destruct HS; constructor; cbn; try done; intros Hro; by destruct (sb_static0 Hro));
    try done; try (rewrite Hpc; done); intros; try (by apply Hgm).
  unfold u16. apply wrapU_range; lia.
Qed.

Lemma StepN_well_formed {C} {L : LRU jumpDestMap C} (vm : sfvm C) cache garbage s n :
  sha3_wf Keccak256 Keccak256For32byte cache -> zlen garbage = maxStackSize -> valid s ->
  exists t, StepN Keccak256 Keccak256For32byte vm cache garbage s n = Some (t, None) /\ well_formed s t.
Proof.
  intros Hsha Hg Hv. pose proof Hv as []. unfold StepN. cbn [p_Block bp_Revision ToVmParameters].
  rewrite Z.gtb_ltb, (proj2 (Z.ltb_ge _ _)) by (unfold NewestSupportedRevision, newestSupportedRevision in *; lia).
  unfold st.MaxGasUsedByCt, st.MaxCodeSize, st.MaxStackSize in *. case_bool_decide; cbn [negb].
  2: { exists s. split; [done|]. constructor; [apply stable_refl| |done|lia|done].
       unfold st.MaxStackSize, st.Stack_Size, zlen in *. lia. }
  destruct (convertCtMemory_ok (st.s_Memory s) valid_memory) as (mm & -> & Hm & Hmm). cbn [mbind option_bind].
  destruct (convertCtStack_ok garbage (st.s_Stack s) Hg) as (stk & -> & Hs & Hsv);
    [unfold maxStackSize; lia|]. cbn [mbind option_bind p_Code p_CodeHash]. destruct (analyzeJumpDest _ _ _) as [a jd].
  set (c := ctContext _ _ _ _ _ _ _). pose proof Hm as (w & Hw & Hb & Hcost).
  destruct (memoryCost_exact w Hb) as [_ Hmc]. rewrite <-Hcost in Hmc.
  set (c0 := set_gas (st.s_Gas s + m_currentMemoryCost mm) c).
  destruct (StepN_loop_left s c0 eq_refl ltac:(cbn; unfold MaxInt64; lia)) with (k := n) (n := st_len stk)
    (g := st.s_Gas s) (pc := st.s_Pc s) (c := c) as (status & c' & -> & Hl).
  - split_and!; cbn; [|done|done]. change (st.Code_Copy (st.s_Code s)) with (ct_code s). lia.
  - constructor; cbn; try done; [unfold MaxInt64; lia|lia|]. split; [|split; [apply stable_refl|done]].
    constructor; cbn; try done. intros f Hf. by apply valid_calls.
  - lia.
  - cbn [mbind option_bind]. destruct (updateState_left s c0 (st.s_Gas s) status c' Hv ltac:(lia) Hl) as (t & -> & Hwf).
    by exists t.
Qed.

End Steps.

(** ** Conditions of rules *)

Definition isPc {T} (e : Expression T) : bool := match e with ePc => true | _ => false end.

Lemma isPc_spec (e : Expression U256) : isPc e = true -> e = ePc.
Proof.
  assert (forall T (e : Expression T) (H : T = U256), isPc e = true -> eq_rect T Expression e U256 H = ePc) as He.
  { intros T e' H. destruct e'; try done. intros _. symmetry. apply eq_rect_eq. }
  apply (He U256 e eq_refl).
Qed.

Lemma applies_getConditions {U : Uint256} c s : applies c s = true -> Forall (fun d => applies d s = true) (getConditions c).
Proof.
  revert c. fix IH 1. intros []; try (intros H; constructor; [exact H|constructor]). cbn [getConditions].
  unfold applies at 1. cbn [Condition_Check]. induction conditions as [|d l IHl]; cbn [flat_map]; [constructor|]. intros H. apply Forall_app.
  cbn in H. destruct (Condition_Check d s) as [[[] [e|]]|] eqn:Ed; try done. split; [apply IH; unfold applies; by rewrite Ed|by apply IHl].
Qed.
