(* ===== verification/LfvmCt.v ===== *)
(** * The adapter of [lfvm] for the conformance tests

    [go/interpreter/lfvm/ct.go]: the map between program counters of a code and
    its long form, the conversions of test states, and [StepN]. The conversions
    of stacks and memories are copies of those of [sfvm]. *)
From Stdlib Require Import ZArith Lia Strings.Byte String.
From stdpp Require Import base list numbers gmap.
From S2P Require Import Prelude Uint256 Types OpCodes SfvmStack SfvmAnalysis SfvmHashCache.
From S2P Require Import SfvmContext SfvmMemory.
From S2P Require Import LfvmOpCodes LfvmConverter LfvmContext LfvmInterpreter.
From S2P Require Import CtCommon CtState CtAdapter.
Set Default Goal Selector "!".
Local Open Scope Z_scope.
Local Open Scope go_scope.

(** ** Program counters *)

Record pcMap := mkPcMap { evmToLfvm : list Z; lfvmToEvm : list Z }.

(** [m[i] = v] on a slice of [uint16]; [None] is the panic out of range. *)
Definition store_at (m : list Z) (i : Z) (v : Z) : option (list Z) :=
  if (0 <=? i) && (i <? zlen m) then Some (<[Z.to_nat i := LfvmConverter.u16 v]> m) else None.

(** The calls of the observer of the conversion. *)
Fixpoint observe (pairs : list (nat * nat)) (m : pcMap) : option pcMap :=
  match pairs with
  | [] => Some m
  | (evm, lfvm) :: pairs =>
      e ← store_at (evmToLfvm m) (Z.of_nat evm) (Z.of_nat lfvm);
      l ← store_at (lfvmToEvm m) (Z.of_nat lfvm) (Z.of_nat evm);
      observe pairs (mkPcMap e l)
  end.

(** [for i := range res], from [i] on. *)
Fixpoint retarget (res : LCode) (i : nat) (m : list Z) : option (list Z) :=
  match res with
  | [] => Some m
  | x :: res =>
      m ← (if bool_decide (opcode x = JUMP_TO) then store_at m (Z.of_nat i) (arg x) else Some m);
      retarget res (S i) m
  end.

Definition genPcMap (code : Code) : option pcMap :=
  let zeroes := replicate (length code + 1) 0 in
  '(res, pairs) ← convertWithObserver code (mkConversionConfig 0 false);
  m ← observe pairs (mkPcMap zeroes zeroes);
  e ← store_at (evmToLfvm m) (zlen code) (zlen res);
  let l := if zlen res + 1 >? zlen (lfvmToEvm m)
           then lfvmToEvm m ++ replicate (Z.to_nat (zlen res + 1 - zlen (lfvmToEvm m))) 0
           else lfvmToEvm m in
  l ← store_at l (zlen res) (zlen code);
  l ← retarget res 0 l;
  Some (mkPcMap e l).

(** ** Conversions *)

Definition convertLfvmStatusToCtStatus : status -> st.StatusCode := convertSfvmStatusToCtStatus.

Definition convertCtStackToLfvmStack : list u256 -> st.Stack -> option stack := convertCtStackToSfvmStack.

Definition convertLfvmStackToCtStack : stack -> st.Stack -> option st.Stack := convertSfvmStackToCtStack.

Definition convertCtMemoryToLfvmMemory : st.Memory -> option Memory := convertCtMemoryToSfvmMemory.

Definition convertLfvmMemoryToCtMemory : Memory -> st.Memory := convertSfvmMemoryToCtMemory.

(** ** The adapter *)

Record ctAdapter (CL CP Log : Type) := mkCtAdapter { ca_vm : lfvm CL Log; ca_pcMapCache : CP }.
Arguments mkCtAdapter {CL CP Log} _ _.
Arguments ca_vm {CL CP Log} _.
Arguments ca_pcMapCache {CL CP Log} _.

Section Adapter.
Context {U : Uint256} (Keccak256 : list byte -> Hash) (Keccak256For32byte : array 32 -> Hash).
Context {CL CP Log : Type} {LC : LRU LCode CL} {LP : LRU pcMap CP}.

(** [None] are the [nil] pointers of failed constructors. *)
Definition NewConformanceTestingTarget : option (ctAdapter CL CP Log) :=
  match LfvmInterpreter.NewInterpreter, lru_New 4096 with
  | inl vm, Some cache => Some (mkCtAdapter vm cache)
  | _, _ => None
  end.

Definition getPcMap (a : ctAdapter CL CP Log) (code : st.Code) : option (ctAdapter CL CP Log * pcMap) :=
  let hash := st.Code_Hash Keccak256 code in
  let '(cache, found) := lru_Get (ca_pcMapCache a) hash in
  match found with
  | Some m => Some (mkCtAdapter (ca_vm a) cache, m)
  | None =>
      let byteCode := st.Code_Copy code in
      m ← genPcMap byteCode;
      Some (mkCtAdapter (ca_vm a) (lru_Add cache hash m), m)
  end.

(** The loop of [StepN], with one iteration of the interpreter's loop for a
    step. *)
Fixpoint l_StepN_loop (numSteps : nat) (status : status) (ctxt : lcontext ctRunContext)
    : option (SfvmContext.status * lcontext ctRunContext) :=
  match numSteps, status with
  | S numSteps, statusRunning =>
      match LfvmInterpreter.execute (RC := ctRunContext_instance Keccak256) (G := ctGlobals)
              Keccak256 Keccak256For32byte 1 true ctxt with
      | Some (Ok status, ctxt) => l_StepN_loop numSteps status ctxt
      | _ => None
      end
  | _, _ => Some (status, ctxt)
  end.

(** The update of the state after the run. *)
Definition l_updateState (m : pcMap) (status : status) (ctxt : lcontext ctRunContext) : option st.State :=
  let state := w_state (l_context ctxt) in
  let state := st.set_Status (convertLfvmStatusToCtStatus status) state in
  state ← match status with
          | statusRunning =>
              if l_pc ctxt <? 0 then None
              else pc ← lfvmToEvm m !! Z.to_nat (l_pc ctxt); Some (st.set_Pc pc state)
          | _ => Some state
          end;
  let state := st.set_Gas (l_gas ctxt) state in
  let state := st.set_GasRefund (l_refund ctxt) state in
  stack ← convertLfvmStackToCtStack (l_stack ctxt) (st.s_Stack state);
  let state := st.set_Stack stack state in
  let state := st.set_Memory (convertLfvmMemoryToCtMemory (l_memory ctxt)) state in
  let state := st.set_LastCallReturnData (l_returnData ctxt) state in
  let state := match status with
               | statusReturned | statusReverted => st.set_ReturnData (l_returnData ctxt) state
               | _ => state
               end in
  if w_panicked (l_context ctxt) then None else Some state.

(** The adapter with its caches after the call, the state ([None] for the
    empty state that accompanies an error of the conversion), and the error.
    [garbage] are the words of the stack of the pool. *)
Definition l_StepN (a : ctAdapter CL CP Log) (cache : sha3HashCache) (garbage : list u256) (state : st.State)
    (numSteps : nat) : option (ctAdapter CL CP Log * option st.State * option error) :=
  let params := ToVmParameters Keccak256 state in
  if bp_Revision (p_Block params) >? LfvmInterpreter.newestSupportedRevision
  then Some (a, Some state, Some (ErrUnsupportedRevision (bp_Revision (p_Block params))))
  else if negb (bool_decide (st.s_Status state = st.Running)) then Some (a, Some state, None)
  else
    '(converter, converted) ← Convert (lv_converter (ca_vm a)) (p_Code params) (p_CodeHash params);
    let a := mkCtAdapter (mkLfvm (lv_config (ca_vm a)) converter) (ca_pcMapCache a) in
    match converted with
    | inr err => Some (a, None, Some (wrapError "failed to convert code: "%string err))
    | inl converted =>
        '(a, m) ← getPcMap a (st.s_Code state);
        memory ← convertCtMemoryToLfvmMemory (st.s_Memory state);
        pc ← evmToLfvm m !! Z.to_nat (st.s_Pc state);
        stack ← convertCtStackToLfvmStack garbage (st.s_Stack state);
        let ctxt := mkLContext params (mkCtRunContext state false cache) converted (i32 pc) (p_Gas params)
                      (st.s_GasRefund state) stack memory (st.s_LastCallReturnData state)
                      (lc_WithShaCache (lv_config (ca_vm a))) in
        '(status, ctxt) ← l_StepN_loop numSteps statusRunning ctxt;
        state ← l_updateState m status ctxt;
        Some (a, Some state, None)
    end.

End Adapter.
