(* ===== verification/LfvmPcMap.v ===== *)
(** * The map of program counters is exact

    The map of [lfvm]'s conformance adapter takes the position of every
    instruction to its position in the long form and back, and the skips of the
    long form to the jump destinations they lead to. *)
From Stdlib Require Import ZArith Lia Strings.Byte Sorting.Sorted.
From stdpp Require Import base list numbers sorting.
From S2P Require Import Prelude Uint256 Types OpCodes SfvmAnalysis.
From S2P Require Import LfvmOpCodes LfvmConverter LfvmLayout LfvmContext LfvmInterpreter LfvmSimulation LfvmCt.
Set Default Goal Selector "!".
Local Open Scope Z_scope.
Local Open Scope go_scope.

(** ** The pairs of positions *)

(** Without super instructions the layout is determined by the code. *)
Lemma layout_functional code i j l tr : layout code false i j l tr ->
  forall l' tr', layout code false i j l' tr' -> l' = l /\ tr' = tr.
Proof.
  induction 1 as [i j Hi|i j l tr Hop Hj Hlay IH|i j op x n l tr Hop Hne Hj Ht Hlay IH]; intros l' tr' H'.
  - inversion H' as [| ? ? ? ? Ho|? ? ? ? ? ? ? Ho]; subst; [done|apply lookup_lt_Some in Ho; lia..].
  - inversion H' as [| ? ? ? ? Ho ? Hl'|? ? ? ? ? ? ? Ho]; subst; [apply lookup_lt_Some in Hop; lia| |congruence].
    by destruct (IH _ _ Hl') as [-> ->].
  - inversion H' as [| |? ? ? ? ? ? ? Ho ? ? Ht' Hl']; subst; [apply lookup_lt_Some in Hop; lia|congruence|].
    destruct Ht as [op1 x n Ho1 Ht|]; [|done]. destruct Ht' as [op2 x2 n2 Ho2 Ht'|]; [|done].
    assert (op2 = op1) as -> by congruence. rewrite Ht in Ht'. injection Ht' as <- <-.
    by destruct (IH _ _ Hl') as [-> ->].
Qed.

Lemma steps_to_cases code i op p : code !! i = Some op -> steps_to code (Z.of_nat i) (Z.of_nat p) ->
  p = i \/ steps_to code (Z.of_nat i + Width op) (Z.of_nat p).
Proof.
  intros Hop Hs. remember (Z.of_nat i) as a eqn:Ea. remember (Z.of_nat p) as b eqn:Eb.
  destruct Hs as [a|a o b Ho Hs]; [left; lia|right]. rewrite Ea, Nat2Z.id, Hop in Ho. by injection Ho as <-.
Qed.

(** Every instruction of the code has a pair. *)
Lemma layout_start code i j l tr p : layout code false i j l tr ->
  steps_to code (Z.of_nat i) (Z.of_nat p) -> (p < length code)%nat -> exists q, (p, q) ∈ tr.
Proof.
  intros Hlay. revert p.
  induction Hlay as [i j Hi|i j l tr Hop Hj Hlay IH|i j op x n l tr Hop Hne Hj Ht Hlay IH]; intros p Hs Hp.
  - inversion Hs as [? E1 E2|? o ? Ho]; subst; [lia|]. apply lookup_lt_Some in Ho. lia.
  - destruct (steps_to_cases _ _ _ _ Hop Hs) as [->|Hs']; [exists i; by left|]. change (Width JUMPDEST) with 1 in Hs'.
    destruct (IH p) as [q Hq]; [by replace (Z.of_nat (i + 1)) with (Z.of_nat i + 1) by lia|done|]. exists q. by right.
  - destruct (steps_to_cases _ _ _ _ Hop Hs) as [->|Hs']; [exists j; by left|]. destruct Ht as [op' x n Hop' Ht|]; [|done].
    assert (op' = op) as -> by congruence. pose proof (translateOp_width _ _ _ _ _ Ht) as Hw. unfold width in Hw.
    pose proof (Width_range op). destruct (IH p) as [q Hq]; [|done|exists q; by right].
    by replace (Z.of_nat (i + n + 1)) with (Z.of_nat i + Width op) by lia.
Qed.

(** The pairs increase in both positions. *)
Definition before_pair (a b : nat * nat) : Prop := (fst a < fst b /\ snd a < snd b)%nat.

Lemma layout_bounds code si i j l tr : layout code si i j l tr ->
  Forall (fun a => (i <= fst a < length code /\ j <= snd a < j + length l)%nat) tr.
Proof.
  induction 1 as [i j Hi|i j l tr Hop Hj Hlay IH|i j op x n l tr Hop Hne Hj Ht Hlay IH]; constructor.
  - apply lookup_lt_Some in Hop. rewrite length_app, gap_length by done. cbn. lia.
  - eapply Forall_impl; [exact IH|]. rewrite length_app, gap_length by done. cbn. lia.
  - apply lookup_lt_Some in Hop. pose proof (translate_size _ _ _ _ _ Ht). rewrite length_app. cbn. lia.
  - pose proof (translate_size _ _ _ _ _ Ht). eapply Forall_impl; [exact IH|]. rewrite length_app. cbn. lia.
Qed.

Lemma layout_sorted code si i j l tr : layout code si i j l tr -> StronglySorted before_pair tr.
Proof.
  induction 1 as [i j Hi|i j l tr Hop Hj Hlay IH|i j op x n l tr Hop Hne Hj Ht Hlay IH]; constructor; try done.
  - eapply Forall_impl; [by eapply layout_bounds|]. unfold before_pair. cbn. lia.
  - pose proof (translate_size _ _ _ _ _ Ht). eapply Forall_impl; [by eapply layout_bounds|]. unfold before_pair. cbn. lia.
Qed.

(** A reported position of the long form holds the instruction, and no skip. *)
Lemma pair_opcode code res p q : at_pos code false res p q -> (p < length code)%nat ->
  (code !! p = Some JUMPDEST -> q = p) ->
  exists op x, code !! p = Some op /\ res !! q = Some x /\ opcode x = Base op.
Proof.
  intros Hcase%at_pos_cases Hlt Hd. destruct Hcase as [Hge|x Ho Hj|Ho -> Hx Hat|op x n rest Ho Hne Ht Hdr Hat].
  - lia.
  - specialize (Hd Ho). lia.
  - by eexists _, _.
  - destruct Ht as [op' x n Hop' Ht|]; [|done]. pose proof (translateOp_size _ _ _ _ _ Ht) as Hsz.
    destruct x as [|y x]; [cbn in Hsz; lia|]. exists op', y. split; [done|]. split.
    + rewrite <-(Nat.add_0_r q), <-lookup_drop, Hdr. done.
    + unfold translateOp, translatePush in Ht. destruct (Byte.eqb _ _) eqn:Epc.
      { apply Byte.byte_dec_bl in Epc as ->. by injection Ht as <- _ _. }
      destruct (op_in _ _ _); [|by injection Ht as <- _ _]. destruct (packs _); [done|]. by injection Ht as <- _ _.
Qed.

(** ** The tables *)

Lemma store_at_ok m i v : (i < length m)%nat ->
  store_at m (Z.of_nat i) v = Some (<[i := LfvmConverter.u16 v]> m).
Proof.
  intros Hi. unfold store_at. rewrite (proj2 (Z.leb_le _ _)), (proj2 (Z.ltb_lt _ _)) by zblia. by rewrite Nat2Z.id.
Qed.

Lemma observe_ok tr : forall m, StronglySorted before_pair tr ->
  Forall (fun a => fst a < length (evmToLfvm m) /\ snd a < length (lfvmToEvm m))%nat tr ->
  exists m', observe tr m = Some m'
    /\ length (evmToLfvm m') = length (evmToLfvm m) /\ length (lfvmToEvm m') = length (lfvmToEvm m)
    /\ (forall p q, (p, q) ∈ tr -> evmToLfvm m' !! p = Some (LfvmConverter.u16 (Z.of_nat q))
          /\ lfvmToEvm m' !! q = Some (LfvmConverter.u16 (Z.of_nat p)))
    /\ (forall p, Forall (fun a => (p < fst a)%nat) tr -> evmToLfvm m' !! p = evmToLfvm m !! p)
    /\ (forall q, Forall (fun a => (q < snd a)%nat) tr -> lfvmToEvm m' !! q = lfvmToEvm m !! q).
Proof.
  induction tr as [|[p q] tr IH]; intros m Hs Hb.
  { exists m. split_and!; try done. by intros p q H%not_elem_of_nil. }
  inversion Hs as [|? ? Hs' Hall]; subst. inversion Hb as [|? ? [Hp Hq] Hb']; subst. cbn [fst snd] in Hp, Hq.
  cbn [observe]. rewrite !store_at_ok by done. cbn [mbind option_bind].
  destruct (IH (mkPcMap (<[p := LfvmConverter.u16 (Z.of_nat q)]> (evmToLfvm m))
    (<[q := LfvmConverter.u16 (Z.of_nat p)]> (lfvmToEvm m)))) as (m' & Ho & H1 & H2 & H3 & H4 & H5); [done| |].
  { cbn. by rewrite !length_insert. }
  cbn [evmToLfvm lfvmToEvm] in *. rewrite !length_insert in *. exists m'. split_and!; [done..| | |].
  - intros p' q' [[= -> ->]|Hin]%elem_of_cons; [|by apply H3].
    rewrite H4, H5; [by rewrite !list_lookup_insert_eq|..]; (eapply Forall_impl; [exact Hall|]); intros ? []; done.
  - intros p' Hp'. inversion Hp' as [|? ? Hlt Hp'']; subst. cbn in Hlt. rewrite H4, list_lookup_insert_ne by (done || lia). done.
  - intros q' Hq'. inversion Hq' as [|? ? Hlt Hq'']; subst. cbn in Hlt. rewrite H5, list_lookup_insert_ne by (done || lia). done.
Qed.

Lemma retarget_ok res : forall i m, (i + length res <= length m)%nat ->
  exists m', retarget res i m = Some m' /\ length m' = length m
    /\ (forall k x, res !! k = Some x -> opcode x = JUMP_TO -> m' !! (i + k)%nat = Some (LfvmConverter.u16 (arg x)))
    /\ (forall k, (forall x, (i <= k)%nat -> res !! (k - i)%nat = Some x -> opcode x <> JUMP_TO) -> m' !! k = m !! k).
Proof.
  induction res as [|x res IH]; intros i m Hl; cbn [retarget length] in *.
  { by exists m. }
  assert (exists m1, (if bool_decide (opcode x = JUMP_TO) then store_at m (Z.of_nat i) (arg x) else Some m) = Some m1
    /\ length m1 = length m /\ (opcode x = JUMP_TO -> m1 !! i = Some (LfvmConverter.u16 (arg x)))
    /\ forall k, k <> i \/ opcode x <> JUMP_TO -> m1 !! k = m !! k) as (m1 & -> & Hl1 & Hx1 & Hk1).
  { case_bool_decide as E.
    - rewrite store_at_ok by lia. eexists. split; [done|]. rewrite length_insert. split; [done|].
      split; [intros _; apply list_lookup_insert_eq; lia|]. intros k [?|?]; [|done]. by rewrite list_lookup_insert_ne.
    - by exists m. }
  cbn [mbind option_bind]. destruct (IH (S i) m1) as (m' & -> & Hl' & Hj & Hk); [lia|].
  exists m'. split; [done|]. split; [lia|]. split.
  - intros [|k] y Hy Ho.
    + injection Hy as ->. rewrite Nat.add_0_r, Hk; [by apply Hx1|]. intros; lia.
    + replace (i + S k)%nat with (S i + k)%nat by lia. by apply Hj.
  - intros k Hn. rewrite Hk.
    + apply Hk1. destruct (decide (k = i)) as [->|]; [|by left]. right. apply (Hn x); [lia|]. by rewrite Nat.sub_diag.
    + intros y Hle Hy. apply Hn; [lia|]. by replace (k - i)%nat with (S (k - S i)) by lia.
Qed.

(** ** The map *)

Record exact_map (code : Code) (res : LCode) (tr : list (nat * nat)) (m : pcMap) : Prop := {
  em_there p q : (p, q) ∈ tr -> evmToLfvm m !! p = Some (Z.of_nat q);
  em_back p q : (p, q) ∈ tr -> lfvmToEvm m !! q = Some (Z.of_nat p);
  em_end : evmToLfvm m !! length code = Some (Z.of_nat (length res));
  em_back_end : lfvmToEvm m !! length res = Some (Z.of_nat (length code));
  em_skip j i : res !! j = Some (mkInstruction JUMP_TO (Z.of_nat i)) -> (i < length code)%nat ->
    lfvmToEvm m !! j = Some (Z.of_nat i)
}.

Lemma store_at_length m i v m' : store_at m i v = Some m' -> length m' = length m.
Proof. unfold store_at. case_if; [|done]. intros [= <-]. apply length_insert. Qed.

(** It has an entry for each position of the code and for its end. *)
Lemma genPcMap_length code m : genPcMap code = Some m -> length (evmToLfvm m) = (length code + 1)%nat.
Proof.
  assert (forall pairs m m', observe pairs m = Some m' -> length (evmToLfvm m') = length (evmToLfvm m)) as Ho.
  { induction pairs as [|[p q] pairs IH]; intros m1 m2; cbn [observe]; [by intros [= ->]|].
    destruct (store_at (evmToLfvm m1) _ _) as [e|] eqn:Ee; [|done]. destruct (store_at (lfvmToEvm m1) _ _) as [l|]; [|done]. cbn.
    intros ->%IH. by eapply store_at_length. }
  unfold genPcMap. destruct (convertWithObserver _ _) as [[res pairs]|]; [|done]. cbn [mbind option_bind].
  destruct (observe pairs _) as [m1|] eqn:E1; [|done]. cbn [mbind option_bind].
  destruct (store_at (evmToLfvm m1) _ _) as [e|] eqn:Ee; [|done]. cbn [mbind option_bind]. set (l := if zlen res + 1 >? _ then _ else _).
  destruct (store_at l _ _) as [l1|]; [|done]. cbn [mbind option_bind]. destruct (retarget res 0 l1); [|done]. intros [= <-]. cbn.
  rewrite (store_at_length _ _ _ _ Ee), (Ho _ _ _ E1). cbn. apply length_replicate.
Qed.

Lemma genPcMap_ok code : zlen code + 32 < 2 ^ 16 -> exists res tr m,
  convert code (mkConversionConfig 0 false) = Some res /\ layout code false 0 0 res tr
  /\ genPcMap code = Some m /\ exact_map code res tr m.
Proof.
  intros Hsize. destruct (convert_ok code false ltac:(unfold MaxUint16; lia) (mkConversionConfig 0 false) eq_refl)
    as (res & tr & Hobs & Hconv & Hlay).
  assert (length res <= length code + 32)%nat as Hlen by (apply (layout_length code false) in Hlay; lia).
  pose proof (layout_bounds _ _ _ _ _ _ Hlay) as Hb. pose proof (layout_sorted _ _ _ _ _ _ Hlay) as Hs.
  assert (forall p q, (p, q) ∈ tr -> (p < length code)%nat /\ (q < length res)%nat /\ (q <= p)%nat
    /\ exists op x, code !! p = Some op /\ res !! q = Some x /\ opcode x = Base op) as Hpairs.
  { intros p q Hin. destruct (layout_pairs code false 0 0 res tr Hlay [] [] p q eq_refl Hlay Hin) as (Hat & ? & ? & ?).
    split_and!; try lia; [|eapply pair_opcode; [done|lia|done]].
    destruct Hat as (? & ? & ? & ? & ? & ? & Hl & _). destruct Hl; try done. lia. }
  set (zeroes := replicate (length code + 1) 0).
  assert (length zeroes = (length code + 1)%nat) as Hz by apply length_replicate.
  destruct (observe_ok tr (mkPcMap zeroes zeroes) Hs) as (m & Hm & H1 & H2 & H3 & _).
  { apply Forall_forall. intros [p q] Hin. destruct (Hpairs p q Hin) as (? & ? & ? & _). cbn. rewrite Hz. lia. }
  cbn [evmToLfvm lfvmToEvm] in *. rewrite Hz in H1, H2.
  set (l := if zlen res + 1 >? zlen (lfvmToEvm m)
            then lfvmToEvm m ++ replicate (Z.to_nat (zlen res + 1 - zlen (lfvmToEvm m))) 0 else lfvmToEvm m).
  assert (length res < length l)%nat as Hll.
  { unfold l. destruct (Z.gtb_spec (zlen res + 1) (zlen (lfvmToEvm m))); [|zblia].
    rewrite length_app, length_replicate. zblia. }
  assert (forall p q, (p, q) ∈ tr -> l !! q = Some (LfvmConverter.u16 (Z.of_nat p))) as Hl3.
  { intros p q Hin. unfold l. destruct (_ >? _); [|by apply H3].
    rewrite lookup_app_l; [by apply H3|]. destruct (Hpairs p q Hin) as (? & ? & ? & _). lia. }
  destruct (retarget_ok res 0 (<[length res := LfvmConverter.u16 (zlen code)]> l)) as (l' & Hr & Hl' & Hj & Hk).
  { rewrite length_insert. lia. }
  assert (forall n, (n <= length code + 32)%nat -> LfvmConverter.u16 (Z.of_nat n) = Z.of_nat n) as Hu.
  { intros n Hn. unfold LfvmConverter.u16. rewrite wrapU_id; [done|]. zblia. }
  exists res, tr, (mkPcMap (<[length code := LfvmConverter.u16 (zlen res)]> (evmToLfvm m)) l').
  split_and!; [done..| |].
  - unfold genPcMap. rewrite Hobs. cbn [mbind option_bind]. fold zeroes. rewrite Hm. cbn [mbind option_bind].
    pose proof (store_at_ok (evmToLfvm m) (length code) (zlen res) ltac:(lia)) as S1. fold (zlen code) in S1.
    pose proof (store_at_ok l (length res) (zlen code) Hll) as S2. fold (zlen res) in S2.
    rewrite S1. cbn [mbind option_bind]. fold l. rewrite S2. cbn [mbind option_bind]. by rewrite Hr.
  - constructor; cbn [evmToLfvm lfvmToEvm].
    + intros p q Hin. destruct (Hpairs p q Hin) as (? & ? & ? & _). rewrite list_lookup_insert_ne by lia.
      destruct (H3 p q Hin) as [-> _]. by rewrite Hu by lia.
    + intros p q Hin. destruct (Hpairs p q Hin) as (? & ? & ? & op & x & _ & Hx & Ho). rewrite Hk.
      * rewrite list_lookup_insert_ne, (Hl3 p q Hin), Hu by (done || lia). done.
      * intros y _ Hy. rewrite Nat.sub_0_r, Hx in Hy. injection Hy as <-. by rewrite Ho.
    + rewrite list_lookup_insert_eq by lia. unfold zlen. by rewrite Hu by lia.
    + rewrite Hk; [rewrite list_lookup_insert_eq by lia; unfold zlen; by rewrite Hu by lia|].
      intros y _ Hy. rewrite Nat.sub_0_r in Hy. apply lookup_lt_Some in Hy. lia.
    + intros j i Hx Hi. rewrite <-(Nat.add_0_l j), (Hj j _ Hx eq_refl). cbn [arg]. by rewrite Hu by lia.
Qed.

(** The position of an instruction in the long form, and what the map says of
    the positions an execution is at. *)
Lemma exact_map_there code res tr m p : layout code false 0 0 res tr -> exact_map code res tr m ->
  instr_start code (Z.of_nat p) -> (p < length code)%nat ->
  exists q, evmToLfvm m !! p = Some (Z.of_nat q) /\ at_pos code false res p q
    /\ (code !! p = Some JUMPDEST -> q = p).
Proof.
  intros Hlay Hm Hs Hp. destruct (layout_start code 0 0 res tr p Hlay Hs Hp) as [q Hq]. exists q.
  destruct (layout_pairs code false 0 0 res tr Hlay [] [] p q eq_refl Hlay Hq) as (Hat & _ & _ & Hd).
  split_and!; [by apply (em_there _ _ _ _ Hm)|done..].
Qed.

Lemma exact_map_back code res tr m i j : layout code false 0 0 res tr -> exact_map code res tr m ->
  at_pos code false res i j ->
  exists pc, lfvmToEvm m !! j = Some (Z.of_nat pc) /\ (pc = i \/ (pc = length code /\ (length code <= i)%nat)).
Proof.
  intros Hlay Hm Hat. destruct (decide (i < length code)%nat) as [Hi|Hi].
  - exists i. split; [|by left]. destruct (at_pos_pair code false res i j Hat Hi) as (tr' & Hlay' & Hcase).
    destruct (layout_functional _ _ _ _ _ Hlay _ _ Hlay') as [_ ->].
    destruct Hcase as [Hin|Hx]; [by apply (em_back _ _ _ _ Hm)|by apply (em_skip _ _ _ _ Hm)].
  - exists (length code). split; [|right; lia].
    apply at_pos_cases in Hat. destruct Hat as [_ ->|? Ho|Ho|? ? ? ? Ho]; try (apply lookup_lt_Some in Ho; lia).
    apply (em_back_end _ _ _ _ Hm).
Qed.

(** The map is a bijection between the instructions of the two forms. *)
Lemma genPcMap_bijective code : zlen code + 32 < 2 ^ 16 -> exists res m,
  convert code (mkConversionConfig 0 false) = Some res /\ genPcMap code = Some m
  /\ (forall p op, instr_start code (Z.of_nat p) -> code !! p = Some op ->
        exists q x, evmToLfvm m !! p = Some (Z.of_nat q) /\ lfvmToEvm m !! q = Some (Z.of_nat p)
          /\ res !! q = Some x /\ opcode x = Base op)
  /\ evmToLfvm m !! length code = Some (Z.of_nat (length res))
  /\ lfvmToEvm m !! length res = Some (Z.of_nat (length code)).
Proof.
  intros Hsize. destruct (genPcMap_ok code Hsize) as (res & tr & m & Hc & Hlay & Hm & Hex). exists res, m.
  split_and!; [done..| |by apply (em_end _ _ _ _ Hex)|by apply (em_back_end _ _ _ _ Hex)].
  intros p op Hs Hop. pose proof (lookup_lt_Some _ _ _ Hop) as Hp.
  destruct (layout_start code 0 0 res tr p Hlay Hs Hp) as [q Hq].
  destruct (layout_pairs code false 0 0 res tr Hlay [] [] p q eq_refl Hlay Hq) as (Hat & _ & _ & Hd).
  destruct (pair_opcode code res p q Hat Hp Hd) as (op' & x & Hop' & Hx & Ho). exists q, x.
  split_and!; [by apply (em_there _ _ _ _ Hex)|by apply (em_back _ _ _ _ Hex)|done|congruence].
Qed.
