(* ===== verification/LfvmConform.v ===== *)
(** * [lfvm] conforms to the specification

    A step of [lfvm] under its adapter yields the state a step of [sfvm] under
    its adapter yields, up to program counters beyond the code. [lfvm]
    therefore conforms to every rule [sfvm] conforms to. *)
From Stdlib Require Import ZArith Lia Strings.Byte.
From stdpp Require Import base list numbers gmap.
From S2P Require Import Prelude Uint256 Types OpCodes SfvmStack SfvmAnalysis SfvmHashCache.
From S2P Require Import SfvmContext SfvmMemory SfvmInterpreter SfvmLogic RefWorld.
From S2P Require Import LfvmOpCodes LfvmConverter LfvmLayout LfvmContext LfvmInterpreter LfvmShared.
From S2P Require Import LfvmSimulation LfvmEquivalence LfvmCt LfvmPcMap.
From S2P Require Import CtCommon CtState CtRules CtEffects CtSpec CtAdapter CtStateFacts CtExec CtSim.
From S2P Require Import CtConform CtConformance CtRunTest.
Set Default Goal Selector "!".
Local Open Scope Z_scope.
Local Open Scope go_scope.

(** ** The update of the state *)

(** The conversion looks at the words of the stack only. *)
Lemma convertStack_like s1 s2 r : stack_like s1 s2 -> convertSfvmStackToCtStack s1 r = convertSfvmStackToCtStack s2 r.
Proof.
  intros H. unfold convertSfvmStackToCtStack. rewrite (stack_like_len _ _ H).
  destruct (st.Stack_Resize r (st_len s2)) as [r'|]; [|done]. cbn [mbind option_bind].
  assert (forall k i r, i + Z.of_nat k <= st_len s2 ->
    convertSfvmStack_loop s1 (st_len s2) k i r = convertSfvmStack_loop s2 (st_len s2) k i r) as Hloop.
  { clear r r'. induction k as [|k IH]; intros i r Hi; [done|]. cbn [convertSfvmStack_loop]. unfold st_get, st_len in *.
    rewrite (like_read s1 s2) by (rewrite ?(like_pointer _ _ H); done || lia).
    destruct (st_read s2 i); [|done]. cbn [mbind option_bind]. destruct (st.Stack_Set _ _ _); [|done].
    cbn [mbind option_bind]. apply IH. lia. }
  destruct (Z.le_gt_cases 0 (st_len s2)); [apply Hloop; lia|]. by rewrite Z2Nat.nonpos by lia.
Qed.

Section Conform.
Context {U : Uint256} {UL : Uint256Laws U}.
Context (Keccak256 : list byte -> Hash) (Keccak256For32byte : array 32 -> Hash).

Lemma updateState_alike m status (c : context ctRunContext) l t :
  alike c (toSfvm l) -> updateState status c = Some t ->
  (status = statusRunning -> 0 <= l_pc l /\ exists pc, lfvmToEvm m !! Z.to_nat (l_pc l) = Some pc
     /\ same_pc (zlen (st.code (st.s_Code t)) mod 2 ^ 16) pc (CtRules.u16 (c_pc c))) ->
  exists t', l_updateState m status l = Some t' /\ state_equiv t' t.
Proof.
  intros [_ Hw Hg Hr Hs Hm Hd _] Hu Hpc. cbn [toSfvm c_context c_gas c_refund c_stack c_memory c_returnData] in *.
  unfold updateState in Hu. unfold l_updateState, convertLfvmStatusToCtStatus, convertLfvmStackToCtStack, convertLfvmMemoryToCtMemory.
  rewrite <-Hw, <-Hg, <-Hr, <-Hm, <-Hd.
  destruct (decide (convertSfvmStatusToCtStatus status = st.Running)) as [E|E].
  - assert (status = statusRunning) as -> by (by destruct status).
    destruct (Hpc eq_refl) as (Hp0 & pc & Hpc' & Hsame). rewrite (proj2 (Z.ltb_ge _ _)), Hpc' by done.
    cbn [mbind option_bind st.s_Stack st.set_Status st.set_Pc st.set_Gas st.set_GasRefund] in *.
    rewrite <-(convertStack_like _ _ _ Hs). destruct (convertSfvmStackToCtStack _ _); [|done]. cbn [mbind option_bind] in *.
    destruct (w_panicked _); [done|]. injection Hu as <-. eexists. split; [done|].
    split; [done|]. cbn in Hsame |- *. split; [by constructor|]. done.
  - assert (forall X (f : st.State -> option X) s, (state ← match status with
      | statusRunning => if l_pc l <? 0 then None else pc ← lfvmToEvm m !! Z.to_nat (l_pc l); Some (st.set_Pc pc s)
      | _ => Some s end; f state) = f s) as -> by (by destruct status).
    exists t. split; [|apply state_equiv_equivalence].
    destruct status; try done; cbn [st.s_Stack st.set_Status st.set_Pc st.set_Gas st.set_GasRefund] in *;
      by rewrite <-(convertStack_like _ _ _ Hs).
Qed.

(** ** The adapter *)

Section Adapter.
Context {CL CP Log : Type} {LC : LRU LCode CL} {LLC : LRULaws LC} {LP : LRU pcMap CP} {LLP : LRULaws LP}.
Context (deployed : Code -> Prop).
Context (collision_free : forall c1 c2, deployed c1 -> deployed c2 -> Keccak256 c1 = Keccak256 c2 -> c1 = c2).

(** An adapter whose interpreter has no super instructions, in any state of
    its caches that a process can have brought about. *)
Record test_adapter (a : ctAdapter CL CP Log) (cache : sha3HashCache) : Prop := {
  ta_plain : WithSuperInstructions (cv_config (lv_converter (ca_vm a))) = false;
  ta_converter : converter_coherent Keccak256 deployed (lv_converter (ca_vm a));
  ta_pcMaps h m : lru_holds (ca_pcMapCache a) h m ->
    forall code, deployed code -> Keccak256 code = h -> genPcMap code = Some m;
  ta_sha3 : sha3_wf Keccak256 Keccak256For32byte cache;
  ta_hash : lc_WithShaCache (lv_config (ca_vm a)) = true -> forall b, Keccak256For32byte b = Keccak256 (arr_bytes b)
}.

Lemma getPcMap_ok a cache (code : st.Code) : test_adapter a cache -> deployed (st.Code_Copy code) ->
  zlen (st.Code_Copy code) + 32 < 2 ^ 16 ->
  exists a' m, getPcMap Keccak256 a code = Some (a', m) /\ genPcMap (st.Code_Copy code) = Some m
    /\ test_adapter a' cache /\ ca_vm a' = ca_vm a.
Proof.
  intros [H1 H2 H3 H4 H5] Hd Hl. unfold getPcMap. change (st.Code_Hash Keccak256 code) with (Keccak256 (st.Code_Copy code)).
  destruct (lru_Get (ca_pcMapCache a) (Keccak256 (st.Code_Copy code))) as [c found] eqn:Eg.
  assert (forall h m, lru_holds c h m -> forall code, deployed code -> Keccak256 code = h -> genPcMap code = Some m) as Hc.
  { intros h m Hh. apply H3, (lru_Get_frame _ (Keccak256 (st.Code_Copy code))). by rewrite Eg. }
  destruct found as [m|].
  - eexists _, m. split; [done|]. split; [by eapply H3; [eapply lru_Get_holds, Eg|..]|]. by split.
  - destruct (genPcMap_ok _ Hl) as (_ & _ & m & _ & _ & Hm & _). rewrite Hm. cbn [mbind option_bind].
    eexists _, m. split; [done|]. split; [done|]. split; [|done]. split; try done. cbn [ca_pcMapCache].
    intros h m' Hh code' Hd' Hk. apply lru_Add_holds in Hh as [[-> ->]|Hh]; [|by eapply Hc].
    by rewrite (collision_free code' (st.Code_Copy code)).
Qed.

(** The interpreter [sfvm] to compare with. *)
Definition counterpart (a : ctAdapter CL CP Log) : sfvm assocCache :=
  mkSfvm (mkConfig (lc_WithShaCache (lv_config (ca_vm a))) false 0 0) (mkAnalysis None 0).

Abbreviation s_execute := (SfvmInterpreter.execute (RC := ctRunContext_instance Keccak256) (G := ctGlobals)
  Keccak256 Keccak256For32byte 1 true).
Abbreviation l_execute := (LfvmInterpreter.execute (RC := ctRunContext_instance Keccak256) (G := ctGlobals)
  Keccak256 Keccak256For32byte 1 true).

(** The conversion looks at one flag of its configuration. *)
Lemma convert_plain code config : WithSuperInstructions config = false ->
  convert code config = convert code (mkConversionConfig 0 false).
Proof. intros H. unfold convert, convertWithObserver. by rewrite H. Qed.

(** Where a test starts. *)
Lemma start_position s res tr m : valid s -> st.s_Status s = st.Running -> st.s_Pc s <= zlen (ct_code s) ->
  layout (ct_code s) false 0 0 res tr -> exact_map (ct_code s) res tr m ->
  let i := Z.to_nat (st.s_Pc s) in
  exists j, evmToLfvm m !! i = Some (Z.of_nat j) /\
    ((i = length (ct_code s) /\ j = length res)
     \/ ((i < length (ct_code s))%nat /\ at_pos (ct_code s) false res i j /\ (ct_code s !! i = Some JUMPDEST -> j = i))).
Proof.
  intros Hv Hr Hpc Hlay Hm i. pose proof (valid_pc s Hv). unfold zlen in *.
  destruct (decide (i < length (ct_code s))%nat) as [Hi|Hi].
  - destruct (exact_map_there (ct_code s) res tr m i Hlay Hm) as (j & Hj & Hat); [|done|by eauto].
    destruct (NewCode_isCode (ct_code s)) as (Hl & Hc & _). pose proof (valid_isCode s Hv Hr) as Hcode.
    rewrite (valid_code s Hv) in Hcode. unfold i. rewrite Z2Nat.id by lia. apply Hc; [zblia|done].
  - assert (i = length (ct_code s)) as -> by lia. exists (length res). split; [apply (em_end _ _ _ _ Hm)|by left].
Qed.

(** A step of both interpreters on related contexts at the same instruction,
    or at the end of the code. *)
Lemma execute_same code res tr m (i j : nat) (c : context ctRunContext) l status c' :
  zlen code + 32 < 2 ^ 16 -> layout code false 0 0 res tr -> exact_map code res tr m ->
  rel code (findJumpDestinations code) res (Z.of_nat i) (Z.of_nat j) c l ->
  (i = length code /\ j = length res) \/ ((i < length code)%nat /\ at_pos code false res i j /\ (code !! i = Some JUMPDEST -> j = i)) ->
  s_execute c = Some (Ok status, c') ->
  exists l', l_execute l = Some (Ok status, l') /\ alike c' (toSfvm l')
    /\ (status = statusRunning -> 0 <= l_pc l' /\ exists pc, lfvmToEvm m !! Z.to_nat (l_pc l') = Some pc
         /\ same_pc (zlen code mod 2 ^ 16) pc (CtRules.u16 (c_pc c'))).
Proof.
  intros Hsize Hlay Hm Hrel Hpos. pose proof Hrel as [Ha Hsane Hc _ Hp Hlc Hlp].
  unfold SfvmInterpreter.execute, LfvmInterpreter.execute. cbn [SfvmInterpreter.steps LfvmInterpreter.steps].
  rewrite Hc, Hp, Hlc, Hlp. destruct Hpos as [[-> ->]|(Hi & Hat & Hd)].
  { rewrite !Z.geb_leb, !(proj2 (Z.leb_le _ _)) by zblia. intros [= <- <-]. by exists l. }
  destruct (sim_direct (RC := ctRunContext_instance Keccak256) (G := ctGlobals) Keccak256 Keccak256For32byte code res
    ltac:(unfold MaxUint16; lia) (ex_intro _ tr Hlay) i j c l Hrel Hat Hi Hd) as [Hsim Hj].
  rewrite !Z.geb_leb, !(proj2 (Z.leb_gt _ _)) by zblia. unfold rsim in Hsim.
  destruct (SfvmInterpreter.step _ _ c) as [[st|e|] c1], (LfvmInterpreter.step _ _ l) as [[st'|e'|] l1]; try done.
  - destruct Hsim as [<- (i' & j' & Hr & Hat' & Hi')]. rewrite !Z.add_0_r in Hr. intros [= <- <-]. exists l1.
    split; [done|]. pose proof Hr as [Ha' _ _ _ Hp' _ Hlp']. split; [done|]. intros _. rewrite Hlp', Hp'. split; [lia|].
    destruct (exact_map_back code res tr m i' j' Hlay Hm Hat') as (pc & Hpc & Hsame). exists (Z.of_nat pc).
    rewrite Nat2Z.id. split; [done|]. unfold CtRules.u16. rewrite wrapU_id by zblia.
    rewrite Z.mod_small by zblia. destruct Hsame as [->|[-> ?]]; [by left|right; zblia].
  - intros [= <- <-]. by exists l1.
Qed.

Lemma l_StepN_same a cache garbage s : test_adapter a cache -> zlen garbage = maxStackSize -> valid s ->
  deployed (ct_code s) -> (st.s_Status s = st.Running -> st.s_Pc s <= zlen (ct_code s)) ->
  exists a' t u, l_StepN Keccak256 Keccak256For32byte a cache garbage s 1 = Some (a', Some t, None)
    /\ test_adapter a' cache
    /\ StepN Keccak256 Keccak256For32byte (counterpart a) cache garbage s 1 = Some (u, None)
    /\ state_equiv t u.
Proof.
  intros Ha Hg Hv Hd Hpc. pose proof Ha as [Hsi Hco _ Hsha _]. pose proof Hv as [].
  destruct (StepN_well_formed Keccak256 Keccak256For32byte (counterpart a) cache garbage s 1 Hsha Hg Hv) as (u & Hu & Hwf).
  pose proof Hu as Hs. unfold StepN in Hs. unfold l_StepN. cbv zeta in *.
  change (bp_Revision (p_Block (ToVmParameters Keccak256 s))) with (st.s_Revision s) in *.
  change LfvmInterpreter.newestSupportedRevision with SfvmInterpreter.newestSupportedRevision in *.
  destruct (st.s_Revision s >? SfvmInterpreter.newestSupportedRevision); [done|].
  destruct (bool_decide (st.s_Status s = st.Running)) eqn:Er; cbn [negb] in *.
  2: { injection Hs as <-. exists a, s, s. do 3 (split; [done|]). apply state_equiv_equivalence. }
  unfold st.MaxCodeSize, st.MaxStackSize, st.MaxGasUsedByCt in *.
  change (p_Code (ToVmParameters Keccak256 s)) with (ct_code s) in *.
  change (p_CodeHash (ToVmParameters Keccak256 s)) with (Some (Keccak256 (ct_code s))) in *.
  destruct (Convert_coherent Keccak256 deployed collision_free (lv_converter (ca_vm a)) (ct_code s)
    (Some (Keccak256 (ct_code s))) Hco Hd ltac:(unfold MaxUint16; lia) ltac:(by right)) as (cv & res & -> & Hconv & Hco' & Hcfg).
  cbn [mbind option_bind]. set (a1 := mkCtAdapter (mkLfvm _ cv) _).
  assert (test_adapter a1 cache) as Ha1. { destruct Ha. by split; cbn; rewrite ?Hcfg. }
  destruct (getPcMap_ok a1 cache (st.s_Code s) Ha1 Hd ltac:(change (st.Code_Copy (st.s_Code s)) with (ct_code s); lia))
    as (a2 & m & -> & Hm & Ha2 & Hvm). cbn [mbind option_bind].
  change (st.Code_Copy (st.s_Code s)) with (ct_code s) in Hm.
  destruct (genPcMap_ok (ct_code s) ltac:(lia)) as (res' & tr & m' & Hconv' & Hlay & Hm' & Hex).
  rewrite (convert_plain _ _ Hsi), Hconv' in Hconv. injection Hconv as <-. rewrite Hm in Hm'. injection Hm' as <-.
  assert (st.s_Status s = st.Running) as Hrun by (by apply bool_decide_eq_true in Er).
  destruct (start_position s res' tr m Hv Hrun (Hpc Hrun) Hlay Hex) as (j & Hj & Hpos).
  unfold convertCtMemoryToLfvmMemory, convertCtStackToLfvmStack.
  destruct (convertCtMemory_ok (st.s_Memory s) valid_memory) as (mm & Hmem & Hmw & _). rewrite Hmem in *.
  destruct (convertCtStack_ok garbage (st.s_Stack s) Hg) as (stk & Hstk & Hsw & _); [unfold maxStackSize; lia|].
  rewrite Hstk in *. rewrite Hj. cbn [mbind option_bind] in *.
  set (l := mkLContext _ _ _ _ _ _ _ _ _ _).
  destruct (analyzeJumpDest _ _ _) as [an jd] eqn:Ejd. injection Ejd as <- <-.
  set (c := ctContext _ _ _ _ _ _ _) in Hs. cbn [StepN_loop l_StepN_loop] in *.
  destruct (s_execute c) as [[[status|e|] c']|] eqn:Ex; [|done..].
  assert (rel (ct_code s) (findJumpDestinations (ct_code s)) res' (Z.of_nat (Z.to_nat (st.s_Pc s))) (Z.of_nat j) c l) as Hrel.
  { constructor; try done; cbn.
    - constructor; try done. cbn. by rewrite Hvm.
    - split; [done|]. unfold isI64. cbn. lia.
    - lia.
    - pose proof (layout_length (ct_code s) false _ _ _ _ Hlay ltac:(lia)).
      apply i32_id. destruct Hpos as [[_ ->]|(_ & Hat & _)]; [zblia|].
      destruct Hat as (? & ? & ? & ? & Heq & Hlen & _). rewrite Heq, length_app in *. zblia. }
  destruct (execute_same (ct_code s) res' tr m _ j c l status c' ltac:(lia) Hlay Hex Hrel Hpos Ex) as (l' & -> & Hal & Hp').
  cbn [mbind option_bind] in *.
  destruct (updateState status c') as [u'|] eqn:Eu; [|done]. cbn [mbind option_bind] in Hs. injection Hs as ->.
  destruct (updateState_alike m status c' l' u Hal Eu) as (t & Ht & Heq).
  { by rewrite (sb_code _ _ (wf_stable _ _ Hwf)). }
  rewrite Ht. cbn [mbind option_bind]. by exists a2, t, u.
Qed.

(** Beyond the end of the code the map of program counters has no entry, and
    the access to it panics; [sfvm] stops there. *)
Lemma l_StepN_beyond a cache garbage s : test_adapter a cache -> zlen garbage = maxStackSize -> valid s ->
  deployed (ct_code s) -> st.s_Status s = st.Running -> zlen (ct_code s) < st.s_Pc s ->
  l_StepN Keccak256 Keccak256For32byte a cache garbage s 1 = None
  /\ exists u, StepN Keccak256 Keccak256For32byte (counterpart a) cache garbage s 1 = Some (u, None) /\ st.s_Status u = st.Stopped.
Proof.
  intros Ha Hg Hv Hd Hrun Hpc. pose proof Ha as [Hsi Hco _ Hsha _]. pose proof Hv as [].
  destruct (StepN_well_formed Keccak256 Keccak256For32byte (counterpart a) cache garbage s 1 Hsha Hg Hv) as (u & Hu & _).
  split; [|exists u; split; [done|]].
  - unfold l_StepN. cbv zeta. change (bp_Revision (p_Block (ToVmParameters Keccak256 s))) with (st.s_Revision s).
    rewrite Z.gtb_ltb, (proj2 (Z.ltb_ge _ _)) by apply valid_revision. rewrite bool_decide_eq_true_2 by done. cbn [negb].
    unfold st.MaxCodeSize in *. change (p_Code (ToVmParameters Keccak256 s)) with (ct_code s).
    change (p_CodeHash (ToVmParameters Keccak256 s)) with (Some (Keccak256 (ct_code s))).
    destruct (Convert_coherent Keccak256 deployed collision_free (lv_converter (ca_vm a)) (ct_code s)
      (Some (Keccak256 (ct_code s))) Hco Hd ltac:(unfold MaxUint16; lia) ltac:(by right)) as (cv & res & -> & _ & Hco' & Hcfg).
    cbn [mbind option_bind]. set (a1 := mkCtAdapter (mkLfvm _ cv) _).
    assert (test_adapter a1 cache) as Ha1. { destruct Ha. by split; cbn; rewrite ?Hcfg. }
    destruct (getPcMap_ok a1 cache (st.s_Code s) Ha1 Hd ltac:(change (st.Code_Copy (st.s_Code s)) with (ct_code s); lia))
      as (a2 & m & -> & Hm & _). cbn [mbind option_bind]. destruct (convertCtMemoryToLfvmMemory (st.s_Memory s)); [|done].
    apply genPcMap_length in Hm. cbn [mbind option_bind]. change (st.Code_Copy (st.s_Code s)) with (ct_code s) in Hm.
    rewrite lookup_ge_None_2; [done|]. unfold zlen in *. lia.
  - revert Hu. unfold StepN. cbv zeta. change (bp_Revision (p_Block (ToVmParameters Keccak256 s))) with (st.s_Revision s).
    rewrite Z.gtb_ltb, (proj2 (Z.ltb_ge _ _)) by apply valid_revision. rewrite bool_decide_eq_true_2 by done. cbn [negb].
    destruct (convertCtMemoryToSfvmMemory _) as [mm|]; [|done]. destruct (convertCtStackToSfvmStack _ _) as [stk|]; [|done]. cbn [mbind option_bind].
    destruct (analyzeJumpDest _ _ _) as [an jd]. cbn [StepN_loop]. unfold SfvmInterpreter.execute. cbn [SfvmInterpreter.steps].
    set (c := ctContext _ _ _ _ _ _ _). change (c_pc c) with (st.s_Pc s). change (c_code c) with (ct_code s).
    rewrite Z.geb_leb, (proj2 (Z.leb_le _ _)) by lia. cbn [mbind option_bind]. unfold updateState. cbv zeta.
    destruct (convertSfvmStackToCtStack _ _) as [stack|]; [|done]. cbn [mbind option_bind]. case_if; [done|]. cbn [mbind option_bind]. by intros [= <-].
Qed.

(** The step of a test, with the state the adapter returns. *)
Definition l_testStep (a : ctAdapter CL CP Log) cache garbage (t : st.State) : option (st.State * option error) :=
  '(_, result, err) ← l_StepN Keccak256 Keccak256For32byte a cache garbage t 1;
  Some (default t result, err).

Lemma l_StepN_conforms a cache garbage s r : test_adapter a cache -> zlen garbage = maxStackSize -> valid s ->
  deployed (ct_code s) -> st.s_Pc s <= zlen (ct_code s) ->
  In r (getAllRules Keccak256) -> applies (r_Condition r) s = true ->
  exists a' result expected,
    l_StepN Keccak256 Keccak256For32byte a cache garbage s 1 = Some (a', Some result, None)
    /\ test_adapter a' cache
    /\ r_Effect r s = Some expected /\ st.State_Eq Keccak256 result expected = true.
Proof.
  intros Ha Hg Hv Hd Hpc Hr Hap. destruct (l_StepN_same a cache garbage s Ha Hg Hv Hd (fun _ => Hpc)) as (a' & t & u & Hl & Ha' & Hs & Heq).
  destruct (StepN_conforms Keccak256 Keccak256For32byte deployed collision_free (counterpart a) cache garbage s r)
    as (result & expected & Hs' & He & Heq'); [|done..|].
  { destruct Ha. by constructor. }
  rewrite Hs in Hs'. injection Hs' as <-. exists a', t, expected. do 3 (split; [done|]).
  rewrite State_Eq_spec in *. destruct state_equiv_equivalence as [_ _ Htr]. by eapply Htr.
Qed.

Lemma l_runTest_ok a cache garbage pool1 pool2 s : test_adapter a cache -> zlen garbage = maxStackSize ->
  pooled pool1 -> pooled pool2 -> valid s -> deployed (ct_code s) -> st.s_Pc s <= zlen (ct_code s) ->
  exists applicable, GetRulesFor (getAllRules Keccak256) s = Some applicable /\
    runTest Keccak256 (getAllRules Keccak256) (l_testStep a cache garbage) pool1 pool2 s
    = Some (match applicable with [] => TestNoRule | _ :: _ => TestPassed end).
Proof.
  intros Ha Hg Hp1 Hp2 Hv Hd Hpc. apply runTest_conforming; [done..|]. intros t r (stk & _ & ->) Hvt Hr Hap.
  destruct (l_StepN_conforms a cache garbage _ r Ha Hg Hvt Hd Hpc Hr Hap) as (a' & result & expected & Hl & _ & He & Heq).
  exists result, expected. split; [|done]. unfold l_testStep. by rewrite Hl.
Qed.

End Adapter.

End Conform.
