(* ===== verification/CtProperties.v ===== *)
(** * Properties of the conformance tests

    The main theorems about [ct]: [sfvm] and [lfvm] conform to the executable
    specification on every valid state, hence their tests pass and rules that
    apply to one state agree; the comparison of states the tests rely on is
    an equivalence, the codes of the tests mark instructions like the
    interpreter, and the adapter converts stacks and memories without loss.
    The last section records where the specification says less than it
    means to. *)
From Stdlib Require Import ZArith Lia Strings.Byte Eqdep.
From stdpp Require Import base list numbers gmap.
From S2P Require Import Prelude Uint256 Types OpCodes SfvmStack SfvmAnalysis SfvmHashCache.
From S2P Require Import SfvmContext SfvmMemory SfvmGas SfvmInstructions SfvmInterpreter SfvmLogic RefWorld.
From S2P Require Import LfvmOpCodes LfvmConverter LfvmEquivalence LfvmInterpreter LfvmCt LfvmPcMap LfvmConform.
From S2P Require Import CtSlices CtCommon CtState CtRules CtEffects CtSpec.
From S2P Require Import CtAdapter CtStateFacts CtExec CtSim CtConform CtConformance CtRunTest.
Set Default Goal Selector "!".
Local Open Scope Z_scope.
Local Open Scope go_scope.

Section Properties.
Context {U : Uint256} {UL : Uint256Laws U}.
Context (Keccak256 : list byte -> Hash).

Section Interpreter.
Context (Keccak256For32byte : array 32 -> Hash).
Context {C : Type} {L : LRU jumpDestMap C} {LL : LRULaws L}.
Context (deployed : Code -> Prop).

(** C1. [sfvm] conforms to the specification. One step of the interpreter
    under the adapter of the tests, from any valid state, for any rule of the
    specification that applies to the state, any configuration, any content of
    its caches and any pooled stack, does not panic, reports no error, and yields the state the
    effect of the rule yields, up to the comparison of states the tests use. *)
Theorem sfvm_conforms vm cache garbage s r :
  (forall c1 c2, deployed c1 -> deployed c2 -> Keccak256 c1 = Keccak256 c2 -> c1 = c2) ->
  test_vm Keccak256 Keccak256For32byte deployed vm cache -> zlen garbage = maxStackSize ->
  valid s -> deployed (ct_code s) ->
  In r (getAllRules Keccak256) -> applies (r_Condition r) s = true ->
  exists result expected,
    StepN Keccak256 Keccak256For32byte vm cache garbage s 1 = Some (result, None)
    /\ r_Effect r s = Some expected /\ st.State_Eq Keccak256 result expected = true.
Proof. intros Hinj. by apply StepN_conforms. Qed.

(** C2. The tests of [sfvm] pass: on every valid state the test driver finds
    the rules that apply and reports that there is none, or success; it never
    reports a difference, an error of the interpreter, or panics. The two
    clones it makes may carry any words beyond the tops of their stacks. *)
Theorem ct_tests_pass vm cache garbage pool1 pool2 s :
  (forall c1 c2, deployed c1 -> deployed c2 -> Keccak256 c1 = Keccak256 c2 -> c1 = c2) ->
  test_vm Keccak256 Keccak256For32byte deployed vm cache -> zlen garbage = maxStackSize ->
  pooled pool1 -> pooled pool2 -> valid s -> deployed (ct_code s) ->
  let rules := getAllRules Keccak256 in
  let step t := StepN Keccak256 Keccak256For32byte vm cache garbage t 1 in
  exists applicable, GetRulesFor rules s = Some applicable /\
    runTest Keccak256 rules step pool1 pool2 s
    = Some (match applicable with [] => TestNoRule | _ :: _ => TestPassed end).
Proof. intros Hinj. by apply runTest_ok. Qed.

(** C23. Any number of steps under the adapter, from any valid state and
    whether or not a rule applies, is well typed: nothing panics, no error is
    reported, the result has a stack of at most 1024 words, a memory of whole
    words within its limit unless it failed, and no more gas than before; code,
    environment, accounts and original storage are unchanged, warm addresses
    and keys stay warm, logs and calls are only added, and a read-only
    execution writes nothing. *)
Theorem StepN_typed (vm : sfvm C) cache garbage s n :
  sha3_wf Keccak256 Keccak256For32byte cache -> zlen garbage = maxStackSize -> valid s ->
  exists t, StepN Keccak256 Keccak256For32byte vm cache garbage s n = Some (t, None) /\ well_formed s t.
Proof. apply StepN_well_formed. Qed.

End Interpreter.

Section LongForm.
Context (Keccak256For32byte : array 32 -> Hash).
Context {CL CP Log : Type} {LC : LRU LCode CL} {LLC : LRULaws LC} {LP : LRU pcMap CP} {LLP : LRULaws LP}.
Context (deployed : Code -> Prop).

(** C3. [lfvm] without super instructions conforms to the specification: one
    step under its adapter, through the conversion of the code and the map of
    program counters, from any valid state with a program counter up to the end
    of the code and for any rule that applies, yields the state the effect of
    the rule yields, and keeps the caches of the adapter coherent. *)
Theorem lfvm_conforms (a : ctAdapter CL CP Log) cache garbage s r :
  (forall c1 c2, deployed c1 -> deployed c2 -> Keccak256 c1 = Keccak256 c2 -> c1 = c2) ->
  test_adapter Keccak256 Keccak256For32byte deployed a cache -> zlen garbage = maxStackSize ->
  valid s -> deployed (ct_code s) -> st.s_Pc s <= zlen (ct_code s) ->
  In r (getAllRules Keccak256) -> applies (r_Condition r) s = true ->
  exists a' result expected,
    l_StepN Keccak256 Keccak256For32byte a cache garbage s 1 = Some (a', Some result, None)
    /\ test_adapter Keccak256 Keccak256For32byte deployed a' cache
    /\ r_Effect r s = Some expected /\ st.State_Eq Keccak256 result expected = true.
Proof. intros Hinj. by apply l_StepN_conforms. Qed.

(** The tests of [lfvm] pass: the test driver reports that there is no
    rule, or success. *)
Theorem lfvm_tests_pass (a : ctAdapter CL CP Log) cache garbage pool1 pool2 s :
  (forall c1 c2, deployed c1 -> deployed c2 -> Keccak256 c1 = Keccak256 c2 -> c1 = c2) ->
  test_adapter Keccak256 Keccak256For32byte deployed a cache -> zlen garbage = maxStackSize ->
  pooled pool1 -> pooled pool2 -> valid s -> deployed (ct_code s) -> st.s_Pc s <= zlen (ct_code s) ->
  exists applicable, GetRulesFor (getAllRules Keccak256) s = Some applicable /\
    runTest Keccak256 (getAllRules Keccak256) (l_testStep Keccak256 Keccak256For32byte a cache garbage) pool1 pool2 s
    = Some (match applicable with [] => TestNoRule | _ :: _ => TestPassed end).
Proof. intros Hinj. by apply l_runTest_ok. Qed.

(** C25. The two interpreters are indistinguishable under their adapters, step
    by step and also where the specification has no rule: from any valid state
    they yield equal states, unless the state runs with a program counter
    beyond the end of the code. There the adapter of [lfvm] panics, as its map
    of program counters has no entry, where [sfvm] stops. *)
Theorem adapters_agree (a : ctAdapter CL CP Log) cache garbage s :
  (forall c1 c2, deployed c1 -> deployed c2 -> Keccak256 c1 = Keccak256 c2 -> c1 = c2) ->
  test_adapter Keccak256 Keccak256For32byte deployed a cache -> zlen garbage = maxStackSize ->
  valid s -> deployed (ct_code s) ->
  exists u, StepN Keccak256 Keccak256For32byte (counterpart a) cache garbage s 1 = Some (u, None)
    /\ if bool_decide (st.s_Status s = st.Running /\ zlen (ct_code s) < st.s_Pc s)
       then st.s_Status u = st.Stopped /\ l_StepN Keccak256 Keccak256For32byte a cache garbage s 1 = None
       else exists a' t, l_StepN Keccak256 Keccak256For32byte a cache garbage s 1 = Some (a', Some t, None)
              /\ st.State_Eq Keccak256 t u = true.
Proof.
  intros Hinj Ha Hg Hv Hd. case_bool_decide as Hpc.
  - destruct Hpc as [Hr Hpc]. destruct (l_StepN_beyond Keccak256 Keccak256For32byte deployed Hinj a cache garbage s Ha Hg Hv Hd Hr Hpc) as (Hl & u & Hu & Hs).
    by exists u.
  - destruct (l_StepN_same Keccak256 Keccak256For32byte deployed Hinj a cache garbage s Ha Hg Hv Hd) as (a' & t & u & Hl & _ & Hs & He).
    { intros Hr. destruct (Z.le_gt_cases (st.s_Pc s) (zlen (ct_code s))); [done|]. by destruct Hpc. }
    exists u. split; [done|]. exists a', t. split; [done|]. by apply State_Eq_spec.
Qed.

End LongForm.

(** C24. The specification is consistent: all rules that apply to a valid
    state have an effect, and their effects yield equal states. The order in
    which the driver lists the rules therefore does not matter. *)
Theorem rules_consistent s r1 r2 : valid s ->
  In r1 (getAllRules Keccak256) -> applies (r_Condition r1) s = true ->
  In r2 (getAllRules Keccak256) -> applies (r_Condition r2) s = true ->
  exists t1 t2, r_Effect r1 s = Some t1 /\ r_Effect r2 s = Some t2 /\ st.State_Eq Keccak256 t1 t2 = true.
Proof.
  intros Hv H1 A1 H2 A2. set (K32 := fun _ : array 32 => zeroWord).
  set (vm := mkSfvm ctConfig (mkAnalysis (C := assocCache) None 0)).
  destruct (newSha3HashCache_ok Keccak256 K32 2 2) as (cache & _ & Hc).
  set (garbage := replicate (Z.to_nat maxStackSize) (of_Z 0)).
  assert (forall r, In r (getAllRules Keccak256) -> applies (r_Condition r) s = true -> exists result expected,
    StepN Keccak256 K32 vm cache garbage s 1 = Some (result, None)
    /\ r_Effect r s = Some expected /\ st.State_Eq Keccak256 result expected = true) as H.
  { intros r Hr Ha. apply (StepN_conforms Keccak256 K32 (fun c => c = ct_code s)); try done.
    by intros c1 c2 -> ->. }
  destruct (H r1 H1 A1) as (t & t1 & Hs & -> & E1). destruct (H r2 H2 A2) as (t' & t2 & Hs' & -> & E2).
  rewrite Hs in Hs'. simplify_eq. exists t1, t2. do 2 (split; [done|]). rewrite State_Eq_spec in *.
  destruct state_equiv_equivalence as [_ Hsym Htr]. eapply Htr; [apply Hsym, E1|exact E2].
Qed.

(** The comparison the tests decide with is an equivalence of states, so
    that it is a sound notion of passing: it is reflexive, symmetric and
    transitive, although it ignores the data of failed states, program counters
    beyond the code and zero entries of the storage. *)
Theorem State_Eq_equivalence : Equivalence (fun s t => st.State_Eq Keccak256 s t = true).
Proof.
  destruct state_equiv_equivalence as [Hr Hs Ht]. split; intros s; [|intros t|intros t u]; rewrite !State_Eq_spec.
  - apply Hr.
  - apply Hs.
  - apply Ht.
Qed.

End Properties.

(** The codes of the tests mark instructions and data like the
    interpreter: within the code, a position is marked as code exactly if an
    instruction starts there, and the interpreter accepts a jump to it exactly
    if it is marked as code and holds a [JUMPDEST]. *)
Theorem code_marks_agree code pos : zlen code <= st.MaxCodeSize -> 0 <= pos < zlen code ->
  let c := st.NewCode code in
  (st.Code_IsCode c pos = true <-> instr_start code pos)
  /\ (isJumpDest (Some (findJumpDestinations code)) pos = true <->
      st.Code_IsCode c pos = true /\ st.Code_GetOperation c pos = Some (JUMPDEST, None)).
Proof.
  intros Hc Hp c. destruct (NewCode_isCode code) as (Hl & Hi & _).
  assert (st.Code_IsCode c pos = true <-> instr_start code pos) as Hm by (apply Hi; fold c in Hl |- *; lia).
  split; [done|]. unfold st.MaxCodeSize in Hc. rewrite findJumpDestinations_iff by lia. unfold jump_dest.
  rewrite <-Hm. split; intros [H1 H2]; (split; [done|]); revert H2; unfold st.Code_GetOperation; rewrite H1;
    unfold c; cbn [st.code st.NewCode negb]; unfold st.Code_Length; cbn [st.code st.NewCode].
  - intros ->. case_match; [b2p; lia|done].
  - case_match; [b2p; lia|]. destruct (code !! _) eqn:E; [|done]. by intros [= ->].
Qed.

(** C26. The map of program counters of the adapter of [lfvm] is exact: the
    position of every instruction is mapped to the position of the same
    instruction in the long form, and that position back; likewise the ends of
    the codes. *)
Theorem genPcMap_roundtrip code : zlen code + 32 < 2 ^ 16 -> exists res m,
  convert code (mkConversionConfig 0 false) = Some res /\ genPcMap code = Some m
  /\ (forall p op, instr_start code (Z.of_nat p) -> code !! p = Some op ->
        exists q x, evmToLfvm m !! p = Some (Z.of_nat q) /\ lfvmToEvm m !! q = Some (Z.of_nat p)
          /\ res !! q = Some x /\ opcode x = Base op)
  /\ evmToLfvm m !! length code = Some (Z.of_nat (length res))
  /\ lfvmToEvm m !! length res = Some (Z.of_nat (length code)).
Proof. apply genPcMap_bijective. Qed.

(** The conversions of the adapter lose nothing: a stack of the tests
    converted to one of the interpreter and back, into any pooled stacks, has
    the same words, likewise a stack of the interpreter converted back and
    forth, and a memory converted to one of the interpreter, for which the
    interpreter has paid exactly, and back has the same bytes. *)
Theorem conversions_roundtrip garbage (result : st.Stack) :
  zlen garbage = maxStackSize -> pooled result ->
  (forall s, st.Stack_Size s <= st.MaxStackSize ->
     exists v r, convertCtStackToSfvmStack garbage s = Some v /\ convertSfvmStackToCtStack v result = Some r
       /\ st.Stack_Eq r s = true)
  /\ (forall v, stack_wf v ->
     exists s v', convertSfvmStackToCtStack v result = Some s /\ convertCtStackToSfvmStack garbage s = Some v'
       /\ stack_view v' = stack_view v)
  /\ (forall m, ct_mem m -> exists v, convertCtMemoryToSfvmMemory m = Some v /\ mem_wf v
       /\ convertSfvmMemoryToCtMemory v = m).
Proof.
  intros Hg Hp. unfold pooled, st.MaxStackSize, maxStackSize in *. split_and!.
  - intros s Hs. destruct (convertCtStack_ok garbage s Hg Hs) as (v & Hv & Hw & Hview).
    destruct (convertSfvmStack_ok v result Hw Hp) as (r & Hr & Hrs). exists v, r. do 2 (split; [done|]).
    unfold st.Stack_Eq. rewrite bool_decide_eq_true. by rewrite Hrs, Hview, reverse_involutive.
  - intros v Hw. destruct (convertSfvmStack_ok v result Hw Hp) as (s & Hs & Hv).
    destruct (convertCtStack_ok garbage s Hg) as (v' & Hv' & _ & Hview).
    { unfold st.Stack_Size. rewrite Hv. pose proof (view_length v Hw) as Hl. destruct Hw as [_ Hw].
      unfold zlen, st_len, maxStackSize in *. rewrite length_reverse. lia. }
    exists s, v'. do 2 (split; [done|]). by rewrite Hview, Hv, reverse_involutive.
  - intros m Hm. destruct (convertCtMemory_ok m Hm) as (v & -> & Hw & Hs). exists v. do 2 (split; [done|]).
    unfold convertSfvmMemoryToCtMemory, st.Memory_Set. done.
Qed.

(** ** Test cases *)

#[local] Existing Instance uint256_ref.
#[local] Existing Instance uint256_ref_laws.

(** A running state at the start of its code. *)
Definition testState (rev : Z) (code : list byte) (stack : list u256) (gas : Z) (storage : st.Storage)
    (accounts : st.Accounts) : st.State :=
  st.mkState st.Running rev false 0 gas 0 (st.NewCode code) (st.mkStack stack (replicate 1024 (of_Z 9))) []
    storage (st.mkTransientStorage ∅) accounts [] st.zeroCallContext st.NewCallJournal st.zeroBlockContext
    [] [] [] false false [] (mkHashArray None) st.NewTransactionContext.

Definition noStorage : st.Storage := st.mkStorage ∅ ∅ ∅.

Lemma testState_valid rev code stack gas storage accounts :
  R07_Istanbul <= rev <= NewestSupportedRevision -> zlen code <= st.MaxCodeSize ->
  st.Code_IsCode (st.NewCode code) 0 = true -> 0 <= gas <= st.MaxGasUsedByCt -> zlen stack <= st.MaxStackSize ->
  (forall a, zlen (st.Accounts_GetCode accounts a) < 2 ^ 63) ->
  (forall a d, ParseDelegationDesignator (st.Accounts_GetCode accounts a) = (d, true) -> d <> a) ->
  valid (testState rev code stack gas storage accounts).
Proof.
  intros Hr Hc Hi Hg Hs Ha Hd. constructor; try done; unfold testState; cbn [st.s_Stack st.stack st.spare st.s_Memory].
  - rewrite zlen_app. pose proof (zlen_nonneg stack). unfold zlen at 2. rewrite length_replicate. unfold st.MaxStackSize. lia.
  - exists 0. split; [done|]. unfold maxMemoryExpansionSize. lia.
Qed.

Definition testVm : sfvm assocCache := mkSfvm ctConfig (mkAnalysis None 0).

Definition testCache : sha3HashCache :=
  default (mkSha3HashCache (mkHashCache [] ∅ None None 0) (mkHashCache [] ∅ None None 0))
    (newSha3HashCache refHash refHash32 2 2).

Lemma testCache_ok : sha3_wf refHash refHash32 testCache.
Proof. unfold testCache. by destruct (newSha3HashCache_ok refHash refHash32 2 2) as (h & -> & Hh). Qed.

Lemma testVm_ok code : test_vm refHash refHash32 (fun c => c = code) testVm testCache.
Proof. constructor; [done|apply testCache_ok|done]. Qed.

Definition testGarbage : list u256 := replicate 1024 (of_Z 7).

Definition testPool (w : Z) : st.Stack := st.mkStack [] (replicate 1024 (of_Z w)).

Definition runTestOn (s : st.State) : option TestResult :=
  runTest refHash (getAllRules refHash) (fun t => StepN refHash refHash32 testVm testCache testGarbage t 1)
    (testPool 3) (testPool 4) s.

(** [1 + 2]. *)
Definition addState : st.State := testState R13_Cancun [ADD] [of_Z 1; of_Z 2] 10 noStorage st.NewAccounts.

Lemma addState_valid : valid addState.
Proof.
  apply testState_valid; try done; cbn; unfold R07_Istanbul, NewestSupportedRevision, R15_Osaka, st.MaxGasUsedByCt, R13_Cancun; lia.
Qed.

(** The first rule that applies to a state. *)
Definition firstRule (s : st.State) : option Rule := GetRulesFor (getAllRules refHash) s ≫= head.

Definition addRule : Rule := default (mkRule (And []) [] NoEffect) (firstRule addState).

Lemma addRule_applies : In addRule (getAllRules refHash) /\ applies (r_Condition addRule) addState = true.
Proof.
  destruct (GetRulesFor_some (getAllRules refHash) addState addState_valid) as (rs & Hrs & Hin).
  apply Hin. unfold addRule, firstRule. rewrite Hrs. cbn [mbind option_bind].
  destruct rs as [|r rs]; [exfalso|by left]. apply (f_equal (option_map length)) in Hrs. vm_compute in Hrs. discriminate.
Qed.

Lemma sfvm_conforms_witness : exists result expected,
  StepN refHash refHash32 testVm testCache testGarbage addState 1 = Some (result, None)
  /\ r_Effect addRule addState = Some expected /\ st.State_Eq refHash result expected = true.
Proof.
  destruct addRule_applies as [Hin Ha].
  apply (sfvm_conforms refHash refHash32 (fun c => c = [ADD]) testVm testCache testGarbage addState addRule).
  - by intros c1 c2 -> ->.
  - apply testVm_ok.
  - reflexivity.
  - apply addState_valid.
  - reflexivity.
  - exact Hin.
  - exact Ha.
Defined.

Lemma ct_tests_pass_witness : exists applicable, GetRulesFor (getAllRules refHash) addState = Some applicable
  /\ runTestOn addState = Some (match applicable with [] => TestNoRule | _ :: _ => TestPassed end).
Proof.
  unfold runTestOn.
  apply (ct_tests_pass refHash refHash32 (fun c => c = [ADD]) testVm testCache testGarbage (testPool 3) (testPool 4) addState).
  - by intros c1 c2 -> ->.
  - apply testVm_ok.
  - reflexivity.
  - by apply Z.leb_le.
  - by apply Z.leb_le.
  - apply addState_valid.
  - reflexivity.
Defined.

Definition testAdapter : ctAdapter (assocList LCode) (assocList pcMap) unit :=
  mkCtAdapter (mkLfvm (mkLConfig (mkConversionConfig 0 false) true None) (mkConverter (mkConversionConfig 0 false) (Some [])))
    [].

Lemma testAdapter_ok code : test_adapter refHash refHash32 (fun c => c = code) testAdapter testCache.
Proof.
  constructor; [done| | |apply testCache_ok|done].
  - intros cache h res [= <-] Hh. by destruct (lru_New_empty (L := refLRU) 1 [] h res ltac:(reflexivity) Hh).
  - intros h m Hh. by destruct (lru_New_empty (L := refLRU) 1 [] h m ltac:(reflexivity) Hh).
Qed.

Lemma lfvm_conforms_witness : exists a' result expected,
  l_StepN refHash refHash32 testAdapter testCache testGarbage addState 1 = Some (a', Some result, None)
  /\ test_adapter refHash refHash32 (fun c => c = [ADD]) a' testCache
  /\ r_Effect addRule addState = Some expected /\ st.State_Eq refHash result expected = true.
Proof.
  destruct addRule_applies as [Hin Ha].
  apply (lfvm_conforms refHash refHash32 (fun c => c = [ADD]) testAdapter testCache testGarbage addState addRule).
  - by intros c1 c2 -> ->.
  - apply testAdapter_ok.
  - reflexivity.
  - apply addState_valid.
  - reflexivity.
  - by apply Z.leb_le.
  - exact Hin.
  - exact Ha.
Defined.

Lemma lfvm_tests_pass_witness : exists applicable, GetRulesFor (getAllRules refHash) addState = Some applicable
  /\ runTest refHash (getAllRules refHash) (l_testStep refHash refHash32 testAdapter testCache testGarbage)
       (testPool 3) (testPool 4) addState
     = Some (match applicable with [] => TestNoRule | _ :: _ => TestPassed end).
Proof.
  apply (lfvm_tests_pass refHash refHash32 (fun c => c = [ADD]) testAdapter testCache testGarbage (testPool 3) (testPool 4) addState).
  - by intros c1 c2 -> ->.
  - apply testAdapter_ok.
  - reflexivity.
  - by apply Z.leb_le.
  - by apply Z.leb_le.
  - apply addState_valid.
  - reflexivity.
  - by apply Z.leb_le.
Defined.

Lemma adapters_agree_witness : exists u, StepN refHash refHash32 (counterpart testAdapter) testCache testGarbage addState 1 = Some (u, None)
  /\ exists a' t, l_StepN refHash refHash32 testAdapter testCache testGarbage addState 1 = Some (a', Some t, None)
    /\ st.State_Eq refHash t u = true.
Proof.
  apply (adapters_agree refHash refHash32 (fun c => c = [ADD]) testAdapter testCache testGarbage addState).
  - by intros c1 c2 -> ->.
  - apply testAdapter_ok.
  - reflexivity.
  - apply addState_valid.
  - reflexivity.
Defined.

Lemma genPcMap_roundtrip_witness : exists m, genPcMap [PUSH2; x00; x01; ADD; JUMPDEST] = Some m
  /\ lfvmToEvm m !! 5%nat = Some 5.
Proof.
  destruct (genPcMap_roundtrip [PUSH2; x00; x01; ADD; JUMPDEST]) as (res & m & Hc & Hm & _ & _ & He).
  - by apply Z.ltb_lt.
  - exists m. split; [exact Hm|]. revert He. vm_compute in Hc. injection Hc as <-. done.
Defined.

Lemma StepN_typed_witness : exists t,
  StepN refHash refHash32 testVm testCache testGarbage addState 5 = Some (t, None) /\ well_formed addState t.
Proof.
  apply (StepN_typed refHash refHash32 testVm testCache testGarbage addState 5).
  - apply testCache_ok.
  - reflexivity.
  - apply addState_valid.
Defined.

Lemma rules_consistent_witness : exists t1 t2,
  r_Effect addRule addState = Some t1 /\ r_Effect addRule addState = Some t2 /\ st.State_Eq refHash t1 t2 = true.
Proof.
  destruct addRule_applies as [Hin Ha].
  exact (rules_consistent refHash addState addRule addRule addState_valid Hin Ha Hin Ha).
Defined.

(** The comparison ignores the words beyond the tops of the stacks, and is
    transitive on such states. *)
Lemma State_Eq_equivalence_witness :
  st.State_Eq refHash (st.set_Stack (st.mkStack [of_Z 1; of_Z 2] []) addState) addState = true.
Proof.
  apply (@Equivalence_Transitive _ _ (State_Eq_equivalence refHash) _
    (st.set_Stack (st.mkStack [of_Z 1; of_Z 2] [of_Z 5]) addState)); vm_compute; reflexivity.
Defined.

Lemma code_marks_agree_witness :
  let code := [PUSH1; JUMPDEST; JUMPDEST] in
  isJumpDest (Some (findJumpDestinations code)) 2 = true /\ isJumpDest (Some (findJumpDestinations code)) 1 <> true.
Proof.
  assert (zlen [PUSH1; JUMPDEST; JUMPDEST] <= st.MaxCodeSize) as Hc by (by apply Z.leb_le). split.
  - apply (code_marks_agree [PUSH1; JUMPDEST; JUMPDEST] 2 Hc); [by split; [apply Z.leb_le|apply Z.ltb_lt]|done].
  - intros H. apply (code_marks_agree [PUSH1; JUMPDEST; JUMPDEST] 1 Hc) in H as [H _]; [|by split; [apply Z.leb_le|apply Z.ltb_lt]].
    vm_compute in H. discriminate.
Defined.

Lemma conversions_roundtrip_witness : exists v, convertCtMemoryToSfvmMemory (replicate 64 x07) = Some v
  /\ convertSfvmMemoryToCtMemory v = replicate 64 x07.
Proof.
  destruct (conversions_roundtrip testGarbage (testPool 5)) as (_ & _ & Hm).
  - reflexivity.
  - by apply Z.leb_le.
  - destruct (Hm (replicate 64 x07)) as (v & Hv & _ & Hr); [|by exists v].
    exists 2. split; [reflexivity|]. by split; apply Z.leb_le.
Defined.

(** ** Where the specification says less than it means to *)

Section ColdSstore.
Context {U : Uint256} {UL : Uint256Laws U} (Keccak256 : list byte -> Hash).

(** A state that is about to write to a slot the value the slot has, since
    Berlin, with the slot still cold, and nothing else in the way. *)
Record coldAssignment (s : st.State) : Prop := {
  ca_status : st.s_Status s = st.Running;
  ca_revision : R09_Berlin <= st.s_Revision s;
  ca_op : st.Code_GetOperation (st.s_Code s) (st.s_Pc s) = Some (SSTORE, None);
  ca_readOnly : st.s_ReadOnly s = false;
  ca_gas : 2300 < st.s_Gas s;
  ca_stack : 2 <= st.Stack_Size (st.s_Stack s);
  ca_slot : exists key, st.Stack_Get (st.s_Stack s) 0 = Some key /\ st.Storage_IsWarm (st.s_Storage s) key = false
    /\ st.Stack_Get (st.s_Stack s) 1 = Some (st.Storage_GetCurrent (st.s_Storage s) key)
}.

Definition isParam {T} (position : Z) (e : Expression T) : bool := match e with eParam p _ => p =? position | _ => false end.

(** Conditions that such a state does not satisfy. *)
Definition refuted (c : Condition) : bool :=
  match c with
  | cEq lhs rhs =>
      match lhs in Expression T return T -> bool with
      | eStatus => fun status => negb (bool_decide (status = st.Running))
      | eOp position => fun op => isPc position && negb (bool_decide (op = SSTORE))
      | eReadOnly => fun b => b
      | _ => fun _ => false
      end rhs
  | cLt lhs rhs =>
      match lhs in Expression T return T -> bool with
      | eGas => fun n => n <=? 2301
      | eStackSize => fun n => n <=? 2
      | _ => fun _ => false
      end rhs
  | cIsData position => isPc position
  | cRevisionBounds min max => (max <? R09_Berlin) || (NewestSupportedRevision <? min)
  | cIsStorageWarm key => isParam 0 key
  | cStorageConfiguration config key newValue => isParam 0 key && isParam 1 newValue && negb (bool_decide (config = StorageAssigned))
  | _ => false
  end.

(** Every rule has such a condition. *)
Lemma refuted_rules : forallb (fun rule => existsb refuted (getConditions (r_Condition rule))) (getAllRules Keccak256) = true.
Proof. vm_compute. reflexivity. Qed.

Lemma isParam_spec position (e : Expression U256) : isParam position e = true -> exists d, e = eParam position d.
Proof.
  assert (forall T (e : Expression T) (H : T = U256), isParam position e = true -> exists d, eq_rect T Expression e U256 H = eParam position d) as He.
  { intros T e' H. destruct e'; try done. cbn. intros ->%Z.eqb_eq. rewrite <-eq_rect_eq. eauto. }
  apply (He U256 e eq_refl).
Qed.

Lemma param_value position d s v : st.Stack_Get (st.s_Stack s) position = Some v -> Eval (eParam position d) s = Some (v, None).
Proof.
  intros Hv. assert (position < st.Stack_Size (st.s_Stack s)).
  { revert Hv. unfold st.Stack_Get. case_if; [|done]. intros Hl%lookup_lt_Some. unfold st.Stack_Size, zlen in *. b2p. lia. }
  cbn. unfold param_Eval. rewrite Hv, Z.geb_leb, (proj2 (Z.leb_gt _ _)) by done. done.
Qed.

Lemma refuted_spec c s : valid s -> coldAssignment s -> refuted c = true -> applies c s = false.
Proof.
  intros Hv [] Hc. destruct ca_slot0 as (key & Hkey & Hcold & Hval). pose proof (valid_revision s Hv).
  destruct c as [|T e x| |T e x| | | |min max| |position|key'| |config key' new| | | | | | | | | | | | | | |]; try done; cbn in Hc.
  - destruct e; try done.
    + rewrite applies_status, ca_status0, bool_decide_eq_false_2; [done|]. intros <-. done.
    + subst x. by rewrite applies_readOnly, ca_readOnly0.
    + apply andb_true_iff in Hc as [->%isPc_spec Hop]. destruct (applies (cEq (eOp ePc) x) s) eqn:Ea; [|done].
      apply (applies_op s x Hv) in Ea. rewrite ca_op0 in Ea. injection Ea as <-. done.
  - destruct e; try done; b2p.
    + rewrite applies_gas_lt. apply Z.ltb_ge. lia.
    + rewrite applies_size_lt, <-ct_stack_size. apply Z.ltb_ge. lia.
  - rewrite applies_revision. apply andb_false_iff. rewrite !Z.leb_gt. apply orb_true_iff in Hc as [Hc|Hc]; b2p; lia.
  - apply isPc_spec in Hc as ->. pose proof (valid_isCode s Hv ca_status0) as Hcode. pose proof (valid_pc s Hv).
    unfold applies. cbn. unfold st.Code_IsData, U256_IsUint64, U256_Uint64. rewrite IsUint64_law, Uint64_law, NewU256_uval by zblia.
    rewrite Z.mod_small, Hcode by zblia. by case_if.
  - apply isParam_spec in Hc as [d ->]. unfold applies. cbn [Condition_Check]. unfold isStorageWarm_Check. rewrite (param_value 0 d s key Hkey). cbn.
    by rewrite Hcold.
  - apply andb_true_iff in Hc as [[[d ->]%isParam_spec [d' ->]%isParam_spec]%andb_true_iff Hn]. apply negb_true_iff, bool_decide_eq_false in Hn.
    unfold applies. cbn [Condition_Check]. unfold storageConfiguration_Check. rewrite (param_value 0 d s key Hkey). cbn [eval_bind].
    rewrite (param_value 1 d' s _ Hval). cbn [eval_bind]. unfold CheckStorageStatusConfig, GetStorageStatus. rewrite arr_eqb_refl.
    by rewrite bool_decide_eq_false_2.
Qed.

(** C37. There are valid states without a rule: from Berlin on, and for any
    hash function, a state that is about to write to a slot the value the slot
    has while the slot is cold, not read-only, with more than 2300 gas and two
    values on its stack, has the storage status [StorageAssigned], for which
    the specification has rules for warm slots only. The driver reports that
    there is no rule, whatever the interpreter does. *)
Theorem sstore_cold_unspecified step pool1 pool2 s : valid s -> coldAssignment s ->
  GetRulesFor (getAllRules Keccak256) s = Some []
  /\ runTest Keccak256 (getAllRules Keccak256) step pool1 pool2 s = Some TestNoRule.
Proof.
  intros Hv Hs. assert (GetRulesFor (getAllRules Keccak256) s = Some []) as Hr; [|split; [done|]; unfold runTest; by rewrite Hr].
  unfold GetRulesFor. rewrite (ca_op s Hs). f_equal. destruct (List.filter _ _) as [|rule l] eqn:E; [done|].
  assert (In rule (rule :: l)) as Hin by (by left). rewrite <-E in Hin. apply List.filter_In in Hin as [Hin Ha].
  apply List.filter_In in Hin as [Hin _]. pose proof refuted_rules as Hall. rewrite List.forallb_forall in Hall.
  specialize (Hall rule Hin). apply List.existsb_exists in Hall as (c & Hc & Href). apply applies_getConditions in Ha.
  rewrite List.Forall_forall in Ha. specialize (Ha c Hc). by rewrite refuted_spec in Ha.
Qed.

End ColdSstore.

(** Writing zero to a slot that is zero and has not been accessed. *)
Definition sstoreState : st.State := testState R13_Cancun [SSTORE] [of_Z 0; of_Z 0] 100000 noStorage st.NewAccounts.

Lemma sstore_cold_unspecified_witness : GetRulesFor (getAllRules refHash) sstoreState = Some [] /\ runTestOn sstoreState = Some TestNoRule.
Proof.
  apply (sstore_cold_unspecified refHash).
  - apply testState_valid; try done.
  - split; try done; try (by apply Z.leb_le). exists (of_Z 0). split_and!; vm_compute; reflexivity.
Defined.

Definition firstAddress : Address := to_array 20 (be_bytes 20 1).

(** A call of a cold account whose code delegates to the account itself. *)
Definition selfDelegationState : st.State :=
  testState R14_Prague [CALL] (replicate 5 (of_Z 0) ++ [of_Z 1; of_Z 0]) 100000 noStorage
    (st.mkAccounts {[ firstAddress := st.mkAccount (of_Z 0) ([xef; x01; x00] ++ arr_bytes firstAddress) ]} ∅).

(** C39. A counterexample to conformance without the condition that no account
    delegates to itself: in Prague, with 100000 gas, a [CALL] without value and
    without data of a cold account with no balance whose code delegates to the
    account itself. The specification looks at the delegate before it marks the
    target as warm and charges two cold accesses, [sfvm] marks the target first,
    and the test of the state fails with 2500 gas more in the result of [sfvm]
    than expected. *)
Theorem self_delegation_differs :
  match runTestOn selfDelegationState with
  | Some (TestFailed result expected) => st.s_Gas result = st.s_Gas expected + 2500
  | _ => False
  end.
Proof. vm_compute. reflexivity. Qed.
