(* ===== verification/CtRand.v ===== *)
(** * Random sources and generators of the conformance tests

    The random source of the generators, [pgregory.net/rand], as an interface
    with its documented laws; the monad of the generators of [go/ct/gen],
    which draw from the source, extend an assignment of variables, fail with
    an error of [go/ct/gen/error.go] or panic; and the random values of
    [go/ct/common].

    What a run of a generator depends on besides its constraints is part of
    the source: the draws, the draws of the global source, which
    [accounts.go] uses, and the orders in which Go ranges over maps. *)
From Stdlib Require Import ZArith Lia Strings.Byte Permutation.
From stdpp Require Import base list numbers gmap strings sorting.
From S2P Require Import Prelude Uint256 Types CtCommon.
Set Default Goal Selector "!".
Local Open Scope Z_scope.
Local Open Scope go_scope.

(** ** The source *)

Class Rand (R : Type) := {
  Rand_Uint64 : R -> Z * R;
  Rand_Uint64n : Z -> R -> Z * R;
  Rand_Uint32n : Z -> R -> Z * R;
  (** For a positive argument; the others panic. *)
  Rand_Int31n : Z -> R -> Z * R;
  Rand_Intn : Z -> R -> Z * R;
  Rand_Int : R -> Z * R;
  Rand_Int63 : R -> Z * R;
  (** [rand.Intn] of the package, which has a source of its own. *)
  Global_Intn : Z -> R -> Z * R;
  (** The bytes [Read] writes to a slice of this length. *)
  Rand_Read : nat -> R -> list byte * R;
  (** [int(ExpFloat64() * 200)] and [int(ExpFloat64() / (1.0/200))]. *)
  Rand_ExpTimes200 : R -> Z * R;
  Rand_ExpOver200th : R -> Z * R;
  (** The order in which a map with these entries is ranged over. *)
  Map_order {A} : list A -> R -> list A * R;
  (** Draws after which a loop that waits for a value other than [n] given
      ones is over. *)
  Rand_patience : nat -> nat
}.

(** ** The monad *)

(** [Variable], a string, and [Assignment]. *)
Abbreviation Var := string.
Abbreviation Assignment := (gmap string U256).

(** [ErrUnsatisfiable], [ErrUnboundVariable], and the error of a check that
    never fails. *)
Inductive GenErr := ErrUnsatisfiable | ErrUnboundVariable | ErrInternal.

Record world (R : Type) := mkWorld { w_rnd : R; w_assignment : Assignment }.
Arguments mkWorld {R} _ _.
Arguments w_rnd {R} _.
Arguments w_assignment {R} _.

(** A value and the world after it; an error and the source after it, as no
    caller looks at the assignment again; a panic; a loop that has not ended. *)
Inductive genResult (R A : Type) :=
| gOk (a : A) (w : world R)
| gErr (e : GenErr) (r : R)
| gPanic
| gLoop.
Arguments gOk {R A} _ _.
Arguments gErr {R A} _ _.
Arguments gPanic {R A}.
Arguments gLoop {R A}.

Definition Gen (R A : Type) : Type := world R -> genResult R A.

#[global] Instance Gen_ret R : MRet (Gen R) := fun A a w => gOk a w.

#[global] Instance Gen_bind R : MBind (Gen R) := fun A B f m w =>
  match m w with
  | gOk a w => f a w
  | gErr e r => gErr e r
  | gPanic => gPanic
  | gLoop => gLoop
  end.

Section Primitives.
Context {R : Type}.

Definition gen_fail {A} (e : GenErr) : Gen R A := fun w => gErr e (w_rnd w).
Definition gen_panic {A} : Gen R A := fun _ => gPanic.

Definition gen_draw {A} (f : R -> A * R) : Gen R A :=
  fun w => let '(a, r) := f (w_rnd w) in gOk a (mkWorld r (w_assignment w)).

Definition gen_lookup (v : Var) : Gen R (option U256) := fun w => gOk (w_assignment w !! v) w.

Definition gen_assign (v : Var) (x : U256) : Gen R unit :=
  fun w => gOk tt (mkWorld (w_rnd w) (<[v := x]> (w_assignment w))).

(** A function that panics when it has no result. *)
Definition gen_lift {A} (o : option A) : Gen R A :=
  match o with Some a => mret a | None => gen_panic end.

Definition gen_fail_if (b : bool) (e : GenErr) : Gen R unit := if b then gen_fail e else mret tt.

(** [for _, x := range l] with the variables of the loop in [b]. *)
Fixpoint gen_for {A B} (f : B -> A -> Gen R B) (l : list A) (b : B) : Gen R B :=
  match l with
  | [] => mret b
  | x :: l => b ← f b x; gen_for f l b
  end.

(** [n] results in a row. *)
Fixpoint gen_repeat {A} (n : nat) (m : Gen R A) : Gen R (list A) :=
  match n with
  | O => mret []
  | S n => x ← m; l ← gen_repeat n m; mret (x :: l)
  end.

Context `{RND : Rand R}.

Definition gen_Uint64 : Gen R Z := gen_draw Rand_Uint64.
Definition gen_Uint64n (n : Z) : Gen R Z := gen_draw (Rand_Uint64n n).
Definition gen_Uint32n (n : Z) : Gen R Z := gen_draw (Rand_Uint32n n).
Definition gen_Int31n (n : Z) : Gen R Z := if n <=? 0 then gen_panic else gen_draw (Rand_Int31n n).
Definition gen_Intn (n : Z) : Gen R Z := if n <=? 0 then gen_panic else gen_draw (Rand_Intn n).
Definition gen_Int : Gen R Z := gen_draw Rand_Int.
Definition gen_Int63 : Gen R Z := gen_draw Rand_Int63.
Definition gen_globalIntn (n : Z) : Gen R Z := if n <=? 0 then gen_panic else gen_draw (Global_Intn n).
Definition gen_Read (n : nat) : Gen R (list byte) := gen_draw (Rand_Read n).

(** [for k, v := range m]: the entries in some order. *)
Definition gen_range {K V} `{Countable K} (m : gmap K V) : Gen R (list (K * V)) :=
  gen_draw (Map_order (map_to_list m)).

(** [for { x := draw(); if x is not in bad { return x } }]. *)
Fixpoint gen_until_loop {A} `{EqDecision A} (fuel : nat) (draw : Gen R A) (bad : list A) : Gen R A :=
  match fuel with
  | O => fun _ => gLoop
  | S fuel =>
      x ← draw;
      if bool_decide (x ∈ bad) then gen_until_loop fuel draw bad else mret x
  end.

Definition gen_until {A} `{EqDecision A} (draw : Gen R A) (bad : list A) : Gen R A :=
  gen_until_loop (Rand_patience (length bad)) draw bad.

(** ** Random values of [go/ct/common] *)

Definition RandU256 : Gen R U256 :=
  l0 ← gen_Uint64; l1 ← gen_Uint64; l2 ← gen_Uint64; l3 ← gen_Uint64;
  mret (of_limbs [l0; l1; l2; l3]).

Definition RandU256Between `{Uint256} (min max : U256) : Gen R U256 :=
  if Int_Gt min max then gen_panic
  else
    let rangeValue := U256_Add (U256_Sub max min) (NewU256 1) in
    randValue ← RandU256;
    let randValue := U256_Mod randValue rangeValue in
    mret (U256_Add min randValue).

Definition RandomBytesOfSize (size : Z) : Gen R Bytes :=
  if size <? 0 then gen_panic else gen_Read (Z.to_nat size).

Definition RandomBytes (maxSize : Z) : Gen R Bytes :=
  n ← gen_draw Rand_ExpTimes200;
  let size := Z.min n maxSize in
  RandomBytesOfSize size.

Definition RandomAddress : Gen R Address := l ← gen_Read 20; mret (to_array 20 l).

Definition GetRandomHash : Gen R Hash := l ← gen_Read 32; mret (to_array 32 l).

Definition NewRandomImmutableHashArray : Gen R ImmutableHashArray :=
  hashes ← gen_repeat 256 GetRandomHash;
  mret (mkHashArray (Some hashes)).

End Primitives.

(** ** The laws of the source *)

(** The world after so many runs of [draw], whatever they return. *)
Fixpoint nth_draw {R A} (draw : Gen R A) (n : nat) (w : world R) : genResult R A :=
  match n with
  | O => draw w
  | S n => match draw w with gOk _ w => nth_draw draw n w | r => r end
  end.

(** Among the first [Rand_patience (length bad)] results of [draw] there is
    one that is not in [bad], as long as [bad] is not too long. *)
Definition escapes {R A} `{Rand R} (draw : Gen R A) : Prop :=
  forall (bad : list A) w, zlen bad < 2 ^ 20 -> exists n a w',
    (n < Rand_patience (length bad))%nat /\ nth_draw draw n w = gOk a w' /\ a ∉ bad.

(** The documented behaviour of the package and of Go's maps, and that the
    source is not stuck: waiting for a value that has not been used ends. *)
Class RandLaws (R : Type) (RND : Rand R) : Prop := {
  Uint64_rnd r : isU64 (fst (Rand_Uint64 r));
  Uint64n_rnd n r : isU64 n -> 0 <= fst (Rand_Uint64n n r) /\ (fst (Rand_Uint64n n r) < n \/ n = 0 /\ fst (Rand_Uint64n n r) = 0);
  Uint32n_rnd n r : 0 < n < 2 ^ 32 -> 0 <= fst (Rand_Uint32n n r) < n;
  Int31n_rnd n r : 0 < n < 2 ^ 31 -> 0 <= fst (Rand_Int31n n r) < n;
  Intn_rnd n r : 0 < n < 2 ^ 63 -> 0 <= fst (Rand_Intn n r) < n;
  globalIntn_rnd n r : 0 < n < 2 ^ 63 -> 0 <= fst (Global_Intn n r) < n;
  Int_rnd r : 0 <= fst (Rand_Int r) < 2 ^ 63;
  Int63_rnd r : 0 <= fst (Rand_Int63 r) < 2 ^ 63;
  Read_rnd n r : length (fst (Rand_Read n r)) = n;
  (** An exponentially distributed number is positive; the tables it is drawn
      from keep it far below the range of [int]. *)
  ExpTimes200_rnd r : 0 <= fst (Rand_ExpTimes200 r) < 2 ^ 62;
  ExpOver200th_rnd r : 0 <= fst (Rand_ExpOver200th r) < 2 ^ 62;
  Map_order_rnd {A} (l : list A) r : Permutation (fst (Map_order l r)) l;
  RandU256_escapes : escapes RandU256;
  RandomAddress_escapes : escapes RandomAddress
}.

(** ** Reasoning about generators *)

(** [m] returns a value with [Q] or an error with [E]; it does not panic and
    it ends. *)
Definition gwp {R A} (m : Gen R A) (Q : A -> world R -> Prop) (E : GenErr -> Prop) (w : world R) : Prop :=
  match m w with
  | gOk a w => Q a w
  | gErr e _ => E e
  | gPanic | gLoop => False
  end.

Section Rules.
Context {R : Type}.
Implicit Types w : world R.

Lemma gwp_ret {A} (a : A) Q E w : Q a w -> gwp (mret a) Q E w.
Proof. done. Qed.

Lemma gwp_bind {A B} (m : Gen R A) (f : A -> Gen R B) Q E w :
  gwp m (fun a => gwp (f a) Q E) E w -> gwp (mbind f m) Q E w.
Proof. unfold gwp, mbind, Gen_bind. by destruct (m w). Qed.

Lemma gwp_mono {A} (m : Gen R A) (Q Q' : A -> world R -> Prop) (E E' : GenErr -> Prop) w :
  gwp m Q E w -> (forall a w', Q a w' -> Q' a w') -> (forall e, E e -> E' e) -> gwp m Q' E' w.
Proof. unfold gwp. destruct (m w); auto. Qed.

Lemma gwp_fail {A} e (Q : A -> world R -> Prop) (E : GenErr -> Prop) w : E e -> gwp (gen_fail e) Q E w.
Proof. done. Qed.

Lemma gwp_fail_if b e Q (E : GenErr -> Prop) w :
  (b = true -> E e) -> (b = false -> Q tt w) -> gwp (gen_fail_if b e) Q E w.
Proof. destruct b; unfold gwp; cbn; auto. Qed.

Lemma gwp_if {A} (b : bool) (m1 m2 : Gen R A) Q E w :
  (b = true -> gwp m1 Q E w) -> (b = false -> gwp m2 Q E w) -> gwp (if b then m1 else m2) Q E w.
Proof. destruct b; auto. Qed.

Lemma gwp_draw {A} (f : R -> A * R) (Q : A -> world R -> Prop) E w :
  (forall r, Q (fst (f (w_rnd w))) (mkWorld r (w_assignment w))) -> gwp (gen_draw f) Q E w.
Proof. intros H. unfold gwp, gen_draw. specialize (H (snd (f (w_rnd w)))). by destruct (f (w_rnd w)). Qed.

Lemma gwp_lookup v (Q : option U256 -> world R -> Prop) E w :
  Q (w_assignment w !! v) w -> gwp (gen_lookup v) Q E w.
Proof. done. Qed.

Lemma gwp_assign v x (Q : unit -> world R -> Prop) E w :
  Q tt (mkWorld (w_rnd w) (<[v := x]> (w_assignment w))) -> gwp (gen_assign v x) Q E w.
Proof. done. Qed.

Lemma gwp_lift {A} (o : option A) a (Q : A -> world R -> Prop) E w : o = Some a -> Q a w -> gwp (gen_lift o) Q E w.
Proof. by intros ->. Qed.

(** The loop rule: [I done b w] holds before the element after [done]. *)
Lemma gwp_for {A B} (f : B -> A -> Gen R B) (I : list A -> B -> world R -> Prop) E l b w :
  I [] b w ->
  (forall done x rest b w, l = done ++ x :: rest -> I done b w ->
     gwp (f b x) (I (done ++ [x])) E w) ->
  gwp (gen_for f l b) (I l) E w.
Proof.
  intros H0 Hs.
  assert (forall rest done b w, l = done ++ rest -> I done b w -> gwp (gen_for f rest b) (I l) E w) as H.
  { clear b w H0. induction rest as [|x rest IH]; intros done b w -> HI; cbn [gen_for].
    - by rewrite app_nil_r.
    - apply gwp_bind. eapply gwp_mono; [by eapply Hs| |done].
      intros b' w' H'. eapply IH; [|done]. by rewrite <-app_assoc. }
  by apply (H l []).
Qed.

(** An invariant that does not depend on the elements left. *)
Lemma gwp_for_inv {A B} (f : B -> A -> Gen R B) (I : B -> world R -> Prop) E l b w :
  I b w -> (forall x b w, x ∈ l -> I b w -> gwp (f b x) I E w) -> gwp (gen_for f l b) I E w.
Proof.
  intros H0 Hs. apply (gwp_for f (fun _ => I)); [done|].
  intros done x rest b' w' -> HI. apply Hs; [|done]. apply elem_of_app. right. left.
Qed.

Lemma gwp_repeat {A} n (m : Gen R A) (P : A -> Prop) (I : world R -> Prop) E w :
  I w -> (forall w, I w -> gwp m (fun a w => P a /\ I w) E w) ->
  gwp (gen_repeat n m) (fun l w => length l = n /\ Forall P l /\ I w) E w.
Proof.
  intros H0 Hs. revert w H0. induction n as [|n IH]; intros w HI; cbn [gen_repeat].
  - by repeat split.
  - apply gwp_bind. eapply gwp_mono; [by apply Hs| |done].
    intros a w' [Ha HI']. apply gwp_bind. eapply gwp_mono; [by apply IH| |done].
    intros l w'' (Hl & Hf & HI''). apply gwp_ret. cbn. auto.
Qed.

(** What holds in any case, and what holds under a condition. *)
Lemma gwp_cond {A} (m : Gen R A) (C : Prop) (Q P : A -> world R -> Prop) (E : GenErr -> Prop) w :
  gwp m Q E w -> (C -> gwp m P E w) -> gwp m (fun a w' => Q a w' /\ (C -> P a w')) E w.
Proof. unfold gwp. destruct (m w); auto. Qed.

(** A draw leaves the assignment alone. *)
Definition draws {A} (m : Gen R A) (P : A -> Prop) : Prop := forall E w,
  gwp m (fun a w' => P a /\ w_assignment w' = w_assignment w) E w.

Lemma gwp_draws {A} (m : Gen R A) (P : A -> Prop) (Q : A -> world R -> Prop) E w : draws m P ->
  (forall a r, P a -> Q a (mkWorld r (w_assignment w))) -> gwp m Q E w.
Proof.
  intros Hm HQ. eapply gwp_mono; [apply (Hm E)| |done].
  intros a [r s] [Ha Hw]. cbn in Hw. subst s. by apply HQ.
Qed.

Lemma draws_bind {A B} (m : Gen R A) (f : A -> Gen R B) (P : A -> Prop) (Q : B -> Prop) :
  draws m P -> (forall a, P a -> draws (f a) Q) -> draws (mbind f m) Q.
Proof.
  intros Hm Hf E w. apply gwp_bind. eapply gwp_draws; [done|].
  intros a r Ha. exact (Hf a Ha E (mkWorld r (w_assignment w))).
Qed.

Lemma draws_ret {A} (a : A) (P : A -> Prop) : P a -> draws (mret a) P.
Proof. by split. Qed.

Lemma draws_mono {A} (m : Gen R A) (P Q : A -> Prop) : draws m P -> (forall a, P a -> Q a) -> draws m Q.
Proof. intros Hm HQ E w. eapply gwp_draws; [done|]. auto. Qed.

Lemma draws_draw {A} (f : R -> A * R) (P : A -> Prop) : (forall r, P (fst (f r))) -> draws (gen_draw f) P.
Proof. intros H E w. apply gwp_draw. intros r. by split. Qed.

Lemma draws_repeat {A} n (m : Gen R A) (P : A -> Prop) : draws m P ->
  draws (gen_repeat n m) (fun l => length l = n /\ Forall P l).
Proof.
  intros H E w. eapply gwp_mono.
  - apply (gwp_repeat n m P (fun w' => w_assignment w' = w_assignment w)); [done|].
    intros w' <-. apply (H E w').
  - cbn. tauto.
  - done.
Qed.

End Rules.

Section SourceRules.
Context {R : Type} {RND : Rand R} {RL : RandLaws R RND}.

Lemma draws_Uint64 : draws gen_Uint64 isU64.
Proof. apply draws_draw, Uint64_rnd. Qed.

Lemma draws_Uint64n n : 0 < n < 2 ^ 64 -> draws (gen_Uint64n n) (fun x => 0 <= x < n).
Proof. intros H. apply draws_draw. intros r. pose proof (Uint64n_rnd n r ltac:(zblia)). lia. Qed.

Lemma draws_Int31n n : 0 < n < 2 ^ 31 -> draws (gen_Int31n n) (fun x => 0 <= x < n).
Proof.
  intros H. unfold gen_Int31n. rewrite (proj2 (Z.leb_gt _ _)) by lia.
  apply draws_draw. intros r. by apply Int31n_rnd.
Qed.

Lemma draws_Intn n : 0 < n < 2 ^ 63 -> draws (gen_Intn n) (fun x => 0 <= x < n).
Proof.
  intros H. unfold gen_Intn. rewrite (proj2 (Z.leb_gt _ _)) by lia.
  apply draws_draw. intros r. by apply Intn_rnd.
Qed.

Lemma draws_globalIntn n : 0 < n < 2 ^ 63 -> draws (gen_globalIntn n) (fun x => 0 <= x < n).
Proof.
  intros H. unfold gen_globalIntn. rewrite (proj2 (Z.leb_gt _ _)) by lia.
  apply draws_draw. intros r. by apply globalIntn_rnd.
Qed.

Lemma draws_Int63 : draws gen_Int63 (fun x => 0 <= x < 2 ^ 63).
Proof. apply draws_draw. intros r. apply Int63_rnd. Qed.

Lemma draws_Int : draws gen_Int (fun x => 0 <= x < 2 ^ 63).
Proof. apply draws_draw. intros r. apply Int_rnd. Qed.

Lemma draws_Uint32n n : 0 < n < 2 ^ 32 -> draws (gen_Uint32n n) (fun x => 0 <= x < n).
Proof. intros H. apply draws_draw. intros r. by apply Uint32n_rnd. Qed.

Lemma draws_Read n : draws (gen_Read n) (fun l => length l = n).
Proof. apply draws_draw, Read_rnd. Qed.

Lemma draws_range {K V} `{Countable K} (m : gmap K V) :
  draws (gen_range m) (fun l => Permutation l (map_to_list m)).
Proof. apply draws_draw. intros r. apply Map_order_rnd. Qed.

Lemma draws_RandU256 : draws RandU256 (fun _ => True).
Proof. repeat (eapply draws_bind; [apply draws_Uint64|intros ? _]). by apply draws_ret. Qed.

Lemma draws_RandomBytesOfSize n : 0 <= n -> draws (RandomBytesOfSize n) (fun l => zlen l = n).
Proof.
  intros H. unfold RandomBytesOfSize. rewrite (proj2 (Z.ltb_ge _ _)) by lia.
  eapply draws_mono; [apply draws_Read|]. intros l Hl. cbn beta in Hl. unfold zlen. lia.
Qed.

Lemma draws_RandomBytes n : 0 <= n -> draws (RandomBytes n) (fun l => zlen l <= n).
Proof.
  intros H. eapply draws_bind; [apply (draws_draw _ (fun x => 0 <= x)); intros r; apply ExpTimes200_rnd|].
  intros a Ha. cbn beta in Ha. eapply draws_mono; [apply draws_RandomBytesOfSize; lia|]. cbn beta. lia.
Qed.

Lemma draws_RandomAddress : draws RandomAddress (fun _ => True).
Proof. eapply draws_bind; [apply draws_Read|]. intros. by apply draws_ret. Qed.

Lemma draws_GetRandomHash : draws GetRandomHash (fun _ => True).
Proof. eapply draws_bind; [apply draws_Read|]. intros. by apply draws_ret. Qed.

Lemma draws_NewRandomImmutableHashArray :
  draws NewRandomImmutableHashArray (fun h => exists l, h = mkHashArray (Some l) /\ length l = 256%nat).
Proof.
  eapply draws_bind; [apply draws_repeat, draws_GetRandomHash|].
  intros l [Hl _]. apply draws_ret. eauto.
Qed.

(** Waiting for a new value ends with one. *)
Lemma draws_until {A} `{EqDecision A} (m : Gen R A) (P : A -> Prop) bad : draws m P -> escapes m -> zlen bad < 2 ^ 20 ->
  draws (gen_until m bad) (fun a => P a /\ a ∉ bad).
Proof.
  intros Hm He Hbad E w. unfold gen_until.
  destruct (He bad w Hbad) as (n & a & w' & Hn & Ha & Hb). revert n w w' Hn Ha.
  induction (Rand_patience (length bad)) as [|fuel IH]; intros n w w' Hn Ha; [lia|].
  cbn [gen_until_loop]. apply gwp_bind. pose proof (Hm E w) as Hw. unfold gwp in *.
  destruct (m w) as [x wx| | |] eqn:Em; [|done..]. destruct Hw as [Hx Hwx].
  destruct (bool_decide_reflect (x ∈ bad)) as [Hin|Hin]; [|done].
  destruct n as [|n]; cbn [nth_draw] in Ha; rewrite Em in Ha.
  - congruence.
  - rewrite <-Hwx. eapply IH; [|done]. lia.
Qed.

Lemma draws_RandU256Between `{UL : Uint256Laws} lo hi : uval lo <= uval hi ->
  draws (RandU256Between lo hi) (fun x => uval lo <= uval x <= uval hi).
Proof.
  intros H. unfold RandU256Between. rewrite Gt_law, Z.gtb_ltb, (proj2 (Z.ltb_ge _ _)) by lia.
  eapply draws_bind; [apply draws_RandU256|]. intros x _. apply draws_ret.
  unfold U256_Add, U256_Mod, U256_Sub. rewrite Add_law, Mod_law, Add_law, Sub_law, NewU256_uval by zblia.
  pose proof (uval_range lo). pose proof (uval_range hi). pose proof (uval_range x).
  rewrite (Z.mod_small (uval hi - uval lo)) by lia.
  case_if.
  - rewrite Z.add_0_r, Z.mod_small by lia. lia.
  - assert (uval hi - uval lo + 1 < M256) as Hr.
    { destruct (Z.eq_dec (uval hi - uval lo + 1) M256) as [e|]; [|lia]. rewrite e, Z.mod_same in E by done. done. }
    rewrite (Z.mod_small (uval hi - uval lo + 1)) by lia.
    pose proof (Z.mod_pos_bound (uval x) (uval hi - uval lo + 1) ltac:(lia)).
    rewrite Z.mod_small by lia. lia.
Qed.

End SourceRules.

(** ** Sorting and sets *)

(** [if !slices.Contains(l, x) { l = append(l, x) }]. *)
Definition add_once {A} `{EqDecision A} (x : A) (l : list A) : list A :=
  if bool_decide (x ∈ l) then l else l ++ [x].

Lemma elem_of_add_once {A} `{EqDecision A} (x y : A) l : y ∈ add_once x l <-> y = x \/ y ∈ l.
Proof.
  unfold add_once. case_bool_decide as Hx.
  - naive_solver.
  - rewrite elem_of_app, list_elem_of_singleton. tauto.
Qed.

Lemma NoDup_add_once {A} `{EqDecision A} (x : A) l : NoDup l -> NoDup (add_once x l).
Proof.
  intros H. unfold add_once. case_bool_decide as Hx; [done|].
  apply NoDup_app. repeat split; [done| |apply NoDup_singleton].
  intros y Hy ->%list_elem_of_singleton. done.
Qed.

Lemma elem_of_map {A B} (f : A -> B) l y : y ∈ map f l <-> exists x, y = f x /\ x ∈ l.
Proof. apply list_elem_of_fmap. Qed.

(** [sort.Slice(l, less)]; on lists without duplicates and with a total order
    the result is the only sorted one. *)
Definition sort_by {A} (less : A -> A -> bool) (l : list A) : list A :=
  merge_sort (fun a b => Is_true (negb (less b a))) l.

(** Two neighbours with a conflict. *)
Fixpoint has_adjacent {A} (conflict : A -> A -> bool) (l : list A) : bool :=
  match l with
  | a :: ((b :: _) as l') => if conflict a b then true else has_adjacent conflict l'
  | _ => false
  end.

Lemma elem_of_sort_by {A} (less : A -> A -> bool) l x : x ∈ sort_by less l <-> x ∈ l.
Proof. unfold sort_by. by rewrite merge_sort_Permutation. Qed.

Lemma length_sort_by {A} (less : A -> A -> bool) l : length (sort_by less l) = length l.
Proof. apply Permutation_length, merge_sort_Permutation. Qed.

Lemma sort_by_sorted {A} (less : A -> A -> bool) (P : A -> A -> Prop) l : Transitive P ->
  (forall a b, less a b = true -> less b a = false) -> (forall a b, less b a = false -> P a b) ->
  StronglySorted P (sort_by less l).
Proof.
  intros Ht Has HP. apply Sorted_StronglySorted; [done|].
  assert (Sorted (fun a b => Is_true (negb (less b a))) (sort_by less l)) as Hs.
  { apply Sorted_merge_sort. intros a b. destruct (less b a) eqn:E; [right|by left].
    rewrite (Has _ _ E). done. }
  induction Hs as [|a l' Hs IH Hd]; constructor; [done|].
  destruct Hd; constructor. apply HP. by destruct (less _ _).
Qed.

(** In a list sorted by a key, elements with the same key agree if neighbours
    do. *)
Lemma no_adjacent {A B} (f : A -> string) (g : A -> B) (conflict : A -> A -> bool) l :
  StronglySorted (fun a b => String.le (f a) (f b)) l ->
  (forall a b, f a = f b -> conflict a b = false -> g a = g b) ->
  has_adjacent conflict l = false -> forall a b, a ∈ l -> b ∈ l -> f a = f b -> g a = g b.
Proof.
  intros Hs Hc. induction Hs as [|a l Hs IH Hf]; intros Hn; [intros a b []%not_elem_of_nil|].
  destruct l as [|b l].
  { intros x y ->%list_elem_of_singleton ->%list_elem_of_singleton. done. }
  cbn [has_adjacent] in Hn. destruct (conflict a b) eqn:Eab; [done|]. specialize (IH Hn).
  assert (forall y, y ∈ b :: l -> f a = f y -> g a = g y) as Hy.
  { intros y Hin Hfy. inversion Hs as [|? ? _ Hfb]; subst. inversion Hf as [|? ? Hab _]; subst.
    assert (f a = f b) as Hfab.
    { apply (anti_symm String.le); [done|]. apply elem_of_cons in Hin as [->|Hin]; [by rewrite Hfy|].
      rewrite Forall_forall in Hfb. rewrite Hfy. by apply Hfb. }
    rewrite (Hc a b Hfab Eab). apply IH; [by left|done|congruence]. }
  intros x y [->|Hx]%elem_of_cons [->|Hy']%elem_of_cons Hxy; auto. symmetry. auto.
Qed.

(** Sets of the elements of a list. *)
Lemma size_add_le `{Countable A} (x : A) (s : gset A) : (size ({[ x ]} ∪ s) <= S (size s))%nat.
Proof.
  rewrite size_union_alt, size_singleton. assert (size (s ∖ {[ x ]}) <= size s)%nat by (apply subseteq_size; set_solver). lia.
Qed.

Lemma size_list_to_set_le `{Countable A} (l : list A) : (size (list_to_set l : gset A) <= length l)%nat.
Proof.
  induction l as [|x l IH]; [cbn [list_to_set]; by rewrite size_empty|]. cbn [list_to_set length].
  pose proof (size_add_le x (list_to_set l : gset A)). lia.
Qed.

Lemma length_omap_le {A B} (f : A -> option B) l : (length (omap f l) <= length l)%nat.
Proof. induction l as [|x l IH]; [done|]. cbn. destruct (f x); cbn; lia. Qed.

(** ** A reference random source

    A counter as a random source: it shows that the laws the generators rely
    on can hold, and it is what the examples about generators run with. *)

#[export] Instance counter_Rand : Rand Z := {|
  Rand_Uint64 r := (r mod 2 ^ 64, r + 1);
  Rand_Uint64n n r := (if n =? 0 then 0 else r mod n, r + 1);
  Rand_Uint32n n r := (r mod n, r + 1);
  Rand_Int31n n r := (r mod n, r + 1);
  Rand_Intn n r := (r mod n, r + 1);
  Rand_Int r := (r mod 2 ^ 63, r + 1);
  Rand_Int63 r := (r mod 2 ^ 63, r + 1);
  Global_Intn n r := (r mod n, r);
  Rand_Read n r := (be_bytes n r, r + 1);
  Rand_ExpTimes200 r := (r mod 100, r + 1);
  Rand_ExpOver200th r := (r mod 100, r + 1);
  Map_order A l r := (l, r);
  Rand_patience n := S n
|}.

(** One of more values than there are forbidden ones is not forbidden. *)
Lemma one_escapes `{EqDecision A} (f : nat -> A) (bad : list A) : (forall i j, (i <= length bad)%nat -> (j <= length bad)%nat -> f i = f j -> i = j) ->
  exists n, (n <= length bad)%nat /\ f n ∉ bad.
Proof.
  intros Hf. destruct (decide (Forall (fun a => a ∈ bad) (map f (seq 0 (S (length bad)))))) as [H|H].
  - exfalso. assert (NoDup (map f (seq 0 (S (length bad))))) as Hnd.
    { apply NoDup_fmap_2_strong; [|apply NoDup_seq]. intros i j Hi%elem_of_seq Hj%elem_of_seq. apply Hf; lia. }
    rewrite Forall_forall in H. apply (NoDup_submseteq _ bad) in Hnd; [|done]. apply submseteq_length in Hnd. rewrite length_map, length_seq in Hnd. lia.
  - apply not_Forall_Exists in H; [|tc_solve]. apply Exists_exists in H as (a & (n & -> & Hn%elem_of_seq)%elem_of_map & Ha). exists n. split; [lia|done].
Qed.

Lemma counter_nth_RandU256 n r asg : nth_draw RandU256 n (mkWorld r asg)
  = let k := r + 4 * Z.of_nat n in
    gOk (of_limbs [k mod 2 ^ 64; (k + 1) mod 2 ^ 64; (k + 1 + 1) mod 2 ^ 64; (k + 1 + 1 + 1) mod 2 ^ 64]) (mkWorld (k + 1 + 1 + 1 + 1) asg).
Proof.
  revert r. induction n as [|n IH]; intros r; cbn [nth_draw].
  - rewrite Z.add_0_r. done.
  - change (RandU256 (mkWorld r asg)) with (gOk (of_limbs [r mod 2 ^ 64; (r + 1) mod 2 ^ 64; (r + 1 + 1) mod 2 ^ 64; (r + 1 + 1 + 1) mod 2 ^ 64])
      (mkWorld (r + 1 + 1 + 1 + 1) asg)). cbn iota. rewrite IH. replace (r + 1 + 1 + 1 + 1 + 4 * Z.of_nat n) with (r + 4 * Z.of_nat (S n)) by lia. done.
Qed.

Lemma uval_of_limbs a b c d : isU64 a -> isU64 b -> isU64 c -> isU64 d ->
  uval (of_limbs [a; b; c; d]) = a + 2 ^ 64 * (b + 2 ^ 64 * (c + 2 ^ 64 * d)).
Proof.
  intros Ha Hb Hc Hd. unfold of_limbs. cbn [fold_right]. rewrite !u64_id by done. rewrite uval_of_Z. unfold isU64 in *. rewrite Z.mod_small; [ring|].
  change M256 with (2 ^ 64 * (2 ^ 64 * (2 ^ 64 * 2 ^ 64))). nia.
Qed.

Lemma counter_U256_escapes : escapes (R := Z) RandU256.
Proof.
  intros bad [r asg] Hbad.
  destruct (one_escapes (fun n => let k := r + 4 * Z.of_nat n in
    of_limbs [k mod 2 ^ 64; (k + 1) mod 2 ^ 64; (k + 1 + 1) mod 2 ^ 64; (k + 1 + 1 + 1) mod 2 ^ 64]) bad) as (n & Hn & Hin).
  - intros i j Hi Hj H. cbn zeta in H. apply (f_equal uval) in H. unfold zlen in Hbad.
    rewrite !uval_of_limbs in H by (unfold isU64; apply Z.mod_pos_bound; lia). apply (f_equal (fun x => x mod 2 ^ 64)) in H.
    rewrite !(Z.mul_comm (2 ^ 64)), !Z.mod_add, !Z.mod_mod in H by lia.
    clear - H Hi Hj Hbad. Z.to_euclidean_division_equations. lia.
  - eexists n, _, _. split; [cbn; lia|]. split; [apply counter_nth_RandU256|done].
Qed.

Lemma counter_nth_RandomAddress n r asg : nth_draw RandomAddress n (mkWorld r asg)
  = gOk (to_array 20 (be_bytes 20 (r + Z.of_nat n))) (mkWorld (r + Z.of_nat n + 1) asg).
Proof.
  revert r. induction n as [|n IH]; intros r; cbn [nth_draw]; [by rewrite Z.add_0_r|].
  change (RandomAddress (mkWorld r asg)) with (gOk (to_array 20 (be_bytes 20 r)) (mkWorld (r + 1) asg)). cbn iota. rewrite IH.
  by replace (r + 1 + Z.of_nat n) with (r + Z.of_nat (S n)) by lia.
Qed.

Lemma counter_Address_escapes : escapes (R := Z) RandomAddress.
Proof.
  intros bad [r asg] Hbad. destruct (one_escapes (fun n => to_array 20 (be_bytes 20 (r + Z.of_nat n)) : Address) bad) as (n & Hn & Hin).
  - intros i j Hi Hj H. apply (f_equal arr_bytes) in H. rewrite !to_array_bytes in H by apply length_be_bytes.
    apply (f_equal be_val) in H. rewrite !be_val_be_bytes in H. unfold zlen in Hbad. change (8 * Z.of_nat 20) with 160 in H.
    Z.to_euclidean_division_equations. lia.
  - eexists n, _, _. split; [cbn; lia|]. split; [apply counter_nth_RandomAddress|done].
Qed.

#[export] Instance counter_RandLaws : RandLaws Z counter_Rand.
Proof.
  split; cbn -[Z.pow]; intros; try (apply Z.mod_pos_bound; lia); try done.
  - destruct (Z.eqb_spec n 0) as [->|Hn]; [lia|]. pose proof (Z.mod_pos_bound r n ltac:(unfold isU64 in *; lia)). lia.
  - apply length_be_bytes.
  - pose proof (Z.mod_pos_bound r 100). lia.
  - pose proof (Z.mod_pos_bound r 100). lia.
  - apply counter_U256_escapes.
  - apply counter_Address_escapes.
Qed.

(** It never draws zero. *)
Lemma counter_draws_nonZero : draws (R := Z) RandU256 (fun x => uval x <> 0).
Proof.
  intros E [r asg]. unfold gwp. pose proof (counter_nth_RandU256 0 r asg) as H. cbn [nth_draw] in H. rewrite H. cbn zeta. split; [|done].
  rewrite uval_of_limbs by (unfold isU64; apply Z.mod_pos_bound; lia). change (r + 4 * Z.of_nat 0) with (r + 0). rewrite Z.add_0_r.
  pose proof (Z.mod_pos_bound r (2 ^ 64) ltac:(lia)). pose proof (Z.mod_pos_bound (r + 1) (2 ^ 64) ltac:(lia)).
  pose proof (Z.mod_pos_bound (r + 1 + 1) (2 ^ 64) ltac:(lia)). pose proof (Z.mod_pos_bound (r + 1 + 1 + 1) (2 ^ 64) ltac:(lia)).
  assert (r mod 2 ^ 64 <> 0 \/ (r + 1) mod 2 ^ 64 <> 0); [|lia]. clear. Z.to_euclidean_division_equations. lia.
Qed.
