(* ===== verification/CtGenSolvers.v ===== *)
(** * Solvers of numeric constraints

    [go/ct/gen/range_solver.go] and [go/ct/gen/interval_solver.go]: a range of
    a machine integer and a list of intervals, narrowed by constraints, from
    which a value is drawn. The files are generic in an integer type; the
    generators use [int] and [tosca.Gas], signed, and [uint64]. *)
From Stdlib Require Import ZArith Lia Strings.Byte.
From stdpp Require Import base list numbers gmap sorting.
From S2P Require Import Prelude Uint256 Types CtCommon CtRand.
Set Default Goal Selector "!".
Local Open Scope Z_scope.
Local Open Scope go_scope.

(** ** Integer types *)

Inductive intType := Int64 | Uint64.

#[global] Instance intType_eqdec : EqDecision intType.
Proof. solve_decision. Defined.

(** The conversion [T(z)]. *)
Definition conv (T : intType) (z : Z) : Z := match T with Int64 => i64 z | Uint64 => u64 z end.

Definition isT (T : intType) (z : Z) : Prop := match T with Int64 => isI64 z | Uint64 => isU64 z end.

Lemma conv_id T z : isT T z -> conv T z = z.
Proof. destruct T; cbn; intros; [by apply i64_id|by apply u64_id]. Qed.

Lemma conv_isT T z : isT T (conv T z).
Proof. destruct T; cbn; auto with go. Qed.

Lemma isT_between T a b x : isT T a -> isT T b -> a <= x <= b -> isT T x.
Proof. destruct T; cbn; zblia. Qed.

(** [uint64(x)] of a difference computed in [T]. *)
Lemma u64_conv T z : u64 (conv T z) = u64 z.
Proof.
  destruct T; cbn; unfold u64, i64, wrapU, wrapS.
  - rewrite Zminus_mod, Z.mod_mod, <-Zminus_mod by lia. f_equal. lia.
  - apply Z.mod_mod. lia.
Qed.

Lemma conv_u64 T z : conv T (u64 z) = conv T z.
Proof.
  destruct T; cbn; unfold u64, i64, wrapU, wrapS.
  - by rewrite Zplus_mod_idemp_l.
  - apply Z.mod_mod. lia.
Qed.

Lemma conv_add_l T a b : conv T (conv T a + b) = conv T (a + b).
Proof.
  rewrite <-(conv_u64 T (conv T a + b)), <-(conv_u64 T (a + b)). f_equal.
  pose proof (u64_conv T a) as H. unfold u64, wrapU in *.
  by rewrite <-Zplus_mod_idemp_l, H, Zplus_mod_idemp_l.
Qed.

Lemma u64_conv_succ T z : u64 (conv T (conv T z + 1)) = u64 (z + 1).
Proof. by rewrite conv_add_l, u64_conv. Qed.

(** ** RangeSolver *)

Record RangeSolver := NewRangeSolver { rs_min : Z; rs_max : Z }.

#[global] Instance RangeSolver_eqdec : EqDecision RangeSolver.
Proof. solve_decision. Defined.

Module RangeSolver.

Definition GetMin (s : RangeSolver) : Z := rs_min s.
Definition GetMax (s : RangeSolver) : Z := rs_max s.

Definition AddLowerBoundary (min : Z) (s : RangeSolver) : RangeSolver :=
  if min >? rs_min s then NewRangeSolver min (rs_max s) else s.

Definition AddUpperBoundary (max : Z) (s : RangeSolver) : RangeSolver :=
  if max <? rs_max s then NewRangeSolver (rs_min s) max else s.

Definition AddEqualityConstraint (value : Z) (s : RangeSolver) : RangeSolver :=
  AddUpperBoundary value (AddLowerBoundary value s).

Definition IsSatisfiable (s : RangeSolver) : bool := rs_min s <=? rs_max s.

Definition Clone (s : RangeSolver) : RangeSolver := NewRangeSolver (rs_min s) (rs_max s).
Definition Restore (s backup : RangeSolver) : RangeSolver := backup.

Definition Generate {R} `{Rand R} (T : intType) (s : RangeSolver) : Gen R Z :=
  if rs_min s >? rs_max s then gen_fail ErrUnsatisfiable
  else
    let diff := conv T (rs_max s - rs_min s) in
    if u64 diff =? MaxUint64 then x ← gen_Uint64; mret (conv T x)
    else x ← gen_Uint64n (u64 diff +u64 1); mret (conv T (conv T x + rs_min s)).

(** The values the constraints admit. *)
Definition admits (s : RangeSolver) (x : Z) : Prop := rs_min s <= x <= rs_max s.

Lemma AddLowerBoundary_admits min s x : admits (AddLowerBoundary min s) x <-> admits s x /\ min <= x.
Proof. unfold admits, AddLowerBoundary. case_if; cbn; lia. Qed.

Lemma AddUpperBoundary_admits max s x : admits (AddUpperBoundary max s) x <-> admits s x /\ x <= max.
Proof. unfold admits, AddUpperBoundary. case_if; cbn; lia. Qed.

Lemma AddEqualityConstraint_admits v s x : admits (AddEqualityConstraint v s) x <-> admits s x /\ x = v.
Proof. unfold AddEqualityConstraint. rewrite AddUpperBoundary_admits, AddLowerBoundary_admits. split; intros; intuition lia. Qed.

Definition wf (T : intType) (s : RangeSolver) : Prop := isT T (rs_min s) /\ isT T (rs_max s).

Lemma wf_AddLowerBoundary T min s : isT T min -> wf T s -> wf T (AddLowerBoundary min s).
Proof. unfold wf, AddLowerBoundary. intros. case_if; cbn; tauto. Qed.

Lemma wf_AddUpperBoundary T max s : isT T max -> wf T s -> wf T (AddUpperBoundary max s).
Proof. unfold wf, AddUpperBoundary. intros. case_if; cbn; tauto. Qed.

Lemma wf_AddEqualityConstraint T v s : isT T v -> wf T s -> wf T (AddEqualityConstraint v s).
Proof. intros. by apply wf_AddUpperBoundary, wf_AddLowerBoundary. Qed.

Section Generate.
Context {R : Type} {RND : Rand R} {RL : RandLaws R RND}.

(** A value is drawn from the range; there is none exactly when the range is
    empty. *)
Lemma range_Generate_spec T s (Q : Z -> world R -> Prop) (E : GenErr -> Prop) w : wf T s ->
  (forall x r, admits s x -> Q x (mkWorld r (w_assignment w))) ->
  (rs_max s < rs_min s -> E ErrUnsatisfiable) ->
  gwp (Generate T s) Q E w.
Proof.
  intros [Hl Hh] HQ HE. unfold Generate. apply gwp_if; intros E1; b2p; [by apply gwp_fail, HE|].
  rewrite u64_conv. apply gwp_if; intros E2; b2p; apply gwp_bind.
  - eapply gwp_draws; [apply draws_Uint64|]. intros x r _. apply gwp_ret, HQ. unfold admits.
    pose proof (conv_isT T x). assert (0 <= rs_max s - rs_min s < 2 ^ 64) by (destruct T; cbn [isT conv] in *; zblia).
    rewrite u64_id in E2 by zblia. destruct T; cbn [isT conv] in *; zblia.
  - assert (0 <= rs_max s - rs_min s < 2 ^ 64 - 1) as Hd.
    { assert (0 <= rs_max s - rs_min s < 2 ^ 64) by (destruct T; cbn [isT conv] in *; zblia).
      rewrite u64_id in E2 by zblia. zblia. }
    rewrite (u64_id (rs_max s - rs_min s)), u64_id by zblia. eapply gwp_draws; [apply draws_Uint64n; lia|].
    intros x r Hx. cbn beta in Hx. apply gwp_ret, HQ.
    rewrite conv_add_l, conv_id; unfold admits; [|apply (isT_between T (rs_min s) (rs_max s))]; auto; lia.
Qed.

End Generate.
End RangeSolver.

(** ** IntervalSolver *)

Record interval := mkInterval { low : Z; high : Z }.

#[global] Instance interval_eqdec : EqDecision interval.
Proof. solve_decision. Defined.

#[global] Instance interval_elem_of : ElemOf Z interval := fun x i => low i <= x <= high i.

Inductive relation := isEqual | isBefore | isAfter | isSubset | isSuperset | intersectsWithStart | intersectsWithEnd.

Definition interval_contains (i : interval) (x : Z) : bool := (low i <=? x) && (x <=? high i).
Definition interval_isEmpty (i : interval) : bool := low i >? high i.

Definition getRelationTo (i other : interval) : relation :=
  if bool_decide (i = other) then isEqual
  else if high i <? low other then isBefore
  else if low i >? high other then isAfter
  else if (low i <? low other) && (high other <? high i) then isSubset
  else if (low other <=? low i) && (high i <=? high other) then isSuperset
  else if (low other <=? high i) && (high i <=? high other) then intersectsWithEnd
  else intersectsWithStart.

(** The field [intervals]. *)
Definition IntervalSolver := list interval.

Module IntervalSolver.

Definition New (min max : Z) : IntervalSolver :=
  let initialInterval := mkInterval min max in
  if interval_isEmpty initialInterval then [] else [initialInterval].

(** What [Exclude] leaves of an interval. *)
Definition exclude_one (T : intType) (min max : Z) (current : interval) : list interval :=
  let newLeft := mkInterval (low current) (conv T (min - 1)) in
  let newRight := mkInterval (conv T (max + 1)) (high current) in
  match getRelationTo current (mkInterval min max) with
  | isEqual => []
  | isSubset => [newLeft; newRight]
  | isSuperset => []
  | intersectsWithStart => [newRight]
  | intersectsWithEnd => [newLeft]
  | _ => [current]
  end.

Fixpoint Exclude_loop (T : intType) (min max : Z) (intervals res : list interval) : list interval :=
  match intervals with
  | [] => res
  | current :: intervals => Exclude_loop T min max intervals (res ++ exclude_one T min max current)
  end.

Definition Exclude (T : intType) (min max : Z) (s : IntervalSolver) : IntervalSolver :=
  if max <? min then s else Exclude_loop T min max s [].

Fixpoint Contains (s : IntervalSolver) (value : Z) : bool :=
  match s with
  | [] => false
  | interval :: s => if interval_contains interval value then true else Contains s value
  end.

Definition AddLowerBoundary (T : intType) (value : Z) (s : IntervalSolver) : IntervalSolver :=
  match s with
  | [] => s
  | i :: _ =>
      let min := low i in
      if value <=? min then s else Exclude T min (conv T (value - 1)) s
  end.

Definition AddUpperBoundary (T : intType) (value : Z) (s : IntervalSolver) : IntervalSolver :=
  match last s with
  | None => s
  | Some i =>
      let max := high i in
      if value >=? max then s else Exclude T (conv T (value + 1)) max s
  end.

Definition AddEqualityConstraint (T : intType) (value : Z) (s : IntervalSolver) : IntervalSolver :=
  AddLowerBoundary T value (AddUpperBoundary T value s).

Definition IsSatisfiable (s : IntervalSolver) : bool := zlen s >? 0.

Definition Clone (s : IntervalSolver) : IntervalSolver := s.
Definition Equals (s other : IntervalSolver) : bool := bool_decide (s = other).

(** [uint64(interval.high - interval.low + 1)]. *)
Definition width (T : intType) (i : interval) : Z := u64 (conv T (conv T (high i - low i) + 1)).

Definition domainSize (T : intType) (s : IntervalSolver) : Z :=
  fold_left (fun size i => size +u64 width T i) s 0.

(** The second loop of [Generate]: the value with this number, counted through
    the intervals. *)
Fixpoint pick (T : intType) (s : IntervalSolver) (sample : Z) : option Z :=
  match s with
  | [] => None
  | i :: s =>
      if width T i >? sample then Some (conv T (low i + conv T sample))
      else pick T s (sample -u64 width T i)
  end.

Definition Generate {R} `{Rand R} (T : intType) (s : IntervalSolver) : Gen R Z :=
  if zlen s =? 0 then gen_fail ErrUnsatisfiable
  else
    let domainSize := domainSize T s in
    if domainSize =? 0 then x ← gen_Uint64; mret (conv T x)
    else
      sample ← gen_Uint64n domainSize;
      match pick T s sample with
      | Some x => mret x
      | None => gen_fail ErrInternal
      end.

(** *** Facts *)

(** The values in the domain. *)
Definition dom (s : IntervalSolver) (x : Z) : Prop := exists i, i ∈ s /\ x ∈ i.

(** The intervals are not empty, in order and apart. *)
Definition good (T : intType) (i : interval) : Prop := isT T (low i) /\ isT T (high i) /\ low i <= high i.

Definition wf (T : intType) (s : IntervalSolver) : Prop :=
  Forall (good T) s /\ StronglySorted (fun a b => high a < low b) s.

Lemma dom_nil x : dom [] x <-> False.
Proof. split; [|done]. intros (i & Hi & _). by apply not_elem_of_nil in Hi. Qed.

Lemma dom_cons i s x : dom (i :: s) x <-> x ∈ i \/ dom s x.
Proof.
  unfold dom. setoid_rewrite elem_of_cons. split.
  - intros (j & [->|Hj] & Hx); eauto.
  - intros [H|(j & Hj & Hx)]; eauto.
Qed.

Lemma dom_app s1 s2 x : dom (s1 ++ s2) x <-> dom s1 x \/ dom s2 x.
Proof.
  induction s1 as [|i s1 IH]; cbn [app]; [rewrite dom_nil|rewrite !dom_cons, IH]; tauto.
Qed.

Lemma wf_cons T i s : wf T (i :: s) <-> good T i /\ wf T s /\ Forall (fun j => high i < low j) s.
Proof.
  unfold wf. rewrite Forall_cons. split.
  - intros [[Hi Hf] Hs]. apply StronglySorted_inv in Hs. tauto.
  - intros (Hi & [Hf Hs] & Hl). split; [done|by constructor].
Qed.

Lemma wf_nil T : wf T [].
Proof. split; constructor. Qed.

Lemma New_dom min max x : dom (New min max) x <-> min <= x <= max.
Proof.
  unfold New, interval_isEmpty. cbn [low high]. case_if.
  - rewrite dom_nil. lia.
  - rewrite dom_cons, dom_nil. unfold elem_of, interval_elem_of. cbn. lia.
Qed.

Lemma New_wf T min max : isT T min -> isT T max -> wf T (New min max).
Proof.
  intros. unfold New, interval_isEmpty. cbn [low high]. case_if; [apply wf_nil|].
  apply wf_cons. split; [by repeat split|]. split; [apply wf_nil|constructor].
Qed.

Lemma Contains_dom s x : Contains s x = true <-> dom s x.
Proof.
  induction s as [|i s IH]; cbn [Contains]; [by rewrite dom_nil|]. rewrite dom_cons, <-IH.
  unfold interval_contains, elem_of, interval_elem_of.
  destruct (Z.leb_spec (low i) x), (Z.leb_spec x (high i)); cbn; intuition lia.
Qed.

Ltac exclude_case :=
  split; [rewrite ?wf_cons|split; [|intros x; rewrite ?dom_cons, ?dom_nil;
    unfold elem_of, interval_elem_of; cbn [low high]; intuition lia]];
  rewrite ?Forall_cons, ?Forall_nil; unfold good; cbn [low high];
  intuition (first [apply wf_nil|lia]).

(** What is left of an interval: the parts outside of the excluded range. *)
Lemma exclude_one_spec T min max i : isT T min -> isT T max -> min <= max -> good T i ->
  wf T (exclude_one T min max i)
  /\ Forall (fun j => low i <= low j /\ high j <= high i) (exclude_one T min max i)
  /\ forall x, dom (exclude_one T min max i) x <-> x ∈ i /\ ~ min <= x <= max.
Proof.
  intros Hmin Hmax Hle (Hl & Hh & Hlh). unfold exclude_one, getRelationTo. cbn [low high].
  assert (low i < min -> conv T (min - 1) = min - 1) as Em.
  { intros. apply conv_id, (isT_between T (low i) min); auto; lia. }
  assert (max < high i -> conv T (max + 1) = max + 1) as Ex.
  { intros. apply conv_id, (isT_between T max (high i)); auto; lia. }
  assert (low i < min -> min <= high i -> isT T (min - 1)) as Tm.
  { intros. apply (isT_between T (low i) (high i)); auto; lia. }
  assert (max < high i -> low i <= max -> isT T (max + 1)) as Tx.
  { intros. apply (isT_between T (low i) (high i)); auto; lia. }
  destruct (bool_decide_reflect (i = mkInterval min max)) as [->|Hne]; [exclude_case|].
  rewrite Z.gtb_ltb. destruct (Z.ltb_spec (high i) min); [exclude_case|].
  destruct (Z.ltb_spec max (low i)); [exclude_case|].
  destruct (Z.ltb_spec (low i) min), (Z.ltb_spec max (high i)),
    (Z.leb_spec min (low i)), (Z.leb_spec (high i) max), (Z.leb_spec min (high i)); try lia; cbn [andb];
    rewrite ?Em, ?Ex by lia; exclude_case.
Qed.

Lemma Exclude_loop_app T min max l res :
  Exclude_loop T min max l res = res ++ concat (map (exclude_one T min max) l).
Proof.
  revert res. induction l as [|i l IH]; intros res; cbn; [by rewrite app_nil_r|].
  by rewrite IH, <-app_assoc.
Qed.

Lemma wf_app T s1 s2 : wf T s1 -> wf T s2 ->
  (forall i j, i ∈ s1 -> j ∈ s2 -> high i < low j) -> wf T (s1 ++ s2).
Proof.
  intros H1 H2. induction s1 as [|i s1 IH]; cbn; intros Hc; [done|].
  apply wf_cons in H1 as (Hi & H1 & Hs). apply wf_cons. split; [done|]. split.
  - apply IH; [done|]. intros a b Ha Hb. apply Hc; [by right|done].
  - apply Forall_app. split; [done|]. apply Forall_forall. intros j Hj. apply Hc; [by left|done].
Qed.

Lemma exclude_all_spec T min max s : isT T min -> isT T max -> min <= max -> wf T s ->
  wf T (concat (map (exclude_one T min max) s))
  /\ (forall j, j ∈ concat (map (exclude_one T min max) s) -> exists i, i ∈ s /\ low i <= low j /\ high j <= high i)
  /\ forall x, dom (concat (map (exclude_one T min max) s)) x <-> dom s x /\ ~ min <= x <= max.
Proof.
  intros Hmin Hmax Hle. induction s as [|i s IH]; intros Hwf; cbn [map concat].
  - split; [done|]. split; [intros j []%not_elem_of_nil|]. intros x. rewrite dom_nil. tauto.
  - apply wf_cons in Hwf as (Hi & Hs & Hlt). destruct (IH Hs) as (Hw & Hsub & Hd).
    destruct (exclude_one_spec T min max i Hmin Hmax Hle Hi) as (Hw1 & Hsub1 & Hd1).
    rewrite Forall_forall in Hsub1, Hlt. split; [|split].
    + apply wf_app; [done|done|]. intros a b Ha Hb. destruct (Hsub b Hb) as (k & Hk & Hkl & _).
      specialize (Hlt k Hk). specialize (Hsub1 a Ha). lia.
    + intros j [Hj|Hj]%elem_of_app.
      * exists i. split; [by left|]. by apply Hsub1.
      * destruct (Hsub j Hj) as (k & Hk & Hk'). exists k. split; [by right|done].
    + intros x. rewrite dom_app, dom_cons, Hd, Hd1. tauto.
Qed.

Lemma Exclude_spec T min max s : isT T min -> isT T max -> wf T s ->
  wf T (Exclude T min max s) /\ forall x, dom (Exclude T min max s) x <-> dom s x /\ ~ min <= x <= max.
Proof.
  intros Hmin Hmax Hs. unfold Exclude. case_if.
  - split; [done|]. intros x. split; [|tauto]. intros. split; [done|lia].
  - rewrite Exclude_loop_app. cbn [app]. destruct (exclude_all_spec T min max s) as (Hw & _ & Hd); auto.
Qed.

(** Every value is between the first and the last bound. *)
Lemma dom_ge T i s x : wf T (i :: s) -> dom (i :: s) x -> low i <= x.
Proof.
  rewrite wf_cons, dom_cons. intros ((_ & _ & Hi) & Hs & Hl) [Hx|(j & Hj & Hx)].
  - unfold elem_of, interval_elem_of in Hx. lia.
  - rewrite Forall_forall in Hl. specialize (Hl j Hj). unfold elem_of, interval_elem_of in Hx. lia.
Qed.

Lemma dom_le T s i x : wf T (s ++ [i]) -> dom (s ++ [i]) x -> x <= high i.
Proof.
  induction s as [|j s IH]; cbn [app].
  - rewrite dom_cons, dom_nil. unfold elem_of, interval_elem_of. intros _ [H|[]]. lia.
  - rewrite wf_cons, dom_cons. intros (Hj & Hs & Hl) [Hx|Hx]; [|by apply IH].
    rewrite Forall_forall in Hl. assert (i ∈ s ++ [i]) as Hi by (apply elem_of_app; right; left).
    specialize (Hl i Hi). destruct Hs as [Hf _]. rewrite Forall_forall in Hf. destruct (Hf i Hi) as (_ & _ & ?).
    unfold elem_of, interval_elem_of in Hx. lia.
Qed.

Lemma AddLowerBoundary_spec T v s : isT T v -> wf T s ->
  wf T (AddLowerBoundary T v s) /\ forall x, dom (AddLowerBoundary T v s) x <-> dom s x /\ v <= x.
Proof.
  intros Hv Hs. destruct s as [|i s]; cbn [AddLowerBoundary].
  { split; [done|]. intros x. rewrite dom_nil. tauto. }
  pose proof Hs as ((Hil & Hih & Hi) & _)%wf_cons. case_if.
  - split; [done|]. intros x. split; [|tauto]. intros Hx. split; [done|]. pose proof (dom_ge _ _ _ _ Hs Hx). lia.
  - assert (isT T (v - 1)) as Hv1 by (apply (isT_between T (low i) v); auto; lia).
    rewrite conv_id by done. destruct (Exclude_spec T (low i) (v - 1) (i :: s)) as [Hw Hd]; auto.
    split; [done|]. intros x. rewrite Hd. split; intros [Hx Hb]; (split; [done|]);
      pose proof (dom_ge _ _ _ _ Hs Hx); lia.
Qed.

Lemma AddUpperBoundary_spec T v s : isT T v -> wf T s ->
  wf T (AddUpperBoundary T v s) /\ forall x, dom (AddUpperBoundary T v s) x <-> dom s x /\ x <= v.
Proof.
  intros Hv Hs. destruct s as [|i s _] using rev_ind; unfold AddUpperBoundary.
  { split; [done|]. intros x. cbn. rewrite dom_nil. tauto. }
  rewrite last_snoc. assert (good T i) as (Hil & Hih & Hi).
  { destruct Hs as [Hf _]. rewrite Forall_app, Forall_singleton in Hf. tauto. }
  case_if.
  - split; [done|]. intros x. split; [|tauto]. intros Hx. split; [done|]. pose proof (dom_le _ _ _ _ Hs Hx). lia.
  - assert (isT T (v + 1)) as Hv1 by (apply (isT_between T v (high i)); auto; lia).
    rewrite conv_id by done. destruct (Exclude_spec T (v + 1) (high i) (s ++ [i])) as [Hw Hd]; auto.
    split; [done|]. intros x. rewrite Hd. split; intros [Hx Hb]; (split; [done|]);
      pose proof (dom_le _ _ _ _ Hs Hx); lia.
Qed.

Lemma AddEqualityConstraint_spec T v s : isT T v -> wf T s ->
  wf T (AddEqualityConstraint T v s) /\ forall x, dom (AddEqualityConstraint T v s) x <-> dom s x /\ x = v.
Proof.
  intros Hv Hs. unfold AddEqualityConstraint.
  destruct (AddUpperBoundary_spec T v s Hv Hs) as [Hw Hd].
  destruct (AddLowerBoundary_spec T v _ Hv Hw) as [Hw' Hd'].
  split; [done|]. intros x. rewrite Hd', Hd. split; intros; intuition lia.
Qed.

(** The size of the domain. *)
Definition count (s : IntervalSolver) : Z := fold_right (fun i n => high i - low i + 1 + n) 0 s.

Lemma count_nonneg T s : wf T s -> 0 <= count s.
Proof.
  unfold count. induction s as [|i s IH]; cbn [fold_right]; [done|]. rewrite wf_cons.
  intros ((_ & _ & ?) & Hs & _). specialize (IH Hs). lia.
Qed.

Lemma domainSize_count T s : domainSize T s = u64 (count s).
Proof.
  unfold domainSize.
  assert (forall a, fold_left (fun size i => size +u64 width T i) s (u64 a) = u64 (a + count s)) as H.
  { induction s as [|i s IH]; intros a; cbn [fold_left count fold_right]; [by rewrite Z.add_0_r|].
    fold (count s). unfold width. rewrite u64_conv_succ.
    replace (u64 a +u64 u64 (high i - low i + 1)) with (u64 (a + (high i - low i + 1))).
    - rewrite IH. f_equal. lia.
    - unfold u64, wrapU. apply Z.add_mod. lia. }
  apply (H 0).
Qed.

(** Intervals in [a..b] cover at most its size, and all of it if they cover
    that many values. *)
Lemma count_bound T s a b : wf T s -> a <= b + 1 -> Forall (fun i => a <= low i /\ high i <= b) s ->
  count s <= b - a + 1 /\ (count s = b - a + 1 -> forall x, a <= x <= b -> dom s x).
Proof.
  revert a. induction s as [|i s IH]; intros a Hw Hab Hf; cbn [count fold_right].
  - split; [lia|]. intros. lia.
  - fold (count s). apply wf_cons in Hw as ((Hl & Hh & Hi) & Hw & Hlt).
    apply Forall_cons in Hf as [Hb Hf]. destruct (IH (high i + 1)) as [Hc Hall]; [done|lia| |].
    { apply Forall_forall. intros j Hj. rewrite Forall_forall in Hlt, Hf.
      specialize (Hlt j Hj). specialize (Hf j Hj). lia. }
    split; [lia|]. intros He x Hx. rewrite dom_cons. unfold elem_of, interval_elem_of.
    destruct (Z_le_gt_dec x (high i)); [left; lia|]. right. apply Hall; lia.
Qed.

Definition minT (T : intType) : Z := match T with Int64 => - 2 ^ 63 | Uint64 => 0 end.

Lemma isT_minT T x : isT T x <-> minT T <= x <= minT T + 2 ^ 64 - 1.
Proof. destruct T; cbn [isT minT]; zblia. Qed.

Lemma count_isT T s : wf T s -> count s <= 2 ^ 64 /\ (count s = 2 ^ 64 -> forall x, isT T x -> dom s x).
Proof.
  intros Hw. destruct (count_bound T s (minT T) (minT T + 2 ^ 64 - 1)) as [Hc Hall]; [done|lia| |].
  - destruct Hw as [Hf _]. eapply Forall_impl; [exact Hf|]. intros i (Hl%isT_minT & Hh%isT_minT & _). lia.
  - split; [lia|]. intros He x Hx%isT_minT. apply Hall; lia.
Qed.

(** Sampling is one to one: every number below the size of the domain stands
    for one of its values, in order, and every value has a number. *)
Lemma interval_pick_spec T s n : wf T s -> count s < 2 ^ 64 -> 0 <= n < count s -> exists x, pick T s n = Some x /\ dom s x.
Proof.
  revert n. induction s as [|i s IH]; intros n Hw Hc Hn; cbn [count fold_right] in Hn; [lia|].
  cbn [count fold_right] in Hc. fold (count s) in Hn, Hc. pose proof Hw as ((Hl & Hh & Hi) & Hs & _)%wf_cons.
  pose proof (count_nonneg _ _ Hs). cbn [pick]. unfold width. rewrite u64_conv_succ, u64_id by zblia.
  rewrite Z.gtb_ltb. destruct (Z.ltb_spec n (high i - low i + 1)).
  - exists (low i + n). split.
    + f_equal. rewrite (Z.add_comm (low i)), conv_add_l, conv_id; [lia|].
      apply (isT_between T (low i) (high i)); auto; lia.
    + apply dom_cons. left. unfold elem_of, interval_elem_of. lia.
  - rewrite u64_id by zblia. destruct (IH (n - (high i - low i + 1))) as (x & Hx & Hd); [done|lia|lia|].
    exists x. split; [done|]. apply dom_cons. by right.
Qed.

Lemma pick_onto T s x : wf T s -> count s < 2 ^ 64 -> dom s x -> exists n, 0 <= n < count s /\ pick T s n = Some x.
Proof.
  induction s as [|i s IH]; intros Hw Hc Hx; [by apply dom_nil in Hx|].
  cbn [count fold_right] in Hc |- *. fold (count s) in Hc |- *. pose proof Hw as ((Hl & Hh & Hi) & Hs & _)%wf_cons.
  pose proof (count_nonneg _ _ Hs). cbn [pick]. unfold width. rewrite u64_conv_succ, u64_id by zblia.
  setoid_rewrite Z.gtb_ltb. apply dom_cons in Hx as [Hx|Hx].
  - unfold elem_of, interval_elem_of in Hx. exists (x - low i). split; [lia|].
    rewrite (proj2 (Z.ltb_lt _ _)) by lia. f_equal.
    rewrite (Z.add_comm (low i)), conv_add_l, conv_id; [lia|].
    apply (isT_between T (low i) (high i)); auto; lia.
  - destruct IH as (n & Hn & Hp); [done|lia|done|]. exists (high i - low i + 1 + n). split; [lia|].
    rewrite (proj2 (Z.ltb_ge _ _)) by lia. rewrite u64_id by zblia. rewrite <-Hp. f_equal. lia.
Qed.

Lemma pick_lower T s n x : wf T s -> count s < 2 ^ 64 -> 0 <= n < count s -> pick T s n = Some x ->
  match s with [] => True | i :: _ => low i <= x end.
Proof.
  intros Hw Hc Hn Hp. destruct s as [|i s]; [done|].
  destruct (interval_pick_spec T (i :: s) n Hw Hc Hn) as (y & Hy & Hd). rewrite Hp in Hy. injection Hy as <-.
  by eapply dom_ge.
Qed.

Lemma pick_increasing T s n m x y : wf T s -> count s < 2 ^ 64 -> 0 <= n < m -> m < count s ->
  pick T s n = Some x -> pick T s m = Some y -> x < y.
Proof.
  revert n m. induction s as [|i s IH]; intros n m Hw Hc Hn Hm; cbn [count fold_right] in Hm; [lia|].
  cbn [count fold_right] in Hc. fold (count s) in Hm, Hc. pose proof Hw as ((Hl & Hh & Hi) & Hs & Hlt)%wf_cons.
  pose proof (count_nonneg _ _ Hs). cbn [pick]. unfold width. rewrite u64_conv_succ, u64_id by zblia.
  rewrite !Z.gtb_ltb.
  assert (forall k, 0 <= k < high i - low i + 1 -> conv T (low i + conv T k) = low i + k) as Hk.
  { intros k Hk. rewrite (Z.add_comm (low i)), conv_add_l, conv_id; [lia|].
    apply (isT_between T (low i) (high i)); auto; lia. }
  destruct (Z.ltb_spec n (high i - low i + 1)), (Z.ltb_spec m (high i - low i + 1)); try lia.
  - rewrite !Hk by lia. intros [= <-] [= <-]. lia.
  - rewrite Hk by lia. rewrite u64_id by zblia. intros [= <-] Hy.
    assert (0 <= m - (high i - low i + 1) < count s) as Hr by lia.
    pose proof (pick_lower T s _ y Hs ltac:(lia) Hr Hy) as Hlow.
    destruct s as [|j s]; [cbn in Hr; lia|]. apply Forall_cons in Hlt as [Hj _]. lia.
  - rewrite !u64_id by zblia. apply IH; [done|lia..].
Qed.

Section Generate.
Context {R : Type} {RND : Rand R} {RL : RandLaws R RND}.

(** A value of the domain is drawn; there is none exactly when the domain is
    empty. The internal error does not occur. *)
Lemma interval_Generate_spec T s (Q : Z -> world R -> Prop) (E : GenErr -> Prop) w : wf T s ->
  (forall x r, dom s x -> Q x (mkWorld r (w_assignment w))) ->
  (s = [] -> E ErrUnsatisfiable) ->
  gwp (Generate T s) Q E w.
Proof.
  intros Hw HQ HE. unfold Generate. destruct s as [|i s]; [by apply gwp_fail, HE|].
  replace (zlen (i :: s) =? 0) with false by (unfold zlen; cbn [length]; symmetry; apply Z.eqb_neq; lia).
  rewrite domainSize_count. destruct (count_isT T (i :: s) Hw) as [Hc Hall].
  assert (0 < count (i :: s)) as Hpos.
  { pose proof Hw as ((_ & _ & Hi) & Hs & _)%wf_cons. pose proof (count_nonneg _ _ Hs).
    cbn [count fold_right]. fold (count s). lia. }
  destruct (Z.eq_dec (count (i :: s)) (2 ^ 64)) as [Heq|Hne].
  - rewrite Heq. change (u64 (2 ^ 64) =? 0) with true. apply gwp_bind.
    eapply gwp_draws; [apply draws_Uint64|]. intros x r _. apply gwp_ret, HQ, Hall; [done|apply conv_isT].
  - rewrite u64_id by zblia. rewrite (proj2 (Z.eqb_neq _ _)) by lia. apply gwp_bind.
    eapply gwp_draws; [apply draws_Uint64n; lia|]. intros x r Hx. cbn beta in Hx.
    destruct (interval_pick_spec T (i :: s) x Hw ltac:(lia) Hx) as (y & -> & Hy). by apply gwp_ret, HQ.
Qed.

End Generate.
End IntervalSolver.
