(* ===== verification/CtGenStack.v ===== *)
(** * Generators of stacks, memories, calls and the marks of a contract

    [go/ct/gen/stack.go], [memory.go], [call_context.go], [call_journal.go]
    and [selfdestructed.go]. *)
From Stdlib Require Import ZArith Lia Strings.Byte.
From stdpp Require Import base list numbers gmap strings.
From S2P Require Import Prelude Uint256 Types CtCommon CtState CtStateFacts CtRand CtGenSolvers.
Set Default Goal Selector "!".
Local Open Scope Z_scope.
Local Open Scope go_scope.

(** ** Stacks *)

Record constValueConstraint := mkConstValue { cv_pos : Z; cv_value : U256 }.
Record varValueConstraint := mkVarValue { vv_pos : Z; vv_variable : Var }.

#[global] Instance constValueConstraint_eqdec : EqDecision constValueConstraint.
Proof. solve_decision. Defined.

#[global] Instance varValueConstraint_eqdec : EqDecision varValueConstraint.
Proof. solve_decision. Defined.

Record StackGenerator := mkStackGenerator {
  sg_size : RangeSolver;
  sg_constValues : list constValueConstraint;
  sg_varValues : list varValueConstraint
}.

Module StackGenerator.

Definition New : StackGenerator := mkStackGenerator (NewRangeSolver 0 st.MaxStackSize) [] [].

Definition AddMinSize (size : Z) (g : StackGenerator) : StackGenerator :=
  mkStackGenerator (RangeSolver.AddLowerBoundary size (sg_size g)) (sg_constValues g) (sg_varValues g).

Definition AddMaxSize (size : Z) (g : StackGenerator) : StackGenerator :=
  mkStackGenerator (RangeSolver.AddUpperBoundary size (sg_size g)) (sg_constValues g) (sg_varValues g).

Definition SetSize (size : Z) (g : StackGenerator) : StackGenerator :=
  mkStackGenerator (RangeSolver.AddEqualityConstraint size (sg_size g)) (sg_constValues g) (sg_varValues g).

Definition SetValue (pos : Z) (value : U256) (g : StackGenerator) : StackGenerator :=
  mkStackGenerator (sg_size g) (add_once (mkConstValue pos value) (sg_constValues g)) (sg_varValues g).

Definition BindValue (pos : Z) (variable : Var) (g : StackGenerator) : StackGenerator :=
  mkStackGenerator (sg_size g) (sg_constValues g) (add_once (mkVarValue pos variable) (sg_varValues g)).

Fixpoint maxPositionInValues_loop (constraints : list constValueConstraint) (max : Z) : Z :=
  match constraints with
  | [] => max
  | value :: constraints =>
      maxPositionInValues_loop constraints (if cv_pos value >? max then cv_pos value else max)
  end.

Definition maxPositionInValues (constraints : list constValueConstraint) : Z :=
  maxPositionInValues_loop constraints (-1).

Section Generate.
Context {R : Type} {RND : Rand R}.

(** The constraints with the values of the variables in place. *)
Definition resolve (constraints : list constValueConstraint) (cur : varValueConstraint)
    : Gen R (list constValueConstraint) :=
  value ← gen_lookup (vv_variable cur);
  match value with
  | None => gen_fail ErrUnboundVariable
  | Some value => mret (constraints ++ [mkConstValue (vv_pos cur) value])
  end.

(** An iteration of the loop over the constraints. *)
Definition apply_value (b : st.Stack * list bool) (value : constValueConstraint)
    : Gen R (st.Stack * list bool) :=
  let '(stack, stackMask) := b in
  if cv_pos value <? 0 then gen_fail ErrUnsatisfiable
  else
    isSet ← gen_lift (stackMask !! Z.to_nat (cv_pos value));
    if isSet : bool then gen_fail ErrUnsatisfiable
    else
      stack ← gen_lift (st.Stack_Set stack (cv_pos value) (cv_value value));
      mret (stack, <[Z.to_nat (cv_pos value) := true]> stackMask).

(** [for i, isSet := range stackMask]; the slots left from [i] on. *)
Fixpoint fill (stackMask : list bool) (i : Z) (stack : st.Stack) : Gen R st.Stack :=
  match stackMask with
  | [] => mret stack
  | isSet :: stackMask =>
      stack ← (if isSet then mret stack
               else value ← RandU256; gen_lift (st.Stack_Set stack i value));
      fill stackMask (i + 1) stack
  end.

(** The stack, from the pooled one, and the generator, which keeps the lower
    bound on the size. *)
Definition Generate (pooled : st.Stack) (g : StackGenerator) : Gen R (st.Stack * StackGenerator) :=
  constraints ← gen_for resolve (sg_varValues g) (sg_constValues g);
  let maxInValues := maxPositionInValues constraints in
  let size := RangeSolver.AddLowerBoundary (maxInValues +i64 1) (sg_size g) in
  n ← RangeSolver.Generate Int64 size;
  stack ← gen_lift (st.NewStackWithSize pooled n);
  '(stack, stackMask) ← gen_for apply_value constraints (stack, replicate (Z.to_nat n) false);
  stack ← fill stackMask 0 stack;
  mret (stack, mkStackGenerator size (sg_constValues g) (sg_varValues g)).

End Generate.

(** [Clone] and [Restore] copy the slices. *)
Definition Clone (g : StackGenerator) : StackGenerator :=
  mkStackGenerator (RangeSolver.Clone (sg_size g)) (sg_constValues g) (sg_varValues g).

Definition Restore (g other : StackGenerator) : StackGenerator :=
  mkStackGenerator (RangeSolver.Restore (sg_size g) (sg_size other)) (sg_constValues other) (sg_varValues other).

(** *** What the constraints mean *)

(** A stack satisfies the constraints, given the values of the variables. *)
Record sat (g : StackGenerator) (asg : Assignment) (s : st.Stack) : Prop := {
  sat_size : RangeSolver.admits (sg_size g) (st.Stack_Size s);
  sat_const c : c ∈ sg_constValues g -> st.Stack_Get s (cv_pos c) = Some (cv_value c);
  sat_var c : c ∈ sg_varValues g -> exists v, asg !! vv_variable c = Some v /\ st.Stack_Get s (vv_pos c) = Some v
}.

(** The bounds and positions are machine integers, the sizes those of stacks. *)
Record wf (g : StackGenerator) : Prop := {
  wf_min : 0 <= rs_min (sg_size g) < 2 ^ 63;
  wf_max : - 2 ^ 63 <= rs_max (sg_size g) <= st.MaxStackSize;
  wf_const c : c ∈ sg_constValues g -> cv_pos c < MaxInt64;
  wf_var c : c ∈ sg_varValues g -> vv_pos c < MaxInt64
}.

Lemma stack_wf_New : wf New.
Proof. split; cbn; try done; intros c []%not_elem_of_nil. Qed.

Lemma wf_AddMinSize n g : isI64 n -> wf g -> wf (AddMinSize n g).
Proof. intros Hn []. split; cbn; auto; unfold RangeSolver.AddLowerBoundary; case_if; cbn; zblia. Qed.

Lemma wf_AddMaxSize n g : isI64 n -> wf g -> wf (AddMaxSize n g).
Proof. intros Hn []. split; cbn; auto; unfold RangeSolver.AddUpperBoundary; case_if; cbn; zblia. Qed.

Lemma wf_SetSize n g : isI64 n -> wf g -> wf (SetSize n g).
Proof. intros Hn Hg. by apply (wf_AddMaxSize n (AddMinSize n g)), wf_AddMinSize. Qed.

Lemma wf_SetValue p v g : p < MaxInt64 -> wf g -> wf (SetValue p v g).
Proof. intros Hp []. split; cbn; auto. intros c [->|Hc]%elem_of_add_once; auto. Qed.

Lemma wf_BindValue p v g : p < MaxInt64 -> wf g -> wf (BindValue p v g).
Proof. intros Hp []. split; cbn; auto. intros c [->|Hc]%elem_of_add_once; auto. Qed.

(** Each operation adds its constraint. *)
Lemma sat_AddMinSize n g asg s : sat (AddMinSize n g) asg s <-> sat g asg s /\ n <= st.Stack_Size s.
Proof.
  split.
  - intros [Hs Hc Hv]. apply RangeSolver.AddLowerBoundary_admits in Hs. split; [split|]; tauto.
  - intros [[Hs Hc Hv] Hn]. split; cbn; auto. by apply RangeSolver.AddLowerBoundary_admits.
Qed.

Lemma sat_AddMaxSize n g asg s : sat (AddMaxSize n g) asg s <-> sat g asg s /\ st.Stack_Size s <= n.
Proof.
  split.
  - intros [Hs Hc Hv]. apply RangeSolver.AddUpperBoundary_admits in Hs. split; [split|]; tauto.
  - intros [[Hs Hc Hv] Hn]. split; cbn; auto. by apply RangeSolver.AddUpperBoundary_admits.
Qed.

Lemma sat_SetSize n g asg s : sat (SetSize n g) asg s <-> sat g asg s /\ st.Stack_Size s = n.
Proof.
  split.
  - intros [Hs Hc Hv]. apply RangeSolver.AddEqualityConstraint_admits in Hs. split; [split|]; tauto.
  - intros [[Hs Hc Hv] Hn]. split; cbn; auto. by apply RangeSolver.AddEqualityConstraint_admits.
Qed.

Lemma sat_SetValue p v g asg s : sat (SetValue p v g) asg s <-> sat g asg s /\ st.Stack_Get s p = Some v.
Proof.
  split.
  - intros [Hs Hc Hv]. split; [split|]; auto.
    + intros c H. apply Hc, elem_of_add_once. by right.
    + apply (Hc (mkConstValue p v)), elem_of_add_once. by left.
  - intros [[Hs Hc Hv] Hn]. split; cbn; auto. intros c [->|H]%elem_of_add_once; auto.
Qed.

Lemma sat_BindValue p v g asg s : sat (BindValue p v g) asg s <->
  sat g asg s /\ exists x, asg !! v = Some x /\ st.Stack_Get s p = Some x.
Proof.
  split.
  - intros [Hs Hc Hv]. split; [split|]; auto.
    + intros c H. apply Hv, elem_of_add_once. by right.
    + apply (Hv (mkVarValue p v)), elem_of_add_once. by left.
  - intros [[Hs Hc Hv] Hn]. split; cbn; auto. intros c [->|H]%elem_of_add_once; auto.
Qed.

(** *** The generated stack *)

(** The constraints after the variables are replaced. *)
Definition resolved (g : StackGenerator) (asg : Assignment) (cs : list constValueConstraint) : Prop :=
  exists vs, cs = sg_constValues g ++ vs
  /\ Forall2 (fun c v => vv_pos c = cv_pos v /\ asg !! vv_variable c = Some (cv_value v)) (sg_varValues g) vs.

Definition positions (g : StackGenerator) : list Z :=
  map cv_pos (sg_constValues g) ++ map vv_pos (sg_varValues g).

Lemma resolved_positions g asg cs : resolved g asg cs -> map cv_pos cs = positions g.
Proof.
  intros (vs & -> & H). unfold positions. rewrite map_app. f_equal.
  induction H as [|c v l vs' [Hp _] _ IH]; cbn; congruence.
Qed.

Lemma resolved_sat g asg cs s : resolved g asg cs ->
  (forall c, c ∈ cs -> st.Stack_Get s (cv_pos c) = Some (cv_value c)) <->
  (forall c, c ∈ sg_constValues g -> st.Stack_Get s (cv_pos c) = Some (cv_value c))
  /\ (forall c, c ∈ sg_varValues g -> exists v, asg !! vv_variable c = Some v /\ st.Stack_Get s (vv_pos c) = Some v).
Proof.
  intros (vs & -> & H). setoid_rewrite elem_of_app.
  assert ((forall c, c ∈ vs -> st.Stack_Get s (cv_pos c) = Some (cv_value c)) <->
    (forall c, c ∈ sg_varValues g -> exists v, asg !! vv_variable c = Some v /\ st.Stack_Get s (vv_pos c) = Some v)) as Hv.
  { induction H as [|c v l vs' [Hp Ha] _ IH].
    - split; intros _ c []%not_elem_of_nil.
    - setoid_rewrite elem_of_cons. split.
      + intros Hc c' [->|Hc']; [|apply IH; auto]. exists (cv_value v). rewrite Hp. auto.
      + intros Hc c' [->|Hc']; [|apply IH; auto].
        destruct (Hc c) as (x & Hx & Hg); [by left|]. rewrite Hp in Hg. congruence. }
  rewrite <-Hv. split; [intros; split; auto|intros [] ? []; auto].
Qed.

Lemma maxPosition_spec cs m : m <= maxPositionInValues_loop cs m
  /\ (forall c, c ∈ cs -> cv_pos c <= maxPositionInValues_loop cs m)
  /\ (maxPositionInValues_loop cs m = m \/ exists c, c ∈ cs /\ maxPositionInValues_loop cs m = cv_pos c).
Proof.
  revert m. induction cs as [|c cs IH]; intros m; cbn [maxPositionInValues_loop].
  - split; [lia|]. split; [intros c []%not_elem_of_nil|by left].
  - destruct (IH (if cv_pos c >? m then cv_pos c else m)) as (Hm & Hc & He).
    assert (m <= (if cv_pos c >? m then cv_pos c else m) /\ cv_pos c <= (if cv_pos c >? m then cv_pos c else m)
      /\ ((if cv_pos c >? m then cv_pos c else m) = m \/ (if cv_pos c >? m then cv_pos c else m) = cv_pos c)) as Hb
      by (case_if; lia).
    setoid_rewrite elem_of_cons. split; [lia|]. split.
    + intros c' [->|Hc']; [lia|auto].
    + destruct He as [He|(c' & Hc' & He)]; [|eauto]. rewrite He. destruct Hb as (_ & _ & [->| ->]); eauto.
Qed.

Lemma Stack_Get_range s p v : st.Stack_Get s p = Some v -> 0 <= p < st.Stack_Size s.
Proof.
  unfold st.Stack_Get. case_if; [|done]. intros H%lookup_lt_Some. unfold st.Stack_Size, zlen in *. lia.
Qed.

(** Reading a stack, its values listed from the top. *)
Lemma Stack_Get_mkS_lookup l sp p : 0 <= p -> st.Stack_Get (mkS l sp) p = l !! Z.to_nat p.
Proof.
  intros Hp. destruct (l !! Z.to_nat p) as [v|] eqn:E.
  - rewrite <-(Z2Nat.id p) by lia. by apply Stack_Get_mkS.
  - apply lookup_ge_None in E. destruct (st.Stack_Get (mkS l sp) p) eqn:Eg; [|done].
    apply Stack_Get_range in Eg. rewrite Stack_Size_mkS in Eg. unfold zlen in Eg. lia.
Qed.

Section Spec.
Context {R : Type} {RND : Rand R} {RL : RandLaws R RND}.

Lemma stack_resolve_spec g (Q : _ -> world R -> Prop) (E : GenErr -> Prop) w :
  (forall cs, resolved g (w_assignment w) cs -> Q cs w) ->
  ((exists c, c ∈ sg_varValues g /\ w_assignment w !! vv_variable c = None) -> E ErrUnboundVariable) ->
  gwp (gen_for resolve (sg_varValues g) (sg_constValues g)) Q E w.
Proof.
  intros HQ HE. eapply gwp_mono.
  - apply (gwp_for resolve (fun done cs w' => w' = w /\ exists vs, cs = sg_constValues g ++ vs /\
      Forall2 (fun c v => vv_pos c = cv_pos v /\ w_assignment w !! vv_variable c = Some (cv_value v)) done vs)).
    + split; [done|]. exists []. by rewrite app_nil_r.
    + intros done c rest cs w' Hl [-> (vs & -> & Hvs)]. unfold resolve. apply gwp_bind, gwp_lookup.
      destruct (w_assignment w !! vv_variable c) as [x|] eqn:Ex.
      * apply gwp_ret. split; [done|]. exists (vs ++ [mkConstValue (vv_pos c) x]). rewrite app_assoc.
        split; [done|]. apply Forall2_app; [done|]. by repeat constructor.
      * apply gwp_fail, HE. exists c. split; [|done]. rewrite Hl. apply elem_of_app. right. left.
  - intros cs w' [-> (vs & Hcs & Hvs)]. apply HQ. by exists vs.
  - done.
Qed.

(** The state of the loop over the constraints: the positions used so far are
    marked and hold their values. *)
Definition applied (n : nat) (sp : list U256) (done : list constValueConstraint) (b : st.Stack * list bool) : Prop :=
  exists l, fst b = mkS l sp /\ length l = n /\ length (snd b) = n
  /\ Forall (fun p => 0 <= p) (map cv_pos done) /\ NoDup (map cv_pos done)
  /\ (forall p, snd b !! p = Some true <-> exists c, c ∈ done /\ Z.to_nat (cv_pos c) = p)
  /\ forall c, c ∈ done -> l !! Z.to_nat (cv_pos c) = Some (cv_value c).

Lemma apply_value_spec n sp done c b (w : world R) : applied n sp done b -> cv_pos c < Z.of_nat n ->
  gwp (apply_value b c) (fun b' w' => w' = w /\ applied n sp (done ++ [c]) b')
    (fun e => e = ErrUnsatisfiable /\ (cv_pos c < 0 \/ cv_pos c ∈ map cv_pos done)) w.
Proof.
  intros (l & Hb & Hl & Hm & Hp & Hnd & Hmask & Hval) Hc. destruct b as [stk mask]. cbn [fst snd] in *. subst stk.
  unfold apply_value. apply gwp_if; intros E1; b2p; [apply gwp_fail; auto|].
  assert (Z.to_nat (cv_pos c) < length mask)%nat as Hlt by lia.
  destruct (lookup_lt_is_Some_2 mask _ Hlt) as [m Em]. apply gwp_bind. eapply gwp_lift; [exact Em|].
  destruct m.
  - apply gwp_fail. split; [done|]. right. apply Hmask in Em as (c' & Hc' & He).
    apply elem_of_map. exists c'. split; [|done]. rewrite Forall_map, Forall_forall in Hp. specialize (Hp c' Hc'). cbn in Hp. lia.
  - apply gwp_bind. rewrite <-(Z2Nat.id (cv_pos c)) at 1 by lia.
    eapply gwp_lift; [apply Stack_Set_mkS; lia|]. apply gwp_ret. split; [done|].
    eexists. split; [done|]. cbn [snd]. rewrite !length_insert, !map_app. cbn [map].
    split; [done|]. split; [done|]. split; [apply Forall_app; split; [done|]; by repeat constructor|].
    assert (cv_pos c ∉ map cv_pos done) as Hnew.
    { intros (c' & He & Hc')%elem_of_map. assert (mask !! Z.to_nat (cv_pos c) = Some true) as Ht; [|congruence].
      apply Hmask. exists c'. by rewrite He. }
    split.
    { apply NoDup_app. split; [done|]. split; [|apply NoDup_singleton].
      intros p Hp' ->%list_elem_of_singleton. done. }
    split.
    + intros p. setoid_rewrite elem_of_app. setoid_rewrite list_elem_of_singleton.
      destruct (decide (Z.to_nat (cv_pos c) = p)) as [<-|Hne].
      * rewrite list_lookup_insert_eq by lia. split; [|done]. intros _. exists c. auto.
      * rewrite list_lookup_insert_ne by done. rewrite Hmask. split.
        -- intros (c' & Hc' & He). eauto.
        -- intros (c' & [Hc'| ->] & He); [eauto|done].
    + intros c' [Hc'| ->%list_elem_of_singleton]%elem_of_app; [|by rewrite list_lookup_insert_eq by lia].
      rewrite list_lookup_insert_ne; [auto|]. intros He. apply Hnew, elem_of_map. exists c'.
      split; [|done]. rewrite Forall_map, Forall_forall in Hp. specialize (Hp c' Hc'). cbn in Hp. lia.
Qed.

(** Filling the stack keeps what is marked. *)
Lemma fill_spec mask sp (P : list U256 -> Prop) (E : GenErr -> Prop) (w : world R) (done : list bool) l :
  length l = (length done + length mask)%nat -> P l ->
  (forall i v l, length l = (length done + length mask)%nat -> mask !! i = Some false -> P l ->
    P (<[(length done + i)%nat := v]> l)) ->
  gwp (fill mask (zlen done) (mkS l sp))
    (fun s w' => w_assignment w' = w_assignment w /\ exists l', s = mkS l' sp /\ length l' = length l /\ P l') E w.
Proof.
  revert done l w. induction mask as [|m mask IH]; intros done l w Hl HP Hs; cbn [fill].
  - apply gwp_ret. split; [done|]. by exists l.
  - apply gwp_bind. replace (zlen done + 1) with (zlen (done ++ [m])) by (rewrite zlen_app; done).
    assert (forall r l', length l' = length l -> P l' ->
      gwp (fill mask (zlen (done ++ [m])) (mkS l' sp)) (fun s w' => w_assignment w' = w_assignment w /\
        exists l', s = mkS l' sp /\ length l' = length l /\ P l') E (mkWorld r (w_assignment w))) as Hnext.
    { intros r l' Hl' HP'. eapply gwp_mono.
      - apply IH; [rewrite length_app; cbn in *; lia|done|].
        intros i v k Hk Hm HPk. rewrite length_app in *. cbn [length] in *.
        replace (length done + 1 + i)%nat with (length done + S i)%nat by lia.
        apply Hs; [lia|done|done].
      - intros s w' (Hw & l2 & Hs2 & Hl2 & HP2). split; [done|]. exists l2. split; [done|]. split; [lia|done].
      - done. }
    destruct m.
    + apply gwp_ret. destruct w. by apply Hnext.
    + apply gwp_bind. eapply gwp_draws; [apply draws_RandU256|]. intros v r _.
      eapply gwp_lift; [apply Stack_Set_mkS; cbn in Hl; lia|].
      apply Hnext; [apply length_insert|]. specialize (Hs 0%nat v l). rewrite Nat.add_0_r in Hs. by apply Hs.
Qed.

Lemma NewStackWithSize_mkS pooled n : 0 <= n <= st.MaxStackSize ->
  st.MaxStackSize <= zlen (st.stack pooled ++ st.spare pooled) ->
  exists l sp, st.NewStackWithSize pooled n = Some (mkS l sp) /\ length l = Z.to_nat n
    /\ (length l + length sp = length (st.stack pooled ++ st.spare pooled))%nat.
Proof.
  intros Hn Hc. unfold st.NewStackWithSize, st.Stack_reslice.
  rewrite (proj2 (Z.ltb_ge _ _)), (proj2 (Z.leb_le _ _)), (proj2 (Z.leb_le _ _)) by lia. cbn [andb].
  set (all := st.stack pooled ++ st.spare pooled) in *.
  exists (reverse (take (Z.to_nat n) all)), (drop (Z.to_nat n) all). unfold mkS. rewrite reverse_involutive.
  split; [done|]. rewrite length_reverse, length_take, length_drop. unfold zlen in Hc. lia.
Qed.

(** Why a set of constraints has no stack. *)
Lemma unsat_size g asg cs s : resolved g asg cs -> sat g asg s ->
  RangeSolver.admits (RangeSolver.AddLowerBoundary (maxPositionInValues cs + 1) (sg_size g)) (st.Stack_Size s).
Proof.
  intros Hr [Hs Hc Hv]. apply RangeSolver.AddLowerBoundary_admits. split; [done|].
  pose proof (proj2 (resolved_sat g asg cs s Hr) (conj Hc Hv)) as H. unfold maxPositionInValues.
  destruct (maxPosition_spec cs (-1)) as (_ & _ & [->|(c & Hc' & ->)]).
  - unfold st.Stack_Size. pose proof (zlen_nonneg (st.stack s)). lia.
  - specialize (H c Hc'). apply Stack_Get_range in H. lia.
Qed.

(** The generated stack satisfies the constraints and keeps the array of the
    pooled one. A variable without a value is an error; so are constraints no
    stack satisfies, and two constraints on one position. *)
Lemma stack_Generate_spec pooled g (Q : st.Stack * StackGenerator -> world R -> Prop) (E : GenErr -> Prop) w :
  wf g -> st.MaxStackSize <= zlen (st.stack pooled ++ st.spare pooled) ->
  (forall s g' r, sat g (w_assignment w) s -> st.Stack_Size s <= st.MaxStackSize ->
    zlen (st.stack s ++ st.spare s) = zlen (st.stack pooled ++ st.spare pooled) ->
    Q (s, g') (mkWorld r (w_assignment w))) ->
  ((exists c, c ∈ sg_varValues g /\ w_assignment w !! vv_variable c = None) -> E ErrUnboundVariable) ->
  (~ (exists s, sat g (w_assignment w) s) \/ ~ NoDup (positions g) -> E ErrUnsatisfiable) ->
  gwp (Generate pooled g) Q E w.
Proof.
  intros [] Hpool HQ HE1 HE2. unfold Generate. apply gwp_bind, stack_resolve_spec; [|done]. intros cs Hr.
  pose proof (resolved_positions _ _ _ Hr) as Hpos.
  assert (forall c, c ∈ cs -> cv_pos c < MaxInt64) as Hcs.
  { intros c Hc. assert (cv_pos c ∈ positions g) as H by (rewrite <-Hpos; apply elem_of_map; eauto).
    unfold positions in H. apply elem_of_app in H as [(k & -> & Hk)%elem_of_map|(k & -> & Hk)%elem_of_map]; auto. }
  pose proof (maxPosition_spec cs (-1)) as (Hm1 & Hm2 & Hm3). fold (maxPositionInValues cs) in *.
  assert (-1 <= maxPositionInValues cs < MaxInt64) as Hmax.
  { split; [done|]. destruct Hm3 as [->|(c & Hc & ->)]; [done|auto]. }
  rewrite i64_id by zblia. apply gwp_bind, RangeSolver.range_Generate_spec.
  { apply RangeSolver.wf_AddLowerBoundary; [cbn [isT]; zblia|split; cbn [isT]; unfold st.MaxStackSize in *; zblia]. }
  2: { intros Hlt. apply HE2. left. intros (s & Hs). pose proof (unsat_size _ _ _ _ Hr Hs) as H.
       unfold RangeSolver.admits in H. lia. }
  intros n r [Hn Hn']%RangeSolver.AddLowerBoundary_admits. unfold RangeSolver.admits in Hn.
  destruct (NewStackWithSize_mkS pooled n) as (l & sp & Hnew & Hl & Hcap); [lia|done|].
  apply gwp_bind. eapply gwp_lift; [exact Hnew|]. apply gwp_bind. eapply gwp_mono.
  - apply (gwp_for apply_value (fun done b w' => w' = mkWorld r (w_assignment w) /\ applied (Z.to_nat n) sp done b)).
    + split; [done|]. exists l. cbn [fst snd map]. rewrite length_replicate.
      do 4 (split; [done||constructor|]). split; [constructor|]. split.
      * intros p. split; [intros [H _]%lookup_replicate; done|]. intros (c & []%not_elem_of_nil & _).
      * intros c []%not_elem_of_nil.
    + intros done c rest b w' Hsplit [-> Hd]. eapply gwp_mono; [apply apply_value_spec; [done|]|done|].
      * assert (c ∈ cs) as Hc by (rewrite Hsplit; apply elem_of_app; right; left). specialize (Hm2 c Hc). lia.
      * intros e [-> He]. apply HE2. rewrite <-Hpos, Hsplit, map_app. cbn [map]. destruct He as [Hneg|Hdup].
        -- left. intros (s & [_ Hsc Hsv]). pose proof (proj2 (resolved_sat _ _ _ s Hr) (conj Hsc Hsv) c) as Hg.
           rewrite Hsplit in Hg. specialize (Hg ltac:(apply elem_of_app; right; left)).
           apply Stack_Get_range in Hg. lia.
        -- right. intros (_ & Hno & _)%NoDup_app. by apply (Hno _ Hdup); left.
  - intros [stk mask] w' [-> (l' & Hstk & Hl' & Hml & Hp & Hnd & Hmask & Hval)]. cbn [fst snd] in *. subst stk.
    apply gwp_bind. eapply gwp_mono.
    + apply (fill_spec mask sp (fun l => forall c, c ∈ cs -> l !! Z.to_nat (cv_pos c) = Some (cv_value c)) E
        (mkWorld r (w_assignment w)) [] l'); [cbn; lia|done|].
      intros i v k Hk Hi HP c Hc. rewrite list_lookup_insert_ne; [auto|]. cbn. intros ->.
      assert (mask !! Z.to_nat (cv_pos c) = Some true) as Ht by (apply Hmask; eauto). congruence.
    + intros s [r' asg] (Hw & l2 & -> & Hl2 & HP). cbn [w_assignment] in Hw. subst asg. apply gwp_ret, HQ.
      * pose proof (proj1 (resolved_sat _ _ _ (mkS l2 sp) Hr)) as [Hc Hv].
        { intros c Hc. rewrite Stack_Get_mkS_lookup; [auto|].
          rewrite Forall_map, Forall_forall in Hp. by apply (Hp c Hc). }
        split; [|done|done]. rewrite Stack_Size_mkS. unfold RangeSolver.admits, zlen. lia.
      * rewrite Stack_Size_mkS. unfold zlen. lia.
      * cbn [st.stack st.spare mkS]. unfold zlen. rewrite length_app, length_reverse. lia.
    + done.
  - done.
Qed.

End Spec.
End StackGenerator.

(** ** Memories *)

Record MemoryGenerator := NewMemoryGenerator {}.

Module MemoryGenerator.

Definition Generate {R} `{Rand R} (g : MemoryGenerator) : Gen R st.Memory :=
  n ← gen_Intn 10;
  let size := 32 * n in
  data ← gen_Read (Z.to_nat size);
  mret (st.Memory_Set [] data).

Definition Clone (g : MemoryGenerator) : MemoryGenerator := NewMemoryGenerator.
Definition Restore (g other : MemoryGenerator) : MemoryGenerator := g.

(** A memory of whole words. *)
Lemma memory_draws_Generate {R} {RND : Rand R} {RL : RandLaws R RND} g :
  draws (Generate g) (fun m => exists words, zlen m = 32 * words /\ 0 <= words < 10).
Proof.
  eapply draws_bind; [apply draws_Intn; lia|]. intros n Hn. cbn beta in Hn.
  eapply draws_bind; [apply draws_Read|]. intros l Hl. cbn beta in Hl. apply draws_ret.
  exists n. unfold st.Memory_Set, zlen. lia.
Qed.

End MemoryGenerator.

(** ** Calls *)

Record CallContextGenerator := NewCallContextGenerator {}.

Module CallContextGenerator.

Definition Generate {R} `{Rand R} (accountAddress : Address) (g : CallContextGenerator) : Gen R st.CallContext :=
  callerAddress ← RandomAddress;
  value ← RandU256;
  mret (st.mkCallContext accountAddress callerAddress value).

Definition Clone (g : CallContextGenerator) : CallContextGenerator := NewCallContextGenerator.
Definition Restore (g other : CallContextGenerator) : CallContextGenerator := g.

Lemma callContext_draws_Generate {R} {RND : Rand R} {RL : RandLaws R RND} a g :
  draws (Generate a g) (fun c => st.cc_AccountAddress c = a).
Proof.
  eapply draws_bind; [apply draws_RandomAddress|]. intros c _.
  eapply draws_bind; [apply draws_RandU256|]. intros v _. by apply draws_ret.
Qed.

End CallContextGenerator.

Record CallJournalGenerator := NewCallJournalGenerator {}.

Module CallJournalGenerator.

Definition Generate {R} `{Rand R} (g : CallJournalGenerator) : Gen R st.CallJournal :=
  let journal := st.NewCallJournal in
  success ← gen_Int31n 2;
  output ← RandomBytes 2000;
  gasCosts ← gen_Int63;
  gasRefund ← gen_Int63;
  createdAccount ← RandomAddress;
  mret (st.mkCallJournal (st.Past journal)
    (st.Future journal ++ [st.mkFutureCall (success =? 1) output gasCosts gasRefund createdAccount])).

Definition Clone (g : CallJournalGenerator) : CallJournalGenerator := NewCallJournalGenerator.
Definition Restore (g other : CallJournalGenerator) : CallJournalGenerator := g.

(** One call, with costs that are not negative. *)
Lemma journal_draws_Generate {R} {RND : Rand R} {RL : RandLaws R RND} g :
  draws (Generate g) (fun j => st.Past j = [] /\ exists f, st.Future j = [f]
    /\ 0 <= st.fc_GasCosts f < 2 ^ 63 /\ zlen (st.fc_Output f) <= 2000).
Proof.
  eapply draws_bind; [apply draws_Int31n; lia|]. intros s _.
  eapply draws_bind; [apply draws_RandomBytes; lia|]. intros o Ho.
  eapply draws_bind; [apply draws_Int63|]. intros c Hc.
  eapply draws_bind; [apply draws_Int63|]. intros r _.
  eapply draws_bind; [apply draws_RandomAddress|]. intros a _. apply draws_ret.
  split; [done|]. eexists. split; [done|]. cbn. cbn beta in *. lia.
Qed.

End CallJournalGenerator.

(** ** New and self-destructed contracts *)

Record SelfDestructedGenerator := mkSelfDestructedGenerator {
  sdg_mustBeNewContract : bool;
  sdg_mustNotBeNewContract : bool;
  sdg_mustBeSelfDestructed : bool;
  sdg_mustNotBeSelfDestructed : bool
}.

Module SelfDestructedGenerator.

Definition New : SelfDestructedGenerator := mkSelfDestructedGenerator false false false false.

Definition Clone (g : SelfDestructedGenerator) : SelfDestructedGenerator :=
  mkSelfDestructedGenerator (sdg_mustBeNewContract g) (sdg_mustNotBeNewContract g)
    (sdg_mustBeSelfDestructed g) (sdg_mustNotBeSelfDestructed g).

Definition Restore (g other : SelfDestructedGenerator) : SelfDestructedGenerator := other.

Definition MarkAsNewContract (g : SelfDestructedGenerator) : SelfDestructedGenerator :=
  mkSelfDestructedGenerator true (sdg_mustNotBeNewContract g)
    (sdg_mustBeSelfDestructed g) (sdg_mustNotBeSelfDestructed g).

Definition MarkAsNotNewContract (g : SelfDestructedGenerator) : SelfDestructedGenerator :=
  mkSelfDestructedGenerator (sdg_mustBeNewContract g) true
    (sdg_mustBeSelfDestructed g) (sdg_mustNotBeSelfDestructed g).

Definition MarkAsSelfDestructed (g : SelfDestructedGenerator) : SelfDestructedGenerator :=
  mkSelfDestructedGenerator (sdg_mustBeNewContract g) (sdg_mustNotBeNewContract g)
    true (sdg_mustNotBeSelfDestructed g).

Definition MarkAsNotSelfDestructed (g : SelfDestructedGenerator) : SelfDestructedGenerator :=
  mkSelfDestructedGenerator (sdg_mustBeNewContract g) (sdg_mustNotBeNewContract g)
    (sdg_mustBeSelfDestructed g) true.

(** One of the two flags from what it must be and what it must not be. *)
Definition pick {R} `{Rand R} (must mustNot : bool) : Gen R bool :=
  if negb must && negb mustNot then n ← gen_Int; mret (Z.rem n 2 =? 0)
  else if must && mustNot then gen_fail ErrUnsatisfiable
  else if must && negb mustNot then mret true
  else mret false.

Definition Generate {R} `{Rand R} (g : SelfDestructedGenerator) : Gen R (bool * bool) :=
  hasSelfDestroyed ← pick (sdg_mustBeSelfDestructed g) (sdg_mustNotBeSelfDestructed g);
  isNewContract ← pick (sdg_mustBeNewContract g) (sdg_mustNotBeNewContract g);
  mret (hasSelfDestroyed, isNewContract).

Record sat (g : SelfDestructedGenerator) (destructed new : bool) : Prop := {
  sat_new : sdg_mustBeNewContract g = true -> new = true;
  sat_notNew : sdg_mustNotBeNewContract g = true -> new = false;
  sat_destructed : sdg_mustBeSelfDestructed g = true -> destructed = true;
  sat_notDestructed : sdg_mustNotBeSelfDestructed g = true -> destructed = false
}.

Lemma selfDestructed_pick_spec {R} {RND : Rand R} must mustNot (Q : bool -> world R -> Prop) (E : GenErr -> Prop) w :
  (forall b r, (must = true -> b = true) -> (mustNot = true -> b = false) -> Q b (mkWorld r (w_assignment w))) ->
  (must = true -> mustNot = true -> E ErrUnsatisfiable) ->
  gwp (pick must mustNot) Q E w.
Proof.
  intros HQ HE. unfold pick. destruct must, mustNot; cbn [negb andb].
  - apply gwp_fail; auto.
  - apply gwp_ret. destruct w. by apply HQ.
  - apply gwp_ret. destruct w. by apply HQ.
  - apply gwp_bind, gwp_draw. intros r. by apply gwp_ret, HQ.
Qed.

(** The flags satisfy the constraints; there is an error only when none do. *)
Lemma selfDestructed_Generate_spec {R} {RND : Rand R} g (Q : bool * bool -> world R -> Prop) (E : GenErr -> Prop) w :
  (forall d n r, sat g d n -> Q (d, n) (mkWorld r (w_assignment w))) ->
  (~ (exists d n, sat g d n) -> E ErrUnsatisfiable) ->
  gwp (Generate g) Q E w.
Proof.
  intros HQ HE. unfold Generate. apply gwp_bind, selfDestructed_pick_spec.
  - intros d r Hd Hd'. apply gwp_bind, selfDestructed_pick_spec.
    + intros n r' Hn Hn'. by apply gwp_ret, HQ.
    + intros H1 H2. apply HE. intros (d' & n' & []). intuition congruence.
  - intros H1 H2. apply HE. intros (d' & n' & []). intuition congruence.
Qed.

End SelfDestructedGenerator.
