(* ===== verification/CtGenCode.v ===== *)
(** * The generator of codes

    [go/ct/gen/code.go]: a generator of codes that have given instructions at
    given positions, or at positions it chooses and assigns to variables, and
    variables that point to instructions or to data; with its solver for the
    constraints on variables. *)
From Stdlib Require Import ZArith Lia Strings.Byte Permutation.
From stdpp Require Import base list numbers gmap strings sorting.
From S2P Require Import Prelude Uint256 Types OpCodes SfvmAnalysis CtCommon CtState CtStateFacts CtRand CtGenSolvers.
Set Default Goal Selector "!".
Local Open Scope Z_scope.
Local Open Scope go_scope.

Record constOpConstraint := mkConstOp { co_pos : Z; co_op : OpCode }.
Record varOpConstraint := mkVarOp { vo_variable : Var; vo_op : OpCode }.

(** [varIsCodeConstraint] and [varIsDataConstraint] have the variable as their
    only field. [codeSize] is set by tests only. *)
Record CodeGenerator := mkCodeGenerator {
  cg_constOps : list constOpConstraint;
  cg_varOps : list varOpConstraint;
  cg_varIsCodeConstraints : list Var;
  cg_varIsDataConstraints : list Var;
  cg_codeSize : option Z
}.

(** ** The solver for constraints on variables *)

Inductive Used := isUnused | isCode | isData.

#[global] Instance Used_eqdec : EqDecision Used.
Proof. solve_decision. Defined.

(** The assignment and the source are those of the monad. *)
Record varCodeConstraintSolver := mkVarCodeSolver {
  vs_codeSize : Z;
  vs_ops : list constOpConstraint;
  vs_usedPositions : gmap Z Used
}.

Module varCodeConstraintSolver.

Definition used (s : varCodeConstraintSolver) (pos : Z) : Used := default isUnused (vs_usedPositions s !! pos).

(** [for i := 1; i <= op.Width()-1; i++]. *)
Fixpoint markData (n : nat) (pos : Z) (m : gmap Z Used) : gmap Z Used :=
  match n with
  | O => m
  | S n => markData n (pos + 1) (<[pos := isData]> m)
  end.

Definition markUsed (pos : Z) (op : OpCode) (s : varCodeConstraintSolver) : varCodeConstraintSolver :=
  mkVarCodeSolver (vs_codeSize s) (vs_ops s)
    (markData (Z.to_nat (Width op - 1)) (pos + 1) (<[pos := isCode]> (vs_usedPositions s))).

Definition New (codeSize : Z) (constOps : list constOpConstraint) : varCodeConstraintSolver :=
  fold_left (fun s con => markUsed (co_pos con) (co_op con) s) constOps (mkVarCodeSolver codeSize constOps ∅).

(** [s.ops = append(s.ops, constOpConstraint{pos, op})]. *)
Definition addOp (pos : Z) (op : OpCode) (s : varCodeConstraintSolver) : varCodeConstraintSolver :=
  mkVarCodeSolver (vs_codeSize s) (vs_ops s ++ [mkConstOp pos op]) (vs_usedPositions s).

Definition fits (s : varCodeConstraintSolver) (pos : Z) (op : OpCode) : bool :=
  if Width op >? vs_codeSize s - pos then false
  else forallb (fun i => bool_decide (used s (pos + Z.of_nat i) = isUnused)) (seq 0 (Z.to_nat (Width op))).

(** [for ; n < 33 && pos+n < s.codeSize; n++], [k] iterations left. *)
Fixpoint largestFit_loop (s : varCodeConstraintSolver) (pos : Z) (k : nat) (n : Z) : Z :=
  match k with
  | O => n
  | S k =>
      if pos + n <? vs_codeSize s then
        if bool_decide (used s (pos + n) = isUnused) then largestFit_loop s pos k (n + 1) else n
      else n
  end.

Definition largestFit (s : varCodeConstraintSolver) (pos : Z) : Z := largestFit_loop s pos 33 0.

(** The loops that look for a position: from [pos] on, cyclically, up to the
    first position that is [ok] or until [startPos] is reached again. The
    fuel, one more than the size, is never used up ([search_spec]). *)
Fixpoint search_loop (fuel : nat) (codeSize startPos : Z) (ok : Z -> bool) (pos : Z) : option (option Z) :=
  match fuel with
  | O => None
  | S fuel =>
      if ok pos then Some (Some pos)
      else
        let pos := pos + 1 in
        let pos := if pos >=? codeSize then 0 else pos in
        if pos =? startPos then Some None
        else search_loop fuel codeSize startPos ok pos
  end.

Section Solve.
Context {U : Uint256} {R : Type} {RND : Rand R}.
Abbreviation solver := varCodeConstraintSolver.

Definition search (s : solver) (ok : Z -> bool) : Gen R Z :=
  pos ← gen_Int31n (i32 (vs_codeSize s));
  match search_loop (Z.to_nat (vs_codeSize s) + 1) (vs_codeSize s) pos ok pos with
  | None => fun _ => gLoop
  | Some None => gen_fail ErrUnsatisfiable
  | Some (Some pos) => mret pos
  end.

Definition assign (v : Var) (pos : Z) : Gen R unit := gen_assign v (NewU256 (u64 pos)).

(** An iteration of [solveVarOps]; the variables placed so far with their
    operations. *)
Definition solveVarOp (b : solver * gmap Var OpCode) (cur : varOpConstraint) : Gen R (solver * gmap Var OpCode) :=
  let '(s, boundVariables) := b in
  match boundVariables !! vo_variable cur with
  | Some op => if negb (bool_decide (op = vo_op cur)) then gen_fail ErrUnsatisfiable else mret b
  | None =>
      pos ← search s (fun pos => fits s pos (vo_op cur));
      let boundVariables := <[vo_variable cur := vo_op cur]> boundVariables in
      let s := addOp pos (vo_op cur) (markUsed pos (vo_op cur) s) in
      _ ← assign (vo_variable cur) pos;
      mret (s, boundVariables)
  end.

Definition solveVarOps (varOps : list varOpConstraint) (s : solver) : Gen R solver :=
  '(s, _) ← gen_for solveVarOp varOps (s, ∅);
  mret s.

(** A variable that is assigned to an instruction needs nothing; the result of
    the test tells it. *)
Definition alreadyCode (s : solver) (variable : Var) : Gen R bool :=
  pos ← gen_lookup variable;
  match pos with
  | None => mret false
  | Some pos =>
      if negb (U256_Lt pos (NewU256 (u64 (vs_codeSize s)))) then gen_fail ErrUnsatisfiable
      else mret (bool_decide (used s (i64 (U256_Uint64 pos)) = isCode))
  end.

Definition solveIsCode1 (s : solver) (variable : Var) : Gen R solver :=
  satisfied ← alreadyCode s variable;
  if satisfied : bool then mret s
  else
    pos ← search s (fun pos => negb (bool_decide (used s pos = isData)));
    s ← (if bool_decide (used s pos = isUnused) then
           let randomOps := ValidOpCodesNoPush in
           n ← gen_Intn (zlen randomOps);
           op ← gen_lift (randomOps !! Z.to_nat n);
           mret (addOp pos op (markUsed pos op s))
         else mret s);
    _ ← assign variable pos;
    mret s.

Definition solveIsCode (varIsCodeConstraints : list Var) (s : solver) : Gen R solver :=
  gen_for solveIsCode1 varIsCodeConstraints s.

(** The search stops on data, and on an unused position where a push with its
    data fits; there a push is drawn. *)
Definition dataFits (s : solver) (pos : Z) : bool :=
  bool_decide (used s pos = isData)
  || (bool_decide (used s pos = isUnused) && (largestFit s pos >=? 2)).

Definition solveIsData1 (s : solver) (variable : Var) : Gen R solver :=
  pos ← gen_lookup variable;
  _ ← gen_fail_if (match pos with
                   | None => false
                   | Some pos => U256_Lt pos (NewU256 (u64 (vs_codeSize s)))
                                 && bool_decide (used s (i64 (U256_Uint64 pos)) = isCode)
                   end) ErrUnsatisfiable;
  pos ← search s (dataFits s);
  '(s, pos) ← (if bool_decide (used s pos = isUnused) then
                 n ← gen_Intn (largestFit s pos - 1);
                 let pushOp := byte_of (byte_val PUSH1 + n) in
                 let s := addOp pos pushOp (markUsed pos pushOp s) in
                 k ← gen_Intn (byte_val pushOp - byte_val PUSH1 + 1);
                 mret (s, pos + 1 + k)
               else mret (s, pos));
  _ ← assign variable pos;
  mret s.

Definition solveIsData (varIsDataConstraints : list Var) (s : solver) : Gen R solver :=
  gen_for solveIsData1 varIsDataConstraints s.

Definition solve (varOps : list varOpConstraint) (varIsCodeConstraints varIsDataConstraints : list Var) (s : solver)
    : Gen R (list constOpConstraint) :=
  s ← solveVarOps varOps s;
  s ← solveIsCode varIsCodeConstraints s;
  s ← solveIsData varIsDataConstraints s;
  mret (vs_ops s).

End Solve.
(** *** Facts *)

(** The loop that looks for a position ends: with one that is [ok], or after
    all have been tried. *)
Lemma search_loop_spec fuel codeSize startPos ok pos :
  let visited p := if p >=? startPos then p - startPos else p - startPos + codeSize in
  0 <= startPos < codeSize -> 0 <= pos < codeSize ->
  (forall p, 0 <= p < codeSize -> visited p < visited pos -> ok p = false) ->
  codeSize - visited pos <= Z.of_nat fuel ->
  exists r, search_loop fuel codeSize startPos ok pos = Some r /\
    match r with
    | Some p => ok p = true /\ 0 <= p < codeSize
    | None => forall p, 0 <= p < codeSize -> ok p = false
    end.
Proof.
  intros visited Hs. revert pos. induction fuel as [|fuel IH]; intros pos Hp Hv Hf; cbn [search_loop].
  - unfold visited in Hf. destruct (Z.geb_spec pos startPos); lia.
  - destruct (ok pos) eqn:Eok; [by eexists|].
    set (pos' := if pos + 1 >=? codeSize then 0 else pos + 1).
    assert (0 <= pos' < codeSize) as Hp' by (unfold pos'; destruct (Z.geb_spec (pos + 1) codeSize); lia).
    assert (pos' = startPos -> visited pos = codeSize - 1) as Hlast.
    { intros He. unfold visited, pos' in *. destruct (Z.geb_spec (pos + 1) codeSize), (Z.geb_spec pos startPos); lia. }
    assert (pos' <> startPos -> visited pos' = visited pos + 1) as Hnext.
    { intros He. unfold visited, pos' in *. destruct (Z.geb_spec (pos + 1) codeSize), (Z.geb_spec pos startPos);
        repeat match goal with |- context [?a >=? ?b] => destruct (Z.geb_spec a b) end; lia. }
    assert (forall p, 0 <= p < codeSize -> visited p < visited pos + 1 -> ok p = false) as Hv'.
    { intros p Hpr Hlt. destruct (Z.eq_dec p pos) as [->|Hne]; [done|]. apply Hv; [done|].
      assert (visited p <> visited pos); [|lia].
      unfold visited. destruct (Z.geb_spec p startPos), (Z.geb_spec pos startPos); lia. }
    destruct (Z.eqb_spec pos' startPos) as [He|He].
    + eexists. split; [done|]. intros p Hpr. apply Hv'; [done|]. specialize (Hlast He).
      assert (visited p < codeSize); [|lia]. unfold visited. destruct (Z.geb_spec p startPos); lia.
    + specialize (Hnext He). apply IH; [done| |lia]. intros p Hpr Hlt. apply Hv'; [done|lia].
Qed.

Lemma search_loop_start codeSize pos ok : 0 <= pos < codeSize ->
  exists r, search_loop (Z.to_nat codeSize + 1) codeSize pos ok pos = Some r /\
    match r with
    | Some p => ok p = true /\ 0 <= p < codeSize
    | None => forall p, 0 <= p < codeSize -> ok p = false
    end.
Proof.
  intros Hp. apply search_loop_spec; [done|done| |].
  - rewrite (proj2 (Z.geb_le pos pos)) by lia. intros p Hpr Hlt. destruct (Z.geb_spec p pos); lia.
  - rewrite (proj2 (Z.geb_le pos pos)) by lia. lia.
Qed.

Lemma markData_lookup n pos m p : markData n pos m !! p =
  if (pos <=? p) && (p <? pos + Z.of_nat n) then Some isData else m !! p.
Proof.
  revert pos m. induction n as [|n IH]; intros pos m; cbn [markData].
  - destruct (Z.leb_spec pos p), (Z.ltb_spec p (pos + Z.of_nat 0)); cbn; try done. lia.
  - rewrite IH. destruct (Z.eq_dec p pos) as [->|Hne].
    + rewrite lookup_insert_eq. destruct (Z.leb_spec (pos + 1) pos), (Z.leb_spec pos pos),
        (Z.ltb_spec pos (pos + Z.of_nat (S n))); cbn; try done; lia.
    + rewrite lookup_insert_ne by done. destruct (Z.leb_spec (pos + 1) p), (Z.leb_spec pos p),
        (Z.ltb_spec p (pos + 1 + Z.of_nat n)), (Z.ltb_spec p (pos + Z.of_nat (S n))); cbn; try done; lia.
Qed.

(** What marking an operation changes. *)
Lemma used_markUsed pos op s p : used (markUsed pos op s) p =
  if p =? pos then isCode else if (pos <? p) && (p <? pos + Width op) then isData else used s p.
Proof.
  unfold used, markUsed. cbn [vs_usedPositions]. rewrite markData_lookup. pose proof (Width_range op).
  rewrite Z2Nat.id by lia. destruct (Z.eqb_spec p pos) as [->|Hne].
  - rewrite lookup_insert_eq. destruct (Z.leb_spec (pos + 1) pos); [lia|]. done.
  - rewrite lookup_insert_ne by done. destruct (Z.leb_spec (pos + 1) p), (Z.ltb_spec pos p),
      (Z.ltb_spec p (pos + 1 + (Width op - 1))), (Z.ltb_spec p (pos + Width op)); cbn; try done; lia.
Qed.

Lemma used_addOp pos op s p : used (addOp pos op s) p = used s p.
Proof. done. Qed.

Lemma fits_spec s pos op : fits s pos op = true ->
  pos + Width op <= vs_codeSize s /\ forall p, pos <= p < pos + Width op -> used s p = isUnused.
Proof.
  unfold fits. case_if; [done|]. intros H. split; [lia|]. intros p Hp.
  rewrite forallb_forall in H. specialize (H (Z.to_nat (p - pos))).
  rewrite Z2Nat.id in H by lia. replace (pos + (p - pos)) with p in H by lia.
  apply bool_decide_eq_true in H; [done|]. apply in_seq. lia.
Qed.

Lemma largestFit_spec s pos k n : 0 <= n -> pos + n <= vs_codeSize s ->
  (forall p, pos <= p < pos + n -> used s p = isUnused) ->
  let m := largestFit_loop s pos k n in
  n <= m <= n + Z.of_nat k /\ pos + m <= vs_codeSize s /\ forall p, pos <= p < pos + m -> used s p = isUnused.
Proof.
  revert n. induction k as [|k IH]; intros n Hn Hb Hu; cbn [largestFit_loop]; [split; [lia|done]|].
  destruct (Z.ltb_spec (pos + n) (vs_codeSize s)); [|split; [lia|done]].
  case_bool_decide as Hf; [|split; [lia|done]].
  destruct (IH (n + 1)) as (H1 & H2 & H3); [lia|lia| |].
  - intros p Hp. destruct (Z.eq_dec p (pos + n)) as [->|]; [done|]. apply Hu. lia.
  - split; [lia|done].
Qed.

Lemma largestFit_ok s pos : pos <= vs_codeSize s ->
  0 <= largestFit s pos <= 33 /\ pos + largestFit s pos <= vs_codeSize s
  /\ forall p, pos <= p < pos + largestFit s pos -> used s p = isUnused.
Proof.
  intros H. destruct (largestFit_spec s pos 33 0) as (H1 & H2 & H3); [lia|lia|intros; lia|].
  split; [|done]. change (Z.of_nat 33) with 33 in H1. unfold largestFit. lia.
Qed.

(** Two operations overlap. *)
Definition conflict (ops : list constOpConstraint) : Prop := exists c1 c2, c1 ∈ ops /\ c2 ∈ ops
  /\ co_pos c1 < co_pos c2 < co_pos c1 + Width (co_op c1).

Lemma conflict_mono ops ops' : (forall c, c ∈ ops -> c ∈ ops') -> conflict ops -> conflict ops'.
Proof. intros H (c1 & c2 & H1 & H2 & Hc). exists c1, c2. auto. Qed.

(** The marks come from the operations. *)
Definition marks_ok (s : varCodeConstraintSolver) : Prop :=
  (forall p, used s p = isCode -> exists c, c ∈ vs_ops s /\ co_pos c = p)
  /\ (forall p, used s p = isData -> exists c, c ∈ vs_ops s /\ co_pos c < p < co_pos c + Width (co_op c)).

(** [s'] is [s] with more operations, at positions that were free. *)
Definition extends (s s' : varCodeConstraintSolver) : Prop :=
  vs_codeSize s' = vs_codeSize s
  /\ (forall c, c ∈ vs_ops s -> c ∈ vs_ops s')
  /\ (forall p, used s p <> isUnused -> used s' p = used s p).

Lemma extends_refl s : extends s s.
Proof. by repeat split. Qed.

Lemma extends_trans s1 s2 s3 : extends s1 s2 -> extends s2 s3 -> extends s1 s3.
Proof.
  intros (H1 & H2 & H3) (K1 & K2 & K3). split; [congruence|]. split; [auto|].
  intros p Hp. rewrite K3; rewrite H3 by done; done.
Qed.

Lemma place_spec s pos op : marks_ok s -> (forall p, pos <= p < pos + Width op -> used s p = isUnused) ->
  let s' := addOp pos op (markUsed pos op s) in
  marks_ok s' /\ extends s s' /\ mkConstOp pos op ∈ vs_ops s' /\ used s' pos = isCode
  /\ forall p, pos < p < pos + Width op -> used s' p = isData.
Proof.
  intros [Hc Hd] Hu s'. subst s'. pose proof (Width_range op). cbn [vs_ops addOp markUsed vs_codeSize].
  assert (mkConstOp pos op ∈ vs_ops s ++ [mkConstOp pos op]) as Hin by (apply elem_of_app; right; left).
  split.
  { split; intros p; rewrite used_addOp, used_markUsed; cbn [vs_ops addOp markUsed].
    - destruct (Z.eqb_spec p pos) as [->|]; [by exists (mkConstOp pos op)|].
      destruct (_ && _); [done|]. intros (c & Hc' & He)%Hc. exists c. split; [|done]. apply elem_of_app. by left.
    - destruct (Z.eqb_spec p pos) as [->|]; [done|].
      destruct (Z.ltb_spec pos p), (Z.ltb_spec p (pos + Width op)); cbn.
      + intros _. by exists (mkConstOp pos op).
      + intros (c & Hc' & He)%Hd. exists c. split; [|done]. apply elem_of_app. by left.
      + intros (c & Hc' & He)%Hd. exists c. split; [|done]. apply elem_of_app. by left.
      + intros (c & Hc' & He)%Hd. exists c. split; [|done]. apply elem_of_app. by left. }
  split.
  { split; [done|]. split; [intros c Hc'; cbn; apply elem_of_app; by left|].
    intros p Hp. rewrite used_addOp, used_markUsed. destruct (Z.eqb_spec p pos) as [->|].
    - destruct Hp. apply Hu. lia.
    - destruct (Z.ltb_spec pos p), (Z.ltb_spec p (pos + Width op)); cbn; try done. destruct Hp. apply Hu. lia. }
  split; [done|]. split; [by rewrite used_addOp, used_markUsed, Z.eqb_refl|].
  intros p Hp. rewrite used_addOp, used_markUsed, (proj2 (Z.eqb_neq _ _)), (proj2 (Z.ltb_lt _ _)), (proj2 (Z.ltb_lt _ _)) by lia.
  done.
Qed.

(** The initial marks: an operation's position is marked as code, unless
    another operation covers it. *)
Lemma New_spec codeSize ops : vs_codeSize (New codeSize ops) = codeSize /\ vs_ops (New codeSize ops) = ops
  /\ marks_ok (New codeSize ops)
  /\ forall c, c ∈ ops -> used (New codeSize ops) (co_pos c) = isCode \/ conflict ops.
Proof.
  unfold New.
  assert (forall l s done, ops = done ++ l -> vs_codeSize s = codeSize -> vs_ops s = ops -> marks_ok s ->
    (forall c, c ∈ done -> used s (co_pos c) = isCode \/ conflict ops) ->
    let s' := fold_left (fun s con => markUsed (co_pos con) (co_op con) s) l s in
    vs_codeSize s' = codeSize /\ vs_ops s' = ops /\ marks_ok s'
    /\ forall c, c ∈ ops -> used s' (co_pos c) = isCode \/ conflict ops) as H.
  { induction l as [|con l IH]; intros s done Hops Hcs Ho [Hc Hd] Hu; cbn [fold_left].
    - rewrite app_nil_r in Hops. subst done. by repeat split.
    - assert (con ∈ ops) as Hcon by (rewrite Hops; apply elem_of_app; right; left).
      apply (IH _ (done ++ [con])); [by rewrite <-app_assoc|done|done| |].
      + split; intros p; rewrite used_markUsed; cbn [vs_ops markUsed]; rewrite Ho in *.
        * destruct (Z.eqb_spec p (co_pos con)) as [->|]; [eauto|]. destruct (_ && _); [done|apply Hc].
        * destruct (Z.eqb_spec p (co_pos con)) as [->|]; [done|].
          destruct (Z.ltb_spec (co_pos con) p), (Z.ltb_spec p (co_pos con + Width (co_op con))); cbn; eauto.
      + intros c Hc'. rewrite used_markUsed. destruct (Z.eqb_spec (co_pos c) (co_pos con)); [by left|].
        destruct (Z.ltb_spec (co_pos con) (co_pos c)), (Z.ltb_spec (co_pos c) (co_pos con + Width (co_op con))); cbn.
        * right. exists con, c. split; [done|]. split; [|done]. rewrite Hops. apply elem_of_app in Hc' as [Hc'| ->%list_elem_of_singleton].
          -- apply elem_of_app. by left.
          -- apply elem_of_app. right. left.
        * apply elem_of_app in Hc' as [Hc'| ->%list_elem_of_singleton]; [auto|lia].
        * apply elem_of_app in Hc' as [Hc'| ->%list_elem_of_singleton]; [auto|lia].
        * apply elem_of_app in Hc' as [Hc'| ->%list_elem_of_singleton]; [auto|lia]. }
  apply (H ops _ []); [done|done|done| |intros c []%not_elem_of_nil].
  split; intros p; unfold used; cbn; rewrite lookup_empty; done.
Qed.

(** *** What solving gives *)

(** No code of the size has all the operations. *)
Definition impossible (s : varCodeConstraintSolver) : Prop :=
  conflict (vs_ops s) \/ exists c, c ∈ vs_ops s /\ vs_codeSize s <= co_pos c.

Definition opAt (s : varCodeConstraintSolver) (asg : Assignment) (v : Var) (op : OpCode) : Prop :=
  exists p, isU64 p /\ asg !! v = Some (NewU256 p) /\ mkConstOp p op ∈ vs_ops s /\ used s p = isCode.

Definition usedAt (u : Used) (s : varCodeConstraintSolver) (asg : Assignment) (v : Var) : Prop :=
  exists p, 0 <= p < vs_codeSize s /\ asg !! v = Some (NewU256 p) /\ used s p = u.

Lemma impossible_extends s s' : extends s s' -> impossible s -> impossible s'.
Proof.
  intros (Hc & Ho & _) [H|(c & H & Hb)]; [left; by eapply conflict_mono|].
  right. exists c. rewrite Hc. auto.
Qed.

Lemma opAt_extends s s' asg asg' v op : extends s s' -> asg' !! v = asg !! v -> opAt s asg v op -> opAt s' asg' v op.
Proof.
  intros (Hc & Ho & Hu) Ha (p & Hp & Hv & Hin & Hcode). exists p. rewrite Ha. split; [done|]. split; [done|].
  split; [auto|]. rewrite Hu; rewrite Hcode; done.
Qed.

Lemma usedAt_extends u s s' asg asg' v : u <> isUnused -> extends s s' -> asg' !! v = asg !! v ->
  usedAt u s asg v -> usedAt u s' asg' v.
Proof.
  intros Hne (Hc & Ho & Hu) Ha (p & Hp & Hv & Hcode). exists p. rewrite Ha, Hc. split; [done|]. split; [done|].
  rewrite Hu; rewrite Hcode; done.
Qed.

Section SolveFacts.
Context {U : Uint256} {UL : Uint256Laws U} {R : Type} {RND : Rand R} {RL : RandLaws R RND}.
Implicit Types w : world R.

Definition sized (s : varCodeConstraintSolver) : Prop := 0 < vs_codeSize s < 2 ^ 31.

Lemma search_spec s ok (Q : Z -> world R -> Prop) (E : GenErr -> Prop) w : sized s ->
  (forall pos r, ok pos = true -> 0 <= pos < vs_codeSize s -> Q pos (mkWorld r (w_assignment w))) ->
  ((forall pos, 0 <= pos < vs_codeSize s -> ok pos = false) -> E ErrUnsatisfiable) ->
  gwp (search s ok) Q E w.
Proof.
  intros Hs HQ HE. unfold sized in Hs. unfold search. rewrite i32_id by lia. apply gwp_bind.
  eapply gwp_draws; [apply draws_Int31n; lia|]. intros start r Hr. cbn beta in Hr.
  destruct (search_loop_start (vs_codeSize s) start ok Hr) as (res & -> & Hres).
  destruct res as [pos|]; [apply gwp_ret, HQ; tauto|]. by apply gwp_fail, HE.
Qed.

Lemma solveVarOps_spec varOps s (Q : varCodeConstraintSolver -> world R -> Prop) (E : GenErr -> Prop) w :
  sized s -> marks_ok s ->
  (forall s' r asg, extends s s' -> marks_ok s' ->
    (forall cur, cur ∈ varOps -> opAt s' asg (vo_variable cur) (vo_op cur)) ->
    (forall v, v ∉ map vo_variable varOps -> asg !! v = w_assignment w !! v) -> Q s' (mkWorld r asg)) ->
  E ErrUnsatisfiable ->
  gwp (solveVarOps varOps s) Q E w.
Proof.
  intros Hs Hm HQ HE. unfold solveVarOps. apply gwp_bind. eapply gwp_mono.
  - apply (gwp_for solveVarOp (fun done b w' => extends s (fst b) /\ marks_ok (fst b)
      /\ (forall v op, snd b !! v = Some op -> opAt (fst b) (w_assignment w') v op)
      /\ (forall cur, cur ∈ done -> snd b !! vo_variable cur = Some (vo_op cur))
      /\ (forall v, v ∉ map vo_variable varOps -> w_assignment w' !! v = w_assignment w !! v))).
    + cbn [fst snd]. split; [apply extends_refl|]. split; [done|]. split; [intros v op; rewrite lookup_empty; done|].
      split; [intros c []%not_elem_of_nil|done].
    + intros done cur rest [s1 bound] w1 Hl (He & Hm1 & Hb & Hd & Hf). cbn [fst snd] in *. unfold solveVarOp.
      assert (vo_variable cur ∈ map vo_variable varOps) as Hcur.
      { apply elem_of_map. exists cur. split; [done|]. rewrite Hl. apply elem_of_app. right. left. }
      destruct (bound !! vo_variable cur) as [op|] eqn:Eb.
      * destruct (bool_decide_reflect (op = vo_op cur)) as [->|]; cbn [negb]; [|by apply gwp_fail].
        apply gwp_ret. cbn [fst snd]. repeat (split; [done|]). split; [|done].
        intros c [Hc| ->%list_elem_of_singleton]%elem_of_app; auto.
      * apply gwp_bind, search_spec; [|intros pos r Hok Hp|auto].
        { unfold sized. by rewrite (proj1 He). }
        apply fits_spec in Hok as [Hw Hfree]. destruct (place_spec s1 pos (vo_op cur) Hm1 Hfree) as (Hm2 & He2 & Hin & Hc & _).
        apply gwp_bind, gwp_assign, gwp_ret. cbn [fst snd w_assignment].
        split; [by eapply extends_trans|]. split; [done|]. split.
        { intros v op. destruct (decide (v = vo_variable cur)) as [->|Hne].
          - rewrite lookup_insert_eq. intros [= <-]. exists pos. rewrite lookup_insert_eq.
            assert (isU64 pos) by (destruct He as [He _]; unfold sized in Hs; zblia).
            rewrite u64_id by done. auto.
          - rewrite lookup_insert_ne by done. intros H. eapply opAt_extends; [done| |by apply Hb].
            by rewrite lookup_insert_ne by done. }
        split.
        { intros c [Hc'| ->%list_elem_of_singleton]%elem_of_app; [|by rewrite lookup_insert_eq].
          rewrite lookup_insert_ne; [auto|]. intros Heq. specialize (Hd c Hc'). rewrite <-Heq in Hd. congruence. }
        intros v Hv. rewrite lookup_insert_ne by (intros <-; done). auto.
  - intros [s' bound] [r asg] (He & Hm' & Hb & Hd & Hf). cbn [fst snd w_assignment] in *. apply gwp_ret, HQ; auto.
  - done.
Qed.

(** What is kept while variables are bound to code and data: the operations
    required of variables stay in place, unless no code can be built. *)
Definition kept (reqs : list varOpConstraint) (s : varCodeConstraintSolver) (asg : Assignment) : Prop :=
  forall cur, cur ∈ reqs -> opAt s asg (vo_variable cur) (vo_op cur) \/ impossible s.

Lemma kept_assign reqs s s' asg v x : kept reqs s asg -> extends s s' ->
  (forall op, opAt s asg v op -> impossible s) -> kept reqs s' (<[v := x]> asg).
Proof.
  intros Hk He Hv cur Hc. destruct (Hk cur Hc) as [Ho|Hi]; [|right; by eapply impossible_extends].
  destruct (decide (v = vo_variable cur)) as [Heq|Hne].
  - right. eapply impossible_extends; [done|]. eapply Hv. rewrite Heq. done.
  - left. eapply opAt_extends; [done| |done]. by rewrite lookup_insert_ne.
Qed.

Lemma Lt_codeSize s x : sized s -> U256_Lt x (NewU256 (u64 (vs_codeSize s))) = (uval x <? vs_codeSize s).
Proof.
  intros Hs. unfold sized in Hs. unfold U256_Lt. rewrite Lt_law, u64_id, NewU256_uval by zblia. done.
Qed.

Lemma Uint64_small s x : sized s -> uval x < vs_codeSize s -> i64 (U256_Uint64 x) = uval x /\ x = NewU256 (uval x).
Proof.
  intros Hs Hx. unfold sized in Hs. pose proof (uval_range x). unfold U256_Uint64. rewrite Uint64_law, Z.mod_small by lia.
  split; [apply i64_id; zblia|]. apply u256_eq. rewrite NewU256_uval; zblia.
Qed.

(** A variable that is not found to be code has no operation required of it
    that a code can have. *)
Lemma not_code_impossible s asg x v : sized s -> asg !! v = Some x ->
  (uval x < vs_codeSize s -> used s (i64 (U256_Uint64 x)) <> isCode) -> forall op, opAt s asg v op -> impossible s.
Proof.
  intros Hs Hx Hn op (p & Hp & Hv & Hin & Hc). rewrite Hx in Hv. injection Hv as ->.
  rewrite NewU256_uval in Hn by done. destruct (Z.lt_ge_cases p (vs_codeSize s)) as [Hlt|Hge].
  - specialize (Hn Hlt). destruct (Uint64_small s (NewU256 p) Hs) as [He _]; [by rewrite NewU256_uval|].
    rewrite He, NewU256_uval in Hn by done. done.
  - right. by exists (mkConstOp p op).
Qed.

Lemma NoPush_width op : op ∈ ValidOpCodesNoPush -> Width op = 1.
Proof.
  unfold ValidOpCodesNoPush. intros [H _]%list_elem_of_filter.
  destruct op; try reflexivity; exfalso; revert H; vm_compute; tauto.
Qed.

(** The state between the constraints of a kind. *)
Definition between (u : Used) (reqs : list varOpConstraint) (s0 : varCodeConstraintSolver) (asg0 : Assignment)
    (all : list Var) (done : list Var) (s : varCodeConstraintSolver) (w : world R) : Prop :=
  extends s0 s /\ marks_ok s /\ kept reqs s (w_assignment w)
  /\ (forall v, v ∈ done -> usedAt u s (w_assignment w) v)
  /\ (forall v, v ∉ all -> w_assignment w !! v = asg0 !! v).

Lemma between_assign u reqs s0 asg0 all done s s' w v pos rest r :
  between u reqs s0 asg0 all done s w -> extends s s' -> marks_ok s' -> all = done ++ v :: rest ->
  u <> isUnused -> 0 <= pos < vs_codeSize s' -> sized s' -> used s' pos = u ->
  (forall op, opAt s (w_assignment w) v op -> impossible s) ->
  between u reqs s0 asg0 all (done ++ [v]) s'
    (mkWorld r (<[v := NewU256 (u64 pos)]> (w_assignment w))).
Proof.
  intros (He & Hm & Hk & Hd & Hf) He' Hm' Hall Hu Hp Hs Hc Hv. unfold sized in Hs. unfold between. cbn [w_assignment].
  split; [by eapply extends_trans|]. split; [done|]. split; [by eapply kept_assign|]. split.
  - intros v' Hv'. destruct (decide (v = v')) as [<-|Hne].
    + exists pos. rewrite lookup_insert_eq, u64_id by zblia. auto.
    + apply elem_of_app in Hv' as [Hv'| ->%list_elem_of_singleton]; [|done].
      eapply usedAt_extends; [done|done| |by apply Hd]. by rewrite lookup_insert_ne.
  - intros v' Hv'. rewrite lookup_insert_ne; [auto|]. intros <-. apply Hv'. rewrite Hall. apply elem_of_app. right. left.
Qed.

Lemma between_start u reqs s0 (w0 : world R) all : marks_ok s0 -> kept reqs s0 (w_assignment w0) ->
  between u reqs s0 (w_assignment w0) all [] s0 w0.
Proof.
  intros. split; [apply extends_refl|]. repeat (split; [done|]). split; [intros v []%not_elem_of_nil|done].
Qed.

Lemma sized_extends s s' : sized s -> extends s s' -> sized s'.
Proof. intros H (He & _). unfold sized. by rewrite He. Qed.

Lemma solveIsCode_spec reqs s isCodes (E : GenErr -> Prop) w0 : sized s -> marks_ok s ->
  kept reqs s (w_assignment w0) -> E ErrUnsatisfiable ->
  gwp (solveIsCode isCodes s) (between isCode reqs s (w_assignment w0) isCodes isCodes) E w0.
Proof.
  intros Hs Hm Hk HE. apply (gwp_for solveIsCode1 (between isCode reqs s (w_assignment w0) isCodes)).
  { by apply between_start. }
  intros done v rest s1 w Hl HB. pose proof HB as (He & Hm1 & Hk1 & Hd & Hf).
  pose proof (sized_extends _ _ Hs He) as Hs1. unfold solveIsCode1, alreadyCode. apply gwp_bind, gwp_bind, gwp_lookup.
  assert (forall w', w_assignment w' = w_assignment w -> (forall op, opAt s1 (w_assignment w) v op -> impossible s1) ->
    gwp (pos ← search s1 (fun pos => negb (bool_decide (used s1 pos = isData)));
      s2 ← (if bool_decide (used s1 pos = isUnused) then
        n ← gen_Intn (zlen ValidOpCodesNoPush); op ← gen_lift (ValidOpCodesNoPush !! Z.to_nat n);
        mret (addOp pos op (markUsed pos op s1)) else mret s1);
      _ ← assign v pos; mret s2) (between isCode reqs s (w_assignment w0) isCodes (done ++ [v])) E w') as Hplace.
  { intros w' Hw' Himp. apply gwp_bind, search_spec; [done| |auto]. intros pos r Hok Hp. rewrite Hw'. b2p. apply bool_decide_eq_false in Hok.
    apply gwp_bind. case_bool_decide as Hun.
    - apply gwp_bind. eapply gwp_draws; [apply draws_Intn; by vm_compute|]. intros n r' Hn. cbn beta in Hn.
      destruct (lookup_lt_is_Some_2 ValidOpCodesNoPush (Z.to_nat n)) as [op Hop]; [unfold zlen in Hn; lia|].
      apply gwp_bind. eapply gwp_lift; [exact Hop|]. pose proof (NoPush_width op (list_elem_of_lookup_2 _ _ _ Hop)) as HW.
      destruct (place_spec s1 pos op Hm1) as (Hm2 & He2 & _ & Hc & _).
      { intros p Hp'. replace p with pos by lia. done. }
      apply gwp_ret, gwp_bind, gwp_assign, gwp_ret. cbn [w_assignment w_rnd].
      eapply between_assign; done.
    - apply gwp_ret, gwp_bind, gwp_assign, gwp_ret. cbn [w_assignment w_rnd].
      eapply between_assign; try done; by destruct (used s1 pos). }
  destruct (w_assignment w !! v) as [x|] eqn:Ex.
  - rewrite Lt_codeSize by done. destruct (Z.ltb_spec (uval x) (vs_codeSize s1)) as [Hx|Hx]; cbn [negb]; [|by apply gwp_fail].
    destruct (Uint64_small s1 x Hs1 Hx) as [Hi Hx']. apply gwp_ret. case_bool_decide as Hc.
    + apply gwp_ret. split; [done|]. split; [done|]. split; [done|]. split; [|done].
      intros v' [Hv'| ->%list_elem_of_singleton]%elem_of_app; [auto|]. exists (uval x). rewrite Hi in Hc.
      pose proof (uval_range x). split; [lia|]. split; [|done]. by rewrite Ex, <-Hx'.
    + apply Hplace; [done|]. by eapply not_code_impossible.
  - apply gwp_ret, Hplace; [done|]. intros op (p & _ & Hv & _). congruence.
Qed.

Lemma push_width n : 0 <= n < 32 -> byte_val (byte_of (byte_val PUSH1 + n)) = byte_val PUSH1 + n
  /\ Width (byte_of (byte_val PUSH1 + n)) = n + 2.
Proof.
  intros Hn. change (byte_val PUSH1) with 96.
  assert (byte_val (byte_of (96 + n)) = 96 + n) as Hb by (rewrite byte_val_of, Z.mod_small; lia).
  split; [done|]. unfold Width, op_in, op_le. rewrite Hb. change (byte_val PUSH1) with 96. change (byte_val PUSH32) with 127.
  rewrite (proj2 (Z.leb_le _ _)), (proj2 (Z.leb_le _ _)) by lia. cbn. lia.
Qed.

Lemma solveIsData_spec reqs s isDatas (E : GenErr -> Prop) w0 : sized s -> marks_ok s ->
  kept reqs s (w_assignment w0) -> E ErrUnsatisfiable ->
  gwp (solveIsData isDatas s) (fun s' w => between isData reqs s (w_assignment w0) isDatas isDatas s' w
    /\ forall v, usedAt isCode s (w_assignment w0) v -> usedAt isCode s' (w_assignment w) v) E w0.
Proof.
  intros Hs Hm Hk HE. apply (gwp_for solveIsData1 (fun done s' w => between isData reqs s (w_assignment w0) isDatas done s' w
    /\ forall v, usedAt isCode s (w_assignment w0) v -> usedAt isCode s' (w_assignment w) v)).
  { split; [by apply between_start|auto]. }
  intros done v rest s1 w Hl [HB Hcode]. pose proof HB as (He & Hm1 & Hk1 & Hd & Hf).
  pose proof (sized_extends _ _ Hs He) as Hs1. unfold solveIsData1. apply gwp_bind, gwp_lookup, gwp_bind, gwp_fail_if; [auto|].
  intros Hfree. assert (forall x, w_assignment w !! v = Some x -> uval x < vs_codeSize s1 ->
    used s1 (i64 (U256_Uint64 x)) <> isCode) as Hnc.
  { intros x Hx Hlt. rewrite Hx in Hfree. rewrite Lt_codeSize, (proj2 (Z.ltb_lt _ _)) in Hfree by done.
    by apply bool_decide_eq_false in Hfree. }
  assert (forall op, opAt s1 (w_assignment w) v op -> impossible s1) as Himp.
  { destruct (w_assignment w !! v) as [x|] eqn:Ex; [eapply not_code_impossible; eauto|].
    intros op (p & _ & Hv & _). congruence. }
  assert (~ usedAt isCode s1 (w_assignment w) v) as Hncode.
  { intros (p & Hp & Hv & Hc). unfold sized in Hs1. specialize (Hnc _ Hv). rewrite NewU256_uval in Hnc by zblia.
    destruct (Uint64_small s1 (NewU256 p) Hs1) as [Hi _]; [rewrite NewU256_uval; zblia|].
    rewrite Hi, NewU256_uval in Hnc by zblia. by apply Hnc; [lia|]. }
  assert (forall s' pos r, extends s1 s' -> marks_ok s' -> 0 <= pos < vs_codeSize s' -> used s' pos = isData ->
    between isData reqs s (w_assignment w0) isDatas (done ++ [v]) s' (mkWorld r (<[v:=NewU256 (u64 pos)]> (w_assignment w)))
    /\ (forall v', usedAt isCode s (w_assignment w0) v' ->
          usedAt isCode s' (<[v:=NewU256 (u64 pos)]> (w_assignment w)) v')) as Hfin.
  { intros s' pos r He' Hm' Hp Hu. split; [eapply between_assign; try done; by eapply sized_extends|].
    intros v' Hv'%Hcode. destruct (decide (v = v')) as [<-|Hne]; [done|].
    eapply usedAt_extends; [done|done| |done]. by rewrite lookup_insert_ne. }
  apply gwp_bind, search_spec; [done| |auto]. intros pos r Hok Hp. unfold dataFits in Hok. apply gwp_bind.
  destruct (bool_decide_reflect (used s1 pos = isUnused)) as [Hun|Hun]; cbn [andb] in Hok.
  - rewrite (bool_decide_eq_false_2 (used s1 pos = isData)) in Hok by congruence. cbn [orb] in Hok. b2p.
    destruct (largestFit_ok s1 pos) as (Hl1 & Hl2 & Hl3); [lia|].
    apply gwp_bind. eapply gwp_draws; [apply draws_Intn; lia|]. intros n r' Hn. cbn beta in Hn.
    destruct (push_width n) as [Hbv HW]; [lia|]. set (op := byte_of (byte_val PUSH1 + n)) in *.
    destruct (place_spec s1 pos op Hm1) as (Hm2 & He2 & _ & _ & Hdata).
    { intros p Hp'. apply Hl3. lia. }
    apply gwp_bind. eapply gwp_draws; [apply draws_Intn; rewrite Hbv; lia|]. intros k r2 Hk2. cbn beta in Hk2.
    rewrite Hbv in Hk2. apply gwp_ret, gwp_bind, gwp_assign, gwp_ret. cbn [w_assignment w_rnd].
    apply Hfin; [done|done| |apply Hdata; lia]. rewrite (proj1 He2). lia.
  - apply gwp_ret, gwp_bind, gwp_assign, gwp_ret. cbn [w_assignment w_rnd].
    apply Hfin; [apply extends_refl|done|done|]. rewrite orb_false_r in Hok. by apply bool_decide_eq_true in Hok.
Qed.

(** The three passes together. *)
Lemma solve_spec reqs varOps isCodes isDatas s (Q : list constOpConstraint -> world R -> Prop) (E : GenErr -> Prop) w :
  sized s -> marks_ok s -> kept reqs s (w_assignment w) ->
  (forall cur, cur ∈ reqs -> vo_variable cur ∉ map vo_variable varOps) ->
  (forall s' r asg, extends s s' -> marks_ok s' -> kept (reqs ++ varOps) s' asg ->
    (forall v, v ∈ isCodes -> usedAt isCode s' asg v) -> (forall v, v ∈ isDatas -> usedAt isData s' asg v) ->
    (forall v, v ∉ map vo_variable varOps -> v ∉ isCodes -> v ∉ isDatas -> asg !! v = w_assignment w !! v) ->
    Q (vs_ops s') (mkWorld r asg)) ->
  E ErrUnsatisfiable ->
  gwp (solve varOps isCodes isDatas s) Q E w.
Proof.
  intros Hs Hm Hk Hdisj HQ HE. unfold solve. apply gwp_bind, solveVarOps_spec; [done|done| |done].
  intros s1 r1 asg1 He1 Hm1 Hops Hf1. apply gwp_bind. eapply gwp_mono.
  - apply (solveIsCode_spec (reqs ++ varOps)); [by eapply sized_extends|done| |exact HE].
    intros cur [Hc|Hc]%elem_of_app; [|left; by apply Hops]. cbn [w_assignment].
    destruct (Hk cur Hc) as [Ho|Hi]; [|right; by eapply impossible_extends].
    left. eapply opAt_extends; [done| |done]. by apply Hf1, Hdisj.
  - cbn [w_assignment]. intros s2 w2 (He2 & Hm2 & Hk2 & Hd2 & Hf2). apply gwp_bind. eapply gwp_mono.
    + apply (solveIsData_spec (reqs ++ varOps)); [|done|done|exact HE].
      eapply sized_extends; [by eapply sized_extends|done].
    + intros s3 [r3 asg3] ((He3 & Hm3 & Hk3 & Hd3 & Hf3) & Hcode). cbn [w_assignment] in *. apply gwp_ret, HQ.
      * eapply extends_trans; [done|]. by eapply extends_trans.
      * done.
      * done.
      * intros v Hv. by apply Hcode, Hd2.
      * done.
      * intros v H1 H2 H3. by rewrite Hf3, Hf2, Hf1.
    + done.
  - done.
Qed.

End SolveFacts.

End varCodeConstraintSolver.

(** ** The generator *)

(** The order [sort.Slice] sorts the operations by. *)
Definition pos_le (a b : constOpConstraint) : Prop := co_pos a <= co_pos b.

#[global] Instance pos_le_dec : RelDecision pos_le.
Proof. intros a b. unfold pos_le. apply _. Defined.

Module CodeGenerator.

Definition New : CodeGenerator := mkCodeGenerator [] [] [] [] None.

Definition SetOperation (pos : Z) (op : OpCode) (g : CodeGenerator) : CodeGenerator :=
  mkCodeGenerator (cg_constOps g ++ [mkConstOp pos op]) (cg_varOps g) (cg_varIsCodeConstraints g)
    (cg_varIsDataConstraints g) (cg_codeSize g).

Definition AddOperation (v : Var) (op : OpCode) (g : CodeGenerator) : CodeGenerator :=
  mkCodeGenerator (cg_constOps g) (cg_varOps g ++ [mkVarOp v op]) (cg_varIsCodeConstraints g)
    (cg_varIsDataConstraints g) (cg_codeSize g).

Definition AddIsCode (v : Var) (g : CodeGenerator) : CodeGenerator :=
  mkCodeGenerator (cg_constOps g) (cg_varOps g) (cg_varIsCodeConstraints g ++ [v])
    (cg_varIsDataConstraints g) (cg_codeSize g).

Definition AddIsData (v : Var) (g : CodeGenerator) : CodeGenerator :=
  mkCodeGenerator (cg_constOps g) (cg_varOps g) (cg_varIsCodeConstraints g)
    (cg_varIsDataConstraints g ++ [v]) (cg_codeSize g).

Section Generate.
Context {U : Uint256} {R : Type} {RND : Rand R}.

(** The first loop: the operations at known positions and the others. *)
Definition resolve (b : list constOpConstraint * list varOpConstraint) (cur : varOpConstraint)
    : Gen R (list constOpConstraint * list varOpConstraint) :=
  let '(ops, varOps) := b in
  value ← gen_lookup (vo_variable cur);
  match value with
  | Some value =>
      if negb (U256_IsUint64 value) || (U256_Uint64 value >? st.MaxCodeSize) then gen_fail ErrUnsatisfiable
      else mret (ops ++ [mkConstOp (U256_Uint64 value) (vo_op cur)], varOps)
  | None => mret (ops, varOps ++ [cur])
  end.

Definition minSize (ops : list constOpConstraint) (varOps : list varOpConstraint) (isCodes isDatas : list Var) : Z :=
  let minSize := fold_left (fun minSize constraint =>
    if co_pos constraint >? minSize then co_pos constraint +i64 1 else minSize) ops 0 in
  let minSize := fold_left (fun minSize constraint =>
    let size := 1 in
    let size := if op_in PUSH1 PUSH32 (vo_op constraint)
                then size + (byte_val (vo_op constraint) - byte_val PUSH1 + 1) else size in
    minSize +i64 size) varOps minSize in
  let opCount : gset OpCode := list_to_set (map vo_op varOps) ∪ list_to_set (map co_op ops) in
  let minSize := Z.max minSize (Z.of_nat (size opCount)) in
  let minSize := if (minSize =? 0) && (zlen isCodes >? 0) then 1 else minSize in
  if (zlen isDatas >? 0) && (minSize <? 2) then 2 else minSize.

(** The loop that builds the code, [code] up to its position; the bytes of
    the slice beyond are written later. Every iteration advances, so [size]
    iterations suffice. *)
Fixpoint build (fuel : nat) (size : Z) (ops : list constOpConstraint) (code : list byte) : Gen R (list byte) :=
  match fuel with
  | O => match ops with [] => mret code | _ => gen_fail ErrUnsatisfiable end
  | S fuel =>
      let i := zlen code in
      if i <? size then
        match ops with
        | [] => gen_panic
        | first :: rest =>
            let nextFixedPosition := co_pos first in
            if nextFixedPosition <? i then gen_fail ErrUnsatisfiable
            else
              '(op, ops) ← (if i =? nextFixedPosition then mret (co_op first, rest)
                            else
                              let maxDataSize := nextFixedPosition - i - 1 in
                              let limit := if maxDataSize <? 32 then byte_of (byte_val PUSH1 + maxDataSize - 1)
                                           else PUSH32 in
                              n ← gen_Int;
                              let op := byte_of n in
                              let op := if (byte_val limit <? byte_val op) && op_le op PUSH32 then limit else op in
                              mret (op, ops));
              let code := code ++ [op] in
              match ops with
              | [] => data ← gen_Read (Z.to_nat (size - (i + 1))); mret (code ++ data)
              | _ =>
                  if op_in PUSH1 PUSH32 op then
                    let width := byte_val op - byte_val PUSH1 + 1 in
                    let end_ := Z.min (i + 1 + width) size in
                    data ← gen_Read (Z.to_nat (end_ - (i + 1)));
                    build fuel size ops (code ++ data)
                  else build fuel size ops code
              end
        end
      else match ops with [] => mret code | _ => gen_fail ErrUnsatisfiable end
  end.

Definition Generate (g : CodeGenerator) : Gen R st.Code :=
  '(ops, varOps) ← gen_for resolve (cg_varOps g) (cg_constOps g, []);
  let minSize := minSize ops varOps (cg_varIsCodeConstraints g) (cg_varIsDataConstraints g) in
  size ← match cg_codeSize g with
         | Some codeSize => if codeSize <? minSize then gen_fail ErrUnsatisfiable else mret codeSize
         | None => n ← gen_draw Rand_ExpOver200th; mret (Z.min (n +i64 minSize) st.MaxCodeSize)
         end;
  ops ← (if negb (zlen varOps + zlen (cg_varIsCodeConstraints g) + zlen (cg_varIsDataConstraints g) =? 0) then
           varCodeConstraintSolver.solve varOps (cg_varIsCodeConstraints g) (cg_varIsDataConstraints g)
             (varCodeConstraintSolver.New size ops)
         else mret ops);
  if size <? 0 then gen_panic
  else
    match ops with
    | [] => code ← gen_Read (Z.to_nat size); mret (st.NewCode code)
    | _ =>
        let ops := merge_sort pos_le ops in
        if match last ops with Some o => co_pos o >=? size | None => false end then gen_fail ErrUnsatisfiable
        else
          code ← build (Z.to_nat size) size ops [];
          mret (st.NewCode code)
    end.

End Generate.

(** [Clone] does not copy the size set by tests, [Restore] keeps it. *)
Definition Clone (g : CodeGenerator) : CodeGenerator :=
  mkCodeGenerator (cg_constOps g) (cg_varOps g) (cg_varIsCodeConstraints g) (cg_varIsDataConstraints g) None.

Definition Restore (g other : CodeGenerator) : CodeGenerator :=
  mkCodeGenerator (cg_constOps other) (cg_varOps other) (cg_varIsCodeConstraints other)
    (cg_varIsDataConstraints other) (cg_codeSize g).

(** ** What the constraints mean *)

(** An operation is at its position, as an instruction. *)
Definition placed (code : list byte) (c : constOpConstraint) : Prop :=
  0 <= co_pos c < zlen code /\ code !! Z.to_nat (co_pos c) = Some (co_op c) /\ instr_start code (co_pos c).

Record sat (g : CodeGenerator) (asg : Assignment) (c : st.Code) : Prop := {
  sat_const o : o ∈ cg_constOps g -> placed (st.code c) o;
  sat_var o : o ∈ cg_varOps g ->
    exists p, isU64 p /\ asg !! vo_variable o = Some (NewU256 p) /\ placed (st.code c) (mkConstOp p (vo_op o));
  sat_isCode v : v ∈ cg_varIsCodeConstraints g ->
    exists p, 0 <= p < zlen (st.code c) /\ asg !! v = Some (NewU256 p) /\ st.Code_IsCode c p = true;
  sat_isData v : v ∈ cg_varIsDataConstraints g ->
    exists p, 0 <= p < zlen (st.code c) /\ asg !! v = Some (NewU256 p) /\ st.Code_IsData c p = true
}.

(** Positions and numbers of constraints far below the range of [int]. *)
Record wf (g : CodeGenerator) : Prop := {
  wf_pos c : c ∈ cg_constOps g -> co_pos c < 2 ^ 60;
  wf_vars : zlen (cg_varOps g) < 2 ^ 50;
  wf_size n : cg_codeSize g = Some n -> n < 2 ^ 31
}.

Lemma placed_no_conflict code c1 c2 : placed code c1 -> placed code c2 ->
  co_pos c1 < co_pos c2 < co_pos c1 + Width (co_op c1) -> False.
Proof. intros (_ & Ho & Hs) (_ & _ & Hs2) Hc. exact (steps_to_gap code 0 _ _ _ Hs Ho Hc Hs2). Qed.

Lemma placed_isCode code c : placed code c -> st.Code_IsCode (st.NewCode code) (co_pos c) = true.
Proof. intros (Hp & _ & Hs). destruct (NewCode_isCode code) as (Hl & Hi & _). apply Hi; [lia|done]. Qed.

Lemma placed_isData code c p : placed code c -> co_pos c < p < co_pos c + Width (co_op c) ->
  st.Code_IsData (st.NewCode code) p = true.
Proof.
  intros (Hp & Ho & Hs) Hd. destruct (NewCode_isCode code) as (Hl & Hi & He). specialize (He _ _ Hs Ho).
  unfold st.Code_IsData. destruct (st.Code_IsCode _ p) eqn:E; [|done]. exfalso.
  apply Hi in E; [|lia]. exact (steps_to_gap code 0 _ _ _ Hs Ho Hd E).
Qed.

Lemma steps_to_snoc code i j op : steps_to code i j -> code !! Z.to_nat j = Some op -> steps_to code i (j + Width op).
Proof. induction 1 as [j|i op' j Ho Hs IH]; intros Hop; eapply steps_next; eauto. constructor. Qed.

(** Instructions end where the code built so far does. *)
Definition aligned (code : list byte) : Prop := forall ext, instr_start (code ++ ext) (zlen code).

Lemma aligned_snoc code op data : aligned code -> zlen data = Width op - 1 -> aligned (code ++ op :: data).
Proof.
  intros Ha Hd ext. replace (zlen (code ++ op :: data)) with (zlen code + Width op) by (rewrite zlen_app, zlen_cons; lia).
  apply steps_to_snoc; [rewrite <-app_assoc; apply Ha|].
  rewrite <-app_assoc. unfold zlen. rewrite Nat2Z.id, lookup_app_r, Nat.sub_diag by lia. done.
Qed.

(** The number of bytes a loop iteration writes. *)
Lemma Width_no_push op : op_in PUSH1 PUSH32 op = false -> Width op = 1.
Proof. unfold Width. by intros ->. Qed.

Lemma Width_of_push op : op_in PUSH1 PUSH32 op = true -> Width op = byte_val op - byte_val PUSH1 + 2.
Proof. unfold Width. by intros ->. Qed.

Section Facts.
Context {U : Uint256} {UL : Uint256Laws U} {R : Type} {RND : Rand R} {RL : RandLaws R RND}.
Implicit Types w : world R.

(** The code that is built has the size and all the operations. *)
Lemma build_spec fuel size ops code w : ops <> [] -> zlen code <= size -> size - zlen code <= Z.of_nat fuel ->
  aligned code \/ size <= zlen code ->
  gwp (build fuel size ops code) (fun c w' => w_assignment w' = w_assignment w /\ zlen c = size
    /\ (exists ext, c = code ++ ext) /\ forall o, o ∈ ops -> placed c o) (fun e => e = ErrUnsatisfiable) w.
Proof.
  revert ops code w. induction fuel as [|fuel IH]; intros ops code w Hops Hle Hf Ha; cbn [build].
  { destruct ops; [done|]. by apply gwp_fail. }
  destruct (Z.ltb_spec (zlen code) size) as [Hlt|Hge]; [|by destruct ops; [|apply gwp_fail]].
  destruct Ha as [Ha|]; [|lia]. destruct ops as [|first rest]; [done|]. clear Hops.
  destruct (Z.ltb_spec (co_pos first) (zlen code)) as [|Hpos]; [by apply gwp_fail|].
  apply gwp_bind.
  assert (forall op ops' r, (forall o, o ∈ first :: rest -> o ∈ ops' \/ o = mkConstOp (zlen code) op) ->
    gwp (match ops' with
      | [] => data ← gen_Read (Z.to_nat (size - (zlen code + 1))); mret ((code ++ [op]) ++ data)
      | _ => if op_in PUSH1 PUSH32 op then
          data ← gen_Read (Z.to_nat (Z.min (zlen code + 1 + (byte_val op - byte_val PUSH1 + 1)) size - (zlen code + 1)));
          build fuel size ops' ((code ++ [op]) ++ data)
        else build fuel size ops' (code ++ [op])
      end) (fun c w' => w_assignment w' = w_assignment w /\ zlen c = size
        /\ (exists ext, c = code ++ ext) /\ forall o, o ∈ first :: rest -> placed c o) (fun e => e = ErrUnsatisfiable)
      (mkWorld r (w_assignment w))) as Hnext.
  { intros op ops' r Hsplit.
    assert (forall c ext, c = (code ++ [op]) ++ ext -> zlen c = size -> placed c (mkConstOp (zlen code) op)) as Hplaced.
    { intros c ext -> Hc. split; [rewrite !zlen_app in *; cbn [co_pos]; pose proof (zlen_nonneg code); zblia|].
      rewrite <-app_assoc. split; [|apply Ha]. cbn [co_pos co_op]. unfold zlen.
      rewrite Nat2Z.id, lookup_app_r, Nat.sub_diag by lia. done. }
    assert (forall data r', zlen code + 1 + zlen data <= size -> ops' <> [] ->
      (zlen data = Width op - 1 \/ zlen code + 1 + zlen data = size) ->
      gwp (build fuel size ops' ((code ++ [op]) ++ data)) (fun c w' => w_assignment w' = w_assignment w /\ zlen c = size
        /\ (exists ext, c = code ++ ext) /\ forall o, o ∈ first :: rest -> placed c o) (fun e => e = ErrUnsatisfiable)
        (mkWorld r' (w_assignment w))) as Hrec.
    { intros data r' Hd Hne Hw. assert (zlen ((code ++ [op]) ++ data) = zlen code + 1 + zlen data) as Hz
        by (rewrite !zlen_app; change (zlen [op]) with 1; lia).
      pose proof (zlen_nonneg data). eapply gwp_mono; [apply IH; [done|lia|lia|]| |done].
      - destruct Hw as [Hw|Hw]; [left|right; lia]. rewrite <-app_assoc. by apply aligned_snoc.
      - cbn [w_assignment]. intros c w' (Hw' & Hc & (ext & ->) & Hall). split; [done|]. split; [done|]. split.
        + exists ([op] ++ data ++ ext). by rewrite <-!app_assoc.
        + intros o Ho. destruct (Hsplit o Ho) as [Hin| ->]; [auto|]. eapply Hplaced; [|done]. by rewrite <-!app_assoc. }
    destruct ops' as [|o ops'].
    - apply gwp_bind. eapply gwp_draws; [apply draws_Read|]. intros data r' Hd. cbn beta in Hd. apply gwp_ret.
      assert (zlen ((code ++ [op]) ++ data) = size) as Hz by (rewrite !zlen_app; unfold zlen; cbn [length]; unfold zlen in *; lia).
      split; [done|]. split; [done|]. split; [exists ([op] ++ data); by rewrite <-app_assoc|].
      intros o Ho. destruct (Hsplit o Ho) as [[]%not_elem_of_nil| ->]. by eapply Hplaced.
    - destruct (op_in PUSH1 PUSH32 op) eqn:Ep.
      + apply gwp_bind. eapply gwp_draws; [apply draws_Read|]. intros data r' Hd. cbn beta in Hd.
        pose proof (Width_of_push op Ep). pose proof (Width_range op). apply Hrec; [unfold zlen in *; lia|done|unfold zlen in *; lia].
      + pose proof (Hrec [] r) as H. rewrite app_nil_r in H. apply H; [change (zlen (@nil byte)) with 0; lia|done|].
        left. by rewrite (Width_no_push op Ep). }
  destruct (Z.eqb_spec (zlen code) (co_pos first)) as [He|Hne].
  - apply gwp_ret. destruct w as [r asg]. apply Hnext. intros o [->|Ho]%elem_of_cons; [|by left].
    right. rewrite He. by destruct first.
  - apply gwp_bind. eapply gwp_draws; [apply draws_Int|]. intros n r _. apply gwp_ret.
    cbv beta iota. lazymatch goal with |- context [build fuel size _ (code ++ [?op])] => apply (Hnext op (first :: rest) r) end.
    auto.
Qed.

(** The smallest size is positive when there are variables to place. *)
Lemma size_opCount (X : gset OpCode) : Z.of_nat (size X) <= 256.
Proof.
  assert (X ⊆ list_to_set allOpCodes) as H.
  { intros op _. apply elem_of_list_to_set, list_elem_of_In, allOpCodes_complete. }
  apply subseteq_size in H. transitivity (Z.of_nat (size (list_to_set allOpCodes : gset OpCode))); [lia|].
  by vm_compute.
Qed.

Lemma minSize_ops_bound ops m : 0 <= m <= 2 ^ 60 -> (forall c, c ∈ ops -> co_pos c < 2 ^ 60) ->
  0 <= fold_left (fun minSize constraint =>
    if co_pos constraint >? minSize then co_pos constraint +i64 1 else minSize) ops m <= 2 ^ 60.
Proof.
  revert m. induction ops as [|c ops IH]; intros m Hm Hc; cbn [fold_left]; [done|]. apply IH.
  - specialize (Hc c ltac:(left)). case_if; [|lia]. rewrite i64_id; zblia.
  - intros c' Hc'. apply Hc. by right.
Qed.

Lemma minSize_vars_bound (varOps : list varOpConstraint) m : 0 <= m -> m + 33 * zlen varOps < 2 ^ 62 ->
  m <= fold_left (fun minSize constraint =>
    let size := 1 in
    let size := if op_in PUSH1 PUSH32 (vo_op constraint)
                then size + (byte_val (vo_op constraint) - byte_val PUSH1 + 1) else size in
    minSize +i64 size) varOps m <= m + 33 * zlen varOps.
Proof.
  revert m. induction varOps as [|c l IH]; intros m Hm Hb; cbn [fold_left]; [change (zlen (@nil varOpConstraint)) with 0; lia|].
  rewrite zlen_cons in Hb |- *. pose proof (zlen_nonneg l). cbv zeta in *.
  set (n := if op_in PUSH1 PUSH32 (vo_op c) then _ else 1).
  assert (1 <= n <= 33) as Hn.
  { pose proof (Width_range (vo_op c)). unfold n, Width in *. destruct (op_in _ _ _); lia. }
  rewrite i64_id by zblia. specialize (IH (m + n)). lia.
Qed.

Lemma minSize_spec ops varOps isCodes isDatas : (forall c, c ∈ ops -> co_pos c < 2 ^ 60) -> zlen varOps < 2 ^ 50 ->
  0 <= minSize ops varOps isCodes isDatas < 2 ^ 61
  /\ (varOps <> [] \/ isCodes <> [] \/ isDatas <> [] -> 0 < minSize ops varOps isCodes isDatas).
Proof.
  intros Hc Hv. unfold minSize.
  pose proof (minSize_ops_bound ops 0 ltac:(lia) Hc) as H1.
  set (m1 := fold_left _ ops 0) in *. pose proof (minSize_vars_bound varOps m1 ltac:(lia) ltac:(lia)) as H2.
  cbv zeta in H2 |- *. set (m2 := fold_left _ varOps m1) in *.
  set (opCount := list_to_set (map vo_op varOps) ∪ list_to_set (map co_op ops) : gset OpCode).
  pose proof (size_opCount opCount) as H3. set (m3 := Z.max m2 (Z.of_nat (size opCount))).
  assert (varOps <> [] -> 0 < m3) as Hpos.
  { intros Hne. destruct varOps as [|o varOps]; [done|]. assert (size opCount <> 0)%nat; [|lia].
    intros He%size_empty_iff. assert (vo_op o ∈ opCount) as Hin; [|set_solver].
    apply elem_of_union_l, elem_of_list_to_set. left. }
  assert (0 <= m3 < 2 ^ 61) as H4 by lia.
  assert (forall l : list Var, l <> [] -> zlen l > 0) as Hl.
  { intros [|a l] ?; [done|]. rewrite zlen_cons. pose proof (zlen_nonneg l). lia. }
  pose proof (zlen_nonneg isCodes). pose proof (zlen_nonneg isDatas).
  destruct (Z.eqb_spec m3 0) as [E0|E0]; destruct (Z.gtb_spec (zlen isCodes) 0), (Z.gtb_spec (zlen isDatas) 0); cbn [andb];
    repeat match goal with |- context [?a <? ?b] => destruct (Z.ltb_spec a b) end;
    (split; [lia|]); intros [Hne|[Hne|Hne]]; try specialize (Hpos Hne); try specialize (Hl _ Hne); lia.
Qed.

(** The first loop: operations of assigned variables become operations at
    positions, the others stay. *)
Definition split_ops (g : CodeGenerator) (asg : Assignment) (all : list varOpConstraint)
    (b : list constOpConstraint * list varOpConstraint) : Prop :=
  (forall c, c ∈ cg_constOps g -> c ∈ fst b)
  /\ (forall c, c ∈ fst b -> c ∈ cg_constOps g \/ co_pos c <= st.MaxCodeSize)
  /\ (forall cur, cur ∈ snd b -> cur ∈ all /\ asg !! vo_variable cur = None)
  /\ zlen (snd b) <= zlen all
  /\ (forall cur, cur ∈ all -> cur ∈ snd b \/ exists p, isU64 p /\ asg !! vo_variable cur = Some (NewU256 p)
       /\ mkConstOp p (vo_op cur) ∈ fst b).

Lemma code_resolve_spec g (Q : _ -> world R -> Prop) (E : GenErr -> Prop) w :
  (forall b, split_ops g (w_assignment w) (cg_varOps g) b -> Q b w) -> E ErrUnsatisfiable ->
  gwp (gen_for resolve (cg_varOps g) (cg_constOps g, [])) Q E w.
Proof.
  intros HQ HE. eapply gwp_mono.
  - apply (gwp_for resolve (fun done b w' => w' = w /\ split_ops g (w_assignment w) done b)).
    + split; [done|]. unfold split_ops. cbn [fst snd]. split; [done|]. split; [by left|].
      split; [intros c []%not_elem_of_nil|]. split; [done|]. intros c []%not_elem_of_nil.
    + intros done cur rest [ops varOps] w' Hl [-> (H1 & H2 & H3 & H4 & H5)]. cbn [fst snd] in *. unfold resolve.
      apply gwp_bind, gwp_lookup. destruct (w_assignment w !! vo_variable cur) as [x|] eqn:Ex.
      * apply gwp_if; intros Eb; [by apply gwp_fail|]. apply gwp_ret. split; [done|]. unfold split_ops. cbn [fst snd].
        unfold U256_IsUint64, U256_Uint64 in *. b2p. pose proof (Uint64_exact x ltac:(done)) as Hx.
        assert (x = NewU256 (uval x) /\ isU64 (uval x)) as [Hx' Hu].
        { pose proof (Uint64_range x). rewrite Hx in *. split; [|done]. apply u256_eq. by rewrite NewU256_uval. }
        split; [intros c Hc; apply elem_of_app; left; auto|]. split.
        { intros c [Hc| ->%list_elem_of_singleton]%elem_of_app; [auto|]. right. cbn. lia. }
        split; [intros c Hc; destruct (H3 c Hc); split; [apply elem_of_app; by left|done]|].
        split; [rewrite zlen_app; pose proof (zlen_nonneg [cur]); lia|].
        intros c [Hc| ->%list_elem_of_singleton]%elem_of_app.
        -- destruct (H5 c Hc) as [?|(p & Hp & Hv & Hin)]; [by left|]. right. exists p.
           split; [done|]. split; [done|]. apply elem_of_app. by left.
        -- right. exists (uval x). rewrite Hx. split; [done|]. split; [congruence|]. apply elem_of_app. right. left.
      * apply gwp_ret. split; [done|]. unfold split_ops. cbn [fst snd]. split; [done|]. split; [done|]. split.
        { intros c [Hc| ->%list_elem_of_singleton]%elem_of_app.
          - destruct (H3 c Hc). split; [apply elem_of_app; by left|done].
          - split; [apply elem_of_app; right; left|done]. }
        split; [rewrite !zlen_app; lia|].
        intros c [Hc| ->%list_elem_of_singleton]%elem_of_app.
        -- destruct (H5 c Hc) as [?|?]; [left; apply elem_of_app; by left|by right].
        -- left. apply elem_of_app. right. left.
  - intros b w' [-> Hb]. by apply HQ.
  - done.
Qed.

(** The variables the code generator may assign. *)
Definition variables (g : CodeGenerator) : list Var :=
  map vo_variable (cg_varOps g) ++ cg_varIsCodeConstraints g ++ cg_varIsDataConstraints g.

(** An assignment grows by variables of the generator. Only the variables to
    be bound to code or data may change. *)
Definition grows (g : CodeGenerator) (asg asg' : Assignment) : Prop :=
  (forall v, v ∉ variables g -> asg' !! v = asg !! v)
  /\ forall v x, asg !! v = Some x -> v ∉ cg_varIsCodeConstraints g -> v ∉ cg_varIsDataConstraints g ->
       asg' !! v = Some x.

(** A code of the right size with all the operations satisfies the
    constraints. *)
Lemma solved_sat g asg asg' b size s code : split_ops g asg (cg_varOps g) b ->
  varCodeConstraintSolver.extends (varCodeConstraintSolver.New size (fst b)) s ->
  varCodeConstraintSolver.marks_ok s -> varCodeConstraintSolver.kept (cg_varOps g) s asg' ->
  (forall v, v ∈ cg_varIsCodeConstraints g -> varCodeConstraintSolver.usedAt isCode s asg' v) ->
  (forall v, v ∈ cg_varIsDataConstraints g -> varCodeConstraintSolver.usedAt isData s asg' v) ->
  zlen code = size -> (forall o, o ∈ vs_ops s -> placed code o) -> sat g asg' (st.NewCode code).
Proof.
  intros (H1 & _ & _ & _ & _) (Hsz & Hops & _) [Hmc Hmd] Hk Hc Hd Hlen Hall.
  destruct (varCodeConstraintSolver.New_spec size (fst b)) as (Hn1 & Hn2 & _). rewrite Hn1 in Hsz. rewrite Hn2 in Hops.
  assert (~ varCodeConstraintSolver.impossible s) as Hpos.
  { intros [(c1 & c2 & K1 & K2 & K3)|(c & K1 & K2)].
    - by apply (placed_no_conflict code c1 c2 (Hall _ K1) (Hall _ K2)).
    - destruct (Hall _ K1) as ([_ ?] & _). lia. }
  split; cbn [st.code st.NewCode].
  - intros o Ho. auto.
  - intros o Ho. destruct (Hk o Ho) as [(p & Hp & Hv & Hin & _)|]; [|done]. exists p. auto.
  - intros v Hv. destruct (Hc v Hv) as (p & Hp & Ha & Hu). exists p. rewrite Hlen, <-Hsz. split; [done|]. split; [done|].
    apply Hmc in Hu as (c & Hin & <-). by apply placed_isCode, Hall.
  - intros v Hv. destruct (Hd v Hv) as (p & Hp & Ha & Hu). exists p. rewrite Hlen, <-Hsz. split; [done|]. split; [done|].
    apply Hmd in Hu as (c & Hin & Hr). by apply (placed_isData code c (p) (Hall c Hin)).
Qed.

Lemma kept_New g asg b size : split_ops g asg (cg_varOps g) b ->
  varCodeConstraintSolver.kept (filter (fun cur => is_Some (asg !! vo_variable cur)) (cg_varOps g))
    (varCodeConstraintSolver.New size (fst b)) asg.
Proof.
  intros (_ & _ & H3 & _ & H5) cur [[x Hx] Hc]%list_elem_of_filter.
  destruct (H5 cur Hc) as [Hin|(p & Hp & Hv & Hin)]; [destruct (H3 cur Hin); congruence|].
  destruct (varCodeConstraintSolver.New_spec size (fst b)) as (Hn1 & Hn2 & _ & Hu).
  destruct (Hu _ Hin) as [Hcode|Hconf]; [left|right; left; by rewrite Hn2].
  exists p. rewrite Hn2. auto.
Qed.

(** The generated code satisfies the constraints, under an assignment that
    extends the given one. *)
Lemma code_Generate_spec g (Q : st.Code -> world R -> Prop) (E : GenErr -> Prop) w : wf g ->
  (forall code r asg, sat g asg (st.NewCode code) -> grows g (w_assignment w) asg ->
    (cg_codeSize g = None -> zlen code <= st.MaxCodeSize) -> Q (st.NewCode code) (mkWorld r asg)) ->
  E ErrUnsatisfiable ->
  gwp (Generate g) Q E w.
Proof.
  intros [] HQ HE. unfold Generate. apply gwp_bind, code_resolve_spec; [|done]. intros [ops varOps] Hsplit.
  pose proof Hsplit as (H1 & H2 & H3 & H4 & H5). cbn [fst snd] in *.
  destruct (minSize_spec ops varOps (cg_varIsCodeConstraints g) (cg_varIsDataConstraints g)) as [Hmin Hpos].
  { intros c Hc. destruct (H2 c Hc) as [?|?]; [auto|unfold st.MaxCodeSize in *; lia]. }
  { lia. }
  set (min := minSize _ _ _ _) in *. apply gwp_bind.
  assert (forall size r, min <= size < 2 ^ 31 \/ size = st.MaxCodeSize -> (cg_codeSize g = None -> size <= st.MaxCodeSize) ->
    gwp (ops ← (if negb (zlen varOps + zlen (cg_varIsCodeConstraints g) + zlen (cg_varIsDataConstraints g) =? 0) then
           varCodeConstraintSolver.solve varOps (cg_varIsCodeConstraints g) (cg_varIsDataConstraints g)
             (varCodeConstraintSolver.New size ops) else mret ops);
      if size <? 0 then gen_panic
      else match ops with
        | [] => code ← gen_Read (Z.to_nat size); mret (st.NewCode code)
        | _ => let ops := merge_sort pos_le ops in
            if match last ops with Some o => co_pos o >=? size | None => false end then gen_fail ErrUnsatisfiable
            else code ← build (Z.to_nat size) size ops []; mret (st.NewCode code)
        end) Q E (mkWorld r (w_assignment w))) as Hrest.
  { intros size r Hsize Hcap. assert (0 <= size < 2 ^ 31) as Hsz by (unfold st.MaxCodeSize in *; lia).
    set (reqs := filter (fun cur => is_Some (w_assignment w !! vo_variable cur)) (cg_varOps g)).
    destruct (varCodeConstraintSolver.New_spec size ops) as (Hn1 & Hn2 & Hn3 & _).
    pose proof (kept_New g (w_assignment w) (ops, varOps) size Hsplit) as Hkept. cbn [fst] in Hkept. fold reqs in Hkept.
    assert (forall cur, cur ∈ cg_varOps g -> cur ∈ reqs ++ varOps) as Hreqs.
    { intros cur Hc. apply elem_of_app. destruct (H5 cur Hc) as [?|(p & _ & Hv & _)]; [by right|].
      left. apply list_elem_of_filter. split; [by rewrite Hv|done]. }
    apply gwp_bind. eapply (gwp_mono _ (fun ops' w' => exists s', ops' = vs_ops s'
      /\ varCodeConstraintSolver.extends (varCodeConstraintSolver.New size ops) s' /\ varCodeConstraintSolver.marks_ok s'
      /\ varCodeConstraintSolver.kept (cg_varOps g) s' (w_assignment w')
      /\ (forall v, v ∈ cg_varIsCodeConstraints g -> varCodeConstraintSolver.usedAt isCode s' (w_assignment w') v)
      /\ (forall v, v ∈ cg_varIsDataConstraints g -> varCodeConstraintSolver.usedAt isData s' (w_assignment w') v)
      /\ grows g (w_assignment w) (w_assignment w')) _ E E); [| |done].
    - apply gwp_if; intros Eb.
      + apply (varCodeConstraintSolver.solve_spec reqs); [|done|done| | |done].
        * unfold varCodeConstraintSolver.sized. rewrite Hn1. assert (0 < min); [|unfold st.MaxCodeSize in *; lia].
          apply Hpos. destruct varOps; [|by left]. destruct (cg_varIsCodeConstraints g); [|right; by left].
          destruct (cg_varIsDataConstraints g); [done|right; by right].
        * intros cur [[x Hx] _]%list_elem_of_filter (c & Heq & [_ Hc]%H3)%elem_of_map. congruence.
        * intros s' r' asg He Hm Hk Hc Hd Hf. cbn [w_assignment] in *. exists s'. split; [done|]. split; [done|].
          split; [done|]. split; [intros cur Hcur; by apply Hk, Hreqs|]. split; [done|]. split; [done|]. split.
          -- intros v Hv. unfold variables in Hv. rewrite !not_elem_of_app in Hv. destruct Hv as (Hv1 & Hv2 & Hv3).
             apply Hf; [|done|done]. intros (c & -> & [Hc' _]%H3)%elem_of_map. apply Hv1, elem_of_map. eauto.
          -- intros v x Hx Hv1 Hv2. rewrite <-Hx. apply Hf; [|done|done]. intros (c & -> & [_ Hc']%H3)%elem_of_map. congruence.
      + apply gwp_ret. b2p. pose proof (zlen_nonneg varOps). pose proof (zlen_nonneg (cg_varIsCodeConstraints g)).
        pose proof (zlen_nonneg (cg_varIsDataConstraints g)).
        assert (forall A (l : list A), zlen l = 0 -> l = []) as Hnil by (intros A [|]; [done|rewrite zlen_cons; intros; pose proof (zlen_nonneg l); lia]).
        exists (varCodeConstraintSolver.New size ops). cbn [w_assignment]. split; [done|].
        split; [apply varCodeConstraintSolver.extends_refl|]. split; [done|]. split.
        { intros cur Hc. apply Hkept. specialize (Hreqs cur Hc). by rewrite (Hnil _ varOps), app_nil_r in Hreqs by lia. }
        rewrite (Hnil _ (cg_varIsCodeConstraints g)), (Hnil _ (cg_varIsDataConstraints g)) by lia.
        split; [intros v []%not_elem_of_nil|]. split; [intros v []%not_elem_of_nil|]. split; auto.
    - intros ops' [r' asg'] (s' & -> & He & Hm & Hk & Hc & Hd & Hg). cbn [w_assignment] in *.
      rewrite (proj2 (Z.ltb_ge _ _)) by lia.
      assert (forall code r2, zlen code = size -> (forall o, o ∈ vs_ops s' -> placed code o) ->
        Q (st.NewCode code) (mkWorld r2 asg')) as Hfin.
      { intros code r2 Hl Hall. apply HQ; [|done|intros ?; lia || (rewrite Hl; auto)].
        by apply (solved_sat g (w_assignment w) asg' (ops, varOps) size s'). }
      destruct (vs_ops s') as [|o l] eqn:El.
      + apply gwp_bind. eapply gwp_draws; [apply draws_Read|]. intros code r2 Hl. cbn beta in Hl. apply gwp_ret.
        cbn [w_assignment]. apply Hfin; [unfold zlen; lia|intros o []%not_elem_of_nil].
      + cbv zeta. apply gwp_if; intros _; [by apply gwp_fail|]. apply gwp_bind. eapply gwp_mono.
        * apply build_spec; [|change (zlen (@nil byte)) with 0; lia|change (zlen (@nil byte)) with 0; lia|left; intros ext; constructor].
          intros Hs. pose proof (merge_sort_Permutation pos_le (o :: l)) as Hp. rewrite Hs in Hp.
          by apply Permutation_nil_cons in Hp.
        * intros code [r2 asg2] (Hw & Hl & _ & Hall). cbn [w_assignment] in Hw. subst asg2. apply gwp_ret, Hfin; [done|].
          intros c Hc'. apply Hall. by rewrite (merge_sort_Permutation pos_le (o :: l)).
        * by intros e ->. }
  destruct (cg_codeSize g) as [n|] eqn:En.
  - apply gwp_if; intros Eb; b2p; [by apply gwp_fail|]. apply gwp_ret. destruct w as [r asg]. apply Hrest; [|done].
    left. specialize (wf_size0 n eq_refl). lia.
  - apply gwp_bind. eapply gwp_draws; [apply (draws_draw _ (fun n => 0 <= n < 2 ^ 62)); intros r; apply ExpOver200th_rnd|].
    intros n r Hn. cbn beta in Hn. apply gwp_ret. rewrite i64_id by zblia. apply Hrest; [|intros _; lia].
    unfold st.MaxCodeSize in *. lia.
Qed.

End Facts.

End CodeGenerator.
