(* ===== verification/CtGenStorage.v ===== *)
(** * Generators of storages and transient storages

    [go/ct/gen/storage.go] and [go/ct/gen/transient_storage.go]: storages in
    which a write has a given status, warm and cold keys, and transient
    storages with zero and other values. *)
From Stdlib Require Import ZArith Lia Strings.Byte.
From stdpp Require Import base list numbers gmap strings sorting.
From S2P Require Import Prelude Uint256 Types CtCommon CtState CtStateFacts CtRules CtRand.
Set Default Goal Selector "!".
Local Open Scope Z_scope.
Local Open Scope go_scope.

(** ** Storages *)

(** The constants, in the order of the source. *)
Definition StorageStatus_num (s : StorageStatus) : Z :=
  match s with
  | StorageAssigned => 0
  | StorageAdded => 1
  | StorageDeleted => 2
  | StorageModified => 3
  | StorageDeletedAdded => 4
  | StorageModifiedDeleted => 5
  | StorageDeletedRestored => 6
  | StorageAddedDeleted => 7
  | StorageModifiedRestored => 8
  end.

Record storageConfigConstraint := mkStorageConfig { sc_config : StorageStatus; sc_key : Var; sc_newValue : Var }.
Record warmColdConstraint := mkWarmCold { wc_key : Var; wc_warm : bool }.

#[global] Instance storageConfigConstraint_eqdec : EqDecision storageConfigConstraint.
Proof. solve_decision. Defined.

#[global] Instance warmColdConstraint_eqdec : EqDecision warmColdConstraint.
Proof. solve_decision. Defined.

Definition storageConfig_Less (a b : storageConfigConstraint) : bool :=
  if negb (bool_decide (sc_config a = sc_config b))
  then StorageStatus_num (sc_config a) <? StorageStatus_num (sc_config b)
  else if negb (bool_decide (sc_key a = sc_key b)) then String.ltb (sc_key a) (sc_key b)
  else String.ltb (sc_newValue a) (sc_newValue b).

Definition warmCold_Less (a b : warmColdConstraint) : bool :=
  if negb (bool_decide (wc_key a = wc_key b)) then String.ltb (wc_key a) (wc_key b)
  else negb (Bool.eqb (wc_warm a) (wc_warm b)) && wc_warm a.

Definition NewValueMustBeZero (config : StorageStatus) : bool :=
  bool_decide (config = StorageAddedDeleted) || bool_decide (config = StorageDeleted)
  || bool_decide (config = StorageModifiedDeleted).

Definition NewValueMustNotBeZero (config : StorageStatus) : bool :=
  bool_decide (config = StorageAssigned) || bool_decide (config = StorageAdded)
  || bool_decide (config = StorageDeletedRestored) || bool_decide (config = StorageDeletedAdded)
  || bool_decide (config = StorageModified) || bool_decide (config = StorageModifiedRestored).

Record StorageGenerator := mkStorageGenerator {
  stg_cfg : list storageConfigConstraint;
  stg_warmCold : list warmColdConstraint
}.

Section Keys.
Context {R : Type} {RND : Rand R}.

(** Keys in use; a key that is not yet in use is marked. *)
Definition getUnusedKey (keysInUse : gset U256) : Gen R (U256 * gset U256) :=
  key ← gen_until RandU256 (elements keysInUse);
  mret (key, {[ key ]} ∪ keysInUse).

Definition randValueButNot (exclusive : list U256) : Gen R U256 := gen_until RandU256 exclusive.

End Keys.

(** The builder of [go/ct/st/storage.go] has a storage as its only field. *)
Definition StorageBuilder_SetWarm (key : U256) (value : bool) (s : st.Storage) : st.Storage :=
  if value then st.Storage_MarkWarm s key else s.

Definition StorageBuilder_IsInOriginal (s : st.Storage) (key : U256) : bool :=
  bool_decide (is_Some (st.original s !! key)).

(** ** Facts *)

Section KeyFacts.
Context {R : Type} {RND : Rand R} {RL : RandLaws R RND}.

Lemma gwp_getUnusedKey (ks : gset U256) (Q : U256 * gset U256 -> world R -> Prop) E w : Z.of_nat (size ks) < 2 ^ 20 ->
  (forall k r, k ∉ ks -> Q (k, {[ k ]} ∪ ks) (mkWorld r (w_assignment w))) ->
  gwp (getUnusedKey ks) Q E w.
Proof.
  intros Hs HQ. unfold getUnusedKey. apply gwp_bind. eapply gwp_draws.
  - apply draws_until; [apply draws_RandU256|apply RandU256_escapes|]. exact Hs.
  - intros k r [_ Hk]. apply gwp_ret, HQ. by rewrite elem_of_elements in Hk.
Qed.

Lemma draws_randValueButNot l : zlen l < 2 ^ 20 -> draws (R := R) (randValueButNot l) (fun v => v ∉ l).
Proof.
  intros Hl. eapply draws_mono; [apply draws_until; [apply draws_RandU256|apply RandU256_escapes|done]|]. by intros a [_ ?].
Qed.

End KeyFacts.

Module StorageGenerator.

Definition New : StorageGenerator := mkStorageGenerator [] [].

Definition BindConfiguration (config : StorageStatus) (key newValue : Var) (g : StorageGenerator) : StorageGenerator :=
  mkStorageGenerator (add_once (mkStorageConfig config key newValue) (stg_cfg g)) (stg_warmCold g).

Definition BindWarm (key : Var) (g : StorageGenerator) : StorageGenerator :=
  mkStorageGenerator (stg_cfg g) (add_once (mkWarmCold key true) (stg_warmCold g)).

Definition BindCold (key : Var) (g : StorageGenerator) : StorageGenerator :=
  mkStorageGenerator (stg_cfg g) (add_once (mkWarmCold key false) (stg_warmCold g)).

Definition cfg_conflict (a b : storageConfigConstraint) : bool :=
  bool_decide (sc_key a = sc_key b)
  && (negb (bool_decide (sc_config a = sc_config b)) || negb (bool_decide (sc_newValue a = sc_newValue b))).

Definition warm_conflict (a b : warmColdConstraint) : bool :=
  bool_decide (wc_key a = wc_key b) && negb (Bool.eqb (wc_warm a) (wc_warm b)).

(** The keys of assigned variables. *)
Definition bound_keys (asg : Assignment) (vars : list Var) : gset U256 := list_to_set (omap (fun v => asg !! v) vars).

Section Generate.
Context {U : Uint256} {R : Type} {RND : Rand R}.

Definition getKey (keysInUse : gset U256) (v : Var) : Gen R (U256 * gset U256) :=
  key ← gen_lookup v;
  match key with
  | Some key => mret (key, keysInUse)
  | None =>
      '(key, keysInUse) ← getUnusedKey keysInUse;
      _ ← gen_assign v key;
      mret (key, keysInUse)
  end.

(** The new value of a configuration: the assigned one, if it is compatible,
    or a suitable one. *)
Definition getNewValue (con : storageConfigConstraint) : Gen R U256 :=
  newValue ← gen_lookup (sc_newValue con);
  match newValue with
  | Some newValue =>
      if (U256_IsZero newValue && NewValueMustNotBeZero (sc_config con))
         || (negb (U256_IsZero newValue) && NewValueMustBeZero (sc_config con))
      then gen_fail ErrUnsatisfiable else mret newValue
  | None =>
      newValue ← (if NewValueMustBeZero (sc_config con) then mret (NewU256 0)
                  else if NewValueMustNotBeZero (sc_config con) then randValueButNot [NewU256 0]
                  else n ← gen_Intn 5; if n =? 0 then mret (NewU256 0) else RandU256);
      _ ← gen_assign (sc_newValue con) newValue;
      mret newValue
  end.

(** The original and the current value. *)
Definition getValues (config : StorageStatus) (newValue : U256) : Gen R (U256 * U256) :=
  let zero := NewU256 0 in
  match config with
  | StorageAdded => mret (zero, zero)
  | StorageAddedDeleted => curValue ← randValueButNot [zero]; mret (zero, curValue)
  | StorageDeletedRestored => mret (newValue, zero)
  | StorageDeletedAdded => orgValue ← randValueButNot [zero; newValue]; mret (orgValue, zero)
  | StorageDeleted => orgValue ← randValueButNot [zero]; mret (orgValue, orgValue)
  | StorageModified => orgValue ← randValueButNot [zero; newValue]; mret (orgValue, orgValue)
  | StorageModifiedDeleted =>
      orgValue ← randValueButNot [zero]; curValue ← randValueButNot [zero; orgValue]; mret (orgValue, curValue)
  | StorageModifiedRestored =>
      let orgValue := newValue in
      curValue ← randValueButNot [zero; orgValue]; mret (orgValue, curValue)
  | StorageAssigned =>
      orgValue ← randValueButNot [zero; newValue];
      curValue ← randValueButNot [zero; orgValue; newValue]; mret (orgValue, curValue)
  end.

Definition processCfg (b : gset U256 * st.Storage) (con : storageConfigConstraint) : Gen R (gset U256 * st.Storage) :=
  let '(keysInUse, builder) := b in
  '(key, keysInUse) ← getKey keysInUse (sc_key con);
  newValue ← getNewValue con;
  '(orgValue, curValue) ← getValues (sc_config con) newValue;
  mret (keysInUse, st.Storage_SetCurrent (st.Storage_SetOriginal builder key orgValue) key curValue).

Definition processWarmCold (b : gset U256 * st.Storage) (con : warmColdConstraint) : Gen R (gset U256 * st.Storage) :=
  let '(keysInUse, builder) := b in
  '(key, keysInUse) ← getKey keysInUse (wc_key con);
  builder ← (if negb (StorageBuilder_IsInOriginal builder key) then
               org ← RandU256; cur ← RandU256;
               mret (st.Storage_SetCurrent (st.Storage_SetOriginal builder key org) key cur)
             else mret builder);
  mret (keysInUse, StorageBuilder_SetWarm key (wc_warm con) builder).

Definition randomEntry (b : gset U256 * st.Storage) (_ : nat) : Gen R (gset U256 * st.Storage) :=
  let '(keysInUse, builder) := b in
  '(key, keysInUse) ← getUnusedKey keysInUse;
  org ← RandU256; cur ← RandU256; warm ← gen_Intn 2;
  mret (keysInUse, StorageBuilder_SetWarm key (warm =? 1)
    (st.Storage_SetCurrent (st.Storage_SetOriginal builder key org) key cur)).

(** The slices of the generator are sorted in place; the order of constraints
    has no further meaning. *)
Definition Generate (g : StorageGenerator) : Gen R st.Storage :=
  let cfg := sort_by storageConfig_Less (stg_cfg g) in
  _ ← gen_fail_if (has_adjacent cfg_conflict cfg) ErrUnsatisfiable;
  let warmCold := sort_by warmCold_Less (stg_warmCold g) in
  _ ← gen_fail_if (has_adjacent warm_conflict warmCold) ErrUnsatisfiable;
  asg ← (fun w => gOk (w_assignment w) w);
  let keysInUse := bound_keys asg (map sc_key cfg ++ map wc_key warmCold) in
  b ← gen_for processCfg cfg (keysInUse, st.mkStorage ∅ ∅ ∅);
  b ← gen_for processWarmCold warmCold b;
  max ← gen_Intn 5;
  '(_, builder) ← gen_for randomEntry (seq 0 (Z.to_nat max)) b;
  mret builder.

End Generate.

Definition Clone (g : StorageGenerator) : StorageGenerator := mkStorageGenerator (stg_cfg g) (stg_warmCold g).
Definition Restore (g other : StorageGenerator) : StorageGenerator := mkStorageGenerator (stg_cfg other) (stg_warmCold other).

(** *** What the constraints mean *)

Record sat `{Uint256} (g : StorageGenerator) (asg : Assignment) (s : st.Storage) : Prop := {
  sat_cfg c : c ∈ stg_cfg g -> exists k v, asg !! sc_key c = Some k /\ asg !! sc_newValue c = Some v
    /\ CheckStorageStatusConfig (sc_config c) (st.Storage_GetOriginal s k) (st.Storage_GetCurrent s k) v = true;
  sat_warm c : c ∈ stg_warmCold g -> exists k, asg !! wc_key c = Some k /\ st.Storage_IsWarm s k = wc_warm c
}.

(** The variables that stand for keys. *)
Definition keyVars (g : StorageGenerator) : list Var := map sc_key (stg_cfg g) ++ map wc_key (stg_warmCold g).

(** Two variables are one, or have the same value. *)
Definition clash (asg : Assignment) (u v : Var) : Prop := u = v \/ exists x, asg !! u = Some x /\ asg !! v = Some x.

(** What the checks of the generator do not find out: configurations of one
    key differ, keys of different variables with different temperatures are
    the same, or the new value of one constraint is a key of another. *)
Record compatible (g : StorageGenerator) (asg : Assignment) : Prop := {
  compat_cfg a b : a ∈ stg_cfg g -> b ∈ stg_cfg g -> clash asg (sc_key a) (sc_key b) -> a = b;
  compat_warm a b x : a ∈ stg_warmCold g -> b ∈ stg_warmCold g ->
    asg !! wc_key a = Some x -> asg !! wc_key b = Some x -> wc_warm a = wc_warm b;
  compat_new a : a ∈ stg_cfg g -> sc_newValue a ∉ keyVars g
}.

Record wf (g : StorageGenerator) : Prop := {
  wf_cfg : zlen (stg_cfg g) < 2 ^ 16;
  wf_warm : zlen (stg_warmCold g) < 2 ^ 16
}.

Lemma warmCold_Less_le a b : warmCold_Less b a = false -> String.le (wc_key a) (wc_key b).
Proof.
  unfold warmCold_Less, String.le, String.ltb, String.leb. case_bool_decide as Hk; cbn [negb].
  - intros _. rewrite Hk. fold (String.leb (wc_key a) (wc_key a)). destruct (String.leb_total (wc_key a) (wc_key a)) as [->| ->]; done.
  - rewrite String.compare_antisym. by destruct (String.compare (wc_key a) (wc_key b)).
Qed.

Lemma warmCold_Less_asym a b : warmCold_Less a b = true -> warmCold_Less b a = false.
Proof.
  unfold warmCold_Less. destruct (bool_decide_reflect (wc_key a = wc_key b)) as [Hk|Hk]; cbn [negb].
  - rewrite bool_decide_eq_true_2 by done. cbn [negb]. by destruct (wc_warm a), (wc_warm b).
  - rewrite bool_decide_eq_false_2 by done. cbn [negb]. unfold String.ltb.
    rewrite (String.compare_antisym (wc_key b)). by destruct (String.compare (wc_key a) (wc_key b)).
Qed.

(** Constraints on one variable agree once the check is passed. *)
Lemma warm_checked l a b : has_adjacent warm_conflict (sort_by warmCold_Less l) = false ->
  a ∈ l -> b ∈ l -> wc_key a = wc_key b -> wc_warm a = wc_warm b.
Proof.
  intros Hn Ha Hb. rewrite <-elem_of_sort_by with (less := warmCold_Less) in Ha.
  rewrite <-elem_of_sort_by with (less := warmCold_Less) in Hb. revert Ha Hb.
  apply (no_adjacent wc_key wc_warm warm_conflict); [|intros x y Hk Hc|done].
  - apply sort_by_sorted; [intros x y z; apply transitivity|apply warmCold_Less_asym|apply warmCold_Less_le].
  - unfold warm_conflict in Hc. rewrite bool_decide_eq_true_2 in Hc by done. cbn in Hc. by destruct (wc_warm x), (wc_warm y).
Qed.

Section Facts.
Context {U : Uint256} {UL : Uint256Laws U} {R : Type} {RND : Rand R} {RL : RandLaws R RND}.

(** *** Values for a configuration *)

Lemma Bytes32_inj a b : U256_Bytes32be a = U256_Bytes32be b <-> a = b.
Proof.
  split; [|by intros ->]. intros H. apply u256_eq. unfold U256_Bytes32be in H. rewrite <-(Bytes32_law a), <-(Bytes32_law b). by rewrite H.
Qed.

Lemma storage_Bytes32_zero : U256_Bytes32be (NewU256 0) = zeroWord.
Proof. apply array_eq, be_val_inj; [by rewrite !array_length|]. unfold U256_Bytes32be. rewrite Bytes32_law. by vm_compute. Qed.

Lemma check_iff config org cur new : CheckStorageStatusConfig config org cur new = true <->
  storage_transition (U256_Bytes32be org) (U256_Bytes32be cur) (U256_Bytes32be new) config.
Proof. unfold CheckStorageStatusConfig. rewrite bool_decide_eq_true. rewrite <-GetStorageStatus_iff. by split. Qed.

(** The new values that admit a configuration. *)
Definition newValue_ok (config : StorageStatus) (v : U256) : Prop :=
  (NewValueMustNotBeZero config = true -> v <> NewU256 0) /\ (NewValueMustBeZero config = true -> v = NewU256 0).

Lemma draws_getValues config v : newValue_ok config v ->
  draws (R := R) (getValues config v) (fun '(org, cur) => CheckStorageStatusConfig config org cur v = true).
Proof.
  intros [Hn Hz]. unfold getValues.
  assert (forall org cur, storage_transition (U256_Bytes32be org) (U256_Bytes32be cur) (U256_Bytes32be v) config ->
    CheckStorageStatusConfig config org cur v = true) as Hc by (intros; by apply check_iff).
  destruct config;
    repeat match goal with
    | |- draws (mbind _ (randValueButNot _)) _ =>
        eapply draws_bind; [apply draws_randValueButNot; done|];
        let H := fresh "Hx" in intros ? H; cbn beta in H; rewrite ?not_elem_of_cons in H
    end; apply draws_ret, Hc;
    try (specialize (Hn eq_refl)); try (specialize (Hz eq_refl); rewrite Hz);
    rewrite ?storage_Bytes32_zero; constructor; rewrite <-?storage_Bytes32_zero, ?Bytes32_inj; intuition congruence.
Qed.

(** *** The state of the generation *)

(** All variables of the generator. *)
Definition variables (g : StorageGenerator) : list Var := keyVars g ++ map sc_newValue (stg_cfg g).

(** After the constraints [cfgDone] and [warmDone], with at most [n] keys in
    use: the assignment has grown, keys of variables are in use, and variables
    with the same key had it from the start. *)
Record inv (g : StorageGenerator) (asg0 : Assignment) (n : Z) (cfgDone : list storageConfigConstraint)
    (warmDone : list warmColdConstraint) (ks : gset U256) (s : st.Storage) (asg : Assignment) : Prop := {
  i_sub : asg0 ⊆ asg;
  i_frame v : v ∉ variables g -> asg !! v = asg0 !! v;
  i_size : Z.of_nat (size ks) <= n;
  i_keys v k : v ∈ keyVars g -> asg !! v = Some k -> k ∈ ks;
  i_new u v k : u ∈ keyVars g -> v ∈ keyVars g -> u <> v -> asg !! u = Some k -> asg !! v = Some k ->
    asg0 !! u = Some k /\ asg0 !! v = Some k;
  i_cfg c : c ∈ cfgDone -> exists k x, asg !! sc_key c = Some k /\ asg !! sc_newValue c = Some x
    /\ CheckStorageStatusConfig (sc_config c) (st.Storage_GetOriginal s k) (st.Storage_GetCurrent s k) x = true
    /\ is_Some (st.original s !! k);
  i_warm c : c ∈ warmDone -> exists k, asg !! wc_key c = Some k /\ st.Storage_IsWarm s k = wc_warm c
}.

(** A variable without a value gets one. *)
Lemma inv_assign g asg0 n m cfgDone warmDone ks ks' s asg v k :
  inv g asg0 n cfgDone warmDone ks s asg -> asg !! v = None -> v ∈ variables g ->
  Z.of_nat (size ks') <= m -> ks ⊆ ks' -> (v ∈ keyVars g -> k ∉ ks /\ k ∈ ks') ->
  inv g asg0 m cfgDone warmDone ks' s (<[v := k]> asg).
Proof.
  intros [] Hv Hin Hn Hs Hk.
  assert (forall u x, asg !! u = Some x -> <[v := k]> asg !! u = Some x) as Hmono.
  { intros u x Hu. rewrite lookup_insert_ne; [done|]. intros ->. congruence. }
  split.
  - etransitivity; [exact i_sub0|]. by apply insert_subseteq.
  - intros u Hu. rewrite lookup_insert_ne; [auto|]. by intros ->.
  - done.
  - intros u x Hu. destruct (decide (v = u)) as [->|Hne].
    + rewrite lookup_insert_eq. intros [= <-]. by apply Hk.
    + rewrite lookup_insert_ne by done. intros Hx. apply Hs. exact (i_keys0 _ _ Hu Hx).
  - intros u1 u2 x H1 H2 Hne. destruct (decide (v = u1)) as [<-|N1], (decide (v = u2)) as [<-|N2]; try done.
    + rewrite lookup_insert_eq, lookup_insert_ne by done. intros [= <-] Hx. exfalso.
      destruct (Hk H1) as [Hn' _]. exact (Hn' (i_keys0 _ _ H2 Hx)).
    + rewrite lookup_insert_eq, lookup_insert_ne by done. intros Hx [= <-]. exfalso.
      destruct (Hk H2) as [Hn' _]. exact (Hn' (i_keys0 _ _ H1 Hx)).
    + rewrite !lookup_insert_ne by done. by apply i_new0.
  - intros c Hc. destruct (i_cfg0 c Hc) as (k' & x & H1 & H2 & H3). exists k', x. auto.
  - intros c Hc. destruct (i_warm0 c Hc) as (k' & H1 & H2). exists k'. auto.
Qed.

Lemma gwp_getKey g asg0 n cfgDone warmDone ks s v (Q : U256 * gset U256 -> world R -> Prop) E w :
  inv g asg0 n cfgDone warmDone ks s (w_assignment w) -> v ∈ keyVars g -> n < 2 ^ 20 ->
  (forall k ks' r asg, inv g asg0 (n + 1) cfgDone warmDone ks' s asg -> w_assignment w ⊆ asg ->
    asg !! v = Some k -> Q (k, ks') (mkWorld r asg)) ->
  gwp (getKey ks v) Q E w.
Proof.
  intros Hinv Hv Hn HQ. unfold getKey. apply gwp_bind, gwp_lookup.
  destruct (w_assignment w !! v) as [k|] eqn:Ek.
  - apply gwp_ret. destruct w as [r asg]. apply HQ; [|done|done].
    destruct Hinv. split; auto. lia.
  - apply gwp_bind, gwp_getUnusedKey; [pose proof (i_size _ _ _ _ _ _ _ _ Hinv); lia|]. intros k r Hk.
    apply gwp_bind, gwp_assign, gwp_ret. cbn [w_assignment w_rnd]. apply HQ; [|by apply insert_subseteq|by rewrite lookup_insert_eq].
    eapply inv_assign; [done|done| | |set_solver|set_solver].
    + unfold variables. apply elem_of_app. by left.
    + pose proof (i_size _ _ _ _ _ _ _ _ Hinv). rewrite size_union, size_singleton by set_solver. lia.
Qed.

Lemma gwp_getNewValue g asg0 n cfgDone warmDone ks s con (Q : U256 -> world R -> Prop) (E : GenErr -> Prop) w :
  inv g asg0 n cfgDone warmDone ks s (w_assignment w) -> con ∈ stg_cfg g -> compatible g asg0 ->
  (forall x r asg, inv g asg0 n cfgDone warmDone ks s asg -> w_assignment w ⊆ asg -> asg !! sc_newValue con = Some x ->
    newValue_ok (sc_config con) x -> Q x (mkWorld r asg)) ->
  E ErrUnsatisfiable ->
  gwp (getNewValue con) Q E w.
Proof.
  intros Hinv Hc Hcomp HQ HE. unfold getNewValue. apply gwp_bind, gwp_lookup.
  assert (forall x r asg, inv g asg0 n cfgDone warmDone ks s asg -> w_assignment w ⊆ asg -> asg !! sc_newValue con = Some x ->
    (U256_IsZero x && NewValueMustNotBeZero (sc_config con)) || (negb (U256_IsZero x) && NewValueMustBeZero (sc_config con)) = false ->
    Q x (mkWorld r asg)) as HQ'.
  { intros x r asg H1 H2 H3 Hz. apply HQ; auto. rewrite U256_IsZero_spec in Hz. split; intros Hm; rewrite Hm in Hz.
    - intros ->. by rewrite bool_decide_eq_true_2 in Hz.
    - destruct (decide (x = NewU256 0)) as [|Hne]; [done|]. rewrite bool_decide_eq_false_2 in Hz by done.
      by rewrite orb_comm in Hz. }
  destruct (w_assignment w !! sc_newValue con) as [x|] eqn:Ex.
  - apply gwp_if; intros Eb; [by apply gwp_fail|]. apply gwp_ret. destruct w as [r asg]. by apply HQ'.
  - assert (forall x r, newValue_ok (sc_config con) x ->
      gwp (_ ← gen_assign (sc_newValue con) x; mret x) Q E (mkWorld r (w_assignment w))) as Hass.
    { intros x r Hx. apply gwp_bind, gwp_assign, gwp_ret. cbn [w_assignment w_rnd].
      apply HQ; [|by apply insert_subseteq|by rewrite lookup_insert_eq|done].
      eapply inv_assign; [done|done| |by eapply i_size|done|].
      - unfold variables. apply elem_of_app. right. apply elem_of_map. eauto.
      - intros Hk. by destruct (compat_new _ _ Hcomp _ Hc). }
    apply gwp_bind. destruct (NewValueMustBeZero (sc_config con)) eqn:Ez.
    + apply gwp_ret. destruct w as [r asg]. apply Hass. split; [|done]. by destruct (sc_config con).
    + destruct (NewValueMustNotBeZero (sc_config con)) eqn:En; [|by destruct (sc_config con)].
      eapply gwp_draws; [apply draws_randValueButNot; done|]. intros x r Hx. cbn beta in Hx. apply Hass.
      split; [|by rewrite Ez]. intros _ ->. apply Hx. left.
Qed.

(** Two constraints with the same key are the same. *)
Lemma cfg_same_key g asg0 n cfgDone warmDone ks s asg a b k : compatible g asg0 ->
  inv g asg0 n cfgDone warmDone ks s asg -> a ∈ stg_cfg g -> b ∈ stg_cfg g ->
  asg !! sc_key a = Some k -> asg !! sc_key b = Some k -> a = b.
Proof.
  intros [Hc _ _] [] Ha Hb Hka Hkb. apply Hc; [done|done|].
  destruct (decide (sc_key a = sc_key b)); [by left|right]. exists k.
  apply (i_new0 _ _ k); auto; unfold keyVars; apply elem_of_app; left; apply elem_of_map; eauto.
Qed.

Lemma warm_same_key g asg0 n cfgDone warmDone ks s asg a b k : compatible g asg0 ->
  has_adjacent warm_conflict (sort_by warmCold_Less (stg_warmCold g)) = false ->
  inv g asg0 n cfgDone warmDone ks s asg -> a ∈ stg_warmCold g -> b ∈ stg_warmCold g ->
  asg !! wc_key a = Some k -> asg !! wc_key b = Some k -> wc_warm a = wc_warm b.
Proof.
  intros [_ Hc _] Hadj [] Ha Hb Hka Hkb.
  destruct (decide (wc_key a = wc_key b)) as [He|He]; [by eapply warm_checked|].
  assert (asg0 !! wc_key a = Some k /\ asg0 !! wc_key b = Some k) as [H1 H2].
  { apply (i_new0 _ _ k); auto; unfold keyVars; apply elem_of_app; right; apply elem_of_map; eauto. }
  by eapply Hc.
Qed.

Lemma map_get_insert_ne (m : gmap U256 U256) k k' v : k <> k' -> st.map_get (<[k := v]> m) k' = st.map_get m k'.
Proof. intros. unfold st.map_get. by rewrite lookup_insert_ne. Qed.

Lemma map_get_insert (m : gmap U256 U256) k v : st.map_get (<[k := v]> m) k = v.
Proof. unfold st.map_get. by rewrite lookup_insert_eq. Qed.

Lemma processCfg_spec g asg0 n cfgDone ks s con (E : GenErr -> Prop) (w : world R) : compatible g asg0 ->
  inv g asg0 n cfgDone [] ks s (w_assignment w) -> (forall c, c ∈ cfgDone -> c ∈ stg_cfg g) -> con ∈ stg_cfg g ->
  n < 2 ^ 20 -> st.warm s = ∅ -> E ErrUnsatisfiable ->
  gwp (processCfg (ks, s) con) (fun b w' => inv g asg0 (n + 1) (cfgDone ++ [con]) [] (fst b) (snd b) (w_assignment w')
    /\ st.warm (snd b) = ∅) E w.
Proof.
  intros Hcomp Hinv Hdone Hcon Hn Hwarm HE. unfold processCfg. apply gwp_bind. eapply gwp_getKey; [done| |done|].
  { unfold keyVars. apply elem_of_app. left. apply elem_of_map. eauto. }
  intros k ks' r asg Hinv1 _ Hk. apply gwp_bind. eapply gwp_getNewValue; [done|done|done| |done].
  intros x r2 asg2 Hinv2 Hsub Hx Hok. apply gwp_bind. eapply gwp_draws; [by apply draws_getValues|].
  intros [org cur] r3 Hcheck. apply gwp_ret. cbn [fst snd w_assignment] in *. split; [|done].
  assert (asg2 !! sc_key con = Some k) as Hk2 by (by eapply lookup_weaken).
  assert (forall c kc, c ∈ cfgDone -> asg2 !! sc_key c = Some kc -> kc = k -> c = con) as Hsame.
  { intros c kc Hc Hkc ->. eapply cfg_same_key; [done|exact Hinv2|auto|done|done|done]. }
  pose proof Hinv2 as []. split; auto.
  - intros c [Hc| ->%list_elem_of_singleton]%elem_of_app.
    + destruct (i_cfg0 c Hc) as (kc & xc & H1 & H2 & H3 & H4). destruct (decide (k = kc)) as [<-|Hne].
      * rewrite (Hsame c k Hc H1 eq_refl) in *. exists k, x. split; [done|]. split; [done|].
        unfold st.Storage_GetOriginal, st.Storage_GetCurrent. cbn. rewrite !map_get_insert, lookup_insert_eq. by split.
      * exists kc, xc. split; [done|]. split; [done|]. unfold st.Storage_GetOriginal, st.Storage_GetCurrent in *. cbn.
        rewrite !map_get_insert_ne, lookup_insert_ne by done. by split.
    + exists k, x. split; [done|]. split; [done|].
      unfold st.Storage_GetOriginal, st.Storage_GetCurrent. cbn. rewrite !map_get_insert, lookup_insert_eq. by split.
Qed.

(** Every warm key comes from a constraint. *)
Definition warm_from (warmDone : list warmColdConstraint) (s : st.Storage) (asg : Assignment) : Prop :=
  forall k, st.Storage_IsWarm s k = true -> exists c, c ∈ warmDone /\ asg !! wc_key c = Some k /\ wc_warm c = true.

Lemma processWarmCold_spec g asg0 n warmDone ks s con (E : GenErr -> Prop) (w : world R) : compatible g asg0 ->
  has_adjacent warm_conflict (sort_by warmCold_Less (stg_warmCold g)) = false ->
  inv g asg0 n (stg_cfg g) warmDone ks s (w_assignment w) -> warm_from warmDone s (w_assignment w) ->
  (forall c, c ∈ warmDone -> c ∈ stg_warmCold g) -> con ∈ stg_warmCold g -> n < 2 ^ 20 ->
  gwp (processWarmCold (ks, s) con) (fun b w' =>
    inv g asg0 (n + 1) (stg_cfg g) (warmDone ++ [con]) (fst b) (snd b) (w_assignment w')
    /\ warm_from (warmDone ++ [con]) (snd b) (w_assignment w')) E w.
Proof.
  intros Hcomp Hadj Hinv Hfrom Hdone Hcon Hn. unfold processWarmCold. apply gwp_bind. eapply gwp_getKey; [done| |done|].
  { unfold keyVars. apply elem_of_app. right. apply elem_of_map. eauto. }
  intros k ks' r asg Hinv1 Hsub Hk.
  assert (forall s' r', st.warm s' = st.warm s ->
    (forall k' , is_Some (st.original s !! k') -> st.original s' !! k' = st.original s !! k' /\
      st.current s' !! k' = st.current s !! k') ->
    gwp (R := R) (mret (ks', StorageBuilder_SetWarm k (wc_warm con) s')) (fun b w' =>
      inv g asg0 (n + 1) (stg_cfg g) (warmDone ++ [con]) (fst b) (snd b) (w_assignment w')
      /\ warm_from (warmDone ++ [con]) (snd b) (w_assignment w')) E (mkWorld r' asg)) as Hset.
  { intros s' r' Hw Hs'. apply gwp_ret. cbn [fst snd w_assignment].
    assert (forall k', st.Storage_IsWarm (StorageBuilder_SetWarm k (wc_warm con) s') k' =
      if bool_decide (k' = k) then wc_warm con || st.Storage_IsWarm s k' else st.Storage_IsWarm s k') as HW.
    { intros k'. unfold StorageBuilder_SetWarm, st.Storage_IsWarm, st.Storage_MarkWarm. destruct (wc_warm con); cbn.
      - rewrite Hw. case_bool_decide as Heq; [by rewrite Heq, lookup_insert_eq|by rewrite lookup_insert_ne].
      - rewrite Hw. by case_bool_decide. }
    assert (forall k', st.original (StorageBuilder_SetWarm k (wc_warm con) s') !! k' = st.original s' !! k'
      /\ st.current (StorageBuilder_SetWarm k (wc_warm con) s') !! k' = st.current s' !! k') as HOC
      by (intros k'; unfold StorageBuilder_SetWarm; by destruct (wc_warm con)).
    assert (forall c, c ∈ warmDone -> asg !! wc_key c = Some k -> wc_warm c = wc_warm con) as Hsame.
    { intros c Hc Hkc. eapply warm_same_key; [done|done|exact Hinv1|auto|done|done|done]. }
    assert (st.Storage_IsWarm s k = true -> wc_warm con = true) as Hk'.
    { intros (c & Hc & Hkc & Ht)%Hfrom. rewrite <-(Hsame c Hc); [done|]. by eapply lookup_weaken. }
    split.
    - destruct Hinv1. split; auto.
      + intros c Hc. destruct (i_cfg0 c Hc) as (kc & xc & H1 & H2 & H3 & H4). exists kc, xc. split; [done|]. split; [done|].
        destruct (HOC kc) as [Ho Hu], (Hs' kc H4) as [Ho' Hu'].
        unfold st.Storage_GetOriginal, st.Storage_GetCurrent, st.map_get in *. rewrite Ho, Ho', Hu, Hu'. by split.
      + intros c [Hc| ->%list_elem_of_singleton]%elem_of_app.
        * destruct (i_warm0 c Hc) as (kc & H1 & H2). exists kc. split; [done|]. rewrite HW. case_bool_decide as Heq; [|done].
          subst kc. rewrite H2, (Hsame c Hc H1). by destruct (wc_warm con).
        * exists k. split; [done|]. rewrite HW, bool_decide_eq_true_2 by done.
          destruct (st.Storage_IsWarm s k); [by rewrite Hk'|by destruct (wc_warm con)].
    - intros k'. rewrite HW. case_bool_decide as Heq; [subst k'|].
      + intros Hor. exists con. split; [apply elem_of_app; right; left|]. split; [done|].
        apply orb_true_iff in Hor as [?|?]; auto.
      + intros (c & Hc & Hkc & Ht)%Hfrom. exists c. split; [apply elem_of_app; by left|]. split; [by eapply lookup_weaken|done]. }
  apply gwp_bind. unfold StorageBuilder_IsInOriginal. case_bool_decide as Hin; cbn [negb].
  - apply gwp_ret. by apply Hset.
  - apply gwp_bind. eapply gwp_draws; [apply draws_RandU256|]. intros o r1 _. apply gwp_bind.
    eapply gwp_draws; [apply draws_RandU256|]. intros c r2 _. apply gwp_ret. cbn [w_assignment].
    apply Hset; [done|]. intros k' Hk'. cbn. rewrite !lookup_insert_ne; [done|intros ->; done|intros ->; done].
Qed.

(** The result: keys in use, and the constraints hold. *)
Definition sat_in (g : StorageGenerator) (asg0 : Assignment) (b : gset U256 * st.Storage) (asg : Assignment) : Prop :=
  asg0 ⊆ asg /\ (forall v, v ∉ variables g -> asg !! v = asg0 !! v)
  /\ (forall v k, v ∈ keyVars g -> asg !! v = Some k -> k ∈ fst b) /\ sat g asg (snd b).

Lemma randomEntry_spec g asg0 i (E : GenErr -> Prop) b (w : world R) : sat_in g asg0 b (w_assignment w) ->
  Z.of_nat (size (fst b)) < 2 ^ 20 ->
  gwp (randomEntry b i) (fun b' w' => sat_in g asg0 b' (w_assignment w')
    /\ Z.of_nat (size (fst b')) <= Z.of_nat (size (fst b)) + 1) E w.
Proof.
  destruct b as [ks s]. cbn [fst]. intros (Hsub & Hf & Hk & [Hc Hw]) Hn. cbn [fst snd] in *. unfold randomEntry.
  apply gwp_bind, gwp_getUnusedKey; [done|]. intros k r Hnew.
  apply gwp_bind. eapply gwp_draws; [apply draws_RandU256|]. intros o r1 _. apply gwp_bind.
  eapply gwp_draws; [apply draws_RandU256|]. intros c r2 _. apply gwp_bind.
  eapply gwp_draws; [apply draws_Intn; lia|]. intros n r3 _. apply gwp_ret. unfold sat_in. cbn [fst snd w_assignment].
  split; [|rewrite size_union, size_singleton by set_solver; lia].
  split; [done|]. split; [done|]. split; [intros v k' Hv Hk'; apply elem_of_union_r; by eapply Hk|].
  assert (forall k', k' ∈ ks -> let s' := StorageBuilder_SetWarm k (n =? 1)
      (st.Storage_SetCurrent (st.Storage_SetOriginal s k o) k c) in
    st.Storage_GetOriginal s' k' = st.Storage_GetOriginal s k' /\ st.Storage_GetCurrent s' k' = st.Storage_GetCurrent s k'
    /\ st.Storage_IsWarm s' k' = st.Storage_IsWarm s k') as Hother.
  { intros k' Hk'. assert (k <> k') by (intros ->; done). unfold StorageBuilder_SetWarm, st.Storage_GetOriginal,
      st.Storage_GetCurrent, st.Storage_IsWarm. destruct (n =? 1); cbn; rewrite ?map_get_insert_ne, ?lookup_insert_ne by done; done. }
  split.
  - intros a Ha. destruct (Hc a Ha) as (k' & x & H1 & H2 & H3). exists k', x.
    destruct (Hother k') as (-> & -> & _); [|done]. eapply Hk; [|done].
    unfold keyVars. apply elem_of_app. left. apply elem_of_map. eauto.
  - intros a Ha. destruct (Hw a Ha) as (k' & H1 & H2). exists k'.
    destruct (Hother k') as (_ & _ & ->); [|done]. eapply Hk; [|done].
    unfold keyVars. apply elem_of_app. right. apply elem_of_map. eauto.
Qed.

Lemma size_bound_keys asg vars : Z.of_nat (size (bound_keys asg vars)) <= zlen vars.
Proof.
  unfold bound_keys, zlen. pose proof (size_list_to_set_le (omap (fun v => asg !! v) vars)).
  pose proof (length_omap_le (fun v => asg !! v) vars). lia.
Qed.

Lemma elem_of_bound_keys asg vars v k : v ∈ vars -> asg !! v = Some k -> k ∈ bound_keys asg vars.
Proof. intros Hv Hk. apply elem_of_list_to_set, list_elem_of_omap. eauto. Qed.

(** The generated storage satisfies compatible constraints. *)
Lemma storage_Generate_spec g (Q : st.Storage -> world R -> Prop) (E : GenErr -> Prop) w : wf g ->
  compatible g (w_assignment w) ->
  (forall s r asg, sat g asg s -> w_assignment w ⊆ asg ->
    (forall v, v ∉ variables g -> asg !! v = w_assignment w !! v) -> Q s (mkWorld r asg)) ->
  E ErrUnsatisfiable ->
  gwp (Generate g) Q E w.
Proof.
  intros [Hwf1 Hwf2] Hcomp HQ HE. unfold Generate. set (cfg := sort_by storageConfig_Less (stg_cfg g)).
  set (warmCold := sort_by warmCold_Less (stg_warmCold g)).
  apply gwp_bind, gwp_fail_if; [done|]. intros _. apply gwp_bind, gwp_fail_if; [done|]. intros Hadj. apply gwp_bind.
  unfold gwp at 1. cbv beta. set (ks0 := bound_keys _ _).
  assert (zlen cfg = zlen (stg_cfg g) /\ zlen warmCold = zlen (stg_warmCold g)) as [Hl1 Hl2]
    by (unfold zlen, cfg, warmCold; by rewrite !length_sort_by).
  assert (forall v, v ∈ keyVars g -> v ∈ map sc_key cfg ++ map wc_key warmCold) as Hvars.
  { intros v [(c & -> & Hc)%elem_of_map|(c & -> & Hc)%elem_of_map]%elem_of_app; apply elem_of_app; [left|right];
      apply elem_of_map; exists c; (split; [done|]); by apply elem_of_sort_by. }
  assert (inv g (w_assignment w) (2 ^ 17) [] [] ks0 (st.mkStorage ∅ ∅ ∅) (w_assignment w)) as Hinv0.
  { split; try done.
    - unfold ks0. etransitivity; [apply size_bound_keys|]. rewrite zlen_app. unfold zlen in *. rewrite !length_map. lia.
    - intros v k Hv Hk. by apply (elem_of_bound_keys _ _ v); [apply Hvars|].
    - intros c []%not_elem_of_nil.
    - intros c []%not_elem_of_nil. }
  apply gwp_bind. eapply gwp_mono.
  { apply (gwp_for processCfg (fun done b w' => inv g (w_assignment w) (2 ^ 17 + zlen done) done [] (fst b) (snd b) (w_assignment w')
      /\ st.warm (snd b) = ∅)); [done|].
    intros done con rest [ks s] w' Hl [Hi Hwarm]. cbn [fst snd] in *.
    assert (forall c, c ∈ cfg -> c ∈ stg_cfg g) as Hin by (intros c Hc; by apply elem_of_sort_by in Hc).
    assert (zlen done <= zlen cfg) by (rewrite Hl, zlen_app; pose proof (zlen_nonneg (con :: rest)); lia).
    eapply gwp_mono; [apply (processCfg_spec g (w_assignment w) (2 ^ 17 + zlen done) done); try done| |done].
    - intros c Hc. apply Hin. rewrite Hl. apply elem_of_app. by left.
    - apply Hin. rewrite Hl. apply elem_of_app. right. left.
    - lia.
    - intros b w2 Hb. rewrite zlen_app. change (zlen [con]) with 1. by rewrite Z.add_assoc. }
  2: done.
  intros [ks1 s1] w1 [Hinv1 Hwarm1]. cbn [fst snd] in *.
  assert (inv g (w_assignment w) (2 ^ 18) (stg_cfg g) [] ks1 s1 (w_assignment w1)) as Hinv1'.
  { destruct Hinv1. split; auto; [lia|]. intros c Hc. apply i_cfg0. by apply elem_of_sort_by. }
  apply gwp_bind. eapply gwp_mono.
  { apply (gwp_for processWarmCold (fun done b w' =>
      inv g (w_assignment w) (2 ^ 18 + zlen done) (stg_cfg g) done (fst b) (snd b) (w_assignment w')
      /\ warm_from done (snd b) (w_assignment w'))).
    { cbn [fst snd]. split; [done|]. intros k. unfold st.Storage_IsWarm. by rewrite Hwarm1, lookup_empty. }
    intros done con rest [ks s] w' Hl [Hi Hfrom]. cbn [fst snd] in *.
    assert (forall c, c ∈ warmCold -> c ∈ stg_warmCold g) as Hin by (intros c Hc; by apply elem_of_sort_by in Hc).
    assert (zlen done <= zlen warmCold) by (rewrite Hl, zlen_app; pose proof (zlen_nonneg (con :: rest)); lia).
    eapply gwp_mono; [apply (processWarmCold_spec g (w_assignment w) (2 ^ 18 + zlen done) done); try done| |done].
    - intros c Hc. apply Hin. rewrite Hl. apply elem_of_app. by left.
    - apply Hin. rewrite Hl. apply elem_of_app. right. left.
    - lia.
    - intros b w2 Hb. rewrite zlen_app. change (zlen [con]) with 1. by rewrite Z.add_assoc. }
  2: done.
  intros [ks2 s2] w2 [Hinv2 _]. cbn [fst snd] in *. apply gwp_bind.
  eapply gwp_draws; [apply draws_Intn; lia|]. intros max r Hmax. cbn beta in Hmax. apply gwp_bind. eapply gwp_mono.
  { apply (gwp_for randomEntry (fun done b w' => sat_in g (w_assignment w) b (w_assignment w')
      /\ Z.of_nat (size (fst b)) <= 2 ^ 19 + zlen done)).
    { destruct Hinv2. unfold sat_in. cbn [fst snd w_assignment]. split; [|unfold zlen; cbn [length]; lia].
      split; [done|]. split; [done|]. split; [done|]. split.
      - intros c Hc. destruct (i_cfg0 c Hc) as (k & x & H1 & H2 & H3 & _). eauto.
      - intros c Hc. apply i_warm0. by apply elem_of_sort_by. }
    intros done i rest b w' Hl [Hs Hn].
    assert (zlen done <= 5).
    { apply (f_equal zlen) in Hl. rewrite zlen_app in Hl. pose proof (zlen_nonneg (i :: rest)). unfold zlen in *.
      rewrite length_seq in Hl. lia. }
    eapply gwp_mono; [apply randomEntry_spec; [done|lia]| |done].
    intros b' w3 [Hs' Hn']. split; [done|]. rewrite zlen_app. change (zlen [i]) with 1. lia. }
  2: done.
  intros [ks3 s3] [r3 asg3] [(H1 & H2 & _ & H4) _]. cbn [fst snd w_assignment] in *. by apply gwp_ret, HQ.
Qed.

(** Whatever the constraints are, the generator ends with a storage or an
    error, and only assigns variables of the constraints. *)
Definition grown (g : StorageGenerator) (asg0 : Assignment) (n : Z) (ks : gset U256) (asg : Assignment) : Prop :=
  asg0 ⊆ asg /\ (forall v, v ∉ variables g -> asg !! v = asg0 !! v) /\ Z.of_nat (size ks) <= n.

Lemma grown_assign g asg0 n ks asg v k : grown g asg0 n ks asg -> asg !! v = None -> v ∈ variables g ->
  grown g asg0 n ks (<[v := k]> asg).
Proof.
  intros (Hs & Hf & Hn) Hv Hin. split; [|split; [|done]].
  - etransitivity; [done|]. by apply insert_subseteq.
  - intros u Hu. rewrite lookup_insert_ne; [auto|]. by intros ->.
Qed.

Lemma getKey_grown g asg0 n ks v (E : GenErr -> Prop) (w : world R) : grown g asg0 n ks (w_assignment w) -> v ∈ variables g -> n < 2 ^ 20 ->
  gwp (getKey ks v) (fun b w' => grown g asg0 (n + 1) (snd b) (w_assignment w')) E w.
Proof.
  intros Hg Hv Hn. pose proof Hg as (Hs & Hf & Hk). unfold getKey. apply gwp_bind, gwp_lookup.
  destruct (w_assignment w !! v) as [k|] eqn:Ek.
  - apply gwp_ret. split; [done|]. split; [done|]. cbn. lia.
  - apply gwp_bind, gwp_getUnusedKey; [lia|]. intros k r Hk'. apply gwp_bind, gwp_assign, gwp_ret. cbn [w_assignment w_rnd snd].
    apply grown_assign; [|done|done]. split; [done|]. split; [done|]. rewrite size_union, size_singleton by set_solver. lia.
Qed.

Lemma draws_getValues_any config v : draws (R := R) (getValues config v) (fun _ => True).
Proof.
  unfold getValues. destruct config;
    repeat match goal with
    | |- draws (mbind _ (randValueButNot _)) _ => eapply draws_bind; [apply draws_randValueButNot; done|intros ? _]
    end; by apply draws_ret.
Qed.

Lemma processCfg_grown g asg0 n ks s con (E : GenErr -> Prop) (w : world R) : grown g asg0 n ks (w_assignment w) -> con ∈ stg_cfg g -> n < 2 ^ 20 ->
  E ErrUnsatisfiable ->
  gwp (processCfg (ks, s) con) (fun b w' => grown g asg0 (n + 1) (fst b) (w_assignment w')) E w.
Proof.
  intros Hg Hc Hn HE. unfold processCfg. apply gwp_bind. eapply gwp_mono; [apply getKey_grown; [done| |done]| |done].
  { unfold variables, keyVars. rewrite !elem_of_app, !elem_of_map. eauto. }
  intros [k ks'] w1 Hg1. cbn [snd] in Hg1. apply gwp_bind. unfold getNewValue. apply gwp_bind, gwp_lookup.
  assert (forall x w2, grown g asg0 (n + 1) ks' (w_assignment w2) ->
    gwp ('(orgValue, curValue) ← getValues (sc_config con) x;
         mret (ks', st.Storage_SetCurrent (st.Storage_SetOriginal s k orgValue) k curValue))
      (fun b w' => grown g asg0 (n + 1) (fst b) (w_assignment w')) E w2) as Hend.
  { intros x w2 Hg2. apply gwp_bind. eapply gwp_draws; [apply draws_getValues_any|]. intros [o c] r _. by apply gwp_ret. }
  destruct (w_assignment w1 !! sc_newValue con) as [x|] eqn:Ex.
  - apply gwp_if; intros _; [by apply gwp_fail|]. by apply gwp_ret, Hend.
  - assert (forall x r, gwp (_ ← gen_assign (sc_newValue con) x; mret x) (fun x => gwp ('(orgValue, curValue) ← getValues (sc_config con) x;
         mret (ks', st.Storage_SetCurrent (st.Storage_SetOriginal s k orgValue) k curValue))
      (fun b w' => grown g asg0 (n + 1) (fst b) (w_assignment w')) E) E (mkWorld r (w_assignment w1))) as Hass.
    { intros x r. apply gwp_bind, gwp_assign, gwp_ret, Hend. cbn [w_assignment]. apply grown_assign; [done|done|].
      unfold variables. rewrite !elem_of_app, !elem_of_map. eauto. }
    apply gwp_bind. destruct (NewValueMustBeZero (sc_config con)); [destruct w1; apply gwp_ret, Hass|].
    destruct (NewValueMustNotBeZero (sc_config con)); [eapply gwp_draws; [apply draws_randValueButNot; done|]; intros x r _; apply Hass|].
    apply gwp_bind. eapply gwp_draws; [apply draws_Intn; lia|]. intros m r _. apply gwp_if; intros _; [apply gwp_ret, Hass|].
    eapply gwp_draws; [apply draws_RandU256|]. intros x r2 _. apply Hass.
Qed.

Lemma processWarmCold_grown g asg0 n ks s con (E : GenErr -> Prop) (w : world R) : grown g asg0 n ks (w_assignment w) -> con ∈ stg_warmCold g ->
  n < 2 ^ 20 ->
  gwp (processWarmCold (ks, s) con) (fun b w' => grown g asg0 (n + 1) (fst b) (w_assignment w')) E w.
Proof.
  intros Hg Hc Hn. unfold processWarmCold. apply gwp_bind. eapply gwp_mono; [apply getKey_grown; [done| |done]| |done].
  { unfold variables, keyVars. rewrite !elem_of_app, !elem_of_map. eauto. }
  intros [k ks'] w1 Hg1. cbn [snd] in Hg1. apply gwp_bind. apply gwp_if; intros _; [|by apply gwp_ret, gwp_ret].
  apply gwp_bind. eapply gwp_draws; [apply draws_RandU256|]. intros o r1 _. apply gwp_bind.
  eapply gwp_draws; [apply draws_RandU256|]. intros c r2 _. by apply gwp_ret, gwp_ret.
Qed.

Lemma randomEntry_grown g asg0 n i (E : GenErr -> Prop) b (w : world R) : grown g asg0 n (fst b) (w_assignment w) -> n < 2 ^ 20 ->
  gwp (randomEntry b i) (fun b' w' => grown g asg0 (n + 1) (fst b') (w_assignment w')) E w.
Proof.
  destruct b as [ks s]. intros (Hs & Hf & Hk) Hn. cbn [fst] in *. unfold randomEntry. apply gwp_bind, gwp_getUnusedKey; [lia|]. intros k r Hk'.
  apply gwp_bind. eapply gwp_draws; [apply draws_RandU256|]. intros o r1 _. apply gwp_bind.
  eapply gwp_draws; [apply draws_RandU256|]. intros c r2 _. apply gwp_bind.
  eapply gwp_draws; [apply draws_Intn; lia|]. intros m r3 _. apply gwp_ret. split; [done|]. split; [done|].
  cbn [fst]. rewrite size_union, size_singleton by set_solver. lia.
Qed.

(** A loop in which the number of keys grows by one at most. *)
Lemma grown_loop {A} g asg0 n (f : gset U256 * st.Storage -> A -> Gen R (gset U256 * st.Storage)) l b (E : GenErr -> Prop) (w : world R) :
  (forall x m b w, x ∈ l -> m < 2 ^ 20 -> grown g asg0 m (fst b) (w_assignment w) ->
     gwp (f b x) (fun b' w' => grown g asg0 (m + 1) (fst b') (w_assignment w')) E w) ->
  grown g asg0 n (fst b) (w_assignment w) -> n + zlen l < 2 ^ 20 ->
  gwp (gen_for f l b) (fun b' w' => grown g asg0 (n + zlen l) (fst b') (w_assignment w')) E w.
Proof.
  intros Hf H0 Hn. apply (gwp_for f (fun done b' w' => grown g asg0 (n + zlen done) (fst b') (w_assignment w'))).
  - change (zlen (@nil A)) with 0. by rewrite Z.add_0_r.
  - intros done x rest b' w' Hl Hg. rewrite zlen_app. change (zlen [x]) with 1. rewrite Z.add_assoc.
    apply Hf; [rewrite Hl; apply elem_of_app; right; left| |done].
    assert (zlen done < zlen l) by (rewrite Hl, zlen_app; unfold zlen; cbn [length]; lia). lia.
Qed.

Lemma storage_Generate_safe g (Q : st.Storage -> world R -> Prop) (E : GenErr -> Prop) w : wf g ->
  (forall s r asg, w_assignment w ⊆ asg -> (forall v, v ∉ variables g -> asg !! v = w_assignment w !! v) -> Q s (mkWorld r asg)) ->
  E ErrUnsatisfiable ->
  gwp (Generate g) Q E w.
Proof.
  intros [Hwf1 Hwf2] HQ HE. unfold Generate. set (cfg := sort_by storageConfig_Less (stg_cfg g)).
  set (warmCold := sort_by warmCold_Less (stg_warmCold g)).
  apply gwp_bind, gwp_fail_if; [done|]. intros _. apply gwp_bind, gwp_fail_if; [done|]. intros _. apply gwp_bind.
  unfold gwp at 1. cbv beta. set (ks0 := bound_keys _ _).
  assert (zlen cfg = zlen (stg_cfg g) /\ zlen warmCold = zlen (stg_warmCold g)) as [Hl1 Hl2]
    by (unfold zlen, cfg, warmCold; by rewrite !length_sort_by).
  assert (grown g (w_assignment w) (2 ^ 17) ks0 (w_assignment w)) as H0.
  { split; [done|]. split; [done|]. unfold ks0. etransitivity; [apply size_bound_keys|]. rewrite zlen_app. unfold zlen in *. rewrite !length_map. lia. }
  apply gwp_bind. eapply gwp_mono; [apply (grown_loop g (w_assignment w) (2 ^ 17) processCfg); [|exact H0|lia]| |done].
  { intros con m [ks s] w' Hin Hm Hg. apply processCfg_grown; try done. by apply elem_of_sort_by in Hin. }
  intros b1 w1 H1. cbn beta in H1. apply gwp_bind.
  eapply gwp_mono; [apply (grown_loop g (w_assignment w) (2 ^ 17 + zlen cfg) processWarmCold); [|exact H1|lia]| |done].
  { intros con m [ks s] w' Hin Hm Hg. apply processWarmCold_grown; try done. by apply elem_of_sort_by in Hin. }
  intros b2 w2 H2. cbn beta in H2. apply gwp_bind. eapply gwp_draws; [apply draws_Intn; lia|]. intros max r Hmax. cbn beta in Hmax. apply gwp_bind.
  eapply gwp_mono; [apply (grown_loop g (w_assignment w) (2 ^ 17 + zlen cfg + zlen warmCold) randomEntry); [|exact H2|]| |done].
  { intros i m b w' _ Hm Hg. by apply randomEntry_grown. }
  { unfold zlen in *. rewrite length_seq. lia. }
  intros [ks3 s3] [r3 asg3] (H3 & H4 & _). by apply gwp_ret, HQ.
Qed.

Lemma storage_sat_weaken g asg asg' s : asg ⊆ asg' -> sat g asg s -> sat g asg' s.
Proof.
  intros Hs [H1 H2]. split.
  - intros c Hc. destruct (H1 c Hc) as (k & v & Hk & Hv & H). exists k, v. repeat split; [by eapply lookup_weaken..|done].
  - intros c Hc. destruct (H2 c Hc) as (k & Hk & H). exists k. split; [by eapply lookup_weaken|done].
Qed.

Lemma storage_compatible_weaken g asg asg' : asg ⊆ asg' -> compatible g asg' -> compatible g asg.
Proof.
  intros Hs [H1 H2 H3]. split; [| |done].
  - intros a b Ha Hb Hc. apply H1; [done|done|]. destruct Hc as [?|(x & Hx & Hy)]; [by left|right].
    exists x. split; by eapply lookup_weaken.
  - intros a b x Ha Hb Hx Hy. eapply H2; eauto using lookup_weaken.
Qed.

End Facts.

End StorageGenerator.

(** ** Transient storages *)

(** [nonZeroConstraints] is a map. *)
Record TransientStorageGenerator := mkTransientStorageGenerator {
  tsg_nonZeroConstraints : gmap Var bool;
  tsg_unsatisfiable : bool
}.

Module TransientStorageGenerator.

Definition New : TransientStorageGenerator := mkTransientStorageGenerator ∅ false.

Definition BindToNonZero (key : Var) (t : TransientStorageGenerator) : TransientStorageGenerator :=
  match tsg_nonZeroConstraints t !! key with
  | Some value => if negb value then mkTransientStorageGenerator (tsg_nonZeroConstraints t) true else t
  | None => mkTransientStorageGenerator (<[key := true]> (tsg_nonZeroConstraints t)) (tsg_unsatisfiable t)
  end.

Definition BindToZero (key : Var) (t : TransientStorageGenerator) : TransientStorageGenerator :=
  match tsg_nonZeroConstraints t !! key with
  | Some value => if value : bool then mkTransientStorageGenerator (tsg_nonZeroConstraints t) true else t
  | None => mkTransientStorageGenerator (<[key := false]> (tsg_nonZeroConstraints t)) (tsg_unsatisfiable t)
  end.

Section Generate.
Context {U : Uint256} {R : Type} {RND : Rand R}.

(** [assignment[variable] == assignment[other]]: a missing value reads as zero. *)
Definition value_of (asg : Assignment) (v : Var) : U256 := default (NewU256 0) (asg !! v).

Definition checkOthers (variable : Var) (nonZero : bool) (t : TransientStorageGenerator) : Gen R unit :=
  bound ← gen_lookup variable;
  match bound with
  | None => mret tt
  | Some _ =>
      others ← gen_range (tsg_nonZeroConstraints t);
      gen_for (fun _ '(other, otherNonZero) w =>
        if bool_decide (value_of (w_assignment w) variable = value_of (w_assignment w) other)
           && negb (Bool.eqb nonZero otherNonZero) then gErr ErrUnsatisfiable (w_rnd w) else gOk tt w) others tt
  end.

Definition process (t : TransientStorageGenerator) (b : gset U256 * st.TransientStorage) (con : Var * bool)
    : Gen R (gset U256 * st.TransientStorage) :=
  let '(keysInUse, transientStorage) := b in
  let '(variable, nonZero) := con in
  _ ← checkOthers variable nonZero t;
  pos ← gen_lookup variable;
  '(key, keysInUse) ← (match pos with
                       | Some pos => mret (pos, {[ pos ]} ∪ keysInUse)
                       | None => getUnusedKey keysInUse
                       end);
  transientStorage ← (if nonZero then value ← RandU256; mret (st.TransientStorage_Set transientStorage key value)
                      else mret transientStorage);
  _ ← gen_assign variable key;
  mret (keysInUse, transientStorage).

(** [for i := 0; i < rnd.Intn(10); i++]: the bound is drawn anew before every
    iteration; it is below ten, so that ten iterations are never exceeded. *)
Fixpoint randomEntries (fuel : nat) (i : Z) (b : gset U256 * st.TransientStorage) : Gen R (gset U256 * st.TransientStorage) :=
  match fuel with
  | O => fun _ => gLoop
  | S fuel =>
      n ← gen_Intn 10;
      if i <? n then
        let '(keysInUse, transientStorage) := b in
        '(key, keysInUse) ← getUnusedKey keysInUse;
        value ← RandU256;
        randomEntries fuel (i + 1) (keysInUse, st.TransientStorage_Set transientStorage key value)
      else mret b
  end.

Definition Generate (t : TransientStorageGenerator) : Gen R st.TransientStorage :=
  if tsg_unsatisfiable t then gen_fail ErrUnsatisfiable
  else
    variables ← gen_range (tsg_nonZeroConstraints t);
    asg ← (fun w => gOk (w_assignment w) w);
    let keysInUse := StorageGenerator.bound_keys asg (map fst variables) in
    constraints ← gen_range (tsg_nonZeroConstraints t);
    b ← gen_for (process t) constraints (keysInUse, st.mkTransientStorage ∅);
    '(_, transientStorage) ← randomEntries 10 0 b;
    mret transientStorage.

End Generate.

Definition Clone (t : TransientStorageGenerator) : TransientStorageGenerator :=
  mkTransientStorageGenerator (tsg_nonZeroConstraints t) (tsg_unsatisfiable t).
Definition Restore (t other : TransientStorageGenerator) : TransientStorageGenerator :=
  mkTransientStorageGenerator (tsg_nonZeroConstraints other) (tsg_unsatisfiable other).

(** *** What the constraints mean *)

Record sat (t : TransientStorageGenerator) (asg : Assignment) (s : st.TransientStorage) : Prop := {
  sat_ok : tsg_unsatisfiable t = false;
  sat_zero v : tsg_nonZeroConstraints t !! v = Some false ->
    exists k, asg !! v = Some k /\ st.TransientStorage_Get s k = NewU256 0;
  sat_nonZero v : tsg_nonZeroConstraints t !! v = Some true ->
    exists k, asg !! v = Some k /\ uval (st.TransientStorage_Get s k) <> 0
}.

(** What is generated: the value of a key that must not be zero is one that
    [RandU256] draws, of which [P] is known. *)
Record generated (t : TransientStorageGenerator) (P : U256 -> Prop) (asg : Assignment) (s : st.TransientStorage) : Prop := {
  gd_ok : tsg_unsatisfiable t = false;
  gd_zero v : tsg_nonZeroConstraints t !! v = Some false ->
    exists k, asg !! v = Some k /\ st.TransientStorage_Get s k = NewU256 0;
  gd_drawn v : tsg_nonZeroConstraints t !! v = Some true ->
    exists k, asg !! v = Some k /\ P (st.TransientStorage_Get s k)
}.

Record inv (t : TransientStorageGenerator) (P : U256 -> Prop) (asg0 : Assignment) (n : Z) (processed : list (Var * bool))
    (ks : gset U256) (s : st.TransientStorage) (asg : Assignment) : Prop := {
  i_sub : asg0 ⊆ asg;
  i_frame v : tsg_nonZeroConstraints t !! v = None -> asg !! v = asg0 !! v;
  i_size : Z.of_nat (size ks) <= n;
  i_keys v k : is_Some (tsg_nonZeroConstraints t !! v) -> asg !! v = Some k -> k ∈ ks;
  i_from k : is_Some (st.ts_storage s !! k) -> exists v, (v, true) ∈ processed /\ asg !! v = Some k;
  i_bound v b : (v, b) ∈ processed -> is_Some (asg !! v);
  i_apart u v k : (u, true) ∈ processed -> (v, false) ∈ processed -> asg !! u = Some k -> asg !! v <> Some k;
  i_drawn v k : (v, true) ∈ processed -> asg !! v = Some k -> P (st.TransientStorage_Get s k)
}.

Section Facts.
Context {U : Uint256} {UL : Uint256Laws U} {R : Type} {RND : Rand R} {RL : RandLaws R RND}.
Implicit Types t : TransientStorageGenerator.

Lemma Set_lookup s k x k' : st.ts_storage (st.TransientStorage_Set s k x) !! k' =
  if bool_decide (k' = k) then (if bool_decide (x = NewU256 0) then None else Some x) else st.ts_storage s !! k'.
Proof.
  unfold st.TransientStorage_Set. rewrite U256_IsZero_spec.
  destruct (bool_decide_reflect (k' = k)) as [->|Hk], (bool_decide_reflect (x = NewU256 0)); cbn.
  - by rewrite lookup_delete_eq.
  - by rewrite lookup_insert_eq.
  - by rewrite lookup_delete_ne.
  - by rewrite lookup_insert_ne.
Qed.

Lemma Get_Set s k x k' : st.TransientStorage_Get (st.TransientStorage_Set s k x) k' =
  if bool_decide (k' = k) then x else st.TransientStorage_Get s k'.
Proof.
  unfold st.TransientStorage_Get, st.map_get. rewrite Set_lookup.
  destruct (bool_decide_reflect (k' = k)), (bool_decide_reflect (x = NewU256 0)); by subst.
Qed.

(** A bound variable that passes the check agrees with those of its key. *)
Lemma gwp_checkOthers v b t (Q : unit -> world R -> Prop) (E : GenErr -> Prop) w : E ErrUnsatisfiable ->
  (forall r, (forall k o ob, w_assignment w !! v = Some k -> w_assignment w !! o = Some k ->
     tsg_nonZeroConstraints t !! o = Some ob -> b = ob) -> Q tt (mkWorld r (w_assignment w))) ->
  gwp (checkOthers v b t) Q E w.
Proof.
  intros HE HQ. unfold checkOthers. apply gwp_bind, gwp_lookup. destruct (w_assignment w !! v) as [k|] eqn:Ek.
  2: { apply gwp_ret. destruct w as [r asg]. apply HQ. congruence. }
  apply gwp_bind. eapply gwp_draws; [apply draws_range|]. intros others r Hp. cbn beta in Hp. eapply gwp_mono.
  - apply (gwp_for _ (fun done _ w' => w' = mkWorld r (w_assignment w) /\
      forall o ob, (o, ob) ∈ done -> w_assignment w !! o = Some k -> b = ob)).
    + split; [done|]. intros o ob []%not_elem_of_nil.
    + intros done [o ob] rest [] w' _ [-> Hdone]. unfold gwp, value_of. cbn [w_assignment]. rewrite Ek. cbn [default from_option id].
      destruct (bool_decide_reflect (k = default (NewU256 0) (w_assignment w !! o))) as [Ho|Ho], (Bool.eqb b ob) eqn:Eb; cbn [andb negb]; try done;
        (split; [done|]); intros o' ob' [Hin|[= -> ->]%list_elem_of_singleton]%elem_of_app Ho'; try (by eapply Hdone).
      * by apply Bool.eqb_prop.
      * by apply Bool.eqb_prop.
      * rewrite Ho' in Ho. by destruct Ho.
  - intros [] w' [-> Hall]. apply HQ. intros k' o ob [= <-] Ho Hob. apply (Hall o); [|done].
    rewrite Hp. by apply elem_of_map_to_list.
  - done.
Qed.

(** The key of a variable: its own, or a new one. *)
Lemma process_spec t P asg0 n processed ks s v b (E : GenErr -> Prop) (w : world R) :
  draws (R := R) RandU256 P -> inv t P asg0 n processed ks s (w_assignment w) ->
  (forall u c, (u, c) ∈ processed -> tsg_nonZeroConstraints t !! u = Some c) -> tsg_nonZeroConstraints t !! v = Some b ->
  n < 2 ^ 20 -> E ErrUnsatisfiable ->
  gwp (process t (ks, s) (v, b)) (fun c w' => inv t P asg0 (n + 1) (processed ++ [(v, b)]) (fst c) (snd c) (w_assignment w')) E w.
Proof.
  intros HP Hinv Hin Hv Hn HE. unfold process. apply gwp_bind, gwp_checkOthers; [done|]. intros r Hcheck.
  apply gwp_bind, gwp_lookup. cbn [w_assignment].
  assert (forall k ks' r', Z.of_nat (size ks') <= n + 1 -> ks ⊆ ks' -> k ∈ ks' ->
    <[v := k]> (w_assignment w) !! v = Some k -> w_assignment w ⊆ <[v := k]> (w_assignment w) ->
    (forall o ob, o <> v -> w_assignment w !! o = Some k -> tsg_nonZeroConstraints t !! o = Some ob -> ob = b) ->
    gwp (transientStorage ← (if b then value ← RandU256; mret (st.TransientStorage_Set s k value) else mret s);
         _ ← gen_assign v k; mret (ks', transientStorage))
      (fun c w' => inv t P asg0 (n + 1) (processed ++ [(v, b)]) (fst c) (snd c) (w_assignment w')) E
      (mkWorld r' (w_assignment w))) as Hset.
  { intros k ks' r' Hsz Hsub Hk Hvk Hgrow Hagree. destruct Hinv.
    assert (forall u x, <[v := k]> (w_assignment w) !! u = Some x -> u = v /\ x = k \/ u <> v /\ w_assignment w !! u = Some x) as Hlook.
    { intros u x. destruct (decide (v = u)) as [<-|Hne]; [rewrite lookup_insert_eq; intros [= ->]; auto|].
      rewrite lookup_insert_ne by done. auto. }
    assert (forall s', (forall k', is_Some (st.ts_storage s' !! k') -> is_Some (st.ts_storage s !! k') \/ b = true /\ k' = k) ->
      (b = true -> P (st.TransientStorage_Get s' k)) ->
      (forall k', st.TransientStorage_Get s' k' = st.TransientStorage_Get s k' \/ P (st.TransientStorage_Get s' k')) ->
      inv t P asg0 (n + 1) (processed ++ [(v, b)]) ks' s' (<[v := k]> (w_assignment w))) as Hend.
    { intros s' Hfrom Hnew Hold. split.
      - by etransitivity.
      - intros u Hu. rewrite lookup_insert_ne; [auto|]. intros ->. congruence.
      - done.
      - intros u x Hu [[-> ->]|[_ Hx]]%Hlook; [done|]. apply Hsub. exact (i_keys0 _ _ Hu Hx).
      - intros k' [(u & Hu & Hk')%i_from0|[-> ->]]%Hfrom.
        + exists u. split; [apply elem_of_app; by left|]. by eapply lookup_weaken.
        + exists v. split; [apply elem_of_app; right; left|done].
      - intros u c [Hu|[= -> ->]%list_elem_of_singleton]%elem_of_app; [|by rewrite Hvk].
        destruct (i_bound0 _ _ Hu) as [x Hx]. exists x. by eapply lookup_weaken.
      - intros u1 u2 x [Hu1|[= -> <-]%list_elem_of_singleton]%elem_of_app [Hu2|[= -> <-]%list_elem_of_singleton]%elem_of_app H1%Hlook H2%Hlook.
        + destruct H1 as [[-> ->]|[N1 H1]], H2 as [[-> H2]|[N2 H2]].
          * apply Hin in Hu1. apply Hin in Hu2. congruence.
          * apply Hin in Hu1. pose proof (Hagree _ _ N2 H2 (Hin _ _ Hu2)). congruence.
          * subst x. apply Hin in Hu2. pose proof (Hagree _ _ N1 H1 (Hin _ _ Hu1)). congruence.
          * exact (i_apart0 _ _ _ Hu1 Hu2 H1 H2).
        + destruct H1 as [[-> ->]|[N1 H1]]; [apply Hin in Hu1; congruence|].
          destruct H2 as [[_ ->]|[N2 _]]; [|done]. pose proof (Hagree _ _ N1 H1 (Hin _ _ Hu1)). congruence.
        + destruct H2 as [[-> _]|[N2 H2]]; [apply Hin in Hu2; congruence|].
          destruct H1 as [[_ ->]|[N1 _]]; [|done]. pose proof (Hagree _ _ N2 H2 (Hin _ _ Hu2)). congruence.
      - intros u x [Hu|[= -> <-]%list_elem_of_singleton]%elem_of_app Hx%Hlook.
        + destruct Hx as [[-> ->]|[_ Hx]].
          * apply Hin in Hu. apply Hnew. congruence.
          * destruct (Hold x) as [->|]; [exact (i_drawn0 _ _ Hu Hx)|done].
        + destruct Hx as [[_ ->]|[]]; [by apply Hnew|done]. }
    apply gwp_bind. destruct b.
    - apply gwp_bind. eapply gwp_draws; [exact HP|]. intros x r2 Hx. apply gwp_ret. apply gwp_bind, gwp_assign, gwp_ret.
      cbn [fst snd w_assignment w_rnd]. apply Hend.
      + intros k'. rewrite Set_lookup. case_bool_decide; auto.
      + intros _. by rewrite Get_Set, bool_decide_eq_true_2.
      + intros k'. rewrite Get_Set. case_bool_decide; auto.
    - apply gwp_ret. apply gwp_bind, gwp_assign, gwp_ret. cbn [fst snd w_assignment w_rnd]. apply Hend; auto. done. }
  pose proof Hinv as []. apply gwp_bind. destruct (w_assignment w !! v) as [k|] eqn:Ek.
  - apply gwp_ret. assert (k ∈ ks) as Hk by (apply (i_keys0 v); [by rewrite Hv|done]).
    replace ({[k]} ∪ ks) with ks by set_solver. apply Hset; [lia|done|done|by rewrite lookup_insert_eq|by rewrite insert_id|].
    intros o ob _ Ho Hob. by rewrite (Hcheck k o ob eq_refl Ho Hob).
  - apply gwp_getUnusedKey; [lia|]. intros k r2 Hk. cbn [w_assignment].
    apply Hset; [rewrite size_union, size_singleton by set_solver; lia|set_solver|set_solver|by rewrite lookup_insert_eq|by apply insert_subseteq|].
    intros o ob _ Ho Hob. destruct Hk. apply (i_keys0 o); [by rewrite Hob|done].
Qed.

Lemma randomEntries_spec t P (asg0 : Assignment) fuel i b (E : GenErr -> Prop) (w : world R) :
  (forall v k, is_Some (tsg_nonZeroConstraints t !! v) -> w_assignment w !! v = Some k -> k ∈ fst b) ->
  generated t P (w_assignment w) (snd b) -> 0 <= i <= 9 -> 10 <= i + Z.of_nat fuel ->
  Z.of_nat (size (fst b)) + 10 - i < 2 ^ 20 ->
  gwp (randomEntries fuel i b) (fun b' w' => generated t P (w_assignment w') (snd b') /\ w_assignment w' = w_assignment w) E w.
Proof.
  revert i b w. induction fuel as [|fuel IH]; intros i [ks s] w Hk Hsat Hi Hf Hs; cbn [fst snd] in *; [lia|].
  cbn [randomEntries]. apply gwp_bind. eapply gwp_draws; [apply draws_Intn; lia|]. intros n r Hn. cbn beta in Hn.
  apply gwp_if; intros Hlt; [|by apply gwp_ret]. apply gwp_bind, gwp_getUnusedKey; [lia|]. intros k r1 Hnew.
  apply gwp_bind. eapply gwp_draws; [apply draws_RandU256|]. intros x r2 _. cbn [w_assignment].
  apply (IH (i + 1) (_, _) (mkWorld r2 (w_assignment w))); cbn [fst snd w_assignment].
  - intros v k' Hv Hk'. apply elem_of_union_r. by eapply Hk.
  - assert (forall v k', is_Some (tsg_nonZeroConstraints t !! v) -> w_assignment w !! v = Some k' ->
      st.TransientStorage_Get (st.TransientStorage_Set s k x) k' = st.TransientStorage_Get s k') as Hget.
    { intros v k' Hv Hk'. rewrite Get_Set, bool_decide_eq_false_2; [done|]. intros ->. apply Hnew. by eapply Hk. }
    destruct Hsat as [Hok Hz Hd]. split; [done| |]; intros v Hv.
    + destruct (Hz v Hv) as (k' & H1 & H2). exists k'. rewrite (Hget v) by (rewrite ?Hv; done). done.
    + destruct (Hd v Hv) as (k' & H1 & H2). exists k'. rewrite (Hget v) by (rewrite ?Hv; done). done.
  - lia.
  - lia.
  - rewrite size_union, size_singleton by set_solver. lia.
Qed.

(** The generated storage satisfies the constraints. *)
Lemma transient_Generate_spec t P (Q : st.TransientStorage -> world R -> Prop) (E : GenErr -> Prop) w :
  draws (R := R) RandU256 P -> Z.of_nat (size (tsg_nonZeroConstraints t)) < 2 ^ 16 ->
  (forall s r asg, generated t P asg s -> w_assignment w ⊆ asg ->
    (forall v, tsg_nonZeroConstraints t !! v = None -> asg !! v = w_assignment w !! v) -> Q s (mkWorld r asg)) ->
  E ErrUnsatisfiable ->
  gwp (Generate t) Q E w.
Proof.
  intros HP Hwf HQ HE. unfold Generate. apply gwp_if; intros Hok; [by apply gwp_fail|].
  apply gwp_bind. eapply gwp_draws; [apply draws_range|]. intros vars r1 Hp1. cbn beta in Hp1.
  apply gwp_bind. unfold gwp at 1. cbn [w_assignment]. apply gwp_bind. eapply gwp_draws; [apply draws_range|].
  intros cons r2 Hp2. cbn beta in Hp2. cbn [w_assignment]. set (ks0 := StorageGenerator.bound_keys _ _).
  assert (forall u c, (u, c) ∈ cons <-> tsg_nonZeroConstraints t !! u = Some c) as Hcons
    by (intros u c; rewrite Hp2; apply elem_of_map_to_list).
  assert (zlen cons < 2 ^ 16) as Hlen.
  { unfold zlen. rewrite Hp2, length_map_to_list. done. }
  assert (zlen (map fst vars) < 2 ^ 16) as Hlen1.
  { unfold zlen. rewrite length_map, Hp1, length_map_to_list. done. }
  apply gwp_bind. eapply gwp_mono.
  { apply (gwp_for (process t) (fun done b w' => inv t P (w_assignment w) (2 ^ 16 + zlen done) done (fst b) (snd b) (w_assignment w'))).
    - cbn [fst snd w_assignment]. split; try done.
      + pose proof (StorageGenerator.size_bound_keys (w_assignment w) (map fst vars)). change (zlen (@nil (Var * bool))) with 0. unfold ks0. lia.
      + intros v k [b Hb] Hk. apply (StorageGenerator.elem_of_bound_keys _ _ v); [|done].
        apply elem_of_map. exists (v, b). split; [done|]. rewrite Hp1. by apply elem_of_map_to_list.
      + intros k [x Hx]. cbn [st.ts_storage] in Hx. by rewrite lookup_empty in Hx.
      + intros v b []%not_elem_of_nil.
      + intros u v k []%not_elem_of_nil.
      + intros v k []%not_elem_of_nil.
    - intros done [v b] rest [ks s] w' Hl Hi. cbn [fst snd] in *.
      assert (zlen done <= zlen cons) by (rewrite Hl, zlen_app; pose proof (zlen_nonneg ((v, b) :: rest)); lia).
      eapply gwp_mono; [apply (process_spec t P (w_assignment w) (2 ^ 16 + zlen done) done); try done| |done].
      + intros u c Hu. apply Hcons. rewrite Hl. apply elem_of_app. by left.
      + apply Hcons. rewrite Hl. apply elem_of_app. right. left.
      + lia.
      + intros c w2 Hc. rewrite zlen_app. change (zlen [(v, b)]) with 1. by rewrite Z.add_assoc. }
  2: done.
  intros [ks s] w1 Hinv. cbn [fst snd] in *. pose proof Hinv as []. apply gwp_bind. eapply gwp_mono.
  { apply (randomEntries_spec t P (w_assignment w)); cbn [fst snd]; [done| |lia|lia|lia]. split; [done| |]; intros v Hv.
    - destruct (i_bound0 v false) as [k Hk]; [by apply Hcons|]. exists k. split; [done|].
      unfold st.TransientStorage_Get, st.map_get. destruct (st.ts_storage s !! k) eqn:Es; [|done].
      destruct (i_from0 k) as (v' & Hv' & Hvk); [by rewrite Es|]. destruct (i_apart0 v' v k); [done|by apply Hcons|done|done].
    - destruct (i_bound0 v true) as [k Hk]; [by apply Hcons|]. exists k. split; [done|].
      apply (i_drawn0 v); [by apply Hcons|done]. }
  2: done.
  intros [ks' s'] [r' asg'] [Hsat Hasg]. cbn [fst snd w_assignment] in *. subst asg'. by apply gwp_ret, HQ.
Qed.

Lemma transient_generated_weaken t P asg asg' s : asg ⊆ asg' -> generated t P asg s -> generated t P asg' s.
Proof.
  intros Hs [H0 H1 H2]. split; [done| |]; intros v Hv; [destruct (H1 v Hv) as (k & Hk & H)|destruct (H2 v Hv) as (k & Hk & H)];
    exists k; (split; [by eapply lookup_weaken|done]).
Qed.

(** Constraints to be zero are satisfied. *)
Lemma transient_generated_sat t P asg s : (forall v, tsg_nonZeroConstraints t !! v <> Some true) -> generated t P asg s -> sat t asg s.
Proof. intros Hz []. split; [done|done|]. intros v Hv. by destruct (Hz v). Qed.

End Facts.

End TransientStorageGenerator.
