(* ===== verification/CtGenContexts.v ===== *)
(** * Generators of block and transaction contexts

    [go/ct/gen/block_context.go] and [go/ct/gen/transaction_context.go]: block
    numbers of a range of revisions and variables that are, or are not, among
    the last 256 blocks; lists of blob hashes and variables that are, or are
    not, an index of one. *)
From Stdlib Require Import ZArith Lia Strings.Byte.
From stdpp Require Import base list numbers gmap strings sorting.
From S2P Require Import Prelude Uint256 Types CtCommon CtState CtStateFacts CtRules CtRand CtGenSolvers.
Set Default Goal Selector "!".
Local Open Scope Z_scope.
Local Open Scope go_scope.

(** ** Block contexts *)

(** The maps [rangeConstraints] and [valueConstraint] are empty or missing at
    the start, which makes no difference. *)
Record BlockContextGenerator := mkBlockContextGenerator {
  bcg_blockNumberSolver : option RangeSolver;
  bcg_rangeConstraints : gmap Var bool;
  bcg_valueConstraint : gmap Var Z;
  bcg_unsatisfiable : bool
}.

Section Offsets.
Context {U : Uint256}.

(** [addOffset]: the flag tells of an overflow. *)
Definition addOffset (value : U256) (offset : Z) : U256 * bool :=
  if offset <? 0 then
    let result := U256_Sub value (NewU256 (u64 (i64 (- offset)))) in
    (result, U256_Gt result value)
  else
    let result := U256_Add value (NewU256 (u64 offset)) in
    (result, U256_Lt result value).

Definition addWithOverflowCheck (a b : Z) : Z * bool :=
  let result := a +u64 b in
  (result, result <? a).

Definition isInRange (lowerBound : Z) (currentValue : U256) (upperBound : Z) : bool :=
  let value := U256_Uint64 currentValue in
  U256_IsUint64 currentValue && (lowerBound <=? value) && (value <=? upperBound).

End Offsets.

Module BlockContextGenerator.

Definition New : BlockContextGenerator := mkBlockContextGenerator None ∅ ∅ false.

Definition markUnsatisfiable (b : BlockContextGenerator) : BlockContextGenerator :=
  mkBlockContextGenerator None ∅ ∅ true.

Definition set_rangeConstraints (v : gmap Var bool) (b : BlockContextGenerator) : BlockContextGenerator :=
  mkBlockContextGenerator (bcg_blockNumberSolver b) v (bcg_valueConstraint b) (bcg_unsatisfiable b).

Definition RestrictVariableToOneOfTheLast256Blocks (variable : Var) (b : BlockContextGenerator) : BlockContextGenerator :=
  if bcg_unsatisfiable b then b
  else match bcg_rangeConstraints b !! variable with
       | Some inRange => if negb inRange then markUnsatisfiable b else b
       | None => set_rangeConstraints (<[variable := true]> (bcg_rangeConstraints b)) b
       end.

Definition RestrictVariableToNoneOfTheLast256Blocks (variable : Var) (b : BlockContextGenerator) : BlockContextGenerator :=
  if bcg_unsatisfiable b then b
  else match bcg_rangeConstraints b !! variable with
       | Some inRange => if inRange : bool then markUnsatisfiable b else b
       | None => set_rangeConstraints (<[variable := false]> (bcg_rangeConstraints b)) b
       end.

Definition SetBlockNumberOffsetValue (variable : Var) (offset : Z) (b : BlockContextGenerator) : BlockContextGenerator :=
  if bcg_unsatisfiable b then b
  else match bcg_valueConstraint b !! variable with
       | Some existingValue => if negb (existingValue =? offset) then markUnsatisfiable b else b
       | None => mkBlockContextGenerator (bcg_blockNumberSolver b) (bcg_rangeConstraints b)
                   (<[variable := offset]> (bcg_valueConstraint b)) (bcg_unsatisfiable b)
       end.

(** [GetBlockRangeLengthFor] returns no error. *)
Definition AddRevisionBounds (lower upper : Revision) (b : BlockContextGenerator) : BlockContextGenerator :=
  if bcg_unsatisfiable b then b
  else if (lower >? upper) || (lower <? 0) || (upper <? 0) then markUnsatisfiable b
  else
    let min := GetForkBlock lower in
    let max := GetForkBlock upper in
    let len := GetBlockRangeLengthFor upper in
    let max := if len >=? MaxUint64 -u64 max then MaxUint64 else max +u64 (len -u64 1) in
    let solver := match bcg_blockNumberSolver b with
                  | None => NewRangeSolver min max
                  | Some s => RangeSolver.AddUpperBoundary max (RangeSolver.AddLowerBoundary min s)
                  end in
    if negb (RangeSolver.IsSatisfiable solver) then markUnsatisfiable b
    else mkBlockContextGenerator (Some solver) (bcg_rangeConstraints b) (bcg_valueConstraint b) (bcg_unsatisfiable b).

Definition SetRevision (revision : Revision) (b : BlockContextGenerator) : BlockContextGenerator :=
  AddRevisionBounds revision revision b.

Section Generate.
Context {U : Uint256} {R : Type} {RND : Rand R}.

(** The first loop of [generateBlockNumber]. *)
Definition applyValueConstraint (solver : IntervalSolver) (con : Var * Z) : Gen R IntervalSolver :=
  let '(variable, offset) := con in
  assigned ← gen_lookup variable;
  match assigned with
  | Some assignedValue =>
      let '(wantedBlock, overflow) := addOffset assignedValue offset in
      if overflow || negb (U256_IsUint64 wantedBlock) then gen_fail ErrUnsatisfiable
      else mret (IntervalSolver.AddEqualityConstraint Uint64 (U256_Uint64 wantedBlock) solver)
  | None => mret solver
  end.

(** The second. *)
Definition applyRangeConstraint (solver : IntervalSolver) (con : Var * bool) : Gen R IntervalSolver :=
  let '(variable, inRange) := con in
  assigned ← gen_lookup variable;
  match assigned with
  | Some assignedValue =>
      if inRange : bool then
        if negb (U256_IsUint64 assignedValue) then gen_fail ErrUnsatisfiable
        else
          let value := U256_Uint64 assignedValue in
          let '(lower, overflow) := addWithOverflowCheck value 1 in
          if negb overflow then
            let solver := IntervalSolver.AddLowerBoundary Uint64 lower solver in
            let '(upper, overflow) := addWithOverflowCheck value 256 in
            if negb overflow then mret (IntervalSolver.AddUpperBoundary Uint64 upper solver) else mret solver
          else gen_fail ErrUnsatisfiable
      else
        let max := MaxUint64 in
        let value := U256_Uint64 assignedValue in
        if U256_IsUint64 assignedValue && (value <? max) then
          let min := U256_Uint64 assignedValue +u64 1 in
          let max := if U256_Uint64 assignedValue <? max -u64 256 then U256_Uint64 assignedValue +u64 256 else max in
          mret (IntervalSolver.Exclude Uint64 min max solver)
        else mret solver
  | None => if inRange then mret (IntervalSolver.AddLowerBoundary Uint64 1 solver) else mret solver
  end.

Definition generateBlockNumber (b : BlockContextGenerator) : Gen R Z :=
  let solver := IntervalSolver.New 0 MaxUint64 in
  let solver := match bcg_blockNumberSolver b with
                | Some s => IntervalSolver.AddUpperBoundary Uint64 (rs_max s) (IntervalSolver.AddLowerBoundary Uint64 (rs_min s) solver)
                | None => solver
                end in
  values ← gen_range (bcg_valueConstraint b);
  solver ← gen_for applyValueConstraint values solver;
  ranges ← gen_range (bcg_rangeConstraints b);
  solver ← gen_for applyRangeConstraint ranges solver;
  IntervalSolver.Generate Uint64 solver.

Definition bindValue (resultingBlockNumber : Z) (_ : unit) (con : Var * Z) : Gen R unit :=
  let '(variable, offset) := con in
  let '(requiredValue, underflow) := addOffset (NewU256 resultingBlockNumber) (i64 (- offset)) in
  if underflow then gen_fail ErrUnsatisfiable
  else
    assigned ← gen_lookup variable;
    match assigned with
    | None => gen_assign variable requiredValue
    | Some _ => mret tt
    end.

Definition bindVariablesInValueConstraints (b : BlockContextGenerator) (resultingBlockNumber : Z) : Gen R unit :=
  values ← gen_range (bcg_valueConstraint b);
  gen_for (bindValue resultingBlockNumber) values tt.

Definition bindRange (resultingBlockNumber : Z) (_ : unit) (con : Var * bool) : Gen R unit :=
  let '(variable, inRange) := con in
  let lowerBound := if resultingBlockNumber >? 256 then resultingBlockNumber -u64 256 else 0 in
  let upperBound := resultingBlockNumber in
  let blockNumberRangeGenerator := NewRangeSolver lowerBound (upperBound -u64 1) in
  assigned ← gen_lookup variable;
  match assigned with
  | Some currentValue =>
      gen_fail_if (negb (Bool.eqb inRange (isInRange lowerBound currentValue upperBound))) ErrUnsatisfiable
  | None =>
      number ← (if inRange : bool then RangeSolver.Generate Uint64 blockNumberRangeGenerator
                else IntervalSolver.Generate Uint64 (IntervalSolver.Exclude Uint64
                       (resultingBlockNumber -u64 256) (resultingBlockNumber -u64 1) (IntervalSolver.New 0 MaxUint64)));
      gen_assign variable (NewU256 number)
  end.

Definition bindVariablesInRangeConstraints (b : BlockContextGenerator) (resultingBlockNumber : Z) : Gen R unit :=
  ranges ← gen_range (bcg_rangeConstraints b);
  gen_for (bindRange resultingBlockNumber) ranges tt.

Definition Generate (b : BlockContextGenerator) : Gen R st.BlockContext :=
  if bcg_unsatisfiable b then gen_fail ErrUnsatisfiable
  else
    blockNumber ← generateBlockNumber b;
    _ ← bindVariablesInValueConstraints b blockNumber;
    _ ← bindVariablesInRangeConstraints b blockNumber;
    chainId ← RandU256;
    coinbase ← RandomAddress;
    baseFee ← RandU256;
    blobBaseFee ← RandU256;
    gasLimit ← gen_Uint64;
    gasPrice ← RandU256;
    prevRandao ← RandU256;
    let revision := GetRevisionForBlock blockNumber in
    let time := GetForkTime revision in
    let nextTime := GetForkTime (revision + 1) in
    n ← gen_Uint64n (nextTime -u64 time);
    let timestamp := n +u64 time in
    mret (st.mkBlockContext baseFee blobBaseFee blockNumber chainId coinbase gasLimit gasPrice prevRandao timestamp).

End Generate.

Definition Clone (b : BlockContextGenerator) : BlockContextGenerator :=
  if bcg_unsatisfiable b then mkBlockContextGenerator None ∅ ∅ true
  else mkBlockContextGenerator (RangeSolver.Clone <$> bcg_blockNumberSolver b) (bcg_rangeConstraints b)
         (bcg_valueConstraint b) (bcg_unsatisfiable b).

Definition Restore (b o : BlockContextGenerator) : BlockContextGenerator :=
  mkBlockContextGenerator (RangeSolver.Clone <$> bcg_blockNumberSolver o) (bcg_rangeConstraints o)
    (bcg_valueConstraint o) (bcg_unsatisfiable o).

(** *** What the constraints mean *)

(** The value is one of the last 256 blocks. *)
Definition recent (n : Z) (x : U256) : Prop := Z.max 0 (n - 256) <= uval x < n.

(** The value is this far below the block number. The smallest offset is its
    own negation, and a new variable gets the value on the other side. *)
Definition offset_holds (n off : Z) (x : U256) : Prop := uval x = n - off \/ off = - 2 ^ 63 /\ uval x = n + off.

(** The constraints on a block number [n] and an assignment. *)
Record sat (b : BlockContextGenerator) (asg : Assignment) (n : Z) : Prop := {
  sat_ok : bcg_unsatisfiable b = false;
  sat_number : isU64 n;
  sat_solver s : bcg_blockNumberSolver b = Some s -> RangeSolver.admits s n;
  sat_value v off : bcg_valueConstraint b !! v = Some off -> exists x, asg !! v = Some x /\ uval x = n - off;
  sat_range v (c : bool) : bcg_rangeConstraints b !! v = Some c ->
    exists x, asg !! v = Some x /\ if c then recent n x else ~ recent n x
}.

(** What is generated for the assignment [asg0], with the exceptions of the
    solver: it accepts the block number itself as a recent one if an offset of
    zero is required, and does not keep new variables out of the first blocks. *)
Record generated (b : BlockContextGenerator) (asg0 asg : Assignment) (n : Z) : Prop := {
  gd_ok : bcg_unsatisfiable b = false;
  gd_number : isU64 n;
  gd_solver s : bcg_blockNumberSolver b = Some s -> RangeSolver.admits s n;
  gd_value v off : bcg_valueConstraint b !! v = Some off -> exists x, asg !! v = Some x /\ offset_holds n off x;
  gd_recent v : bcg_rangeConstraints b !! v = Some true ->
    exists x, asg !! v = Some x /\ (recent n x \/ bcg_valueConstraint b !! v = Some 0);
  gd_other v : bcg_rangeConstraints b !! v = Some false ->
    exists x, asg !! v = Some x /\ (~ recent n x \/ 0 < n < 256 /\ asg0 !! v = None)
}.

Record wf (b : BlockContextGenerator) : Prop := {
  wf_solver s : bcg_blockNumberSolver b = Some s -> RangeSolver.wf Uint64 s;
  wf_offset v off : bcg_valueConstraint b !! v = Some off -> isI64 off
}.

(** *** The constraints that the operations add *)

Lemma fork_range rev : 0 <= GetForkBlock rev <= 8000.
Proof. unfold GetForkBlock. repeat case_if; lia. Qed.

(** The numbers of a range of revisions. *)
Definition revision_max (upper : Revision) : Z :=
  let max := GetForkBlock upper in
  let len := GetBlockRangeLengthFor upper in
  if len >=? MaxUint64 -u64 max then MaxUint64 else max +u64 (len -u64 1).

Lemma revision_max_range upper : isU64 (revision_max upper).
Proof. unfold revision_max. case_if; [done|]. apply u64_range. Qed.

Lemma AddRevisionBounds_spec lower upper b : bcg_unsatisfiable b = false ->
  let b' := AddRevisionBounds lower upper b in
  bcg_unsatisfiable b' = false ->
  bcg_valueConstraint b' = bcg_valueConstraint b /\ bcg_rangeConstraints b' = bcg_rangeConstraints b
  /\ exists s, bcg_blockNumberSolver b' = Some s /\ forall n, RangeSolver.admits s n <->
       GetForkBlock lower <= n <= revision_max upper
       /\ match bcg_blockNumberSolver b with None => True | Some s0 => RangeSolver.admits s0 n end.
Proof.
  intros Hu. cbv zeta. unfold AddRevisionBounds. rewrite Hu. case_if; [done|]. fold (revision_max upper).
  set (s := match _ with None => _ | Some _ => _ end). case_if; [done|]. intros _. cbn. split; [done|]. split; [done|].
  exists s. split; [done|]. intros n. unfold s. destruct (bcg_blockNumberSolver b) as [s0|].
  - rewrite RangeSolver.AddUpperBoundary_admits, RangeSolver.AddLowerBoundary_admits. tauto.
  - unfold RangeSolver.admits. cbn. tauto.
Qed.

(** Numbers in the range of supported revisions have such a revision. *)
Lemma revision_of_range lower upper n : 0 <= lower -> upper <= NewestSupportedRevision ->
  GetForkBlock lower <= n <= revision_max upper -> lower <= upper -> lower <= GetRevisionForBlock n <= upper.
Proof.
  intros Hl Hu Hn Hle. change NewestSupportedRevision with 7 in Hu.
  assert (lower ∈ [0;1;2;3;4;5;6;7] /\ upper ∈ [0;1;2;3;4;5;6;7]) as [Hl' Hu'].
  { rewrite !elem_of_cons. split; lia. }
  unfold GetRevisionForBlock. change (seqZ MinRevision (NewestSupportedRevision + 2)) with [0;1;2;3;4;5;6;7;8].
  cbv beta iota. change (GetForkBlock 0) with 0. change (GetForkBlock 1) with 1000. change (GetForkBlock 2) with 2000.
  change (GetForkBlock 3) with 3000. change (GetForkBlock 4) with 4000. change (GetForkBlock 5) with 5000.
  change (GetForkBlock 6) with 6000. change (GetForkBlock 7) with 7000. change (GetForkBlock 8) with 8000.
  assert (GetForkBlock lower = 1000 * lower /\ revision_max upper = 1000 * upper + 999) as [El Eu].
  { rewrite !elem_of_cons in Hl', Hu'.
    split; [destruct Hl' as [->|[->|[->|[->|[->|[->|[->|[->|[]%not_elem_of_nil]]]]]]]]
           |destruct Hu' as [->|[->|[->|[->|[->|[->|[->|[->|[]%not_elem_of_nil]]]]]]]]]; by vm_compute. }
  rewrite El, Eu in Hn.
  repeat match goal with |- context [if ?b then _ else _] => destruct b eqn:?; b2p; [clear Hl' Hu'; lia|] end. lia.
Qed.

Lemma block_wf_New : wf New.
Proof. split; [done|]. intros v off H. cbn in H. by rewrite lookup_empty in H. Qed.

Lemma wf_markUnsatisfiable b : wf (markUnsatisfiable b).
Proof. by destruct block_wf_New; split. Qed.

Lemma wf_AddRevisionBounds lower upper b : wf b -> wf (AddRevisionBounds lower upper b).
Proof.
  intros Hb. unfold AddRevisionBounds. case_if; [done|]. case_if; [apply wf_markUnsatisfiable|].
  fold (revision_max upper). set (s := match _ with None => _ | Some _ => _ end). case_if; [apply wf_markUnsatisfiable|].
  destruct Hb as [Hs Ho]. split; [|done]. cbn. intros ? [= <-].
  assert (isT Uint64 (GetForkBlock lower)) by (pose proof (fork_range lower); cbn; zblia).
  assert (isT Uint64 (revision_max upper)) by (apply revision_max_range).
  unfold s. destruct (bcg_blockNumberSolver b) as [s0|]; [|by split].
  by apply RangeSolver.wf_AddUpperBoundary, RangeSolver.wf_AddLowerBoundary, Hs.
Qed.

Lemma wf_RestrictOneOf v b : wf b -> wf (RestrictVariableToOneOfTheLast256Blocks v b).
Proof.
  intros Hb. unfold RestrictVariableToOneOfTheLast256Blocks. case_if; [done|].
  destruct (_ !! v) as [[]|]; cbn [negb]; [done|apply wf_markUnsatisfiable|]. by destruct Hb.
Qed.

Lemma wf_RestrictNoneOf v b : wf b -> wf (RestrictVariableToNoneOfTheLast256Blocks v b).
Proof.
  intros Hb. unfold RestrictVariableToNoneOfTheLast256Blocks. case_if; [done|].
  destruct (_ !! v) as [[]|]; [apply wf_markUnsatisfiable|done|]. by destruct Hb.
Qed.

Lemma wf_SetBlockNumberOffsetValue v off b : isI64 off -> wf b -> wf (SetBlockNumberOffsetValue v off b).
Proof.
  intros Hoff Hb. unfold SetBlockNumberOffsetValue. case_if; [done|].
  destruct (bcg_valueConstraint b !! v); [case_if; [apply wf_markUnsatisfiable|done]|].
  destruct Hb as [Hs Ho]. split; [done|]. cbn. intros u o. destruct (decide (v = u)) as [<-|Hne].
  - rewrite lookup_insert_eq. by intros [= <-].
  - rewrite lookup_insert_ne by done. apply Ho.
Qed.

Section Facts.
Context {U : Uint256} {UL : Uint256Laws U} {R : Type} {RND : Rand R} {RL : RandLaws R RND}.

Lemma addOffset_spec x off y : isI64 off -> addOffset x off = (y, false) -> uval y = uval x + off.
Proof.
  intros Ho. pose proof (uval_range x) as Hx. unfold addOffset. destruct (Z.ltb_spec off 0).
  - assert (u64 (i64 (- off)) = - off) as ->.
    { destruct (Z.eq_dec off (- 2 ^ 63)) as [->|]; [done|]. rewrite i64_id, u64_id by zblia. done. }
    intros [= <- Hf]. unfold U256_Gt, U256_Sub in *.
    rewrite Gt_law, Sub_law, NewU256_uval, Z.gtb_ltb in Hf by zblia. apply Z.ltb_ge in Hf.
    rewrite Sub_law, NewU256_uval by zblia. destruct (Z_le_gt_dec (- off) (uval x)).
    + rewrite Z.mod_small by lia. lia.
    + rewrite <-(Z.mod_unique (uval x - - off) M256 (-1) (uval x + off + M256)) in Hf by (unfold M256 in *; zblia).
      unfold M256 in *. zblia.
  - rewrite u64_id by zblia. intros [= <- Hf]. unfold U256_Lt, U256_Add in *.
    rewrite Lt_law, Add_law, NewU256_uval in Hf by zblia. apply Z.ltb_ge in Hf.
    rewrite Add_law, NewU256_uval by zblia. destruct (Z_lt_ge_dec (uval x + off) M256).
    + by rewrite Z.mod_small by lia.
    + rewrite <-(Z.mod_unique (uval x + off) M256 1 (uval x + off - M256)) in Hf by (unfold M256 in *; zblia).
      unfold M256 in *. zblia.
Qed.

Lemma isInRange_spec n x : isU64 n ->
  isInRange (if n >? 256 then n -u64 256 else 0) x n = true <-> Z.max 0 (n - 256) <= uval x <= n.
Proof.
  intros Hn. pose proof (uval_range x). unfold isInRange, U256_IsUint64, U256_Uint64. rewrite IsUint64_law, Uint64_law.
  rewrite Z.gtb_ltb, !andb_true_iff, !Z.leb_le, Z.ltb_lt. split.
  - intros [[H1 H2] H3]. rewrite Z.mod_small in * by lia. destruct (Z.ltb_spec 256 n); [rewrite u64_id in H2 by zblia|]; lia.
  - intros Hr. assert (uval x < 2 ^ 64) by zblia. rewrite Z.mod_small by lia.
    split; [split|]; [done| |lia]. destruct (Z.ltb_spec 256 n); [rewrite u64_id by zblia|]; lia.
Qed.

Ltac tlia := cbn [isT] in *; zblia.

(** [s'] has the numbers of [s] for which [P] holds, or fewer. *)
Definition narrowed (s s' : IntervalSolver) (P : Z -> Prop) : Prop :=
  IntervalSolver.wf Uint64 s' /\ forall n, IntervalSolver.dom s' n -> IntervalSolver.dom s n /\ P n.

Definition value_holds (asg : Assignment) (con : Var * Z) (n : Z) : Prop :=
  forall x, asg !! fst con = Some x -> uval x = n - snd con.

Definition range_holds (asg : Assignment) (con : Var * bool) (n : Z) : Prop :=
  (snd con = true -> 1 <= n) /\ forall x, asg !! fst con = Some x -> if snd con then recent n x else ~ recent n x.

(** The 64-bit numbers. *)
Definition solver_wf (s : IntervalSolver) : Prop :=
  IntervalSolver.wf Uint64 s /\ forall n, IntervalSolver.dom s n -> isU64 n.

(** A loop that narrows with every constraint. *)
Lemma narrowing_loop {C} (f : IntervalSolver -> C -> Gen R IntervalSolver) (holds : C -> Z -> Prop) l s
    (Q : IntervalSolver -> world R -> Prop) E w : solver_wf s ->
  (forall c s, c ∈ l -> solver_wf s -> gwp (f s c) (fun s' w' => w' = w /\ narrowed s s' (holds c)) E w) ->
  (forall s', solver_wf s' -> narrowed s s' (fun n => forall c, c ∈ l -> holds c n) -> Q s' w) ->
  gwp (gen_for f l s) Q E w.
Proof.
  intros Hs Hf HQ. eapply gwp_mono; [|intros s' w' H; exact H|done].
  eapply gwp_mono.
  - apply (gwp_for f (fun done s' w' => w' = w /\ solver_wf s' /\ narrowed s s' (fun n => forall c, c ∈ done -> holds c n))).
    + split; [done|]. split; [done|]. destruct Hs. split; [done|]. intros n Hn. split; [done|]. intros c []%not_elem_of_nil.
    + intros done c rest s1 w' Hl (-> & Hs1 & Hw1 & Hd1). eapply gwp_mono; [apply Hf; [|done]| |done].
      { rewrite Hl. apply elem_of_app. right. left. }
      intros s2 w' (-> & Hw2 & Hd2). split; [done|]. split; [|split; [done|]].
      * split; [done|]. intros n [Hn _]%Hd2. by apply Hs1.
      * intros n [[Hn Hc1]%Hd1 Hc2]%Hd2. split; [done|].
        intros d [Hd| ->%list_elem_of_singleton]%elem_of_app; auto.
  - intros s' w' (-> & Hs' & Hn). by apply HQ.
  - done.
Qed.

Lemma applyValueConstraint_spec s con (E : GenErr -> Prop) (w : world R) : isI64 (snd con) -> solver_wf s ->
  E ErrUnsatisfiable ->
  gwp (applyValueConstraint s con) (fun s' w' => w' = w /\ narrowed s s' (value_holds (w_assignment w) con)) E w.
Proof.
  destruct con as [v off]. intros Ho [Hw _] HE. unfold applyValueConstraint. apply gwp_bind, gwp_lookup.
  unfold value_holds. cbn [fst snd]. destruct (w_assignment w !! v) as [x|] eqn:Ex.
  - destruct (addOffset x off) as [y ovf] eqn:Ea. apply gwp_if; intros Hc; [by apply gwp_fail|]. apply gwp_ret.
    apply orb_false_iff in Hc as [-> Hu%negb_false_iff]. apply addOffset_spec in Ea; [|done].
    destruct (IntervalSolver.AddEqualityConstraint_spec Uint64 (U256_Uint64 y) s) as [Hw' Hd]; [apply Uint64_range|done|].
    split; [done|]. split; [done|]. intros n [Hn ->]%Hd. split; [done|]. intros ? [= <-].
    unfold U256_Uint64. rewrite Uint64_exact by done. lia.
  - apply gwp_ret. split; [done|]. by split.
Qed.

(** A bound variable that has to be recent. *)
Lemma applyRange_recent s x : solver_wf s -> uval x < 2 ^ 64 - 1 ->
  narrowed s (let solver := IntervalSolver.AddLowerBoundary Uint64 (uval x +u64 1) s in
    if negb (uval x +u64 256 <? uval x) then IntervalSolver.AddUpperBoundary Uint64 (uval x +u64 256) solver else solver)
    (fun n => 1 <= n /\ recent n x).
Proof.
  intros [Hw HU] Hx. pose proof (uval_range x). rewrite (u64_id (uval x + 1)) by tlia.
  destruct (IntervalSolver.AddLowerBoundary_spec Uint64 (uval x + 1) s) as [W1 D1]; [tlia|done|]. cbv zeta.
  destruct (Z_lt_ge_dec (uval x) (2 ^ 64 - 256)) as [Hlt|Hge].
  - rewrite (u64_id (uval x + 256)) by tlia. rewrite (proj2 (Z.ltb_ge _ _)) by lia. cbn [negb].
    destruct (IntervalSolver.AddUpperBoundary_spec Uint64 (uval x + 256) _ ltac:(tlia) W1) as [W2 D2].
    split; [done|]. intros n [[Hn Hlo]%D1 Hhi]%D2. unfold recent. split; [done|lia].
  - assert ((uval x +u64 256) = uval x + 256 - 2 ^ 64) as ->.
    { unfold u64, wrapU. symmetry. apply Z.mod_unique with 1; lia. }
    rewrite (proj2 (Z.ltb_lt _ _)) by lia. cbn [negb]. split; [done|]. intros n [Hn Hlo]%D1.
    pose proof (HU n Hn). unfold recent. split; [done|]. tlia.
Qed.

(** A bound variable that must not be recent. *)
Lemma applyRange_other s x : solver_wf s -> uval x < MaxUint64 ->
  narrowed s (IntervalSolver.Exclude Uint64 (uval x +u64 1)
    (if uval x <? MaxUint64 -u64 256 then uval x +u64 256 else MaxUint64) s) (fun n => ~ recent n x).
Proof.
  intros [Hw HU] Hx. pose proof (uval_range x). rewrite (u64_id (uval x + 1)) by tlia.
  change (MaxUint64 -u64 256) with (2 ^ 64 - 257).
  assert (forall m, isU64 m -> (m = uval x + 256 \/ m = MaxUint64 /\ 2 ^ 64 - 257 <= uval x) ->
    narrowed s (IntervalSolver.Exclude Uint64 (uval x + 1) m s) (fun n => ~ recent n x)) as Hex.
  { intros m Hm1 Hm2. destruct (IntervalSolver.Exclude_spec Uint64 (uval x + 1) m s) as [W1 D1]; [tlia|done|done|].
    split; [done|]. intros n [Hn Hout]%D1. pose proof (HU n Hn). unfold recent. split; [done|]. tlia. }
  destruct (Z.ltb_spec (uval x) (2 ^ 64 - 257)); [rewrite u64_id by tlia|]; apply Hex; tlia || auto.
Qed.

Lemma applyRangeConstraint_spec s con (E : GenErr -> Prop) (w : world R) : solver_wf s -> E ErrUnsatisfiable ->
  gwp (applyRangeConstraint s con) (fun s' w' => w' = w /\ narrowed s s' (range_holds (w_assignment w) con)) E w.
Proof.
  destruct con as [v c]. intros Hs HE. pose proof Hs as [Hw HU]. unfold applyRangeConstraint. apply gwp_bind, gwp_lookup.
  unfold range_holds. cbn [fst snd].
  destruct (w_assignment w !! v) as [x|] eqn:Ex.
  - pose proof (uval_range x). unfold addWithOverflowCheck, U256_Uint64, U256_IsUint64. destruct c.
    + apply gwp_if; intros Hu; [by apply gwp_fail|]. apply negb_false_iff in Hu. rewrite (Uint64_exact x Hu).
      rewrite IsUint64_law in Hu. apply Z.ltb_lt in Hu. apply gwp_if; intros Hov; [|by apply gwp_fail].
      assert (uval x < 2 ^ 64 - 1) as Hx.
      { destruct (Z.eq_dec (uval x) (2 ^ 64 - 1)) as [He|]; [rewrite He in Hov; by vm_compute in Hov|lia]. }
      destruct (applyRange_recent s x Hs Hx) as [W D]. cbv zeta in W, D.
      destruct (negb ((uval x +u64 256) <? uval x)); apply gwp_ret; (split; [done|]); (split; [done|]); intros n (Hn & H1 & H2)%D;
        (split; [done|]); (split; [done|]); by intros ? [= <-].
    + apply gwp_if; intros Hu; apply gwp_ret; (split; [done|]).
      * apply andb_true_iff in Hu as [Hu Hm]. rewrite (Uint64_exact x Hu) in *. apply Z.ltb_lt in Hm.
        destruct (applyRange_other s x Hs Hm) as [W D]. split; [done|]. intros n [Hn Hr]%D.
        split; [done|]. split; [done|]. by intros ? [= <-].
      * split; [done|]. intros n Hn. split; [done|]. split; [done|]. intros ? [= <-].
        apply andb_false_iff in Hu. rewrite IsUint64_law in Hu. pose proof (HU n Hn). unfold recent.
        destruct Hu as [Hu|Hu]; apply Z.ltb_ge in Hu; [tlia|]. rewrite Uint64_law in Hu.
        destruct (Z_lt_ge_dec (uval x) (2 ^ 64)); [rewrite Z.mod_small in Hu by lia|]; tlia.
  - destruct c; apply gwp_ret; (split; [done|]).
    + destruct (IntervalSolver.AddLowerBoundary_spec Uint64 1 s) as [W1 D1]; [tlia|done|].
      split; [done|]. intros n [Hn Hlo]%D1. done.
    + split; [done|]. intros n Hn. done.
Qed.

Lemma initial_solver b : wf b ->
  let solver := match bcg_blockNumberSolver b with
                | Some s => IntervalSolver.AddUpperBoundary Uint64 (rs_max s)
                    (IntervalSolver.AddLowerBoundary Uint64 (rs_min s) (IntervalSolver.New 0 MaxUint64))
                | None => IntervalSolver.New 0 MaxUint64
                end in
  solver_wf solver /\ forall n, IntervalSolver.dom solver n -> forall s, bcg_blockNumberSolver b = Some s -> RangeSolver.admits s n.
Proof.
  intros [Hs _]. assert (IntervalSolver.wf Uint64 (IntervalSolver.New 0 MaxUint64)) as H0 by (apply IntervalSolver.New_wf; done).
  unfold solver_wf. cbv zeta. destruct (bcg_blockNumberSolver b) as [s|].
  - destruct (Hs s eq_refl) as [Hmin Hmax].
    destruct (IntervalSolver.AddLowerBoundary_spec Uint64 (rs_min s) _ Hmin H0) as [H1 D1].
    destruct (IntervalSolver.AddUpperBoundary_spec Uint64 (rs_max s) _ Hmax H1) as [H2 D2].
    split; [split; [done|]|]; intros n [[Hn%IntervalSolver.New_dom Hl]%D1 Hh]%D2; [tlia|]. intros ? [= <-]. by split.
  - split; [split; [done|]|done]. intros n Hn%IntervalSolver.New_dom. tlia.
Qed.

(** The block number is one for which all constraints on bound variables
    hold, and is not the first one if there are to be recent blocks. *)
Lemma generateBlockNumber_spec b (Q : Z -> world R -> Prop) (E : GenErr -> Prop) w : wf b ->
  (forall n r, isU64 n -> (forall s, bcg_blockNumberSolver b = Some s -> RangeSolver.admits s n) ->
    (forall v off, bcg_valueConstraint b !! v = Some off -> value_holds (w_assignment w) (v, off) n) ->
    (forall v c, bcg_rangeConstraints b !! v = Some c -> range_holds (w_assignment w) (v, c) n) ->
    Q n (mkWorld r (w_assignment w))) ->
  E ErrUnsatisfiable ->
  gwp (generateBlockNumber b) Q E w.
Proof.
  intros Hwf HQ HE. unfold generateBlockNumber. destruct (initial_solver b Hwf) as [Hs Hadm]. cbv zeta in Hs, Hadm.
  set (solver := match _ with Some _ => _ | None => _ end) in *. clearbody solver.
  apply gwp_bind. eapply gwp_draws; [apply draws_range|]. intros values r1 Hp1. cbn beta in Hp1.
  assert (forall v off, (v, off) ∈ values <-> bcg_valueConstraint b !! v = Some off) as Hvalues
    by (intros v off; rewrite Hp1; apply elem_of_map_to_list).
  apply gwp_bind. eapply (narrowing_loop _ (value_holds (w_assignment w))); [done| |].
  { intros [v off] s Hin Hs'. apply (applyValueConstraint_spec s (v, off) E (mkWorld r1 (w_assignment w))); [|done|done].
    apply Hvalues in Hin. by apply (wf_offset b Hwf v). }
  intros s1 Hs1 [_ Hd1]. apply gwp_bind. eapply gwp_draws; [apply draws_range|]. intros ranges r2 Hp2.
  cbn beta in Hp2. cbn [w_assignment].
  assert (forall v c, (v, c) ∈ ranges <-> bcg_rangeConstraints b !! v = Some c) as Hranges
    by (intros v c; rewrite Hp2; apply elem_of_map_to_list).
  apply gwp_bind. eapply (narrowing_loop _ (range_holds (w_assignment w))); [done| |].
  { intros con s _ Hs'. by apply (applyRangeConstraint_spec s con E (mkWorld r2 (w_assignment w))). }
  intros s2 [Hw2 HU2] [_ Hd2]. eapply IntervalSolver.interval_Generate_spec; [done| |done].
  intros n r Hn. pose proof (HU2 n Hn). destruct (Hd2 n Hn) as [Hn1 Hr]. destruct (Hd1 n Hn1) as [Hn0 Hv].
  cbn [w_assignment]. apply HQ; [done|by apply Hadm| |].
  - intros v off Hin. by apply Hv, Hvalues.
  - intros v c Hin. by apply Hr, Hranges.
Qed.

(** Every variable with an offset has the value that it requires. *)
Lemma bindValues_spec b n (Q : unit -> world R -> Prop) (E : GenErr -> Prop) w : wf b -> isU64 n ->
  (forall v off, bcg_valueConstraint b !! v = Some off -> value_holds (w_assignment w) (v, off) n) ->
  (forall r asg, w_assignment w ⊆ asg -> (forall v, bcg_valueConstraint b !! v = None -> asg !! v = w_assignment w !! v) ->
    (forall v off, bcg_valueConstraint b !! v = Some off -> exists x, asg !! v = Some x /\ offset_holds n off x) ->
    Q tt (mkWorld r asg)) ->
  E ErrUnsatisfiable ->
  gwp (bindVariablesInValueConstraints b n) Q E w.
Proof.
  intros [_ Ho] Hn H0 HQ HE. unfold bindVariablesInValueConstraints. apply gwp_bind.
  eapply gwp_draws; [apply draws_range|]. intros values r1 Hp1. cbn beta in Hp1.
  assert (forall v off, (v, off) ∈ values <-> bcg_valueConstraint b !! v = Some off) as Hvalues
    by (intros v off; rewrite Hp1; apply elem_of_map_to_list).
  eapply gwp_mono.
  { apply (gwp_for (bindValue n) (fun done _ w' => w_assignment w ⊆ w_assignment w'
      /\ (forall v, bcg_valueConstraint b !! v = None -> w_assignment w' !! v = w_assignment w !! v)
      /\ (forall v off x, bcg_valueConstraint b !! v = Some off -> w_assignment w' !! v = Some x -> offset_holds n off x)
      /\ forall v off, (v, off) ∈ done -> is_Some (w_assignment w' !! v))).
    { cbn [w_assignment]. split; [done|]. split; [done|]. split; [intros v off x Hv Hx; left; by apply (H0 v off)|].
      intros v off []%not_elem_of_nil. }
    intros done [v off] rest [] w' Hl (Hsub & Hf & Hv & Hb).
    assert (bcg_valueConstraint b !! v = Some off) as Hin by (apply Hvalues; rewrite Hl; apply elem_of_app; right; left).
    unfold bindValue. destruct (addOffset (NewU256 n) (i64 (- off))) as [y ovf] eqn:Ea.
    apply gwp_if; intros ->; [by apply gwp_fail|]. apply addOffset_spec in Ea; [|apply i64_range].
    rewrite NewU256_uval in Ea by done. assert (offset_holds n off y) as Hy.
    { pose proof (Ho v off Hin). unfold offset_holds. destruct (Z.eq_dec off (- 2 ^ 63)) as [->|].
      - change (i64 (- - 2 ^ 63)) with (- 2 ^ 63) in Ea. by right.
      - rewrite i64_id in Ea by tlia. left. lia. }
    apply gwp_bind, gwp_lookup. destruct (w_assignment w' !! v) as [x|] eqn:Ex.
    - apply gwp_ret. split; [done|]. split; [done|]. split; [done|].
      intros u o [Hu|[= -> ->]%list_elem_of_singleton]%elem_of_app; [by eapply Hb|by rewrite Ex].
    - apply gwp_assign. cbn [w_assignment]. split; [|split; [|split]].
      + etransitivity; [done|]. by apply insert_subseteq.
      + intros u Hu. rewrite lookup_insert_ne; [auto|]. intros ->. congruence.
      + intros u o x Hu. destruct (decide (v = u)) as [<-|Hne].
        * rewrite lookup_insert_eq. intros [= <-]. rewrite Hin in Hu. by injection Hu as <-.
        * rewrite lookup_insert_ne by done. by apply Hv.
      + intros u o Hu. destruct (decide (v = u)) as [<-|Hne]; [by rewrite lookup_insert_eq|].
        rewrite lookup_insert_ne by done. apply elem_of_app in Hu as [Hu|[= -> ->]%list_elem_of_singleton]; [by eapply Hb|done]. }
  2: done.
  intros [] [r asg] (Hsub & Hf & Hv & Hb). apply HQ; [done|done|]. intros v off Hin.
  destruct (Hb v off) as [x Hx]; [by apply Hvalues|]. exists x. split; [done|]. by eapply Hv.
Qed.

(** A new value for a variable with a range constraint. *)
Lemma gwp_newNumber n c (Q : Z -> world R -> Prop) (E : GenErr -> Prop) w : isU64 n -> (c = true -> 1 <= n) ->
  (forall x r, isU64 x -> (if c : bool then recent n (NewU256 x) else ~ recent n (NewU256 x) \/ 0 < n < 256) ->
    Q x (mkWorld r (w_assignment w))) ->
  E ErrUnsatisfiable ->
  gwp (if c then RangeSolver.Generate Uint64 (NewRangeSolver (if n >? 256 then n -u64 256 else 0) (n -u64 1))
       else IntervalSolver.Generate Uint64 (IntervalSolver.Exclude Uint64 (n -u64 256) (n -u64 1) (IntervalSolver.New 0 MaxUint64))) Q E w.
Proof.
  intros Hn Hc HQ HE. destruct c.
  - specialize (Hc eq_refl). rewrite (u64_id (n - 1)) by tlia. rewrite Z.gtb_ltb.
    assert ((if 256 <? n then n -u64 256 else 0) = Z.max 0 (n - 256)) as ->.
    { destruct (Z.ltb_spec 256 n); [rewrite u64_id by tlia|]; lia. }
    apply RangeSolver.range_Generate_spec; [split; cbn [rs_min rs_max]; tlia| |intros; done].
    unfold RangeSolver.admits. cbn [rs_min rs_max]. intros x r Hx. apply HQ; [tlia|]. unfold recent. rewrite NewU256_uval by tlia. lia.
  - assert (IntervalSolver.wf Uint64 (IntervalSolver.New 0 MaxUint64)) as H0 by (apply IntervalSolver.New_wf; done).
    destruct (IntervalSolver.Exclude_spec Uint64 (n -u64 256) (n -u64 1) _ (conv_isT Uint64 _) (conv_isT Uint64 _) H0) as [W D].
    apply IntervalSolver.interval_Generate_spec; [done| |done]. intros x r [Hx%IntervalSolver.New_dom Hout]%D.
    assert (isU64 x) as Hx' by tlia. apply HQ; [done|]. unfold recent. rewrite NewU256_uval by done.
    destruct (Z_lt_ge_dec 0 n); [|left; lia]. destruct (Z_lt_ge_dec n 256); [by right|left].
    rewrite !u64_id in Hout by tlia. lia.
Qed.

Lemma bindRanges_spec b n (Q : unit -> world R -> Prop) (E : GenErr -> Prop) w (asg0 : Assignment) : isU64 n ->
  (forall v c, bcg_rangeConstraints b !! v = Some c -> range_holds asg0 (v, c) n) ->
  (forall v x, w_assignment w !! v = Some x -> asg0 !! v = Some x \/ exists off, bcg_valueConstraint b !! v = Some off /\ offset_holds n off x) ->
  asg0 ⊆ w_assignment w ->
  (forall r asg, w_assignment w ⊆ asg -> (forall v, bcg_rangeConstraints b !! v = None -> asg !! v = w_assignment w !! v) ->
    (forall v, bcg_rangeConstraints b !! v = Some true ->
      exists x, asg !! v = Some x /\ (recent n x \/ bcg_valueConstraint b !! v = Some 0)) ->
    (forall v, bcg_rangeConstraints b !! v = Some false ->
      exists x, asg !! v = Some x /\ (~ recent n x \/ 0 < n < 256 /\ asg0 !! v = None)) ->
    Q tt (mkWorld r asg)) ->
  E ErrUnsatisfiable ->
  gwp (bindVariablesInRangeConstraints b n) Q E w.
Proof.
  intros Hn Hr0 Hfrom Hsub0 HQ HE. unfold bindVariablesInRangeConstraints. apply gwp_bind.
  eapply gwp_draws; [apply draws_range|]. intros ranges r1 Hp1. cbn beta in Hp1.
  assert (forall v c, (v, c) ∈ ranges <-> bcg_rangeConstraints b !! v = Some c) as Hranges
    by (intros v c; rewrite Hp1; apply elem_of_map_to_list).
  set (ok := fun v (c : bool) x => if c then recent n x \/ bcg_valueConstraint b !! v = Some 0
                          else ~ recent n x \/ 0 < n < 256 /\ asg0 !! v = None).
  eapply gwp_mono.
  { apply (gwp_for (bindRange n) (fun done _ w' => w_assignment w ⊆ w_assignment w'
      /\ (forall v, (forall c, (v, c) ∉ done) -> w_assignment w' !! v = w_assignment w !! v)
      /\ forall v c, (v, c) ∈ done -> exists x, w_assignment w' !! v = Some x /\ ok v c x)).
    { cbn [w_assignment]. split; [done|]. split; [done|]. intros v c []%not_elem_of_nil. }
    intros done [v c] rest [] w' Hl (Hsub & Hf & Hd).
    assert (bcg_rangeConstraints b !! v = Some c) as Hin by (apply Hranges; rewrite Hl; apply elem_of_app; right; left).
    assert (forall c', (v, c') ∉ done) as Hnew.
    { intros c' Hc'. assert ((v, c') ∈ ranges) as Hc''%Hranges by (rewrite Hl; apply elem_of_app; by left).
      assert (c' = c) as -> by congruence. assert (NoDup ranges) as Hnd by (rewrite Hp1; apply NoDup_map_to_list).
      rewrite Hl in Hnd. apply NoDup_app in Hnd as (_ & Hnd & _). apply (Hnd (v, c)); [done|left]. }
    destruct (Hr0 v c Hin) as [Hpos Hbound]. cbn [fst snd] in Hpos, Hbound.
    unfold bindRange. apply gwp_bind, gwp_lookup. rewrite (Hf v Hnew). destruct (w_assignment w !! v) as [x|] eqn:Ex.
    - apply gwp_fail_if; [done|]. intros Hc%negb_false_iff%Bool.eqb_prop. split; [done|]. split.
      + intros u Hu. apply Hf. intros c' Hc'. apply (Hu c'), elem_of_app. by left.
      + intros u c' [Hu|[= -> ->]%list_elem_of_singleton]%elem_of_app; [auto|]. exists x. rewrite (Hf v Hnew). split; [done|].
        destruct (Hfrom v x Ex) as [H0|(off & Hoff & Hx)].
        * specialize (Hbound x H0). unfold ok. destruct c; by left.
        * unfold ok, recent. symmetry in Hc. destruct c.
          -- apply isInRange_spec in Hc; [|done]. unfold offset_holds in Hx. destruct (Z.eq_dec off 0) as [->|]; [by right|left; lia].
          -- left. intros Hr. assert (isInRange (if n >? 256 then n -u64 256 else 0) x n = true) as He by (apply isInRange_spec; [done|lia]).
             congruence.
    - apply gwp_bind. assert (w_assignment w' !! v = None) as Ex' by (by rewrite (Hf v Hnew)).
      eapply gwp_newNumber; [done|done| |done]. intros x r Hx Hok. apply gwp_assign. cbn [w_assignment]. split; [|split].
      + etransitivity; [done|]. by apply insert_subseteq.
      + intros u Hu. rewrite lookup_insert_ne; [apply Hf; intros c' Hc'; apply (Hu c'), elem_of_app; by left|].
        intros ->. apply (Hu c), elem_of_app. right. left.
      + intros u c' [Hu|[= -> ->]%list_elem_of_singleton]%elem_of_app.
        * destruct (Hd u c' Hu) as (y & Hy & Hok'). exists y. split; [|done]. rewrite lookup_insert_ne; [done|]. intros ->. congruence.
        * exists (NewU256 x). rewrite lookup_insert_eq. split; [done|]. unfold ok. destruct c; [by left|].
          destruct Hok; [by left|right]. split; [done|]. exact (lookup_weaken_None _ _ _ Ex Hsub0). }
  2: done.
  intros [] [r asg] (Hsub & Hf & Hd). apply HQ; [done| | |].
  - intros v Hv. apply Hf. intros c Hc%Hranges. congruence.
  - intros v Hv. apply (Hd v true). by apply Hranges.
  - intros v Hv. apply (Hd v false). by apply Hranges.
Qed.

(** The timestamp is one of the revision. *)
Definition timestamp_of (n t : Z) : Prop :=
  GetForkTime (GetRevisionForBlock n) <= t <= GetForkTime (GetRevisionForBlock n + 1).

Lemma GetForkTime_range rev : 0 <= GetForkTime rev <= 8000.
Proof. unfold GetForkTime. repeat case_if; lia. Qed.

Lemma GetRevisionForBlock_next n : 0 <= n ->
  GetForkTime (GetRevisionForBlock n) <= GetForkTime (GetRevisionForBlock n + 1).
Proof.
  intros Hn. unfold GetRevisionForBlock. cbn [seqZ]. change (seqZ MinRevision (NewestSupportedRevision + 2)) with [0;1;2;3;4;5;6;7;8].
  cbv beta iota. change (GetForkBlock 0) with 0. rewrite (proj2 (Z.ltb_ge _ _)) by lia.
  repeat (match goal with |- context [if ?b then _ else _] => destruct b end; [by vm_compute|]). by vm_compute.
Qed.

(** The generated context satisfies the constraints. *)
Lemma block_Generate_spec b (Q : st.BlockContext -> world R -> Prop) (E : GenErr -> Prop) w : wf b ->
  (forall c r asg, generated b (w_assignment w) asg (st.bc_BlockNumber c) -> isU64 (st.bc_GasLimit c) ->
    timestamp_of (st.bc_BlockNumber c) (st.bc_TimeStamp c) -> w_assignment w ⊆ asg ->
    (forall v, bcg_valueConstraint b !! v = None -> bcg_rangeConstraints b !! v = None -> asg !! v = w_assignment w !! v) ->
    Q c (mkWorld r asg)) ->
  E ErrUnsatisfiable ->
  gwp (Generate b) Q E w.
Proof.
  intros Hwf HQ HE. unfold Generate. apply gwp_if; intros Hok; [by apply gwp_fail|].
  apply gwp_bind, generateBlockNumber_spec; [done| |done]. intros n r Hn Hs Hv Hr.
  apply gwp_bind, bindValues_spec; [done|done|done| |done]. cbn [w_assignment]. intros r1 asg1 Hsub1 Hf1 Hv1.
  apply gwp_bind, (bindRanges_spec b n _ _ _ (w_assignment w)); [done|done| |done| |done]; cbn [w_assignment].
  { intros v x Hx. destruct (bcg_valueConstraint b !! v) as [off|] eqn:Eo; [right|left; by rewrite <-Hf1].
    destruct (Hv1 v off Eo) as (y & Hy & Hval). exists off. split; [done|]. congruence. }
  intros r2 asg2 Hsub2 Hf2 Ht Ho.
  repeat (apply gwp_bind; eapply gwp_draws; [first [apply draws_RandU256|apply draws_RandomAddress|apply draws_Uint64]|]; intros ? ? ?; cbn [w_assignment]).
  set (rev := GetRevisionForBlock n).
  pose proof (GetForkTime_range rev). pose proof (GetForkTime_range (rev + 1)). pose proof (GetRevisionForBlock_next n ltac:(tlia)) as Hle. fold rev in Hle.
  apply gwp_bind. rewrite u64_id by tlia. unfold gen_Uint64n. apply gwp_draw. intros rz. apply gwp_ret. cbn [w_assignment].
  match goal with |- context [Rand_Uint64n ?m ?r] => pose proof (Uint64n_rnd m r ltac:(tlia)) as Hd; set (d := fst (Rand_Uint64n m r)) in * end.
  clearbody d. apply HQ; cbn [st.bc_BlockNumber st.bc_GasLimit st.bc_TimeStamp].
  - split; [done|done|done| |done|done]. intros v off Hoff. destruct (Hv1 v off Hoff) as (x & Hx & Hval). exists x.
    split; [by eapply lookup_weaken|done].
  - done.
  - unfold timestamp_of. fold rev. rewrite u64_id by tlia. tlia.
  - by etransitivity.
  - intros v Hv2 Hr2. by rewrite Hf2, Hf1.
Qed.

Lemma block_generated_weaken b asg0 asg asg' n : asg ⊆ asg' -> generated b asg0 asg n -> generated b asg0 asg' n.
Proof.
  intros Hs []. split; auto; intros v.
  - intros off Hv. destruct (gd_value0 v off Hv) as (x & Hx & H). exists x. split; [by eapply lookup_weaken|done].
  - intros Hv. destruct (gd_recent0 v Hv) as (x & Hx & H). exists x. split; [by eapply lookup_weaken|done].
  - intros Hv. destruct (gd_other0 v Hv) as (x & Hx & H). exists x. split; [by eapply lookup_weaken|done].
Qed.

(** Without the exceptions the constraints are satisfied. *)
Lemma block_generated_sat b asg0 asg n : (forall v off, bcg_valueConstraint b !! v = Some off -> off <> - 2 ^ 63) ->
  (forall v, bcg_rangeConstraints b !! v = Some true -> bcg_valueConstraint b !! v <> Some 0) ->
  (forall v, bcg_rangeConstraints b !! v = Some false -> ~ 0 < n < 256) ->
  generated b asg0 asg n -> sat b asg n.
Proof.
  intros Hv Hr Ho []. split; auto.
  - intros v off Eo. destruct (gd_value0 v off Eo) as (x & Hx & [?|[Hm _]]); [eauto|]. by destruct (Hv v off Eo).
  - intros v [|] Ev.
    + destruct (gd_recent0 v Ev) as (x & Hx & [H|H]); [eauto|]. by destruct (Hr v Ev).
    + destruct (gd_other0 v Ev) as (x & Hx & [H|[H _]]); [eauto|]. by destruct (Ho v Ev).
Qed.

End Facts.

End BlockContextGenerator.

(** ** Transaction contexts *)

Record TransactionContextGenerator := mkTransactionContextGenerator {
  tcg_unsatisfiable : bool;
  tcg_blobHashVariables : gmap Var bool
}.

Module TransactionContextGenerator.

Definition New : TransactionContextGenerator := mkTransactionContextGenerator false ∅.

Definition markUnsatisfiable (t : TransactionContextGenerator) : TransactionContextGenerator :=
  mkTransactionContextGenerator true ∅.

Definition IsPresentBlobHashIndex (variable : Var) (t : TransactionContextGenerator) : TransactionContextGenerator :=
  if tcg_unsatisfiable t then t
  else match tcg_blobHashVariables t !! variable with
       | None => mkTransactionContextGenerator (tcg_unsatisfiable t) (<[variable := true]> (tcg_blobHashVariables t))
       | Some val => if negb val then markUnsatisfiable t else t
       end.

Definition IsAbsentBlobHashIndex (variable : Var) (t : TransactionContextGenerator) : TransactionContextGenerator :=
  if tcg_unsatisfiable t then t
  else match tcg_blobHashVariables t !! variable with
       | None => mkTransactionContextGenerator (tcg_unsatisfiable t) (<[variable := false]> (tcg_blobHashVariables t))
       | Some val => if val : bool then markUnsatisfiable t else t
       end.

Section Generate.
Context {U : Uint256} {R : Type} {RND : Rand R}.

(** The largest present and the smallest absent index. *)
Definition processBound (b : Z * Z) (con : Var * bool) : Gen R (Z * Z) :=
  let '(maxMustHaveBlobHash, minMustNotHaveBlobHash) := b in
  let '(variable, hasBlobHash) := con in
  assigned ← gen_lookup variable;
  match assigned with
  | Some assignedValue =>
      if hasBlobHash : bool then
        if negb (U256_IsUint64 assignedValue) then gen_fail ErrUnsatisfiable
        else if U256_Uint64 assignedValue >? maxMustHaveBlobHash
        then mret (U256_Uint64 assignedValue, minMustNotHaveBlobHash) else mret b
      else if U256_IsUint64 assignedValue && (U256_Uint64 assignedValue <? minMustNotHaveBlobHash)
      then mret (maxMustHaveBlobHash, U256_Uint64 assignedValue) else mret b
  | None => mret b
  end.

Definition bindIndex (blobHashesCount : Z) (_ : unit) (con : Var * bool) : Gen R unit :=
  let '(variable, hasBlobHash) := con in
  assigned ← gen_lookup variable;
  match assigned with
  | Some _ => mret tt
  | None =>
      let newValueRangeSolver := if negb hasBlobHash then NewRangeSolver blobHashesCount MaxUint64
                                 else NewRangeSolver 0 (blobHashesCount -u64 1) in
      newValue ← RangeSolver.Generate Uint64 newValueRangeSolver;
      gen_assign variable (NewU256 newValue)
  end.

Definition Generate (t : TransactionContextGenerator) : Gen R st.TransactionContext :=
  if tcg_unsatisfiable t then gen_fail ErrUnsatisfiable
  else
    variables ← gen_range (tcg_blobHashVariables t);
    '(maxMustHaveBlobHash, minMustNotHaveBlobHash) ← gen_for processBound variables (0, MaxUint64);
    if (maxMustHaveBlobHash >? minMustNotHaveBlobHash) || (maxMustHaveBlobHash =? MaxUint64)
    then gen_fail ErrUnsatisfiable
    else
      let blobHashesCount := if negb (minMustNotHaveBlobHash =? 0) then maxMustHaveBlobHash +u64 1 else maxMustHaveBlobHash in
      variables ← gen_range (tcg_blobHashVariables t);
      _ ← gen_for (bindIndex blobHashesCount) variables tt;
      blobHashes ← gen_repeat (Z.to_nat blobHashesCount) GetRandomHash;
      originAddress ← RandomAddress;
      mret (st.mkTransactionContext originAddress blobHashes).

End Generate.

Definition Clone (t : TransactionContextGenerator) : TransactionContextGenerator :=
  if tcg_unsatisfiable t then mkTransactionContextGenerator true ∅
  else mkTransactionContextGenerator false (tcg_blobHashVariables t).

Definition Restore (t o : TransactionContextGenerator) : TransactionContextGenerator :=
  mkTransactionContextGenerator (tcg_unsatisfiable o) (tcg_blobHashVariables o).

(** *** What the constraints mean *)

Record sat (t : TransactionContextGenerator) (asg : Assignment) (c : st.TransactionContext) : Prop := {
  sat_ok : tcg_unsatisfiable t = false;
  sat_present v : tcg_blobHashVariables t !! v = Some true ->
    exists x, asg !! v = Some x /\ uval x < zlen (st.tx_BlobHashes c);
  sat_absent v : tcg_blobHashVariables t !! v = Some false ->
    exists x, asg !! v = Some x /\ zlen (st.tx_BlobHashes c) <= uval x
}.

(** What the generator does not find out: a present and an absent index that
    are the same, or an absent index of zero and a present one. *)
Definition compatible (t : TransactionContextGenerator) (asg : Assignment) : Prop :=
  forall u v y, tcg_blobHashVariables t !! u = Some true -> tcg_blobHashVariables t !! v = Some false -> asg !! v = Some y ->
    uval y <> 0 /\ asg !! u <> Some y.

Section Facts.
Context {U : Uint256} {UL : Uint256Laws U} {R : Type} {RND : Rand R} {RL : RandLaws R RND}.

(** The bounds that the bound variables give. *)
Definition bounds_ok (asg : Assignment) (processed : list (Var * bool)) (b : Z * Z) : Prop :=
  isU64 (fst b) /\ isU64 (snd b)
  /\ (forall v x, (v, true) ∈ processed -> asg !! v = Some x -> uval x <= fst b)
  /\ (forall v y, (v, false) ∈ processed -> asg !! v = Some y -> snd b <= uval y)
  /\ (fst b = 0 \/ exists v x, (v, true) ∈ processed /\ asg !! v = Some x /\ uval x = fst b)
  /\ (snd b = MaxUint64 \/ exists v y, (v, false) ∈ processed /\ asg !! v = Some y /\ uval y = snd b).

Lemma processBound_spec b con processed (E : GenErr -> Prop) (w : world R) : bounds_ok (w_assignment w) processed b ->
  E ErrUnsatisfiable ->
  gwp (processBound b con) (fun b' w' => w' = w /\ bounds_ok (w_assignment w) (processed ++ [con]) b') E w.
Proof.
  destruct b as [hi lo], con as [v c]. intros (Hhi & Hlo & Hp & Ha & Hhi' & Hlo') HE. cbn [fst snd] in *.
  unfold processBound. apply gwp_bind, gwp_lookup.
  assert (forall hi' lo', isU64 hi' -> isU64 lo' -> hi <= hi' -> lo' <= lo ->
    (forall x, c = true -> w_assignment w !! v = Some x -> uval x <= hi') ->
    (forall y, c = false -> w_assignment w !! v = Some y -> lo' <= uval y) ->
    (hi' = hi \/ c = true /\ exists x, w_assignment w !! v = Some x /\ uval x = hi') ->
    (lo' = lo \/ c = false /\ exists y, w_assignment w !! v = Some y /\ uval y = lo') ->
    gwp (R := R) (mret (hi', lo')) (fun b' w' => w' = w /\ bounds_ok (w_assignment w) (processed ++ [(v, c)]) b') E w) as Hret.
  { intros hi' lo' Uh Ul Lh Ll Hc1 Hc2 Wh Wl. apply gwp_ret. split; [done|]. unfold bounds_ok. cbn [fst snd].
    assert (forall u d, (u, d) ∈ processed -> (u, d) ∈ processed ++ [(v, c)]) as Hin by (intros; apply elem_of_app; by left).
    assert ((v, c) ∈ processed ++ [(v, c)]) as Hlast by (apply elem_of_app; right; left).
    split; [done|]. split; [done|]. split; [|split; [|split]].
    - intros u x [Hu|[= -> <-]%list_elem_of_singleton]%elem_of_app Hx; [specialize (Hp u x Hu Hx); lia|auto].
    - intros u x [Hu|[= -> <-]%list_elem_of_singleton]%elem_of_app Hx; [specialize (Ha u x Hu Hx); lia|auto].
    - destruct Wh as [->|[-> (x & Hx & Hv)]]; [|right; eauto]. destruct Hhi' as [?|(u & x & Hu & Hx)]; [by left|right; eauto].
    - destruct Wl as [->|[-> (x & Hx & Hv)]]; [|right; eauto]. destruct Hlo' as [?|(u & x & Hu & Hx)]; [by left|right; eauto]. }
  destruct (w_assignment w !! v) as [x|] eqn:Ex; [|apply Hret; auto; done || lia].
  pose proof (uval_range x). unfold U256_IsUint64, U256_Uint64. destruct c.
  - apply gwp_if; intros Hu; [by apply gwp_fail|]. apply negb_false_iff in Hu. rewrite (Uint64_exact x Hu).
    rewrite IsUint64_law in Hu. apply Z.ltb_lt in Hu. rewrite Z.gtb_ltb. destruct (Z.ltb_spec hi (uval x)).
    + apply Hret; auto; try done; try zblia; [by intros ? _ [= <-]|]. right. eauto.
    + apply Hret; auto; try done; try lia. by intros ? _ [= <-].
  - destruct (Int_IsUint64 x) eqn:Eu; cbn [andb].
    + rewrite (Uint64_exact x Eu). rewrite IsUint64_law in Eu. apply Z.ltb_lt in Eu. destruct (Z.ltb_spec (uval x) lo).
      * apply Hret; auto; try done; try zblia; [by intros ? _ [= <-]|]. right. eauto.
      * apply Hret; auto; try done; try lia. by intros ? _ [= <-].
    + rewrite IsUint64_law in Eu. apply Z.ltb_ge in Eu. apply Hret; auto; try done; try lia. intros ? _ [= <-]. zblia.
Qed.

Lemma processBounds_loop l (E : GenErr -> Prop) (w : world R) : E ErrUnsatisfiable ->
  gwp (gen_for processBound l (0, MaxUint64)) (fun b w' => w' = w /\ bounds_ok (w_assignment w) l b) E w.
Proof.
  intros HE. apply (gwp_for processBound (fun done b w' => w' = w /\ bounds_ok (w_assignment w) done b)).
  - split; [done|]. split; [done|]. split; [done|]. cbn [fst snd]. repeat split; try (intros v x []%not_elem_of_nil); by left.
  - intros done con rest b w' _ [-> Hb]. by apply processBound_spec.
Qed.

(** New indices. *)
Lemma bindIndices_spec l count (E : GenErr -> Prop) (w : world R) : isU64 count ->
  (forall v, (v, true) ∈ l -> w_assignment w !! v = None -> 1 <= count) -> NoDup l.*1 ->
  E ErrUnsatisfiable ->
  gwp (gen_for (bindIndex count) l tt) (fun _ w' => w_assignment w ⊆ w_assignment w'
    /\ (forall v, v ∉ l.*1 -> w_assignment w' !! v = w_assignment w !! v)
    /\ forall v c, (v, c) ∈ l -> exists x, w_assignment w' !! v = Some x /\
         (w_assignment w !! v = None -> if c : bool then uval x < count else count <= uval x)) E w.
Proof.
  intros Hcount Hpos Hnd HE. eapply gwp_mono; [|intros ? w' H; exact H|done].
  apply (gwp_for (bindIndex count) (fun done _ w' => w_assignment w ⊆ w_assignment w'
    /\ (forall v, v ∉ done.*1 -> w_assignment w' !! v = w_assignment w !! v)
    /\ forall v c, (v, c) ∈ done -> exists x, w_assignment w' !! v = Some x /\
         (w_assignment w !! v = None -> if c : bool then uval x < count else count <= uval x))).
  { split; [done|]. split; [done|]. intros v c []%not_elem_of_nil. }
  intros done [v c] rest [] w' -> (Hsub & Hf & Hd). rewrite fmap_app in Hnd. cbn in Hnd.
  apply NoDup_app in Hnd as (_ & Hnd & _).
  assert (v ∉ done.*1) as Hnew by (intros Hv; apply (Hnd v Hv); left).
  assert (forall u, u ∉ (done ++ [(v, c)]).*1 -> u ∉ done.*1 /\ u <> v) as Hout.
  { intros u. rewrite fmap_app, not_elem_of_app. cbn. rewrite not_elem_of_cons. tauto. }
  unfold bindIndex. apply gwp_bind, gwp_lookup. rewrite (Hf v Hnew). destruct (w_assignment w !! v) as [x|] eqn:Ex.
  - apply gwp_ret. split; [done|]. split; [intros u [Hu _]%Hout; auto|].
    intros u d [Hu|[= -> ->]%list_elem_of_singleton]%elem_of_app; [auto|]. exists x. rewrite (Hf v Hnew). split; [done|congruence].
  - apply gwp_bind. set (s := if negb c then _ else _).
    assert (RangeSolver.wf Uint64 s /\ forall x, RangeSolver.admits s x -> isU64 x /\ if c then x < count else count <= x) as [Hs Hadm].
    { unfold s. destruct c; cbn [negb].
      - assert (1 <= count) by (apply (Hpos v); [apply elem_of_app; right; left|done]).
        rewrite u64_id by zblia. split; [split; cbn; zblia|]. unfold RangeSolver.admits. cbn. zblia.
      - split; [split; cbn; zblia|]. unfold RangeSolver.admits. cbn. zblia. }
    apply RangeSolver.range_Generate_spec; [done| |done]. intros x r Hx. destruct (Hadm x Hx) as [HU Hc]. apply gwp_assign. cbn [w_assignment].
    assert (w_assignment w' !! v = None) as Ex' by (by rewrite (Hf v Hnew)).
    split; [|split].
    + etransitivity; [done|]. by apply insert_subseteq.
    + intros u [Hu Hne]%Hout. rewrite lookup_insert_ne by done. auto.
    + intros u d [Hu|[= -> ->]%list_elem_of_singleton]%elem_of_app.
      * destruct (Hd u d Hu) as (y & Hy & Hok). exists y. split; [|done]. rewrite lookup_insert_ne; [done|]. intros ->. congruence.
      * exists (NewU256 x). rewrite lookup_insert_eq. split; [done|]. intros _. rewrite NewU256_uval by done. done.
Qed.

(** The number of hashes is above the present indices and not above the
    absent ones. *)
Lemma count_ok t asg l b : compatible t asg -> (forall v c, (v, c) ∈ l <-> tcg_blobHashVariables t !! v = Some c) ->
  bounds_ok asg l b -> (fst b >? snd b) || (fst b =? MaxUint64) = false ->
  let count := if negb (snd b =? 0) then fst b +u64 1 else fst b in
  isU64 count /\ count <= fst b + 1
  /\ (forall v x, (v, true) ∈ l -> asg !! v = Some x -> uval x < count)
  /\ (forall v x, (v, false) ∈ l -> asg !! v = Some x -> count <= uval x)
  /\ (forall v, (v, true) ∈ l -> asg !! v = None -> 1 <= count).
Proof.
  destruct b as [hi lo]. intros Hcomp Hl (Hhi & Hlo & Hp & Ha & Hhi' & Hlo') Hc. cbn [fst snd] in *. b2p.
  assert (forall v y, (v, false) ∈ l -> asg !! v = Some y -> uval y = lo -> forall u, (u, true) ∈ l ->
    match asg !! u with Some x => uval x <> lo | None => lo <> 0 end) as Hne.
  { intros v y Hv Hy <- u Hu. apply Hl in Hv, Hu. destruct (Hcomp u v y Hu Hv Hy) as [Hy0 Hxy]. destruct (asg !! u) as [x|]; [|done].
    intros He. apply Hxy. f_equal. by apply u256_eq. }
  destruct (Z.eqb_spec lo 0) as [->|Hz]; cbn [negb].
  - assert (hi = 0) as -> by zblia. destruct Hlo' as [?|(v & y & Hv & Hy & Hy0)]; [zblia|]. pose proof (Hne v y Hv Hy Hy0) as Hn.
    split; [done|]. split; [lia|]. split; [|split].
    + intros u x Hu Hx. specialize (Hn u Hu). rewrite Hx in Hn. specialize (Hp u x Hu Hx). pose proof (uval_range x). lia.
    + intros u x Hu Hx. pose proof (uval_range x). lia.
    + intros u Hu Hx. specialize (Hn u Hu). by rewrite Hx in Hn.
  - rewrite u64_id by zblia. split; [zblia|]. split; [lia|]. split; [|split].
    + intros u x Hu Hx. specialize (Hp u x Hu Hx). lia.
    + intros u x Hu Hx. specialize (Ha u x Hu Hx). destruct (Z.eq_dec hi lo) as [->|]; [|lia].
      destruct Hlo' as [?|(v & y & Hv & Hy & Hy0)]; [exfalso; zblia|].
      destruct Hhi' as [?|(v' & x' & Hv' & Hx' & He)]; [exfalso; zblia|].
      pose proof (Hne v y Hv Hy Hy0 v' Hv') as Hn. by rewrite Hx' in Hn.
    + intros u _ _. zblia.
Qed.

(** The generated context satisfies compatible constraints. *)
Lemma transaction_Generate_spec t (Q : st.TransactionContext -> world R -> Prop) (E : GenErr -> Prop) w :
  compatible t (w_assignment w) ->
  (forall c r asg, sat t asg c -> w_assignment w ⊆ asg ->
    (forall v, tcg_blobHashVariables t !! v = None -> asg !! v = w_assignment w !! v) -> Q c (mkWorld r asg)) ->
  E ErrUnsatisfiable ->
  gwp (Generate t) Q E w.
Proof.
  intros Hcomp HQ HE. unfold Generate. apply gwp_if; intros Hok; [by apply gwp_fail|].
  apply gwp_bind. eapply gwp_draws; [apply draws_range|]. intros l1 r1 Hp1. cbn beta in Hp1.
  assert (forall v c, (v, c) ∈ l1 <-> tcg_blobHashVariables t !! v = Some c) as Hl1
    by (intros v c; rewrite Hp1; apply elem_of_map_to_list).
  apply gwp_bind. eapply gwp_mono; [apply processBounds_loop; exact HE| |done].
  intros [hi lo] w1 [-> Hb]. apply gwp_if; intros Hc; [by apply gwp_fail|].
  destruct (count_ok t (w_assignment w) l1 (hi, lo) Hcomp Hl1 Hb Hc) as (HU & Hle & Hpres & Habs & Hpos).
  cbn [fst snd] in HU, Hle, Hpres, Habs, Hpos. set (count := if negb (lo =? 0) then _ else _) in *.
  clearbody count. apply gwp_bind. eapply gwp_draws; [apply draws_range|]. intros l2 r2 Hp2. cbn beta in Hp2. cbn [w_assignment].
  assert (forall v c, (v, c) ∈ l2 <-> (v, c) ∈ l1) as Hl2 by (intros v c; by rewrite Hp1, Hp2).
  apply gwp_bind. eapply gwp_mono; [apply bindIndices_spec; [done| | |exact HE]| |done].
  { intros v Hv. apply Hpos. by apply Hl2. }
  { rewrite Hp2. apply NoDup_fst_map_to_list. }
  intros [] [r3 asg3] (Hsub & Hf & Hd). cbn [w_assignment] in *.
  apply gwp_bind. eapply gwp_draws; [apply draws_repeat, draws_GetRandomHash|]. intros hashes r4 [Hlen _].
  apply gwp_bind. eapply gwp_draws; [apply draws_RandomAddress|]. intros origin r5 _. apply gwp_ret. cbn [w_assignment].
  assert (zlen hashes = count) as Hz by (unfold zlen; rewrite Hlen; zblia).
  apply HQ; cbn [st.tx_BlobHashes]; [split; [done| |]|done|].
  - intros v Hv. assert ((v, true) ∈ l1) as Hin by (by apply Hl1). destruct (Hd v true) as (x & Hx & Hnew); [by apply Hl2|].
    exists x. cbn [st.tx_BlobHashes]. rewrite Hz. split; [done|]. destruct (w_assignment w !! v) as [y|] eqn:Ey; [|auto].
    apply (Hpres v); [done|]. rewrite <-Hx. symmetry. by apply (lookup_weaken _ _ _ _ Ey) in Hsub as ->.
  - intros v Hv. assert ((v, false) ∈ l1) as Hin by (by apply Hl1). destruct (Hd v false) as (x & Hx & Hnew); [by apply Hl2|].
    exists x. cbn [st.tx_BlobHashes]. rewrite Hz. split; [done|]. destruct (w_assignment w !! v) as [y|] eqn:Ey; [|auto].
    apply (Habs v); [done|]. rewrite <-Hx. symmetry. by apply (lookup_weaken _ _ _ _ Ey) in Hsub as ->.
  - intros v Hv. apply Hf. intros Hin. apply list_elem_of_fmap in Hin as ([u c] & -> & Hu). apply Hl2, Hl1 in Hu. cbn in Hv. congruence.
Qed.

(** Whatever the constraints are, there is a context or an error. *)
Lemma bindIndex_safe t count con (asg0 : Assignment) (E : GenErr -> Prop) (w : world R) : isU64 count ->
  is_Some (tcg_blobHashVariables t !! fst con) -> E ErrUnsatisfiable ->
  asg0 ⊆ w_assignment w /\ (forall v, tcg_blobHashVariables t !! v = None -> w_assignment w !! v = asg0 !! v) ->
  gwp (bindIndex count tt con) (fun _ w' => asg0 ⊆ w_assignment w'
    /\ forall v, tcg_blobHashVariables t !! v = None -> w_assignment w' !! v = asg0 !! v) E w.
Proof.
  destruct con as [v c]. cbn [fst]. intros Hcount [d Hd] HE [Hs Hf]. unfold bindIndex. apply gwp_bind, gwp_lookup.
  destruct (w_assignment w !! v) as [x|] eqn:Ex; [by apply gwp_ret|]. apply gwp_bind. apply RangeSolver.range_Generate_spec; [|intros x r _|done].
  - destruct c; cbn [negb]; split; cbn [isT rs_min rs_max]; try done; apply u64_range.
  - apply gwp_assign. cbn [w_assignment]. split.
    + etransitivity; [done|]. by apply insert_subseteq.
    + intros u Hu. rewrite lookup_insert_ne; [auto|]. intros ->. congruence.
Qed.

Lemma transaction_Generate_safe t (Q : st.TransactionContext -> world R -> Prop) (E : GenErr -> Prop) w :
  (forall c r asg, w_assignment w ⊆ asg ->
    (forall v, tcg_blobHashVariables t !! v = None -> asg !! v = w_assignment w !! v) -> Q c (mkWorld r asg)) ->
  E ErrUnsatisfiable ->
  gwp (Generate t) Q E w.
Proof.
  intros HQ HE. unfold Generate. apply gwp_if; intros _; [by apply gwp_fail|].
  apply gwp_bind. eapply gwp_draws; [apply draws_range|]. intros l1 r1 Hp1. cbn beta in Hp1.
  assert (forall v c, (v, c) ∈ l1 <-> tcg_blobHashVariables t !! v = Some c) as Hl1
    by (intros v c; rewrite Hp1; apply elem_of_map_to_list).
  apply gwp_bind. eapply gwp_mono; [apply processBounds_loop; exact HE| |done].
  intros [hi lo] w1 [-> Hb]. apply gwp_if; intros Hc; [by apply gwp_fail|].
  assert (0 <= hi < MaxUint64) as Hhi by (destruct Hb as (Hh & _); cbn [fst] in Hh; b2p; zblia).
  set (count := if negb (lo =? 0) then _ else _).
  assert (0 <= count <= hi + 1) as Hcount by (unfold count; destruct (negb (lo =? 0)); [rewrite u64_id by zblia|]; lia).
  clearbody count. apply gwp_bind. eapply gwp_draws; [apply draws_range|]. intros l2 r2 Hp2. cbn beta in Hp2. cbn [w_assignment].
  apply gwp_bind. eapply gwp_mono.
  { apply (gwp_for_inv (bindIndex count) (fun _ w' => w_assignment w ⊆ w_assignment w'
      /\ forall v, tcg_blobHashVariables t !! v = None -> w_assignment w' !! v = w_assignment w !! v)); [done|].
    intros [v c] [] w' Hin HI. apply (bindIndex_safe t); [zblia| |done|done].
    rewrite Hp2 in Hin. apply elem_of_map_to_list in Hin. cbn. by rewrite Hin. }
  2: done.
  intros [] [r3 asg3] [Hs Hf]. cbn [w_assignment] in *.
  apply gwp_bind. eapply gwp_draws; [apply draws_repeat, draws_GetRandomHash|]. intros hashes r4 [Hlen _].
  apply gwp_bind. eapply gwp_draws; [apply draws_RandomAddress|]. intros origin r5 _. apply gwp_ret. cbn [w_assignment].
  by apply HQ.
Qed.

Lemma transaction_sat_weaken t asg asg' c : asg ⊆ asg' -> sat t asg c -> sat t asg' c.
Proof.
  intros Hs [H0 H1 H2]. split; [done| |]; intros v Hv; [destruct (H1 v Hv) as (x & Hx & H)|destruct (H2 v Hv) as (x & Hx & H)];
    exists x; (split; [by eapply lookup_weaken|done]).
Qed.

Lemma transaction_compatible_weaken t asg asg' : asg ⊆ asg' -> compatible t asg' -> compatible t asg.
Proof.
  intros Hs H u v y Hu Hv Hy. destruct (H u v y Hu Hv) as [H0 H1]; [by eapply lookup_weaken|]. split; [done|].
  intros Hx. apply H1. by eapply lookup_weaken.
Qed.

End Facts.

End TransactionContextGenerator.
