(* ===== verification/CtGenAccounts.v ===== *)
(** * The generator of accounts

    [go/ct/gen/accounts.go]: accounts that are empty or not, warm or cold, with
    a balance in some range, and with or without a delegation designator. *)
From Stdlib Require Import ZArith Lia Strings.Byte.
From stdpp Require Import base list numbers gmap strings sorting.
From S2P Require Import Prelude Uint256 Types CtCommon CtState CtStateFacts CtRules CtConformArith CtRand CtGenStorage.
Set Default Goal Selector "!".
Local Open Scope Z_scope.
Local Open Scope go_scope.

#[global] Instance AccessStatus_eqdec : EqDecision AccessStatus.
Proof. solve_decision. Defined.

(** ** Constraints *)

Record emptyConstraint := mkEmpty { ec_address : Var; ec_empty : bool }.
Record balanceConstraint := mkBalance { bal_address : Var; bal_value : U256 }.
Record delegationDesignatorConstraint := mkDelegation {
  dd_address : Var;
  dd_isDelegated : bool;
  dd_delegateAccountStatus : AccessStatus
}.

#[global] Instance emptyConstraint_eqdec : EqDecision emptyConstraint.
Proof. solve_decision. Defined.

#[global] Instance balanceConstraint_eqdec : EqDecision balanceConstraint.
Proof. solve_decision. Defined.

#[global] Instance delegationDesignatorConstraint_eqdec : EqDecision delegationDesignatorConstraint.
Proof. solve_decision. Defined.

Definition empty_Less (a b : emptyConstraint) : bool :=
  if negb (bool_decide (ec_address a = ec_address b)) then String.ltb (ec_address a) (ec_address b)
  else negb (Bool.eqb (ec_empty a) (ec_empty b)) && ec_empty a.

(** [!a && b] of an access status, which is a boolean. *)
Definition AccessStatus_less (a b : AccessStatus) : bool :=
  match a, b with ColdAccess, WarmAccess => true | _, _ => false end.

Definition delegation_Less (a b : delegationDesignatorConstraint) : bool :=
  if negb (bool_decide (dd_address a = dd_address b)) then String.ltb (dd_address a) (dd_address b)
  else if negb (Bool.eqb (dd_isDelegated a) (dd_isDelegated b)) then negb (dd_isDelegated a) && dd_isDelegated b
  else AccessStatus_less (dd_delegateAccountStatus a) (dd_delegateAccountStatus b).

Record AccountsGenerator := mkAccountsGenerator {
  ag_emptyAccounts : list emptyConstraint;
  ag_minBalance : list balanceConstraint;
  ag_maxBalance : list balanceConstraint;
  ag_warmCold : list warmColdConstraint;
  ag_delegationDesignator : list delegationDesignatorConstraint
}.

(** The builder of [go/ct/st/accounts.go] has accounts as its only field. *)
Definition AccountsBuilder_SetBalance (addr : Address) (value : U256) (ab : st.Accounts) : st.Accounts :=
  st.Accounts_modifyAccount ab addr (fun account => st.mkAccount value (st.acc_Code account)).

Definition AccountsBuilder_SetCode (addr : Address) (code : Bytes) (ab : st.Accounts) : st.Accounts :=
  st.Accounts_modifyAccount ab addr (fun account => st.mkAccount (st.acc_Balance account) code).

Definition AccountsBuilder_SetWarm (addr : Address) (ab : st.Accounts) : st.Accounts := st.Accounts_MarkWarm ab addr.

Definition AccountsBuilder_Exists (ab : st.Accounts) (addr : Address) : bool := st.Accounts_Exists ab addr.

Module AccountsGenerator.

Definition New : AccountsGenerator := mkAccountsGenerator [] [] [] [] [].

Definition BindEmptiness (address : Var) (empty : bool) (g : AccountsGenerator) : AccountsGenerator :=
  mkAccountsGenerator (add_once (mkEmpty address empty) (ag_emptyAccounts g)) (ag_minBalance g) (ag_maxBalance g)
    (ag_warmCold g) (ag_delegationDesignator g).

Definition BindToAddressOfEmptyAccount (address : Var) : AccountsGenerator -> AccountsGenerator := BindEmptiness address true.
Definition BindToAddressOfNonEmptyAccount (address : Var) : AccountsGenerator -> AccountsGenerator := BindEmptiness address false.

Definition AddBalanceLowerBound (address : Var) (value : U256) (g : AccountsGenerator) : AccountsGenerator :=
  mkAccountsGenerator (ag_emptyAccounts g) (add_once (mkBalance address value) (ag_minBalance g)) (ag_maxBalance g)
    (ag_warmCold g) (ag_delegationDesignator g).

Definition AddBalanceUpperBound (address : Var) (value : U256) (g : AccountsGenerator) : AccountsGenerator :=
  mkAccountsGenerator (ag_emptyAccounts g) (ag_minBalance g) (add_once (mkBalance address value) (ag_maxBalance g))
    (ag_warmCold g) (ag_delegationDesignator g).

Definition BindTemperature (address : Var) (warm : bool) (g : AccountsGenerator) : AccountsGenerator :=
  mkAccountsGenerator (ag_emptyAccounts g) (ag_minBalance g) (ag_maxBalance g)
    (add_once (mkWarmCold address warm) (ag_warmCold g)) (ag_delegationDesignator g).

Definition BindWarm (address : Var) : AccountsGenerator -> AccountsGenerator := BindTemperature address true.
Definition BindCold (address : Var) : AccountsGenerator -> AccountsGenerator := BindTemperature address false.

Definition BindDelegation (v : delegationDesignatorConstraint) (g : AccountsGenerator) : AccountsGenerator :=
  mkAccountsGenerator (ag_emptyAccounts g) (ag_minBalance g) (ag_maxBalance g) (ag_warmCold g)
    (add_once v (ag_delegationDesignator g)).

Definition BindToAddressOfDelegatingAccount (address : Var) (delegateAccountStatus : AccessStatus)
    : AccountsGenerator -> AccountsGenerator := BindDelegation (mkDelegation address true delegateAccountStatus).
Definition BindToAddressOfNotDelegatingAccount (address : Var) : AccountsGenerator -> AccountsGenerator :=
  BindDelegation (mkDelegation address false ColdAccess).

Definition Clone (g : AccountsGenerator) : AccountsGenerator := g.
Definition Restore (g other : AccountsGenerator) : AccountsGenerator := other.

(** One variable, or two with one value. *)
Definition areVariablesClashing (asg : Assignment) (a b : Var) : bool :=
  if bool_decide (a = b) then true
  else match asg !! a, asg !! b with
       | Some aValue, Some bValue => bool_decide (aValue = bValue)
       | _, _ => false
       end.

Definition empty_conflict (asg : Assignment) (a b : emptyConstraint) : bool :=
  areVariablesClashing asg (ec_address a) (ec_address b) && negb (Bool.eqb (ec_empty a) (ec_empty b)).

Definition delegation_conflict (asg : Assignment) (a b : delegationDesignatorConstraint) : bool :=
  areVariablesClashing asg (dd_address a) (dd_address b)
  && (negb (Bool.eqb (dd_isDelegated a) (dd_isDelegated b))
      || negb (bool_decide (dd_delegateAccountStatus a = dd_delegateAccountStatus b))).

Definition delegation_empty (asg : Assignment) (emptyAccounts : list emptyConstraint) (d : delegationDesignatorConstraint) : bool :=
  existsb (fun c => areVariablesClashing asg (ec_address c) (dd_address d) && ec_empty c) emptyAccounts.

Definition warmCold_conflict (asg : Assignment) (a b : warmColdConstraint) : bool :=
  areVariablesClashing asg (wc_key a) (wc_key b) && negb (Bool.eqb (wc_warm a) (wc_warm b)).

Section Generate.
Context {U : Uint256} {R : Type} {RND : Rand R}.

Definition getUnusedAddress (addressesInUse : gset Address) : Gen R (Address * gset Address) :=
  address ← gen_until RandomAddress (elements addressesInUse);
  mret (address, {[ address ]} ∪ addressesInUse).

Definition getBoundOrBindNewAddress (addressesInUse : gset Address) (v : Var) : Gen R (Address * gset Address) :=
  value ← gen_lookup v;
  match value with
  | Some value => mret (NewAddress value, addressesInUse)
  | None =>
      '(address, addressesInUse) ← getUnusedAddress addressesInUse;
      value ← gen_lift (AddressToU256 address);
      _ ← gen_assign v value;
      mret (address, addressesInUse)
  end.

(** The addresses in use, the empty and the other accounts. *)
Definition processEmpty (b : gset Address * gset Address * gset Address) (con : emptyConstraint)
    : Gen R (gset Address * gset Address * gset Address) :=
  let '(addressesInUse, emptyAccounts, nonEmptyAccounts) := b in
  '(address, addressesInUse) ← getBoundOrBindNewAddress addressesInUse (ec_address con);
  if ec_empty con then
    if bool_decide (address ∈ nonEmptyAccounts) then gen_fail ErrUnsatisfiable
    else mret (addressesInUse, {[ address ]} ∪ emptyAccounts, nonEmptyAccounts)
  else
    if bool_decide (address ∈ emptyAccounts) then gen_fail ErrUnsatisfiable
    else mret (addressesInUse, emptyAccounts, {[ address ]} ∪ nonEmptyAccounts).

(** [for address := range set]: a set is a map to empty structures. *)
Definition gen_range_set (s : gset Address) : Gen R (list Address) := gen_draw (Map_order (elements s)).

Definition makeEmpty (ab : st.Accounts) (address : Address) : Gen R st.Accounts :=
  mret (AccountsBuilder_SetCode address [] (AccountsBuilder_SetBalance address (NewU256 0) ab)).

Definition makeNonEmpty (ab : st.Accounts) (address : Address) : Gen R st.Accounts :=
  n ← gen_globalIntn 3;
  mret (if n =? 0 then AccountsBuilder_SetBalance address (NewU256 1) ab
        else if n =? 1 then AccountsBuilder_SetCode address [x01] ab
        else if n =? 2 then AccountsBuilder_SetCode address [x01] (AccountsBuilder_SetBalance address (NewU256 1) ab)
        else ab).

Definition processWarmCold (b : gset Address * st.Accounts) (con : warmColdConstraint) : Gen R (gset Address * st.Accounts) :=
  let '(addressesInUse, ab) := b in
  '(address, addressesInUse) ← getBoundOrBindNewAddress addressesInUse (wc_key con);
  mret (addressesInUse, if wc_warm con then AccountsBuilder_SetWarm address ab else ab).

Definition collectLower (b : gset Address * gmap Address U256) (con : balanceConstraint) : Gen R (gset Address * gmap Address U256) :=
  let '(addressesInUse, lowerBounds) := b in
  '(address, addressesInUse) ← getBoundOrBindNewAddress addressesInUse (bal_address con);
  let current := default (NewU256 0) (lowerBounds !! address) in
  mret (addressesInUse, if U256_Lt current (bal_value con) then <[address := bal_value con]> lowerBounds else lowerBounds).

Definition collectUpper (b : gset Address * gmap Address U256) (con : balanceConstraint) : Gen R (gset Address * gmap Address U256) :=
  let '(addressesInUse, upperBounds) := b in
  '(address, addressesInUse) ← getBoundOrBindNewAddress addressesInUse (bal_address con);
  mret (addressesInUse,
    match upperBounds !! address with
    | Some current => if U256_Gt current (bal_value con) then <[address := bal_value con]> upperBounds else upperBounds
    | None => <[address := bal_value con]> upperBounds
    end).

Definition setBalance (lowerBounds upperBounds : gmap Address U256) (ab : st.Accounts) (address : Address) : Gen R st.Accounts :=
  let lower := default (NewU256 0) (lowerBounds !! address) in
  let upper := default MaxU256 (upperBounds !! address) in
  if U256_Gt lower upper then gen_fail ErrUnsatisfiable
  else
    value ← RandU256Between lower upper;
    mret (AccountsBuilder_SetBalance address value ab).

Definition processBalanceConstraints (g : AccountsGenerator) (addressesInUse mustBeEmptyAccounts : gset Address)
    (result : st.Accounts) : Gen R (gset Address * st.Accounts) :=
  '(addressesInUse, lowerBounds) ← gen_for collectLower (ag_minBalance g) (addressesInUse, ∅);
  '(addressesInUse, upperBounds) ← gen_for collectUpper (ag_maxBalance g) (addressesInUse, ∅);
  empty ← gen_range_set mustBeEmptyAccounts;
  let upperBounds := fold_left (fun upperBounds address => <[address := NewU256 0]> upperBounds) empty upperBounds in
  lowerKeys ← gen_range lowerBounds;
  upperKeys ← gen_range upperBounds;
  let accounts := map fst lowerKeys
    ++ filter (fun address => lowerBounds !! address = None) (map fst upperKeys) in
  result ← gen_for (setBalance lowerBounds upperBounds) accounts result;
  mret (addressesInUse, result).

Definition processDelegation (b : gset Address * st.Accounts) (con : delegationDesignatorConstraint) : Gen R (gset Address * st.Accounts) :=
  let '(addressesInUse, ab) := b in
  '(calleeAddress, addressesInUse) ← getBoundOrBindNewAddress addressesInUse (dd_address con);
  if dd_isDelegated con then
    '(addr, addressesInUse) ← getUnusedAddress addressesInUse;
    let ab := AccountsBuilder_SetCode calleeAddress (NewDelegationDesignator addr) ab in
    mret (addressesInUse,
      if bool_decide (dd_delegateAccountStatus con = WarmAccess) then AccountsBuilder_SetWarm addr ab else ab)
  else mret (addressesInUse, AccountsBuilder_SetCode calleeAddress [xab; xcd] ab).

Definition randomAccount (b : gset Address * st.Accounts) (_ : nat) : Gen R (gset Address * st.Accounts) :=
  let '(addressesInUse, ab) := b in
  '(address, addressesInUse) ← getUnusedAddress addressesInUse;
  balance ← RandU256;
  let ab := AccountsBuilder_SetBalance address balance ab in
  hasCode ← gen_Intn 2;
  ab ← (if hasCode =? 1 then code ← RandomBytesOfSize 42; mret (AccountsBuilder_SetCode address code ab) else mret ab);
  isWarm ← gen_Intn 2;
  mret (addressesInUse, if isWarm =? 1 then AccountsBuilder_SetWarm address ab else ab).

(** The slices of the generator are sorted in place; the order of constraints
    has no further meaning. *)
Definition Generate (g : AccountsGenerator) (accountAddress : Address) : Gen R st.Accounts :=
  asg ← (fun w => gOk (w_assignment w) w);
  let emptyCons := sort_by empty_Less (ag_emptyAccounts g) in
  _ ← gen_fail_if (has_adjacent (empty_conflict asg) emptyCons) ErrUnsatisfiable;
  let delegations := sort_by delegation_Less (ag_delegationDesignator g) in
  _ ← gen_fail_if (has_adjacent (delegation_conflict asg) delegations) ErrUnsatisfiable;
  _ ← gen_fail_if (existsb (delegation_empty asg emptyCons) delegations) ErrUnsatisfiable;
  let warmCold := sort_by warmCold_Less (ag_warmCold g) in
  _ ← gen_fail_if (has_adjacent (warmCold_conflict asg) warmCold) ErrUnsatisfiable;
  let addressesInUse := {[ accountAddress ]} ∪ list_to_set (omap (fun con => NewAddress <$> asg !! wc_key con) warmCold) in
  '(addressesInUse, emptyAccounts, nonEmptyAccounts) ← gen_for processEmpty emptyCons (addressesInUse, ∅, ∅);
  l ← gen_range_set emptyAccounts;
  ab ← gen_for makeEmpty l st.NewAccounts;
  l ← gen_range_set nonEmptyAccounts;
  ab ← gen_for makeNonEmpty l ab;
  b ← gen_for processWarmCold warmCold (addressesInUse, ab);
  b ← processBalanceConstraints g (fst b) emptyAccounts (snd b);
  b ← gen_for processDelegation delegations b;
  max ← gen_Intn 5;
  '(_, ab) ← gen_for randomAccount (seq 0 (Z.to_nat max)) b;
  ab ← (if negb (AccountsBuilder_Exists ab accountAddress)
        then balance ← RandU256; mret (AccountsBuilder_SetBalance accountAddress balance ab) else mret ab);
  code ← RandomBytesOfSize 42;
  mret (AccountsBuilder_SetCode accountAddress code ab).

End Generate.

(** *** What the constraints mean *)

Section Meaning.
Context {U : Uint256}.

Definition address_of (asg : Assignment) (v : Var) : option Address := NewAddress <$> asg !! v.

Definition variables (g : AccountsGenerator) : list Var :=
  map ec_address (ag_emptyAccounts g) ++ map bal_address (ag_minBalance g) ++ map bal_address (ag_maxBalance g)
  ++ map wc_key (ag_warmCold g) ++ map dd_address (ag_delegationDesignator g).

(** The addresses that the generator takes note of at the start: of the
    executing account and of variables to be warm or cold. *)
Definition noted (g : AccountsGenerator) (self : Address) (asg : Assignment) : gset Address :=
  {[ self ]} ∪ list_to_set (omap (fun con => address_of asg (wc_key con)) (ag_warmCold g)).

(** The other addresses that are given through variables. *)
Definition given (g : AccountsGenerator) (self : Address) (asg : Assignment) : gset Address :=
  list_to_set (omap (address_of asg) (variables g)) ∖ noted g self asg.

Definition delegation_ok (ab : st.Accounts) (c : delegationDesignatorConstraint) (code : Bytes) : Prop :=
  if dd_isDelegated c
  then exists d, ParseDelegationDesignator code = (d, true)
         /\ st.Accounts_IsWarm ab d = bool_decide (dd_delegateAccountStatus c = WarmAccess)
  else snd (ParseDelegationDesignator code) = false.

Record sat (g : AccountsGenerator) (asg : Assignment) (ab : st.Accounts) : Prop := {
  sat_empty c : c ∈ ag_emptyAccounts g -> exists a, address_of asg (ec_address c) = Some a
    /\ st.Accounts_IsEmpty ab a = ec_empty c;
  sat_min c : c ∈ ag_minBalance g -> exists a, address_of asg (bal_address c) = Some a
    /\ uval (bal_value c) <= uval (st.Accounts_GetBalance ab a);
  sat_max c : c ∈ ag_maxBalance g -> exists a, address_of asg (bal_address c) = Some a
    /\ uval (st.Accounts_GetBalance ab a) <= uval (bal_value c);
  sat_warm c : c ∈ ag_warmCold g -> exists a, address_of asg (wc_key c) = Some a /\ st.Accounts_IsWarm ab a = wc_warm c;
  sat_delegation c : c ∈ ag_delegationDesignator g -> exists a, address_of asg (dd_address c) = Some a
    /\ delegation_ok ab c (st.Accounts_GetCode ab a)
}.

(** Different variables with the same address. *)
Definition shared (asg : Assignment) (u v : Var) : Prop :=
  u <> v /\ exists a, address_of asg u = Some a /\ address_of asg v = Some a.

(** What the checks of the generator do not find out: constraints on one
    address through different variables, balances of accounts that must not
    be empty, and constraints on the executing account, which gets some code. *)
Record compatible (g : AccountsGenerator) (self : Address) (asg : Assignment) : Prop := {
  compat_warm a b : a ∈ ag_warmCold g -> b ∈ ag_warmCold g -> shared asg (wc_key a) (wc_key b) -> wc_warm a = wc_warm b;
  compat_delegation a b : a ∈ ag_delegationDesignator g -> b ∈ ag_delegationDesignator g ->
    shared asg (dd_address a) (dd_address b) ->
    (dd_isDelegated a, dd_delegateAccountStatus a) = (dd_isDelegated b, dd_delegateAccountStatus b);
  compat_empty a b : a ∈ ag_emptyAccounts g -> ec_empty a = true -> b ∈ ag_delegationDesignator g ->
    ~ shared asg (ec_address a) (dd_address b);
  compat_nonempty a b : a ∈ ag_emptyAccounts g -> ec_empty a = false -> b ∈ ag_minBalance g ++ ag_maxBalance g ->
    ec_address a <> bal_address b /\ ~ shared asg (ec_address a) (bal_address b);
  compat_self v : v ∈ map ec_address (filter (fun c => ec_empty c = true) (ag_emptyAccounts g))
    ++ map dd_address (ag_delegationDesignator g) -> address_of asg v <> Some self
}.

Record wf (g : AccountsGenerator) : Prop := {
  wf_empty : zlen (ag_emptyAccounts g) < 2 ^ 16;
  wf_min : zlen (ag_minBalance g) < 2 ^ 16;
  wf_max : zlen (ag_maxBalance g) < 2 ^ 16;
  wf_warm : zlen (ag_warmCold g) < 2 ^ 16;
  wf_delegation : zlen (ag_delegationDesignator g) < 2 ^ 16
}.

End Meaning.

(** *** The checks *)

Section Checks.

Lemma String_le_refl x : String.le x x.
Proof. unfold String.le. destruct (String.leb_total x x) as [->| ->]; done. Qed.

Lemma String_ltb_ge x y : String.ltb y x = false -> String.le x y.
Proof.
  unfold String.le, String.ltb, String.leb. rewrite String.compare_antisym. by destruct (String.compare x y).
Qed.

Lemma String_ltb_asym x y : String.ltb x y = true -> String.ltb y x = false.
Proof. unfold String.ltb. rewrite (String.compare_antisym y). by destruct (String.compare x y). Qed.

Lemma areVariablesClashing_refl asg v : areVariablesClashing asg v v = true.
Proof. unfold areVariablesClashing. by rewrite bool_decide_eq_true_2. Qed.

Lemma delegation_checked asg l a b : has_adjacent (delegation_conflict asg) (sort_by delegation_Less l) = false ->
  a ∈ l -> b ∈ l -> dd_address a = dd_address b ->
  (dd_isDelegated a, dd_delegateAccountStatus a) = (dd_isDelegated b, dd_delegateAccountStatus b).
Proof.
  intros Hn Ha Hb. rewrite <-elem_of_sort_by with (less := delegation_Less) in Ha.
  rewrite <-elem_of_sort_by with (less := delegation_Less) in Hb. revert Ha Hb.
  apply (no_adjacent dd_address (fun c => (dd_isDelegated c, dd_delegateAccountStatus c)) (delegation_conflict asg));
    [|intros x y Hk Hc|done].
  - apply sort_by_sorted; [intros x y z; apply transitivity| |]; intros x y; unfold delegation_Less.
    + destruct (bool_decide_reflect (dd_address x = dd_address y)) as [He|He]; cbn [negb].
      * rewrite (bool_decide_eq_true_2 (dd_address y = dd_address x)) by done. cbn [negb].
        by destruct (dd_isDelegated x), (dd_isDelegated y), (dd_delegateAccountStatus x), (dd_delegateAccountStatus y).
      * rewrite (bool_decide_eq_false_2 (dd_address y = dd_address x)) by done. apply String_ltb_asym.
    + destruct (bool_decide_reflect (dd_address y = dd_address x)) as [->|He]; cbn [negb]; [|apply String_ltb_ge].
      intros _. apply String_le_refl.
  - unfold delegation_conflict in Hc. rewrite Hk, areVariablesClashing_refl in Hc. cbn [andb] in Hc.
    apply orb_false_iff in Hc as [H1%negb_false_iff%Bool.eqb_prop H2%negb_false_iff%bool_decide_eq_true]. congruence.
Qed.

Lemma warmCold_checked asg l a b : has_adjacent (warmCold_conflict asg) (sort_by warmCold_Less l) = false ->
  a ∈ l -> b ∈ l -> wc_key a = wc_key b -> wc_warm a = wc_warm b.
Proof.
  intros Hn Ha Hb. rewrite <-elem_of_sort_by with (less := warmCold_Less) in Ha.
  rewrite <-elem_of_sort_by with (less := warmCold_Less) in Hb. revert Ha Hb.
  apply (no_adjacent wc_key wc_warm (warmCold_conflict asg)); [|intros x y Hk Hc|done].
  - apply sort_by_sorted; [intros x y z; apply transitivity|apply StorageGenerator.warmCold_Less_asym|apply StorageGenerator.warmCold_Less_le].
  - unfold warmCold_conflict in Hc. rewrite Hk, areVariablesClashing_refl in Hc. by apply negb_false_iff, Bool.eqb_prop in Hc.
Qed.

Lemma delegation_empty_checked asg es ds c d : existsb (delegation_empty asg es) ds = false ->
  c ∈ es -> d ∈ ds -> ec_empty c = true -> ec_address c <> dd_address d.
Proof.
  intros Hn Hc Hd He Heq. apply Bool.not_true_iff_false in Hn. apply Hn. apply existsb_exists. exists d.
  split; [by apply list_elem_of_In|]. apply existsb_exists. exists c. split; [by apply list_elem_of_In|].
  by rewrite Heq, areVariablesClashing_refl, He.
Qed.

End Checks.

(** *** Addresses *)

Section Facts.
Context {U : Uint256} {UL : Uint256Laws U} {R : Type} {RND : Rand R} {RL : RandLaws R RND}.
Context (g : AccountsGenerator) (self : Address) (asg0 : Assignment).

(** The addresses that are drawn are not among the given ones, for which the
    generator does not check. *)
Context (Hdraw : draws (R := R) RandomAddress (fun a => a ∉ given g self asg0)).

Lemma NewAddress_AddressToU256 a : exists x, AddressToU256 a = Some x /\ NewAddress x = a.
Proof.
  exists (Int_SetBytes20 (arr_bytes a)). split; [apply FromBytes_20|]. unfold NewAddress, U256_Bytes20be.
  apply array_eq, be_val_inj; [by rewrite !array_length|]. rewrite Bytes20_law, SetBytes20_law by apply zlen_arr.
  pose proof (be_val_range (arr_bytes a)) as H. rewrite zlen_arr in H. by apply Z.mod_small.
Qed.

(** The addresses that are known. *)
Definition known (used : gset Address) : gset Address := used ∪ given g self asg0.

Record alloc (n : Z) (used : gset Address) (asg : Assignment) : Prop := {
  al_sub : asg0 ⊆ asg;
  al_frame v : v ∉ variables g -> asg !! v = asg0 !! v;
  al_size : Z.of_nat (size used) <= n;
  al_noted : noted g self asg0 ⊆ used;
  al_in v a : v ∈ variables g -> address_of asg v = Some a -> a ∈ known used;
  al_new u v a : u ∈ variables g -> v ∈ variables g -> u <> v -> address_of asg u = Some a -> address_of asg v = Some a ->
    shared asg0 u v;
  al_fresh v a : v ∈ variables g -> asg0 !! v = None -> address_of asg v = Some a -> a <> self
}.

Lemma address_of_weaken asg asg' v a : asg ⊆ asg' -> address_of asg v = Some a -> address_of asg' v = Some a.
Proof.
  unfold address_of. intros Hs H. apply fmap_Some in H as (x & Hx & ->). by rewrite (lookup_weaken _ _ _ _ Hx Hs).
Qed.

Lemma given_in used asg v a : noted g self asg ⊆ used -> v ∈ variables g -> address_of asg v = Some a -> a ∈ used ∪ given g self asg.
Proof.
  intros Hn Hv Ha. destruct (decide (a ∈ noted g self asg)) as [Hin|Hin]; [apply elem_of_union_l; auto|].
  apply elem_of_union_r, elem_of_difference. split; [|done]. apply elem_of_list_to_set, list_elem_of_omap. eauto.
Qed.

Lemma gwp_getUnusedAddress n used asg (Q : Address * gset Address -> world R -> Prop) E w : alloc n used asg -> n < 2 ^ 20 ->
  (forall a r, a ∉ known used -> alloc (n + 1) ({[ a ]} ∪ used) asg -> Q (a, {[ a ]} ∪ used) (mkWorld r (w_assignment w))) ->
  gwp (getUnusedAddress used) Q E w.
Proof.
  intros Hal Hn HQ. pose proof Hal as []. unfold getUnusedAddress. apply gwp_bind. eapply gwp_draws.
  - apply draws_until; [exact Hdraw|apply RandomAddress_escapes|].
    unfold zlen. change (length (elements used)) with (size used). lia.
  - intros a r [Ha Hu]. rewrite elem_of_elements in Hu. apply gwp_ret, HQ; [unfold known; set_solver|].
    split; auto.
    + rewrite size_union, size_singleton by set_solver. lia.
    + set_solver.
    + intros v b Hv Hb. specialize (al_in0 v b Hv Hb). unfold known in *. set_solver.
Qed.

Lemma gwp_bindAddress n used v (Q : Address * gset Address -> world R -> Prop) E w : alloc n used (w_assignment w) ->
  v ∈ variables g -> n < 2 ^ 20 ->
  (forall a used' r asg, alloc (n + 1) used' asg -> used ⊆ used' -> w_assignment w ⊆ asg -> address_of asg v = Some a ->
    a ∈ known used' -> Q (a, used') (mkWorld r asg)) ->
  gwp (getBoundOrBindNewAddress used v) Q E w.
Proof.
  intros Hal Hv Hn HQ. pose proof Hal as []. unfold getBoundOrBindNewAddress. apply gwp_bind, gwp_lookup.
  destruct (w_assignment w !! v) as [x|] eqn:Ex.
  - assert (address_of (w_assignment w) v = Some (NewAddress x)) as Ha by (unfold address_of; by rewrite Ex).
    apply gwp_ret. destruct w as [r asg]. apply HQ; [split; auto; lia|done|done|done|by eapply al_in0].
  - apply gwp_bind. eapply gwp_getUnusedAddress; [done|done|]. intros a r Ha Hal'. cbn beta.
    destruct (NewAddress_AddressToU256 a) as (y & Hy & Hya). apply gwp_bind. eapply gwp_lift; [exact Hy|].
    apply gwp_bind, gwp_assign, gwp_ret. cbn [w_assignment w_rnd].
    assert (address_of (<[v := y]> (w_assignment w)) v = Some a) as Hav by (unfold address_of; rewrite lookup_insert_eq; cbn; by rewrite Hya).
    assert (forall u b, u <> v -> address_of (<[v := y]> (w_assignment w)) u = Some b -> address_of (w_assignment w) u = Some b) as Hother.
    { intros u b Hu. unfold address_of. by rewrite lookup_insert_ne. }
    assert (w_assignment w ⊆ <[v := y]> (w_assignment w)) as Hsub by (by apply insert_subseteq).
    apply HQ; [|set_solver|done|done|unfold known; set_solver]. destruct Hal' as [_ _ Hsize Hnoted _ _ _]. split.
    + by etransitivity.
    + intros u Hu. rewrite lookup_insert_ne; [auto|]. by intros ->.
    + done.
    + done.
    + intros u b Hu Hb. destruct (decide (u = v)) as [->|Hne].
      * rewrite Hav in Hb. injection Hb as <-. unfold known. set_solver.
      * specialize (al_in0 u b Hu (Hother u b Hne Hb)). unfold known in *. set_solver.
    + intros u1 u2 b H1 H2 Hne Hb1 Hb2. destruct (decide (u1 = v)) as [->|N1], (decide (u2 = v)) as [->|N2]; [done| | |].
      * rewrite Hav in Hb1. injection Hb1 as <-. destruct Ha. by apply (al_in0 u2), Hother.
      * rewrite Hav in Hb2. injection Hb2 as <-. destruct Ha. by apply (al_in0 u1), Hother.
      * eapply al_new0; eauto.
    + intros u b Hu Hn' Hb. destruct (decide (u = v)) as [->|Hne].
      * rewrite Hav in Hb. injection Hb as <-. intros ->. apply Ha, elem_of_union_l, al_noted0. unfold noted. set_solver.
      * eapply al_fresh0; eauto.
Qed.

(** *** Empty and other accounts *)

Definition owned {C} (asg : Assignment) (key : C -> Var) (l : list C) (P : C -> Prop) (a : Address) : Prop :=
  exists c, c ∈ l /\ P c /\ address_of asg (key c) = Some a.

Lemma owned_weaken {C} asg asg' (key : C -> Var) l l' P a : asg ⊆ asg' -> l ⊆ l' -> owned asg key l P a -> owned asg' key l' P a.
Proof. intros Hs Hl (c & Hc & HP & Ha). exists c. split; [auto|]. split; [done|]. by eapply address_of_weaken. Qed.

Lemma owned_last {C} asg (key : C -> Var) l c (P : C -> Prop) a : P c -> address_of asg (key c) = Some a -> owned asg key (l ++ [c]) P a.
Proof. intros. exists c. split; [apply elem_of_app; right; left|done]. Qed.

Record split_ok (asg : Assignment) (l : list emptyConstraint) (Em Ne : gset Address) : Prop := {
  sp_each c : c ∈ l -> exists a, address_of asg (ec_address c) = Some a /\ if ec_empty c then a ∈ Em else a ∈ Ne;
  sp_empty a : a ∈ Em -> owned asg ec_address l (fun c => ec_empty c = true) a;
  sp_other a : a ∈ Ne -> owned asg ec_address l (fun c => ec_empty c = false) a;
  sp_apart : Em ## Ne
}.

Lemma processEmpty_loop l n used (Q : gset Address * gset Address * gset Address -> world R -> Prop) (E : GenErr -> Prop) w :
  alloc n used (w_assignment w) -> (forall c, c ∈ l -> ec_address c ∈ variables g) -> n + zlen l < 2 ^ 20 -> E ErrUnsatisfiable ->
  (forall used' Em Ne r asg, alloc (n + zlen l) used' asg -> w_assignment w ⊆ asg -> split_ok asg l Em Ne ->
    Q (used', Em, Ne) (mkWorld r asg)) ->
  gwp (gen_for processEmpty l (used, ∅, ∅)) Q E w.
Proof.
  intros Hal Hin Hn HE HQ. eapply gwp_mono.
  - apply (gwp_for processEmpty (fun done '(used', Em, Ne) w' => alloc (n + zlen done) used' (w_assignment w')
      /\ w_assignment w ⊆ w_assignment w' /\ split_ok (w_assignment w') done Em Ne)).
    + change (zlen (@nil emptyConstraint)) with 0. rewrite Z.add_0_r. split; [done|]. split; [done|].
      split; [intros c []%not_elem_of_nil|set_solver..].
    + intros done c rest [[used' Em] Ne] w' Hl (Hal' & Hsub & []).
      assert (zlen done < zlen l) by (rewrite Hl, zlen_app; unfold zlen; cbn [length]; lia).
      unfold processEmpty. apply gwp_bind. eapply gwp_bindAddress; [done| |lia|].
      { apply Hin. rewrite Hl. apply elem_of_app. right. left. }
      intros a used2 r asg Hal2 _ Hsub2 Ha _. rewrite zlen_app. change (zlen [c]) with 1.
      assert (forall Em' Ne', Em ⊆ Em' -> Ne ⊆ Ne' -> (if ec_empty c then a ∈ Em' else a ∈ Ne') ->
        (forall b, b ∈ Em' -> b ∈ Em \/ ec_empty c = true /\ b = a) -> (forall b, b ∈ Ne' -> b ∈ Ne \/ ec_empty c = false /\ b = a) ->
        Em' ## Ne' -> gwp (R := R) (mret (used2, Em', Ne')) (fun '(used', Em, Ne) w'0 => alloc (n + (zlen done + 1)) used' (w_assignment w'0)
          /\ w_assignment w ⊆ w_assignment w'0 /\ split_ok (w_assignment w'0) (done ++ [c]) Em Ne) E (mkWorld r asg)) as Hret.
      { intros Em' Ne' H1 H2 H3 H4 H5 H6. apply gwp_ret. cbn [w_assignment]. rewrite Z.add_assoc. split; [done|].
        split; [by etransitivity|]. split; [| | |done].
        - intros d [Hd| ->%list_elem_of_singleton]%elem_of_app; [|eauto]. destruct (sp_each0 d Hd) as (b & Hb & Hb').
          exists b. split; [by eapply address_of_weaken|]. destruct (ec_empty d); auto.
        - intros b [Hb%sp_empty0|[Hc ->]]%H4; [|by apply owned_last]. eapply owned_weaken; [done| |done]. set_solver.
        - intros b [Hb%sp_other0|[Hc ->]]%H5; [|by apply owned_last]. eapply owned_weaken; [done| |done]. set_solver. }
      destruct (ec_empty c) eqn:Ec; apply gwp_if; intros Hb; try (by apply gwp_fail); apply bool_decide_eq_false in Hb; apply Hret; set_solver.
  - intros [[used' Em] Ne] [r asg] (H1 & H2 & H3). by apply HQ.
  - done.
Qed.

(** *** Accounts as they are built *)

Lemma SetBalance_lookup a x ab b : st.accounts (AccountsBuilder_SetBalance a x ab) !! b =
  if decide (a = b) then Some (st.mkAccount x (st.Accounts_GetCode ab a)) else st.accounts ab !! b.
Proof. unfold AccountsBuilder_SetBalance, st.Accounts_modifyAccount. cbn. destruct (decide (a = b)) as [<-|]; [by rewrite lookup_insert_eq|by rewrite lookup_insert_ne]. Qed.

Lemma SetCode_lookup a x ab b : st.accounts (AccountsBuilder_SetCode a x ab) !! b =
  if decide (a = b) then Some (st.mkAccount (st.Accounts_GetBalance ab a) x) else st.accounts ab !! b.
Proof. unfold AccountsBuilder_SetCode, st.Accounts_modifyAccount. cbn. destruct (decide (a = b)) as [<-|]; [by rewrite lookup_insert_eq|by rewrite lookup_insert_ne]. Qed.

(** A loop over accounts that changes one after the other. *)
Lemma gwp_accounts (f : st.Accounts -> Address -> Gen R st.Accounts) (P : Address -> st.Account -> Prop)
    (pre : Address -> option st.Account -> Prop) l ab (E : GenErr -> Prop) (w : world R) :
  (forall ab a w, pre a (st.accounts ab !! a) -> gwp (f ab a) (fun ab' w' => w_assignment w' = w_assignment w
    /\ st.warmAccounts ab' = st.warmAccounts ab /\ (forall b, b <> a -> st.accounts ab' !! b = st.accounts ab !! b)
    /\ exists x, st.accounts ab' !! a = Some x /\ P a x) E w) ->
  (forall a x, P a x -> pre a (Some x)) -> (forall a, a ∈ l -> pre a (st.accounts ab !! a)) ->
  gwp (gen_for f l ab) (fun ab' w' => w_assignment w' = w_assignment w /\ st.warmAccounts ab' = st.warmAccounts ab
    /\ (forall b, b ∉ l -> st.accounts ab' !! b = st.accounts ab !! b)
    /\ forall a, a ∈ l -> exists x, st.accounts ab' !! a = Some x /\ P a x) E w.
Proof.
  intros Hf Hpre Hl.
  apply (gwp_for f (fun done ab' w' => w_assignment w' = w_assignment w /\ st.warmAccounts ab' = st.warmAccounts ab
    /\ (forall b, b ∉ done -> st.accounts ab' !! b = st.accounts ab !! b)
    /\ forall a, a ∈ done -> exists x, st.accounts ab' !! a = Some x /\ P a x)).
  - split; [done|]. split; [done|]. split; [done|]. intros a []%not_elem_of_nil.
  - intros done a rest ab1 w1 -> (H1 & H2 & H3 & H4). eapply gwp_mono; [apply Hf| |done].
    { destruct (decide (a ∈ done)) as [Hd|Hd].
      - destruct (H4 a Hd) as (x & -> & Hx). by apply Hpre.
      - rewrite H3 by done. apply Hl, elem_of_app. right. left. }
    intros ab2 w2 (G1 & G2 & G3 & G4). split; [congruence|]. split; [congruence|]. split.
    + intros b Hb. rewrite G3, H3; [done|set_solver|set_solver].
    + intros b Hb. destruct (decide (b = a)) as [->|Hne]; [done|]. rewrite G3 by done. apply H4. set_solver.
Qed.

Lemma draws_range_set s : draws (R := R) (gen_range_set s) (fun l => forall a, a ∈ l <-> a ∈ s).
Proof. apply draws_draw. intros r a. rewrite Map_order_rnd. apply elem_of_elements. Qed.

Definition zero := st.zeroAccount.

Lemma makeEmpty_spec ab a (E : GenErr -> Prop) (w : world R) :
  gwp (makeEmpty ab a) (fun ab' w' => w_assignment w' = w_assignment w
    /\ st.warmAccounts ab' = st.warmAccounts ab /\ (forall b, b <> a -> st.accounts ab' !! b = st.accounts ab !! b)
    /\ exists x, st.accounts ab' !! a = Some x /\ x = zero) E w.
Proof.
  unfold makeEmpty. apply gwp_ret. split; [done|]. split; [done|]. split.
  - intros b Hb. rewrite SetCode_lookup, decide_False, SetBalance_lookup, decide_False by done. done.
  - exists zero. split; [|done]. rewrite SetCode_lookup, decide_True by done. unfold st.Accounts_GetBalance.
    by rewrite SetBalance_lookup, decide_True.
Qed.

Lemma nonzero_balance code : st.mkAccount (NewU256 1) code <> zero.
Proof. by intros [=]. Qed.

Lemma nonzero_code x b l : st.mkAccount x (b :: l) <> zero.
Proof. done. Qed.

(** Both groups of accounts. *)
Record base_ok (Em Ne : gset Address) (ab : st.Accounts) : Prop := {
  ba_warm : st.warmAccounts ab = ∅;
  ba_empty a : a ∈ Em -> st.accounts ab !! a = Some zero;
  ba_other a : a ∈ Ne -> exists x, st.accounts ab !! a = Some x /\ x <> zero;
  ba_none a : a ∉ Em -> a ∉ Ne -> st.accounts ab !! a = None;
  ba_code a : zlen (st.Accounts_GetCode ab a) <= 1
}.

Lemma makeAccounts_spec Em Ne (Q : st.Accounts -> world R -> Prop) (E : GenErr -> Prop) w : Em ## Ne ->
  (forall ab r, base_ok Em Ne ab -> Q ab (mkWorld r (w_assignment w))) ->
  gwp (l ← gen_range_set Em; ab ← gen_for makeEmpty l st.NewAccounts; l ← gen_range_set Ne; gen_for makeNonEmpty l ab) Q E w.
Proof.
  intros Hap HQ. apply gwp_bind. eapply gwp_draws; [apply draws_range_set|]. intros l1 r1 Hl1. cbn beta in Hl1.
  apply gwp_bind. eapply gwp_mono.
  { apply (gwp_accounts makeEmpty (fun _ x => x = zero) (fun _ _ => True)); auto. intros. apply makeEmpty_spec. }
  2: done.
  intros ab1 w1 (H1 & H2 & H3 & H4). apply gwp_bind. eapply gwp_draws; [apply draws_range_set|]. intros l2 r2 Hl2. cbn beta in Hl2.
  rewrite H1. cbn [w_assignment].
  eapply gwp_mono.
  { apply (gwp_accounts makeNonEmpty (fun _ x => x <> zero /\ zlen (st.acc_Code x) <= 1)
      (fun _ o => zlen (st.acc_Code (default zero o)) <= 1)).
    - intros ab a w' Hpre. unfold makeNonEmpty. apply gwp_bind. eapply gwp_draws; [apply draws_globalIntn; lia|].
      intros n r Hn. cbn beta in Hn. apply gwp_ret.
      destruct (Z.eqb_spec n 0); [|destruct (Z.eqb_spec n 1); [|rewrite (proj2 (Z.eqb_eq n 2)) by lia]];
        (split; [done|]); (split; [done|]);
        (split; [intros b Hb; by rewrite ?SetCode_lookup, ?decide_False, ?SetBalance_lookup, ?decide_False|]).
      + eexists. split; [by rewrite SetBalance_lookup, decide_True|]. split; [apply nonzero_balance|exact Hpre].
      + eexists. split; [by rewrite SetCode_lookup, decide_True|]. split; [apply nonzero_code|done].
      + eexists. split; [by rewrite SetCode_lookup, decide_True|]. split; [apply nonzero_code|done].
    - by intros a x [_ Hx].
    - intros a Ha. rewrite H3; [done|]. rewrite Hl1. rewrite Hl2 in Ha. set_solver. }
  2: done.
  intros ab2 [r3 asg3] (G1 & G2 & G3 & G4). cbn [w_assignment] in *. subst asg3. apply HQ. split.
  - by rewrite G2, H2.
  - intros a Ha. rewrite G3 by (rewrite Hl2; set_solver). destruct (H4 a) as (x & Hx & ->); [by apply Hl1|done].
  - intros a Ha. destruct (G4 a) as (x & Hx & Hz & _); [by apply Hl2|]. eauto.
  - intros a Ha Hb. rewrite G3, H3; [done|by rewrite Hl1|by rewrite Hl2].
  - intros a. unfold st.Accounts_GetCode. destruct (decide (a ∈ l2)) as [Ha|Ha].
    + destruct (G4 a Ha) as (x & -> & _ & Hx). exact Hx.
    + rewrite G3 by done. destruct (decide (a ∈ l1)) as [Hb|Hb]; [by destruct (H4 a Hb) as (x & -> & ->)|by rewrite H3].
Qed.

(** *** Warm and cold accounts *)

Lemma processWarmCold_loop l n used ab (Q : gset Address * st.Accounts -> world R -> Prop) (E : GenErr -> Prop) w :
  alloc n used (w_assignment w) -> (forall c, c ∈ l -> wc_key c ∈ variables g) -> n + zlen l < 2 ^ 20 -> st.warmAccounts ab = ∅ ->
  (forall used' warm r asg, alloc (n + zlen l) used' asg -> w_assignment w ⊆ asg ->
    (forall c, c ∈ l -> is_Some (address_of asg (wc_key c))) ->
    (forall a, a ∈ warm <-> owned asg wc_key l (fun c => wc_warm c = true) a) ->
    Q (used', st.mkAccounts (st.accounts ab) warm) (mkWorld r asg)) ->
  gwp (gen_for processWarmCold l (used, ab)) Q E w.
Proof.
  intros Hal Hin Hn Hw HQ. eapply gwp_mono.
  - apply (gwp_for processWarmCold (fun done '(used', ab') w' => alloc (n + zlen done) used' (w_assignment w')
      /\ w_assignment w ⊆ w_assignment w' /\ st.accounts ab' = st.accounts ab
      /\ (forall c, c ∈ done -> is_Some (address_of (w_assignment w') (wc_key c)))
      /\ forall a, a ∈ st.warmAccounts ab' <-> owned (w_assignment w') wc_key done (fun c => wc_warm c = true) a)).
    + change (zlen (@nil warmColdConstraint)) with 0. rewrite Z.add_0_r. split; [done|]. split; [done|]. split; [done|].
      split; [intros c []%not_elem_of_nil|]. intros a. rewrite Hw. split; [set_solver|]. intros (c & []%not_elem_of_nil & _).
    + intros done c rest [used' ab'] w' Hl (Hal' & Hsub & Hacc & Hb & Hwarm).
      assert (zlen done < zlen l) by (rewrite Hl, zlen_app; unfold zlen; cbn [length]; lia).
      unfold processWarmCold. apply gwp_bind. eapply gwp_bindAddress; [done| |lia|].
      { apply Hin. rewrite Hl. apply elem_of_app. right. left. }
      intros a used2 r asg Hal2 _ Hsub2 Ha _. apply gwp_ret. rewrite zlen_app. change (zlen [c]) with 1. cbn [w_assignment].
      rewrite Z.add_assoc. split; [done|]. split; [by etransitivity|]. split; [by destruct (wc_warm c)|]. split.
      { intros d [Hd| ->%list_elem_of_singleton]%elem_of_app; [|by rewrite Ha]. destruct (Hb d Hd) as [b Hb'].
        exists b. by eapply address_of_weaken. }
      intros b. transitivity (b ∈ st.warmAccounts ab' \/ wc_warm c = true /\ b = a).
      { destruct (wc_warm c); cbn; set_solver. }
      split.
      * intros [(d & Hd & Hwd & Hda)%Hwarm|[Hc ->]]; [|by apply owned_last].
        exists d. split; [apply elem_of_app; by left|]. split; [done|]. by eapply address_of_weaken.
      * intros (d & [Hd| ->%list_elem_of_singleton]%elem_of_app & Hwd & Hda); [left|right; split; [done|congruence]].
        apply Hwarm. exists d. split; [done|]. split; [done|]. destruct (Hb d Hd) as [b' Hb'].
        pose proof (address_of_weaken _ _ _ _ Hsub2 Hb'). congruence.
  - intros [used' ab'] [r asg] (H1 & H2 & H3 & H4 & H5). destruct ab' as [acc warm]. cbn in *. subst acc. by apply HQ.
  - done.
Qed.

(** *** Balances *)

Record bounds_ok (asg : Assignment) (below : U256 -> option U256 -> Prop) (l : list balanceConstraint) (m : gmap Address U256) : Prop := {
  bo_each c : c ∈ l -> exists a, address_of asg (bal_address c) = Some a /\ below (bal_value c) (m !! a);
  bo_keys a : is_Some (m !! a) -> owned asg bal_address l (fun _ => True) a
}.

Definition lower_ok (value : U256) (o : option U256) : Prop := uval value = 0 \/ exists x, o = Some x /\ uval value <= uval x.
Definition upper_ok (value : U256) (o : option U256) : Prop := exists x, o = Some x /\ uval x <= uval value.

(** The bound of an address after one more constraint. *)
Lemma bounds_loop (f : gset Address * gmap Address U256 -> balanceConstraint -> Gen R (gset Address * gmap Address U256))
    (upd : option U256 -> U256 -> option U256) (below : U256 -> option U256 -> Prop) l n used
    (Q : gset Address * gmap Address U256 -> world R -> Prop) (E : GenErr -> Prop) w :
  (forall used m c w, f (used, m) c w = ('(a, used) ← getBoundOrBindNewAddress used (bal_address c);
     mret (used, match upd (m !! a) (bal_value c) with Some x => <[a := x]> m | None => m end)) w) ->
  (forall v o, below v (match upd o v with Some x => Some x | None => o end)) ->
  (forall v o v', below v o -> below v (match upd o v' with Some x => Some x | None => o end)) ->
  alloc n used (w_assignment w) -> (forall c, c ∈ l -> bal_address c ∈ variables g) -> n + zlen l < 2 ^ 20 ->
  (forall used' m r asg, alloc (n + zlen l) used' asg -> w_assignment w ⊆ asg -> bounds_ok asg below l m -> Q (used', m) (mkWorld r asg)) ->
  gwp (gen_for f l (used, ∅)) Q E w.
Proof.
  intros Hf Hnew Hkeep Hal Hin Hn HQ. eapply gwp_mono.
  - apply (gwp_for f (fun done '(used', m) w' => alloc (n + zlen done) used' (w_assignment w')
      /\ w_assignment w ⊆ w_assignment w' /\ bounds_ok (w_assignment w') below done m)).
    + change (zlen (@nil balanceConstraint)) with 0. rewrite Z.add_0_r. split; [done|]. split; [done|].
      split; [intros c []%not_elem_of_nil|]. intros a [x Hx]. by rewrite lookup_empty in Hx.
    + intros done c rest [used' m] w' Hl (Hal' & Hsub & []).
      assert (zlen done < zlen l) by (rewrite Hl, zlen_app; unfold zlen; cbn [length]; lia).
      unfold gwp at 1. rewrite Hf. apply gwp_bind. eapply gwp_bindAddress; [done| |lia|].
      { apply Hin. rewrite Hl. apply elem_of_app. right. left. }
      intros a used2 r asg Hal2 _ Hsub2 Ha _. apply gwp_ret. rewrite zlen_app. change (zlen [c]) with 1. cbn [w_assignment].
      rewrite Z.add_assoc. split; [done|]. split; [by etransitivity|].
      set (m' := match upd (m !! a) (bal_value c) with Some x => <[a := x]> m | None => m end).
      assert (forall b, m' !! b = if decide (a = b) then (match upd (m !! a) (bal_value c) with Some x => Some x | None => m !! a end) else m !! b) as Hm'.
      { intros b. unfold m'. destruct (upd _ _); destruct (decide (a = b)) as [<-|]; rewrite ?lookup_insert_eq, ?lookup_insert_ne by done; done. }
      split.
      * intros d [Hd| ->%list_elem_of_singleton]%elem_of_app.
        -- destruct (bo_each0 d Hd) as (b & Hb & Hlow). exists b. split; [by eapply address_of_weaken|]. rewrite Hm'.
           destruct (decide (a = b)) as [<-|]; [by apply Hkeep|done].
        -- exists a. split; [done|]. rewrite Hm', decide_True by done. apply Hnew.
      * intros b Hb. destruct (decide (a = b)) as [<-|Hne]; [by apply owned_last|]. rewrite Hm', decide_False in Hb by done.
        eapply owned_weaken; [done| |by apply bo_keys0]. set_solver.
  - intros [used' m] [r asg] (H1 & H2 & H3). by apply HQ.
  - done.
Qed.

Lemma collectLower_loop l n used (Q : gset Address * gmap Address U256 -> world R -> Prop) (E : GenErr -> Prop) w :
  alloc n used (w_assignment w) -> (forall c, c ∈ l -> bal_address c ∈ variables g) -> n + zlen l < 2 ^ 20 ->
  (forall used' m r asg, alloc (n + zlen l) used' asg -> w_assignment w ⊆ asg -> bounds_ok asg lower_ok l m -> Q (used', m) (mkWorld r asg)) ->
  gwp (gen_for collectLower l (used, ∅)) Q E w.
Proof.
  intros. apply (bounds_loop collectLower (fun o v => if U256_Lt (default (NewU256 0) o) v then Some v else None) lower_ok l n); auto.
  - intros used' m c w'. unfold collectLower, mbind, Gen_bind. destruct (getBoundOrBindNewAddress _ _ w') as [[a u] ?| | |]; [|done..].
    by destruct (U256_Lt _ _).
  - intros v o. unfold lower_ok, U256_Lt. rewrite Lt_law. destruct (Z.ltb_spec (uval (default (NewU256 0) o)) (uval v)); [right; exists v; split; [done|lia]|].
    destruct o as [x|]; cbn [default from_option id] in *; [right; exists x; split; [done|lia]|left]. pose proof (uval_range v).
    rewrite NewU256_uval in * by done. lia.
  - intros v o v' [?|(x & -> & Hx)]; [by left|]. unfold U256_Lt. rewrite Lt_law. cbn [default from_option id].
    destruct (Z.ltb_spec (uval x) (uval v')); right; [exists v'|exists x]; (split; [done|lia]).
Qed.

Lemma collectUpper_loop l n used (Q : gset Address * gmap Address U256 -> world R -> Prop) (E : GenErr -> Prop) w :
  alloc n used (w_assignment w) -> (forall c, c ∈ l -> bal_address c ∈ variables g) -> n + zlen l < 2 ^ 20 ->
  (forall used' m r asg, alloc (n + zlen l) used' asg -> w_assignment w ⊆ asg -> bounds_ok asg upper_ok l m -> Q (used', m) (mkWorld r asg)) ->
  gwp (gen_for collectUpper l (used, ∅)) Q E w.
Proof.
  intros. apply (bounds_loop collectUpper (fun o v => match o with
    | Some x => if U256_Gt x v then Some v else None | None => Some v end) upper_ok l n); auto.
  - intros used' m c w'. unfold collectUpper, mbind, Gen_bind. destruct (getBoundOrBindNewAddress _ _ w') as [[a u] ?| | |]; [|done..].
    destruct (m !! a); [by destruct (U256_Gt _ _)|done].
  - intros v [x|]; unfold upper_ok, U256_Gt; [|exists v; split; [done|lia]]. rewrite Gt_law, Z.gtb_ltb.
    destruct (Z.ltb_spec (uval v) (uval x)); [exists v|exists x]; (split; [done|lia]).
  - intros v o v' (x & -> & Hx). unfold U256_Gt, upper_ok. rewrite Gt_law, Z.gtb_ltb.
    destruct (Z.ltb_spec (uval v') (uval x)); [exists v'|exists x]; (split; [done|lia]).
Qed.

(** What the balance constraints lead to. *)
Record balance_ok (asg : Assignment) (Em : gset Address) (ab ab' : st.Accounts) : Prop := {
  bl_warm : st.warmAccounts ab' = st.warmAccounts ab;
  bl_code a : st.Accounts_GetCode ab' a = st.Accounts_GetCode ab a;
  bl_min c : c ∈ ag_minBalance g -> exists a, address_of asg (bal_address c) = Some a
    /\ (uval (bal_value c) = 0 \/ is_Some (st.accounts ab' !! a) /\ uval (bal_value c) <= uval (st.Accounts_GetBalance ab' a));
  bl_max c : c ∈ ag_maxBalance g -> exists a, address_of asg (bal_address c) = Some a
    /\ is_Some (st.accounts ab' !! a) /\ uval (st.Accounts_GetBalance ab' a) <= uval (bal_value c);
  bl_empty a : a ∈ Em -> st.Accounts_GetBalance ab' a = NewU256 0;
  bl_other a : a ∉ Em -> ~ owned asg bal_address (ag_minBalance g ++ ag_maxBalance g) (fun _ => True) a ->
    st.accounts ab' !! a = st.accounts ab !! a
}.

Lemma fold_zero (l : list Address) (m : gmap Address U256) a :
  fold_left (fun m a => <[a := NewU256 0]> m) l m !! a = if decide (a ∈ l) then Some (NewU256 0) else m !! a.
Proof.
  revert m. induction l as [|b l IH]; intros m; cbn [fold_left]; [by rewrite decide_False by apply not_elem_of_nil|].
  rewrite IH. destruct (decide (a ∈ l)) as [Hl|Hl].
  - rewrite decide_True; [done|by right].
  - destruct (decide (a = b)) as [->|Hne].
    + rewrite lookup_insert_eq, decide_True; [done|left].
    + rewrite lookup_insert_ne, decide_False by (try done; rewrite elem_of_cons; tauto). done.
Qed.

Definition in_bounds (lower upper : gmap Address U256) (a : Address) (x : st.Account) : Prop :=
  uval (default (NewU256 0) (lower !! a)) <= uval (st.acc_Balance x) <= uval (default MaxU256 (upper !! a)).

Lemma setBalances_loop lower upper l ab (E : GenErr -> Prop) (w : world R) : E ErrUnsatisfiable ->
  gwp (gen_for (setBalance lower upper) l ab) (fun ab' w' => w_assignment w' = w_assignment w
    /\ st.warmAccounts ab' = st.warmAccounts ab /\ (forall b, b ∉ l -> st.accounts ab' !! b = st.accounts ab !! b)
    /\ forall a, a ∈ l -> exists x, st.accounts ab' !! a = Some x /\ in_bounds lower upper a x /\ st.acc_Code x = st.Accounts_GetCode ab a) E w.
Proof.
  intros HE. apply (gwp_accounts (setBalance lower upper)
    (fun a x => in_bounds lower upper a x /\ st.acc_Code x = st.Accounts_GetCode ab a)
    (fun a o => st.acc_Code (default zero o) = st.Accounts_GetCode ab a)).
  - intros ab1 a w1 Hpre. unfold setBalance. apply gwp_if; intros Hc; [by apply gwp_fail|].
    unfold U256_Gt in Hc. rewrite Gt_law, Z.gtb_ltb in Hc. apply Z.ltb_ge in Hc. apply gwp_bind.
    eapply gwp_draws; [by apply draws_RandU256Between|]. intros x r Hx. cbn beta in Hx. apply gwp_ret.
    split; [done|]. split; [done|]. split; [intros b Hb; by rewrite SetBalance_lookup, decide_False|].
    eexists. split; [by rewrite SetBalance_lookup, decide_True|]. split; [exact Hx|exact Hpre].
  - by intros a x [_ Hx].
  - done.
Qed.

Lemma processBalance_spec n used Em ab (Q : gset Address * st.Accounts -> world R -> Prop) (E : GenErr -> Prop) w :
  alloc n used (w_assignment w) -> n + zlen (ag_minBalance g) + zlen (ag_maxBalance g) < 2 ^ 20 -> E ErrUnsatisfiable ->
  (forall used' ab' r asg, alloc (n + zlen (ag_minBalance g) + zlen (ag_maxBalance g)) used' asg -> w_assignment w ⊆ asg ->
    balance_ok asg Em ab ab' -> Q (used', ab') (mkWorld r asg)) ->
  gwp (processBalanceConstraints g used Em ab) Q E w.
Proof.
  intros Hal Hn HE HQ. pose proof (zlen_nonneg (ag_maxBalance g)). unfold processBalanceConstraints.
  apply gwp_bind. eapply collectLower_loop; [done| |lia|].
  { intros c Hc. unfold variables. rewrite !elem_of_app, !elem_of_map. eauto. }
  intros used1 lower r1 asg1 Hal1 Hsub1 Hlow. apply gwp_bind. eapply collectUpper_loop; [done| |lia|].
  { intros c Hc. unfold variables. rewrite !elem_of_app, !elem_of_map. eauto 6. }
  intros used2 upper0 r2 asg2 Hal2 Hsub2 Hup. cbn [w_assignment] in Hsub2.
  apply gwp_bind. eapply gwp_draws; [apply draws_range_set|]. intros le r3 Hle. cbn beta in Hle. cbn [w_assignment].
  set (upper := fold_left _ le upper0).
  assert (forall a, upper !! a = if decide (a ∈ le) then Some (NewU256 0) else upper0 !! a) as Hupper by (intros a; apply fold_zero).
  clearbody upper.
  apply gwp_bind. eapply gwp_draws; [apply draws_range|]. intros lk r4 Hlk. cbn beta in Hlk. cbn [w_assignment].
  apply gwp_bind. eapply gwp_draws; [apply draws_range|]. intros uk r5 Huk. cbn beta in Huk. cbn [w_assignment].
  set (L := map fst lk ++ filter _ (map fst uk)).
  assert (forall a, a ∈ L <-> is_Some (lower !! a) \/ is_Some (upper !! a)) as HL.
  { intros a. assert (forall m : gmap Address U256, forall k, Permutation k (map_to_list m) -> a ∈ map fst k <-> is_Some (m !! a)) as Hk.
    { intros m k Hp. rewrite elem_of_map. split.
      - intros ([b x] & -> & Hb). rewrite Hp in Hb. apply elem_of_map_to_list in Hb. cbn. by rewrite Hb.
      - intros [x Hx]. exists (a, x). split; [done|]. rewrite Hp. by apply elem_of_map_to_list. }
    unfold L. rewrite elem_of_app, list_elem_of_filter, (Hk lower lk), (Hk upper uk) by done.
    destruct (lower !! a); [|tauto]. split; [|by eauto]. intros [?|[? _]]; [eauto|done]. }
  clearbody L. apply gwp_bind. eapply gwp_mono; [by apply setBalances_loop| |done].
  intros ab' [r6 asg6] (H1 & H2 & H3 & H4). cbn [w_assignment] in H1. subst asg6. apply gwp_ret, HQ; [done|by etransitivity|].
  assert (forall a x, st.accounts ab' !! a = Some x -> st.Accounts_GetBalance ab' a = st.acc_Balance x) as Hbal.
  { intros a x Hx. unfold st.Accounts_GetBalance. by rewrite Hx. }
  split.
  - done.
  - intros a. unfold st.Accounts_GetCode at 1. destruct (decide (a ∈ L)) as [Ha|Ha]; [|by rewrite H3].
    destruct (H4 a Ha) as (x & -> & _ & Hx). exact Hx.
  - intros c Hc. destruct (bo_each _ _ _ _ Hlow c Hc) as (a & Ha & Hv). exists a. split; [by eapply address_of_weaken|].
    destruct Hv as [?|(lo & Hlo & Hv)]; [by left|right]. destruct (H4 a) as (x & Hx & [Hb _] & _); [apply HL; left; by rewrite Hlo|].
    rewrite Hx, (Hbal a x Hx). split; [done|]. rewrite Hlo in Hb. cbn in Hb. lia.
  - intros c Hc. destruct (bo_each _ _ _ _ Hup c Hc) as (a & Ha & (u & Hu & Hv)). exists a. split; [done|].
    assert (exists u', upper !! a = Some u' /\ uval u' <= uval (bal_value c)) as (u' & Hu' & Hv').
    { rewrite Hupper. destruct (decide (a ∈ le)); [|eauto]. exists (NewU256 0). split; [done|].
      rewrite NewU256_uval by done. pose proof (uval_range (bal_value c)). lia. }
    destruct (H4 a) as (x & Hx & [_ Hb] & _); [apply HL; right; by rewrite Hu'|].
    rewrite Hx, (Hbal a x Hx). split; [done|]. rewrite Hu' in Hb. cbn in Hb. lia.
  - intros a Ha. assert (upper !! a = Some (NewU256 0)) as Hu by (by rewrite Hupper, decide_True by (by apply Hle)).
    destruct (H4 a) as (x & Hx & [_ Hb] & _); [apply HL; right; by rewrite Hu|]. rewrite (Hbal a x Hx).
    rewrite Hu in Hb. cbn in Hb. apply u256_eq. rewrite NewU256_uval in * by done. pose proof (uval_range (st.acc_Balance x)). lia.
  - intros a He Ho. apply H3. rewrite HL. intros [Hs|Hs]; apply Ho.
    + eapply owned_weaken; [exact Hsub2| |exact (bo_keys _ _ _ _ Hlow a Hs)]. intros c Hc. apply elem_of_app. by left.
    + rewrite Hupper, decide_False in Hs by (by rewrite Hle). eapply owned_weaken; [reflexivity| |exact (bo_keys _ _ _ _ Hup a Hs)].
      intros c Hc. apply elem_of_app. by right.
Qed.

(** *** Delegations *)

Definition dd_state (used : gset Address) (ab : st.Accounts) (c : delegationDesignatorConstraint) (code : Bytes) : Prop :=
  if dd_isDelegated c
  then exists d, d ∈ known used /\ code = NewDelegationDesignator d
         /\ st.Accounts_IsWarm ab d = bool_decide (dd_delegateAccountStatus c = WarmAccess)
  else code = [xab; xcd].

(** The state of the constraints once delegations are processed, up to those
    in [dd]. *)
Record facts (asg : Assignment) (used : gset Address) (dd : list delegationDesignatorConstraint) (ab : st.Accounts) : Prop := {
  fa_empty c : c ∈ ag_emptyAccounts g -> exists a, address_of asg (ec_address c) = Some a
    /\ (st.Accounts_GetAccount ab a = zero <-> ec_empty c = true);
  fa_min c : c ∈ ag_minBalance g -> exists a, address_of asg (bal_address c) = Some a
    /\ (uval (bal_value c) = 0 \/ is_Some (st.accounts ab !! a) /\ uval (bal_value c) <= uval (st.Accounts_GetBalance ab a));
  fa_max c : c ∈ ag_maxBalance g -> exists a, address_of asg (bal_address c) = Some a
    /\ is_Some (st.accounts ab !! a) /\ uval (st.Accounts_GetBalance ab a) <= uval (bal_value c);
  fa_warm c : c ∈ ag_warmCold g -> exists a, address_of asg (wc_key c) = Some a /\ st.Accounts_IsWarm ab a = wc_warm c;
  fa_dd c : c ∈ dd -> exists a, address_of asg (dd_address c) = Some a /\ dd_state used ab c (st.Accounts_GetCode ab a)
}.

(** Codes are short, and no account delegates to itself. *)
Definition shape (ab : st.Accounts) : Prop := forall a, zlen (st.Accounts_GetCode ab a) <= 42
  /\ forall d, ParseDelegationDesignator (st.Accounts_GetCode ab a) = (d, true) -> d <> a.

Lemma in_variables :
  (forall c, c ∈ ag_emptyAccounts g -> ec_address c ∈ variables g) /\
  (forall c, c ∈ ag_minBalance g -> bal_address c ∈ variables g) /\
  (forall c, c ∈ ag_maxBalance g -> bal_address c ∈ variables g) /\
  (forall c, c ∈ ag_warmCold g -> wc_key c ∈ variables g) /\
  (forall c, c ∈ ag_delegationDesignator g -> dd_address c ∈ variables g).
Proof. unfold variables. repeat split; intros c Hc; rewrite !elem_of_app, !elem_of_map; eauto 10. Qed.

(** What happens at addresses that are not known does not matter. *)
Lemma facts_frame n used used' asg asg' dd ab ab' : alloc n used asg -> asg ⊆ asg' -> used ⊆ used' ->
  (forall c, c ∈ dd -> c ∈ ag_delegationDesignator g) ->
  (forall a, a ∈ known used -> st.accounts ab' !! a = st.accounts ab !! a /\ st.Accounts_IsWarm ab' a = st.Accounts_IsWarm ab a) ->
  facts asg used dd ab -> facts asg' used' dd ab'.
Proof.
  intros [] Hs Hu Hdd Hab []. destruct in_variables as (V1 & V2 & V3 & V4 & V5). split.
  - intros c Hc. destruct (fa_empty0 c Hc) as (a & Ha & H). exists a. split; [by eapply address_of_weaken|].
    destruct (Hab a) as [E1 _]; [exact (al_in0 _ a (V1 c Hc) Ha)|]. unfold st.Accounts_GetAccount. by rewrite E1.
  - intros c Hc. destruct (fa_min0 c Hc) as (a & Ha & H). exists a. split; [by eapply address_of_weaken|].
    destruct (Hab a) as [E1 _]; [exact (al_in0 _ a (V2 c Hc) Ha)|]. unfold st.Accounts_GetBalance. by rewrite E1.
  - intros c Hc. destruct (fa_max0 c Hc) as (a & Ha & H). exists a. split; [by eapply address_of_weaken|].
    destruct (Hab a) as [E1 _]; [exact (al_in0 _ a (V3 c Hc) Ha)|]. unfold st.Accounts_GetBalance. by rewrite E1.
  - intros c Hc. destruct (fa_warm0 c Hc) as (a & Ha & H). exists a. split; [by eapply address_of_weaken|].
    destruct (Hab a) as [_ E2]; [exact (al_in0 _ a (V4 c Hc) Ha)|]. congruence.
  - intros c Hc. destruct (fa_dd0 c Hc) as (a & Ha & H). exists a. split; [by eapply address_of_weaken|].
    destruct (Hab a) as [E1 _]; [exact (al_in0 _ a (V5 c (Hdd c Hc)) Ha)|]. unfold st.Accounts_GetCode. rewrite E1.
    unfold dd_state in *. destruct (dd_isDelegated c); [|done]. destruct H as (d & Hd & Hc1 & Hc2). exists d.
    split; [unfold known in *; set_solver|]. split; [done|]. by rewrite (proj2 (Hab d Hd)).
Qed.

Context (Hdd : has_adjacent (delegation_conflict asg0) (sort_by delegation_Less (ag_delegationDesignator g)) = false).
Context (Hde : existsb (delegation_empty asg0 (sort_by empty_Less (ag_emptyAccounts g))) (sort_by delegation_Less (ag_delegationDesignator g)) = false).
Context (Hwc : has_adjacent (warmCold_conflict asg0) (sort_by warmCold_Less (ag_warmCold g)) = false).

Lemma dd_same n used asg a b x : compatible g self asg0 -> alloc n used asg ->
  a ∈ ag_delegationDesignator g -> b ∈ ag_delegationDesignator g ->
  address_of asg (dd_address a) = Some x -> address_of asg (dd_address b) = Some x ->
  (dd_isDelegated a, dd_delegateAccountStatus a) = (dd_isDelegated b, dd_delegateAccountStatus b).
Proof.
  intros Hc [] Ha Hb Hxa Hxb. destruct in_variables as (_ & _ & _ & _ & V).
  destruct (decide (dd_address a = dd_address b)) as [He|He]; [by eapply delegation_checked|].
  apply (compat_delegation _ _ _ Hc); [done|done|]. eapply al_new0; eauto.
Qed.

Lemma dd_not_empty n used asg c d x : compatible g self asg0 -> alloc n used asg -> c ∈ ag_emptyAccounts g -> ec_empty c = true ->
  d ∈ ag_delegationDesignator g -> address_of asg (ec_address c) = Some x -> address_of asg (dd_address d) = Some x -> False.
Proof.
  intros Hc [] Hin He Hd Hxc Hxd. destruct in_variables as (V1 & _ & _ & _ & V5).
  assert (ec_address c <> dd_address d) as Hne.
  { eapply (delegation_empty_checked asg0); [exact Hde|by apply elem_of_sort_by|by apply elem_of_sort_by|done]. }
  eapply (compat_empty _ _ _ Hc); [exact Hin|done|exact Hd|]. eapply al_new0; eauto.
Qed.

(** Code for a delegation, or for none. *)
Lemma facts_setCode n used used' asg dd ab con a code warm : compatible g self asg0 -> alloc n used asg ->
  (forall c, c ∈ dd -> c ∈ ag_delegationDesignator g) -> con ∈ ag_delegationDesignator g ->
  address_of asg (dd_address con) = Some a -> code <> [] -> used ⊆ used' ->
  (forall x, x ∈ known used -> x ∈ warm <-> x ∈ st.warmAccounts ab) ->
  (let ab' := st.mkAccounts (st.accounts (AccountsBuilder_SetCode a code ab)) warm in
   dd_state used' ab' con code -> facts asg used dd ab -> facts asg used' (dd ++ [con]) ab').
Proof.
  intros Hcomp Hal Hdds Hcon Ha Hcode Hu Hwarm ab' Hst []. pose proof Hal as []. destruct in_variables as (V1 & V2 & V3 & V4 & V5).
  assert (forall b, st.accounts ab' !! b = if decide (a = b) then Some (st.mkAccount (st.Accounts_GetBalance ab a) code) else st.accounts ab !! b) as HL
    by (intros b; apply SetCode_lookup).
  assert (forall b, st.Accounts_GetBalance ab' b = st.Accounts_GetBalance ab b) as HB.
  { intros b. unfold st.Accounts_GetBalance at 1. rewrite HL. by destruct (decide (a = b)) as [<-|]. }
  assert (forall b, is_Some (st.accounts ab !! b) -> is_Some (st.accounts ab' !! b)) as HS.
  { intros b. rewrite HL. by destruct (decide (a = b)). }
  assert (forall x, x ∈ known used -> st.Accounts_IsWarm ab' x = st.Accounts_IsWarm ab x) as HW.
  { intros x Hx. unfold st.Accounts_IsWarm. apply bool_decide_ext. cbn. by apply Hwarm. }
  split.
  - intros c Hc. destruct (fa_empty0 c Hc) as (b & Hb & H). exists b. split; [done|]. unfold st.Accounts_GetAccount in *. rewrite HL.
    destruct (decide (a = b)) as [<-|]; [|done]. split; [intros [= _ Hn]; by destruct Hcode|].
    intros He. exfalso. by eapply (dd_not_empty n used asg c con a).
  - intros c Hc. destruct (fa_min0 c Hc) as (b & Hb & [H|[H1 H2]]); exists b; (split; [done|]); [by left|right]. rewrite HB. auto.
  - intros c Hc. destruct (fa_max0 c Hc) as (b & Hb & H1 & H2). exists b. rewrite HB. auto.
  - intros c Hc. destruct (fa_warm0 c Hc) as (b & Hb & H). exists b. split; [done|]. rewrite HW; [done|]. exact (al_in0 _ b (V4 c Hc) Hb).
  - assert (st.Accounts_GetCode ab' a = code) as Hnew by (unfold st.Accounts_GetCode; by rewrite HL, decide_True).
    intros c [Hc| ->%list_elem_of_singleton]%elem_of_app; [|exists a; by rewrite Hnew].
    destruct (fa_dd0 c Hc) as (b & Hb & H). exists b. split; [done|]. destruct (decide (a = b)) as [<-|Hne].
    + rewrite Hnew. pose proof (dd_same n used asg c con a Hcomp Hal (Hdds c Hc) Hcon Hb Ha) as [= E1 E2].
      unfold dd_state in *. by rewrite E1, E2.
    + assert (st.Accounts_GetCode ab' b = st.Accounts_GetCode ab b) as -> by (unfold st.Accounts_GetCode; by rewrite HL, decide_False).
      unfold dd_state in *. destruct (dd_isDelegated c); [|done]. destruct H as (d & Hd & Hc1 & Hc2). exists d.
      split; [unfold known in *; set_solver|]. split; [done|]. by rewrite HW.
Qed.

Lemma shape_setCode ab warm a code : shape ab -> zlen code <= 42 -> (forall d, ParseDelegationDesignator code = (d, true) -> d <> a) ->
  shape (st.mkAccounts (st.accounts (AccountsBuilder_SetCode a code ab)) warm).
Proof.
  intros Hs Hl Hd b. unfold st.Accounts_GetCode. cbn [st.accounts]. rewrite SetCode_lookup.
  destruct (decide (a = b)) as [<-|]; [done|apply Hs].
Qed.

(** Everything that is warm is known. *)
Definition warm_known (used : gset Address) (ab : st.Accounts) : Prop := forall a, a ∈ st.warmAccounts ab -> a ∈ known used.

Lemma processDelegation_step n used dd ab con (E : GenErr -> Prop) (w : world R) : alloc n used (w_assignment w) -> n < 2 ^ 20 - 1 ->
  (forall c, c ∈ dd -> c ∈ ag_delegationDesignator g) -> con ∈ ag_delegationDesignator g ->
  shape ab -> warm_known used ab -> (compatible g self asg0 -> facts (w_assignment w) used dd ab) ->
  gwp (processDelegation (used, ab) con) (fun b w' => alloc (n + 2) (fst b) (w_assignment w') /\ w_assignment w ⊆ w_assignment w'
    /\ shape (snd b) /\ warm_known (fst b) (snd b)
    /\ (compatible g self asg0 -> facts (w_assignment w') (fst b) (dd ++ [con]) (snd b))) E w.
Proof.
  intros Hal Hn Hdds Hcon Hs Hw Hf. unfold processDelegation. apply gwp_bind. eapply gwp_bindAddress; [done|by apply in_variables|lia|].
  intros a used1 r asg1 Hal1 Hu1 Hsub1 Ha Hk.
  assert (compatible g self asg0 -> facts asg1 used1 dd ab) as Hf1 by (intros Hc; by apply (facts_frame n used used1 (w_assignment w) asg1 dd ab ab), Hf).
  assert (forall x, x ∈ st.warmAccounts ab -> x ∈ known used1) as Hw1 by (intros x Hx%Hw; unfold known in *; set_solver).
  apply gwp_if; intros Ec.
  - apply gwp_bind. eapply gwp_getUnusedAddress; [done|lia|]. intros d r2 Hd Hal2. apply gwp_ret. cbn [fst snd w_assignment].
    set (code := NewDelegationDesignator d).
    set (warm := if bool_decide (dd_delegateAccountStatus con = WarmAccess) then {[ d ]} ∪ st.warmAccounts ab else st.warmAccounts ab).
    replace (if bool_decide (dd_delegateAccountStatus con = WarmAccess) then AccountsBuilder_SetWarm d (AccountsBuilder_SetCode a code ab) else AccountsBuilder_SetCode a code ab)
      with (st.mkAccounts (st.accounts (AccountsBuilder_SetCode a code ab)) warm) by (unfold warm; by case_bool_decide).
    assert (forall x, x ∈ warm -> x = d \/ x ∈ st.warmAccounts ab) as Hwarm by (intros x; unfold warm; case_bool_decide; set_solver).
    replace (n + 2) with (n + 1 + 1) by lia. split; [done|]. split; [done|]. split; [|split].
    + apply shape_setCode; [done|unfold code, NewDelegationDesignator; rewrite zlen_app, zlen_arr; by vm_compute|].
      intros d' Hd'. unfold code in Hd'. rewrite ParseDelegationDesignator_New in Hd'. injection Hd' as <-. by intros ->.
    + intros x [->|Hx%Hw1]%Hwarm; unfold known in *; set_solver.
    + intros Hc. apply (facts_setCode (n + 1) used1); [done|done|done|done|done|done|set_solver| | |auto].
      * intros x Hx. unfold warm. case_bool_decide; set_solver.
      * unfold dd_state. rewrite Ec. exists d. split; [unfold known; set_solver|]. split; [done|].
        unfold st.Accounts_IsWarm, warm. cbn [st.warmAccounts].
        destruct (bool_decide_reflect (dd_delegateAccountStatus con = WarmAccess));
          [apply bool_decide_eq_true; set_solver|apply bool_decide_eq_false]. by intros Hx%Hw1.
  - apply gwp_ret. cbn [fst snd w_assignment]. split; [destruct Hal1; split; auto; lia|]. split; [done|].
    change (AccountsBuilder_SetCode a [xab; xcd] ab) with (st.mkAccounts (st.accounts (AccountsBuilder_SetCode a [xab; xcd] ab)) (st.warmAccounts ab)).
    split; [|split].
    + by apply shape_setCode.
    + exact Hw1.
    + intros Hc. apply (facts_setCode (n + 1) used1); [done|done|done|done|done|done|done|done| |auto]. unfold dd_state. by rewrite Ec.
Qed.

(** *** Other accounts *)

Lemma no_delegation_42 code d : zlen code = 42 -> ParseDelegationDesignator code = (d, true) -> False.
Proof. intros H. unfold ParseDelegationDesignator. by rewrite H. Qed.

Lemma randomAccount_step n used ab i (E : GenErr -> Prop) (w : world R) : alloc n used (w_assignment w) -> n < 2 ^ 20 ->
  shape ab -> (compatible g self asg0 -> facts (w_assignment w) used (ag_delegationDesignator g) ab) ->
  gwp (randomAccount (used, ab) i) (fun b w' => alloc (n + 1) (fst b) (w_assignment w') /\ w_assignment w' = w_assignment w
    /\ shape (snd b) /\ (compatible g self asg0 -> facts (w_assignment w') (fst b) (ag_delegationDesignator g) (snd b))) E w.
Proof.
  intros Hal Hn Hs Hf. unfold randomAccount. apply gwp_bind. eapply gwp_getUnusedAddress; [done|done|]. intros a r Ha Hal1.
  apply gwp_bind. eapply gwp_draws; [apply draws_RandU256|]. intros x r1 _. apply gwp_bind.
  eapply gwp_draws; [apply draws_Intn; lia|]. intros h r2 _. apply gwp_bind. cbn [w_assignment].
  set (ab1 := AccountsBuilder_SetBalance a x ab).
  assert (forall ab2 r', st.warmAccounts ab2 = st.warmAccounts ab -> shape ab2 -> (forall b, b <> a -> st.accounts ab2 !! b = st.accounts ab !! b) ->
    gwp (isWarm ← gen_Intn 2; mret ({[ a ]} ∪ used, if isWarm =? 1 then AccountsBuilder_SetWarm a ab2 else ab2))
      (fun b w' => alloc (n + 1) (fst b) (w_assignment w') /\ w_assignment w' = w_assignment w
      /\ shape (snd b) /\ (compatible g self asg0 -> facts (w_assignment w') (fst b) (ag_delegationDesignator g) (snd b))) E (mkWorld r' (w_assignment w))) as Hend.
  { intros ab2 r' Hw Hs2 Hb. apply gwp_bind. eapply gwp_draws; [apply draws_Intn; lia|]. intros iw r3 _. apply gwp_ret. cbn [fst snd w_assignment].
    split; [done|]. split; [done|]. split; [by destruct (iw =? 1)|]. intros Hc.
    eapply (facts_frame n used); [exact Hal|done|set_solver|done| |by apply Hf]. intros b Hb'. assert (b <> a) as Hne by (by intros ->).
    split; [destruct (iw =? 1); by apply Hb|]. unfold st.Accounts_IsWarm. apply bool_decide_ext. destruct (iw =? 1); cbn; rewrite Hw; set_solver. }
  assert (forall b, b <> a -> st.accounts ab1 !! b = st.accounts ab !! b) as Hb1 by (intros b Hb; unfold ab1; by rewrite SetBalance_lookup, decide_False).
  assert (shape ab1) as Hs1.
  { intros b. unfold st.Accounts_GetCode. unfold ab1. rewrite SetBalance_lookup. destruct (decide (a = b)) as [<-|]; apply Hs. }
  destruct (h =? 1).
  - apply gwp_bind. eapply gwp_draws; [apply draws_RandomBytesOfSize; lia|]. intros code r4 Hcode. cbn beta in Hcode. apply gwp_ret.
    apply Hend; [done| |].
    + apply (shape_setCode ab1 (st.warmAccounts ab1)); [done|lia|]. intros d Hd. by destruct (no_delegation_42 code d).
    + intros b Hb. by rewrite SetCode_lookup, decide_False, Hb1.
  - apply gwp_ret. by apply Hend.
Qed.

(** *** From the first constraints to the delegations *)

Lemma warm_same n used asg a b x : compatible g self asg0 -> alloc n used asg -> a ∈ ag_warmCold g -> b ∈ ag_warmCold g ->
  address_of asg (wc_key a) = Some x -> address_of asg (wc_key b) = Some x -> wc_warm a = wc_warm b.
Proof.
  intros Hc [] Ha Hb Hxa Hxb. destruct in_variables as (_ & _ & _ & V & _).
  destruct (decide (wc_key a = wc_key b)) as [He|He]; [by eapply warmCold_checked|].
  apply (compat_warm _ _ _ Hc); [done|done|]. eapply al_new0; eauto.
Qed.

Lemma GetAccount_eta ab a : st.Accounts_GetAccount ab a = st.mkAccount (st.Accounts_GetBalance ab a) (st.Accounts_GetCode ab a).
Proof. unfold st.Accounts_GetAccount, st.Accounts_GetBalance, st.Accounts_GetCode. by destruct (default _ _). Qed.

Lemma first_facts n used asg asg1 asg2 l lw Em Ne ab0 warm ab : compatible g self asg0 -> alloc n used asg ->
  asg1 ⊆ asg2 -> asg2 ⊆ asg -> (forall c, c ∈ l <-> c ∈ ag_emptyAccounts g) -> (forall c, c ∈ lw <-> c ∈ ag_warmCold g) ->
  split_ok asg1 l Em Ne -> base_ok Em Ne ab0 -> (forall c, c ∈ lw -> is_Some (address_of asg2 (wc_key c))) ->
  (forall a, a ∈ warm <-> owned asg2 wc_key lw (fun c => wc_warm c = true) a) ->
  balance_ok asg Em (st.mkAccounts (st.accounts ab0) warm) ab -> facts asg used [] ab.
Proof.
  intros Hcomp Hal Hs1 Hs2 Hl Hlw [] [] Hb Hwarm []. destruct in_variables as (V1 & V2 & V3 & V4 & _).
  assert (forall v a, address_of asg1 v = Some a -> address_of asg v = Some a) as W1
    by (intros v a; apply address_of_weaken; by etransitivity).
  split; [| | | |intros c []%not_elem_of_nil].
  - intros c Hc. destruct (sp_each0 c) as (a & Ha & Hin); [by apply Hl|]. exists a. split; [auto|]. destruct (ec_empty c) eqn:Ec.
    + split; [done|]. intros _. rewrite GetAccount_eta, bl_empty0, bl_code0 by done.
      unfold st.Accounts_GetCode. cbn [st.accounts]. by rewrite ba_empty0.
    + split; [|done]. intros Hz. exfalso. destruct (ba_other0 a Hin) as (x & Hx & Hnz).
      unfold st.Accounts_GetAccount in Hz. rewrite bl_other0 in Hz; cbn [st.accounts] in *; [by rewrite Hx in Hz|set_solver|].
      intros (b & Hb' & _ & Hba). destruct (compat_nonempty _ _ _ Hcomp c b Hc Ec Hb') as [Hne Hsh]. apply Hsh.
      eapply al_new; [exact Hal|auto| |done|by apply W1|done]. apply elem_of_app in Hb' as [?|?]; auto.
  - intros c Hc. destruct (bl_min0 c Hc) as (a & Ha & H). eauto.
  - intros c Hc. destruct (bl_max0 c Hc) as (a & Ha & H). eauto.
  - intros c Hc. destruct (Hb c) as [a Ha]; [by apply Hlw|]. exists a.
    assert (address_of asg (wc_key c) = Some a) as Ha' by (by eapply address_of_weaken). split; [done|].
    unfold st.Accounts_IsWarm. rewrite bl_warm0. cbn [st.warmAccounts]. destruct (wc_warm c) eqn:Ew.
    + apply bool_decide_eq_true, Hwarm. exists c. split; [by apply Hlw|done].
    + apply bool_decide_eq_false. intros (d & Hd%Hlw & Hdw & Hda)%Hwarm.
      pose proof (warm_same n used asg c d a Hcomp Hal Hc Hd Ha' (address_of_weaken _ _ _ _ Hs2 Hda)). congruence.
Qed.

Lemma first_shape Em Ne ab0 warm asg ab : base_ok Em Ne ab0 -> balance_ok asg Em (st.mkAccounts (st.accounts ab0) warm) ab -> shape ab.
Proof.
  intros [] [] a. rewrite bl_code0. change (st.Accounts_GetCode (st.mkAccounts (st.accounts ab0) warm) a) with (st.Accounts_GetCode ab0 a).
  specialize (ba_code0 a). split; [lia|]. intros d. unfold ParseDelegationDesignator. rewrite (proj2 (Z.eqb_neq _ _)) by lia. done.
Qed.

Lemma processDelegation_loop l n used ab (E : GenErr -> Prop) (w : world R) : alloc n used (w_assignment w) -> n + 2 * zlen l < 2 ^ 20 ->
  (forall c, c ∈ l -> c ∈ ag_delegationDesignator g) ->
  shape ab -> warm_known used ab -> (compatible g self asg0 -> facts (w_assignment w) used [] ab) ->
  gwp (gen_for processDelegation l (used, ab)) (fun b w' => alloc (n + 2 * zlen l) (fst b) (w_assignment w')
    /\ shape (snd b) /\ (compatible g self asg0 -> facts (w_assignment w') (fst b) l (snd b))) E w.
Proof.
  intros Hal Hn Hl Hs Hw Hf. eapply gwp_mono.
  - apply (gwp_for processDelegation (fun done b w' => alloc (n + 2 * zlen done) (fst b) (w_assignment w')
      /\ shape (snd b) /\ warm_known (fst b) (snd b) /\ (compatible g self asg0 -> facts (w_assignment w') (fst b) done (snd b)))).
    + change (zlen (@nil delegationDesignatorConstraint)) with 0. rewrite Z.mul_0_r, Z.add_0_r. done.
    + intros done c rest [used' ab'] w' El (Hal' & Hs' & Hw' & Hf'). cbn [fst snd] in *.
      assert (zlen done < zlen l) by (rewrite El, zlen_app; unfold zlen; cbn [length]; lia).
      eapply gwp_mono; [apply (processDelegation_step (n + 2 * zlen done) used' done); try done| |done].
      * lia.
      * intros d Hd. apply Hl. rewrite El. apply elem_of_app. by left.
      * apply Hl. rewrite El. apply elem_of_app. right. left.
      * intros b w2 (G1 & _ & G2 & G3 & G4). rewrite zlen_app. change (zlen [c]) with 1.
        replace (n + 2 * (zlen done + 1)) with (n + 2 * zlen done + 2) by lia. done.
  - cbn beta. tauto.
  - done.
Qed.

Lemma randomAccounts_loop l n used ab (E : GenErr -> Prop) (w : world R) : alloc n used (w_assignment w) -> n + zlen l < 2 ^ 20 ->
  shape ab -> (compatible g self asg0 -> facts (w_assignment w) used (ag_delegationDesignator g) ab) ->
  gwp (gen_for randomAccount l (used, ab)) (fun b w' => alloc (n + zlen l) (fst b) (w_assignment w')
    /\ shape (snd b) /\ (compatible g self asg0 -> facts (w_assignment w') (fst b) (ag_delegationDesignator g) (snd b))) E w.
Proof.
  intros Hal Hn Hs Hf.
  apply (gwp_for randomAccount (fun done b w' => alloc (n + zlen done) (fst b) (w_assignment w')
    /\ shape (snd b) /\ (compatible g self asg0 -> facts (w_assignment w') (fst b) (ag_delegationDesignator g) (snd b)))).
  - change (zlen (@nil nat)) with 0. rewrite Z.add_0_r. done.
  - intros done c rest [used' ab'] w' El (Hal' & Hs' & Hf'). cbn [fst snd] in *.
    assert (zlen done < zlen l) by (rewrite El, zlen_app; unfold zlen; cbn [length]; lia).
    eapply gwp_mono; [apply (randomAccount_step (n + zlen done) used'); try done; lia| |done].
    intros b w2 (G1 & _ & G2 & G3). rewrite zlen_app. change (zlen [c]) with 1. by rewrite Z.add_assoc.
Qed.

(** The executing account gets a balance, if it has none, and code. *)
Lemma last_facts n used asg ab ab' code : alloc n used asg -> shape ab -> zlen code = 42 ->
  (st.accounts ab' = st.accounts ab \/ st.accounts ab !! self = None /\ exists x, ab' = AccountsBuilder_SetBalance self x ab) ->
  st.warmAccounts ab' = st.warmAccounts ab ->
  let ab2 := AccountsBuilder_SetCode self code ab' in
  shape ab2 /\ (compatible g self asg0 -> facts asg used (ag_delegationDesignator g) ab -> sat g asg ab2).
Proof.
  intros Hal Hs Hcode Hab Hwarm. cbv zeta.
  assert (forall a, a <> self -> st.accounts ab' !! a = st.accounts ab !! a) as Ho.
  { intros a Ha. destruct Hab as [->|(_ & x & ->)]; [done|]. by rewrite SetBalance_lookup, decide_False. }
  assert (forall a, is_Some (st.accounts ab !! a) -> st.Accounts_GetBalance ab' a = st.Accounts_GetBalance ab a) as Hbal.
  { intros a Ha. unfold st.Accounts_GetBalance. destruct Hab as [->|(Hn & x & ->)]; [done|]. rewrite SetBalance_lookup, decide_False; [done|].
    intros <-. rewrite Hn in Ha. by destruct Ha. }
  set (ab2 := AccountsBuilder_SetCode self code ab').
  assert (forall a, a <> self -> st.accounts ab2 !! a = st.accounts ab !! a) as Ho2.
  { intros a Ha. unfold ab2. rewrite SetCode_lookup, decide_False by done. auto. }
  assert (st.accounts ab2 !! self = Some (st.mkAccount (st.Accounts_GetBalance ab' self) code)) as Hself
    by (unfold ab2; by rewrite SetCode_lookup, decide_True).
  assert (forall a, st.Accounts_GetBalance ab2 a = st.Accounts_GetBalance ab' a) as Hbal2.
  { intros a. unfold st.Accounts_GetBalance at 1. destruct (decide (a = self)) as [->|Ha]; [by rewrite Hself|].
    rewrite Ho2 by done. unfold st.Accounts_GetBalance. by rewrite Ho. }
  assert (forall a, st.Accounts_IsWarm ab2 a = st.Accounts_IsWarm ab a) as HW.
  { intros a. unfold st.Accounts_IsWarm. apply bool_decide_ext. cbn. by rewrite Hwarm. }
  assert (forall v a, v ∈ map ec_address (filter (fun c => ec_empty c = true) (ag_emptyAccounts g)) ++ map dd_address (ag_delegationDesignator g) ->
    compatible g self asg0 -> address_of asg v = Some a -> v ∈ variables g -> a <> self) as Hself'.
  { intros v a Hv Hcomp Ha Hin ->. destruct Hal. destruct (asg0 !! v) as [x|] eqn:Ex.
    - apply (compat_self _ _ _ Hcomp v Hv). rewrite <-Ha. unfold address_of. by rewrite Ex, (lookup_weaken _ _ _ _ Ex al_sub0).
    - by apply (al_fresh0 v self Hin Ex Ha). }
  split.
  - intros a. unfold st.Accounts_GetCode. destruct (decide (a = self)) as [->|Ha].
    + rewrite Hself. cbn. split; [lia|]. intros d Hd. by destruct (no_delegation_42 code d).
    + rewrite Ho2 by done. apply Hs.
  - intros Hcomp []. destruct in_variables as (V1 & V2 & V3 & V4 & V5). split.
    + intros c Hc. destruct (fa_empty0 c Hc) as (a & Ha & H). exists a. split; [done|]. unfold st.Accounts_IsEmpty, st.Accounts_GetAccount.
      destruct (decide (a = self)) as [->|Hne].
      * rewrite Hself. cbn. destruct (ec_empty c) eqn:Ec.
        -- exfalso. apply (Hself' (ec_address c) self); [|done|done|auto|done]. apply elem_of_app. left. apply elem_of_map. exists c.
           split; [done|]. by apply list_elem_of_filter.
        -- apply bool_decide_eq_false. intros [= _ ->]. done.
      * rewrite Ho2 by done. fold (st.Accounts_GetAccount ab a). destruct (ec_empty c); [apply bool_decide_eq_true; by apply H|].
        apply bool_decide_eq_false. by intros Hz%H.
    + intros c Hc. destruct (fa_min0 c Hc) as (a & Ha & H). exists a. split; [done|]. rewrite Hbal2.
      destruct H as [H0|[Hx H]]; [|by rewrite Hbal]. rewrite H0. apply uval_range.
    + intros c Hc. destruct (fa_max0 c Hc) as (a & Ha & Hx & H). exists a. split; [done|]. by rewrite Hbal2, Hbal.
    + intros c Hc. destruct (fa_warm0 c Hc) as (a & Ha & H). exists a. by rewrite HW.
    + intros c Hc. destruct (fa_dd0 c Hc) as (a & Ha & H). exists a. split; [done|].
      assert (a <> self) as Hne by (apply (Hself' (dd_address c)); [apply elem_of_app; right; apply elem_of_map; eauto|done|done|auto]).
      unfold st.Accounts_GetCode. rewrite Ho2 by done. fold (st.Accounts_GetCode ab a). unfold delegation_ok, dd_state in *.
      destruct (dd_isDelegated c); [|by rewrite H]. destruct H as (d & _ & -> & Hd). exists d. by rewrite ParseDelegationDesignator_New, HW.
Qed.

End Facts.

Section Spec.
Context {U : Uint256} {UL : Uint256Laws U} {R : Type} {RND : Rand R} {RL : RandLaws R RND}.

Lemma initial_alloc g self asg l : wf g -> (forall c, c ∈ l <-> c ∈ ag_warmCold g) -> zlen l = zlen (ag_warmCold g) ->
  alloc g self asg (2 ^ 17) ({[ self ]} ∪ list_to_set (omap (fun con => NewAddress <$> asg !! wc_key con) l)) asg.
Proof.
  intros [] Hl Hlen.
  assert (noted g self asg ⊆ {[ self ]} ∪ list_to_set (omap (fun con => NewAddress <$> asg !! wc_key con) l)) as Hnoted.
  { apply union_mono_l. intros a. rewrite !elem_of_list_to_set, !list_elem_of_omap. intros (c & Hc & Ha). exists c. by rewrite Hl. }
  split; [done|done| |done| | |].
  - pose proof (size_add_le self (list_to_set (omap (fun con => NewAddress <$> asg !! wc_key con) l))).
    pose proof (size_list_to_set_le (omap (fun con => NewAddress <$> asg !! wc_key con) l)) as Hs.
    pose proof (length_omap_le (fun con => NewAddress <$> asg !! wc_key con) l) as Ho. unfold zlen in *. lia.
  - intros v a Hv Ha. by eapply given_in.
  - intros u v a Hu Hv Hne Hua Hva. split; [done|]. eauto.
  - intros v a _ Hn. unfold address_of. by rewrite Hn.
Qed.

(** The generated accounts have the shape of valid ones and satisfy compatible
    constraints, if the addresses that are drawn are new. *)
Lemma accounts_Generate_spec g self (Q : st.Accounts -> world R -> Prop) (E : GenErr -> Prop) w : wf g ->
  draws (R := R) RandomAddress (fun a => a ∉ given g self (w_assignment w)) ->
  (forall ab r asg, shape ab -> (compatible g self (w_assignment w) -> sat g asg ab) -> w_assignment w ⊆ asg ->
    (forall v, v ∉ variables g -> asg !! v = w_assignment w !! v) -> Q ab (mkWorld r asg)) ->
  E ErrUnsatisfiable ->
  gwp (Generate g self) Q E w.
Proof.
  intros Hwf Hdraw HQ HE. unfold Generate. apply gwp_bind. unfold gwp at 1.
  set (es := sort_by empty_Less (ag_emptyAccounts g)). set (ds := sort_by delegation_Less (ag_delegationDesignator g)).
  set (ws := sort_by warmCold_Less (ag_warmCold g)).
  apply gwp_bind, gwp_fail_if; [done|]. intros _. apply gwp_bind, gwp_fail_if; [done|]. intros Hdd.
  apply gwp_bind, gwp_fail_if; [done|]. intros Hde. apply gwp_bind, gwp_fail_if; [done|]. intros Hwc.
  assert (forall c, c ∈ es <-> c ∈ ag_emptyAccounts g) as Hes by (intros; apply elem_of_sort_by).
  assert (forall c, c ∈ ds <-> c ∈ ag_delegationDesignator g) as Hds by (intros; apply elem_of_sort_by).
  assert (forall c, c ∈ ws <-> c ∈ ag_warmCold g) as Hws by (intros; apply elem_of_sort_by).
  assert (zlen es = zlen (ag_emptyAccounts g) /\ zlen ds = zlen (ag_delegationDesignator g) /\ zlen ws = zlen (ag_warmCold g)) as (Le & Ld & Lw)
    by (unfold zlen, es, ds, ws; by rewrite !length_sort_by).
  destruct (in_variables g) as (V1 & V2 & V3 & V4 & V5). pose proof Hwf as [].
  pose proof (initial_alloc g self (w_assignment w) ws Hwf Hws Lw) as Hal0. fold ws in Hal0. set (used0 := {[ self ]} ∪ _) in *. clearbody used0.
  apply gwp_bind. eapply processEmpty_loop; [exact Hdraw|exact Hal0|by intros c Hc%Hes; auto|lia|done|].
  intros used1 Em Ne r1 asg1 Hal1 Hsub1 Hsp.
  assert (forall (k : st.Accounts -> Gen R st.Accounts) w', gwp (ab ← (l ← gen_range_set Em; ab ← gen_for makeEmpty l st.NewAccounts;
      l ← gen_range_set Ne; gen_for makeNonEmpty l ab); k ab) Q E w' ->
    gwp (l ← gen_range_set Em; ab ← gen_for makeEmpty l st.NewAccounts; l ← gen_range_set Ne; ab ← gen_for makeNonEmpty l ab; k ab) Q E w') as Hassoc.
  { intros k w'. unfold gwp, mbind, Gen_bind. destruct (gen_range_set Em w') as [l w1| | |]; [|done..].
    destruct (gen_for makeEmpty l st.NewAccounts w1) as [ab w2| | |]; [|done..].
    by destruct (gen_range_set Ne w2). }
  apply Hassoc. clear Hassoc. apply gwp_bind, (makeAccounts_spec g self (w_assignment w) Hdraw); [by eapply sp_apart|]. intros ab0 r2 Hba.
  apply gwp_bind. eapply processWarmCold_loop; [exact Hdraw|exact Hal1|by intros c Hc%Hws; auto|lia|by eapply ba_warm|].
  intros used2 warm r3 asg2 Hal2 Hsub2 Hwb Hwarm. cbn [fst snd w_assignment] in *.
  apply gwp_bind. eapply processBalance_spec; [exact Hdraw|exact Hal2|lia|done|].
  intros used3 ab3 r4 asg3 Hal3 Hsub3 Hbl. cbn [w_assignment] in *.
  apply gwp_bind. eapply gwp_mono.
  { eapply (processDelegation_loop g self (w_assignment w) Hdraw Hdd Hde Hwc); [exact Hal3|lia|by intros c Hc%Hds| | |].
    - by eapply first_shape.
    - intros a Ha. rewrite (bl_warm _ _ _ _ _ Hbl) in Ha. apply Hwarm in Ha as (c & Hc%Hws & _ & Hca).
      eapply al_in; [exact Hal3|by apply V4|]. by eapply address_of_weaken.
    - intros Hc. by eapply (first_facts g self (w_assignment w) Hdraw Hdd Hde Hwc _ _ asg3 asg1 asg2). }
  2: done.
  intros [used4 ab4] [r5 asg4] (Hal4 & Hs4 & Hf4). cbn [fst snd w_assignment] in *.
  apply gwp_bind. eapply gwp_draws; [apply draws_Intn; lia|]. intros max r6 Hmax. cbn beta in Hmax. cbn [w_assignment].
  apply gwp_bind. eapply gwp_mono.
  { eapply (randomAccounts_loop g self (w_assignment w) Hdraw Hdd Hde Hwc); [exact Hal4|unfold zlen in *; rewrite length_seq; lia|done|].
    intros Hc. specialize (Hf4 Hc). destruct Hf4. split; auto. intros c Hin. apply fa_dd0. by apply Hds. }
  2: done.
  intros [used5 ab5] [r7 asg5] (Hal5 & Hs5 & Hf5). cbn [fst snd w_assignment] in *.
  assert (forall ab' r', (st.accounts ab' = st.accounts ab5 \/ st.accounts ab5 !! self = None /\ exists x, ab' = AccountsBuilder_SetBalance self x ab5) ->
    st.warmAccounts ab' = st.warmAccounts ab5 ->
    gwp (code ← RandomBytesOfSize 42; mret (AccountsBuilder_SetCode self code ab')) Q E (mkWorld r' asg5)) as Hend.
  { intros ab' r' Hab Hw. apply gwp_bind. eapply gwp_draws; [apply draws_RandomBytesOfSize; lia|]. intros code r8 Hcode. cbn beta in Hcode.
    apply gwp_ret. destruct (last_facts g self (w_assignment w) _ used5 asg5 ab5 ab' code Hal5 Hs5 Hcode Hab Hw) as [Hsh Hsat].
    destruct Hal5. apply HQ; auto. }
  apply gwp_bind. unfold AccountsBuilder_Exists, st.Accounts_Exists. destruct (bool_decide_reflect (is_Some (st.accounts ab5 !! self))) as [Hx|Hx]; cbn [negb].
  - apply gwp_ret, Hend; [by left|done].
  - apply gwp_bind. eapply gwp_draws; [apply draws_RandU256|]. intros x r8 _. apply gwp_ret, Hend; [|done].
    right. split; [by apply eq_None_not_Some|eauto].
Qed.

Lemma accounts_sat_weaken g asg asg' ab : asg ⊆ asg' -> sat g asg ab -> sat g asg' ab.
Proof.
  intros Hs []. split; intros c Hc.
  - destruct (sat_empty0 c Hc) as (a & Ha & H). exists a. split; [by eapply address_of_weaken|done].
  - destruct (sat_min0 c Hc) as (a & Ha & H). exists a. split; [by eapply address_of_weaken|done].
  - destruct (sat_max0 c Hc) as (a & Ha & H). exists a. split; [by eapply address_of_weaken|done].
  - destruct (sat_warm0 c Hc) as (a & Ha & H). exists a. split; [by eapply address_of_weaken|done].
  - destruct (sat_delegation0 c Hc) as (a & Ha & H). exists a. split; [by eapply address_of_weaken|done].
Qed.

Lemma shared_weaken asg asg' u v : asg ⊆ asg' -> shared asg u v -> shared asg' u v.
Proof. intros Hs [Hne (a & Hu & Hv)]. split; [done|]. exists a. split; by eapply address_of_weaken. Qed.

Lemma accounts_compatible_weaken g self asg asg' : asg ⊆ asg' -> compatible g self asg' -> compatible g self asg.
Proof.
  intros Hs []. split; eauto using shared_weaken.
  - intros a b Ha He Hb Hsh. eapply compat_empty0; eauto using shared_weaken.
  - intros a b Ha He Hb. destruct (compat_nonempty0 a b Ha He Hb). split; [done|]. eauto using shared_weaken.
  - intros v Hv Ha. eapply compat_self0; [done|]. by eapply address_of_weaken.
Qed.

End Spec.

End AccountsGenerator.
