(* ===== verification/CtGenState.v ===== *)
(** * The generator of states

    [go/ct/gen/state.go]: constraints on all parts of a state, and a state that
    satisfies them. *)
From Stdlib Require Import ZArith Lia Strings.Byte.
From stdpp Require Import base list numbers gmap strings sorting.
From S2P Require Import Prelude Uint256 Types OpCodes CtCommon CtState CtStateFacts CtRules CtConformArith CtRand CtGenSolvers.
From S2P Require Import CtGenStack CtGenCode CtGenStorage CtGenContexts CtGenAccounts SfvmMemory CtExec CtConform.
Set Default Goal Selector "!".
Local Open Scope Z_scope.
Local Open Scope go_scope.

Record variableBinding := mkVariableBinding { vb_variable : Var; vb_value : U256 }.

#[global] Instance variableBinding_eqdec : EqDecision variableBinding.
Proof. solve_decision. Defined.

(** A status code is an integer; the constants are the first four. *)
Definition NumStatusCodes : Z := 4.

Definition StatusCode_of (n : Z) : option st.StatusCode :=
  if n =? 0 then Some st.Running else if n =? 1 then Some st.Stopped else if n =? 2 then Some st.Reverted
  else if n =? 3 then Some st.Failed else None.

(** The field [f] of the source is [ng_f]. *)
Record StateGenerator := mkStateGenerator {
  ng_statusConstraints : list Z;
  ng_readOnlyConstraints : list bool;
  ng_pcConstantConstraints : list Z;
  ng_pcVariableConstraints : list Var;
  ng_gasConstraints : RangeSolver;
  ng_gasRefundConstraints : RangeSolver;
  ng_variableBindings : list variableBinding;
  ng_selfAddressConstraints : list Address;
  ng_selfAddressBindings : list Var;
  ng_codeGen : CodeGenerator;
  ng_stackGen : StackGenerator;
  ng_memoryGen : MemoryGenerator;
  ng_storageGen : StorageGenerator;
  ng_transientStorageGen : TransientStorageGenerator;
  ng_accountsGen : AccountsGenerator;
  ng_callContextGen : CallContextGenerator;
  ng_callJournalGen : CallJournalGenerator;
  ng_blockContextGen : BlockContextGenerator;
  ng_hasSelfDestructedGen : SelfDestructedGenerator;
  ng_transactionContextGen : TransactionContextGenerator
}.

Module StateGenerator.

Definition New : StateGenerator :=
  mkStateGenerator [] [] [] [] (NewRangeSolver 0 st.MaxGasUsedByCt) (NewRangeSolver (- st.MaxGasUsedByCt) st.MaxGasUsedByCt) [] [] []
    CodeGenerator.New StackGenerator.New NewMemoryGenerator StorageGenerator.New TransientStorageGenerator.New AccountsGenerator.New
    NewCallContextGenerator NewCallJournalGenerator BlockContextGenerator.New SelfDestructedGenerator.New
    TransactionContextGenerator.New.

(** Changes of one field. *)

Definition on_statusConstraints (f : list Z -> list Z) (g : StateGenerator) : StateGenerator :=
  mkStateGenerator (f (ng_statusConstraints g)) (ng_readOnlyConstraints g) (ng_pcConstantConstraints g)
    (ng_pcVariableConstraints g) (ng_gasConstraints g) (ng_gasRefundConstraints g) (ng_variableBindings g)
    (ng_selfAddressConstraints g) (ng_selfAddressBindings g) (ng_codeGen g) (ng_stackGen g) (ng_memoryGen g)
    (ng_storageGen g) (ng_transientStorageGen g) (ng_accountsGen g) (ng_callContextGen g) (ng_callJournalGen
    g) (ng_blockContextGen g) (ng_hasSelfDestructedGen g) (ng_transactionContextGen g).

Definition on_readOnlyConstraints (f : list bool -> list bool) (g : StateGenerator) : StateGenerator :=
  mkStateGenerator (ng_statusConstraints g) (f (ng_readOnlyConstraints g)) (ng_pcConstantConstraints g)
    (ng_pcVariableConstraints g) (ng_gasConstraints g) (ng_gasRefundConstraints g) (ng_variableBindings g)
    (ng_selfAddressConstraints g) (ng_selfAddressBindings g) (ng_codeGen g) (ng_stackGen g) (ng_memoryGen g)
    (ng_storageGen g) (ng_transientStorageGen g) (ng_accountsGen g) (ng_callContextGen g) (ng_callJournalGen
    g) (ng_blockContextGen g) (ng_hasSelfDestructedGen g) (ng_transactionContextGen g).

Definition on_pcConstantConstraints (f : list Z -> list Z) (g : StateGenerator) : StateGenerator :=
  mkStateGenerator (ng_statusConstraints g) (ng_readOnlyConstraints g) (f (ng_pcConstantConstraints g))
    (ng_pcVariableConstraints g) (ng_gasConstraints g) (ng_gasRefundConstraints g) (ng_variableBindings g)
    (ng_selfAddressConstraints g) (ng_selfAddressBindings g) (ng_codeGen g) (ng_stackGen g) (ng_memoryGen g)
    (ng_storageGen g) (ng_transientStorageGen g) (ng_accountsGen g) (ng_callContextGen g) (ng_callJournalGen
    g) (ng_blockContextGen g) (ng_hasSelfDestructedGen g) (ng_transactionContextGen g).

Definition on_pcVariableConstraints (f : list Var -> list Var) (g : StateGenerator) : StateGenerator :=
  mkStateGenerator (ng_statusConstraints g) (ng_readOnlyConstraints g) (ng_pcConstantConstraints g) (f
    (ng_pcVariableConstraints g)) (ng_gasConstraints g) (ng_gasRefundConstraints g) (ng_variableBindings g)
    (ng_selfAddressConstraints g) (ng_selfAddressBindings g) (ng_codeGen g) (ng_stackGen g) (ng_memoryGen g)
    (ng_storageGen g) (ng_transientStorageGen g) (ng_accountsGen g) (ng_callContextGen g) (ng_callJournalGen
    g) (ng_blockContextGen g) (ng_hasSelfDestructedGen g) (ng_transactionContextGen g).

Definition on_gasConstraints (f : RangeSolver -> RangeSolver) (g : StateGenerator) : StateGenerator :=
  mkStateGenerator (ng_statusConstraints g) (ng_readOnlyConstraints g) (ng_pcConstantConstraints g)
    (ng_pcVariableConstraints g) (f (ng_gasConstraints g)) (ng_gasRefundConstraints g) (ng_variableBindings g)
    (ng_selfAddressConstraints g) (ng_selfAddressBindings g) (ng_codeGen g) (ng_stackGen g) (ng_memoryGen g)
    (ng_storageGen g) (ng_transientStorageGen g) (ng_accountsGen g) (ng_callContextGen g) (ng_callJournalGen
    g) (ng_blockContextGen g) (ng_hasSelfDestructedGen g) (ng_transactionContextGen g).

Definition on_gasRefundConstraints (f : RangeSolver -> RangeSolver) (g : StateGenerator) : StateGenerator :=
  mkStateGenerator (ng_statusConstraints g) (ng_readOnlyConstraints g) (ng_pcConstantConstraints g)
    (ng_pcVariableConstraints g) (ng_gasConstraints g) (f (ng_gasRefundConstraints g)) (ng_variableBindings g)
    (ng_selfAddressConstraints g) (ng_selfAddressBindings g) (ng_codeGen g) (ng_stackGen g) (ng_memoryGen g)
    (ng_storageGen g) (ng_transientStorageGen g) (ng_accountsGen g) (ng_callContextGen g) (ng_callJournalGen
    g) (ng_blockContextGen g) (ng_hasSelfDestructedGen g) (ng_transactionContextGen g).

Definition on_variableBindings (f : list variableBinding -> list variableBinding) (g : StateGenerator) : StateGenerator :=
  mkStateGenerator (ng_statusConstraints g) (ng_readOnlyConstraints g) (ng_pcConstantConstraints g)
    (ng_pcVariableConstraints g) (ng_gasConstraints g) (ng_gasRefundConstraints g) (f (ng_variableBindings g))
    (ng_selfAddressConstraints g) (ng_selfAddressBindings g) (ng_codeGen g) (ng_stackGen g) (ng_memoryGen g)
    (ng_storageGen g) (ng_transientStorageGen g) (ng_accountsGen g) (ng_callContextGen g) (ng_callJournalGen
    g) (ng_blockContextGen g) (ng_hasSelfDestructedGen g) (ng_transactionContextGen g).

Definition on_selfAddressConstraints (f : list Address -> list Address) (g : StateGenerator) : StateGenerator :=
  mkStateGenerator (ng_statusConstraints g) (ng_readOnlyConstraints g) (ng_pcConstantConstraints g)
    (ng_pcVariableConstraints g) (ng_gasConstraints g) (ng_gasRefundConstraints g) (ng_variableBindings g) (f
    (ng_selfAddressConstraints g)) (ng_selfAddressBindings g) (ng_codeGen g) (ng_stackGen g) (ng_memoryGen g)
    (ng_storageGen g) (ng_transientStorageGen g) (ng_accountsGen g) (ng_callContextGen g) (ng_callJournalGen
    g) (ng_blockContextGen g) (ng_hasSelfDestructedGen g) (ng_transactionContextGen g).

Definition on_selfAddressBindings (f : list Var -> list Var) (g : StateGenerator) : StateGenerator :=
  mkStateGenerator (ng_statusConstraints g) (ng_readOnlyConstraints g) (ng_pcConstantConstraints g)
    (ng_pcVariableConstraints g) (ng_gasConstraints g) (ng_gasRefundConstraints g) (ng_variableBindings g)
    (ng_selfAddressConstraints g) (f (ng_selfAddressBindings g)) (ng_codeGen g) (ng_stackGen g) (ng_memoryGen
    g) (ng_storageGen g) (ng_transientStorageGen g) (ng_accountsGen g) (ng_callContextGen g)
    (ng_callJournalGen g) (ng_blockContextGen g) (ng_hasSelfDestructedGen g) (ng_transactionContextGen g).

Definition on_codeGen (f : CodeGenerator -> CodeGenerator) (g : StateGenerator) : StateGenerator :=
  mkStateGenerator (ng_statusConstraints g) (ng_readOnlyConstraints g) (ng_pcConstantConstraints g)
    (ng_pcVariableConstraints g) (ng_gasConstraints g) (ng_gasRefundConstraints g) (ng_variableBindings g)
    (ng_selfAddressConstraints g) (ng_selfAddressBindings g) (f (ng_codeGen g)) (ng_stackGen g) (ng_memoryGen
    g) (ng_storageGen g) (ng_transientStorageGen g) (ng_accountsGen g) (ng_callContextGen g)
    (ng_callJournalGen g) (ng_blockContextGen g) (ng_hasSelfDestructedGen g) (ng_transactionContextGen g).

Definition on_stackGen (f : StackGenerator -> StackGenerator) (g : StateGenerator) : StateGenerator :=
  mkStateGenerator (ng_statusConstraints g) (ng_readOnlyConstraints g) (ng_pcConstantConstraints g)
    (ng_pcVariableConstraints g) (ng_gasConstraints g) (ng_gasRefundConstraints g) (ng_variableBindings g)
    (ng_selfAddressConstraints g) (ng_selfAddressBindings g) (ng_codeGen g) (f (ng_stackGen g)) (ng_memoryGen
    g) (ng_storageGen g) (ng_transientStorageGen g) (ng_accountsGen g) (ng_callContextGen g)
    (ng_callJournalGen g) (ng_blockContextGen g) (ng_hasSelfDestructedGen g) (ng_transactionContextGen g).

Definition on_storageGen (f : StorageGenerator -> StorageGenerator) (g : StateGenerator) : StateGenerator :=
  mkStateGenerator (ng_statusConstraints g) (ng_readOnlyConstraints g) (ng_pcConstantConstraints g)
    (ng_pcVariableConstraints g) (ng_gasConstraints g) (ng_gasRefundConstraints g) (ng_variableBindings g)
    (ng_selfAddressConstraints g) (ng_selfAddressBindings g) (ng_codeGen g) (ng_stackGen g) (ng_memoryGen g)
    (f (ng_storageGen g)) (ng_transientStorageGen g) (ng_accountsGen g) (ng_callContextGen g)
    (ng_callJournalGen g) (ng_blockContextGen g) (ng_hasSelfDestructedGen g) (ng_transactionContextGen g).

Definition on_transientStorageGen (f : TransientStorageGenerator -> TransientStorageGenerator) (g : StateGenerator) : StateGenerator :=
  mkStateGenerator (ng_statusConstraints g) (ng_readOnlyConstraints g) (ng_pcConstantConstraints g)
    (ng_pcVariableConstraints g) (ng_gasConstraints g) (ng_gasRefundConstraints g) (ng_variableBindings g)
    (ng_selfAddressConstraints g) (ng_selfAddressBindings g) (ng_codeGen g) (ng_stackGen g) (ng_memoryGen g)
    (ng_storageGen g) (f (ng_transientStorageGen g)) (ng_accountsGen g) (ng_callContextGen g)
    (ng_callJournalGen g) (ng_blockContextGen g) (ng_hasSelfDestructedGen g) (ng_transactionContextGen g).

Definition on_accountsGen (f : AccountsGenerator -> AccountsGenerator) (g : StateGenerator) : StateGenerator :=
  mkStateGenerator (ng_statusConstraints g) (ng_readOnlyConstraints g) (ng_pcConstantConstraints g)
    (ng_pcVariableConstraints g) (ng_gasConstraints g) (ng_gasRefundConstraints g) (ng_variableBindings g)
    (ng_selfAddressConstraints g) (ng_selfAddressBindings g) (ng_codeGen g) (ng_stackGen g) (ng_memoryGen g)
    (ng_storageGen g) (ng_transientStorageGen g) (f (ng_accountsGen g)) (ng_callContextGen g)
    (ng_callJournalGen g) (ng_blockContextGen g) (ng_hasSelfDestructedGen g) (ng_transactionContextGen g).

Definition on_blockContextGen (f : BlockContextGenerator -> BlockContextGenerator) (g : StateGenerator) : StateGenerator :=
  mkStateGenerator (ng_statusConstraints g) (ng_readOnlyConstraints g) (ng_pcConstantConstraints g)
    (ng_pcVariableConstraints g) (ng_gasConstraints g) (ng_gasRefundConstraints g) (ng_variableBindings g)
    (ng_selfAddressConstraints g) (ng_selfAddressBindings g) (ng_codeGen g) (ng_stackGen g) (ng_memoryGen g)
    (ng_storageGen g) (ng_transientStorageGen g) (ng_accountsGen g) (ng_callContextGen g) (ng_callJournalGen
    g) (f (ng_blockContextGen g)) (ng_hasSelfDestructedGen g) (ng_transactionContextGen g).

Definition on_hasSelfDestructedGen (f : SelfDestructedGenerator -> SelfDestructedGenerator) (g : StateGenerator) : StateGenerator :=
  mkStateGenerator (ng_statusConstraints g) (ng_readOnlyConstraints g) (ng_pcConstantConstraints g)
    (ng_pcVariableConstraints g) (ng_gasConstraints g) (ng_gasRefundConstraints g) (ng_variableBindings g)
    (ng_selfAddressConstraints g) (ng_selfAddressBindings g) (ng_codeGen g) (ng_stackGen g) (ng_memoryGen g)
    (ng_storageGen g) (ng_transientStorageGen g) (ng_accountsGen g) (ng_callContextGen g) (ng_callJournalGen
    g) (ng_blockContextGen g) (f (ng_hasSelfDestructedGen g)) (ng_transactionContextGen g).

Definition on_transactionContextGen (f : TransactionContextGenerator -> TransactionContextGenerator) (g : StateGenerator) : StateGenerator :=
  mkStateGenerator (ng_statusConstraints g) (ng_readOnlyConstraints g) (ng_pcConstantConstraints g)
    (ng_pcVariableConstraints g) (ng_gasConstraints g) (ng_gasRefundConstraints g) (ng_variableBindings g)
    (ng_selfAddressConstraints g) (ng_selfAddressBindings g) (ng_codeGen g) (ng_stackGen g) (ng_memoryGen g)
    (ng_storageGen g) (ng_transientStorageGen g) (ng_accountsGen g) (ng_callContextGen g) (ng_callJournalGen
    g) (ng_blockContextGen g) (ng_hasSelfDestructedGen g) (f (ng_transactionContextGen g)).

Definition BindValue (variable : Var) (value : U256) : StateGenerator -> StateGenerator :=
  on_variableBindings (add_once (mkVariableBinding variable value)).

Definition SetStatus (status : Z) : StateGenerator -> StateGenerator := on_statusConstraints (add_once status).

Definition SetRevision (revision : Revision) : StateGenerator -> StateGenerator :=
  on_blockContextGen (BlockContextGenerator.SetRevision revision).

Definition AddRevisionBounds (min max : Revision) : StateGenerator -> StateGenerator :=
  on_blockContextGen (BlockContextGenerator.AddRevisionBounds min max).

Definition SetReadOnly (readOnly : bool) : StateGenerator -> StateGenerator := on_readOnlyConstraints (add_once readOnly).

Definition SetPc (pc : Z) : StateGenerator -> StateGenerator := on_pcConstantConstraints (add_once pc).

Definition BindPc (pc : Var) : StateGenerator -> StateGenerator := on_pcVariableConstraints (add_once pc).

Definition BindToSelfAddress (address : Var) : StateGenerator -> StateGenerator := on_selfAddressBindings (add_once address).

Definition SetSelfAddress (address : Address) : StateGenerator -> StateGenerator := on_selfAddressConstraints (add_once address).

Definition SetGas (gas : Z) : StateGenerator -> StateGenerator := on_gasConstraints (RangeSolver.AddEqualityConstraint gas).

Definition AddGasLowerBound (gas : Z) : StateGenerator -> StateGenerator := on_gasConstraints (RangeSolver.AddLowerBoundary gas).

Definition AddGasUpperBound (gas : Z) : StateGenerator -> StateGenerator := on_gasConstraints (RangeSolver.AddUpperBoundary gas).

Definition SetGasRefund (gasRefund : Z) : StateGenerator -> StateGenerator :=
  on_gasRefundConstraints (RangeSolver.AddEqualityConstraint gasRefund).

Definition AddGasRefundLowerBound (gas : Z) : StateGenerator -> StateGenerator :=
  on_gasRefundConstraints (RangeSolver.AddLowerBoundary gas).

Definition AddGasRefundUpperBound (gas : Z) : StateGenerator -> StateGenerator :=
  on_gasRefundConstraints (RangeSolver.AddUpperBoundary gas).

Definition SetCodeOperation (pos : Z) (op : OpCode) : StateGenerator -> StateGenerator := on_codeGen (CodeGenerator.SetOperation pos op).

Definition AddCodeOperation (v : Var) (op : OpCode) : StateGenerator -> StateGenerator := on_codeGen (CodeGenerator.AddOperation v op).

Definition AddIsCode (v : Var) : StateGenerator -> StateGenerator := on_codeGen (CodeGenerator.AddIsCode v).

Definition AddIsData (v : Var) : StateGenerator -> StateGenerator := on_codeGen (CodeGenerator.AddIsData v).

Definition AddStackSizeLowerBound (size : Z) : StateGenerator -> StateGenerator := on_stackGen (StackGenerator.AddMinSize size).

Definition AddStackSizeUpperBound (size : Z) : StateGenerator -> StateGenerator := on_stackGen (StackGenerator.AddMaxSize size).

Definition SetStackSize (size : Z) : StateGenerator -> StateGenerator := on_stackGen (StackGenerator.SetSize size).

Definition SetStackValue (pos : Z) (value : U256) : StateGenerator -> StateGenerator := on_stackGen (StackGenerator.SetValue pos value).

Definition BindStackValue (pos : Z) (v : Var) : StateGenerator -> StateGenerator := on_stackGen (StackGenerator.BindValue pos v).

Definition BindStorageConfiguration (config : StorageStatus) (key newValue : Var) : StateGenerator -> StateGenerator :=
  on_storageGen (StorageGenerator.BindConfiguration config key newValue).

Definition BindIsStorageWarm (key : Var) : StateGenerator -> StateGenerator := on_storageGen (StorageGenerator.BindWarm key).

Definition BindIsStorageCold (key : Var) : StateGenerator -> StateGenerator := on_storageGen (StorageGenerator.BindCold key).

Definition BindTransientStorageToNonZero (key : Var) : StateGenerator -> StateGenerator :=
  on_transientStorageGen (TransientStorageGenerator.BindToNonZero key).

Definition BindTransientStorageToZero (key : Var) : StateGenerator -> StateGenerator :=
  on_transientStorageGen (TransientStorageGenerator.BindToZero key).

Definition BindToAddressOfEmptyAccount (address : Var) : StateGenerator -> StateGenerator :=
  on_accountsGen (AccountsGenerator.BindToAddressOfEmptyAccount address).

Definition BindToAddressOfNonEmptyAccount (address : Var) : StateGenerator -> StateGenerator :=
  on_accountsGen (AccountsGenerator.BindToAddressOfNonEmptyAccount address).

Definition AddBalanceLowerBound (address : Var) (value : U256) : StateGenerator -> StateGenerator :=
  on_accountsGen (AccountsGenerator.AddBalanceLowerBound address value).

Definition AddBalanceUpperBound (address : Var) (value : U256) : StateGenerator -> StateGenerator :=
  on_accountsGen (AccountsGenerator.AddBalanceUpperBound address value).

Definition BindToWarmAddress (key : Var) : StateGenerator -> StateGenerator := on_accountsGen (AccountsGenerator.BindWarm key).

Definition BindToColdAddress (key : Var) : StateGenerator -> StateGenerator := on_accountsGen (AccountsGenerator.BindCold key).

Definition MustBeNewContract : StateGenerator -> StateGenerator :=
  on_hasSelfDestructedGen SelfDestructedGenerator.MarkAsNewContract.

Definition MustNotBeNewContract : StateGenerator -> StateGenerator :=
  on_hasSelfDestructedGen SelfDestructedGenerator.MarkAsNotNewContract.

Definition MustBeSelfDestructed : StateGenerator -> StateGenerator :=
  on_hasSelfDestructedGen SelfDestructedGenerator.MarkAsSelfDestructed.

Definition MustNotBeSelfDestructed : StateGenerator -> StateGenerator :=
  on_hasSelfDestructedGen SelfDestructedGenerator.MarkAsNotSelfDestructed.

Definition RestrictVariableToOneOfTheLast256Blocks (variable : Var) : StateGenerator -> StateGenerator :=
  on_blockContextGen (BlockContextGenerator.RestrictVariableToOneOfTheLast256Blocks variable).

Definition RestrictVariableToNoneOfTheLast256Blocks (variable : Var) : StateGenerator -> StateGenerator :=
  on_blockContextGen (BlockContextGenerator.RestrictVariableToNoneOfTheLast256Blocks variable).

Definition SetBlockNumberOffsetValue (variable : Var) (value : Z) : StateGenerator -> StateGenerator :=
  on_blockContextGen (BlockContextGenerator.SetBlockNumberOffsetValue variable value).

Definition IsPresentBlobHashIndex (variable : Var) : StateGenerator -> StateGenerator :=
  on_transactionContextGen (TransactionContextGenerator.IsPresentBlobHashIndex variable).

Definition IsAbsentBlobHashIndex (variable : Var) : StateGenerator -> StateGenerator :=
  on_transactionContextGen (TransactionContextGenerator.IsAbsentBlobHashIndex variable).

Definition BindToAddressOfDelegatingAccount (address : Var) (delegateAccountStatus : AccessStatus) : StateGenerator -> StateGenerator :=
  on_accountsGen (AccountsGenerator.BindToAddressOfDelegatingAccount address delegateAccountStatus).

Definition BindToAddressOfNotDelegatingAccount (address : Var) : StateGenerator -> StateGenerator :=
  on_accountsGen (AccountsGenerator.BindToAddressOfNotDelegatingAccount address).

Section Generate.
Context {U : Uint256} {R : Type} {RND : Rand R}.

Definition enforceBinding (_ : unit) (binding : variableBinding) : Gen R unit :=
  cur ← gen_lookup (vb_variable binding);
  _ ← gen_fail_if (match cur with Some cur => negb (bool_decide (cur = vb_value binding)) | None => false end) ErrUnsatisfiable;
  gen_assign (vb_variable binding) (vb_value binding).

Definition pickStatus (statusConstraints : list Z) : Gen R st.StatusCode :=
  match statusConstraints with
  | [] => n ← gen_Int31n NumStatusCodes; gen_lift (StatusCode_of n)
  | [resultStatus] =>
      if (resultStatus <? 0) || (resultStatus >=? NumStatusCodes) then gen_fail ErrUnsatisfiable
      else gen_lift (StatusCode_of resultStatus)
  | _ => gen_fail ErrUnsatisfiable
  end.

Definition pickReadOnly (readOnlyConstraints : list bool) : Gen R bool :=
  match readOnlyConstraints with
  | [] => n ← gen_Uint32n 2; mret (n =? 1)
  | [readOnly] => mret readOnly
  | _ => gen_fail ErrUnsatisfiable
  end.

Definition collectPc (values : list Z) (cur : Var) : Gen R (list Z) :=
  pc ← gen_lookup cur;
  match pc with
  | None => gen_fail ErrUnboundVariable
  | Some pc =>
      let value := U256_Uint64 pc mod 2 ^ 16 in
      mret (add_once value values)
  end.

Definition pickPc (pcConstantConstraints : list Z) (pcVariableConstraints : list Var) (code : st.Code) : Gen R Z :=
  values ← gen_for collectPc pcVariableConstraints pcConstantConstraints;
  match values with
  | [] => if zlen (st.code code) >? 0 then n ← gen_Int31n (zlen (st.code code)); mret (n mod 2 ^ 16) else mret 0
  | [pc] => mret pc
  | _ => gen_fail ErrUnsatisfiable
  end.

(** The address that the variables agree on, if any has a value. *)
Definition checkSelfAddress (address : option Address) (v : Var) : Gen R (option Address) :=
  value ← gen_lookup v;
  match value with
  | None => mret address
  | Some value =>
      let should := NewAddress value in
      match address with
      | None => mret (Some should)
      | Some address => if negb (bool_decide (should = address)) then gen_fail ErrUnsatisfiable else mret (Some address)
      end
  end.

Definition pickSelfAddress (selfAddressConstraints : list Address) (selfAddressBindings : list Var) : Gen R Address :=
  _ ← gen_fail_if (zlen selfAddressConstraints >? 1) ErrUnsatisfiable;
  let address := head selfAddressConstraints in
  address ← gen_for checkSelfAddress selfAddressBindings address;
  accountAddress ← match address with Some address => mret address | None => RandomAddress end;
  _ ← gen_for (fun _ v => value ← gen_lift (NewU256FromBytes (arr_bytes accountAddress)); gen_assign v value) selfAddressBindings tt;
  mret accountAddress.

(** [generateWith], for an assignment in the world; the pool returns the stack
    [pooled]. The generator of the stack is changed, see there. *)
Definition generateWith (pooled : st.Stack) (g : StateGenerator) : Gen R (st.State * StateGenerator) :=
  _ ← gen_for enforceBinding (ng_variableBindings g) tt;
  resultStatus ← pickStatus (ng_statusConstraints g);
  resultCode ← CodeGenerator.Generate (ng_codeGen g);
  resultReadOnly ← pickReadOnly (ng_readOnlyConstraints g);
  resultPc ← pickPc (ng_pcConstantConstraints g) (ng_pcVariableConstraints g) resultCode;
  resultGas ← RangeSolver.Generate Int64 (ng_gasConstraints g);
  resultGasRefund ← RangeSolver.Generate Int64 (ng_gasRefundConstraints g);
  accountAddress ← pickSelfAddress (ng_selfAddressConstraints g) (ng_selfAddressBindings g);
  resultCallContext ← CallContextGenerator.Generate accountAddress (ng_callContextGen g);
  resultCallJournal ← CallJournalGenerator.Generate (ng_callJournalGen g);
  resultCallData ← RandomBytes st.MaxDataSize;
  resultLastCallReturnData ← RandomBytes st.MaxDataSize;
  '(resultHasSelfdestructed, resultIsNewContract) ← SelfDestructedGenerator.Generate (ng_hasSelfDestructedGen g);
  resultRecentBlockHashes ← NewRandomImmutableHashArray;
  resultStorage ← StorageGenerator.Generate (ng_storageGen g);
  resultTransient ← TransientStorageGenerator.Generate (ng_transientStorageGen g);
  resultAccounts ← AccountsGenerator.Generate (ng_accountsGen g) accountAddress;
  resultMemory ← MemoryGenerator.Generate (ng_memoryGen g);
  resultTransactionContext ← TransactionContextGenerator.Generate (ng_transactionContextGen g);
  resultBlockContext ← BlockContextGenerator.Generate (ng_blockContextGen g);
  '(resultStack, stackGen) ← StackGenerator.Generate pooled (ng_stackGen g);
  let resultRevision := GetRevisionForBlock (st.bc_BlockNumber resultBlockContext) in
  let new := st.NewState resultCode in
  mret (st.mkState resultStatus resultRevision resultReadOnly resultPc resultGas resultGasRefund resultCode resultStack resultMemory
      resultStorage resultTransient resultAccounts (st.s_Logs new) resultCallContext resultCallJournal resultBlockContext
      resultCallData resultLastCallReturnData (st.s_ReturnData new) resultIsNewContract resultHasSelfdestructed
      (st.s_SelfDestructedJournal new) resultRecentBlockHashes resultTransactionContext,
    on_stackGen (fun _ => stackGen) g).

(** [Generate]: with an empty assignment. *)
Definition Generate (pooled : st.Stack) (g : StateGenerator) (r : R) : genResult R (st.State * StateGenerator) :=
  generateWith pooled g (mkWorld r ∅).

End Generate.

Definition Clone (g : StateGenerator) : StateGenerator :=
  mkStateGenerator (ng_statusConstraints g) (ng_readOnlyConstraints g) (ng_pcConstantConstraints g)
    (ng_pcVariableConstraints g) (RangeSolver.Clone (ng_gasConstraints g)) (RangeSolver.Clone (ng_gasRefundConstraints
    g)) (ng_variableBindings g) (ng_selfAddressConstraints g) (ng_selfAddressBindings g) (CodeGenerator.Clone
    (ng_codeGen g)) (StackGenerator.Clone (ng_stackGen g)) (MemoryGenerator.Clone (ng_memoryGen g))
    (StorageGenerator.Clone (ng_storageGen g)) (TransientStorageGenerator.Clone (ng_transientStorageGen g))
    (AccountsGenerator.Clone (ng_accountsGen g)) (CallContextGenerator.Clone (ng_callContextGen g))
    (CallJournalGenerator.Clone (ng_callJournalGen g)) (BlockContextGenerator.Clone (ng_blockContextGen g))
    (SelfDestructedGenerator.Clone (ng_hasSelfDestructedGen g)) (TransactionContextGenerator.Clone
    (ng_transactionContextGen g)).

Definition Restore (g other : StateGenerator) : StateGenerator :=
  mkStateGenerator (ng_statusConstraints other) (ng_readOnlyConstraints other) (ng_pcConstantConstraints other)
    (ng_pcVariableConstraints other) (RangeSolver.Restore (ng_gasConstraints g) (ng_gasConstraints other))
    (RangeSolver.Restore (ng_gasRefundConstraints g) (ng_gasRefundConstraints other)) (ng_variableBindings other)
    (ng_selfAddressConstraints other) (ng_selfAddressBindings other) (CodeGenerator.Restore (ng_codeGen g) (ng_codeGen
    other)) (StackGenerator.Restore (ng_stackGen g) (ng_stackGen other)) (MemoryGenerator.Restore (ng_memoryGen g)
    (ng_memoryGen other)) (StorageGenerator.Restore (ng_storageGen g) (ng_storageGen other))
    (TransientStorageGenerator.Restore (ng_transientStorageGen g) (ng_transientStorageGen other))
    (AccountsGenerator.Restore (ng_accountsGen g) (ng_accountsGen other)) (CallContextGenerator.Restore
    (ng_callContextGen g) (ng_callContextGen other)) (CallJournalGenerator.Restore (ng_callJournalGen g)
    (ng_callJournalGen other)) (BlockContextGenerator.Restore (ng_blockContextGen g) (ng_blockContextGen other))
    (SelfDestructedGenerator.Restore (ng_hasSelfDestructedGen g) (ng_hasSelfDestructedGen other))
    (TransactionContextGenerator.Restore (ng_transactionContextGen g) (ng_transactionContextGen other)).

(** ** What the constraints mean *)

(** A state and an assignment satisfy all constraints of a generator. *)
Record sat `{Uint256} (g : StateGenerator) (asg : Assignment) (s : st.State) : Prop := {
  sat_binding b : b ∈ ng_variableBindings g -> asg !! vb_variable b = Some (vb_value b);
  sat_status c : c ∈ ng_statusConstraints g -> StatusCode_of c = Some (st.s_Status s);
  sat_readOnly c : c ∈ ng_readOnlyConstraints g -> st.s_ReadOnly s = c;
  sat_pc c : c ∈ ng_pcConstantConstraints g -> st.s_Pc s = c;
  sat_pcVariable v : v ∈ ng_pcVariableConstraints g -> exists x, asg !! v = Some x /\ st.s_Pc s = uval x mod 2 ^ 16;
  sat_gas : RangeSolver.admits (ng_gasConstraints g) (st.s_Gas s);
  sat_gasRefund : RangeSolver.admits (ng_gasRefundConstraints g) (st.s_GasRefund s);
  sat_self a : a ∈ ng_selfAddressConstraints g -> st.cc_AccountAddress (st.s_CallContext s) = a;
  sat_selfVariable v : v ∈ ng_selfAddressBindings g ->
    exists x, asg !! v = Some x /\ NewAddress x = st.cc_AccountAddress (st.s_CallContext s);
  sat_code : CodeGenerator.sat (ng_codeGen g) asg (st.s_Code s);
  sat_stack : StackGenerator.sat (ng_stackGen g) asg (st.s_Stack s);
  sat_storage : StorageGenerator.sat (ng_storageGen g) asg (st.s_Storage s);
  sat_transient : TransientStorageGenerator.sat (ng_transientStorageGen g) asg (st.s_TransientStorage s);
  sat_accounts : AccountsGenerator.sat (ng_accountsGen g) asg (st.s_Accounts s);
  sat_contract : SelfDestructedGenerator.sat (ng_hasSelfDestructedGen g) (st.s_HasSelfDestructed s) (st.s_IsNewContract s);
  sat_transaction : TransactionContextGenerator.sat (ng_transactionContextGen g) asg (st.s_TransactionContext s);
  sat_block : BlockContextGenerator.sat (ng_blockContextGen g) asg (st.bc_BlockNumber (st.s_BlockContext s))
}.

(** The variables that may have a value when storage is generated, then when
    accounts are, and then when the transaction context is. *)
Definition boundFirst (g : StateGenerator) : list Var :=
  map vb_variable (ng_variableBindings g) ++ CodeGenerator.variables (ng_codeGen g) ++ ng_selfAddressBindings g.
Definition boundWithStorage (g : StateGenerator) : list Var :=
  boundFirst g ++ StorageGenerator.variables (ng_storageGen g) ++ map fst (map_to_list (tsg_nonZeroConstraints (ng_transientStorageGen g))).
Definition boundWithAccounts (g : StateGenerator) : list Var :=
  boundWithStorage g ++ AccountsGenerator.variables (ng_accountsGen g).

(** Part of an assignment with values for some variables only. *)
Definition part (vars : list Var) (asg0 asg : Assignment) : Prop := asg0 ⊆ asg /\ forall v, is_Some (asg0 !! v) -> v ∈ vars.

(** What is generated, whatever the constraints are: a variable to be bound to
    code, data or the address of the account may be overwritten, parts with
    constraints that their generators do not compare satisfy them if they are
    compatible for the values that are there before. *)
Record generated `{Uint256} (g : StateGenerator) (asg : Assignment) (s : st.State) : Prop := {
  gd_binding b : b ∈ ng_variableBindings g -> vb_variable b ∉ cg_varIsCodeConstraints (ng_codeGen g) ->
    vb_variable b ∉ cg_varIsDataConstraints (ng_codeGen g) -> vb_variable b ∉ ng_selfAddressBindings g -> asg !! vb_variable b = Some (vb_value b);
  gd_status c : c ∈ ng_statusConstraints g -> StatusCode_of c = Some (st.s_Status s);
  gd_readOnly c : c ∈ ng_readOnlyConstraints g -> st.s_ReadOnly s = c;
  gd_pc c : c ∈ ng_pcConstantConstraints g -> st.s_Pc s = c;
  gd_pcVariable v : v ∈ ng_pcVariableConstraints g -> v ∉ ng_selfAddressBindings g ->
    exists x, asg !! v = Some x /\ st.s_Pc s = uval x mod 2 ^ 16;
  gd_gas : RangeSolver.admits (ng_gasConstraints g) (st.s_Gas s);
  gd_gasRefund : RangeSolver.admits (ng_gasRefundConstraints g) (st.s_GasRefund s);
  gd_self a : a ∈ ng_selfAddressConstraints g -> st.cc_AccountAddress (st.s_CallContext s) = a;
  gd_selfVariable v : v ∈ ng_selfAddressBindings g ->
    exists x, asg !! v = Some x /\ NewAddress x = st.cc_AccountAddress (st.s_CallContext s);
  gd_code : (forall v, v ∈ ng_selfAddressBindings g -> v ∉ CodeGenerator.variables (ng_codeGen g)) ->
    CodeGenerator.sat (ng_codeGen g) asg (st.s_Code s);
  gd_stack : StackGenerator.sat (ng_stackGen g) asg (st.s_Stack s);
  gd_storage : exists asg0, part (boundFirst g) asg0 asg
    /\ (StorageGenerator.compatible (ng_storageGen g) asg0 -> StorageGenerator.sat (ng_storageGen g) asg (st.s_Storage s));
  gd_transient : TransientStorageGenerator.generated (ng_transientStorageGen g) (fun _ => True) asg (st.s_TransientStorage s);
  gd_accounts : exists asg0, part (boundWithStorage g) asg0 asg
    /\ (AccountsGenerator.compatible (ng_accountsGen g) (st.cc_AccountAddress (st.s_CallContext s)) asg0 ->
        AccountsGenerator.sat (ng_accountsGen g) asg (st.s_Accounts s));
  gd_contract : SelfDestructedGenerator.sat (ng_hasSelfDestructedGen g) (st.s_HasSelfDestructed s) (st.s_IsNewContract s);
  gd_transaction : exists asg0, part (boundWithAccounts g) asg0 asg
    /\ (TransactionContextGenerator.compatible (ng_transactionContextGen g) asg0 ->
        TransactionContextGenerator.sat (ng_transactionContextGen g) asg (st.s_TransactionContext s));
  gd_block : exists asg0, asg0 ⊆ asg /\
    BlockContextGenerator.generated (ng_blockContextGen g) asg0 asg (st.bc_BlockNumber (st.s_BlockContext s));
  gd_revision : st.s_Revision s = GetRevisionForBlock (st.bc_BlockNumber (st.s_BlockContext s))
}.

(** The values that variables of accounts have from bindings, which is what the
    addresses that are drawn have to avoid. *)
Definition bound_addresses `{Uint256} (g : StateGenerator) : list Address :=
  map (fun b => NewAddress (vb_value b))
    (filter (fun b => vb_variable b ∈ AccountsGenerator.variables (ng_accountsGen g)) (ng_variableBindings g)).

Record wf (g : StateGenerator) : Prop := {
  wf_pc p : p ∈ ng_pcConstantConstraints g -> 0 <= p < 2 ^ 16;
  wf_gas : RangeSolver.wf Int64 (ng_gasConstraints g);
  wf_gasRange : 0 <= rs_min (ng_gasConstraints g) /\ rs_max (ng_gasConstraints g) <= st.MaxGasUsedByCt;
  wf_gasRefund : RangeSolver.wf Int64 (ng_gasRefundConstraints g);
  wf_code : CodeGenerator.wf (ng_codeGen g);
  wf_codeSize : cg_codeSize (ng_codeGen g) = None;
  wf_stack : StackGenerator.wf (ng_stackGen g);
  wf_storage : StorageGenerator.wf (ng_storageGen g);
  wf_transient : Z.of_nat (size (tsg_nonZeroConstraints (ng_transientStorageGen g))) < 2 ^ 16;
  wf_accounts : AccountsGenerator.wf (ng_accountsGen g);
  wf_block : BlockContextGenerator.wf (ng_blockContextGen g);
  wf_separate v : v ∈ AccountsGenerator.variables (ng_accountsGen g) -> v ∉ CodeGenerator.variables (ng_codeGen g)
    /\ v ∉ StorageGenerator.variables (ng_storageGen g) /\ tsg_nonZeroConstraints (ng_transientStorageGen g) !! v = None
}.

(** The parts of a generated state are within the limits of the EVM and of
    Go's integers. *)
Record in_limits (s : st.State) : Prop := {
  lim_code : st.s_Code s = st.NewCode (st.code (st.s_Code s)) /\ zlen (st.code (st.s_Code s)) <= st.MaxCodeSize;
  lim_pc : 0 <= st.s_Pc s < 2 ^ 16;
  lim_gas : 0 <= st.s_Gas s <= st.MaxGasUsedByCt;
  lim_stack : st.Stack_Size (st.s_Stack s) <= st.MaxStackSize /\ st.MaxStackSize <= zlen (st.stack (st.s_Stack s) ++ st.spare (st.s_Stack s));
  lim_memory : exists words, zlen (st.s_Memory s) = 32 * words /\ 0 <= words < 10;
  lim_data : zlen (st.s_CallData s) <= st.MaxDataSize /\ zlen (st.s_LastCallReturnData s) <= st.MaxDataSize /\ st.s_ReturnData s = [];
  lim_accounts : AccountsGenerator.shape (st.s_Accounts s);
  lim_block : isU64 (st.bc_BlockNumber (st.s_BlockContext s)) /\ isU64 (st.bc_GasLimit (st.s_BlockContext s))
    /\ BlockContextGenerator.timestamp_of (st.bc_BlockNumber (st.s_BlockContext s)) (st.bc_TimeStamp (st.s_BlockContext s));
  lim_hashes : exists l, st.s_RecentBlockHashes s = mkHashArray (Some l) /\ length l = 256%nat;
  lim_calls : exists f, st.Future (st.s_CallJournal s) = [f] /\ 0 <= st.fc_GasCosts f < 2 ^ 63 /\ zlen (st.fc_Output f) <= 2000
}.

Section Spec.
Context {U : Uint256} {UL : Uint256Laws U} {R : Type} {RND : Rand R} {RL : RandLaws R RND}.

Lemma enforceBindings_spec l (Q : unit -> world R -> Prop) (E : GenErr -> Prop) w :
  (forall r asg, w_assignment w ⊆ asg -> (forall b, b ∈ l -> asg !! vb_variable b = Some (vb_value b)) ->
    (forall v x, asg !! v = Some x -> w_assignment w !! v = Some x \/ exists b, b ∈ l /\ vb_variable b = v /\ vb_value b = x) ->
    Q tt (mkWorld r asg)) ->
  E ErrUnsatisfiable ->
  gwp (gen_for enforceBinding l tt) Q E w.
Proof.
  intros HQ HE. eapply gwp_mono.
  - apply (gwp_for enforceBinding (fun done _ w' => w_assignment w ⊆ w_assignment w'
      /\ (forall b, b ∈ done -> w_assignment w' !! vb_variable b = Some (vb_value b))
      /\ forall v x, w_assignment w' !! v = Some x -> w_assignment w !! v = Some x \/ exists b, b ∈ done /\ vb_variable b = v /\ vb_value b = x)).
    + split; [done|]. split; [intros b []%not_elem_of_nil|]. auto.
    + intros done b rest [] w' Hl (Hs & Hb & Hf). unfold enforceBinding. apply gwp_bind, gwp_lookup.
      apply gwp_bind, gwp_fail_if; [done|]. intros Hc. apply gwp_assign. cbn [w_assignment].
      assert (w_assignment w' ⊆ <[vb_variable b := vb_value b]> (w_assignment w')) as Hs'.
      { destruct (w_assignment w' !! vb_variable b) as [x|] eqn:Ex; [|by apply insert_subseteq].
        apply negb_false_iff, bool_decide_eq_true in Hc. subst x. by rewrite insert_id. }
      split; [by etransitivity|]. split.
      * intros d [Hd| ->%list_elem_of_singleton]%elem_of_app; [|by rewrite lookup_insert_eq].
        eapply lookup_weaken; [by apply Hb|done].
      * intros v x. destruct (decide (vb_variable b = v)) as [<-|Hne].
        -- rewrite lookup_insert_eq. intros [= <-]. right. exists b. split; [apply elem_of_app; right; left|done].
        -- rewrite lookup_insert_ne by done. intros [?|(d & Hd & Hv)]%Hf; [by left|right]. exists d. split; [apply elem_of_app; by left|done].
  - intros [] [r asg] (H1 & H2 & H3). by apply HQ.
  - done.
Qed.

Lemma StatusCode_of_range n : 0 <= n < NumStatusCodes -> is_Some (StatusCode_of n).
Proof.
  intros H. assert (n = 0 \/ n = 1 \/ n = 2 \/ n = 3) as [->|[->|[->| ->]]] by (unfold NumStatusCodes in H; lia); by eexists.
Qed.

Lemma pickStatus_spec l (Q : st.StatusCode -> world R -> Prop) (E : GenErr -> Prop) w :
  (forall s r, (forall c, c ∈ l -> StatusCode_of c = Some s) -> Q s (mkWorld r (w_assignment w))) -> E ErrUnsatisfiable ->
  gwp (pickStatus l) Q E w.
Proof.
  intros HQ HE. destruct l as [|c [|d l]]; cbn [pickStatus]; [| |by apply gwp_fail].
  - apply gwp_bind. eapply gwp_draws; [apply draws_Int31n; by vm_compute|]. intros n r Hn. cbn beta in Hn.
    destruct (StatusCode_of_range n Hn) as [s Hs]. eapply gwp_lift; [exact Hs|]. apply HQ. intros c []%not_elem_of_nil.
  - apply gwp_if; intros Hc; [by apply gwp_fail|]. destruct (StatusCode_of_range c) as [s Hs]; [b2p; lia|].
    eapply gwp_lift; [exact Hs|]. destruct w. apply HQ. by intros d ->%list_elem_of_singleton.
Qed.

Lemma pickReadOnly_spec l (Q : bool -> world R -> Prop) (E : GenErr -> Prop) w :
  (forall b r, (forall c, c ∈ l -> b = c) -> Q b (mkWorld r (w_assignment w))) -> E ErrUnsatisfiable ->
  gwp (pickReadOnly l) Q E w.
Proof.
  intros HQ HE. destruct l as [|c [|d l]]; cbn [pickReadOnly]; [| |by apply gwp_fail].
  - apply gwp_bind. eapply gwp_draws; [apply draws_Uint32n; lia|]. intros n r _. apply gwp_ret, HQ. intros c []%not_elem_of_nil.
  - apply gwp_ret. destruct w. apply HQ. by intros d ->%list_elem_of_singleton.
Qed.

Lemma pickPc_spec consts vars code (Q : Z -> world R -> Prop) (E : GenErr -> Prop) w : zlen (st.code code) <= st.MaxCodeSize ->
  (forall p, p ∈ consts -> 0 <= p < 2 ^ 16) ->
  (forall pc r, 0 <= pc < 2 ^ 16 -> (forall c, c ∈ consts -> pc = c) ->
    (forall v, v ∈ vars -> exists x, w_assignment w !! v = Some x /\ pc = uval x mod 2 ^ 16) -> Q pc (mkWorld r (w_assignment w))) ->
  E ErrUnsatisfiable -> E ErrUnboundVariable ->
  gwp (pickPc consts vars code) Q E w.
Proof.
  intros Hlen Hconsts HQ HE HU. unfold pickPc. apply gwp_bind. eapply gwp_mono.
  - apply (gwp_for collectPc (fun done values w' => w' = w /\ (forall p, p ∈ values -> 0 <= p < 2 ^ 16) /\ (forall c, c ∈ consts -> c ∈ values)
      /\ forall v, v ∈ done -> exists x, w_assignment w !! v = Some x /\ uval x mod 2 ^ 16 ∈ values)).
    + split; [done|]. split; [done|]. split; [done|]. intros v []%not_elem_of_nil.
    + intros done v rest values w' _ (-> & H1 & H2 & H3). unfold collectPc. apply gwp_bind, gwp_lookup.
      destruct (w_assignment w !! v) as [x|] eqn:Ex; [|by apply gwp_fail]. apply gwp_ret. split; [done|].
      assert (U256_Uint64 x mod 2 ^ 16 = uval x mod 2 ^ 16) as ->.
      { unfold U256_Uint64. rewrite Uint64_law. apply Z.mod_mod_divide. by exists (2 ^ 48). }
      split; [intros p [->|?]%elem_of_add_once; [by apply Z.mod_pos_bound|auto]|]. split; [intros c Hc; apply elem_of_add_once; auto|].
      intros u [Hu| ->%list_elem_of_singleton]%elem_of_app.
      * destruct (H3 u Hu) as (y & Hy & Hv). exists y. split; [done|]. apply elem_of_add_once. auto.
      * exists x. split; [done|]. apply elem_of_add_once. auto.
  - intros values w' (-> & H1 & H2 & H3). destruct values as [|p [|q values]]; [| |by apply gwp_fail].
    + assert (forall pc r, 0 <= pc < 2 ^ 16 -> Q pc (mkWorld r (w_assignment w))) as HQ'.
      { intros pc r Hpc. apply HQ; [done| |].
        - intros c Hc%H2. by apply not_elem_of_nil in Hc.
        - intros v Hv. destruct (H3 v Hv) as (x & _ & Hx). by apply not_elem_of_nil in Hx. }
      apply gwp_if; intros Hz; b2p.
      * apply gwp_bind. eapply gwp_draws; [apply draws_Int31n; unfold st.MaxCodeSize in *; lia|]. intros n r Hn. apply gwp_ret, HQ'.
        by apply Z.mod_pos_bound.
      * apply gwp_ret. destruct w. by apply HQ'.
    + apply gwp_ret. destruct w. apply HQ; [apply H1; left| |].
      * intros c Hc%H2. by apply list_elem_of_singleton in Hc.
      * intros v Hv. destruct (H3 v Hv) as (x & Hx & Hp). exists x. split; [done|]. by apply list_elem_of_singleton in Hp.
  - done.
Qed.

Lemma pickSelfAddress_spec consts vars (Q : Address -> world R -> Prop) (E : GenErr -> Prop) w :
  (forall a r asg, (forall c, c ∈ consts -> a = c) -> (forall v, v ∉ vars -> asg !! v = w_assignment w !! v) ->
    (forall v, v ∈ vars -> exists x, asg !! v = Some x /\ NewAddress x = a) -> Q a (mkWorld r asg)) ->
  E ErrUnsatisfiable ->
  gwp (pickSelfAddress consts vars) Q E w.
Proof.
  intros HQ HE. unfold pickSelfAddress. apply gwp_bind, gwp_fail_if; [done|]. intros Hlen.
  apply gwp_bind. eapply gwp_mono.
  { apply (gwp_for_inv checkSelfAddress (fun o w' => w' = w /\ forall c, c ∈ consts -> o = Some c)).
    - split; [done|]. destruct consts as [|c [|d consts]]; [intros c []%not_elem_of_nil|by intros d ->%list_elem_of_singleton|].
      unfold zlen in Hlen. cbn [length] in Hlen. b2p. lia.
    - intros v o w' _ [-> Ho]. unfold checkSelfAddress. apply gwp_bind, gwp_lookup.
      destruct (w_assignment w !! v) as [x|]; [|by apply gwp_ret]. destruct o as [a|].
      + apply gwp_if; intros _; [by apply gwp_fail|by apply gwp_ret].
      + apply gwp_ret. split; [done|]. intros c Hc. by specialize (Ho c Hc). }
  2: done.
  intros o w' [-> Ho].
  assert (forall a r, (forall c, c ∈ consts -> a = c) ->
    gwp (_ ← gen_for (fun _ v => value ← gen_lift (NewU256FromBytes (arr_bytes a)); gen_assign v value) vars tt; mret a) Q E (mkWorld r (w_assignment w))) as Hend.
  { intros a r Ha. destruct (AccountsGenerator.NewAddress_AddressToU256 a) as (x & Hx & Hxa).
    apply gwp_bind. eapply gwp_mono.
    - apply (gwp_for (fun (_ : unit) v => value ← gen_lift (NewU256FromBytes (arr_bytes a)); gen_assign v value) (fun done _ w' => (forall v, v ∉ done -> w_assignment w' !! v = w_assignment w !! v)
        /\ forall v, v ∈ done -> w_assignment w' !! v = Some x)).
      + split; [done|]. intros v []%not_elem_of_nil.
      + intros done v rest [] w' _ [H1 H2]. apply gwp_bind. eapply gwp_lift; [exact Hx|]. apply gwp_assign. cbn [w_assignment]. split.
        * intros u Hu. rewrite elem_of_app, list_elem_of_singleton in Hu. rewrite lookup_insert_ne; [apply H1; tauto|]. intros ->. tauto.
        * intros u Hu. destruct (decide (v = u)) as [<-|Hne]; [by rewrite lookup_insert_eq|]. rewrite lookup_insert_ne by done.
          apply H2. apply elem_of_app in Hu as [?| ->%list_elem_of_singleton]; done.
    - intros [] [r' asg] [H1 H2]. apply gwp_ret, HQ; [done|done|]. intros v Hv. exists x. split; [by apply H2|done].
    - done. }
  apply gwp_bind. destruct o as [a|].
  - apply gwp_ret. destruct w as [r asg]. apply Hend. intros c Hc. by specialize (Ho c Hc) as [= ->].
  - eapply gwp_draws; [apply draws_RandomAddress|]. intros a r _. apply Hend. intros c Hc. by specialize (Ho c Hc).
Qed.

Lemma code_sat_transfer g asg asg' c : (forall v x, v ∈ CodeGenerator.variables g -> asg !! v = Some x -> asg' !! v = Some x) ->
  CodeGenerator.sat g asg c -> CodeGenerator.sat g asg' c.
Proof.
  intros Ht []. unfold CodeGenerator.variables in Ht. setoid_rewrite elem_of_app in Ht. setoid_rewrite elem_of_app in Ht.
  split; [done| | |].
  - intros o Ho. destruct (sat_var o Ho) as (p & Hp & Ha & H). exists p. split; [done|]. split; [|done]. apply Ht; [|done].
    left. apply elem_of_map. eauto.
  - intros v Hv. destruct (sat_isCode v Hv) as (p & Hp & Ha & H). exists p. eauto 6.
  - intros v Hv. destruct (sat_isData v Hv) as (p & Hp & Ha & H). exists p. eauto 6.
Qed.

(** The addresses that the generator of accounts does not know of are those
    of bindings. *)
Lemma given_bound g self (asg1 asg2 asg3 asg4 asg5 : Assignment) : wf g ->
  (forall v x, asg1 !! v = Some x -> exists b, b ∈ ng_variableBindings g /\ vb_variable b = v /\ vb_value b = x) ->
  CodeGenerator.grows (ng_codeGen g) asg1 asg2 ->
  (forall v, v ∉ ng_selfAddressBindings g -> asg3 !! v = asg2 !! v) ->
  (forall v, v ∈ ng_selfAddressBindings g -> exists x, asg3 !! v = Some x /\ NewAddress x = self) ->
  (forall v, v ∉ StorageGenerator.variables (ng_storageGen g) -> asg4 !! v = asg3 !! v) ->
  (forall v, tsg_nonZeroConstraints (ng_transientStorageGen g) !! v = None -> asg5 !! v = asg4 !! v) ->
  forall a, a ∈ AccountsGenerator.given (ng_accountsGen g) self asg5 -> a ∈ bound_addresses g.
Proof.
  intros Hwf H1 [H2 _] H3 H3' H4 H5 a Hin. unfold AccountsGenerator.given in Hin. apply elem_of_difference in Hin as [Ha Hn].
  apply elem_of_list_to_set, list_elem_of_omap in Ha as (v & Hv & Ha). unfold AccountsGenerator.address_of in Ha.
  destruct (wf_separate g Hwf v Hv) as (S1 & S2 & S3). rewrite H5, H4 in Ha by done.
  destruct (decide (v ∈ ng_selfAddressBindings g)) as [Hs|Hs].
  - destruct (H3' v Hs) as (x & Hx & Hxa). rewrite Hx in Ha. cbn in Ha. injection Ha as <-. destruct Hn.
    rewrite Hxa. unfold AccountsGenerator.noted. set_solver.
  - rewrite H3, H2 in Ha by done. apply fmap_Some in Ha as (x & Hx & ->). destruct (H1 v x Hx) as (b & Hb & <- & <-).
    apply elem_of_map. exists b. split; [done|]. by apply list_elem_of_filter.
Qed.

(** Variables that get a value. *)
Lemma grown_vars (vars l : list Var) (asg asg' : Assignment) : (forall v, v ∉ l -> asg' !! v = asg !! v) ->
  (forall v, is_Some (asg !! v) -> v ∈ vars) -> forall v, is_Some (asg' !! v) -> v ∈ vars ++ l.
Proof. intros Hf Hv v Hs. apply elem_of_app. destruct (decide (v ∈ l)) as [|Hl]; [by right|left]. apply Hv. by rewrite <-Hf. Qed.

(** A generated state satisfies the constraints, and is in the limits of the
    EVM and of Go. There are errors for unsatisfiable constraints and for
    variables without a value; the generator does not panic and ends. *)
Lemma generateWith_spec pooled g (Q : st.State * StateGenerator -> world R -> Prop) (E : GenErr -> Prop) r : wf g ->
  st.MaxStackSize <= zlen (st.stack pooled ++ st.spare pooled) ->
  draws (R := R) RandomAddress (fun a => a ∉ bound_addresses g) ->
  (forall s g' r asg, generated g asg s -> in_limits s -> Q (s, g') (mkWorld r asg)) ->
  E ErrUnsatisfiable -> E ErrUnboundVariable ->
  gwp (generateWith pooled g) Q E (mkWorld r ∅).
Proof.
  intros Hwf Hpool HA HQ HE HU. pose proof Hwf as []. unfold generateWith.
  apply gwp_bind, enforceBindings_spec; [|done]. intros r1 asg1 _ Hb1 Hf1. cbn [w_assignment] in Hf1.
  apply gwp_bind, pickStatus_spec; [|done]. intros status r2 Hstatus. cbn [w_assignment].
  apply gwp_bind, CodeGenerator.code_Generate_spec; [done| |done]. intros code r3 asg2 Hcode Hgrows Hsize. specialize (Hsize wf_codeSize0). cbn [w_assignment] in Hgrows.
  apply gwp_bind, pickReadOnly_spec; [|done]. intros readOnly r4 Hro.
  apply gwp_bind, pickPc_spec; [done|done| |done|done]. intros pc r5 Hpc Hpc1 Hpc2. cbn [w_assignment] in *.
  apply gwp_bind, RangeSolver.range_Generate_spec; [done| |done]. intros gas r6 Hgas.
  apply gwp_bind, RangeSolver.range_Generate_spec; [done| |done]. intros refund r7 Hrefund.
  apply gwp_bind, pickSelfAddress_spec; [|done]. intros self r8 asg3 Hself Hf3 Hself3. cbn [w_assignment] in *.
  apply gwp_bind. eapply gwp_draws; [apply CallContextGenerator.callContext_draws_Generate|]. intros cc r9 Hcc. cbn beta in Hcc.
  apply gwp_bind. eapply gwp_draws; [apply CallJournalGenerator.journal_draws_Generate|]. intros cj r10 [_ Hcj].
  apply gwp_bind. eapply gwp_draws; [apply draws_RandomBytes; done|]. intros cd r11 Hcd. cbn beta in Hcd.
  apply gwp_bind. eapply gwp_draws; [apply draws_RandomBytes; done|]. intros ld r12 Hld. cbn beta in Hld.
  apply gwp_bind, SelfDestructedGenerator.selfDestructed_Generate_spec; [|done]. intros destructed new r13 Hsd.
  apply gwp_bind. eapply gwp_draws; [apply draws_NewRandomImmutableHashArray|]. intros hashes r14 Hh. cbn beta in Hh. cbn [w_assignment].
  apply gwp_bind. eapply gwp_mono.
  { apply (gwp_cond _ (StorageGenerator.compatible (ng_storageGen g) asg3)
      (fun s w' => asg3 ⊆ w_assignment w' /\ forall v, v ∉ StorageGenerator.variables (ng_storageGen g) -> w_assignment w' !! v = asg3 !! v)
      (fun s w' => StorageGenerator.sat (ng_storageGen g) (w_assignment w') s)).
    - by apply StorageGenerator.storage_Generate_safe.
    - intros Hc. by apply StorageGenerator.storage_Generate_spec. }
  2: intros e He; exact He.
  intros storage [r15 asg4] [[Hs4 Hf4] Hstorage]. cbn [w_assignment] in *.
  apply gwp_bind, (TransientStorageGenerator.transient_Generate_spec _ (fun _ => True)); [apply draws_RandU256|done| |done]. intros transient r16 asg5 Htr Hs5 Hf5. cbn [w_assignment] in *.
  apply gwp_bind, AccountsGenerator.accounts_Generate_spec; [done| | |done]; cbn [w_assignment].
  { eapply draws_mono; [exact HA|]. intros a Ha Hg. apply Ha. eapply (given_bound g self asg1 asg2 asg3 asg4 asg5); eauto.
    intros v x Hx. by destruct (Hf1 v x Hx) as [H0|?]; [rewrite lookup_empty in H0|]. }
  intros accounts r17 asg6 Hshape Hacc Hs6 Hf6. apply gwp_bind. eapply gwp_draws; [apply MemoryGenerator.memory_draws_Generate|]. intros mem r18 Hmem.
  cbn [w_assignment]. apply gwp_bind. eapply gwp_mono.
  { apply (gwp_cond _ (TransactionContextGenerator.compatible (ng_transactionContextGen g) asg6)
      (fun s w' => asg6 ⊆ w_assignment w')
      (fun s w' => TransactionContextGenerator.sat (ng_transactionContextGen g) (w_assignment w') s)).
    - by apply TransactionContextGenerator.transaction_Generate_safe.
    - intros Hc. by apply TransactionContextGenerator.transaction_Generate_spec. }
  2: intros e He; exact He.
  intros tx [r19 asg7] [Hs7 Htx]. cbn [w_assignment] in *.
  apply gwp_bind, BlockContextGenerator.block_Generate_spec; [done| |done]. intros bc r20 asg8 Hbc Hlimit Htime Hs8 _. cbn [w_assignment] in *.
  apply gwp_bind, StackGenerator.stack_Generate_spec; [done|done| |done|done]. intros stack stackGen r21 Hst Hstsize Hcap. cbn [w_assignment] in *.
  assert (forall v, is_Some (asg3 !! v) -> v ∈ boundFirst g) as Hv3.
  { unfold boundFirst. rewrite app_assoc. apply (grown_vars _ _ asg2); [done|]. apply (grown_vars _ _ asg1); [apply Hgrows|].
    intros v [x Hx]. destruct (Hf1 v x Hx) as [H0|(b & Hb & <- & _)]; [by rewrite lookup_empty in H0|]. apply elem_of_map. eauto. }
  assert (forall v, is_Some (asg5 !! v) -> v ∈ boundWithStorage g) as Hv5.
  { unfold boundWithStorage. rewrite app_assoc. apply (grown_vars _ _ asg4); [|by apply (grown_vars _ _ asg3)].
    intros v Hv. apply Hf5. destruct (tsg_nonZeroConstraints _ !! v) as [c|] eqn:Ec; [|done]. destruct Hv.
    apply elem_of_map. exists (v, c). split; [done|]. by apply elem_of_map_to_list. }
  assert (forall v, is_Some (asg6 !! v) -> v ∈ boundWithAccounts g) as Hv6 by (by apply (grown_vars _ _ asg5)).
  apply gwp_ret, HQ.
  - assert (asg3 ⊆ asg8) as H38 by (repeat (etransitivity; [eassumption|]); done).
    assert (asg4 ⊆ asg8 /\ asg5 ⊆ asg8 /\ asg6 ⊆ asg8) as (H48 & H58 & H68)
      by (split; [|split]; repeat (etransitivity; [eassumption|]); done).
    split; cbn [st.s_Status st.s_ReadOnly st.s_Pc st.s_Gas st.s_GasRefund st.s_CallContext st.s_Code st.s_Stack st.s_Storage
      st.s_TransientStorage st.s_Accounts st.s_HasSelfDestructed st.s_IsNewContract st.s_TransactionContext st.s_BlockContext st.s_Revision];
      rewrite ?Hcc; try done.
    + intros b Hb Hc Hd Hn. eapply lookup_weaken; [|exact H38]. destruct Hgrows as [_ Hg]. rewrite Hf3 by done. auto.
    + intros v Hv Hn. destruct (Hpc2 v Hv) as (x & Hx & Hp). exists x. split; [|done].
      eapply lookup_weaken; [|exact H38]. by rewrite Hf3.
    + intros v Hv. destruct (Hself3 v Hv) as (x & Hx & Ha). exists x. split; [by eapply lookup_weaken|done].
    + intros Hd. eapply code_sat_transfer; [|exact Hcode]. intros v x Hv Hx. eapply lookup_weaken; [|exact H38].
      rewrite Hf3; [done|]. intros Hin. by apply (Hd v Hin).
    + exists asg3. split; [split; done|]. intros Hc. eapply StorageGenerator.storage_sat_weaken; [exact H48|]. by apply Hstorage.
    + by apply (TransientStorageGenerator.transient_generated_weaken _ _ asg5).
    + exists asg5. split; [split; done|]. intros Hc. eapply AccountsGenerator.accounts_sat_weaken; [exact H68|]. by apply Hacc.
    + exists asg6. split; [split; done|]. intros Hc. eapply TransactionContextGenerator.transaction_sat_weaken; [exact Hs8|]. by apply Htx.
    + exists asg7. done.
  - unfold RangeSolver.admits in Hgas. pose proof (BlockContextGenerator.gd_number _ _ _ _ Hbc).
    split; cbn [st.s_Status st.s_ReadOnly st.s_Pc st.s_Gas st.s_GasRefund st.s_CallContext st.s_Code st.s_Stack st.s_Storage
      st.s_TransientStorage st.s_Accounts st.s_HasSelfDestructed st.s_IsNewContract st.s_TransactionContext st.s_BlockContext st.s_Revision
      st.s_Memory st.s_CallData st.s_LastCallReturnData st.s_ReturnData st.s_RecentBlockHashes st.s_CallJournal]; try done.
    + lia.
    + split; [done|]. by rewrite Hcap.
Qed.

(** A state in the limits is valid if its revision is supported, its program
    counter is not in data, and there are not too many blob hashes. *)
Lemma in_limits_valid s : in_limits s -> R07_Istanbul <= st.s_Revision s <= NewestSupportedRevision ->
  st.s_Revision s = GetRevisionForBlock (st.bc_BlockNumber (st.s_BlockContext s)) ->
  (st.s_Status s = st.Running -> st.Code_IsCode (st.s_Code s) (st.s_Pc s) = true) ->
  zlen (st.tx_BlobHashes (st.s_TransactionContext s)) < 2 ^ 63 -> valid s.
Proof.
  intros [] Hrev Hrb Hcode Hblobs. destruct lim_code0, lim_stack0, lim_memory0 as (words & Hm & Hw), lim_data0 as (Hd1 & Hd2 & Hd3),
    lim_block0 as (Hn & Hl & Ht), lim_hashes0 as (l & Hh & Hlen), lim_calls0 as (f & Hf & Hg & Ho).
  assert (st.bc_BlockNumber (st.s_BlockContext s) < 8000) as Hn8.
  { rewrite Hrb in Hrev. destruct (Z_lt_ge_dec (st.bc_BlockNumber (st.s_BlockContext s)) 8000) as [|Hge]; [done|exfalso].
    unfold GetRevisionForBlock in Hrev. change (seqZ MinRevision (NewestSupportedRevision + 2)) with [0;1;2;3;4;5;6;7;8] in Hrev.
    cbv beta iota in Hrev. repeat rewrite (proj2 (Z.ltb_ge _ _)) in Hrev by (cbn; lia).
    unfold R99_UnknownNextRevision in Hrev. destruct Hrev as [_ Hrev]. by vm_compute in Hrev. }
  split; try done.
  - exists words. unfold maxMemoryExpansionSize. split; [done|lia].
  - unfold st.MaxDataSize in *. lia.
  - unfold st.MaxDataSize in *. lia.
  - intros a. destruct (lim_accounts0 a). lia.
  - intros a d Hp. destruct (lim_accounts0 a) as [_ Hd]. by apply Hd.
  - zblia.
  - unfold BlockContextGenerator.timestamp_of in Ht. pose proof (BlockContextGenerator.GetForkTime_range (GetRevisionForBlock (st.bc_BlockNumber (st.s_BlockContext s)))).
    pose proof (BlockContextGenerator.GetForkTime_range (GetRevisionForBlock (st.bc_BlockNumber (st.s_BlockContext s)) + 1)). zblia.
  - unfold hashes_of. rewrite Hh. cbn. unfold zlen. rewrite Hlen. done.
  - intros f' Hin. rewrite Hf in Hin. destruct Hin as [<-|[]]. lia.
Qed.

End Spec.

End StateGenerator.
