(* ===== verification/CtRestrict.v ===== *)
(** * Constraints of expressions and conditions

    The part of [go/ct/rlz/expressions.go] and [go/ct/rlz/conditions.go] that
    works on generators of states: the variables that stand for expressions,
    the constraints that restrict an expression, and those that restrict a
    condition. A panic is [None]. *)
From Stdlib Require Import ZArith Lia Strings.Byte.
From stdpp Require Import base list numbers gmap strings pretty.
From S2P Require Import Prelude Uint256 Types OpCodes CtCommon CtState CtRules CtRand CtGenSolvers CtGenStorage CtGenState.
Set Default Goal Selector "!".
Local Open Scope Z_scope.
Local Open Scope go_scope.

(** ** Text *)

Definition hex_digit (n : Z) : string :=
  match nth_error ["0"; "1"; "2"; "3"; "4"; "5"; "6"; "7"; "8"; "9"; "a"; "b"; "c"; "d"; "e"; "f"]%string (Z.to_nat n) with
  | Some d => d
  | None => EmptyString
  end.

(** [fmt.Sprintf("%016x", z)], the digits from the last to the first. *)
Fixpoint hex_digits (n : nat) (z : Z) : string :=
  match n with
  | O => EmptyString
  | S n => (hex_digits n (z / 16) +:+ hex_digit (z mod 16))%string
  end.

(** The words of a number, the lowest first: [a.internal]. *)
Definition U256_limb (a : U256) (i : Z) : Z := uval a / 2 ^ (64 * i) mod 2 ^ 64.

Definition U256_String (a : U256) : string :=
  (hex_digits 16 (U256_limb a 3) +:+ " " +:+ hex_digits 16 (U256_limb a 2) +:+ " " +:+ hex_digits 16 (U256_limb a 1)
    +:+ " " +:+ hex_digits 16 (U256_limb a 0))%string.

Definition StorageStatus_String (config : StorageStatus) : string :=
  match config with
  | StorageAssigned => "StorageAssigned"
  | StorageAdded => "StorageAdded"
  | StorageAddedDeleted => "StorageAddedDeleted"
  | StorageDeletedRestored => "StorageDeletedRestored"
  | StorageDeletedAdded => "StorageDeletedAdded"
  | StorageDeleted => "StorageDeleted"
  | StorageModified => "StorageModified"
  | StorageModifiedDeleted => "StorageModifiedDeleted"
  | StorageModifiedRestored => "StorageModifiedRestored"
  end.

Section Restrict.
Context {U : Uint256}.

Definition constant_String (value : U256) : string :=
  if U256_IsUint64 value then pretty (U256_Uint64 value) else U256_String value.

Fixpoint Expression_String {T} (e : Expression T) : string :=
  match e with
  | eStatus => "status"
  | ePc => "PC"
  | eGas => "Gas"
  | eSelfAddress => "Self"
  | eReadOnly => "readOnly"
  | eBalance account => "balance(" +:+ Expression_String account +:+ ")"
  | eOp position => "code[" +:+ Expression_String position +:+ "]"
  | eStackSize => "stackSize"
  | eParam position _ => "param[" +:+ pretty position +:+ "]"
  | eConstant value => constant_String value
  | eToAddress expr => "toAddress(" +:+ Expression_String expr +:+ ")"
  end%string.

(** ** Variables *)

(** [GetVariable]; other expressions are not a [BindableExpression]. *)
Fixpoint GetVariable {T} (e : Expression T) : option Var :=
  match e with
  | ePc => Some "PC"%string
  | eSelfAddress => Some "self"%string
  | eParam position _ => Some ("param_" +:+ pretty position)%string
  | eConstant value => Some ("constant_" +:+ constant_String value)%string
  | eToAddress expr => GetVariable expr
  | _ => None
  end.

Fixpoint BindTo {T} (e : Expression T) (generator : StateGenerator) : option StateGenerator :=
  match e with
  | ePc => v ← GetVariable ePc; Some (StateGenerator.BindPc v generator)
  | eSelfAddress => v ← GetVariable eSelfAddress; Some (StateGenerator.BindToSelfAddress v generator)
  | eParam position domain => v ← GetVariable (eParam position domain); Some (StateGenerator.BindStackValue position v generator)
  | eConstant value => v ← GetVariable (eConstant value); Some (StateGenerator.BindValue v value generator)
  | eToAddress expr => BindTo expr generator
  | _ => None
  end.

(** ** Expressions *)

Inductive RestrictionKind := RestrictLess | RestrictLessEqual | RestrictEqual | RestrictGreaterEqual | RestrictGreater.

Definition status_Restrict (kind : RestrictionKind) (status : st.StatusCode) (generator : StateGenerator) : option StateGenerator :=
  match kind with RestrictEqual => Some (StateGenerator.SetStatus (status_num status) generator) | _ => None end.

Definition pc_Restrict (kind : RestrictionKind) (pc : U256) (generator : StateGenerator) : option StateGenerator :=
  match kind with
  | RestrictEqual =>
      if negb (U256_IsUint64 pc) || (U256_Uint64 pc >? 2 ^ 16 - 1) then None
      else Some (StateGenerator.SetPc (u16 (U256_Uint64 pc)) generator)
  | _ => None
  end.

Definition gas_Restrict (kind : RestrictionKind) (amount : Z) (generator : StateGenerator) : option StateGenerator :=
  Some (match kind with
        | RestrictLess => StateGenerator.AddGasUpperBound (amount -i64 1) generator
        | RestrictLessEqual => StateGenerator.AddGasUpperBound amount generator
        | RestrictEqual => StateGenerator.SetGas amount generator
        | RestrictGreaterEqual => StateGenerator.AddGasLowerBound amount generator
        | RestrictGreater => StateGenerator.AddGasLowerBound (amount +i64 1) generator
        end).

Definition selfAddress_Restrict (kind : RestrictionKind) (address : Address) (generator : StateGenerator) : option StateGenerator :=
  match kind with RestrictEqual => Some (StateGenerator.SetSelfAddress address generator) | _ => None end.

Definition readOnly_Restrict (kind : RestrictionKind) (isSet : bool) (generator : StateGenerator) : option StateGenerator :=
  match kind with RestrictEqual => Some (StateGenerator.SetReadOnly isSet generator) | _ => None end.

Definition balance_Restrict (account : Expression Address) (kind : RestrictionKind) (value : U256) (generator : StateGenerator)
    : option StateGenerator :=
  variable ← GetVariable account;
  generator ← BindTo account generator;
  Some (match kind with
        | RestrictLess => StateGenerator.AddBalanceUpperBound variable (U256_Sub value (NewU256 1)) generator
        | RestrictLessEqual => StateGenerator.AddBalanceUpperBound variable value generator
        | RestrictEqual =>
            StateGenerator.AddBalanceUpperBound variable value (StateGenerator.AddBalanceLowerBound variable value generator)
        | RestrictGreaterEqual => StateGenerator.AddBalanceLowerBound variable value generator
        | RestrictGreater => StateGenerator.AddBalanceLowerBound variable (U256_Add value (NewU256 1)) generator
        end).

Definition op_Restrict (position : Expression U256) (kind : RestrictionKind) (op : OpCode) (generator : StateGenerator)
    : option StateGenerator :=
  match kind with
  | RestrictEqual =>
      variable ← GetVariable position;
      generator ← BindTo position generator;
      Some (StateGenerator.AddCodeOperation variable op generator)
  | _ => None
  end.

Definition stackSize_Restrict (kind : RestrictionKind) (size : Z) (generator : StateGenerator) : option StateGenerator :=
  Some (match kind with
        | RestrictLess => StateGenerator.AddStackSizeUpperBound (size -i64 1) generator
        | RestrictLessEqual => StateGenerator.AddStackSizeUpperBound size generator
        | RestrictEqual => StateGenerator.SetStackSize size generator
        | RestrictGreaterEqual => StateGenerator.AddStackSizeLowerBound size generator
        | RestrictGreater => StateGenerator.AddStackSizeLowerBound (size +i64 1) generator
        end).

Definition param_Restrict (position : Z) (kind : RestrictionKind) (value : U256) (generator : StateGenerator)
    : option StateGenerator :=
  match kind with RestrictEqual => Some (StateGenerator.SetStackValue position value generator) | _ => None end.

(** Of a constant and of the address of an expression the method panics. *)
Definition Expression_Restrict {T} (kind : RestrictionKind) (e : Expression T) : T -> StateGenerator -> option StateGenerator :=
  match e in Expression T return T -> StateGenerator -> option StateGenerator with
  | eStatus => status_Restrict kind
  | ePc => pc_Restrict kind
  | eGas => gas_Restrict kind
  | eSelfAddress => selfAddress_Restrict kind
  | eReadOnly => readOnly_Restrict kind
  | eBalance account => balance_Restrict account kind
  | eOp position => op_Restrict position kind
  | eStackSize => stackSize_Restrict kind
  | eParam position _ => param_Restrict position kind
  | eConstant _ => fun _ _ => None
  | eToAddress _ => fun _ _ => None
  end.

(** ** Conditions *)

Definition eq_Restrict {T} (lhs : Expression T) (rhs : T) (generator : StateGenerator) : option StateGenerator :=
  Expression_Restrict RestrictEqual lhs rhs generator.

Definition ne_Restrict {T} (lhs : Expression T) (rhs : T) (generator : StateGenerator) : option StateGenerator :=
  Expression_Restrict RestrictEqual lhs (SomethingNotEqual (domainOf lhs) rhs) generator.

Definition lt_Restrict {T} (lhs : Expression T) (rhs : T) (generator : StateGenerator) : option StateGenerator :=
  value ← Predecessor (domainOf lhs) rhs; Expression_Restrict RestrictLess lhs value generator.

Definition le_Restrict {T} (lhs : Expression T) (rhs : T) (generator : StateGenerator) : option StateGenerator :=
  Expression_Restrict RestrictLessEqual lhs rhs generator.

Definition gt_Restrict {T} (lhs : Expression T) (rhs : T) (generator : StateGenerator) : option StateGenerator :=
  value ← Successor (domainOf lhs) rhs; Expression_Restrict RestrictGreater lhs value generator.

Definition ge_Restrict {T} (lhs : Expression T) (rhs : T) (generator : StateGenerator) : option StateGenerator :=
  Expression_Restrict RestrictGreaterEqual lhs rhs generator.

Definition revisionBounds_Restrict (min max : Revision) (generator : StateGenerator) : option StateGenerator :=
  Some (StateGenerator.AddRevisionBounds min max generator).

(** [v := e.GetVariable(); e.BindTo(generator); add(v)]. *)
Definition with_variable (add : Var -> StateGenerator -> StateGenerator) (e : Expression U256) (generator : StateGenerator)
    : option StateGenerator :=
  v ← GetVariable e; generator ← BindTo e generator; Some (add v generator).

Definition isCode_Restrict := with_variable StateGenerator.AddIsCode.
Definition isData_Restrict := with_variable StateGenerator.AddIsData.
Definition isStorageWarm_Restrict := with_variable StateGenerator.BindIsStorageWarm.
Definition isStorageCold_Restrict := with_variable StateGenerator.BindIsStorageCold.

Definition storageConfiguration_Restrict (config : StorageStatus) (key newValue : Expression U256) (generator : StateGenerator)
    : option StateGenerator :=
  key_ ← GetVariable key;
  generator ← BindTo key generator;
  newValue_ ← GetVariable newValue;
  generator ← BindTo newValue generator;
  Some (StateGenerator.BindStorageConfiguration config key_ newValue_ generator).

Definition bindTransientStorageToNonZero_Restrict := with_variable StateGenerator.BindTransientStorageToNonZero.
Definition bindTransientStorageToZero_Restrict := with_variable StateGenerator.BindTransientStorageToZero.
Definition accountIsEmpty_Restrict := with_variable StateGenerator.BindToAddressOfEmptyAccount.
Definition accountIsNotEmpty_Restrict := with_variable StateGenerator.BindToAddressOfNonEmptyAccount.
Definition isAddressWarm_Restrict := with_variable StateGenerator.BindToWarmAddress.
Definition isAddressCold_Restrict := with_variable StateGenerator.BindToColdAddress.

Definition isNewContract_Restrict (generator : StateGenerator) : option StateGenerator :=
  Some (StateGenerator.MustBeNewContract generator).

Definition isNotNewContract_Restrict (generator : StateGenerator) : option StateGenerator :=
  Some (StateGenerator.MustNotBeNewContract generator).

Definition hasSelfDestructed_Restrict (generator : StateGenerator) : option StateGenerator :=
  Some (StateGenerator.MustBeSelfDestructed generator).

Definition hasNotSelfDestructed_Restrict (generator : StateGenerator) : option StateGenerator :=
  Some (StateGenerator.MustNotBeSelfDestructed generator).

Definition inRange256FromCurrentBlock_Restrict := with_variable StateGenerator.RestrictVariableToOneOfTheLast256Blocks.
Definition outOfRange256FromCurrentBlock_Restrict := with_variable StateGenerator.RestrictVariableToNoneOfTheLast256Blocks.
Definition hasBlobHash_Restrict := with_variable StateGenerator.IsPresentBlobHashIndex.
Definition hasNoBlobHash_Restrict := with_variable StateGenerator.IsAbsentBlobHashIndex.

(** The loop of [conjunction.Restrict]. *)
Definition conjunction_Restrict (restrict : Condition -> StateGenerator -> option StateGenerator)
    : list Condition -> StateGenerator -> option StateGenerator :=
  fix loop conditions generator :=
    match conditions with
    | [] => Some generator
    | cur :: conditions => generator ← restrict cur generator; loop conditions generator
    end.

Fixpoint Condition_Restrict (c : Condition) (generator : StateGenerator) {struct c} : option StateGenerator :=
  match c with
  | cConjunction conditions => conjunction_Restrict Condition_Restrict conditions generator
  | cEq lhs rhs => eq_Restrict lhs rhs generator
  | cNe lhs rhs => ne_Restrict lhs rhs generator
  | cLt lhs rhs => lt_Restrict lhs rhs generator
  | cLe lhs rhs => le_Restrict lhs rhs generator
  | cGt lhs rhs => gt_Restrict lhs rhs generator
  | cGe lhs rhs => ge_Restrict lhs rhs generator
  | cRevisionBounds min max => revisionBounds_Restrict min max generator
  | cIsCode position => isCode_Restrict position generator
  | cIsData position => isData_Restrict position generator
  | cIsStorageWarm key => isStorageWarm_Restrict key generator
  | cIsStorageCold key => isStorageCold_Restrict key generator
  | cStorageConfiguration config key newValue => storageConfiguration_Restrict config key newValue generator
  | cBindTransientStorageToNonZero key => bindTransientStorageToNonZero_Restrict key generator
  | cBindTransientStorageToZero key => bindTransientStorageToZero_Restrict key generator
  | cAccountIsEmpty address => accountIsEmpty_Restrict address generator
  | cAccountIsNotEmpty address => accountIsNotEmpty_Restrict address generator
  | cIsAddressWarm key => isAddressWarm_Restrict key generator
  | cIsAddressCold key => isAddressCold_Restrict key generator
  | cIsNewContract => isNewContract_Restrict generator
  | cIsNotNewContract => isNotNewContract_Restrict generator
  | cHasSelfDestructed => hasSelfDestructed_Restrict generator
  | cHasNotSelfDestructed => hasNotSelfDestructed_Restrict generator
  | cInRange256FromCurrentBlock blockNumber => inRange256FromCurrentBlock_Restrict blockNumber generator
  | cOutOfRange256FromCurrentBlock blockNumber => outOfRange256FromCurrentBlock_Restrict blockNumber generator
  | cHasBlobHash index => hasBlobHash_Restrict index generator
  | cHasNoBlobHash index => hasNoBlobHash_Restrict index generator
  | cContainsDelegationDesignation _ _ => None
  end.

(** [Rule.GenerateSatisfyingState]; the pool of stacks returns [pooled]. *)
Definition GenerateSatisfyingState {R} `{Rand R} (pooled : st.Stack) (rule : Rule) (rnd : R)
    : genResult R (st.State * StateGenerator) :=
  let generator := StateGenerator.New in
  match Condition_Restrict (r_Condition rule) generator with
  | Some generator => StateGenerator.Generate pooled generator rnd
  | None => gPanic
  end.

End Restrict.
