(* ===== verification/CtRestrictSound.v ===== *)
(** * What restricted generators produce

    Generators for which the state generator is sound ([tractable]: constraints
    among which the solvers overlook nothing), and what each operation of the
    generator adds: a state that satisfies the constraints after a condition
    has restricted a generator is one that satisfied them before, and one that
    the condition's check accepts. *)
From Stdlib Require Import ZArith Lia Strings.Byte.
From stdpp Require Import base list numbers gmap strings sorting.
From S2P Require Import Prelude Uint256 Types OpCodes CtCommon CtState CtStateFacts CtRules CtConformArith CtRand CtGenSolvers.
From S2P Require Import CtGenStack CtGenCode CtGenStorage CtGenContexts CtGenAccounts CtGenState CtRestrict.
Set Default Goal Selector "!".
Local Open Scope Z_scope.
Local Open Scope go_scope.

Definition nonZero (x : U256) : Prop := uval x <> 0.

(** ** Generators without exceptions *)

(** Constraints among which the solvers overlook nothing. A variable with a
    value is not to be bound to code, data or the executing account as well.
    Keys of storage, addresses, and indices without a blob hash next to ones
    with it are new variables of one part. There is one configuration per key;
    no balance for an account that must not be empty; no location of transient
    storage that must not be zero, as the word that is drawn for it may be zero.
    Block numbers have no offset of zero when they are to be recent, nor the
    smallest offset, and the block is not one of the first 256 if a number is
    to be out of range. *)
Record tractable (g : StateGenerator) : Prop := {
  tr_binding b : b ∈ ng_variableBindings g -> vb_variable b ∉ cg_varIsCodeConstraints (ng_codeGen g)
    /\ vb_variable b ∉ cg_varIsDataConstraints (ng_codeGen g) /\ vb_variable b ∉ ng_selfAddressBindings g;
  tr_self v : v ∈ ng_selfAddressBindings g -> v ∉ CodeGenerator.variables (ng_codeGen g) /\ v ∉ ng_pcVariableConstraints g;
  tr_keys v : v ∈ StorageGenerator.keyVars (ng_storageGen g) -> v ∉ StateGenerator.boundFirst g;
  tr_config a b : a ∈ stg_cfg (ng_storageGen g) -> b ∈ stg_cfg (ng_storageGen g) -> sc_key a = sc_key b -> a = b;
  tr_newValue a : a ∈ stg_cfg (ng_storageGen g) -> sc_newValue a ∉ StorageGenerator.keyVars (ng_storageGen g);
  tr_transient v : tsg_nonZeroConstraints (ng_transientStorageGen g) !! v <> Some true;
  tr_accounts v : v ∈ AccountsGenerator.variables (ng_accountsGen g) -> v ∉ StateGenerator.boundWithStorage g;
  tr_balance a b : a ∈ ag_emptyAccounts (ng_accountsGen g) -> ec_empty a = false ->
    b ∈ ag_minBalance (ng_accountsGen g) ++ ag_maxBalance (ng_accountsGen g) -> ec_address a <> bal_address b;
  tr_absent u v : tcg_blobHashVariables (ng_transactionContextGen g) !! u = Some true ->
    tcg_blobHashVariables (ng_transactionContextGen g) !! v = Some false -> v ∉ StateGenerator.boundWithAccounts g;
  tr_offset v off : bcg_valueConstraint (ng_blockContextGen g) !! v = Some off -> off <> - 2 ^ 63;
  tr_recent v : bcg_rangeConstraints (ng_blockContextGen g) !! v = Some true -> bcg_valueConstraint (ng_blockContextGen g) !! v <> Some 0;
  tr_other v : bcg_rangeConstraints (ng_blockContextGen g) !! v = Some false ->
    exists s, bcg_blockNumberSolver (ng_blockContextGen g) = Some s /\ 256 <= rs_min s
}.

Section Tractable.
Context {U : Uint256} {UL : Uint256Laws U}.

(** A variable of none of some others has no value in a part of them. *)
Lemma part_None vars (asg0 asg : Assignment) v : StateGenerator.part vars asg0 asg -> v ∉ vars -> asg0 !! v = None.
Proof. intros [_ H] Hv. destruct (asg0 !! v) eqn:E; [|done]. destruct Hv. apply H. by rewrite E. Qed.

Lemma tractable_storage g asg0 asg : tractable g -> StateGenerator.part (StateGenerator.boundFirst g) asg0 asg ->
  StorageGenerator.compatible (ng_storageGen g) asg0.
Proof.
  intros Hg Hp. assert (forall v, v ∈ StorageGenerator.keyVars (ng_storageGen g) -> asg0 !! v = None) as Hn.
  { intros v Hv. eapply part_None; [exact Hp|]. by apply (tr_keys g Hg). }
  assert (forall a, a ∈ stg_cfg (ng_storageGen g) -> asg0 !! sc_key a = None) as Hc.
  { intros a Ha. apply Hn, elem_of_app. left. apply elem_of_map. eauto. }
  split.
  - intros a b Ha Hb [Hk|(x & Hx & _)]; [by apply (tr_config g Hg)|]. by rewrite Hc in Hx.
  - intros a b x Ha _ Hx. rewrite Hn in Hx; [done|]. apply elem_of_app. right. apply elem_of_map. eauto.
  - apply (tr_newValue g Hg).
Qed.

Lemma tractable_accounts g self asg0 asg : tractable g -> StateGenerator.part (StateGenerator.boundWithStorage g) asg0 asg ->
  AccountsGenerator.compatible (ng_accountsGen g) self asg0.
Proof.
  intros Hg Hp. assert (forall v, v ∈ AccountsGenerator.variables (ng_accountsGen g) -> AccountsGenerator.address_of asg0 v = None) as Hn.
  { intros v Hv. unfold AccountsGenerator.address_of. rewrite (part_None _ asg0 asg v Hp); [done|]. by apply (tr_accounts g Hg). }
  assert (forall u v, u ∈ AccountsGenerator.variables (ng_accountsGen g) -> ~ AccountsGenerator.shared asg0 u v) as Hs.
  { intros u v Hu (_ & a & Ha & _). by rewrite Hn in Ha. }
  unfold AccountsGenerator.variables in Hn, Hs. setoid_rewrite elem_of_app in Hs. setoid_rewrite elem_of_app in Hs.
  setoid_rewrite elem_of_app in Hs. setoid_rewrite elem_of_app in Hs. setoid_rewrite elem_of_map in Hs. split.
  - intros a b Ha _ []%Hs. eauto 10.
  - intros a b Ha _ []%Hs. eauto 10.
  - intros a b Ha _ _. apply Hs. eauto 10.
  - intros a b Ha He Hb. split; [by apply (tr_balance g Hg)|]. apply Hs. eauto 10.
  - intros v Hv. rewrite Hn; [done|]. rewrite !elem_of_app. apply elem_of_app in Hv as [Hv|Hv]; [left|auto].
    apply elem_of_map in Hv as (c & -> & [_ Hc]%list_elem_of_filter). apply elem_of_map. eauto.
Qed.

Lemma tractable_transaction g asg0 asg : tractable g -> StateGenerator.part (StateGenerator.boundWithAccounts g) asg0 asg ->
  TransactionContextGenerator.compatible (ng_transactionContextGen g) asg0.
Proof.
  intros Hg Hp u v y Hu Hv Hy. rewrite (part_None _ asg0 asg v Hp) in Hy; [done|]. by apply (tr_absent g Hg u).
Qed.

(** What is generated satisfies the constraints. *)
Lemma generated_sat g asg s : tractable g -> StateGenerator.generated g asg s -> StateGenerator.sat g asg s.
Proof.
  intros Hg []. split; auto.
  - intros b Hb. destruct (tr_binding g Hg b Hb) as (? & ? & ?). auto.
  - intros v Hv. apply gd_pcVariable; [done|]. intros Hs. by destruct (tr_self g Hg v Hs).
  - apply gd_code. intros v Hv. by apply (tr_self g Hg).
  - destruct gd_storage as (asg0 & Hp & H). by eapply H, tractable_storage.
  - eapply TransientStorageGenerator.transient_generated_sat; [apply (tr_transient g Hg)|exact gd_transient].
  - destruct gd_accounts as (asg0 & Hp & H). by eapply H, tractable_accounts.
  - destruct gd_transaction as (asg0 & Hp & H). by eapply H, tractable_transaction.
  - destruct gd_block as (asg0 & _ & Hb). eapply BlockContextGenerator.block_generated_sat; [apply (tr_offset g Hg)|apply (tr_recent g Hg)| |exact Hb].
    intros v Hv. destruct (tr_other g Hg v Hv) as (solver & Es & Hmin). pose proof (BlockContextGenerator.gd_solver _ _ _ _ Hb solver Es) as Ha.
    unfold RangeSolver.admits in Ha. lia.
Qed.

(** No address has to be avoided. *)
Lemma tractable_addresses g : tractable g -> StateGenerator.bound_addresses g = [].
Proof.
  intros Hg. unfold StateGenerator.bound_addresses. destruct (filter _ _) as [|b l] eqn:E; [done|].
  assert (b ∈ filter (fun b => vb_variable b ∈ AccountsGenerator.variables (ng_accountsGen g)) (ng_variableBindings g)) as [Hv Hb]%list_elem_of_filter
    by (rewrite E; left). destruct (tr_accounts g Hg _ Hv). unfold StateGenerator.boundWithStorage, StateGenerator.boundFirst.
  rewrite !elem_of_app. left. left. apply elem_of_map. eauto.
Qed.

(** The state generator is sound for tractable constraints. *)
Lemma generateWith_sound {R} {RND : Rand R} {RL : RandLaws R RND} pooled g (Q : st.State * StateGenerator -> world R -> Prop) (E : GenErr -> Prop) r :
  StateGenerator.wf g -> tractable g -> st.MaxStackSize <= zlen (st.stack pooled ++ st.spare pooled) ->
  (forall s g' r asg, StateGenerator.sat g asg s -> StateGenerator.in_limits s ->
    st.s_Revision s = GetRevisionForBlock (st.bc_BlockNumber (st.s_BlockContext s)) -> Q (s, g') (mkWorld r asg)) ->
  E ErrUnsatisfiable -> E ErrUnboundVariable ->
  gwp (StateGenerator.generateWith pooled g) Q E (mkWorld r ∅).
Proof.
  intros Hwf Hg Hpool HQ HE HU. apply StateGenerator.generateWith_spec; [done|done| | |done|done].
  - rewrite (tractable_addresses g Hg). eapply draws_mono; [apply draws_RandomAddress|]. intros a _ []%not_elem_of_nil.
  - intros s g' r' asg Hs Hlim. apply HQ; [by apply generated_sat|done|]. apply (StateGenerator.gd_revision _ _ _ Hs).
Qed.

End Tractable.

(** ** What the operations add *)

(** After [f] the constraints that were there hold, and [P]. *)
Definition adds `{Uint256} (f : StateGenerator -> StateGenerator) (P : Assignment -> st.State -> Prop) : Prop :=
  forall g asg s, StateGenerator.sat (f g) asg s -> StateGenerator.sat g asg s /\ P asg s.

Section Adds.
Context {U : Uint256} {UL : Uint256Laws U}.

Lemma adds_compose f1 f2 P1 P2 : adds f1 P1 -> adds f2 P2 -> adds (fun g => f2 (f1 g)) (fun asg s => P1 asg s /\ P2 asg s).
Proof. intros H1 H2 g asg s H. apply H2 in H as [H ?]. by apply H1 in H as [? ?]. Qed.

Lemma adds_mono f (P P' : Assignment -> st.State -> Prop) : adds f P -> (forall asg s, P asg s -> P' asg s) -> adds f P'.
Proof. intros H HP g asg s [? ?]%H. auto. Qed.

Ltac in_add_once := intros; apply elem_of_add_once; tauto.

(** One field has changed; its constraint is [H], from which [tac] gets what
    was there and what is new. *)
Ltac adds_field := intros g asg s H; destruct H; cbn in *; split; [split; auto|].

Lemma adds_BindValue v x : adds (StateGenerator.BindValue v x) (fun asg _ => asg !! v = Some x).
Proof.
  adds_field.
  - intros b Hb. apply sat_binding. in_add_once.
  - apply (sat_binding (mkVariableBinding v x)). in_add_once.
Qed.

Lemma adds_SetStatus c : adds (StateGenerator.SetStatus c) (fun _ s => StatusCode_of c = Some (st.s_Status s)).
Proof.
  adds_field.
  - intros b Hb. apply sat_status. in_add_once.
  - apply sat_status. in_add_once.
Qed.

Lemma adds_SetReadOnly c : adds (StateGenerator.SetReadOnly c) (fun _ s => st.s_ReadOnly s = c).
Proof.
  adds_field.
  - intros b Hb. apply sat_readOnly. in_add_once.
  - apply sat_readOnly. in_add_once.
Qed.

Lemma adds_SetPc p : adds (StateGenerator.SetPc p) (fun _ s => st.s_Pc s = p).
Proof.
  adds_field.
  - intros b Hb. apply sat_pc. in_add_once.
  - apply sat_pc. in_add_once.
Qed.

Lemma adds_BindPc v : adds (StateGenerator.BindPc v) (fun asg s => exists x, asg !! v = Some x /\ st.s_Pc s = uval x mod 2 ^ 16).
Proof.
  adds_field.
  - intros b Hb. apply sat_pcVariable. in_add_once.
  - apply sat_pcVariable. in_add_once.
Qed.

Lemma adds_BindToSelfAddress v : adds (StateGenerator.BindToSelfAddress v)
  (fun asg s => exists x, asg !! v = Some x /\ NewAddress x = st.cc_AccountAddress (st.s_CallContext s)).
Proof.
  adds_field.
  - intros b Hb. apply sat_selfVariable. in_add_once.
  - apply sat_selfVariable. in_add_once.
Qed.

Lemma adds_SetSelfAddress a : adds (StateGenerator.SetSelfAddress a) (fun _ s => st.cc_AccountAddress (st.s_CallContext s) = a).
Proof.
  adds_field.
  - intros b Hb. apply sat_self. in_add_once.
  - apply sat_self. in_add_once.
Qed.

Lemma adds_gas f P : (forall r n, RangeSolver.admits (f r) n -> RangeSolver.admits r n /\ P n) ->
  adds (StateGenerator.on_gasConstraints f) (fun _ s => P (st.s_Gas s)).
Proof. intros Hf. adds_field; by destruct (Hf _ _ sat_gas). Qed.

Lemma adds_SetGas n : adds (StateGenerator.SetGas n) (fun _ s => st.s_Gas s = n).
Proof. apply (adds_gas _ (fun m => m = n)). intros. by apply RangeSolver.AddEqualityConstraint_admits. Qed.

Lemma adds_AddGasLowerBound n : adds (StateGenerator.AddGasLowerBound n) (fun _ s => n <= st.s_Gas s).
Proof. apply (adds_gas _ (fun m => n <= m)). intros. by apply RangeSolver.AddLowerBoundary_admits. Qed.

Lemma adds_AddGasUpperBound n : adds (StateGenerator.AddGasUpperBound n) (fun _ s => st.s_Gas s <= n).
Proof. apply (adds_gas _ (fun m => m <= n)). intros. by apply RangeSolver.AddUpperBoundary_admits. Qed.

Lemma adds_gasRefund f P : (forall r n, RangeSolver.admits (f r) n -> RangeSolver.admits r n /\ P n) ->
  adds (StateGenerator.on_gasRefundConstraints f) (fun _ s => P (st.s_GasRefund s)).
Proof. intros Hf. adds_field; by destruct (Hf _ _ sat_gasRefund). Qed.

Lemma adds_SetGasRefund n : adds (StateGenerator.SetGasRefund n) (fun _ s => st.s_GasRefund s = n).
Proof. apply (adds_gasRefund _ (fun m => m = n)). intros. by apply RangeSolver.AddEqualityConstraint_admits. Qed.

Lemma adds_AddGasRefundLowerBound n : adds (StateGenerator.AddGasRefundLowerBound n) (fun _ s => n <= st.s_GasRefund s).
Proof. apply (adds_gasRefund _ (fun m => n <= m)). intros. by apply RangeSolver.AddLowerBoundary_admits. Qed.

Lemma adds_AddGasRefundUpperBound n : adds (StateGenerator.AddGasRefundUpperBound n) (fun _ s => st.s_GasRefund s <= n).
Proof. apply (adds_gasRefund _ (fun m => m <= n)). intros. by apply RangeSolver.AddUpperBoundary_admits. Qed.

(** *** Codes *)

Lemma adds_code f (P : Assignment -> st.Code -> Prop) :
  (forall g asg c, CodeGenerator.sat (f g) asg c -> CodeGenerator.sat g asg c /\ P asg c) ->
  adds (StateGenerator.on_codeGen f) (fun asg s => P asg (st.s_Code s)).
Proof. intros Hf. adds_field; by destruct (Hf _ _ _ sat_code). Qed.

Ltac in_app := rewrite elem_of_app, ?list_elem_of_singleton; tauto.

Lemma adds_SetCodeOperation pos op : adds (StateGenerator.SetCodeOperation pos op)
  (fun _ s => CodeGenerator.placed (st.code (st.s_Code s)) (mkConstOp pos op)).
Proof.
  apply (adds_code _ (fun _ c => CodeGenerator.placed (st.code c) (mkConstOp pos op))). intros g asg c []. cbn in *. split; [split; auto|].
  - intros o Ho. apply sat_const. in_app.
  - apply sat_const. in_app.
Qed.

Lemma adds_AddCodeOperation v op : adds (StateGenerator.AddCodeOperation v op) (fun asg s =>
  exists p, isU64 p /\ asg !! v = Some (NewU256 p) /\ CodeGenerator.placed (st.code (st.s_Code s)) (mkConstOp p op)).
Proof.
  apply (adds_code _ (fun asg c => exists p, isU64 p /\ asg !! v = Some (NewU256 p) /\ CodeGenerator.placed (st.code c) (mkConstOp p op))).
  intros g asg c []. cbn in *. split; [split; auto|].
  - intros o Ho. apply sat_var. in_app.
  - apply (sat_var (mkVarOp v op)). in_app.
Qed.

Lemma adds_AddIsCode v : adds (StateGenerator.AddIsCode v) (fun asg s =>
  exists p, 0 <= p < zlen (st.code (st.s_Code s)) /\ asg !! v = Some (NewU256 p) /\ st.Code_IsCode (st.s_Code s) p = true).
Proof.
  apply (adds_code _ (fun asg c => exists p, 0 <= p < zlen (st.code c) /\ asg !! v = Some (NewU256 p) /\ st.Code_IsCode c p = true)).
  intros g asg c []. cbn in *. split; [split; auto|].
  - intros o Ho. apply sat_isCode. in_app.
  - apply sat_isCode. in_app.
Qed.

Lemma adds_AddIsData v : adds (StateGenerator.AddIsData v) (fun asg s =>
  exists p, 0 <= p < zlen (st.code (st.s_Code s)) /\ asg !! v = Some (NewU256 p) /\ st.Code_IsData (st.s_Code s) p = true).
Proof.
  apply (adds_code _ (fun asg c => exists p, 0 <= p < zlen (st.code c) /\ asg !! v = Some (NewU256 p) /\ st.Code_IsData c p = true)).
  intros g asg c []. cbn in *. split; [split; auto|].
  - intros o Ho. apply sat_isData. in_app.
  - apply sat_isData. in_app.
Qed.

(** *** Stacks *)

Lemma adds_stack f (P : Assignment -> st.Stack -> Prop) :
  (forall g asg c, StackGenerator.sat (f g) asg c -> StackGenerator.sat g asg c /\ P asg c) ->
  adds (StateGenerator.on_stackGen f) (fun asg s => P asg (st.s_Stack s)).
Proof. intros Hf. adds_field; by destruct (Hf _ _ _ sat_stack). Qed.

Lemma adds_AddStackSizeLowerBound n : adds (StateGenerator.AddStackSizeLowerBound n) (fun _ s => n <= st.Stack_Size (st.s_Stack s)).
Proof.
  apply (adds_stack _ (fun _ c => n <= st.Stack_Size c)). intros g asg c []. cbn in *.
  apply RangeSolver.AddLowerBoundary_admits in sat_size as [? ?]. by split.
Qed.

Lemma adds_AddStackSizeUpperBound n : adds (StateGenerator.AddStackSizeUpperBound n) (fun _ s => st.Stack_Size (st.s_Stack s) <= n).
Proof.
  apply (adds_stack _ (fun _ c => st.Stack_Size c <= n)). intros g asg c []. cbn in *.
  apply RangeSolver.AddUpperBoundary_admits in sat_size as [? ?]. by split.
Qed.

Lemma adds_SetStackSize n : adds (StateGenerator.SetStackSize n) (fun _ s => st.Stack_Size (st.s_Stack s) = n).
Proof.
  apply (adds_stack _ (fun _ c => st.Stack_Size c = n)). intros g asg c []. cbn in *.
  apply RangeSolver.AddEqualityConstraint_admits in sat_size as [? ?]. by split.
Qed.

Lemma adds_SetStackValue pos x : adds (StateGenerator.SetStackValue pos x) (fun _ s => st.Stack_Get (st.s_Stack s) pos = Some x).
Proof.
  apply (adds_stack _ (fun _ c => st.Stack_Get c pos = Some x)). intros g asg c []. cbn in *. split; [split; auto|].
  - intros o Ho. apply sat_const. in_add_once.
  - apply (sat_const (mkConstValue pos x)). in_add_once.
Qed.

Lemma adds_BindStackValue pos v : adds (StateGenerator.BindStackValue pos v)
  (fun asg s => exists x, asg !! v = Some x /\ st.Stack_Get (st.s_Stack s) pos = Some x).
Proof.
  apply (adds_stack _ (fun asg c => exists x, asg !! v = Some x /\ st.Stack_Get c pos = Some x)). intros g asg c []. cbn in *. split; [split; auto|].
  - intros o Ho. apply sat_var. in_add_once.
  - apply (sat_var (mkVarValue pos v)). in_add_once.
Qed.

(** *** Storages *)

Lemma adds_storage f (P : Assignment -> st.Storage -> Prop) :
  (forall g asg c, StorageGenerator.sat (f g) asg c -> StorageGenerator.sat g asg c /\ P asg c) ->
  adds (StateGenerator.on_storageGen f) (fun asg s => P asg (st.s_Storage s)).
Proof. intros Hf. adds_field; by destruct (Hf _ _ _ sat_storage). Qed.

Lemma adds_BindStorageConfiguration config key newValue : adds (StateGenerator.BindStorageConfiguration config key newValue) (fun asg s =>
  exists k v, asg !! key = Some k /\ asg !! newValue = Some v
    /\ CheckStorageStatusConfig config (st.Storage_GetOriginal (st.s_Storage s) k) (st.Storage_GetCurrent (st.s_Storage s) k) v = true).
Proof.
  apply (adds_storage _ (fun asg c => exists k v, asg !! key = Some k /\ asg !! newValue = Some v
    /\ CheckStorageStatusConfig config (st.Storage_GetOriginal c k) (st.Storage_GetCurrent c k) v = true)).
  intros g asg c []. cbn in *. split; [split; auto|].
  - intros o Ho. apply sat_cfg. in_add_once.
  - apply (sat_cfg (mkStorageConfig config key newValue)). in_add_once.
Qed.

Lemma storage_temperature key warm g asg c :
  StorageGenerator.sat (mkStorageGenerator (stg_cfg g) (add_once (mkWarmCold key warm) (stg_warmCold g))) asg c ->
  StorageGenerator.sat g asg c /\ exists k, asg !! key = Some k /\ st.Storage_IsWarm c k = warm.
Proof.
  intros []. cbn in *. split; [split; auto|].
  - intros o Ho. apply sat_warm. in_add_once.
  - apply (sat_warm (mkWarmCold key warm)). in_add_once.
Qed.

Lemma adds_BindIsStorageWarm key : adds (StateGenerator.BindIsStorageWarm key)
  (fun asg s => exists k, asg !! key = Some k /\ st.Storage_IsWarm (st.s_Storage s) k = true).
Proof. apply (adds_storage _ (fun asg c => exists k, asg !! key = Some k /\ st.Storage_IsWarm c k = true)). intros g asg c. apply storage_temperature. Qed.

Lemma adds_BindIsStorageCold key : adds (StateGenerator.BindIsStorageCold key)
  (fun asg s => exists k, asg !! key = Some k /\ st.Storage_IsWarm (st.s_Storage s) k = false).
Proof. apply (adds_storage _ (fun asg c => exists k, asg !! key = Some k /\ st.Storage_IsWarm c k = false)). intros g asg c. apply storage_temperature. Qed.

(** A constraint that a map does not have yet, or has already. *)
Lemma adds_transient f (P : Assignment -> st.TransientStorage -> Prop) :
  (forall g asg c, TransientStorageGenerator.sat (f g) asg c -> TransientStorageGenerator.sat g asg c /\ P asg c) ->
  adds (StateGenerator.on_transientStorageGen f) (fun asg s => P asg (st.s_TransientStorage s)).
Proof. intros Hf. adds_field; by destruct (Hf _ _ _ sat_transient). Qed.

(** Inserting a constraint for a variable that has none keeps the others. *)
Lemma insert_keeps {A} (m : gmap Var A) v u (a b : A) : m !! v = None -> m !! u = Some b -> <[v := a]> m !! u = Some b.
Proof. intros Hv Hu. rewrite lookup_insert_ne; [done|]. congruence. Qed.

Lemma adds_BindTransientStorageToNonZero key : adds (StateGenerator.BindTransientStorageToNonZero key)
  (fun asg s => exists k, asg !! key = Some k /\ nonZero (st.TransientStorage_Get (st.s_TransientStorage s) k)).
Proof.
  apply (adds_transient _ (fun asg c => exists k, asg !! key = Some k /\ nonZero (st.TransientStorage_Get c k))).
  intros g asg c. unfold TransientStorageGenerator.BindToNonZero. destruct (tsg_nonZeroConstraints g !! key) as [[]|] eqn:Ek; cbn [negb].
  - intros H. split; [done|]. by apply (TransientStorageGenerator.sat_nonZero _ _ _ H).
  - by intros [].
  - intros []. cbn in *. split; [split; auto; intros v Hv; [apply sat_zero|apply sat_nonZero]; by apply insert_keeps|].
    apply sat_nonZero. by rewrite lookup_insert_eq.
Qed.

Lemma adds_BindTransientStorageToZero key : adds (StateGenerator.BindTransientStorageToZero key)
  (fun asg s => exists k, asg !! key = Some k /\ st.TransientStorage_Get (st.s_TransientStorage s) k = NewU256 0).
Proof.
  apply (adds_transient _ (fun asg c => exists k, asg !! key = Some k /\ st.TransientStorage_Get c k = NewU256 0)).
  intros g asg c. unfold TransientStorageGenerator.BindToZero. destruct (tsg_nonZeroConstraints g !! key) as [[]|] eqn:Ek.
  - by intros [].
  - intros H. split; [done|]. by apply (TransientStorageGenerator.sat_zero _ _ _ H).
  - intros []. cbn in *. split; [split; auto; intros v Hv; [apply sat_zero|apply sat_nonZero]; by apply insert_keeps|].
    apply sat_zero. by rewrite lookup_insert_eq.
Qed.

(** *** Accounts *)

Lemma adds_accounts f (P : Assignment -> st.Accounts -> Prop) :
  (forall g asg c, AccountsGenerator.sat (f g) asg c -> AccountsGenerator.sat g asg c /\ P asg c) ->
  adds (StateGenerator.on_accountsGen f) (fun asg s => P asg (st.s_Accounts s)).
Proof. intros Hf. adds_field; by destruct (Hf _ _ _ sat_accounts). Qed.

Lemma adds_emptiness v empty : adds (StateGenerator.on_accountsGen (AccountsGenerator.BindEmptiness v empty))
  (fun asg s => exists a, AccountsGenerator.address_of asg v = Some a /\ st.Accounts_IsEmpty (st.s_Accounts s) a = empty).
Proof.
  apply (adds_accounts _ (fun asg c => exists a, AccountsGenerator.address_of asg v = Some a /\ st.Accounts_IsEmpty c a = empty)).
  intros g asg c []. cbn in *. split; [split; auto|].
  - intros o Ho. apply sat_empty. in_add_once.
  - apply (sat_empty (mkEmpty v empty)). in_add_once.
Qed.

Lemma adds_AddBalanceLowerBound v x : adds (StateGenerator.AddBalanceLowerBound v x)
  (fun asg s => exists a, AccountsGenerator.address_of asg v = Some a /\ uval x <= uval (st.Accounts_GetBalance (st.s_Accounts s) a)).
Proof.
  apply (adds_accounts _ (fun asg c => exists a, AccountsGenerator.address_of asg v = Some a /\ uval x <= uval (st.Accounts_GetBalance c a))).
  intros g asg c []. cbn in *. split; [split; auto|].
  - intros o Ho. apply sat_min. in_add_once.
  - apply (sat_min (mkBalance v x)). in_add_once.
Qed.

Lemma adds_AddBalanceUpperBound v x : adds (StateGenerator.AddBalanceUpperBound v x)
  (fun asg s => exists a, AccountsGenerator.address_of asg v = Some a /\ uval (st.Accounts_GetBalance (st.s_Accounts s) a) <= uval x).
Proof.
  apply (adds_accounts _ (fun asg c => exists a, AccountsGenerator.address_of asg v = Some a /\ uval (st.Accounts_GetBalance c a) <= uval x)).
  intros g asg c []. cbn in *. split; [split; auto|].
  - intros o Ho. apply sat_max. in_add_once.
  - apply (sat_max (mkBalance v x)). in_add_once.
Qed.

Lemma adds_addressTemperature v warm : adds (StateGenerator.on_accountsGen (AccountsGenerator.BindTemperature v warm))
  (fun asg s => exists a, AccountsGenerator.address_of asg v = Some a /\ st.Accounts_IsWarm (st.s_Accounts s) a = warm).
Proof.
  apply (adds_accounts _ (fun asg c => exists a, AccountsGenerator.address_of asg v = Some a /\ st.Accounts_IsWarm c a = warm)).
  intros g asg c []. cbn in *. split; [split; auto|].
  - intros o Ho. apply sat_warm. in_add_once.
  - apply (sat_warm (mkWarmCold v warm)). in_add_once.
Qed.

Lemma adds_delegation d : adds (StateGenerator.on_accountsGen (AccountsGenerator.BindDelegation d))
  (fun asg s => exists a, AccountsGenerator.address_of asg (dd_address d) = Some a
    /\ AccountsGenerator.delegation_ok (st.s_Accounts s) d (st.Accounts_GetCode (st.s_Accounts s) a)).
Proof.
  apply (adds_accounts _ (fun asg c => exists a, AccountsGenerator.address_of asg (dd_address d) = Some a
    /\ AccountsGenerator.delegation_ok c d (st.Accounts_GetCode c a))).
  intros g asg c []. cbn in *. split; [split; auto|].
  - intros o Ho. apply sat_delegation. in_add_once.
  - apply (sat_delegation d). in_add_once.
Qed.

(** *** Flags *)

Lemma adds_contract f (P : bool -> bool -> Prop) :
  (forall g d n, SelfDestructedGenerator.sat (f g) d n -> SelfDestructedGenerator.sat g d n /\ P d n) ->
  adds (StateGenerator.on_hasSelfDestructedGen f) (fun _ s => P (st.s_HasSelfDestructed s) (st.s_IsNewContract s)).
Proof. intros Hf. adds_field; by destruct (Hf _ _ _ sat_contract). Qed.

Lemma adds_MustBeNewContract : adds StateGenerator.MustBeNewContract (fun _ s => st.s_IsNewContract s = true).
Proof. apply (adds_contract _ (fun _ n => n = true)). intros g d n []. cbn in *. split; [split; auto|auto]. Qed.

Lemma adds_MustNotBeNewContract : adds StateGenerator.MustNotBeNewContract (fun _ s => st.s_IsNewContract s = false).
Proof. apply (adds_contract _ (fun _ n => n = false)). intros g d n []. cbn in *. split; [split; auto|auto]. Qed.

Lemma adds_MustBeSelfDestructed : adds StateGenerator.MustBeSelfDestructed (fun _ s => st.s_HasSelfDestructed s = true).
Proof. apply (adds_contract _ (fun d _ => d = true)). intros g d n []. cbn in *. split; [split; auto|auto]. Qed.

Lemma adds_MustNotBeSelfDestructed : adds StateGenerator.MustNotBeSelfDestructed (fun _ s => st.s_HasSelfDestructed s = false).
Proof. apply (adds_contract _ (fun d _ => d = false)). intros g d n []. cbn in *. split; [split; auto|auto]. Qed.

(** *** Contexts *)

Lemma adds_transaction f (P : Assignment -> st.TransactionContext -> Prop) :
  (forall g asg c, TransactionContextGenerator.sat (f g) asg c -> TransactionContextGenerator.sat g asg c /\ P asg c) ->
  adds (StateGenerator.on_transactionContextGen f) (fun asg s => P asg (st.s_TransactionContext s)).
Proof. intros Hf. adds_field; by destruct (Hf _ _ _ sat_transaction). Qed.

Lemma adds_IsPresentBlobHashIndex v : adds (StateGenerator.IsPresentBlobHashIndex v)
  (fun asg s => exists x, asg !! v = Some x /\ uval x < zlen (st.tx_BlobHashes (st.s_TransactionContext s))).
Proof.
  apply (adds_transaction _ (fun asg c => exists x, asg !! v = Some x /\ uval x < zlen (st.tx_BlobHashes c))). intros g asg c.
  unfold TransactionContextGenerator.IsPresentBlobHashIndex.
  case_if; [intros []; congruence|]. destruct (tcg_blobHashVariables g !! v) as [[]|] eqn:Ev; cbn [negb].
  - intros H. split; [done|]. by apply (TransactionContextGenerator.sat_present _ _ _ H).
  - by intros [].
  - intros []. cbn in *. split; [split; auto; intros u Hu; [apply sat_present|apply sat_absent]; by apply insert_keeps|].
    apply sat_present. by rewrite lookup_insert_eq.
Qed.

Lemma adds_IsAbsentBlobHashIndex v : adds (StateGenerator.IsAbsentBlobHashIndex v)
  (fun asg s => exists x, asg !! v = Some x /\ zlen (st.tx_BlobHashes (st.s_TransactionContext s)) <= uval x).
Proof.
  apply (adds_transaction _ (fun asg c => exists x, asg !! v = Some x /\ zlen (st.tx_BlobHashes c) <= uval x)). intros g asg c.
  unfold TransactionContextGenerator.IsAbsentBlobHashIndex.
  case_if; [intros []; congruence|]. destruct (tcg_blobHashVariables g !! v) as [[]|] eqn:Ev.
  - by intros [].
  - intros H. split; [done|]. by apply (TransactionContextGenerator.sat_absent _ _ _ H).
  - intros []. cbn in *. split; [split; auto; intros u Hu; [apply sat_present|apply sat_absent]; by apply insert_keeps|].
    apply sat_absent. by rewrite lookup_insert_eq.
Qed.

Lemma adds_block f (P : Assignment -> Z -> Prop) :
  (forall g asg n, BlockContextGenerator.sat (f g) asg n -> BlockContextGenerator.sat g asg n /\ P asg n) ->
  adds (StateGenerator.on_blockContextGen f) (fun asg s => P asg (st.bc_BlockNumber (st.s_BlockContext s))).
Proof. intros Hf. adds_field; by destruct (Hf _ _ _ sat_block). Qed.

(** The number is one of a block of these revisions. *)
Lemma adds_AddRevisionBounds lower upper : adds (StateGenerator.AddRevisionBounds lower upper) (fun _ s =>
  GetForkBlock lower <= st.bc_BlockNumber (st.s_BlockContext s) <= BlockContextGenerator.revision_max upper /\ lower <= upper /\ 0 <= lower).
Proof.
  apply (adds_block _ (fun _ n => GetForkBlock lower <= n <= BlockContextGenerator.revision_max upper /\ lower <= upper /\ 0 <= lower)).
  intros b asg n H. destruct (bcg_unsatisfiable b) eqn:Eb.
  { unfold BlockContextGenerator.AddRevisionBounds in H. rewrite Eb in H. destruct H. congruence. }
  assert (lower <= upper /\ 0 <= lower) as Hle.
  { destruct H as [Hok _ _ _ _]. revert Hok. unfold BlockContextGenerator.AddRevisionBounds. rewrite Eb. case_if; [done|]. intros _. b2p. lia. }
  destruct H as [Hok Hn Hs Hv Hr].
  destruct (BlockContextGenerator.AddRevisionBounds_spec lower upper b Eb Hok) as (Ev & Er & s & Es & Ha). rewrite Ev in Hv. rewrite Er in Hr.
  destruct (proj1 (Ha n) (Hs s Es)) as [Hin Hs0]. split; [|done]. split; auto. intros s0 E0. by rewrite E0 in Hs0.
Qed.

Lemma block_range v (c : bool) g asg n :
  BlockContextGenerator.sat (BlockContextGenerator.set_rangeConstraints (<[v := c]> (bcg_rangeConstraints g)) g) asg n -> bcg_rangeConstraints g !! v = None ->
  BlockContextGenerator.sat g asg n /\ exists x, asg !! v = Some x /\ if c then BlockContextGenerator.recent n x else ~ BlockContextGenerator.recent n x.
Proof.
  intros [] Ev. cbn in *. split; [split; auto; intros u c' Hu; apply sat_range; by apply insert_keeps|].
  apply sat_range. by rewrite lookup_insert_eq.
Qed.

Lemma adds_OneOfTheLast256 v : adds (StateGenerator.RestrictVariableToOneOfTheLast256Blocks v)
  (fun asg s => exists x, asg !! v = Some x /\ BlockContextGenerator.recent (st.bc_BlockNumber (st.s_BlockContext s)) x).
Proof.
  apply (adds_block _ (fun asg n => exists x, asg !! v = Some x /\ BlockContextGenerator.recent n x)). intros g asg n.
  unfold BlockContextGenerator.RestrictVariableToOneOfTheLast256Blocks.
  case_if; [intros []; congruence|]. destruct (bcg_rangeConstraints g !! v) as [[]|] eqn:Ev; cbn [negb].
  - intros H. split; [done|]. by apply (BlockContextGenerator.sat_range _ _ _ H v true).
  - by intros [].
  - intros H. by apply (block_range v true) in H.
Qed.

Lemma adds_NoneOfTheLast256 v : adds (StateGenerator.RestrictVariableToNoneOfTheLast256Blocks v)
  (fun asg s => exists x, asg !! v = Some x /\ ~ BlockContextGenerator.recent (st.bc_BlockNumber (st.s_BlockContext s)) x).
Proof.
  apply (adds_block _ (fun asg n => exists x, asg !! v = Some x /\ ~ BlockContextGenerator.recent n x)). intros g asg n.
  unfold BlockContextGenerator.RestrictVariableToNoneOfTheLast256Blocks.
  case_if; [intros []; congruence|]. destruct (bcg_rangeConstraints g !! v) as [[]|] eqn:Ev.
  - by intros [].
  - intros H. split; [done|]. by apply (BlockContextGenerator.sat_range _ _ _ H v false).
  - intros H. by apply (block_range v false) in H.
Qed.

Lemma adds_SetBlockNumberOffsetValue v off : adds (StateGenerator.SetBlockNumberOffsetValue v off)
  (fun asg s => exists x, asg !! v = Some x /\ uval x = st.bc_BlockNumber (st.s_BlockContext s) - off).
Proof.
  apply (adds_block _ (fun asg n => exists x, asg !! v = Some x /\ uval x = n - off)). intros g asg n.
  unfold BlockContextGenerator.SetBlockNumberOffsetValue.
  case_if; [intros []; congruence|]. destruct (bcg_valueConstraint g !! v) as [old|] eqn:Ev.
  - case_if; [by intros []|]. b2p. subst old. intros H. split; [done|]. by apply (BlockContextGenerator.sat_value _ _ _ H).
  - intros []. cbn in *. split; [split; auto; intros u o Hu; apply sat_value; by apply insert_keeps|].
    apply sat_value. by rewrite lookup_insert_eq.
Qed.

End Adds.

(** ** Conditions *)

Section Conditions.
Context {U : Uint256} {UL : Uint256Laws U}.

(** The expressions with a variable, and those of them that are not cut to 16
    bits. *)
Definition plain (e : Expression U256) : Prop := (exists p d, e = eParam p d) \/ exists x, e = eConstant x.
Definition bindable (e : Expression U256) : Prop := e = ePc \/ plain e.
Definition account_ok (e : Expression Address) : Prop := e = eSelfAddress \/ exists e', e = eToAddress e' /\ plain e'.

(** What a domain promises. *)
Definition domain_ok {T} (d : Domain T) : Prop :=
  (forall x, Equal d x x = true) /\ forall x, Equal d (SomethingNotEqual d x) x = false.

Definition expr_ok {T} (e : Expression T) : Prop :=
  match e with
  | eOp position => bindable position
  | eBalance account => account_ok account
  | eParam _ domain => domain_ok domain
  | _ => True
  end.

(** Bounds from which one and one more can be subtracted or added. *)
Definition lt_ok {T} (lhs : Expression T) : T -> Prop :=
  match lhs in Expression T return T -> Prop with
  | eGas | eStackSize => fun n => - 2 ^ 63 + 2 <= n < 2 ^ 63
  | eBalance _ => fun x => 2 <= uval x
  | _ => fun _ => True
  end.

Definition gt_ok {T} (lhs : Expression T) : T -> Prop :=
  match lhs in Expression T return T -> Prop with
  | eGas | eStackSize => fun n => - 2 ^ 63 <= n < 2 ^ 63 - 2
  | eBalance _ => fun x => uval x < 2 ^ 256 - 2
  | _ => fun _ => True
  end.

Definition known (r : Revision) : Prop := 0 <= r <= NewestSupportedRevision \/ r = R99_UnknownNextRevision.

Fixpoint restrictable (c : Condition) : Prop :=
  match c with
  | cConjunction conditions => fold_right (fun c P => restrictable c /\ P) True conditions
  | cEq lhs _ | cNe lhs _ | cLe lhs _ | cGe lhs _ => expr_ok lhs
  | cLt lhs rhs => expr_ok lhs /\ lt_ok lhs rhs
  | cGt lhs rhs => expr_ok lhs /\ gt_ok lhs rhs
  | cRevisionBounds min max => known min /\ known max
  | cIsCode e | cIsData e => bindable e
  | cStorageConfiguration _ key newValue => plain key /\ plain newValue
  | cIsStorageWarm e | cIsStorageCold e | cBindTransientStorageToNonZero e | cBindTransientStorageToZero e
  | cAccountIsEmpty e | cAccountIsNotEmpty e | cIsAddressWarm e | cIsAddressCold e
  | cInRange256FromCurrentBlock e | cOutOfRange256FromCurrentBlock e | cHasBlobHash e | cHasNoBlobHash e => plain e
  | cIsNewContract | cIsNotNewContract | cHasSelfDestructed | cHasNotSelfDestructed => True
  | cContainsDelegationDesignation _ _ => False
  end.

(** Domains keep their promise. *)

Lemma u256_succ_ne x : u256_succ x <> x.
Proof.
  intros H. apply (f_equal uval) in H. unfold u256_succ, U256_Add in H. rewrite Add_law, NewU256_uval in H by zblia.
  pose proof (uval_range x). destruct (Z.eq_dec (uval x + 1) M256) as [He|].
  - rewrite He, Z.mod_same in H by done. unfold M256 in *. lia.
  - rewrite Z.mod_small in H by lia. lia.
Qed.

Lemma U256_Eq_iff x y : U256_Eq x y = true <-> x = y.
Proof. unfold U256_Eq. apply bool_decide_eq_true. Qed.

Lemma u256Domain_ok : domain_ok u256Domain.
Proof.
  split; intros x; cbn; [by apply U256_Eq_iff|]. destruct (U256_Eq _ x) eqn:E; [|done]. by apply U256_Eq_iff, u256_succ_ne in E.
Qed.

Lemma valueDomain_ok : domain_ok valueDomain.
Proof. exact u256Domain_ok. Qed.

Lemma byte_succ_ne b : byte_of (byte_val b + 1) <> b.
Proof.
  intros H. apply (f_equal byte_val) in H. rewrite byte_val_of in H. pose proof (byte_val_range b).
  destruct (Z.eq_dec (byte_val b) 255) as [e|]; [rewrite e in H; done|]. rewrite Z.mod_small in H by lia. lia.
Qed.

Lemma address_other_ne a : address_other a <> a.
Proof.
  unfold address_other. pose proof (array_length a) as Hl. destruct (arr_bytes a) as [|b l] eqn:El; [done|].
  intros Hx%(f_equal arr_bytes). rewrite to_array_bytes, El in Hx by exact Hl. injection Hx as Hb. by apply byte_succ_ne in Hb.
Qed.

Lemma stackSize_other_ne n : Z.rem (i64 (n + 1)) st.MaxStackSize <> n.
Proof.
  change st.MaxStackSize with 1024. intros Hx. pose proof (Z.rem_bound_abs (i64 (n + 1)) 1024 ltac:(lia)) as Hb.
  rewrite Hx in Hb. rewrite i64_id in Hx by zblia. destruct (Z.eq_dec n 1023) as [->|]; [done|]. assert (Z.rem (n + 1) 1024 = n + 1); [|lia].
  destruct (Z_lt_ge_dec (n + 1) 0); [|by apply Z.rem_small; lia]. rewrite <-(Z.opp_involutive (n + 1)), Z.rem_opp_l, Z.rem_small by lia. done.
Qed.

Lemma i64_succ_ne n : i64 (n + 1) <> n.
Proof.
  intros Hx. pose proof (i64_range (n + 1)) as Hr. rewrite Hx in Hr.
  destruct (Z.eq_dec n (2 ^ 63 - 1)) as [->|]; [done|]. rewrite i64_id in Hx by zblia. lia.
Qed.

(** Every expression that can be restricted has a domain that does. *)
Lemma domainOf_ok {T} (e : Expression T) : expr_ok e -> domain_ok (domainOf e).
Proof.
  destruct e; cbn [expr_ok domainOf]; intros H; try exact u256Domain_ok; try done; split; intros x; cbn;
    rewrite ?arr_eqb_refl, ?Z.eqb_refl, ?Bool.eqb_reflx; try done; try by apply bool_decide_eq_true.
  - apply bool_decide_eq_false. by destruct x.
  - apply Z.eqb_neq, i64_succ_ne.
  - apply arr_eqb_neq, address_other_ne.
  - by destruct x.
  - apply bool_decide_eq_false, byte_succ_ne.
  - apply Z.eqb_neq, stackSize_other_ne.
  - apply arr_eqb_neq, address_other_ne.
Qed.

(** [f] restricts generators to states with [P]. *)
Definition restricts (f : StateGenerator -> option StateGenerator) (P : Assignment -> st.State -> Prop) : Prop :=
  forall g g' asg s, f g = Some g' -> StateGenerator.sat g' asg s -> StateGenerator.sat g asg s /\ P asg s.

Lemma restricts_adds f P : adds f P -> restricts (fun g => Some (f g)) P.
Proof. intros H g g' asg s [= <-]. apply H. Qed.

Lemma restricts_mono f (P P' : Assignment -> st.State -> Prop) : restricts f P -> (forall asg s, P asg s -> P' asg s) -> restricts f P'.
Proof. intros H HP g g' asg s H1 H2. destruct (H g g' asg s H1 H2). auto. Qed.

Lemma restricts_bind f1 f2 P1 P2 : restricts f1 P1 -> restricts f2 P2 ->
  restricts (fun g => g ← f1 g; f2 g) (fun asg s => P1 asg s /\ P2 asg s).
Proof.
  intros H1 H2 g g' asg s Hg Hh. destruct (f1 g) as [g1|] eqn:E1; [|done]. cbn in Hg.
  destruct (H2 _ _ _ _ Hg Hh) as [Hh1 ?]. by destruct (H1 _ _ _ _ E1 Hh1).
Qed.

Lemma param_Get p s x : st.Stack_Get (st.s_Stack s) p = Some x -> param_Eval p s = Some (x, None).
Proof.
  intros H. unfold param_Eval. rewrite H. case_if; [|done]. b2p. unfold st.Stack_Get in H.
  rewrite (proj2 (Z.leb_gt _ _)) in H by lia. done.
Qed.

(** The variable [v] stands for [e]. *)
Definition stands (v : Var) (e : Expression U256) (asg : Assignment) (s : st.State) : Prop :=
  exists x, asg !! v = Some x /\ (uval x < 2 ^ 16 \/ plain e -> Eval e s = Some (x, None)).

Lemma BindTo_restricts e v : bindable e -> GetVariable e = Some v -> restricts (BindTo e) (stands v e).
Proof.
  intros [->|[(p & d & ->)|(x & ->)]]; cbn [GetVariable BindTo mbind option_bind]; intros [= <-].
  - eapply restricts_mono; [apply restricts_adds, adds_BindPc|]. intros asg s (x & Hx & Hpc). exists x. split; [done|].
    intros [Hlt|[(p & d & He)|(y & He)]]; [|discriminate He|discriminate He]. cbn [Eval]. unfold pc_Eval. rewrite Hpc.
    pose proof (uval_range x). rewrite Z.mod_small by lia. repeat f_equal. apply u256_eq. by rewrite NewU256_uval by zblia.
  - eapply restricts_mono; [apply restricts_adds, adds_BindStackValue|]. intros asg s (x & Hx & Hget). exists x. split; [done|].
    intros _. cbn [Eval]. by apply param_Get.
  - eapply restricts_mono; [apply restricts_adds, adds_BindValue|]. intros asg s Hx. by exists x.
Qed.

(** A constraint on the variable of an expression. *)
Lemma with_variable_restricts add (P : Var -> Assignment -> st.State -> Prop) e : bindable e -> (forall v, adds (add v) (P v)) ->
  restricts (with_variable add e) (fun asg s => exists v, stands v e asg s /\ P v asg s).
Proof.
  intros He Ha g g' asg s. unfold with_variable. destruct (GetVariable e) as [v|] eqn:Ev; [|done]. cbn [mbind option_bind].
  intros Hg Hh. destruct (restricts_bind _ _ _ _ (BindTo_restricts e v He Ev) (restricts_adds _ _ (Ha v)) g g' asg s Hg Hh) as [? []].
  eauto.
Qed.

(** With a plain expression the constraint is one on its value. *)
Lemma plain_restricts add (P : U256 -> st.State -> Prop) e : plain e ->
  (forall v, adds (add v) (fun asg s => exists x, asg !! v = Some x /\ P x s)) ->
  restricts (with_variable add e) (fun _ s => exists x, Eval e s = Some (x, None) /\ P x s).
Proof.
  intros He Ha. eapply restricts_mono; [apply with_variable_restricts; [by right|exact Ha]|].
  intros asg s (v & (x & Hx & Hev) & y & Hy & Hp). assert (y = x) as -> by congruence. exists x. auto.
Qed.

Lemma plain_restricts_address add (P : Address -> st.State -> Prop) e : plain e ->
  (forall v, adds (add v) (fun asg s => exists a, AccountsGenerator.address_of asg v = Some a /\ P a s)) ->
  restricts (with_variable add e) (fun _ s => exists x, Eval e s = Some (x, None) /\ P (NewAddress x) s).
Proof.
  intros He Ha. apply plain_restricts; [done|]. intros v. eapply adds_mono; [apply Ha|].
  intros asg s (a & (x & Hx & ->)%fmap_Some & Hp). eauto.
Qed.

Lemma GetRevisionForBlock_cases n : 0 <= n ->
  1000 * GetRevisionForBlock n <= n < 1000 * GetRevisionForBlock n + 1000 /\ n < 8000 \/ GetRevisionForBlock n = 99 /\ 8000 <= n.
Proof.
  intros Hn. unfold GetRevisionForBlock. change (seqZ MinRevision (NewestSupportedRevision + 2)) with [0;1;2;3;4;5;6;7;8].
  cbv beta iota. change (GetForkBlock 0) with 0. rewrite (proj2 (Z.ltb_ge _ _)) by lia.
  change (GetForkBlock 1) with 1000. change (GetForkBlock 2) with 2000.
  change (GetForkBlock 3) with 3000. change (GetForkBlock 4) with 4000. change (GetForkBlock 5) with 5000.
  change (GetForkBlock 6) with 6000. change (GetForkBlock 7) with 7000. change (GetForkBlock 8) with 8000.
  repeat (match goal with |- context [if ?b then _ else _] => destruct b eqn:? end; b2p; [left; lia|]). right. done.
Qed.

Lemma GetForkBlock_known r : known r -> GetForkBlock r = if r =? 99 then 8000 else 1000 * r.
Proof.
  intros [Hr| ->]; [|done]. change NewestSupportedRevision with 7 in Hr.
  assert (r = 0 \/ r = 1 \/ r = 2 \/ r = 3 \/ r = 4 \/ r = 5 \/ r = 6 \/ r = 7) as Hc by lia.
  by destruct Hc as [->|[->|[->|[->|[->|[->|[->| ->]]]]]]].
Qed.

(** Block numbers of known revisions have a revision between them. *)
Lemma revision_of_known lower upper n : known lower -> known upper -> 0 <= n -> lower <= upper ->
  GetForkBlock lower <= n <= BlockContextGenerator.revision_max upper -> lower <= GetRevisionForBlock n <= upper.
Proof.
  intros Hl Hu H0 Hle Hn. pose proof (GetRevisionForBlock_cases n H0) as Hr. pose proof (GetForkBlock_known lower Hl) as Hf.
  unfold known in *. change NewestSupportedRevision with 7 in *. change R99_UnknownNextRevision with 99 in *. destruct Hu as [Hu|Hu].
  - apply BlockContextGenerator.revision_of_range; try done; change NewestSupportedRevision with 7; lia.
  - destruct (Z.eqb_spec lower 99); lia.
Qed.

(** *** Expressions *)

(** The value of an ordered expression as a number. *)
Definition num {T} (e : Expression T) : T -> Z :=
  match e in Expression T return T -> Z with
  | eGas | eStackSize => fun n => n
  | eBalance _ => uval
  | _ => fun _ => 0
  end.

(** What a kind of restriction asks for. *)
Definition related (kind : RestrictionKind) (a b : Z) : Prop :=
  match kind with
  | RestrictLess => a < b
  | RestrictLessEqual => a <= b
  | RestrictEqual => a = b
  | RestrictGreaterEqual => b <= a
  | RestrictGreater => b < a
  end.

(** One can be subtracted from, or added to, a strict bound. *)
Definition bound_ok (kind : RestrictionKind) {T} (e : Expression T) : T -> Prop :=
  match e in Expression T return T -> Prop with
  | eGas | eStackSize => fun n => match kind with RestrictLess => - 2 ^ 63 < n < 2 ^ 63 | RestrictGreater => - 2 ^ 63 <= n < 2 ^ 63 - 1 | _ => True end
  | eBalance _ => fun x => match kind with RestrictLess => 0 < uval x | RestrictGreater => uval x < 2 ^ 256 - 1 | _ => True end
  | _ => fun _ => True
  end.

Lemma gas_restricts kind n : bound_ok kind eGas n -> restricts (gas_Restrict kind n) (fun _ s => related kind (st.s_Gas s) n).
Proof.
  intros Hb. cbn in Hb. unfold gas_Restrict. destruct kind; cbn [related]; rewrite ?i64_id by zblia.
  - eapply restricts_mono; [apply restricts_adds, adds_AddGasUpperBound|]. cbn. lia.
  - apply (restricts_adds _ _ (adds_AddGasUpperBound n)).
  - apply (restricts_adds _ _ (adds_SetGas n)).
  - apply (restricts_adds _ _ (adds_AddGasLowerBound n)).
  - eapply restricts_mono; [apply restricts_adds, adds_AddGasLowerBound|]. cbn. lia.
Qed.

Lemma stackSize_restricts kind n : bound_ok kind eStackSize n ->
  restricts (stackSize_Restrict kind n) (fun _ s => related kind (st.Stack_Size (st.s_Stack s)) n).
Proof.
  intros Hb. cbn in Hb. unfold stackSize_Restrict. destruct kind; cbn [related]; rewrite ?i64_id by zblia.
  - eapply restricts_mono; [apply restricts_adds, adds_AddStackSizeUpperBound|]. cbn. lia.
  - apply (restricts_adds _ _ (adds_AddStackSizeUpperBound n)).
  - apply (restricts_adds _ _ (adds_SetStackSize n)).
  - apply (restricts_adds _ _ (adds_AddStackSizeLowerBound n)).
  - eapply restricts_mono; [apply restricts_adds, adds_AddStackSizeLowerBound|]. cbn. lia.
Qed.

(** The variable of an account has its address. *)
Lemma BindTo_account e v : account_ok e -> GetVariable e = Some v ->
  restricts (BindTo e) (fun asg s => exists a, AccountsGenerator.address_of asg v = Some a /\ Eval e s = Some (a, None)).
Proof.
  intros [->|(e' & -> & He)] Hv.
  - injection Hv as <-. eapply restricts_mono; [apply restricts_adds, adds_BindToSelfAddress|]. intros asg s (x & Hx & Ha).
    exists (NewAddress x). unfold AccountsGenerator.address_of. rewrite Hx. cbn [Eval]. unfold selfAddress_Eval. by rewrite <-Ha.
  - eapply restricts_mono; [apply (BindTo_restricts e' v); [by right|done]|]. intros asg s (x & Hx & Hev).
    exists (NewAddress x). unfold AccountsGenerator.address_of. rewrite Hx. split; [done|]. cbn [Eval]. unfold toAddress_Eval.
    rewrite Hev by (by right). done.
Qed.

Lemma balance_adds kind v x : bound_ok kind (eBalance eSelfAddress) x ->
  adds (fun g => match kind with
        | RestrictLess => StateGenerator.AddBalanceUpperBound v (U256_Sub x (NewU256 1)) g
        | RestrictLessEqual => StateGenerator.AddBalanceUpperBound v x g
        | RestrictEqual => StateGenerator.AddBalanceUpperBound v x (StateGenerator.AddBalanceLowerBound v x g)
        | RestrictGreaterEqual => StateGenerator.AddBalanceLowerBound v x g
        | RestrictGreater => StateGenerator.AddBalanceLowerBound v (U256_Add x (NewU256 1)) g
        end)
    (fun asg s => exists a, AccountsGenerator.address_of asg v = Some a
      /\ related kind (uval (st.Accounts_GetBalance (st.s_Accounts s) a)) (uval x)).
Proof.
  intros Hb. cbn in Hb. pose proof (uval_range x). destruct kind; cbn [related].
  - eapply adds_mono; [apply adds_AddBalanceUpperBound|]. intros asg s (a & Ha & Hle). exists a. split; [done|].
    unfold U256_Sub in Hle. rewrite Sub_law, NewU256_uval, Z.mod_small in Hle by zblia. lia.
  - apply adds_AddBalanceUpperBound.
  - eapply adds_mono; [apply (adds_compose _ _ _ _ (adds_AddBalanceLowerBound v x) (adds_AddBalanceUpperBound v x))|].
    intros asg s [(a & Ha & Hl) (b & Hb' & Hu)]. exists a. split; [done|]. assert (b = a) as -> by congruence. lia.
  - apply adds_AddBalanceLowerBound.
  - eapply adds_mono; [apply adds_AddBalanceLowerBound|]. intros asg s (a & Ha & Hle). exists a. split; [done|].
    unfold U256_Add in Hle. rewrite Add_law, NewU256_uval, Z.mod_small in Hle by (unfold M256 in *; zblia). lia.
Qed.

Lemma balance_restricts kind account x : account_ok account -> bound_ok kind (eBalance account) x ->
  restricts (balance_Restrict account kind x) (fun _ s =>
    exists y, Eval (eBalance account) s = Some (y, None) /\ related kind (uval y) (uval x)).
Proof.
  intros He Hb g g' asg s. unfold balance_Restrict. destruct (GetVariable account) as [v|] eqn:Ev; [|done]. cbn [mbind option_bind].
  intros Hg Hh. destruct (restricts_bind _ _ _ _ (BindTo_account account v He Ev) (restricts_adds _ _ (balance_adds kind v x Hb)) g g' asg s Hg Hh)
    as [? [(a & Ha & Hev) (b & Hb' & Hr)]]. split; [done|]. assert (b = a) as -> by congruence.
  exists (st.Accounts_GetBalance (st.s_Accounts s) a). cbn [Eval]. unfold balance_Eval. rewrite Hev. done.
Qed.

(** Where the code is known to be one of [NewCode]. *)
Lemma op_restricts position op : bindable position -> restricts (op_Restrict position RestrictEqual op) (fun _ s =>
  StateGenerator.in_limits s -> Eval (eOp position) s = Some (op, None)).
Proof.
  intros He. eapply restricts_mono; [apply (with_variable_restricts (fun v => StateGenerator.AddCodeOperation v op)); [done|intros v; apply adds_AddCodeOperation]|].
  intros asg s (v & (x & Hx & Hev) & p & HU & Hp & Hplaced) Hlim. assert (x = NewU256 p) as -> by congruence.
  destruct (StateGenerator.lim_code s Hlim) as [Hnew Hmax]. pose proof (CodeGenerator.placed_isCode _ _ Hplaced) as Hcode. cbn [co_pos] in Hcode.
  destruct Hplaced as (Hin & Hop & _). cbn [co_pos co_op] in *. unfold st.MaxCodeSize in Hmax.
  cbn [Eval]. unfold op_Eval. rewrite Hev by (left; rewrite NewU256_uval by done; lia). cbn [eval_bind].
  unfold U256_IsUint64, U256_Uint64. rewrite IsUint64_law, Uint64_law, NewU256_uval by done. rewrite (proj2 (Z.ltb_lt _ _)) by zblia.
  rewrite Z.mod_small, Z.gtb_ltb, (proj2 (Z.ltb_ge _ _)) by (unfold MaxInt; zblia). cbn [negb orb].
  unfold st.Code_GetOperation. rewrite <-Hnew in Hcode. rewrite Hcode. cbn [negb]. rewrite (proj2 (Z.ltb_ge p 0)) by lia.
  assert (zlen (st.code (st.s_Code s)) <= zlen (st.isCode (st.s_Code s))) as Hl.
  { rewrite Hnew at 2. by destruct (NewCode_isCode (st.code (st.s_Code s))). }
  rewrite Z.geb_leb, (proj2 (Z.leb_gt _ _)) by lia. cbn [orb]. by rewrite Hop.
Qed.

Lemma restricts_none P : restricts (fun _ => None) P.
Proof. by intros g g' asg s. Qed.

(** Restricted to a value, an expression has it. *)
Lemma Restrict_Equal {T} (e : Expression T) value : expr_ok e ->
  restricts (Expression_Restrict RestrictEqual e value) (fun _ s => StateGenerator.in_limits s -> Eval e s = Some (value, None)).
Proof.
  destruct e; cbn [Expression_Restrict expr_ok]; intros He.
  - eapply restricts_mono; [apply (restricts_adds _ _ (adds_SetStatus (status_num value)))|]. intros asg s Hs _. cbn [Eval]. unfold status_Eval.
    by destruct value; injection Hs as ->.
  - unfold pc_Restrict. destruct (negb (U256_IsUint64 value) || (U256_Uint64 value >? 2 ^ 16 - 1)) eqn:Ev; [apply restricts_none|].
    eapply restricts_mono; [apply restricts_adds, adds_SetPc|]. intros asg s Hs _. cbn [Eval]. unfold pc_Eval. cbn beta in Hs. rewrite Hs.
    apply orb_false_iff in Ev as [Hu Hm]. apply negb_false_iff in Hu. unfold U256_Uint64, U256_IsUint64 in *. rewrite Uint64_exact in * by done.
    b2p. pose proof (uval_range value). unfold u16, wrapU. rewrite Z.mod_small by lia. repeat f_equal. apply u256_eq. by rewrite NewU256_uval by zblia.
  - eapply restricts_mono; [by apply gas_restricts|]. intros asg s Hs _. cbn [Eval related] in *. unfold gas_Eval. by rewrite Hs.
  - eapply restricts_mono; [apply (restricts_adds _ _ (adds_SetSelfAddress value))|]. intros asg s Hs _. cbn [Eval]. unfold selfAddress_Eval. by rewrite Hs.
  - eapply restricts_mono; [apply (restricts_adds _ _ (adds_SetReadOnly value))|]. intros asg s Hs _. cbn [Eval]. unfold readOnly_Eval. by rewrite Hs.
  - eapply restricts_mono; [by apply (balance_restricts RestrictEqual)|]. intros asg s (y & Hy & Hr) _. cbn [related] in Hr. rewrite Hy.
    by apply u256_eq in Hr as ->.
  - by apply op_restricts.
  - eapply restricts_mono; [by apply stackSize_restricts|]. intros asg s Hs _. cbn [Eval related] in *. unfold stackSize_Eval. by rewrite Hs.
  - eapply restricts_mono; [apply (restricts_adds _ _ (adds_SetStackValue position value))|]. intros asg s Hs _. cbn [Eval]. by apply param_Get.
  - apply restricts_none.
  - apply restricts_none.
Qed.

(** The domain orders values as numbers. *)
Definition ordered {T} (e : Expression T) : Prop :=
  forall a b, Less (domainOf e) a b = Some (num e a <? num e b) /\ Equal (domainOf e) a b = (num e a =? num e b).

Lemma Z_ordered (e : Expression Z) : domainOf e = gasDomain \/ domainOf e = stackSizeDomain -> (forall n, num e n = n) -> ordered e.
Proof. unfold ordered. intros [->| ->] Hn a b; rewrite !Hn; done. Qed.

Lemma balance_ordered account : ordered (eBalance account).
Proof.
  intros a b. cbn. unfold U256_Lt. rewrite Lt_law. split; [done|]. unfold U256_Eq. destruct (Z.eqb_spec (uval a) (uval b)) as [He|He].
  - apply bool_decide_eq_true. by apply u256_eq.
  - apply bool_decide_eq_false. congruence.
Qed.

(** Restricted by a bound, an ordered expression observes it. *)
Lemma Restrict_order kind {T} (e : Expression T) value : kind <> RestrictEqual -> expr_ok e -> bound_ok kind e value ->
  restricts (Expression_Restrict kind e value) (fun _ s =>
    exists v, Eval e s = Some (v, None) /\ related kind (num e v) (num e value) /\ ordered e).
Proof.
  intros Hk He Hb. destruct e; cbn [Expression_Restrict expr_ok] in *; try (destruct kind; [apply restricts_none..|done|apply restricts_none|apply restricts_none]);
    try apply restricts_none.
  - eapply restricts_mono; [by apply gas_restricts|]. intros asg s Hs. eexists. split; [done|]. split; [done|]. apply Z_ordered; auto.
  - eapply restricts_mono; [by apply balance_restricts|]. intros asg s (y & Hy & Hr). exists y. split; [done|]. split; [done|apply balance_ordered].
  - eapply restricts_mono; [by apply stackSize_restricts|]. intros asg s Hs. eexists. split; [done|]. split; [done|]. apply Z_ordered; auto.
Qed.

(** *** The checks *)

(** A state in the limits with the revision of its block, and as many blob
    hashes as a slice can have. *)
Definition regular (s : st.State) : Prop :=
  StateGenerator.in_limits s /\ st.s_Revision s = GetRevisionForBlock (st.bc_BlockNumber (st.s_BlockContext s))
  /\ zlen (st.tx_BlobHashes (st.s_TransactionContext s)) < 2 ^ 63.

(** What remains to be shown for an elementary condition. *)
Definition sound (restrict : StateGenerator -> option StateGenerator) (check : st.State -> evaluation bool) : Prop :=
  restricts restrict (fun _ s => regular s -> check s = Some (true, None)).

Lemma eq_sound {T} (lhs : Expression T) rhs : expr_ok lhs -> sound (eq_Restrict lhs rhs) (eq_Check lhs rhs).
Proof.
  intros He. eapply restricts_mono; [by apply Restrict_Equal|]. intros asg s Hev [Hlim _]. unfold eq_Check. rewrite (Hev Hlim). cbn.
  by rewrite (proj1 (domainOf_ok lhs He)).
Qed.

Lemma ne_sound {T} (lhs : Expression T) rhs : expr_ok lhs -> sound (ne_Restrict lhs rhs) (ne_Check lhs rhs).
Proof.
  intros He. eapply restricts_mono; [by apply Restrict_Equal|]. intros asg s Hev [Hlim _]. unfold ne_Check. rewrite (Hev Hlim). cbn.
  by rewrite (proj2 (domainOf_ok lhs He)).
Qed.

Lemma le_sound {T} (lhs : Expression T) rhs : expr_ok lhs -> sound (le_Restrict lhs rhs) (le_Check lhs rhs).
Proof.
  intros He. eapply restricts_mono; [apply (Restrict_order RestrictLessEqual); [done|done|by destruct lhs]|].
  intros asg s (v & Hv & Hr & Ho) _. cbn [related] in Hr. unfold le_Check. rewrite Hv. cbn. destruct (Ho v rhs) as [-> ->]. do 2 f_equal.
  destruct (Z.ltb_spec (num lhs v) (num lhs rhs)); [done|]. apply Z.eqb_eq. lia.
Qed.

Lemma ge_sound {T} (lhs : Expression T) rhs : expr_ok lhs -> sound (ge_Restrict lhs rhs) (ge_Check lhs rhs).
Proof.
  intros He. eapply restricts_mono; [apply (Restrict_order RestrictGreaterEqual); [done|done|by destruct lhs]|].
  intros asg s (v & Hv & Hr & Ho) _. cbn [related] in Hr. unfold ge_Check. rewrite Hv. cbn. destruct (Ho v rhs) as [-> _]. do 2 f_equal.
  apply negb_true_iff, Z.ltb_ge. lia.
Qed.

(** One less than the bound is asked for, and one less than that is given. *)
Lemma lt_sound {T} (lhs : Expression T) rhs : expr_ok lhs -> lt_ok lhs rhs -> sound (lt_Restrict lhs rhs) (lt_Check lhs rhs).
Proof.
  intros He Hok. unfold lt_Restrict, sound. destruct (Predecessor (domainOf lhs) rhs) as [value|] eqn:Ep; [|apply restricts_none]. cbn [mbind option_bind].
  assert (bound_ok RestrictLess lhs value /\ (ordered lhs -> num lhs value <= num lhs rhs)) as [Hb Hle].
  { destruct lhs; cbn in *; try (split; [done|]; intros; lia); injection Ep as <-; rewrite ?i64_id by zblia; [split; [|intros]; lia| |split; [|intros]; lia].
    unfold u256_pred, U256_Sub. pose proof (uval_range rhs). rewrite Sub_law, NewU256_uval, Z.mod_small by zblia. split; [|intros]; lia. }
  eapply restricts_mono; [by apply (Restrict_order RestrictLess)|]. intros asg s (v & Hv & Hr & Ho) _. cbn [related] in Hr.
  unfold lt_Check. rewrite Hv. cbn. destruct (Ho v rhs) as [-> _]. specialize (Hle Ho). cbn. do 2 f_equal. apply Z.ltb_lt. lia.
Qed.

Lemma gt_sound {T} (lhs : Expression T) rhs : expr_ok lhs -> gt_ok lhs rhs -> sound (gt_Restrict lhs rhs) (gt_Check lhs rhs).
Proof.
  intros He Hok. unfold gt_Restrict, sound. destruct (Successor (domainOf lhs) rhs) as [value|] eqn:Ep; [|apply restricts_none]. cbn [mbind option_bind].
  assert (bound_ok RestrictGreater lhs value /\ (ordered lhs -> num lhs rhs <= num lhs value)) as [Hb Hle].
  { destruct lhs; cbn in *; try (split; [done|]; intros; lia); injection Ep as <-; rewrite ?i64_id by zblia; [split; [|intros]; lia| |split; [|intros]; lia].
    unfold u256_succ, U256_Add. pose proof (uval_range rhs). rewrite Add_law, NewU256_uval, Z.mod_small by (unfold M256 in *; zblia). split; [|intros]; lia. }
  eapply restricts_mono; [by apply (Restrict_order RestrictGreater)|]. intros asg s (v & Hv & Hr & Ho) _. cbn [related] in Hr.
  unfold gt_Check. rewrite Hv. cbn. destruct (Ho v rhs) as [-> ->]. specialize (Hle Ho). cbn. do 2 f_equal.
  rewrite (proj2 (Z.ltb_ge _ _)), (proj2 (Z.eqb_neq _ _)) by lia. done.
Qed.

Lemma revisionBounds_sound min max : known min -> known max -> sound (revisionBounds_Restrict min max) (revisionBounds_Check min max).
Proof.
  intros Hmin Hmax. eapply restricts_mono; [apply restricts_adds, adds_AddRevisionBounds|].
  intros asg s (Hn & Hle & H0) (Hlim & Hrev & _). unfold revisionBounds_Check. rewrite Hrev.
  pose proof (StateGenerator.lim_block s Hlim) as [HU _]. pose proof (revision_of_known min max _ Hmin Hmax (proj1 HU) Hle Hn).
  rewrite !(proj2 (Z.leb_le _ _)) by lia. done.
Qed.

(** A position of the code, as a 16-bit number and as the value of an
    expression. *)
Lemma position_Eval e v asg s p : stands v e asg s -> asg !! v = Some (NewU256 p) -> 0 <= p < zlen (st.code (st.s_Code s)) ->
  StateGenerator.in_limits s ->
  Eval e s = Some (NewU256 p, None) /\ U256_IsUint64 (NewU256 p) = true /\ U256_Uint64 (NewU256 p) = p /\ (p >? MaxInt) = false.
Proof.
  intros (x & Hx & Hev) Hp Hin Hlim. assert (x = NewU256 p) as -> by congruence.
  destruct (StateGenerator.lim_code s Hlim) as [_ Hmax]. unfold st.MaxCodeSize in Hmax. unfold U256_IsUint64, U256_Uint64.
  rewrite IsUint64_law, Uint64_law, NewU256_uval, Z.mod_small, (proj2 (Z.ltb_lt _ _)) by zblia.
  split; [apply Hev; left; rewrite NewU256_uval by zblia; lia|]. split; [done|]. split; [done|]. rewrite Z.gtb_ltb. apply Z.ltb_ge. unfold MaxInt. zblia.
Qed.

Lemma isCode_sound e : bindable e -> sound (isCode_Restrict e) (isCode_Check e).
Proof.
  intros He. eapply restricts_mono; [apply with_variable_restricts; [done|apply adds_AddIsCode]|].
  intros asg s (v & Hv & p & Hin & Hp & Hc) [Hlim _]. destruct (position_Eval e v asg s p Hv Hp Hin Hlim) as (Hev & HU & H64 & Hm).
  unfold isCode_Check. rewrite Hev. cbn [eval_bind]. rewrite HU, H64, Hm. cbn. by rewrite Hc.
Qed.

Lemma isData_sound e : bindable e -> sound (isData_Restrict e) (isData_Check e).
Proof.
  intros He. eapply restricts_mono; [apply with_variable_restricts; [done|apply adds_AddIsData]|].
  intros asg s (v & Hv & p & Hin & Hp & Hc) [Hlim _]. destruct (position_Eval e v asg s p Hv Hp Hin Hlim) as (Hev & HU & H64 & Hm).
  unfold isData_Check. rewrite Hev. cbn [eval_bind]. rewrite HU, H64, Hm. cbn. by rewrite Hc.
Qed.

(** The value of a plain expression satisfies the constraint. *)
Ltac plain_sound lemma add P :=
  intros He; eapply restricts_mono; [apply (lemma add P); [exact He|]|];
  [|intros asg s (x & Hev & Hx) Hreg; cbn in Hx; cbv beta delta [isStorageWarm_Check isStorageCold_Check bindTransientStorageToNonZero_Check
      bindTransientStorageToZero_Check accountIsEmpty_Check accountIsNotEmpty_Check isAddressWarm_Check isAddressCold_Check
      inRange256FromCurrentBlock_Check outOfRange256FromCurrentBlock_Check hasBlobHash_Check hasNoBlobHash_Check negated];
    rewrite Hev; cbn [eval_bind]].

Lemma isStorageWarm_sound e : plain e -> sound (isStorageWarm_Restrict e) (isStorageWarm_Check e).
Proof. plain_sound plain_restricts StateGenerator.BindIsStorageWarm (fun x s => st.Storage_IsWarm (st.s_Storage s) x = true); [apply adds_BindIsStorageWarm|by rewrite Hx]. Qed.

Lemma isStorageCold_sound e : plain e -> sound (isStorageCold_Restrict e) (isStorageCold_Check e).
Proof. plain_sound plain_restricts StateGenerator.BindIsStorageCold (fun x s => st.Storage_IsWarm (st.s_Storage s) x = false); [apply adds_BindIsStorageCold|by rewrite Hx]. Qed.

Lemma storageConfiguration_sound config key newValue : plain key -> plain newValue ->
  sound (storageConfiguration_Restrict config key newValue) (storageConfiguration_Check config key newValue).
Proof.
  intros Hk Hn g g' asg s. unfold storageConfiguration_Restrict. destruct (GetVariable key) as [vk|] eqn:Ek; [|done]. cbn [mbind option_bind].
  destruct (BindTo key g) as [g1|] eqn:E1; [|done]. cbn. destruct (GetVariable newValue) as [vn|] eqn:En; [|done]. cbn.
  destruct (BindTo newValue g1) as [g2|] eqn:E2; [|done]. intros [= <-] Hh.
  apply adds_BindStorageConfiguration in Hh as [Hh (k & v & Hka & Hva & Hc)].
  destruct (BindTo_restricts newValue vn (or_intror Hn) En _ _ _ _ E2 Hh) as [Hh1 (x & Hx & Hevn)].
  destruct (BindTo_restricts key vk (or_intror Hk) Ek _ _ _ _ E1 Hh1) as [Hh0 (y & Hy & Hevk)].
  split; [done|]. intros _. assert (x = v) as -> by congruence. assert (y = k) as -> by congruence.
  unfold storageConfiguration_Check. rewrite Hevk, Hevn by (by right). cbn [eval_bind]. by rewrite Hc.
Qed.

Lemma transientNonZero_sound e : plain e -> sound (bindTransientStorageToNonZero_Restrict e) (bindTransientStorageToNonZero_Check e).
Proof.
  plain_sound plain_restricts StateGenerator.BindTransientStorageToNonZero (fun x s => nonZero (st.TransientStorage_Get (st.s_TransientStorage s) x)); [apply adds_BindTransientStorageToNonZero|].
  unfold st.TransientStorage_IsZero, U256_IsZero. rewrite IsZero_law. unfold nonZero in Hx. fold (st.TransientStorage_Get (st.s_TransientStorage s) x).
  by rewrite (proj2 (Z.eqb_neq _ _)).
Qed.

Lemma transientZero_sound e : plain e -> sound (bindTransientStorageToZero_Restrict e) (bindTransientStorageToZero_Check e).
Proof.
  plain_sound plain_restricts StateGenerator.BindTransientStorageToZero (fun x s => st.TransientStorage_Get (st.s_TransientStorage s) x = NewU256 0); [apply adds_BindTransientStorageToZero|].
  unfold st.TransientStorage_IsZero, U256_IsZero. rewrite IsZero_law. fold (st.TransientStorage_Get (st.s_TransientStorage s) x).
  by rewrite Hx, NewU256_uval by done.
Qed.

Lemma accountIsEmpty_sound e : plain e -> sound (accountIsEmpty_Restrict e) (accountIsEmpty_Check e).
Proof. plain_sound plain_restricts_address StateGenerator.BindToAddressOfEmptyAccount (fun a s => st.Accounts_IsEmpty (st.s_Accounts s) a = true); [intros v; apply adds_emptiness|by rewrite Hx]. Qed.

Lemma accountIsNotEmpty_sound e : plain e -> sound (accountIsNotEmpty_Restrict e) (accountIsNotEmpty_Check e).
Proof. plain_sound plain_restricts_address StateGenerator.BindToAddressOfNonEmptyAccount (fun a s => st.Accounts_IsEmpty (st.s_Accounts s) a = false); [intros v; apply adds_emptiness|by rewrite Hx]. Qed.

Lemma isAddressWarm_sound e : plain e -> sound (isAddressWarm_Restrict e) (isAddressWarm_Check e).
Proof. plain_sound plain_restricts_address StateGenerator.BindToWarmAddress (fun a s => st.Accounts_IsWarm (st.s_Accounts s) a = true); [intros v; apply adds_addressTemperature|by rewrite Hx]. Qed.

Lemma isAddressCold_sound e : plain e -> sound (isAddressCold_Restrict e) (isAddressCold_Check e).
Proof. plain_sound plain_restricts_address StateGenerator.BindToColdAddress (fun a s => st.Accounts_IsWarm (st.s_Accounts s) a = false); [intros v; apply adds_addressTemperature|by rewrite Hx]. Qed.

(** Recent blocks are those of the check. *)
Lemma inRange256_recent n x : isU64 n -> U256_IsUint64 x && inRange256 n (U256_Uint64 x) = true <-> BlockContextGenerator.recent n x.
Proof.
  intros Hn. unfold inRange256, BlockContextGenerator.recent, U256_IsUint64, U256_Uint64. rewrite IsUint64_law, Uint64_law. pose proof (uval_range x).
  assert ((if n >? 256 then n -u64 256 else 0) = Z.max 0 (n - 256)) as ->.
  { rewrite Z.gtb_ltb. destruct (Z.ltb_spec 256 n); [rewrite u64_id by zblia|]; lia. }
  rewrite !andb_true_iff, Z.leb_le, !Z.ltb_lt. split.
  - intros (H1 & H2). rewrite Z.mod_small in H2 by lia. lia.
  - intros Hr. assert (uval x < 2 ^ 64) by zblia. rewrite Z.mod_small by lia. lia.
Qed.

Lemma inRange256_sound e : plain e -> sound (inRange256FromCurrentBlock_Restrict e) (inRange256FromCurrentBlock_Check e).
Proof.
  plain_sound plain_restricts StateGenerator.RestrictVariableToOneOfTheLast256Blocks (fun x s => BlockContextGenerator.recent (st.bc_BlockNumber (st.s_BlockContext s)) x); [apply adds_OneOfTheLast256|].
  destruct Hreg as [Hlim _]. apply inRange256_recent, andb_true_iff in Hx as [-> ->]; [done|]. apply (StateGenerator.lim_block s Hlim).
Qed.

Lemma outOfRange256_sound e : plain e -> sound (outOfRange256FromCurrentBlock_Restrict e) (outOfRange256FromCurrentBlock_Check e).
Proof.
  plain_sound plain_restricts StateGenerator.RestrictVariableToNoneOfTheLast256Blocks (fun x s => ~ BlockContextGenerator.recent (st.bc_BlockNumber (st.s_BlockContext s)) x); [apply adds_NoneOfTheLast256|].
  destruct Hreg as [Hlim _]. rewrite <-inRange256_recent in Hx by apply (StateGenerator.lim_block s Hlim).
  destruct (U256_IsUint64 x); [|done]. cbn in *. by destruct (inRange256 _ _).
Qed.

Lemma hasBlobHash_sound e : plain e -> sound (hasBlobHash_Restrict e) (hasBlobHash_Check e).
Proof.
  plain_sound plain_restricts StateGenerator.IsPresentBlobHashIndex (fun x s => uval x < zlen (st.tx_BlobHashes (st.s_TransactionContext s)));
    [apply adds_IsPresentBlobHashIndex|].
  destruct Hreg as (_ & _ & Hlen). pose proof (uval_range x). unfold U256_IsUint64, U256_Uint64. rewrite IsUint64_law, Uint64_law.
  rewrite Z.mod_small, !(proj2 (Z.ltb_lt _ _)) by lia. done.
Qed.

Lemma hasNoBlobHash_sound e : plain e -> sound (hasNoBlobHash_Restrict e) (hasNoBlobHash_Check e).
Proof.
  plain_sound plain_restricts StateGenerator.IsAbsentBlobHashIndex (fun x s => zlen (st.tx_BlobHashes (st.s_TransactionContext s)) <= uval x);
    [apply adds_IsAbsentBlobHashIndex|].
  pose proof (uval_range x). unfold U256_IsUint64, U256_Uint64. rewrite IsUint64_law, Uint64_law.
  destruct (Z.ltb_spec (uval x) (2 ^ 64)); [|done]. cbn [negb]. rewrite Z.mod_small, (proj2 (Z.ltb_ge _ _)) by lia. done.
Qed.

Lemma flag_sound f P check : adds f (fun _ s => P s) -> (forall s, P s -> check s = Some (true, None)) -> sound (fun g => Some (f g)) check.
Proof. intros Ha Hc. eapply restricts_mono; [apply restricts_adds, Ha|]. auto. Qed.

(** Restricted by a condition, a generator produces states that the condition
    accepts, and that it would have produced before. *)
Lemma Condition_Restrict_sound c : restrictable c -> sound (Condition_Restrict c) (Condition_Check c).
Proof.
  revert c. fix IH 1. intros [].
  1: { cbn [restrictable]. intros Hall g g' asg s. cbn [Condition_Restrict Condition_Check].
       revert g. induction conditions as [|c l IHl]; cbn; intros g Hg Hh; [by injection Hg as ->|].
       destruct Hall as [Hc Hl]. destruct (Condition_Restrict c g) as [g1|] eqn:E1; [|done]. cbn in Hg.
       destruct (IHl Hl g1 Hg Hh) as [Hh1 Hck]. destruct (IH c Hc _ _ _ _ E1 Hh1) as [Hh0 Hc0]. split; [done|].
       intros Hreg. rewrite (Hc0 Hreg). by apply Hck. }
  all: clear IH; cbn [restrictable]; intros Hok; try done.
  - by apply eq_sound.
  - by apply ne_sound.
  - destruct Hok. by apply lt_sound.
  - by apply le_sound.
  - destruct Hok. by apply gt_sound.
  - by apply ge_sound.
  - destruct Hok. by apply revisionBounds_sound.
  - by apply isCode_sound.
  - by apply isData_sound.
  - by apply isStorageWarm_sound.
  - by apply isStorageCold_sound.
  - destruct Hok. by apply storageConfiguration_sound.
  - by apply transientNonZero_sound.
  - by apply transientZero_sound.
  - by apply accountIsEmpty_sound.
  - by apply accountIsNotEmpty_sound.
  - by apply isAddressWarm_sound.
  - by apply isAddressCold_sound.
  - apply (flag_sound _ (fun s => st.s_IsNewContract s = true)); [apply adds_MustBeNewContract|]. intros s Hs. cbn. unfold isNewContract_Check. by rewrite Hs.
  - apply (flag_sound _ (fun s => st.s_IsNewContract s = false)); [apply adds_MustNotBeNewContract|]. intros s Hs. cbn. by rewrite Hs.
  - apply (flag_sound _ (fun s => st.s_HasSelfDestructed s = true)); [apply adds_MustBeSelfDestructed|]. intros s Hs. cbn. unfold hasSelfDestructed_Check. by rewrite Hs.
  - apply (flag_sound _ (fun s => st.s_HasSelfDestructed s = false)); [apply adds_MustNotBeSelfDestructed|]. intros s Hs. cbn. unfold hasNotSelfDestructed_Check. by rewrite Hs.
  - by apply inRange256_sound.
  - by apply outOfRange256_sound.
  - by apply hasBlobHash_sound.
  - by apply hasNoBlobHash_sound.
Qed.

End Conditions.
