(* ===== verification/CtEnumerate.v ===== *)
(** * Enumeration of test cases

    The test values of conditions and their enumeration:
    [go/ct/rlz/test_value.go], the methods [GetTestValues] of
    [go/ct/rlz/conditions.go], and [EnumerateTestCases] with its helpers of
    [go/ct/rlz/rules.go]. A panic is [None]. *)
From Stdlib Require Import ZArith Lia Strings.Byte.
From stdpp Require Import base list numbers gmap strings pretty sorting.
From S2P Require Import Prelude Uint256 Types OpCodes CtCommon CtState CtRules CtRand CtGenSolvers CtGenStorage CtGenState CtRestrict.
Set Default Goal Selector "!".
Local Open Scope Z_scope.
Local Open Scope go_scope.

(** ** Test values *)

(** The type parameters of [testValue], and their values. *)
Inductive goType := tStatusCode | tU256 | tGas | tAddress | tBool | tOpCode | tInt | tRevision | tInt64 | tDelegation.

#[global] Instance goType_eqdec : EqDecision goType.
Proof. solve_decision. Defined.

Definition goVal (t : goType) : Type :=
  match t with
  | tStatusCode => st.StatusCode
  | tU256 => U256
  | tGas | tInt | tRevision | tInt64 => Z
  | tAddress => Address
  | tBool => bool
  | tOpCode => OpCode
  | tDelegation => DelegationDesignatorState
  end.

Record TestValue := NewTestValue {
  tv_type : goType;
  tv_property : string;
  tv_domain : Domain (goVal tv_type);
  tv_value : goVal tv_type;
  tv_restrict : StateGenerator -> goVal tv_type -> option StateGenerator
}.

(** [other.(interface{ Value() T })]. *)
Definition castValue (t : goType) (other : TestValue) : option (goVal t) :=
  match decide (tv_type other = t) with
  | left e => Some (eq_rect (tv_type other) goVal (tv_value other) t e)
  | right _ => None
  end.

Definition Compare (c other : TestValue) : option Z :=
  if bool_decide (tv_property c <> tv_property other) then
    if String.ltb (tv_property c) (tv_property other) then Some (-1) else Some 1
  else
    otherValue ← castValue (tv_type c) other;
    if Equal (tv_domain c) (tv_value c) otherValue then Some 0
    else less ← Less (tv_domain c) (tv_value c) otherValue; Some (if less : bool then -1 else 1).

Definition TestValue_Restrict (c : TestValue) (g : StateGenerator) : option StateGenerator := tv_restrict c g (tv_value c).

(** ** Test values of conditions *)

Section TestValues.
Context {U : Uint256}.

Fixpoint Expression_Property {T} (e : Expression T) : string :=
  match e with
  | eStatus => "status"
  | ePc => "pc"
  | eGas => "gas"
  | eSelfAddress => "selfAddress"
  | eReadOnly => "readOnly"
  | eBalance account => Expression_String (eBalance account)
  | eOp position => Expression_String (eOp position)
  | eStackSize => "stackSize"
  | eParam position domain => Expression_String (eParam position domain)
  | eConstant value => "constant(" +:+ pretty (uval value) +:+ ")"
  | eToAddress expr => Expression_Property expr
  end%string.

(** The test value of an expression. *)
Definition eq_TestValue {T} (e : Expression T) : T -> TestValue :=
  let property := Expression_Property e in
  match e in Expression T return T -> TestValue with
  | eStatus => fun v => NewTestValue tStatusCode property (domainOf eStatus) v (fun g v => Expression_Restrict RestrictEqual eStatus v g)
  | ePc => fun v => NewTestValue tU256 property (domainOf ePc) v (fun g v => Expression_Restrict RestrictEqual ePc v g)
  | eGas => fun v => NewTestValue tGas property (domainOf eGas) v (fun g v => Expression_Restrict RestrictEqual eGas v g)
  | eSelfAddress => fun v => NewTestValue tAddress property (domainOf eSelfAddress) v (fun g v => Expression_Restrict RestrictEqual eSelfAddress v g)
  | eReadOnly => fun v => NewTestValue tBool property (domainOf eReadOnly) v (fun g v => Expression_Restrict RestrictEqual eReadOnly v g)
  | eBalance account => fun v => NewTestValue tU256 property (domainOf (eBalance account)) v
      (fun g v => Expression_Restrict RestrictEqual (eBalance account) v g)
  | eOp position => fun v => NewTestValue tOpCode property (domainOf (eOp position)) v
      (fun g v => Expression_Restrict RestrictEqual (eOp position) v g)
  | eStackSize => fun v => NewTestValue tInt property (domainOf eStackSize) v (fun g v => Expression_Restrict RestrictEqual eStackSize v g)
  | eParam position domain => fun v => NewTestValue tU256 property domain v
      (fun g v => Expression_Restrict RestrictEqual (eParam position domain) v g)
  | eConstant value => fun v => NewTestValue tU256 property (domainOf (eConstant value)) v
      (fun g v => Expression_Restrict RestrictEqual (eConstant value) v g)
  | eToAddress expr => fun v => NewTestValue tAddress property (domainOf (eToAddress expr)) v
      (fun g v => Expression_Restrict RestrictEqual (eToAddress expr) v g)
  end.

(** [GetTestValues] of the conditions with that method of their own. *)

Definition eq_GetTestValues {T} (lhs : Expression T) (rhs : T) : option (list TestValue) :=
  values ← Samples (domainOf lhs) rhs; Some (map (eq_TestValue lhs) values).

Definition revision_TestValue (r : Revision) : TestValue :=
  NewTestValue tRevision "revision" revisionDomain r (fun generator revision => Some (StateGenerator.SetRevision revision generator)).

Definition revisionBounds_GetTestValues (min max : Revision) : list TestValue :=
  if (min =? max) && negb (min =? R99_UnknownNextRevision) then [revision_TestValue min]
  else revision_TestValue R99_UnknownNextRevision :: map revision_TestValue (seqZ 0 (NewestSupportedRevision + 1)).

(** Both values of a flag, with what each restricts. *)
Definition bool_TestValue (property : string) (restrict : bool -> StateGenerator -> option StateGenerator) (value : bool) : TestValue :=
  NewTestValue tBool property boolDomain value (fun generator value => restrict value generator).

Definition bool_TestValues (property : string) (restrict : bool -> StateGenerator -> option StateGenerator) : list TestValue :=
  [bool_TestValue property restrict true; bool_TestValue property restrict false].

Definition isCode_GetTestValues (position : Expression U256) : list TestValue :=
  bool_TestValues ("isCode[" +:+ Expression_String position +:+ "]")%string (fun isCode =>
    with_variable (if isCode then StateGenerator.AddIsCode else StateGenerator.AddIsData) position).

Definition isStorageWarm_GetTestValues (key : Expression U256) : list TestValue :=
  bool_TestValues ("warm(" +:+ Expression_String key +:+ ")")%string (fun isWarm =>
    with_variable (if isWarm then StateGenerator.BindIsStorageWarm else StateGenerator.BindIsStorageCold) key).

Definition storageConfiguration_GetTestValues (config : StorageStatus) (key newValue : Expression U256) : list TestValue :=
  [bool_TestValue ("StorageConfiguration(" +:+ StorageStatus_String config +:+ "," +:+ Expression_String key +:+ ","
      +:+ Expression_String newValue +:+ ")")%string (fun _ => storageConfiguration_Restrict config key newValue) true].

Definition transient_GetTestValues (key : Expression U256) : list TestValue :=
  bool_TestValues ("Transient storage at [" +:+ Expression_String key +:+ "] is bound to non zero")%string (fun isNonZero =>
    with_variable (if isNonZero then StateGenerator.BindTransientStorageToNonZero else StateGenerator.BindTransientStorageToZero) key).

Definition accountIsEmpty_GetTestValues (address : Expression U256) : list TestValue :=
  bool_TestValues ("empty(" +:+ Expression_String address +:+ ")")%string (fun shouldBeEmpty =>
    if shouldBeEmpty then accountIsEmpty_Restrict address else accountIsNotEmpty_Restrict address).

Definition restrictAccountWarmCold (bindKey : Expression U256) (isWarm : bool) : StateGenerator -> option StateGenerator :=
  with_variable (if isWarm then StateGenerator.BindToWarmAddress else StateGenerator.BindToColdAddress) bindKey.

Definition address_GetTestValues (key : Expression U256) (isWarm : bool) : list TestValue :=
  [bool_TestValue ("warm(" +:+ Expression_String key +:+ ")")%string (restrictAccountWarmCold key) isWarm].

Definition isNewContract_GetTestValues : list TestValue :=
  bool_TestValues "isNewContract()" (fun isNewContract generator =>
    Some (if isNewContract then StateGenerator.MustBeNewContract generator else StateGenerator.MustNotBeNewContract generator)).

Definition hasSelfDestructed_GetTestValues : list TestValue :=
  bool_TestValues "hasSelfDestructed()" (fun hasSelfDestructed generator =>
    Some (if hasSelfDestructed then StateGenerator.MustBeSelfDestructed generator else StateGenerator.MustNotBeSelfDestructed generator)).

Definition inRange256_GetTestValues (blockNumber : Expression U256) : option (list TestValue) :=
  values ← SamplesForAll BlockNumberOffsetDomain [];
  Some (map (fun value => NewTestValue tInt64 (Expression_String blockNumber) BlockNumberOffsetDomain value
    (fun generator offset => with_variable (fun v => StateGenerator.SetBlockNumberOffsetValue v offset) blockNumber generator)) values).

Definition hasBlobHash_GetTestValues (index : Expression U256) : list TestValue :=
  bool_TestValues (Expression_String index +:+ " has BlobHash")%string (fun hasBlobHash =>
    with_variable (if hasBlobHash then StateGenerator.IsPresentBlobHashIndex else StateGenerator.IsAbsentBlobHashIndex) index).

Definition restrictDelegation (address : Expression U256) (state : DelegationDesignatorState) : StateGenerator -> option StateGenerator :=
  with_variable (fun v =>
    match state with
    | NoDelegationDesignation => StateGenerator.BindToAddressOfNotDelegatingAccount v
    | WarmDelegationDesignation => StateGenerator.BindToAddressOfDelegatingAccount v WarmAccess
    | ColdDelegationDesignation => StateGenerator.BindToAddressOfDelegatingAccount v ColdAccess
    end) address.

Definition delegation_GetTestValues (address : Expression U256) (state : DelegationDesignatorState) : list TestValue :=
  map (fun value => NewTestValue tDelegation ("DelegationDesignator(" +:+ Expression_String address +:+ ")")%string
    DelegationDesignatorDomain value (fun generator state => restrictDelegation address state generator))
    [state; SomethingNotEqual DelegationDesignatorDomain state].

(** The loop of [conjunction.GetTestValues]. *)
Definition conjunction_GetTestValues (get : Condition -> option (list TestValue)) : list Condition -> option (list TestValue) :=
  fix loop conditions :=
    match conditions with
    | [] => Some []
    | cur :: conditions => l1 ← get cur; l2 ← loop conditions; Some (l1 ++ l2)
    end.

Fixpoint GetTestValues (c : Condition) : option (list TestValue) :=
  match c with
  | cConjunction conditions => conjunction_GetTestValues GetTestValues conditions
  | cEq lhs rhs | cNe lhs rhs | cLt lhs rhs | cLe lhs rhs | cGt lhs rhs | cGe lhs rhs => eq_GetTestValues lhs rhs
  | cRevisionBounds min max => Some (revisionBounds_GetTestValues min max)
  | cIsCode position | cIsData position => Some (isCode_GetTestValues position)
  | cIsStorageWarm key | cIsStorageCold key => Some (isStorageWarm_GetTestValues key)
  | cStorageConfiguration config key newValue => Some (storageConfiguration_GetTestValues config key newValue)
  | cBindTransientStorageToNonZero key | cBindTransientStorageToZero key => Some (transient_GetTestValues key)
  | cAccountIsEmpty address | cAccountIsNotEmpty address => Some (accountIsEmpty_GetTestValues address)
  | cIsAddressWarm key => Some (address_GetTestValues key true)
  | cIsAddressCold key => Some (address_GetTestValues key false)
  | cIsNewContract | cIsNotNewContract => Some isNewContract_GetTestValues
  | cHasSelfDestructed | cHasNotSelfDestructed => Some hasSelfDestructed_GetTestValues
  | cInRange256FromCurrentBlock blockNumber | cOutOfRange256FromCurrentBlock blockNumber => inRange256_GetTestValues blockNumber
  | cHasBlobHash index | cHasNoBlobHash index => Some (hasBlobHash_GetTestValues index)
  | cContainsDelegationDesignation address state => Some (delegation_GetTestValues address state)
  end.

End TestValues.

(** ** Grouping *)

Definition compareLess (a b : TestValue) : bool := match Compare a b with Some z => z <? 0 | None => false end.

(** The second loop of [removeDuplicates]: every value is compared with the
    one before it, which has not been overwritten. *)
Fixpoint dropRepeated (previous : TestValue) (values : list TestValue) : list TestValue :=
  match values with
  | [] => []
  | v :: values =>
      match Compare v previous with
      | Some 0 => dropRepeated v values
      | _ => v :: dropRepeated v values
      end
  end.

(** Sorting compares values of every type with values of the others, if there
    are any, and panics then. *)
Definition comparable (values : list TestValue) : bool :=
  forallb (fun a => forallb (fun b => match Compare a b with Some _ => true | None => false end) values) values.

Definition removeDuplicates (values : list TestValue) : option (list TestValue) :=
  if zlen values <? 2 then Some values
  else if negb (comparable values) then None
  else Some (match sort_by compareLess values with [] => [] | v :: values => v :: dropRepeated v values end).

Definition addTestValue (dimensions : gmap string (list TestValue)) (cur : TestValue) : gmap string (list TestValue) :=
  <[tv_property cur := default [] (dimensions !! tv_property cur) ++ [cur]]> dimensions.

Section Enumerate.
Context {U : Uint256}.

(** The test values by property, before and after duplicates are removed. *)
Definition collectTestValues (values : list TestValue) : gmap string (list TestValue) := fold_left addTestValue values ∅.

Definition getPropertyTestValues (condition : Condition) : option (list (string * list TestValue)) :=
  values ← GetTestValues condition;
  mapM (fun '(property, tests) => tests ← removeDuplicates tests; Some (property, tests)) (map_to_list (collectTestValues values)).

(** [slices.Sort(properties)]; the properties are different. *)
Definition sortedCases (dimensions : list (string * list TestValue)) : list (list TestValue) :=
  map snd (sort_by (fun a b => String.ltb (fst a) (fst b)) dimensions).

(** [ConsumerResult]. *)
Definition ConsumeContinue : bool := true.
Definition ConsumeAbort : bool := false.

(** *** Generators *)

(** A consumer with a world of its own. *)
Context {W : Type} (consumer : StateGenerator -> W -> option (bool * W)).

Fixpoint enumerateTestStates (values : list (list TestValue)) (generator : StateGenerator) (w : W) : option (bool * W) :=
  match values with
  | [] => consumer generator w
  | head :: rest =>
      (fix loop head w :=
         match head with
         | [] => Some (ConsumeContinue, w)
         | cur :: head =>
             let copy := StateGenerator.Clone generator in
             copy ← TestValue_Restrict cur copy;
             '(res, w) ← enumerateTestStates rest copy w;
             if bool_decide (res = ConsumeAbort) then Some (res, w) else loop head w
         end) head w
  end.

Definition enumerateTestCases (condition : Condition) (generator : StateGenerator) (w : W) : option (bool * W) :=
  dimensions ← getPropertyTestValues condition;
  enumerateTestStates (sortedCases dimensions) generator w.

End Enumerate.

(** *** Parameters *)

Section Parameters.
Context {U : Uint256} {C : Type} (consume : st.State -> C -> option (bool * C)).

(** The state is the one that the caller sees afterwards. *)
Fixpoint enumerateParameters (pos : Z) (params : list ParameterKind) (state : st.State) (c : C) : option (bool * st.State * C) :=
  match params with
  | [] => '(res, c) ← consume state c; Some (res, state, c)
  | param :: rest =>
      if pos >=? st.Stack_Size (st.s_Stack state) then '(res, c) ← consume state c; Some (res, state, c)
      else
        current ← st.Stack_Get (st.s_Stack state) pos;
        '(res, state, c) ← enumerateParameters (pos + 1) rest state c;
        if bool_decide (res = ConsumeAbort) then Some (ConsumeAbort, state, c)
        else
          (fix loop values state c :=
             match values with
             | [] =>
                 stack ← st.Stack_Set (st.s_Stack state) pos current;
                 Some (ConsumeContinue, st.set_Stack stack state, c)
             | value :: values =>
                 stack ← st.Stack_Set (st.s_Stack state) pos value;
                 '(res, state, c) ← enumerateParameters (pos + 1) rest (st.set_Stack stack state) c;
                 if bool_decide (res = ConsumeAbort) then Some (ConsumeAbort, state, c) else loop values state c
             end) (Parameter_Samples param) state c
  end.

End Parameters.

(** *** The number of cases *)

(** The sizes of [GetTestCaseEnumerationInfo]: of the domains of the properties
    and of the parameters. *)
Record TestCaseEnumerationInfo := mkEnumerationInfo { ti_propertyDomainSizes : list Z; ti_parameterDomainSizes : list Z }.

Definition GetTestCaseEnumerationInfo `{Uint256} (rule : Rule) : option TestCaseEnumerationInfo :=
  dimensions ← getPropertyTestValues (r_Condition rule);
  Some (mkEnumerationInfo (map (fun '(_, domain) => zlen domain) dimensions)
    (map (fun parameter => zlen (Parameter_Samples parameter) + 1) (r_Parameter rule))).

Definition TotalNumberOfCases (i : TestCaseEnumerationInfo) : Z :=
  let res := fold_left (fun res n => i64 (res * n)) (ti_propertyDomainSizes i) 1 in
  fold_left (fun res n => i64 (res * n)) (ti_parameterDomainSizes i) res.

Section Cases.
Context {U : Uint256} {R : Type} {RND : Rand R} {C P : Type}.
Context (pool_Get : P -> st.Stack * P) (pool_Put : st.Stack -> P -> P) (consume : st.State -> C -> option (bool * C)).

(** The random source, the pool of stacks, which hands out some stack for
    every case, [enumError], and what the consumer keeps. *)
Record enumeration := mkEnumeration { en_rnd : R; en_pool : P; en_error : option GenErr; en_consumer : C }.

(** The consumer of generators in [EnumerateTestCases]; a loop that does not
    end counts as a panic. *)
Definition generateAndEnumerate (params : list ParameterKind) (generator : StateGenerator) (e : enumeration) : option (bool * enumeration) :=
  let '(stack, pool) := pool_Get (en_pool e) in
  match StateGenerator.Generate stack generator (en_rnd e) with
  | gErr ErrUnsatisfiable rnd => Some (ConsumeContinue, mkEnumeration rnd pool (en_error e) (en_consumer e))
  | gErr err rnd => Some (ConsumeAbort, mkEnumeration rnd pool (Some err) (en_consumer e))
  | gOk (state, _) w =>
      '(res, state, c) ← enumerateParameters consume 0 params state (en_consumer e);
      Some (res, mkEnumeration (w_rnd w) (pool_Put (st.s_Stack state) pool) (en_error e) c)
  | gPanic | gLoop => None
  end.

Definition EnumerateTestCases (rule : Rule) (rnd : R) (pool : P) (c : C) : option enumeration :=
  '(_, e) ← enumerateTestCases (generateAndEnumerate (r_Parameter rule)) (r_Condition rule) StateGenerator.New (mkEnumeration rnd pool None c);
  Some e.

End Cases.
Arguments mkEnumeration {R C P}.
Arguments en_rnd {R C P}.
Arguments en_pool {R C P}.
Arguments en_error {R C P}.
Arguments en_consumer {R C P}.
