(* ===== verification/CtEnumerateFacts.v ===== *)
(** * What is enumerated

    The enumeration of test cases calls its consumer for the product of the
    test values of all properties, and for each state of it for the product of
    the samples of all parameters, in order and until the consumer aborts; the
    number of cases is the one that is announced, every state is in the limits
    of the tests, and the enumeration ends without a panic. *)
From Stdlib Require Import ZArith Lia Strings.Byte.
From stdpp Require Import base list numbers gmap strings pretty sorting.
From S2P Require Import Prelude Uint256 Types OpCodes CtCommon CtState CtRules CtStateFacts CtConformArith.
From S2P Require Import CtRand CtGenSolvers CtGenStack CtGenCode CtGenStorage CtGenContexts CtGenAccounts CtGenState CtRestrict.
From S2P Require Import CtRestrictSound CtEnumerate.
Set Default Goal Selector "!".
Local Open Scope Z_scope.
Local Open Scope go_scope.

(** ** Reference *)

(** One call after the other, until one aborts. *)
Fixpoint consume_each {X W} (f : X -> W -> option (bool * W)) (l : list X) (w : W) : option (bool * W) :=
  match l with
  | [] => Some (ConsumeContinue, w)
  | x :: l => '(res, w) ← f x w; if res : bool then consume_each f l w else Some (ConsumeAbort, w)
  end.

Lemma consume_each_app {X W} (f : X -> W -> option (bool * W)) l1 l2 w :
  consume_each f (l1 ++ l2) w = ('(res, w) ← consume_each f l1 w; if res : bool then consume_each f l2 w else Some (ConsumeAbort, w)).
Proof.
  revert w. induction l1 as [|x l1 IH]; intros w; cbn; [by destruct (consume_each f l2 w)|].
  destruct (f x w) as [[[] w']|]; cbn; [apply IH|done|done].
Qed.

Lemma consume_each_map {X Y W} (h : Y -> X) (f : X -> W -> option (bool * W)) l w :
  consume_each f (map h l) w = consume_each (fun y => f (h y)) l w.
Proof. revert w. induction l as [|y l IH]; intros w; [done|]. cbn. destruct (f (h y) w) as [[[] w']|]; cbn; auto. Qed.

(** All ways to choose one element of each list, in the order of nested loops. *)
Fixpoint combinations {A} (ls : list (list A)) : list (list A) :=
  match ls with
  | [] => [[]]
  | l :: ls => concat (map (fun a => map (cons a) (combinations ls)) l)
  end.

(** A generator restricted by some test values, each time a copy. *)
Fixpoint restrict_all (values : list TestValue) (g : StateGenerator) : option StateGenerator :=
  match values with
  | [] => Some g
  | cur :: rest => copy ← TestValue_Restrict cur (StateGenerator.Clone g); restrict_all rest copy
  end.

(** The generators for all combinations of test values. *)
Fixpoint test_generators (values : list (list TestValue)) (g : StateGenerator) : option (list StateGenerator) :=
  match values with
  | [] => Some [g]
  | head :: rest =>
      @concat StateGenerator <$> mapM (fun cur => copy ← TestValue_Restrict cur (StateGenerator.Clone g); test_generators rest copy) head
  end.

(** The stacks for all combinations of samples. *)
Fixpoint parameter_stacks `{Uint256} (pos : Z) (params : list ParameterKind) (stack : st.Stack) : list st.Stack :=
  match params with
  | [] => [stack]
  | param :: rest =>
      if pos >=? st.Stack_Size stack then [stack]
      else parameter_stacks (pos + 1) rest stack
        ++ concat (map (fun v => parameter_stacks (pos + 1) rest (match st.Stack_Set stack pos v with Some stack => stack | None => stack end)) (Parameter_Samples param))
  end.

(** The product of some numbers. *)
Definition prod (l : list Z) : Z := fold_right Z.mul 1 l.

(** ** Generators *)

Section Generators.
Context {W : Type} (consumer : StateGenerator -> W -> option (bool * W)).

(** The enumeration is a loop over the product. *)
Lemma enumerateTestStates_product values g l w : test_generators values g = Some l ->
  enumerateTestStates consumer values g w = consume_each consumer l w.
Proof.
  revert g l w. induction values as [|head rest IH]; intros g l w.
  - cbn. intros [= <-]. cbn. destruct (consumer g w) as [[[] w']|]; done.
  - cbn [test_generators enumerateTestStates]. intros (ls & Hls & ->)%fmap_Some. revert ls w Hls.
    induction head as [|cur head IHh]; intros ls w Hls; cbn in Hls.
    + by injection Hls as <-.
    + destruct (TestValue_Restrict cur (StateGenerator.Clone g)) as [copy|] eqn:Ec; [|done]. cbn in Hls.
      destruct (test_generators rest copy) as [l1|] eqn:E1; [|done]. cbn in Hls.
      destruct (mapM _ head) as [ls'|] eqn:El; [|done]. injection Hls as <-. cbn [concat]. rewrite consume_each_app.
      cbn [mbind option_bind]. rewrite (IH copy l1 w E1). destruct (consume_each consumer l1 w) as [[[] w']|]; cbn; [|done|done].
      by apply IHh.
Qed.

End Generators.

Lemma mapM_app_Some {A B} (f : A -> option B) l1 l2 k1 k2 : mapM f l1 = Some k1 -> mapM f l2 = Some k2 -> mapM f (l1 ++ l2) = Some (k1 ++ k2).
Proof. rewrite !mapM_Some. apply Forall2_app. Qed.

(** They are those for all combinations. *)
Lemma test_generators_combinations values g l : test_generators values g = Some l ->
  mapM (fun choice => restrict_all choice g) (combinations values) = Some l.
Proof.
  revert g l. induction values as [|head rest IH]; intros g l; [done|]. cbn [test_generators combinations]. intros (ls & Hls & ->)%fmap_Some.
  apply mapM_Some in Hls. induction Hls as [|cur l1 head ls Hc Hls IHl]; [done|]. cbn [concat map]. apply mapM_app_Some; [|exact IHl].
  destruct (TestValue_Restrict cur (StateGenerator.Clone g)) as [copy|] eqn:Ec; [|done]. apply IH in Hc. apply mapM_Some in Hc. apply mapM_Some.
  apply Forall2_fmap_l. eapply Forall2_impl; [exact Hc|]. intros choice h Hh. cbn. by rewrite Ec.
Qed.

Lemma test_generators_length values g l : test_generators values g = Some l -> zlen l = prod (map zlen values).
Proof.
  revert g l. induction values as [|head rest IH]; intros g l; [by intros [= <-]|].
  cbn [test_generators map prod fold_right]. fold (prod (map zlen rest)). intros (ls & Hls & ->)%fmap_Some. apply mapM_Some in Hls.
  induction Hls as [|cur l1 head ls Hc Hls IHl]; [done|]. cbn [concat]. rewrite zlen_app, IHl, zlen_cons.
  destruct (TestValue_Restrict cur (StateGenerator.Clone g)) as [copy|]; [|done]. rewrite (IH _ _ Hc). lia.
Qed.

(** What holds for a generator and is kept by every test value holds for all
    the generators, and there are some. *)
Lemma test_generators_inv (I : Z -> StateGenerator -> Prop) values n g :
  (forall m h, I m h -> I m (StateGenerator.Clone h)) ->
  (forall head v m h, head ∈ values -> v ∈ head -> I m h -> exists h', TestValue_Restrict v h = Some h' /\ I (m + 1) h') ->
  I n g -> exists l, test_generators values g = Some l /\ Forall (I (n + zlen values)) l.
Proof.
  intros Hclone. revert n g. induction values as [|head rest IH]; intros n g Hv Hg.
  - exists [g]. split; [done|]. rewrite Z.add_0_r. by constructor.
  - cbn [test_generators]. assert (forall hs, (forall v, v ∈ hs -> v ∈ head) -> exists ls, mapM (fun cur => copy ← TestValue_Restrict cur (StateGenerator.Clone g);
      test_generators rest copy) hs = Some ls /\ Forall (Forall (I (n + zlen (head :: rest)))) ls) as H.
    { induction hs as [|v hs IHs]; intros Hin; [exists []; split; [done|constructor]|].
      destruct (Hv head v n (StateGenerator.Clone g)) as (h & Eh & Hh); [left|apply Hin; left|by apply Hclone|].
      destruct (IH (n + 1) h) as (l & El & Hl); [intros hd u m k Hhd; apply Hv; by right|done|].
      destruct IHs as (ls & Els & Hls); [intros u Hu; apply Hin; by right|].
      exists (l :: ls). cbn. rewrite Eh. cbn. rewrite El. cbn. rewrite Els. split; [done|]. constructor; [|done].
      rewrite zlen_cons. by replace (n + (zlen rest + 1)) with (n + 1 + zlen rest) by lia. }
    destruct (H head) as (ls & -> & Hls); [done|]. exists (concat ls). split; [done|]. by apply Forall_concat.
Qed.

(** ** Parameters *)

Section Parameters.
Context {U : Uint256}.

(** A stack with another value at a position. *)
Definition set_at (stack : st.Stack) (pos : Z) (v : U256) : st.Stack :=
  st.mkStack (<[Z.to_nat (st.Stack_Size stack - pos - 1) := v]> (st.stack stack)) (st.spare stack).

Lemma Stack_Set_at stack pos v : 0 <= pos < st.Stack_Size stack -> st.Stack_Set stack pos v = Some (set_at stack pos v).
Proof. intros Hp. unfold st.Stack_Set. by rewrite (proj2 (Z.leb_le _ _)), (proj2 (Z.ltb_lt _ _)) by lia. Qed.

Lemma size_set_at stack pos v : st.Stack_Size (set_at stack pos v) = st.Stack_Size stack.
Proof. unfold st.Stack_Size, set_at, zlen. cbn. by rewrite length_insert. Qed.

Lemma set_at_twice stack pos v v' : set_at (set_at stack pos v) pos v' = set_at stack pos v'.
Proof. unfold set_at at 1. rewrite size_set_at. cbn. unfold set_at. by rewrite list_insert_insert_eq. Qed.

Lemma Get_set_at stack pos v : st.Stack_Get stack pos = Some v -> set_at stack pos v = stack.
Proof.
  unfold st.Stack_Get, set_at. case_if; [|done]. intros Hv. rewrite list_insert_id by done. by destruct stack.
Qed.

Lemma Get_in stack pos : 0 <= pos < st.Stack_Size stack -> is_Some (st.Stack_Get stack pos).
Proof.
  intros Hp. unfold st.Stack_Get. rewrite (proj2 (Z.leb_le _ _)) by lia. apply lookup_lt_is_Some. unfold st.Stack_Size in *. zblia.
Qed.

Lemma set_Stack_self s : st.set_Stack (st.s_Stack s) s = s.
Proof. by destruct s. Qed.

(** The stacks differ in the values of parameters only. *)
Lemma parameter_stacks_shape pos params stack : 0 <= pos -> Forall (fun stack' => st.Stack_Size stack' = st.Stack_Size stack
  /\ st.spare stack' = st.spare stack /\ forall i, i < pos \/ pos + zlen params <= i -> st.Stack_Get stack' i = st.Stack_Get stack i)
  (parameter_stacks pos params stack).
Proof.
  revert pos stack. induction params as [|param rest IH]; intros pos stack Hpos; cbn [parameter_stacks]; [by repeat constructor|].
  rewrite Z.geb_leb. destruct (Z.leb_spec (st.Stack_Size stack) pos) as [Hle|Hlt]; [by repeat constructor|]. rewrite zlen_cons.
  pose proof (zlen_nonneg rest). apply Forall_app. split.
  - eapply Forall_impl; [apply IH; lia|]. cbn beta. intros stack' (H1 & H2 & H3). split; [done|]. split; [done|]. intros i Hi. apply H3. lia.
  - apply Forall_concat, Forall_map, Forall_true. intros v. rewrite Stack_Set_at by lia.
    eapply Forall_impl; [apply IH; lia|]. cbn beta. rewrite size_set_at. intros stack' (H1 & H2 & H3). split; [done|]. split; [done|].
    intros i Hi. rewrite H3 by lia. unfold st.Stack_Get. rewrite size_set_at. case_if; [|done]. cbn. apply list_lookup_insert_ne. b2p. lia.
Qed.

(** There are as many as there are combinations of samples for the parameters
    that are on the stack, and the values they have. *)
Lemma parameter_stacks_length pos params stack : 0 <= pos ->
  zlen (parameter_stacks pos params stack)
  = prod (map (fun p => zlen (Parameter_Samples p) + 1) (take (Z.to_nat (st.Stack_Size stack - pos)) params)).
Proof.
  revert pos stack. induction params as [|param rest IH]; intros pos stack Hpos; cbn [parameter_stacks]; [by rewrite take_nil|].
  rewrite Z.geb_leb. destruct (Z.leb_spec (st.Stack_Size stack) pos) as [Hle|Hlt]; [by replace (Z.to_nat (st.Stack_Size stack - pos)) with 0%nat by lia|].
  replace (Z.to_nat (st.Stack_Size stack - pos)) with (S (Z.to_nat (st.Stack_Size stack - (pos + 1)))) by lia. cbn [take map prod fold_right].
  fold (prod (map (fun p => zlen (Parameter_Samples p) + 1) (take (Z.to_nat (st.Stack_Size stack - (pos + 1))) rest))). set (k := prod _).
  rewrite zlen_app, IH by lia. fold k. assert (forall values, zlen (concat (map (fun v => parameter_stacks (pos + 1) rest
    (match st.Stack_Set stack pos v with Some stack => stack | None => stack end)) values)) = zlen values * k) as ->; [|lia].
  induction values as [|v values IHv]; [done|]. cbn [map concat]. rewrite zlen_app, IHv, zlen_cons, Stack_Set_at, IH, size_set_at by lia. fold k. lia.
Qed.

Context {C : Type} (consume : st.State -> C -> option (bool * C)).

(** What the enumeration returns, from what the calls return: the state is
    restored unless a call aborts, and has some other stack then. *)
Definition enumerated (state : st.State) (calls : option (bool * C)) (res : option (bool * st.State * C)) : Prop :=
  match calls with
  | None => res = None
  | Some (true, c) => res = Some (ConsumeContinue, state, c)
  | Some (false, c) => exists stack, res = Some (ConsumeAbort, st.set_Stack stack state, c)
  end.

Lemma enumerateParameters_product pos params state c : 0 <= pos ->
  enumerated state (consume_each (fun stack => consume (st.set_Stack stack state)) (parameter_stacks pos params (st.s_Stack state)) c)
    (enumerateParameters consume pos params state c).
Proof.
  revert pos state c. induction params as [|param rest IH]; intros pos state c Hpos.
  { cbn. rewrite set_Stack_self. destruct (consume state c) as [[[] c']|]; cbn; [done| |done]. exists (st.s_Stack state). by rewrite set_Stack_self. }
  cbn [parameter_stacks enumerateParameters]. rewrite Z.geb_leb. destruct (Z.leb_spec (st.Stack_Size (st.s_Stack state)) pos) as [Hle|Hlt].
  { cbn. rewrite set_Stack_self. destruct (consume state c) as [[[] c']|]; cbn; [done| |done]. exists (st.s_Stack state). by rewrite set_Stack_self. }
  destruct (Get_in (st.s_Stack state) pos) as [current Hcur]; [lia|]. rewrite Hcur. cbn [mbind option_bind]. rewrite consume_each_app.
  pose proof (IH (pos + 1) state c ltac:(lia)) as H0. destruct (consume_each _ (parameter_stacks (pos + 1) rest (st.s_Stack state)) c) as [[[] c0]|];
    cbn [mbind option_bind enumerated] in *.
  2: { destruct H0 as [stack ->]. cbn. by exists stack. }
  2: { by rewrite H0. }
  rewrite H0. cbn [mbind option_bind bool_decide decide_rel]. rewrite bool_decide_eq_false_2 by done. clear H0 c.
  set (S := st.s_Stack state) in *. set (loop := fix loop (values : list U256) state c := match values with [] => _ | _ => _ end).
  assert (forall values v c, enumerated state
    (consume_each (fun stack => consume (st.set_Stack stack state))
      (concat (map (fun v => parameter_stacks (pos + 1) rest (match st.Stack_Set S pos v with Some stack => stack | None => S end)) values)) c)
    (loop values (st.set_Stack (set_at S pos v) state) c)) as Hloop.
  { induction values as [|value values IHv]; intros v c.
    - cbn [map concat consume_each enumerated loop]. change (st.s_Stack (st.set_Stack (set_at S pos v) state)) with (set_at S pos v).
      rewrite Stack_Set_at by (rewrite size_set_at; lia). cbn [mbind option_bind]. rewrite set_at_twice, (Get_set_at S pos current Hcur), set_Stack_twice.
      unfold S. by rewrite set_Stack_self.
    - cbn [map concat loop]. rewrite consume_each_app. rewrite !Stack_Set_at by (cbn; rewrite ?size_set_at; lia). cbv iota.
      change (st.s_Stack (st.set_Stack (set_at S pos v) state)) with (set_at S pos v). rewrite set_at_twice. cbn [mbind option_bind]. rewrite set_Stack_twice.
      pose proof (IH (pos + 1) (st.set_Stack (set_at S pos value) state) c ltac:(lia)) as H0. cbn [st.s_Stack st.set_Stack] in H0.
      change (fun stack => consume (st.set_Stack stack (st.set_Stack (set_at S pos value) state))) with (fun stack => consume (st.set_Stack stack state)) in H0.
      destruct (consume_each _ (parameter_stacks (pos + 1) rest (set_at S pos value)) c) as [[[] c1]|]; cbn [mbind option_bind enumerated] in *.
      + rewrite H0. cbn [mbind option_bind]. rewrite bool_decide_eq_false_2 by done. apply IHv.
      + destruct H0 as [stack ->]. by exists stack.
      + by rewrite H0. }
  specialize (Hloop (Parameter_Samples param) current c0). rewrite (Get_set_at S pos current Hcur) in Hloop. unfold S in Hloop. by rewrite set_Stack_self in Hloop.
Qed.

End Parameters.

(** ** Test cases *)

(** A call of a list of calls that keeps [I] keeps it over the list. *)
Lemma consume_each_inv {X W} (f : X -> W -> option (bool * W)) (I : W -> Prop) (J : bool -> W -> Prop) l w :
  (forall x w, x ∈ l -> I w -> exists res w', f x w = Some (res, w') /\ J res w' /\ (res = true -> I w')) ->
  (forall w, I w -> J true w) -> I w -> exists res w', consume_each f l w = Some (res, w') /\ J res w'.
Proof.
  intros Hf HJ. revert w. induction l as [|x l IH]; intros w Hw; [exists true, w; split; [done|auto]|].
  destruct (Hf x w) as (res & w' & E & Hj & Hi); [left|done|]. cbn [consume_each]. rewrite E. cbn [mbind option_bind]. destruct res.
  - apply IH; [|auto]. intros y w1 Hy. apply Hf. by right.
  - exists false, w'. done.
Qed.

Section Cases.
Context {U : Uint256} {UL : Uint256Laws U} {R : Type} {RND : Rand R} {RL : RandLaws R RND} {C P : Type}.
Context (pool_Get : P -> st.Stack * P) (pool_Put : st.Stack -> P -> P) (consume : st.State -> C -> option (bool * C)).

(** Stacks of the pool have room for the largest one. *)
Hypothesis Hpool : forall p, st.MaxStackSize <= zlen (st.stack (fst (pool_Get p)) ++ st.spare (fst (pool_Get p))).

(** The states that are consumed. *)
Definition tested (s : st.State) : Prop :=
  StateGenerator.in_limits s /\ st.s_Revision s = GetRevisionForBlock (st.bc_BlockNumber (st.s_BlockContext s)).

Lemma tested_set_Stack stack s : st.Stack_Size stack = st.Stack_Size (st.s_Stack s) -> st.spare stack = st.spare (st.s_Stack s) ->
  tested s -> tested (st.set_Stack stack s).
Proof.
  intros Hs Hp [[] Hr]. split; [|done]. split; try done. cbn. rewrite Hp. destruct lim_stack. split; [lia|].
  rewrite zlen_app in *. unfold st.Stack_Size in *. lia.
Qed.

(** What the enumeration relies on of a generator. *)
Definition generates (g : StateGenerator) : Prop := StateGenerator.wf g /\ StateGenerator.bound_addresses g = [].

Lemma generates_spec stack g r : st.MaxStackSize <= zlen (st.stack stack ++ st.spare stack) -> generates g ->
  gwp (R := R) (StateGenerator.generateWith stack g) (fun sg _ => tested (fst sg)) (fun err => err = ErrUnsatisfiable \/ err = ErrUnboundVariable) (mkWorld r ∅).
Proof.
  intros Hp [Hwf HA]. apply StateGenerator.generateWith_spec; try done; [| |by left|by right].
  - rewrite HA. eapply draws_mono; [apply draws_RandomAddress|]. intros a _ []%not_elem_of_nil.
  - intros s g' r' asg Hs Hlim. split; [done|]. apply (StateGenerator.gd_revision _ _ _ Hs).
Qed.

Context (I : C -> Prop) (Hconsume : forall s c, tested s -> I c -> exists res c', consume s c = Some (res, c') /\ I c').

Lemma enumerateParameters_tested pos params s c : 0 <= pos -> tested s -> I c ->
  exists res s' c', enumerateParameters consume pos params s c = Some (res, s', c') /\ I c'.
Proof.
  intros Hpos Hs Hc. pose proof (enumerateParameters_product consume pos params s c Hpos) as H.
  destruct (consume_each_inv (fun stack => consume (st.set_Stack stack s)) I (fun _ => I) (parameter_stacks pos params (st.s_Stack s)) c)
    as (res & c' & E & Hc'); [|done|done|].
  - intros stack c0 Hin H0. pose proof (parameter_stacks_shape pos params (st.s_Stack s) Hpos) as Hsh. rewrite Forall_forall in Hsh.
    destruct (Hsh stack Hin) as (H1 & H2 & _). destruct (Hconsume (st.set_Stack stack s) c0) as (res & c' & E & Hc'); [by apply tested_set_Stack|done|].
    exists res, c'. done.
  - rewrite E in H. destruct res; cbn in H; [|destruct H as [stack H]]; rewrite H; eauto.
Qed.

(** A generator leads to a state that is enumerated, or to an error; the only
    one that is reported is that of a variable without a value. *)
Lemma generateAndEnumerate_tested params g (e : enumeration) : generates g -> I (en_consumer e) ->
  exists res e', generateAndEnumerate (R := R) pool_Get pool_Put consume params g e = Some (res, e') /\ I (en_consumer e')
    /\ (en_error e' = en_error e \/ res = ConsumeAbort /\ en_error e' = Some ErrUnboundVariable).
Proof.
  intros Hg Hc. unfold generateAndEnumerate. pose proof (Hpool (en_pool e)) as Hp. destruct (pool_Get (en_pool e)) as [stack pool]. cbn [fst] in Hp.
  pose proof (generates_spec stack g (en_rnd e) Hp Hg) as H.
  unfold gwp in H. unfold StateGenerator.Generate. destruct (StateGenerator.generateWith stack g (mkWorld (en_rnd e) ∅)) as [[s g'] w|err r| |]; try done.
  - destruct (enumerateParameters_tested 0 params s (en_consumer e) ltac:(lia) H Hc) as (res & s' & c' & -> & Hc'). cbn.
    eexists _, _. split; [done|]. split; [done|]. by left.
  - destruct H as [->| ->]; eexists _, _; (split; [done|]); (split; [done|]); cbn; auto.
Qed.

(** All cases of a rule are enumerated without a panic, unless the consumer or
    an error stops the enumeration; every state that is consumed is in the
    limits. *)
Lemma EnumerateTestCases_tested rule dimensions l rnd pool c : getPropertyTestValues (r_Condition rule) = Some dimensions ->
  test_generators (sortedCases dimensions) StateGenerator.New = Some l -> Forall generates l -> I c ->
  exists e, EnumerateTestCases (R := R) pool_Get pool_Put consume rule rnd pool c = Some e /\ I (en_consumer e)
    /\ (en_error e = None \/ en_error e = Some ErrUnboundVariable).
Proof.
  intros Ed El Hl Hc. unfold EnumerateTestCases, enumerateTestCases. rewrite Ed. cbn [mbind option_bind].
  rewrite (enumerateTestStates_product _ _ _ l) by done. rewrite Forall_forall in Hl.
  destruct (consume_each_inv (generateAndEnumerate pool_Get pool_Put consume (r_Parameter rule)) (fun e => I (en_consumer e) /\ en_error e = None)
    (fun _ e => I (en_consumer e) /\ (en_error e = None \/ en_error e = Some ErrUnboundVariable)) l (mkEnumeration rnd pool None c))
    as (res & e & -> & He); [|by intros e [? ?]; auto|done|].
  - intros g e Hg [Hi He]. destruct (generateAndEnumerate_tested (r_Parameter rule) g e (Hl g Hg) Hi) as (res & e' & E & Hi' & Herr).
    exists res, e'. split; [done|]. rewrite He in Herr. split; [naive_solver|]. intros ->. split; [done|]. by destruct Herr as [?|[? _]].
  - cbn. eauto.
Qed.

End Cases.

(** ** The states that are enumerated

    The states that the enumeration of a rule passes to its consumer do not
    depend on the consumer, which only decides how many of them are passed: it
    is called for them in order until it aborts. The parallel run of the tests
    relies on it, with consumers that send states to a channel. *)

(** The consumer that keeps the states. *)
Definition record (s : st.State) (states : list st.State) : option (bool * list st.State) := Some (ConsumeContinue, states ++ [s]).

Lemma consume_each_record l states : consume_each record l states = Some (ConsumeContinue, states ++ l).
Proof. revert states. induction l as [|s l IH]; intros states; [by rewrite app_nil_r|]. cbn. by rewrite IH, <- app_assoc. Qed.

(** ** The number of cases *)

Lemma fold_i64_product l acc : fold_left (fun res n => i64 (res * n)) l (i64 acc) = i64 (acc * prod l).
Proof.
  revert acc. induction l as [|n l IH]; intros acc; cbn [fold_left prod fold_right]; [by rewrite Z.mul_1_r|]. fold (prod l).
  assert (i64 (i64 acc * n) = i64 (acc * n)) as ->; [|rewrite IH; f_equal; lia].
  unfold i64, wrapS. change (64 - 1) with 63. assert ((((acc + 2 ^ 63) mod 2 ^ 64 - 2 ^ 63) * n + 2 ^ 63) mod 2 ^ 64 = (acc * n + 2 ^ 63) mod 2 ^ 64) as ->; [|done].
  rewrite Z.add_mod, Z.mul_mod by lia.
  assert (((acc + 2 ^ 63) mod 2 ^ 64 - 2 ^ 63) mod 2 ^ 64 = acc mod 2 ^ 64) as ->;
    [rewrite Zminus_mod_idemp_l; f_equal; ring|]. by rewrite <- Z.mul_mod, <- Z.add_mod by lia.
Qed.

Lemma prod_app l1 l2 : prod (l1 ++ l2) = prod l1 * prod l2.
Proof. unfold prod. induction l1 as [|n l1 IH]; cbn [app fold_right]; [ring|]. rewrite IH. ring. Qed.

#[export] Instance prod_Proper : Proper ((≡ₚ) ==> (=)) prod.
Proof. intros l1 l2 H. unfold prod. induction H; cbn [fold_right]; [done|by f_equal|ring|by etrans]. Qed.

Lemma prod_pos l : Forall (fun n => 1 <= n) l -> 1 <= prod l.
Proof. induction 1 as [|n l Hn Hl IH]; cbn [prod fold_right]; [lia|]. fold (prod l). nia. Qed.

(** The combinations of parameters. *)
Definition parameter_cases `{Uint256} (params : list ParameterKind) : Z := prod (map (fun p => zlen (Parameter_Samples p) + 1) params).

Lemma parameter_cases_pos `{Uint256} params : 1 <= parameter_cases params.
Proof. apply prod_pos, Forall_map, Forall_true. intros p. pose proof (zlen_nonneg (Parameter_Samples p)). cbn. lia. Qed.

Lemma parameter_stacks_le `{Uint256} params stack : zlen (parameter_stacks 0 params stack) <= parameter_cases params.
Proof.
  rewrite parameter_stacks_length by lia. set (n := Z.to_nat _). fold (parameter_cases (take n params)).
  rewrite <- (take_drop n params) at 2. unfold parameter_cases at 2. rewrite map_app, prod_app. fold (parameter_cases (take n params)) (parameter_cases (drop n params)).
  pose proof (parameter_cases_pos (take n params)). pose proof (parameter_cases_pos (drop n params)). nia.
Qed.

Lemma TotalNumberOfCases_product `{Uint256} rule dimensions i : getPropertyTestValues (r_Condition rule) = Some dimensions ->
  GetTestCaseEnumerationInfo rule = Some i ->
  TotalNumberOfCases i = i64 (prod (map zlen (sortedCases dimensions)) * parameter_cases (r_Parameter rule)).
Proof.
  intros Ed. unfold GetTestCaseEnumerationInfo. rewrite Ed. intros [= <-]. unfold TotalNumberOfCases. cbn [ti_propertyDomainSizes ti_parameterDomainSizes].
  change (fold_left (fun res n => i64 (res * n)) (map (fun '(_, domain) => zlen domain) dimensions) 1)
    with (fold_left (fun res n => i64 (res * n)) (map (fun '(_, domain) => zlen domain) dimensions) (i64 1)).
  rewrite fold_i64_product, fold_i64_product, Z.mul_1_l. unfold parameter_cases, sortedCases. do 2 f_equal. rewrite map_map.
  apply prod_Proper. replace (map (fun '(_, domain) => zlen domain) dimensions) with (map (fun x => zlen (snd x)) dimensions)
    by (apply map_ext; by intros []). apply Permutation_map. symmetry. apply merge_sort_Permutation.
Qed.

Section Trace.
Context {U : Uint256} {R : Type} {RND : Rand R} {P : Type}.
Context (pool_Get : P -> st.Stack * P) (pool_Put : st.Stack -> P -> P).

(** The states of some generators: of each of them that produces a state, in
    their order, this state with all combinations of samples. An error other
    than that of unsatisfiable constraints ends the list. *)
Fixpoint test_states (params : list ParameterKind) (l : list StateGenerator) (rnd : R) (pool : P)
    : option (list st.State * option GenErr * R * P) :=
  match l with
  | [] => Some ([], None, rnd, pool)
  | g :: l =>
      let '(stack, pool) := pool_Get pool in
      match StateGenerator.Generate stack g rnd with
      | gOk (s, _) w =>
          '(states, err, rnd, pool) ← test_states params l (w_rnd w) (pool_Put (st.s_Stack s) pool);
          Some (map (fun stack => st.set_Stack stack s) (parameter_stacks 0 params (st.s_Stack s)) ++ states, err, rnd, pool)
      | gErr ErrUnsatisfiable rnd => test_states params l rnd pool
      | gErr err rnd => Some ([], Some err, rnd, pool)
      | gPanic | gLoop => None
      end
  end.

Lemma test_states_count params l rnd pool states err rnd' pool' : test_states params l rnd pool = Some (states, err, rnd', pool') ->
  zlen states <= zlen l * parameter_cases params.
Proof.
  pose proof (parameter_cases_pos params). revert rnd pool states. induction l as [|g l IH]; intros rnd pool states; cbn [test_states]; [by intros [= <- <- <- <-]|].
  destruct (pool_Get pool) as [stack p]. rewrite zlen_cons. pose proof (zlen_nonneg l).
  destruct (StateGenerator.Generate stack g rnd) as [[s g'] w|e r| |]; [|destruct e|done|done].
  - destruct (test_states params l (w_rnd w) _) as [[[[states1 err1] rnd1] pool1]|] eqn:E; [|done]. cbn. intros [= <- <- <- <-]. apply IH in E.
    rewrite zlen_app. unfold zlen at 1. rewrite length_map. pose proof (parameter_stacks_le params (st.s_Stack s)) as Hp. unfold zlen in Hp. lia.
  - intros E%IH. lia.
  - intros [= <- <- <- <-]. change (zlen (@nil st.State)) with 0. nia.
  - intros [= <- <- <- <-]. change (zlen (@nil st.State)) with 0. nia.
Qed.

Context {C : Type} (consume : st.State -> C -> option (bool * C)).

(** The consumer is called for these states until it aborts. *)
Lemma generators_consumed params l rnd pool states err rnd' pool' c : test_states params l rnd pool = Some (states, err, rnd', pool') ->
  match consume_each consume states c with
  | None => consume_each (generateAndEnumerate pool_Get pool_Put consume params) l (mkEnumeration rnd pool None c) = None
  | Some (true, c') => exists res, consume_each (generateAndEnumerate pool_Get pool_Put consume params) l (mkEnumeration rnd pool None c)
                                   = Some (res, mkEnumeration rnd' pool' err c')
  | Some (false, c') => exists rnd'' pool'', consume_each (generateAndEnumerate pool_Get pool_Put consume params) l (mkEnumeration rnd pool None c)
                                             = Some (ConsumeAbort, mkEnumeration rnd'' pool'' None c')
  end.
Proof.
  set (gen := generateAndEnumerate pool_Get pool_Put consume params).
  revert rnd pool states c. induction l as [|g l IH]; intros rnd pool states c; cbn [test_states consume_each]; [intros [= <- <- <- <-]; cbn; eauto|].
  assert (forall e, gen g e = generateAndEnumerate pool_Get pool_Put consume params g e) as Hgen by done. rewrite !Hgen.
  unfold generateAndEnumerate. cbn [en_pool en_rnd en_consumer en_error]. destruct (pool_Get pool) as [stack p].
  destruct (StateGenerator.Generate stack g rnd) as [[s g'] w|e r| |]; [|destruct e|done|done].
  2: { intros E. cbn. by apply IH. }
  2,3: (intros [= <- <- <- <-]; cbn; eauto).
  destruct (test_states params l (w_rnd w) _) as [[[[states1 err1] rnd1] pool1]|] eqn:E; [|done]. cbn [mbind option_bind]. intros [= <- <- <- <-].
  rewrite consume_each_app, consume_each_map. pose proof (enumerateParameters_product consume 0 params s c ltac:(lia)) as Hc. unfold enumerated in Hc.
  destruct (consume_each (fun stack => consume (st.set_Stack stack s)) _ c) as [[[] c1]|]; cbn [mbind option_bind].
  - rewrite Hc. cbn. by apply IH.
  - destruct Hc as [stack' ->]. cbn. eauto.
  - by rewrite Hc.
Qed.

Lemma EnumerateTestCases_consumed rule dimensions l rnd pool states err rnd' pool' c : getPropertyTestValues (r_Condition rule) = Some dimensions ->
  test_generators (sortedCases dimensions) StateGenerator.New = Some l ->
  test_states (r_Parameter rule) l rnd pool = Some (states, err, rnd', pool') ->
  match consume_each consume states c with
  | None => EnumerateTestCases pool_Get pool_Put consume rule rnd pool c = None
  | Some (true, c') => EnumerateTestCases pool_Get pool_Put consume rule rnd pool c = Some (mkEnumeration rnd' pool' err c')
  | Some (false, c') => exists rnd'' pool'', EnumerateTestCases pool_Get pool_Put consume rule rnd pool c = Some (mkEnumeration rnd'' pool'' None c')
  end.
Proof.
  intros Ed El Es. unfold EnumerateTestCases, enumerateTestCases. rewrite Ed. cbn [mbind option_bind]. rewrite !(enumerateTestStates_product _ _ _ l) by done.
  pose proof (generators_consumed _ _ _ _ _ _ _ _ c Es) as H. destruct (consume_each consume states c) as [[[] c']|].
  - destruct H as [res ->]. done.
  - destruct H as (r & p & ->). cbn. eauto.
  - by rewrite H.
Qed.

(** Generators that are well formed lead to states or to an error. *)
Lemma test_states_total {UL : Uint256Laws U} {RL : RandLaws R RND} params l rnd pool :
  (forall p, st.MaxStackSize <= zlen (st.stack (fst (pool_Get p)) ++ st.spare (fst (pool_Get p)))) -> Forall generates l ->
  exists states err rnd' pool', test_states params l rnd pool = Some (states, err, rnd', pool') /\ (err = None \/ err = Some ErrUnboundVariable).
Proof.
  intros Hpool Hl. revert rnd pool. induction Hl as [|g l Hg Hl IH]; intros rnd pool; cbn [test_states]; [eauto 10|].
  pose proof (Hpool pool) as Hp. destruct (pool_Get pool) as [stack p]. pose proof (generates_spec stack g rnd Hp Hg) as H.
  unfold gwp in H. unfold StateGenerator.Generate. destruct (StateGenerator.generateWith stack g (mkWorld rnd ∅)) as [[s g'] w|e r| |]; try done.
  - destruct (IH (w_rnd w) (pool_Put (st.s_Stack s) p)) as (states & err & rnd' & pool' & -> & He). cbn. eauto 10.
  - destruct H as [->| ->]; [apply IH|eauto 10].
Qed.

End Trace.
