(* ===== verification/CtForEachState.v ===== *)
(** * Running the tests in parallel

    [ForEachState] and [FilterRules] of [go/ct/spc/enumeration.go]: the caller
    writes rules to a channel, one team of goroutines enumerates the test
    cases of rules and writes them to a second channel, and another team runs
    the tests. The program is a transition system: a step is what one
    goroutine does up to its next access to a channel or to the flag that
    stops the tests. The goroutine that prints the progress only reads the
    number of tests.

    Every interleaving ends, no goroutine waits forever or writes to a closed
    channel, and when the function returns every state that was to be tested
    has been tested exactly once, unless a test or an error of the enumeration
    has stopped the run. *)
From Stdlib Require Import ZArith Lia.
From stdpp Require Import base list list_tactics numbers relations.
From S2P Require Import Prelude Uint256 CtState CtRules CtRand.
Set Default Goal Selector "!".
Local Open Scope Z_scope.

(** The filter is a regular expression on the name, or none. *)
Definition FilterRules {N} (rules : list (N * Rule)) (filter : option (N -> bool)) : list (N * Rule) :=
  match filter with
  | None => rules
  | Some MatchString => List.filter (fun rule => MatchString (fst rule)) rules
  end.

(** ** Goroutines *)

(** A goroutine that generates states: waiting for a rule; with a rule it has
    received; at the next call of the consumer, with the states still to be
    passed to it and the error of the enumeration; about to send a state;
    ended. *)
Inductive generator :=
| GIdle
| GRule (rule : Rule)
| GEnum (rule : Rule) (pending : list st.State) (err : option GenErr)
| GSend (state : st.State) (rule : Rule) (pending : list st.State) (err : option GenErr)
| GDone.

(** A goroutine that runs tests. *)
Inductive tester :=
| TIdle
| TRun (state : st.State)
| TDone.

(** The rules not sent yet, the channels and whether they are closed, the
    goroutines, [abortTests], [returnError], [testCounter], the states that
    have been processed, and whether [ForEachState] has returned. *)
Record system := mkSystem {
  y_rules : list Rule;
  y_ruleChannel : list Rule;
  y_rulesClosed : bool;
  y_generators : list generator;
  y_stateChannel : list st.State;
  y_statesClosed : bool;
  y_testers : list tester;
  y_abort : bool;
  y_error : option GenErr;
  y_counter : Z;
  y_processed : list st.State;
  y_returned : bool
}.

Section ForEachState.
Context {U : Uint256}.

(** The enumeration of a rule with the seed: the states it passes to a
    consumer that does not abort, and its error; what the function applied to
    states may return; the number of goroutines. *)
Context (cases : Rule -> list st.State * option GenErr) (opFunction : st.State -> bool -> Prop).
Context (numJobs : nat) (fullMode : bool).

(** Unless all cases are to be run, those that the rule applies to. *)
Definition selected (rule : Rule) (state : st.State) : bool :=
  if negb fullMode then applies (r_Condition rule) state else true.

(** The capacity of the channels. *)
Definition capacity : nat := 10 * numJobs.

Inductive step : system -> system -> Prop :=
(** [ruleChannel <- rule] and [close(ruleChannel)]. *)
| step_feed rule rules rc gs sc cl ts ab err n ps : (length rc < capacity)%nat ->
    step (mkSystem (rule :: rules) rc false gs sc cl ts ab err n ps false)
         (mkSystem rules (rc ++ [rule]) false gs sc cl ts ab err n ps false)
| step_closeRules rc gs sc cl ts ab err n ps :
    step (mkSystem [] rc false gs sc cl ts ab err n ps false) (mkSystem [] rc true gs sc cl ts ab err n ps false)
(** [for rule := range ruleChannel], then a look at the flag. *)
| step_take rules rule rc rcl gs1 gs2 sc cl ts ab err n ps :
    step (mkSystem rules (rule :: rc) rcl (gs1 ++ GIdle :: gs2) sc cl ts ab err n ps false)
         (mkSystem rules rc rcl (gs1 ++ GRule rule :: gs2) sc cl ts ab err n ps false)
| step_enumerate rules rule rc rcl gs1 gs2 sc cl ts err n ps :
    step (mkSystem rules rc rcl (gs1 ++ GRule rule :: gs2) sc cl ts false err n ps false)
         (mkSystem rules rc rcl (gs1 ++ GEnum rule (fst (cases rule)) (snd (cases rule)) :: gs2) sc cl ts false err n ps false)
| step_skip rules rule rc rcl gs1 gs2 sc cl ts err n ps :
    step (mkSystem rules rc rcl (gs1 ++ GRule rule :: gs2) sc cl ts true err n ps false)
         (mkSystem rules rc rcl (gs1 ++ GIdle :: gs2) sc cl ts true err n ps false)
| step_endGenerator rules gs1 gs2 sc cl ts ab err n ps :
    step (mkSystem rules [] true (gs1 ++ GIdle :: gs2) sc cl ts ab err n ps false)
         (mkSystem rules [] true (gs1 ++ GDone :: gs2) sc cl ts ab err n ps false)
(** A call of the consumer: a look at the flag and the check of the rule. *)
| step_select rules rc rcl gs1 gs2 rule s pending e sc cl ts err n ps :
    step (mkSystem rules rc rcl (gs1 ++ GEnum rule (s :: pending) e :: gs2) sc cl ts false err n ps false)
         (mkSystem rules rc rcl (gs1 ++ (if selected rule s then GSend s rule pending e else GEnum rule pending e) :: gs2) sc cl ts
            false err n ps false)
| step_stop rules rc rcl gs1 gs2 rule s pending e sc cl ts err n ps :
    step (mkSystem rules rc rcl (gs1 ++ GEnum rule (s :: pending) e :: gs2) sc cl ts true err n ps false)
         (mkSystem rules rc rcl (gs1 ++ GIdle :: gs2) sc cl ts true err n ps false)
(** [stateChannel <- state.Clone()]. *)
| step_send rules rc rcl gs1 gs2 rule s pending e sc ts ab err n ps : (length sc < capacity)%nat ->
    step (mkSystem rules rc rcl (gs1 ++ GSend s rule pending e :: gs2) sc false ts ab err n ps false)
         (mkSystem rules rc rcl (gs1 ++ GEnum rule pending e :: gs2) (sc ++ [s]) false ts ab err n ps false)
(** The enumeration returns. *)
| step_enumerated rules rc rcl gs1 gs2 rule sc cl ts ab err n ps :
    step (mkSystem rules rc rcl (gs1 ++ GEnum rule [] None :: gs2) sc cl ts ab err n ps false)
         (mkSystem rules rc rcl (gs1 ++ GIdle :: gs2) sc cl ts ab err n ps false)
| step_failed rules rc rcl gs1 gs2 rule e sc cl ts ab err n ps :
    step (mkSystem rules rc rcl (gs1 ++ GEnum rule [] (Some e) :: gs2) sc cl ts ab err n ps false)
         (mkSystem rules rc rcl (gs1 ++ GIdle :: gs2) sc cl ts true (Some e) n ps false)
(** [rulesWaitGroup.Wait(); close(stateChannel)]. *)
| step_closeStates rc gs sc ts ab err n ps : Forall (eq GDone) gs ->
    step (mkSystem [] rc true gs sc false ts ab err n ps false) (mkSystem [] rc true gs sc true ts ab err n ps false)
(** [for state := range stateChannel]. *)
| step_receive rules rc rcl gs s sc cl ts1 ts2 ab err n ps :
    step (mkSystem rules rc rcl gs (s :: sc) cl (ts1 ++ TIdle :: ts2) ab err n ps false)
         (mkSystem rules rc rcl gs sc cl (ts1 ++ TRun s :: ts2) ab err (n + 1) ps false)
| step_tested rules rc rcl gs s sc cl ts1 ts2 ab err n ps consumeStatus : opFunction s consumeStatus ->
    step (mkSystem rules rc rcl gs sc cl (ts1 ++ TRun s :: ts2) ab err n ps false)
         (mkSystem rules rc rcl gs sc cl (ts1 ++ TIdle :: ts2) (if consumeStatus then ab else true) err n (ps ++ [s]) false)
| step_endTester rules rc rcl gs ts1 ts2 ab err n ps :
    step (mkSystem rules rc rcl gs [] true (ts1 ++ TIdle :: ts2) ab err n ps false)
         (mkSystem rules rc rcl gs [] true (ts1 ++ TDone :: ts2) ab err n ps false)
(** [stateWaitGroup.Wait()] and the return. *)
| step_return rules rc rcl gs sc ts ab err n ps : Forall (eq TDone) ts ->
    step (mkSystem rules rc rcl gs sc true ts ab err n ps false) (mkSystem rules rc rcl gs sc true ts ab err n ps true).

Definition initial (rules : list Rule) : system :=
  mkSystem rules [] false (replicate numJobs GIdle) [] false (replicate numJobs TIdle) false None 0 [] false.

(** ** Where the states are *)

(** The states to be tested for a rule. *)
Definition tests (rule : Rule) (states : list st.State) : list st.State := List.filter (selected rule) states.
Definition tests_of (rule : Rule) : list st.State := tests rule (fst (cases rule)).

Definition in_generator (g : generator) : list st.State :=
  match g with
  | GRule rule => tests_of rule
  | GEnum rule pending _ => tests rule pending
  | GSend s rule pending _ => s :: tests rule pending
  | GIdle | GDone => []
  end.

Definition in_tester (t : tester) : list st.State := match t with TRun s => [s] | _ => [] end.

Definition everywhere (y : system) : list st.State :=
  y_processed y ++ flat_map in_tester (y_testers y) ++ y_stateChannel y ++ flat_map in_generator (y_generators y)
  ++ flat_map tests_of (y_ruleChannel y) ++ flat_map tests_of (y_rules y).

End ForEachState.

(** ** The parallel run of the tests

    Every interleaving of the goroutines of [ForEachState] ends, no goroutine
    waits forever or writes to a closed channel, and when the function returns
    every state that was to be tested has been tested exactly once, unless a
    test or an error of the enumeration has stopped the run. *)

Lemma flat_map_replicate {A B} (f : A -> list B) n x : f x = [] -> flat_map f (replicate n x) = [].
Proof. intros E. induction n as [|n IH]; cbn; [done|]. by rewrite E, IH. Qed.

Lemma flat_map_const {A B} (f : A -> list B) x l : f x = [] -> Forall (eq x) l -> flat_map f l = [].
Proof. intros E. induction 1 as [|y l <- Hl IH]; cbn; [done|]. by rewrite E, IH. Qed.

(** One of the members is not the last state, or all of them are. *)
Lemma all_or_other {A} (x : A) (P : forall y, Decision (y = x)) l : Forall (eq x) l \/ exists l1 y l2, l = l1 ++ y :: l2 /\ y <> x.
Proof.
  induction l as [|y l [IH|(l1 & z & l2 & -> & Hz)]]; [by left| |right; by exists (y :: l1), z, l2].
  destruct (P y) as [->|Hy]; [left; by constructor|right; by exists [], y, l].
Qed.

Lemma GDone_dec (g : generator) : Decision (g = GDone).
Proof. destruct g; try (by left); right; discriminate. Defined.
Lemma TDone_dec (t : tester) : Decision (t = TDone).
Proof. destruct t; try (by left); right; discriminate. Defined.

Section Facts.
Context {U : Uint256} (cases : Rule -> list st.State * option GenErr) (opFunction : st.State -> bool -> Prop).
Context (numJobs : nat) (fullMode : bool) (rules : list Rule).

Local Notation step := (step cases opFunction numJobs fullMode).
Local Notation tests_of := (tests_of cases fullMode).
Local Notation everywhere := (everywhere cases fullMode).
Local Notation all := (flat_map tests_of rules).

(** ** The invariant *)

(** A goroutine has the error of the rule it enumerates. *)
Definition enumerates (g : generator) : Prop :=
  match g with
  | GRule rule => rule ∈ rules
  | GEnum rule _ e | GSend _ rule _ e => rule ∈ rules /\ e = snd (cases rule)
  | GIdle | GDone => True
  end.

Record consistent (y : system) : Prop := mkConsistent {
  co_rules : y_rulesClosed y = true -> y_rules y = [];
  co_generator : GDone ∈ y_generators y -> y_rulesClosed y = true /\ y_ruleChannel y = [];
  co_states : y_statesClosed y = true -> y_rulesClosed y = true /\ Forall (eq GDone) (y_generators y);
  co_tester : TDone ∈ y_testers y -> y_statesClosed y = true /\ y_stateChannel y = [];
  co_return : y_returned y = true -> y_statesClosed y = true /\ Forall (eq TDone) (y_testers y);
  co_teams : length (y_generators y) = numJobs /\ length (y_testers y) = numJobs;
  co_channels : (length (y_ruleChannel y) <= capacity numJobs)%nat /\ (length (y_stateChannel y) <= capacity numJobs)%nat;
  co_source : Forall (fun rule => rule ∈ rules) (y_rules y ++ y_ruleChannel y) /\ Forall enumerates (y_generators y);
  co_counter : y_counter y = Z.of_nat (length (y_processed y) + length (flat_map in_tester (y_testers y)));
  co_error e : y_error y = Some e -> y_abort y = true /\ exists rule, rule ∈ rules /\ snd (cases rule) = Some e;
  co_abort : y_abort y = true -> is_Some (y_error y) \/ exists s, s ∈ y_processed y /\ opFunction s false;
  co_some : everywhere y ⊆+ all;
  co_all : y_abort y = false -> everywhere y ≡ₚ all
}.

Lemma initial_consistent : consistent (initial numJobs rules).
Proof.
  split; try done; cbn.
  - intros H. apply elem_of_replicate in H as [? _]. done.
  - intros H. apply elem_of_replicate in H as [? _]. done.
  - by rewrite !length_replicate.
  - lia.
  - rewrite app_nil_r. split; [by apply Forall_forall|]. apply Forall_forall. intros g Hg. apply elem_of_replicate in Hg as [-> _]. done.
  - by rewrite flat_map_replicate.
  - unfold CtForEachState.everywhere. cbn. rewrite !flat_map_replicate by done. done.
  - unfold CtForEachState.everywhere. cbn. rewrite !flat_map_replicate by done. done.
Qed.

(** *** Where the states are *)

Lemma step_everywhere y z : step y z -> y_abort z = false -> everywhere z ≡ₚ everywhere y.
Proof.
  intros Hs. destruct Hs; cbn; intros Hab; unfold CtForEachState.everywhere; cbn; try done;
    rewrite ?flat_map_app; cbn; rewrite ?flat_map_app; cbn; try done; try solve_Permutation.
  unfold tests. cbn. destruct (selected fullMode rule s); cbn; done.
Qed.

Lemma step_everywhere_sub y z : step y z -> everywhere z ⊆+ everywhere y.
Proof.
  intros Hs. destruct Hs; unfold CtForEachState.everywhere; cbn; try done;
    rewrite ?flat_map_app; cbn; rewrite ?flat_map_app; cbn; try done; try solve_submseteq.
  unfold tests. cbn. destruct (selected fullMode rule s); cbn; done.
Qed.

(** *** The steps keep it *)

Lemma ended_middle {A} (d : A) l1 x y l2 : d ∈ l1 ++ y :: l2 -> y <> d -> d ∈ l1 ++ x :: l2.
Proof. rewrite !elem_of_app, !elem_of_cons. naive_solver. Qed.

Lemma not_all_ended {A} (d : A) l1 x l2 : x <> d -> ~ Forall (eq d) (l1 ++ x :: l2).
Proof. rewrite Forall_app, Forall_cons. naive_solver. Qed.

Lemma selected_GDone rule s p e : (if selected fullMode rule s then GSend s rule p e else GEnum rule p e) <> GDone.
Proof. by destruct (selected fullMode rule s). Qed.
Hint Resolve selected_GDone : core.

(** What a step does to the goroutines that have ended. *)
Lemma step_generator y z : consistent y -> step y z -> GDone ∈ y_generators z -> y_rulesClosed z = true /\ y_ruleChannel z = [].
Proof.
  intros [Hr Hg Hs _ _ _ _ _ _ _ _ _ _] H Hin. clear Hs. destruct H; cbn in *; try (by auto); try (by destruct (Hg Hin));
    try (by apply Hg; eapply ended_middle; [exact Hin|eauto]; discriminate).
  destruct Hg as [_ ?]; [eapply ended_middle; [exact Hin|done]|done].
Qed.

Lemma step_states y z : consistent y -> step y z -> y_statesClosed z = true -> y_rulesClosed z = true /\ Forall (eq GDone) (y_generators z).
Proof.
  intros [_ _ Hs _ _ _ _ _ _ _ _ _ _] H Hc. destruct H; cbn in *; try (by auto); try (by destruct (Hs Hc));
    by destruct (Hs Hc) as [_ []%not_all_ended].
Qed.

Lemma step_tester y z : consistent y -> step y z -> TDone ∈ y_testers z -> y_statesClosed z = true /\ y_stateChannel z = [].
Proof.
  intros [_ _ _ Ht _ _ _ _ _ _ _ _ _] H Hin. destruct H; cbn in *; try (by auto); try (by destruct (Ht Hin)).
  - destruct Ht as [_ ?]; [eapply ended_middle; [exact Hin|done]|done].
  - apply Ht. by eapply ended_middle.
Qed.

Lemma step_source y z : consistent y -> step y z ->
  Forall (fun rule => rule ∈ rules) (y_rules z ++ y_ruleChannel z) /\ Forall enumerates (y_generators z).
Proof.
  intros [_ _ _ _ _ _ _ [Hr Hg] _ _ _ _ _] H. destruct H; cbn in *; rewrite ?Forall_app, ?Forall_cons, ?Forall_app, ?Forall_nil in *; cbn in *;
    try (destruct (selected fullMode rule s)); naive_solver.
Qed.

Lemma step_errors y z : consistent y -> step y z ->
  (forall e, y_error z = Some e -> y_abort z = true /\ exists rule, rule ∈ rules /\ snd (cases rule) = Some e)
  /\ (y_abort z = true -> is_Some (y_error z) \/ exists s, s ∈ y_processed z /\ opFunction s false).
Proof.
  intros [_ _ _ _ _ _ _ [_ Hg] _ He Ha _ _] H. destruct H; cbn in *; try (by auto).
  - rewrite Forall_app, Forall_cons in Hg. cbn in Hg. split; [|by eauto]. intros ? [= <-]. destruct Hg as (_ & [Hr E] & _). eauto.
  - split; [intros e ->; split; [destruct (He e eq_refl) as [-> _]; by destruct consumeStatus|by apply He]|].
    intros E. destruct consumeStatus; [|right; exists s; split; [apply elem_of_app; right; by left|done]].
    destruct (Ha E) as [?|(s' & ? & ?)]; [by left|right]. exists s'. split; [apply elem_of_app; by left|done].
Qed.

Lemma step_counter y z : consistent y -> step y z -> y_counter z = Z.of_nat (length (y_processed z) + length (flat_map in_tester (y_testers z))).
Proof.
  intros [_ _ _ _ _ _ _ _ Hn _ _ _ _] H. destruct H; cbn in *; try done; rewrite ?flat_map_app, ?length_app in *; cbn in *; lia.
Qed.

Lemma step_consistent y z : consistent y -> step y z -> consistent z.
Proof.
  intros Hy Hs. pose proof (step_everywhere _ _ Hs) as Hev. pose proof (step_everywhere_sub _ _ Hs) as Hsub.
  assert (y_abort z = false -> y_abort y = false) as Hab by (destruct Hs; cbn; try done; by destruct consumeStatus).
  pose proof (step_errors _ _ Hy Hs) as [He Ha].
  split; [|by apply (step_generator y)|by apply (step_states y)|by apply (step_tester y)| | | |by apply (step_source y)
    |by apply (step_counter y)|done|done|etrans; [done|by destruct Hy]|intros E; rewrite Hev by done; destruct Hy; auto];
    clear Hev Hsub Hab He Ha; destruct Hy.
  - destruct Hs; cbn in *; auto; done.
  - destruct Hs; cbn in *; try done.
  - destruct Hs; cbn in *; rewrite ?length_app in *; cbn in *; done.
  - destruct Hs; cbn -[capacity] in *; rewrite ?length_app; cbn -[capacity] in *; lia.
Qed.

Lemma reachable_consistent y : rtc step (initial numJobs rules) y -> consistent y.
Proof.
  intros H. assert (consistent (initial numJobs rules)) as Hi by apply initial_consistent. induction H as [|x y z Hxy _ IH]; eauto using step_consistent.
Qed.

(** ** Termination *)

(** How many steps are left at most. *)
Definition rule_steps (rule : Rule) : nat := 3 + 4 * length (fst (cases rule)).
Definition generator_steps (g : generator) : nat :=
  match g with
  | GDone => 0
  | GIdle => 1
  | GRule rule => rule_steps rule
  | GEnum _ pending _ => 2 + 4 * length pending
  | GSend _ _ pending _ => 5 + 4 * length pending
  end.
Definition tester_steps (t : tester) : nat := match t with TDone => 0 | TIdle => 1 | TRun _ => 2 end.

Definition steps_left (y : system) : nat :=
  sum_list_with (fun rule => 1 + rule_steps rule)%nat (y_rules y) + sum_list_with rule_steps (y_ruleChannel y)
  + sum_list_with generator_steps (y_generators y) + 2 * length (y_stateChannel y) + sum_list_with tester_steps (y_testers y)
  + (if y_rulesClosed y then 0 else 1) + (if y_statesClosed y then 0 else 1) + (if y_returned y then 0 else 1).

Lemma step_decreases y z : step y z -> (steps_left z < steps_left y)%nat.
Proof.
  intros H. destruct H; unfold steps_left; cbn -[Nat.mul]; rewrite ?sum_list_with_app, ?length_app; cbn -[Nat.mul]; try lia;
    [unfold rule_steps; lia..|]. destruct (selected fullMode rule s); cbn -[Nat.mul]; lia.
Qed.

Lemma step_terminates y : sn step y.
Proof.
  induction y as [y IH] using (well_founded_induction (Wf_nat.well_founded_ltof system steps_left)).
  constructor. intros z Hz. apply IH. by apply step_decreases.
Qed.

(** ** Progress *)

(** No goroutine writes to a closed channel. *)
Lemma no_closed_send y s rule pending e : consistent y -> GSend s rule pending e ∈ y_generators y -> y_statesClosed y = false.
Proof.
  intros [_ _ Hs _ _ _ _ _ _ _ _ _ _] H. destruct (y_statesClosed y); [|done]. destruct Hs as [_ Hs]; [done|].
  rewrite Forall_forall in Hs. by specialize (Hs _ H).
Qed.

(** A state in the channel or in the hands of a tester can be processed. *)
Lemma tester_progress y : (0 < numJobs)%nat -> (forall s, exists b, opFunction s b) -> consistent y -> y_returned y = false ->
  y_stateChannel y <> [] \/ y_statesClosed y = true -> exists z, step y z.
Proof.
  intros Hj Hop [_ _ _ Ht _ [_ Hl] _ _ _ _ _ _ _] Hr Hsc. destruct y as [rs rc rcl gs sc cl ts ab err n ps rt]. cbn in *. subst rt.
  destruct (all_or_other TDone TDone_dec ts) as [Hall|(ts1 & t & ts2 & -> & Hn)].
  - assert (cl = true /\ sc = []) as [-> ->]; [|eexists; by apply step_return].
    apply Ht. destruct ts as [|t ts]; [cbn in Hl; lia|]. inversion Hall; subst. left.
  - destruct t as [|s|]; [|destruct (Hop s) as [b Hb]; eexists; by apply (step_tested _ _ _ _ _ _ _ _ s _ _ _ _ _ _ _ _ b)|done].
    destruct sc as [|s sc]; [|eexists; by apply step_receive]. destruct Hsc as [?| ->]; [done|]. eexists. by apply step_endTester.
Qed.

Lemma generator_progress y : (0 < numJobs)%nat -> (forall s, exists b, opFunction s b) -> consistent y -> y_returned y = false ->
  y_ruleChannel y <> [] \/ y_rulesClosed y = true -> exists z, step y z.
Proof.
  intros Hj Hop Hy Hr Hrc. destruct (y_statesClosed y) eqn:Ec; [apply tester_progress; auto|].
  destruct (decide (length (y_stateChannel y) < capacity numJobs)%nat) as [Hroom|Hfull].
  2:{ apply tester_progress; auto. left. intros E. rewrite E in Hfull. unfold capacity in Hfull. cbn in Hfull. lia. }
  destruct Hy as [Hcl Hg _ _ _ [Hl _] _ _ _ _ _ _ _]. destruct y as [rs rc rcl gs sc cl ts ab err n ps rt]. cbn in *. subst rt cl.
  destruct (all_or_other GDone GDone_dec gs) as [Hall|(gs1 & g & gs2 & -> & Hn)].
  - assert (rcl = true /\ rc = []) as [-> ->]; [|rewrite (Hcl eq_refl); eexists; by apply step_closeStates].
    apply Hg. destruct gs as [|g gs]; [cbn in Hl; lia|]. inversion Hall; subst. left.
  - destruct g as [|rule|rule [|s p] e|s rule p e|]; [| | | | |done].
    + destruct rc as [|rule rc]; [|eexists; by apply step_take]. destruct Hrc as [?| ->]; [done|]. eexists. by apply step_endGenerator.
    + destruct ab; eexists; [by apply step_skip|by apply step_enumerate].
    + destruct e as [e|]; eexists; [by apply step_failed|by apply step_enumerated].
    + destruct ab; eexists; [by apply step_stop|by apply step_select].
    + eexists. by apply step_send.
Qed.

Lemma step_progress y : (0 < numJobs)%nat -> (forall s, exists b, opFunction s b) -> consistent y -> y_returned y = false -> exists z, step y z.
Proof.
  intros Hj Hop Hy Hr. destruct (y_rulesClosed y) eqn:Ec; [apply generator_progress; auto|].
  destruct (decide (length (y_ruleChannel y) < capacity numJobs)%nat) as [Hroom|Hfull].
  2:{ apply generator_progress; auto. left. intros E. rewrite E in Hfull. unfold capacity in Hfull. cbn in Hfull. lia. }
  destruct y as [rs rc rcl gs sc cl ts ab err n ps rt]. cbn in *. subst rt rcl.
  destruct rs as [|rule rs]; eexists; [by apply step_closeRules|by apply step_feed].
Qed.

(** ** Return *)

Lemma returned_everywhere y : (0 < numJobs)%nat -> consistent y -> y_returned y = true ->
  everywhere y = y_processed y /\ flat_map in_tester (y_testers y) = [].
Proof.
  intros Hj [Hcl Hg Hs Ht Hret [Hl1 Hl2] _ _ _ _ _ _ _] Hr. destruct (Hret Hr) as [Hc Hts]. destruct (Hs Hc) as [Hrc Hgs].
  assert (y_ruleChannel y = []) as E1.
  { apply Hg. destruct (y_generators y) as [|g gs]; [cbn in Hl1; lia|]. inversion Hgs; subst. left. }
  assert (y_stateChannel y = []) as E2.
  { apply Ht. destruct (y_testers y) as [|t ts]; [cbn in Hl2; lia|]. inversion Hts; subst. left. }
  assert (flat_map in_tester (y_testers y) = []) as E3 by (by eapply flat_map_const; [|exact Hts]). split; [|done].
  unfold CtForEachState.everywhere. rewrite E1, E2, E3, (Hcl Hrc), (flat_map_const (in_generator cases fullMode) GDone) by done. cbn. by rewrite app_nil_r.
Qed.

(** Every state that was to be tested has been tested once, or the run was
    stopped by the result of a test or by an error, which is returned. *)
Lemma returned_result y : (0 < numJobs)%nat -> consistent y -> y_returned y = true ->
  y_processed y ⊆+ all /\ y_counter y = zlen (y_processed y)
  /\ (y_abort y = false -> y_processed y ≡ₚ all /\ y_error y = None)
  /\ (y_abort y = true -> is_Some (y_error y) \/ exists s, s ∈ y_processed y /\ opFunction s false)
  /\ (forall e, y_error y = Some e -> exists rule, rule ∈ rules /\ snd (cases rule) = Some e).
Proof.
  intros Hj Hy Hr. destruct (returned_everywhere y Hj Hy Hr) as [E1 E2]. destruct Hy. rewrite E1 in *. rewrite E2 in *.
  split; [done|]. split; [rewrite co_counter0; cbn; unfold zlen; lia|]. split; [|split; [done|]].
  - intros E. split; [auto|]. destruct (y_error y) as [e|] eqn:He; [|done]. destruct (co_error0 e eq_refl) as [? _]. congruence.
  - intros e He. by apply co_error0.
Qed.
End Facts.
