(* ===== verification/CtBasicRules.v ===== *)
(** * Rules with basic conditions

    Conditions on the status, the read-only flag, the revision, the gas, the
    size of the stack and the instruction at the program counter, which about
    half of the rules of the specification consist of: the states that
    [GenerateSatisfyingState] returns for them are accepted, their test cases
    can be enumerated, and the tests of the states that are enumerated pass. *)
From Stdlib Require Import ZArith Lia Strings.Byte Eqdep.
From stdpp Require Import base list numbers gmap strings sorting pretty.
From S2P Require Import Prelude Uint256 Types OpCodes SfvmStack SfvmAnalysis SfvmHashCache SfvmContext SfvmInterpreter.
From S2P Require Import CtCommon CtState CtRules CtSpec CtAdapter CtStateFacts CtExec CtSim CtConform.
From S2P Require Import CtConformArith CtConformance CtRunTest CtRand CtGenSolvers CtGenStack CtGenCode CtGenStorage CtGenContexts.
From S2P Require Import CtGenAccounts CtGenState CtRestrict CtRestrictSound CtEnumerate CtEnumerateFacts.
Set Default Goal Selector "!".
Local Open Scope Z_scope.
Local Open Scope go_scope.

Section Satisfying.
Context {U : Uint256} {UL : Uint256Laws U} {R : Type} {RND : Rand R} {RL : RandLaws R RND}.

(** What [GenerateSatisfyingState] may return: a state in the limits, which
    the condition of the rule accepts if the blob hashes are a slice, or one of
    two errors. *)
Definition satisfying (c : Condition) (res : genResult R (st.State * StateGenerator)) : Prop :=
  match res with
  | gOk (s, _) w => StateGenerator.in_limits s
      /\ (zlen (st.tx_BlobHashes (st.s_TransactionContext s)) < 2 ^ 63 -> applies c s = true)
  | gErr e _ => e = ErrUnsatisfiable \/ e = ErrUnboundVariable
  | gPanic | gLoop => False
  end.

Lemma GenerateSatisfyingState_spec pooled rule g (r : R) :
  Condition_Restrict (r_Condition rule) StateGenerator.New = Some g -> restrictable (r_Condition rule) -> StateGenerator.wf g -> tractable g ->
  st.MaxStackSize <= zlen (st.stack pooled ++ st.spare pooled) ->
  satisfying (r_Condition rule) (GenerateSatisfyingState pooled rule r).
Proof.
  intros Hg Hc Hwf Ht Hpool. unfold GenerateSatisfyingState. rewrite Hg.
  assert (gwp (StateGenerator.generateWith pooled g) (fun sg w => satisfying (r_Condition rule) (gOk sg w))
    (fun e => forall r, satisfying (r_Condition rule) (gErr e r)) (mkWorld r ∅)) as H.
  { apply generateWith_sound; try done; [|by left|by right]. intros s g' r' asg Hs Hlim Hrev. cbn [satisfying w_assignment].
    split; [done|]. intros Hblobs. unfold applies. by rewrite (proj2 (Condition_Restrict_sound _ Hc _ _ asg s Hg Hs)). }
  unfold StateGenerator.Generate. unfold gwp in H. by destruct (StateGenerator.generateWith pooled g (mkWorld r ∅)).
Qed.

(** ** Basic conditions *)

(** A bound far from the ends of the machine integers. *)
Definition small (n : Z) : Prop := - 2 ^ 62 <= n < 2 ^ 62.

Inductive basic : Condition -> Prop :=
| basic_status s : basic (cEq eStatus s)
| basic_notStatus s : basic (cNe eStatus s)
| basic_readOnly b : basic (cEq eReadOnly b)
| basic_notReadOnly b : basic (cNe eReadOnly b)
| basic_op op : basic (cEq (eOp ePc) op)
| basic_isCode : basic (cIsCode ePc)
| basic_isData : basic (cIsData ePc)
| basic_gasLt n : small n -> basic (cLt eGas n)
| basic_gasLe n : small n -> basic (cLe eGas n)
| basic_gasGt n : small n -> basic (cGt eGas n)
| basic_gasGe n : small n -> basic (cGe eGas n)
| basic_sizeLt n : small n -> basic (cLt eStackSize n)
| basic_sizeLe n : small n -> basic (cLe eStackSize n)
| basic_sizeGt n : small n -> basic (cGt eStackSize n)
| basic_sizeGe n : small n -> basic (cGe eStackSize n)
| basic_revision min max : known min -> known max -> basic (cRevisionBounds min max)
| basic_new : basic cIsNewContract
| basic_notNew : basic cIsNotNewContract
| basic_destructed : basic cHasSelfDestructed
| basic_notDestructed : basic cHasNotSelfDestructed.

Lemma basic_restrictable c : basic c -> restrictable c.
Proof.
  destruct 1; cbn; unfold small in *; try done; try (by left); try (split; [done|lia]); try lia.
Qed.

(** The elementary conditions are applied one after the other. *)
Lemma conjunction_Restrict_app f l1 l2 g :
  conjunction_Restrict f (l1 ++ l2) g = (g ← conjunction_Restrict f l1 g; conjunction_Restrict f l2 g).
Proof. revert g. induction l1 as [|c l1 IH]; intros g; [done|]. cbn. destruct (f c g); cbn; [apply IH|done]. Qed.

Lemma Restrict_getConditions c g : Condition_Restrict c g = conjunction_Restrict Condition_Restrict (getConditions c) g.
Proof.
  assert (forall c g, getConditions c = [c] -> Condition_Restrict c g = conjunction_Restrict Condition_Restrict (getConditions c) g) as Hone.
  { intros d g' ->. unfold conjunction_Restrict. by destruct (Condition_Restrict d g'). }
  revert c g. fix IH 1. intros [] g; try (by apply Hone). cbn [getConditions Condition_Restrict]. clear Hone.
  revert g. induction conditions as [|c l IHl]; intros g; [done|]. cbn [flat_map]. rewrite conjunction_Restrict_app, <-IH.
  cbn. destruct (Condition_Restrict c g); [apply IHl|done].
Qed.

(** A generator with basic constraints only, at most [n] of them on
    instructions. *)
Record basic_gen (n : Z) (g : StateGenerator) : Prop := {
  bg_bindings : ng_variableBindings g = [];
  bg_self : ng_selfAddressBindings g = [];
  bg_pc : ng_pcConstantConstraints g = [];
  bg_gas : RangeSolver.wf Int64 (ng_gasConstraints g) /\ 0 <= rs_min (ng_gasConstraints g) /\ rs_max (ng_gasConstraints g) <= st.MaxGasUsedByCt;
  bg_gasRefund : RangeSolver.wf Int64 (ng_gasRefundConstraints g);
  bg_code : cg_constOps (ng_codeGen g) = [] /\ zlen (cg_varOps (ng_codeGen g)) <= n /\ cg_codeSize (ng_codeGen g) = None;
  bg_stack : StackGenerator.wf (ng_stackGen g);
  bg_storage : ng_storageGen g = StorageGenerator.New;
  bg_transient : ng_transientStorageGen g = TransientStorageGenerator.New;
  bg_accounts : ng_accountsGen g = AccountsGenerator.New;
  bg_transaction : ng_transactionContextGen g = TransactionContextGenerator.New;
  bg_block : BlockContextGenerator.wf (ng_blockContextGen g) /\ bcg_valueConstraint (ng_blockContextGen g) = ∅
    /\ bcg_rangeConstraints (ng_blockContextGen g) = ∅
}.

Lemma basic_gen_New : basic_gen 0 StateGenerator.New.
Proof. split; cbn; try done. apply StackGenerator.stack_wf_New. Qed.

Lemma basic_gen_gas n f g : (forall s, RangeSolver.wf Int64 s -> RangeSolver.wf Int64 (f s) /\ rs_min s <= rs_min (f s) /\ rs_max (f s) <= rs_max s) ->
  basic_gen n g -> basic_gen n (StateGenerator.on_gasConstraints f g).
Proof. intros Hf []. split; try done. cbn. destruct bg_gas0 as (Hw & Hl & Hu). destruct (Hf _ Hw) as (? & ? & ?). split; [done|lia]. Qed.

Lemma basic_gen_stack n f g : (forall s, StackGenerator.wf s -> StackGenerator.wf (f s)) ->
  basic_gen n g -> basic_gen n (StateGenerator.on_stackGen f g).
Proof. intros Hf []. split; try done. cbn. auto. Qed.

Lemma range_lower n : isI64 n -> forall s, RangeSolver.wf Int64 s ->
  RangeSolver.wf Int64 (RangeSolver.AddLowerBoundary n s) /\ rs_min s <= rs_min (RangeSolver.AddLowerBoundary n s)
  /\ rs_max (RangeSolver.AddLowerBoundary n s) <= rs_max s.
Proof. intros Hn s Hs. split; [by apply RangeSolver.wf_AddLowerBoundary|]. unfold RangeSolver.AddLowerBoundary. case_if; cbn; b2p; lia. Qed.

Lemma range_upper n : isI64 n -> forall s, RangeSolver.wf Int64 s ->
  RangeSolver.wf Int64 (RangeSolver.AddUpperBoundary n s) /\ rs_min s <= rs_min (RangeSolver.AddUpperBoundary n s)
  /\ rs_max (RangeSolver.AddUpperBoundary n s) <= rs_max s.
Proof. intros Hn s Hs. split; [by apply RangeSolver.wf_AddUpperBoundary|]. unfold RangeSolver.AddUpperBoundary. case_if; cbn; b2p; lia. Qed.

Lemma basic_gen_block n min max g : basic_gen n g -> basic_gen n (StateGenerator.AddRevisionBounds min max g).
Proof.
  intros []. split; try done. cbn. destruct bg_block0 as (Hw & Hv & Hr). split; [by apply BlockContextGenerator.wf_AddRevisionBounds|].
  unfold BlockContextGenerator.AddRevisionBounds. repeat case_if; cbn; done.
Qed.

(** A basic condition keeps a generator basic. *)
Lemma basic_gen_Restrict n c g : basic c -> basic_gen n g -> exists g', Condition_Restrict c g = Some g' /\ basic_gen (n + 1) g'.
Proof.
  intros Hc Hg. assert (forall g', basic_gen n g' -> basic_gen (n + 1) g') as Hn.
  { intros g' []. split; try done. destruct bg_code0 as (? & ? & ?). split; [done|]. split; [lia|done]. }
  assert (forall m, small m -> isI64 m) as Hs by (unfold small; zblia).
  destruct Hc; eexists; (split; [reflexivity|]); try (apply Hn; destruct Hg; split; done).
  - destruct Hg. split; try done. cbn. destruct bg_code0 as (Hc & Hl & Hsz). split; [done|]. split; [|done].
    rewrite zlen_app. change (zlen [mkVarOp "PC" op]) with 1. lia.
  - apply Hn, basic_gen_gas; [apply range_upper, i64_range|done].
  - apply Hn, basic_gen_gas; [apply range_upper; auto|done].
  - apply Hn, basic_gen_gas; [apply range_lower, i64_range|done].
  - apply Hn, basic_gen_gas; [apply range_lower; auto|done].
  - apply Hn, basic_gen_stack; [intros s; apply StackGenerator.wf_AddMaxSize, i64_range|done].
  - apply Hn, basic_gen_stack; [intros s; apply StackGenerator.wf_AddMaxSize; auto|done].
  - apply Hn, basic_gen_stack; [intros s; apply StackGenerator.wf_AddMinSize, i64_range|done].
  - apply Hn, basic_gen_stack; [intros s; apply StackGenerator.wf_AddMinSize; auto|done].
  - by apply Hn, basic_gen_block.
Qed.

Lemma basic_gen_conditions n l g : Forall basic l -> basic_gen n g ->
  exists g', conjunction_Restrict Condition_Restrict l g = Some g' /\ basic_gen (n + zlen l) g'.
Proof.
  intros Hl. revert n g. induction Hl as [|c l Hc Hl IH]; intros n g Hg.
  - exists g. split; [done|]. by rewrite Z.add_0_r.
  - destruct (basic_gen_Restrict n c g Hc Hg) as (g1 & E1 & H1). destruct (IH (n + 1) g1 H1) as (g2 & E2 & H2).
    exists g2. cbn [conjunction_Restrict]. rewrite E1. split; [exact E2|]. by rewrite zlen_cons, (Z.add_comm (zlen l)), Z.add_assoc.
Qed.

Lemma basic_gen_wf n g : basic_gen n g -> n < 2 ^ 50 -> StateGenerator.wf g.
Proof.
  intros [] Hn. destruct bg_code0 as (Hc & Hl & Hsz), bg_gas0 as [Hg Hr], bg_block0 as (Hb & _ & _). split; try done.
  - rewrite bg_pc0. intros p []%not_elem_of_nil.
  - split; [rewrite Hc; intros c []%not_elem_of_nil|lia|rewrite Hsz; done].
  - rewrite bg_storage0. split; done.
  - by rewrite bg_transient0.
  - rewrite bg_accounts0. split; done.
  - rewrite bg_accounts0. intros v []%not_elem_of_nil.
Qed.

(** The solvers overlook nothing of basic constraints. *)
Lemma basic_gen_tractable n g : basic_gen n g -> tractable g.
Proof.
  intros []. destruct bg_block0 as (_ & Hv & Hr). split.
  - rewrite bg_bindings0. intros b []%not_elem_of_nil.
  - rewrite bg_self0. intros b []%not_elem_of_nil.
  - rewrite bg_storage0. intros v []%not_elem_of_nil.
  - rewrite bg_storage0. intros a b []%not_elem_of_nil.
  - rewrite bg_storage0. intros a []%not_elem_of_nil.
  - rewrite bg_transient0. intros v. cbn. by rewrite lookup_empty.
  - rewrite bg_accounts0. intros v []%not_elem_of_nil.
  - rewrite bg_accounts0. intros a b []%not_elem_of_nil.
  - rewrite bg_transaction0. intros u v Hu. cbn in Hu. by rewrite lookup_empty in Hu.
  - intros v off Ho. by rewrite Hv, lookup_empty in Ho.
  - intros v Ho. by rewrite Hr, lookup_empty in Ho.
  - intros v Ho. by rewrite Hr, lookup_empty in Ho.
Qed.

Lemma restrictable_getConditions c : Forall restrictable (getConditions c) -> restrictable c.
Proof.
  revert c. fix IH 1. intros []; try (intros H; exact (Forall_inv H)). cbn [getConditions restrictable].
  induction conditions as [|c l IHl]; cbn; [done|]. rewrite Forall_app. intros [Hc Hl]. split; [by apply IH|by apply IHl].
Qed.

End Satisfying.

(** ** Enumeration for basic rules

    For a rule with basic conditions the test values of one property can be
    compared with each other, and restricting generators with them leads to
    generators that produce states or report an error: the enumeration of the
    test cases of the rule ends without a panic, and every state it passes on
    is in the limits of the tests. *)

(** ** Grouping by property *)

Lemma collect_spec values m : (forall p ts v, m !! p = Some ts -> v ∈ ts -> tv_property v = p) ->
  (forall p ts v, fold_left addTestValue values m !! p = Some ts -> v ∈ ts -> tv_property v = p
    /\ (v ∈ values \/ exists ts, m !! p = Some ts /\ v ∈ ts))
  /\ (forall v, v ∈ values -> exists ts, fold_left addTestValue values m !! tv_property v = Some ts /\ v ∈ ts)
  /\ (forall p ts v, m !! p = Some ts -> v ∈ ts -> exists ts', fold_left addTestValue values m !! p = Some ts' /\ v ∈ ts')
  /\ forall p ts, fold_left addTestValue values m !! p = Some ts -> ts = [] -> m !! p = Some [].
Proof.
  revert m. induction values as [|x values IH]; intros m Hm; cbn [fold_left].
  { split; [|split; [|split]]; [naive_solver|intros v []%not_elem_of_nil|naive_solver|naive_solver]. }
  assert (forall p, addTestValue m x !! p = if decide (tv_property x = p) then Some (default [] (m !! p) ++ [x]) else m !! p) as Hadd.
  { intros p. unfold addTestValue. case_decide as E; [subst p; by rewrite lookup_insert_eq|by rewrite lookup_insert_ne]. }
  destruct (IH (addTestValue m x)) as (H1 & H2 & H3 & H4).
  { intros p ts v. rewrite Hadd. case_decide as E; [|apply Hm]. intros [= <-] [Hv| ->%list_elem_of_singleton]%elem_of_app; [|done].
    destruct (m !! p) as [ts|] eqn:Em; [by apply (Hm p ts)|by apply not_elem_of_nil in Hv]. }
  assert (forall p ts v, m !! p = Some ts -> v ∈ ts -> exists ts', addTestValue m x !! p = Some ts' /\ v ∈ ts') as Hkeep.
  { intros p ts v Hp Hv. rewrite Hadd. case_decide as E; [|eauto]. rewrite Hp. cbn. eexists. split; [done|]. apply elem_of_app. by left. }
  split; [|split; [|split]].
  - intros p ts v Hp Hv. destruct (H1 p ts v Hp Hv) as [Hpr [Hin|(ts' & Hp' & Hv')]]; (split; [done|]); [left; by right|].
    rewrite Hadd in Hp'. case_decide as E; [|right; eauto]. injection Hp' as <-. apply elem_of_app in Hv' as [Hv'| ->%list_elem_of_singleton]; [right|left; left].
    destruct (m !! p) as [ts'|] eqn:Em; [eauto|by apply not_elem_of_nil in Hv'].
  - intros v [->|Hv]%elem_of_cons; [|auto]. apply (H3 (tv_property x) (default [] (m !! tv_property x) ++ [x])); [|apply elem_of_app; right; left].
    rewrite Hadd. by rewrite decide_True.
  - intros p ts v Hp Hv. destruct (Hkeep p ts v Hp Hv) as (ts' & Hp' & Hv'). by apply (H3 p ts').
  - intros p ts Hp Hts. specialize (H4 p ts Hp Hts). rewrite Hadd in H4. case_decide as E; [|done]. injection H4 as H4. by destruct (default [] (m !! p)).
Qed.

(** A group has the test values of one property, and every test value is in
    one. *)
Lemma collectTestValues_spec values :
  (forall p ts v, collectTestValues values !! p = Some ts -> v ∈ ts -> tv_property v = p /\ v ∈ values)
  /\ (forall v, v ∈ values -> exists ts, collectTestValues values !! tv_property v = Some ts /\ v ∈ ts)
  /\ forall p ts, collectTestValues values !! p = Some ts -> ts <> [].
Proof.
  destruct (collect_spec values ∅) as (H1 & H2 & _ & H4); [intros p ts v H; by rewrite lookup_empty in H|]. split; [|split; [done|]].
  - intros p ts v Hp Hv. destruct (H1 p ts v Hp Hv) as [? [?|(ts' & H & _)]]; [done|]. by rewrite lookup_empty in H.
  - intros p ts Hp ->. specialize (H4 p [] Hp eq_refl). by rewrite lookup_empty in H4.
Qed.

(** ** Duplicates *)

Lemma dropRepeated_sub v l x : x ∈ dropRepeated v l -> x ∈ l.
Proof.
  revert v. induction l as [|y l IH]; intros v; [done|]. cbn. assert (x ∈ dropRepeated y l -> x ∈ y :: l) as H by (intros H; right; by eapply IH).
  destruct (Compare y v) as [[]|]; try done; (intros [->|?]%elem_of_cons; [left|auto]).
Qed.

Lemma removeDuplicates_sub l l' x : removeDuplicates l = Some l' -> x ∈ l' -> x ∈ l.
Proof.
  unfold removeDuplicates. case_if; [by intros [= <-]|]. case_if; [done|]. intros [= <-]. rewrite <-(elem_of_sort_by compareLess l).
  destruct (sort_by compareLess l) as [|y l2]; [done|]. intros [->|Hx]%elem_of_cons; [left|right; by eapply dropRepeated_sub].
Qed.

Lemma removeDuplicates_comparable l : comparable l = true -> is_Some (removeDuplicates l).
Proof. intros H. unfold removeDuplicates. rewrite H. cbn. by case_if. Qed.

(** Test values of one property with one type and an order. *)
Lemma comparable_typed l p t : (forall v, v ∈ l -> tv_property v = p /\ tv_type v = t /\ forall x y, is_Some (Less (tv_domain v) x y)) -> comparable l = true.
Proof.
  intros H. unfold comparable. apply forallb_forall. intros a Ha%list_elem_of_In. apply forallb_forall. intros b Hb%list_elem_of_In.
  destruct (H a Ha) as (Hp & Ht & Hl), (H b Hb) as (Hp' & Ht' & _). unfold Compare. rewrite Hp, Hp', bool_decide_eq_false_2 by (intros Hn; by apply Hn).
  unfold castValue. destruct (decide (tv_type b = tv_type a)) as [e|Hn]; [|congruence]. cbn [mbind option_bind]. case_if; [done|].
  destruct (Hl (tv_value a) (eq_rect (tv_type b) goVal (tv_value b) (tv_type a) e)) as [[] ->]; done.
Qed.

(** Merge sort only compares elements of the list. *)
Section MergeExt.
Context {A : Type} (R R' : A -> A -> Prop) `{!forall x y, Decision (R x y)} `{!forall x y, Decision (R' x y)} (P : A -> Prop).
Hypothesis Hagree : forall x y, P x -> P y -> R x y <-> R' x y.

Lemma list_merge_ext l1 l2 : Forall P l1 -> Forall P l2 -> list_merge R l1 l2 = list_merge R' l1 l2.
Proof.
  intros H1. revert l2. induction H1 as [|x l1 Hx H1 IH1]; intros l2 H2; [by destruct l2|]. induction H2 as [|y l2 Hy H2 IH2]; [done|].
  rewrite !list_merge_cons, IH1, IH2 by (try constructor; done). destruct (decide (R x y)) as [r|r], (decide (R' x y)) as [r'|r']; try done;
    apply (Hagree x y Hx Hy) in r || apply (Hagree x y Hx Hy) in r'; done.
Qed.

Lemma Forall_list_merge l1 l2 : Forall P l1 -> Forall P l2 -> Forall P (list_merge R l1 l2).
Proof. intros. rewrite merge_Permutation. by apply Forall_app. Qed.

Abbreviation stack_ok st := (Forall (fun o => match o with Some l => Forall P l | None => True end) st).

Lemma merge_list_to_stack_ext st l : stack_ok st -> Forall P l ->
  merge_list_to_stack R st l = merge_list_to_stack R' st l /\ stack_ok (merge_list_to_stack R st l).
Proof.
  intros Hst. revert l. induction Hst as [|[l0|] st Hl0 Hst IH]; intros l Hl; cbn [merge_list_to_stack].
  - split; [done|]. by constructor.
  - rewrite <-(list_merge_ext l0 l) by done. destruct (IH (list_merge R l0 l)) as [Heq Hok]; [by apply Forall_list_merge|].
    rewrite <-Heq. split; [done|by constructor].
  - split; [done|]. by constructor.
Qed.

Lemma merge_stack_ext st : stack_ok st -> merge_stack R st = merge_stack R' st /\ Forall P (merge_stack R st).
Proof.
  induction 1 as [|[l|] st Hl Hst [IH1 IH2]]; cbn [merge_stack]; [done| |done]. rewrite <-IH1. split; [by apply list_merge_ext|by apply Forall_list_merge].
Qed.

Lemma merge_sort_ext l : Forall P l -> merge_sort R l = merge_sort R' l.
Proof.
  unfold merge_sort. assert (stack_ok (@nil (option (list A)))) as Hst by constructor. revert Hst. generalize (@nil (option (list A))). intros st Hst Hl.
  revert st Hst. induction Hl as [|x l Hx Hl IH]; intros st Hst; cbn [merge_sort_aux]; [by apply merge_stack_ext|].
  destruct (merge_list_to_stack_ext st [x] Hst ltac:(by constructor)) as [<- Hok]. by apply IH.
Qed.

End MergeExt.

(** Where comparing is comparing numbers, the result is strictly increasing and
    has the same numbers. *)
Section Order.
Context (key : TestValue -> Z) (l : list TestValue).
Hypothesis Hcompare : forall a b, a ∈ l -> b ∈ l -> Compare a b = Some (Z.sgn (key a - key b)).

(** The merge sort only sees elements of the list. *)
Lemma sorted_by_key : (forall a b, a ∈ l -> b ∈ l -> compareLess a b = (key a <? key b)) ->
  StronglySorted (fun a b => key a <= key b) (sort_by compareLess l).
Proof.
  intros Hless. unfold sort_by. assert (forall a b, Decision ((fun a b => key a <= key b) a b)) as Hdec by (intros a b; cbn; apply _).
  rewrite (merge_sort_ext _ (fun a b => key a <= key b) (fun a => a ∈ l)).
  - apply Sorted_StronglySorted; [intros a b c; lia|]. apply Sorted_merge_sort. intros a b. lia.
  - intros a b Ha Hb. rewrite Hless by done. destruct (Z.ltb_spec (key b) (key a)); cbn; lia.
  - by apply Forall_forall.
Qed.

Lemma dropRepeated_increasing v values : v ∈ l -> (forall x, x ∈ values -> x ∈ l) -> StronglySorted (fun a b => key a <= key b) (v :: values) ->
  StronglySorted (fun a b => key a < key b) (v :: dropRepeated v values) /\ forall k, k ∈ map key (v :: dropRepeated v values) <-> k ∈ map key (v :: values).
Proof.
  revert v. induction values as [|x values IH]; intros v Hv Hin Hs; [split; [by repeat constructor|done]|].
  inversion Hs as [|? ? Hs' Hf]; subst. inversion Hf as [|? ? Hvx Hf']; subst. inversion Hs' as [|? ? Hs'' Hfx]; subst.
  assert (x ∈ l) as Hx by (apply Hin; left). cbn [dropRepeated]. rewrite (Hcompare x v Hx Hv).
  destruct (Z.sgn_spec (key x - key v)) as [[Hlt E]|[[Heq E]|[Hlt E]]]; rewrite E; [| |lia].
  - destruct (IH x Hx) as [IH1 IH2]; [intros y Hy; apply Hin; by right|done|]. split.
    + constructor; [done|]. inversion IH1 as [|? ? IH1' IHf]; subst. constructor; [lia|]. eapply Forall_impl; [exact IHf|]. cbn beta. lia.
    + intros k. cbn [map]. rewrite (elem_of_cons _ k (key v)), (elem_of_cons _ k (key v)). rewrite IH2. done.
  - assert (key x = key v) as Hk by lia. destruct (IH x Hx) as [IH1 IH2]; [intros y Hy; apply Hin; by right|done|]. split.
    + inversion IH1 as [|? ? IH1' IHf]; subst. constructor; [done|]. eapply Forall_impl; [exact IHf|]. cbn beta. lia.
    + intros k. specialize (IH2 k). cbn [map] in *. rewrite !elem_of_cons in *. rewrite Hk in *. rewrite IH2. tauto.
Qed.

Lemma removeDuplicates_increasing l' : removeDuplicates l = Some l' ->
  StronglySorted (fun a b => key a < key b) l' /\ forall k, k ∈ map key l' <-> k ∈ map key l.
Proof.
  unfold removeDuplicates. destruct (Z.ltb_spec (zlen l) 2) as [Hlen|Hlen].
  - intros [= <-]. split; [|done]. unfold zlen in Hlen. destruct l as [|a [|b l0]]; [by repeat constructor|by repeat constructor|cbn in Hlen; lia].
  - case_if; [done|]. intros [= <-].
    assert (forall a b, a ∈ l -> b ∈ l -> compareLess a b = (key a <? key b)) as Hless.
    { intros a b Ha Hb. unfold compareLess. rewrite Hcompare by done. destruct (Z.ltb_spec (key a) (key b)).
      - apply Z.ltb_lt. rewrite Z.sgn_neg; lia.
      - apply Z.ltb_ge. apply Z.sgn_nonneg. lia. }
    pose proof (sorted_by_key Hless) as Hs. assert (forall k, k ∈ map key (sort_by compareLess l) <-> k ∈ map key l) as Hk.
    { intros k. rewrite !elem_of_map. by setoid_rewrite elem_of_sort_by. }
    assert (forall x, x ∈ sort_by compareLess l -> x ∈ l) as Hin by (intros x; by rewrite elem_of_sort_by).
    destruct (sort_by compareLess l) as [|v values]; [by split; [constructor|]|].
    destruct (dropRepeated_increasing v values) as [H1 H2]; [apply Hin; left|intros x Hx; apply Hin; by right|done|]. split; [done|].
    intros k. by rewrite H2, Hk.
Qed.

End Order.

(** ** Test values of basic conditions *)

Section Basic.
Context {U : Uint256} {UL : Uint256Laws U}.

(** The properties of basic conditions and their types. *)
Definition basic_properties : list (string * goType) :=
  [("status", tStatusCode); ("readOnly", tBool); ("code[PC]", tOpCode); ("isCode[PC]", tBool); ("gas", tGas); ("stackSize", tInt);
   ("revision", tRevision); ("isNewContract()", tBool); ("hasSelfDestructed()", tBool)]%string.

Record basic_value (v : TestValue) : Prop := {
  bv_property : (tv_property v, tv_type v) ∈ basic_properties;
  bv_less x y : is_Some (Less (tv_domain v) x y);
  bv_restrict n g : basic_gen n g -> exists g', TestValue_Restrict v g = Some g' /\ basic_gen (n + 1) g'
}.

Lemma basic_gen_weaken n g : basic_gen n g -> basic_gen (n + 1) g.
Proof. intros []. split; try done. destruct bg_code0 as (? & ? & ?). split; [done|]. split; [lia|done]. Qed.

(** A test value that is also the restriction of a basic condition. *)
Lemma basic_value_of c v : basic c -> (tv_property v, tv_type v) ∈ basic_properties -> (forall x y, is_Some (Less (tv_domain v) x y)) ->
  (forall g, TestValue_Restrict v g = Condition_Restrict c g) -> basic_value v.
Proof. intros Hc Hp Hl Hr. split; [done|done|]. intros n g Hg. rewrite Hr. by apply basic_gen_Restrict. Qed.

Lemma basic_gen_Clone n g : basic_gen n g -> basic_gen n (StateGenerator.Clone g).
Proof.
  intros []. split; cbn; try done.
  - destruct bg_code0 as (? & ? & ?). done.
  - destruct bg_stack0. split; done.
  - by rewrite bg_storage0.
  - by rewrite bg_transient0.
  - by rewrite bg_transaction0.
  - destruct bg_block0 as (Hw & Hv & Hr). unfold BlockContextGenerator.Clone. case_if; [done|]. cbn. split; [|done]. destruct Hw as [Hs Ho]. split; [|done].
    cbn. destruct (bcg_blockNumberSolver (ng_blockContextGen g)) as [s|] eqn:Es; [|done]. cbn. intros ? [= <-]. destruct (Hs s eq_refl). by split.
Qed.

Lemma removeDuplicates_loop_sub `{EqDecision T} (seen l : list T) x : x ∈ removeDuplicates_loop seen l -> x ∈ l.
Proof.
  revert seen. induction l as [|y l IH]; intros seen; cbn; [done|]. case_bool_decide; [intros H'; right; by eapply IH|].
  intros [->|H']%elem_of_cons; [left|right; by eapply IH].
Qed.

Lemma gas_samples_range a x : isI64 a -> x ∈ gas_samples [a] -> isI64 x.
Proof.
  intros Ha (y & -> & Hy)%removeDuplicates_loop_sub%elem_of_map. cbn in Hy. rewrite !elem_of_cons in Hy.
  pose proof (i64_range (a - 1)). pose proof (i64_range (a + 1)). unfold st.MaxGasUsedByCt in *.
  assert (isI64 y) by (destruct Hy as [->|[->|[->|[->|[->|[->|[]%not_elem_of_nil]]]]]]; done). case_if; [done|done].
Qed.

Lemma stackSize_samples_range a x : x ∈ stackSize_samples [a] -> isI64 x.
Proof.
  intros Hx%removeDuplicates_loop_sub. unfold st.MaxStackSize in *. cbn [flat_map app] in Hx. rewrite app_nil_r in Hx.
  rewrite !elem_of_cons in Hx. destruct Hx as [->|[->|Hx]]; [done|done|].
  destruct (Z.leb_spec 0 a), (Z.leb_spec a 1024); cbn in Hx; try by apply not_elem_of_nil in Hx.
  destruct (a =? 0), (a =? 1024); cbn in Hx; repeat (apply elem_of_cons in Hx as [->|Hx]; [zblia|]); by apply not_elem_of_nil in Hx.
Qed.

Ltac in_properties := unfold basic_properties; rewrite !elem_of_cons; tauto.

Lemma basic_flags property restrict c1 c2 : (property, tBool) ∈ basic_properties -> basic c1 -> basic c2 ->
  (forall g, restrict true g = Condition_Restrict c1 g) -> (forall g, restrict false g = Condition_Restrict c2 g) ->
  Forall basic_value (bool_TestValues property restrict).
Proof.
  intros Hp H1 H2 E1 E2. apply Forall_cons. split; [by apply (basic_value_of c1)|]. apply Forall_singleton. by apply (basic_value_of c2).
Qed.

Lemma basic_GetTestValues c : basic c -> exists l, GetTestValues c = Some l /\ Forall basic_value l.
Proof.
  assert (forall n, small n -> exists l, eq_GetTestValues eGas n = Some l /\ Forall basic_value l) as Hgas.
  { intros n Hn. eexists. split; [done|]. apply Forall_map, Forall_forall. intros x Hx.
    assert (isI64 x) by (apply (gas_samples_range n); [unfold small in Hn; zblia|done]).
    split; [in_properties|done|]. intros m g Hg. eexists. split; [reflexivity|]. apply basic_gen_weaken, basic_gen_gas; [|done].
    intros s Hs. destruct (range_lower x ltac:(done) s Hs) as (Hl & ? & ?). destruct (range_upper x ltac:(done) _ Hl) as (? & ? & ?).
    split; [done|]. split; etransitivity; done. }
  assert (forall n, exists l, eq_GetTestValues eStackSize n = Some l /\ Forall basic_value l) as Hsize.
  { intros n. eexists. split; [done|]. apply Forall_map, Forall_forall. intros x Hx. apply stackSize_samples_range in Hx.
    split; [in_properties|done|]. intros m g Hg. eexists. split; [reflexivity|]. apply basic_gen_weaken, basic_gen_stack; [|done].
    intros s. by apply StackGenerator.wf_SetSize. }
  assert (forall s, exists l, eq_GetTestValues eStatus s = Some l /\ Forall basic_value l) as Hstatus.
  { intros s. eexists. split; [done|]. apply Forall_singleton, (basic_value_of (cEq eStatus s)); [constructor|in_properties|done|done]. }
  assert (forall s, exists l, eq_GetTestValues eReadOnly s = Some l /\ Forall basic_value l) as Hro.
  { intros s. eexists. split; [done|]. apply Forall_singleton, (basic_value_of (cEq eReadOnly s)); [constructor|in_properties|done|done]. }
  destruct 1; cbn [GetTestValues]; auto.
  - eexists. split; [done|]. apply Forall_cons. split; [apply (basic_value_of (cEq (eOp ePc) op))|
      apply Forall_singleton, (basic_value_of (cEq (eOp ePc) (op_succ op)))]; first [constructor; fail|in_properties|done].
  - eexists. split; [done|]. apply (basic_flags _ _ (cIsCode ePc) (cIsData ePc)); [in_properties|constructor|constructor|done|done].
  - eexists. split; [done|]. apply (basic_flags _ _ (cIsCode ePc) (cIsData ePc)); [in_properties|constructor|constructor|done|done].
  - assert (forall r, basic_value (revision_TestValue r)) as Hr.
    { intros r. split; [in_properties|done|]. intros m g Hg. eexists. split; [done|]. by apply basic_gen_weaken, basic_gen_block. }
    eexists. split; [done|]. unfold revisionBounds_GetTestValues. case_if; [by apply Forall_singleton|]. apply Forall_cons. split; [done|].
    apply Forall_map, Forall_true. done.
  - eexists. split; [done|]. apply (basic_flags _ _ cIsNewContract cIsNotNewContract); [in_properties|constructor|constructor|done|done].
  - eexists. split; [done|]. apply (basic_flags _ _ cIsNewContract cIsNotNewContract); [in_properties|constructor|constructor|done|done].
  - eexists. split; [done|]. apply (basic_flags _ _ cHasSelfDestructed cHasNotSelfDestructed); [in_properties|constructor|constructor|done|done].
  - eexists. split; [done|]. apply (basic_flags _ _ cHasSelfDestructed cHasNotSelfDestructed); [in_properties|constructor|constructor|done|done].
Qed.

Lemma getConditions_TestValues c : GetTestValues c = conjunction_GetTestValues GetTestValues (getConditions c).
Proof.
  assert (forall l1 l2, conjunction_GetTestValues GetTestValues (l1 ++ l2)
    = (v1 ← conjunction_GetTestValues GetTestValues l1; v2 ← conjunction_GetTestValues GetTestValues l2; Some (v1 ++ v2))) as Happ.
  { intros l1 l2. induction l1 as [|d l1 IH]; cbn; [by destruct (conjunction_GetTestValues GetTestValues l2)|]. rewrite IH. clear IH. destruct (GetTestValues d); cbn; [|done].
    destruct (conjunction_GetTestValues GetTestValues l1); cbn; [|done]. destruct (conjunction_GetTestValues GetTestValues l2); cbn; [|done]. by rewrite app_assoc. }
  assert (forall d, getConditions d = [d] -> GetTestValues d = conjunction_GetTestValues GetTestValues (getConditions d)) as Hone.
  { intros d ->. unfold conjunction_GetTestValues. destruct (GetTestValues d); cbn; [|done]. by rewrite app_nil_r. }
  revert c. fix IH 1. intros []; try (by apply Hone). cbn [getConditions GetTestValues]. clear Hone.
  induction conditions as [|c l IHl]; [done|]. cbn [flat_map]. rewrite Happ, <-IH, <-IHl. done.
Qed.

Lemma basic_TestValues c : Forall basic (getConditions c) -> exists l, GetTestValues c = Some l /\ Forall basic_value l.
Proof.
  rewrite getConditions_TestValues. induction 1 as [|d l Hd Hl IH]; [by exists []|]. destruct IH as (l2 & E2 & H2).
  destruct (basic_GetTestValues d Hd) as (l1 & E1 & H1). exists (l1 ++ l2). cbn. rewrite E1. cbn. rewrite E2. split; [done|]. by apply Forall_app.
Qed.

(** The property has one type. *)
Lemma basic_properties_type p t t' : (p, t) ∈ basic_properties -> (p, t') ∈ basic_properties -> t = t'.
Proof.
  intros H H'. assert (forall q u, (q, u) ∈ basic_properties -> (list_to_map basic_properties : gmap string goType) !! q = Some u) as Hm.
  { intros q u Hq. apply elem_of_list_to_map_1; [|done]. apply (bool_decide_unpack _). by vm_compute. }
  apply Hm in H, H'. congruence.
Qed.

(** The groups of the test values of a basic condition. *)
Lemma basic_dimensions c : Forall basic (getConditions c) -> exists dims, getPropertyTestValues c = Some dims
  /\ zlen dims <= 9 /\ forall p ts v, (p, ts) ∈ dims -> v ∈ ts -> basic_value v.
Proof.
  intros Hc. destruct (basic_TestValues c Hc) as (values & Ev & Hv). rewrite Forall_forall in Hv. unfold getPropertyTestValues. rewrite Ev. cbn [mbind option_bind].
  destruct (collectTestValues_spec values) as (H1 & _ & H3).
  destruct (mapM (fun '(property, tests) => tests ← removeDuplicates tests; Some (property, tests)) (map_to_list (collectTestValues values))) as [dims|] eqn:Ed.
  - exists dims. apply mapM_Some in Ed. split; [done|]. split.
    + unfold zlen. rewrite <-(Forall2_length _ _ _ Ed), <-(length_map fst).
      assert (map fst (map_to_list (collectTestValues values)) ⊆+ map fst basic_properties) as Hsub%submseteq_length; [|change (length (map fst basic_properties)) with 9%nat in Hsub; lia].
      apply NoDup_submseteq; [apply NoDup_fst_map_to_list|]. intros p ([q ts] & -> & Hin)%elem_of_map. cbn [fst].
      apply elem_of_map_to_list in Hin. destruct ts as [|v ts]; [by destruct (H3 _ _ Hin)|].
      destruct (H1 q (v :: ts) v Hin ltac:(left)) as [<- Hin']. apply elem_of_map. exists (tv_property v, tv_type v). split; [done|]. apply Hv; done.
    + intros p ts v Hin Hvin. apply list_elem_of_lookup_1 in Hin as [i Hi]. eapply Forall2_lookup_r in Ed as ([q us] & Hq & Hr); [|exact Hi].
      destruct (removeDuplicates us) as [us'|] eqn:Er; [|done]. injection Hr as -> ->.
      apply Hv. apply (removeDuplicates_sub us ts v Er) in Hvin. apply list_elem_of_lookup_2, elem_of_map_to_list in Hq. by apply (H1 p us).
  - exfalso. apply eq_None_not_Some in Ed. apply Ed, mapM_is_Some_2, Forall_forall. intros [p ts] Hin%elem_of_map_to_list.
    assert (comparable ts = true) as Hcmp.
    { destruct ts as [|v0 ts0]; [done|]. set (ts := v0 :: ts0) in *. apply (comparable_typed ts p (tv_type v0)). intros v Hvin.
      destruct (H1 p ts v Hin Hvin) as [Hp Hin1]. destruct (H1 p ts v0 Hin ltac:(left)) as [Hp0 Hin0]. split; [done|]. split; [|apply (bv_less _ (Hv v Hin1))].
      pose proof (bv_property _ (Hv v Hin1)) as Hb. pose proof (bv_property _ (Hv v0 Hin0)) as Hb0. rewrite Hp in Hb. rewrite Hp0 in Hb0.
      by eapply basic_properties_type. }
    destruct (removeDuplicates_comparable ts Hcmp) as [us Hus]. unfold compose. rewrite Hus. done.
Qed.

(** The generators of a basic rule. *)
Lemma basic_generators c : Forall basic (getConditions c) -> exists dims l, getPropertyTestValues c = Some dims
  /\ test_generators (sortedCases dims) StateGenerator.New = Some l /\ Forall generates l.
Proof.
  intros Hc. destruct (basic_dimensions c Hc) as (dims & Ed & Hlen & Hb).
  destruct (test_generators_inv basic_gen (sortedCases dims) 0 StateGenerator.New basic_gen_Clone) as (l & El & Hl).
  - intros head v m h Hhead Hv Hh. unfold sortedCases in Hhead. apply elem_of_map in Hhead as ([p ts] & -> & Hin). rewrite elem_of_sort_by in Hin.
    apply (bv_restrict v); [|done]. by apply (Hb p ts).
  - apply basic_gen_New.
  - exists dims, l. split; [done|]. split; [done|]. eapply Forall_impl; [exact Hl|]. intros g Hg. cbn beta in Hg. split.
    + apply (basic_gen_wf _ _ Hg). unfold sortedCases, zlen. rewrite length_map, length_sort_by. unfold zlen in Hlen. lia.
    + unfold StateGenerator.bound_addresses. by rewrite (bg_bindings _ _ Hg).
Qed.

End Basic.

(** ** From rules to passing tests

    The whole chain for rules with basic conditions, from the enumeration of
    test cases to the result of the test driver: the states that are
    enumerated and that the rule applies to are valid, and the tests of them
    pass. *)

(** ** Rules that are decided to be basic *)

Definition basic_bound {T} (e : Expression T) : T -> bool :=
  match e with
  | eGas | eStackSize => fun n => (- 2 ^ 62 <=? n) && (n <? 2 ^ 62)
  | _ => fun _ => false
  end.

Definition knownb (r : Revision) : bool := (0 <=? r) && (r <=? NewestSupportedRevision) || (r =? R99_UnknownNextRevision).

Definition basicb (c : Condition) : bool :=
  match c with
  | cEq eStatus _ | cNe eStatus _ | cEq eReadOnly _ | cNe eReadOnly _ => true
  | cEq (eOp position) _ | cIsCode position | cIsData position => isPc position
  | cLt e n | cLe e n | cGt e n | cGe e n => basic_bound e n
  | cRevisionBounds min max => knownb min && knownb max
  | cIsNewContract | cIsNotNewContract | cHasSelfDestructed | cHasNotSelfDestructed => true
  | _ => false
  end.

Lemma knownb_spec r : knownb r = true -> known r.
Proof. unfold knownb, known. intros H. b2p. lia. Qed.

Lemma basic_bound_spec {T} (e : Expression T) (n : T) : basic_bound e n = true ->
  basic (cLt e n) /\ basic (cLe e n) /\ basic (cGt e n) /\ basic (cGe e n).
Proof. destruct e; try done; cbn; intros H; b2p; split_and!; constructor; unfold small; lia. Qed.

Lemma basicb_spec c : basicb c = true -> basic c.
Proof.
  destruct c as [l|T e x|T e x|T e x|T e x|T e x|T e x|min max|e|e| | | | | | | | | | | | | | | | | | ]; try done; cbn; try (by constructor).
  - destruct e as [| | | | | |position| | | |]; try done; try (by constructor). intros ->%isPc_spec. constructor.
  - destruct e; try done; by constructor.
  - by intros (? & ? & ? & ?)%basic_bound_spec.
  - by intros (? & ? & ? & ?)%basic_bound_spec.
  - by intros (? & ? & ? & ?)%basic_bound_spec.
  - by intros (? & ? & ? & ?)%basic_bound_spec.
  - intros [H1 H2]%andb_true_iff. constructor; by apply knownb_spec.
  - intros ->%isPc_spec. constructor.
  - intros ->%isPc_spec. constructor.
Qed.

(** A condition that only states of known revisions satisfy, one that only
    running states satisfy, and one that no running state satisfies. *)
Definition isSupported (c : Condition) : bool :=
  match c with cRevisionBounds min max => (0 <=? min) && (max <=? NewestSupportedRevision) | _ => false end.
Definition isRunning (c : Condition) : bool := match c with cEq eStatus s => bool_decide (s = st.Running) | _ => false end.
Definition isStopped (c : Condition) : bool := match c with cEq eStatus s => negb (bool_decide (s = st.Running)) | _ => false end.

(** Basic rules for one instruction, or for states that do not run. *)
Definition testable (rule : Rule) : bool :=
  let conditions := getConditions (r_Condition rule) in
  forallb basicb conditions && existsb isSupported conditions
  && match ruleToOpString rule with Some _ => existsb isRunning conditions | None => existsb isStopped conditions end.

Section Testable.
Context {U : Uint256} {UL : Uint256Laws U}.

Lemma find_op_elem l op : find_op l = Some op -> cEq (eOp ePc) op ∈ l.
Proof.
  assert (forall d : Condition, find_op [d] = Some op -> d = cEq (eOp ePc) op) as Hone.
  { intros d. destruct d as [|T e x| | | | | | | | | | | | | | | | | | | | | | | | | |]; try done. destruct e as [| | | | | |position| | | |]; try done. cbn.
    intros H. assert (isPc position = true) as ->%isPc_spec; [by destruct position|]. by injection H as ->. }
  induction l as [|d l IH]; [done|]. intros H. assert (find_op [d] = Some op \/ find_op l = Some op) as [H1|H1].
  { destruct d as [|T e x| | | | | | | | | | | | | | | | | | | | | | | | | |]; try (by right). destruct e as [| | | | | |position| | | |]; try (by right).
    cbn in *. destruct position; auto. }
  - apply Hone in H1 as ->. left.
  - right. auto.
Qed.

Lemma existsb_applies f c s : applies c s = true -> existsb f (getConditions c) = true -> exists d, f d = true /\ applies d s = true.
Proof.
  intros Hc%applies_getConditions (d & Hd & Hf)%List.existsb_exists. rewrite Forall_forall in Hc. exists d. split; [done|]. apply Hc. by apply list_elem_of_In.
Qed.

Lemma isSupported_revision c s : applies c s = true -> existsb isSupported (getConditions c) = true ->
  R07_Istanbul <= st.s_Revision s <= NewestSupportedRevision.
Proof.
  intros Hc He. destruct (existsb_applies _ _ _ Hc He) as (d & Hd & Ha). destruct d; try done. cbn in Hd. unfold applies in Ha. cbn in Ha.
  destruct (_ && _) eqn:E in Ha; [|done]. b2p. unfold R07_Istanbul. lia.
Qed.

Lemma isRunning_status c s : applies c s = true -> existsb isRunning (getConditions c) = true -> st.s_Status s = st.Running.
Proof.
  intros Hc He. destruct (existsb_applies _ _ _ Hc He) as (d & Hd & Ha). destruct d as [|T e x| | | | | | | | | | | | | | | | | | | | | | | | | |]; try done.
  destruct e; try done. cbn in Hd. apply bool_decide_eq_true in Hd as ->. unfold applies in Ha. cbn in Ha. by destruct (st.s_Status s).
Qed.

Lemma isStopped_status c s : applies c s = true -> existsb isStopped (getConditions c) = true -> st.s_Status s <> st.Running.
Proof.
  intros Hc He. destruct (existsb_applies _ _ _ Hc He) as (d & Hd & Ha). destruct d as [|T e x| | | | | | | | | | | | | | | | | | | | | | | | | |]; try done.
  destruct e; try done. cbn in Hd. apply negb_true_iff, bool_decide_eq_false in Hd. unfold applies in Ha. cbn in Ha. intros E. rewrite E in Ha. by destruct x.
Qed.

(** The instruction at the program counter is one. *)
Lemma applies_at_code op s : 0 <= st.s_Pc s < 2 ^ 16 -> applies (cEq (eOp ePc) op) s = true -> st.Code_IsCode (st.s_Code s) (st.s_Pc s) = true.
Proof.
  intros Hpc. unfold applies. cbn [Condition_Check]. unfold eq_Check. cbn [Eval]. unfold op_Eval, pc_Eval. cbn [eval_bind].
  rewrite NewU256_NewInt by zblia. unfold U256_IsUint64, U256_Uint64. rewrite NewInt_IsUint64, NewInt_Uint64 by zblia.
  rewrite Z.gtb_ltb, (proj2 (Z.ltb_ge _ _)) by (unfold MaxInt; zblia). cbn [negb orb]. unfold st.Code_GetOperation.
  destruct (_ || _) eqn:E; [unfold st.Code_IsCode; by rewrite E|]. by destruct (st.Code_IsCode (st.s_Code s) (st.s_Pc s)).
Qed.

Lemma testable_op rule s op : applies (r_Condition rule) s = true -> ruleToOpString rule = Some op -> applies (cEq (eOp ePc) op) s = true.
Proof. intros Ha%applies_getConditions Hop%find_op_elem. rewrite Forall_forall in Ha. by apply Ha. Qed.

(** A generated state that a testable rule applies to is valid, and the driver
    finds the rule. *)
Lemma testable_valid rule s : testable rule = true -> tested s -> applies (r_Condition rule) s = true ->
  zlen (st.tx_BlobHashes (st.s_TransactionContext s)) < 2 ^ 63 -> valid s.
Proof.
  unfold testable. intros [[_ Hrev]%andb_true_iff Hop]%andb_true_iff [Hlim Hr] Ha Hblobs.
  apply StateGenerator.in_limits_valid; [done|by apply (isSupported_revision (r_Condition rule))|done| |done]. intros Hrun.
  destruct (ruleToOpString rule) as [op|] eqn:E; [|by apply (isStopped_status _ _ Ha) in Hop]. apply (applies_at_code op); [by destruct Hlim|].
  by apply (testable_op rule).
Qed.

Lemma testable_found rules rule s : testable rule = true -> In rule rules -> valid s -> applies (r_Condition rule) s = true ->
  exists r rs, GetRulesFor rules s = Some (r :: rs).
Proof.
  intros Ht Hin Hv Ha. destruct (GetRulesFor_some rules s Hv) as (found & Hf & _). exists (hd rule found), (tl found). rewrite Hf.
  assert (In rule found) as H; [|destruct found; [done|done]]. revert Hf. unfold GetRulesFor. destruct (st.Code_GetOperation _ _) as [[op err]|] eqn:Eop; [|done].
  intros [= <-]. apply List.filter_In. split; [|done]. apply List.filter_In. split; [done|]. apply bool_decide_eq_true.
  unfold testable in Ht. apply andb_true_iff in Ht as [[_ Hrev]%andb_true_iff Hop]. apply (isSupported_revision _ _ Ha) in Hrev.
  rewrite (proj2 (Z.eqb_neq (st.s_Revision s) R99_UnknownNextRevision)) by (unfold R99_UnknownNextRevision, NewestSupportedRevision, R15_Osaka in *; lia).
  destruct (ruleToOpString rule) as [op'|] eqn:E.
  - pose proof (applies_op s op' Hv (testable_op _ _ _ Ha E)) as H. rewrite Eop in H. injection H as -> ->.
    apply (isRunning_status _ _ Ha) in Hop. by rewrite bool_decide_eq_true_2.
  - apply (isStopped_status _ _ Ha) in Hop. rewrite bool_decide_eq_false_2 by done. by destruct err.
Qed.

End Testable.

Section Enumeration.
Context {U : Uint256} {UL : Uint256Laws U} {R : Type} {RND : Rand R} {RL : RandLaws R RND} {P : Type}.
Context (pool_Get : P -> st.Stack * P) (pool_Put : st.Stack -> P -> P) (Hpool : forall p, pooled (fst (pool_Get p))).

Lemma testable_basic rule : testable rule = true -> Forall basic (getConditions (r_Condition rule)).
Proof.
  unfold testable. intros [[H _]%andb_true_iff _]%andb_true_iff. apply Forall_forall. intros d Hd. apply basicb_spec.
  rewrite List.forallb_forall in H. by apply H, list_elem_of_In.
Qed.

(** The enumeration of a testable rule ends without a panic, with states in
    the limits, of the revision of their block. *)
Lemma testable_enumerated rule (rnd : R) pool : testable rule = true ->
  exists e, EnumerateTestCases pool_Get pool_Put record rule rnd pool [] = Some e /\ Forall tested (en_consumer e)
    /\ (en_error e = None \/ en_error e = Some ErrUnboundVariable).
Proof.
  intros Ht. destruct (basic_generators (r_Condition rule) (testable_basic _ Ht)) as (dims & l & Ed & El & Hl).
  apply (EnumerateTestCases_tested pool_Get pool_Put record Hpool (Forall tested)) with (dimensions := dims) (l := l); [|done|done|done|by constructor].
  intros s states Hs Hst. eexists _, _. split; [done|]. apply Forall_app. split; [done|by apply Forall_singleton].
Qed.

(** The test of an enumerated state that the rule applies to passes. *)
Lemma testable_passes {C} {L : LRU jumpDestMap C} {LL : LRULaws L} (Keccak256 : list byte -> Hash) (Keccak256For32byte : array 32 -> Hash)
    (deployed : Code -> Prop) (vm : sfvm C) cache garbage pool1 pool2 rule s :
  (forall c1 c2, deployed c1 -> deployed c2 -> Keccak256 c1 = Keccak256 c2 -> c1 = c2) ->
  test_vm Keccak256 Keccak256For32byte deployed vm cache -> zlen garbage = maxStackSize -> pooled pool1 -> pooled pool2 ->
  testable rule = true -> In rule (getAllRules Keccak256) -> tested s -> applies (r_Condition rule) s = true ->
  zlen (st.tx_BlobHashes (st.s_TransactionContext s)) < 2 ^ 63 -> deployed (ct_code s) ->
  runTest Keccak256 (getAllRules Keccak256) (fun t => StepN Keccak256 Keccak256For32byte vm cache garbage t 1) pool1 pool2 s = Some TestPassed.
Proof.
  intros Hinj Hvm Hg Hp1 Hp2 Ht Hin Hs Ha Hb Hd. assert (valid s) as Hv by (by apply (testable_valid rule)).
  destruct (runTest_ok Keccak256 Keccak256For32byte deployed vm cache garbage pool1 pool2 s) as (found & Hf & ->); try done.
  destruct (testable_found (getAllRules Keccak256) rule s) as (r & rs & Hr); try done. rewrite Hr in Hf. by injection Hf as <-.
Qed.

End Enumeration.
