(* ===== verification/CtCovered.v ===== *)
(** * Rules whose states are verified to be generated

    Which rules of the specification the soundness of the generators covers:
    the conditions of the rule restrict the generator of states to one with
    tractable constraints, which a check decides, so that the states that are
    generated for the rule are accepted by it. *)
From Stdlib Require Import ZArith Lia Strings.Byte Eqdep.
From stdpp Require Import base list numbers gmap strings sorting.
From S2P Require Import Prelude Uint256 Types OpCodes CtCommon CtState CtRules CtStateFacts CtRand CtGenSolvers CtGenStack CtGenCode.
From S2P Require Import CtGenStorage CtGenContexts CtGenAccounts CtGenState CtRestrict CtRestrictSound CtRunTest CtBasicRules.
Set Default Goal Selector "!".
Local Open Scope Z_scope.
Local Open Scope go_scope.

Section Covered.
Context {U : Uint256} {UL : Uint256Laws U}.

(** The conditions of the rule lead to tractable constraints of machine
    integers. *)
Definition covered (rule : Rule) : Prop :=
  exists g, Condition_Restrict (r_Condition rule) StateGenerator.New = Some g /\ restrictable (r_Condition rule)
    /\ StateGenerator.wf g /\ tractable g.

(** ** Deciding what is well formed *)

Definition rangeb (T : intType) (s : RangeSolver) : bool :=
  match T with
  | Int64 => bool_decide (- 2 ^ 63 <= rs_min s < 2 ^ 63 /\ - 2 ^ 63 <= rs_max s < 2 ^ 63)
  | Uint64 => bool_decide (0 <= rs_min s < 2 ^ 64 /\ 0 <= rs_max s < 2 ^ 64)
  end.

Lemma rangeb_spec T s : rangeb T s = true -> RangeSolver.wf T s.
Proof. destruct T; cbn; intros H%bool_decide_eq_true; unfold RangeSolver.wf, isT, isI64, isU64; lia. Qed.

Definition stackb (g : StackGenerator) : bool :=
  bool_decide (0 <= rs_min (sg_size g) < 2 ^ 63 /\ - 2 ^ 63 <= rs_max (sg_size g) <= st.MaxStackSize
    /\ Forall (fun c => cv_pos c < MaxInt64) (sg_constValues g) /\ Forall (fun c => vv_pos c < MaxInt64) (sg_varValues g)).

Lemma stackb_spec g : stackb g = true -> StackGenerator.wf g.
Proof. intros (H1 & H2 & H3 & H4)%bool_decide_eq_true. rewrite Forall_forall in H3. rewrite Forall_forall in H4. by split. Qed.

Definition codeb (g : CodeGenerator) : bool :=
  bool_decide (Forall (fun c => co_pos c < 2 ^ 60) (cg_constOps g) /\ zlen (cg_varOps g) < 2 ^ 50 /\ cg_codeSize g = None).

Definition blockb (b : BlockContextGenerator) : bool :=
  match bcg_blockNumberSolver b with Some s => rangeb Uint64 s | None => true end
  && bool_decide (map_Forall (fun _ off => - 2 ^ 63 <= off < 2 ^ 63) (bcg_valueConstraint b)).

Lemma blockb_spec b : blockb b = true -> BlockContextGenerator.wf b.
Proof.
  intros [H1 H2%bool_decide_eq_true]%andb_true_iff. split; [|exact H2]. intros s Es. rewrite Es in H1. by apply rangeb_spec.
Qed.

Definition accountsb (g : AccountsGenerator) : bool :=
  bool_decide (zlen (ag_emptyAccounts g) < 2 ^ 16 /\ zlen (ag_minBalance g) < 2 ^ 16 /\ zlen (ag_maxBalance g) < 2 ^ 16
    /\ zlen (ag_warmCold g) < 2 ^ 16 /\ zlen (ag_delegationDesignator g) < 2 ^ 16).

Definition storageb (g : StorageGenerator) : bool := bool_decide (zlen (stg_cfg g) < 2 ^ 16 /\ zlen (stg_warmCold g) < 2 ^ 16).

Definition wfb (g : StateGenerator) : bool :=
  bool_decide (Forall (fun p => 0 <= p < 2 ^ 16) (ng_pcConstantConstraints g)
    /\ 0 <= rs_min (ng_gasConstraints g) /\ rs_max (ng_gasConstraints g) <= st.MaxGasUsedByCt
    /\ Z.of_nat (size (tsg_nonZeroConstraints (ng_transientStorageGen g))) < 2 ^ 16)
  && rangeb Int64 (ng_gasConstraints g) && rangeb Int64 (ng_gasRefundConstraints g) && codeb (ng_codeGen g)
  && stackb (ng_stackGen g) && storageb (ng_storageGen g) && accountsb (ng_accountsGen g) && blockb (ng_blockContextGen g).

(** ** Deciding what is tractable *)

Definition tractableb (g : StateGenerator) : bool :=
  let code := ng_codeGen g in let storage := ng_storageGen g in let accounts := ng_accountsGen g in
  let blobs := tcg_blobHashVariables (ng_transactionContextGen g) in let block := ng_blockContextGen g in
  bool_decide (Forall (fun b => vb_variable b ∉ cg_varIsCodeConstraints code ++ cg_varIsDataConstraints code ++ ng_selfAddressBindings g)
    (ng_variableBindings g))
  && bool_decide (Forall (fun v => v ∉ CodeGenerator.variables code ++ ng_pcVariableConstraints g) (ng_selfAddressBindings g))
  && bool_decide (Forall (fun v => v ∉ StateGenerator.boundFirst g) (StorageGenerator.keyVars storage))
  && bool_decide (Forall (fun a => Forall (fun b => sc_key a = sc_key b -> a = b) (stg_cfg storage)) (stg_cfg storage))
  && bool_decide (Forall (fun a => sc_newValue a ∉ StorageGenerator.keyVars storage) (stg_cfg storage))
  && bool_decide (map_Forall (fun _ c => c <> true) (tsg_nonZeroConstraints (ng_transientStorageGen g)))
  && bool_decide (Forall (fun v => v ∉ StateGenerator.boundWithStorage g) (AccountsGenerator.variables accounts))
  && bool_decide (Forall (fun a => ec_empty a = false -> Forall (fun b => ec_address a <> bal_address b) (ag_minBalance accounts ++ ag_maxBalance accounts))
    (ag_emptyAccounts accounts))
  && bool_decide (map_Forall (fun _ c => c = true -> map_Forall (fun v c => c = false -> v ∉ StateGenerator.boundWithAccounts g) blobs) blobs)
  && bool_decide (map_Forall (fun _ off => off <> - 2 ^ 63) (bcg_valueConstraint block))
  && bool_decide (map_Forall (fun v c => c = true -> bcg_valueConstraint block !! v <> Some 0) (bcg_rangeConstraints block))
  && bool_decide (map_Forall (fun _ c => c = false -> 256 <= default 0 (rs_min <$> bcg_blockNumberSolver block)) (bcg_rangeConstraints block)).

Lemma tractableb_spec g : tractableb g = true -> tractable g.
Proof.
  unfold tractableb. cbv zeta. intros H. repeat (apply andb_true_iff in H as [H ?]).
  repeat match goal with H : bool_decide _ = true |- _ => apply bool_decide_eq_true in H end.
  repeat match goal with H : Forall _ _ |- _ => rewrite Forall_forall in H end. split; auto.
  - intros b Hb. specialize (H b Hb). rewrite !elem_of_app in H. tauto.
  - intros v Hv. specialize (H10 v Hv). rewrite elem_of_app in H10. tauto.
  - intros a b Ha Hb. specialize (H8 a Ha). rewrite Forall_forall in H8. auto.
  - intros v Hv. by destruct (H6 v true Hv).
  - intros a b Ha He Hb. specialize (H4 a Ha He). rewrite Forall_forall in H4. auto.
  - intros u v Hu Hv. exact (H3 u true Hu eq_refl v false Hv eq_refl).
  - intros v Hv. exact (H1 v true Hv eq_refl).
  - intros v Hv. pose proof (H0 v false Hv eq_refl) as Hm. cbn in Hm. destruct (bcg_blockNumberSolver _) as [s|]; cbn in Hm; [eauto|lia].
Qed.

Lemma wfb_spec g : wfb g = true -> tractable g -> StateGenerator.wf g.
Proof.
  unfold wfb. intros H Ht. repeat (apply andb_true_iff in H as [H ?]). apply bool_decide_eq_true in H as (Hpc & Hmin & Hmax & Htr).
  unfold codeb in H4. apply bool_decide_eq_true in H4 as (Hc1 & Hc2 & Hc3). rewrite Forall_forall in Hpc. rewrite Forall_forall in Hc1.
  split; [done|by apply rangeb_spec|done|by apply rangeb_spec| |done|by apply stackb_spec| |done| |by apply blockb_spec|].
  - split; [done|done|]. intros n. by rewrite Hc3.
  - unfold storageb in H2. apply bool_decide_eq_true in H2 as [? ?]. by split.
  - unfold accountsb in H1. apply bool_decide_eq_true in H1 as (? & ? & ? & ? & ?). by split.
  - intros v Hv. pose proof (tr_accounts g Ht v Hv) as Hn. unfold StateGenerator.boundWithStorage, StateGenerator.boundFirst in Hn.
    rewrite !elem_of_app in Hn. split; [tauto|]. split; [tauto|].
    destruct (tsg_nonZeroConstraints _ !! v) as [c|] eqn:Ec; [|done]. destruct Hn. do 2 right. apply elem_of_map. exists (v, c). split; [done|].
    by apply elem_of_map_to_list.
Qed.

(** ** Deciding what is restrictable *)

(** A parameter or a constant. *)
Definition plainb {T} (e : Expression T) : bool := match e with eParam _ _ | eConstant _ => true | _ => false end.
Definition bindableb (e : Expression U256) : bool := isPc e || plainb e.
Definition accountb {T} (e : Expression T) : bool := match e with eSelfAddress => true | eToAddress e' => plainb e' | _ => false end.

(** The domain of a parameter is a function; comparisons of parameters are not
    decided. *)
Definition exprb {T} (e : Expression T) : bool :=
  match e with
  | eOp position => bindableb position
  | eBalance account => accountb account
  | eParam _ _ => false
  | _ => true
  end.

Definition boundb {T} (lhs : Expression T) : T -> bool :=
  match lhs in Expression T return T -> bool with
  | eGas | eStackSize => fun n => bool_decide (- 2 ^ 63 + 2 <= n < 2 ^ 63 - 2)
  | eBalance _ => fun x => bool_decide (2 <= uval x < 2 ^ 256 - 2)
  | _ => fun _ => true
  end.

Fixpoint restrictableb (c : Condition) : bool :=
  match c with
  | cConjunction conditions => fold_right (fun c b => restrictableb c && b) true conditions
  | cEq lhs _ | cNe lhs _ | cLe lhs _ | cGe lhs _ => exprb lhs
  | cLt lhs rhs | cGt lhs rhs => exprb lhs && boundb lhs rhs
  | cRevisionBounds min max => knownb min && knownb max
  | cIsCode e | cIsData e => bindableb e
  | cStorageConfiguration _ key newValue => plainb key && plainb newValue
  | cIsStorageWarm e | cIsStorageCold e | cBindTransientStorageToNonZero e | cBindTransientStorageToZero e
  | cAccountIsEmpty e | cAccountIsNotEmpty e | cIsAddressWarm e | cIsAddressCold e
  | cInRange256FromCurrentBlock e | cOutOfRange256FromCurrentBlock e | cHasBlobHash e | cHasNoBlobHash e => plainb e
  | cIsNewContract | cIsNotNewContract | cHasSelfDestructed | cHasNotSelfDestructed => true
  | cContainsDelegationDesignation _ _ => false
  end.

Lemma plainb_spec (e : Expression U256) : plainb e = true -> plain e.
Proof.
  assert (forall T (e : Expression T) (H : T = U256), plainb e = true -> plain (eq_rect T Expression e U256 H)) as He.
  { intros T e' H. destruct e'; try done; intros _; rewrite <-eq_rect_eq; [left|right]; eauto. }
  apply (He U256 e eq_refl).
Qed.

Lemma bindableb_spec e : bindableb e = true -> bindable e.
Proof. intros [->%isPc_spec|H%plainb_spec]%orb_true_iff; [by left|by right]. Qed.

Lemma accountb_spec (e : Expression Address) : accountb e = true -> account_ok e.
Proof.
  assert (forall T (e : Expression T) (H : T = Address), accountb e = true -> account_ok (eq_rect T Expression e Address H)) as He.
  { intros T e' H. destruct e'; try done; rewrite <-eq_rect_eq; [by left|]. intros Hp%plainb_spec. right. eauto. }
  apply (He Address e eq_refl).
Qed.

Lemma exprb_spec {T} (e : Expression T) : exprb e = true -> expr_ok e.
Proof. destruct e; try done; cbn; [apply accountb_spec|apply bindableb_spec]. Qed.

Lemma boundb_spec {T} (e : Expression T) x : boundb e x = true -> lt_ok e x /\ gt_ok e x.
Proof. destruct e; try done; cbn; intros H%bool_decide_eq_true; lia. Qed.

Lemma restrictableb_spec c : restrictableb c = true -> restrictable c.
Proof.
  revert c. fix IH 1. intros []; cbn [restrictableb restrictable]; try done; try apply exprb_spec; try apply bindableb_spec; try apply plainb_spec.
  - clear -IH. induction conditions as [|c l IHl]; cbn; [done|]. intros [Hc Hl]%andb_true_iff. split; [by apply IH|by apply IHl].
  - intros [He Hb]%andb_true_iff. split; [by apply exprb_spec|by apply boundb_spec].
  - intros [He Hb]%andb_true_iff. split; [by apply exprb_spec|by apply boundb_spec].
  - intros [H1 H2]%andb_true_iff. split; by apply knownb_spec.
  - intros [H1 H2]%andb_true_iff. split; by apply plainb_spec.
Qed.

Definition coveredb (rule : Rule) : bool :=
  restrictableb (r_Condition rule)
  && match Condition_Restrict (r_Condition rule) StateGenerator.New with Some g => wfb g && tractableb g | None => false end.

Lemma coveredb_spec rule : coveredb rule = true -> covered rule.
Proof.
  intros [Hr H]%andb_true_iff. unfold covered. destruct (Condition_Restrict _ _) as [g|]; [|done]. apply andb_true_iff in H as [Hw Ht%tractableb_spec].
  exists g. split; [done|]. split; [by apply restrictableb_spec|]. split; [by apply wfb_spec|done].
Qed.

End Covered.
