(* ===== verification/CtGenProperties.v ===== *)
(** * Properties of the generators and of the enumeration of tests

    The main theorems about the generation of test cases: the solvers keep
    exactly the values their constraints admit, the generator of states is
    sound for tractable constraints and so for the rules that are covered, the
    enumeration passes the product of all test values to its consumer, the tests of the states it enumerates for the basic rules of the
    specification pass, and the parallel run of the tests is complete and
    ends. The last section shows where the generators fall short. *)
From Stdlib Require Import ZArith Lia Strings.Byte.
From stdpp Require Import base list numbers gmap strings pretty sorting relations.
From S2P Require Import Prelude Uint256 Types OpCodes SfvmStack SfvmAnalysis SfvmHashCache SfvmContext SfvmInterpreter RefWorld.
From S2P Require Import CtCommon CtState CtStateFacts CtRules CtSpec CtAdapter CtExec CtSim CtConform CtConformance CtRunTest CtProperties.
From S2P Require Import CtRand CtGenSolvers CtGenStack CtGenCode CtGenStorage CtGenContexts CtGenAccounts CtGenState CtRestrict CtRestrictSound.
From S2P Require Import CtBasicRules CtCovered CtEnumerate CtEnumerateFacts CtForEachState.
Set Default Goal Selector "!".
Local Open Scope Z_scope.
Local Open Scope go_scope.

(** ** Solvers *)

(** The constraints of an interval solver, their application and their
    meaning. *)
Inductive intervalConstraint :=
| atLeast (value : Z)
| atMost (value : Z)
| equalTo (value : Z)
| outside (min max : Z).

Definition constrain (T : intType) (s : IntervalSolver) (c : intervalConstraint) : IntervalSolver :=
  match c with
  | atLeast value => IntervalSolver.AddLowerBoundary T value s
  | atMost value => IntervalSolver.AddUpperBoundary T value s
  | equalTo value => IntervalSolver.AddEqualityConstraint T value s
  | outside min max => IntervalSolver.Exclude T min max s
  end.

Definition meets (x : Z) (c : intervalConstraint) : Prop :=
  match c with
  | atLeast value => value <= x
  | atMost value => x <= value
  | equalTo value => x = value
  | outside min max => ~ min <= x <= max
  end.

Definition typed (T : intType) (c : intervalConstraint) : Prop :=
  match c with
  | atLeast value | atMost value | equalTo value => isT T value
  | outside min max => isT T min /\ isT T max
  end.

Lemma constrain_spec T s c : typed T c -> IntervalSolver.wf T s ->
  IntervalSolver.wf T (constrain T s c) /\ forall x, IntervalSolver.dom (constrain T s c) x <-> IntervalSolver.dom s x /\ meets x c.
Proof.
  destruct c as [v|v|v|a b]; cbn.
  - apply IntervalSolver.AddLowerBoundary_spec.
  - apply IntervalSolver.AddUpperBoundary_spec.
  - apply IntervalSolver.AddEqualityConstraint_spec.
  - intros [Ha Hb]. by apply IntervalSolver.Exclude_spec.
Qed.

Lemma constrain_all T s l : Forall (typed T) l -> IntervalSolver.wf T s ->
  IntervalSolver.wf T (fold_left (constrain T) l s)
  /\ forall x, IntervalSolver.dom (fold_left (constrain T) l s) x <-> IntervalSolver.dom s x /\ Forall (meets x) l.
Proof.
  intros Hl. revert s. induction Hl as [|c l Hc Hl IH]; intros s Hs; cbn [fold_left].
  - split; [done|]. intros x. split; [|by intros [? _]]. intros. split; [done|constructor].
  - destruct (constrain_spec T s c Hc Hs) as [Hw Hd]. destruct (IH _ Hw) as [Hw' Hd']. split; [done|]. intros x. rewrite Hd', Hd, Forall_cons. tauto.
Qed.

(** C22. The interval solver is exact: after any constraints it contains a
    value of the type exactly when the value meets all of them; it is
    satisfiable exactly when there is such a value; what it generates is such
    a value, for any random source, and it reports that there is none
    otherwise; and each of the numbers it draws from selects another of the
    values, so that all of them can be generated. *)
Theorem interval_solver_exact {R} {RND : Rand R} {RL : RandLaws R RND} T min max l :
  isT T min -> isT T max -> Forall (typed T) l ->
  let s := fold_left (constrain T) l (IntervalSolver.New min max) in
  let admitted x := min <= x <= max /\ Forall (meets x) l in
  (forall x, IntervalSolver.Contains s x = true <-> admitted x)
  /\ (IntervalSolver.IsSatisfiable s = true <-> exists x, admitted x)
  /\ (forall w : world R, match IntervalSolver.Generate T s w with
      | gOk x w' => admitted x /\ w_assignment w' = w_assignment w
      | gErr e _ => e = ErrUnsatisfiable /\ ~ exists x, admitted x
      | gPanic | gLoop => False
      end)
  /\ (IntervalSolver.count s < 2 ^ 64 -> forall x, admitted x ->
      exists n, 0 <= n < IntervalSolver.domainSize T s /\ IntervalSolver.pick T s n = Some x
        /\ forall m, 0 <= m < IntervalSolver.domainSize T s -> IntervalSolver.pick T s m = Some x -> m = n).
Proof.
  intros Hmin Hmax Hl s admitted. destruct (constrain_all T (IntervalSolver.New min max) l Hl (IntervalSolver.New_wf _ _ _ Hmin Hmax)) as [Hw Hd].
  fold s in Hw, Hd. assert (forall x, IntervalSolver.dom s x <-> admitted x) as Ha by (intros x; by rewrite Hd, IntervalSolver.New_dom).
  split; [intros x; by rewrite IntervalSolver.Contains_dom|]. split.
  { unfold IntervalSolver.IsSatisfiable. rewrite Z.gtb_lt. setoid_rewrite <-Ha. split.
    - intros Hlen. destruct s as [|i s']; [done|]. exists (low i). apply IntervalSolver.dom_cons. left.
      apply IntervalSolver.wf_cons in Hw as ((_ & _ & Hi) & _). unfold elem_of, interval_elem_of. lia.
    - intros (x & i & Hi & _). destruct s; [by apply not_elem_of_nil in Hi|]. unfold zlen. cbn. lia. }
  split.
  - intros w. pose proof (IntervalSolver.interval_Generate_spec (R := R) T s (fun x w' => admitted x /\ w_assignment w' = w_assignment w)
      (fun e => e = ErrUnsatisfiable /\ ~ exists x, admitted x) w Hw) as H. apply H.
    + intros x r Hx. split; [by apply Ha|done].
    + intros Hs. split; [done|]. intros [x Hx%Ha]. rewrite Hs in Hx. by apply IntervalSolver.dom_nil in Hx.
  - intros Hc x Hx%Ha. pose proof (IntervalSolver.count_nonneg _ _ Hw). rewrite IntervalSolver.domainSize_count, u64_id by zblia.
    destruct (IntervalSolver.pick_onto T s x Hw Hc Hx) as (n & Hn & Hp). exists n. split; [done|]. split; [done|]. intros m Hm Hpm.
    destruct (Z.lt_trichotomy m n) as [Hlt|[->|Hlt]]; [|done|].
    + pose proof (IntervalSolver.pick_increasing T s m n x x Hw Hc ltac:(lia) ltac:(lia) Hpm Hp). lia.
    + pose proof (IntervalSolver.pick_increasing T s n m x x Hw Hc ltac:(lia) ltac:(lia) Hp Hpm). lia.
Qed.

(** ** States *)

Section Generator.
Context {U : Uint256} {UL : Uint256Laws U} {R : Type} {RND : Rand R} {RL : RandLaws R RND}.


(** C20. The states [GenerateSatisfyingState] returns for a covered rule, whose
    conditions restrict the generator to tractable constraints (2029 of the
    2859 rules of the specification are decided to be covered), are accepted by
    the condition of the rule, for any random source, if their blob hashes can be
    counted with an [int]. It does not panic and ends, and the only errors are that there is no such state or that a
    variable has no value. *)
Theorem covered_rules_satisfied pooled rule (r : R) : covered rule -> st.MaxStackSize <= zlen (st.stack pooled ++ st.spare pooled) ->
  match GenerateSatisfyingState pooled rule r with
  | gOk (s, _) _ => StateGenerator.in_limits s
      /\ (zlen (st.tx_BlobHashes (st.s_TransactionContext s)) < 2 ^ 63 -> applies (r_Condition rule) s = true)
  | gErr e _ => e = ErrUnsatisfiable \/ e = ErrUnboundVariable
  | gPanic | gLoop => False
  end.
Proof. intros (g & Hg & Hr & Hwf & Ht) Hpool. exact (GenerateSatisfyingState_spec pooled rule g r Hg Hr Hwf Ht Hpool). Qed.

End Generator.

(** ** Enumeration *)

Section Enumeration.
Context {U : Uint256} {UL : Uint256Laws U} {R : Type} {RND : Rand R} {RL : RandLaws R RND} {P : Type}.
Context (pool_Get : P -> st.Stack * P) (pool_Put : st.Stack -> P -> P).

(** C21. The enumeration of the test cases of a rule is exact. Its generators
    [l] are the initial one restricted by every combination of test values, one
    of each property, in the order of nested loops. The states are those of
    [test_states]: for each generator in turn the state it produces, unless its
    constraints cannot be satisfied, with every combination of samples for the
    parameters on its stack. The enumeration returns, and whatever the consumer
    is, it is called for exactly these states in this order until it aborts;
    there are at most as many as announced. The generators are well formed, no
    variable of an account is bound to a value ([generates]), and the number of
    cases fits into an [int]. *)
Theorem enumeration_exact {C} (consume : st.State -> C -> option (bool * C)) rule dimensions l (rnd : R) pool c :
  (forall p, pooled (fst (pool_Get p))) -> getPropertyTestValues (r_Condition rule) = Some dimensions ->
  test_generators (sortedCases dimensions) StateGenerator.New = Some l -> Forall generates l ->
  zlen l * parameter_cases (r_Parameter rule) < 2 ^ 63 ->
  mapM (fun choice => restrict_all choice StateGenerator.New) (combinations (sortedCases dimensions)) = Some l
  /\ zlen l = prod (map zlen (sortedCases dimensions))
  /\ exists i states err rnd' pool', GetTestCaseEnumerationInfo rule = Some i
    /\ TotalNumberOfCases i = zlen l * parameter_cases (r_Parameter rule) /\ zlen states <= TotalNumberOfCases i
    /\ test_states pool_Get pool_Put (r_Parameter rule) l rnd pool = Some (states, err, rnd', pool')
    /\ (err = None \/ err = Some ErrUnboundVariable)
    /\ match consume_each consume states c with
       | None => EnumerateTestCases pool_Get pool_Put consume rule rnd pool c = None
       | Some (true, c') => EnumerateTestCases pool_Get pool_Put consume rule rnd pool c = Some (mkEnumeration rnd' pool' err c')
       | Some (false, c') => exists rnd'' pool'', EnumerateTestCases pool_Get pool_Put consume rule rnd pool c
                             = Some (mkEnumeration rnd'' pool'' None c')
       end.
Proof.
  intros Hpool Ed El Hl Hmax. split; [by apply test_generators_combinations|]. pose proof (test_generators_length _ _ _ El) as Hlen. split; [done|].
  destruct (test_states_total pool_Get pool_Put (r_Parameter rule) l rnd pool Hpool Hl) as (states & err & rnd' & pool' & Es & Herr).
  assert (exists i, GetTestCaseEnumerationInfo rule = Some i) as [i Hi] by (unfold GetTestCaseEnumerationInfo; rewrite Ed; cbn; eauto).
  exists i, states, err, rnd', pool'. split; [done|].
  assert (TotalNumberOfCases i = zlen l * parameter_cases (r_Parameter rule)) as Ht.
  { rewrite (TotalNumberOfCases_product _ _ _ Ed Hi), <-Hlen. apply i64_id. pose proof (zlen_nonneg l).
    pose proof (parameter_cases_pos (r_Parameter rule)). unfold isI64. nia. }
  split; [done|]. split; [rewrite Ht; by eapply test_states_count|]. split; [done|]. split; [done|]. by eapply EnumerateTestCases_consumed.
Qed.

(** C4. The whole chain: for a rule of the specification with basic conditions
    the enumeration of the test cases ends without a panic, and on every state
    it yields that the rule applies to, which is what the driver selects, the
    test of [sfvm] passes. Only the revision, status and instruction a rule
    asks for make a state valid; nothing else is assumed of it. *)
Theorem testable_rules_pass (Keccak256 : list byte -> Hash) (Keccak256For32byte : array 32 -> Hash) rule (rnd : R) pool :
  (forall p, pooled (fst (pool_Get p))) -> In rule (getAllRules Keccak256) -> testable rule = true ->
  exists e, EnumerateTestCases pool_Get pool_Put record rule rnd pool [] = Some e
    /\ (en_error e = None \/ en_error e = Some ErrUnboundVariable)
    /\ forall s, s ∈ en_consumer e -> selected false rule s = true -> zlen (st.tx_BlobHashes (st.s_TransactionContext s)) < 2 ^ 63 ->
       valid s /\ forall C (L : LRU jumpDestMap C) (LL : LRULaws L) (deployed : Code -> Prop) (vm : sfvm C) cache garbage pool1 pool2,
         (forall c1 c2, deployed c1 -> deployed c2 -> Keccak256 c1 = Keccak256 c2 -> c1 = c2) ->
         test_vm Keccak256 Keccak256For32byte deployed vm cache -> zlen garbage = maxStackSize -> pooled pool1 -> pooled pool2 ->
         deployed (ct_code s) ->
         runTest Keccak256 (getAllRules Keccak256) (fun t => StepN Keccak256 Keccak256For32byte vm cache garbage t 1) pool1 pool2 s
         = Some TestPassed.
Proof.
  intros Hpool Hin Ht. destruct (testable_enumerated pool_Get pool_Put Hpool rule rnd pool Ht) as (e & He & Hs & Herr).
  exists e. split; [done|]. split; [done|]. intros s Hse Hsel Hblobs. rewrite Forall_forall in Hs. specialize (Hs s Hse).
  split; [by apply (testable_valid rule)|]. intros. by apply (testable_passes Keccak256 Keccak256For32byte deployed vm cache garbage pool1 pool2 rule s).
Qed.

End Enumeration.

(** ** The parallel run *)


(** ** Where the generators fall short *)

Section LessThan.
Context {U : Uint256} {UL : Uint256Laws U} {R : Type} {RND : Rand R} {RL : RandLaws R RND}.

(** A bound on the size of the stack is kept by basic conditions. *)
Lemma basic_Restrict_max c m g g' : basic c -> Condition_Restrict c g = Some g' ->
  rs_max (sg_size (ng_stackGen g)) <= m -> rs_max (sg_size (ng_stackGen g')) <= m.
Proof.
  intros Hc E Hm. destruct Hc; cbn in E; injection E as <-; try done; cbn;
    unfold RangeSolver.AddLowerBoundary, RangeSolver.AddUpperBoundary; case_if; cbn; b2p; lia.
Qed.

Lemma less_than_one_max l g g' : Forall basic l -> cLt eStackSize 1 ∈ l -> conjunction_Restrict Condition_Restrict l g = Some g' ->
  rs_max (sg_size (ng_stackGen g')) <= -1.
Proof.
  assert (forall l g g', Forall basic l -> conjunction_Restrict Condition_Restrict l g = Some g' ->
    rs_max (sg_size (ng_stackGen g)) <= -1 -> rs_max (sg_size (ng_stackGen g')) <= -1) as Hkeep.
  { intros l' h h' Hl. revert h. induction Hl as [|c l' Hc Hl IH]; intros h; cbn; [by intros [= ->]|].
    destruct (Condition_Restrict c h) as [h1|] eqn:E1; [|done]. cbn. intros E Hm. eapply IH; [exact E|]. by eapply basic_Restrict_max. }
  intros Hl. revert g. induction Hl as [|c l Hc Hl IH]; intros g Hin; [by apply not_elem_of_nil in Hin|]. cbn [conjunction_Restrict].
  destruct (Condition_Restrict c g) as [g1|] eqn:E1; [|done]. cbn [mbind option_bind]. intros E. apply elem_of_cons in Hin as [<-|Hin]; [|by eapply IH].
  eapply Hkeep; [exact Hl|exact E|]. cbn in E1. injection E1 as <-. cbn. change (1 -i64 1 -i64 1) with (-1).
  unfold RangeSolver.AddUpperBoundary. case_if; cbn; b2p; lia.
Qed.

(** C40. [Restrict] of a condition that a value is less than a bound lowers the
    bound twice, so that [GenerateSatisfyingState] finds no state for a rule
    that requires less than one value on the stack, although states with an
    empty stack satisfy it: it always returns an error. *)
Theorem less_than_one_unsatisfiable pooled rule (r : R) : forallb basicb (getConditions (r_Condition rule)) = true ->
  cLt eStackSize 1 ∈ getConditions (r_Condition rule) ->
  zlen (getConditions (r_Condition rule)) < 2 ^ 50 -> st.MaxStackSize <= zlen (st.stack pooled ++ st.spare pooled) ->
  (forall s, st.Stack_Size (st.s_Stack s) = 0 -> applies (cLt eStackSize 1) s = true)
  /\ exists e r', GenerateSatisfyingState pooled rule r = gErr e r'.
Proof.
  intros Hb Hin Hlen Hpool. split; [intros s Hs; unfold applies; cbn; by rewrite Hs|].
  assert (Forall basic (getConditions (r_Condition rule))) as HB.
  { apply Forall_forall. intros c Hc. rewrite List.forallb_forall in Hb. by apply basicb_spec, Hb, list_elem_of_In. }
  destruct (basic_gen_conditions 0 _ _ HB basic_gen_New) as (g & Eg & Hg). rewrite Z.add_0_l in Hg.
  pose proof (less_than_one_max _ _ _ HB Hin Eg) as Hmax. rewrite <-Restrict_getConditions in Eg.
  assert (gwp (StateGenerator.generateWith pooled g) (fun _ _ => False) (fun _ => True) (mkWorld r ∅)) as H.
  { apply generateWith_sound; try done; [by apply (basic_gen_wf _ _ Hg)|by apply (basic_gen_tractable _ _ Hg)|].
    intros s g' r' asg Hs _ _. pose proof (StackGenerator.sat_size _ _ _ (StateGenerator.sat_stack _ _ _ Hs)) as [_ Hsz].
    pose proof (zlen_nonneg (st.stack (st.s_Stack s))). unfold st.Stack_Size in *. lia. }
  unfold gwp in H. unfold GenerateSatisfyingState, StateGenerator.Generate. rewrite Eg. destruct (StateGenerator.generateWith pooled g (mkWorld r ∅)); eauto; done.
Qed.

End LessThan.

(** ** Concrete inputs *)

#[local] Existing Instance uint256_ref.
#[local] Existing Instance uint256_ref_laws.

Lemma interval_solver_exact_witness :
  IntervalSolver.Contains (fold_left (constrain Uint64) [atLeast 10; outside 20 30; atMost 50] (IntervalSolver.New 0 100)) 35 = true.
Proof.
  destruct (interval_solver_exact (R := Z) Uint64 0 100 [atLeast 10; outside 20 30; atMost 50]) as [H _].
  - unfold isT, isU64. lia.
  - unfold isT, isU64. lia.
  - repeat constructor; unfold isU64; lia.
  - apply H. split; [lia|]. repeat constructor; cbn; lia.
Defined.

(** How many rules the theorems about enumeration cover. *)
Lemma testable_rules : length (getAllRules refHash) = 2859%nat /\ length (List.filter testable (getAllRules refHash)) = 1447%nat.
Proof. by vm_compute. Qed.

Lemma addRule_testable : testable addRule = true.
Proof. by vm_compute. Qed.

(** How many rules are covered by the soundness of the generator. *)
Lemma covered_rules : length (List.filter coveredb (getAllRules refHash)) = 2029%nat.
Proof. by vm_compute. Qed.

(** The rule for [SSTORE] that changes a warm slot of London. *)
Definition storageRule : Rule :=
  default (mkRule (And []) [] NoEffect) (last (sstoreOpRegular (mkSstoreOpParams R10_London true StorageModified 2900 0))).

Lemma covered_rules_satisfied_witness : match GenerateSatisfyingState (testPool 3) storageRule 1 with
  | gOk (s, _) _ => StateGenerator.in_limits s
      /\ (zlen (st.tx_BlobHashes (st.s_TransactionContext s)) < 2 ^ 63 -> applies (r_Condition storageRule) s = true)
  | gErr e _ => e = ErrUnsatisfiable \/ e = ErrUnboundVariable
  | gPanic | gLoop => False
  end.
Proof. apply (covered_rules_satisfied (testPool 3) storageRule 1); [apply coveredb_spec; by vm_compute|by vm_compute]. Defined.

(** A state is generated. *)
Lemma storageRule_satisfied : exists s g w, GenerateSatisfyingState (testPool 3) storageRule 1 = gOk (s, g) w /\ applies (r_Condition storageRule) s = true.
Proof.
  assert (match GenerateSatisfyingState (testPool 3) storageRule 1 with gOk (s, _) _ => applies (r_Condition storageRule) s | _ => false end = true) as H
    by (by vm_compute).
  revert H. generalize (GenerateSatisfyingState (testPool 3) storageRule 1). intros [[s g] w| | |] H; [|discriminate..]. exists s, g, w. split; [reflexivity|exact H].
Qed.



(** A pool that always returns the same stack. *)
Definition testPool_Get (p : unit) : st.Stack * unit := (testPool 3, p).
Definition testPool_Put (_ : st.Stack) (p : unit) : unit := p.

Lemma testPool_ok p : pooled (fst (testPool_Get p)).
Proof. by vm_compute. Qed.

Lemma testable_rules_pass_witness : exists e, EnumerateTestCases testPool_Get testPool_Put record addRule 1 tt [] = Some e
  /\ forall s, s ∈ en_consumer e -> selected false addRule s = true -> zlen (st.tx_BlobHashes (st.s_TransactionContext s)) < 2 ^ 63 ->
     runTestOn s = Some TestPassed.
Proof.
  destruct (testable_rules_pass testPool_Get testPool_Put refHash refHash32 addRule 1 tt) as (e & He & _ & Hs).
  - exact testPool_ok.
  - apply addRule_applies.
  - apply addRule_testable.
  - exists e. split; [exact He|]. intros s Hin Hsel Hb. destruct (Hs s Hin Hsel Hb) as [_ H]. apply (H _ _ _ (fun c => c = ct_code s)).
    + by intros c1 c2 -> ->.
    + apply testVm_ok.
    + reflexivity.
    + by vm_compute.
    + by vm_compute.
    + reflexivity.
Defined.

(** The rule for [STOP]. *)
Definition stopState : st.State := testState R13_Cancun [STOP] [] 10 noStorage st.NewAccounts.
Definition stopRule : Rule := default (mkRule (And []) [] NoEffect) (firstRule stopState).

(** What the enumeration of it consists of. *)
Definition stopDimensions : list (string * list TestValue) := default [] (getPropertyTestValues (r_Condition stopRule)).

Lemma stopDimensions_ok : getPropertyTestValues (r_Condition stopRule) = Some stopDimensions.
Proof.
  unfold stopDimensions. assert (bool_decide (is_Some (getPropertyTestValues (r_Condition stopRule))) = true) as H by (by vm_compute).
  apply bool_decide_eq_true in H as [d ->]. reflexivity.
Qed.

Lemma enumeration_exact_witness : exists i states err rnd pool, GetTestCaseEnumerationInfo stopRule = Some i /\ TotalNumberOfCases i = 18
  /\ zlen states <= 18 /\ EnumerateTestCases testPool_Get testPool_Put record stopRule 1 tt [] = Some (mkEnumeration rnd pool err states).
Proof.
  assert (testable stopRule = true) as Ht by (by vm_compute).
  destruct (basic_generators (r_Condition stopRule) (testable_basic _ Ht)) as (dims & l & Ed & El & Hg).
  rewrite stopDimensions_ok in Ed. apply (inj Some) in Ed. subst dims. pose proof (test_generators_length _ _ _ El) as Hl.
  assert (prod (map zlen (sortedCases stopDimensions)) = 18) as H18 by (by vm_compute). rewrite H18 in Hl.
  assert (parameter_cases (r_Parameter stopRule) = 1) as H1 by (by vm_compute).
  destruct (enumeration_exact testPool_Get testPool_Put record stopRule stopDimensions l 1 tt []) as (_ & _ & i & states & err & rnd & pool & Hi & Hn & Hle & _ & _ & He).
  - exact testPool_ok.
  - apply stopDimensions_ok.
  - exact El.
  - exact Hg.
  - rewrite Hl, H1. lia.
  - rewrite consume_each_record in He. cbn in He. rewrite Hn, Hl, H1 in Hle. rewrite Hl, H1 in Hn.
    exists i, states, err, rnd, pool. split; [exact Hi|]. split; [exact Hn|]. split; [exact Hle|exact He].
Defined.

(** The rule for [POP] on an empty stack. *)
Definition popState : st.State := testState R13_Cancun [POP] [] 10 noStorage st.NewAccounts.
Definition underflowRule : Rule := default (mkRule (And []) [] NoEffect) (firstRule popState).

Lemma less_than_one_unsatisfiable_witness : applies (r_Condition underflowRule) popState = true
  /\ exists e r, GenerateSatisfyingState (testPool 3) underflowRule 1 = gErr e r.
Proof.
  split; [by vm_compute|]. apply (less_than_one_unsatisfiable (testPool 3) underflowRule 1).
  - by vm_compute.
  - vm_compute. repeat (constructor; fail || apply list_elem_of_further).
  - by vm_compute.
  - by vm_compute.
Defined.




(** A variable for a blob hash that exists and one for a blob hash that does
    not exist, both bound to 3: the generator of transaction contexts accepts
    the conflict and generates four blob hashes, with indices up to 3. *)
Definition blobConflict : TransactionContextGenerator :=
  TransactionContextGenerator.IsAbsentBlobHashIndex "b" (TransactionContextGenerator.IsPresentBlobHashIndex "a" TransactionContextGenerator.New).

Lemma blob_index_conflict : exists tx w,
  TransactionContextGenerator.Generate blobConflict (mkWorld 1 (<["a"%string := of_Z 3]> {["b"%string := of_Z 3]})) = gOk tx w
  /\ w_assignment w !! "b"%string = Some (of_Z 3) /\ zlen (st.tx_BlobHashes tx) = 4.
Proof.
  set (res := TransactionContextGenerator.Generate blobConflict _). assert (match res with
    | gOk tx w => bool_decide (w_assignment w !! "b"%string = Some (of_Z 3) /\ zlen (st.tx_BlobHashes tx) = 4) | _ => false end = true) as H by (by vm_compute).
  revert H. generalize res. intros [tx w| | |] H; [|discriminate..]. apply bool_decide_eq_true in H. by exists tx, w.
Qed.
